(* ===== verification/_CoqProject ===== *)
-Q . S2P
Prelude.v
Result.v
Sqlite.v
Transactions.v
MetadataDb.v
PluginApi.v
CryptoManager.v
MetadataSync.v
PluginWrapper.v
WrapperSpec.v
MetadataLock.v
SqlitePlugin.v
SqlitePluginSpec.v
SqliteSearch.v
SqlCipherPlugin.v
CipherSpec.v
PluginFunctionWrappers.v
FunctionSpec.v
VaultSpec.v
StorageFunctionSpec.v
CipherSafety.v
RequestQueue.v
RequestQueueSpec.v
DataProtector.v
DataProtectorSpec.v
Processor.v
ProcessorCollections.v
ProcessorSecrets.v
ProcessorStandalone.v
ProcessorLocks.v
ProcessorCompletion.v
SecretsService.v
ProcessorSystem.v
ProcessorAccess.v
ApplicationPermissions.v
ProcessorAuthorized.v
ProcessorDispatch.v
ProcessorAnswers.v
Controller.v
LockCodes.v
LockCodesSpec.v
CryptoKey.v
KeySerialization.v
CryptoPluginWrapper.v
CryptoFunctionWrappers.v
CryptoWrapperSpec.v
SqlCipherCrypto.v
SqlCipherCryptoSpec.v
CryptoKeysSpec.v
CryptoProcessor.v
CryptoService.v
CryptoSystem.v
CryptoPromises.v
ClientRequest.v
SecretsClient.v
CryptoClient.v
CipherRequest.v
Marshalling.v
Messages.v
AuthPlugins.v
InAppInteraction.v
ValueClasses.v
OpenSslApi.v
OpenSslEvp.v
OpenSslCrypto.v
OpenSslSessions.v
OpenSslSpec.v
OpenSslSessionsSpec.v
OpenSslSessionsInv.v
Examples.v
DatabaseProps.v
StorageProps.v
VaultProps.v
QueueProps.v
ProcessorProps.v
LockProps.v
CryptoProps.v
OpenSslProps.v
CryptoServiceProps.v
ClientProps.v
