(* ===== verification/Prelude.v ===== *)
(** Verification of the Sailfish secrets daemon.

    The program is a D-Bus daemon that keeps the secrets and keys of
    applications.  A request arrives at the request queue (daemon/requestqueue),
    is checked by a request processor (daemon/SecretsImpl, daemon/CryptoImpl),
    and ends in operations on plugins.  Storage plugins keep collections of
    secrets; encryption plugins encrypt what is put there; encrypted storage
    plugins do both.  The daemon wraps each storage plugin
    (daemon/SecretsImpl/pluginwrapper) with a database of metadata about what the
    plugin stores (metadatadb), written in the same transaction, and encrypted
    with the master lock key.  Compound operations on wrapped plugins
    (pluginfunctionwrappers) run in plugin threads.  All databases are used
    through one small layer (database/database).  The daemon's own salt and check
    data are kept in redundant files (dataprotector).

    * The files

    - This file: the state monad in which the C++ member functions are
      translated, its weakest preconditions [wp], the lifting [zoom] to a field,
      [preserves] with its hint database and tactic [keep], and facts on lists,
      maps and strings.
    - Result: results, enumerations and identifiers of lib/Secrets.
    - Sqlite: database/database.cpp, with the specification of its counted
      transactions; Transactions: the steps of a transaction as plugins write
      them.
    - MetadataDb: metadatadb.cpp; MetadataSync: what its two synchronization
      functions leave; MetadataLock: locking, unlocking and re-keying it.
    - PluginApi: the plugin interfaces of lib/Secrets/Plugins/extensionplugins.h
      as classes of operations, with two contracts as classes of laws:
      [StoragePluginSpec] against an abstract [Store], and
      [EncryptedStoragePluginSpec] against an abstract [Vault].  Clients are
      proved against the contracts, the plugins of the repository discharge them.
    - PluginWrapper: pluginwrapper.cpp for any plugin; WrapperSpec: its
      correctness.
    - SqlitePlugin, SqlitePluginSpec, SqliteSearch: plugins/sqliteplugin, an
      instance of [StoragePluginSpec].
    - SqlCipherPlugin, CipherSpec, CipherSafety:
      plugins/sqlcipherplugin/encryptedstorageplugin.cpp, an instance of
      [EncryptedStoragePluginSpec].
    - PluginFunctionWrappers: pluginfunctionwrappers.cpp; FunctionSpec,
      VaultSpec, StorageFunctionSpec: its correctness.
    - RequestQueue, RequestQueueSpec: daemon/requestqueue.cpp, as a system of
      posted events with a step relation and its reachable states.
    - DataProtector, DataProtectorSpec: dataprotector.cpp over a file system that
      may fail.
    - Processor, ProcessorCollections, ProcessorSecrets, ProcessorStandalone,
      ProcessorLocks, ProcessorCompletion:
      daemon/SecretsImpl/secretsrequestprocessor.cpp.  A handler is a term of the
      small effect language of Processor: it may read and write the processor's
      fields, start a function in the thread of the plugins with its
      continuation, ask an authentication plugin for a code, report a result for
      a request, or stop.  All requests of the processor and all its
      continuations are modelled.
    - SecretsService: the D-Bus methods of SecretsDBusObject, the functions the
      crypto side calls, the dispatch of pending requests to the processor and
      the delivery of results, in daemon/SecretsImpl/secrets.cpp.
    - ProcessorSystem: the processor among its surroundings as a step relation,
      in which requests, plugin results and answers of authentication plugins
      arrive in any order; at its end the general invariant of its reachable
      states for a policy that handlers obey; ProcessorAccess: the policy of
      access control; ProcessorAuthorized, ProcessorDispatch: every handler and
      continuation obeys it, and what the D-Bus methods store is what the
      dispatch reads; ProcessorAnswers: accounting of reports.
    - ApplicationPermissions: daemon/SecretsImpl/applicationpermissions.cpp, who a
      caller is for the processor.  AuthPlugins: plugins/passwordagentauthplugin,
      authentications by polkit and the device lock and passwords by an agent, as
      one state machine.  InAppInteraction: plugins/inappauthplugin with
      lib/Secrets/interactionrequestwatcher.cpp in the daemon, and in the
      application the service and the view of lib/Secrets/interactionservice.cpp;
      these three files end with their properties.
    - ValueClasses: the classes of lib/Secrets and lib/Crypto that share their
      private parts, with their copy constructors and setters; it ends with its
      properties.
    - Controller: the mapping of plugin names of daemon/controller.cpp.
    - LockCodes: the master lock code of daemon/SecretsImpl/secrets.cpp, from the
      redundant files over key derivation to the memory of the keys;
      LockCodesSpec: its correctness.
    - CryptoProcessor: daemon/CryptoImpl/cryptorequestprocessor.cpp, as handlers
      over the functions run in the plugin threads, the calls to the secrets
      service with the slots that take its answers, and the map of pending
      requests; at its end the locking of crypto plugins, across secrets.cpp and
      cryptorequestprocessor.cpp.  CryptoService: the D-Bus methods of
      CryptoDBusObject, the dispatch of requests and the replies, in
      daemon/CryptoImpl/crypto.cpp.  CryptoSystem: both among their surroundings
      as a step relation; CryptoPromises: what an operation, a call to the secrets
      service and an answer need to be right, and the invariant of all reachable
      states.
    - CryptoKey: keys and results of lib/Crypto; KeySerialization: the
      serialization of keys, over any data stream that reads back what it wrote,
      and such a stream.
    - CryptoPluginWrapper: the crypto plugin interface of
      lib/Crypto/Plugins/extensionplugins.h, and cryptopluginwrapper.cpp of
      daemon/CryptoImpl; CryptoFunctionWrappers: cryptopluginfunctionwrappers.cpp; CryptoWrapperSpec:
      their correctness for any plugin.
    - SqlCipherCrypto: plugins/sqlcipherplugin/cryptoplugin.cpp, which stores the
      keys of another crypto plugin in an encrypted storage; SqlCipherCryptoSpec,
      CryptoKeysSpec: stored keys through all three layers.
    - CryptoManager: the enumerations of lib/Crypto and the parameters of key
      generation and derivation.
    - OpenSslApi: OpenSSL as a parameter, and the memory that the code above it
      manages by hand: a heap of objects in which the use of a freed object, a
      double free and an access out of bounds are recorded, with its rules.
      OpenSslEvp, OpenSslCrypto, OpenSslSessions: plugins/opensslcryptoplugin,
      from evp/evp.cpp over the operations to the cipher sessions with their
      tokens and timers; the end of OpenSslCrypto: plugins/opensslplugin.
      OpenSslSpec: the safety of encryption; OpenSslSessionsSpec,
      OpenSslSessionsInv: the invariant of the sessions over all requests and
      timeouts, and signatures in pieces.
    - ClientRequest: what the request objects of the client libraries have in
      common, from their setters over the D-Bus call to the reply, as one state
      machine over a description of the class; SecretsClient, CryptoClient: all
      request classes of lib/Secrets and lib/Crypto but those for plugin
      information, and the calls of secretmanager.cpp and cryptomanager.cpp;
      CipherRequest: lib/Crypto/cipherrequest.cpp, a request with a queue of
      watchers.  Marshalling: the operators of lib/Secrets/serialization.cpp and
      lib/Crypto/serialization.cpp that write values to the bus and read them;
      Messages: the messages of all calls of the clients, and the slots of the
      daemon's objects (crypto_p.h, secrets_p.h) that they reach.
    - Examples: concrete states.  DatabaseProps, StorageProps, VaultProps,
      QueueProps, ProcessorProps, LockProps, CryptoProps,
      CryptoServiceProps, OpenSslProps, ClientProps: concrete states of these
      parts and the properties C1 to C40, each with a witness that applies it to a
      concrete state if it has hypotheses.

    The definitions keep the names of the functions; a prefix tells apart what
    has the same name in C++ ([sw_] and [ew_] for the two wrappers, [sqlite_] and
    [cipher_] for the plugins, [sp_], [ep_] and [pb_] for the interfaces).  An
    output parameter is part of the result; if the function does not always set
    it, its old value is an argument.

    * What the theorems show

    - Atomicity, for any plugin and whatever the engine does: a request to a
      wrapper, an operation of a plugin and a transaction of the database layer
      either succeed completely or leave things as before, with exactly the
      exceptions stated.
    - Refinement, in a good environment (the engine runs what it is given): the
      wrapper with its metadata refines an abstract store, the SQLite plugin
      refines a store, the SQLCipher plugin refines a vault of collections with
      keys; metadata and plugin stay in agreement, and initializing a wrapper
      makes them agree.
    - Secrecy of locked data, whatever the engine does: a wrong key opens no
      database and no plugin; a locked plugin or collection refuses every request
      and is unchanged; a collection that was unlocked for one operation is
      locked again on every path, as long as the metadata database works.
    - Functional correctness: searching by filter, re-encrypting, changing the
      device lock key, storing and reading back with an encryption plugin, and
      reading and writing metadata.
    - The queue: identifiers are unique, no wake-up is lost, handling ends.
    - The request processor, over all interleavings: what is stored in a collection
      is given out, changed or deleted only after its metadata, read in the course
      of the same request, have shown that the caller may access it (the operations
      that this is not claimed of are listed with the property); locks change, and
      what the device lock protects is encrypted anew, only for platform
      applications; every accepted request is answered
      exactly once or is still being worked on; a continuation finds the
      parameters of its pending request with the types it expects; the dispatch
      calls the processor with the arguments of the D-Bus method; while the
      daemon is locked nothing else is served; a request that prevents user
      interaction never shows a dialog.
    - The redundant files: majority decision, and recovery from one damaged file.
    - The lock code: which codes are accepted, that testing and unlocking agree once
      a code is stored with the name of a plugin, that after a change exactly the new code is accepted, that a refused code
      changes nothing, and that the keys stay within their memory.
    - Stored keys: a reference to a stored key acts for the stored key exactly if
      its collection can be opened; storing a key is atomic and relocks the
      collection; a generated key can be used at once; the operations on
      keys return its private parts only if they are asked for and allowed;
      serialization loses nothing.
    - The crypto service, over all interleavings: an operation of a plugin is
      started only for its request and with the arguments of that request; a key
      that is only named is used, and a key is stored, only after the secrets
      service has allowed it; every accepted request is answered exactly once or is under way
      in one place, with one exception; a success is answered with what the
      plugin or the secrets service gave, with one exception; the dispatch calls the processor with
      the arguments of the D-Bus method.
    - The OpenSSL plugin: encryption and decryption are memory safe, for keys that
      the library reads within bounds, and inverse; the cipher sessions of all
      clients, under any order of requests and timeouts in which no signature
      fails, are memory safe, free what they allocate, do not disturb each other
      and are limited in number; a signature made in a session is the one
      made at once.
    - The clients: a request object other than that of a cipher session is active exactly while a reply is awaited
      and any reply finishes it; the steps of a cipher session are reported in the
      order of their calls in whatever order the replies arrive; client and daemon
      agree on the types of replies, with three exceptions; every message reaches
      the one slot that it means, with the values that were sent; the values set on
      a request are those that reach the processor of the daemon.
    - User interaction: the password agent plugin answers each request exactly once
      or still waits for somebody, but for the late signals of the device lock and
      as long as the int of its cookies does not overflow; only the registered
      agent can give passwords; an interaction inside the application completes from end to end
      if its service accepts it, and the service replies to no call twice.
    - The value classes whose copy constructors are complete behave as values.
    - Where the code does not do what it means to, a theorem shows what it does:
      what a failed BEGIN or COMMIT leads to, an interrupted store, unreadable
      files in the vote, standalone secrets and the device lock key; owner checks
      missing for standalone secrets, a key kept before it was verified, a change
      of lock code that claims success, a crash on unknown plugins, a result that
      depends on the order in which C++ evaluates arguments, changes of the lock
      code that lock the user out, crypto plugins that cannot be locked, keys that
      name a stored key and are replaced by it unchecked, an order of keys with a
      cycle, contexts of the OpenSSL plugin that dangle or are null, an import of a
      key that is never answered, stored keys that lose their identifier, refused
      or lost requests that the client reports as successes, a cipher request that
      stays active for ever, information about plugins that cannot be read, in-app
      interactions that are never answered if they are refused or answered too
      early, passwords that are empty because nobody gave one, processes that claim
      to be the platform, and copies that lose fields when they are changed.

    * Fuel and bounds

    Four loops have fuel, and theorems show that it is enough.  The search for a
    free request identifier has one round more than there are identifiers in use
    (identifiers are 64-bit and wrap around); the loop over the queue has as many
    rounds as there are requests, since each round erases one or advances; the
    schema upgrade has the difference of the versions, since each round raises
    the version; reading a map from the bus has the number of tokens, of which each
    round takes some.

    * What is assumed about the surroundings

    - A statement does to the tables what SQL says; each call to the engine may
      fail by order of a list of faults over which the theorems quantify, keeping
      or rolling back the transaction.  ROLLBACK does not fail.  A database file
      can be read only with the key it is encrypted with.  The contents of a
      database is determined by primary keys; rows come in any fixed order.
    - Null and empty strings are not distinguished; case-insensitive comparison
      folds ASCII letters; strings are compared as byte sequences.
    - QDir with QDir::Time sorts the newest entry first (Qt 5).
    - Reading past the end of an array of upgrade steps counts as a failure.
    - The Timestamp columns are never read and left out.
    - SHA-256, PBKDF2 and the locale's name are parameters of the SQLCipher
      plugin; encryption plugins are parameters of what uses them.
    - Qt's QDataStream reads back what it wrote, for sizes below 2^31.
    - Each component runs in one thread; mutexes, logging and D-Bus object
      registration are left out.  The pool of plugin threads is taken as first
      in, first out.
    - The processor: what the plugins answer is arbitrary, except that metadata
      name the collection they were read for and that, where a theorem asks for
      [well_behaved] surroundings, operations that are over do not answer Pending,
      interactions begin or fail, and the plugins that metadata name are installed.
      Texts shown to the user are left out.  Arguments of the continuations are
      evaluated from left to right in the theorems, where C++ leaves the order
      open; the order is a parameter, and a theorem has a run with the other one.  The
      device lock key is memory that the processor's callers share.  Reading a
      QVariant as a type it does not hold is an outcome of its own, which a
      theorem excludes.
    - The lock code: crypto plugins derive keys and encrypt as functions of their
      arguments; theorems that need it assume keys of the size asked for.  SHA-512,
      random data, the time, unique names and environment variables are parameters.
    - The crypto service: what the plugins and the secrets service answer is
      arbitrary, except that an operation that is over does not answer Pending,
      that a crypto plugin which can store keys and is a storage has a wrapper, and
      that the secrets service answers a request that it has accepted with the
      signal for it, at most once.
    - The client libraries: Qt turns a reply whose types are not the expected ones
      into an error, and gives default-constructed values for the arguments of an
      error; it calls the slot that has the name and the signature of a message; a
      QDBusArgument does not check the types that are read from it; a watcher that
      is to be deleted emits nothing more; slots connected to the signals of a
      request do not call the request.
    - User interaction: a watcher of a call emits finished once, a watcher of an in-app
      interaction that is to be deleted emits nothing more, and slots connected to
      the signals of a plugin do not change it before they return; there is one
      service and one view in an application; identifiers that createUuid makes are
      not empty.  The kernel gives zero as the size of /proc/<pid>/exe, as
      readlink(2) says.
    - OpenSSL: its functions are parameters that may fail; the theorems assume what
      the manual pages say about the sizes of what is read and written and, where
      they need it, that [malloc] succeeds (the code does not test it), that
      decryption inverts encryption in the modes without authentication other than
      XTS, and that signatures accumulate data.  Runs of the cipher sessions go as
      far as no request is answered with the failure of a signature.  Addresses are
      not reused.

    * What is not modelled

    Of the client libraries, the requests for plugin information and the D-Bus
    connection are left out; of the authentication plugins, the answers for unit
    tests, the values of polkit on the bus and the start time of a process.
    Of the two request processors, the constructors that load the plugins and
    getPluginInfo are left out.  Left out for good: gpgme glue, QML bindings, the
    command line tool, examples and vendored code. *)
From stdpp Require Export base strings gmap list fin_maps list_numbers sorting.
From Stdlib Require Import Ascii String.

#[global] Set Default Goal Selector "!".

(** Facts about the components, used to close routine goals. *)
Create HintDb sfs.

(** * A state monad

    A C++ member function that reads and writes the fields of its object is a
    function from the object's state to its return value and the new state. *)
Definition M (S A : Type) : Type := S → A * S.

Definition ret {S A} (a : A) : M S A := λ s, (a, s).

Definition bind {S A B} (m : M S A) (k : A → M S B) : M S B :=
  λ s, let '(a, s') := m s in k a s'.

Definition gets {S A} (f : S → A) : M S A := λ s, (f s, s).

Definition modify {S} (f : S → S) : M S unit := λ s, (tt, f s).

(** Run an operation of a component on the part of the state the component
    owns: [get]/[put] select that part. *)
Definition zoom {S T A} (get : S → T) (put : T → S → S) (m : M T A) : M S A :=
  λ s, let '(a, t) := m (get s) in (a, put t s).

Declare Scope sfs_scope.
Delimit Scope sfs_scope with sfs.
Open Scope sfs_scope.

Notation "'let*' x ':=' m 'in' k" := (bind m (λ x, k))
  (at level 10, x name, m at level 100, k at level 200)
  : sfs_scope.
Notation "'let*' ' p ':=' m 'in' k" := (bind m (λ y, let 'p := y in k))
  (at level 10, p strict pattern, m at level 100, k at level 200)
  : sfs_scope.
Notation "m ;;; k" := (bind m (λ _, k))
  (at level 199, k at level 200, right associativity) : sfs_scope.

(** C++ range-for over a list with a mutable accumulator. *)
Fixpoint foldM {S A B} (f : B → A → M S B) (l : list A) (b : B) : M S B :=
  match l with
  | [] => ret b
  | x :: l' => let* b' := f b x in foldM f l' b'
  end.

(** * Reasoning about the monad

    [wp m Q s]: running [m] from [s] returns a value and a state that
    satisfy [Q].  The computations are total functions, so this is total
    correctness. *)
Definition wp {S A} (m : M S A) (Q : A → S → Prop) (s : S) : Prop :=
  Q (m s).1 (m s).2.

Section wp_rules.
Context {S : Type}.

Lemma wp_ret {A} (a : A) (Q : A → S → Prop) s : Q a s → wp (ret a) Q s.
Proof. done. Qed.

Lemma wp_bind {A B} (m : M S A) (k : A → M S B) Q s :
  wp m (λ a s', wp (k a) Q s') s → wp (bind m k) Q s.
Proof. unfold wp, bind. by destruct (m s). Qed.

Lemma wp_mono {A} (m : M S A) (Q R : A → S → Prop) s :
  wp m Q s → (∀ a s', Q a s' → R a s') → wp m R s.
Proof. unfold wp. auto. Qed.

Lemma wp_gets {A} (f : S → A) (Q : A → S → Prop) s : Q (f s) s → wp (gets f) Q s.
Proof. done. Qed.

Lemma wp_modify (f : S → S) (Q : unit → S → Prop) s : Q tt (f s) → wp (modify f) Q s.
Proof. done. Qed.

Lemma wp_zoom {T A} (get : S → T) put (m : M T A) (Q : A → S → Prop) s :
  wp m (λ a t, Q a (put t s)) (get s) → wp (zoom get put m) Q s.
Proof. unfold wp, zoom. by destruct (m (get s)). Qed.

(** Loop rule: an invariant on the accumulator, the state and the rest of
    the list. *)
Lemma wp_foldM {A B} (f : B → A → M S B) (I : list A → B → S → Prop) l b s :
  I l b s →
  (∀ x l' b s, I (x :: l') b s → wp (f b x) (I l') s) →
  wp (foldM f l b) (I []) s.
Proof.
  revert b s. induction l as [|x l IH]; intros b s Hi Hstep; simpl.
  { by apply wp_ret. }
  apply wp_bind. eapply wp_mono; [by apply Hstep|]. intros; by apply IH.
Qed.

(** A property of the state that an operation keeps, whatever it returns. *)
Definition preserves {A} (K : S → Prop) (m : M S A) : Prop :=
  ∀ s, K s → wp m (λ _ s', K s') s.

Lemma preserves_ret {A} (K : S → Prop) (a : A) : preserves K (ret a).
Proof. by intros s Hs. Qed.

Lemma preserves_gets {A} (K : S → Prop) (f : S → A) : preserves K (gets f).
Proof. by intros s Hs. Qed.

Lemma preserves_modify (K : S → Prop) (f : S → S) : (∀ s, K s → K (f s)) → preserves K (modify f).
Proof. intros Hf s Hs. by apply Hf. Qed.

Lemma preserves_bind {A B} (K : S → Prop) (m : M S A) (k : A → M S B) :
  preserves K m → (∀ a, preserves K (k a)) → preserves K (bind m k).
Proof.
  intros Hm Hk s Hs. apply wp_bind. eapply wp_mono; [by apply Hm|]. intros a s'. apply Hk.
Qed.

Lemma preserves_foldM {A B} (K : S → Prop) (f : B → A → M S B) l b :
  (∀ b a, preserves K (f b a)) → preserves K (foldM f l b).
Proof.
  intros Hf. revert b. induction l as [|x l IH]; intros b; simpl; [apply preserves_ret|].
  by apply preserves_bind.
Qed.

(** Two facts about one run. *)
Lemma wp_and {A} (m : M S A) (Q R : A → S → Prop) s :
  wp m Q s → wp m R s → wp m (λ a s', Q a s' ∧ R a s') s.
Proof. done. Qed.
End wp_rules.

Create HintDb keep.
#[export] Hint Resolve preserves_ret preserves_gets : keep.

(** Walk through an operation: binds, case distinctions, and the calls the
    database [keep] knows. *)
Ltac keep :=
  intros;
  lazymatch goal with
  | |- preserves _ (bind _ _) => apply preserves_bind; [keep|intros; keep]
  | |- preserves _ (foldM _ _ _) => apply preserves_foldM; keep
  | |- preserves _ (let '_ := ?x in _) => destruct x; keep
  | |- preserves _ (if ?b then _ else _) => destruct b; keep
  | |- preserves _ (match ?x with _ => _ end) => destruct x; keep
  | |- _ => eauto with keep
  end.

(** * Strings *)

(** [QString::toLower] on the ASCII letters. *)
Definition ascii_lower (c : ascii) : ascii :=
  let n := nat_of_ascii c in
  if (Nat.leb 65 n && Nat.leb n 90)%bool then ascii_of_nat (n + 32) else c.

Fixpoint lower (s : string) : string :=
  match s with
  | EmptyString => EmptyString
  | String c s' => String (ascii_lower c) (lower s')
  end.

(** [a.compare(b, Qt::CaseInsensitive) == 0] *)
Definition eq_ci (a b : string) : bool := bool_decide (lower a = lower b).

Definition isEmpty (s : string) : bool := bool_decide (s = "").

(** * Maps *)

Definition string_le (a b : string) : Prop := String.leb a b = true.

#[global] Instance string_le_dec : RelDecision string_le.
Proof. intros a b. unfold string_le. apply _. Defined.

(** [QMap::keys]: the keys in ascending order. *)
Definition qmap_keys {V} (m : gmap string V) : list string :=
  merge_sort string_le (map_to_list m).*1.

Lemma qmap_keys_perm {V} (m : gmap string V) : qmap_keys m ≡ₚ (map_to_list m).*1.
Proof. apply merge_sort_Permutation. Qed.

Lemma elem_of_qmap_keys {V} (m : gmap string V) k : k ∈ qmap_keys m ↔ is_Some (m !! k).
Proof.
  rewrite qmap_keys_perm, list_elem_of_fmap. split.
  - intros ([k' v]&->&H%elem_of_map_to_list). simpl. eauto.
  - intros [v H]. exists (k, v). split; [done|]. by apply elem_of_map_to_list.
Qed.

Lemma NoDup_qmap_keys {V} (m : gmap string V) : NoDup (qmap_keys m).
Proof. rewrite qmap_keys_perm. apply NoDup_fst_map_to_list. Qed.

(** The entries of a [QMap<QString, QString>] in iteration order. *)
Definition qmap_items (m : gmap string string) : list (string * string) :=
  (λ k, (k, default "" (m !! k))) <$> qmap_keys m.

Lemma elem_of_qmap_items (m : gmap string string) k v : (k, v) ∈ qmap_items m ↔ m !! k = Some v.
Proof.
  unfold qmap_items. rewrite list_elem_of_fmap. setoid_rewrite elem_of_qmap_keys. split.
  - intros (k'&[= -> ->]&[x Hx]). by rewrite Hx.
  - intros H. exists k. rewrite H. simpl. eauto.
Qed.

Lemma fst_qmap_items (m : gmap string string) : (qmap_items m).*1 = qmap_keys m.
Proof. unfold qmap_items. rewrite <-list_fmap_compose. apply list_fmap_id. Qed.

Lemma NoDup_qmap_items (m : gmap string string) : NoDup (qmap_items m).*1.
Proof. rewrite fst_qmap_items. apply NoDup_qmap_keys. Qed.

(** [QStringList::contains] *)
Definition contains (l : list string) (s : string) : bool := bool_decide (s ∈ l).

(** Inserting the pairs of a list without duplicate keys. *)
Lemma lookup_foldl_insert {A K V} `{Countable K} (g : A → K) `{!Inj (=) (=) g}
  (l : list (A * V)) (m : gmap K V) k v :
  NoDup l.*1 →
  foldl (λ m kv, <[g kv.1 := kv.2]> m) m l !! k = Some v ↔
  (∃ a, k = g a ∧ (a, v) ∈ l) ∨ ((∀ a, k = g a → a ∉ l.*1) ∧ m !! k = Some v).
Proof.
  revert m. induction l as [|[a x] l IH]; intros m Hnd; simpl.
  { setoid_rewrite elem_of_nil. naive_solver. }
  apply NoDup_cons in Hnd as [Ha Hnd]. rewrite IH by done. simpl.
  setoid_rewrite elem_of_cons. destruct (decide (k = g a)) as [->|Hne].
  - rewrite lookup_insert_eq. split.
    + intros [(a'&->%(inj g)&?)|[Hn [= <-]]]; [left; eauto|left; eauto].
    + intros [(a'&Hg&[[= -> ->]|Hin])|[Hn _]]; [right|left; eauto|].
      * split; [|done]. by intros a'' <-%(inj g).
      * destruct (Hn a eq_refl). by left.
  - rewrite lookup_insert_ne by done. naive_solver.
Qed.

Lemma filter_none {A} (P : A → Prop) `{∀ x, Decision (P x)} (l : list A) :
  (∀ x, x ∈ l → ¬ P x) → filter P l = [].
Proof.
  induction l as [|x l IH]; intros Hn; [done|]. rewrite filter_cons, decide_False.
  - apply IH. intros y Hy. apply Hn. by right.
  - apply Hn. by left.
Qed.

Lemma filter_all {A} (P : A → Prop) `{∀ x, Decision (P x)} (l : list A) :
  (∀ x, x ∈ l → P x) → filter P l = l.
Proof.
  induction l as [|x l IH]; intros Hn; [done|]. rewrite filter_cons, decide_True.
  - f_equal. apply IH. intros y Hy. apply Hn. by right.
  - apply Hn. by left.
Qed.
