(* ===== verification/Result.v ===== *)
(** The [Sailfish::Secrets::Result] value class (lib/Secrets/result.h,
    lib/Secrets/result.cpp): what every operation of the daemon and of its
    plugins returns; and the enumerations of lib/Secrets/secretmanager.h and the
    identifiers of secrets. *)
From S2P Require Import Prelude.
From Stdlib Require Import Ascii String.

(** [Result::ResultCode] *)
Inductive ResultCode := Succeeded | Pending | Failed.

#[global] Instance ResultCode_eq_dec : EqDecision ResultCode.
Proof. solve_decision. Defined.

Definition ResultCode_value (c : ResultCode) : Z :=
  match c with Succeeded => 0 | Pending => 1 | Failed => 2 end.

(** [Result::ErrorCode]: an unscoped C++ enumeration, so an integer; these are
    the enumerators the modelled code uses. *)
Abbreviation ErrorCode := Z.
Definition NoError : ErrorCode := 0.
Definition UnknownError : ErrorCode := 2.
Definition PermissionsError : ErrorCode := 10.
Definition IncorrectAuthenticationCodeError : ErrorCode := 11.
Definition OperationNotSupportedError : ErrorCode := 13.
Definition OperationRequiresUserInteraction : ErrorCode := 14.
Definition OperationRequiresApplicationUserInteraction : ErrorCode := 15.
Definition SecretsDaemonRequestPidError : ErrorCode := 20.
Definition SecretsDaemonRequestQueueFullError : ErrorCode := 21.
Definition SecretsDaemonLockedError : ErrorCode := 22.
Definition SecretsPluginEncryptionError : ErrorCode := 30.
Definition SecretsPluginDecryptionError : ErrorCode := 31.
Definition SecretsPluginKeyDerivationError : ErrorCode := 32.
Definition SecretsPluginIsLockedError : ErrorCode := 33.
Definition InvalidSecretError : ErrorCode := 40.
Definition InvalidSecretIdentifierError : ErrorCode := 41.
Definition InvalidFilterError : ErrorCode := 42.
Definition InvalidCollectionError : ErrorCode := 43.
Definition InvalidExtensionPluginError : ErrorCode := 44.
Definition CollectionAlreadyExistsError : ErrorCode := 46.
Definition SecretAlreadyExistsError : ErrorCode := 47.
Definition CollectionIsLockedError : ErrorCode := 60.
Definition DatabaseQueryError : ErrorCode := 70.
Definition DatabaseTransactionError : ErrorCode := 71.
Definition DatabaseError : ErrorCode := 72.

(** [ResultPrivate] *)
Record Result := mkResult {
  code : ResultCode;
  errorCode : ErrorCode;
  errorMessage : string;
}.

#[global] Instance Result_eq_dec : EqDecision Result.
Proof. solve_decision. Defined.

(** [Result::Result(ResultCode)] *)
Definition result_of_code (c : ResultCode) : Result :=
  mkResult c
    (match c with Failed => UnknownError | _ => NoError end)
    (match c with Failed => "Unknown error" | _ => "" end).

(** [Result::Result(ErrorCode, const QString &)] *)
Definition result_error (e : ErrorCode) (msg : string) : Result :=
  mkResult (if Z.leb UnknownError e then Failed else Succeeded) e msg.

(** [operator==] *)
Definition result_eqb (a b : Result) : bool :=
  bool_decide (code a = code b)
  && bool_decide (errorCode a = errorCode b)
  && bool_decide (errorMessage a = errorMessage b).

(** [operator<] *)
Definition result_ltb (a b : Result) : bool :=
  if bool_decide (code a = code b) then
    if bool_decide (errorCode a = errorCode b) then
      String.ltb (errorMessage a) (errorMessage b)
    else Z.ltb (errorCode a) (errorCode b)
  else Z.ltb (ResultCode_value (code a)) (ResultCode_value (code b)).

(** [result.code() == Result::Succeeded], the test that follows nearly every
    call. *)
Definition ok (r : Result) : bool := bool_decide (code r = Succeeded).

Lemma ok_succeeded : ok (result_of_code Succeeded) = true.
Proof. done. Qed.

Lemma ok_spec r : ok r = true ↔ code r = Succeeded.
Proof. apply bool_decide_eq_true. Qed.

Lemma not_ok_spec r : ok r = false ↔ code r ≠ Succeeded.
Proof. apply bool_decide_eq_false. Qed.

(** Every genuine error code makes a failed result. *)
Lemma ok_error e msg : (2 ≤ e)%Z → ok (result_error e msg) = false.
Proof.
  intros He. unfold ok, result_error, UnknownError; simpl.
  by rewrite (proj2 (Z.leb_le 2 e) He).
Qed.

Lemma failed_error e msg : (2 ≤ e)%Z → code (result_error e msg) = Failed.
Proof. intros He. unfold result_error, UnknownError; simpl. by rewrite (proj2 (Z.leb_le 2 e) He). Qed.

(** * Enumerations and identifiers *)

(** [SecretManager::AccessControlMode] *)
Abbreviation AccessControlMode := Z.
Definition OwnerOnlyMode : AccessControlMode := 0.
Definition SystemAccessControlMode : AccessControlMode := 1.
Definition NoAccessControlMode : AccessControlMode := 2.

(** [SecretManager::DeviceLockUnlockSemantic] *)
Definition DeviceLockKeepUnlocked : Z := 0.
Definition DeviceLockVerifyLock : Z := 1.
Definition DeviceLockRelock : Z := 2.

(** [SecretManager::CustomLockUnlockSemantic] *)
Definition CustomLockKeepUnlocked : Z := 8.
Definition CustomLockDeviceLockRelock : Z := 9.
Definition CustomLockTimoutRelock : Z := 10.
Definition CustomLockAccessRelock : Z := 11.

(** [SecretManager::UserInteractionMode] *)
Abbreviation UserInteractionMode := Z (only parsing).
Definition PreventInteraction : UserInteractionMode := 0.
Definition SystemInteraction : UserInteractionMode := 1.
Definition ApplicationInteraction : UserInteractionMode := 2.

(** The names of the plugins that stand for whatever is installed. *)
Definition InAppAuthenticationPluginName : string := "plugin.authentication.inapp".
Definition DefaultAuthenticationPluginName : string := "plugin.authentication.default".
Definition DefaultStoragePluginName : string := "plugin.storage.default".
Definition DefaultEncryptionPluginName : string := "plugin.encryption.default".
Definition DefaultEncryptedStoragePluginName : string := "plugin.encryptedstorage.default".

(** [StoragePlugin::FilterOperator] *)
Inductive FilterOperator := OperatorOr | OperatorAnd.

#[global] Instance FilterOperator_eq_dec : EqDecision FilterOperator.
Proof. solve_decision. Defined.

(** [Secret::FilterData], a [QMap<QString, QString>]. *)
Abbreviation FilterData := (gmap string string).

(** [Secret::Identifier] *)
Record Identifier := mkIdentifier {
  ident_name : string;
  ident_collectionName : string;
  ident_storagePluginName : string;
}.

#[global] Instance Identifier_eq_dec : EqDecision Identifier.
Proof. solve_decision. Defined.
