(* ===== verification/Sqlite.v ===== *)
(** The daemon's database layer (database/database.cpp, database/database_p.h):
    [Sqlite::Database], its connection, its file and its counted transactions.

    The statements the program sends are SQL text; a statement is modelled by
    what SQL says it does to the tables, a partial function ([None] is a
    constraint violation).  Whether the engine manages to run a statement is
    not up to the program: every call to the engine first takes one item of
    [faults], which may order it to fail.  All theorems quantify over that
    list.  [T] is the type of the tables of one database. *)
From S2P Require Import Prelude.

(** A failed statement either leaves the transaction open or makes SQLite roll
    the whole transaction back (SQLITE_FULL, SQLITE_IOERR, ...). *)
Inductive sqlfault := StmtAborted | TxnRolledBack.

Record fault := Fault { fault_kind : sqlfault; fault_text : string }.

(** The database file: its tables, the key it is encrypted with ([None] as long
    as nothing was ever written to it), and [PRAGMA user_version]. *)
Record dbfile (T : Type) := DbFile {
  tables : T;
  file_key : option string;
  user_version : Z;
}.
Arguments DbFile {T}.
Arguments tables {T}.
Arguments file_key {T}.
Arguments user_version {T}.

Record Database (T : Type) := mkDatabase {
  m_open : bool;                      (* m_database.isOpen() *)
  conn_key : string;                  (* key given by PRAGMA key *)
  file : option (dbfile T);           (* the file, as this connection sees it *)
  snapshot : option (dbfile T);       (* Some: SQLite is in a transaction *)
  m_localeName : string;
  m_preparedQueries : list string;
  m_transactionSemaphore : Z;
  faults : list (option fault);       (* what the engine will do next *)
}.
Arguments mkDatabase {T}.
Arguments m_open {T}.
Arguments conn_key {T}.
Arguments file {T}.
Arguments snapshot {T}.
Arguments m_localeName {T}.
Arguments m_preparedQueries {T}.
Arguments m_transactionSemaphore {T}.
Arguments faults {T}.

Section setters.
  Context {T : Type}.
  Implicit Types (db : Database T).

Definition set_open b db := mkDatabase b (conn_key db) (file db) (snapshot db) (m_localeName db) (m_preparedQueries db) (m_transactionSemaphore db) (faults db).
Definition set_conn_key k db := mkDatabase (m_open db) k (file db) (snapshot db) (m_localeName db) (m_preparedQueries db) (m_transactionSemaphore db) (faults db).
Definition set_file f db := mkDatabase (m_open db) (conn_key db) f (snapshot db) (m_localeName db) (m_preparedQueries db) (m_transactionSemaphore db) (faults db).
Definition set_snapshot f db := mkDatabase (m_open db) (conn_key db) (file db) f (m_localeName db) (m_preparedQueries db) (m_transactionSemaphore db) (faults db).
Definition set_locale l db := mkDatabase (m_open db) (conn_key db) (file db) (snapshot db) l (m_preparedQueries db) (m_transactionSemaphore db) (faults db).
Definition set_prepared l db := mkDatabase (m_open db) (conn_key db) (file db) (snapshot db) (m_localeName db) l (m_transactionSemaphore db) (faults db).
Definition set_semaphore n db := mkDatabase (m_open db) (conn_key db) (file db) (snapshot db) (m_localeName db) (m_preparedQueries db) n (faults db).
Definition set_faults l db := mkDatabase (m_open db) (conn_key db) (file db) (snapshot db) (m_localeName db) (m_preparedQueries db) (m_transactionSemaphore db) l.
End setters.

(** What [Database::open] runs on the connection first.  [PRAGMA key] sets the
    key; some pragmas only configure the connection; [journal_mode] has to read
    the file. *)
Inductive setup_statement :=
  | PragmaKey (hexKey : string)
  | PragmaConnection (text : string)
  | PragmaFile (text : string).

(** [UpgradeOperation]: an optional function and an optional list of
    statements, both acting on the file. *)
Record UpgradeOperation (T : Type) := mkUpgrade {
  up_fn : option (dbfile T → option (dbfile T));
  up_statements : option (list (dbfile T → option (dbfile T)));
}.
Arguments mkUpgrade {T}.
Arguments up_fn {T}.
Arguments up_statements {T}.

(** * The engine *)
Section engine.
  Context {T : Type} `{!Inhabited T}.
  Implicit Types (db : Database T).

(** Ask the environment whether the next engine call fails. *)
Definition next_fault : M (Database T) (option fault) := λ db,
  match faults db with
  | [] => (None, db)
  | f :: fs => (f, set_faults fs db)
  end.

(** SQLite restores the contents of the file at BEGIN. *)
Definition restore_snapshot db : Database T :=
  match snapshot db with
  | Some f => set_snapshot None (set_file (Some f) db)
  | None => db
  end.

Definition apply_fault (f : fault) db : Database T :=
  match fault_kind f with
  | StmtAborted => db
  | TxnRolledBack => restore_snapshot db
  end.

(** The connection can read the file: the key is right, or nothing was ever
    written with one. *)
Definition readable (f : dbfile T) (key : string) : bool :=
  match file_key f with None => true | Some k => bool_decide (k = key) end.

(** Run one statement.  On success its result is returned ([Some]); on an
    error, the error text. *)
Definition sql_exec {R} (run : dbfile T → option (dbfile T * R))
  : M (Database T) (option R * string) :=
  let* f := next_fault in
  match f with
  | Some e => modify (apply_fault e) ;;; ret (None, fault_text e)
  | None =>
      let* db := gets id in
      if negb (m_open db) then ret (None, "Driver not loaded") else
      match file db with
      | None => ret (None, "unable to open database file")
      | Some fl =>
          if negb (readable fl (conn_key db)) then ret (None, "file is not a database") else
          match run fl with
          | None => ret (None, "constraint failed")
          | Some (fl', r) => modify (set_file (Some fl')) ;;; ret (Some r, "")
          end
      end
  end.

(** A statement that changes the file also fixes the key of an empty file. *)
Definition written (key : string) (fl : dbfile T) : dbfile T :=
  DbFile (tables fl) (Some (default key (file_key fl))) (user_version fl).

(** [static bool execute(QSqlDatabase &, const QString &)] for a statement
    that returns no rows. *)
Definition exec_file (run : dbfile T → option (dbfile T)) : M (Database T) bool :=
  let* key := gets conn_key in
  let* '(r, _) := sql_exec (λ fl, fl' ← run fl; Some (written key fl', tt)) in
  ret (bool_decide (is_Some r)).

(** A statement that only configures the connection, such as PRAGMA key. *)
Definition exec_connection (f : Database T → Database T) : M (Database T) bool :=
  let* e := next_fault in
  match e with
  | Some _ => ret false
  | None =>
      let* db := gets id in
      if m_open db then modify f ;;; ret true else ret false
  end.

(** A prepared statement that only concerns the connection; the error text is
    kept. *)
Definition execute_pragma (query : bool) (f : Database T → Database T)
  : M (Database T) (bool * string) :=
  if negb query then ret (false, "Driver not loaded") else
  let* e := next_fault in
  match e with
  | Some e => modify (apply_fault e) ;;; ret (false, fault_text e)
  | None =>
      let* db := gets id in
      if m_open db then modify f ;;; ret (true, "") else ret (false, "Driver not loaded")
  end.

(** [static bool beginTransaction(QSqlDatabase &)]: BEGIN IMMEDIATE. *)
Definition sql_begin : M (Database T) bool :=
  let* s := gets snapshot in
  match s with
  | Some _ => ret false
  | None =>
      let* '(r, _) := sql_exec (λ fl, Some (fl, fl)) in
      match r with
      | None => ret false
      | Some fl => modify (set_snapshot (Some fl)) ;;; ret true
      end
  end.

(** [static bool commitTransaction(QSqlDatabase &)]: COMMIT fails outside a
    transaction; a failed COMMIT may leave the transaction open. *)
Definition sql_commit : M (Database T) bool :=
  let* s := gets snapshot in
  match s with
  | None => ret false
  | Some _ => let* '(b, _) := execute_pragma true (set_snapshot None) in ret b
  end.

(** [static bool rollbackTransaction(QSqlDatabase &)]: ROLLBACK ends the
    transaction, and is an error when there is none. *)
Definition sql_rollback : M (Database T) bool :=
  let* s := gets snapshot in
  match s with
  | None => ret false
  | Some _ => modify restore_snapshot ;;; ret true
  end.

(** [finalizeTransaction] *)
Definition finalizeTransaction (success : bool) : M (Database T) bool :=
  if success then sql_commit else (sql_rollback ;;; ret false).

(** * [Database]: counted transactions *)

(** [Database::beginTransaction] *)
Definition beginTransaction : M (Database T) bool :=
  let* oldSemaphoreValue := gets m_transactionSemaphore in
  modify (set_semaphore (oldSemaphoreValue + 1)) ;;;
  if bool_decide (oldSemaphoreValue = 0)%Z then sql_begin
  else if bool_decide (oldSemaphoreValue = 1)%Z then ret true
  else ret false.

(** [Database::commitTransaction] *)
Definition commitTransaction : M (Database T) bool :=
  let* oldSemaphoreValue := gets m_transactionSemaphore in
  modify (set_semaphore (oldSemaphoreValue - 1)) ;;;
  if bool_decide (oldSemaphoreValue = 1)%Z then sql_commit
  else if bool_decide (oldSemaphoreValue = 0)%Z then ret false
  else ret true.

(** [Database::rollbackTransaction] *)
Definition rollbackTransaction : M (Database T) bool :=
  let* oldSemaphoreValue := gets m_transactionSemaphore in
  modify (set_semaphore (oldSemaphoreValue - 1)) ;;;
  if bool_decide (oldSemaphoreValue = 1)%Z then sql_rollback
  else if bool_decide (oldSemaphoreValue = 0)%Z then ret false
  else ret true.

(** [Database::withinTransaction] *)
Definition withinTransaction db : bool := negb (bool_decide (m_transactionSemaphore db = 0)%Z).

(** [Database::isOpen], [Database::close]: SQLite rolls back what is pending on
    a connection that is closed. *)
Definition isOpen db : bool := m_open db.

Definition close : M (Database T) unit :=
  modify (λ db, set_open false (restore_snapshot (set_prepared [] db))).

(** [Database::prepare]: the query (valid or not) and the error text. *)
Definition prepare (statement : string) : M (Database T) (bool * string) :=
  let* db := gets id in
  if bool_decide (statement ∈ m_preparedQueries db) then ret (true, "") else
  let* f := next_fault in
  match f with
  | Some e => ret (false, fault_text e)
  | None =>
      if negb (m_open db) then ret (false, "Driver not loaded") else
      modify (λ db, set_prepared (statement :: m_preparedQueries db) db) ;;; ret (true, "")
  end.

(** [Database::execute] of a query prepared before, with its bound values: the
    rows ([None] on error) and the error text. *)
Definition execute {R} (query : bool) (run : T → option (T * R))
  : M (Database T) (option R * string) :=
  if query then
    let* key := gets conn_key in
    sql_exec (λ fl, '(t, r) ← run (tables fl);
                    Some (written key (DbFile t (file_key fl) (user_version fl)), r))
  else ret (None, "Driver not loaded").

(** [Database::execute] of a SELECT: the tables stay as they are. *)
Definition select {R} (query : bool) (rows : T → R) : M (Database T) (option R * string) :=
  if query then sql_exec (λ fl, Some (fl, rows (tables fl)))
  else ret (None, "Driver not loaded").

(** PRAGMA rekey: the file is encrypted anew. *)
Definition execute_rekey (query : bool) (hexKey : string) : M (Database T) (bool * string) :=
  if negb query then ret (false, "Driver not loaded") else
  let* '(rows, errorText) :=
    sql_exec (λ fl, Some (DbFile (tables fl) (Some hexKey) (user_version fl), tt)) in
  match rows with
  | None => ret (false, errorText)
  | Some _ => modify (set_conn_key hexKey) ;;; ret (true, "")
  end.

(** [Database::executeBatch], one row of bound values after the other. *)
Fixpoint executeBatch (query : bool) (runs : list (T → option T)) : M (Database T) (bool * string) :=
  match runs with
  | [] => ret (true, "")
  | run :: runs' =>
      let* '(r, text) := execute query (λ t, t' ← run t; Some (t', tt)) in
      match r with
      | None => ret (false, text)
      | Some _ => executeBatch query runs'
      end
  end.

(** * [Database::open] *)

(** [configureDatabase] *)
Fixpoint run_setup (setupStatements : list setup_statement) : M (Database T) bool :=
  match setupStatements with
  | [] => ret true
  | s :: l =>
      let* done := match s with
                   | PragmaKey k => exec_connection (set_conn_key k)
                   | PragmaConnection _ => exec_connection id
                   | PragmaFile _ => exec_file Some
                   end in
      if done then run_setup l else ret false
  end.

Definition configureDatabase (setupStatements : list setup_statement) : M (Database T) bool :=
  let* configured := run_setup setupStatements in
  if negb configured then ret false else
  let* localeName := gets m_localeName in
  if bool_decide (localeName = "C") then ret true else
  let* collation := exec_connection id in
  (if collation then ret tt else modify (set_locale "C")) ;;;
  ret true.

(** [executeCreationStatements]: the tables a CREATE TABLE makes are empty. *)
Fixpoint run_creation (createStatements : list string) : M (Database T) bool :=
  match createStatements with
  | [] => ret true
  | _ :: l => let* done := exec_file Some in if done then run_creation l else ret false
  end.

Definition set_user_version (v : Z) (fl : dbfile T) : dbfile T :=
  DbFile (tables fl) (file_key fl) v.

Definition executeCreationStatements (createStatements : list string) (currentSchemaVersion : Z)
  : M (Database T) bool :=
  let* created := run_creation createStatements in
  if negb created then ret false else
  exec_file (λ fl, Some (set_user_version currentSchemaVersion fl)).

(** [prepareDatabase] *)
Definition prepareDatabase (setupStatements : list setup_statement)
  (createStatements : list string) (currentSchemaVersion : Z) : M (Database T) bool :=
  let* configured := configureDatabase setupStatements in
  if negb configured then ret false else
  let* begun := sql_begin in
  if negb begun then ret false else
  let* success := executeCreationStatements createStatements currentSchemaVersion in
  finalizeTransaction success.

(** [checkDatabase]: PRAGMA quick_check *)
Definition checkDatabase : M (Database T) bool :=
  let* '(r, _) := sql_exec (λ fl, Some (fl, tt)) in ret (bool_decide (is_Some r)).

(** [lengthOf(upgradeVersions)]: entries before the first without statements. *)
Fixpoint lengthOf (upgradeVersions : list (UpgradeOperation T)) : Z :=
  match upgradeVersions with
  | u :: l => match up_statements u with None => 0 | Some _ => 1 + lengthOf l end
  | [] => 0
  end.

(** One upgrade: the function, then the statements, each in turn. *)
Fixpoint run_statements (stmts : list (dbfile T → option (dbfile T))) : M (Database T) bool :=
  match stmts with
  | [] => ret true
  | st :: l => let* done := exec_file st in if done then run_statements l else ret false
  end.

Definition run_upgrade (u : UpgradeOperation T) : M (Database T) bool :=
  let* f := match up_fn u with None => ret true | Some fn => exec_file fn end in
  if negb f then ret false else
  match up_statements u with None => ret true | Some stmts => run_statements stmts end.

(** The user_version query. *)
Definition query_version : M (Database T) (option Z) :=
  let* '(r, _) := sql_exec (λ fl, Some (fl, user_version fl)) in ret r.

(** [upgradeVersions[schemaVersion]], the terminating entry included. *)
Definition upgrade_at (upgradeVersions : list (UpgradeOperation T)) (schemaVersion : Z)
  : option (UpgradeOperation T) :=
  if Z.ltb schemaVersion 0 then None else upgradeVersions !! Z.to_nat schemaVersion.

(** The upgrade loop of [executeUpgradeStatements]; every round raises the
    version, so [currentSchemaVersion - schemaVersion] rounds are enough. *)
Fixpoint upgrade_loop (fuel : nat) (upgradeVersions : list (UpgradeOperation T))
  (currentSchemaVersion schemaVersion : Z) : M (Database T) (option bool) :=
  if Z.ltb schemaVersion currentSchemaVersion then
    match fuel with
    | O => ret None
    | S n =>
        match upgrade_at upgradeVersions schemaVersion with
        | None => ret (Some false)
        | Some u =>
            let* upgraded := run_upgrade u in
            if negb upgraded then ret (Some false) else
            let* v := query_version in
            match v with
            | None => ret (Some false)
            | Some version =>
                if Z.leb version schemaVersion then ret (Some false)
                else upgrade_loop n upgradeVersions currentSchemaVersion version
            end
        end
    end
  else ret (Some true).

(** [executeUpgradeStatements] *)
Definition executeUpgradeStatements (upgradeVersions : list (UpgradeOperation T))
  (currentSchemaVersion : Z) : M (Database T) (option bool) :=
  if negb (bool_decide (currentSchemaVersion = lengthOf upgradeVersions + 1)%Z)
  then ret (Some false) else
  let* v := query_version in
  match v with
  | None => ret (Some false)
  | Some schemaVersion =>
      upgrade_loop (Z.to_nat (currentSchemaVersion - schemaVersion))
        upgradeVersions currentSchemaVersion schemaVersion
  end.

(** [upgradeDatabase] *)
Definition upgradeDatabase (upgradeVersions : list (UpgradeOperation T))
  (currentSchemaVersion : Z) : M (Database T) bool :=
  let* begun := sql_begin in
  if negb begun then ret false else
  let* success := executeUpgradeStatements upgradeVersions currentSchemaVersion in
  finalizeTransaction (bool_decide (success = Some true)).

(** An operating-system call ([mkpath], opening the file) that may fail. *)
Definition system_call : M (Database T) bool :=
  let* f := next_fault in ret (bool_decide (f = None :> option fault)).

Definition empty_file : dbfile T := DbFile inhabitant None 0.

(** [Database::open] *)
Definition open (setupStatements : list setup_statement) (createStatements : list string)
  (upgradeVersions : list (UpgradeOperation T)) (currentSchemaVersion : Z)
  : M (Database T) bool :=
  let* db := gets id in
  if m_open db then ret false else
  let* made := system_call in
  if negb made then ret false else
  let databasePreexisting := bool_decide (is_Some (file db)) in
  let* opened := system_call in
  if negb opened then ret false else
  modify (λ db, set_open true (set_conn_key ""
                  (set_file (Some (default empty_file (file db))) db))) ;;;
  if negb databasePreexisting then
    let* prepared := prepareDatabase setupStatements createStatements currentSchemaVersion in
    if prepared then ret true
    else (close ;;; modify (set_file None) ;;; ret false)
  else
    let* configured := configureDatabase setupStatements in
    if negb configured then (close ;;; ret false) else
    let* checked := checkDatabase in
    if negb checked then (close ;;; ret false) else
    let* upgraded := upgradeDatabase upgradeVersions currentSchemaVersion in
    if negb upgraded then (close ;;; ret false) else ret true.
End engine.

(** * What a connection looks like between and inside transactions *)
Section states.
  Context {T : Type} `{!Inhabited T}.
  Implicit Types (db : Database T) (t : T).

Definition content db : option T := tables <$> file db.

(** No transaction is open and the counter agrees. *)
Definition idle t db : Prop :=
  m_open db = true ∧ m_transactionSemaphore db = 0%Z ∧ snapshot db = None ∧ content db = Some t.

(** Inside a transaction begun on [t0]; the tables are now [t]. *)
Definition live t0 t db : Prop :=
  m_open db = true ∧ m_transactionSemaphore db = 1%Z
  ∧ tables <$> snapshot db = Some t0 ∧ content db = Some t.

(** A statement failed inside a transaction begun on [t0]: the transaction is
    still open, or SQLite has already rolled it back. *)
Definition aborted t0 db : Prop :=
  m_open db = true ∧ m_transactionSemaphore db = 1%Z
  ∧ ((∃ t, live t0 t db) ∨ (snapshot db = None ∧ content db = Some t0)).

(** A transaction could not be begun: the counter is one too high. *)
Definition leaked t db : Prop :=
  m_open db = true ∧ m_transactionSemaphore db = 1%Z ∧ snapshot db = None ∧ content db = Some t.

(** COMMIT failed: the counter is back to zero, and the transaction is still
    open or was rolled back. *)
Definition commit_failed t0 t db : Prop :=
  m_open db = true ∧ m_transactionSemaphore db = 0%Z
  ∧ ((tables <$> snapshot db = Some t0 ∧ content db = Some t)
     ∨ (snapshot db = None ∧ content db = Some t0)).

(** The environment lets every engine call succeed, and the key is right. *)
Definition good db : Prop :=
  Forall (λ f, f = None) (faults db) ∧ m_open db = true
  ∧ (∀ fl, file db = Some fl ∨ snapshot db = Some fl → readable fl (conn_key db) = true).

Lemma live_aborted t0 t db : live t0 t db → aborted t0 db.
Proof. intros H. split_and!; [apply H..|]. left; eauto. Qed.
#[local] Hint Resolve live_aborted : sfs.

Lemma readable_written (fl : dbfile T) key :
  readable fl key = true → readable (written key fl) key = true.
Proof. destruct fl as [? [k|] ?]; unfold readable; simpl; [done|]. by rewrite bool_decide_eq_true. Qed.

(** The three ways a statement can end. *)
Lemma wp_sql_exec {R} (run : dbfile T → option (dbfile T * R)) db (Q : _ → _ → Prop) :
  (∀ e fs, faults db = Some e :: fs →
     Q (None, fault_text e) (apply_fault e (set_faults fs db))) →
  (∀ txt, (good db → ∀ fl, file db = Some fl → run fl = None) →
     Q (None, txt) (set_faults (tail (faults db)) db)) →
  (∀ fl fl' x, file db = Some fl → run fl = Some (fl', x) →
     Q (Some x, "") (set_file (Some fl') (set_faults (tail (faults db)) db))) →
  wp (sql_exec run) Q db.
Proof.
  intros Hf Hn Hs. unfold wp, sql_exec, bind, next_fault.
  destruct db as [o k f s l p n fs]; simpl in *.
  destruct fs as [|[e|] fs]; simpl; [|by apply Hf|].
  all: destruct o; simpl; [|by apply Hn; intros (?&?&?)].
  all: destruct f as [fl|]; simpl; [|by apply Hn].
  all: destruct (readable fl k) eqn:Hr; simpl;
    [|apply Hn; intros (_&_&Hg); specialize (Hg fl (or_introl eq_refl)); simpl in Hg; congruence].
  all: destruct (run fl) as [[fl' x]|] eqn:Hrun; simpl; [by eapply Hs|].
  all: apply Hn; intros _ fl' [= <-]; done.
Qed.

Lemma good_fault e fs db : good db → faults db = Some e :: fs → False.
Proof. intros [Hf _] Heq. rewrite Heq in Hf. by inversion_clear Hf. Qed.

Lemma good_tail db : good db → good (set_faults (tail (faults db)) db).
Proof. intros (Hf&Ho&Hr). split_and!; [|done..]. destruct (faults db); [done|by inversion Hf]. Qed.

Lemma good_set_file fl db :
  good db → readable fl (conn_key db) = true → good (set_file (Some fl) db).
Proof.
  intros (Hf&Ho&Hr) Hfl. split_and!; [done..|]. simpl. intros fl' [[= <-]|?]; [done|]. apply Hr; auto.
Qed.

(** A fault inside a transaction. *)
Lemma apply_fault_aborted e fs t0 t db :
  live t0 t db → aborted t0 (apply_fault e (set_faults fs db)).
Proof.
  intros (Ho&Hs&Hsn&Hc). unfold apply_fault, restore_snapshot.
  destruct (fault_kind e); [split_and!; [done..|left; by exists t]|].
  simpl. destruct (snapshot db); [|done]. split_and!; [done..|]. by right.
Qed.

Lemma set_faults_live fs t0 t db : live t0 t db → live t0 t (set_faults fs db).
Proof. done. Qed.

(** A prepared statement run inside a transaction: it succeeds with what SQL
    says, or the transaction is aborted; in a good environment it fails only
    when SQL says so. *)
Lemma execute_spec {R} query (run : T → option (T * R)) t0 t db :
  live t0 t db →
  wp (execute query run) (λ '(r, txt) db',
    (match r with
     | Some x => ∃ t', run t = Some (t', x) ∧ live t0 t' db'
     | None => aborted t0 db'
     end)
    ∧ (good db → good db' ∧ (query = true → r = None → run t = None ∧ live t0 t db'))) db.
Proof.
  intros Hl. unfold execute. destruct query.
  2: { apply wp_ret. split; [eauto using live_aborted|]. intros; split; [done|done]. }
  apply wp_bind, wp_gets, wp_sql_exec.
  - intros e fs Hf. split; [by eapply apply_fault_aborted|]. intros Hg; destruct (good_fault _ _ _ Hg Hf).
  - intros txt Hn. split; [by eapply live_aborted, set_faults_live|].
    intros Hg. split; [by apply good_tail|]. intros _ _. split; [|done].
    destruct Hl as (_&_&_&Hc). unfold content in Hc. apply fmap_Some in Hc as (fl&Hfl&->).
    specialize (Hn Hg _ Hfl). by destruct (run (tables fl)) as [[]|].
  - intros fl fl' x Hfl Hrun. apply bind_Some in Hrun as ([t' r]&Hrun&[= <- <-]).
    destruct Hl as (Ho&Hs&Hsn&Hc). unfold content in Hc. rewrite Hfl in Hc. injection Hc as <-.
    split; [exists t'; done|]. intros Hg. split; [|done].
    apply good_set_file; [by apply good_tail|]. apply readable_written. simpl.
    destruct Hg as (_&_&Hr). apply (Hr fl). by left.
Qed.

Lemma wp_execute_pragma query f db (Q : _ → _ → Prop) :
  (query = true → ∀ e fs, faults db = Some e :: fs →
     Q (false, fault_text e) (apply_fault e (set_faults fs db))) →
  (¬ (good db ∧ query = true) → ∀ txt, Q (false, txt) db ∧ Q (false, txt) (set_faults (tail (faults db)) db)) →
  (Q (true, "") (f (set_faults (tail (faults db)) db))) →
  wp (execute_pragma query f) Q db.
Proof.
  intros Hf Hn Hs. unfold wp, execute_pragma. destruct query; simpl.
  2: { apply Hn. by intros [_ ?]. }
  unfold bind, next_fault. destruct db as [o k f' s l p n fs]; simpl in *.
  destruct fs as [|[e|] fs]; simpl; [|by apply Hf|]; (destruct o; simpl; [done|]);
    apply Hn; by intros [(_&?&_) _].
Qed.

(** A change of the connection that neither the tables nor the transactions
    notice: faults were consumed, queries were prepared. *)
Definition same db db' : Prop :=
  m_open db' = m_open db ∧ conn_key db' = conn_key db ∧ file db' = file db
  ∧ snapshot db' = snapshot db ∧ m_transactionSemaphore db' = m_transactionSemaphore db.

#[global] Instance same_preorder : PreOrder same.
Proof. split; [by repeat split|]. intros ??? (?&?&?&?&?) (?&?&?&?&?). repeat split; congruence. Qed.

Lemma same_idle t db db' : idle t db → same db db' → idle t db'.
Proof. unfold idle, content. by intros H (->&_&->&->&->). Qed.

Lemma same_live t0 t db db' : live t0 t db → same db db' → live t0 t db'.
Proof. unfold live, content. by intros H (->&_&->&->&->). Qed.

Lemma same_aborted t0 db db' : aborted t0 db → same db db' → aborted t0 db'.
Proof.
  unfold aborted, live, content. by intros H (->&_&->&->&->).
Qed.

Lemma prepare_spec st db :
  wp (prepare st) (λ '(q, txt) db',
    same db db' ∧ (good db → good db' ∧ q = true ∧ txt = "")) db.
Proof.
  unfold prepare. apply wp_bind, wp_gets. case_bool_decide.
  { apply wp_ret. split; [done|]. auto. }
  apply wp_bind. unfold wp at 1, next_fault.
  destruct db as [o k f s l p n fs], fs as [|[e|] fs]; simpl.
  2: { split; [done|]. intros Hg; by destruct (good_fault _ _ _ Hg eq_refl). }
  all: destruct o; simpl; (split; [done|intros Hg]).
  1, 3: by apply good_tail in Hg.
  all: by destruct Hg as (_&Hg&_).
Qed.

(** A SELECT outside a transaction. *)
Lemma select_idle_spec {R} query (rows : T → R) t db :
  idle t db →
  wp (select query rows) (λ '(r, txt) db',
    idle t db' ∧ (r = None ∨ r = Some (rows t))
    ∧ (good db → good db' ∧ (query = true → r = Some (rows t)))) db.
Proof.
  intros Hi. unfold select. destruct query; [|by apply wp_ret; split_and!; auto].
  pose proof Hi as (Ho&Hs&Hsn&Hc). unfold content in Hc.
  apply fmap_Some in Hc as (fl&Hfl&->). apply wp_sql_exec.
  - intros e fs Hf. split_and!; [|by left|intros Hg; destruct (good_fault _ _ _ Hg Hf)].
    unfold apply_fault, restore_snapshot. by destruct (fault_kind e); simpl; rewrite ?Hsn.
  - intros txt Hn. split_and!; [done|by left|]. intros Hg. by specialize (Hn Hg _ Hfl).
  - intros fl1 fl2 x Hfl' [= <- <-]. rewrite Hfl in Hfl'. injection Hfl' as <-.
    split_and!; [done|by right|]. intros Hg. split; [|done].
    apply good_set_file; [by apply good_tail|]. apply Hg. by left.
Qed.

(** A statement outside a transaction commits by itself. *)
Lemma execute_idle_spec {R} query (run : T → option (T * R)) t db :
  idle t db →
  wp (execute query run) (λ '(r, txt) db',
    (match r with
     | Some x => ∃ t', run t = Some (t', x) ∧ idle t' db'
     | None => idle t db'
     end)
    ∧ (good db → good db' ∧ (query = true → r = None → run t = None))) db.
Proof.
  intros Hi. unfold execute. destruct query; [|by apply wp_ret].
  pose proof Hi as (Ho&Hs&Hsn&Hc). unfold content in Hc. apply fmap_Some in Hc as (fl&Hfl&->).
  apply wp_bind, wp_gets, wp_sql_exec.
  - intros e fs Hf. split; [|intros Hg; destruct (good_fault _ _ _ Hg Hf)].
    unfold apply_fault, restore_snapshot. by destruct (fault_kind e); simpl; rewrite ?Hsn.
  - intros txt Hn. split; [done|]. intros Hg. split; [by apply good_tail|]. intros _ _.
    specialize (Hn Hg _ Hfl). by destruct (run (tables fl)) as [[]|].
  - intros fl1 fl2 x Hfl' Hrun. rewrite Hfl in Hfl'. injection Hfl' as <-.
    apply bind_Some in Hrun as ([t' r]&Hrun&[= <- <-]).
    split; [exists t'; done|]. intros Hg. split; [|done].
    apply good_set_file; [by apply good_tail|]. apply readable_written. simpl.
    destruct Hg as (_&_&Hr). apply (Hr fl). by left.
Qed.

(** A SELECT inside a transaction. *)
Lemma select_live_spec {R} query (rows : T → R) t0 t db :
  live t0 t db →
  wp (select query rows) (λ '(r, txt) db',
    (match r with Some x => x = rows t ∧ live t0 t db' | None => aborted t0 db' end)
    ∧ (good db → good db' ∧ (query = true → is_Some r))) db.
Proof.
  intros Hl. unfold select.
  destruct query; [|by apply wp_ret; split; [by eapply live_aborted|auto]].
  pose proof Hl as (Ho&Hs&Hsn&Hc). unfold content in Hc.
  apply fmap_Some in Hc as (fl&Hfl&->). apply wp_sql_exec.
  - intros e fs Hf. split; [by eapply apply_fault_aborted|].
    intros Hg; destruct (good_fault _ _ _ Hg Hf).
  - intros txt Hn. split; [by eapply live_aborted, set_faults_live|].
    intros Hg. by specialize (Hn Hg _ Hfl).
  - intros fl1 fl2 x Hfl' [= <- <-]. rewrite Hfl in Hfl'. injection Hfl' as <-.
    split; [done|]. intros Hg. split; [|done].
    apply good_set_file; [by apply good_tail|]. apply Hg. by left.
Qed.

Lemma begin_spec t db :
  idle t db →
  wp beginTransaction (λ b db',
    (if b then live t t db' else leaked t db') ∧ (good db → good db' ∧ b = true)) db.
Proof.
  intros (Ho&Hs&Hsn&Hc). unfold beginTransaction.
  apply wp_bind, wp_gets, wp_bind, wp_modify. rewrite Hs; simpl.
  apply wp_bind, wp_gets; simpl. rewrite Hsn. apply wp_bind.
  unfold content in Hc. apply fmap_Some in Hc as (fl&Hfl&->).
  apply wp_sql_exec; simpl.
  - intros e fs Hf. apply wp_ret. split; [|intros Hg; destruct (good_fault _ _ _ Hg Hf)].
    unfold apply_fault, restore_snapshot. destruct (fault_kind e); simpl; rewrite ?Hsn;
      (split_and!; [done..|]); unfold content; simpl; by rewrite Hfl.
  - intros txt Hn. apply wp_ret. split; [split_and!; [done..|]; unfold content; simpl; by rewrite Hfl|].
    intros Hg. by specialize (Hn Hg _ Hfl).
  - intros fl1 fl2 x Hfl' [= <- <-]. rewrite Hfl in Hfl'. injection Hfl' as <-.
    apply wp_bind, wp_modify, wp_ret. split; [done|]. intros (Hf&_&Hr). split; [|done].
    split_and!; [by destruct (faults db); [|inversion Hf]|done|]. simpl.
    intros fl' [[= <-]|[= <-]]; apply Hr; by left.
Qed.

Lemma commit_spec t0 t db :
  live t0 t db →
  wp commitTransaction (λ b db',
    (if b then idle t db' else commit_failed t0 t db') ∧ (good db → good db' ∧ b = true)) db.
Proof.
  intros (Ho&Hs&Hsn&Hc). unfold commitTransaction.
  apply wp_bind, wp_gets, wp_bind, wp_modify. rewrite Hs; simpl.
  apply wp_bind, wp_gets; simpl. destruct (snapshot db) as [f0|] eqn:Hsn'; [|done].
  injection Hsn as <-. apply wp_bind, wp_execute_pragma; simpl.
  - intros _ e fs Hf. apply wp_ret. split; [|intros Hg; destruct (good_fault _ _ _ Hg Hf)].
    unfold apply_fault, restore_snapshot. destruct (fault_kind e); simpl; rewrite ?Hsn';
      (split_and!; [done..|]); unfold content; simpl; [left; by rewrite Hsn'|by right].
  - intros Hn txt. split; apply wp_ret; (split; [|intros Hg; by destruct Hn; split]);
      (split_and!; [done..|left; simpl; by rewrite Hsn']).
  - apply wp_ret. split; [done|]. intros (Hf&_&Hr). split; [|done].
    split_and!; [by destruct (faults db); [|inversion Hf]|done|]. simpl.
    intros fl' [?|?]; [|done]. apply Hr; by left.
Qed.

Lemma rollback_spec t0 db :
  aborted t0 db →
  wp rollbackTransaction (λ _ db', idle t0 db' ∧ (good db → good db')) db.
Proof.
  intros (Ho&Hs&Hcase). unfold rollbackTransaction.
  apply wp_bind, wp_gets, wp_bind, wp_modify. rewrite Hs; simpl.
  apply wp_bind, wp_gets; simpl.
  destruct Hcase as [(t&_&_&Hsn&Hc)|[Hsn Hc]].
  - destruct (snapshot db) as [f0|] eqn:Hsn'; [|done]. injection Hsn as <-.
    apply wp_bind, wp_modify, wp_ret. unfold restore_snapshot; simpl. rewrite Hsn'.
    split; [done|]. intros (Hf&_&Hr). split_and!; [done..|]. simpl.
    intros fl [[= <-]|?]; [|done]. apply Hr; by right.
  - rewrite Hsn. apply wp_ret. split; [done|]. intros (Hf&_&Hr). done.
Qed.
End states.

#[export] Hint Resolve live_aborted : sfs.


(** * Consequences for [Database] *)
Section database.
  Context {T : Type} `{!Inhabited T}.
  Implicit Types (db : Database T) (t : T).

(** A begin that failed leaves the counter at one, so the next begin reports
    success without any transaction being open. *)
Lemma begin_after_failed_begin t db :
  idle t db → (beginTransaction db).1 = false →
  (beginTransaction (beginTransaction db).2).1 = true
  ∧ snapshot (beginTransaction (beginTransaction db).2).2 = None.
Proof.
  intros Hi Hb. pose proof (begin_spec t db Hi) as [H _]. rewrite Hb in H.
  destruct H as (_&Hs&Hsn&_). unfold beginTransaction at 1 3, bind, gets, modify; simpl.
  rewrite Hs. simpl. done.
Qed.

(** The error path of a failed commit: rolling back drives the counter below
    zero and leaves the transaction as it is, and the next begin fails. *)
Lemma rollback_after_failed_commit t0 t db :
  commit_failed t0 t db →
  let db1 := (rollbackTransaction db).2 in
  m_transactionSemaphore db1 = (-1)%Z ∧ content db1 = content db
  ∧ snapshot db1 = snapshot db ∧ (beginTransaction db1).1 = false.
Proof.
  intros (Ho&Hs&_). unfold rollbackTransaction, beginTransaction, bind, gets, modify; simpl.
  rewrite Hs. simpl. done.
Qed.

(** The schema upgrade loop always ends. *)
Lemma upgrade_loop_terminates ups cur v fuel db :
  (Z.to_nat (cur - v) ≤ fuel)%nat → (upgrade_loop fuel ups cur v db).1 ≠ None.
Proof.
  revert v db. induction fuel as [|n IH]; intros v db Hfuel; simpl.
  { destruct (Z.ltb_spec v cur); [lia|done]. }
  destruct (Z.ltb_spec v cur) as [Hlt|]; [|done].
  destruct (upgrade_at ups v) as [u|]; [|done].
  unfold bind. destruct (run_upgrade u db) as [b db1]. destruct b; simpl; [|done].
  destruct (query_version db1) as [[v'|] db2]; [|done].
  destruct (Z.leb_spec v' v); [done|]. apply IH. lia.
Qed.

Lemma executeUpgradeStatements_terminates ups cur db :
  (executeUpgradeStatements ups cur db).1 ≠ None.
Proof.
  unfold executeUpgradeStatements. case_bool_decide; [|done]. simpl. unfold bind.
  destruct (query_version db) as [[v|] db1]; [|done]. by apply upgrade_loop_terminates.
Qed.

(** * Opening a database with the wrong key *)
Definition mismatched (key : string) (fl : dbfile T) db : Prop :=
  conn_key db = key ∧ file db = Some fl ∧ snapshot db = None ∧ readable fl key = false
  ∧ m_transactionSemaphore db = 0%Z.

Definition no_key (s : setup_statement) : bool :=
  match s with PragmaKey _ => false | _ => true end.

Lemma exec_connection_spec (f : Database T → Database T) db (Q : _ → _ → Prop) :
  (∀ fs, Q false (set_faults fs db)) → (∀ fs, Q true (f (set_faults fs db))) →
  wp (exec_connection f) Q db.
Proof.
  intros Hf Ht. unfold wp, exec_connection, bind, next_fault. destruct db as [o k f' s l p n fs].
  destruct fs as [|[e|] fs]; simpl in *; [|apply Hf|]; destruct o; simpl; try apply Hf; apply Ht.
Qed.

Lemma mismatched_exec {R} key fl (run : dbfile T → option (dbfile T * R)) db :
  mismatched key fl db →
  wp (sql_exec run) (λ '(r, _) db', r = None ∧ mismatched key fl db') db.
Proof.
  unfold mismatched, wp, sql_exec, bind, next_fault. destruct db as [o k f s l p n fs].
  simpl. intros (->&->&->&Hr&->). destruct fs as [|[e|] fs]; simpl.
  2: { split; [done|]. unfold apply_fault, restore_snapshot. by destruct (fault_kind e). }
  all: destruct o; simpl; rewrite ?Hr; done.
Qed.

Lemma mismatched_exec_file key fl run db :
  mismatched key fl db →
  wp (exec_file run) (λ b db', b = false ∧ mismatched key fl db') db.
Proof.
  intros Hm. unfold exec_file. apply wp_bind, wp_gets, wp_bind.
  eapply wp_mono; [by eapply mismatched_exec|]. intros [r x] db' [-> Hm']. done.
Qed.

Lemma mismatched_setup key fl l db :
  mismatched key fl db → Forall no_key l →
  wp (run_setup l) (λ _ db', mismatched key fl db') db.
Proof.
  revert db. induction l as [|s l IH]; intros db Hm Hall; simpl; [done|].
  inversion_clear Hall as [|?? Hs Hl]. apply wp_bind. destruct s as [k|text|text]; [done|..].
  - apply exec_connection_spec; intros fs; [done|]. by apply IH.
  - eapply wp_mono; [by apply mismatched_exec_file|]. intros b db' [-> Hm']. done.
Qed.


(** Outside a transaction, [close] keeps the file. *)
Lemma close_spec fl db :
  file db = Some fl → snapshot db = None →
  wp close (λ _ db', m_open db' = false ∧ file db' = Some fl ∧ snapshot db' = None
    ∧ m_transactionSemaphore db' = m_transactionSemaphore db ∧ faults db' = faults db) db.
Proof. intros Hf Hs. apply wp_modify. unfold restore_snapshot; simpl. by rewrite Hs. Qed.

Lemma system_call_spec db (Q : _ → _ → Prop) :
  (∀ b fs, (b = true ∨ ¬ Forall (λ f, f = None) (faults db)) →
     (Forall (λ f, f = None) (faults db) → Forall (λ f, f = None) fs) → Q b (set_faults fs db)) →
  wp system_call Q db.
Proof.
  intros HQ. unfold wp, system_call, bind, next_fault.
  destruct db as [o k f s l p n fs]; destruct fs as [|[e|] fs]; simpl in *.
  - by apply (HQ true []); [left|].
  - apply (HQ false fs); [right|]; intros H; by inversion_clear H.
  - apply (HQ true fs); [by left|]. intros H; by inversion_clear H.
Qed.

Lemma configure_wrong_key key fl l db :
  file db = Some fl → snapshot db = None → readable fl key = false →
  m_transactionSemaphore db = 0%Z → Forall no_key l →
  wp (configureDatabase (PragmaKey key :: l))
     (λ b db', file db' = Some fl ∧ snapshot db' = None ∧ m_transactionSemaphore db' = 0%Z
        ∧ (b = true → mismatched key fl db')) db.
Proof.
  intros Hf Hs Hr Hsem Hl. unfold configureDatabase. apply wp_bind. simpl.
  apply wp_bind, exec_connection_spec; intros fs; [done|].
  eapply wp_mono; [by apply (mismatched_setup key fl)|].
  intros b db1 (?&?&?&?&?). destruct b; simpl; [|done].
  apply wp_bind, wp_gets. case_bool_decide; [done|].
  apply wp_bind, exec_connection_spec; intros fs'; done.
Qed.

(** With the wrong key, opening an existing database fails whatever the engine
    does, and leaves the file untouched and the connection closed. *)
Lemma open_wrong_key key fl l create ups cur db :
  m_open db = false → snapshot db = None → file db = Some fl →
  m_transactionSemaphore db = 0%Z → readable fl key = false → Forall no_key l →
  wp (open (PragmaKey key :: l) create ups cur)
     (λ b db', b = false ∧ m_open db' = false ∧ file db' = Some fl ∧ snapshot db' = None
        ∧ m_transactionSemaphore db' = 0%Z) db.
Proof.
  intros Ho Hs Hf Hsem Hr Hl. unfold open. apply wp_bind, wp_gets. simpl. rewrite Ho, Hf.
  apply wp_bind, system_call_spec. intros [|] fs1 _ _; [|done].
  apply wp_bind, system_call_spec. intros [|] fs2 _ _; [|done].
  apply wp_bind, wp_modify. apply wp_bind. eapply wp_mono.
  { apply (configure_wrong_key key fl); [simpl; by rewrite Hf|done..]. }
  assert (∀ db', file db' = Some fl → snapshot db' = None → m_transactionSemaphore db' = 0%Z →
    wp (close ;;; ret false) (λ b db'', b = false ∧ m_open db'' = false ∧ file db'' = Some fl
      ∧ snapshot db'' = None ∧ m_transactionSemaphore db'' = 0%Z) db') as Hclose.
  { intros db' ?? Hsem'. apply wp_bind. eapply wp_mono; [by apply close_spec|].
    intros ? db'' (?&?&?&?&_). apply wp_ret. split_and!; congruence. }
  intros [|] db1 (Hf1&Hs1&Hsem1&Hm); simpl; [|auto].
  unfold checkDatabase. apply wp_bind, wp_bind. eapply wp_mono; [by apply mismatched_exec, Hm|].
  intros [r x] db2 [-> (?&?&?&?&?)]. apply wp_ret. simpl. auto.
Qed.

(** * Opening a database in a good environment *)

(** A good connection with key [key] on a file of contents [t] and version [v];
    [sn] is the open transaction, if any. *)
Definition calm (sn : option (dbfile T)) (key : string) t (v : Z) db : Prop :=
  good db ∧ conn_key db = key ∧ snapshot db = sn ∧ m_transactionSemaphore db = 0%Z
  ∧ ∃ fk, file db = Some (DbFile t fk v) ∧ (fk = None ∨ fk = Some key).

Lemma calm_exec {R} sn key t v t' v' (x : R) run db :
  calm sn key t v db →
  (∀ fk, ∃ fk', run (DbFile t fk v) = Some (DbFile t' fk' v', x)
     ∧ (fk = None ∨ fk = Some key → fk' = None ∨ fk' = Some key)) →
  wp (sql_exec run) (λ '(r, _) db', r = Some x ∧ calm sn key t' v' db') db.
Proof.
  intros (Hg&Hk&Hsn&Hsem&fk&Hf&Hfk) Hrun. destruct (Hrun fk) as (fk'&Hr&Hfk').
  apply wp_sql_exec.
  - intros e fs He. destruct (good_fault _ _ _ Hg He).
  - intros txt Hn. specialize (Hn Hg _ Hf). congruence.
  - intros fl fl' y Hf' Hr'. rewrite Hf in Hf'. injection Hf' as <-.
    rewrite Hr in Hr'. injection Hr' as <- <-. split; [done|].
    split_and!; [|done..|by exists fk'; auto].
    apply good_set_file; [by apply good_tail|]. simpl. rewrite Hk. unfold readable; simpl.
    destruct (Hfk' Hfk) as [->| ->]; [done|]. by apply bool_decide_eq_true.
Qed.

Lemma calm_exec_file sn key t v t' v' run db :
  calm sn key t v db →
  (∀ fk, run (DbFile t fk v) = Some (DbFile t' fk v')) →
  wp (exec_file run) (λ b db', b = true ∧ calm sn key t' v' db'
    ∧ file db' = Some (DbFile t' (Some key) v')) db.
Proof.
  intros (Hg&Hk&Hsn&Hsem&fk&Hf&Hfk) Hrun. unfold exec_file. apply wp_bind, wp_gets, wp_bind.
  apply wp_sql_exec.
  - intros e fs He. destruct (good_fault _ _ _ Hg He).
  - intros txt Hn. specialize (Hn Hg _ Hf). by rewrite Hrun in Hn.
  - intros fl fl' y Hf' Hr'. rewrite Hf in Hf'. injection Hf' as <-.
    rewrite Hrun in Hr'. injection Hr' as <- <-. apply wp_ret. rewrite Hk. unfold written; simpl.
    assert (default key fk = key) as -> by (by destruct Hfk as [->| ->]).
    split_and!; [done| |done]. split_and!; [|done..|by eexists; eauto].
    apply good_set_file; [by apply good_tail|]. simpl. rewrite Hk. by apply bool_decide_eq_true.
Qed.

Lemma calm_exec_connection sn key t v db :
  calm sn key t v db →
  wp (exec_connection id) (λ b db', b = true ∧ calm sn key t v db') db.
Proof.
  intros (Hg&Hc). unfold wp, exec_connection, bind, next_fault.
  destruct db as [o k f s l p n fs]. pose proof Hg as (Hf&Ho&Hr). simpl in *.
  destruct fs as [|[e|] fs]; simpl; [|by inversion Hf|]; rewrite Ho; simpl; split; [done..|].
  all: split; [|done]; split_and!; [by inversion Hf|done..].
Qed.

Lemma calm_setup sn key t v l db :
  calm sn key t v db → Forall no_key l →
  wp (run_setup l) (λ b db', b = true ∧ calm sn key t v db') db.
Proof.
  revert db. induction l as [|s l IH]; intros db Hc Hall; simpl; [done|].
  inversion_clear Hall as [|?? Hs Hl]. apply wp_bind. destruct s; [done|..].
  - eapply wp_mono; [by apply calm_exec_connection|]. intros b db' [-> ?]. by apply IH.
  - eapply wp_mono; [by eapply calm_exec_file|]. intros b db' (->&?&_). by apply IH.
Qed.

Lemma set_locale_calm sn key t v loc db :
  calm sn key t v db → calm sn key t v (set_locale loc db).
Proof. done. Qed.

(** The setup of a plain database, and of one with a key. *)
Lemma calm_configure key t v l db :
  calm None key t v db → Forall no_key l →
  wp (configureDatabase l) (λ b db', b = true ∧ calm None key t v db') db.
Proof.
  intros Hc Hl. unfold configureDatabase. apply wp_bind.
  eapply wp_mono; [by apply calm_setup|]. intros b db1 [-> Hc1]; simpl.
  apply wp_bind, wp_gets. case_bool_decide; [done|].
  apply wp_bind. eapply wp_mono; [by apply calm_exec_connection|]. by intros b db2 [-> ?].
Qed.

Lemma calm_configure_key key t fk v l db :
  Forall (λ f, f = None) (faults db) → m_open db = true → snapshot db = None →
  m_transactionSemaphore db = 0%Z → file db = Some (DbFile t fk v) →
  fk = None ∨ fk = Some key → Forall no_key l →
  wp (configureDatabase (PragmaKey key :: l)) (λ b db', b = true ∧ calm None key t v db') db.
Proof.
  intros Hfs Ho Hsn Hsem Hf Hfk Hl.
  enough (wp (exec_connection (set_conn_key key)) (λ b db', b = true ∧ calm None key t v db') db)
    as Hkey.
  { unfold wp, configureDatabase, bind in *. simpl. unfold bind.
    destruct (exec_connection (set_conn_key key) db) as [b db1]; simpl in *.
    destruct Hkey as [-> Hc]. apply (calm_configure key t v l db1 Hc Hl). }
  unfold wp, exec_connection, bind, next_fault. destruct db as [o k f s lo p n fs]; simpl in *.
  subst. assert (readable (DbFile t fk v) key = true) as Hr.
  { unfold readable; simpl. destruct Hfk as [->| ->]; [done|]. by apply bool_decide_eq_true. }
  destruct fs as [|[e|] fs]; simpl; [|by inversion Hfs|]; (split; [done|]);
    (split_and!; [|done..|by exists fk]); (split_and!; [by inversion Hfs|done|]); simpl;
    by intros fl [[= <-]|?].
Qed.

(** The setup statements of a database encrypted with [key], or of a plain one
    (an empty key). *)
Definition setup_for (key : string) (setup : list setup_statement) : Prop :=
  (∃ l, setup = PragmaKey key :: l ∧ Forall no_key l) ∨ (key = "" ∧ Forall no_key setup).

Lemma calm_configure_any key t fk v setup db :
  Forall (λ f, f = None) (faults db) → m_open db = true → snapshot db = None →
  m_transactionSemaphore db = 0%Z → file db = Some (DbFile t fk v) → conn_key db = "" →
  fk = None ∨ fk = Some key → setup_for key setup →
  wp (configureDatabase setup) (λ b db', b = true ∧ calm None key t v db') db.
Proof.
  intros Hfs Ho Hsn Hsem Hf Hk Hfk [(l&->&Hl)|[-> Hl]]; [by eapply calm_configure_key|].
  apply calm_configure; [|done]. split_and!; [|done..|by exists fk]. split_and!; [done..|].
  rewrite Hsn, Hf, Hk. intros fl [[= <-]|?]; [|done]. unfold readable; simpl.
  destruct Hfk as [->| ->]; [done|]. by apply bool_decide_eq_true.
Qed.

Lemma calm_begin key t v db :
  calm None key t v db →
  wp sql_begin (λ b db', b = true ∧ ∃ fk, (fk = None ∨ fk = Some key)
    ∧ calm (Some (DbFile t fk v)) key t v db') db.
Proof.
  intros Hc. pose proof Hc as (Hg&Hk&Hsn&Hsem&fk&Hf&Hfk). unfold sql_begin.
  apply wp_bind, wp_gets. rewrite Hsn. apply wp_bind, wp_sql_exec.
  - intros e fs He. destruct (good_fault _ _ _ Hg He).
  - intros txt Hn. by specialize (Hn Hg _ Hf).
  - intros fl fl' y Hf' [= <- <-]. rewrite Hf in Hf'. injection Hf' as <-.
    apply wp_bind, wp_modify, wp_ret. split; [done|]. exists fk. split; [done|].
    split_and!; [|done..|by exists fk]. apply good_tail in Hg as (Hfs&Ho&Hr).
    split_and!; [done..|]. simpl. intros fl' [[= <-]|[= <-]]; apply Hr; by left.
Qed.

Lemma calm_commit sn key t v db :
  calm (Some sn) key t v db →
  wp sql_commit (λ b db', b = true ∧ calm None key t v db' ∧ file db' = file db) db.
Proof.
  intros (Hg&Hk&Hsn&Hsem&fk&Hf&Hfk). unfold sql_commit. apply wp_bind, wp_gets. rewrite Hsn.
  apply wp_bind, wp_execute_pragma.
  - intros _ e fs He. destruct (good_fault _ _ _ Hg He).
  - intros Hn. by destruct Hn.
  - apply wp_ret. split_and!; [done| |done]. split_and!; [|done..|by exists fk].
    apply good_tail in Hg as (Hfs&Ho&Hr). split_and!; [done..|]. simpl.
    intros fl'' [?|?]; [|done]. apply Hr. by left.
Qed.

Lemma calm_creation sn key t v l db :
  calm sn key t v db →
  wp (run_creation l) (λ b db', b = true ∧ calm sn key t v db') db.
Proof.
  revert db. induction l as [|s l IH]; intros db Hc; simpl; [done|]. apply wp_bind.
  eapply wp_mono; [by eapply calm_exec_file|]. intros b db' (->&?&_). by apply IH.
Qed.

Lemma calm_idle key t v db : calm None key t v db → idle t db.
Proof.
  intros ((_&?&_)&_&?&?&fk&Hf&_). split_and!; [done..|]. unfold content. by rewrite Hf.
Qed.

(** Opening an existing database with its key, in a good environment, succeeds,
    and the tables are those of the file. *)
Lemma open_existing_calm key t fk cur setup create ups db :
  m_open db = false → snapshot db = None → m_transactionSemaphore db = 0%Z →
  Forall (λ f, f = None) (faults db) → file db = Some (DbFile t fk cur) →
  fk = None ∨ fk = Some key → setup_for key setup → cur = (lengthOf ups + 1)%Z →
  wp (open setup create ups cur)
     (λ b db', b = true ∧ calm None key t cur db') db.
Proof.
  intros Ho Hsn Hsem Hfs Hf Hfk Hl Hcur. unfold open. apply wp_bind, wp_gets. simpl.
  rewrite Ho, Hf. apply wp_bind, system_call_spec. intros b1 fs1 [->|?] Hfs1; [|done].
  apply wp_bind, system_call_spec. intros b2 fs2 [->|Hn] Hfs2; [|by destruct Hn; apply Hfs1].
  apply wp_bind, wp_modify. simpl. rewrite Hf. apply wp_bind. eapply wp_mono.
  { eapply (calm_configure_any key t fk cur); try done. simpl. auto. }
  intros b db1 [-> Hc1]; simpl. unfold checkDatabase. apply wp_bind, wp_bind.
  eapply wp_mono; [apply (calm_exec None key t cur t cur tt); [done|]; intros fk'; by exists fk'|].
  intros [r x] db2 [-> Hc2]. apply wp_ret; simpl. unfold upgradeDatabase. apply wp_bind, wp_bind.
  eapply wp_mono; [by eapply calm_begin|]. intros b db3 (->&fk3&_&Hc3); simpl.
  apply wp_bind. unfold executeUpgradeStatements. rewrite bool_decide_true by done. simpl.
  unfold query_version. apply wp_bind, wp_bind.
  eapply wp_mono; [apply (calm_exec (Some (DbFile t fk3 cur)) key t cur t cur cur); [done|];
    intros fk'; by exists fk'|].
  intros [r' x'] db4 [-> Hc4]. apply wp_ret. rewrite Z.sub_diag; simpl.
  rewrite Z.ltb_irrefl. apply wp_ret; simpl. eapply wp_mono; [by eapply calm_commit|].
  intros b db5 (->&Hc5&_). by apply wp_ret.
Qed.

Lemma open_existing key t fk cur setup create ups db :
  m_open db = false → snapshot db = None → m_transactionSemaphore db = 0%Z →
  Forall (λ f, f = None) (faults db) → file db = Some (DbFile t fk cur) →
  fk = None ∨ fk = Some key → setup_for key setup → cur = (lengthOf ups + 1)%Z →
  wp (open setup create ups cur)
     (λ b db', b = true ∧ good db' ∧ idle t db') db.
Proof.
  intros. eapply wp_mono; [by eapply (open_existing_calm key t fk)|]. intros b db' [? Hc].
  split_and!; [done|apply Hc|by eapply calm_idle].
Qed.

(** Opening a database that does not exist, in a good environment, creates it:
    its tables are empty and it is encrypted with the key. *)
Lemma open_new_calm key cur setup create ups db :
  m_open db = false → snapshot db = None → m_transactionSemaphore db = 0%Z →
  Forall (λ f, f = None) (faults db) → file db = None → setup_for key setup →
  wp (open setup create ups cur)
     (λ b db', b = true ∧ calm None key inhabitant cur db'
        ∧ file db' = Some (DbFile inhabitant (Some key) cur)) db.
Proof.
  intros Ho Hsn Hsem Hfs Hf Hl. unfold open. apply wp_bind, wp_gets. simpl.
  rewrite Ho, Hf. apply wp_bind, system_call_spec. intros b1 fs1 [->|?] Hfs1; [|done].
  apply wp_bind, system_call_spec. intros b2 fs2 [->|Hn] Hfs2; [|by destruct Hn; apply Hfs1].
  apply wp_bind, wp_modify. simpl. rewrite Hf. apply wp_bind. unfold prepareDatabase.
  apply wp_bind. eapply wp_mono.
  { eapply (calm_configure_any key inhabitant None 0); try done; simpl; auto. }
  intros b db1 [-> Hc1]; simpl. apply wp_bind. eapply wp_mono; [by eapply calm_begin|].
  intros b db2 (->&fk2&_&Hc2); simpl. apply wp_bind. unfold executeCreationStatements.
  apply wp_bind. eapply wp_mono; [by eapply calm_creation|]. intros b db3 [-> Hc3]; simpl.
  eapply wp_mono; [by eapply (calm_exec_file _ key inhabitant 0 inhabitant cur)|].
  intros b db4 (->&Hc4&Hf4). simpl. eapply wp_mono; [by eapply calm_commit|].
  intros b db5 (->&Hc5&Hf5). apply wp_ret. split_and!; [done..|].
  by rewrite Hf5.
Qed.

Lemma open_new key cur setup create ups db :
  m_open db = false → snapshot db = None → m_transactionSemaphore db = 0%Z →
  Forall (λ f, f = None) (faults db) → file db = None → setup_for key setup →
  wp (open setup create ups cur)
     (λ b db', b = true ∧ good db' ∧ idle inhabitant db'
        ∧ file db' = Some (DbFile inhabitant (Some key) cur)) db.
Proof.
  intros. eapply wp_mono; [by eapply (open_new_calm key)|]. intros b db' (?&Hc&?).
  split_and!; [done|apply Hc|by eapply calm_idle|done].
Qed.
End database.
