(* ===== verification/Transactions.v ===== *)
(** The steps of a transaction as the plugins write them: what each call of the
    database layer leaves, for any environment and for a good one. *)
From S2P Require Import Prelude Result Sqlite.

#[local] Arguments select : simpl never.
#[local] Arguments execute : simpl never.

(** Symbolic execution of one call. *)
Tactic Notation "step" uconstr(lem) := apply wp_bind; eapply wp_mono; [by eapply lem|].

(** * Steps of a transaction

    [G] stands for "the engine makes no trouble", so that one lemma describes
    both what an operation may do and what it has to do. *)
Section steps.
  Context {T : Type} `{!Inhabited T} (G : Prop).
  Implicit Types (db : Database T) (t : T).

Definition Idle t db : Prop := idle t db ∧ (G → good db).
Definition Live t0 t db : Prop := live t0 t db ∧ (G → good db).
Definition Aborted t0 db : Prop := aborted t0 db ∧ (G → good db).

Lemma Live_Aborted t0 t db : Live t0 t db → Aborted t0 db.
Proof. intros []. split; [by eapply live_aborted|done]. Qed.

Lemma prepare_step st (R : Database T → Prop) db :
  R db → (∀ db1 db2, R db1 → same db1 db2 → (good db1 → good db2) → R db2) →
  (G → good db) →
  wp (prepare st) (λ '(q, txt) db', R db' ∧ (G → q = true ∧ txt = "")) db.
Proof.
  intros HR Hmono Hg. eapply wp_mono; [apply prepare_spec|]. intros [q txt] db' [Hs Hg'].
  split; [by eapply Hmono; eauto; intros; apply Hg'|]. intros HG. by apply Hg', Hg.
Qed.

Lemma prepare_Idle st t db :
  Idle t db → wp (prepare st) (λ '(q, txt) db', Idle t db' ∧ (G → q = true ∧ txt = "")) db.
Proof.
  intros H. apply prepare_step; [done| |apply H]. intros db1 db2 [??] ??.
  split; [by eapply same_idle|auto].
Qed.

Lemma prepare_Live st t0 t db :
  Live t0 t db → wp (prepare st) (λ '(q, txt) db', Live t0 t db' ∧ (G → q = true ∧ txt = "")) db.
Proof.
  intros H. apply prepare_step; [done| |apply H]. intros db1 db2 [??] ??.
  split; [by eapply same_live|auto].
Qed.

Lemma begin_Idle t db :
  Idle t db →
  wp beginTransaction (λ b db', if b then Live t t db' else leaked t db' ∧ ¬ G) db.
Proof.
  intros [Hi Hg]. eapply wp_mono; [by eapply begin_spec|]. intros [|] db' [H Hg'].
  - split; [done|]. intros. by apply Hg', Hg.
  - split; [done|]. intros HG. by destruct (Hg' (Hg HG)).
Qed.

Lemma select_Idle {R} query (rows : T → R) t db :
  Idle t db →
  wp (select query rows) (λ '(r, txt) db', Idle t db'
    ∧ match r with Some x => x = rows t | None => G → query = false end) db.
Proof.
  intros [Hi Hg]. eapply wp_mono; [by eapply select_idle_spec|].
  intros [r txt] db' (Hi'&Hr&Hg'). split; [split; [done|]; intros; by apply Hg', Hg|].
  destruct r; [naive_solver|]. intros HG. destruct query; [|done].
  by destruct (Hg' (Hg HG)) as [_ Hx]; specialize (Hx eq_refl).
Qed.

Lemma select_Live {R} query (rows : T → R) t0 t db :
  Live t0 t db →
  wp (select query rows) (λ '(r, txt) db',
    match r with
    | Some x => x = rows t ∧ Live t0 t db'
    | None => Aborted t0 db' ∧ (G → query = false)
    end) db.
Proof.
  intros [Hi Hg]. eapply wp_mono; [by eapply select_live_spec|].
  intros [[x|] txt] db' [Hr Hg'].
  - destruct Hr as [-> ?]. split; [done|]. split; [done|]. intros. by apply Hg', Hg.
  - split; [split; [done|intros; by apply Hg', Hg]|]. intros HG. destruct query; [|done].
    by destruct (Hg' (Hg HG)) as [_ []].
Qed.

Lemma execute_Live {R} query (run : T → option (T * R)) t0 t db :
  Live t0 t db →
  wp (execute query run) (λ '(r, txt) db',
    match r with
    | Some x => ∃ t', run t = Some (t', x) ∧ Live t0 t' db'
    | None => Aborted t0 db' ∧ (G → query = true → run t = None)
    end) db.
Proof.
  intros [Hi Hg]. eapply wp_mono; [by eapply execute_spec|].
  intros [[x|] txt] db' [Hr Hg'].
  - destruct Hr as (t'&?&?). exists t'. split; [done|]. split; [done|]. intros. by apply Hg', Hg.
  - split; [split; [done|]; intros; by apply Hg', Hg|]. intros HG Hq. by apply Hg'; [apply Hg|..].
Qed.

Lemma rollback_Aborted t0 db :
  Aborted t0 db → wp rollbackTransaction (λ _ db', Idle t0 db') db.
Proof.
  intros [Ha Hg]. eapply wp_mono; [by eapply rollback_spec|]. intros _ db' [Hi Hg'].
  split; [done|]. auto.
Qed.

(** A transaction that could not be begun, or could not be ended: the counter
    no longer says what is open. *)
Definition jammed t t' db : Prop :=
  leaked t db
  ∨ (m_open db = true ∧ m_transactionSemaphore db = (-1)%Z
     ∧ ((tables <$> snapshot db = Some t ∧ content db = Some t')
        ∨ (snapshot db = None ∧ content db = Some t))).

Lemma commit_or_rollback {A} t0 t db (a b : A) (Q : A → Database T → Prop) :
  Live t0 t db →
  (∀ db', Idle t db' → Q b db') →
  (∀ db', ¬ G → jammed t0 t db' → Q a db') →
  wp (let* committed := commitTransaction in
      if negb committed then rollbackTransaction ;;; ret a else ret b) Q db.
Proof.
  intros [Hl Hg] Hb Ha. apply wp_bind. eapply wp_mono; [by eapply commit_spec|].
  intros [|] db' [Hc Hg']; simpl.
  - apply wp_ret, Hb. split; [done|]. intros; by apply Hg', Hg.
  - apply wp_bind. unfold wp at 1.
    pose proof (rollback_after_failed_commit _ _ _ Hc) as (Hs&Hct&Hsn&_).
    apply wp_ret, Ha; [intros HG; by destruct (Hg' (Hg HG))|]. right.
    destruct Hc as (Ho&_&Hcase). rewrite Hct, Hsn. split_and!; [|done..].
    rewrite <-Ho. unfold rollbackTransaction, bind, gets, modify, ret, sql_rollback; simpl.
    repeat case_bool_decide; simpl; try done. unfold bind, gets; simpl.
    destruct (snapshot db') eqn:Hsnap; simpl; [|done]. unfold bind, modify, ret; simpl.
    unfold restore_snapshot; simpl. by rewrite Hsnap.
Qed.

(** How an operation that turns the tables [t] into [t'] may end. *)
Definition ended t t' (r : Result) db : Prop :=
  if ok r then Idle t' db
  else Idle t db ∨ (¬ G ∧ errorCode r = DatabaseTransactionError ∧ jammed t t' db).

Lemma ended_refused t t' r db : ok r = false → Idle t db → ended t t' r db.
Proof. intros Hr Hi. unfold ended. rewrite Hr. by left. Qed.

(** The failure exits of an operation. *)
Lemma rolled_back t0 t' (r : Result) db (Q : Result → Database T → Prop) :
  Aborted t0 db → ok r = false → (∀ db', ended t0 t' r db' → Q r db') →
  wp (rollbackTransaction ;;; ret r) Q db.
Proof.
  intros Ha Hr HQ. apply wp_bind. eapply wp_mono; [by eapply rollback_Aborted|].
  intros ? db' Hi. apply wp_ret, HQ. by apply ended_refused.
Qed.

Lemma not_begun t t' db (r : Result) :
  errorCode r = DatabaseTransactionError → ok r = false → leaked t db → ¬ G →
  ended t t' r db.
Proof. intros He Hr Hl HG. unfold ended. rewrite Hr. right. split_and!; [done..|by left]. Qed.

(** The end of an operation: commit, and roll back on failure. *)
Lemma finish_Live e t0 t db :
  ok e = false → errorCode e = DatabaseTransactionError → Live t0 t db →
  wp (let* committed := commitTransaction in
      if negb committed then rollbackTransaction ;;; ret e else ret (result_of_code Succeeded))
     (λ r db', ended t0 t r db' ∧ (G → ok r = true)) db.
Proof.
  intros He Hc Hl. eapply commit_or_rollback; [done|..].
  - intros db' Hi. unfold ended. by rewrite ok_succeeded.
  - intros db' HG Hj. unfold ended. rewrite He. split; [by right|done].
Qed.
End steps.

(** The exits of a query that cannot be prepared and of a transaction that
    cannot be begun. *)
Ltac prepared :=
  let q := fresh "q" in let txt := fresh "txt" in let db := fresh "db" in
  let H := fresh "H" in let Hq := fresh "Hq" in
  first [step prepare_Idle | step prepare_Live];
  let Ht := fresh "Htxt" in
  intros [q txt] db [H Hq]; unfold isEmpty; destruct (decide (txt = "")) as [Ht|Ht];
  [rewrite (bool_decide_true _ Ht)|rewrite (bool_decide_false _ Ht)]; simpl;
  [|first
      [apply wp_ret; split; [apply ended_refused; [by apply ok_error|done]|]
      |eapply rolled_back; [by eapply Live_Aborted|by apply ok_error|];
       intros ? ?; split; [done|]];
    intros HG; by destruct (Hq HG)].
Ltac begun :=
  step begin_Idle; intros [|] ? ?; simpl;
  [|apply wp_ret; split; [apply not_begun; [done|by apply ok_error|tauto..]|tauto]].
(** A statement that has to succeed on these tables. *)
Ltac executed Hrun Hq :=
  step execute_Live; intros [[[]|] ?] ? Hx;
  [let t' := fresh "t'" in let Ht := fresh in
   destruct Hx as (t'&Ht&?); rewrite Hrun in Ht; injection Ht as <-
  |let Hn := fresh "Hn" in
   destruct Hx as [? Hn]; eapply rolled_back; [done|by apply ok_error|];
   intros ? ?; split; [done|]; intros HG; rewrite Hrun in Hn; destruct (Hq HG) as [-> _];
   by specialize (Hn HG eq_refl)].
Ltac finished :=
  eapply wp_mono; [eapply finish_Live; [by apply ok_error|done|done]|]; intros ? ? [? Hr]; split; [done|];
  intros HG; rewrite (Hr HG).


Section settled_at.
  Context {T : Type} `{!Inhabited T}.
  Implicit Types (db : Database T) (key : string).

(** * A connection in a good environment

    In a good environment the state of an open connection is determined: its
    file [fl], its transaction [sn], its counter [n] and its key. *)
Definition settled_at (fl : dbfile T) (sn : option (dbfile T)) (n : Z) key db : Prop :=
  Forall (λ f, f = None) (faults db) ∧ m_open db = true ∧ conn_key db = key
  ∧ file db = Some fl ∧ snapshot db = sn ∧ m_transactionSemaphore db = n.

(** Split a call on whether an environment item is left; none is a fault. *)
Ltac good_call H :=
  match type of H with settled_at _ _ _ _ ?db =>
    destruct db as [o k f s l p m fs]; destruct H as (Hfs&Ho&Hk&Hf&Hs&Hm); simpl in *; subst;
    destruct fs as [|[e|] fs]; [|by inversion Hfs|pose proof (Forall_inv_tail Hfs) as Hfs']
  end.

Lemma at_prepare st fl sn n key db :
  settled_at fl sn n key db →
  wp (prepare st) (λ '(q, txt) db', q = true ∧ txt = "" ∧ settled_at fl sn n key db') db.
Proof.
  intros H. unfold wp, prepare, bind, gets, next_fault. good_call H; simpl.
  all: case_bool_decide; simpl; by repeat split.
Qed.

Lemma at_begin fl key db :
  readable fl key = true → settled_at fl None 0 key db →
  wp beginTransaction (λ b db', b = true ∧ settled_at fl (Some fl) 1 key db') db.
Proof.
  intros Hr H. unfold wp. good_call H; unfold beginTransaction, bind, gets, modify; simpl.
  all: unfold sql_begin, sql_exec, bind, gets; simpl; unfold bind, next_fault; simpl.
  all: rewrite Hr; simpl; by repeat split.
Qed.

Lemma at_commit fl sn key db :
  settled_at fl (Some sn) 1 key db →
  wp commitTransaction (λ b db', b = true ∧ settled_at fl None 0 key db') db.
Proof.
  intros H. unfold wp. good_call H; unfold commitTransaction, bind, gets, modify; simpl.
  all: unfold sql_commit, execute_pragma, bind, gets; simpl; unfold bind, next_fault; simpl.
  all: by repeat split.
Qed.

Lemma at_pragma fl sn n key key' db :
  settled_at fl sn n key db →
  wp (execute_pragma true (set_conn_key key')) (λ '(b, txt) db', b = true ∧ settled_at fl sn n key' db') db.
Proof.
  intros H. unfold wp, execute_pragma, bind, next_fault, gets, modify. good_call H; simpl.
  all: by repeat split.
Qed.

Lemma at_rekey t fk v sn n key key' db :
  readable (DbFile t fk v) key = true → settled_at (DbFile t fk v) sn n key db →
  wp (execute_rekey true key') (λ '(b, txt) db', b = true
    ∧ settled_at (DbFile t (Some key') v) sn n key' db') db.
Proof.
  intros Hr H. unfold wp, execute_rekey. simpl. unfold sql_exec, bind, next_fault, gets, modify.
  good_call H; simpl. all: rewrite Hr; simpl; by repeat split.
Qed.

Lemma at_select {R} (rows : T → R) fl sn n key db :
  readable fl key = true → settled_at fl sn n key db →
  wp (select true rows) (λ '(r, txt) db', r = Some (rows (tables fl)) ∧ settled_at fl sn n key db') db.
Proof.
  intros Hr H. unfold wp, select, sql_exec, bind, next_fault, gets, modify.
  good_call H; simpl. all: rewrite Hr; simpl; by repeat split.
Qed.

End settled_at.

(** * The key of a database

    Nothing but re-keying changes the key and the version of a database that
    was written once, whatever the engine does. *)
Section keyed.
  Context {T : Type} `{!Inhabited T}.
  Implicit Types (db : Database T).

Definition file_keyed (key : string) (v : Z) db : Prop :=
  ∀ fl, file db = Some fl ∨ snapshot db = Some fl → file_key fl = Some key ∧ user_version fl = v.

Definition keyed (key : string) (v : Z) db : Prop := conn_key db = key ∧ file_keyed key v db.

Lemma file_keyed_restore key v db : file_keyed key v db → file_keyed key v (restore_snapshot db).
Proof.
  intros Hf. unfold restore_snapshot. destruct (snapshot db) as [fl|] eqn:Hs; [|done].
  intros fl' [[= <-]|?]; [|done]. apply Hf. by right.
Qed.

Lemma file_keyed_fault e key v db : file_keyed key v db → file_keyed key v (apply_fault e db).
Proof. unfold apply_fault. destruct (fault_kind e); [done|apply file_keyed_restore]. Qed.

Lemma conn_key_restore db : conn_key (restore_snapshot db) = conn_key db.
Proof. unfold restore_snapshot. by destruct (snapshot db). Qed.

Lemma keyed_restore key v db : keyed key v db → keyed key v (restore_snapshot db).
Proof. intros [Hk Hf]. split; [by rewrite conn_key_restore|by apply file_keyed_restore]. Qed.

Lemma keyed_fault e key v db : keyed key v db → keyed key v (apply_fault e db).
Proof. unfold apply_fault. destruct (fault_kind e); [done|apply keyed_restore]. Qed.

(** A statement that keeps the key and the version of a file. *)
Definition keeps_key {R} (key : string) (v : Z) (run : dbfile T → option (dbfile T * R)) : Prop :=
  ∀ fl fl' x, run fl = Some (fl', x) → file_key fl = Some key → user_version fl = v →
    file_key fl' = Some key ∧ user_version fl' = v.

Lemma file_keyed_sql_exec {R} (run : dbfile T → option (dbfile T * R)) key v :
  keeps_key key v run → preserves (file_keyed key v) (sql_exec run).
Proof.
  intros Hrun db Hdb. apply wp_sql_exec; [|done|].
  - intros. by apply file_keyed_fault.
  - intros fl fl' x Hf Hr fl2 [[= <-]|?]; [|apply Hdb; auto].
    destruct (Hdb fl) as [??]; [auto|]. by eapply Hrun.
Qed.

Lemma keyed_sql_exec {R} (run : dbfile T → option (dbfile T * R)) key v :
  keeps_key key v run → preserves (keyed key v) (sql_exec run).
Proof.
  intros Hrun db [Hk Hdb]. apply wp_and; [|by apply file_keyed_sql_exec].
  apply wp_sql_exec; [|done..]. intros e fs _. unfold apply_fault.
  destruct (fault_kind e); [done|]. by rewrite conn_key_restore.
Qed.

Lemma keyed_next_fault key v : preserves (keyed key v) (@next_fault T).
Proof. intros db H. unfold wp, next_fault. by destruct (faults db). Qed.

Lemma keyed_prepare st key v : preserves (keyed key v) (@prepare T st).
Proof.
  intros db [Hk Hf]. eapply wp_mono; [apply prepare_spec|].
  intros [q txt] db' [(Ho&Hk'&Hf'&Hs'&_) _]. split; [congruence|]. unfold file_keyed. by rewrite Hf', Hs'.
Qed.

Lemma keyed_select {R} q (rows : T → R) key v : preserves (keyed key v) (select q rows).
Proof. unfold select. keep. apply keyed_sql_exec. intros ??? [= <- _]. auto. Qed.

Lemma keyed_execute {R} q (run : T → option (T * R)) key v : preserves (keyed key v) (execute q run).
Proof.
  unfold execute. keep. apply keyed_sql_exec. intros fl fl' x H Hfk Hv.
  apply bind_Some in H as ([]&_&[= <- _]). unfold written. simpl. by rewrite Hfk.
Qed.

Lemma keyed_begin key v : preserves (keyed key v) (@beginTransaction T).
Proof.
  intros db Hk. unfold beginTransaction, sql_begin. apply wp_bind, wp_gets, wp_bind, wp_modify.
  case_bool_decide; [|case_bool_decide; by apply wp_ret].
  apply wp_bind, wp_gets. simpl. destruct (snapshot db) eqn:Hs; [by apply wp_ret|].
  apply wp_bind, wp_sql_exec; simpl.
  - intros e fs He. apply wp_ret. by apply keyed_fault.
  - intros. by apply wp_ret.
  - intros fl fl' x Hf [= <- <-]. apply wp_bind, wp_modify, wp_ret. destruct Hk as [Hk Hdb].
    split; [done|]. intros fl2 [[= <-]|[= <-]]; apply Hdb; auto.
Qed.

Lemma keyed_commit key v : preserves (keyed key v) (@commitTransaction T).
Proof.
  intros db Hk. unfold commitTransaction, sql_commit. apply wp_bind, wp_gets, wp_bind, wp_modify.
  case_bool_decide; [|case_bool_decide; by apply wp_ret].
  apply wp_bind, wp_gets. simpl. destruct (snapshot db) eqn:Hs; [|by apply wp_ret].
  apply wp_bind, wp_execute_pragma; simpl.
  - intros. apply wp_ret. by apply keyed_fault.
  - intros. split; by apply wp_ret.
  - apply wp_ret. destruct Hk as [Hk Hdb]. split; [done|]. intros fl [?|?]; [apply Hdb; auto|done].
Qed.

Lemma keyed_rollback key v : preserves (keyed key v) (@rollbackTransaction T).
Proof.
  unfold rollbackTransaction, sql_rollback. keep; apply preserves_modify; [done|].
  intros. by apply keyed_restore.
Qed.

(** In a good environment the state of an idle connection is determined by its
    tables and its key. *)
Lemma settled_at_intro t key v db :
  idle t db → good db → keyed key v db → settled_at (DbFile t (Some key) v) None 0 key db.
Proof.
  intros (Ho&Hsem&Hs&Hc) (Hf&_) [Hk Hkey]. unfold content in Hc.
  apply fmap_Some in Hc as (fl&Hfl&->). destruct (Hkey fl) as [<- <-]; [by left|].
  split_and!; try done. rewrite Hfl. by destruct fl.
Qed.

Lemma settled_at_elim t key v db :
  settled_at (DbFile t (Some key) v) None 0 key db → idle t db ∧ good db ∧ keyed key v db.
Proof.
  intros (Hf&Ho&Hk&Hfl&Hs&Hsem). split_and!.
  - split_and!; [done..|]. unfold content. by rewrite Hfl.
  - split_and!; [done..|]. rewrite Hfl, Hs. intros fl [[= <-]|?]; [|done].
    unfold readable. simpl. by apply bool_decide_eq_true.
  - split; [done|]. unfold file_keyed. rewrite Hfl, Hs. by intros fl [[= <-]|?].
Qed.

(** ** Opening an existing database keeps its key *)

Lemma file_keyed_exec_connection f key v :
  (∀ db, file_keyed key v db → file_keyed key v (f db)) →
  preserves (file_keyed key v) (exec_connection f).
Proof. intros Hf db Hdb. by apply exec_connection_spec; intros fs; [|apply Hf]. Qed.

Lemma file_keyed_exec_file key v : preserves (file_keyed key v) (@exec_file T Some).
Proof.
  unfold exec_file. keep. apply file_keyed_sql_exec. intros fl fl' x [= <- <-] Hk Hv.
  unfold written. simpl. by rewrite Hk.
Qed.

Lemma file_keyed_query {R} (f : dbfile T → R) key v :
  preserves (file_keyed key v) (sql_exec (λ fl, Some (fl, f fl))).
Proof. apply file_keyed_sql_exec. intros ??? [= <- <-]. auto. Qed.

Lemma file_keyed_setup l key v : preserves (file_keyed key v) (@run_setup T l).
Proof.
  induction l as [|s l IH]; simpl; [apply preserves_ret|]. apply preserves_bind.
  - destruct s; [by apply file_keyed_exec_connection..|apply file_keyed_exec_file].
  - intros []; [done|apply preserves_ret].
Qed.

Lemma file_keyed_begin key v : preserves (file_keyed key v) (@sql_begin T).
Proof.
  intros db Hk. unfold sql_begin. apply wp_bind, wp_gets.
  destruct (snapshot db) eqn:Hs; [by apply wp_ret|]. apply wp_bind, wp_sql_exec; simpl.
  - intros e fs He. apply wp_ret. by apply file_keyed_fault.
  - intros. by apply wp_ret.
  - intros fl fl' x Hf [= <- <-]. apply wp_bind, wp_modify, wp_ret.
    intros fl2 [[= <-]|[= <-]]; apply Hk; auto.
Qed.

Lemma file_keyed_finalize b key v : preserves (file_keyed key v) (@finalizeTransaction T b).
Proof.
  intros db Hk. unfold finalizeTransaction, sql_commit, sql_rollback. destruct b.
  - apply wp_bind, wp_gets. destruct (snapshot db) eqn:Hs; [|by apply wp_ret].
    apply wp_bind, wp_execute_pragma; simpl.
    + intros. apply wp_ret. by apply file_keyed_fault.
    + intros. split; by apply wp_ret.
    + apply wp_ret. intros fl [?|?]; [apply Hk; auto|done].
  - apply wp_bind, wp_bind, wp_gets. destruct (snapshot db) eqn:Hs; [|done].
    apply wp_bind, wp_modify. by apply file_keyed_restore.
Qed.

Lemma file_keyed_close key v : preserves (file_keyed key v) (@close T).
Proof. apply preserves_modify. intros db Hdb. by apply (file_keyed_restore key v (set_prepared [] db)). Qed.
#[local] Hint Resolve file_keyed_setup file_keyed_exec_file file_keyed_query file_keyed_begin
  file_keyed_finalize file_keyed_close : keep.

(** An upgrade table without operations. *)
Lemma file_keyed_upgrade cur key v :
  preserves (file_keyed key v) (@upgradeDatabase T [mkUpgrade None None] cur).
Proof.
  assert (∀ fuel n, preserves (file_keyed key v)
    (@upgrade_loop T fuel [mkUpgrade None None] cur n)) as Hloop.
  { induction fuel as [|fuel IH]; intros n; simpl; [keep|].
    destruct (Z.ltb n cur); [|keep]. destruct (upgrade_at _ n) as [u|] eqn:Hu; [|keep].
    assert (run_upgrade u = ret true) as ->.
    { unfold upgrade_at in Hu. destruct (Z.ltb n 0); [done|].
      apply list_elem_of_lookup_2, list_elem_of_singleton in Hu. by subst. }
    simpl. unfold query_version. keep. }
  unfold upgradeDatabase, executeUpgradeStatements, query_version. keep.
Qed.

Lemma file_keyed_open fl setup create cur key v db :
  file db = Some fl → file_keyed key v db →
  wp (open setup create [mkUpgrade None None] cur) (λ _ db', file_keyed key v db') db.
Proof.
  intros Hf Hk. unfold open. apply wp_bind, wp_gets. simpl. rewrite Hf.
  destruct (m_open db); [done|]. apply wp_bind, system_call_spec. intros [|] fs1 _ _; [|done].
  apply wp_bind, system_call_spec. intros [|] fs2 _ _; [|done].
  apply wp_bind, wp_modify. simpl. rewrite Hf.
  match goal with |- wp ?m _ _ => assert (preserves (file_keyed key v) m) as Hp end.
  2: { apply Hp. intros fl' [[= <-]|?]; apply Hk; auto. }
  unfold configureDatabase, checkDatabase. keep; auto using file_keyed_upgrade with keep.
  all: try by apply file_keyed_exec_connection. by apply preserves_modify.
Qed.
End keyed.
#[export] Hint Resolve keyed_prepare keyed_select keyed_execute keyed_begin keyed_commit
  keyed_rollback : keep.

(** * A good environment stays good: the list of faults only shrinks. *)
Section quiet.
  Context {T : Type} `{!Inhabited T}.
  Implicit Types (db : Database T).

Definition quiet db : Prop := Forall (λ f, f = None) (faults db).

Lemma quiet_next_fault : preserves quiet (@next_fault T).
Proof.
  intros db H. unfold wp, next_fault, quiet in *. destruct (faults db) eqn:Hf; simpl; [by rewrite Hf|].
  by inversion H.
Qed.

Lemma quiet_modify f : (∀ db, faults (f db) = faults db) → preserves quiet (modify f).
Proof. intros Hf. apply preserves_modify. intros db. unfold quiet. by rewrite Hf. Qed.

Lemma faults_restore db : faults (restore_snapshot db) = faults db.
Proof. unfold restore_snapshot. by destruct (snapshot db). Qed.

Lemma faults_apply_fault e db : faults (apply_fault e db) = faults db.
Proof. unfold apply_fault. destruct (fault_kind e); [done|apply faults_restore]. Qed.
#[local] Hint Resolve quiet_next_fault : keep.
#[local] Hint Extern 2 (preserves quiet (modify _)) =>
  apply quiet_modify; first [done|apply faults_restore|apply faults_apply_fault] : keep.

Lemma quiet_sql_exec {R} (run : dbfile T → option (dbfile T * R)) : preserves quiet (sql_exec run).
Proof. unfold sql_exec. keep. Qed.
#[local] Hint Resolve quiet_sql_exec : keep.

Lemma quiet_exec_file run : preserves quiet (@exec_file T run).
Proof. unfold exec_file. keep. Qed.

Lemma quiet_exec_connection f :
  (∀ db, faults (f db) = faults db) → preserves quiet (@exec_connection T f).
Proof. intros Hf. unfold exec_connection. keep. Qed.
#[local] Hint Resolve quiet_exec_file : keep.
#[local] Hint Extern 2 (preserves quiet (exec_connection _)) =>
  apply quiet_exec_connection; done : keep.

Lemma quiet_execute_pragma q f :
  (∀ db, faults (f db) = faults db) → preserves quiet (@execute_pragma T q f).
Proof. intros Hf. unfold execute_pragma. keep. Qed.
#[local] Hint Extern 2 (preserves quiet (execute_pragma _ _)) =>
  apply quiet_execute_pragma; done : keep.

Lemma quiet_run_setup l : preserves quiet (@run_setup T l).
Proof. induction l as [|[] l IH]; simpl; keep. Qed.

Lemma quiet_run_creation l : preserves quiet (@run_creation T l).
Proof. induction l as [|s l IH]; simpl; keep. Qed.

Lemma quiet_run_statements l : preserves quiet (@run_statements T l).
Proof. induction l as [|s l IH]; simpl; keep. Qed.
#[local] Hint Resolve quiet_run_setup quiet_run_creation quiet_run_statements : keep.

Lemma quiet_upgrade_loop fuel ups cur v : preserves quiet (@upgrade_loop T fuel ups cur v).
Proof.
  revert v. induction fuel as [|n IH]; intros v; simpl; [keep|].
  unfold run_upgrade, query_version. keep.
Qed.
#[local] Hint Resolve quiet_upgrade_loop : keep.

Lemma quiet_close : preserves quiet (@close T).
Proof. unfold close. apply quiet_modify. intros db. apply (faults_restore (set_prepared [] db)). Qed.
#[local] Hint Resolve quiet_close : keep.

Lemma quiet_open setup create ups cur : preserves quiet (@open T _ setup create ups cur).
Proof.
  unfold open, system_call, prepareDatabase, configureDatabase, executeCreationStatements,
    checkDatabase, upgradeDatabase, executeUpgradeStatements, query_version, finalizeTransaction,
    sql_begin, sql_commit, sql_rollback. keep.
Qed.
End quiet.
#[export] Hint Resolve quiet_close quiet_open : keep.
