(* ===== verification/MetadataDb.v ===== *)
(** The metadata database of a storage plugin
    (daemon/SecretsImpl/metadatadb.cpp, metadatadb_p.h): who owns each
    collection and each secret and how it is locked.  One encrypted database
    per plugin, with the tables Collections and Secrets. *)
From S2P Require Import Prelude Result Sqlite.

(** [CollectionMetadata] *)
Record CollectionMetadata := mkCollectionMetadata {
  cm_collectionName : string;
  cm_ownerApplicationId : string;
  cm_usesDeviceLockKey : bool;
  cm_encryptionPluginName : string;
  cm_authenticationPluginName : string;
  cm_unlockSemantic : Z;
  cm_accessControlMode : AccessControlMode;
}.

(** [SecretMetadata] *)
Record SecretMetadata := mkSecretMetadata {
  sm_collectionName : string;
  sm_secretName : string;
  sm_ownerApplicationId : string;
  sm_usesDeviceLockKey : bool;
  sm_encryptionPluginName : string;
  sm_authenticationPluginName : string;
  sm_unlockSemantic : Z;
  sm_accessControlMode : AccessControlMode;
  sm_secretType : string;
  sm_cryptoPluginName : string;
}.

(** A row of the table Collections, its name apart; UsesDeviceLockKey is an
    INTEGER column. *)
Record CollectionRow := mkCollectionRow {
  cr_applicationId : string;
  cr_usesDeviceLockKey : Z;
  cr_encryptionPluginName : string;
  cr_authenticationPluginName : string;
  cr_unlockSemantic : Z;
  cr_accessControlMode : Z;
}.

(** A row of the table Secrets, its two names apart. *)
Record SecretRow := mkSecretRow {
  sr_applicationId : string;
  sr_usesDeviceLockKey : Z;
  sr_encryptionPluginName : string;
  sr_authenticationPluginName : string;
  sr_unlockSemantic : Z;
  sr_accessControlMode : Z;
  sr_type : string;
  sr_cryptoPluginName : string;
}.

(** The two tables, by their UNIQUE columns. *)
Record MetaTables := mkMetaTables {
  collections : gmap string CollectionRow;
  secrets : gmap (string * string) SecretRow;
}.

#[global] Instance MetaTables_inhabited : Inhabited MetaTables := populate (mkMetaTables ∅ ∅).

(** FOREIGN KEY (CollectionName) REFERENCES Collections: an invariant. *)
Definition foreign_key (t : MetaTables) : Prop :=
  ∀ c s, is_Some (secrets t !! (c, s)) → is_Some (collections t !! c).

(** * The statements *)

(** The values bound to the INSERT INTO Collections query. *)
Definition collection_values (md : CollectionMetadata) : CollectionRow :=
  mkCollectionRow (cm_ownerApplicationId md) (if cm_usesDeviceLockKey md then 1 else 0)
    (cm_encryptionPluginName md) (cm_authenticationPluginName md)
    (cm_unlockSemantic md) (cm_accessControlMode md).

(** The values bound to the INSERT INTO Secrets query. *)
Definition secret_values (md : SecretMetadata) : SecretRow :=
  mkSecretRow (sm_ownerApplicationId md) (if sm_usesDeviceLockKey md then 1 else 0)
    (sm_encryptionPluginName md) (sm_authenticationPluginName md)
    (sm_unlockSemantic md) (sm_accessControlMode md) (sm_secretType md) (sm_cryptoPluginName md).

(** INSERT INTO Collections; CONSTRAINT collectionNameUnique. *)
Definition sql_insert_collection (md : CollectionMetadata) (t : MetaTables) : option (MetaTables * unit) :=
  match collections t !! cm_collectionName md with
  | Some _ => None
  | None => Some (mkMetaTables (<[cm_collectionName md := collection_values md]> (collections t))
                               (secrets t), tt)
  end.

(** DELETE FROM Collections WHERE CollectionName = ?; ON DELETE CASCADE. *)
Definition sql_delete_collection (c : string) (t : MetaTables) : option (MetaTables * unit) :=
  Some (mkMetaTables (delete c (collections t))
                     (filter (λ kv, kv.1.1 ≠ c) (secrets t)), tt).

(** INSERT INTO Secrets; FOREIGN KEY and collectionSecretNameUnique. *)
Definition sql_insert_secret (md : SecretMetadata) (t : MetaTables) : option (MetaTables * unit) :=
  let k := (sm_collectionName md, sm_secretName md) in
  match collections t !! sm_collectionName md, secrets t !! k with
  | None, _ => None
  | _, Some _ => None
  | Some _, None => Some (mkMetaTables (collections t) (<[k := secret_values md]> (secrets t)), tt)
  end.

(** UPDATE Secrets SET ... WHERE CollectionName = ? AND SecretName = ? *)
Definition sql_update_secret (md : SecretMetadata) (t : MetaTables) : option (MetaTables * unit) :=
  Some (mkMetaTables (collections t)
          (alter (λ _, secret_values md) (sm_collectionName md, sm_secretName md) (secrets t)), tt).

(** DELETE FROM Secrets WHERE CollectionName = ? AND SecretName = ? *)
Definition sql_delete_secret (c s : string) (t : MetaTables) : option (MetaTables * unit) :=
  Some (mkMetaTables (collections t) (delete (c, s) (secrets t)), tt).

(** SELECT CollectionName FROM Collections *)
Definition sql_collection_names (t : MetaTables) : list string := (map_to_list (collections t)).*1.

(** The rows of Secrets of one collection, with their names. *)
Definition sql_secrets_of (c : string) (t : MetaTables) : list (string * SecretRow) :=
  (λ kv, (kv.1.2, kv.2)) <$> filter (λ kv, kv.1.1 = c) (map_to_list (secrets t)).

(** SELECT SecretName FROM Secrets WHERE CollectionName = ? *)
Definition sql_secret_names (c : string) (t : MetaTables) : list string := (sql_secrets_of c t).*1.

(** SELECT SecretName FROM Secrets WHERE CollectionName = ? AND Type = 'CryptoKey' *)
Definition sql_key_names (c : string) (t : MetaTables) : list string :=
  (filter (λ kv, sr_type kv.2 = "CryptoKey") (sql_secrets_of c t)).*1.

(** * [MetadataDatabase] *)

(** The members of [MetadataDatabase] that its constructor fixes. *)
Record MetadataConfig := mkMetadataConfig {
  m_defaultEncryptionPluginName : string;
  m_defaultAuthenticationPluginName : string;
  m_storagePluginName : string;
  m_pluginIsEncryptedStorage : bool;
}.

Abbreviation MetaDb := (Database MetaTables).

(** A failed query, with the text the engine gave. *)
Definition query_error (what text : string) : Result :=
  result_error DatabaseQueryError (what +:+ ": " +:+ text).

(** The body the INSERT, UPDATE and DELETE operations share: prepare, execute,
    and report what failed. *)
Definition db_update (statement what : string) (run : MetaTables → option (MetaTables * unit))
  : M MetaDb Result :=
  let* '(q, errorText) := prepare statement in
  if negb (isEmpty errorText) then
    ret (query_error ("Unable to prepare " +:+ what +:+ " query") errorText) else
  let* '(rows, errorText) := execute q run in
  match rows with
  | None => ret (query_error ("Unable to execute " +:+ what +:+ " query") errorText)
  | Some _ => ret (result_of_code Succeeded)
  end.

(** The body the SELECT operations share. *)
Definition db_select {R} (statement what : string) (rows : MetaTables → R)
  : M MetaDb (Result * option R) :=
  let* '(q, errorText) := prepare statement in
  if negb (isEmpty errorText) then
    ret (query_error ("Unable to prepare " +:+ what +:+ " query") errorText, None) else
  let* '(r, errorText) := select q rows in
  match r with
  | None => ret (query_error ("Unable to execute " +:+ what +:+ " query") errorText, None)
  | Some _ => ret (result_of_code Succeeded, r)
  end.

(** [insertCollectionMetadata] *)
Definition insertCollectionMetadata (metadata : CollectionMetadata) : M MetaDb Result :=
  db_update "INSERT INTO Collections (CollectionName,ApplicationId,UsesDeviceLockKey,EncryptionPluginName,AuthenticationPluginName,UnlockSemantic,AccessControlMode) VALUES (?,?,?,?,?,?,?);"
    "insert collection" (sql_insert_collection metadata).

(** [collectionNames] *)
Definition keep_name (removeStandalone : bool) (cname : string) : bool :=
  negb (isEmpty cname) && (negb removeStandalone || negb (eq_ci cname "standalone")).

Definition collectionNames (removeStandalone : bool) : M MetaDb (Result * list string) :=
  let* '(result, rows) := db_select "SELECT CollectionName FROM Collections;"
    "select collection names" sql_collection_names in
  ret (result, filter (keep_name removeStandalone) (default [] rows)).

(** [collectionAlreadyExists]; [exists0] is what the out-parameter holds. *)
Definition collectionAlreadyExists (collectionName : string) (exists0 : bool)
  : M MetaDb (Result * bool) :=
  let* '(result, rows) := db_select "SELECT Count(*) FROM Collections WHERE CollectionName = ?;"
    "select collections" (λ t, if collections t !! collectionName is Some _ then 1 else 0)%Z in
  ret (result, match rows with None => exists0 | Some n => Z.ltb 0 n end).

(** [collectionMetadata]: [md0] and [exists0] are what the out-parameters hold
    at the call; a row sets six fields of the metadata, not the name. *)
Definition read_collection (md0 : CollectionMetadata) (r : CollectionRow) : CollectionMetadata :=
  mkCollectionMetadata (cm_collectionName md0) (cr_applicationId r)
    (Z.ltb 0 (cr_usesDeviceLockKey r)) (cr_encryptionPluginName r)
    (cr_authenticationPluginName r) (cr_unlockSemantic r) (cr_accessControlMode r).

Definition collectionMetadata (collectionName : string) (md0 : CollectionMetadata) (exists0 : bool)
  : M MetaDb (Result * (CollectionMetadata * bool)) :=
  let* '(result, rows) := db_select
    "SELECT ApplicationId, UsesDeviceLockKey, EncryptionPluginName, AuthenticationPluginName, UnlockSemantic, AccessControlMode FROM Collections WHERE CollectionName = ?;"
    "select collection" (λ t, collections t !! collectionName) in
  ret (result, match rows with
               | None => (md0, exists0)
               | Some None => (md0, false)
               | Some (Some r) => (read_collection md0 r, true)
               end).

(** [deleteCollectionMetadata] *)
Definition deleteCollectionMetadata (collectionName : string) : M MetaDb Result :=
  db_update "DELETE FROM Collections WHERE CollectionName = ?;"
    "delete collection" (sql_delete_collection collectionName).

(** [secretAlreadyExists] *)
Definition secretAlreadyExists (collectionName secretName : string) (exists0 : bool)
  : M MetaDb (Result * bool) :=
  let* '(result, rows) := db_select
    "SELECT Count(*) FROM Secrets WHERE CollectionName = ? AND SecretName = ?;" "select secrets"
    (λ t, if secrets t !! (collectionName, secretName) is Some _ then 1 else 0)%Z in
  ret (result, match rows with None => exists0 | Some n => Z.ltb 0 n end).

(** [insertSecretMetadata] *)
Definition insertSecretMetadata (metadata : SecretMetadata) : M MetaDb Result :=
  db_update "INSERT INTO Secrets (CollectionName,SecretName,ApplicationId,UsesDeviceLockKey,EncryptionPluginName,AuthenticationPluginName,UnlockSemantic,AccessControlMode,Type,CryptoPluginName) VALUES (?,?,?,?,?,?,?,?,?,?);"
    "insert secret" (sql_insert_secret metadata).

(** [updateSecretMetadata] *)
Definition updateSecretMetadata (metadata : SecretMetadata) : M MetaDb Result :=
  db_update "UPDATE Secrets SET ApplicationId = ?, UsesDeviceLockKey = ?, EncryptionPluginName = ?, AuthenticationPluginName = ?, UnlockSemantic = ?, AccessControlMode = ?, Type = ?, CryptoPluginName = ? WHERE CollectionName = ? AND SecretName = ?;"
    "update secret" (sql_update_secret metadata).

(** [deleteSecretMetadata] *)
Definition deleteSecretMetadata (collectionName secretName : string) : M MetaDb Result :=
  db_update "DELETE FROM Secrets WHERE CollectionName = ? AND SecretName = ?;"
    "delete secret" (sql_delete_secret collectionName secretName).

(** [secretMetadata]: like [collectionMetadata]; neither the names, nor the
    type, nor the crypto plugin are read back. *)
Definition read_secret (md0 : SecretMetadata) (r : SecretRow) : SecretMetadata :=
  mkSecretMetadata (sm_collectionName md0) (sm_secretName md0) (sr_applicationId r)
    (Z.ltb 0 (sr_usesDeviceLockKey r)) (sr_encryptionPluginName r)
    (sr_authenticationPluginName r) (sr_unlockSemantic r) (sr_accessControlMode r)
    (sm_secretType md0) (sm_cryptoPluginName md0).

Definition secretMetadata (collectionName secretName : string) (md0 : SecretMetadata)
  (exists0 : bool) : M MetaDb (Result * (SecretMetadata * bool)) :=
  let* '(result, rows) := db_select
    "SELECT ApplicationId, UsesDeviceLockKey, EncryptionPluginName, AuthenticationPluginName, UnlockSemantic, AccessControlMode FROM Secrets WHERE CollectionName = ? AND SecretName = ?;"
    "select secrets" (λ t, secrets t !! (collectionName, secretName)) in
  ret (result, match rows with
               | None => (md0, exists0)
               | Some None => (md0, false)
               | Some (Some r) => (read_secret md0 r, true)
               end).

(** [secretNames] *)
Definition secretNames (collectionName : string) : M MetaDb (Result * list string) :=
  let* '(result, rows) := db_select "SELECT SecretName FROM Secrets WHERE CollectionName = ?;"
    "select secret names" (sql_secret_names collectionName) in
  ret (result, default [] rows).

(** [keyNames] *)
Definition keyNames (collectionName : string) : M MetaDb (Result * list string) :=
  let* '(result, rows) := db_select
    "SELECT SecretName FROM Secrets WHERE CollectionName = ? AND Type = 'CryptoKey';"
    "select key names" (sql_key_names collectionName) in
  ret (result, default [] rows).

(** [createStatements], [upgradeVersions], [currentSchemaVersion] *)
Definition createStatements : list string := ["CREATE TABLE Collections"; "CREATE TABLE Secrets"].
Definition upgradeVersions : list (UpgradeOperation MetaTables) := [mkUpgrade None None].
Definition currentSchemaVersion : Z := 1.

(** The setup statements of [openDatabase]. *)
Definition setupStatements (hexKey : string) : list setup_statement :=
  [ PragmaKey hexKey;
    PragmaConnection "PRAGMA foreign_keys = ON;";
    PragmaConnection "PRAGMA encoding = UTF-16;";
    PragmaConnection "PRAGMA temp_store = MEMORY;";
    PragmaFile "PRAGMA journal_mode = WAL;";
    PragmaConnection "PRAGMA synchronous = FULL;" ].

(** The metadata of the notional standalone collection. *)
Definition standaloneMetadata : CollectionMetadata :=
  mkCollectionMetadata "standalone" "standalone" false "standalone" "standalone" 0 NoAccessControlMode.

(** [openDatabase] *)
Definition openDatabase (hexKey : string) : M MetaDb bool :=
  let* success := open (setupStatements hexKey) createStatements upgradeVersions
                       currentSchemaVersion in
  if negb success then ret false else
  let* '(_, cnames) := collectionNames false in
  if contains cnames "standalone" then ret true else
  let* result := insertCollectionMetadata standaloneMetadata in
  ret (ok result).

(** [isLocked]: [locked0] is what the out-parameter holds. *)
Definition isLocked (locked0 : bool) : M MetaDb (Result * bool) :=
  let* opened := gets isOpen in
  if negb opened then ret (result_of_code Succeeded, true) else
  let* '(lq, errorText) := prepare "SELECT Count(*) FROM sqlite_master;" in
  if negb (isEmpty errorText) then
    ret (query_error "Unable to prepare is locked query" errorText, locked0) else
  let* '(rows, errorText) := select lq (λ _, tt) in
  match rows with
  | None => ret (result_of_code Succeeded, true)
  | Some _ => ret (result_of_code Succeeded, false)
  end.

(** [lock] *)
Definition lock : M MetaDb Result := close ;;; ret (result_of_code Succeeded).

(** [unlock]: the key is 64 hexadecimal digits. *)
Definition unlock (hexKey : string) : M MetaDb Result :=
  if negb (bool_decide (String.length hexKey = 64%nat)) then
    ret (result_error IncorrectAuthenticationCodeError
           "The bookkeeping database key is not a 256 bit key") else
  let* opened := gets isOpen in
  if negb opened then
    let* success := openDatabase hexKey in
    ret (if success then result_of_code Succeeded
         else result_error DatabaseError
                "Unable to initialize the bookkeeping database with the given key")
  else
    let* '(kq, errorText) := prepare ("PRAGMA key " +:+ hexKey) in
    if negb (isEmpty errorText) then
      ret (query_error "Unable to prepare setup key query" errorText) else
    let* begun := beginTransaction in
    if negb begun then
      ret (result_error DatabaseTransactionError "Unable to begin setup key transaction") else
    let* '(executed, errorText) := execute_pragma kq (set_conn_key hexKey) in
    if negb executed then
      rollbackTransaction ;;;
      ret (query_error "Unable to execute setup key query" errorText)
    else
      let* committed := commitTransaction in
      if negb committed then
        rollbackTransaction ;;;
        ret (result_error DatabaseTransactionError "Unable to commit setup key transaction")
      else ret (result_of_code Succeeded).

(** [reencrypt] *)
Definition reencrypt (oldHexKey newHexKey : string) : M MetaDb Result :=
  let* retn := unlock oldHexKey in
  if negb (ok retn) then ret retn else
  let* '(retn, locked) := isLocked false in
  if negb (ok retn) then ret retn else
  if (locked : bool) then
    ret (result_error CollectionIsLockedError "The old bookkeeping key was not correct") else
  if negb (bool_decide (String.length newHexKey = 64%nat)) then
    ret (result_error IncorrectAuthenticationCodeError
           "The new bookkeeping key is not a 256 bit key") else
  let* '(kq, errorText) := prepare ("PRAGMA rekey " +:+ newHexKey) in
  if negb (isEmpty errorText) then
    ret (query_error "Unable to prepare setup rekey query" errorText) else
  let* begun := beginTransaction in
  if negb begun then
    ret (result_error DatabaseTransactionError "Unable to begin setup rekey transaction") else
  let* '(executed, errorText) := execute_rekey kq newHexKey in
  if negb executed then
    rollbackTransaction ;;;
    ret (query_error "Unable to execute setup rekey query" errorText)
  else
    let* committed := commitTransaction in
    if negb committed then
      rollbackTransaction ;;;
      ret (result_error DatabaseTransactionError "Unable to commit setup rekey transaction")
    else ret (result_of_code Succeeded).

(** * Synchronizing the metadata with the plugin *)
Section initialize.
  Context (cfg : MetadataConfig).

(** The encryption plugin assumed for imported data. *)
Definition importedEncryptionPlugin : string :=
  if m_pluginIsEncryptedStorage cfg then m_storagePluginName cfg
  else m_defaultEncryptionPluginName cfg.

Definition importedCollection (cname : string) : CollectionMetadata :=
  mkCollectionMetadata cname "imported" false importedEncryptionPlugin
    (m_defaultAuthenticationPluginName cfg) CustomLockKeepUnlocked NoAccessControlMode.

Definition importedSecret (cname sname : string) : SecretMetadata :=
  mkSecretMetadata cname sname "imported" false importedEncryptionPlugin
    (m_defaultAuthenticationPluginName cfg) CustomLockKeepUnlocked NoAccessControlMode "" "".

(** Run one modification and remember whether all of them succeeded. *)
Definition also (succeeded : bool) (m : M MetaDb Result) : M MetaDb bool :=
  let* r := m in ret (succeeded && ok r).

(** [initializeCollectionsFromPluginData] *)
Definition initializeCollectionsFromPluginData (existingCollectionNames : list string)
  : M MetaDb bool :=
  let* '(result, cnames) := collectionNames true in
  if negb (ok result) then ret false else
  let* succeeded :=
    foldM (λ succeeded cname,
             if contains existingCollectionNames cname then ret succeeded
             else also succeeded (deleteCollectionMetadata cname)) cnames true in
  foldM (λ succeeded cname,
           if contains cnames cname then ret succeeded
           else also succeeded (insertCollectionMetadata (importedCollection cname)))
    existingCollectionNames succeeded.

(** [metadataCNameToSNames]; [None] when a query failed. *)
Definition metadataCNameToSNames (cnames : list string) : M MetaDb (option (gmap string (list string))) :=
  foldM (λ acc cname,
           match acc with
           | None => ret None
           | Some m =>
               let* '(result, snames) := secretNames cname in
               ret (if ok result then Some (<[cname := snames]> m) else None)
           end) cnames (Some ∅).

(** [pluginCNameToSNames] *)
Definition pluginCNameToSNames (identifiers : list Identifier) : gmap string (list string) :=
  foldl (λ m ident,
           <[ident_collectionName ident :=
               default [] (m !! ident_collectionName ident) ++ [ident_name ident]]> m)
    ∅ identifiers.

(** [!m.contains(cname) || !m[cname].contains(sname)] *)
Definition missing (m : gmap string (list string)) (cname sname : string) : bool :=
  match m !! cname with None => true | Some snames => negb (contains snames sname) end.

(** [initializeSecretsFromPluginData] *)
Definition initializeSecretsFromPluginData (identifiers : list Identifier)
  (lockedCollectionNames : list string) : M MetaDb bool :=
  let* '(result, cnames) := collectionNames true in
  if negb (ok result) then ret false else
  let* md := metadataCNameToSNames cnames in
  match md with
  | None => ret false
  | Some metadata =>
      let plugin := pluginCNameToSNames identifiers in
      let* succeeded :=
        foldM (λ succeeded cname,
          if contains lockedCollectionNames cname then ret succeeded else
          foldM (λ succeeded sname,
                   if missing plugin cname sname
                   then also succeeded (deleteSecretMetadata cname sname)
                   else ret succeeded) (default [] (metadata !! cname)) succeeded)
          (qmap_keys metadata) true in
      foldM (λ succeeded cname,
        foldM (λ succeeded sname,
                 if missing metadata cname sname
                 then also succeeded (insertSecretMetadata (importedSecret cname sname))
                 else ret succeeded) (default [] (plugin !! cname)) succeeded)
        (qmap_keys plugin) succeeded
  end.
End initialize.


(** * The shape of every operation *)

Lemma query_error_not_ok what text : ok (query_error what text) = false.
Proof. by apply ok_error. Qed.

(** A modification inside a transaction: it does what SQL says, or fails with a
    query error and leaves an aborted transaction; in a good environment it
    fails only on a constraint violation. *)
Lemma db_update_spec st what run t0 t (db : MetaDb) :
  live t0 t db →
  wp (db_update st what run) (λ r db',
    (if ok r then ∃ t', run t = Some (t', tt) ∧ live t0 t' db'
     else aborted t0 db' ∧ errorCode r = DatabaseQueryError)
    ∧ (good db → good db' ∧ (ok r = false → run t = None ∧ live t0 t db'))) db.
Proof.
  intros Hl. unfold db_update. apply wp_bind. eapply wp_mono; [apply prepare_spec|].
  intros [q txt] db1 [Hsame Hg1]. pose proof (same_live _ _ _ _ Hl Hsame) as Hl1.
  unfold isEmpty. case_bool_decide as Htxt; simpl.
  2: { apply wp_ret. rewrite query_error_not_ok. split; [by eauto using live_aborted|].
       intros Hg. by destruct (Hg1 Hg) as (_&_&?). }
  apply wp_bind. eapply wp_mono; [by eapply execute_spec|].
  intros [[[]|] txt'] db2 [Hr Hg2]; apply wp_ret.
  - rewrite ok_succeeded. split; [done|]. intros Hg. by destruct (Hg1 Hg) as (?&_), Hg2.
  - rewrite query_error_not_ok. split; [done|]. intros Hg. destruct (Hg1 Hg) as (Hg1'&->&_).
    destruct (Hg2 Hg1') as [? Hn]. split; [done|]. auto.
Qed.

(** A query outside a transaction. *)
Lemma db_select_idle_spec {R} st what (rows : MetaTables → R) t (db : MetaDb) :
  idle t db →
  wp (db_select st what rows) (λ '(r, x) db',
    idle t db' ∧ (if ok r then x = Some (rows t) else x = None)
    ∧ (good db → good db' ∧ ok r = true)) db.
Proof.
  intros Hi. unfold db_select. apply wp_bind. eapply wp_mono; [apply prepare_spec|].
  intros [q txt] db1 [Hsame Hg1]. pose proof (same_idle _ _ _ Hi Hsame) as Hi1.
  unfold isEmpty. case_bool_decide as Htxt; simpl.
  2: { apply wp_ret. rewrite query_error_not_ok. split_and!; [done..|].
       intros Hg. by destruct (Hg1 Hg) as (_&_&?). }
  apply wp_bind. eapply wp_mono; [by eapply select_idle_spec|].
  intros [[x|] txt'] db2 (Hi2&Hr&Hg2); apply wp_ret.
  - rewrite ok_succeeded. split_and!; [done|by destruct Hr|].
    intros Hg. by destruct (Hg1 Hg) as (?&_), Hg2.
  - rewrite query_error_not_ok. split_and!; [done..|]. intros Hg.
    destruct (Hg1 Hg) as (?&->&_), Hg2 as [? Hx]; [done|]. by specialize (Hx eq_refl).
Qed.

(** A query inside a transaction. *)
Lemma db_select_live_spec {R} st what (rows : MetaTables → R) t0 t (db : MetaDb) :
  live t0 t db →
  wp (db_select st what rows) (λ '(r, x) db',
    (if ok r then x = Some (rows t) ∧ live t0 t db' else x = None ∧ aborted t0 db')
    ∧ (good db → good db' ∧ ok r = true)) db.
Proof.
  intros Hl. unfold db_select. apply wp_bind. eapply wp_mono; [apply prepare_spec|].
  intros [q txt] db1 [Hsame Hg1]. pose proof (same_live _ _ _ _ Hl Hsame) as Hl1.
  unfold isEmpty. case_bool_decide as Htxt; simpl.
  2: { apply wp_ret. rewrite query_error_not_ok. split; [by eauto using live_aborted|].
       intros Hg. by destruct (Hg1 Hg) as (_&_&?). }
  apply wp_bind. eapply wp_mono; [by eapply select_live_spec|].
  intros [[x|] txt'] db2 (Hr&Hg2); apply wp_ret.
  - rewrite ok_succeeded. destruct Hr as [-> ?]. split; [done|].
    intros Hg. by destruct (Hg1 Hg) as (?&_), Hg2.
  - rewrite query_error_not_ok. split; [done|]. intros Hg.
    destruct (Hg1 Hg) as (?&->&_), Hg2 as [? Hx]; [done|]. by destruct (Hx eq_refl).
Qed.

(** * What the statements do to the tables *)

Lemma sql_insert_collection_Some md t t' :
  sql_insert_collection md t = Some (t', tt) →
  collections t !! cm_collectionName md = None
  ∧ t' = mkMetaTables (<[cm_collectionName md := collection_values md]> (collections t)) (secrets t).
Proof. unfold sql_insert_collection. case_match; naive_solver. Qed.

Lemma sql_insert_secret_Some md t t' :
  sql_insert_secret md t = Some (t', tt) →
  is_Some (collections t !! sm_collectionName md)
  ∧ secrets t !! (sm_collectionName md, sm_secretName md) = None
  ∧ t' = mkMetaTables (collections t)
           (<[(sm_collectionName md, sm_secretName md) := secret_values md]> (secrets t)).
Proof. unfold sql_insert_secret. repeat case_match; naive_solver. Qed.

Lemma sql_insert_secret_None md t :
  is_Some (collections t !! sm_collectionName md) →
  secrets t !! (sm_collectionName md, sm_secretName md) = None →
  sql_insert_secret md t ≠ None.
Proof. unfold sql_insert_secret. intros [? ->] ->. done. Qed.

(** Every modification keeps the foreign key. *)
Lemma foreign_key_insert_collection md t t' :
  foreign_key t → sql_insert_collection md t = Some (t', tt) → foreign_key t'.
Proof.
  intros Hfk [_ ->]%sql_insert_collection_Some c s H. simpl in *.
  destruct (decide (c = cm_collectionName md)) as [->|]; [rewrite lookup_insert_eq; eauto|].
  rewrite lookup_insert_ne by done. by eapply Hfk.
Qed.

Lemma foreign_key_delete_collection c t t' :
  foreign_key t → sql_delete_collection c t = Some (t', tt) → foreign_key t'.
Proof.
  intros Hfk [= <-] c' s [r H]. simpl in *. apply map_lookup_filter_Some in H as [H Hne]; simpl in *.
  rewrite lookup_delete_ne by done. eapply Hfk; eauto.
Qed.

Lemma foreign_key_insert_secret md t t' :
  foreign_key t → sql_insert_secret md t = Some (t', tt) → foreign_key t'.
Proof.
  intros Hfk (Hc&_&->)%sql_insert_secret_Some c s H. simpl in *.
  destruct (decide ((sm_collectionName md, sm_secretName md) = (c, s))) as [[= <- <-]|]; [done|].
  rewrite lookup_insert_ne in H by done. by eapply Hfk.
Qed.

Lemma foreign_key_delete_secret c s t t' :
  foreign_key t → sql_delete_secret c s t = Some (t', tt) → foreign_key t'.
Proof.
  intros Hfk [= <-] c' s' H. simpl in *. destruct (decide ((c, s) = (c', s'))) as [[= <- <-]|].
  - rewrite lookup_delete_eq in H. by destruct H.
  - rewrite lookup_delete_ne in H by done. by eapply Hfk.
Qed.

Lemma foreign_key_update_secret md t t' :
  foreign_key t → sql_update_secret md t = Some (t', tt) → foreign_key t'.
Proof.
  intros Hfk [= <-] c s H. simpl in *. rewrite lookup_alter_is_Some in H. by eapply Hfk.
Qed.

(** Which names the SELECT queries return. *)
Lemma elem_of_sql_collection_names c t :
  c ∈ sql_collection_names t ↔ is_Some (collections t !! c).
Proof.
  unfold sql_collection_names. rewrite list_elem_of_fmap. split.
  - intros ([c' r]&->&H%elem_of_map_to_list). simpl. eauto.
  - intros [r H]. exists (c, r). split; [done|]. by apply elem_of_map_to_list.
Qed.

Lemma elem_of_sql_secret_names c s t :
  s ∈ sql_secret_names c t ↔ is_Some (secrets t !! (c, s)).
Proof.
  unfold sql_secret_names, sql_secrets_of. rewrite <-list_fmap_compose, list_elem_of_fmap. split.
  - intros ([[c' s'] r]&->&[Hc H%elem_of_map_to_list]%list_elem_of_filter). simpl in *. subst. eauto.
  - intros [r H]. exists ((c, s), r). split; [done|]. apply list_elem_of_filter.
    split; [done|]. by apply elem_of_map_to_list.
Qed.
