(* ===== verification/PluginApi.v ===== *)
(** The extension plugin interfaces of lib/Secrets/Plugins/extensionplugins.h,
    as classes of operations on the state of a plugin, and the contract the
    daemon's storage wrapper relies on, stated against an abstract store. *)
From S2P Require Import Prelude Result MetadataDb.

(** [QByteArray] *)
Abbreviation bytes := string.

(** [PluginBase]: the part every plugin has. *)
Class PluginBase (P : Type) := {
  pb_name : string;
  pb_supportsLocking : P → bool;
  pb_isLocked : P → bool;
  pb_lock : M P bool;
  pb_unlock : bytes → M P bool;
  pb_setLockCode : bytes → bytes → M P bool;
}.

(** [EncryptionPlugin]: encrypting and decrypting one secret; a stateless
    service as far as the storage plugins are concerned. *)
Record EncryptionPlugin := mkEncryptionPlugin {
  encryptSecret : bytes → bytes → Result * bytes;   (* plaintext, key *)
  decryptSecret : bytes → bytes → Result * bytes;   (* encrypted, key *)
}.

(** [StoragePlugin].  Out-parameters are returned; [None] is an out-parameter
    that was not written. *)
Class StoragePlugin (P : Type) `{PluginBase P} := {
  sp_collectionNames : M P (Result * list string);
  sp_createCollection : string → M P Result;
  sp_removeCollection : string → M P Result;
  sp_setSecret : string → string → bytes → FilterData → M P Result;
  sp_getSecret : string → string → M P (Result * option (bytes * FilterData));
  sp_secretNames : string → M P (Result * list string);
  sp_findSecrets : string → FilterData → FilterOperator → M P (Result * list string);
  sp_removeSecret : string → string → M P Result;
  sp_reencrypt : string → string → bytes → bytes → EncryptionPlugin → M P Result;
}.

(** [EncryptedStoragePlugin]. *)
Class EncryptedStoragePlugin (P : Type) `{PluginBase P} := {
  ep_collectionNames : M P (Result * list string);
  ep_createCollection : string → bytes → M P Result;
  ep_removeCollection : string → M P Result;
  ep_isCollectionLocked : string → bool → M P (Result * bool);
  ep_deriveKeyFromCode : bytes → bytes → M P (Result * option bytes);
  ep_setEncryptionKey : string → bytes → M P Result;
  ep_reencrypt : string → bytes → bytes → M P Result;
  ep_setSecret : string → string → bytes → FilterData → M P Result;
  ep_getSecret : string → string → M P (Result * option (bytes * FilterData));
  ep_secretNames : string → M P (Result * list string);
  ep_findSecrets : string → FilterData → FilterOperator → M P (Result * list Identifier);
  ep_removeSecret : string → string → M P Result;
  ep_setStandaloneSecret : string → bytes → FilterData → bytes → M P Result;
  ep_accessSecret : string → bytes → M P (Result * option (bytes * FilterData));
}.

(** * The contract of a storage plugin *)

(** What a storage plugin stores. *)
Record Store := mkStore {
  st_collections : gset string;
  st_secrets : gmap (string * string) (bytes * FilterData);
}.

Definition store_create (c : string) (st : Store) : Store :=
  mkStore ({[c]} ∪ st_collections st) (st_secrets st).

Definition store_remove (c : string) (st : Store) : Store :=
  mkStore (st_collections st ∖ {[c]}) (filter (λ kv, kv.1.1 ≠ c) (st_secrets st)).

Definition store_set (c s : string) (x : bytes) (fd : FilterData) (st : Store) : Store :=
  mkStore (st_collections st) (<[(c, s) := (x, fd)]> (st_secrets st)).

Definition store_delete (c s : string) (st : Store) : Store :=
  mkStore (st_collections st) (delete (c, s) (st_secrets st)).

(** The names the daemon manages: not empty, and not the standalone collection
    in any spelling. *)
Definition managed (c : string) : Prop := keep_name true c = true.

#[global] Instance managed_dec c : Decision (managed c).
Proof. unfold managed. apply _. Defined.

(** Where a secret may be stored: a collection of the plugin, or the notional
    standalone collection. *)
Definition has_collection (c : string) (st : Store) : Prop :=
  c ∈ st_collections st ∨ c = "standalone".

#[global] Instance has_collection_dec c st : Decision (has_collection c st).
Proof. unfold has_collection. apply _. Defined.

(** [ready p]: the plugin is unlocked and its storage works.  Every operation
    then does on the abstract store what its name says, and fails, changing
    nothing, exactly when it has to. *)
Class StoragePluginSpec (P : Type) `{StoragePlugin P} := {
  ready : P → Prop;
  store : P → Store;
  ready_unlocked p : ready p → pb_isLocked p = false;
  ready_managed p c : ready p → c ∈ st_collections (store p) → managed c;
  ready_secret p c s : ready p → is_Some (st_secrets (store p) !! (c, s)) → has_collection c (store p);
  collectionNames_law p : ready p →
    wp sp_collectionNames (λ '(r, names) p', ok r = true ∧ ready p' ∧ store p' = store p
      ∧ NoDup names ∧ ∀ c, c ∈ names ↔ c ∈ st_collections (store p)) p;
  secretNames_law p c : ready p →
    wp (sp_secretNames c) (λ '(r, names) p', ok r = true ∧ ready p' ∧ store p' = store p
      ∧ NoDup names ∧ ∀ s, s ∈ names ↔ is_Some (st_secrets (store p) !! (c, s))) p;
  createCollection_law p c : ready p →
    wp (sp_createCollection c) (λ r p', ready p' ∧
      if decide (managed c ∧ c ∉ st_collections (store p))
      then ok r = true ∧ store p' = store_create c (store p)
      else ok r = false ∧ store p' = store p) p;
  removeCollection_law p c : ready p →
    wp (sp_removeCollection c) (λ r p', ready p' ∧
      if decide (managed c) then ok r = true ∧ store p' = store_remove c (store p)
      else ok r = false ∧ store p' = store p) p;
  setSecret_law p c s x fd : ready p →
    wp (sp_setSecret c s x fd) (λ r p', ready p' ∧
      if decide (s ≠ "" ∧ has_collection c (store p))
      then ok r = true ∧ store p' = store_set c s x fd (store p)
      else ok r = false ∧ store p' = store p) p;
  removeSecret_law p c s : ready p →
    wp (sp_removeSecret c s) (λ r p', ready p' ∧
      if decide (s ≠ "" ∧ c ≠ "") then ok r = true ∧ store p' = store_delete c s (store p)
      else ok r = false ∧ store p' = store p) p;
  getSecret_law p c s : ready p →
    wp (sp_getSecret c s) (λ '(r, x) p', ready p' ∧ store p' = store p ∧
      if decide (s ≠ "") then
        (ok r = true ∧ x = st_secrets (store p) !! (c, s) ∧ is_Some x)
        ∨ (ok r = false ∧ x = None ∧ st_secrets (store p) !! (c, s) = None)
      else ok r = false ∧ x = None) p;
}.


(** * The contract of an encrypted storage plugin *)

(** A collection: the key it is encrypted with, whether it is unlocked, and its
    secrets. *)
Record VaultEntry := mkEntry {
  ve_key : string;
  ve_unlocked : bool;
  ve_secrets : gmap string (bytes * FilterData);
}.

Abbreviation Vault := (gmap string VaultEntry).

Definition entry_with_lock (b : bool) (e : VaultEntry) : VaultEntry :=
  mkEntry (ve_key e) b (ve_secrets e).

Definition entry_with_secrets (f : gmap string (bytes * FilterData) → gmap string (bytes * FilterData))
  (e : VaultEntry) : VaultEntry :=
  mkEntry (ve_key e) (ve_unlocked e) (f (ve_secrets e)).

(** The collection, provided it is unlocked. *)
Definition unlocked_entry (c : string) (V : Vault) : option VaultEntry :=
  e ← V !! c; if ve_unlocked e then Some e else None.

Definition vault_set (c s : string) (x : bytes) (fd : FilterData) : Vault → Vault :=
  alter (entry_with_secrets (<[s := (x, fd)]>)) c.

Definition vault_delete (c s : string) : Vault → Vault :=
  alter (entry_with_secrets (delete s)) c.

Section keys.
  (** How the plugin makes the key of a collection from the bytes it is given. *)
  Context (key_of : bytes → string).

Definition fits (k : bytes) (e : VaultEntry) : bool :=
  negb (isEmpty k) && bool_decide (key_of k = ve_key e).

(** Setting a key unlocks the collection if the key fits, and locks it
    otherwise; the empty key locks it. *)
Definition vault_key (c : string) (k : bytes) : Vault → Vault :=
  alter (λ e, entry_with_lock (fits k e) e) c.

Definition vault_key_ok (c : string) (k : bytes) (V : Vault) : bool :=
  isEmpty k || match V !! c with Some e => fits k e | None => false end.

Definition vault_create (c : string) (k : bytes) (V : Vault) : Vault :=
  <[c := mkEntry (key_of k) true ∅]> V.

Definition vault_rekey_ok (c : string) (k : bytes) (V : Vault) : bool :=
  match V !! c with Some e => fits k e | None => false end.

(** Re-encrypting sets the old key first. *)
Definition vault_rekey (c : string) (k k' : bytes) (V : Vault) : Vault :=
  alter (λ e, if fits k e then mkEntry (key_of k') true (ve_secrets e)
              else entry_with_lock false e) c V.
End keys.

(** [vready p]: the plugin is unlocked and its storage works.  Every operation
    then does on the abstract vault what its name says, and fails, changing
    nothing, exactly when it has to.  What the plugin keeps hidden ([listed])
    and which names it can store ([storable]) is its own business. *)
Class EncryptedStoragePluginSpec (P : Type) `{EncryptedStoragePlugin P} := {
  vready : P → Prop;
  vault : P → Vault;
  key_of : bytes → string;
  listed : string → Prop;
  storable : string → Prop;
  storable_dec c : Decision (storable c);
  listed_dec c : Decision (listed c);
  vready_unlocked p : vready p → pb_isLocked p = false;
  vcollectionNames_law p : vready p →
    wp ep_collectionNames (λ '(r, names) p', ok r = true ∧ vready p' ∧ vault p' = vault p
      ∧ NoDup names ∧ ∀ c, c ∈ names ↔ listed c ∧ is_Some (vault p !! c)) p;
  vcreateCollection_law p c k : vready p →
    wp (ep_createCollection c k) (λ r p', vready p' ∧
      if decide (storable c ∧ vault p !! c = None)
      then ok r = true ∧ vault p' = vault_create key_of c k (vault p)
      else ok r = false ∧ vault p' = vault p) p;
  vremoveCollection_law p c : vready p →
    wp (ep_removeCollection c) (λ r p', vready p' ∧ ok r = true ∧ vault p' = delete c (vault p)) p;
  visCollectionLocked_law p c b : vready p →
    wp (ep_isCollectionLocked c b) (λ '(r, locked) p', vready p' ∧ vault p' = vault p ∧
      match vault p !! c with
      | Some e => ok r = true ∧ locked = negb (ve_unlocked e)
      | None => ok r = false ∧ locked = b
      end) p;
  vsetEncryptionKey_law p c k : vready p →
    wp (ep_setEncryptionKey c k) (λ r p', vready p' ∧ vault p' = vault_key key_of c k (vault p)
      ∧ ok r = vault_key_ok key_of c k (vault p)) p;
  vreencrypt_law p c k k' : vready p →
    wp (ep_reencrypt c k k') (λ r p', vready p' ∧ vault p' = vault_rekey key_of c k k' (vault p)
      ∧ ok r = vault_rekey_ok key_of c k (vault p)) p;
  vsetSecret_law p c s x fd : vready p →
    wp (ep_setSecret c s x fd) (λ r p', vready p' ∧
      if decide (s ≠ "" ∧ c ≠ "" ∧ is_Some (unlocked_entry c (vault p)))
      then ok r = true ∧ vault p' = vault_set c s x fd (vault p)
      else ok r = false ∧ vault p' = vault p) p;
  vremoveSecret_law p c s : vready p →
    wp (ep_removeSecret c s) (λ r p', vready p' ∧
      if decide (s ≠ "" ∧ c ≠ "" ∧ is_Some (unlocked_entry c (vault p)))
      then ok r = true ∧ vault p' = vault_delete c s (vault p)
      else ok r = false ∧ vault p' = vault p) p;
  vgetSecret_law p c s : vready p →
    wp (ep_getSecret c s) (λ '(r, x) p', vready p' ∧ vault p' = vault p
      ∧ x = (if decide (s ≠ "" ∧ c ≠ "")
             then e ← unlocked_entry c (vault p); ve_secrets e !! s else None)
      ∧ ok r = bool_decide (is_Some x)) p;
  vsecretNames_law p c : vready p →
    wp (ep_secretNames c) (λ '(r, names) p', vready p' ∧ vault p' = vault p ∧
      match (if isEmpty c then None else unlocked_entry c (vault p)) with
      | Some e => ok r = true ∧ NoDup names ∧ ∀ s, s ∈ names ↔ is_Some (ve_secrets e !! s)
      | None => ok r = false ∧ names = []
      end) p;
}.
#[global] Existing Instance storable_dec.
#[global] Existing Instance listed_dec.
