(* ===== verification/CryptoManager.v ===== *)
(** Enumerations and parameters of the crypto API: lib/Crypto/cryptomanager.h,
    keyderivationparameters.cpp and keypairgenerationparameters.cpp. *)
From S2P Require Import Prelude Result PluginApi.

(** * Enumerations

    Unscoped C++ enumerations; the enumerators that the modelled code uses. *)

(** [CryptoManager::Algorithm] *)
Definition AlgorithmUnknown : Z := 0.
Definition AlgorithmCustom : Z := 1.
Definition FirstAsymmetricAlgorithm : Z := 10.
Definition AlgorithmRsa : Z := 10.
Definition AlgorithmDsa : Z := 20.
Definition AlgorithmDh : Z := 30.
Definition AlgorithmEc : Z := 40.
Definition LastAsymmetricAlgorithm : Z := 255.
Definition AlgorithmAes : Z := 260.

(** [CryptoManager::BlockMode] *)
Definition BlockModeUnknown : Z := 0.
Definition BlockModeEcb : Z := 2.
Definition BlockModeCbc : Z := 3.
Definition BlockModeCfb1 : Z := 5.
Definition BlockModeCfb8 : Z := 6.
Definition BlockModeCfb128 : Z := 7.
Definition BlockModeOfb : Z := 8.
Definition BlockModeCtr : Z := 9.
Definition BlockModeGcm : Z := 10.
Definition BlockModeXts : Z := 13.
Definition BlockModeCcm : Z := 16.

(** [CryptoManager::EncryptionPadding] and [SignaturePadding] *)
Definition EncryptionPaddingNone : Z := 2.
Definition EncryptionPaddingRsaOaep : Z := 4.
Definition EncryptionPaddingRsaPkcs1 : Z := 6.
Definition SignaturePaddingNone : Z := 2.

(** [CryptoManager::DigestFunction] *)
Definition DigestMd5 : Z := 5.
Definition DigestSha1 : Z := 10.
Definition DigestSha256 : Z := 21.
Definition DigestSha512 : Z := 23.

(** [CryptoManager::MessageAuthenticationCode], [KeyDerivationFunction] *)
Definition MacHmac : Z := 10.
Definition KdfUnknown : Z := 0.
Definition KdfPkcs5Pbkdf2 : Z := 10.

(** [CryptoManager::EllipticCurve] *)
Definition CurveUnknown : Z := 0.
Definition CurveSecp160k1 : Z := 50.
Definition CurveSecp160r1 : Z := 51.
Definition CurveSecp160r2 : Z := 52.
Definition CurveSecp192k1 : Z := 53.
Definition CurveSecp192r1 : Z := 54.
Definition CurveSecp224k1 : Z := 55.
Definition CurveSecp224r1 : Z := 56.
Definition CurveSecp256k1 : Z := 57.
Definition CurveSecp256r1 : Z := 58.
Definition CurveSecp384r1 : Z := 59.
Definition CurveSecp521r1 : Z := 60.
Definition CurveAX962c2pnb163v1 : Z := 150.
Definition CurveAX962c2pnb163v2 : Z := 151.
Definition CurveAX962c2pnb163v3 : Z := 152.
Definition CurveAX962c2pnb176v1 : Z := 153.
Definition CurveAX962c2tnb191v1 : Z := 154.
Definition CurveAX962c2tnb191v2 : Z := 155.
Definition CurveAX962c2tnb191v3 : Z := 156.
Definition CurveAX962c2pnb208w1 : Z := 157.
Definition CurveAX962c2tnb239v1 : Z := 158.
Definition CurveAX962c2tnb239v2 : Z := 159.
Definition CurveAX962c2tnb239v3 : Z := 160.
Definition CurveAX962c2pnb272w1 : Z := 161.
Definition CurveAX962c2pnb304w1 : Z := 162.
Definition CurveAX962c2tnb359v1 : Z := 163.
Definition CurveAX962c2pnb368w1 : Z := 164.
Definition CurveAX962c2tnb431r1 : Z := 165.

(** [CryptoManager::Operation] *)
Definition OperationUnknown : Z := 0.
Definition OperationSign : Z := 2.
Definition OperationVerify : Z := 4.
Definition OperationEncrypt : Z := 8.
Definition OperationDecrypt : Z := 16.

(** [CryptoManager::VerificationStatusType], flags. *)
Definition VerificationStatusUnknown : Z := 0.
Definition VerificationSucceeded : Z := 1.
Definition VerificationFailed : Z := 2.

(** * Parameters of key derivation *)

(** [KeyDerivationParameters], the fields that are read. *)
Record KeyDerivationParameters := mkKdf {
  kdf_function : Z;
  kdf_mac : Z;
  kdf_digest : Z;
  kdf_iterations : Z;
  kdf_inputData : bytes;
  kdf_salt : bytes;
  kdf_outputKeySize : Z;
}.

(** [KeyDerivationParameters::isValid] *)
Definition kdf_isValid (k : KeyDerivationParameters) : bool :=
  negb (bool_decide (kdf_function k = KdfUnknown))
  && (0 <? kdf_outputKeySize k)%Z && (kdf_outputKeySize k <=? 65536)%Z.

(** * Parameters of key pairs

    The subclasses keep their fields in one map; here the numbers and the byte
    arrays among them. *)
Record KeyPairParameters := mkKeyPairParameters {
  kp_keyPairType : Z;
  kp_customParameters : FilterData;
  kp_numbers : gmap string Z;
  kp_arrays : gmap string bytes;
}.

Definition KeyPairCustom : Z := AlgorithmCustom.
Definition KeyPairDh : Z := AlgorithmDh.
Definition KeyPairDsa : Z := AlgorithmDsa.
Definition KeyPairRsa : Z := AlgorithmRsa.
Definition KeyPairEc : Z := AlgorithmEc.

(** [m_subclassParameters.value(field)], read as a number or an array. *)
Definition kp_number (field : string) (p : KeyPairParameters) : Z := default 0%Z (kp_numbers p !! field).
Definition kp_array (field : string) (p : KeyPairParameters) : bytes := default "" (kp_arrays p !! field).

Definition ellipticCurve : KeyPairParameters → Z := kp_number "ellipticCurve".
Definition modulusLength : KeyPairParameters → Z := kp_number "modulusLength".
Definition numberPrimes : KeyPairParameters → Z := kp_number "numberPrimes".
Definition publicExponent : KeyPairParameters → Z := kp_number "publicExponent".

(** [isValid] of the subclasses *)
Definition ec_isValid (p : KeyPairParameters) : bool := negb (bool_decide (ellipticCurve p = CurveUnknown)).
Definition rsa_isValid (p : KeyPairParameters) : bool :=
  (0 <? modulusLength p)%Z && (2 <=? numberPrimes p)%Z && (3 <=? publicExponent p)%Z.
Definition dsa_isValid (p : KeyPairParameters) : bool :=
  negb (isEmpty (kp_array "modulus" p)) && negb (isEmpty (kp_array "primeFactor" p))
    && negb (isEmpty (kp_array "base" p))
  || (0 <? modulusLength p)%Z && (0 <? kp_number "primeFactorLength" p)%Z.
Definition dh_isValid (p : KeyPairParameters) : bool :=
  negb (isEmpty (kp_array "modulus" p)) && negb (isEmpty (kp_array "base" p))
  || (0 <? modulusLength p)%Z && (0 <? kp_number "privateExponentLength" p)%Z.

(** [KeyPairGenerationParameters::isValid] *)
Definition kp_isValid (p : KeyPairParameters) : bool :=
  if bool_decide (kp_keyPairType p = KeyPairCustom) && negb (bool_decide (kp_customParameters p = ∅))
  then true
  else if bool_decide (kp_keyPairType p = KeyPairEc) then ec_isValid p
  else if bool_decide (kp_keyPairType p = KeyPairRsa) then rsa_isValid p
  else if bool_decide (kp_keyPairType p = KeyPairDsa) then dsa_isValid p
  else if bool_decide (kp_keyPairType p = KeyPairDh) then dh_isValid p
  else false.
