(* ===== verification/MetadataSync.v ===== *)
(** Synchronizing the metadata database with the data of its plugin
    ([initializeCollectionsFromPluginData], [initializeSecretsFromPluginData] of
    metadatadb.cpp): in a good environment both succeed, and this file says
    exactly which rows they leave. *)
From S2P Require Import Prelude Result Sqlite MetadataDb PluginApi.

(** * Synchronizing with the plugin *)

(** In a good environment a modification SQL allows is done. *)
Lemma db_update_good st what run t0 t t' (db : MetaDb) :
  good db → live t0 t db → run t = Some (t', tt) →
  wp (db_update st what run) (λ r db', ok r = true ∧ good db' ∧ live t0 t' db') db.
Proof.
  intros Hg Hl Hrun. eapply wp_mono; [by eapply db_update_spec|]. intros r db' [Hr Hgood].
  destruct (Hgood Hg) as [? Hn]. destruct (ok r).
  - destruct Hr as (t''&?&?). split_and!; [done..|]. congruence.
  - destruct Hn as [? _]; [done|]. congruence.
Qed.

Lemma also_good b st what run t0 t t' (db : MetaDb) :
  good db → live t0 t db → run t = Some (t', tt) →
  wp (also b (db_update st what run)) (λ b' db', b' = b ∧ good db' ∧ live t0 t' db') db.
Proof.
  intros Hg Hl Hrun. unfold also. apply wp_bind. eapply wp_mono; [by eapply db_update_good|].
  intros r db' (->&?&?). apply wp_ret. by rewrite andb_true_r.
Qed.

Lemma collectionNames_metadata b t0 t (db : MetaDb) :
  good db → live t0 t db →
  wp (collectionNames b) (λ '(r, names) db', ok r = true
    ∧ names = filter (keep_name b) (sql_collection_names t) ∧ good db' ∧ live t0 t db') db.
Proof.
  intros Hg Hl. unfold collectionNames. apply wp_bind.
  eapply wp_mono; [by eapply db_select_live_spec|]. intros [r x] db' [Hr Hgood].
  destruct (Hgood Hg) as [? Hok]. rewrite Hok in Hr. destruct Hr as [-> ?]. by apply wp_ret.
Qed.

Lemma secretNames_metadata c t0 t (db : MetaDb) :
  good db → live t0 t db →
  wp (secretNames c) (λ '(r, names) db', ok r = true
    ∧ names = sql_secret_names c t ∧ good db' ∧ live t0 t db') db.
Proof.
  intros Hg Hl. unfold secretNames. apply wp_bind.
  eapply wp_mono; [by eapply db_select_live_spec|]. intros [r x] db' [Hr Hgood].
  destruct (Hgood Hg) as [? Hok]. rewrite Hok in Hr. destruct Hr as [-> ?]. by apply wp_ret.
Qed.

Lemma NoDup_managed_names b t : NoDup (filter (keep_name b) (sql_collection_names t)).
Proof. apply NoDup_filter, NoDup_fst_map_to_list. Qed.

Lemma elem_of_managed_names c t :
  c ∈ filter (keep_name true) (sql_collection_names t)
  ↔ managed c ∧ is_Some (collections t !! c).
Proof.
  rewrite list_elem_of_filter, elem_of_sql_collection_names. unfold managed. by rewrite Is_true_true.
Qed.

(** Deleting the collections [del], one after the other. *)
Definition drop_collections (del : list string) (t : MetaTables) : MetaTables :=
  mkMetaTables (filter (λ kv, kv.1 ∉ del) (collections t))
               (filter (λ kv, kv.1.1 ∉ del) (secrets t)).

Lemma drop_collections_nil t : drop_collections [] t = t.
Proof.
  destruct t as [cs ss]. unfold drop_collections; simpl.
  by rewrite !map_filter_id by (intros; apply not_elem_of_nil).
Qed.

Lemma drop_collections_snoc del c t :
  sql_delete_collection c (drop_collections del t) = Some (drop_collections (del ++ [c]) t, tt).
Proof.
  unfold sql_delete_collection, drop_collections; simpl. do 3 f_equal.
  - apply map_eq. intros c'. apply option_eq. intros r.
    rewrite lookup_delete_Some, !map_lookup_filter_Some, not_elem_of_app, not_elem_of_cons.
    simpl. set_solver.
  - apply map_eq. intros [c' s]. apply option_eq. intros r.
    rewrite !map_lookup_filter_Some, not_elem_of_app. simpl. set_solver.
Qed.

(** Importing the collections [add], one after the other. *)
Definition add_collections (cfg : MetadataConfig) (add : list string) (t : MetaTables) : MetaTables :=
  foldl (λ t c, mkMetaTables (<[c := collection_values (importedCollection cfg c)]> (collections t))
                             (secrets t)) t add.

Lemma lookup_add_collections cfg add t c :
  collections (add_collections cfg add t) !! c =
  if decide (c ∈ add) then Some (collection_values (importedCollection cfg c))
  else collections t !! c.
Proof.
  revert t. induction add as [|c' add IH]; intros t.
  { by rewrite decide_False by apply not_elem_of_nil. }
  unfold add_collections in *. simpl. rewrite IH; simpl. destruct (decide (c = c')) as [->|Hne].
  - rewrite lookup_insert_eq. repeat case_decide; done || set_solver.
  - rewrite lookup_insert_ne by done. repeat case_decide; done || set_solver.
Qed.

Lemma secrets_add_collections cfg add t : secrets (add_collections cfg add t) = secrets t.
Proof. revert t. induction add as [|c add IH]; intros t; simpl; [done|]. by rewrite IH. Qed.

(** [initializeCollectionsFromPluginData], in a good environment. *)
Section initialize_collections.
  Context (cfg : MetadataConfig).

(** The tables after the synchronization with the collections [names]. *)
Definition sync_collections (names : list string) (t : MetaTables) : MetaTables :=
  let cnames := filter (keep_name true) (sql_collection_names t) in
  add_collections cfg (filter (λ c, c ∉ cnames) names)
    (drop_collections (filter (λ c, c ∉ names) cnames) t).

Lemma delete_loop_good names l t0 t (db : MetaDb) :
  good db → live t0 t db →
  wp (foldM (λ succeeded cname,
             if contains names cname then ret succeeded
             else also succeeded (deleteCollectionMetadata cname)) l true)
     (λ b db', b = true ∧ good db'
        ∧ live t0 (drop_collections (filter (λ c, c ∉ names) l) t) db') db.
Proof.
  intros Hg Hl.
  pose (I := λ rest b db', b = true ∧ good db' ∧ ∃ pre, l = pre ++ rest
    ∧ live t0 (drop_collections (filter (λ c, c ∉ names) pre) t) db').
  eapply wp_mono; [apply (wp_foldM _ I)|].
  - split_and!; [done..|]. exists []. split; [done|]. by rewrite drop_collections_nil.
  - intros c rest b db1 (->&Hg1&pre&->&Hl1). unfold contains. case_bool_decide as Hc.
    + apply wp_ret. split_and!; [done..|]. exists (pre ++ [c]).
      split; [by rewrite <-app_assoc|]. rewrite filter_app, filter_cons_False by (by intros []).
      by rewrite app_nil_r.
    + eapply wp_mono; [eapply also_good; [done..|apply drop_collections_snoc]|].
      intros b db2 (->&?&?). split_and!; [done..|]. exists (pre ++ [c]).
      split; [by rewrite <-app_assoc|]. by rewrite filter_app, filter_cons_True by done.
  - intros b db' (->&?&pre&->&?). rewrite app_nil_r. done.
Qed.

Lemma insert_loop_good cnames names t0 t (db : MetaDb) :
  good db → live t0 t db → NoDup names →
  (∀ c, c ∈ names → c ∉ cnames → collections t !! c = None) →
  wp (foldM (λ succeeded cname,
           if contains cnames cname then ret succeeded
           else also succeeded (insertCollectionMetadata (importedCollection cfg cname))) names true)
     (λ b db', b = true ∧ good db'
        ∧ live t0 (add_collections cfg (filter (λ c, c ∉ cnames) names) t) db') db.
Proof.
  intros Hg Hl Hnd Hnew.
  pose (I := λ rest b db', b = true ∧ good db' ∧ ∃ pre, names = pre ++ rest
    ∧ live t0 (add_collections cfg (filter (λ c, c ∉ cnames) pre) t) db').
  eapply wp_mono; [apply (wp_foldM _ I)|].
  - split_and!; [done..|]. by exists [].
  - intros c rest b db1 (->&Hg1&pre&->&Hl1). unfold contains. case_bool_decide as Hc.
    + apply wp_ret. split_and!; [done..|]. exists (pre ++ [c]).
      split; [by rewrite <-app_assoc|]. rewrite filter_app, filter_cons_False by (by intros []).
      by rewrite app_nil_r.
    + eapply wp_mono; [eapply also_good; [done..|]|].
      * unfold sql_insert_collection. rewrite lookup_add_collections; simpl.
        rewrite decide_False.
        2: { intros [_ ?]%list_elem_of_filter. apply NoDup_app in Hnd as (_&Hnd&_). set_solver. }
        rewrite Hnew by set_solver. done.
      * intros b db2 (->&?&Hl2). split_and!; [done..|]. exists (pre ++ [c]).
        split; [by rewrite <-app_assoc|]. rewrite filter_app, filter_cons_True by done.
        unfold add_collections in *. by rewrite foldl_app.
  - intros b db' (->&?&pre&->&?). rewrite app_nil_r. done.
Qed.

Lemma initializeCollections_good names t0 t (db : MetaDb) :
  good db → live t0 t db → NoDup names → Forall managed names →
  wp (initializeCollectionsFromPluginData cfg names)
     (λ b db', b = true ∧ good db' ∧ live t0 (sync_collections names t) db') db.
Proof.
  intros Hg Hl Hnd Hm. unfold initializeCollectionsFromPluginData. apply wp_bind.
  eapply wp_mono; [by eapply collectionNames_metadata|]. intros [r cnames] db1 (->&->&Hg1&Hl1).
  simpl. apply wp_bind. eapply wp_mono; [by eapply delete_loop_good|].
  intros b db2 (->&Hg2&Hl2). eapply wp_mono; [eapply insert_loop_good|]; [done..| |done].
  intros c Hc Hn. rewrite elem_of_managed_names in Hn. simpl.
  apply map_lookup_filter_None. left. apply eq_None_not_Some. intros ?.
  apply Hn. split; [|done]. by eapply Forall_forall in Hm.
Qed.

(** Which rows the synchronization leaves: the plugin's collections, with the
    metadata they had if they had any, and everything that is not managed. *)
Lemma lookup_sync_collections names t c :
  Forall managed names →
  collections (sync_collections names t) !! c =
  if decide (managed c) then
    if decide (c ∈ names) then
      Some (default (collection_values (importedCollection cfg c)) (collections t !! c))
    else None
  else collections t !! c.
Proof.
  intros Hm. unfold sync_collections. rewrite lookup_add_collections; simpl.
  assert (c ∈ names → managed c) as Hmc by (rewrite Forall_forall in Hm; auto).
  assert (filter (λ kv : string * CollectionRow, kv.1 ∉
     filter (λ c, c ∉ names) (filter (keep_name true) (sql_collection_names t))) (collections t) !! c
     = if decide (managed c ∧ c ∉ names) then None else collections t !! c) as Hf.
  { destruct (collections t !! c) as [r|] eqn:Hr.
    - case_decide as Hd.
      + apply map_lookup_filter_None. right. intros r' Hr'. simpl. intros Hn. apply Hn.
        apply list_elem_of_filter. split; [apply Hd|]. apply elem_of_managed_names.
        split; [apply Hd|eauto].
      + apply map_lookup_filter_Some. split; [done|]. simpl.
        intros [? [? _]%elem_of_managed_names]%list_elem_of_filter. auto.
    - rewrite (proj2 (map_lookup_filter_None _ _ _)) by auto. by case_decide. }
  rewrite Hf. clear Hf.
  destruct (decide (c ∈ filter _ names)) as [[Hn Hc]%list_elem_of_filter|Hn].
  - rewrite decide_True, decide_True by auto. rewrite elem_of_managed_names in Hn.
    destruct (collections t !! c) eqn:Hr; [|done]. destruct Hn; eauto.
  - rewrite list_elem_of_filter, elem_of_managed_names in Hn.
    destruct (decide (managed c)), (decide (c ∈ names)).
    + rewrite decide_False by tauto. destruct (collections t !! c); [done|].
      destruct Hn. split; [|done]. by intros [_ []].
    + by rewrite decide_True.
    + by destruct n; auto.
    + by rewrite decide_False by tauto.
Qed.

Lemma lookup_sync_collections_secrets names t c s :
  foreign_key t →
  secrets (sync_collections names t) !! (c, s) =
  if decide (managed c ∧ c ∉ names) then None else secrets t !! (c, s).
Proof.
  intros Hfk. unfold sync_collections. rewrite secrets_add_collections; simpl.
  destruct (secrets t !! (c, s)) as [r|] eqn:Hr.
  - case_decide as Hd.
    + apply map_lookup_filter_None. right. intros r' Hr'. simpl. intros Hn. apply Hn.
      apply list_elem_of_filter. split; [apply Hd|]. apply elem_of_managed_names.
      split; [apply Hd|]. eapply Hfk; eauto.
    + apply map_lookup_filter_Some. split; [done|]. simpl.
      intros [? [? _]%elem_of_managed_names]%list_elem_of_filter. auto.
  - rewrite (proj2 (map_lookup_filter_None _ _ _)) by auto. by case_decide.
Qed.

Lemma foreign_key_sync_collections names t :
  foreign_key t → Forall managed names → foreign_key (sync_collections names t).
Proof.
  intros Hfk Hm c s. rewrite lookup_sync_collections_secrets, lookup_sync_collections by done.
  destruct (decide (managed c)), (decide (c ∈ names)); simpl; eauto.
  - rewrite decide_True by done. by intros [].
  - rewrite decide_False by tauto. eauto.
  - rewrite decide_False by tauto. eauto.
Qed.
End initialize_collections.

(** [initializeSecretsFromPluginData], in a good environment. *)
Section initialize_secrets.
  Context (cfg : MetadataConfig).
  Implicit Types (t : MetaTables) (db : MetaDb).

Definition drop_secrets (del : list (string * string)) t : MetaTables :=
  mkMetaTables (collections t) (filter (λ kv, kv.1 ∉ del) (secrets t)).

Definition add_secrets (add : list (string * string)) t : MetaTables :=
  mkMetaTables (collections t)
    (foldl (λ m cs, <[cs := secret_values (importedSecret cfg cs.1 cs.2)]> m) (secrets t) add).

Lemma drop_secrets_nil t : drop_secrets [] t = t.
Proof.
  destruct t as [cs ss]. unfold drop_secrets; simpl.
  by rewrite map_filter_id by (intros; apply not_elem_of_nil).
Qed.

Lemma drop_secrets_snoc del c s t :
  sql_delete_secret c s (drop_secrets del t) = Some (drop_secrets (del ++ [(c, s)]) t, tt).
Proof.
  unfold sql_delete_secret, drop_secrets; simpl. do 3 f_equal.
  apply map_eq. intros k. apply option_eq. intros r.
  rewrite lookup_delete_Some, !map_lookup_filter_Some, not_elem_of_app. simpl. set_solver.
Qed.

Lemma lookup_add_secrets add t k :
  secrets (add_secrets add t) !! k =
  if decide (k ∈ add) then Some (secret_values (importedSecret cfg k.1 k.2)) else secrets t !! k.
Proof.
  unfold add_secrets; simpl. generalize (secrets t) as m.
  induction add as [|k' add IH]; intros m.
  { by rewrite decide_False by apply not_elem_of_nil. }
  simpl. rewrite IH. destruct (decide (k = k')) as [->|Hne].
  - rewrite lookup_insert_eq. repeat case_decide; done || set_solver.
  - rewrite lookup_insert_ne by done. repeat case_decide; done || set_solver.
Qed.

Lemma add_secrets_snoc add c s t :
  is_Some (collections t !! c) → (c, s) ∉ add → secrets t !! (c, s) = None →
  sql_insert_secret (importedSecret cfg c s) (add_secrets add t)
  = Some (add_secrets (add ++ [(c, s)]) t, tt).
Proof.
  intros [row Hc] Hn Hnone. unfold sql_insert_secret. rewrite lookup_add_secrets.
  rewrite decide_False by done. simpl. rewrite Hc, Hnone.
  unfold add_secrets; simpl. by rewrite foldl_app.
Qed.

(** The two maps the function builds. *)
Lemma metadataCNameToSNames_good cnames t0 t db :
  good db → live t0 t db →
  wp (metadataCNameToSNames cnames) (λ o db', (∃ m, o = Some m ∧ ∀ c, m !! c =
      if decide (c ∈ cnames) then Some (sql_secret_names c t) else None)
    ∧ good db' ∧ live t0 t db') db.
Proof.
  intros Hg Hl. unfold metadataCNameToSNames.
  pose (I := λ (rest : list string) (o : option (gmap string (list string))) db', good db' ∧ live t0 t db' ∧ ∃ pre m, cnames = pre ++ rest ∧ o = Some m
    ∧ ∀ c, m !! c = if decide (c ∈ pre) then Some (sql_secret_names c t) else None).
  eapply wp_mono; [apply (wp_foldM _ I)|].
  - split_and!; [done..|]. exists [], ∅. split_and!; [done..|]. intros c.
    by rewrite decide_False by apply not_elem_of_nil.
  - intros c rest o db1 (Hg1&Hl1&pre&m&->&->&Hm). apply wp_bind.
    eapply wp_mono; [by eapply secretNames_metadata|]. intros [r names] db2 (->&->&?&?).
    apply wp_ret. split_and!; [done..|]. exists (pre ++ [c]), (<[c := sql_secret_names c t]> m).
    split_and!; [by rewrite <-app_assoc|done|]. intros c'.
    destruct (decide (c' = c)) as [->|].
    + rewrite lookup_insert_eq. by rewrite decide_True by set_solver.
    + rewrite lookup_insert_ne, Hm by done. repeat case_decide; done || set_solver.
  - intros o db' (?&?&pre&m&->&->&?). rewrite app_nil_r. eauto.
Qed.

Definition pairs (ids : list Identifier) : list (string * string) :=
  (λ id, (ident_collectionName id, ident_name id)) <$> ids.

Lemma pluginCNameToSNames_lookup ids c :
  default [] (pluginCNameToSNames ids !! c)
  = ident_name <$> filter (λ id, ident_collectionName id = c) ids.
Proof.
  unfold pluginCNameToSNames. induction ids as [|id ids IH] using rev_ind; [done|].
  rewrite foldl_app, filter_app, fmap_app, <-IH; simpl.
  destruct (decide (ident_collectionName id = c)) as [<-|].
  - rewrite filter_cons_True by done. simpl. by rewrite lookup_insert_eq.
  - rewrite lookup_insert_ne, filter_cons_False by done. simpl. by rewrite app_nil_r.
Qed.

Lemma elem_of_plugin_names ids c s :
  s ∈ default [] (pluginCNameToSNames ids !! c) ↔ (c, s) ∈ pairs ids.
Proof.
  rewrite pluginCNameToSNames_lookup. unfold pairs. rewrite !list_elem_of_fmap. split.
  - intros (id&->&[<- ?]%list_elem_of_filter). eauto.
  - intros (id&[= -> ->]&?). exists id. split; [done|]. by apply list_elem_of_filter.
Qed.

Lemma missing_spec (m : gmap string (list string)) c s : missing m c s = true ↔ s ∉ default [] (m !! c).
Proof.
  unfold missing, contains. destruct (m !! c) as [l|]; simpl.
  - rewrite negb_true_iff. apply bool_decide_eq_false.
  - split; [intros _; apply not_elem_of_nil|done].
Qed.

Lemma NoDup_plugin_names ids c :
  NoDup (pairs ids) → NoDup (default [] (pluginCNameToSNames ids !! c)).
Proof.
  rewrite pluginCNameToSNames_lookup. unfold pairs.
  induction ids as [|id ids IH]; simpl; [intros; apply NoDup_nil_2|]. intros [Hn Hnd]%NoDup_cons.
  destruct (decide (ident_collectionName id = c)) as [<-|];
    [rewrite filter_cons_True by done|rewrite filter_cons_False by done; auto].
  simpl. apply NoDup_cons. split; [|auto]. intros Hin. apply Hn.
  apply list_elem_of_fmap in Hin as (id'&Heq&[Hc ?]%list_elem_of_filter).
  apply list_elem_of_fmap. exists id'. by rewrite Heq, Hc.
Qed.

Lemma plugin_names_nonempty ids c names :
  pluginCNameToSNames ids !! c = Some names → ∃ s, (c, s) ∈ pairs ids.
Proof.
  unfold pluginCNameToSNames, pairs. revert names.
  induction ids as [|id ids IH] using rev_ind; intros names; [done|].
  rewrite foldl_app, fmap_app; simpl. intros [[<- _]|[_ H]]%lookup_insert_Some.
  - exists (ident_name id). apply elem_of_app. right. by apply list_elem_of_singleton.
  - destruct (IH _ H) as [s Hs]. exists s. apply elem_of_app. by left.
Qed.

(** The deletions of one collection, and of all of them. *)
Lemma delete_secrets_loop (plugin : gmap string (list string)) c l del t0 t db :
  good db → live t0 (drop_secrets del t) db →
  wp (foldM (λ succeeded sname,
                   if missing plugin c sname
                   then also succeeded (deleteSecretMetadata c sname)
                   else ret succeeded) l true)
     (λ b db', b = true ∧ good db' ∧ live t0
        (drop_secrets (del ++ ((λ s, (c, s)) <$> filter (missing plugin c) l)) t) db') db.
Proof.
  revert del db. induction l as [|s l IH]; intros del db Hg Hl; simpl.
  { apply wp_ret. by rewrite app_nil_r. }
  apply wp_bind. destruct (missing plugin c s) eqn:Hs.
  - eapply wp_mono; [eapply also_good; [done..|apply drop_secrets_snoc]|].
    intros b db1 (->&Hg1&Hl1). eapply wp_mono; [by eapply IH|]. intros b db2 (?&?&?).
    rewrite filter_cons_True by (by apply Is_true_true). simpl. by rewrite <-app_assoc in *.
  - apply wp_ret. rewrite filter_cons_False by (by apply Is_true_false). by apply IH.
Qed.

Definition deletions (locked : list string) (metadata plugin : gmap string (list string))
  (keys : list string) : list (string * string) :=
  c ← keys;
  if contains locked c then []
  else (λ s, (c, s)) <$> filter (missing plugin c) (default [] (metadata !! c)).

Lemma delete_all_loop locked (metadata plugin : gmap string (list string)) keys del t0 t db :
  good db → live t0 (drop_secrets del t) db →
  wp (foldM (λ succeeded cname,
          if contains locked cname then ret succeeded else
          foldM (λ succeeded sname,
                   if missing plugin cname sname
                   then also succeeded (deleteSecretMetadata cname sname)
                   else ret succeeded) (default [] (metadata !! cname)) succeeded) keys true)
     (λ b db', b = true ∧ good db'
        ∧ live t0 (drop_secrets (del ++ deletions locked metadata plugin keys) t) db') db.
Proof.
  revert del db. induction keys as [|c keys IH]; intros del db Hg Hl; simpl.
  { apply wp_ret. by rewrite app_nil_r. }
  apply wp_bind. destruct (contains locked c) eqn:Hc.
  - apply wp_ret. by apply IH.
  - eapply wp_mono; [by eapply delete_secrets_loop|]. intros b db1 (->&Hg1&Hl1).
    eapply wp_mono; [by eapply IH|]. intros b db2 (?&?&?). by rewrite <-app_assoc in *.
Qed.

(** The insertions of one collection, and of all of them. *)
Lemma insert_secrets_loop (metadata : gmap string (list string)) c l add t0 t db :
  good db → live t0 (add_secrets add t) db → NoDup l → is_Some (collections t !! c) →
  (∀ s, s ∈ l → (c, s) ∉ add) →
  (∀ s, s ∈ l → missing metadata c s = true → secrets t !! (c, s) = None) →
  wp (foldM (λ succeeded sname,
                 if missing metadata c sname
                 then also succeeded (insertSecretMetadata (importedSecret cfg c sname))
                 else ret succeeded) l true)
     (λ b db', b = true ∧ good db' ∧ live t0
        (add_secrets (add ++ ((λ s, (c, s)) <$> filter (missing metadata c) l)) t) db') db.
Proof.
  revert add db. induction l as [|s l IH]; intros add db Hg Hl Hnd Hc Hadd Hnone; simpl.
  { apply wp_ret. by rewrite app_nil_r. }
  apply NoDup_cons in Hnd as [Hs' Hnd]. apply wp_bind. destruct (missing metadata c s) eqn:Hs.
  - eapply wp_mono; [eapply also_good; [done..|apply add_secrets_snoc]|].
    + done.
    + apply Hadd. by left.
    + apply Hnone; [by left|done].
    + intros b db1 (->&Hg1&Hl1). eapply wp_mono; [eapply IH; [done..| |]|].
      * intros s2 Hs2. rewrite not_elem_of_app. split; [apply Hadd; by right|]. set_solver.
      * intros s2 Hs2. apply Hnone. by right.
      * intros b db2 (?&?&?).
        rewrite filter_cons_True by (by apply Is_true_true). simpl. by rewrite <-app_assoc in *.
  - apply wp_ret. rewrite filter_cons_False by (by apply Is_true_false).
    apply IH; [done..| |]; intros s2 Hs2; [apply Hadd|apply Hnone]; by right.
Qed.

Definition insertions (metadata plugin : gmap string (list string)) (keys : list string)
  : list (string * string) :=
  c ← keys; (λ s, (c, s)) <$> filter (missing metadata c) (default [] (plugin !! c)).

Lemma elem_of_insertions metadata plugin keys c s :
  (c, s) ∈ insertions metadata plugin keys
  ↔ c ∈ keys ∧ missing metadata c s = true ∧ s ∈ default [] (plugin !! c).
Proof.
  unfold insertions. rewrite list_elem_of_bind. split.
  - intros (c'&(s'&[= -> ->]&[?%Is_true_true ?]%list_elem_of_filter)%list_elem_of_fmap&?). done.
  - intros (?&?&?). exists c. split; [|done]. apply list_elem_of_fmap. exists s. split; [done|].
    apply list_elem_of_filter. by rewrite Is_true_true.
Qed.

Lemma elem_of_deletions locked metadata plugin keys c s :
  (c, s) ∈ deletions locked metadata plugin keys
  ↔ c ∈ keys ∧ c ∉ locked ∧ missing plugin c s = true ∧ s ∈ default [] (metadata !! c).
Proof.
  unfold deletions. rewrite list_elem_of_bind. unfold contains. split.
  - intros (c'&Hin&?). case_bool_decide; [by apply not_elem_of_nil in Hin|].
    apply list_elem_of_fmap in Hin as (s'&[= -> ->]&[?%Is_true_true ?]%list_elem_of_filter). done.
  - intros (?&?&?&?). exists c. split; [|done]. rewrite bool_decide_false by done.
    apply list_elem_of_fmap. exists s. split; [done|].
    apply list_elem_of_filter. by rewrite Is_true_true.
Qed.

Lemma insert_all_loop (metadata plugin : gmap string (list string)) keys add t0 t db :
  good db → live t0 (add_secrets add t) db → NoDup keys →
  (∀ c, NoDup (default [] (plugin !! c))) → (∀ c, c ∈ keys → is_Some (collections t !! c)) →
  (∀ c s, (c, s) ∈ add → c ∉ keys) →
  (∀ c s, (c, s) ∈ insertions metadata plugin keys → secrets t !! (c, s) = None) →
  wp (foldM (λ succeeded cname,
        foldM (λ succeeded sname,
                 if missing metadata cname sname
                 then also succeeded (insertSecretMetadata (importedSecret cfg cname sname))
                 else ret succeeded) (default [] (plugin !! cname)) succeeded) keys true)
     (λ b db', b = true ∧ good db'
        ∧ live t0 (add_secrets (add ++ insertions metadata plugin keys) t) db') db.
Proof.
  revert add db. induction keys as [|c keys IH]; intros add db Hg Hl Hnd Hpl Hc Hadd Hnone; simpl.
  { apply wp_ret. by rewrite app_nil_r. }
  apply NoDup_cons in Hnd as [Hcn Hnd]. apply wp_bind.
  eapply wp_mono; [eapply insert_secrets_loop; [done|done|apply Hpl|apply Hc; by left| |]|].
  - intros s _ Hin. apply (Hadd c s Hin). by left.
  - intros s Hs Hm. apply Hnone. apply elem_of_insertions. split_and!; [by left|done..].
  - intros b db1 (->&Hg1&Hl1). eapply wp_mono; [eapply IH; [done..|auto| | |]|].
    + intros c' ?. apply Hc. by right.
    + intros c' s [Hin|Hin]%elem_of_app Hk.
      * apply (Hadd c' s Hin). by right.
      * apply list_elem_of_fmap in Hin as (?&[= -> ->]&_). done.
    + intros c' s (?&?&?)%elem_of_insertions. apply Hnone, elem_of_insertions.
      split_and!; [by right|done..].
    + intros b db2 (?&?&?). by rewrite <-app_assoc in *.
Qed.

(** What the synchronization with the secrets [ids] leaves: a secret of the
    plugin keeps its metadata, or gets that of an imported one; metadata of a
    secret the plugin does not have is removed, unless its collection is locked
    or not managed. *)
Definition secrets_synced (ids : list Identifier) (locked : list string) t t' : Prop :=
  collections t' = collections t ∧
  ∀ c s, secrets t' !! (c, s) =
    if decide ((c, s) ∈ pairs ids) then
      Some (default (secret_values (importedSecret cfg c s)) (secrets t !! (c, s)))
    else if decide (managed c ∧ c ∉ locked) then None else secrets t !! (c, s).

Lemma foreign_key_synced ids locked t t' :
  foreign_key t → (∀ c s, (c, s) ∈ pairs ids → is_Some (collections t !! c)) →
  secrets_synced ids locked t t' → foreign_key t'.
Proof.
  intros Hfk Hids [Hcol Hsec] c s. rewrite Hcol, Hsec. repeat case_decide; eauto. by intros [].
Qed.

Section steps.
  Context (ids : list Identifier) (locked : list string) (t : MetaTables)
    (metadata : gmap string (list string)).
Let plugin := pluginCNameToSNames ids.
  Context (Hfk : foreign_key t)
    (Hids : ∀ c s, (c, s) ∈ pairs ids → managed c ∧ is_Some (collections t !! c))
    (Hmeta : ∀ c, metadata !! c =
       if decide (c ∈ filter (keep_name true) (sql_collection_names t))
       then Some (sql_secret_names c t) else None).

Lemma metadata_keys c : c ∈ qmap_keys metadata ↔ managed c ∧ is_Some (collections t !! c).
Proof.
  rewrite elem_of_qmap_keys, Hmeta, <-elem_of_managed_names.
  case_decide; split; try done; by intros [].
Qed.

Lemma metadata_names c s :
  s ∈ default [] (metadata !! c) ↔ managed c ∧ is_Some (secrets t !! (c, s)).
Proof.
  rewrite Hmeta. case_decide as Hd; rewrite elem_of_managed_names in Hd; simpl.
  - rewrite elem_of_sql_secret_names. naive_solver.
  - split; [by intros ?%not_elem_of_nil|]. intros [? ?]. destruct Hd. split; [done|].
    by eapply Hfk.
Qed.

Lemma steps_synced :
  secrets_synced ids locked t
    (add_secrets (insertions metadata plugin (qmap_keys plugin))
       (drop_secrets (deletions locked metadata plugin (qmap_keys metadata)) t)).
Proof.
  split; [done|]. intros c s. rewrite lookup_add_secrets; simpl.
  assert (missing plugin c s = true ↔ (c, s) ∉ pairs ids) as Hmiss.
  { rewrite missing_spec. unfold plugin. by rewrite elem_of_plugin_names. }
  assert ((c, s) ∈ pairs ids → c ∈ qmap_keys plugin) as Hkey.
  { rewrite <-elem_of_plugin_names, elem_of_qmap_keys. fold plugin.
    destruct (plugin !! c); [eauto|]. by intros ?%not_elem_of_nil. }
  destruct (decide ((c, s) ∈ insertions _ _ _)) as [Hin|Hin];
    rewrite elem_of_insertions, missing_spec, metadata_names in Hin.
  - destruct Hin as (_&Hm&Hp%elem_of_plugin_names). rewrite decide_True by done.
    destruct (secrets t !! (c, s)) eqn:Hs; [|done]. destruct Hm.
    split; [by eapply Hids|eauto].
  - unfold drop_secrets; simpl. destruct (decide ((c, s) ∈ pairs ids)) as [Hp|Hp].
    + destruct (secrets t !! (c, s)) as [r|] eqn:Hs; simpl.
      * apply map_lookup_filter_Some. split; [done|]. simpl.
        rewrite elem_of_deletions. tauto.
      * destruct Hin. split_and!; [auto|by intros [_ []]|by apply elem_of_plugin_names].
    + destruct (secrets t !! (c, s)) as [r|] eqn:Hs.
      * case_decide as Hd.
        -- apply map_lookup_filter_None. right. intros r' _. simpl. intros Hn. apply Hn.
           apply elem_of_deletions. rewrite metadata_keys, metadata_names.
           split_and!; [apply Hd|eapply Hfk; eauto|apply Hd|tauto|apply Hd|eauto].
        -- apply map_lookup_filter_Some. split; [done|]. simpl.
           rewrite elem_of_deletions, metadata_keys. tauto.
      * rewrite (proj2 (map_lookup_filter_None _ _ _)) by auto. by case_decide.
Qed.
End steps.

Lemma initializeSecrets_good ids locked t0 t db :
  good db → live t0 t db → foreign_key t → NoDup (pairs ids) →
  (∀ c s, (c, s) ∈ pairs ids → managed c ∧ is_Some (collections t !! c)) →
  wp (initializeSecretsFromPluginData cfg ids locked)
     (λ b db', b = true ∧ good db' ∧ ∃ t', live t0 t' db' ∧ secrets_synced ids locked t t') db.
Proof.
  intros Hg Hl Hfk Hnd Hids. unfold initializeSecretsFromPluginData. apply wp_bind.
  eapply wp_mono; [by eapply collectionNames_metadata|]. intros [r cnames] db1 (->&->&Hg1&Hl1).
  simpl. apply wp_bind. eapply wp_mono; [by eapply metadataCNameToSNames_good|].
  intros o db2 ((metadata&->&Hmeta)&Hg2&Hl2). apply wp_bind.
  eapply wp_mono; [eapply (delete_all_loop _ _ _ _ []); [done|rewrite drop_secrets_nil; exact Hl2]|].
  intros b db3 (->&Hg3&Hl3); simpl in Hl3.
  eapply wp_mono; [eapply (insert_all_loop _ _ _ [] t0 (drop_secrets _ t)); [done|exact Hl3|apply NoDup_qmap_keys| | | |]|].
  - intros c. by apply NoDup_plugin_names.
  - intros c [names Hc]%elem_of_qmap_keys. simpl.
    destruct (plugin_names_nonempty ids c names Hc) as [s Hs]. by eapply Hids.
  - by intros c s ?%not_elem_of_nil.
  - intros c s (_&Hm%missing_spec&Hp%elem_of_plugin_names)%elem_of_insertions. simpl.
    apply map_lookup_filter_None. left. apply eq_None_not_Some. intros Hsome. apply Hm.
    eapply metadata_names; [done..|]. split; [by eapply Hids|done].
  - intros b db4 (->&Hg4&Hl4). split_and!; [done..|]. eexists. split; [done|]. by apply steps_synced.
Qed.
End initialize_secrets.
