(* ===== verification/PluginWrapper.v ===== *)
(** The storage plugin wrappers (daemon/SecretsImpl/pluginwrapper.cpp,
    pluginwrapper_p.h): every operation on a storage plugin updates the
    plugin's metadata database in the same transaction.  [P] is the state of
    the wrapped plugin. *)
From S2P Require Import Prelude Result Sqlite MetadataDb PluginApi.

(** [PluginWrapper]: [m_metadataDb], [m_initialized] and the plugin. *)
Record Wrapper (P : Type) := mkWrapper {
  m_metadataDb : MetaDb;
  m_initialized : bool;
  m_plugin : P;
}.
Arguments mkWrapper {P}.
Arguments m_metadataDb {P}.
Arguments m_initialized {P}.
Arguments m_plugin {P}.

(** An uninitialized [CollectionMetadata] or [SecretMetadata] local variable. *)
Definition noCollectionMetadata : CollectionMetadata :=
  mkCollectionMetadata "" "" false "" "" 0 OwnerOnlyMode.
Definition noSecretMetadata : SecretMetadata :=
  mkSecretMetadata "" "" "" false "" "" 0 OwnerOnlyMode "" "".

Section wrapper.
  Context {P : Type} `{PluginBase P}.

(** Operations of the two members. *)
Definition on_db {A} : M MetaDb A → M (Wrapper P) A :=
  zoom m_metadataDb (λ db w, mkWrapper db (m_initialized w) (m_plugin w)).
Definition on_plugin {A} : M P A → M (Wrapper P) A :=
  zoom m_plugin (λ p w, mkWrapper (m_metadataDb w) (m_initialized w) p).

Definition set_initialized (b : bool) : M (Wrapper P) unit :=
  modify (λ w, mkWrapper (m_metadataDb w) b (m_plugin w)).

Definition plugin_locked_error : Result :=
  result_error SecretsPluginIsLockedError ("Plugin " +:+ pb_name +:+ " is locked").
Definition master_locked_error : Result :=
  result_error SecretsPluginIsLockedError ("Plugin " +:+ pb_name +:+ " is master-locked").

(** * [PluginWrapper] *)

(** [isMasterLocked] *)
Definition isMasterLocked : M (Wrapper P) bool :=
  let* '(result, locked) := on_db (isLocked false) in
  if negb (ok result) then ret true else ret (locked : bool).

(** [masterLock] *)
Definition masterLock : M (Wrapper P) bool :=
  let* result := on_db lock in ret (ok result).

Section with_initialize.
  (** [initialize] is virtual. *)
  Context (initialize : bytes → M (Wrapper P) bool).

(** [masterUnlock] *)
Definition masterUnlock (masterLockKey : bytes) : M (Wrapper P) bool :=
  let* result := on_db (unlock masterLockKey) in
  if bool_decide (code result = Failed) then ret false else initialize masterLockKey.

(** [setMasterLockKey] *)
Definition setMasterLockKey (oldMasterLockKey newMasterLockKey : bytes) : M (Wrapper P) bool :=
  let* result := on_db (reencrypt oldMasterLockKey newMasterLockKey) in
  if bool_decide (code result = Failed) then ret false else initialize newMasterLockKey.

(** [unlock] and [setLockCode] of the plugin. *)
Definition wrapper_unlock (lockCode : bytes) : M (Wrapper P) bool :=
  let* ps := on_plugin (pb_unlock lockCode) in
  initialize "" ;;; ret ps.

Definition wrapper_setLockCode (oldLockCode newLockCode : bytes) : M (Wrapper P) bool :=
  let* ps := on_plugin (pb_setLockCode oldLockCode newLockCode) in
  initialize "" ;;; ret ps.
End with_initialize.

(** [supportsLocking], [isLocked] and [lock] of the plugin. *)
Definition wrapper_supportsLocking (w : Wrapper P) : bool := pb_supportsLocking (m_plugin w).
Definition wrapper_isLocked (w : Wrapper P) : bool := pb_isLocked (m_plugin w).
Definition wrapper_lock : M (Wrapper P) bool := on_plugin pb_lock.

(** [status]: the flags MasterUnlocked and PluginUnlocked. *)
Definition status : M (Wrapper P) (bool * bool) :=
  let* masterLocked := isMasterLocked in
  let* p := gets m_plugin in
  ret (negb masterLocked, negb (pb_supportsLocking p) || negb (pb_isLocked p)).

(** [collectionMetadata]: the same code in both wrappers. *)
Definition wrapper_collectionMetadata (collectionName : string) (md0 : CollectionMetadata)
  : M (Wrapper P) (Result * CollectionMetadata) :=
  let* masterLocked := isMasterLocked in
  if (masterLocked : bool) then ret (master_locked_error, md0) else
  let* '(result, (metadata, existing)) := on_db (collectionMetadata collectionName md0 false) in
  ret (if (existing : bool) then result
       else result_error InvalidCollectionError
              ("Collection " +:+ collectionName +:+ " does not exist"), metadata).

(** [secretMetadata] *)
Definition wrapper_secretMetadata (collectionName secretName : string) (md0 : SecretMetadata)
  : M (Wrapper P) (Result * SecretMetadata) :=
  let* masterLocked := isMasterLocked in
  if (masterLocked : bool) then ret (master_locked_error, md0) else
  let* '(result, (metadata, existing)) := on_db (secretMetadata collectionName secretName md0 false) in
  ret (if (existing : bool) then result
       else result_error InvalidSecretError
              ("Secret " +:+ secretName +:+ " does not exist in collection " +:+ collectionName),
       metadata).

(** [keyNames] *)
Definition wrapper_keyNames (collectionName : string) : M (Wrapper P) (Result * list string) :=
  on_db (keyNames collectionName).

(** The metadata transaction every modifying operation runs: begin, change the
    metadata, change the plugin, and roll back unless both succeeded.  The
    result of the commit is ignored. *)
Definition transactionally (op : string) (metadata plugin : M (Wrapper P) Result)
  : M (Wrapper P) Result :=
  let* begun := on_db beginTransaction in
  if negb begun then
    ret (result_error DatabaseTransactionError
           ("Unable to start metadata db transaction for " +:+ op)) else
  let* result := metadata in
  if negb (ok result) then on_db rollbackTransaction ;;; ret result else
  let* result := plugin in
  if negb (ok result) then on_db rollbackTransaction ;;; ret result else
  on_db commitTransaction ;;;
  ret (result_of_code Succeeded).

(** The two guards most operations start with. *)
Definition unless_locked (k : M (Wrapper P) Result) : M (Wrapper P) Result :=
  let* locked := gets wrapper_isLocked in
  if locked then ret plugin_locked_error else
  let* masterLocked := isMasterLocked in
  if (masterLocked : bool) then ret master_locked_error else k.
End wrapper.

(** * [StoragePluginWrapper] *)
Section storage_wrapper.
  Context (cfg : MetadataConfig) {P : Type} `{StoragePlugin P}.

(** [collectionNames]: no collection of a storage plugin is locked. *)
Definition sw_collectionNames : M (Wrapper P) (Result * gmap string bool) :=
  let* '(result, cnames) := on_plugin sp_collectionNames in
  ret (result, foldl (λ names cname, <[cname := false]> names) ∅ cnames).

(** [secretNames] *)
Definition sw_secretNames (collectionName : string) : M (Wrapper P) (Result * list string) :=
  on_plugin (sp_secretNames collectionName).

(** The secrets of the collections [cnames]; [None] when a query failed. *)
Definition sw_identifiers (cnames : list string) : M (Wrapper P) (option (list Identifier)) :=
  foldM (λ acc cname,
           match acc with
           | None => ret None
           | Some ids =>
               let* '(result, snames) := sw_secretNames cname in
               ret (if ok result
                    then Some (ids ++ ((λ sname, mkIdentifier sname cname pb_name) <$> snames))
                    else None)
           end) cnames (Some []).

(** Open the metadata database if it is not open. *)
Definition open_metadata (masterLockKey : bytes) : M (Wrapper P) bool :=
  let* opened := on_db (gets isOpen) in
  if (opened : bool) then ret true else on_db (openDatabase masterLockKey).

(** [initialize] *)
Definition sw_initialize (masterLockKey : bytes) : M (Wrapper P) bool :=
  let* w := gets id in
  if m_initialized w then ret true else
  let* opened := open_metadata masterLockKey in
  if negb opened then ret false else
  let* locked := gets wrapper_isLocked in
  if locked then ret false else
  let* '(result, cnamesMap) := sw_collectionNames in
  let cnames := qmap_keys cnamesMap in
  if negb (ok result) then ret false else
  let* identifiers := sw_identifiers cnames in
  match identifiers with
  | None => ret false
  | Some ids =>
      let* begun := on_db beginTransaction in
      if negb begun then ret false else
      let* initCollections := on_db (initializeCollectionsFromPluginData cfg cnames) in
      let* initSecrets := on_db (initializeSecretsFromPluginData cfg ids []) in
      on_db commitTransaction ;;;
      set_initialized (initCollections && initSecrets) ;;;
      ret true
  end.

(** [createCollection] *)
Definition sw_createCollection (metadata : CollectionMetadata) : M (Wrapper P) Result :=
  unless_locked (
    let* '(result, (_, existing)) :=
      on_db (collectionMetadata (cm_collectionName metadata) noCollectionMetadata false) in
    if (existing : bool) then
      ret (result_error CollectionAlreadyExistsError
             ("Collection " +:+ cm_collectionName metadata +:+ " already exists"))
    else if negb (ok result) then ret result else
    transactionally "createCollection" (on_db (insertCollectionMetadata metadata))
      (on_plugin (sp_createCollection (cm_collectionName metadata)))).

(** [removeCollection] *)
Definition sw_removeCollection (collectionName : string) : M (Wrapper P) Result :=
  unless_locked (
    transactionally "deleteCollection" (on_db (deleteCollectionMetadata collectionName))
      (on_plugin (sp_removeCollection collectionName))).

(** [setSecret]: the collection must be known, the secret must not. *)
Definition sw_setSecret (metadata : SecretMetadata) (secret : bytes) (filterData : FilterData)
  : M (Wrapper P) Result :=
  unless_locked (
    let* '(result, (_, existing)) :=
      on_db (collectionMetadata (sm_collectionName metadata) noCollectionMetadata false) in
    if negb (ok result) then ret result
    else if negb existing then
      ret (result_error InvalidCollectionError
             ("Collection " +:+ sm_collectionName metadata +:+ " does not exist")) else
    let* '(result, (_, existing)) :=
      on_db (secretMetadata (sm_collectionName metadata) (sm_secretName metadata)
               noSecretMetadata false) in
    if negb (ok result) then ret result
    else if (existing : bool) then
      ret (result_error SecretAlreadyExistsError "Cannot overwrite existing secret") else
    transactionally "createCollection" (on_db (insertSecretMetadata metadata))
      (on_plugin (sp_setSecret (sm_collectionName metadata) (sm_secretName metadata)
                    secret filterData))).

(** [removeSecret] *)
Definition sw_removeSecret (collectionName secretName : string) : M (Wrapper P) Result :=
  unless_locked (
    transactionally "removeSecret" (on_db (deleteSecretMetadata collectionName secretName))
      (on_plugin (sp_removeSecret collectionName secretName))).

(** [getSecret], [findSecrets] and [reencrypt] go to the plugin. *)
Definition sw_getSecret (collectionName secretName : string)
  : M (Wrapper P) (Result * option (bytes * FilterData)) :=
  on_plugin (sp_getSecret collectionName secretName).
Definition sw_findSecrets (collectionName : string) (flt : FilterData) (op : FilterOperator)
  : M (Wrapper P) (Result * list string) :=
  on_plugin (sp_findSecrets collectionName flt op).
Definition sw_reencrypt (collectionName secretName : string) (oldkey newkey : bytes)
  (plugin : EncryptionPlugin) : M (Wrapper P) Result :=
  on_plugin (sp_reencrypt collectionName secretName oldkey newkey plugin).
End storage_wrapper.

(** * [EncryptedStoragePluginWrapper] *)
Section encrypted_storage_wrapper.
  Context (cfg : MetadataConfig) {P : Type} `{EncryptedStoragePlugin P}.

(** [collectionNames]: whether a collection is locked; locked when the plugin
    cannot tell. *)
Definition ew_collectionNames : M (Wrapper P) (Result * gmap string bool) :=
  let* '(result, cnames) := on_plugin ep_collectionNames in
  if negb (ok result) then ret (result, ∅) else
  let* names :=
    foldM (λ names cname,
             let* '(lockedResult, locked) := on_plugin (ep_isCollectionLocked cname false) in
             ret (<[cname := negb (ok lockedResult) || locked]> names)) cnames ∅ in
  ret (result, names).

(** [secretNames] *)
Definition ew_secretNames (collectionName : string) : M (Wrapper P) (Result * list string) :=
  on_plugin (ep_secretNames collectionName).

(** The secrets of the unlocked collections and the names of the locked ones;
    [None] when a query failed. *)
Definition ew_identifiers (cnames : list string)
  : M (Wrapper P) (option (list Identifier * list string)) :=
  foldM (λ acc cname,
           match acc with
           | None => ret None
           | Some (ids, lockedCollections) =>
               let* '(result, locked) := on_plugin (ep_isCollectionLocked cname false) in
               if (locked : bool) || negb (ok result) then
                 ret (Some (ids, lockedCollections ++ [cname])) else
               let* '(result, snames) := ew_secretNames cname in
               ret (if ok result
                    then Some (ids ++ ((λ sname, mkIdentifier sname cname pb_name) <$> snames),
                               lockedCollections)
                    else None)
           end) cnames (Some ([], [])).

(** [initialize] *)
Definition ew_initialize (masterLockKey : bytes) : M (Wrapper P) bool :=
  let* w := gets id in
  if m_initialized w then ret true else
  let* opened := open_metadata masterLockKey in
  if negb opened then ret false else
  let* locked := gets wrapper_isLocked in
  if locked then ret true else
  let* '(result, cnamesMap) := ew_collectionNames in
  let cnames := qmap_keys cnamesMap in
  if negb (ok result) then ret false else
  let* identifiers := ew_identifiers cnames in
  match identifiers with
  | None => ret false
  | Some (ids, lockedCollections) =>
      let* begun := on_db beginTransaction in
      if negb begun then ret false else
      let* initCollections := on_db (initializeCollectionsFromPluginData cfg cnames) in
      let* initSecrets := on_db (initializeSecretsFromPluginData cfg ids lockedCollections) in
      on_db commitTransaction ;;;
      set_initialized (initCollections && initSecrets
                       && bool_decide (lockedCollections = [])) ;;;
      ret true
  end.

(** [isCollectionLocked], [deriveKeyFromCode], [reencrypt], [getSecret],
    [findSecrets], [accessSecret] go to the plugin. *)
Definition ew_isCollectionLocked (collectionName : string) (locked : bool)
  : M (Wrapper P) (Result * bool) :=
  on_plugin (ep_isCollectionLocked collectionName locked).
Definition ew_deriveKeyFromCode (authenticationCode salt : bytes)
  : M (Wrapper P) (Result * option bytes) :=
  on_plugin (ep_deriveKeyFromCode authenticationCode salt).
Definition ew_reencrypt (collectionName : string) (oldkey newkey : bytes) : M (Wrapper P) Result :=
  on_plugin (ep_reencrypt collectionName oldkey newkey).
Definition ew_getSecret (collectionName secretName : string)
  : M (Wrapper P) (Result * option (bytes * FilterData)) :=
  on_plugin (ep_getSecret collectionName secretName).
Definition ew_findSecrets (collectionName : string) (flt : FilterData) (op : FilterOperator)
  : M (Wrapper P) (Result * list Identifier) :=
  on_plugin (ep_findSecrets collectionName flt op).
Definition ew_accessSecret (secretName : string) (key : bytes)
  : M (Wrapper P) (Result * option (bytes * FilterData)) :=
  on_plugin (ep_accessSecret secretName key).

(** [setEncryptionKey] *)
Definition ew_setEncryptionKey (collectionName : string) (key : bytes) : M (Wrapper P) Result :=
  let* masterLocked := isMasterLocked in
  if (masterLocked : bool) then ret master_locked_error else
  let* result := on_plugin (ep_setEncryptionKey collectionName key) in
  ew_initialize "" ;;;
  ret result.

(** A collection is relocked after its creation unless it is kept unlocked. *)
Definition relock (metadata : CollectionMetadata) : bool :=
  (cm_usesDeviceLockKey metadata
   && negb (bool_decide (cm_unlockSemantic metadata = DeviceLockKeepUnlocked)))
  || (negb (cm_usesDeviceLockKey metadata)
      && negb (bool_decide (cm_unlockSemantic metadata = CustomLockKeepUnlocked))).

(** [createCollection] *)
Definition ew_createCollection (metadata : CollectionMetadata) (key : bytes)
  : M (Wrapper P) Result :=
  unless_locked (
    let* '(result, (_, existing)) :=
      on_db (collectionMetadata (cm_collectionName metadata) noCollectionMetadata false) in
    if (existing : bool) then
      ret (result_error CollectionAlreadyExistsError
             ("Collection " +:+ cm_collectionName metadata +:+ " already exists"))
    else if negb (ok result) then ret result else
    let* result :=
      transactionally "createCollection" (on_db (insertCollectionMetadata metadata))
        (on_plugin (ep_createCollection (cm_collectionName metadata) key)) in
    if negb (ok result) then ret result else
    (if relock metadata
     then on_plugin (ep_setEncryptionKey (cm_collectionName metadata) "") ;;; ret tt
     else ret tt) ;;;
    ret (result_of_code Succeeded)).

(** [removeCollection] *)
Definition ew_removeCollection (collectionName : string) : M (Wrapper P) Result :=
  unless_locked (
    transactionally "deleteCollection" (on_db (deleteCollectionMetadata collectionName))
      (on_plugin (ep_removeCollection collectionName))).

(** The collection must be unlocked. *)
Definition unless_collection_locked (collectionName message : string) (k : M (Wrapper P) Result)
  : M (Wrapper P) Result :=
  let* '(result, locked) := on_plugin (ep_isCollectionLocked collectionName false) in
  if (locked : bool) then ret (result_error CollectionIsLockedError message)
  else if negb (ok result) then ret result else k.

(** [setSecret] of a secret of a collection. *)
Definition ew_setSecret (metadata : SecretMetadata) (secret : bytes) (filterData : FilterData)
  : M (Wrapper P) Result :=
  unless_locked (
    unless_collection_locked (sm_collectionName metadata)
      ("Collection " +:+ sm_collectionName metadata +:+ " from plugin " +:+ pb_name +:+ " is locked") (
      transactionally "createCollection" (on_db (insertSecretMetadata metadata))
        (on_plugin (ep_setSecret (sm_collectionName metadata) (sm_secretName metadata)
                      secret filterData)))).

(** [removeSecret] of a secret of a collection. *)
Definition ew_removeSecret (collectionName secretName : string) : M (Wrapper P) Result :=
  unless_locked (
    unless_collection_locked collectionName
      ("Collection " +:+ collectionName +:+ " in plugin " +:+ pb_name +:+ " is locked") (
      transactionally "removeSecret" (on_db (deleteSecretMetadata collectionName secretName))
        (on_plugin (ep_removeSecret collectionName secretName)))).

(** [setSecret] of a standalone secret. *)
Definition ew_setStandaloneSecret (metadata : SecretMetadata) (secret : bytes)
  (filterData : FilterData) (key : bytes) : M (Wrapper P) Result :=
  unless_locked (
    let* '(result, (_, existing)) :=
      on_db (collectionMetadata (sm_collectionName metadata) noCollectionMetadata false) in
    if negb (ok result) then ret result
    else if negb existing then
      ret (result_error InvalidCollectionError
             ("Collection " +:+ sm_collectionName metadata +:+ " does not exist")) else
    let* '(result, (_, existing)) :=
      on_db (secretMetadata (sm_collectionName metadata) (sm_secretName metadata)
               noSecretMetadata false) in
    if negb (ok result) then ret result
    else if (existing : bool) then
      ret (result_error SecretAlreadyExistsError "Cannot overwrite existing secret") else
    transactionally "removeSecret" (on_db (insertSecretMetadata metadata))
      (on_plugin (ep_setStandaloneSecret (sm_secretName metadata) secret filterData key))).
End encrypted_storage_wrapper.
