(* ===== verification/WrapperSpec.v ===== *)
(** Correctness of the storage plugin wrapper: metadata and plugin data change
    together or not at all, and stay synchronized. *)
From S2P Require Import Prelude Result Sqlite Transactions MetadataDb PluginApi MetadataSync.
From S2P Require Import PluginWrapper.

(** * Steps of a wrapper operation *)
Section steps.
  Context {P : Type} `{PluginBase P}.
  Implicit Types (w : Wrapper P) (t : MetaTables).

(** The metadata database is between transactions, and [w'] differs from [w]
    at most in it. *)
Definition settled t w : Prop := idle t (m_metadataDb w).

Definition healthy w : Prop := good (m_metadataDb w).

Definition same_plugin w w' : Prop :=
  m_plugin w' = m_plugin w ∧ m_initialized w' = m_initialized w.

Lemma isLocked_idle_spec b t (db : MetaDb) :
  idle t db →
  wp (isLocked b) (λ '(r, locked) db', idle t db'
    ∧ (good db → good db' ∧ ok r = true ∧ locked = false)) db.
Proof.
  intros Hi. unfold isLocked. apply wp_bind, wp_gets. unfold isOpen.
  pose proof Hi as (->&_). simpl. apply wp_bind. eapply wp_mono; [apply prepare_spec|].
  intros [q txt] db1 [Hsame Hg1]. pose proof (same_idle _ _ _ Hi Hsame) as Hi1.
  unfold isEmpty. case_bool_decide; simpl.
  2: { apply wp_ret. split; [done|]. intros Hg. by destruct (Hg1 Hg) as (_&_&?). }
  apply wp_bind. eapply wp_mono; [by eapply select_idle_spec|].
  intros [r txt'] db2 (Hi2&Hr&Hg2). destruct r; apply wp_ret; (split; [done|]); intros Hg;
    destruct (Hg1 Hg) as (?&->&_), Hg2 as [? Hx]; auto. by specialize (Hx eq_refl).
Qed.

Lemma isMasterLocked_spec t w :
  settled t w →
  wp isMasterLocked (λ b w', settled t w' ∧ same_plugin w w'
    ∧ (healthy w → healthy w' ∧ b = false)) w.
Proof.
  intros Hs. unfold isMasterLocked. apply wp_bind, wp_zoom.
  eapply wp_mono; [by eapply isLocked_idle_spec|]. intros [r locked] db' [Hi Hg].
  destruct (ok r) eqn:Hr; apply wp_ret; (split_and!; [done..|]); intros Hh;
    destruct (Hg Hh) as (?&?&?); by try congruence.
Qed.

(** The outcome of an operation that modifies the metadata by [run]: on success
    both changes are done (unless the commit itself failed); on failure the
    metadata is as before. *)
Definition outcome (run : MetaTables → option (MetaTables * unit)) t (r : Result) (db : MetaDb) : Prop :=
  if ok r then ∃ t', run t = Some (t', tt) ∧ (idle t' db ∨ commit_failed t t' db)
  else idle t db ∨ (leaked t db ∧ errorCode r = DatabaseTransactionError).

(** The transaction around a metadata change and a change of the plugin, for
    any plugin and whatever the engine does. *)
Lemma transactionally_spec op st what run (f : M P Result) t w :
  settled t w →
  wp (transactionally op (on_db (db_update st what run)) (on_plugin f))
     (λ r w', outcome run t r (m_metadataDb w') ∧ m_initialized w' = m_initialized w) w.
Proof.
  intros Hs. unfold transactionally, outcome. apply wp_bind, wp_zoom.
  eapply wp_mono; [by eapply begin_spec|]. intros [|] db1 [Hl _]; simpl.
  2: { apply wp_ret. split; [|done]. rewrite ok_error by done. by right. }
  apply wp_bind, wp_zoom. eapply wp_mono; [by eapply db_update_spec|]. simpl.
  intros r db2 [Hr _]. destruct (ok r) eqn:Hok; simpl.
  2: { apply wp_bind, wp_zoom. eapply wp_mono; [apply rollback_spec, Hr|].
       intros _ db3 [Hi _]. apply wp_ret. rewrite Hok. split; [by left|done]. }
  destruct Hr as (t'&Hrun&Hl2). apply wp_bind, wp_zoom. simpl.
  unfold wp at 1. simpl. destruct (f (m_plugin w)) as [r' p']; simpl.
  destruct (ok r') eqn:Hok'; simpl.
  - apply wp_bind, wp_zoom. eapply wp_mono; [by eapply commit_spec|]. simpl.
    intros b db3 [Hc _]. apply wp_ret. split; [|done]. rewrite ok_succeeded.
    exists t'. split; [done|]. destruct b; auto.
  - apply wp_bind, wp_zoom. eapply wp_mono; [by eapply rollback_spec, live_aborted|].
    intros _ db3 [Hi _]. apply wp_ret. rewrite Hok'. split; [by left|done].
Qed.

(** The same transaction in a good environment, around a plugin operation [f]
    of known effect. *)
Lemma transactionally_good op st what run (f : M P Result) (Q : Result → P → Prop) t w :
  settled t w → healthy w → wp f Q (m_plugin w) →
  wp (transactionally op (on_db (db_update st what run)) (on_plugin f))
     (λ r w', healthy w' ∧ m_initialized w' = m_initialized w ∧
        match run t with
        | None => ok r = false ∧ settled t w' ∧ m_plugin w' = m_plugin w
        | Some (t', _) => ∃ r', Q r' (m_plugin w') ∧ ok r = ok r'
                          ∧ settled (if ok r' then t' else t) w'
        end) w.
Proof.
  intros Hs Hh Hf. unfold transactionally. apply wp_bind, wp_zoom.
  eapply wp_mono; [by eapply begin_spec|]. intros b db1 [Hl Hg]. destruct (Hg Hh) as [Hg1 ->].
  simpl. apply wp_bind, wp_zoom. eapply wp_mono; [by eapply db_update_spec|]. simpl.
  intros r db2 [Hr Hg2]. destruct (Hg2 Hg1) as [Hg2' Hn]. destruct (ok r) eqn:Hok; simpl.
  2: { destruct (Hn eq_refl) as [-> Hl2]. apply wp_bind, wp_zoom.
       eapply wp_mono; [by eapply rollback_spec, live_aborted|].
       intros _ db3 [Hi Hg3]. apply wp_ret. split_and!; [by apply Hg3|done..]. }
  destruct Hr as (t'&->&Hl2). apply wp_bind, wp_zoom. simpl. eapply wp_mono; [exact Hf|].
  intros r' p' HQ. destruct (ok r') eqn:Hok'; simpl.
  - apply wp_bind, wp_zoom. eapply wp_mono; [by eapply commit_spec|]. simpl.
    intros b db3 [Hc Hg3]. destruct (Hg3 Hg2') as [? ->]. apply wp_ret.
    split_and!; [done..|]. exists r'. rewrite Hok'. done.
  - apply wp_bind, wp_zoom. eapply wp_mono; [by eapply rollback_spec, live_aborted|].
    intros _ db3 [Hi Hg3]. apply wp_ret. split_and!; [by apply Hg3|done|]. exists r'.
    rewrite Hok'. done.
Qed.

(** The guards in front of an operation. *)
Lemma unless_locked_spec k t (Q : Result → Wrapper P → Prop) w :
  settled t w →
  (∀ r w', ok r = false → errorCode r = SecretsPluginIsLockedError →
     settled t w' → m_plugin w' = m_plugin w → Q r w') →
  (∀ w', settled t w' → same_plugin w w' → pb_isLocked (m_plugin w) = false → wp k Q w') →
  wp (unless_locked k) Q w.
Proof.
  intros Hs Hlocked Hk. unfold unless_locked. apply wp_bind, wp_gets. unfold wrapper_isLocked.
  destruct (pb_isLocked (m_plugin w)) eqn:Hl; [by apply wp_ret, Hlocked|].
  apply wp_bind. eapply wp_mono; [by eapply isMasterLocked_spec|].
  intros [|] w' (?&[? ?]&_); [by apply wp_ret, Hlocked|]. by apply Hk.
Qed.

Lemma unless_locked_good k t (Q : Result → Wrapper P → Prop) w :
  settled t w → healthy w → pb_isLocked (m_plugin w) = false →
  (∀ w', settled t w' → healthy w' → same_plugin w w' → wp k Q w') →
  wp (unless_locked k) Q w.
Proof.
  intros Hs Hh Hl Hk. unfold unless_locked. apply wp_bind, wp_gets. unfold wrapper_isLocked.
  rewrite Hl. apply wp_bind. eapply wp_mono; [by eapply isMasterLocked_spec|].
  intros b w' (?&?&Hg). destruct (Hg Hh) as [? ->]. by apply Hk.
Qed.
End steps.

(** * The requests a storage plugin wrapper serves *)
Inductive storage_request :=
  | CreateCollection (metadata : CollectionMetadata)
  | RemoveCollection (collectionName : string)
  | SetSecret (metadata : SecretMetadata) (secret : bytes) (filterData : FilterData)
  | RemoveSecret (collectionName secretName : string).

Section requests.
  Context {P : Type} `{StoragePlugin P}.

Definition run_request (req : storage_request) : M (Wrapper P) Result :=
  match req with
  | CreateCollection md => sw_createCollection md
  | RemoveCollection c => sw_removeCollection c
  | SetSecret md x fd => sw_setSecret md x fd
  | RemoveSecret c s => sw_removeSecret c s
  end.

(** What a request does to the metadata. *)
Definition request_sql (req : storage_request) : MetaTables → option (MetaTables * unit) :=
  match req with
  | CreateCollection md => sql_insert_collection md
  | RemoveCollection c => sql_delete_collection c
  | SetSecret md _ _ => sql_insert_secret md
  | RemoveSecret c s => sql_delete_secret c s
  end.

(** The outcome of a query that guards an operation. *)
Lemma db_query_settled {A} (q : M MetaDb A) t (w : Wrapper P) (Q : A → Wrapper P → Prop) :
  wp q (λ a db', idle t db' ∧ (good (m_metadataDb w) → good db')) (m_metadataDb w) →
  (∀ a w', settled t w' → same_plugin w w' → (healthy w → healthy w') → Q a w') →
  wp (on_db q) Q w.
Proof. intros Hq HQ. apply wp_zoom. eapply wp_mono; [exact Hq|]. intros a db' []. by apply HQ. Qed.

Lemma collectionMetadata_idle_spec c md0 b t (db : MetaDb) :
  idle t db →
  wp (collectionMetadata c md0 b) (λ '(r, (_, existing)) db', idle t db'
    ∧ (ok r = true → existing = bool_decide (is_Some (collections t !! c)))
    ∧ (good db → good db' ∧ ok r = true)) db.
Proof.
  intros Hi. unfold collectionMetadata. apply wp_bind.
  eapply wp_mono; [by eapply db_select_idle_spec|]. intros [r x] db' (Hi'&Hx&Hg). apply wp_ret.
  destruct (ok r); subst x; simpl; [destruct (collections t !! c)|]; by split_and!.
Qed.

Lemma secretMetadata_idle_spec c s md0 b t (db : MetaDb) :
  idle t db →
  wp (secretMetadata c s md0 b) (λ '(r, (_, existing)) db', idle t db'
    ∧ (ok r = true → existing = bool_decide (is_Some (secrets t !! (c, s))))
    ∧ (good db → good db' ∧ ok r = true)) db.
Proof.
  intros Hi. unfold secretMetadata. apply wp_bind.
  eapply wp_mono; [by eapply db_select_idle_spec|]. intros [r x] db' (Hi'&Hx&Hg). apply wp_ret.
  destruct (ok r); subst x; simpl; [destruct (secrets t !! (c, s))|]; by split_and!.
Qed.

(** Every request, with any plugin and whatever the engine does, either
    succeeds and has changed the metadata as it says, or fails and has not. *)
Lemma run_request_outcome req t (w : Wrapper P) :
  settled t w →
  wp (run_request req) (λ r w', outcome (request_sql req) t r (m_metadataDb w')) w.
Proof.
  intros Hs. destruct req as [md|c|md x fd|c s]; simpl.
  all: eapply unless_locked_spec; [done| |].
  all: try (intros r w' Hr _ Hs' _; unfold outcome; rewrite Hr; by left).
  all: intros w1 Hs1 _ _.
  - apply wp_bind. apply wp_zoom. eapply wp_mono; [by eapply collectionMetadata_idle_spec|].
    intros [r [md' existing]] db' (Hi&_&_). destruct existing.
    { apply wp_ret. unfold outcome. rewrite ok_error by done. by left. }
    destruct (ok r) eqn:Hr; simpl; [|apply wp_ret; unfold outcome; rewrite Hr; by left].
    eapply wp_mono; [by eapply transactionally_spec|]. by intros ?? [].
  - eapply wp_mono; [by eapply transactionally_spec|]. by intros ?? [].
  - apply wp_bind, wp_zoom. eapply wp_mono; [by eapply collectionMetadata_idle_spec|].
    intros [r [md' existing]] db' (Hi&_&_).
    destruct (ok r) eqn:Hr; simpl; [|apply wp_ret; unfold outcome; rewrite Hr; by left].
    destruct existing; simpl; [|apply wp_ret; unfold outcome; rewrite ok_error by done; by left].
    apply wp_bind, wp_zoom. eapply wp_mono; [by eapply secretMetadata_idle_spec|].
    intros [r2 [md2 existing]] db2 (Hi2&_&_).
    destruct (ok r2) eqn:Hr2; simpl; [|apply wp_ret; unfold outcome; rewrite Hr2; by left].
    destruct existing; simpl; [apply wp_ret; unfold outcome; rewrite ok_error by done; by left|].
    eapply wp_mono; [by eapply transactionally_spec|]. by intros ?? [].
  - eapply wp_mono; [by eapply transactionally_spec|]. by intros ?? [].
Qed.
End requests.

(** * Refinement: the wrapper implements an abstract store with metadata *)
Section refinement.
  Context {P : Type} `{StoragePluginSpec P}.
  Implicit Types (t : MetaTables) (st : Store) (w : Wrapper P).

(** When a request succeeds. *)
Definition spec_ok (req : storage_request) t st : bool :=
  match req with
  | CreateCollection md =>
      bool_decide (collections t !! cm_collectionName md = None
                   ∧ managed (cm_collectionName md)
                   ∧ cm_collectionName md ∉ st_collections st)
  | RemoveCollection c => bool_decide (managed c)
  | SetSecret md _ _ =>
      bool_decide (is_Some (collections t !! sm_collectionName md)
                   ∧ secrets t !! (sm_collectionName md, sm_secretName md) = None
                   ∧ sm_secretName md ≠ "" ∧ has_collection (sm_collectionName md) st)
  | RemoveSecret c s => bool_decide (s ≠ "" ∧ c ≠ "")
  end.

(** What it then does to the plugin's store. *)
Definition spec_store (req : storage_request) st : Store :=
  match req with
  | CreateCollection md => store_create (cm_collectionName md) st
  | RemoveCollection c => store_remove c st
  | SetSecret md x fd => store_set (sm_collectionName md) (sm_secretName md) x fd st
  | RemoveSecret c s => store_delete c s st
  end.

(** One request on the pair of metadata and store. *)
Definition spec_step (req : storage_request) (ts : MetaTables * Store) : bool * (MetaTables * Store) :=
  if spec_ok req ts.1 ts.2 then
    (true, (default ts.1 (fst <$> request_sql req ts.1), spec_store req ts.2))
  else (false, ts).

(** The wrapper [w] represents the pair [ts], in a good environment. *)
Definition represents (w : Wrapper P) (ts : MetaTables * Store) : Prop :=
  settled ts.1 w ∧ healthy w ∧ ready (m_plugin w) ∧ store (m_plugin w) = ts.2.

(** [w] served [req], given its result [r]. *)
Definition served (req : storage_request) (ts : MetaTables * Store) (b : bool)
  (r : Result) (w' : Wrapper P) : Prop :=
  ok r = (spec_step req ts).1 ∧ represents w' (spec_step req ts).2 ∧ m_initialized w' = b.

(** Closing a request that was refused before its transaction. *)
Lemma served_refused req t st b r w :
  spec_ok req t st = false → ok r = false → represents w (t, st) → m_initialized w = b →
  served req (t, st) b r w.
Proof. intros Hs Hr Hw Hb. unfold served, spec_step; simpl. by rewrite Hs. Qed.

(** Closing a request after its transaction with the plugin. *)
Lemma served_transaction req t st (D : Prop) `{Decision D} b r w t' :
  request_sql req t = Some (t', tt) → spec_ok req t st = bool_decide D →
  m_initialized w = b → healthy w → ready (m_plugin w) →
  (∃ r', (if decide D then ok r' = true ∧ store (m_plugin w) = spec_store req st
          else ok r' = false ∧ store (m_plugin w) = st)
     ∧ ok r = ok r' ∧ settled (if ok r' then t' else t) w) →
  served req (t, st) b r w.
Proof.
  intros Hsql Hok Hb Hh Hp (r'&Hlaw&Hr&Hset). unfold served, spec_step; simpl.
  rewrite Hok, Hr, Hsql. case_decide as Hd; destruct Hlaw as [Hr' Hst]; rewrite Hr' in *.
  - by rewrite bool_decide_true.
  - by rewrite bool_decide_false.
Qed.

Lemma create_refines md w t :
  settled t w → healthy w → ready (m_plugin w) →
  wp (sw_createCollection md)
     (served (CreateCollection md) (t, store (m_plugin w)) (m_initialized w)) w.
Proof.
  intros Hs Hh Hp. eapply unless_locked_good; [done..|by apply ready_unlocked|].
  intros w1 Hs1 Hh1 [Hp1 <-]. rewrite <-Hp1 in *.
  apply wp_bind, wp_zoom. eapply wp_mono; [by eapply collectionMetadata_idle_spec|].
  intros [r [md' existing]] db' (Hi&Hex&Hg). destruct (Hg Hh1) as [Hgood Hr]. rewrite (Hex Hr).
  case_bool_decide as Hc.
  { apply wp_ret, served_refused; [|by apply ok_error|done..]. simpl.
    apply bool_decide_eq_false. intros [Hn _]. rewrite Hn in Hc. by destruct Hc. }
  rewrite Hr; simpl. apply eq_None_not_Some in Hc.
  eapply wp_mono; [eapply transactionally_good; [done..|]; by apply createCollection_law|].
  intros r' w' (Hh'&Hin'&Hm). unfold sql_insert_collection in Hm. rewrite Hc in Hm.
  destruct Hm as (r''&[Hp' Hlaw]&Hm). eapply served_transaction; [..|by eauto]; try done.
  - simpl. unfold sql_insert_collection. by rewrite Hc.
  - apply bool_decide_ext. tauto.
Qed.

Lemma remove_refines c w t :
  settled t w → healthy w → ready (m_plugin w) →
  wp (sw_removeCollection c)
     (served (RemoveCollection c) (t, store (m_plugin w)) (m_initialized w)) w.
Proof.
  intros Hs Hh Hp. eapply unless_locked_good; [done..|by apply ready_unlocked|].
  intros w1 Hs1 Hh1 [Hp1 <-]. rewrite <-Hp1 in *.
  eapply wp_mono; [eapply transactionally_good; [done..|]; by apply removeCollection_law|].
  intros r' w' (Hh'&Hin'&(r''&[Hp' Hlaw]&Hm)). eapply served_transaction; [..|by eauto]; done.
Qed.

Lemma set_refines md x fd w t :
  settled t w → healthy w → ready (m_plugin w) →
  wp (sw_setSecret md x fd)
     (served (SetSecret md x fd) (t, store (m_plugin w)) (m_initialized w)) w.
Proof.
  intros Hs Hh Hp. eapply unless_locked_good; [done..|by apply ready_unlocked|].
  intros w1 Hs1 Hh1 [Hp1 <-]. rewrite <-Hp1 in *.
  apply wp_bind, wp_zoom. eapply wp_mono; [by eapply collectionMetadata_idle_spec|].
  intros [r [md' existing]] db' (Hi&Hex&Hg). destruct (Hg Hh1) as [Hgood Hr].
  rewrite (Hex Hr), Hr; simpl. case_bool_decide as Hc.
  2: { apply wp_ret, served_refused; [|by apply ok_error|done..]. simpl.
       apply bool_decide_eq_false. tauto. }
  apply wp_bind, wp_zoom. eapply wp_mono; [by eapply secretMetadata_idle_spec|].
  intros [r2 [md2 existing2]] db2 (Hi2&Hex2&Hg2). destruct (Hg2 Hgood) as [Hgood2 Hr2].
  rewrite (Hex2 Hr2), Hr2; simpl. case_bool_decide as Hsec.
  { apply wp_ret, served_refused; [|by apply ok_error|done..]. simpl.
    apply bool_decide_eq_false. intros (_&Hn&_). rewrite Hn in Hsec. by destruct Hsec. }
  apply eq_None_not_Some in Hsec.
  eapply wp_mono; [eapply transactionally_good; [done..|]; by apply setSecret_law|].
  assert (∃ t', sql_insert_secret md t = Some (t', tt)) as [t' Hsql].
  { unfold sql_insert_secret. rewrite Hsec. destruct Hc as [? ->]. eauto. }
  intros r' w' (Hh'&Hin'&Hm). rewrite Hsql in Hm. destruct Hm as (r''&[Hp' Hlaw]&Hm).
  eapply served_transaction; [..|by eauto]; try done. simpl. apply bool_decide_ext. tauto.
Qed.

Lemma delete_refines c s w t :
  settled t w → healthy w → ready (m_plugin w) →
  wp (sw_removeSecret c s)
     (served (RemoveSecret c s) (t, store (m_plugin w)) (m_initialized w)) w.
Proof.
  intros Hs Hh Hp. eapply unless_locked_good; [done..|by apply ready_unlocked|].
  intros w1 Hs1 Hh1 [Hp1 <-]. rewrite <-Hp1 in *.
  eapply wp_mono; [eapply transactionally_good; [done..|]; by apply removeSecret_law|].
  intros r' w' (Hh'&Hin'&(r''&[Hp' Hlaw]&Hm)). eapply served_transaction; [..|by eauto]; done.
Qed.

(** The wrapper simulates the abstract step, request by request. *)
Lemma run_request_refines req w ts :
  represents w ts → wp (run_request req) (served req ts (m_initialized w)) w.
Proof.
  destruct ts as [t st]. intros (Hs&Hh&Hp&Hst). simpl in *. subst st.
  destruct req; [by apply create_refines|by apply remove_refines|by apply set_refines|
                 by apply delete_refines].
Qed.

(** * Metadata and plugin stay synchronized *)

(** For every managed name, the metadata and the plugin agree on which
    collections and secrets exist; and the metadata satisfies its foreign key. *)
Definition in_sync (ts : MetaTables * Store) : Prop :=
  foreign_key ts.1
  ∧ (∀ c, managed c → is_Some (collections ts.1 !! c) ↔ c ∈ st_collections ts.2)
  ∧ (∀ c s, managed c → is_Some (secrets ts.1 !! (c, s)) ↔ is_Some (st_secrets ts.2 !! (c, s))).

Lemma request_sql_foreign_key req t t' :
  foreign_key t → request_sql req t = Some (t', tt) → foreign_key t'.
Proof.
  destruct req; simpl; eauto using foreign_key_insert_collection, foreign_key_delete_collection,
    foreign_key_insert_secret, foreign_key_delete_secret.
Qed.

Lemma spec_ok_sql req t st :
  spec_ok req t st = true → ∃ t', request_sql req t = Some (t', tt).
Proof.
  destruct req as [md|c|md x fd|c s]; simpl; eauto; rewrite bool_decide_eq_true;
    unfold sql_insert_collection, sql_insert_secret.
  - intros [-> _]. eauto.
  - intros ([? ->]&->&_). eauto.
Qed.

Lemma spec_step_sync req ts : in_sync ts → in_sync (spec_step req ts).2.
Proof.
  destruct ts as [t st]. intros (Hfk&Hc&Hs). unfold spec_step; simpl.
  destruct (spec_ok req t st) eqn:Hok; [|done]. destruct (spec_ok_sql _ _ _ Hok) as [t' Ht'].
  rewrite Ht'; simpl. split; [by eapply request_sql_foreign_key|]. simpl in *.
  destruct req as [md|c|md x fd|c s]; simpl in *.
  - apply sql_insert_collection_Some in Ht' as [_ ->]. simpl. split; [|done]. intros c Hm.
    rewrite lookup_insert_is_Some', elem_of_union, elem_of_singleton. rewrite Hc by done. naive_solver.
  - injection Ht' as <-. simpl. split.
    + intros c' Hm. rewrite lookup_delete_is_Some, elem_of_difference, elem_of_singleton.
      rewrite Hc by done. naive_solver.
    + intros c' s Hm. pose proof (Hs c' s Hm) as Hs'. unfold is_Some in *.
      setoid_rewrite map_lookup_filter_Some. simpl. naive_solver.
  - apply sql_insert_secret_Some in Ht' as (_&_&->). simpl. split; [done|]. intros c s Hm.
    rewrite !lookup_insert_is_Some'. rewrite Hs by done. done.
  - injection Ht' as <-. simpl. split; [done|]. intros c' s' Hm.
    rewrite !lookup_delete_is_Some. rewrite Hs by done. done.
Qed.

(** Any sequence of requests. *)
Fixpoint run_requests (reqs : list storage_request) : M (Wrapper P) (list Result) :=
  match reqs with
  | [] => ret []
  | req :: reqs' =>
      let* r := run_request req in
      let* rs := run_requests reqs' in
      ret (r :: rs)
  end.

Fixpoint spec_run (reqs : list storage_request) (ts : MetaTables * Store)
  : list bool * (MetaTables * Store) :=
  match reqs with
  | [] => ([], ts)
  | req :: reqs' =>
      let '(b, ts1) := spec_step req ts in
      let '(bs, ts2) := spec_run reqs' ts1 in (b :: bs, ts2)
  end.

Lemma run_requests_refine reqs w ts :
  represents w ts →
  wp (run_requests reqs) (λ rs w', ok <$> rs = (spec_run reqs ts).1
    ∧ represents w' (spec_run reqs ts).2) w.
Proof.
  revert w ts. induction reqs as [|req reqs IH]; intros w ts Hw; simpl; [by apply wp_ret|].
  apply wp_bind. eapply wp_mono; [by apply run_request_refines|].
  intros r w1 (Hr&Hw1&_). apply wp_bind. destruct (spec_step req ts) as [b ts1]; simpl in *.
  eapply wp_mono; [apply (IH _ ts1 Hw1)|]. intros rs w2 [Hrs Hw2]. apply wp_ret.
  destruct (spec_run reqs ts1) as [bs ts2]; simpl in *. split; [by f_equal|done].
Qed.

Lemma spec_run_sync reqs ts : in_sync ts → in_sync (spec_run reqs ts).2.
Proof.
  revert ts. induction reqs as [|req reqs IH]; intros ts Hs; simpl; [done|].
  pose proof (spec_step_sync req ts Hs) as Hs1. destruct (spec_step req ts) as [b ts1].
  specialize (IH ts1 Hs1). by destruct (spec_run reqs ts1).
Qed.
End refinement.

(** * [initialize] synchronizes the metadata with the plugin *)
Section initialize.
  Context (cfg : MetadataConfig) {P : Type} `{StoragePluginSpec P}.
  Implicit Types (w : Wrapper P).

Lemma foldl_names_keys (names : list string) (m : gmap string bool) c :
  is_Some (foldl (λ m cname, <[cname := false]> m) m names !! c) ↔ c ∈ names ∨ is_Some (m !! c).
Proof.
  revert m. induction names as [|c' names IH]; intros m; simpl.
  { rewrite elem_of_nil. tauto. }
  rewrite IH, elem_of_cons, lookup_insert_is_Some'. naive_solver.
Qed.

(** [sw_collectionNames]: the names of the plugin, sorted. *)
Lemma sw_collectionNames_spec w :
  ready (m_plugin w) →
  wp sw_collectionNames (λ '(r, names) w', ok r = true ∧ ready (m_plugin w')
    ∧ store (m_plugin w') = store (m_plugin w) ∧ m_metadataDb w' = m_metadataDb w
    ∧ (∀ c, c ∈ qmap_keys names ↔ c ∈ st_collections (store (m_plugin w)))) w.
Proof.
  intros Hp. unfold sw_collectionNames. apply wp_bind, wp_zoom.
  eapply wp_mono; [by eapply collectionNames_law|]. intros [r names] p' (?&?&?&_&Hn).
  apply wp_ret. split_and!; [done..|]. intros c.
  rewrite elem_of_qmap_keys, foldl_names_keys, Hn, lookup_empty. split; [|by left].
  by intros [?|[]].
Qed.

Lemma sw_identifiers_spec cnames w :
  ready (m_plugin w) → NoDup cnames →
  wp (sw_identifiers cnames) (λ o w', ready (m_plugin w')
    ∧ store (m_plugin w') = store (m_plugin w) ∧ m_metadataDb w' = m_metadataDb w
    ∧ ∃ ids, o = Some ids ∧ NoDup (pairs ids)
      ∧ ∀ c s, (c, s) ∈ pairs ids ↔
          c ∈ cnames ∧ is_Some (st_secrets (store (m_plugin w)) !! (c, s))) w.
Proof.
  intros Hp Hnd. unfold sw_identifiers.
  pose (I := λ rest (o : option (list Identifier)) w', ready (m_plugin w')
    ∧ store (m_plugin w') = store (m_plugin w) ∧ m_metadataDb w' = m_metadataDb w
    ∧ ∃ pre ids, cnames = pre ++ rest ∧ o = Some ids ∧ NoDup (pairs ids)
      ∧ ∀ c s, (c, s) ∈ pairs ids ↔
          c ∈ pre ∧ is_Some (st_secrets (store (m_plugin w)) !! (c, s))).
  eapply wp_mono; [apply (wp_foldM _ I)|].
  - split_and!; [done..|]. exists [], []. split_and!; [done|done|apply NoDup_nil_2|].
    intros c s. rewrite elem_of_nil. unfold pairs; simpl. rewrite elem_of_nil. tauto.
  - intros c rest o w1 (Hp1&Hst1&Hdb1&pre&ids&->&->&Hnd1&Hids). apply wp_bind, wp_zoom.
    eapply wp_mono; [by eapply secretNames_law|].
    intros [r snames] p' (->&Hp'&Hst'&Hsnd&Hsn). apply wp_ret.
    split_and!; [done|by simpl; rewrite Hst'|done|]. rewrite Hst1 in Hsn.
    eexists (pre ++ [c]), _. split_and!; [by rewrite <-app_assoc|done|..];
      unfold pairs in *; rewrite fmap_app, <-list_fmap_compose.
    + apply NoDup_app. split_and!; [done| |].
      * intros [c' s'] [Hc' _]%Hids Hin. apply list_elem_of_fmap in Hin as (s2&[= -> ->]&_).
        apply NoDup_app in Hnd as (_&Hnd&_). apply (Hnd c Hc'). by left.
      * apply NoDup_fmap_2; [by intros ?? [=]|done].
    + intros c' s'. rewrite elem_of_app, Hids, elem_of_app, list_elem_of_singleton, list_elem_of_fmap.
      simpl. setoid_rewrite Hsn. split.
      * intros [[? ?]|(s2&[= -> ->]&?)]; auto.
      * intros [[?| ->] ?]; [by left|]. right. by exists s'.
  - intros o w' (?&?&?&pre&ids&->&->&?&?). split_and!; [done..|]. exists ids.
    rewrite app_nil_r. done.
Qed.

(** The metadata an uninitialized wrapper ends up with: every collection and
    secret of the plugin keeps its metadata or is marked imported, and nothing
    else remains of the managed names. *)
Definition synchronized t st t' : Prop :=
  in_sync (t', st)
  ∧ (∀ c, c ∈ st_collections st →
       collections t' !! c = Some (default (collection_values (importedCollection cfg c))
                                     (collections t !! c)))
  ∧ (∀ c s, managed c → is_Some (st_secrets st !! (c, s)) →
       secrets t' !! (c, s) = Some (default (secret_values (importedSecret cfg c s))
                                      (secrets t !! (c, s))))
  ∧ (∀ c, ¬ managed c → collections t' !! c = collections t !! c)
  ∧ (∀ c s, ¬ managed c → secrets t' !! (c, s) = secrets t !! (c, s)).

Lemma synchronized_intro t st names ids t' (p : P) :
  foreign_key t → ready p → store p = st →
  (∀ c, c ∈ names ↔ c ∈ st_collections st) →
  (∀ c s, (c, s) ∈ pairs ids ↔ c ∈ names ∧ is_Some (st_secrets st !! (c, s))) →
  secrets_synced cfg ids [] (sync_collections cfg names t) t' →
  synchronized t st t'.
Proof.
  intros Hfk Hp <- Hnames Hids [Hcol Hsec].
  assert (Forall managed names) as Hm.
  { apply Forall_forall. intros c Hc%Hnames. by eapply ready_managed. }
  assert (∀ c s, managed c → is_Some (st_secrets (store p) !! (c, s)) → c ∈ names) as Hin.
  { intros c s Hmc Hs%(ready_secret p) ; [|done]. apply Hnames. destruct Hs as [?| ->]; done. }
  assert (∀ c s, secrets (sync_collections cfg names t) !! (c, s) =
    if decide (managed c ∧ c ∉ names) then None else secrets t !! (c, s)) as Hss.
  { intros. by apply lookup_sync_collections_secrets. }
  split; [|split_and!].
  - split_and!; simpl.
    + eapply foreign_key_synced; [by apply foreign_key_sync_collections| |by split].
      intros c s [Hc _]%Hids. rewrite lookup_sync_collections, decide_True, decide_True
        by (done || by eapply Forall_forall in Hm). eauto.
    + intros c Hmc. rewrite Hcol, lookup_sync_collections, decide_True, <-Hnames by done.
      case_decide; split; try done; by intros [].
    + intros c s Hmc. rewrite Hsec. case_decide as Hp'; [rewrite Hids in Hp'; naive_solver|].
      rewrite decide_True by (split; [done|apply not_elem_of_nil]).
      split; [by intros []|]. intros Hs. destruct Hp'. apply Hids. eauto.
  - intros c Hc. rewrite Hcol, lookup_sync_collections by done.
    rewrite decide_True by (by eapply ready_managed). by rewrite decide_True by (by apply Hnames).
  - intros c s Hmc Hs. rewrite Hsec, decide_True by (apply Hids; eauto).
    rewrite Hss, decide_False; [done|]. intros [_ Hn]. eauto.
  - intros c Hmc. by rewrite Hcol, lookup_sync_collections, decide_False by done.
  - intros c s Hmc. rewrite Hsec, Hss. rewrite !decide_False; [done|tauto..|].
    intros [Hc _]%Hids. destruct Hmc. by eapply Forall_forall in Hm.
Qed.

Lemma sw_initialize_good key t w :
  settled t w → healthy w → ready (m_plugin w) → foreign_key t → m_initialized w = false →
  wp (sw_initialize cfg key) (λ b w', b = true ∧ m_initialized w' = true
    ∧ ∃ t', represents w' (t', store (m_plugin w))
        ∧ synchronized t (store (m_plugin w)) t') w.
Proof.
  intros Hs Hh Hp Hfk Hin. unfold sw_initialize. apply wp_bind, wp_gets. simpl. rewrite Hin.
  apply wp_bind. unfold open_metadata. apply wp_bind, wp_zoom, wp_gets. unfold isOpen.
  pose proof Hs as (->&_). apply wp_ret. simpl. apply wp_bind, wp_gets. unfold wrapper_isLocked; simpl.
  rewrite ready_unlocked by done. apply wp_bind.
  eapply wp_mono; [by apply sw_collectionNames_spec|].
  intros [r names] w1 (->&Hp1&Hst1&Hdb1&Hn). simpl in *. apply wp_bind.
  eapply wp_mono; [apply sw_identifiers_spec; [done|apply NoDup_qmap_keys]|].
  intros o w2 (Hp2&Hst2&Hdb2&ids&->&Hnd&Hids). rewrite Hst1 in Hids, Hst2.
  rewrite Hdb1 in Hdb2. apply wp_bind, wp_zoom. rewrite Hdb2.
  eapply wp_mono; [by eapply begin_spec|]. intros b db3 [Hl Hg]. destruct (Hg Hh) as [Hg3 ->]. simpl.
  assert (Forall managed (qmap_keys names)) as Hm.
  { apply Forall_forall. intros c Hc%Hn. by apply (ready_managed (m_plugin w)). }
  apply wp_bind, wp_zoom. eapply wp_mono.
  { eapply initializeCollections_good; [done|done|apply NoDup_qmap_keys|done]. }
  intros b db4 (->&Hg4&Hl4). apply wp_bind, wp_zoom. simpl. eapply wp_mono.
  { eapply initializeSecrets_good; [done|done|by apply foreign_key_sync_collections|done|].
    intros c s [Hc Hsec]%Hids. split; [by eapply Forall_forall in Hm|].
    rewrite lookup_sync_collections, decide_True, decide_True by
      (done || by eapply Forall_forall in Hm). eauto. }
  intros b db5 (->&Hg5&t'&Hl5&Hsync). apply wp_bind, wp_zoom. simpl.
  eapply wp_mono; [by eapply commit_spec|]. intros b db6 [Hi6 Hg6]. destruct (Hg6 Hg5) as [? ->].
  apply wp_bind, wp_modify, wp_ret. split_and!; [done..|]. exists t'. split; [done|].
  by eapply synchronized_intro.
Qed.
End initialize.

(** * Correctness of the wrapper of encrypted storage plugins: its operations are
    atomic with respect to the metadata, locked plugins and collections are
    refused, and new collections are relocked. *)

(** The modifying requests. *)
Inductive encrypted_request :=
  | ECreateCollection (metadata : CollectionMetadata) (key : bytes)
  | ERemoveCollection (collectionName : string)
  | ESetSecret (metadata : SecretMetadata) (secret : bytes) (filterData : FilterData)
  | ERemoveSecret (collectionName secretName : string)
  | ESetStandaloneSecret (metadata : SecretMetadata) (secret : bytes) (filterData : FilterData)
      (key : bytes).

Section encrypted.
  Context {P : Type} `{EncryptedStoragePlugin P}.
  Implicit Types (t : MetaTables) (w : Wrapper P).

Definition run_encrypted (req : encrypted_request) : M (Wrapper P) Result :=
  match req with
  | ECreateCollection md key => ew_createCollection md key
  | ERemoveCollection c => ew_removeCollection c
  | ESetSecret md x fd => ew_setSecret md x fd
  | ERemoveSecret c s => ew_removeSecret c s
  | ESetStandaloneSecret md x fd key => ew_setStandaloneSecret md x fd key
  end.

Definition encrypted_sql (req : encrypted_request) : MetaTables → option (MetaTables * unit) :=
  match req with
  | ECreateCollection md _ => sql_insert_collection md
  | ERemoveCollection c => sql_delete_collection c
  | ESetSecret md _ _ => sql_insert_secret md
  | ERemoveSecret c s => sql_delete_secret c s
  | ESetStandaloneSecret md _ _ _ => sql_insert_secret md
  end.

Lemma outcome_refused run t r w :
  ok r = false → settled t w → outcome run t r (m_metadataDb w).
Proof. intros Hr Hs. unfold outcome. rewrite Hr. by left. Qed.

Lemma unless_collection_locked_spec c msg k t (Q : Result → Wrapper P → Prop) w :
  settled t w →
  (∀ r w', ok r = false → settled t w' → Q r w') →
  (∀ w', settled t w' → wp k Q w') →
  wp (unless_collection_locked c msg k) Q w.
Proof.
  intros Hs Hr Hk. unfold unless_collection_locked. apply wp_bind, wp_zoom. unfold wp at 1.
  destruct (ep_isCollectionLocked c false (m_plugin w)) as [[r locked] p']; simpl.
  destruct locked; [apply wp_ret, Hr; [by apply ok_error|done]|].
  destruct (ok r) eqn:Hok; simpl; [by apply Hk|by apply wp_ret, Hr].
Qed.

(** Metadata and plugin change together, for any plugin and whatever the engine
    does. *)
Lemma run_encrypted_outcome req t w :
  settled t w →
  wp (run_encrypted req) (λ r w', outcome (encrypted_sql req) t r (m_metadataDb w')) w.
Proof.
  intros Hs. destruct req as [md key|c|md x fd|c s|md x fd key]; simpl.
  all: eapply unless_locked_spec; [done|intros; by apply outcome_refused|]; intros w1 Hs1 _ _.
  - apply wp_bind, wp_zoom. eapply wp_mono; [by eapply collectionMetadata_idle_spec|].
    intros [r [md' existing]] db' (Hi&_&_).
    destruct existing; [apply wp_ret, outcome_refused; [by apply ok_error|done]|].
    destruct (ok r) eqn:Hr; simpl; [|by apply wp_ret, outcome_refused].
    apply wp_bind. eapply wp_mono; [by eapply transactionally_spec|]. intros r2 w2 [Ho _].
    destruct (ok r2) eqn:Hr2; simpl; [|by apply wp_ret].
    assert (outcome (sql_insert_collection md) t (result_of_code Succeeded) (m_metadataDb w2)) as Ho'.
    { unfold outcome in *. by rewrite Hr2 in Ho. }
    apply wp_bind. destruct (relock md); [|by apply wp_ret, wp_ret].
    apply wp_bind, wp_zoom. unfold wp at 1. by apply wp_ret, wp_ret.
  - eapply wp_mono; [by eapply transactionally_spec|]. by intros ?? [].
  - eapply unless_collection_locked_spec; [done|intros; by apply outcome_refused|]. intros w2 Hs2.
    eapply wp_mono; [by eapply transactionally_spec|]. by intros ?? [].
  - eapply unless_collection_locked_spec; [done|intros; by apply outcome_refused|]. intros w2 Hs2.
    eapply wp_mono; [by eapply transactionally_spec|]. by intros ?? [].
  - apply wp_bind, wp_zoom. eapply wp_mono; [by eapply collectionMetadata_idle_spec|].
    intros [r [md' existing]] db' (Hi&_&_).
    destruct (ok r) eqn:Hr; simpl; [|by apply wp_ret, outcome_refused].
    destruct existing; simpl; [|apply wp_ret, outcome_refused; [by apply ok_error|done]].
    apply wp_bind, wp_zoom. eapply wp_mono; [by eapply secretMetadata_idle_spec|].
    intros [r2 [md2 existing]] db2 (Hi2&_&_).
    destruct (ok r2) eqn:Hr2; simpl; [|by apply wp_ret, outcome_refused].
    destruct existing; simpl; [apply wp_ret, outcome_refused; [by apply ok_error|done]|].
    eapply wp_mono; [by eapply transactionally_spec|]. by intros ?? [].
Qed.

(** A new collection is relocked right away unless it is to be kept unlocked. *)
Lemma ew_createCollection_relock md key t w :
  settled t w → relock md = true →
  wp (ew_createCollection md key) (λ r w', ok r = true →
    ∃ p, m_plugin w' = (ep_setEncryptionKey (cm_collectionName md) "" p).2) w.
Proof.
  intros Hs Hrelock. eapply unless_locked_spec; [done|intros; congruence|]. intros w1 Hs1 _ _.
  apply wp_bind, wp_zoom. eapply wp_mono; [by eapply collectionMetadata_idle_spec|].
  intros [r [md' existing]] db' (Hi&_&_).
  destruct existing; [apply wp_ret; by rewrite ok_error|].
  destruct (ok r) eqn:Hr; simpl; [|by apply wp_ret; intros; congruence].
  apply wp_bind. unfold wp at 1. destruct (transactionally _ _ _ _) as [r2 w2]. simpl.
  destruct (ok r2) eqn:Hr2; simpl; [|apply wp_ret; intros; congruence].
  apply wp_bind. rewrite Hrelock. apply wp_bind, wp_zoom. unfold wp at 1.
  apply wp_ret, wp_ret. simpl. intros _. by exists (m_plugin w2).
Qed.
End encrypted.

(** * Locked plugins *)
Section locked.
  Context {P : Type} `{PluginBase P}.
  Implicit Types (w : Wrapper P).

(** A locked plugin, or a locked metadata database: the operation is refused
    and nothing at all changes. *)
Lemma unless_locked_plugin k w :
  pb_isLocked (m_plugin w) = true → unless_locked k w = (plugin_locked_error, w).
Proof. intros Hl. unfold unless_locked, bind, gets, wrapper_isLocked. by rewrite Hl. Qed.

Lemma isMasterLocked_closed w :
  m_open (m_metadataDb w) = false → isMasterLocked w = (true, w).
Proof.
  intros Ho. unfold isMasterLocked, on_db, zoom, isLocked, bind, gets, isOpen. rewrite Ho. simpl.
  by destruct w.
Qed.

Lemma unless_locked_master k w :
  pb_isLocked (m_plugin w) = false → m_open (m_metadataDb w) = false →
  unless_locked k w = (master_locked_error, w).
Proof.
  intros Hl Ho. unfold unless_locked, bind, gets, wrapper_isLocked. rewrite Hl.
  by rewrite isMasterLocked_closed.
Qed.
Lemma unless_locked_refuses w :
  pb_isLocked (m_plugin w) = true ∨ m_open (m_metadataDb w) = false →
  ∃ r, errorCode r = SecretsPluginIsLockedError ∧ ok r = false ∧ ∀ k, unless_locked k w = (r, w).
Proof.
  intros Hl. destruct (pb_isLocked (m_plugin w)) eqn:Hp.
  - exists plugin_locked_error. split_and!; [done|by apply ok_error|].
    intros k. by apply unless_locked_plugin.
  - destruct Hl as [?|Ho]; [done|]. exists master_locked_error.
    split_and!; [done|by apply ok_error|]. intros k. by apply unless_locked_master.
Qed.
End locked.
