(* ===== verification/MetadataLock.v ===== *)
(** The master lock: locking, unlocking and re-keying the metadata database,
    and reading back what was written to it. *)
From S2P Require Import Prelude Result Sqlite Transactions MetadataDb.

#[local] Arguments select : simpl never.
#[local] Arguments execute : simpl never.

Section lock.
  Implicit Types (t : MetaTables) (db : MetaDb) (key : string).

(** The database is locked: closed, its file encrypted with [key]. *)
Definition sealed t key db : Prop :=
  m_open db = false ∧ snapshot db = None ∧ m_transactionSemaphore db = 0%Z
  ∧ file db = Some (DbFile t (Some key) currentSchemaVersion).

(** The database is unlocked in a good environment, its file not encrypted with
    another key. *)
Definition unsealed t key db : Prop :=
  idle t db ∧ good db ∧ conn_key db = key
  ∧ ∃ fk, file db = Some (DbFile t fk currentSchemaVersion) ∧ (fk = None ∨ fk = Some key).

Lemma setupStatements_for key : setup_for key (setupStatements key).
Proof. left. eexists. split; [done|]. repeat constructor. Qed.

(** Opening the locked database with another key fails, whatever the engine
    does, and leaves it locked. *)
Lemma openDatabase_wrong_key t key key' db :
  sealed t key db → key' ≠ key →
  wp (openDatabase key') (λ b db', b = false ∧ sealed t key db') db.
Proof.
  intros (Ho&Hs&Hsem&Hf) Hne. unfold openDatabase. apply wp_bind.
  eapply wp_mono; [apply (open_wrong_key key' (DbFile t (Some key) currentSchemaVersion))|]; try done.
  - unfold readable; simpl. by apply bool_decide_eq_false.
  - repeat constructor.
  - intros b db' (->&?&?&?&?). by apply wp_ret.
Qed.

Lemma unlock_wrong_key t key key' db :
  sealed t key db → key' ≠ key →
  wp (unlock key') (λ r db', code r = Failed ∧ sealed t key db') db.
Proof.
  intros Hs Hne. unfold unlock. case_bool_decide; simpl; [|by apply wp_ret; rewrite failed_error].
  apply wp_bind, wp_gets. unfold isOpen. pose proof Hs as (->&_). simpl. apply wp_bind.
  eapply wp_mono; [by eapply openDatabase_wrong_key|]. intros b db' [-> Hs'].
  apply wp_ret. by rewrite failed_error.
Qed.

(** The tables of an opened database: the notional collection is added. *)
Definition with_standalone t : MetaTables :=
  default t (fst <$> sql_insert_collection standaloneMetadata t).

Lemma collectionNames_idle b t db :
  idle t db → good db →
  wp (collectionNames b) (λ '(r, names) db', ok r = true ∧ idle t db' ∧ good db'
    ∧ ∀ c, c ∈ names ↔ keep_name b c = true ∧ is_Some (collections t !! c)) db.
Proof.
  intros Hi Hg. unfold collectionNames. apply wp_bind.
  eapply wp_mono; [by eapply db_select_idle_spec|]. intros [r x] db' (Hi'&Hx&Hg').
  destruct (Hg' Hg) as [? Hr]. rewrite Hr in Hx. subst. apply wp_ret. split_and!; [done..|].
  intros c. simpl. rewrite list_elem_of_filter, elem_of_sql_collection_names. by rewrite Is_true_true.
Qed.

(** A modification outside a transaction. *)
Lemma db_update_idle st what run t t' db :
  idle t db → good db → run t = Some (t', tt) →
  wp (db_update st what run) (λ r db', ok r = true ∧ idle t' db' ∧ good db') db.
Proof.
  intros Hi Hg Hrun. unfold db_update. apply wp_bind. eapply wp_mono; [apply prepare_spec|].
  intros [q txt] db1 [Hs Hg1]. destruct (Hg1 Hg) as (Hg1'&->&->). simpl. apply wp_bind.
  eapply wp_mono; [eapply execute_idle_spec, same_idle; done|].
  intros [[[]|] txt] db2 [Hx Hg2]; destruct (Hg2 Hg1') as [Hg2' Hn].
  - destruct Hx as (t2&Ht2&Hi2). rewrite Hrun in Ht2. injection Ht2 as <-. by apply wp_ret.
  - specialize (Hn eq_refl eq_refl). congruence.
Qed.

Lemma openDatabase_right_key t key db :
  sealed t key db → Forall (λ f, f = None) (faults db) →
  wp (openDatabase key) (λ b db', b = true ∧ idle (with_standalone t) db' ∧ good db') db.
Proof.
  intros (Ho&Hs&Hsem&Hf) Hfs. unfold openDatabase. apply wp_bind. eapply wp_mono.
  { eapply (open_existing key t (Some key)); eauto using setupStatements_for. }
  intros b db1 (->&Hg1&Hi1). simpl. apply wp_bind.
  eapply wp_mono; [by eapply collectionNames_idle|]. intros [r names] db2 (_&Hi2&Hg2&Hn).
  assert (is_Some (collections t !! "standalone") ↔ "standalone" ∈ names) as Hst.
  { rewrite Hn. assert (keep_name false "standalone" = true) as -> by done. tauto. }
  unfold contains, with_standalone, sql_insert_collection. simpl.
  case_bool_decide as Hin.
  - apply wp_ret. apply Hst in Hin as [row ->]. done.
  - apply wp_bind. destruct (collections t !! "standalone") eqn:Hc.
    { destruct Hin. apply Hst. eauto. }
    eapply wp_mono; [eapply db_update_idle; [done..|]|].
    + unfold sql_insert_collection. simpl. by rewrite Hc.
    + intros r' db3 (Hr&?&?). apply wp_ret. by rewrite Hr.
Qed.

Lemma unlock_right_key t key db :
  sealed t key db → Forall (λ f, f = None) (faults db) → String.length key = 64%nat →
  wp (unlock key) (λ r db', ok r = true ∧ idle (with_standalone t) db' ∧ good db') db.
Proof.
  intros Hs Hf Hlen. unfold unlock. rewrite bool_decide_true by done. simpl.
  apply wp_bind, wp_gets. unfold isOpen. pose proof Hs as (->&_). simpl. apply wp_bind.
  eapply wp_mono; [by eapply openDatabase_right_key|]. intros b db' (->&?&?). by apply wp_ret.
Qed.

(** Locking closes the database; its file stays. *)
Lemma lock_seals t key db :
  idle t db → file db = Some (DbFile t (Some key) currentSchemaVersion) →
  wp lock (λ r db', ok r = true ∧ sealed t key db' ∧ faults db' = faults db) db.
Proof.
  intros (_&Hsem&Hs&_) Hf. unfold lock. apply wp_bind. eapply wp_mono; [by apply close_spec|].
  intros ? db' (?&?&?&?&?). apply wp_ret. split_and!; [done| |done].
  unfold sealed. rewrite <-Hsem. split_and!; done.
Qed.

(** ** Re-keying *)
(** [isLocked] reports an open, readable database as unlocked. *)
Lemma at_isLocked b fl key db :
  readable fl key = true → settled_at fl None 0 key db →
  wp (isLocked b) (λ '(r, locked) db', ok r = true ∧ locked = false
    ∧ settled_at fl None 0 key db') db.
Proof.
  intros Hr H. unfold isLocked. apply wp_bind, wp_gets. unfold isOpen. pose proof H as (_&->&_).
  simpl. apply wp_bind. eapply wp_mono; [by eapply at_prepare|]. intros [q txt] db1 (->&->&H1). simpl.
  apply wp_bind. eapply wp_mono; [by eapply at_select|]. intros [r txt] db2 [-> H2]. by apply wp_ret.
Qed.

(** [unlock] of an open database sets the key of the connection. *)
Lemma at_unlock fl key key' db :
  readable fl key = true → String.length key' = 64%nat → settled_at fl None 0 key db →
  wp (unlock key') (λ r db', ok r = true ∧ settled_at fl None 0 key' db') db.
Proof.
  intros Hr Hlen H. unfold unlock. rewrite bool_decide_true by done. simpl.
  apply wp_bind, wp_gets. unfold isOpen. pose proof H as (_&->&_). simpl.
  apply wp_bind. eapply wp_mono; [by eapply at_prepare|]. intros [q txt] db1 (->&->&H1). simpl.
  apply wp_bind. eapply wp_mono; [by eapply at_begin|]. intros b db2 [-> H2]. simpl.
  apply wp_bind. eapply wp_mono; [by eapply at_pragma|]. intros [b txt] db3 [-> H3]. simpl.
  apply wp_bind. eapply wp_mono; [by eapply at_commit|]. intros b db4 [-> H4]. simpl. by apply wp_ret.
Qed.

(** [reencrypt] with the right old key. *)
Lemma reencrypt_good t fk v old new db :
  fk = None ∨ fk = Some old → String.length old = 64%nat → String.length new = 64%nat →
  settled_at (DbFile t fk v) None 0 old db →
  wp (reencrypt old new) (λ r db', ok r = true
    ∧ settled_at (DbFile t (Some new) v) None 0 new db') db.
Proof.
  intros Hfk Ho Hn H.
  assert (readable (DbFile t fk v) old = true) as Hr.
  { unfold readable; simpl. destruct Hfk as [->| ->]; [done|]. by apply bool_decide_eq_true. }
  unfold reencrypt. apply wp_bind. eapply wp_mono; [by eapply at_unlock|].
  intros r db1 [Hok H1]. rewrite Hok. simpl. apply wp_bind.
  eapply wp_mono; [by eapply at_isLocked|]. intros [r' locked] db2 (Hok'&->&H2). rewrite Hok'. simpl.
  rewrite bool_decide_true by done. simpl.
  apply wp_bind. eapply wp_mono; [by eapply at_prepare|]. intros [q txt] db3 (->&->&H3). simpl.
  apply wp_bind. eapply wp_mono; [by eapply at_begin|]. intros b db4 [-> H4]. simpl.
  apply wp_bind. eapply wp_mono; [by eapply at_rekey|]. intros [b txt] db5 [-> H5]. simpl.
  apply wp_bind. eapply wp_mono; [by eapply at_commit|]. intros b db6 [-> H6]. simpl. by apply wp_ret.
Qed.

(** Re-key, lock, and try to unlock. *)
Definition rekey_lock_unlock (old new key : string) : M MetaDb (bool * bool) :=
  let* r := reencrypt old new in
  lock ;;;
  let* r' := unlock key in
  ret (ok r, ok r').

Lemma rekey_lock_unlock_spec t fk old new key db :
  fk = None ∨ fk = Some old → String.length old = 64%nat → String.length new = 64%nat →
  settled_at (DbFile t fk currentSchemaVersion) None 0 old db →
  wp (rekey_lock_unlock old new key) (λ '(b, b') db', b = true ∧
    if decide (key = new) then b' = true ∧ idle (with_standalone t) db' ∧ good db'
    else b' = false ∧ sealed t new db') db.
Proof.
  intros Hfk Ho Hn H. unfold rekey_lock_unlock. apply wp_bind.
  eapply wp_mono; [by eapply reencrypt_good|]. intros r db1 [Hok (Hfs&Hop&Hk&Hf&Hs&Hsem)].
  apply wp_bind. eapply wp_mono; [eapply (lock_seals t new)|].
  - split_and!; [done..|]. unfold content. by rewrite Hf.
  - done.
  - intros r2 db2 (_&Hsealed&Hfs2). apply wp_bind. case_decide as Hd.
    + subst. eapply wp_mono; [eapply unlock_right_key; [done| |done]; by rewrite Hfs2|].
      intros r3 db3 (Hok3&?&?). apply wp_ret. by rewrite Hok, Hok3.
    + eapply wp_mono; [by eapply unlock_wrong_key|]. intros r3 db3 [Hf3 ?]. apply wp_ret.
      split; [done|]. split; [|done]. apply not_ok_spec. by rewrite Hf3.
Qed.
End lock.

(** * Reading back metadata *)
Section roundtrip.
  Implicit Types (t : MetaTables) (db : MetaDb).

(** What is read back of a collection: everything but its name, which the
    caller has. *)
Lemma read_collection_values md md0 :
  cm_collectionName md0 = cm_collectionName md → read_collection md0 (collection_values md) = md.
Proof.
  intros Hn. destruct md as [n a u e p s m]. unfold read_collection, collection_values. simpl in *.
  rewrite Hn. by destruct u.
Qed.

(** Of a secret, the type and the crypto plugin are not read back either. *)
Lemma read_secret_values md md0 :
  sm_collectionName md0 = sm_collectionName md → sm_secretName md0 = sm_secretName md →
  read_secret md0 (secret_values md) =
  mkSecretMetadata (sm_collectionName md) (sm_secretName md) (sm_ownerApplicationId md)
    (sm_usesDeviceLockKey md) (sm_encryptionPluginName md) (sm_authenticationPluginName md)
    (sm_unlockSemantic md) (sm_accessControlMode md) (sm_secretType md0) (sm_cryptoPluginName md0).
Proof.
  intros Hc Hn. destruct md as [c n a u e p s m ty cp]. unfold read_secret, secret_values. simpl in *.
  rewrite Hc, Hn. by destruct u.
Qed.

Lemma collectionMetadata_good c md0 b t db :
  idle t db → good db →
  wp (collectionMetadata c md0 b) (λ '(r, (md, existing)) db', ok r = true ∧ idle t db' ∧ good db'
    ∧ (md, existing) = match collections t !! c with
                       | Some row => (read_collection md0 row, true)
                       | None => (md0, false)
                       end) db.
Proof.
  intros Hi Hg. unfold collectionMetadata. apply wp_bind.
  eapply wp_mono; [by eapply db_select_idle_spec|]. intros [r x] db' (Hi'&Hx&Hg').
  destruct (Hg' Hg) as [? Hr]. rewrite Hr in Hx. subst. apply wp_ret.
  destruct (collections t !! c); by split_and!.
Qed.

Lemma secretMetadata_good c s md0 b t db :
  idle t db → good db →
  wp (secretMetadata c s md0 b) (λ '(r, (md, existing)) db', ok r = true ∧ idle t db' ∧ good db'
    ∧ (md, existing) = match secrets t !! (c, s) with
                       | Some row => (read_secret md0 row, true)
                       | None => (md0, false)
                       end) db.
Proof.
  intros Hi Hg. unfold secretMetadata. apply wp_bind.
  eapply wp_mono; [by eapply db_select_idle_spec|]. intros [r x] db' (Hi'&Hx&Hg').
  destruct (Hg' Hg) as [? Hr]. rewrite Hr in Hx. subst. apply wp_ret.
  destruct (secrets t !! (c, s)); by split_and!.
Qed.
End roundtrip.
