(* ===== verification/SqlitePlugin.v ===== *)
(** The SQLite storage plugin (plugins/sqliteplugin/plugin.cpp, plugin.h,
    sqlitedatabase_p.h): collections, secrets and their filter data in a plain
    database.  The Timestamp column is never read and is left out. *)
From S2P Require Import Prelude Result Sqlite MetadataDb PluginApi.

(** The tables Collections, Secrets and SecretsFilterData, by their primary
    keys. *)
Record SqliteTables := mkSqliteTables {
  sq_collections : gset string;
  sq_secrets : gmap (string * string) bytes;
  sq_filterData : gmap (string * string * string) string;
}.

#[global] Instance SqliteTables_inhabited : Inhabited SqliteTables :=
  populate (mkSqliteTables ∅ ∅ ∅).

(** The state of the plugin is its database. *)
Abbreviation SqliteDb := (Database SqliteTables).

(** * The statements *)

(** INSERT INTO Collections; PRIMARY KEY. *)
Definition sql_insert_cname (c : string) (t : SqliteTables) : option (SqliteTables * unit) :=
  if decide (c ∈ sq_collections t) then None
  else Some (mkSqliteTables ({[c]} ∪ sq_collections t) (sq_secrets t) (sq_filterData t), tt).

(** DELETE FROM Collections; ON DELETE CASCADE to the secrets and their filter
    data. *)
Definition sql_delete_cname (c : string) (t : SqliteTables) : option (SqliteTables * unit) :=
  Some (mkSqliteTables (sq_collections t ∖ {[c]})
          (filter (λ kv, kv.1.1 ≠ c) (sq_secrets t))
          (filter (λ kv, kv.1.1.1 ≠ c) (sq_filterData t)), tt).

(** UPDATE Secrets SET Secret = ? WHERE CollectionName = ? AND SecretName = ? *)
Definition sql_update_blob (x : bytes) (c s : string) (t : SqliteTables) : option SqliteTables :=
  Some (mkSqliteTables (sq_collections t) (alter (λ _, x) (c, s) (sq_secrets t)) (sq_filterData t)).

(** INSERT INTO Secrets; FOREIGN KEY and PRIMARY KEY. *)
Definition sql_insert_blob (c s : string) (x : bytes) (t : SqliteTables) : option SqliteTables :=
  if decide (c ∈ sq_collections t) then
    match sq_secrets t !! (c, s) with
    | Some _ => None
    | None => Some (mkSqliteTables (sq_collections t) (<[(c, s) := x]> (sq_secrets t)) (sq_filterData t))
    end
  else None.

(** DELETE FROM SecretsFilterData WHERE CollectionName = ? AND SecretName = ? *)
Definition sql_delete_filter (c s : string) (t : SqliteTables) : option (SqliteTables * unit) :=
  Some (mkSqliteTables (sq_collections t) (sq_secrets t)
          (filter (λ kv, kv.1.1 ≠ (c, s)) (sq_filterData t)), tt).

(** INSERT INTO SecretsFilterData; FOREIGN KEY and PRIMARY KEY. *)
Definition sql_insert_filter (c s field value : string) (t : SqliteTables)
  : option (SqliteTables * unit) :=
  match sq_secrets t !! (c, s), sq_filterData t !! (c, s, field) with
  | None, _ => None
  | _, Some _ => None
  | Some _, None => Some (mkSqliteTables (sq_collections t) (sq_secrets t)
                           (<[(c, s, field) := value]> (sq_filterData t)), tt)
  end.

(** DELETE FROM Secrets WHERE CollectionName = ? AND SecretName = ?; CASCADE. *)
Definition sql_delete_blob (c s : string) (t : SqliteTables) : option (SqliteTables * unit) :=
  Some (mkSqliteTables (sq_collections t) (delete (c, s) (sq_secrets t))
          (filter (λ kv, kv.1.1 ≠ (c, s)) (sq_filterData t)), tt).

(** SELECT SecretName, Field, Value FROM SecretsFilterData WHERE CollectionName = ? *)
Definition sql_filter_rows (c : string) (t : SqliteTables) : list (string * string * string) :=
  (λ kv, (kv.1.1.2, kv.1.2, kv.2)) <$> filter (λ kv, kv.1.1.1 = c) (map_to_list (sq_filterData t)).

(** SELECT Field, Value FROM SecretsFilterData WHERE CollectionName = ? AND SecretName = ? *)
Definition sql_filter_of (c s : string) (t : SqliteTables) : list (string * string) :=
  (λ kv, (kv.1.2, kv.2)) <$> filter (λ kv, kv.1.1 = (c, s)) (map_to_list (sq_filterData t)).

(** SELECT SecretName FROM Secrets WHERE CollectionName = ? *)
Definition sql_blob_names (c : string) (t : SqliteTables) : list string :=
  (λ kv, kv.1.2) <$> filter (λ kv, kv.1.1 = c) (map_to_list (sq_secrets t)).

(** SELECT CollectionName, SecretName, Secret FROM Secrets WHERE ...: the
    condition is on the two names. *)
Definition sql_blob_rows (cond : string * string → bool) (t : SqliteTables)
  : list (string * string * bytes) :=
  filter (λ kv, cond kv.1) (map_to_list (sq_secrets t)).

(** * The plugin *)

Definition sqlite_name : string := "org.sailfishos.secrets.plugin.storage.sqlite".

Definition sqlite_setup : list setup_statement :=
  [ PragmaConnection "PRAGMA foreign_keys = ON;";
    PragmaConnection "PRAGMA encoding = UTF-16;";
    PragmaConnection "PRAGMA temp_store = MEMORY;";
    PragmaFile "PRAGMA journal_mode = WAL;";
    PragmaConnection "PRAGMA synchronous = FULL;" ].

Definition sqlite_create : list string :=
  ["CREATE TABLE Collections"; "CREATE TABLE Secrets"; "CREATE TABLE SecretsFilterData"].

Definition sqlite_upgrades : list (UpgradeOperation SqliteTables) := [mkUpgrade None None].

Definition insert_cname_statement : string := "INSERT INTO Collections (CollectionName) VALUES (?);".

(** Errors of the plugin. *)
Definition sqlite_error (what text : string) : Result :=
  result_error DatabaseQueryError ("Sqlite plugin unable to " +:+ what +:+ " query: " +:+ text).
Definition sqlite_begin_error : Result :=
  result_error DatabaseTransactionError "Sqlite plugin unable to begin transaction".
Definition sqlite_commit_error (what : string) : Result :=
  result_error DatabaseTransactionError ("Sqlite plugin unable to commit " +:+ what +:+ " transaction").

(** [openDatabaseIfNecessary]: opens the database and adds the notional
    standalone collection. *)
Definition openDatabaseIfNecessary : M SqliteDb unit :=
  let* opened := gets isOpen in
  if (opened : bool) then ret tt else
  let* success := open sqlite_setup sqlite_create sqlite_upgrades 1 in
  if negb success then ret tt else
  let* '(iq, _) := prepare insert_cname_statement in
  let* begun := beginTransaction in
  if negb begun then ret tt else
  let* '(rows, _) := execute iq (sql_insert_cname "standalone") in
  match rows with
  | Some _ => commitTransaction ;;; ret tt
  | None => rollbackTransaction ;;; ret tt
  end.

(** The end of every modifying operation: commit, and roll back on failure. *)
Definition finish (what : string) : M SqliteDb Result :=
  let* committed := commitTransaction in
  if negb committed then rollbackTransaction ;;; ret (sqlite_commit_error what)
  else ret (result_of_code Succeeded).

(** [collectionNames] *)
Definition sqlite_collectionNames : M SqliteDb (Result * list string) :=
  openDatabaseIfNecessary ;;;
  let* '(sq, errorText) := prepare "SELECT CollectionName FROM Collections;" in
  if negb (isEmpty errorText) then
    ret (sqlite_error "prepare select collection names" errorText, []) else
  let* '(rows, errorText) := select sq (λ t, elements (sq_collections t)) in
  match rows with
  | None => rollbackTransaction ;;;
            ret (sqlite_error "execute select collection names" errorText, [])
  | Some cnames => ret (result_of_code Succeeded, filter (λ c, c ≠ "standalone") cnames)
  end.

(** The checks on a collection name. *)
Definition collection_name_error (collectionName : string) : option Result :=
  if isEmpty collectionName then
    Some (result_error InvalidCollectionError "Empty collection name given")
  else if eq_ci collectionName "standalone" then
    Some (result_error InvalidCollectionError "Reserved collection name given")
  else None.

(** The checks on the names of a secret. *)
Definition secret_name_error (collectionName secretName : string) : option Result :=
  if isEmpty secretName then Some (result_error InvalidSecretError "Empty secret name given")
  else if isEmpty collectionName then
    Some (result_error InvalidCollectionError "Empty collection name given")
  else None.

(** [createCollection] *)
Definition sqlite_createCollection (collectionName : string) : M SqliteDb Result :=
  openDatabaseIfNecessary ;;;
  match collection_name_error collectionName with
  | Some e => ret e
  | None =>
  let* '(sq, errorText) := prepare "SELECT Count(*) FROM Collections WHERE CollectionName = ?;" in
  if negb (isEmpty errorText) then ret (sqlite_error "prepare select collections" errorText) else
  let* begun := beginTransaction in
  if negb begun then ret sqlite_begin_error else
  let* '(rows, errorText) := select sq (λ t, bool_decide (collectionName ∈ sq_collections t)) in
  match rows with
  | None => rollbackTransaction ;;; ret (sqlite_error "execute select collections" errorText)
  | Some true =>
      rollbackTransaction ;;;
      ret (result_error CollectionAlreadyExistsError ("Collection already exists: " +:+ collectionName))
  | Some false =>
  let* '(iq, errorText) := prepare insert_cname_statement in
  if negb (isEmpty errorText) then
    rollbackTransaction ;;; ret (sqlite_error "prepare insert collection" errorText) else
  let* '(rows, errorText) := execute iq (sql_insert_cname collectionName) in
  match rows with
  | None => rollbackTransaction ;;; ret (sqlite_error "execute insert collection" errorText)
  | Some _ => finish "insert collection"
  end end end.

(** [removeCollection] *)
Definition sqlite_removeCollection (collectionName : string) : M SqliteDb Result :=
  openDatabaseIfNecessary ;;;
  match collection_name_error collectionName with
  | Some e => ret e
  | None =>
  let* '(dq, errorText) := prepare "DELETE FROM Collections WHERE CollectionName = ?;" in
  if negb (isEmpty errorText) then ret (sqlite_error "prepare delete collection" errorText) else
  let* begun := beginTransaction in
  if negb begun then ret sqlite_begin_error else
  let* '(rows, errorText) := execute dq (sql_delete_cname collectionName) in
  match rows with
  | None => rollbackTransaction ;;; ret (sqlite_error "execute delete collection" errorText)
  | Some _ => finish "delete collection"
  end end.

(** One row of filter data after the other; [None] when all are inserted, else
    the error text. *)
Fixpoint insert_filter_rows (ifdq : bool) (c s : string) (rows : list (string * string))
  : M SqliteDb (option string) :=
  match rows with
  | [] => ret None
  | (field, value) :: rows' =>
      let* '(r, errorText) := execute ifdq (sql_insert_filter c s field value) in
      match r with
      | None => ret (Some errorText)
      | Some _ => insert_filter_rows ifdq c s rows'
      end
  end.

(** [setSecret] *)
Definition sqlite_setSecret (collectionName secretName : string) (secret : bytes)
  (filterData : FilterData) : M SqliteDb Result :=
  openDatabaseIfNecessary ;;;
  match secret_name_error collectionName secretName with
  | Some e => ret e
  | None =>
  let* '(sq, errorText) :=
    prepare "SELECT Count(*) FROM Secrets WHERE CollectionName = ? AND SecretName = ?;" in
  if negb (isEmpty errorText) then ret (sqlite_error "prepare select secrets" errorText) else
  let* begun := beginTransaction in
  if negb begun then ret sqlite_begin_error else
  let* '(rows, errorText) :=
    select sq (λ t, bool_decide (is_Some (sq_secrets t !! (collectionName, secretName)))) in
  match rows with
  | None => rollbackTransaction ;;; ret (sqlite_error "execute select secrets" errorText)
  | Some found =>
  let* '(iq, errorText) :=
    prepare (if found
             then "UPDATE Secrets SET Secret = ? , Timestamp = date('now') WHERE CollectionName = ? AND SecretName = ?;"
             else "INSERT INTO Secrets (CollectionName,SecretName,Secret,Timestamp) VALUES (?,?,?,date('now'));") in
  if negb (isEmpty errorText) then
    rollbackTransaction ;;; ret (sqlite_error "prepare insert secret" errorText) else
  let* '(rows, errorText) :=
    execute iq (λ t, t' ← (if found then sql_update_blob secret collectionName secretName t
                           else sql_insert_blob collectionName secretName secret t);
                     Some (t', tt)) in
  match rows with
  | None => rollbackTransaction ;;; ret (sqlite_error "execute insert secret" errorText)
  | Some _ =>
  let* '(dq, errorText) :=
    prepare "DELETE FROM SecretsFilterData WHERE CollectionName = ? AND SecretName = ?;" in
  if negb (isEmpty errorText) then
    rollbackTransaction ;;; ret (sqlite_error "prepare delete secrets filter data" errorText) else
  let* '(rows, errorText) := execute dq (sql_delete_filter collectionName secretName) in
  match rows with
  | None => rollbackTransaction ;;; ret (sqlite_error "execute delete secrets filter data" errorText)
  | Some _ =>
  let* '(ifdq, errorText) :=
    prepare "INSERT INTO SecretsFilterData (CollectionName,SecretName,Field,Value) VALUES (?,?,?,?);" in
  if negb (isEmpty errorText) then
    rollbackTransaction ;;; ret (sqlite_error "prepare insert secrets filter data" errorText) else
  let* failed := insert_filter_rows ifdq collectionName secretName (qmap_items filterData) in
  match failed with
  | Some errorText =>
      rollbackTransaction ;;; ret (sqlite_error "execute insert secrets filter data" errorText)
  | None => finish "insert secret"
  end end end end end.

(** [getSecret].  When the second query cannot be prepared, the function
    returns without ending its transaction. *)
Definition sqlite_getSecret (collectionName secretName : string)
  : M SqliteDb (Result * option (bytes * FilterData)) :=
  openDatabaseIfNecessary ;;;
  match secret_name_error collectionName secretName with
  | Some e => ret (e, None)
  | None =>
  let* '(sq, errorText) :=
    prepare "SELECT Secret FROM Secrets WHERE CollectionName = ? AND SecretName = ?;" in
  if negb (isEmpty errorText) then ret (sqlite_error "prepare select secret" errorText, None) else
  let* begun := beginTransaction in
  if negb begun then ret (sqlite_begin_error, None) else
  let* '(rows, errorText) := select sq (λ t, sq_secrets t !! (collectionName, secretName)) in
  match rows with
  | None => rollbackTransaction ;;; ret (sqlite_error "execute select secret" errorText, None)
  | Some None =>
      let* committed := commitTransaction in
      if negb committed then
        rollbackTransaction ;;; ret (sqlite_commit_error "select secret", None)
      else ret (result_error InvalidSecretError "No such secret stored", None)
  | Some (Some secretData) =>
  let* '(sfdq, errorText) :=
    prepare "SELECT Field, Value FROM SecretsFilterData WHERE CollectionName = ? AND SecretName = ?;" in
  if negb (isEmpty errorText) then
    ret (sqlite_error "prepare select secret filter data" errorText, None) else
  let* '(rows, errorText) := select sfdq (sql_filter_of collectionName secretName) in
  match rows with
  | None =>
      rollbackTransaction ;;; ret (sqlite_error "execute select secret filter data" errorText, None)
  | Some fields =>
      let* committed := commitTransaction in
      if negb committed then
        rollbackTransaction ;;; ret (sqlite_commit_error "select secret", None)
      else ret (result_of_code Succeeded,
                Some (secretData, foldl (λ m kv, <[kv.1 := kv.2]> m) ∅ fields))
  end end end.

(** [secretNames].  The error path rolls back a transaction that was not
    begun. *)
Definition sqlite_secretNames (collectionName : string) : M SqliteDb (Result * list string) :=
  openDatabaseIfNecessary ;;;
  let* '(sq, errorText) := prepare "SELECT SecretName FROM Secrets WHERE CollectionName = ?;" in
  if negb (isEmpty errorText) then
    ret (sqlite_error "prepare select secret names" errorText, []) else
  let* '(rows, errorText) := select sq (sql_blob_names collectionName) in
  match rows with
  | None => rollbackTransaction ;;;
            ret (sqlite_error "execute select secret names" errorText, [])
  | Some names => ret (result_of_code Succeeded, names)
  end.

(** ** [findSecrets] *)

(** The loop over the filter data of one secret, for one field of the filter:
    whether the field was found, and the new value of [matches]. *)
Fixpoint mit_loop (filterOperator : FilterOperator) (key value : string)
  (items : list (string * string)) (matches : bool) : bool * bool :=
  match items with
  | [] => (false, matches)
  | (mkey, mvalue) :: items' =>
      if eq_ci key mkey then
        (true,
         if eq_ci value mvalue
         then if bool_decide (filterOperator = OperatorOr) then true else matches
         else if bool_decide (filterOperator = OperatorAnd) then false else matches)
      else mit_loop filterOperator key value items' matches
  end.

(** The loop over the fields of the filter. *)
Fixpoint fit_loop (filterOperator : FilterOperator) (curr : list (string * string))
  (filter : list (string * string)) (matches : bool) : bool :=
  match filter with
  | [] => matches
  | (key, value) :: filter' =>
      let '(found, matches) := mit_loop filterOperator key value curr matches in
      if negb found && bool_decide (filterOperator = OperatorAnd) then false
      else fit_loop filterOperator curr filter' matches
  end.

Definition filter_matches (filterOperator : FilterOperator) (flt curr : FilterData) : bool :=
  fit_loop filterOperator (qmap_items curr) (qmap_items flt)
    (negb (bool_decide (filterOperator = OperatorOr))).

(** [secretNameToFilterData] *)
Definition secretNameToFilterData (rows : list (string * string * string))
  : gmap string FilterData :=
  foldl (λ m row, let '(name, field, value) := row in
                  <[name := <[field := value]> (default ∅ (m !! name))]> m) ∅ rows.

(** The names of the matching secrets, in the order of the map. *)
Definition matchingSecretNames (filterOperator : FilterOperator) (flt : FilterData)
  (m : gmap string FilterData) : list string :=
  filter (λ name, filter_matches filterOperator flt (default ∅ (m !! name)) = true) (qmap_keys m).

(** [findSecrets]: the names are appended before the transaction is ended. *)
Definition sqlite_findSecrets (collectionName : string) (flt : FilterData)
  (filterOperator : FilterOperator) : M SqliteDb (Result * list string) :=
  openDatabaseIfNecessary ;;;
  if isEmpty collectionName then
    ret (result_error InvalidCollectionError "Empty collection name given", [])
  else if bool_decide (flt = ∅) then
    ret (result_error InvalidFilterError "Empty filter given", []) else
  let* '(sq, errorText) :=
    prepare "SELECT SecretName, Field, Value FROM SecretsFilterData WHERE CollectionName = ?;" in
  if negb (isEmpty errorText) then
    ret (sqlite_error "prepare select secrets filter data" errorText, []) else
  let* begun := beginTransaction in
  if negb begun then
    ret (result_error DatabaseTransactionError
           "Sqlite plugin unable to begin find secrets transaction", []) else
  let* '(rows, errorText) := select sq (sql_filter_rows collectionName) in
  match rows with
  | None => rollbackTransaction ;;;
            ret (sqlite_error "execute select secrets filter data" errorText, [])
  | Some rows =>
      let names := matchingSecretNames filterOperator flt (secretNameToFilterData rows) in
      let* committed := commitTransaction in
      if negb committed then
        rollbackTransaction ;;; ret (sqlite_commit_error "find secrets", names)
      else ret (result_of_code Succeeded, names)
  end.

(** [removeSecret] *)
Definition sqlite_removeSecret (collectionName secretName : string) : M SqliteDb Result :=
  openDatabaseIfNecessary ;;;
  match secret_name_error collectionName secretName with
  | Some e => ret e
  | None =>
  let* '(dq, errorText) := prepare "DELETE FROM Secrets WHERE CollectionName = ? AND SecretName = ?;" in
  if negb (isEmpty errorText) then ret (sqlite_error "prepare delete secret" errorText) else
  let* begun := beginTransaction in
  if negb begun then ret sqlite_begin_error else
  let* '(rows, errorText) := execute dq (sql_delete_blob collectionName secretName) in
  match rows with
  | None => rollbackTransaction ;;; ret (sqlite_error "execute delete secret" errorText)
  | Some _ => finish "delete secret"
  end end.

(** ** [reencrypt] *)

(** The rows to encrypt anew: a collection, or one standalone secret. *)
Definition reencrypt_condition (collectionName secretName : string) (key : string * string) : bool :=
  if isEmpty collectionName
  then bool_decide (key.1 = "standalone") && bool_decide (key.2 = secretName)
  else bool_decide (key.1 = collectionName).

(** Decrypt and encrypt one row after the other; the first failure stops. *)
Fixpoint reencrypt_rows (plugin : EncryptionPlugin) (oldkey newkey : bytes)
  (rows : list (string * string * bytes)) : Result + list (string * string * bytes) :=
  match rows with
  | [] => inr []
  | (c, s, oldEncrypted) :: rows' =>
      let '(r, plaintext) := decryptSecret plugin oldEncrypted oldkey in
      if negb (ok r) then inl r else
      let '(r, newEncrypted) := encryptSecret plugin plaintext newkey in
      if negb (ok r) then inl r else
      match reencrypt_rows plugin oldkey newkey rows' with
      | inl r => inl r
      | inr l => inr ((c, s, newEncrypted) :: l)
      end
  end.

Definition sqlite_reencrypt (collectionName secretName : string) (oldkey newkey : bytes)
  (plugin : EncryptionPlugin) : M SqliteDb Result :=
  openDatabaseIfNecessary ;;;
  if isEmpty collectionName && isEmpty secretName then
    ret (result_error InvalidSecretError "Empty secret name given and empty collection name given")
  else
  let* '(sq, errorText) :=
    prepare (if isEmpty collectionName
             then "SELECT CollectionName, SecretName, Secret FROM Secrets WHERE CollectionName = 'standalone' AND SecretName = ?;"
             else "SELECT CollectionName, SecretName, Secret FROM Secrets WHERE CollectionName = ?;") in
  if negb (isEmpty errorText) then ret (sqlite_error "prepare select secrets" errorText) else
  let* begun := beginTransaction in
  if negb begun then ret sqlite_begin_error else
  let* '(rows, errorText) :=
    select sq (sql_blob_rows (reencrypt_condition collectionName secretName)) in
  match rows with
  | None => rollbackTransaction ;;; ret (sqlite_error "execute select secrets" errorText)
  | Some rows =>
  match reencrypt_rows plugin oldkey newkey rows with
  | inl reencryptionResult => rollbackTransaction ;;; ret reencryptionResult
  | inr updates =>
  let* '(uq, errorText) :=
    prepare "UPDATE Secrets SET Secret = ? , Timestamp = date('now') WHERE CollectionName = ? AND SecretName = ?;" in
  if negb (isEmpty errorText) then
    rollbackTransaction ;;; ret (sqlite_error "prepare update secret" errorText) else
  let* '(executed, errorText) :=
    executeBatch uq ((λ row, let '(c, s, x) := row in sql_update_blob x c s) <$> updates) in
  if negb executed then
    rollbackTransaction ;;; ret (sqlite_error "execute update secret" errorText)
  else finish "update secret"
  end end.

(** * The plugin interfaces

    The plugin does not override the locking operations, whose defaults in
    extensionplugins.cpp do nothing. *)
#[global] Instance sqlite_base : PluginBase SqliteDb := {|
  pb_name := sqlite_name;
  pb_supportsLocking := λ _, false;
  pb_isLocked := λ _, false;
  pb_lock := ret false;
  pb_unlock := λ _, ret false;
  pb_setLockCode := λ _ _, ret false;
|}.

#[global] Instance sqlite_plugin : StoragePlugin SqliteDb := {|
  sp_collectionNames := sqlite_collectionNames;
  sp_createCollection := sqlite_createCollection;
  sp_removeCollection := sqlite_removeCollection;
  sp_setSecret := sqlite_setSecret;
  sp_getSecret := sqlite_getSecret;
  sp_secretNames := sqlite_secretNames;
  sp_findSecrets := sqlite_findSecrets;
  sp_removeSecret := sqlite_removeSecret;
  sp_reencrypt := sqlite_reencrypt;
|}.
