(* ===== verification/SqlitePluginSpec.v ===== *)
(** Correctness of the SQLite storage plugin: what each operation does to the
    tables, whatever the engine does; and that the plugin keeps the contract of
    a storage plugin. *)
From S2P Require Import Prelude Result Sqlite Transactions MetadataDb PluginApi.
From S2P Require Import SqlitePlugin.

#[local] Arguments select : simpl never.


(** * The operations on the tables *)
Section operations.
  Context (G : Prop).
  Implicit Types (t : SqliteTables) (db : SqliteDb).

Lemma opened_Idle {A} t db (k : M SqliteDb A) Q :
  Idle G t db → wp k Q db → wp (openDatabaseIfNecessary ;;; k) Q db.
Proof.
  intros [(Ho&_) _] Hk. apply wp_bind. unfold openDatabaseIfNecessary.
  apply wp_bind, wp_gets. unfold isOpen. by rewrite Ho.
Qed.

Lemma sqlite_error_not_ok what text : ok (sqlite_error what text) = false.
Proof. by apply ok_error. Qed.

Lemma sqlite_commit_error_not_ok what : ok (sqlite_commit_error what) = false.
Proof. by apply ok_error. Qed.

Lemma collection_name_error_spec c :
  match collection_name_error c with
  | Some e => ok e = false ∧ ¬ managed c
  | None => managed c
  end.
Proof.
  unfold collection_name_error, managed, keep_name.
  destruct (isEmpty c); simpl; [by rewrite ok_error by done|].
  destruct (eq_ci c "standalone"); simpl; [by rewrite ok_error by done|done].
Qed.

Lemma secret_name_error_spec c s :
  match secret_name_error c s with
  | Some e => ok e = false ∧ (s = "" ∨ c = "")
  | None => s ≠ "" ∧ c ≠ ""
  end.
Proof.
  unfold secret_name_error, isEmpty. repeat case_bool_decide; rewrite ?ok_error by done; auto.
Qed.

Definition after {R} (run : SqliteTables → option (SqliteTables * R)) t : SqliteTables :=
  default t (fst <$> run t).

Lemma createCollection_ended c t db :
  Idle G t db →
  wp (sqlite_createCollection c) (λ r db',
    ended G t (after (sql_insert_cname c) t) r db'
    ∧ (G → ok r = bool_decide (managed c ∧ c ∉ sq_collections t))) db.
Proof.
  intros Hi. unfold sqlite_createCollection. eapply opened_Idle; [done|].
  pose proof (collection_name_error_spec c) as Hc. destruct (collection_name_error c) as [e|].
  { destruct Hc as [He Hm]. apply wp_ret. split; [by apply ended_refused|]. intros _.
    rewrite bool_decide_false; tauto. }
  prepared. begun. step select_Live.
  intros [[b|] txt'] db2 H2.
  2: { destruct H2 as [? Hn]. eapply rolled_back; [done|apply sqlite_error_not_ok|].
       intros db' He. split; [done|]. intros HG. destruct (Hq HG) as [-> _]. by specialize (Hn HG). }
  destruct H2 as [-> Hl]. case_bool_decide as Hin.
  { eapply rolled_back; [by eapply Live_Aborted|by apply ok_error|]. intros db' He.
    split; [done|]. intros _. rewrite ok_error by done. rewrite bool_decide_false; tauto. }
  prepared.
  assert (sql_insert_cname c t = Some (after (sql_insert_cname c) t, tt)) as Hrun.
  { unfold after, sql_insert_cname. by rewrite decide_False. }
  executed Hrun Hq0. finished. by rewrite bool_decide_true.
Qed.

Lemma removeCollection_ended c t db :
  Idle G t db →
  wp (sqlite_removeCollection c) (λ r db',
    ended G t (after (sql_delete_cname c) t) r db' ∧ (G → ok r = bool_decide (managed c))) db.
Proof.
  intros Hi. unfold sqlite_removeCollection. eapply opened_Idle; [done|].
  pose proof (collection_name_error_spec c) as Hc. destruct (collection_name_error c) as [e|].
  { destruct Hc as [He Hm]. apply wp_ret. split; [by apply ended_refused|]. intros _.
    by rewrite bool_decide_false. }
  prepared. begun.
  assert (sql_delete_cname c t = Some (after (sql_delete_cname c) t, tt)) as Hrun by done.
  executed Hrun Hq. finished. by rewrite bool_decide_true.
Qed.

Lemma removeSecret_ended c s t db :
  Idle G t db →
  wp (sqlite_removeSecret c s) (λ r db',
    ended G t (after (sql_delete_blob c s) t) r db' ∧ (G → ok r = bool_decide (s ≠ "" ∧ c ≠ ""))) db.
Proof.
  intros Hi. unfold sqlite_removeSecret. eapply opened_Idle; [done|].
  pose proof (secret_name_error_spec c s) as Hc. destruct (secret_name_error c s) as [e|].
  { destruct Hc as [He Hm]. apply wp_ret. split; [by apply ended_refused|]. intros _.
    rewrite bool_decide_false; tauto. }
  prepared. begun.
  assert (sql_delete_blob c s t = Some (after (sql_delete_blob c s) t, tt)) as Hrun by done.
  executed Hrun Hq. finished. by rewrite bool_decide_true.
Qed.

(** ** [setSecret] *)

(** FOREIGN KEY constraints, the notional collection, and the names. *)
Record sqlite_wf t : Prop := {
  wf_standalone : "standalone" ∈ sq_collections t;
  wf_names c : c ∈ sq_collections t → c = "standalone" ∨ managed c;
  wf_secrets c s : is_Some (sq_secrets t !! (c, s)) → c ∈ sq_collections t;
  wf_filterData c s f : is_Some (sq_filterData t !! (c, s, f)) → is_Some (sq_secrets t !! (c, s));
}.

(** The rows of filter data of one secret. *)
Definition with_fields (c s : string) (rows : list (string * string)) t : SqliteTables :=
  mkSqliteTables (sq_collections t) (sq_secrets t)
    (foldl (λ F kv, <[(c, s, kv.1) := kv.2]> F) (sq_filterData t) rows).

Definition set_tables (c s : string) (x : bytes) (fd : FilterData) t : SqliteTables :=
  with_fields c s (qmap_items fd)
    (mkSqliteTables (sq_collections t) (<[(c, s) := x]> (sq_secrets t))
       (filter (λ kv, kv.1.1 ≠ (c, s)) (sq_filterData t))).

Lemma insert_filter_rows_spec q c s rows t0 t db :
  Live G t0 t db → NoDup rows.*1 → is_Some (sq_secrets t !! (c, s)) →
  (∀ f, f ∈ rows.*1 → sq_filterData t !! (c, s, f) = None) →
  wp (insert_filter_rows q c s rows) (λ o db',
    match o with
    | None => Live G t0 (with_fields c s rows t) db'
    | Some _ => Aborted G t0 db' ∧ (G → q = false)
    end) db.
Proof.
  revert t db. induction rows as [|[f v] rows IH]; intros t db Hl Hnd Hsec Hfree; simpl.
  { apply wp_ret. by destruct t. }
  apply NoDup_cons in Hnd as [Hf Hnd]. apply wp_bind.
  assert (sql_insert_filter c s f v t = Some (with_fields c s [(f, v)] t, tt)) as Hrun.
  { unfold sql_insert_filter. destruct Hsec as [? ->]. rewrite Hfree by (by left). done. }
  eapply wp_mono; [by eapply execute_Live|]. intros [[[]|] txt] db' Hx.
  - destruct Hx as (t'&Ht&Hl'). rewrite Hrun in Ht. injection Ht as <-.
    apply (IH _ _ Hl' Hnd Hsec). simpl. intros f' Hf'.
    rewrite lookup_insert_ne by (intros [= ->]; done). apply Hfree. by right.
  - destruct Hx as [? Hn]. apply wp_ret. split; [done|]. intros HG. destruct q; [|done].
    rewrite Hrun in Hn. by specialize (Hn HG eq_refl).
Qed.

Lemma setSecret_ended c s x fd t db :
  Idle G t db → sqlite_wf t →
  wp (sqlite_setSecret c s x fd) (λ r db',
    ended G t (set_tables c s x fd t) r db'
    ∧ (G → ok r = bool_decide (s ≠ "" ∧ c ∈ sq_collections t))) db.
Proof.
  intros Hi Hwf. unfold sqlite_setSecret. eapply opened_Idle; [done|].
  pose proof (secret_name_error_spec c s) as Hc. destruct (secret_name_error c s) as [e|].
  { destruct Hc as [He Hm]. apply wp_ret. split; [by apply ended_refused|]. intros _.
    rewrite bool_decide_false; [done|]. intros [? Hin]. destruct Hm as [?|Hm]; [done|].
    subst. by destruct (wf_names _ Hwf _ Hin). }
  prepared. begun. step select_Live.
  intros [[b|] txt'] db2 H2.
  2: { destruct H2 as [? Hn]. eapply rolled_back; [done|apply sqlite_error_not_ok|].
       intros db' He. split; [done|]. intros HG. destruct (Hq HG) as [-> _]. by specialize (Hn HG). }
  destruct H2 as [Hb Hl]. prepared.
  pose (t1 := mkSqliteTables (sq_collections t) (<[(c, s) := x]> (sq_secrets t)) (sq_filterData t)).
  assert ((t' ← (if b then sql_update_blob x c s t else sql_insert_blob c s x t); Some (t', tt))
    = if decide (c ∈ sq_collections t) then Some (t1, tt) else None) as Hrun.
  { pose proof (wf_secrets _ Hwf c s) as Hfk. subst b t1. unfold sql_update_blob, sql_insert_blob.
    case_bool_decide as Hb; simpl.
    - rewrite decide_True by auto. do 3 f_equal. destruct Hb as [y Hy]. by apply (alter_alt_Some (λ _, x) _ _ y).
    - apply eq_None_not_Some in Hb. case_decide; [|done]. by rewrite Hb. }
  case_decide as Hin.
  2: { step execute_Live. intros [[[]|] ?] ? Hx.
       { destruct Hx as (?&Ht&_). by rewrite Hrun in Ht. }
       destruct Hx as [? _]. eapply rolled_back; [done|apply sqlite_error_not_ok|].
       intros ? ?. split; [done|]. intros _. rewrite sqlite_error_not_ok.
       rewrite bool_decide_false; tauto. }
  executed Hrun Hq0. prepared.
  assert (sql_delete_filter c s t1 = Some (mkSqliteTables (sq_collections t)
    (<[(c, s) := x]> (sq_secrets t)) (filter (λ kv, kv.1.1 ≠ (c, s)) (sq_filterData t)), tt))
    as Hrun2 by done.
  executed Hrun2 Hq1. prepared. apply wp_bind. eapply wp_mono.
  { eapply insert_filter_rows_spec; [done|apply NoDup_qmap_items|..]; simpl.
    - rewrite lookup_insert_eq. eauto.
    - intros f _. apply map_lookup_filter_None_2. right. naive_solver. }
  intros [txt9|] db9 H9.
  - destruct H9 as [? Hn]. eapply rolled_back; [done|apply sqlite_error_not_ok|].
    intros ? ?. split; [done|]. intros HG. destruct (Hq2 HG) as [-> _]. by specialize (Hn HG).
  - finished. rewrite bool_decide_true; tauto.
Qed.
End operations.

(** * The tables as an abstract store *)
Section view.
  Implicit Types (t : SqliteTables).

Lemma elem_of_sql_filter_of c s t f v :
  (f, v) ∈ sql_filter_of c s t ↔ sq_filterData t !! (c, s, f) = Some v.
Proof.
  unfold sql_filter_of. rewrite list_elem_of_fmap. split.
  - intros ([[k f'] v']&[= -> ->]&[Hk H]%list_elem_of_filter). simpl in *. subst.
    by apply elem_of_map_to_list.
  - intros H. exists ((c, s, f), v). split; [done|]. apply list_elem_of_filter.
    split; [done|]. by apply elem_of_map_to_list.
Qed.

Lemma NoDup_sql_filter_of c s t : NoDup (sql_filter_of c s t).*1.
Proof.
  unfold sql_filter_of. rewrite <-list_fmap_compose. apply NoDup_fmap_2_strong.
  - intros [[k f] v] [[k' f'] v'] [Hk H]%list_elem_of_filter [Hk' H']%list_elem_of_filter Hf.
    apply elem_of_map_to_list in H, H'. simpl in *. congruence.
  - apply NoDup_filter, NoDup_map_to_list.
Qed.

(** The filter data of a secret. *)
Definition fields_of (c s : string) t : FilterData :=
  foldl (λ m kv, <[kv.1 := kv.2]> m) ∅ (sql_filter_of c s t).

Lemma lookup_fields_of c s t f : fields_of c s t !! f = sq_filterData t !! (c, s, f).
Proof.
  apply option_eq. intros v. unfold fields_of.
  rewrite (lookup_foldl_insert (λ f, f)) by apply NoDup_sql_filter_of.
  setoid_rewrite elem_of_sql_filter_of. rewrite lookup_empty. naive_solver.
Qed.

(** What the plugin stores: its collections without the notional one, and the
    secrets with their filter data. *)
Definition sqlite_view t : Store :=
  mkStore (sq_collections t ∖ {["standalone"]})
    (map_imap (λ k x, Some (x, fields_of k.1 k.2 t)) (sq_secrets t)).

Lemma lookup_view t c s :
  st_secrets (sqlite_view t) !! (c, s) = (λ x, (x, fields_of c s t)) <$> sq_secrets t !! (c, s).
Proof. simpl. rewrite map_lookup_imap. by destruct (sq_secrets t !! (c, s)). Qed.

(** Equality of stores, secret by secret. *)
Lemma view_eq t st :
  st_collections (sqlite_view t) = st_collections st →
  (∀ c s, st_secrets (sqlite_view t) !! (c, s) = st_secrets st !! (c, s)) →
  sqlite_view t = st.
Proof.
  destruct st as [C S]. intros HC HS. simpl in HC. unfold sqlite_view. f_equal; [done|].
  apply map_eq. intros [c s]. apply HS.
Qed.

Lemma fields_of_eq c s t t' :
  (∀ f, sq_filterData t' !! (c, s, f) = sq_filterData t !! (c, s, f)) →
  fields_of c s t' = fields_of c s t.
Proof. intros H. apply map_eq. intros f. by rewrite !lookup_fields_of. Qed.

Lemma managed_not_standalone c : managed c → c ≠ "standalone" ∧ c ≠ "".
Proof. intros H. split; intros ->; by vm_compute in H. Qed.

Lemma view_create c t :
  managed c → c ∉ sq_collections t →
  sqlite_view (after (sql_insert_cname c) t) = store_create c (sqlite_view t).
Proof.
  intros [Hc _]%managed_not_standalone Hn. unfold after, sql_insert_cname.
  rewrite decide_False by done. apply view_eq; [simpl; set_solver|]. intros c' s.
  change (st_secrets (store_create c (sqlite_view t))) with (st_secrets (sqlite_view t)).
  rewrite !lookup_view. done.
Qed.

Lemma view_remove c t :
  managed c → sqlite_view (after (sql_delete_cname c) t) = store_remove c (sqlite_view t).
Proof.
  intros [Hc _]%managed_not_standalone. apply view_eq; [simpl; set_solver|]. intros c' s.
  rewrite lookup_view. simpl. rewrite !map_lookup_filter, map_lookup_imap. simpl.
  destruct (sq_secrets t !! (c', s)); simpl; [|done]. case_guard; simpl; [|done].
  do 2 f_equal. apply fields_of_eq. intros f. simpl. rewrite map_lookup_filter.
  destruct (sq_filterData t !! (c', s, f)); simpl; [|done]. by rewrite option_guard_True.
Qed.

Lemma view_delete c s t :
  sqlite_view (after (sql_delete_blob c s) t) = store_delete c s (sqlite_view t).
Proof.
  apply view_eq; [done|]. intros c' s'. rewrite lookup_view. simpl.
  destruct (decide ((c, s) = (c', s'))) as [[= <- <-]|Hne].
  { by rewrite !lookup_delete_eq. }
  rewrite !lookup_delete_ne, map_lookup_imap by done.
  destruct (sq_secrets t !! (c', s')); simpl; [|done]. do 2 f_equal. apply fields_of_eq.
  intros f. simpl. rewrite map_lookup_filter.
  destruct (sq_filterData t !! (c', s', f)); simpl; [|done]. by rewrite option_guard_True by congruence.
Qed.

Lemma view_set c s x fd t :
  sqlite_view (set_tables c s x fd t) = store_set c s x fd (sqlite_view t).
Proof.
  assert (∀ c' s' f, sq_filterData (set_tables c s x fd t) !! (c', s', f) =
    if decide ((c', s') = (c, s)) then fd !! f else sq_filterData t !! (c', s', f)) as Hfd.
  { intros c' s' f. apply option_eq. intros v. simpl.
    rewrite (lookup_foldl_insert (λ f, (c, s, f))) by apply NoDup_qmap_items.
    setoid_rewrite elem_of_qmap_items. rewrite map_lookup_filter_Some. simpl.
    case_decide as Hd; naive_solver. }
  apply view_eq; [done|]. intros c' s'. rewrite lookup_view. simpl.
  destruct (decide ((c, s) = (c', s'))) as [[= <- <-]|Hne].
  - rewrite !lookup_insert_eq. simpl. do 2 f_equal. apply map_eq. intros f.
    by rewrite lookup_fields_of, Hfd, decide_True.
  - rewrite !lookup_insert_ne, map_lookup_imap by done.
    destruct (sq_secrets t !! (c', s')); simpl; [|done]. do 2 f_equal. apply fields_of_eq.
    intros f. by rewrite Hfd, decide_False by congruence.
Qed.
End view.

(** Every modification keeps the invariant. *)
Section invariant.
  Implicit Types (t : SqliteTables).

Lemma wf_create c t : managed c → sqlite_wf t → sqlite_wf (after (sql_insert_cname c) t).
Proof.
  intros Hc [H1 H2 H3 H4]. unfold after, sql_insert_cname. case_decide; [done|]. simpl.
  split; simpl; [set_solver|..|done].
  - intros c' [->%elem_of_singleton|?]%elem_of_union; auto.
  - intros c' s Hs. apply elem_of_union_r. by eapply H3.
Qed.

Lemma wf_remove c t : managed c → sqlite_wf t → sqlite_wf (after (sql_delete_cname c) t).
Proof.
  intros [Hc _]%managed_not_standalone [H1 H2 H3 H4]. split; simpl; [set_solver|..].
  - intros c' [? _]%elem_of_difference. auto.
  - intros c' s [x [Hx Hne]%map_lookup_filter_Some]. simpl in *. apply elem_of_difference.
    split; [by eapply H3|set_solver].
  - intros c' s f [x [Hx Hne]%map_lookup_filter_Some]. simpl in *.
    destruct (H4 c' s f) as [y Hy]; [by eexists|]. exists y. by apply map_lookup_filter_Some.
Qed.

Lemma wf_delete c s t : sqlite_wf t → sqlite_wf (after (sql_delete_blob c s) t).
Proof.
  intros [H1 H2 H3 H4]. split; simpl; [done..| |].
  - intros c' s' [_ Hx]%lookup_delete_is_Some. by eapply H3.
  - intros c' s' f [x [Hx Hne]%map_lookup_filter_Some]. simpl in *.
    apply lookup_delete_is_Some. split; [congruence|]. eapply H4. by eexists.
Qed.

Lemma wf_set c s x fd t : c ∈ sq_collections t → sqlite_wf t → sqlite_wf (set_tables c s x fd t).
Proof.
  intros Hc [H1 H2 H3 H4]. split; simpl; [done..| |].
  - intros c' s' [[= <- <-]|[_ Hx]]%lookup_insert_is_Some; [done|by eapply H3].
  - intros c' s' f [v Hv]. apply (lookup_foldl_insert (λ f, (c, s, f))) in Hv;
      [|apply NoDup_qmap_items].
    apply lookup_insert_is_Some'.
    destruct Hv as [(a&[= -> -> ->]&_)|[_ [Hv _]%map_lookup_filter_Some]]; [by left|].
    right. eapply H4. by eexists.
Qed.
End invariant.

(** * The queries *)
Section queries.
  Context (G : Prop).
  Implicit Types (t : SqliteTables) (db : SqliteDb).

Lemma elem_of_sql_blob_names c s t :
  s ∈ sql_blob_names c t ↔ is_Some (sq_secrets t !! (c, s)).
Proof.
  unfold sql_blob_names. rewrite list_elem_of_fmap. split.
  - intros ([[c' s'] r]&->&[Hc H%elem_of_map_to_list]%list_elem_of_filter). simpl in *. subst. eauto.
  - intros [r H]. exists ((c, s), r). split; [done|]. apply list_elem_of_filter.
    split; [done|]. by apply elem_of_map_to_list.
Qed.

Lemma NoDup_sql_blob_names c t : NoDup (sql_blob_names c t).
Proof.
  unfold sql_blob_names. apply NoDup_fmap_2_strong.
  - intros [[c1 s1] x] [[c2 s2] y] [Hk H]%list_elem_of_filter [Hk' H']%list_elem_of_filter Hf.
    apply elem_of_map_to_list in H, H'. simpl in *. congruence.
  - apply NoDup_filter, NoDup_map_to_list.
Qed.

Lemma collectionNames_good t db :
  Idle True t db →
  wp sqlite_collectionNames (λ '(r, names) db', ok r = true ∧ Idle True t db'
    ∧ names = filter (λ c, c ≠ "standalone") (elements (sq_collections t))) db.
Proof.
  intros Hi. unfold sqlite_collectionNames. eapply opened_Idle; [done|]. apply wp_bind.
  eapply wp_mono; [by eapply prepare_Idle|]. intros [q txt] db1 [Hi1 Hq].
  destruct (Hq I) as [-> ->]. simpl. apply wp_bind.
  eapply wp_mono; [by eapply select_Idle|]. intros [[x|] txt'] db2 [Hi2 Hx]; [|by specialize (Hx I)].
  apply wp_ret. by subst.
Qed.

Lemma secretNames_good c t db :
  Idle True t db →
  wp (sqlite_secretNames c) (λ '(r, names) db', ok r = true ∧ Idle True t db'
    ∧ names = sql_blob_names c t) db.
Proof.
  intros Hi. unfold sqlite_secretNames. eapply opened_Idle; [done|]. apply wp_bind.
  eapply wp_mono; [by eapply prepare_Idle|]. intros [q txt] db1 [Hi1 Hq].
  destruct (Hq I) as [-> ->]. simpl. apply wp_bind.
  eapply wp_mono; [by eapply select_Idle|]. intros [[x|] txt'] db2 [Hi2 Hx]; [|by specialize (Hx I)].
  apply wp_ret. by subst.
Qed.

Lemma getSecret_good c s t db :
  Idle True t db → sqlite_wf t →
  wp (sqlite_getSecret c s) (λ '(r, x) db', Idle True t db' ∧
    match sq_secrets t !! (c, s) with
    | Some secret =>
        if decide (s ≠ "") then ok r = true ∧ x = Some (secret, fields_of c s t)
        else ok r = false ∧ x = None
    | None => ok r = false ∧ x = None
    end) db.
Proof.
  intros Hi Hwf. unfold sqlite_getSecret. eapply opened_Idle; [done|].
  pose proof (secret_name_error_spec c s) as Hc. destruct (secret_name_error c s) as [e|].
  { destruct Hc as [He Hm]. apply wp_ret. split; [done|].
    destruct (sq_secrets t !! (c, s)) eqn:Hs; [|done]. rewrite decide_False; [done|].
    assert (c ∈ sq_collections t) as Hin by (eapply wf_secrets; [done|by eexists]).
    destruct Hm as [?|Hm]; [tauto|]. subst. by destruct (wf_names _ Hwf _ Hin). }
  apply wp_bind. eapply wp_mono; [by eapply prepare_Idle|]. intros [q txt] db1 [Hi1 Hq].
  destruct (Hq I) as [-> ->]. simpl. apply wp_bind. eapply wp_mono; [by eapply begin_Idle|].
  intros [|] db2 Hl2; [|tauto]. simpl. apply wp_bind. eapply wp_mono; [by eapply select_Live|].
  intros [[x|] txt'] db3 H3; [|by destruct H3 as [_ H3]; specialize (H3 I)].
  destruct H3 as [-> Hl3]. destruct (sq_secrets t !! (c, s)) as [secret|].
  2: { eapply commit_or_rollback; [done| |tauto]. intros db' Hi'. by rewrite ok_error. }
  apply wp_bind. eapply wp_mono; [by eapply prepare_Live|]. intros [q' txt2] db4 [Hi4 Hq'].
  destruct (Hq' I) as [-> ->]. simpl. apply wp_bind. eapply wp_mono; [by eapply select_Live|].
  intros [[x|] txt3] db5 H5; [|by destruct H5 as [_ H5]; specialize (H5 I)].
  destruct H5 as [-> Hl5]. eapply commit_or_rollback; [done| |tauto].
  intros db' Hi'. by rewrite decide_True by tauto.
Qed.
End queries.

(** * The contract *)
Section contract.
  Implicit Types (t : SqliteTables) (db : SqliteDb).

Definition sqlite_ready db : Prop := ∃ t, Idle True t db ∧ sqlite_wf t.

Definition sqlite_store db : Store := sqlite_view (default inhabitant (content db)).

Lemma Idle_store G t db : Idle G t db → sqlite_store db = sqlite_view t.
Proof. intros [(_&_&_&Hc) _]. unfold sqlite_store. by rewrite Hc. Qed.

(** An operation that either turns [t] into [t'], when [D] holds, or fails. *)
Lemma ended_law (D : Prop) `{Decision D} t t' st' db (m : M SqliteDb Result) :
  Idle True t db → sqlite_wf t →
  (D → sqlite_wf t' ∧ sqlite_view t' = st') →
  wp m (λ r db', ended True t t' r db' ∧ (True → ok r = bool_decide D)) db →
  wp m (λ r db', sqlite_ready db' ∧
    if decide D then ok r = true ∧ sqlite_store db' = st'
    else ok r = false ∧ sqlite_store db' = sqlite_store db) db.
Proof.
  intros Hi Hwf HD Hm. eapply wp_mono; [exact Hm|]. intros r db' [He Hr].
  specialize (Hr I). unfold ended in He. rewrite Hr in *. rewrite (Idle_store _ _ _ Hi).
  case_decide as Hd.
  - rewrite bool_decide_true in * by done. destruct (HD Hd) as [? <-].
    split; [by exists t'|]. split; [done|]. by eapply Idle_store.
  - rewrite bool_decide_false in * by done. destruct He as [He|[[] _]]; [|done].
    split; [by exists t|]. split; [done|]. by eapply Idle_store.
Qed.

Lemma view_collections t c :
  sqlite_wf t → c ∈ st_collections (sqlite_view t) ↔ c ∈ sq_collections t ∧ managed c.
Proof.
  intros Hwf. simpl. rewrite elem_of_difference, not_elem_of_singleton. split.
  - intros [Hc Hn]. destruct (wf_names _ Hwf _ Hc); done.
  - intros [Hc [? _]%managed_not_standalone]. done.
Qed.

Lemma view_has_collection t c :
  sqlite_wf t → has_collection c (sqlite_view t) ↔ c ∈ sq_collections t.
Proof.
  intros Hwf. unfold has_collection. rewrite view_collections by done. split.
  - intros [[? _]| ->]; [done|]. by apply wf_standalone.
  - intros Hc. destruct (wf_names _ Hwf _ Hc); auto.
Qed.

#[global, program] Instance sqlite_spec : StoragePluginSpec SqliteDb := {|
  ready := sqlite_ready;
  store := sqlite_store;
|}.
Next Obligation. done. Qed.
Next Obligation.
  intros db c (t&Hi&Hwf). rewrite (Idle_store _ _ _ Hi), view_collections by done. tauto.
Qed.
Next Obligation.
  intros db c s (t&Hi&Hwf). rewrite (Idle_store _ _ _ Hi), lookup_view, fmap_is_Some.
  rewrite view_has_collection by done. by apply wf_secrets.
Qed.
Next Obligation.
  intros db (t&Hi&Hwf). eapply wp_mono; [by apply collectionNames_good|].
  intros [r names] db' (?&Hi'&->). rewrite (Idle_store _ _ _ Hi), (Idle_store _ _ _ Hi').
  split_and!; [done|by exists t|done|apply NoDup_filter, NoDup_elements|].
  intros c. rewrite list_elem_of_filter, elem_of_elements. simpl. set_solver.
Qed.
Next Obligation.
  intros db c (t&Hi&Hwf). eapply wp_mono; [by apply secretNames_good|].
  intros [r names] db' (?&Hi'&->). rewrite (Idle_store _ _ _ Hi), (Idle_store _ _ _ Hi').
  split_and!; [done|by exists t|done|apply NoDup_sql_blob_names|].
  intros s. by rewrite elem_of_sql_blob_names, lookup_view, fmap_is_Some.
Qed.
Next Obligation.
  intros db c (t&Hi&Hwf). eapply ended_law; [done..| |].
  - rewrite (Idle_store _ _ _ Hi). intros [Hm Hn]. rewrite view_collections in Hn by done.
    split; [by apply wf_create|]. apply view_create; [done|]. tauto.
  - eapply wp_mono; [by apply createCollection_ended|]. intros r db' [? Hr]. split; [done|].
    intros HG. rewrite (Hr HG). apply bool_decide_ext. rewrite (Idle_store _ _ _ Hi).
    rewrite view_collections by done. tauto.
Qed.
Next Obligation.
  intros db c (t&Hi&Hwf). eapply ended_law; [done..| |by apply removeCollection_ended].
  rewrite (Idle_store _ _ _ Hi). intros Hm. split; [by apply wf_remove|by apply view_remove].
Qed.
Next Obligation.
  intros db c s x fd (t&Hi&Hwf). eapply ended_law; [done..| |].
  - rewrite (Idle_store _ _ _ Hi), view_has_collection by done. intros [Hs Hc].
    split; [by apply wf_set|by apply view_set].
  - eapply wp_mono; [by apply setSecret_ended|]. intros r db' [? Hr]. split; [done|].
    intros HG. rewrite (Hr HG). apply bool_decide_ext. rewrite (Idle_store _ _ _ Hi).
    by rewrite view_has_collection.
Qed.
Next Obligation.
  intros db c s (t&Hi&Hwf). eapply ended_law; [done..| |by apply removeSecret_ended].
  rewrite (Idle_store _ _ _ Hi). intros _. split; [by apply wf_delete|by apply view_delete].
Qed.
Next Obligation.
  intros db c s (t&Hi&Hwf). eapply wp_mono; [by apply getSecret_good|].
  intros [r x] db' [Hi' Hx]. rewrite (Idle_store _ _ _ Hi), (Idle_store _ _ _ Hi'), lookup_view.
  split; [by exists t|]. split; [done|].
  destruct (sq_secrets t !! (c, s)); case_decide; simpl; destruct Hx as [? ->]; naive_solver.
Qed.
End contract.
