(* ===== verification/SqliteSearch.v ===== *)
(** The SQLite storage plugin, continued: what [findSecrets] finds, what
    [reencrypt] writes, and how the database comes into being. *)
From S2P Require Import Prelude Result Sqlite Transactions MetadataDb PluginApi SqlitePlugin.
From S2P Require Import SqlitePluginSpec.

#[local] Arguments select : simpl never.
#[local] Arguments execute : simpl never.

(** * The filter *)
Section filter.
  Implicit Types (flt fd : FilterData).

(** The filter data [fd] has the field [k] with the value [v], in any case. *)
Definition field_matches fd (k v : string) : Prop :=
  ∃ k' v', fd !! k' = Some v' ∧ eq_ci k k' = true ∧ eq_ci v v' = true.

(** What [findSecrets] promises for its two operators. *)
Definition filter_spec (op : FilterOperator) flt fd : Prop :=
  match op with
  | OperatorOr => ∃ k v, flt !! k = Some v ∧ field_matches fd k v
  | OperatorAnd => ∀ k v, flt !! k = Some v → field_matches fd k v
  end.

(** No two fields differ only in case. *)
Definition ci_distinct fd : Prop :=
  ∀ k1 k2, is_Some (fd !! k1) → is_Some (fd !! k2) → lower k1 = lower k2 → k1 = k2.

Definition hit (items : list (string * string)) (key value : string) : bool :=
  existsb (λ kv, eq_ci key kv.1 && eq_ci value kv.2) items.

Lemma hit_found key value items :
  Forall (λ kv, eq_ci key kv.1 = false) items → hit items key value = false.
Proof. induction 1 as [|[k v] l Hk _ IH]; simpl in *; [done|]. by rewrite Hk. Qed.

(** The inner loop finds the field if it is there. *)
Lemma mit_loop_spec op key value items m :
  NoDup (lower <$> items.*1) →
  mit_loop op key value items m =
    (existsb (λ kv, eq_ci key kv.1) items,
     match op with
     | OperatorOr => m || hit items key value
     | OperatorAnd => m && (negb (existsb (λ kv, eq_ci key kv.1) items) || hit items key value)
     end).
Proof.
  induction items as [|[k v] items IH]; simpl; intros Hnd.
  { destruct op; by rewrite ?orb_false_r, ?andb_true_r. }
  apply NoDup_cons in Hnd as [Hk Hnd]. destruct (eq_ci key k) eqn:Hkey; simpl; [|by apply IH].
  assert (hit items key value = false) as ->.
  { apply hit_found, Forall_forall. intros [k' v'] Hin. simpl. unfold eq_ci in *.
    apply bool_decide_eq_true in Hkey. apply bool_decide_eq_false. rewrite Hkey. intros Heq.
    apply Hk. rewrite Heq. apply list_elem_of_fmap. exists k'. split; [done|].
    apply list_elem_of_fmap. by exists (k', v'). }
  rewrite orb_false_r. destruct op, (eq_ci value v), m; done.
Qed.

Lemma hit_implies_found items key value :
  hit items key value = true → existsb (λ kv, eq_ci key kv.1) items = true.
Proof.
  unfold hit. rewrite !existsb_exists. intros (kv&Hin&[? _]%andb_prop). by exists kv.
Qed.

Lemma fit_loop_spec op curr items m :
  NoDup (lower <$> curr.*1) →
  fit_loop op curr items m =
    match op with
    | OperatorOr => m || existsb (λ kv, hit curr kv.1 kv.2) items
    | OperatorAnd => if decide (items = []) then m else m && forallb (λ kv, hit curr kv.1 kv.2) items
    end.
Proof.
  intros Hnd. revert m. induction items as [|[k v] items IH]; intros m; cbn [fit_loop].
  { destruct op; simpl; by rewrite ?orb_false_r. }
  rewrite mit_loop_spec by done. pose proof (hit_implies_found curr k v) as Hf.
  destruct op; cbn -[hit].
  - rewrite andb_false_r, IH. by rewrite orb_assoc.
  - rewrite andb_true_r. destruct (existsb _ curr); cbn -[hit].
    + rewrite IH. destruct (hit curr k v); rewrite ?andb_true_r, ?andb_false_r; simpl;
        case_decide; subst; simpl; by rewrite ?andb_true_r.
    + destruct (hit curr k v); [by specialize (Hf eq_refl)|]. by rewrite andb_false_r.
Qed.

Lemma NoDup_qmap_items_ci fd : ci_distinct fd → NoDup (lower <$> (qmap_items fd).*1).
Proof.
  intros Hd. rewrite fst_qmap_items.
  apply NoDup_fmap_2_strong; [|apply NoDup_qmap_keys].
  intros k1 k2 H1%elem_of_qmap_keys H2%elem_of_qmap_keys. by apply Hd.
Qed.

Lemma hit_spec fd k v : hit (qmap_items fd) k v = true ↔ field_matches fd k v.
Proof.
  unfold hit, field_matches. rewrite existsb_exists. split.
  - intros ([k' v']&Hin%list_elem_of_In%elem_of_qmap_items&[? ?]%andb_prop). eauto.
  - intros (k'&v'&H&Hk&Hv). exists (k', v'). simpl. rewrite Hk, Hv. split; [|done].
    by apply list_elem_of_In, elem_of_qmap_items.
Qed.

Lemma qmap_items_nil flt : qmap_items flt = [] → flt = ∅.
Proof.
  intros Hn. apply map_empty. intros k. apply eq_None_not_Some. intros [v Hv].
  apply elem_of_qmap_items in Hv. rewrite Hn in Hv. by apply elem_of_nil in Hv.
Qed.

(** The loops of [findSecrets] compute the specification. *)
Lemma filter_matches_spec op flt fd :
  ci_distinct fd → filter_matches op flt fd = true ↔ filter_spec op flt fd.
Proof.
  intros Hd. unfold filter_matches. rewrite fit_loop_spec by by apply NoDup_qmap_items_ci.
  destruct op; simpl.
  - rewrite existsb_exists. split.
    + intros ([k v]&Hin%list_elem_of_In%elem_of_qmap_items&H%hit_spec). eauto.
    + intros (k&v&H&Hm%hit_spec). exists (k, v). split; [|done].
      by apply list_elem_of_In, elem_of_qmap_items.
  - case_decide as Hn.
    + apply qmap_items_nil in Hn. subst. split; [|done]. intros _ k v. by rewrite lookup_empty.
    + rewrite forallb_forall. split.
      * intros H k v Hkv. apply hit_spec. apply (H (k, v)).
        by apply list_elem_of_In, elem_of_qmap_items.
      * intros H [k v] Hin%list_elem_of_In%elem_of_qmap_items. by apply hit_spec, H.
Qed.

(** Without filter data nothing matches a filter. *)
Lemma filter_matches_empty op flt : flt ≠ ∅ → filter_matches op flt ∅ = false.
Proof.
  intros Hne. apply not_true_is_false. rewrite filter_matches_spec.
  2: { intros k1 k2 []. by rewrite lookup_empty in *. }
  destruct op; simpl.
  - intros (?&?&_&?&?&Hn&_). by rewrite lookup_empty in Hn.
  - intros H. apply Hne, map_empty. intros k. apply eq_None_not_Some. intros [v Hv].
    destruct (H k v Hv) as (?&?&Hn&_). by rewrite lookup_empty in Hn.
Qed.
End filter.

(** * [findSecrets] *)
Section find.
  Implicit Types (t : SqliteTables) (db : SqliteDb) (rows : list (string * string * string)).

(** The map of filter data holds exactly the rows. *)
Lemma secretNameToFilterData_spec rows :
  NoDup rows.*1 →
  ∀ n, (is_Some (secretNameToFilterData rows !! n) ↔ ∃ f v, (n, f, v) ∈ rows)
       ∧ ∀ f v, default ∅ (secretNameToFilterData rows !! n) !! f = Some v ↔ (n, f, v) ∈ rows.
Proof.
  induction rows as [|[[n0 f0] v0] rows IH] using rev_ind; intros Hnd n.
  { setoid_rewrite elem_of_nil. unfold secretNameToFilterData; simpl. rewrite lookup_empty.
    setoid_rewrite lookup_empty. split; [|naive_solver]. split; [by intros []|naive_solver]. }
  rewrite fmap_app in Hnd. apply NoDup_app in Hnd as (Hnd&Hnew&_). simpl in *.
  specialize (IH Hnd). unfold secretNameToFilterData in *. rewrite foldl_app. simpl.
  setoid_rewrite elem_of_app. setoid_rewrite list_elem_of_singleton.
  set (m := foldl _ ∅ rows) in *. destruct (decide (n0 = n)) as [<-|Hne].
  - rewrite lookup_insert_eq. simpl. split; [split; eauto|]. intros f v.
    destruct (decide (f0 = f)) as [<-|Hf].
    + rewrite lookup_insert_eq. split; [intros [= <-]; auto|]. intros [Hin|[= ->]]; [|done].
      destruct (Hnew (n0, f0)); [|by left]. apply list_elem_of_fmap. by exists (n0, f0, v).
    + rewrite lookup_insert_ne by done. rewrite (proj2 (IH n0)). naive_solver.
  - rewrite lookup_insert_ne by done. destruct (IH n) as [IH1 IH2]. split.
    + rewrite IH1. naive_solver.
    + intros f v. rewrite IH2. naive_solver.
Qed.

Lemma elem_of_sql_filter_rows c n f v t :
  (n, f, v) ∈ sql_filter_rows c t ↔ sq_filterData t !! (c, n, f) = Some v.
Proof.
  unfold sql_filter_rows. rewrite list_elem_of_fmap. split.
  - intros ([[[c' n'] f'] v']&[= -> -> ->]&[Hk H]%list_elem_of_filter). simpl in *. subst.
    by apply elem_of_map_to_list.
  - intros H. exists ((c, n, f), v). split; [done|]. apply list_elem_of_filter.
    split; [done|]. by apply elem_of_map_to_list.
Qed.

Lemma NoDup_sql_filter_rows c t : NoDup (sql_filter_rows c t).*1.
Proof.
  unfold sql_filter_rows. rewrite <-list_fmap_compose. apply NoDup_fmap_2_strong.
  - intros [[[c1 n1] f1] v1] [[[c2 n2] f2] v2] [Hk H]%list_elem_of_filter
      [Hk' H']%list_elem_of_filter Hf. apply elem_of_map_to_list in H, H'. simpl in *. congruence.
  - apply NoDup_filter, NoDup_map_to_list.
Qed.

Lemma elem_of_matchingSecretNames op flt c s t :
  flt ≠ ∅ →
  s ∈ matchingSecretNames op flt (secretNameToFilterData (sql_filter_rows c t)) ↔
  filter_matches op flt (fields_of c s t) = true.
Proof.
  intros Hflt. unfold matchingSecretNames. rewrite list_elem_of_filter, elem_of_qmap_keys.
  destruct (secretNameToFilterData_spec (sql_filter_rows c t) (NoDup_sql_filter_rows c t) s)
    as [Hdom Hval]. set (m := secretNameToFilterData _) in *.
  assert (default ∅ (m !! s) = fields_of c s t) as ->.
  { apply map_eq. intros f. apply option_eq. intros v.
    by rewrite Hval, elem_of_sql_filter_rows, lookup_fields_of. }
  split; [tauto|]. intros Hm. split; [done|]. apply Hdom. setoid_rewrite elem_of_sql_filter_rows.
  destruct (map_choose (fields_of c s t)) as (f&v&Hf).
  - intros He. rewrite He, filter_matches_empty in Hm; done.
  - rewrite lookup_fields_of in Hf. eauto.
Qed.

(** In a good environment, a search with a filter finds the secrets whose
    filter data match, once each; whatever happens, the tables stay as they
    are as long as the transaction ends. *)
Lemma findSecrets_good c flt op t db :
  Idle True t db → sqlite_wf t →
  wp (sqlite_findSecrets c flt op) (λ '(r, names) db', Idle True t db' ∧
    if decide (c ≠ "" ∧ flt ≠ ∅)
    then ok r = true ∧ NoDup names
         ∧ ∀ s, s ∈ names ↔ ∃ x fd, st_secrets (sqlite_view t) !! (c, s) = Some (x, fd)
                                    ∧ filter_matches op flt fd = true
    else ok r = false ∧ names = []) db.
Proof.
  intros Hi Hwf. unfold sqlite_findSecrets. eapply opened_Idle; [done|]. unfold isEmpty.
  case_bool_decide as Hc.
  { apply wp_ret. rewrite decide_False by tauto. by rewrite ok_error. }
  case_bool_decide as Hflt.
  { apply wp_ret. rewrite decide_False by tauto. by rewrite ok_error. }
  apply wp_bind. eapply wp_mono; [by eapply prepare_Idle|]. intros [q txt] db1 [Hi1 Hq].
  destruct (Hq I) as [-> ->]. simpl. apply wp_bind. eapply wp_mono; [by eapply begin_Idle|].
  intros [|] db2 Hl2; [|tauto]. simpl. apply wp_bind. eapply wp_mono; [by eapply select_Live|].
  intros [[x|] txt'] db3 H3; [|by destruct H3 as [_ H3]; specialize (H3 I)].
  destruct H3 as [-> Hl3]. eapply commit_or_rollback; [done| |tauto]. intros db' Hi'.
  rewrite decide_True by done. split_and!; [done..| |].
  { apply NoDup_filter, NoDup_qmap_keys. }
  intros s. rewrite elem_of_matchingSecretNames by done. setoid_rewrite lookup_view. split.
  - intros Hm. destruct (map_choose (fields_of c s t)) as (f&v&Hf).
    { intros He. by rewrite He, filter_matches_empty in Hm. }
    rewrite lookup_fields_of in Hf.
    destruct (wf_filterData _ Hwf c s f) as [x Hx]; [by eexists|]. rewrite Hx. simpl. eauto.
  - intros (x&fd&H&Hm). apply fmap_Some in H as (y&_&[= -> ->]). done.
Qed.
End find.

(** * [reencrypt] *)
Section reencrypt.
  Context (plugin : EncryptionPlugin) (oldkey newkey : bytes).
  Implicit Types (t : SqliteTables) (db : SqliteDb).

(** [y] is [x] decrypted with the old key and encrypted with the new one. *)
Definition reencrypts (x y : bytes) : Prop :=
  let '(r1, plaintext) := decryptSecret plugin x oldkey in
  let '(r2, z) := encryptSecret plugin plaintext newkey in
  ok r1 = true ∧ ok r2 = true ∧ y = z.

(** Exactly the blobs selected by [cond] are encrypted anew. *)
Definition reencrypted (cond : string * string → bool) t t' : Prop :=
  sq_collections t' = sq_collections t ∧ sq_filterData t' = sq_filterData t
  ∧ ∀ k, match sq_secrets t !! k with
         | None => sq_secrets t' !! k = None
         | Some x => if cond k then ∃ y, reencrypts x y ∧ sq_secrets t' !! k = Some y
                     else sq_secrets t' !! k = Some x
         end.

Lemma reencrypt_rows_spec rows :
  match reencrypt_rows plugin oldkey newkey rows with
  | inl r => ok r = false ∧ ∃ k x, (k, x) ∈ rows ∧ ∀ y, ¬ reencrypts x y
  | inr l => Forall2 (λ row row', row'.1 = row.1 ∧ reencrypts row.2 row'.2) rows l
  end.
Proof.
  induction rows as [|[[c s] x] rows IH]; simpl; [done|].
  destruct (decryptSecret plugin x oldkey) as [r1 p] eqn:Hd. destruct (ok r1) eqn:H1; simpl.
  2: { split; [done|]. exists (c, s), x. split; [by left|]. intros y. unfold reencrypts.
       rewrite Hd. destruct (encryptSecret plugin p newkey). intros (?&?&?). congruence. }
  destruct (encryptSecret plugin p newkey) as [r2 y] eqn:He. destruct (ok r2) eqn:H2; simpl.
  2: { split; [done|]. exists (c, s), x. split; [by left|]. intros y'. unfold reencrypts.
       rewrite Hd, He. intros (?&?&?). congruence. }
  destruct (reencrypt_rows plugin oldkey newkey rows) as [r|l].
  - destruct IH as (?&k&x'&?&?). split; [done|]. exists k, x'. split; [by right|done].
  - constructor; [|done]. simpl. split; [done|]. unfold reencrypts. rewrite Hd, He. done.
Qed.

Definition update_of (row : string * string * bytes) : SqliteTables → option SqliteTables :=
  let '(c, s, x) := row in sql_update_blob x c s.

Definition updated t (rows : list (string * string * bytes)) : SqliteTables :=
  foldl (λ t row, mkSqliteTables (sq_collections t) (alter (λ _, row.2) row.1 (sq_secrets t))
                    (sq_filterData t)) t rows.

Lemma executeBatch_Live G q rows t0 t db :
  Live G t0 t db →
  wp (executeBatch q (update_of <$> rows)) (λ '(b, txt) db',
    if (b : bool) then Live G t0 (updated t rows) db' else Aborted G t0 db' ∧ (G → q = false)) db.
Proof.
  revert t db. induction rows as [|[[c s] x] rows IH]; intros t db Hl; simpl; [by apply wp_ret|].
  apply wp_bind. eapply wp_mono; [by eapply execute_Live|]. simpl. intros [[[]|] txt] db' Hx.
  - destruct Hx as (t'&[= <-]&Hl'). by apply IH.
  - destruct Hx as [Ha Hn]. apply wp_ret. split; [done|]. intros HG. destruct q; [|done].
    by specialize (Hn HG eq_refl).
Qed.

Lemma updated_fields rows t :
  sq_collections (updated t rows) = sq_collections t
  ∧ sq_filterData (updated t rows) = sq_filterData t.
Proof.
  unfold updated. revert t. induction rows as [|r rows IH]; intros t; simpl; [done|].
  set (t1 := mkSqliteTables _ _ _). by destruct (IH t1) as [-> ->].
Qed.

Lemma lookup_updated rows t k :
  NoDup rows.*1 →
  sq_secrets (updated t rows) !! k =
    match list_find (λ row, row.1 = k) rows with
    | Some (_, row) => (λ _, row.2) <$> sq_secrets t !! k
    | None => sq_secrets t !! k
    end.
Proof.
  unfold updated. revert t. induction rows as [|[k0 x] rows IH]; intros t Hnd; [done|].
  apply NoDup_cons in Hnd as [Hk Hnd]. cbn [foldl fst snd]. rewrite IH by done. simpl.
  case_decide as Hd.
  - simpl in Hd. subst. replace (list_find (λ row, row.1 = k) rows) with (@None (nat * (string * string * bytes))).
    + simpl. by rewrite lookup_alter_eq.
    + symmetry. apply list_find_None, Forall_forall. intros row Hr Heq. apply Hk.
      apply list_elem_of_fmap. exists row. by split.
  - destruct (list_find (λ row, row.1 = k) rows) as [[i row]|]; simpl;
      by rewrite lookup_alter_ne by done.
Qed.

(** The updates computed from the selected rows do what is promised. *)
Lemma updated_reencrypted cond rows t :
  Forall2 (λ row row', row'.1 = row.1 ∧ reencrypts row.2 row'.2) (sql_blob_rows cond t) rows →
  reencrypted cond t (updated t rows).
Proof.
  intros Hrows. destruct (updated_fields rows t) as [Hc Hf]. split_and!; [done..|]. intros k.
  assert (rows.*1 = (sql_blob_rows cond t).*1) as Hfst.
  { clear Hc Hf. revert Hrows. generalize (sql_blob_rows cond t). intros l Hrows.
    induction Hrows as [|?? ?? [Heq _] _ IH]; csimpl; [done|]. by rewrite IH, Heq. }
  assert (NoDup rows.*1) as Hnd.
  { rewrite Hfst. unfold sql_blob_rows. apply NoDup_fmap_2_strong.
    - intros [k1 x1] [k2 x2] [_ H1]%list_elem_of_filter [_ H2]%list_elem_of_filter Heq.
      apply elem_of_map_to_list in H1, H2. simpl in *. congruence.
    - apply NoDup_filter, NoDup_map_to_list. }
  rewrite lookup_updated by done.
  destruct (list_find (λ row, row.1 = k) rows) as [[i row]|] eqn:Hfind.
  - apply list_find_Some in Hfind as (Hi&Hk&_).
    destruct (Forall2_lookup_r _ _ _ _ _ Hrows Hi) as (row0&Hi0&Hk0&Hre).
    apply list_elem_of_lookup_2 in Hi0. destruct row0 as [k0 x0], row as [k' y]; simpl in *. subst.
    apply list_elem_of_filter in Hi0 as [Hcond Hin]. simpl in *.
    apply elem_of_map_to_list in Hin. rewrite Hin. simpl. apply Is_true_true in Hcond. rewrite Hcond. eauto.
  - destruct (sq_secrets t !! k) as [x|] eqn:Hk; [|done].
    destruct (cond k) eqn:Hcond; [|done].
    assert (k ∈ rows.*1) as Hin.
    { rewrite Hfst. apply list_elem_of_fmap. exists (k, x). split; [done|].
      apply list_elem_of_filter. split; [simpl; by rewrite Hcond|]. by apply elem_of_map_to_list. }
    apply list_find_None in Hfind. apply list_elem_of_fmap in Hin as (row&->&Hin).
    by eapply Forall_forall in Hfind.
Qed.

(** When [reencrypt] has to succeed. *)
Definition reencryptable c s t : Prop :=
  ¬ (c = "" ∧ s = "")
  ∧ ∀ k x, sq_secrets t !! k = Some x → reencrypt_condition c s k = true → ∃ y, reencrypts x y.

(** How [reencrypt] may end. *)
Definition reencrypt_post (G : Prop) c s t (r : Result) db : Prop :=
  (∃ t', ended G t t' r db ∧ (ok r = true → reencrypted (reencrypt_condition c s) t t'))
  ∧ (G → ok r = true ↔ reencryptable c s t).

Lemma reencrypt_failed G c s t r db :
  ok r = false → ended G t t r db → (G → ¬ reencryptable c s t) → reencrypt_post G c s t r db.
Proof.
  intros Hr He HG. split; [exists t; split; [done|congruence]|]. intros HG'. specialize (HG HG').
  split; [congruence|done].
Qed.

Lemma reencrypt_rolled_back (G : Prop) c s t r db :
  Aborted G t db → ok r = false → (G → ¬ reencryptable c s t) →
  wp (rollbackTransaction ;;; ret r) (reencrypt_post G c s t) db.
Proof. intros Ha Hr HG. eapply rolled_back; [done..|]. intros. by apply reencrypt_failed. Qed.

(** Whatever the engine does, [reencrypt] succeeds and every selected blob is
    encrypted anew, or fails and, unless the transaction could not be ended,
    none is.  In a good environment it fails only for the names, or for a blob
    that cannot be decrypted or encrypted. *)
Lemma reencrypt_ended (G : Prop) c s t db :
  Idle G t db →
  wp (sqlite_reencrypt c s oldkey newkey plugin) (reencrypt_post G c s t) db.
Proof.
  intros Hi. unfold sqlite_reencrypt. eapply opened_Idle; [done|].
  destruct (isEmpty c && isEmpty s) eqn:Hcs.
  { apply wp_ret, reencrypt_failed; [by apply ok_error|by apply ended_refused; [apply ok_error|]|].
    intros _ [Hn _]. apply Hn. unfold isEmpty in Hcs. by apply andb_prop in Hcs as [?%bool_decide_eq_true ?%bool_decide_eq_true]. }
  apply wp_bind. eapply wp_mono; [by eapply prepare_Idle|]. intros [q txt] db1 [Hi1 Hq].
  unfold isEmpty at 1. case_bool_decide as Ht; simpl.
  2: { apply wp_ret, reencrypt_failed; [apply sqlite_error_not_ok|
         by apply ended_refused; [apply sqlite_error_not_ok|]|]. intros HG. by destruct (Hq HG). }
  apply wp_bind. eapply wp_mono; [by eapply begin_Idle|]. intros [|] db2 Hl2; simpl.
  2: { destruct Hl2. apply wp_ret, reencrypt_failed; [by apply ok_error|
         by apply not_begun; [|apply ok_error|..]|done]. }
  apply wp_bind. eapply wp_mono; [by eapply select_Live|]. intros [[rows|] txt'] db3 H3.
  2: { destruct H3 as [Ha Hn]. apply reencrypt_rolled_back; [done|apply sqlite_error_not_ok|].
       intros HG. destruct (Hq HG) as [-> _]. by specialize (Hn HG). }
  destruct H3 as [-> Hl3].
  pose proof (reencrypt_rows_spec (sql_blob_rows (reencrypt_condition c s) t)) as Hrows.
  destruct (reencrypt_rows _ _ _ _) as [r|updates].
  { destruct Hrows as (Hr&k&x&Hin&Hno). apply reencrypt_rolled_back; [by eapply Live_Aborted|done|].
    intros _ [_ Hall]. apply list_elem_of_filter in Hin as [Hc Hin]. simpl in Hc.
    apply elem_of_map_to_list in Hin. destruct (Hall k x) as [y Hy]; [done|by apply Is_true_true|].
    by destruct (Hno y). }
  apply wp_bind. eapply wp_mono; [by eapply prepare_Live|]. intros [q2 txt2] db4 [Hl4 Hq2].
  unfold isEmpty. case_bool_decide as Ht2; simpl.
  2: { apply reencrypt_rolled_back; [by eapply Live_Aborted|apply sqlite_error_not_ok|].
       intros HG. by destruct (Hq2 HG). }
  apply wp_bind. eapply wp_mono; [by eapply (executeBatch_Live G q2 updates)|].
  intros [[|] txt5] db5 H5; simpl.
  2: { destruct H5 as [Ha Hn]. apply reencrypt_rolled_back; [done|apply sqlite_error_not_ok|].
       intros HG. destruct (Hq2 HG) as [-> _]. by specialize (Hn HG). }
  pose proof (updated_reencrypted _ _ _ Hrows) as Hre.
  eapply wp_mono; [by eapply finish_Live|]. intros r db' [He Hr]. split; [by eexists|].
  intros HG. split; [intros _|auto]. split.
  - intros [-> ->]. by vm_compute in Hcs.
  - destruct Hre as (_&_&Hre). intros k x Hk Hc. specialize (Hre k). rewrite Hk, Hc in Hre.
    destruct Hre as (y&?&_). eauto.
Qed.
End reencrypt.

(** * The first use of the plugin *)
Section first_use.
  Implicit Types (t : SqliteTables) (db : SqliteDb).

(** A closed connection in a good environment, on a file that holds [t], or on
    no file. *)
Definition closed_on (o : option SqliteTables) db : Prop :=
  m_open db = false ∧ snapshot db = None ∧ m_transactionSemaphore db = 0%Z
  ∧ Forall (λ f, f = None) (faults db)
  ∧ file db = (λ t, DbFile t (Some "") 1) <$> o.

Lemma sqlite_setup_plain : setup_for "" sqlite_setup.
Proof. right. split; [done|]. repeat constructor. Qed.

Lemma open_sqlite o db :
  closed_on o db →
  wp (open sqlite_setup sqlite_create sqlite_upgrades 1)
     (λ b db', b = true ∧ Idle True (default inhabitant o) db') db.
Proof.
  intros (Ho&Hs&Hn&Hf&Hfile). destruct o as [t|]; simpl in *.
  - eapply wp_mono; [by eapply (open_existing "" t (Some "")); auto using sqlite_setup_plain|].
    intros b db' (?&?&?). split; [done|]. by split.
  - eapply wp_mono; [by eapply (open_new ""); auto using sqlite_setup_plain|].
    intros b db' (?&?&?&_). split; [done|]. by split.
Qed.

(** Opening makes the plugin ready: a new database stores nothing, an existing
    one what its file holds. *)
Lemma openDatabaseIfNecessary_good o db :
  closed_on o db → match o with Some t => sqlite_wf t | None => True end →
  wp openDatabaseIfNecessary (λ _ db', sqlite_ready db'
    ∧ sqlite_store db' = match o with Some t => sqlite_view t | None => mkStore ∅ ∅ end) db.
Proof.
  intros Hc Hwf. pose proof Hc as (Ho&_). unfold openDatabaseIfNecessary.
  apply wp_bind, wp_gets. unfold isOpen. rewrite Ho. apply wp_bind.
  eapply wp_mono; [by apply open_sqlite|]. intros b db1 [-> Hi1]. simpl.
  apply wp_bind. eapply wp_mono; [by eapply prepare_Idle|]. intros [q txt] db2 [Hi2 Hq].
  destruct (Hq I) as [-> ->]. apply wp_bind. eapply wp_mono; [by eapply begin_Idle|].
  intros [|] db3 Hl3; [|tauto]. simpl. apply wp_bind. eapply wp_mono; [by eapply execute_Live|].
  intros [[[]|] txt'] db4 H4.
  - destruct H4 as (t'&Hrun&Hl4). apply wp_bind. unfold wp at 1.
    destruct Hl4 as [Hl4 Hg4]. destruct (commit_spec _ _ _ Hl4) as [Hcm Hcg].
    destruct (Hcg (Hg4 I)) as [Hg5 Hb]. rewrite Hb in Hcm.
    set (db5 := (commitTransaction db4).2) in *. assert (Idle True t' db5) as Hi5 by done.
    apply wp_ret. rewrite (Idle_store _ _ _ Hi5). unfold sql_insert_cname in Hrun.
    case_decide as Hin; [done|]. injection Hrun as <-. destruct o as [t|]; simpl in *.
    { by destruct Hin; apply wf_standalone. }
    split.
    + eexists. split; [done|]. split; simpl; [set_solver|set_solver|..];
        intros; rewrite lookup_empty in *; by destruct H.
    + apply view_eq; [simpl; set_solver|]. intros c s. rewrite lookup_view. simpl.
      by rewrite !lookup_empty.
  - destruct H4 as [Ha Hn]. specialize (Hn I eq_refl). unfold sql_insert_cname in Hn.
    case_decide as Hin; [|done]. destruct o as [t|]; simpl in *; [|set_solver].
    apply wp_bind. eapply wp_mono; [by eapply rollback_Aborted|]. intros ? db5 Hi5.
    apply wp_ret. rewrite (Idle_store _ _ _ Hi5). split; [by exists t|done].
Qed.
End first_use.
