(* ===== verification/SqlCipherPlugin.v ===== *)
(** The SQLCipher encrypted storage plugin
    (plugins/sqlcipherplugin/encryptedstorageplugin.cpp): one encrypted database
    per collection, opened with the collection's key.

    A collection is unlocked while the plugin holds an open connection to its
    database.  SHA-256 (QCryptographicHash) and PBKDF2 (OpenSSL) are parameters,
    and so is the name of the process's locale.  The Timestamp column is never
    read and is left out. *)
From S2P Require Import Prelude Result Sqlite MetadataDb PluginApi SqlitePlugin.
From Stdlib Require Import Ascii String.

(** The tables Secrets and SecretsFilterData of one collection, by their primary
    keys. *)
Record CipherTables := mkCipherTables {
  ct_secrets : gmap string bytes;
  ct_filterData : gmap (string * string) string;
}.

#[global] Instance CipherTables_inhabited : Inhabited CipherTables :=
  populate (mkCipherTables ∅ ∅).

Abbreviation CipherDb := (Database CipherTables).

(** What the plugin calls outside the repository. *)
Class CipherEnv := {
  localeName : string;                        (* QLocale().name() *)
  sha256Hex : bytes → string;                 (* QCryptographicHash::hash(..., Sha256).toHex() *)
  pbkdf2 : bytes → bytes → option bytes;      (* code, salt; None: it failed *)
}.

(** The state of the plugin: the file <name>.db of each collection with the last
    connection to it, and the names in [m_collectionDatabases].  A name without
    an entry has no file. *)
Record SqlCipher := mkSqlCipher {
  databases : gmap string CipherDb;
  m_collectionDatabases : gset string;
}.

Definition no_database : CipherDb := mkDatabase false "" None None "C" [] 0 [].

Definition database (c : string) (p : SqlCipher) : CipherDb := default no_database (databases p !! c).

Definition set_database (c : string) (db : CipherDb) (p : SqlCipher) : SqlCipher :=
  mkSqlCipher (<[c := db]> (databases p)) (m_collectionDatabases p).

Definition on_database {A} (c : string) (m : M CipherDb A) : M SqlCipher A :=
  zoom (database c) (set_database c) m.

(** [QFile::exists] of the database of a collection. *)
Definition exists_file (c : string) (p : SqlCipher) : bool := bool_decide (is_Some (file (database c p))).

(** [m_collectionDatabases.contains] *)
Definition opened (c : string) (p : SqlCipher) : bool := bool_decide (c ∈ m_collectionDatabases p).

(** * The statements *)

Definition sql_update_secret (x : bytes) (s : string) (t : CipherTables) : option CipherTables :=
  Some (mkCipherTables (alter (λ _, x) s (ct_secrets t)) (ct_filterData t)).

(** INSERT INTO Secrets; PRIMARY KEY. *)
Definition sql_insert_secret_blob (s : string) (x : bytes) (t : CipherTables) : option CipherTables :=
  match ct_secrets t !! s with
  | Some _ => None
  | None => Some (mkCipherTables (<[s := x]> (ct_secrets t)) (ct_filterData t))
  end.

(** DELETE FROM SecretsFilterData WHERE SecretName = ? *)
Definition sql_delete_fields (s : string) (t : CipherTables) : option (CipherTables * unit) :=
  Some (mkCipherTables (ct_secrets t) (filter (λ kv, kv.1.1 ≠ s) (ct_filterData t)), tt).

(** INSERT INTO SecretsFilterData; FOREIGN KEY and PRIMARY KEY. *)
Definition sql_insert_field (s field value : string) (t : CipherTables)
  : option (CipherTables * unit) :=
  match ct_secrets t !! s, ct_filterData t !! (s, field) with
  | None, _ => None
  | _, Some _ => None
  | Some _, None =>
      Some (mkCipherTables (ct_secrets t) (<[(s, field) := value]> (ct_filterData t)), tt)
  end.

(** DELETE FROM Secrets WHERE SecretName = ?; CASCADE. *)
Definition sql_delete_secret_blob (s : string) (t : CipherTables) : option (CipherTables * unit) :=
  Some (mkCipherTables (delete s (ct_secrets t)) (filter (λ kv, kv.1.1 ≠ s) (ct_filterData t)), tt).

(** SELECT Field, Value FROM SecretsFilterData WHERE SecretName = ? *)
Definition sql_fields (s : string) (t : CipherTables) : list (string * string) :=
  (λ kv, (kv.1.2, kv.2)) <$> filter (λ kv, kv.1.1 = s) (map_to_list (ct_filterData t)).

(** SELECT SecretName, Field, Value FROM SecretsFilterData *)
Definition sql_all_fields (t : CipherTables) : list (string * string * string) :=
  map_to_list (ct_filterData t).

(** SELECT SecretName FROM Secrets *)
Definition sql_names (t : CipherTables) : list string := (map_to_list (ct_secrets t)).*1.

(** * Keys *)

Definition hex_digit (n : nat) : ascii :=
  ascii_of_nat (if Nat.ltb n 10 then 48 + n else 87 + n).

(** [QByteArray::toHex] *)
Fixpoint toHex (b : bytes) : string :=
  match b with
  | EmptyString => ""
  | String c b' => let n := nat_of_ascii c in
      String (hex_digit (n / 16)) (String (hex_digit (n mod 16)) (toHex b'))
  end.

Section plugin.
  Context `{!CipherEnv}.

(** The key of a database: the given key if it has 256 bits, else its hash. *)
Definition hexKey (key : bytes) : string :=
  if bool_decide (String.length (toHex key) = 64%nat) then toHex key else sha256Hex key.

Definition cipher_name : string := "org.sailfishos.secrets.plugin.encryptedstorage.sqlcipher".

Definition cipher_setup (hexKey : string) : list setup_statement :=
  [ PragmaKey hexKey;
    PragmaConnection "PRAGMA foreign_keys = ON;";
    PragmaConnection "PRAGMA encoding = UTF-16;";
    PragmaConnection "PRAGMA temp_store = MEMORY;";
    PragmaFile "PRAGMA journal_mode = WAL;";
    PragmaConnection "PRAGMA synchronous = FULL;" ].

Definition cipher_create : list string := ["CREATE TABLE Secrets"; "CREATE TABLE SecretsFilterData"].

Definition cipher_upgrades : list (UpgradeOperation CipherTables) := [mkUpgrade None None].

(** Errors of the plugin. *)
Definition cipher_error (what text : string) : Result :=
  result_error DatabaseQueryError ("SQLCipher plugin unable to " +:+ what +:+ " query: " +:+ text).
Definition cipher_transaction_error (what : string) : Result :=
  result_error DatabaseTransactionError ("SQLCipher plugin unable to " +:+ what +:+ " transaction").
Definition not_256_bit : Result :=
  result_error IncorrectAuthenticationCodeError
    "The given key is not a 256 bit key, and could not be converted to one".
Definition no_standalone : Result :=
  result_error OperationNotSupportedError
    "SQLCipher plugin doesn't support standalone secret operations".

(** [new Database] for the file of a collection. *)
Definition new_Database (db : CipherDb) : CipherDb :=
  mkDatabase false "" (file db) None localeName [] 0 (faults db).

(** [openCollectionDatabase] *)
Definition openCollectionDatabase (collectionName : string) (key : bytes) (createIfNotExists : bool)
  : M SqlCipher Result :=
  if negb (bool_decide (String.length (hexKey key) = 64%nat)) then ret not_256_bit else
  let* p := gets id in
  if negb (exists_file collectionName p) && negb createIfNotExists then
    ret (result_error DatabaseError "The collection database doesn't exist")
  else if opened collectionName p then
    ret (result_error DatabaseError "The collection database is already opened prior to creation")
  else
    on_database collectionName (modify new_Database) ;;;
    let* success := on_database collectionName
      (open (cipher_setup (hexKey key)) cipher_create cipher_upgrades 1) in
    if negb success then
      ret (result_error DatabaseError "SQLCipher plugin was unable to open the collection database")
    else
      modify (λ p, mkSqlCipher (databases p) ({[collectionName]} ∪ m_collectionDatabases p)) ;;;
      ret (result_of_code Succeeded).

(** [m_collectionDatabases.take] with the [close] and [delete] that follow it. *)
Definition take_and_close (collectionName : string) : M SqlCipher unit :=
  let* p := gets id in
  if opened collectionName p then
    modify (λ p, mkSqlCipher (databases p) (m_collectionDatabases p ∖ {[collectionName]})) ;;;
    on_database collectionName close
  else ret tt.

(** [collectionNames]: the names of the files, without ".db". *)
Definition cipher_collectionNames : M SqlCipher (Result * list string) :=
  let* p := gets id in
  ret (result_of_code Succeeded,
       filter (λ c, c ≠ "metadata" ∧ c ≠ "standalone" ∧ c ≠ "")
         (filter (λ c, exists_file c p = true) (qmap_keys (databases p)))).

(** The characters of a collection name. *)
Definition alphanumeric (c : ascii) : bool :=
  let n := nat_of_ascii c in
  (Nat.leb 48 n && Nat.leb n 57) || (Nat.leb 65 n && Nat.leb n 90) || (Nat.leb 97 n && Nat.leb n 122).

Fixpoint all_alphanumeric (s : string) : bool :=
  match s with EmptyString => true | String c s' => alphanumeric c && all_alphanumeric s' end.

(** [createCollection] *)
Definition cipher_createCollection (collectionName : string) (key : bytes) : M SqlCipher Result :=
  if negb (Nat.leb (String.length collectionName) 31
           && negb (bool_decide (collectionName = "metadata"))
           && negb (bool_decide (collectionName = "metadata.db"))) then
    ret (result_error InvalidCollectionError
           "SQLCipher plugin only supports collection names shorter than 32 characters")
  else if negb (all_alphanumeric collectionName) then
    ret (result_error InvalidCollectionError
           "SQLCipher plugin only supports collection names with alphanumeric Latin-1 characters")
  else
    let* p := gets id in
    if exists_file collectionName p || opened collectionName p then
      ret (result_error CollectionAlreadyExistsError "A collection with that name already exists")
    else openCollectionDatabase collectionName key true.

(** [removeCollection]; removing the file may fail. *)
Definition cipher_removeCollection (collectionName : string) : M SqlCipher Result :=
  take_and_close collectionName ;;;
  let* p := gets id in
  if exists_file collectionName p then
    let* removed := on_database collectionName system_call in
    if (removed : bool) then
      on_database collectionName (modify (set_file None)) ;;; ret (result_of_code Succeeded)
    else ret (result_error UnknownError "SQLCipher plugin: failed to remove collection database!")
  else ret (result_of_code Succeeded).

(** [isCollectionLocked]; [locked] is the out-parameter. *)
Definition cipher_isCollectionLocked (collectionName : string) (locked : bool)
  : M SqlCipher (Result * bool) :=
  let* p := gets id in
  if opened collectionName p then
    let* '(lq, errorText) := on_database collectionName
      (prepare "SELECT Count(*) FROM sqlite_master;") in
    if negb (isEmpty errorText) then ret (cipher_error "prepare is locked" errorText, locked) else
    let* '(rows, _) := on_database collectionName (select lq (λ _, tt)) in
    ret (result_of_code Succeeded, bool_decide (rows = None))
  else if exists_file collectionName p then ret (result_of_code Succeeded, true)
  else ret (result_error InvalidCollectionError "No collection with that name exists", locked).

(** [deriveKeyFromCode]: an empty code is one zero byte. *)
Definition cipher_deriveKeyFromCode (authenticationCode salt : bytes)
  : M SqlCipher (Result * option bytes) :=
  let inputData := if isEmpty authenticationCode then String (ascii_of_nat 0) "" else authenticationCode in
  ret (match pbkdf2 inputData salt with
       | None => (result_error SecretsPluginKeyDerivationError
                    "The OpenSSL plugin failed to derive the key data", None)
       | Some key => (result_of_code Succeeded, Some key)
       end).

(** [setEncryptionKey]: an empty key locks the collection. *)
Definition cipher_setEncryptionKey (collectionName : string) (key : bytes) : M SqlCipher Result :=
  take_and_close collectionName ;;;
  if isEmpty key then ret (result_of_code Succeeded)
  else openCollectionDatabase collectionName key false.

(** The re-keying transaction of [reencrypt]. *)
Definition rekey_transaction (newHexKey : string) : M CipherDb Result :=
  let* '(kq, errorText) := prepare ("PRAGMA rekey " +:+ newHexKey) in
  if negb (isEmpty errorText) then ret (cipher_error "prepare setup rekey" errorText) else
  let* begun := beginTransaction in
  if negb begun then ret (cipher_transaction_error "begin setup rekey") else
  let* '(executed, errorText) := execute_rekey kq newHexKey in
  if negb executed then
    rollbackTransaction ;;; ret (cipher_error "execute setup rekey" errorText)
  else
    let* committed := commitTransaction in
    if negb committed then
      rollbackTransaction ;;; ret (cipher_transaction_error "commit setup rekey")
    else ret (result_of_code Succeeded).

(** [reencrypt] *)
Definition cipher_reencrypt (collectionName : string) (oldkey newkey : bytes) : M SqlCipher Result :=
  let* retn := cipher_setEncryptionKey collectionName oldkey in
  if negb (ok retn) then ret retn else
  let* p := gets id in
  if negb (opened collectionName p) then
    ret (result_error UnknownError "Unable to open collection database for rekeying")
  else if negb (bool_decide (String.length (hexKey newkey) = 64%nat)) then ret not_256_bit
  else on_database collectionName (rekey_transaction (hexKey newkey)).

(** * Secrets *)

(** The operations on secrets need the open database of the collection. *)
Definition with_collection {A} (collectionName : string) (error : Result → A) (k : M CipherDb A)
  : M SqlCipher A :=
  let* p := gets id in
  if opened collectionName p then on_database collectionName k
  else ret (error (if exists_file collectionName p
                   then result_error CollectionIsLockedError "That collection is locked"
                   else result_error InvalidCollectionError "No collection with that name exists")).

(** The end of every modifying operation. *)
Definition cipher_finish (what : string) : M CipherDb Result :=
  let* committed := commitTransaction in
  if negb committed then rollbackTransaction ;;; ret (cipher_transaction_error ("commit " +:+ what))
  else ret (result_of_code Succeeded).

(** One row of filter data after the other; [None] when all are inserted, else
    the error text. *)
Fixpoint insert_fields (ifdq : bool) (s : string) (rows : list (string * string))
  : M CipherDb (option string) :=
  match rows with
  | [] => ret None
  | (field, value) :: rows' =>
      let* '(r, errorText) := execute ifdq (sql_insert_field s field value) in
      match r with
      | None => ret (Some errorText)
      | Some _ => insert_fields ifdq s rows'
      end
  end.

(** [setSecret] on the open database. *)
Definition set_in_database (secretName : string) (secret : bytes) (filterData : FilterData)
  : M CipherDb Result :=
  let* '(sq, errorText) := prepare "SELECT Count(*) FROM Secrets WHERE SecretName = ?;" in
  if negb (isEmpty errorText) then ret (cipher_error "prepare select secrets" errorText) else
  let* begun := beginTransaction in
  if negb begun then ret (cipher_transaction_error "begin") else
  let* '(rows, errorText) := select sq (λ t, bool_decide (is_Some (ct_secrets t !! secretName))) in
  match rows with
  | None => rollbackTransaction ;;; ret (cipher_error "execute select secrets" errorText)
  | Some found =>
  let* '(iq, errorText) :=
    prepare (if found
             then "UPDATE Secrets SET Secret = ? , Timestamp = date('now') WHERE SecretName = ?;"
             else "INSERT INTO Secrets (SecretName,Secret,Timestamp) VALUES (?,?,date('now'));") in
  if negb (isEmpty errorText) then
    rollbackTransaction ;;; ret (cipher_error "prepare insert secret" errorText) else
  let* '(rows, errorText) :=
    execute iq (λ t, t' ← (if found then sql_update_secret secret secretName t
                           else sql_insert_secret_blob secretName secret t);
                     Some (t', tt)) in
  match rows with
  | None => rollbackTransaction ;;; ret (cipher_error "execute insert secret" errorText)
  | Some _ =>
  let* '(dq, errorText) := prepare "DELETE FROM SecretsFilterData WHERE SecretName = ?;" in
  if negb (isEmpty errorText) then
    rollbackTransaction ;;; ret (cipher_error "prepare delete secrets filter data" errorText) else
  let* '(rows, errorText) := execute dq (sql_delete_fields secretName) in
  match rows with
  | None => rollbackTransaction ;;; ret (cipher_error "execute delete secrets filter data" errorText)
  | Some _ =>
  let* '(ifdq, errorText) :=
    prepare "INSERT INTO SecretsFilterData (SecretName,Field,Value) VALUES (?,?,?);" in
  if negb (isEmpty errorText) then
    rollbackTransaction ;;; ret (cipher_error "prepare insert secrets filter data" errorText) else
  let* failed := insert_fields ifdq secretName (qmap_items filterData) in
  match failed with
  | Some errorText =>
      rollbackTransaction ;;; ret (cipher_error "execute insert secrets filter data" errorText)
  | None => cipher_finish "insert secret"
  end end end end.

(** [setSecret] of a secret of a collection. *)
Definition cipher_setSecret (collectionName secretName : string) (secret : bytes)
  (filterData : FilterData) : M SqlCipher Result :=
  match secret_name_error collectionName secretName with
  | Some e => ret e
  | None => with_collection collectionName id (set_in_database secretName secret filterData)
  end.

(** [getSecret] on the open database.  When the second query cannot be prepared,
    the function returns without ending its transaction. *)
Definition get_in_database (secretName : string) : M CipherDb (Result * option (bytes * FilterData)) :=
  let* '(sq, errorText) := prepare "SELECT Secret FROM Secrets WHERE SecretName = ?;" in
  if negb (isEmpty errorText) then ret (cipher_error "prepare select secret" errorText, None) else
  let* begun := beginTransaction in
  if negb begun then ret (cipher_transaction_error "begin", None) else
  let* '(rows, errorText) := select sq (λ t, ct_secrets t !! secretName) in
  match rows with
  | None => rollbackTransaction ;;; ret (cipher_error "execute select secret" errorText, None)
  | Some None =>
      let* committed := commitTransaction in
      if negb committed then
        rollbackTransaction ;;; ret (cipher_transaction_error "commit select secret", None)
      else ret (result_error InvalidSecretError "No such secret stored", None)
  | Some (Some secretData) =>
  let* '(sfdq, errorText) := prepare "SELECT Field, Value FROM SecretsFilterData WHERE SecretName = ?;" in
  if negb (isEmpty errorText) then
    ret (cipher_error "prepare select secret filter data" errorText, None) else
  let* '(rows, errorText) := select sfdq (sql_fields secretName) in
  match rows with
  | None =>
      rollbackTransaction ;;; ret (cipher_error "execute select secret filter data" errorText, None)
  | Some fields =>
      let* committed := commitTransaction in
      if negb committed then
        rollbackTransaction ;;; ret (cipher_transaction_error "commit select secret", None)
      else ret (result_of_code Succeeded,
                Some (secretData, foldl (λ m kv, <[kv.1 := kv.2]> m) ∅ fields))
  end end.

(** [getSecret] *)
Definition cipher_getSecret (collectionName secretName : string)
  : M SqlCipher (Result * option (bytes * FilterData)) :=
  match secret_name_error collectionName secretName with
  | Some e => ret (e, None)
  | None => with_collection collectionName (λ e, (e, None)) (get_in_database secretName)
  end.

(** [secretNames] on the open database. *)
Definition names_in_database : M CipherDb (Result * list string) :=
  let* '(sq, errorText) := prepare "SELECT SecretName FROM Secrets;" in
  if negb (isEmpty errorText) then
    ret (cipher_error "prepare select secret names" errorText, []) else
  let* '(rows, errorText) := select sq sql_names in
  match rows with
  | None => ret (cipher_error "execute select select secret names" errorText, [])
  | Some names => ret (result_of_code Succeeded, names)
  end.

(** [secretNames] *)
Definition cipher_secretNames (collectionName : string) : M SqlCipher (Result * list string) :=
  if isEmpty collectionName then
    ret (result_error InvalidCollectionError "Empty collection name given", [])
  else with_collection collectionName (λ e, (e, [])) names_in_database.

(** [findSecrets] on the open database; the same filter as in the SQLite
    plugin.  The identifiers are handed out only after the commit. *)
Definition find_in_database (collectionName : string) (flt : FilterData)
  (filterOperator : FilterOperator) : M CipherDb (Result * list Identifier) :=
  let* '(sq, errorText) := prepare "SELECT SecretName, Field, Value FROM SecretsFilterData;" in
  if negb (isEmpty errorText) then
    ret (cipher_error "prepare select secrets filter data" errorText, []) else
  let* begun := beginTransaction in
  if negb begun then ret (cipher_transaction_error "begin find secrets", []) else
  let* '(rows, errorText) := select sq sql_all_fields in
  match rows with
  | None => rollbackTransaction ;;;
            ret (cipher_error "execute select secrets filter data" errorText, [])
  | Some rows =>
      let names := matchingSecretNames filterOperator flt (secretNameToFilterData rows) in
      let* committed := commitTransaction in
      if negb committed then
        rollbackTransaction ;;; ret (cipher_transaction_error "commit find secrets", [])
      else ret (result_of_code Succeeded,
                (λ name, mkIdentifier name collectionName cipher_name) <$> names)
  end.

(** [findSecrets] *)
Definition cipher_findSecrets (collectionName : string) (flt : FilterData)
  (filterOperator : FilterOperator) : M SqlCipher (Result * list Identifier) :=
  if isEmpty collectionName then
    ret (result_error InvalidCollectionError "Empty collection name given", [])
  else if bool_decide (flt = ∅) then
    ret (result_error InvalidFilterError "Empty filter given", [])
  else with_collection collectionName (λ e, (e, []))
         (find_in_database collectionName flt filterOperator).

(** [removeSecret] on the open database. *)
Definition remove_in_database (secretName : string) : M CipherDb Result :=
  let* '(dq, errorText) := prepare "DELETE FROM Secrets WHERE SecretName = ?;" in
  if negb (isEmpty errorText) then ret (cipher_error "prepare delete secret" errorText) else
  let* begun := beginTransaction in
  if negb begun then ret (cipher_transaction_error "begin") else
  let* '(rows, errorText) := execute dq (sql_delete_secret_blob secretName) in
  match rows with
  | None => rollbackTransaction ;;; ret (cipher_error "execute delete secret" errorText)
  | Some _ => cipher_finish "delete secret"
  end.

(** [removeSecret] of a secret of a collection. *)
Definition cipher_removeSecret (collectionName secretName : string) : M SqlCipher Result :=
  match secret_name_error collectionName secretName with
  | Some e => ret e
  | None => with_collection collectionName id (remove_in_database secretName)
  end.

(** * The plugin interfaces *)
#[global] Instance cipher_base : PluginBase SqlCipher := {|
  pb_name := cipher_name;
  pb_supportsLocking := λ _, false;
  pb_isLocked := λ _, false;
  pb_lock := ret false;
  pb_unlock := λ _, ret false;
  pb_setLockCode := λ _ _, ret false;
|}.

(** Operations on standalone secrets are not supported. *)
#[global] Instance cipher_plugin : EncryptedStoragePlugin SqlCipher := {|
  ep_collectionNames := cipher_collectionNames;
  ep_createCollection := cipher_createCollection;
  ep_removeCollection := cipher_removeCollection;
  ep_isCollectionLocked := cipher_isCollectionLocked;
  ep_deriveKeyFromCode := cipher_deriveKeyFromCode;
  ep_setEncryptionKey := cipher_setEncryptionKey;
  ep_reencrypt := cipher_reencrypt;
  ep_setSecret := cipher_setSecret;
  ep_getSecret := cipher_getSecret;
  ep_secretNames := cipher_secretNames;
  ep_findSecrets := cipher_findSecrets;
  ep_removeSecret := cipher_removeSecret;
  ep_setStandaloneSecret := λ _ _ _ _, ret no_standalone;
  ep_accessSecret := λ _ _, ret (no_standalone, None);
|}.
End plugin.
