(* ===== verification/CipherSpec.v ===== *)
(** Correctness of the SQLCipher plugin: what each operation does to the
    database of a collection, whatever the engine does; and that the plugin
    keeps the contract of an encrypted storage plugin. *)
From S2P Require Import Prelude Result Sqlite Transactions MetadataDb PluginApi.
From S2P Require Import SqlitePlugin SqlitePluginSpec SqlCipherPlugin.

#[local] Arguments select : simpl never.
#[local] Arguments execute : simpl never.

(** * One database *)
Section tables.
  Implicit Types (t : CipherTables) (db : CipherDb).

(** FOREIGN KEY of the filter data. *)
Definition cipher_wf t : Prop :=
  ∀ s f, is_Some (ct_filterData t !! (s, f)) → is_Some (ct_secrets t !! s).

(** The filter data of a secret, and the secrets with it. *)
Definition cipher_fields (s : string) t : FilterData :=
  foldl (λ m kv, <[kv.1 := kv.2]> m) ∅ (sql_fields s t).

Definition cipher_view t : gmap string (bytes * FilterData) :=
  map_imap (λ s x, Some (x, cipher_fields s t)) (ct_secrets t).

Lemma elem_of_sql_fields s t f v : (f, v) ∈ sql_fields s t ↔ ct_filterData t !! (s, f) = Some v.
Proof.
  unfold sql_fields. rewrite list_elem_of_fmap. split.
  - intros ([[k f'] v']&[= -> ->]&[Hk H]%list_elem_of_filter). simpl in *. subst.
    by apply elem_of_map_to_list.
  - intros H. exists ((s, f), v). split; [done|]. apply list_elem_of_filter.
    split; [done|]. by apply elem_of_map_to_list.
Qed.

Lemma NoDup_sql_fields s t : NoDup (sql_fields s t).*1.
Proof.
  unfold sql_fields. rewrite <-list_fmap_compose. apply NoDup_fmap_2_strong.
  - intros [[k f] v] [[k' f'] v'] [Hk H]%list_elem_of_filter [Hk' H']%list_elem_of_filter Hf.
    apply elem_of_map_to_list in H, H'. simpl in *. congruence.
  - apply NoDup_filter, NoDup_map_to_list.
Qed.

Lemma lookup_cipher_fields s t f : cipher_fields s t !! f = ct_filterData t !! (s, f).
Proof.
  apply option_eq. intros v. unfold cipher_fields.
  rewrite (lookup_foldl_insert (λ f, f)) by apply NoDup_sql_fields.
  setoid_rewrite elem_of_sql_fields. rewrite lookup_empty. naive_solver.
Qed.

Lemma lookup_cipher_view s t : cipher_view t !! s = (λ x, (x, cipher_fields s t)) <$> ct_secrets t !! s.
Proof. unfold cipher_view. rewrite map_lookup_imap. by destruct (ct_secrets t !! s). Qed.

Lemma cipher_fields_eq s t fd :
  (∀ f, ct_filterData t !! (s, f) = fd !! f) → cipher_fields s t = fd.
Proof. intros H. apply map_eq. intros f. by rewrite lookup_cipher_fields. Qed.

Lemma cipher_view_empty : cipher_view inhabitant = ∅.
Proof. apply map_eq. intros s. by rewrite lookup_cipher_view, !lookup_empty. Qed.

(** ** Tables after a change *)
Definition with_cipher_fields (s : string) (rows : list (string * string)) t : CipherTables :=
  mkCipherTables (ct_secrets t) (foldl (λ F kv, <[(s, kv.1) := kv.2]> F) (ct_filterData t) rows).

Definition cipher_set (s : string) (x : bytes) (fd : FilterData) t : CipherTables :=
  with_cipher_fields s (qmap_items fd)
    (mkCipherTables (<[s := x]> (ct_secrets t)) (filter (λ kv, kv.1.1 ≠ s) (ct_filterData t))).

Definition cipher_delete (s : string) t : CipherTables :=
  mkCipherTables (delete s (ct_secrets t)) (filter (λ kv, kv.1.1 ≠ s) (ct_filterData t)).

Lemma lookup_cipher_set_field s x fd t s' f :
  ct_filterData (cipher_set s x fd t) !! (s', f) =
  if decide (s' = s) then fd !! f else ct_filterData t !! (s', f).
Proof.
  apply option_eq. intros v. unfold cipher_set, with_cipher_fields. simpl.
  rewrite (lookup_foldl_insert (λ f, (s, f))) by apply NoDup_qmap_items.
  setoid_rewrite elem_of_qmap_items. rewrite map_lookup_filter_Some. simpl.
  case_decide as Hs; [subst|]; split.
  - intros [(a&[= ->]&?)|(_&_&?)]; done.
  - intros Hv. left. eauto.
  - intros [(a&[= -> ->]&?)|(_&?&_)]; done.
  - intros Hv. right. split; [|done]. by intros a [= -> ->].
Qed.

Lemma cipher_set_view s x fd t : cipher_view (cipher_set s x fd t) = <[s := (x, fd)]> (cipher_view t).
Proof.
  apply map_eq. intros s'. rewrite lookup_cipher_view. simpl.
  destruct (decide (s' = s)) as [->|Hs].
  - rewrite !lookup_insert_eq. simpl. do 2 f_equal. apply cipher_fields_eq. intros f.
    by rewrite lookup_cipher_set_field, decide_True.
  - rewrite !lookup_insert_ne, lookup_cipher_view by done.
    destruct (ct_secrets t !! s'); simpl; [|done]. do 2 f_equal. apply cipher_fields_eq.
    intros f. by rewrite lookup_cipher_set_field, decide_False, lookup_cipher_fields.
Qed.

Lemma lookup_cipher_delete_field s t s' f :
  ct_filterData (cipher_delete s t) !! (s', f) =
  if decide (s' = s) then None else ct_filterData t !! (s', f).
Proof.
  apply option_eq. intros v. simpl. rewrite map_lookup_filter_Some. simpl.
  case_decide; naive_solver.
Qed.

Lemma cipher_delete_view s t : cipher_view (cipher_delete s t) = delete s (cipher_view t).
Proof.
  apply map_eq. intros s'. rewrite lookup_cipher_view. simpl.
  destruct (decide (s' = s)) as [->|Hs]; [by rewrite !lookup_delete_eq|].
  rewrite !lookup_delete_ne, lookup_cipher_view by done.
  destruct (ct_secrets t !! s'); simpl; [|done]. do 2 f_equal. apply cipher_fields_eq.
  intros f. by rewrite lookup_cipher_delete_field, decide_False, lookup_cipher_fields.
Qed.

Lemma cipher_set_wf s x fd t : cipher_wf t → cipher_wf (cipher_set s x fd t).
Proof.
  intros Hwf s' f. rewrite lookup_cipher_set_field. simpl. case_decide as Hs.
  - subst. rewrite lookup_insert_eq. eauto.
  - rewrite lookup_insert_ne by done. apply Hwf.
Qed.

Lemma cipher_delete_wf s t : cipher_wf t → cipher_wf (cipher_delete s t).
Proof.
  intros Hwf s' f. rewrite lookup_cipher_delete_field. simpl. case_decide as Hs.
  - by intros [].
  - rewrite lookup_delete_ne by done. apply Hwf.
Qed.

Lemma cipher_empty_wf : cipher_wf inhabitant.
Proof. intros s f [? H]. simpl in H. by rewrite lookup_empty in H. Qed.
End tables.

(** * The operations on one database *)
Section operations.
  Context (G : Prop).
  Implicit Types (t : CipherTables) (db : CipherDb).

Lemma insert_fields_spec q s rows t0 t db :
  Live G t0 t db → NoDup rows.*1 → is_Some (ct_secrets t !! s) →
  (∀ f, f ∈ rows.*1 → ct_filterData t !! (s, f) = None) →
  wp (insert_fields q s rows) (λ o db',
    match o with
    | None => Live G t0 (with_cipher_fields s rows t) db'
    | Some _ => Aborted G t0 db' ∧ (G → q = false)
    end) db.
Proof.
  revert t db. induction rows as [|[f v] rows IH]; intros t db Hl Hnd Hsec Hfree; simpl.
  { apply wp_ret. by destruct t. }
  apply NoDup_cons in Hnd as [Hf Hnd]. apply wp_bind.
  assert (sql_insert_field s f v t = Some (with_cipher_fields s [(f, v)] t, tt)) as Hrun.
  { unfold sql_insert_field. destruct Hsec as [? ->]. rewrite Hfree by (by left). done. }
  eapply wp_mono; [by eapply execute_Live|]. intros [[[]|] txt] db' Hx.
  - destruct Hx as (t'&Ht&Hl'). rewrite Hrun in Ht. injection Ht as <-.
    apply (IH _ _ Hl' Hnd Hsec). simpl. intros f' Hf'.
    rewrite lookup_insert_ne by (intros [= ->]; done). apply Hfree. by right.
  - destruct Hx as [? Hn]. apply wp_ret. split; [done|]. intros HG. destruct q; [|done].
    rewrite Hrun in Hn. by specialize (Hn HG eq_refl).
Qed.

Lemma set_in_database_ended s x fd t db :
  Idle G t db →
  wp (set_in_database s x fd) (λ r db', ended G t (cipher_set s x fd t) r db' ∧ (G → ok r = true)) db.
Proof.
  intros Hi. unfold set_in_database. prepared. begun. step select_Live.
  intros [[b|] txt'] db2 H2.
  2: { destruct H2 as [? Hn]. eapply rolled_back; [done|by apply ok_error|].
       intros db' He. split; [done|]. intros HG. destruct (Hq HG) as [-> _]. by specialize (Hn HG). }
  destruct H2 as [Hb Hl]. prepared.
  pose (t1 := mkCipherTables (<[s := x]> (ct_secrets t)) (ct_filterData t)).
  assert ((t' ← (if b then sql_update_secret x s t else sql_insert_secret_blob s x t); Some (t', tt))
    = Some (t1, tt)) as Hrun.
  { subst b t1. unfold sql_update_secret, sql_insert_secret_blob. case_bool_decide as Hb; simpl.
    - do 3 f_equal. destruct Hb as [y Hy]. by apply (alter_alt_Some (λ _, x) _ _ y).
    - apply eq_None_not_Some in Hb. by rewrite Hb. }
  executed Hrun Hq0. prepared.
  assert (sql_delete_fields s t1 = Some (mkCipherTables (<[s := x]> (ct_secrets t))
    (filter (λ kv, kv.1.1 ≠ s) (ct_filterData t)), tt)) as Hrun2 by done.
  executed Hrun2 Hq1. prepared. apply wp_bind. eapply wp_mono.
  { eapply insert_fields_spec; [done|apply NoDup_qmap_items|..]; simpl.
    - rewrite lookup_insert_eq. eauto.
    - intros f _. apply map_lookup_filter_None_2. right. naive_solver. }
  intros [txt9|] db9 H9.
  - destruct H9 as [? Hn]. eapply rolled_back; [done|by apply ok_error|].
    intros ? ?. split; [done|]. intros HG. destruct (Hq2 HG) as [-> _]. by specialize (Hn HG).
  - finished. done.
Qed.

Lemma remove_in_database_ended s t db :
  Idle G t db →
  wp (remove_in_database s) (λ r db', ended G t (cipher_delete s t) r db' ∧ (G → ok r = true)) db.
Proof.
  intros Hi. unfold remove_in_database. prepared. begun.
  assert (sql_delete_secret_blob s t = Some (cipher_delete s t, tt)) as Hrun by done.
  executed Hrun Hq. finished. done.
Qed.
End operations.

(** ** Queries in a good environment *)
Section queries.
  Implicit Types (t : CipherTables) (db : CipherDb).

Lemma get_in_database_good s t db :
  Idle True t db →
  wp (get_in_database s) (λ '(r, x) db', Idle True t db' ∧ x = cipher_view t !! s
    ∧ ok r = bool_decide (is_Some x)) db.
Proof.
  intros Hi. unfold get_in_database. step prepare_Idle. intros [q txt] db1 [Hi1 Hq].
  destruct (Hq I) as [-> ->]. simpl. step begin_Idle. intros [|] db2 Hl2; [|tauto]. simpl.
  step select_Live. intros [[x|] txt'] db3 H3; [|by destruct H3 as [_ H3]; specialize (H3 I)].
  destruct H3 as [-> Hl3]. rewrite lookup_cipher_view. destruct (ct_secrets t !! s) as [secret|].
  2: { eapply commit_or_rollback; [done| |tauto]. intros db' Hi'. by rewrite ok_error. }
  step prepare_Live. intros [q' txt2] db4 [Hi4 Hq']. destruct (Hq' I) as [-> ->]. simpl.
  step select_Live. intros [[x|] txt3] db5 H5; [|by destruct H5 as [_ H5]; specialize (H5 I)].
  destruct H5 as [-> Hl5]. eapply commit_or_rollback; [done| |tauto]. done.
Qed.

Lemma names_in_database_good t db :
  Idle True t db →
  wp names_in_database (λ '(r, names) db', Idle True t db' ∧ ok r = true ∧ names = sql_names t) db.
Proof.
  intros Hi. unfold names_in_database. step prepare_Idle. intros [q txt] db1 [Hi1 Hq].
  destruct (Hq I) as [-> ->]. simpl. step select_Idle.
  intros [[x|] txt'] db2 [Hi2 Hx]; [|by specialize (Hx I)]. by apply wp_ret.
Qed.
End queries.

(** ** No operation but [reencrypt] changes the key of a database *)
Section keys.
  Context (key : string) (v : Z).

Lemma keyed_insert_fields q s rows : preserves (keyed key v) (insert_fields q s rows).
Proof. induction rows as [|[f x] rows IH]; simpl; keep. Qed.
#[local] Hint Resolve keyed_insert_fields : keep.

Lemma keyed_set_in_database s x fd : preserves (keyed key v) (set_in_database s x fd).
Proof. unfold set_in_database, cipher_finish. keep. Qed.

Lemma keyed_remove_in_database s : preserves (keyed key v) (remove_in_database s).
Proof. unfold remove_in_database, cipher_finish. keep. Qed.

Lemma keyed_get_in_database s : preserves (keyed key v) (get_in_database s).
Proof. unfold get_in_database. keep. Qed.

Lemma keyed_names_in_database : preserves (keyed key v) names_in_database.
Proof. unfold names_in_database. keep. Qed.
End keys.

(** * The plugin *)

(** What the code relies on: SHA-256 has 256 bits. *)
Class CipherEnvSpec `{!CipherEnv} : Prop :=
  sha256Hex_length (b : bytes) : String.length (sha256Hex b) = 64%nat.

Section plugin.
  Context `{Env : !CipherEnv, EnvSpec : !CipherEnvSpec}.
  Implicit Types (p : SqlCipher) (db : CipherDb) (t : CipherTables) (c s : string).

Lemma length_hexKey k : String.length (hexKey k) = 64%nat.
Proof. unfold hexKey. case_bool_decide; [done|apply sha256Hex_length]. Qed.

(** A collection as the abstract vault sees it. *)
Definition cipher_entry (unlocked : bool) db : option VaultEntry :=
  fl ← file db; k ← file_key fl; Some (mkEntry k unlocked (cipher_view (tables fl))).

Definition cipher_vault p : Vault :=
  map_imap (λ c db, cipher_entry (opened c p) db) (databases p).

Lemma lookup_cipher_vault p c : cipher_vault p !! c = cipher_entry (opened c p) (database c p).
Proof.
  unfold cipher_vault, database. rewrite map_lookup_imap. by destruct (databases p !! c).
Qed.

(** A connection in use, and a file nobody has open. *)
Definition in_use db : Prop :=
  ∃ key t, settled_at (DbFile t (Some key) 1) None 0 key db ∧ cipher_wf t.

Definition at_rest db : Prop :=
  quiet db ∧ ∀ fl, file db = Some fl → ∃ key t, fl = DbFile t (Some key) 1 ∧ cipher_wf t.

Definition cipher_ready p : Prop :=
  ∀ c, if opened c p then in_use (database c p) else at_rest (database c p).

(** Replacing the database of a collection, and the set of open ones. *)
Lemma database_set c db p c' :
  database c' (set_database c db p) = if decide (c' = c) then db else database c' p.
Proof.
  unfold database, set_database. simpl. case_decide; subst;
    [by rewrite lookup_insert_eq|by rewrite lookup_insert_ne].
Qed.

Lemma wp_on_database {A} c (m : M CipherDb A) Q p :
  wp m (λ a db, Q a (set_database c db p)) (database c p) → wp (on_database c m) Q p.
Proof. apply wp_zoom. Qed.

(** The plugin after a change of one collection: its database is [db], and it is
    open or not as [b] says. *)
Definition updated c (b : bool) db p p' : Prop :=
  opened c p' = b ∧ database c p' = db
  ∧ ∀ c', c' ≠ c → opened c' p' = opened c' p ∧ database c' p' = database c' p.

Lemma updated_ready c b db p p' :
  cipher_ready p → updated c b db p p' → (if b then in_use db else at_rest db) → cipher_ready p'.
Proof.
  intros Hr (Hb&Hdb&Hn) Hrest c'. destruct (decide (c' = c)) as [->|Hc].
  - by rewrite Hb, Hdb.
  - destruct (Hn c' Hc) as [-> ->]. apply Hr.
Qed.

Lemma updated_vault c b db p p' (V : Vault) :
  updated c b db p p' → V !! c = cipher_entry b db →
  (∀ c', c' ≠ c → V !! c' = cipher_vault p !! c') → cipher_vault p' = V.
Proof.
  intros (Hb&Hdb&Hn) Hc HV. apply map_eq. intros c'. rewrite lookup_cipher_vault.
  destruct (decide (c' = c)) as [->|Hne]; [by rewrite Hb, Hdb|].
  destruct (Hn c' Hne) as [-> ->]. by rewrite HV, lookup_cipher_vault.
Qed.

Lemma set_database_updated c db p : updated c (opened c p) db p (set_database c db p).
Proof.
  split_and!; [done|by rewrite database_set, decide_True|].
  intros c' Hc. by rewrite database_set, decide_False.
Qed.

(** ** Opening and closing *)

Lemma settled_entry b key t db :
  settled_at (DbFile t (Some key) 1) None 0 key db → cipher_entry b db = Some (mkEntry key b (cipher_view t)).
Proof. intros (_&_&_&Hf&_). unfold cipher_entry. by rewrite Hf. Qed.

Lemma in_use_closed db : in_use db → at_rest (close db).2 ∧ file (close db).2 = file db.
Proof.
  intros (key&t&H&Hwf). pose proof H as (Hq&_&_&Hf&Hs&_).
  assert (file (close db).2 = file db) as Hfile.
  { unfold close, modify, restore_snapshot. simpl. by rewrite Hs. }
  split; [|done]. split; [by apply quiet_close|]. rewrite Hfile, Hf.
  intros fl [= <-]. eauto.
Qed.

Lemma take_and_close_spec c p :
  cipher_ready p →
  wp (take_and_close c) (λ _ p', ∃ db, updated c false db p p' ∧ at_rest db
    ∧ file db = file (database c p)) p.
Proof.
  intros Hr. unfold take_and_close. apply wp_bind, wp_gets. simpl. specialize (Hr c).
  destruct (opened c p) eqn:Ho; [|apply wp_ret; exists (database c p); by split_and!].
  apply wp_bind, wp_modify, wp_on_database.
  set (p1 := mkSqlCipher (databases p) (m_collectionDatabases p ∖ {[c]})).
  change (database c p1) with (database c p). unfold wp.
  destruct (in_use_closed _ Hr) as [? Hf]. eexists. split_and!; [|done..].
  assert (∀ c', opened c' p1 = if decide (c' = c) then false else opened c' p) as Ho1.
  { intros c'. unfold opened, p1. simpl. case_decide; [subst|]; [apply bool_decide_eq_false; set_solver|].
    apply bool_decide_ext. set_solver. }
  destruct (set_database_updated c (close (database c p)).2 p1) as (Hb&Hdb&Hn).
  split_and!; [rewrite Hb, Ho1, decide_True; done|done|].
  intros c' Hc. destruct (Hn c' Hc) as [-> ->]. by rewrite Ho1, decide_False.
Qed.

(** Opening the database of a collection that is not open. *)
Definition open_outcome c (k : bytes) (create : bool) p (r : Result) p' : Prop :=
  match file (database c p) with
  | None => if create
            then ok r = true ∧ ∃ db, updated c true db p p'
                   ∧ settled_at (DbFile inhabitant (Some (hexKey k)) 1) None 0 (hexKey k) db
            else ok r = false ∧ p' = p
  | Some fl => ∃ db, if decide (file_key fl = Some (hexKey k))
                     then ok r = true ∧ updated c true db p p'
                          ∧ settled_at fl None 0 (hexKey k) db
                     else ok r = false ∧ updated c false db p p' ∧ at_rest db ∧ file db = Some fl
  end.

Lemma cipher_setup_for key : setup_for key (cipher_setup key).
Proof. left. eexists. split; [done|]. repeat constructor. Qed.

Lemma open_database_good k db :
  at_rest db → 
  wp (open (cipher_setup (hexKey k)) cipher_create cipher_upgrades 1) (λ b db',
    match file db with
    | None => b = true ∧ settled_at (DbFile inhabitant (Some (hexKey k)) 1) None 0 (hexKey k) db'
    | Some fl => if decide (file_key fl = Some (hexKey k))
                 then b = true ∧ settled_at fl None 0 (hexKey k) db'
                 else b = false ∧ at_rest db' ∧ file db' = Some fl
    end) (new_Database db).
Proof.
  intros [Hq Hf]. destruct (file db) as [fl|] eqn:Hfile.
  2: { eapply wp_mono; [by eapply (open_new_calm (hexKey k)); eauto using cipher_setup_for|].
       intros b db' (->&((?&?&_)&?&?&?&_)&?). by split_and!. }
  destruct (Hf fl eq_refl) as (key&t&->&Hwf). simpl. case_decide as Hk.
  - injection Hk as ->. eapply wp_mono.
    + apply wp_and; [eapply (open_existing_calm (hexKey k)); eauto using cipher_setup_for|].
      eapply (file_keyed_open _ _ _ _ (hexKey k) 1); [done|]. intros fl. simpl. rewrite Hfile.
      by intros [[= <-]|?].
    + intros b db' [[-> Hc] Hfk]. split; [done|].
      apply settled_at_intro; [by eapply calm_idle|apply Hc|]. split; [apply Hc|done].
  - eapply wp_mono.
    + apply wp_and; [|by apply quiet_open].
      eapply (open_wrong_key (hexKey k) (DbFile t (Some key) 1)); try done.
      * unfold readable. simpl. apply bool_decide_eq_false. congruence.
      * repeat constructor.
    + intros b db' [(->&_&Hfl&_&_) Hq']. rewrite Hfl. split_and!; [done| |done].
      split; [done|]. rewrite Hfl. intros fl [= <-]. eauto.
Qed.

Lemma openCollectionDatabase_spec c k create p :
  opened c p = false → cipher_ready p →
  wp (openCollectionDatabase c k create) (open_outcome c k create p) p.
Proof.
  intros Ho Hr. unfold openCollectionDatabase, open_outcome. rewrite length_hexKey. simpl.
  apply wp_bind, wp_gets. simpl. rewrite Ho. unfold exists_file.
  pose proof (Hr c) as Hc. rewrite Ho in Hc.
  destruct (decide (file (database c p) = None ∧ create = false)) as [[Hn ->]|Hcreate].
  { rewrite Hn. simpl. apply wp_ret. by rewrite ok_error. }
  assert (negb (bool_decide (is_Some (file (database c p)))) && negb create = false) as ->.
  { destruct (file (database c p)), create; try done. by destruct Hcreate. }
  apply wp_bind, wp_on_database, wp_modify, wp_bind, wp_on_database.
  rewrite database_set, decide_True by done. eapply wp_mono; [by apply open_database_good|].
  intros b db' Hb. pose (p1 := set_database c db' (set_database c (new_Database (database c p)) p)).
  assert (updated c false db' p p1) as Hu.
  { split_and!; [done|by unfold p1; rewrite database_set, decide_True|].
    intros c' Hc'. unfold p1. by rewrite !database_set, !decide_False. }
  pose (p2 := mkSqlCipher (databases p1) ({[c]} ∪ m_collectionDatabases p1)).
  assert (updated c true db' p p2) as Hu2.
  { destruct Hu as (_&?&Hn). split_and!; [apply bool_decide_eq_true; set_solver|done|].
    intros c' Hc'. destruct (Hn c' Hc') as [<- ?]. split; [|done]. apply bool_decide_ext. set_solver. }
  fold p1. destruct (file (database c p)) as [fl|] eqn:Hfile.
  - destruct (decide (file_key fl = Some (hexKey k))); destruct Hb as [-> Hb]; simpl.
    + apply wp_bind, wp_modify, wp_ret. eauto.
    + apply wp_ret. exists db'. by rewrite ok_error.
  - destruct Hb as [-> Hb]. simpl. apply wp_bind, wp_modify, wp_ret.
    destruct create; [eauto|]. by destruct Hcreate.
Qed.

(** ** The laws *)

Lemma ready_file c p fl :
  cipher_ready p → file (database c p) = Some fl → ∃ key t, fl = DbFile t (Some key) 1 ∧ cipher_wf t.
Proof.
  intros Hr Hf. specialize (Hr c). destruct (opened c p).
  - destruct Hr as (key&t&(_&_&_&Hf'&_)&?). rewrite Hf in Hf'. injection Hf' as ->. eauto.
  - destruct Hr as [_ Hr]. eauto.
Qed.

Lemma updated_trans c b db b' db' p1 p2 p3 :
  updated c b db p1 p2 → updated c b' db' p2 p3 → updated c b' db' p1 p3.
Proof.
  intros (_&_&H1) (?&?&H2). split_and!; [done..|]. intros c' Hc.
  destruct (H1 c' Hc), (H2 c' Hc). split; congruence.
Qed.

(** The vault after an update: only the entry of [c] differs. *)
Lemma updated_alter c b db p p' f :
  updated c b db p p' → f <$> cipher_entry (opened c p) (database c p) = cipher_entry b db →
  cipher_vault p' = alter f c (cipher_vault p).
Proof.
  intros Hu Hf. eapply updated_vault; [done|..].
  - by rewrite lookup_alter_eq, lookup_cipher_vault.
  - intros c' Hc. by rewrite lookup_alter_ne.
Qed.

Lemma setEncryptionKey_good c k p :
  cipher_ready p →
  wp (cipher_setEncryptionKey c k) (λ r p', cipher_ready p'
    ∧ cipher_vault p' = vault_key hexKey c k (cipher_vault p)
    ∧ ok r = vault_key_ok hexKey c k (cipher_vault p)) p.
Proof.
  intros Hr. unfold cipher_setEncryptionKey. apply wp_bind.
  eapply wp_mono; [by apply take_and_close_spec|]. intros _ p1 (db1&Hu1&Hrest&Hf1).
  pose proof (updated_ready _ _ _ _ _ Hr Hu1 Hrest) as Hr1. unfold vault_key, vault_key_ok, fits.
  rewrite lookup_cipher_vault. pose proof (ready_file c p) as Hfl. unfold cipher_entry.
  destruct (isEmpty k) eqn:Hk; simpl.
  { apply wp_ret. split_and!; [done| |done]. eapply updated_alter; [done|].
    unfold cipher_entry. rewrite Hf1. destruct (file (database c p)) as [[t [key|] v]|]; done. }
  eapply wp_mono; [apply openCollectionDatabase_spec; [apply Hu1|done]|].
  intros r p2 Ho. unfold open_outcome in Ho. pose proof Hu1 as (_&Hdb1&_). rewrite Hdb1, Hf1 in Ho.
  destruct (file (database c p)) as [fl|] eqn:Hfile; simpl.
  2: { destruct Ho as [-> ->]. split_and!; [done| |done]. eapply updated_alter; [done|].
       unfold cipher_entry. by rewrite Hf1, Hfile. }
  destruct (Hfl fl Hr eq_refl) as (key&t&->&Hwf). destruct Ho as (db&Ho). simpl in *.
  case_decide as Hd.
  - injection Hd as ->. destruct Ho as (->&Hu2&Hs). rewrite bool_decide_true by done.
    pose proof (updated_trans _ _ _ _ _ _ _ _ Hu1 Hu2) as Hu. split_and!; [|  |done].
    + eapply updated_ready; [done..|]. eexists _, _. eauto.
    + eapply updated_alter; [done|]. rewrite (settled_entry _ _ _ _ Hs). unfold cipher_entry.
      rewrite Hfile. simpl. by rewrite bool_decide_true.
  - destruct Ho as (->&Hu2&Hrest2&Hf2). rewrite bool_decide_false by congruence.
    pose proof (updated_trans _ _ _ _ _ _ _ _ Hu1 Hu2) as Hu. split_and!; [|  |done].
    + by eapply updated_ready.
    + eapply updated_alter; [done|]. unfold cipher_entry. rewrite Hf2, Hfile. simpl.
      by rewrite bool_decide_false by congruence.
Qed.

Definition cipher_storable c : Prop :=
  (String.length c ≤ 31)%nat ∧ c ≠ "metadata" ∧ c ≠ "metadata.db" ∧ all_alphanumeric c = true.

#[global] Instance cipher_storable_dec c : Decision (cipher_storable c).
Proof. unfold cipher_storable. apply _. Defined.

Lemma cipher_entry_None b db : (∀ fl, file db = Some fl → is_Some (file_key fl)) →
  cipher_entry b db = None ↔ file db = None.
Proof.
  unfold cipher_entry. destruct (file db) as [[t [k|] v]|]; simpl; [done| |done].
  intros Hn. by destruct (Hn _ eq_refl).
Qed.

Lemma vault_None c p : cipher_ready p → cipher_vault p !! c = None ↔ file (database c p) = None.
Proof.
  intros Hr. rewrite lookup_cipher_vault. apply cipher_entry_None. intros fl Hf.
  destruct (ready_file _ _ _ Hr Hf) as (key&t&->&_). by eexists.
Qed.

Lemma ready_opened_file c p : cipher_ready p → opened c p = true → is_Some (file (database c p)).
Proof. intros Hr Ho. specialize (Hr c). rewrite Ho in Hr. destruct Hr as (?&?&(_&_&_&->&_)&_). eauto. Qed.

Lemma createCollection_good c k p :
  cipher_ready p →
  wp (cipher_createCollection c k) (λ r p', cipher_ready p' ∧
    if decide (cipher_storable c ∧ cipher_vault p !! c = None)
    then ok r = true ∧ cipher_vault p' = vault_create hexKey c k (cipher_vault p)
    else ok r = false ∧ cipher_vault p' = cipher_vault p) p.
Proof.
  intros Hr. unfold cipher_createCollection.
  destruct (Nat.leb (String.length c) 31 && negb (bool_decide (c = "metadata"))
    && negb (bool_decide (c = "metadata.db"))) eqn:Hname; simpl.
  2: { apply wp_ret. rewrite ok_error, decide_False; [done| |done].
       intros [(?%Nat.leb_le&?&?&_) _]. rewrite !bool_decide_false in Hname by done.
       simpl in Hname. rewrite !andb_true_r in Hname. congruence. }
  rewrite !andb_true_iff, !negb_true_iff, !bool_decide_eq_false, Nat.leb_le in Hname.
  destruct (all_alphanumeric c) eqn:Halpha; simpl.
  2: { apply wp_ret. rewrite ok_error, decide_False; [done| |done].
       intros [(_&_&_&?) _]. congruence. }
  assert (cipher_storable c) as Hst by (unfold cipher_storable; tauto).
  apply wp_bind, wp_gets. simpl. unfold exists_file.
  destruct (file (database c p)) as [fl|] eqn:Hf; simpl.
  { apply wp_ret. rewrite ok_error, decide_False; [done| |done].
    rewrite vault_None by done. rewrite Hf. naive_solver. }
  destruct (opened c p) eqn:Ho; simpl.
  { destruct (ready_opened_file c p) as [? ?]; [done..|]. congruence. }
  eapply wp_mono; [by apply openCollectionDatabase_spec|]. intros r p' Hout.
  rewrite decide_True; [|split; [done|by apply vault_None]].
  unfold open_outcome in Hout. rewrite Hf in Hout. destruct Hout as (Hok&db&Hu&Hs).
  split; [|split; [done|]].
  - eapply updated_ready; [done..|]. eexists _, _. split; [done|]. apply cipher_empty_wf.
  - eapply updated_vault; [done|..]; unfold vault_create.
    + rewrite lookup_insert_eq, (settled_entry _ _ _ _ Hs). by rewrite cipher_view_empty.
    + intros c' Hc'. by rewrite lookup_insert_ne.
Qed.

Lemma removeCollection_good c p :
  cipher_ready p →
  wp (cipher_removeCollection c) (λ r p', cipher_ready p' ∧ ok r = true
    ∧ cipher_vault p' = delete c (cipher_vault p)) p.
Proof.
  intros Hr. unfold cipher_removeCollection. apply wp_bind.
  eapply wp_mono; [by apply take_and_close_spec|]. intros _ p1 (db1&Hu1&Hrest&Hf1).
  pose proof (updated_ready _ _ _ _ _ Hr Hu1 Hrest) as Hr1. apply wp_bind, wp_gets. simpl.
  unfold exists_file. pose proof Hu1 as (Ho1&Hdb1&_). rewrite Hdb1.
  assert (∀ db p', updated c false db p p' → file db = None →
    cipher_vault p' = delete c (cipher_vault p)) as Hdel.
  { intros db p' Hu Hn. eapply updated_vault; [done|..].
    - rewrite lookup_delete_eq. unfold cipher_entry. by rewrite Hn.
    - intros c' Hc'. by rewrite lookup_delete_ne. }
  destruct (file db1) as [fl|] eqn:Hf; simpl.
  2: { apply wp_ret. split_and!; [done..|]. by eapply Hdel. }
  apply wp_bind, wp_on_database, system_call_spec. rewrite Hdb1. destruct Hrest as [Hq Hfl].
  intros b fs [->|?] Hfs; [|done]. apply wp_bind, wp_on_database, wp_modify, wp_ret.
  rewrite database_set, decide_True by done.
  pose proof (updated_trans _ _ _ _ _ _ _ _ Hu1 (set_database_updated c (set_faults fs db1) p1)) as Hu2.
  pose proof (updated_trans _ _ _ _ _ _ _ _ Hu2
    (set_database_updated c (set_file None (set_faults fs db1)) _)) as Hu3.
  change (opened c (set_database c (set_faults fs db1) p1)) with (opened c p1) in Hu3.
  rewrite Ho1 in Hu3. split_and!; [|done|by eapply Hdel].
  eapply (updated_ready _ _ _ p); [done|exact Hu3|]. split; [by apply Hfs|done].
Qed.

(** ** Operations on an open collection *)

Lemma unlocked_cases c p :
  cipher_ready p →
  match unlocked_entry c (cipher_vault p) with
  | Some e => opened c p = true ∧ ∃ t, settled_at (DbFile t (Some (ve_key e)) 1) None 0 (ve_key e) (database c p)
                ∧ cipher_wf t ∧ e = mkEntry (ve_key e) true (cipher_view t)
  | None => opened c p = false
  end.
Proof.
  intros Hr. unfold unlocked_entry. rewrite lookup_cipher_vault. specialize (Hr c).
  destruct (opened c p).
  - destruct Hr as (key&t&Hs&Hwf). rewrite (settled_entry _ _ _ _ Hs). simpl. eauto.
  - unfold cipher_entry. by destruct (file (database c p)) as [[? [] ?]|].
Qed.

(** An operation on the open database that keeps its key. *)
Lemma with_collection_good {A} c (error : Result → A) (k : M CipherDb A) p
  (Q : string → CipherTables → A → CipherTables → Prop) :
  cipher_ready p → (∀ key, preserves (keyed key 1) k) →
  (∀ key t db, Idle True t db → cipher_wf t →
     wp k (λ a db', ∃ t', Idle True t' db' ∧ cipher_wf t' ∧ Q key t a t') db) →
  wp (with_collection c error k) (λ a p',
    match unlocked_entry c (cipher_vault p) with
    | None => p' = p ∧ ∃ e, ok e = false ∧ a = error e
    | Some e => ∃ t t', cipher_ready p' ∧ Q (ve_key e) t a t'
        ∧ e = mkEntry (ve_key e) true (cipher_view t)
        ∧ cipher_vault p' = alter (entry_with_secrets (λ _, cipher_view t')) c (cipher_vault p)
    end) p.
Proof.
  intros Hr Hkey Hk. pose proof (unlocked_cases c p Hr) as Hu.
  unfold with_collection. apply wp_bind, wp_gets. simpl.
  destruct (unlocked_entry c (cipher_vault p)) as [e|] eqn:He.
  2: { rewrite Hu. apply wp_ret. split; [done|]. eexists. split; [|done].
       destruct (exists_file c p); by apply ok_error. }
  destruct Hu as (Ho&t&Hs&Hwf&Heq). rewrite Ho. apply wp_on_database.
  destruct (settled_at_elim _ _ _ _ Hs) as (Hi&Hg&Hke). eapply wp_mono.
  { apply wp_and; [by apply (Hk (ve_key e) t)|by apply (Hkey (ve_key e))]. }
  intros a db' [(t'&[Hi' Hg']&Hwf'&HQ) Hke']. exists t, t'.
  pose proof (settled_at_intro _ _ _ _ Hi' (Hg' I) Hke') as Hs'.
  pose proof (set_database_updated c db' p) as Hup. rewrite Ho in Hup. split_and!; [|done..|].
  - eapply updated_ready; [done..|]. by exists (ve_key e), t'.
  - eapply updated_alter; [done|]. rewrite Ho, (settled_entry _ _ _ _ Hs'), (settled_entry _ _ _ _ Hs). done.
Qed.

Lemma alter_secrets c (V : Vault) e f :
  V !! c = Some e → entry_with_secrets f e = e → alter (entry_with_secrets f) c V = V.
Proof. intros Hc He. apply map_eq. intros c'. destruct (decide (c' = c)) as [->|Hne].
  - by rewrite lookup_alter_eq, Hc; simpl; rewrite He.
  - by rewrite lookup_alter_ne.
Qed.

Lemma unlocked_entry_Some c (V : Vault) e : unlocked_entry c V = Some e → V !! c = Some e.
Proof.
  unfold unlocked_entry. intros (e'&Hc&He)%bind_Some. by destruct (ve_unlocked e'); simplify_eq.
Qed.

(** A change of the secrets of an open collection. *)
Lemma change_good c (k : M CipherDb Result) p (f : gmap string (bytes * FilterData) → _) (g : CipherTables → CipherTables) :
  cipher_ready p → (∀ key, preserves (keyed key 1) k) →
  (∀ t, cipher_wf t → cipher_wf (g t) ∧ cipher_view (g t) = f (cipher_view t)) →
  (∀ t db, Idle True t db → wp k (λ r db', ended True t (g t) r db' ∧ (True → ok r = true)) db) →
  wp (with_collection c id k) (λ r p', cipher_ready p' ∧
    if decide (is_Some (unlocked_entry c (cipher_vault p)))
    then ok r = true ∧ cipher_vault p' = alter (entry_with_secrets f) c (cipher_vault p)
    else ok r = false ∧ cipher_vault p' = cipher_vault p) p.
Proof.
  intros Hr Hkey Hg Hk. eapply wp_mono.
  { apply (with_collection_good _ _ _ _ (λ _ t r t', ok r = true
      ∧ cipher_view t' = f (cipher_view t))); [done..|].
    intros key t db Hi Hwf. eapply wp_mono; [by apply Hk|]. intros r db' [He Hok].
    specialize (Hok I). unfold ended in He. rewrite Hok in He. exists (g t).
    split_and!; [done|by apply Hg|done|by apply Hg]. }
  intros r p' H. destruct (unlocked_entry c (cipher_vault p)) as [e|] eqn:He.
  - destruct H as (t&t'&?&(?&Hv)&Heq&HV). rewrite decide_True by eauto.
    split_and!; [done..|]. rewrite HV. apply map_eq. intros c'.
    destruct (decide (c' = c)) as [->|Hne]; [|by rewrite !lookup_alter_ne].
    rewrite !lookup_alter_eq, (unlocked_entry_Some _ _ _ He). simpl. f_equal.
    rewrite Heq. unfold entry_with_secrets. simpl. by rewrite Hv.
  - destruct H as (->&e&?&->). rewrite decide_False by (by intros []). done.
Qed.

(** A query on an open collection. *)
Lemma query_good {A} c (error : Result → A) (k : M CipherDb A) p
  (Q : gmap string (bytes * FilterData) → A → Prop) :
  cipher_ready p → (∀ key, preserves (keyed key 1) k) →
  (∀ t db, Idle True t db → wp k (λ a db', Idle True t db' ∧ Q (cipher_view t) a) db) →
  wp (with_collection c error k) (λ a p', cipher_ready p' ∧ cipher_vault p' = cipher_vault p ∧
    match unlocked_entry c (cipher_vault p) with
    | None => ∃ e, ok e = false ∧ a = error e
    | Some e => Q (ve_secrets e) a
    end) p.
Proof.
  intros Hr Hkey Hk. eapply wp_mono.
  { apply (with_collection_good _ _ _ _ (λ _ t a t', t' = t ∧ Q (cipher_view t) a)); [done..|].
    intros key t db Hi Hwf. eapply wp_mono; [by apply Hk|]. intros a db' [? ?]. eauto. }
  intros a p' H. destruct (unlocked_entry c (cipher_vault p)) as [e|] eqn:He.
  - destruct H as (t&t'&?&(->&HQ)&Heq&->). split_and!; [done| |by rewrite Heq].
    apply (alter_secrets _ _ e); [by apply unlocked_entry_Some|by rewrite Heq].
  - destruct H as (->&?). done.
Qed.

Lemma setSecret_good c s x fd p :
  cipher_ready p →
  wp (cipher_setSecret c s x fd) (λ r p', cipher_ready p' ∧
    if decide (s ≠ "" ∧ c ≠ "" ∧ is_Some (unlocked_entry c (cipher_vault p)))
    then ok r = true ∧ cipher_vault p' = vault_set c s x fd (cipher_vault p)
    else ok r = false ∧ cipher_vault p' = cipher_vault p) p.
Proof.
  intros Hr. unfold cipher_setSecret. pose proof (secret_name_error_spec c s) as Hn.
  destruct (secret_name_error c s) as [e|].
  { apply wp_ret. rewrite decide_False by tauto. by destruct Hn. }
  eapply wp_mono.
  { eapply (change_good c _ p (<[s := (x, fd)]>) (cipher_set s x fd)); [done| | |].
    - intros. apply keyed_set_in_database.
    - intros t ?. split; [by apply cipher_set_wf|apply cipher_set_view].
    - intros. by apply set_in_database_ended. }
  intros r p' [? H]. split; [done|]. repeat case_decide; tauto.
Qed.

Lemma removeSecret_good c s p :
  cipher_ready p →
  wp (cipher_removeSecret c s) (λ r p', cipher_ready p' ∧
    if decide (s ≠ "" ∧ c ≠ "" ∧ is_Some (unlocked_entry c (cipher_vault p)))
    then ok r = true ∧ cipher_vault p' = vault_delete c s (cipher_vault p)
    else ok r = false ∧ cipher_vault p' = cipher_vault p) p.
Proof.
  intros Hr. unfold cipher_removeSecret. pose proof (secret_name_error_spec c s) as Hn.
  destruct (secret_name_error c s) as [e|].
  { apply wp_ret. rewrite decide_False by tauto. by destruct Hn. }
  eapply wp_mono.
  { eapply (change_good c _ p (delete s) (cipher_delete s)); [done| | |].
    - intros. apply keyed_remove_in_database.
    - intros t ?. split; [by apply cipher_delete_wf|apply cipher_delete_view].
    - intros. by apply remove_in_database_ended. }
  intros r p' [? H]. split; [done|]. repeat case_decide; tauto.
Qed.

Lemma cipher_getSecret_good c s p :
  cipher_ready p →
  wp (cipher_getSecret c s) (λ '(r, x) p', cipher_ready p' ∧ cipher_vault p' = cipher_vault p
    ∧ x = (if decide (s ≠ "" ∧ c ≠ "")
           then e ← unlocked_entry c (cipher_vault p); ve_secrets e !! s else None)
    ∧ ok r = bool_decide (is_Some x)) p.
Proof.
  intros Hr. unfold cipher_getSecret. pose proof (secret_name_error_spec c s) as Hn.
  destruct (secret_name_error c s) as [e|].
  { apply wp_ret. rewrite decide_False by tauto. by destruct Hn as [-> _]. }
  eapply wp_mono.
  { apply (query_good _ _ _ _ (λ V '(r, x), x = V !! s ∧ ok r = bool_decide (is_Some x))); [done|..].
    - intros. apply keyed_get_in_database.
    - intros t db Hi. eapply wp_mono; [by apply get_in_database_good|]. by intros [r x] db' (?&?&?). }
  intros [r x] p' (?&?&H). rewrite decide_True by done.
  destruct (unlocked_entry c (cipher_vault p)) as [e|]; simpl; [tauto|].
  destruct H as (e&He&[= -> ->]). by rewrite He.
Qed.

Lemma cipher_secretNames_good c p :
  cipher_ready p →
  wp (cipher_secretNames c) (λ '(r, names) p', cipher_ready p' ∧ cipher_vault p' = cipher_vault p ∧
    match (if isEmpty c then None else unlocked_entry c (cipher_vault p)) with
    | Some e => ok r = true ∧ NoDup names ∧ ∀ s, s ∈ names ↔ is_Some (ve_secrets e !! s)
    | None => ok r = false ∧ names = []
    end) p.
Proof.
  intros Hr. unfold cipher_secretNames. destruct (isEmpty c).
  { apply wp_ret. by rewrite ok_error. }
  eapply wp_mono.
  { apply (query_good _ _ _ _ (λ V '(r, names), ok r = true ∧ NoDup names
      ∧ ∀ s, s ∈ names ↔ is_Some (V !! s))); [done|..].
    - intros. apply keyed_names_in_database.
    - intros t db Hi. eapply wp_mono; [by apply names_in_database_good|].
      intros [r names] db' (?&?&->). split_and!; [done..|apply NoDup_fst_map_to_list|].
      intros s. rewrite lookup_cipher_view, fmap_is_Some. unfold sql_names.
      rewrite list_elem_of_fmap. split.
      + intros ([s' x]&->&Hx%elem_of_map_to_list). simpl. by eexists.
      + intros [x Hx]. exists (s, x). split; [done|]. by apply elem_of_map_to_list. }
  intros [r names] p' (?&?&H). destruct (unlocked_entry c (cipher_vault p)) as [e|]; [done|].
  destruct H as (e&He&[= -> ->]). done.
Qed.

Definition cipher_listed c : Prop := c ≠ "metadata" ∧ c ≠ "standalone" ∧ c ≠ "".

#[global] Instance cipher_listed_dec c : Decision (cipher_listed c).
Proof. unfold cipher_listed. apply _. Defined.

Lemma cipher_collectionNames_good p :
  cipher_ready p →
  wp cipher_collectionNames (λ '(r, names) p', ok r = true ∧ cipher_ready p'
    ∧ cipher_vault p' = cipher_vault p ∧ NoDup names
    ∧ ∀ c, c ∈ names ↔ cipher_listed c ∧ is_Some (cipher_vault p !! c)) p.
Proof.
  intros Hr. unfold cipher_collectionNames. apply wp_bind, wp_gets, wp_ret. simpl.
  split_and!; [done..|apply NoDup_filter, NoDup_filter, NoDup_qmap_keys|]. intros c.
  rewrite !list_elem_of_filter, elem_of_qmap_keys.
  rewrite <-(not_eq_None_Some (cipher_vault p !! c)), vault_None by done.
  unfold cipher_listed, exists_file. rewrite bool_decide_eq_true, <-not_eq_None_Some.
  unfold database. destruct (databases p !! c); simpl; naive_solver.
Qed.

Lemma settled_readable t key v :
  readable (DbFile (T := CipherTables) t (Some key) v) key = true.
Proof. unfold readable. simpl. by apply bool_decide_eq_true. Qed.

(** Replacing the connection of an open collection by one in the same state. *)
Lemma set_database_same c p db key t :
  cipher_ready p → opened c p = true → file (database c p) = Some (DbFile t (Some key) 1) →
  settled_at (DbFile t (Some key) 1) None 0 key db → cipher_wf t →
  cipher_ready (set_database c db p) ∧ cipher_vault (set_database c db p) = cipher_vault p.
Proof.
  intros Hr Ho Hf Hs Hwf. pose proof (set_database_updated c db p) as Hu. rewrite Ho in Hu. split.
  - eapply updated_ready; [done..|]. by exists key, t.
  - eapply updated_vault; [done| |done]. rewrite lookup_cipher_vault, (settled_entry _ _ _ _ Hs), Ho.
    unfold cipher_entry. by rewrite Hf.
Qed.

Lemma isCollectionLocked_good c b p :
  cipher_ready p →
  wp (cipher_isCollectionLocked c b) (λ '(r, locked) p', cipher_ready p' ∧ cipher_vault p' = cipher_vault p ∧
    match cipher_vault p !! c with
    | Some e => ok r = true ∧ locked = negb (ve_unlocked e)
    | None => ok r = false ∧ locked = b
    end) p.
Proof.
  intros Hr. unfold cipher_isCollectionLocked. apply wp_bind, wp_gets. simpl.
  destruct (opened c p) eqn:Ho.
  - pose proof (Hr c) as Hc. rewrite Ho in Hc. destruct Hc as (key&t&Hs&Hwf).
    apply wp_bind, wp_on_database. eapply wp_mono; [by eapply at_prepare|].
    intros [q txt] db1 (->&->&Hs1). simpl. apply wp_bind, wp_on_database.
    rewrite database_set, decide_True by done.
    eapply wp_mono; [eapply at_select; [apply settled_readable|done]|].
    intros [r' txt'] db2 [-> Hs2]. apply wp_ret. simpl.
    destruct (set_database_same c p db1 key t) as [Hr1 HV1]; [done|done|apply Hs|done|done|].
    destruct (set_database_same c (set_database c db1 p) db2 key t) as [Hr2 HV2]; [done|done| |done|done|].
    { rewrite database_set, decide_True by done. apply Hs1. }
    split_and!; [done|by rewrite HV2|]. rewrite lookup_cipher_vault, Ho, (settled_entry _ _ _ _ Hs).
    done.
  - unfold exists_file. pose proof (vault_None c p Hr) as Hn.
    rewrite lookup_cipher_vault, Ho in *. unfold cipher_entry in *.
    destruct (file (database c p)) as [[t [k|] v]|] eqn:Hf; simpl in *; apply wp_ret.
    + done.
    + by destruct Hn as [? _]; specialize (H eq_refl).
    + by rewrite ok_error.
Qed.

Lemma rekey_transaction_good new t key db :
  settled_at (DbFile t (Some key) 1) None 0 key db →
  wp (rekey_transaction new) (λ r db', ok r = true
    ∧ settled_at (DbFile t (Some new) 1) None 0 new db') db.
Proof.
  intros Hs. unfold rekey_transaction. step at_prepare. intros [q txt] db1 (->&->&Hs1). simpl.
  apply wp_bind. eapply wp_mono; [eapply at_begin; [apply settled_readable|done]|].
  intros b db2 [-> Hs2]. simpl.
  apply wp_bind. eapply wp_mono; [eapply at_rekey; [apply settled_readable|done]|].
  intros [b txt] db3 [-> Hs3]. simpl. step at_commit. intros b db4 [-> Hs4]. by apply wp_ret.
Qed.

Lemma cipher_reencrypt_good c k k' p :
  cipher_ready p →
  wp (cipher_reencrypt c k k') (λ r p', cipher_ready p'
    ∧ cipher_vault p' = vault_rekey hexKey c k k' (cipher_vault p)
    ∧ ok r = vault_rekey_ok hexKey c k (cipher_vault p)) p.
Proof.
  intros Hr. unfold cipher_reencrypt. apply wp_bind.
  eapply wp_mono; [by apply setEncryptionKey_good|]. intros r p1 (Hr1&HV1&Hok).
  assert (vault_rekey_ok hexKey c k (cipher_vault p) = false →
    cipher_vault p1 = vault_rekey hexKey c k k' (cipher_vault p)) as Hfail.
  { intros Hn. rewrite HV1. apply map_eq. intros c'. unfold vault_key, vault_rekey, vault_rekey_ok in *.
    destruct (decide (c' = c)) as [->|Hne]; [|by rewrite !lookup_alter_ne].
    rewrite !lookup_alter_eq. destruct (cipher_vault p !! c) as [e|]; simpl; [|done].
    by rewrite Hn. }
  unfold vault_key_ok in Hok. fold (vault_rekey_ok hexKey c k (cipher_vault p)) in Hok.
  destruct (ok r) eqn:Hr'; simpl.
  2: { apply wp_ret. symmetry in Hok. apply orb_false_iff in Hok as [_ Hn].
       split_and!; [done|by apply Hfail|congruence]. }
  apply wp_bind, wp_gets. simpl. pose proof (unlocked_cases c p1 Hr1) as Hu.
  assert (is_Some (unlocked_entry c (cipher_vault p1)) ↔
    vault_rekey_ok hexKey c k (cipher_vault p) = true) as Hiff.
  { rewrite HV1. unfold unlocked_entry, vault_key, vault_rekey_ok. rewrite lookup_alter_eq.
    destruct (cipher_vault p !! c) as [e|]; simpl; [|by split; [intros []|]].
    destruct (fits hexKey k e); simpl; split; [done|by eexists|by intros []|done]. }
  destruct (vault_rekey_ok hexKey c k (cipher_vault p)) eqn:Hrk.
  2: { destruct (unlocked_entry c (cipher_vault p1)); [by destruct Hiff as [Hi _]; discriminate Hi|].
       rewrite Hu. apply wp_ret. rewrite ok_error by done. split_and!; [done|by apply Hfail|done]. }
  destruct (unlocked_entry c (cipher_vault p1)) as [e|] eqn:He.
  2: { destruct Hiff as [_ Hi]. by destruct (Hi eq_refl). }
  destruct Hu as (Ho&t&Hs&Hwf&Heq). rewrite Ho, length_hexKey. simpl. apply wp_on_database.
  eapply wp_mono; [by eapply rekey_transaction_good|]. intros r2 db2 [Hok2 Hs2].
  pose proof (set_database_updated c db2 p1) as Hup. rewrite Ho in Hup.
  split_and!; [|  |done]; [by eapply updated_ready; [done..|]; exists (hexKey k'), t|].
  eapply updated_vault; [done|..].
  - rewrite (settled_entry _ _ _ _ Hs2). unfold vault_rekey. rewrite lookup_alter_eq.
    apply unlocked_entry_Some in He. rewrite HV1 in He. unfold vault_key in He.
    rewrite lookup_alter_eq in He. unfold vault_rekey_ok in Hrk.
    destruct (cipher_vault p !! c) as [e0|]; simpl in *; [|done]. rewrite Hrk in *.
    injection He as He. rewrite <-He in Heq. injection Heq as Heq. by rewrite Heq.
  - intros c' Hc'. rewrite HV1. unfold vault_rekey, vault_key. by rewrite !lookup_alter_ne.
Qed.

#[global] Program Instance cipher_spec : EncryptedStoragePluginSpec SqlCipher := {|
  vready := cipher_ready;
  vault := cipher_vault;
  key_of := hexKey;
  listed := cipher_listed;
  storable := cipher_storable;
|}.
Next Obligation. done. Qed.
Next Obligation. intros. by apply cipher_collectionNames_good. Qed.
Next Obligation. intros. by apply createCollection_good. Qed.
Next Obligation. intros. by apply removeCollection_good. Qed.
Next Obligation. intros. by apply isCollectionLocked_good. Qed.
Next Obligation. intros. by apply setEncryptionKey_good. Qed.
Next Obligation. intros. by apply cipher_reencrypt_good. Qed.
Next Obligation. intros. by apply setSecret_good. Qed.
Next Obligation. intros. by apply removeSecret_good. Qed.
Next Obligation. intros. by apply cipher_getSecret_good. Qed.
Next Obligation. intros. by apply cipher_secretNames_good. Qed.
End plugin.
