(* ===== verification/PluginFunctionWrappers.v ===== *)
(** The compound operations the daemon runs in the plugin threads
    (daemon/SecretsImpl/pluginfunctionwrappers.cpp): locking and unlocking by
    plugin name, the master lock of all plugins, storing and reading with an
    encryption plugin, and operations on the secrets of a locked collection,
    which is unlocked for the operation and locked again afterwards.

    The remaining functions of the file call one function of a plugin or of a
    wrapper and bundle its results.  Those on stored keys that belong to crypto
    plugins are left out. *)
From S2P Require Import Prelude Result Sqlite MetadataDb PluginApi PluginWrapper.

(** [Secret]: identifier, data, filter data. *)
Record Secret := mkSecret {
  secret_identifier : Identifier;
  secret_data : bytes;
  secret_filterData : FilterData;
}.

(** A default-constructed [Secret]. *)
Definition noSecret : Secret := mkSecret (mkIdentifier "" "" "") "" {["Type" := "Unknown"]}.

(** [CollectionInfo] *)
Record CollectionInfo := mkCollectionInfo {
  ci_collectionName : string;
  ci_collectionKey : bytes;
  ci_relockRequired : bool;
}.

(** * Locking one plugin *)

(** [LockCodeRequest::LockStatus] *)
Inductive LockStatus := UnknownLockStatus | Unsupported | Unlocked | Locked.

(** The lambdas of [lockSpecificPlugin], [unlockSpecificPlugin] and
    [modifyLockSpecificPlugin], for any kind of plugin. *)
Section lambdas.
  Context {S : Type} (supportsLocking isLocked : S → bool) (type name : string).

Definition not_supported : Result :=
  result_error OperationNotSupportedError (type +:+ " plugin " +:+ name +:+ " does not support locking").

Definition failed_to (what : string) : Result :=
  result_error UnknownError ("Failed to " +:+ what +:+ " " +:+ type +:+ " plugin " +:+ name).

Definition lock_lambda (lock : M S bool) : M S Result :=
  let* p := gets id in
  if negb (supportsLocking p) then ret not_supported else
  if isLocked p then ret (result_of_code Succeeded) else
  let* locked := lock in
  ret (if (locked : bool) then result_of_code Succeeded else failed_to "lock").

Definition unlock_lambda (unlock : M S bool) : M S Result :=
  let* p := gets id in
  if negb (supportsLocking p) then ret not_supported else
  if negb (isLocked p) then ret (result_of_code Succeeded) else
  let* unlocked := unlock in
  ret (if (unlocked : bool) then result_of_code Succeeded else failed_to "unlock").

Definition setLockCode_lambda (setLockCode : M S bool) : M S Result :=
  let* p := gets id in
  if negb (supportsLocking p) then ret not_supported else
  let* done := setLockCode in
  ret (if (done : bool) then result_of_code Succeeded else failed_to "set lock code for").

Definition lockStatus_of (p : S) : LockStatus :=
  if negb (supportsLocking p) then Unsupported else if isLocked p then Locked else Unlocked.
End lambdas.

(** A wrapper with the configuration of its metadata database. *)
Abbreviation Configured P := (MetadataConfig * Wrapper P)%type.

Definition configured {P A} (f : MetadataConfig → M (Wrapper P) A) : M (Configured P) A :=
  λ cw, let '(a, w) := f cw.1 cw.2 in (a, (cw.1, w)).

Section plugins.
  Context {P E C : Type} `{StoragePlugin P} `{EncryptedStoragePlugin E} `{PluginBase C}.

(** The plugins of the daemon, by name; [C] is the state of an encryption
    plugin. *)
Record Plugins := mkPlugins {
  encryptionPlugins : gmap string C;
  storagePlugins : gmap string (Configured P);
  encryptedStoragePlugins : gmap string (Configured E);
}.

(** Run an operation on the plugin of that name, looked up in the order the code
    does; [None] is [found = false]. *)
Definition specific {A} (lockCodeTarget : string)
  (s : M (Configured P) A) (e : M (Configured E) A) (c : M C A) : M Plugins (option A) := λ ps,
  match storagePlugins ps !! lockCodeTarget with
  | Some p => let '(a, p') := s p in
      (Some a, mkPlugins (encryptionPlugins ps) (<[lockCodeTarget := p']> (storagePlugins ps))
                 (encryptedStoragePlugins ps))
  | None =>
  match encryptedStoragePlugins ps !! lockCodeTarget with
  | Some p => let '(a, p') := e p in
      (Some a, mkPlugins (encryptionPlugins ps) (storagePlugins ps)
                 (<[lockCodeTarget := p']> (encryptedStoragePlugins ps)))
  | None =>
  match encryptionPlugins ps !! lockCodeTarget with
  | Some p => let '(a, p') := c p in
      (Some a, mkPlugins (<[lockCodeTarget := p']> (encryptionPlugins ps)) (storagePlugins ps)
                 (encryptedStoragePlugins ps))
  | None => (None, ps)
  end end end.

(** [queryLockSpecificPlugin]: the encryption plugin found is not used. *)
Definition queryLockSpecificPlugin (lockCodeTarget : string) (ps : Plugins) : bool * LockStatus :=
  match storagePlugins ps !! lockCodeTarget with
  | Some p => (true, lockStatus_of wrapper_supportsLocking wrapper_isLocked p.2)
  | None =>
  match encryptedStoragePlugins ps !! lockCodeTarget with
  | Some p => (true, lockStatus_of wrapper_supportsLocking wrapper_isLocked p.2)
  | None => (false, UnknownLockStatus)
  end end.

(** [lockSpecificPlugin] *)
Definition lockSpecificPlugin (lockCodeTarget : string) : M Plugins (option Result) :=
  specific lockCodeTarget
    (configured (λ _, lock_lambda wrapper_supportsLocking wrapper_isLocked "storage" lockCodeTarget
                        wrapper_lock))
    (configured (λ _, lock_lambda wrapper_supportsLocking wrapper_isLocked "encrypted storage"
                        lockCodeTarget wrapper_lock))
    (lock_lambda pb_supportsLocking pb_isLocked "encryption" lockCodeTarget pb_lock).

(** [unlockSpecificPlugin] *)
Definition unlockSpecificPlugin (lockCodeTarget : string) (lockCode : bytes)
  : M Plugins (option Result) :=
  specific lockCodeTarget
    (configured (λ cfg, unlock_lambda wrapper_supportsLocking wrapper_isLocked "storage"
                          lockCodeTarget (wrapper_unlock (sw_initialize cfg) lockCode)))
    (configured (λ cfg, unlock_lambda wrapper_supportsLocking wrapper_isLocked "encrypted storage"
                          lockCodeTarget (wrapper_unlock (ew_initialize cfg) lockCode)))
    (unlock_lambda pb_supportsLocking pb_isLocked "encryption" lockCodeTarget (pb_unlock lockCode)).

(** [modifyLockSpecificPlugin] *)
Definition modifyLockSpecificPlugin (lockCodeTarget : string) (oldCode newCode : bytes)
  : M Plugins (option Result) :=
  specific lockCodeTarget
    (configured (λ cfg, setLockCode_lambda wrapper_supportsLocking "storage" lockCodeTarget
                          (wrapper_setLockCode (sw_initialize cfg) oldCode newCode)))
    (configured (λ cfg, setLockCode_lambda wrapper_supportsLocking "encrypted storage" lockCodeTarget
                          (wrapper_setLockCode (ew_initialize cfg) oldCode newCode)))
    (setLockCode_lambda pb_supportsLocking "encryption" lockCodeTarget
       (pb_setLockCode oldCode newCode)).

(** * The master lock of all plugins *)

(** Run an operation on each plugin of a list; a failure does not stop. *)
Fixpoint each {S} (f : M S bool) : M (list S) bool := λ l,
  match l with
  | [] => (true, [])
  | x :: l' => let '(b, x') := f x in let '(b', l'') := each f l' in (b && b', x' :: l'')
  end.

Definition each_plugin (s : M (Configured P) bool) (e : M (Configured E) bool)
  : M (list (Configured P) * list (Configured E)) bool := λ '(ss, es),
  let '(b, ss') := each s ss in
  let '(b', es') := each e es in
  (b && b', (ss', es')).

(** The lambda of [masterLockPlugins]. *)
Definition masterLock_lambda {Q} `{PluginBase Q} : M (Wrapper Q) bool :=
  let* locked := isMasterLocked in
  if (locked : bool) then ret true else masterLock.

(** [masterLockPlugins] *)
Definition masterLockPlugins : M (list (Configured P) * list (Configured E)) bool :=
  each_plugin (configured (λ _, masterLock_lambda)) (configured (λ _, masterLock_lambda)).

(** The lambda of [masterUnlockPlugins]. *)
Definition masterUnlock_lambda {Q} `{PluginBase Q} (initialize : bytes → M (Wrapper Q) bool)
  (key : bytes) : M (Wrapper Q) bool :=
  let* locked := isMasterLocked in
  if (locked : bool) then masterUnlock initialize key else ret true.

(** [masterUnlockPlugins] *)
Definition masterUnlockPlugins (encryptionKey : bytes)
  : M (list (Configured P) * list (Configured E)) bool :=
  each_plugin (configured (λ cfg, masterUnlock_lambda (sw_initialize cfg) encryptionKey))
    (configured (λ cfg, masterUnlock_lambda (ew_initialize cfg) encryptionKey)).

(** The lambda of [modifyMasterLockPlugins]: the result of the unlocking does
    not count. *)
Definition modifyMasterLock_lambda {Q} `{PluginBase Q} (initialize : bytes → M (Wrapper Q) bool)
  (oldKey newKey : bytes) : M (Wrapper Q) bool :=
  let* locked := isMasterLocked in
  (if (locked : bool) then masterUnlock initialize oldKey ;;; ret tt else ret tt) ;;;
  setMasterLockKey initialize oldKey newKey.

(** [modifyMasterLockPlugins] *)
Definition modifyMasterLockPlugins (oldEncryptionKey newEncryptionKey : bytes)
  : M (list (Configured P) * list (Configured E)) bool :=
  each_plugin
    (configured (λ cfg, modifyMasterLock_lambda (sw_initialize cfg) oldEncryptionKey newEncryptionKey))
    (configured (λ cfg, modifyMasterLock_lambda (ew_initialize cfg) oldEncryptionKey newEncryptionKey)).
End plugins.
Arguments Plugins : clear implicits.

(** The lambda of [storedKeyIdentifiers]: the keys of all collections; a locked
    collection is passed over. *)
Definition storedKeyIdentifiers_lambda {S} (collectionNames : M S (Result * gmap string bool))
  (keyNames : string → M S (Result * list string)) (name : string)
  : M S (Result * list Identifier) :=
  let* '(result, cnamesMap) := collectionNames in
  if negb (ok result) then ret (result, []) else
  let* '(stopped, result, idents) :=
    foldM (λ acc cname,
      let '(stopped, result, idents) := acc in
      if (stopped : bool) then ret (stopped, result, idents) else
      let* '(result, knames) := keyNames cname in
      if negb (ok result) && negb (bool_decide (errorCode result = CollectionIsLockedError))
      then ret (true, result, idents)
      else ret (false, result_of_code Succeeded,
                idents ++ ((λ kname, mkIdentifier kname cname name) <$> knames)))
      (qmap_keys cnamesMap) (false, result, []) in
  ret (result, idents).

(** * [StoragePluginFunctionWrapper] *)
Section storage.
  Context {P : Type} `{StoragePlugin P}.

(** [encryptAndStoreSecret] *)
Definition encryptAndStoreSecret (encryptionPlugin : EncryptionPlugin)
  (metadata : SecretMetadata) (secret : Secret) (encryptionKey : bytes) : M (Wrapper P) Result :=
  let '(pluginResult, encrypted) :=
    encryptSecret encryptionPlugin (secret_data secret) encryptionKey in
  if ok pluginResult then sw_setSecret metadata encrypted (secret_filterData secret)
  else ret pluginResult.

(** [getAndDecryptSecret] *)
Definition getAndDecryptSecret (encryptionPlugin : EncryptionPlugin) (identifier : Identifier)
  (encryptionKey : bytes) : M (Wrapper P) (Result * Secret) :=
  let* '(pluginResult, data) := sw_getSecret (ident_collectionName identifier) (ident_name identifier) in
  if negb (ok pluginResult) then ret (pluginResult, noSecret) else
  let '(encrypted, filterData) := default ("", ∅) data in
  let '(pluginResult, decrypted) := decryptSecret encryptionPlugin encrypted encryptionKey in
  ret (pluginResult, mkSecret identifier decrypted filterData).

(** [findSecrets] *)
Definition fw_findSecrets (collectionName : string) (flt : FilterData) (op : FilterOperator)
  : M (Wrapper P) (Result * list Identifier) :=
  let* '(pluginResult, secretNames) := sw_findSecrets collectionName flt op in
  ret (pluginResult, (λ name, mkIdentifier name collectionName pb_name) <$> secretNames).

(** The encryption plugin of what uses the device lock key. *)
Definition device_lock_plugin (encryptionPlugins : gmap string EncryptionPlugin) (what : string)
  (usesDeviceLockKey : bool) (encryptionPluginName : string) : Result + option EncryptionPlugin :=
  if usesDeviceLockKey then
    match encryptionPlugins !! encryptionPluginName with
    | None => inl (result_error InvalidExtensionPluginError
                     ("Unknown " +:+ what +:+ " encryption plugin " +:+ encryptionPluginName))
    | Some plugin => inr (Some plugin)
    end
  else inr None.

(** Collect the names that use the device lock key; [inl] is an early return.
    The other component is the last [result]. *)
Definition collect_device_locked (metadata : string → M (Wrapper P) (Result * (bool * string)))
  (encryptionPlugins : gmap string EncryptionPlugin) (what : string) (names : list string)
  (result : Result) : M (Wrapper P) (Result + Result * gmap string EncryptionPlugin) :=
  foldM (λ acc name,
    match acc with
    | inl r => ret (inl r)
    | inr (_, m) =>
        let* '(result, (usesDeviceLockKey, encryptionPluginName)) := metadata name in
        if negb (ok result) then ret (inl result) else
        match device_lock_plugin encryptionPlugins what usesDeviceLockKey encryptionPluginName with
        | inl e => ret (inl e)
        | inr None => ret (inr (result, m))
        | inr (Some plugin) => ret (inr (result, <[name := plugin]> m))
        end
    end) names (inr (result, ∅)).

(** Re-encrypt one after the other; the last failure is the result. *)
Definition reencrypt_each (reencrypt : string → EncryptionPlugin → M (Wrapper P) Result)
  (m : gmap string EncryptionPlugin) (result : Result) : M (Wrapper P) Result :=
  foldM (λ result name,
    match m !! name with
    | None => ret result
    | Some plugin => let* r := reencrypt name plugin in ret (if ok r then result else r)
    end) (qmap_keys m) result.

(** [reencryptDeviceLockedCollectionsAndSecrets] *)
Definition reencryptDeviceLockedCollectionsAndSecrets
  (encryptionPlugins : gmap string EncryptionPlugin) (oldEncryptionKey newEncryptionKey : bytes)
  : M (Wrapper P) Result :=
  let* '(result, cnamesMap) := sw_collectionNames in
  if negb (ok result) then ret result else
  let* collected :=
    collect_device_locked
      (λ cname, let* '(r, md) := wrapper_collectionMetadata cname noCollectionMetadata in
                ret (r, (cm_usesDeviceLockKey md, cm_encryptionPluginName md)))
      encryptionPlugins "collection" (qmap_keys cnamesMap) result in
  match collected with
  | inl r => ret r
  | inr (_, reencryptCollections) =>
  let* '(result, snames) := sw_secretNames "" in
  if negb (ok result) then ret result else
  let* collected :=
    collect_device_locked
      (λ sname, let* '(r, md) := wrapper_secretMetadata "" sname noSecretMetadata in
                ret (r, (sm_usesDeviceLockKey md, sm_encryptionPluginName md)))
      encryptionPlugins "secret" snames result in
  match collected with
  | inl r => ret r
  | inr (result, reencryptSecrets) =>
  let* result :=
    reencrypt_each (λ cname plugin, sw_reencrypt cname "" oldEncryptionKey newEncryptionKey plugin)
      reencryptCollections result in
  reencrypt_each (λ sname plugin, sw_reencrypt "" sname oldEncryptionKey newEncryptionKey plugin)
    reencryptSecrets result
  end end.
End storage.

(** What [collectionSecretPreCheck] concludes from the secret's metadata. *)
Definition precheck_result (result : Result) (newSecret : bool) : Result :=
  if ok result then
    if newSecret
    then result_error SecretAlreadyExistsError
           "A secret with that name in this collection already exists"
    else result_of_code Succeeded
  else if bool_decide (errorCode result = InvalidSecretError) then result_of_code Succeeded
  else result.

Definition no_such_collection (collectionName name : string) : Result :=
  result_error InvalidCollectionError
    ("No such collection " +:+ collectionName +:+ " exists in plugin " +:+ name).

(** [StoragePluginFunctionWrapper::collectionSecretPreCheck] *)
Definition collectionSecretPreCheck {P} `{StoragePlugin P} (collectionName secretName : string)
  (newSecret : bool) : M (Wrapper P) Result :=
  let* '(result, cnamesMap) := sw_collectionNames in
  if negb (ok result) then ret result else
  if negb (contains (qmap_keys cnamesMap) collectionName) then
    ret (no_such_collection collectionName pb_name) else
  let* '(result, _) := wrapper_secretMetadata collectionName secretName noSecretMetadata in
  ret (precheck_result result newSecret).

(** * [EncryptedStoragePluginFunctionWrapper] *)
Section encrypted.
  Context (cfg : MetadataConfig) {P : Type} `{EncryptedStoragePlugin P}.

(** Whether a collection that was unlocked for one operation is locked again. *)
Definition relocks (usesDeviceLockKey : bool) (unlockSemantic : Z) : bool :=
  (usesDeviceLockKey && negb (bool_decide (unlockSemantic = DeviceLockKeepUnlocked)))
  || (negb usesDeviceLockKey && negb (bool_decide (unlockSemantic = CustomLockKeepUnlocked))).

(** Lock a collection; the result does not count. *)
Definition lock_again (collectionName : string) : M (Wrapper P) unit :=
  ew_setEncryptionKey cfg collectionName "" ;;; ret tt.

(** The first part of the four functions below: make sure that the collection
    is unlocked.  [inl] is an early return; [inr] tells whether the collection
    was locked before. *)
Definition unlock_collection (collectionName : string) (encryptionKey : bytes)
  : M (Wrapper P) (Result + bool) :=
  let* '(pluginResult, locked) := ew_isCollectionLocked collectionName false in
  if negb (ok pluginResult) then ret (inl pluginResult) else
  if negb locked then ret (inr false) else
  let* pluginResult := ew_setEncryptionKey cfg collectionName encryptionKey in
  if negb (ok pluginResult) then
    lock_again collectionName ;;;
    ret (inl (result_error SecretsPluginDecryptionError
           ("Unable to decrypt collection " +:+ collectionName
            +:+ " with the entered authentication key"))) else
  let* '(pluginResult, locked) := ew_isCollectionLocked collectionName true in
  if negb (ok pluginResult) then
    lock_again collectionName ;;;
    ret (inl (result_error SecretsPluginDecryptionError
           ("Unable to check lock state of collection " +:+ collectionName
            +:+ " after setting the entered authentication key")))
  else if (locked : bool) then
    lock_again collectionName ;;;
    ret (inl (result_error IncorrectAuthenticationCodeError
           ("The authentication code entered for collection " +:+ collectionName
            +:+ " was incorrect")))
  else ret (inr true).

(** ... and the last part. *)
Definition relock_collection (originallyLocked : bool) (usesDeviceLockKey : bool)
  (unlockSemantic : Z) (collectionName : string) : M (Wrapper P) unit :=
  if originallyLocked && relocks usesDeviceLockKey unlockSemantic
  then lock_again collectionName else ret tt.

(** [unlockCollectionAndStoreSecret] *)
Definition unlockCollectionAndStoreSecret (metadata : SecretMetadata) (secret : Secret)
  (encryptionKey : bytes) : M (Wrapper P) Result :=
  let collectionName := ident_collectionName (secret_identifier secret) in
  let* unlocked := unlock_collection collectionName encryptionKey in
  match unlocked with
  | inl e => ret e
  | inr originallyLocked =>
      let* pluginResult := ew_setSecret metadata (secret_data secret) (secret_filterData secret) in
      relock_collection originallyLocked (sm_usesDeviceLockKey metadata)
        (sm_unlockSemantic metadata) collectionName ;;;
      ret pluginResult
  end.

(** [unlockCollectionAndReadSecret] *)
Definition unlockCollectionAndReadSecret (metadata : CollectionMetadata) (identifier : Identifier)
  (encryptionKey : bytes) : M (Wrapper P) (Result * Secret) :=
  let collectionName := ident_collectionName identifier in
  let* unlocked := unlock_collection collectionName encryptionKey in
  match unlocked with
  | inl e => ret (e, noSecret)
  | inr originallyLocked =>
      let* '(pluginResult, data) := ew_getSecret collectionName (ident_name identifier) in
      let '(secretData, secretFilterdata) := default ("", ∅) data in
      relock_collection originallyLocked (cm_usesDeviceLockKey metadata)
        (cm_unlockSemantic metadata) collectionName ;;;
      ret (pluginResult, mkSecret identifier secretData secretFilterdata)
  end.

(** [unlockCollectionAndRemoveSecret] *)
Definition unlockCollectionAndRemoveSecret (metadata : CollectionMetadata) (identifier : Identifier)
  (encryptionKey : bytes) : M (Wrapper P) Result :=
  let collectionName := ident_collectionName identifier in
  let* unlocked := unlock_collection collectionName encryptionKey in
  match unlocked with
  | inl e => ret e
  | inr originallyLocked =>
      let* pluginResult := ew_removeSecret collectionName (ident_name identifier) in
      relock_collection originallyLocked (cm_usesDeviceLockKey metadata)
        (cm_unlockSemantic metadata) collectionName ;;;
      ret pluginResult
  end.

(** [unlockAndFindSecrets] *)
Definition unlockAndFindSecrets (metadata : CollectionMetadata) (flt : FilterData)
  (filterOperator : FilterOperator) (encryptionKey : bytes)
  : M (Wrapper P) (Result * list Identifier) :=
  let collectionName := cm_collectionName metadata in
  let* unlocked := unlock_collection collectionName encryptionKey in
  match unlocked with
  | inl e => ret (e, [])
  | inr originallyLocked =>
      let* '(pluginResult, identifiers) := ew_findSecrets collectionName flt filterOperator in
      relock_collection originallyLocked (cm_usesDeviceLockKey metadata)
        (cm_unlockSemantic metadata) collectionName ;;;
      ret (pluginResult, identifiers)
  end.

(** One collection of [unlockDeviceLockedCollectionsAndReencrypt]. *)
Definition unlock_and_reencrypt (oldEncryptionKey newEncryptionKey : bytes) (collectionName : string)
  : M (Wrapper P) Result :=
  let* '(_, collectionLocked) := ew_isCollectionLocked collectionName true in
  (if (collectionLocked : bool) then
     ew_setEncryptionKey cfg collectionName oldEncryptionKey ;;;
     ew_isCollectionLocked collectionName collectionLocked ;;;
     ret tt
   else ret tt) ;;;
  ew_reencrypt collectionName oldEncryptionKey newEncryptionKey.

(** [unlockDeviceLockedCollectionsAndReencrypt] *)
Definition unlockDeviceLockedCollectionsAndReencrypt (oldEncryptionKey newEncryptionKey : bytes)
  : M (Wrapper P) Result :=
  let* '(result, cnamesMap) := ew_collectionNames in
  if negb (ok result) then ret result else
  let* collected :=
    foldM (λ acc cname,
      match acc with
      | inl r => ret (inl r)
      | inr (_, names) =>
          let* '(result, metadata) := wrapper_collectionMetadata cname noCollectionMetadata in
          if negb (ok result) then ret (inl result) else
          ret (inr (result, if cm_usesDeviceLockKey metadata then names ++ [cname] else names))
      end) (qmap_keys cnamesMap) (inr (result, [])) in
  match collected with
  | inl r => ret r
  | inr (result, reencryptCNames) =>
      foldM (λ result cname,
        let* r := unlock_and_reencrypt oldEncryptionKey newEncryptionKey cname in
        ret (if ok r then result else r)) reencryptCNames result
  end.

(** [unlockAndRemoveCollection]; the key is made by [key], which may fail. *)
Definition remove_unlocked (collectionName : string) (key : M (Wrapper P) (Result * bytes))
  : M (Wrapper P) Result :=
  let* '(result, locked) := ew_isCollectionLocked collectionName false in
  if negb (ok result) then ret result else
  if negb locked then ew_removeCollection collectionName else
  let* '(result, encryptionKey) := key in
  if negb (ok result) then ret result else
  let* result := ew_setEncryptionKey cfg collectionName encryptionKey in
  if negb (ok result) then ret result else
  let* '(result, locked) := ew_isCollectionLocked collectionName false in
  if negb (ok result) then ret result else
  if (locked : bool) then
    ret (result_error CollectionIsLockedError
           "Invalid lock code, unable to unlock collection to delete")
  else ew_removeCollection collectionName.

Definition unlockAndRemoveCollection (collectionName : string) (encryptionKey : bytes)
  : M (Wrapper P) Result :=
  remove_unlocked collectionName (ret (result_of_code Succeeded, encryptionKey)).

(** [deriveKeyUnlockAndRemoveCollection] *)
Definition deriveKeyUnlockAndRemoveCollection (collectionName : string) (lockCode salt : bytes)
  : M (Wrapper P) Result :=
  remove_unlocked collectionName
    (let* '(result, derivedKey) := ew_deriveKeyFromCode lockCode salt in
     ret (result, default "" derivedKey)).

(** [EncryptedStoragePluginFunctionWrapper::collectionSecretPreCheck] *)
Definition ew_collectionSecretPreCheck (info : CollectionInfo) (secretName : string)
  (newSecret : bool) : M (Wrapper P) Result :=
  let collectionName := ci_collectionName info in
  let* '(result, cnamesMap) := ew_collectionNames in
  if negb (ok result) then ret result else
  if negb (contains (qmap_keys cnamesMap) collectionName) then
    ret (no_such_collection collectionName pb_name) else
  let* '(result, locked) := ew_isCollectionLocked collectionName false in
  if negb (ok result) then ret result else
  let originallyLocked := (locked : bool) in
  let* unlocked :=
    (if originallyLocked then
       let* result := ew_setEncryptionKey cfg collectionName (ci_collectionKey info) in
       if negb (ok result) then ret (Some result) else
       let* '(result, locked) := ew_isCollectionLocked collectionName false in
       if negb (ok result) then ret (Some result) else
       if (locked : bool) then
         ret (Some (result_error CollectionIsLockedError
                      "Invalid lock code, unable to unlock collection"))
       else ret None
     else ret None) in
  match unlocked with
  | Some e => ret e
  | None =>
      let* '(result, _) := wrapper_secretMetadata collectionName secretName noSecretMetadata in
      (if originallyLocked && ci_relockRequired info then lock_again collectionName else ret tt) ;;;
      ret (precheck_result result newSecret)
  end.
End encrypted.
