(* ===== verification/FunctionSpec.v ===== *)
(** Correctness of the compound plugin operations: a collection that was
    unlocked for one operation is locked again on every path, and the operation
    does what it should exactly when the key is right. *)
From S2P Require Import Prelude Result Sqlite Transactions MetadataDb PluginApi.
From S2P Require Import MetadataSync PluginWrapper WrapperSpec PluginFunctionWrappers.

#[local] Arguments select : simpl never.
#[local] Arguments execute : simpl never.

(** * A metadata database in a good environment stays in one *)
Section metadata.
  Implicit Types (db : MetaDb) (t : MetaTables).

(** Between transactions, and inside one begun on [t0]. *)
Definition idle_ok db : Prop := good db ∧ ∃ t, idle t db.
Definition live_ok db : Prop := good db ∧ ∃ t0 t, live t0 t db.

Lemma idle_ok_select {R} st what (rows : MetaTables → R) : preserves idle_ok (db_select st what rows).
Proof.
  intros db [Hg (t&Hi)]. eapply wp_mono; [by eapply db_select_idle_spec|].
  intros [r x] db' (?&_&Hg'). split; [by apply Hg'|eauto].
Qed.

Lemma live_ok_select {R} st what (rows : MetaTables → R) : preserves live_ok (db_select st what rows).
Proof.
  intros db [Hg (t0&t&Hl)]. eapply wp_mono; [by eapply db_select_live_spec|].
  intros [r x] db' [Hr Hg']. destruct (Hg' Hg) as [? Hok]. rewrite Hok in Hr.
  split; [done|]. destruct Hr as [? ?]. eauto.
Qed.

Lemma live_ok_update st what run : preserves live_ok (db_update st what run).
Proof.
  intros db [Hg (t0&t&Hl)]. eapply wp_mono; [by eapply db_update_spec|].
  intros r db' [Hr Hg']. destruct (Hg' Hg) as [? Hn]. split; [done|].
  destruct (ok r); [destruct Hr as (t'&_&?); eauto|]. destruct (Hn eq_refl) as [_ ?]. eauto.
Qed.
#[local] Hint Resolve idle_ok_select live_ok_select live_ok_update : keep.

Lemma idle_ok_isLocked b : preserves idle_ok (isLocked b).
Proof.
  intros db [Hg (t&Hi)]. eapply wp_mono; [by eapply isLocked_idle_spec|].
  intros [r l] db' [? Hg']. split; [by apply Hg'|eauto].
Qed.

Lemma idle_ok_collectionMetadata c md b : preserves idle_ok (collectionMetadata c md b).
Proof. unfold collectionMetadata. keep. Qed.

Lemma idle_ok_secretMetadata c s md b : preserves idle_ok (secretMetadata c s md b).
Proof. unfold secretMetadata. keep. Qed.

Lemma live_ok_initializeCollections cfg names :
  preserves live_ok (initializeCollectionsFromPluginData cfg names).
Proof.
  unfold initializeCollectionsFromPluginData, collectionNames, also, deleteCollectionMetadata,
    insertCollectionMetadata. keep.
Qed.

Lemma live_ok_initializeSecrets cfg ids locked :
  preserves live_ok (initializeSecretsFromPluginData cfg ids locked).
Proof.
  unfold initializeSecretsFromPluginData, metadataCNameToSNames, secretNames, collectionNames,
    also, deleteSecretMetadata, insertSecretMetadata. keep.
Qed.
End metadata.
#[export] Hint Resolve idle_ok_isLocked idle_ok_collectionMetadata idle_ok_secretMetadata
  live_ok_update : keep.

(** * The wrapper around an arbitrary plugin *)
Section wrapper.
  Context (cfg : MetadataConfig) {P : Type} `{EncryptedStoragePlugin P}.
  Implicit Types (w : Wrapper P) (p : P) (c : string).

Definition meta_ok w : Prop := idle_ok (m_metadataDb w).

(** [K] about the plugin and a good metadata database. *)
Definition both (K : P → Prop) w : Prop := meta_ok w ∧ K (m_plugin w).

Lemma both_on_plugin {A} K (m : M P A) : preserves K m → preserves (both K) (on_plugin m).
Proof. intros Hm w [??]. apply wp_zoom. eapply wp_mono; [by apply Hm|]. by intros. Qed.

Lemma both_on_db {A} K (m : M MetaDb A) : preserves idle_ok m → preserves (both K) (on_db m).
Proof. intros Hm w [??]. apply wp_zoom. eapply wp_mono; [by apply Hm|]. by intros. Qed.
#[local] Hint Resolve both_on_plugin both_on_db : keep.

Lemma both_isMasterLocked K w :
  both K w → wp isMasterLocked (λ b w', b = false ∧ both K w' ∧ m_plugin w' = m_plugin w) w.
Proof.
  intros [[Hg (t&Hi)] HK]. eapply wp_mono; [by apply (isMasterLocked_spec t)|].
  intros b w' (Hs&[Hp _]&Hh). destruct (Hh Hg) as [? ->]. unfold both, meta_ok, idle_ok.
  rewrite Hp. split_and!; eauto.
Qed.

Lemma both_begin_commit {A B} K (m1 : M MetaDb A) (m2 : M MetaDb B) (f : A → B → bool) :
  preserves live_ok m1 → preserves live_ok m2 →
  preserves (both K)
    (let* begun := on_db beginTransaction in
     if negb begun then ret false else
     let* a := on_db m1 in
     let* b := on_db m2 in
     on_db commitTransaction ;;;
     set_initialized (f a b) ;;;
     ret true).
Proof.
  intros H1 H2 w [[Hg (t&Hi)] HK]. apply wp_bind, wp_zoom.
  eapply wp_mono; [by eapply begin_spec|]. intros b db1 [Hl Hg1]. destruct (Hg1 Hg) as [? ->]. simpl.
  apply wp_bind, wp_zoom. eapply wp_mono; [apply H1; split; eauto|]. intros a db2 Hl2.
  apply wp_bind, wp_zoom. eapply wp_mono; [by apply H2|]. intros a' db3 [Hg3 (t0&t3&Hl3)].
  apply wp_bind, wp_zoom. eapply wp_mono; [by eapply commit_spec|].
  intros b db4 [Hc Hg4]. destruct (Hg4 Hg3) as [? ->]. apply wp_bind, wp_modify, wp_ret.
  split; [|done]. split; eauto.
Qed.

(** Queries of the plugin that keep [K]. *)
Class Queries (K : P → Prop) : Prop := {
  keeps_collectionNames : preserves K ep_collectionNames;
  keeps_isCollectionLocked c b : preserves K (ep_isCollectionLocked c b);
  keeps_secretNames c : preserves K (ep_secretNames c);
}.
#[local] Hint Resolve keeps_collectionNames keeps_isCollectionLocked keeps_secretNames : keep.

Lemma both_initialize K `{!Queries K} k : preserves (both K) (ew_initialize cfg k).
Proof.
  intros w Hw. unfold ew_initialize. apply wp_bind, wp_gets. simpl.
  destruct (m_initialized w); [done|]. unfold open_metadata. apply wp_bind, wp_bind, wp_zoom, wp_gets.
  pose proof Hw as [[_ (t&Ho&_)] _]. unfold isOpen. rewrite Ho. apply wp_ret. simpl.
  apply wp_bind, wp_gets. simpl. destruct (wrapper_isLocked _); [by apply wp_ret|].
  match goal with |- wp ?m _ _ => assert (preserves (both K) m) as Hm end; [|by apply Hm; destruct Hw].
  unfold ew_collectionNames, ew_identifiers, ew_secretNames.
  apply preserves_bind; [keep|]. intros [r names]. destruct (negb (ok r)); [keep|].
  apply preserves_bind; [keep|]. intros [[ids locked]|]; [|keep].
  apply (both_begin_commit K _ _ (λ a b, a && b && _));
    [apply live_ok_initializeCollections|apply live_ok_initializeSecrets].
Qed.

(** Setting a key. *)
Lemma both_setEncryptionKey K `{!Queries K} c k w :
  meta_ok w → K (ep_setEncryptionKey c k (m_plugin w)).2 →
  wp (ew_setEncryptionKey cfg c k) (λ r w', both K w' ∧ r = (ep_setEncryptionKey c k (m_plugin w)).1) w.
Proof.
  intros Hm HK. unfold ew_setEncryptionKey. apply wp_bind.
  eapply wp_mono; [by apply (both_isMasterLocked (λ p, p = m_plugin w))|].
  intros b w1 (->&[Hm1 Hp1]&_). apply wp_bind, wp_zoom. unfold wp at 1. rewrite Hp1.
  apply wp_bind. eapply wp_mono; [by apply both_initialize|]. intros b w2 Hw2. by apply wp_ret.
Qed.

(** A transaction around a change of the metadata and one of the plugin. *)
Lemma meta_transactionally op (m : M MetaDb Result) (f : M P Result) :
  preserves live_ok m → preserves meta_ok (transactionally op (on_db m) (on_plugin f)).
Proof.
  intros Hm w [Hg (t&Hi)]. unfold transactionally. apply wp_bind, wp_zoom.
  eapply wp_mono; [by eapply begin_spec|]. intros b db1 [Hl Hg1]. destruct (Hg1 Hg) as [? ->]. simpl.
  assert (∀ (w' : Wrapper P) (r : Result), live_ok (m_metadataDb w') →
    wp (on_db rollbackTransaction ;;; ret r) (λ _ w', meta_ok w') w') as Hrollback.
  { intros w' r [Hg' (t0&t'&Hl')]. apply wp_bind, wp_zoom.
    eapply wp_mono; [by eapply rollback_spec, live_aborted|]. intros b db' [? Hg2].
    apply wp_ret. split; [by apply Hg2|eauto]. }
  apply wp_bind, wp_zoom. eapply wp_mono; [apply Hm; split; eauto|]. intros r db2 Hl2.
  destruct (negb (ok r)); [by apply Hrollback|]. apply wp_bind, wp_zoom. unfold wp at 1.
  destruct (f _) as [r' p']. simpl. destruct (negb (ok r')); [by apply Hrollback|].
  destruct Hl2 as [Hg2 (t0&t2&Hl2)]. apply wp_bind, wp_zoom.
  eapply wp_mono; [by eapply commit_spec|]. intros b db3 [Hc Hg3]. destruct (Hg3 Hg2) as [? ->].
  apply wp_ret. split; eauto.
Qed.

Lemma meta_on_plugin {A} (m : M P A) : preserves meta_ok (on_plugin m).
Proof. intros w Hw. apply wp_zoom. done. Qed.

Lemma meta_isMasterLocked : preserves meta_ok (@isMasterLocked P).
Proof.
  intros w Hw. eapply wp_mono; [by apply (both_isMasterLocked (λ _, True))|].
  by intros b w' (_&[? _]&_).
Qed.
#[local] Hint Resolve meta_transactionally meta_on_plugin meta_isMasterLocked : keep.

Lemma meta_setSecret md x fd : preserves meta_ok (ew_setSecret md x fd).
Proof. unfold ew_setSecret, unless_locked, unless_collection_locked, insertSecretMetadata. keep. Qed.

Lemma meta_removeSecret c s : preserves meta_ok (ew_removeSecret c s).
Proof. unfold ew_removeSecret, unless_locked, unless_collection_locked, deleteSecretMetadata. keep. Qed.
#[local] Hint Resolve meta_setSecret meta_removeSecret : keep.

(** * Relocking *)

(** [shut c p]: the plugin has forgotten the key of the collection [c].  The
    empty key does that, whatever else goes wrong, and queries do not undo it. *)
Class RelockSpec := {
  shut : string → P → Prop;
  shut_law c p : shut c (ep_setEncryptionKey c "" p).2;
  shut_queries c : Queries (shut c);
}.
#[local] Existing Instance shut_queries.
Context `{!RelockSpec}.

Lemma lock_again_shuts c w :
  meta_ok w → wp (lock_again cfg c) (λ _ w', meta_ok w' ∧ shut c (m_plugin w')) w.
Proof.
  intros Hw. unfold lock_again. apply wp_bind.
  eapply wp_mono; [apply (both_setEncryptionKey (shut c)); [done|apply shut_law]|].
  intros r w' [? _]. by apply wp_ret.
Qed.

Lemma meta_setEncryptionKey c k : preserves meta_ok (ew_setEncryptionKey cfg c k).
Proof.
  assert (Queries (λ _, True)) as HQ by (split; by intros).
  intros w Hw. eapply wp_mono; [by apply (both_setEncryptionKey (λ _, True))|]. by intros r w' [[? _] _].
Qed.

(** What the plugin says about a collection. *)
Definition reported_locked c p : bool :=
  let '(r, locked) := (ep_isCollectionLocked c false p).1 in ok r && locked.

(** Unlocking a collection fails and leaves it locked, or tells whether it was
    locked. *)
Lemma unlock_collection_safe c k w :
  meta_ok w →
  wp (unlock_collection cfg c k) (λ u w', meta_ok w' ∧
    match u with
    | inl e => ok e = false ∧ (reported_locked c (m_plugin w) = true → shut c (m_plugin w'))
    | inr originallyLocked => originallyLocked = reported_locked c (m_plugin w)
    end) w.
Proof.
  intros Hw. unfold unlock_collection, reported_locked, ew_isCollectionLocked.
  apply wp_bind, wp_zoom. unfold wp at 1.
  destruct (ep_isCollectionLocked c false (m_plugin w)) as [[r locked] p1]. simpl.
  destruct (ok r) eqn:Hr; simpl; [|by apply wp_ret]. destruct locked; simpl; [|by apply wp_ret].
  assert (∀ w1 e, meta_ok w1 → ok e = false →
    wp (lock_again cfg c ;;; ret (inl e)) (λ (u : Result + bool) w', meta_ok w' ∧
      match u with
      | inl e => ok e = false ∧ (true = true → shut c (m_plugin w'))
      | inr b => b = true
      end) w1) as Hexit.
  { intros w1 e Hw1 He. apply wp_bind. eapply wp_mono; [by apply lock_again_shuts|].
    intros [] w' [? ?]. by apply wp_ret. }
  apply wp_bind. eapply wp_mono; [by apply meta_setEncryptionKey|]. intros r1 w1 Hw1.
  destruct (ok r1); simpl; [|by apply Hexit, ok_error].
  apply wp_bind, wp_zoom. unfold wp at 1. destruct (ep_isCollectionLocked _ _ _) as [[r2 l2] p2]. simpl.
  destruct (ok r2); simpl; [|by apply Hexit, ok_error].
  destruct l2; [by apply Hexit, ok_error|]. by apply wp_ret.
Qed.

Lemma relock_collection_shuts c uses sem locked w :
  meta_ok w →
  wp (relock_collection cfg locked uses sem c) (λ _ w', meta_ok w'
    ∧ (locked = true → relocks uses sem = true → shut c (m_plugin w'))) w.
Proof.
  intros Hw. unfold relock_collection. destruct (locked && relocks uses sem) eqn:Hl.
  - eapply wp_mono; [by apply lock_again_shuts|]. intros [] w' [? ?]. auto.
  - apply wp_ret. split; [done|]. intros -> Hx. by rewrite Hx in Hl.
Qed.

(** The shape the four operations have: they unlock the collection, do something
    to it, and lock it again if it was locked. *)
Lemma used_and_shut {B} c k (err : Result → B) (use : bool → M (Wrapper P) B) w :
  meta_ok w → reported_locked c (m_plugin w) = true →
  (∀ w1, meta_ok w1 → wp (use true) (λ _ w', meta_ok w' ∧ shut c (m_plugin w')) w1) →
  wp (let* unlocked := unlock_collection cfg c k in
      match unlocked with
      | inl e => ret (err e)
      | inr originallyLocked => use originallyLocked
      end) (λ _ w', meta_ok w' ∧ shut c (m_plugin w')) w.
Proof.
  intros Hw Hl Huse. apply wp_bind. eapply wp_mono; [by apply unlock_collection_safe|].
  intros [e|b] w1 [Hw1 Hu]; [apply wp_ret; split; [done|]; by apply Hu|].
  rewrite Hu, Hl. by apply Huse.
Qed.

(** The four operations on the secrets of a collection that may be locked. *)
Inductive collection_use :=
  | StoreSecret (metadata : SecretMetadata) (secret : Secret)
  | ReadSecret (metadata : CollectionMetadata) (identifier : Identifier)
  | RemoveOneSecret (metadata : CollectionMetadata) (identifier : Identifier)
  | FindSecrets (metadata : CollectionMetadata) (flt : FilterData) (op : FilterOperator).

Definition use_collection (u : collection_use) : string :=
  match u with
  | StoreSecret _ secret => ident_collectionName (secret_identifier secret)
  | ReadSecret _ id | RemoveOneSecret _ id => ident_collectionName id
  | FindSecrets md _ _ => cm_collectionName md
  end.

Definition use_relocks (u : collection_use) : bool :=
  match u with
  | StoreSecret md _ => relocks (sm_usesDeviceLockKey md) (sm_unlockSemantic md)
  | ReadSecret md _ | RemoveOneSecret md _ | FindSecrets md _ _ =>
      relocks (cm_usesDeviceLockKey md) (cm_unlockSemantic md)
  end.

Definition run_use (u : collection_use) (key : bytes) : M (Wrapper P) Result :=
  match u with
  | StoreSecret md secret => unlockCollectionAndStoreSecret cfg md secret key
  | ReadSecret md id => let* '(r, _) := unlockCollectionAndReadSecret cfg md id key in ret r
  | RemoveOneSecret md id => unlockCollectionAndRemoveSecret cfg md id key
  | FindSecrets md flt op => let* '(r, _) := unlockAndFindSecrets cfg md flt op key in ret r
  end.

Lemma relocked_and_shut {B} c uses sem (b : B) w :
  meta_ok w → relocks uses sem = true →
  wp (relock_collection cfg true uses sem c ;;; ret b) (λ _ w', meta_ok w' ∧ shut c (m_plugin w')) w.
Proof.
  intros Hw Hr. apply wp_bind. eapply wp_mono; [by apply relock_collection_shuts|].
  intros [] w3 [? Hs]. apply wp_ret. auto.
Qed.

Lemma run_use_shuts u key w :
  meta_ok w → reported_locked (use_collection u) (m_plugin w) = true → use_relocks u = true →
  wp (run_use u key) (λ _ w', meta_ok w' ∧ shut (use_collection u) (m_plugin w')) w.
Proof.
  intros Hw Hl Hr. destruct u as [md secret|md id|md id|md flt op]; simpl in *; [|apply wp_bind| |apply wp_bind].
  - apply used_and_shut; [done..|]. intros w1 Hw1. apply wp_bind.
    eapply wp_mono; [by apply meta_setSecret|]. intros r w2 Hw2. by apply relocked_and_shut.
  - eapply wp_mono; [apply used_and_shut; [done..|]; intros w1 Hw1|by intros [] ? ?].
    apply wp_bind. eapply wp_mono; [by apply meta_on_plugin|]. intros [r x] w2 Hw2.
    destruct (default ("", ∅) x). by apply relocked_and_shut.
  - apply used_and_shut; [done..|]. intros w1 Hw1. apply wp_bind.
    eapply wp_mono; [by apply meta_removeSecret|]. intros r w2 Hw2. by apply relocked_and_shut.
  - eapply wp_mono; [apply used_and_shut; [done..|]; intros w1 Hw1|by intros [] ? ?].
    apply wp_bind. eapply wp_mono; [by apply meta_on_plugin|]. intros [r x] w2 Hw2.
    by apply relocked_and_shut.
Qed.
End wrapper.
