(* ===== verification/VaultSpec.v ===== *)
(** The compound operations on the collections of an encrypted storage plugin
    that keeps its contract, in a good environment. *)
From S2P Require Import Prelude Result Sqlite Transactions MetadataDb PluginApi.
From S2P Require Import PluginWrapper WrapperSpec MetadataLock PluginFunctionWrappers FunctionSpec.

Section vault.
  Context (cfg : MetadataConfig) {P : Type} `{EncryptedStoragePluginSpec P}.
  Implicit Types (w : Wrapper P) (V : Vault) (c : string).

(** The plugin is ready and holds the vault [V]. *)
Definition holds V (p : P) : Prop := vready p ∧ vault p = V.

#[global] Instance holds_queries V : Queries (holds V).
Proof.
  split.
  - intros p [Hr <-]. eapply wp_mono; [by apply vcollectionNames_law|].
    by intros [r names] p' (_&?&?&_).
  - intros c b p [Hr <-]. eapply wp_mono; [by apply visCollectionLocked_law|].
    by intros [r l] p' (?&?&_).
  - intros c p [Hr <-]. eapply wp_mono; [by apply vsecretNames_law|].
    by intros [r l] p' (?&?&_).
Qed.

Lemma setEncryptionKey_vault c k V w :
  both (holds V) w →
  wp (ew_setEncryptionKey cfg c k) (λ r w', both (holds (vault_key key_of c k V)) w'
    ∧ ok r = vault_key_ok key_of c k V) w.
Proof.
  intros [Hm [Hr HV]]. pose proof (vsetEncryptionKey_law _ c k Hr) as (?&?&Hok). rewrite HV in *.
  eapply wp_mono; [by apply (both_setEncryptionKey cfg (holds (vault_key key_of c k V)))|]. by intros r w' [? ->].
Qed.

Lemma isCollectionLocked_vault c b V w :
  both (holds V) w →
  wp (ew_isCollectionLocked c b) (λ '(r, locked) w', both (holds V) w' ∧
    match V !! c with
    | Some e => ok r = true ∧ locked = negb (ve_unlocked e)
    | None => ok r = false ∧ locked = b
    end) w.
Proof.
  intros [Hm [Hr <-]]. apply wp_zoom. eapply wp_mono; [by apply visCollectionLocked_law|].
  by intros [r l] p' (?&?&?).
Qed.

(** The collection, if it is unlocked or the key fits. *)
Definition accessible c (k : bytes) V : option VaultEntry :=
  e ← V !! c; if ve_unlocked e || fits key_of k e then Some e else None.

Definition opened_vault c : Vault → Vault := alter (entry_with_lock true) c.

Lemma alter_same c V e f : V !! c = Some e → f e = e → alter f c V = V.
Proof.
  intros Hc He. apply map_eq. intros c'. destruct (decide (c' = c)) as [->|Hne].
  - by rewrite lookup_alter_eq, Hc; simpl; rewrite He.
  - by rewrite lookup_alter_ne.
Qed.

Lemma entry_with_lock_same b e : ve_unlocked e = b → entry_with_lock b e = e.
Proof. intros <-. by destruct e. Qed.

Lemma relocked_vault c V e :
  V !! c = Some e → ve_unlocked e = false → vault_key key_of c "" (opened_vault c V) = V.
Proof.
  intros Hc He. unfold vault_key, opened_vault. apply map_eq. intros c'.
  destruct (decide (c' = c)) as [->|Hne]; [|by rewrite !lookup_alter_ne].
  rewrite !lookup_alter_eq, Hc. simpl. f_equal. destruct e. simpl in He. by subst.
Qed.

Lemma lock_again_vault c V w :
  both (holds V) w → wp (lock_again cfg c) (λ _ w', both (holds (vault_key key_of c "" V)) w') w.
Proof.
  intros Hw. unfold lock_again. apply wp_bind. eapply wp_mono; [by apply setEncryptionKey_vault|].
  intros r w' [? _]. by apply wp_ret.
Qed.

Lemma locked_again c V e :
  V !! c = Some e → ve_unlocked e = false → vault_key key_of c "" V = V.
Proof.
  intros Hc He. unfold vault_key. apply (alter_same _ _ e); [done|].
  destruct e. simpl in He. by subst.
Qed.

(** A key fits a locked collection and opens it, or leaves it. *)
Lemma vault_key_locked c k V e :
  V !! c = Some e → ve_unlocked e = false →
  vault_key key_of c k V = if fits key_of k e then opened_vault c V else V.
Proof.
  intros Hc He. unfold vault_key, opened_vault. apply map_eq. intros c'.
  destruct (decide (c' = c)) as [->|Hne].
  - rewrite lookup_alter_eq, Hc. simpl. destruct (fits key_of k e); [by rewrite lookup_alter_eq, Hc|].
    by rewrite Hc, entry_with_lock_same.
  - rewrite lookup_alter_ne by done. destruct (fits key_of k e); [by rewrite lookup_alter_ne|done].
Qed.
(** Unlocking a collection for one operation: it succeeds exactly if the
    collection is accessible. *)
Lemma unlock_collection_vault c k V w :
  both (holds V) w →
  wp (unlock_collection cfg c k) (λ u w',
    match accessible c k V with
    | Some e => both (holds (opened_vault c V)) w' ∧ u = inr (negb (ve_unlocked e))
    | None => both (holds V) w' ∧ ∃ e, ok e = false ∧ u = inl e
    end) w.
Proof.
  intros Hw. remember (accessible c k V) as o eqn:Ho. unfold accessible in Ho.
  unfold unlock_collection. apply wp_bind.
  eapply wp_mono; [by apply isCollectionLocked_vault|]. intros [r l] w1 [Hw1 Hl].
  destruct (V !! c) as [e|] eqn:Hc; simpl in *; destruct Hl as [Hr ->]; rewrite Hr; simpl;
    [|apply wp_ret; subst o; eauto].
  destruct (ve_unlocked e) eqn:He; simpl in *; subst o.
  { apply wp_ret. rewrite He. split; [|done]. unfold opened_vault.
    by rewrite (alter_same _ _ e); [|done|by apply entry_with_lock_same]. }
  assert (∀ w1 err, both (holds V) w1 → ok err = false →
    wp (lock_again cfg c ;;; ret (inl err)) (λ (u : Result + bool) w', both (holds V) w'
      ∧ ∃ e, ok e = false ∧ u = inl e) w1) as Hexit.
  { intros w1' err Hw1' Herr. apply wp_bind. eapply wp_mono; [by apply lock_again_vault|].
    intros [] w' Hw'. rewrite (locked_again _ _ _ Hc He) in Hw'. apply wp_ret. eauto. }
  apply wp_bind. eapply wp_mono; [by apply setEncryptionKey_vault|]. intros r2 w2 [Hw2 Hr2].
  unfold vault_key_ok in Hr2. rewrite Hc in Hr2.
  rewrite (vault_key_locked _ _ _ _ Hc He) in Hw2. destruct (fits key_of k e) eqn:Hf.
  - rewrite orb_true_r in Hr2. rewrite Hr2. simpl. apply wp_bind.
    eapply wp_mono; [by apply isCollectionLocked_vault|]. intros [r3 l3] w3 [Hw3 Hl3].
    unfold opened_vault in Hl3. rewrite lookup_alter_eq, Hc in Hl3. simpl in Hl3.
    destruct Hl3 as [-> ->]. simpl. apply wp_ret. by rewrite He.
  - destruct (ok r2); simpl; [|by apply Hexit, ok_error]. apply wp_bind.
    eapply wp_mono; [by apply isCollectionLocked_vault|]. intros [r3 l3] w3 [Hw3 Hl3].
    rewrite Hc, He in Hl3. destruct Hl3 as [-> ->]. simpl. by apply Hexit, ok_error.
Qed.

(** What is left of the unlocking afterwards. *)
Definition left_vault c (k : bytes) (uses : bool) (sem : Z) V : Vault :=
  match accessible c k V with
  | Some e => if ve_unlocked e || relocks uses sem then V else opened_vault c V
  | None => V
  end.

Lemma relock_collection_vault c k uses sem V e w :
  accessible c k V = Some e → both (holds (opened_vault c V)) w →
  wp (relock_collection cfg (negb (ve_unlocked e)) uses sem c) (λ _ w',
    both (holds (left_vault c k uses sem V)) w') w.
Proof.
  intros Ha Hw. unfold relock_collection, left_vault. rewrite Ha.
  unfold accessible in Ha. apply bind_Some in Ha as (e'&Hc&He').
  assert (e' = e) as -> by (by destruct (ve_unlocked e' || fits key_of k e'); simplify_eq).
  destruct (ve_unlocked e) eqn:He; simpl.
  - apply wp_ret. unfold opened_vault in Hw.
    by rewrite (alter_same _ _ e) in Hw; [|done|by apply entry_with_lock_same].
  - destruct (relocks uses sem); [|by apply wp_ret].
    eapply wp_mono; [by apply lock_again_vault|]. intros [] w' Hw'.
    by rewrite (relocked_vault _ _ e) in Hw'.
Qed.

(** Reading a secret of a collection. *)
Lemma read_secret_vault md id k V w :
  both (holds V) w →
  let c := ident_collectionName id in
  wp (unlockCollectionAndReadSecret cfg md id k) (λ '(r, secret) w',
    both (holds (left_vault c k (cm_usesDeviceLockKey md) (cm_unlockSemantic md) V)) w'
    ∧ match accessible c k V with
      | None => ok r = false ∧ secret = noSecret
      | Some e =>
          match (if decide (ident_name id ≠ "" ∧ c ≠ "") then ve_secrets e !! ident_name id else None) with
          | Some (x, fd) => ok r = true ∧ secret = mkSecret id x fd
          | None => ok r = false ∧ secret = mkSecret id "" ∅
          end
      end) w.
Proof.
  intros Hw c. unfold unlockCollectionAndReadSecret. fold c. apply wp_bind.
  eapply wp_mono; [by apply unlock_collection_vault|]. intros u w1 Hu.
  destruct (accessible c k V) as [e|] eqn:Ha.
  2: { destruct Hu as [? (err&?&->)]. apply wp_ret. unfold left_vault. by rewrite Ha. }
  destruct Hu as [[Hm1 [Hr1 HV1]] ->]. apply wp_bind, wp_zoom.
  eapply wp_mono; [by apply vgetSecret_law|]. intros [r x] p2 (Hr2&HV2&Hx&Hok). simpl.
  assert ((e' ← unlocked_entry c (vault (m_plugin w1)); ve_secrets e' !! ident_name id)
    = ve_secrets e !! ident_name id) as Hlook.
  { rewrite HV1. unfold unlocked_entry, opened_vault. rewrite lookup_alter_eq.
    unfold accessible in Ha. apply bind_Some in Ha as (e'&->&He'). simpl.
    by destruct (ve_unlocked e' || fits key_of k e'); simplify_eq. }
  rewrite Hlook in Hx. destruct (default ("", ∅) x) as [d fd] eqn:Hd. apply wp_bind.
  eapply wp_mono; [eapply (relock_collection_vault c k); [done|]|].
  { split; [exact Hm1|]. split; [exact Hr2|]. simpl. congruence. }
  intros [] w3 Hw3. apply wp_ret. split; [done|]. fold c in Hx.
  destruct (decide (ident_name id ≠ "" ∧ c ≠ "")); subst x; rewrite Hok;
    [destruct (ve_secrets e !! ident_name id) as [[x fd']|]|]; simpl in *; by simplify_eq.
Qed.

(** * Changing the device lock key *)

(** Which collections use the device lock key, as the metadata says. *)
Definition device_locked (t : MetaTables) c : bool :=
  match collections t !! c with
  | Some row => cm_usesDeviceLockKey (read_collection noCollectionMetadata row)
  | None => false
  end.

Definition at_tables (t : MetaTables) V w : Prop :=
  settled t w ∧ healthy w ∧ holds V (m_plugin w).

Lemma at_tables_both t V w : at_tables t V w → both (holds V) w.
Proof. intros (?&?&?). split; [split; eauto|done]. Qed.

Lemma at_tables_plugin t V w p :
  settled t w → healthy w → holds V p → at_tables t V (mkWrapper (m_metadataDb w) (m_initialized w) p).
Proof. done. Qed.

Lemma collectionNames_vault t V w :
  at_tables t V w →
  wp ew_collectionNames (λ '(r, m) w', ok r = true ∧ at_tables t V w'
    ∧ ∀ c, is_Some (m !! c) ↔ listed c ∧ is_Some (V !! c)) w.
Proof.
  intros (Hs&Hh&Hr&HV). unfold ew_collectionNames. apply wp_bind, wp_zoom.
  eapply wp_mono; [by apply vcollectionNames_law|]. intros [r names] p1 (Hok&Hr1&HV1&_&Hn).
  rewrite Hok. simpl. apply wp_bind. rewrite HV in Hn, HV1.
  eapply wp_mono; [apply (wp_foldM _ (λ l m w', at_tables t V w'
    ∧ ∀ c, is_Some (m !! c) ∨ c ∈ l ↔ c ∈ names))|].
  - split; [done|]. intros c. rewrite lookup_empty. split; [by intros [[]|]|auto].
  - intros c l m w' [(Hs'&Hh'&Hr'&HV') Hm]. apply wp_bind, wp_zoom.
    eapply wp_mono; [by apply visCollectionLocked_law|]. intros [r' b] p' (Hr2&HV2&_).
    apply wp_ret. split; [apply at_tables_plugin; [done..|split; [done|congruence]]|].
    intros c'. rewrite <-Hm.
    rewrite elem_of_cons. destruct (decide (c' = c)) as [->|Hne].
    + rewrite lookup_insert_eq. split; auto.
    + rewrite lookup_insert_ne by done. tauto.
  - intros m w' [Hw' Hm]. apply wp_ret. split_and!; [done..|]. intros c. rewrite <-Hn, <-Hm.
    split; [auto|]. by intros [?|?%elem_of_nil].
Qed.

Lemma wrapper_collectionMetadata_good t V c md0 w :
  at_tables t V w → is_Some (collections t !! c) →
  wp (wrapper_collectionMetadata c md0) (λ '(r, md) w', ok r = true ∧ at_tables t V w'
    ∧ ∃ row, collections t !! c = Some row ∧ md = read_collection md0 row) w.
Proof.
  intros (Hs&Hh&Hp) [row Hrow]. unfold wrapper_collectionMetadata. apply wp_bind.
  eapply wp_mono; [by apply (isMasterLocked_spec t)|]. intros b w1 (Hs1&[Hp1 _]&Hh1).
  destruct (Hh1 Hh) as [? ->]. apply wp_bind, wp_zoom.
  eapply wp_mono; [by apply collectionMetadata_good|]. intros [r [md ex]] db' (Hok&Hi&Hg&Hmd).
  rewrite Hrow in Hmd. injection Hmd as -> ->. apply wp_ret. split_and!; [done..| |eauto].
  split_and!; [done..|]. simpl. by rewrite Hp1.
Qed.

(** The entry of a collection after its key was changed. *)
Definition rekeyed (old new : bytes) (e : VaultEntry) : VaultEntry :=
  if fits key_of old e then mkEntry (key_of new) true (ve_secrets e) else entry_with_lock false e.

Lemma lookup_vault_rekey c old new V c' :
  vault_rekey key_of c old new V !! c' = if decide (c' = c) then rekeyed old new <$> V !! c else V !! c'.
Proof.
  unfold vault_rekey. case_decide; [subst|by rewrite lookup_alter_ne]. by rewrite lookup_alter_eq.
Qed.

Lemma unlock_and_reencrypt_vault old new c V w :
  both (holds V) w →
  wp (unlock_and_reencrypt cfg old new c) (λ r w', both (holds (vault_rekey key_of c old new V)) w'
    ∧ ok r = vault_rekey_ok key_of c old V) w.
Proof.
  intros Hw. unfold unlock_and_reencrypt. apply wp_bind.
  eapply wp_mono; [by apply isCollectionLocked_vault|]. intros [r b] w1 [Hw1 _].
  apply wp_bind. eapply (wp_mono _ (λ _ w', ∃ V', both (holds V') w'
    ∧ vault_rekey key_of c old new V' = vault_rekey key_of c old new V
    ∧ vault_rekey_ok key_of c old V' = vault_rekey_ok key_of c old V)).
  - destruct b; [|apply wp_ret; eauto]. apply wp_bind.
    eapply wp_mono; [by apply setEncryptionKey_vault|]. intros r2 w2 [Hw2 _]. apply wp_bind.
    eapply wp_mono; [by apply isCollectionLocked_vault|]. intros [r3 b3] w3 [Hw3 _]. apply wp_ret.
    eexists. split_and!; [done|..].
    + apply map_eq. intros c'. rewrite !lookup_vault_rekey. unfold vault_key. case_decide.
      * rewrite lookup_alter_eq. by destruct (V !! c).
      * by rewrite lookup_alter_ne.
    + unfold vault_rekey_ok, vault_key. rewrite lookup_alter_eq. by destruct (V !! c).
  - intros [] w2 (V'&[Hm [Hr HV]]&<-&<-). apply wp_zoom.
    eapply wp_mono; [by apply vreencrypt_law|]. intros r4 p' (?&?&?). rewrite HV in *. done.
Qed.

(** The loop over the device-locked collections. *)
Lemma reencrypt_loop_vault old new names result V w :
  NoDup names → both (holds V) w →
  wp (foldM (λ result c, let* r := unlock_and_reencrypt cfg old new c in
                         ret (if ok r then result else r)) names result)
    (λ r w', ∃ V', both (holds V') w'
      ∧ (∀ c, V' !! c = if decide (c ∈ names) then rekeyed old new <$> V !! c else V !! c)
      ∧ (ok r = true ↔ ok result = true ∧ ∀ c, c ∈ names → vault_rekey_ok key_of c old V = true)) w.
Proof.
  intros Hnd. revert result V w. induction Hnd as [|c names Hc Hnd IH]; intros result V w Hw; simpl.
  { apply wp_ret. exists V. split_and!; [done..|]. split; [|tauto]. intros Hr. split; [done|].
    by intros c ?%elem_of_nil. }
  apply wp_bind, wp_bind. eapply wp_mono; [by apply unlock_and_reencrypt_vault|].
  intros r w1 [Hw1 Hr]. apply wp_ret. eapply wp_mono; [by apply IH|].
  intros r' w' (V'&Hw'&HV'&Hok). exists V'. split_and!; [done|..].
  - intros c'. rewrite HV', lookup_vault_rekey. destruct (decide (c' = c)) as [->|Hne].
    + rewrite decide_False by done. by rewrite decide_True by (by left).
    + destruct (decide (c' ∈ names)); [by rewrite decide_True by (by right)|].
      rewrite decide_False; [done|]. rewrite elem_of_cons. tauto.
  - rewrite Hok. setoid_rewrite elem_of_cons.
    assert (∀ c', c' ∈ names → vault_rekey_ok key_of c' old (vault_rekey key_of c old new V)
      = vault_rekey_ok key_of c' old V) as Hsame.
    { intros c' Hin. unfold vault_rekey_ok. rewrite lookup_vault_rekey, decide_False by congruence. done. }
    destruct (ok r) eqn:Hokr.
    + split; intros [? Hall]; (split; [done|]); intros c' Hin.
      * destruct Hin as [->|Hin]; [done|]. rewrite <-Hsame by done. auto.
      * rewrite Hsame by done. auto.
    + rewrite Hokr. split; [by intros [? _]|]. intros [_ Hall]. rewrite (Hall c) in Hr by auto. done.
Qed.

(** Whether every collection that uses the device lock key has the metadata the
    loop needs. *)
Definition metadata_complete (t : MetaTables) V : Prop :=
  ∀ c, listed c → is_Some (V !! c) → is_Some (collections t !! c).

Lemma collect_loop t V names result w :
  at_tables t V w → (∀ c, c ∈ names → is_Some (collections t !! c)) → ok result = true →
  wp (foldM (λ acc cname,
        match acc with
        | inl r => ret (inl r)
        | inr (_, names) =>
            let* '(result, metadata) := wrapper_collectionMetadata cname noCollectionMetadata in
            if negb (ok result) then ret (inl result) else
            ret (inr (result, if cm_usesDeviceLockKey metadata then names ++ [cname] else names))
        end) names (inr (result, [])))
    (λ acc w', at_tables t V w' ∧ ∃ r, ok r = true
       ∧ acc = inr (r, filter (λ c, device_locked t c = true) names)) w.
Proof.
  intros Hw Hrows Hres.
  eapply wp_mono; [apply (wp_foldM _ (λ l (acc : Result + Result * list string) w',
    at_tables t V w' ∧ ∃ r done, names = done ++ l ∧ ok r = true
      ∧ acc = inr (r, filter (λ c, device_locked t c = true) done)))|].
  - split; [done|]. by exists result, [].
  - intros c l acc w1 [Hw1 (r&done&Hn&Hr&->)]. apply wp_bind.
    eapply wp_mono; [eapply wrapper_collectionMetadata_good; [done|]|].
    { apply Hrows. rewrite Hn. set_solver. }
    intros [r2 md] w2 (Hr2&Hw2&row&Hrow&->). rewrite Hr2. simpl. apply wp_ret. split; [done|].
    exists r2, (done ++ [c]). split_and!; [by rewrite <-app_assoc|done|]. rewrite filter_app.
    do 2 f_equal. rewrite filter_cons, filter_nil.
    assert (device_locked t c = cm_usesDeviceLockKey (read_collection noCollectionMetadata row)) as ->
      by (unfold device_locked; by rewrite Hrow).
    simpl. destruct (Z.ltb _ _); [by rewrite decide_True|by rewrite decide_False, app_nil_r].
  - intros acc w' [? (r&done&->&?&->)]. split; [done|]. rewrite app_nil_r. eauto.
Qed.

Lemma device_lock_change_vault t old new V w :
  at_tables t V w → metadata_complete t V →
  wp (unlockDeviceLockedCollectionsAndReencrypt cfg old new) (λ r w', ∃ V', both (holds V') w'
    ∧ (∀ c, V' !! c = if decide (listed c ∧ device_locked t c = true)
                      then rekeyed old new <$> V !! c else V !! c)
    ∧ (ok r = true ↔ ∀ c e, listed c → device_locked t c = true → V !! c = Some e →
                            fits key_of old e = true)) w.
Proof.
  intros Hw Hc. unfold unlockDeviceLockedCollectionsAndReencrypt. apply wp_bind.
  eapply wp_mono; [by apply (collectionNames_vault t V)|]. intros [r m] w1 (Hok&Hw1&Hm).
  rewrite Hok. simpl. apply wp_bind.
  eapply wp_mono; [apply (collect_loop t V); [done| |done]|].
  { intros c [? ?]%elem_of_qmap_keys%Hm. by apply Hc. }
  intros acc w2 (Hw2&r2&Hr2&->). eapply wp_mono.
  { apply (reencrypt_loop_vault _ _ _ _ V); [apply NoDup_filter, NoDup_qmap_keys|].
    by eapply at_tables_both. }
  intros r3 w3 (V'&?&HV'&Hok'). exists V'.
  assert (∀ c, c ∈ filter (λ c, device_locked t c = true) (qmap_keys m) ↔
    device_locked t c = true ∧ listed c ∧ is_Some (V !! c)) as Hin.
  { intros c. by rewrite list_elem_of_filter, elem_of_qmap_keys, Hm. }
  split_and!; [done|..].
  - intros c. rewrite HV'. destruct (V !! c) as [e|] eqn:He; [|by repeat case_decide].
    apply decide_ext. rewrite Hin, He. split; [tauto|]. intros [??]. split_and!; [done..|by eexists].
  - rewrite Hok'. setoid_rewrite Hin. unfold vault_rekey_ok. split.
    + intros [_ Hall] c e Hl Hd He. specialize (Hall c). rewrite He in Hall. apply Hall.
      split_and!; [done..|by eexists].
    + intros Hall. split; [done|]. intros c (Hd&Hl&[e He]). rewrite He. eauto.
Qed.
End vault.
