(* ===== verification/StorageFunctionSpec.v ===== *)
(** The compound operations on storage plugins: storing and reading back with
    an encryption plugin, changing the device lock key, and the master lock. *)
From S2P Require Import Prelude Result Sqlite Transactions MetadataDb PluginApi.
From S2P Require Import MetadataLock PluginWrapper WrapperSpec PluginFunctionWrappers.
From S2P Require Import SqlitePlugin SqlitePluginSpec SqliteSearch.

(** * Storing and reading back *)
Section roundtrip.
  Context {P : Type} `{StoragePluginSpec P} (enc : EncryptionPlugin).

(** What an encryption plugin promises: what was encrypted with a key is
    decrypted with the same key. *)
Definition decrypts : Prop :=
  ∀ x k y r, encryptSecret enc x k = (r, y) → ok r = true →
    ∃ r', decryptSecret enc y k = (r', x) ∧ ok r' = true.

(** Store a secret, then read it. *)
Definition store_and_read (md : SecretMetadata) (secret : Secret) (k : bytes)
  : M (Wrapper P) (bool * (bool * Secret)) :=
  let* r := encryptAndStoreSecret enc md secret k in
  let* '(r', s) := getAndDecryptSecret enc (secret_identifier secret) k in
  ret (ok r, (ok r', s)).

Lemma store_and_read_spec md secret k w ts :
  decrypts → represents w ts →
  sm_collectionName md = ident_collectionName (secret_identifier secret) →
  sm_secretName md = ident_name (secret_identifier secret) →
  ok (encryptSecret enc (secret_data secret) k).1 = true →
  spec_ok (SetSecret md "" ∅) ts.1 ts.2 = true →
  wp (store_and_read md secret k) (λ x _, x = (true, (true, secret))) w.
Proof.
  intros Hdec Hw Hc Hs Henc Hok. unfold store_and_read, encryptAndStoreSecret.
  destruct (encryptSecret enc (secret_data secret) k) as [r y] eqn:He. simpl in Henc.
  destruct (Hdec _ _ _ _ He Henc) as (r'&Hd&Hr'). rewrite Henc. apply wp_bind.
  eapply wp_mono; [by apply (run_request_refines (SetSecret md y (secret_filterData secret)))|].
  intros r1 w1 (Hr1&(_&_&Hp1&Hst1)&_). unfold spec_step in *.
  change (spec_ok (SetSecret md y (secret_filterData secret)) ts.1 ts.2)
    with (spec_ok (SetSecret md "" ∅) ts.1 ts.2) in *.
  rewrite Hok in *. simpl in *. unfold getAndDecryptSecret. apply wp_bind, wp_bind, wp_zoom.
  eapply wp_mono; [by apply getSecret_law|]. intros [r2 x] p2 (_&_&Hx).
  rewrite Hst1 in Hx. simpl in Hx. rewrite <-Hc, <-Hs, lookup_insert_eq in Hx.
  apply bool_decide_eq_true in Hok as (_&_&Hne&_). rewrite decide_True in Hx by congruence.
  destruct Hx as [(Hr2&->&_)|(_&_&?)]; [|done]. rewrite Hr2. simpl. rewrite Hd. apply wp_ret.
  rewrite Hr1. apply wp_ret. rewrite Hr'. by destruct secret.
Qed.
End roundtrip.

(** * Changing the device lock key leaves the standalone secrets behind *)
Section standalone.
  Context (encs : gmap string EncryptionPlugin) (old new : bytes) (t0 : SqliteTables).
  Implicit Types (w : Wrapper SqliteDb) (t : SqliteTables).

(** The standalone secrets are those of [t0]. *)
Definition standalone_kept (db : SqliteDb) : Prop :=
  ∃ t, Idle True t db ∧ sqlite_wf t
       ∧ ∀ s, sq_secrets t !! ("standalone", s) = sq_secrets t0 !! ("standalone", s).

Definition kept w : Prop := standalone_kept (m_plugin w).

Lemma kept_on_db {A} (m : M MetaDb A) : preserves kept (on_db m).
Proof. intros w Hw. unfold wp, on_db, zoom. by destruct (m _). Qed.
#[local] Hint Resolve kept_on_db : keep.

Lemma kept_isMasterLocked : preserves kept isMasterLocked.
Proof. unfold isMasterLocked. keep. Qed.
#[local] Hint Resolve kept_isMasterLocked : keep.

Lemma kept_collectionNames w :
  kept w → wp sw_collectionNames (λ '(r, m) w', kept w'
    ∧ ∀ c, is_Some (m !! c) → c ≠ "" ∧ c ≠ "standalone") w.
Proof.
  intros (t&Hi&Hwf&Hs). unfold sw_collectionNames. apply wp_bind, wp_zoom.
  eapply wp_mono; [by apply collectionNames_good|]. intros [r names] db' (_&Hi'&->). apply wp_ret.
  split; [by exists t|]. intros c Hc.
  assert (c ∈ filter (λ c, c ≠ "standalone") (elements (sq_collections t))) as Hin.
  { revert Hc. generalize (filter (λ c, c ≠ "standalone") (elements (sq_collections t))). intros l.
    rewrite foldl_names_keys, lookup_empty. by intros [?|[]]. }
  apply list_elem_of_filter in Hin as [Hn Hin%elem_of_elements].
  destruct (wf_names _ Hwf _ Hin) as [?|Hm]; [done|]. split; [|done]. intros ->. by vm_compute in Hm.
Qed.

Lemma kept_secretNames w :
  kept w → wp (sw_secretNames "") (λ '(r, names) w', kept w' ∧ names = []) w.
Proof.
  intros (t&Hi&Hwf&Hs). apply wp_zoom. eapply wp_mono; [by apply secretNames_good|].
  intros [r names] db' (_&Hi'&->). split; [by exists t|].
  apply elem_of_nil_inv. intros s Hin. apply elem_of_sql_blob_names, (wf_secrets _ Hwf) in Hin.
  destruct (wf_names _ Hwf _ Hin) as [?|Hm]; [done|]. by vm_compute in Hm.
Qed.

Lemma kept_reencrypt c enc : c ≠ "" → c ≠ "standalone" → preserves kept (sw_reencrypt c "" old new enc).
Proof.
  intros Hc Hst w (t&Hi&Hwf&Hs). apply wp_zoom. eapply wp_mono; [by apply (reencrypt_ended enc old new True)|].
  intros r db' [(t'&He&Hre) _]. unfold ended in He. destruct (ok r).
  2: { destruct He as [He|[[] _]]; [|done]. by exists t. }
  destruct (Hre eq_refl) as (Hcols&Hf&Hsec). exists t'. split; [done|].
  assert (∀ k, is_Some (sq_secrets t' !! k) ↔ is_Some (sq_secrets t !! k)) as Hdom.
  { intros k. specialize (Hsec k). destruct (sq_secrets t !! k); [|by rewrite Hsec].
    destruct (reencrypt_condition c "" k); [destruct Hsec as (y&_&Hsec)|]; rewrite Hsec; split; by eexists. }
  split.
  - destruct Hwf as [W1 W2 W3 W4]. split; rewrite ?Hcols, ?Hf; [done..| |].
    + intros c' s' Hx%Hdom. by eapply W3.
    + intros c' s' f Hx. apply Hdom. by eapply W4.
  - intros s. rewrite <-Hs. specialize (Hsec ("standalone", s)).
    destruct (sq_secrets t !! ("standalone", s)); [|done].
    unfold reencrypt_condition, isEmpty in Hsec. rewrite bool_decide_false in Hsec by done. simpl in Hsec.
    by rewrite bool_decide_false in Hsec by congruence.
Qed.

(** The collecting loop only returns names it was given. *)
Lemma kept_collect metadata what names result w :
  (∀ n, preserves kept (metadata n)) → kept w →
  wp (collect_device_locked metadata encs what names result) (λ acc w', kept w'
    ∧ match acc with
      | inl _ => True
      | inr (_, m) => ∀ n, is_Some (m !! n) → n ∈ names
      end) w.
Proof.
  intros Hmd Hw. unfold collect_device_locked.
  eapply wp_mono; [apply (wp_foldM _ (λ l (acc : Result + Result * gmap string EncryptionPlugin) w',
    kept w' ∧ l ⊆ names ∧ match acc with
              | inl _ => True
              | inr (_, m) => ∀ n, is_Some (m !! n) → n ∈ names
              end))|].
  - split_and!; [done..|]. intros n. by rewrite lookup_empty; intros [].
  - intros n l acc w1 (Hw1&Hl&Hacc). destruct acc as [r|[r m]]; [apply wp_ret; split_and!; [done|set_solver|done]|].
    apply wp_bind. eapply wp_mono; [by apply Hmd|]. intros [r' [b e]] w2 Hw2.
    assert (n ∈ names) as Hn by set_solver. assert (l ⊆ names) as Hl' by set_solver.
    destruct (negb (ok r')); [by apply wp_ret|].
    destruct (device_lock_plugin encs what b e) as [?|[plugin|]]; apply wp_ret; split_and!; try done.
    intros n' Hn'. destruct (decide (n' = n)) as [->|Hne]; [done|].
    rewrite lookup_insert_ne in Hn' by done. auto.
  - by intros acc w' (?&_&?).
Qed.

Lemma kept_reencrypt_each f (m : gmap string EncryptionPlugin) result :
  (∀ n plugin, is_Some (m !! n) → preserves kept (f n plugin)) →
  preserves kept (reencrypt_each f m result).
Proof.
  intros Hf. unfold reencrypt_each. apply preserves_foldM. intros r n.
  destruct (m !! n) as [plugin|] eqn:Hn; [|keep]. apply preserves_bind; [|keep].
  apply Hf. by eexists.
Qed.

Lemma device_lock_change_keeps_standalone w :
  kept w → wp (reencryptDeviceLockedCollectionsAndSecrets encs old new) (λ _ w', kept w') w.
Proof.
  intros Hw. unfold reencryptDeviceLockedCollectionsAndSecrets. apply wp_bind.
  eapply wp_mono; [by apply kept_collectionNames|]. intros [r m] w1 [Hw1 Hm].
  destruct (negb (ok r)); [by apply wp_ret|]. apply wp_bind.
  eapply wp_mono; [apply kept_collect; [|done]|].
  { intros n. unfold wrapper_collectionMetadata. keep. }
  intros [r2|[r2 cols]] w2 [Hw2 Hcols]; [by apply wp_ret|]. apply wp_bind.
  eapply wp_mono; [by apply kept_secretNames|]. intros [r3 names] w3 [Hw3 ->].
  destruct (negb (ok r3)); [by apply wp_ret|]. apply wp_bind, wp_ret. apply wp_bind.
  eapply wp_mono; [apply kept_reencrypt_each; [|done]|].
  { intros n plugin Hn. apply Hcols, elem_of_qmap_keys, Hm in Hn as [??]. by apply kept_reencrypt. }
  intros r4 w4 Hw4. apply kept_reencrypt_each; [|done]. intros n plugin [? Hn].
  by rewrite lookup_empty in Hn.
Qed.
End standalone.

(** * The master lock of all plugins *)
Section master.
  Context {P E : Type} `{StoragePlugin P} `{EncryptedStoragePlugin E}.

(** The metadata of a plugin is locked with [key]. *)
Definition master_locked {Q} (key : string) (cw : Configured Q) : Prop :=
  ∃ t, sealed t key (m_metadataDb cw.2).

Lemma masterUnlock_wrong_key {Q} `{PluginBase Q} initialize key key' (cw : Configured Q) :
  master_locked key cw → key' ≠ key →
  wp (configured (λ cfg, masterUnlock_lambda (initialize cfg) key')) (λ b cw',
    b = false ∧ master_locked key cw') cw.
Proof.
  intros [t Ht] Hne. destruct cw as [cfg w]. unfold configured, wp. simpl in *.
  enough (wp (masterUnlock_lambda (initialize cfg) key') (λ b w', b = false
    ∧ sealed t key (m_metadataDb w')) w) as Hw.
  { unfold wp in Hw. destruct (masterUnlock_lambda (initialize cfg) key' w) as [b w'].
    simpl in *. destruct Hw as [-> ?]. split; [done|]. by exists t. }
  unfold masterUnlock_lambda, isMasterLocked. apply wp_bind, wp_bind, wp_zoom. unfold isLocked.
  apply wp_bind, wp_gets. unfold isOpen. pose proof Ht as (->&_). simpl. apply wp_ret, wp_ret.
  simpl. unfold masterUnlock. apply wp_bind, wp_zoom.
  eapply wp_mono; [by eapply unlock_wrong_key|]. intros r db' [Hr ?]. rewrite Hr. simpl. by apply wp_ret.
Qed.

Lemma each_spec {S} (f : M S bool) (R R' : S → Prop) (l : list S) :
  Forall R l → (∀ x, R x → wp f (λ b x', b = false ∧ R' x') x) →
  wp (each f) (λ b l', b = bool_decide (l = []) ∧ Forall R' l') l.
Proof.
  intros Hall Hf. unfold wp. induction Hall as [|x l Hx Hall IH]; simpl; [done|].
  specialize (Hf x Hx). unfold wp in Hf. destruct (f x) as [b x'], (each f l) as [b' l'].
  simpl in *. destruct Hf as [-> ?], IH as [_ ?]. split; [done|]. by constructor.
Qed.

Lemma masterUnlockPlugins_wrong_key key key' (ss : list (Configured P)) (es : list (Configured E)) :
  Forall (master_locked key) ss → Forall (master_locked key) es → key' ≠ key →
  wp (masterUnlockPlugins key') (λ b '(ss', es'), b = bool_decide (ss = [] ∧ es = [])
    ∧ Forall (master_locked key) ss' ∧ Forall (master_locked key) es') (ss, es).
Proof.
  intros Hss Hes Hne. unfold masterUnlockPlugins, each_plugin, wp.
  pose proof (each_spec _ _ _ ss Hss (λ cw Hcw, masterUnlock_wrong_key (λ cfg, sw_initialize cfg) key key' cw Hcw Hne)) as Hs.
  pose proof (each_spec _ _ _ es Hes (λ cw Hcw, masterUnlock_wrong_key (λ cfg, ew_initialize cfg) key key' cw Hcw Hne)) as He.
  unfold wp in Hs, He. destruct (each _ ss) as [b ss'], (each _ es) as [b' es']. simpl in *.
  destruct Hs as [-> ?], He as [-> ?]. split_and!; [|done..]. by rewrite bool_decide_and.
Qed.
End master.
