(* ===== verification/CipherSafety.v ===== *)
(** The SQLCipher plugin in any environment: a locked collection gives nothing
    away and is not changed until its key is presented or it is removed, and the
    empty key locks a collection. *)
From S2P Require Import Prelude Result Sqlite Transactions MetadataDb PluginApi.
From S2P Require Import SqlitePlugin SqlitePluginSpec SqlCipherPlugin CipherSpec FunctionSpec.

(** * The requests to the plugin and what they answer *)
Inductive cipher_request :=
  | CCollectionNames
  | CCreateCollection (c : string) (key : bytes)
  | CRemoveCollection (c : string)
  | CIsCollectionLocked (c : string)
  | CSetEncryptionKey (c : string) (key : bytes)
  | CReencrypt (c : string) (oldkey newkey : bytes)
  | CSetSecret (c s : string) (x : bytes) (fd : FilterData)
  | CGetSecret (c s : string)
  | CSecretNames (c : string)
  | CFindSecrets (c : string) (flt : FilterData) (op : FilterOperator)
  | CRemoveSecret (c s : string).

(** What the caller learns about secrets. *)
Record answer := mkAnswer {
  answer_result : Result;
  answer_secret : option (bytes * FilterData);
  answer_names : list string;
}.

Definition silent (r : Result) : answer := mkAnswer r None [].

Section requests.
  Context `{Env : !CipherEnv}.
  Implicit Types (p : SqlCipher) (c : string).

Definition run_cipher (req : cipher_request) : M SqlCipher answer :=
  match req with
  | CCollectionNames => let* '(r, _) := cipher_collectionNames in ret (silent r)
  | CCreateCollection c k => let* r := cipher_createCollection c k in ret (silent r)
  | CRemoveCollection c => let* r := cipher_removeCollection c in ret (silent r)
  | CIsCollectionLocked c => let* '(r, _) := cipher_isCollectionLocked c false in ret (silent r)
  | CSetEncryptionKey c k => let* r := cipher_setEncryptionKey c k in ret (silent r)
  | CReencrypt c k k' => let* r := cipher_reencrypt c k k' in ret (silent r)
  | CSetSecret c s x fd => let* r := cipher_setSecret c s x fd in ret (silent r)
  | CGetSecret c s => let* '(r, x) := cipher_getSecret c s in ret (mkAnswer r x [])
  | CSecretNames c => let* '(r, names) := cipher_secretNames c in ret (mkAnswer r None names)
  | CFindSecrets c flt op =>
      let* '(r, ids) := cipher_findSecrets c flt op in ret (mkAnswer r None (ident_name <$> ids))
  | CRemoveSecret c s => let* r := cipher_removeSecret c s in ret (silent r)
  end.

Fixpoint run_ciphers (reqs : list cipher_request) : M SqlCipher (list answer) :=
  match reqs with
  | [] => ret []
  | req :: reqs' => let* a := run_cipher req in let* l := run_ciphers reqs' in ret (a :: l)
  end.

(** A request that presents the key [key] of the collection [c], or removes
    it. *)
Definition opens (c key : string) (req : cipher_request) : Prop :=
  match req with
  | CSetEncryptionKey c' k | CReencrypt c' k _ => c' = c ∧ k ≠ "" ∧ hexKey k = key
  | CRemoveCollection c' => c' = c
  | _ => False
  end.

(** A request for the secrets of the collection [c]. *)
Definition asks (c : string) (req : cipher_request) : Prop :=
  match req with
  | CSetSecret c' _ _ _ | CGetSecret c' _ | CSecretNames c' | CFindSecrets c' _ _
  | CRemoveSecret c' _ => c' = c
  | _ => False
  end.

(** Nothing was done, and nothing was told. *)
Definition refused (a : answer) : Prop :=
  ok (answer_result a) = false ∧ answer_secret a = None ∧ answer_names a = [].

(** * A locked collection *)

(** The collection is locked, and its file is [fl]. *)
Definition sealed_file c (fl : dbfile CipherTables) p : Prop :=
  opened c p = false ∧ file (database c p) = Some fl.

Section sealed.
  Context (c key : string) (t : CipherTables) (v : Z).
Let fl := DbFile t (Some key) v.

Lemma other_database {A} c' (m : M CipherDb A) :
  c' ≠ c → preserves (sealed_file c fl) (on_database c' m).
Proof.
  intros Hc p [Ho Hf]. apply wp_on_database. unfold wp. split; [done|].
  by rewrite database_set, decide_False.
Qed.

(** Opening and closing. *)
Lemma sealed_take_and_close c' : preserves (sealed_file c fl) (take_and_close c').
Proof.
  intros p Hp. unfold take_and_close. apply wp_bind, wp_gets. simpl.
  destruct (opened c' p) eqn:Ho; [|done].
  assert (c' ≠ c) as Hc by (intros ->; destruct Hp; congruence).
  apply wp_bind, wp_modify. apply other_database; [done|]. destruct Hp as [Hp ?]. split; [|done].
  apply bool_decide_eq_false in Hp. apply bool_decide_eq_false. simpl. set_solver.
Qed.

(** An attempt to open the database with another key. *)
Lemma sealed_attempt k p :
  hexKey k ≠ key → sealed_file c fl p →
  wp (let* success := on_database c
        (open (cipher_setup (hexKey k)) cipher_create cipher_upgrades 1) in
      if negb success then
        ret (result_error DatabaseError "SQLCipher plugin was unable to open the collection database")
      else
        modify (λ p, mkSqlCipher (databases p) ({[c]} ∪ m_collectionDatabases p)) ;;;
        ret (result_of_code Succeeded))
     (λ r p', ok r = false ∧ sealed_file c fl p') (set_database c (new_Database (database c p)) p).
Proof.
  intros Hk [Ho Hf]. apply wp_bind, wp_on_database. rewrite database_set, decide_True by done.
  eapply wp_mono; [apply (open_wrong_key (hexKey k) fl); try done|].
  - unfold readable. simpl. apply bool_decide_eq_false. congruence.
  - repeat constructor.
  - intros b db' (->&_&Hf'&_). apply wp_ret. rewrite ok_error by done. split_and!; [done..|].
    split; [done|]. by rewrite database_set, decide_True.
Qed.

Lemma sealed_open_wrong k create p :
  hexKey k ≠ key → sealed_file c fl p →
  wp (openCollectionDatabase c k create) (λ r p', ok r = false ∧ sealed_file c fl p') p.
Proof.
  intros Hk Hp. unfold openCollectionDatabase.
  case_bool_decide; simpl; [|apply wp_ret; split; [by apply ok_error|done]].
  apply wp_bind, wp_gets. simpl. destruct Hp as [Ho Hf]. unfold exists_file. rewrite Hf, Ho. simpl.
  apply wp_bind, wp_on_database, wp_modify. by apply sealed_attempt.
Qed.

Lemma sealed_open_other c' k create :
  c' ≠ c → preserves (sealed_file c fl) (openCollectionDatabase c' k create).
Proof.
  intros Hc. unfold openCollectionDatabase. keep; try by apply other_database.
  apply preserves_modify. intros p [Hp ?]. split; [|done].
  apply bool_decide_eq_false in Hp. apply bool_decide_eq_false. simpl. set_solver.
Qed.

Lemma sealed_setEncryptionKey c' k p :
  ¬ (c' = c ∧ k ≠ "" ∧ hexKey k = key) → sealed_file c fl p →
  wp (cipher_setEncryptionKey c' k) (λ r p', sealed_file c fl p'
    ∧ (c' = c → ok r = true → k = "")) p.
Proof.
  intros Hn Hp. unfold cipher_setEncryptionKey. apply wp_bind.
  eapply wp_mono; [by apply sealed_take_and_close|]. intros [] p1 Hp1.
  unfold isEmpty. case_bool_decide as Hk; [by apply wp_ret|].
  destruct (decide (c' = c)) as [Hc|Hc]; [subst c'|].
  - eapply wp_mono; [apply sealed_open_wrong; [tauto|done]|]. intros r p2 [Hr ?].
    split; [done|]. congruence.
  - eapply wp_mono; [by apply sealed_open_other|]. intros r p2 ?. by split.
Qed.

(** The operations on secrets. *)
Lemma sealed_with_collection {A} c' (error : Result → A) (k : M CipherDb A) p :
  sealed_file c fl p →
  wp (with_collection c' error k) (λ a p', sealed_file c fl p'
    ∧ (c' = c → ∃ e, ok e = false ∧ a = error e)) p.
Proof.
  intros Hp. unfold with_collection. apply wp_bind, wp_gets. simpl.
  destruct (decide (c' = c)) as [Hc|Hc]; [subst c'|].
  - pose proof Hp as [-> _]. apply wp_ret. split; [done|]. intros _. eexists. split; [|done].
    destruct (exists_file c p); by apply ok_error.
  - destruct (opened c' p); [|by apply wp_ret]. eapply wp_mono; [by apply other_database|].
    intros a p' ?. by split.
Qed.

Lemma sealed_secret_operation {A} c' s (error : Result → A) (k : M CipherDb A) p :
  sealed_file c fl p →
  wp (match secret_name_error c' s with
      | Some e => ret (error e)
      | None => with_collection c' error k
      end) (λ a p', sealed_file c fl p' ∧ (c' = c → ∃ e, ok e = false ∧ a = error e)) p.
Proof.
  intros Hp. pose proof (secret_name_error_spec c' s) as Hn.
  destruct (secret_name_error c' s) as [e|]; [|by apply sealed_with_collection].
  apply wp_ret. split; [done|]. intros _. exists e. by destruct Hn.
Qed.

(** The other operations on collections. *)
Lemma sealed_create c' k : preserves (sealed_file c fl) (cipher_createCollection c' k).
Proof.
  destruct (decide (c' = c)) as [Hc|Hc]; [subst c'|].
  - intros p Hp. unfold cipher_createCollection.
    destruct (negb _); [done|]. destruct (negb _); [done|]. apply wp_bind, wp_gets. simpl.
    pose proof Hp as [_ Hf]. unfold exists_file. by rewrite Hf.
  - unfold cipher_createCollection. keep. by apply sealed_open_other.
Qed.

Lemma sealed_remove c' : c' ≠ c → preserves (sealed_file c fl) (cipher_removeCollection c').
Proof.
  intros Hc. unfold cipher_removeCollection.
  keep; first [apply sealed_take_and_close | by apply other_database].
Qed.

Lemma sealed_isLocked c' b : preserves (sealed_file c fl) (cipher_isCollectionLocked c' b).
Proof.
  intros p Hp. unfold cipher_isCollectionLocked. apply wp_bind, wp_gets. simpl.
  destruct (opened c' p) eqn:Ho; [|by destruct (exists_file c' p)].
  assert (c' ≠ c) as Hc by (intros ->; destruct Hp; congruence).
  revert p Hp Ho. match goal with |- ∀ p, _ → _ → wp ?m _ _ => assert (preserves (sealed_file c fl) m) as Hm end.
  { keep; by apply other_database. }
  intros p Hp _. by apply Hm.
Qed.

Lemma sealed_reencrypt c' k k' p :
  ¬ (c' = c ∧ k ≠ "" ∧ hexKey k = key) → sealed_file c fl p →
  wp (cipher_reencrypt c' k k') (λ _ p', sealed_file c fl p') p.
Proof.
  intros Hn Hp. unfold cipher_reencrypt. apply wp_bind.
  eapply wp_mono; [by apply sealed_setEncryptionKey|]. intros r p1 [Hp1 Hr].
  destruct (negb (ok r)); [done|]. apply wp_bind, wp_gets. simpl.
  destruct (opened c' p1) eqn:Ho; [|done].
  assert (c' ≠ c) as Hc by (intros ->; destruct Hp1; congruence).
  simpl. destruct (negb _); [done|]. by apply other_database.
Qed.

(** ** Every request *)
Lemma sealed_request req p :
  ¬ opens c key req → sealed_file c fl p →
  wp (run_cipher req) (λ a p', sealed_file c fl p' ∧ (asks c req → refused a)) p.
Proof.
  intros Hn Hp. destruct req as [|c' k|c'|c'|c' k|c' k k'|c' s x fd|c' s|c'|c' flt op|c' s]; simpl in *.
  - by apply wp_bind, wp_bind, wp_gets, wp_ret, wp_ret.
  - apply wp_bind. eapply wp_mono; [by apply sealed_create|]. intros r p' ?. by apply wp_ret.
  - apply wp_bind. eapply wp_mono; [by apply sealed_remove|]. intros r p' ?. by apply wp_ret.
  - apply wp_bind. eapply wp_mono; [by apply sealed_isLocked|]. intros [r b] p' ?. by apply wp_ret.
  - apply wp_bind. eapply wp_mono; [by apply sealed_setEncryptionKey|]. intros r p' [? _]. by apply wp_ret.
  - apply wp_bind. eapply wp_mono; [by apply sealed_reencrypt|]. intros r p' ?. by apply wp_ret.
  - apply wp_bind. eapply wp_mono; [by apply (sealed_secret_operation c' s id)|].
    intros r p' [? Hr]. apply wp_ret. split; [done|]. intros (e&?&->)%Hr. done.
  - apply wp_bind. eapply wp_mono; [by apply (sealed_secret_operation c' s (λ e, (e, None)))|].
    intros [r x] p' [? Hr]. apply wp_ret. split; [done|]. intros (e&?&[= -> ->])%Hr. done.
  - apply wp_bind. unfold cipher_secretNames. destruct (isEmpty c').
    { apply wp_ret, wp_ret. split; [done|]. intros _. split_and!; [by apply ok_error|done..]. }
    eapply wp_mono; [by apply sealed_with_collection|].
    intros [r x] p' [? Hr]. apply wp_ret. split; [done|]. intros (e&?&[= -> ->])%Hr. done.
  - apply wp_bind. unfold cipher_findSecrets. destruct (isEmpty c').
    { apply wp_ret, wp_ret. split; [done|]. intros _. split_and!; [by apply ok_error|done..]. }
    case_bool_decide.
    { apply wp_ret, wp_ret. split; [done|]. intros _. split_and!; [by apply ok_error|done..]. }
    eapply wp_mono; [by apply sealed_with_collection|].
    intros [r x] p' [? Hr]. apply wp_ret. split; [done|]. intros (e&?&[= -> ->])%Hr. done.
  - apply wp_bind. eapply wp_mono; [by apply (sealed_secret_operation c' s id)|].
    intros r p' [? Hr]. apply wp_ret. split; [done|]. intros (e&?&->)%Hr. done.
Qed.

Lemma sealed_requests reqs p :
  Forall (λ req, ¬ opens c key req) reqs → sealed_file c fl p →
  wp (run_ciphers reqs) (λ answers p', sealed_file c fl p'
    ∧ Forall2 (λ req a, asks c req → refused a) reqs answers) p.
Proof.
  intros Hall. revert p. induction Hall as [|req reqs Hn Hall IH]; intros p Hp; simpl; [done|].
  apply wp_bind. eapply wp_mono; [by apply sealed_request|]. intros a p1 [Hp1 Ha].
  apply wp_bind. eapply wp_mono; [by apply IH|]. intros l p2 [Hp2 Hl]. apply wp_ret. auto.
Qed.
End sealed.
End requests.

(** * The empty key locks a collection whatever the engine does *)
Section relock.
  Context `{Env : !CipherEnv}.

Lemma closed_on_database {A} c c' (m : M CipherDb A) :
  preserves (λ p, opened c p = false) (on_database c' m).
Proof. intros p Hp. unfold wp, on_database, zoom. by destruct (m _). Qed.
#[local] Hint Resolve closed_on_database : keep.

#[global] Program Instance cipher_relock : RelockSpec (P := SqlCipher) := {|
  shut := λ c p, opened c p = false;
|}.
Next Obligation.
  intros c p. simpl. unfold cipher_setEncryptionKey, take_and_close, bind, gets. simpl.
  destruct (opened c p) eqn:Ho; [|done]. unfold modify, on_database, zoom. simpl.
  apply bool_decide_eq_false. simpl. set_solver.
Qed.
Next Obligation.
  intros c. split; simpl.
  - unfold cipher_collectionNames. keep.
  - unfold cipher_isCollectionLocked. keep.
  - unfold cipher_secretNames, with_collection. keep.
Qed.
End relock.
