(* ===== verification/RequestQueue.v ===== *)
(** The request queue of the daemon (daemon/requestqueue.cpp,
    daemon/requestqueue_p.h): requests get an identifier, are appended to the
    queue by a posted event, are handled by another, and are answered when they
    are completed or finished.

    The queue runs in one thread, on the events it posts to itself
    ([QMetaObject::invokeMethod] with [Qt::QueuedConnection]).  The virtual
    functions [handlePendingRequest] and [handleFinishedRequest] are
    parameters: what they consume of the request, whether they complete it, and
    which functions of the queue they call meanwhile. *)
From S2P Require Import Prelude Result.

(** [RequestStatus] *)
Inductive RequestStatus := RequestPending | RequestInProgress | RequestFinished.

#[global] Instance RequestStatus_eq_dec : EqDecision RequestStatus.
Proof. solve_decision. Defined.

(** The number of values of a [quint64], and its increment. *)
Definition quint64_size : Z := 2 ^ 64.
Definition quint64_succ (n : Z) : Z := (n + 1) mod quint64_size.

Section queue.
  (** [QVariant], [QDBusConnection] and [QDBusMessage]. *)
  Context {V Connection Message : Type}.

(** [RequestData] *)
Record RequestData := mkRequestData {
  requestId : Z;
  remotePid : Z;
  type : Z;
  request_status : RequestStatus;
  inParams : list V;
  outParams : list V;
  message : option Message;
  connection : option Connection;
  cryptoRequestId : Z;
  isSecretsCryptoRequest : bool;
}.

Definition set_requestId (id : Z) (r : RequestData) : RequestData :=
  mkRequestData id (remotePid r) (type r) (request_status r) (inParams r) (outParams r) (message r)
    (connection r) (cryptoRequestId r) (isSecretsCryptoRequest r).
Definition set_status (s : RequestStatus) (r : RequestData) : RequestData :=
  mkRequestData (requestId r) (remotePid r) (type r) s (inParams r) (outParams r) (message r)
    (connection r) (cryptoRequestId r) (isSecretsCryptoRequest r).
Definition set_params (inp out : list V) (r : RequestData) : RequestData :=
  mkRequestData (requestId r) (remotePid r) (type r) (request_status r) inp out (message r)
    (connection r) (cryptoRequestId r) (isSecretsCryptoRequest r).
Definition set_message (m : Message) (r : RequestData) : RequestData :=
  mkRequestData (requestId r) (remotePid r) (type r) (request_status r) (inParams r) (outParams r)
    (Some m) (connection r) (cryptoRequestId r) (isSecretsCryptoRequest r).

(** The events a queue posts to itself. *)
Inductive event := FinishEnqueueRequest (requestId : Z) | HandleRequests.

(** [RequestQueue]: the requests, those being enqueued, the posted events, and
    the function-static counter of [enqueueRequest], which all queues share. *)
Record Queue := mkQueue {
  m_requests : list RequestData;
  m_enqueuingRequests : gmap Z RequestData;
  events : list event;
  static_requestId : Z;
}.

Definition set_requests (l : list RequestData) (q : Queue) : Queue :=
  mkQueue l (m_enqueuingRequests q) (events q) (static_requestId q).
Definition set_enqueuing (m : gmap Z RequestData) (q : Queue) : Queue :=
  mkQueue (m_requests q) m (events q) (static_requestId q).
Definition set_events (l : list event) (q : Queue) : Queue :=
  mkQueue (m_requests q) (m_enqueuingRequests q) l (static_requestId q).
Definition set_static (n : Z) (q : Queue) : Queue :=
  mkQueue (m_requests q) (m_enqueuingRequests q) (events q) n.

Definition post (e : event) : M Queue unit := modify (λ q, set_events (events q ++ [e]) q).

(** * [enqueueRequest] *)

(** Is the id used by an enqueuing or a current request? *)
Definition id_used (id : Z) (q : Queue) : bool :=
  bool_decide (is_Some (m_enqueuingRequests q !! id))
  || existsb (λ r, bool_decide (requestId r = id)) (m_requests q).

(** The search for a free id: where the loop stopped, and the flag [found]. *)
Fixpoint search_id (fuel : nat) (used : Z → bool) (prevId nextFreeId : Z) (found : bool)
  : option (Z * bool) :=
  if bool_decide (nextFreeId = prevId) then Some (nextFreeId, found) else
  match fuel with
  | O => None
  | S n => if used nextFreeId then search_id n used prevId (quint64_succ nextFreeId) true
           else Some (nextFreeId, false)
  end.

(** One more round than there are ids in use is enough. *)
Definition search_fuel (q : Queue) : nat :=
  S (length (m_requests q) + size (m_enqueuingRequests q)).

Definition queue_full_error : Result :=
  result_error SecretsDaemonRequestQueueFullError "Request queue is full, try again later".

(** [enqueueRequest]: the result, and the id the request was given. *)
Definition enqueueRequest (request : RequestData) : M Queue (Result * option Z) :=
  let* prevId := gets static_requestId in
  modify (set_static (quint64_succ prevId)) ;;;
  let* q := gets id in
  match search_id (search_fuel q) (λ i, id_used i q) prevId (quint64_succ prevId) false with
  | None | Some (_, true) => ret (queue_full_error, None)
  | Some (nextFreeId, false) =>
      modify (λ q, set_enqueuing (<[nextFreeId := set_requestId nextFreeId request]>
                                    (m_enqueuingRequests q)) q) ;;;
      post (FinishEnqueueRequest nextFreeId) ;;;
      ret (result_of_code Succeeded, Some nextFreeId)
  end.

(** What the caller of [handleRequest] gets: an error reply when its process is
    not known, nothing yet, or an immediate result.  A Crypto client gets a
    Crypto result with the error code DaemonError. *)
Inductive Reply :=
  | ErrorReply (text : string)
  | DelayedReply
  | SecretsReply (result : Result)
  | CryptoDaemonError (text : string).

Definition no_pid : Reply :=
  ErrorReply "Could not determine PID of caller to enforce access controls".

(** A request of a client, as the two D-Bus variants of [handleRequest] build
    it; [pid] is what the connection tells about the peer. *)
Definition client_request (pid requestType : Z) (params : list V) (conn : Connection) : RequestData :=
  mkRequestData 0 pid requestType RequestPending params [] None (Some conn) 0 false.

Definition handleClientRequest (refuse : Result → Reply) (pid : option Z) (requestType : Z)
  (params : list V) (conn : Connection) (msg : Message) : M Queue Reply :=
  match pid with
  | None => ret no_pid
  | Some dbusRemotePid =>
      let* '(result, i) := enqueueRequest (client_request dbusRemotePid requestType params conn) in
      if ok result then
        modify (λ q, set_enqueuing (match i with
                                    | Some i => alter (set_message msg) i (m_enqueuingRequests q)
                                    | None => m_enqueuingRequests q
                                    end) q) ;;;
        ret DelayedReply
      else ret (refuse result)
  end.

(** [handleRequest] of the Secrets API and of the Crypto API. *)
Definition handleSecretsRequest := handleClientRequest SecretsReply.
Definition handleCryptoRequest := handleClientRequest (λ r, CryptoDaemonError (errorMessage r)).

(** [handleRequest] of a Secrets request as part of a Crypto request. *)
Definition handleSecretsCryptoRequest (callerPid cryptoId requestType : Z) (params : list V)
  : M Queue Result :=
  let* '(result, _) := enqueueRequest
    (mkRequestData 0 callerPid requestType RequestPending params [] None None cryptoId true) in
  ret result.

(** * The event handlers *)

(** [finishEnqueueRequest] *)
Definition finishEnqueueRequest (i : Z) : M Queue unit :=
  let* enqueuing := gets m_enqueuingRequests in
  match enqueuing !! i with
  | None => ret tt
  | Some request =>
      modify (λ q, set_enqueuing (delete i (m_enqueuingRequests q)) q) ;;;
      modify (λ q, set_requests (m_requests q ++ [request]) q) ;;;
      post HandleRequests
  end.

(** [requestFinished]: the first request with that id. *)
Definition requestFinished (i : Z) (out : list V) : M Queue unit :=
  let* requests := gets m_requests in
  match list_find (λ r, requestId r = i) requests with
  | None => ret tt
  | Some (n, _) =>
      modify (λ q, set_requests
        (alter (λ r, set_params (inParams r) out (set_status RequestFinished r)) n (m_requests q)) q) ;;;
      post HandleRequests
  end.

(** What a virtual handler does: the parameters it leaves in the request, the
    calls to the queue it makes, and [*completed]. *)
Inductive call :=
  | CallHandleRequest (callerPid cryptoId requestType : Z) (params : list V)
  | CallRequestFinished (requestId : Z) (out : list V).

Record Handled := mkHandled {
  left_inParams : list V;
  left_outParams : list V;
  calls : list call;
  completed : bool;
}.

Definition run_call (c : call) : M Queue unit :=
  match c with
  | CallHandleRequest pid cid ty params => handleSecretsCryptoRequest pid cid ty params ;;; ret tt
  | CallRequestFinished i out => requestFinished i out
  end.

Context (handlePendingRequest handleFinishedRequest : RequestData → Handled).

(** Run a handler on the request at position [n]. *)
Definition run_handler (handler : RequestData → Handled) (n : nat) (r : RequestData) : M Queue bool :=
  let h := handler r in
  modify (λ q, set_requests (alter (set_params (left_inParams h) (left_outParams h)) n
                               (m_requests q)) q) ;;;
  foldM (λ _ c, run_call c) (calls h) tt ;;;
  ret (completed h).

(** [m_requests.erase(it)], or [it++]; the new position. *)
Definition erase_or_next (done : bool) (n : nat) : M Queue nat :=
  if done then modify (λ q, set_requests (delete n (m_requests q)) q) ;;; ret n
  else ret (S n).

(** The body of the loop of [handleRequests]. *)
Definition handle_one (n : nat) (request : RequestData) : M Queue nat :=
  match request_status request with
  | RequestPending =>
      modify (λ q, set_requests (alter (set_status RequestInProgress) n (m_requests q)) q) ;;;
      let* done := run_handler handlePendingRequest n (set_status RequestInProgress request) in
      erase_or_next done n
  | RequestFinished =>
      let* done := run_handler handleFinishedRequest n request in
      erase_or_next done n
  | RequestInProgress => ret (S n)
  end.

(** The loop; [elapsed] says after each round whether more than 100 ms have
    passed.  Every round erases a request or advances, so the length of the
    queue is enough fuel. *)
Fixpoint handle_loop (fuel n : nat) (elapsed : list bool) : M Queue (option unit) :=
  let* requests := gets m_requests in
  match requests !! n with
  | None => ret (Some tt)
  | Some request =>
      match fuel with
      | O => ret None
      | S fuel' =>
          let* n' := handle_one n request in
          let* requests := gets m_requests in
          if negb (bool_decide (requests = [])) && default false (head elapsed) then
            post HandleRequests ;;; ret (Some tt)
          else handle_loop fuel' n' (tail elapsed)
      end
  end.

(** [handleRequests] *)
Definition handleRequests (elapsed : list bool) : M Queue (option unit) :=
  let* requests := gets m_requests in
  handle_loop (length requests) 0 elapsed.

(** The event loop delivers one posted event. *)
Definition deliver (e : event) (elapsed : list bool) : M Queue unit :=
  match e with
  | FinishEnqueueRequest i => finishEnqueueRequest i
  | HandleRequests => handleRequests elapsed ;;; ret tt
  end.

(** * The queue as a state machine *)
Inductive step : Queue → Queue → Prop :=
  | step_secrets pid ty params conn msg q :
      step q (handleSecretsRequest pid ty params conn msg q).2
  | step_crypto pid ty params conn msg q :
      step q (handleCryptoRequest pid ty params conn msg q).2
  | step_internal pid cid ty params q :
      step q (handleSecretsCryptoRequest pid cid ty params q).2
  | step_finished i out q :
      step q (requestFinished i out q).2
  | step_event e es elapsed q :
      events q = e :: es →
      step q (deliver e elapsed (set_events es q)).2
  | step_other_queue n q :
      (0 ≤ n < quint64_size)%Z → step q (set_static n q).

Definition initial_queue : Queue := mkQueue [] ∅ [] 0.

Definition reachable (q : Queue) : Prop := rtc step initial_queue q.
End queue.
