(* ===== verification/RequestQueueSpec.v ===== *)
(** Correctness of the request queue: identifiers are unique, no request is
    lost between being accepted and being queued, and no wake-up is lost. *)
From S2P Require Import Prelude Result RequestQueue.
From Stdlib Require Import Lia.

Lemma quint64_size_large : (1 < quint64_size)%Z.
Proof. done. Qed.
#[local] Opaque quint64_size.

(** * The search for a free identifier *)
Section search.
  Implicit Types (used : Z → bool).

(** The [k]-th identifier the loop looks at. *)
Definition candidate (next : Z) (k : nat) : Z := ((next + Z.of_nat k) mod quint64_size)%Z.

Lemma candidate_range next k : (0 ≤ candidate next k < quint64_size)%Z.
Proof. apply Z.mod_pos_bound. pose proof quint64_size_large. lia. Qed.

Lemma candidate_0 next : (0 ≤ next < quint64_size)%Z → candidate next 0 = next.
Proof. intros. unfold candidate. rewrite Z.add_0_r. by apply Z.mod_small. Qed.

Lemma candidate_S next k : candidate (quint64_succ next) k = candidate next (S k).
Proof.
  unfold candidate, quint64_succ. rewrite Zplus_mod_idemp_l. f_equal. lia.
Qed.

Lemma quint64_succ_range n : (0 ≤ quint64_succ n < quint64_size)%Z.
Proof. apply Z.mod_pos_bound. pose proof quint64_size_large. lia. Qed.

(** A search that stops at a free id has found one. *)
Lemma search_id_free fuel used prev next found i :
  search_id fuel used prev next found = Some (i, false) → (0 ≤ next < quint64_size)%Z →
  (0 ≤ i < quint64_size)%Z ∧ (used i = false ∨ (found = false ∧ next = prev)).
Proof.
  revert next found. induction fuel as [|n IH]; intros next found H Hr; simpl in H;
    case_bool_decide; simplify_eq; try done; try (by auto).
  destruct (used next) eqn:Hu; simplify_eq; [|by auto].
  apply IH in H as [? [?|[? _]]]; [by auto|done|apply quint64_succ_range].
Qed.

(** A search that ran out of fuel saw only used ids other than the last. *)
Lemma search_id_None fuel used prev next found :
  search_id fuel used prev next found = None → (0 ≤ next < quint64_size)%Z →
  (∀ k, (k < fuel)%nat → used (candidate next k) = true)
  ∧ (∀ k, (k ≤ fuel)%nat → candidate next k ≠ prev).
Proof.
  revert next found. induction fuel as [|n IH]; intros next found H Hr; simpl in H;
    case_bool_decide as Hne; try done.
  { split; [lia|]. intros k Hk. assert (k = 0)%nat as -> by lia. by rewrite candidate_0. }
  destruct (used next) eqn:Hu; [|done]. apply IH in H as [H1 H2]; [|apply quint64_succ_range].
  split; intros [|k] Hk; rewrite ?candidate_0 by done; try done; rewrite <-candidate_S; auto with lia.
Qed.

(** A search that reports a full queue saw only used ids up to the last. *)
Lemma search_id_full fuel used prev next found i :
  search_id fuel used prev next found = Some (i, true) → (0 ≤ next < quint64_size)%Z →
  ∃ m, candidate next m = prev ∧ ∀ k, (k < m)%nat → used (candidate next k) = true.
Proof.
  revert next found. induction fuel as [|n IH]; intros next found H Hr; simpl in H;
    case_bool_decide as Hne; try done; try (exists 0%nat; rewrite candidate_0 by done; split; [done|lia]).
  destruct (used next) eqn:Hu; [|done]. apply IH in H as (m&H1&H2); [|apply quint64_succ_range].
  exists (S m). rewrite <-candidate_S. split; [done|]. intros [|k] Hk; [by rewrite candidate_0|].
  rewrite <-candidate_S. apply H2. lia.
Qed.

(** Distinct candidates, all of them in a list, need room. *)
Lemma candidates_in next n (l : list Z) :
  (Z.of_nat n ≤ quint64_size)%Z → (∀ k, (k < n)%nat → candidate next k ∈ l) → (n ≤ length l)%nat.
Proof.
  intros Hn Hin. pose proof quint64_size_large.
  assert (length (candidate next <$> seq 0 n) = n) as <- by (by rewrite length_fmap, length_seq).
  apply submseteq_length, NoDup_submseteq.
  - apply NoDup_fmap_2_strong; [|apply NoDup_seq]. intros a b Ha Hb Heq.
    apply elem_of_seq in Ha, Hb. unfold candidate in Heq.
    assert ((Z.of_nat a - Z.of_nat b) mod quint64_size = 0)%Z as Hd.
    { replace (Z.of_nat a - Z.of_nat b)%Z with
        ((next + Z.of_nat a) - (next + Z.of_nat b))%Z by lia.
      rewrite Zminus_mod, Heq, Z.sub_diag. apply Z.mod_0_l. lia. }
    apply Z.mod_divide in Hd as [q Hq]; [|lia]. assert (q = 0)%Z by nia. lia.
  - intros x Hx. apply list_elem_of_fmap in Hx as (k&->&Hk%elem_of_seq). apply Hin. lia.
Qed.

(** With one more round than ids in use, the search ends. *)
Lemma search_id_terminates used (l : list Z) prev next found :
  (∀ i, used i = true → i ∈ l) → (0 ≤ next < quint64_size)%Z → (0 ≤ prev < quint64_size)%Z →
  search_id (S (length l)) used prev next found ≠ None.
Proof.
  intros Hl Hr Hp H. pose proof quint64_size_large. apply search_id_None in H as [H1 H2]; [|done].
  destruct (decide (Z.of_nat (S (length l)) ≤ quint64_size)%Z) as [Hle|Hgt].
  - pose proof (candidates_in next _ l Hle (λ k Hk, Hl _ (H1 k Hk))). lia.
  - pose proof (Z.mod_pos_bound (prev - next) quint64_size) as Hb.
    apply (H2 (Z.to_nat ((prev - next) mod quint64_size))); [lia|]. unfold candidate.
    rewrite Z2Nat.id by lia. rewrite Zplus_mod_idemp_r.
    replace (next + (prev - next))%Z with prev by lia. by apply Z.mod_small.
Qed.

(** It finds a free id unless nearly all of them are in use. *)
Lemma search_id_succeeds used (l : list Z) prev :
  (∀ i, used i = true → i ∈ l) → (0 ≤ prev < quint64_size)%Z →
  (Z.of_nat (length l) < quint64_size - 1)%Z →
  ∃ i, search_id (S (length l)) used prev (quint64_succ prev) false = Some (i, false).
Proof.
  intros Hl Hp Hlen. pose proof (quint64_succ_range prev) as Hr. pose proof quint64_size_large.
  pose proof (search_id_terminates used l prev (quint64_succ prev) false Hl Hr Hp).
  destruct (search_id _ _ _ _ _) as [[i [|]]|] eqn:Hs; [|eauto|done].
  apply search_id_full in Hs as (m&Hm&Hused); [|done]. exfalso.
  rewrite candidate_S in Hm. unfold candidate in Hm.
  assert (Z.of_nat (S m) mod quint64_size = 0)%Z as Hd.
  { replace (Z.of_nat (S m)) with ((prev + Z.of_nat (S m)) - prev)%Z by lia.
    rewrite Zminus_mod, Hm, (Z.mod_small prev), Z.sub_diag by done. apply Z.mod_0_l. lia. }
  apply Z.mod_divide in Hd as [q Hq]; [|lia].
  assert (0 < q)%Z by nia. assert (quint64_size ≤ Z.of_nat (S m))%Z by nia.
  pose proof (candidates_in (quint64_succ prev) (Z.to_nat (quint64_size - 1)) l) as Hc.
  rewrite Z2Nat.id in Hc by lia.
  assert (Z.to_nat (quint64_size - 1) ≤ length l)%nat as Hle by (apply Hc; [lia|];
    intros k Hk; apply Hl, Hused; lia).
  apply inj_le in Hle. rewrite Z2Nat.id in Hle by lia. lia.
Qed.
End search.

(** * The invariant *)
Section invariant.
  Context {V Connection Message : Type}.
  Abbreviation RequestData := (@RequestData V Connection Message).
  Abbreviation Queue := (@Queue V Connection Message).
  Context (handlePendingRequest handleFinishedRequest : RequestData → @Handled V).
  Implicit Types (q : Queue) (r : RequestData).

(** The identifiers in use, and those whose enqueuing is to be finished. *)
Definition ids q : list Z := (requestId <$> m_requests q) ++ (map_to_list (m_enqueuingRequests q)).*1.

Definition posted_ids (es : list event) : list Z :=
  omap (λ e, match e with FinishEnqueueRequest i => Some i | HandleRequests => None end) es.

Record wf q : Prop := {
  wf_unique : NoDup (ids q);
  wf_range i : i ∈ ids q → (0 ≤ i < quint64_size)%Z;
  wf_static : (0 ≤ static_requestId q < quint64_size)%Z;
  wf_enqueuing i r : m_enqueuingRequests q !! i = Some r →
    requestId r = i ∧ request_status r = RequestPending;
  wf_posted_once : NoDup (posted_ids (events q));
  wf_posted i : i ∈ posted_ids (events q) ↔ is_Some (m_enqueuingRequests q !! i);
}.

(** A request that handleRequests has to look at: a new one, or a finished one
    if the handler of finished requests always completes them. *)
Definition wants r : Prop :=
  request_status r = RequestPending
  ∨ (request_status r = RequestFinished ∧ ∀ r', completed (handleFinishedRequest r') = true).

(** Every such request at a position in [D] has a wake-up on its way. *)
Definition awake (D : nat → Prop) q : Prop :=
  ∀ n r, m_requests q !! n = Some r → D n → wants r → HandleRequests ∈ events q.

Lemma awake_mono (D D' : nat → Prop) q : (∀ n, D' n → D n) → awake D q → awake D' q.
Proof. intros HD Ha n r Hn Hd. eapply Ha; eauto. Qed.

Lemma id_used_spec i q : id_used i q = true ↔ i ∈ ids q.
Proof.
  unfold id_used, ids. rewrite orb_true_iff, bool_decide_eq_true, existsb_exists, elem_of_app,
    !list_elem_of_fmap. split.
  - intros [[r Hr]|(r&Hin%list_elem_of_In&Hr%bool_decide_eq_true)]; [right|left; eauto].
    exists (i, r). by rewrite elem_of_map_to_list.
  - intros [(r&->&Hin)|([j r]&->&Hin%elem_of_map_to_list)]; [right|left; eauto].
    exists r. rewrite <-list_elem_of_In. by rewrite bool_decide_true.
Qed.

Lemma length_ids q : search_fuel q = S (length (ids q)).
Proof.
  unfold search_fuel, ids. by rewrite length_app, !length_fmap, length_map_to_list.
Qed.

Lemma not_in_ids i q :
  i ∉ ids q → i ∉ requestId <$> m_requests q ∧ m_enqueuingRequests q !! i = None.
Proof.
  unfold ids. rewrite not_elem_of_app. intros [? Hn]. split; [done|]. apply eq_None_not_Some.
  intros [r Hr]. apply Hn, list_elem_of_fmap. exists (i, r). by rewrite elem_of_map_to_list.
Qed.

Lemma posted_ids_app es es' : posted_ids (es ++ es') = posted_ids es ++ posted_ids es'.
Proof. unfold posted_ids. apply omap_app. Qed.

(** Accepting a request under a fresh id. *)
Lemma wf_enqueue q i n r :
  wf q → i ∉ ids q → (0 ≤ i < quint64_size)%Z → (0 ≤ n < quint64_size)%Z →
  requestId r = i → request_status r = RequestPending →
  wf (mkQueue (m_requests q) (<[i := r]> (m_enqueuingRequests q))
        (events q ++ [FinishEnqueueRequest i]) n).
Proof.
  intros [H1 H2 H3 H4 H5 H6] Hi Hr Hn Hid Hs. pose proof (not_in_ids _ _ Hi) as [Hi1 Hi2].
  assert (ids (mkQueue (m_requests q) (<[i := r]> (m_enqueuingRequests q))
    (events q ++ [FinishEnqueueRequest i]) n) ≡ₚ i :: ids q) as Hids.
  { unfold ids; simpl. rewrite map_to_list_insert by done. csimpl. by rewrite Permutation_middle. }
  split; simpl.
  - rewrite Hids. by apply NoDup_cons.
  - intros j. rewrite Hids, elem_of_cons. intros [->|?]; auto.
  - done.
  - intros j r' [[-> <-]|[? ?]]%lookup_insert_Some; auto.
  - rewrite posted_ids_app. apply NoDup_app. split_and!; [done| |by apply NoDup_singleton].
    intros j Hj Hj2%list_elem_of_singleton. subst. apply H6 in Hj as [? Hj]. congruence.
  - intros j. rewrite posted_ids_app, elem_of_app, H6. simpl. rewrite list_elem_of_singleton.
    rewrite lookup_insert_is_Some'. naive_solver.
Qed.

(** Changes of requests that keep their ids, with wake-ups added. *)
Lemma wf_same_ids q l es :
  wf q → requestId <$> l = requestId <$> m_requests q → posted_ids es = posted_ids (events q) →
  wf (mkQueue l (m_enqueuingRequests q) es (static_requestId q)).
Proof.
  intros [H1 H2 H3 H4 H5 H6] Hl He. split; unfold ids in *; simpl; by rewrite ?Hl, ?He.
Qed.

Lemma requestId_alter (f : RequestData → RequestData) (n : nat) (l : list RequestData) :
  (∀ r, requestId (f r) = requestId r) → requestId <$> alter f n l = requestId <$> l.
Proof.
  intros Hf. revert n. induction l as [|r l IH]; intros [|n]; csimpl; [done..|by rewrite Hf|].
  by rewrite IH.
Qed.

(** Removing requests. *)
Lemma wf_delete_request n q : wf q → wf (set_requests (delete n (m_requests q)) q).
Proof.
  intros [H1 H2 H3 H4 H5 H6].
  assert (sublist (ids (set_requests (delete n (m_requests q)) q)) (ids q)) as Hsub.
  { unfold ids; simpl. apply sublist_app; [|done]. apply fmap_sublist, sublist_delete. }
  split; [exact (sublist_NoDup _ _ H1 Hsub)| |done..].
  intros i Hi. exact (H2 _ (elem_of_sublist _ _ _ Hi Hsub)).
Qed.

(** * The operations keep the invariant *)

(** No request at a position in [D] is new. *)
Definition served (D : nat → Prop) q : Prop :=
  ∀ n r, m_requests q !! n = Some r → D n → request_status r ≠ RequestPending.

(** What a call may do to the queue while it is being iterated over. *)
Record harmless q q' : Prop := {
  hl_wf : wf q';
  hl_length : length (m_requests q') = length (m_requests q);
  hl_awake D : awake D q → awake D q';
  hl_served D : served D q → served D q';
}.

Lemma harmless_same q q' :
  wf q' → m_requests q' = m_requests q →
  (HandleRequests ∈ events q → HandleRequests ∈ events q') → harmless q q'.
Proof.
  intros Hwf Hr He. split; unfold awake, served; rewrite ?Hr; [done..| |done].
  intros D Ha n r Hn Hd Hw. eauto.
Qed.

Lemma enqueueRequest_spec r q :
  wf q → request_status r = RequestPending →
  wp (enqueueRequest r) (λ '(res, o) q', harmless q q' ∧ m_requests q' = m_requests q
    ∧ ((Z.of_nat (length (ids q)) < quint64_size - 1)%Z → ok res = true)
    ∧ if ok res
      then ∃ i, o = Some i ∧ i ∉ ids q ∧ ids q' ≡ₚ i :: ids q
           ∧ m_enqueuingRequests q' = <[i := set_requestId i r]> (m_enqueuingRequests q)
           ∧ FinishEnqueueRequest i ∈ events q'
      else o = None ∧ ids q' = ids q ∧ res = queue_full_error) q.
Proof.
  intros Hwf Hs. unfold enqueueRequest. apply wp_bind, wp_gets, wp_bind, wp_modify, wp_bind, wp_gets.
  set (q1 := set_static (quint64_succ (static_requestId q)) q).
  assert (search_fuel (id q1) = S (length (ids q))) as -> by exact (length_ids q1).
  assert (∀ i, id_used i (id q1) = true → i ∈ ids q) as Hu by (intros i; exact (proj1 (id_used_spec i q1))).
  assert (wf q1) as Hwf1.
  { destruct Hwf. split; try done. apply quint64_succ_range. }
  pose proof (search_id_succeeds _ _ _ Hu (wf_static _ Hwf)) as Hsucc.
  destruct (search_id _ _ _ _ _) as [[i [|]]|] eqn:Hsearch.
  1, 3: apply wp_ret; (split_and!; [by apply harmless_same|done| |done]); intros Hlen;
    destruct (Hsucc Hlen); congruence.
  apply search_id_free in Hsearch as [Hr Hfree]; [|apply quint64_succ_range].
  assert (i ∉ ids q) as Hi.
  { destruct Hfree as [Hf|[_ Hf]].
    - intros Hin. apply (id_used_spec i q1) in Hin. simpl in Hf. congruence.
    - exfalso. revert Hf. unfold quint64_succ. pose proof quint64_size_large.
      pose proof (wf_static _ Hwf). intros Hf.
      destruct (decide (static_requestId q + 1 < quint64_size)%Z).
      + rewrite Z.mod_small in Hf; lia.
      + assert (static_requestId q + 1 = quint64_size)%Z as He by lia.
        rewrite He, Z.mod_same in Hf; lia. }
  apply wp_bind, wp_modify, wp_bind. unfold post. apply wp_modify, wp_ret.
  pose proof (wf_enqueue q i (quint64_succ (static_requestId q)) (set_requestId i r) Hwf Hi Hr
                (quint64_succ_range _) eq_refl Hs) as Hwf'.
  split_and!; [apply harmless_same; [done..|]; simpl; set_solver|done|done|]. rewrite ok_succeeded.
  exists i. split_and!; [done..| |done|simpl; set_solver].
  unfold ids; simpl. rewrite map_to_list_insert by (by apply not_in_ids in Hi as [_ ?]). csimpl.
  by rewrite Permutation_middle.
Qed.

Lemma requestFinished_spec i out q :
  wf q → wp (requestFinished i out) (λ _ q', harmless q q') q.
Proof.
  intros Hwf. unfold requestFinished. apply wp_bind, wp_gets.
  destruct (list_find _ _) as [[n r]|] eqn:Hf; [|by apply wp_ret, harmless_same].
  apply wp_bind, wp_modify. unfold post. apply wp_modify.
  split; simpl.
  - apply (wf_same_ids q); [done| |]; simpl.
    + by apply requestId_alter.
    + rewrite posted_ids_app. simpl. by rewrite app_nil_r.
  - by rewrite length_alter.
  - intros D _ m r' _ _ _. simpl. set_solver.
  - intros D Hd m r' Hm HD. simpl in Hm. destruct (decide (n = m)) as [->|Hne].
    + rewrite list_lookup_alter_eq in Hm. apply fmap_Some in Hm as (r0&_&->). done.
    + rewrite list_lookup_alter_ne in Hm by done. by eapply Hd.
Qed.

Lemma run_call_spec c q : wf q → wp (run_call c) (λ _ q', harmless q q') q.
Proof.
  intros Hwf. destruct c as [pid cid ty params|i out]; simpl.
  - apply wp_bind, wp_bind. eapply wp_mono; [by apply enqueueRequest_spec|].
    intros [res o] q' [? _]. by apply wp_ret, wp_ret.
  - by apply requestFinished_spec.
Qed.

Lemma run_calls_spec cs q :
  wf q → wp (foldM (λ _ c, run_call c) cs tt) (λ _ q', harmless q q') q.
Proof.
  intros Hwf. apply (wp_foldM _ (λ _ _ q', harmless q q')); [by apply harmless_same|].
  intros c l b q1 [H1 H2 H3 H4]. eapply wp_mono; [by apply run_call_spec|].
  intros _ q2 [K1 K2 K3 K4]. split; [done|congruence|auto..].
Qed.

(** Changing the request at position [n] in place. *)
Lemma alter_spec (f : RequestData → RequestData) n q :
  wf q → (∀ r, requestId (f r) = requestId r) →
  let q' := set_requests (alter f n (m_requests q)) q in
  wf q' ∧ length (m_requests q') = length (m_requests q)
  ∧ (∀ m r, m_requests q' !! m = Some r →
       ∃ r0, m_requests q !! m = Some r0 ∧ r = if decide (m = n) then f r0 else r0).
Proof.
  intros Hwf Hf q'. split_and!.
  - destruct q as [l e es st]. by apply (wf_same_ids (mkQueue l e es st)); [|apply requestId_alter|].
  - apply length_alter.
  - intros m r Hm. simpl in Hm. case_decide as Hd.
    + subst. rewrite list_lookup_alter_eq in Hm. apply fmap_Some in Hm as (r0&?&?). eauto.
    + rewrite list_lookup_alter_ne in Hm by done. eauto.
Qed.

(** The handler of one request leaves what the other positions are promised,
    and promises the same of its own if the request does not want more. *)
Lemma run_handler_spec handler n r q (D : nat → Prop) :
  wf q → m_requests q !! n = Some r → awake D q → served D q →
  wp (run_handler handler n r) (λ b q', b = completed (handler r) ∧ wf q' ∧ awake D q' ∧ served D q'
    ∧ length (m_requests q') = length (m_requests q)
    ∧ (¬ wants r → awake (λ m, D m ∨ m = n) q')
    ∧ (request_status r ≠ RequestPending → served (λ m, D m ∨ m = n) q')) q.
Proof.
  intros Hwf Hn Ha Hs. unfold run_handler. apply wp_bind, wp_modify, wp_bind.
  destruct (alter_spec (set_params (left_inParams (handler r)) (left_outParams (handler r))) n q Hwf
    (λ _, eq_refl)) as (Hwf1&Hlen1&Hreq1).
  set (q1 := set_requests _ q) in *.
  assert (∀ m r', m_requests q1 !! m = Some r' →
    ∃ r0, m_requests q !! m = Some r0 ∧ request_status r' = request_status r0) as Hst.
  { intros m r' (r0&?&->)%Hreq1. exists r0. split; [done|]. by case_decide. }
  assert (∀ D', awake D' q → awake D' q1) as Ha1.
  { intros D' HD' m r' Hm Hd Hw. destruct (Hst _ _ Hm) as (r0&Hr0&Heq).
    eapply (HD' m r0); [done..|]. unfold wants in *. by rewrite <-Heq. }
  assert (∀ D', served D' q → served D' q1) as Hs1.
  { intros D' HD' m r' Hm Hd. destruct (Hst _ _ Hm) as (r0&Hr0&->). by eapply HD'. }
  eapply wp_mono; [by apply run_calls_spec|]. intros _ q2 [H1 H2 H3 H4]. apply wp_ret.
  split_and!; [done|done|auto|auto|congruence|..].
  - intros Hw. apply H3, Ha1. intros m r' Hm [Hd| ->]; [by eapply Ha|]. congruence.
  - intros Hw. apply H4, Hs1. intros m r' Hm [Hd| ->]; [by eapply Hs|]. congruence.
Qed.

(** Erasing or skipping the request at [n]. *)
Lemma erase_or_next_spec (b : bool) n q :
  wf q → (n < length (m_requests q))%nat →
  awake (λ m, m < n ∨ (b = false ∧ m = n)) q → served (λ m, m < n ∨ (b = false ∧ m = n)) q →
  wp (erase_or_next b n) (λ n' q', wf q' ∧ awake (λ m, m < n') q' ∧ served (λ m, m < n') q'
    ∧ (length (m_requests q') - n' < length (m_requests q) - n)%nat) q.
Proof.
  intros Hwf Hn Ha Hs. unfold erase_or_next. destruct b.
  - apply wp_bind, wp_modify, wp_ret. split_and!; [by apply wf_delete_request|..].
    + intros m r Hm Hd. simpl in Hm. rewrite list_lookup_delete_lt in Hm by done. eapply Ha; eauto.
    + intros m r Hm Hd. simpl in Hm. rewrite list_lookup_delete_lt in Hm by done. eapply Hs; eauto.
    + simpl. rewrite length_delete by by apply lookup_lt_is_Some_2. lia.
  - apply wp_ret. split_and!; [done| | |lia].
    + eapply awake_mono; [|done]. simpl. intros m Hm. destruct (decide (m = n)); [auto|left; lia].
    + intros m r Hm Hd. eapply Hs; [done|]. destruct (decide (m = n)); [auto|left; lia].
Qed.

Lemma handle_one_spec n r q :
  wf q → m_requests q !! n = Some r → awake (λ m, m < n) q → served (λ m, m < n) q →
  wp (handle_one handlePendingRequest handleFinishedRequest n r)
    (λ n' q', wf q' ∧ awake (λ m, m < n') q' ∧ served (λ m, m < n') q'
       ∧ (length (m_requests q') - n' < length (m_requests q) - n)%nat) q.
Proof.
  intros Hwf Hn Ha Hs. assert (n < length (m_requests q))%nat as Hlt by (by eapply lookup_lt_Some).
  unfold handle_one. destruct (request_status r) eqn:Hst.
  - apply wp_bind, wp_modify, wp_bind.
    destruct (alter_spec (set_status RequestInProgress) n q Hwf (λ _, eq_refl)) as (Hwf1&Hlen1&Hreq1).
    set (q1 := set_requests _ q) in *. eapply wp_mono; [apply (run_handler_spec _ _ _ _ (λ m, m < n))|].
    + done.
    + simpl. rewrite list_lookup_alter_eq, Hn. done.
    + intros m r' (r0&Hm&->)%Hreq1 Hd. rewrite decide_False by lia. by eapply Ha.
    + intros m r' (r0&Hm&->)%Hreq1 Hd. rewrite decide_False by lia. by eapply Hs.
    + intros b q2 (->&Hwf2&Ha2&Hs2&Hlen2&Ha2'&Hs2'). rewrite Hlen1 in Hlen2. rewrite <-Hlen2.
      apply erase_or_next_spec; [done|lia|..].
      * eapply awake_mono; [|apply Ha2'; intros [|[]]; done]. simpl. tauto.
      * intros m r' Hm Hd. eapply Hs2'; [done..|]. tauto.
  - apply wp_ret. split_and!; [done|..|lia].
    + intros m r' Hm Hd Hw. destruct (decide (m = n)) as [->|]; [|eapply Ha; [done| |done]; lia].
      rewrite Hn in Hm. injection Hm as <-. unfold wants in Hw. rewrite Hst in Hw. naive_solver.
    + intros m r' Hm Hd. destruct (decide (m = n)) as [->|]; [|eapply Hs; [done|]; lia]. congruence.
  - apply wp_bind. eapply wp_mono; [by apply (run_handler_spec _ _ _ _ (λ m, m < n))|].
    intros b q2 (->&Hwf2&Ha2&Hs2&Hlen2&Ha2'&Hs2'). rewrite <-Hlen2.
    apply erase_or_next_spec; [done|lia|..].
    + destruct (completed (handleFinishedRequest r)) eqn:Hc.
      { eapply awake_mono; [|exact Ha2]. simpl. intros m [?|[? _]]; done. }
      eapply awake_mono; [|apply Ha2'].
      * simpl. tauto.
      * intros [?|[_ Hall]]; [congruence|]. by rewrite Hall in Hc.
    + intros m r' Hm Hd. eapply Hs2'; [congruence|done|]. tauto.
Qed.

(** The loop ends, leaves a wake-up for every request that needs one, and, if
    it is not interrupted, leaves no new request. *)
Lemma handle_loop_spec fuel n elapsed q :
  wf q → awake (λ m, m < n) q → served (λ m, m < n) q → (length (m_requests q) - n ≤ fuel)%nat →
  wp (handle_loop handlePendingRequest handleFinishedRequest fuel n elapsed)
    (λ o q', o = Some tt ∧ wf q' ∧ awake (λ _, True) q'
       ∧ (Forall (λ b, b = false) elapsed → served (λ _, True) q')) q.
Proof.
  revert n elapsed q. induction fuel as [|fuel IH]; intros n elapsed q Hwf Ha Hs Hfuel;
    cbn [handle_loop]; apply wp_bind, wp_gets; destruct (m_requests q !! n) as [r|] eqn:Hn.
  1: apply lookup_lt_Some in Hn; lia.
  1, 3: apply lookup_ge_None_1 in Hn; apply wp_ret; split_and!; [done|done|..];
    [intros m r Hm _; eapply Ha; [done|]|intros _ m r Hm _; eapply Hs; [done|]];
    apply lookup_lt_Some in Hm; lia.
  apply wp_bind. eapply wp_mono; [by apply handle_one_spec|].
  intros n' q1 (Hwf1&Ha1&Hs1&Hlen). apply wp_bind, wp_gets.
  destruct (negb _ && default false (head elapsed)) eqn:Hy.
  - apply wp_bind. unfold post. apply wp_modify, wp_ret. split_and!; [done|..].
    + destruct q1 as [l e es st]. apply (wf_same_ids (mkQueue l e es st)); [done..|]. simpl.
      rewrite posted_ids_app. simpl. by rewrite app_nil_r.
    + intros m r' _ _ _. simpl. set_solver.
    + intros Hall. apply andb_prop in Hy as [_ Hy]. destruct Hall; simpl in *; congruence.
  - eapply wp_mono; [apply (IH n' (tail elapsed) q1 Hwf1 Ha1 Hs1); lia|].
    intros o q2 (?&?&?&Hserved). split_and!; [done..|]. intros Hall. apply Hserved.
    by destruct Hall.
Qed.

(** * Every reachable queue *)

(** The invariant between two events. *)
Definition inv q : Prop := wf q ∧ awake (λ _, True) q.

Lemma harmless_inv q q' : inv q → harmless q q' → inv q'.
Proof. intros [_ Ha] H. split; [apply H|by apply (hl_awake _ _ H)]. Qed.

(** Delivering [FinishEnqueueRequest] moves the request to the queue. *)
Lemma finishEnqueueRequest_spec i es q :
  inv q → events q = FinishEnqueueRequest i :: es →
  wp (finishEnqueueRequest i) (λ _ q', inv q'
    ∧ ∃ r, m_enqueuingRequests q !! i = Some r ∧ m_requests q' = m_requests q ++ [r])
    (set_events es q).
Proof.
  intros [[H1 H2 H3 H4 H5 H6] Ha] Hes. rewrite Hes in H5, H6. simpl in H5, H6.
  apply NoDup_cons in H5 as [Hi H5].
  assert (is_Some (m_enqueuingRequests q !! i)) as [r Hr] by (apply H6; by left).
  unfold finishEnqueueRequest. apply wp_bind, wp_gets. simpl. rewrite Hr.
  apply wp_bind, wp_modify, wp_bind, wp_modify. unfold post. apply wp_modify.
  destruct (H4 _ _ Hr) as [Hid Hst].
  set (q' := set_events _ _). assert (ids q' ≡ₚ ids q) as Hids.
  { unfold ids, q'; simpl. rewrite fmap_app; simpl. rewrite Hid.
    rewrite <-(insert_delete_id (m_enqueuingRequests q) i r Hr) at 2.
    rewrite map_to_list_insert by apply lookup_delete_eq. csimpl. by rewrite <-app_assoc. }
  split; [|by exists r]. split; [split|]; simpl.
  - by rewrite Hids.
  - intros j. rewrite Hids. auto.
  - done.
  - intros j r' [_ Hj]%lookup_delete_Some. auto.
  - rewrite posted_ids_app. simpl. by rewrite app_nil_r.
  - intros j. rewrite posted_ids_app. simpl. rewrite app_nil_r, lookup_delete_is_Some, <-H6.
    rewrite elem_of_cons. split; [|naive_solver]. intros Hj. split; [|by right]. by intros ->.
  - intros m r' _ _ _. simpl. set_solver.
Qed.

(** The invariant of the queue while it delivers a [HandleRequests]. *)
Lemma handleRequests_spec elapsed es q :
  wf q → events q = HandleRequests :: es →
  wp (handleRequests handlePendingRequest handleFinishedRequest elapsed)
    (λ o q', o = Some tt ∧ inv q' ∧ (Forall (λ b, b = false) elapsed → served (λ _, True) q'))
    (set_events es q).
Proof.
  intros Hwf Hes. unfold handleRequests. apply wp_bind, wp_gets.
  eapply wp_mono; [eapply handle_loop_spec|].
  - destruct Hwf as [H1 H2 H3 H4 H5 H6]. rewrite Hes in H5, H6. by split.
  - intros m r _ Hm. lia.
  - intros m r _ Hm. lia.
  - lia.
  - intros o q' (?&?&?&?). done.
Qed.

Lemma handleClientRequest_inv refuse pid ty params conn msg q :
  inv q → inv (handleClientRequest refuse pid ty params conn msg q).2.
Proof.
  intros Hi. change (wp (handleClientRequest refuse pid ty params conn msg) (λ _ q', inv q') q).
  unfold handleClientRequest. destruct pid as [p|]; [|by apply wp_ret].
  apply wp_bind. eapply wp_mono; [by apply enqueueRequest_spec; [apply Hi|]|].
  intros [res o] q1 (Hh&_&_). pose proof (harmless_inv _ _ Hi Hh) as [Hwf Ha].
  destruct (ok res); [|by apply wp_ret]. apply wp_bind, wp_modify, wp_ret.
  split; [|exact Ha]. destruct o as [i|]; [|by destruct q1].
  assert ((map_to_list (alter (set_message msg) i (m_enqueuingRequests q1))).*1
    ≡ₚ (map_to_list (m_enqueuingRequests q1)).*1) as Hkeys.
  { apply NoDup_Permutation; [apply NoDup_fst_map_to_list..|]. intros j.
    rewrite !list_elem_of_fmap. setoid_rewrite elem_of_map_to_list'.
    split; intros ([j' r]&->&Hj); simpl in *.
    - destruct (lookup_alter_is_Some (set_message msg) (m_enqueuingRequests q1) i j') as [Hx _].
      destruct Hx as [r' Hr']; [by eexists|]. by exists (j', r').
    - destruct (lookup_alter_is_Some (set_message msg) (m_enqueuingRequests q1) i j') as [_ Hx].
      destruct Hx as [r' Hr']; [by eexists|]. by exists (j', r'). }
  destruct Hwf as [H1 H2 H3 H4 H5 H6]. split; unfold ids in *; simpl.
  - by rewrite Hkeys.
  - intros j. rewrite Hkeys. auto.
  - done.
  - intros j r Hj. apply lookup_alter_Some in Hj as [(->&r0&Hr0&->)|[_ Hj]]; [|auto].
    by apply H4 in Hr0.
  - done.
  - intros j. by rewrite lookup_alter_is_Some.
Qed.

Lemma step_inv q q' :
  inv q → step handlePendingRequest handleFinishedRequest q q' → inv q'.
Proof.
  intros Hi Hstep. destruct Hstep as [| | | |e es elapsed q Hes|n q Hn].
  - by apply handleClientRequest_inv.
  - by apply handleClientRequest_inv.
  - apply (wp_bind (enqueueRequest _) _ (λ _ q', inv q')).
    eapply wp_mono; [by apply enqueueRequest_spec; [apply Hi|]|].
    intros [res o] q1 (Hh&_&_). apply wp_ret. by eapply harmless_inv.
  - apply (wp_mono _ _ (λ _ q', inv q') _ (requestFinished_spec i out q (proj1 Hi))).
    intros _ q1 Hh. by eapply harmless_inv.
  - destruct e as [i|]; simpl.
    + apply (wp_mono _ _ (λ _ q', inv q') _ (finishEnqueueRequest_spec i es q Hi Hes)).
      by intros _ q1 [].
    + apply (wp_bind (handleRequests _ _ _) _ (λ _ q', inv q')).
      eapply wp_mono; [by eapply handleRequests_spec; [apply Hi|]|].
      by intros _ q1 (_&?&_).
  - destruct Hi as [[] Ha]. by split.
Qed.

Lemma reachable_inv q : reachable handlePendingRequest handleFinishedRequest q → inv q.
Proof.
  intros H. unfold reachable in H. revert q H. refine (rtc_ind_r (λ q, inv q) initial_queue _ _).
  - pose proof quint64_size_large. split; [split|]; simpl.
    + apply NoDup_nil_2.
    + by intros i Hi%elem_of_nil.
    + lia.
    + intros i r. by rewrite lookup_empty.
    + apply NoDup_nil_2.
    + intros i. rewrite lookup_empty, elem_of_nil. split; [done|]. by intros [].
    + by intros n r Hn.
  - intros q1 q2 _ Hs Hi. by eapply step_inv.
Qed.
End invariant.
