(* ===== verification/DataProtector.v ===== *)
(** The redundant storage of the daemon's salt and lock code check data
    (daemon/SecretsImpl/dataprotector.cpp): each value is kept in three files
    of one directory, and read back by majority.

    The file system below [m_path] is part of the state.  A file may be
    unreadable; every call that changes the file system may fail.  As in Qt 5,
    the sort order [QDir::Time] puts the most recently modified entry first,
    [QDir::rmdir] removes only empty directories, a [QSaveFile] shows up when it
    is committed, and the move assignment of a [QByteArray] exchanges the two
    arrays. *)
From S2P Require Import Prelude PluginApi.

(** [DataProtector::Status] *)
Inductive Status :=
  | Success
  | Irretrievable
  | ErrorGotNullptr
  | ErrorCannotCreateDirectory
  | ErrorCannotDeleteDirectory
  | ErrorCannotCreateFile
  | ErrorCannotOpenFile
  | ErrorCannotWriteFile.

#[global] Instance Status_eq_dec : EqDecision Status.
Proof. solve_decision. Defined.

(** A file: [None] cannot be opened. *)
Abbreviation filestate := (option bytes).

(** A data directory, with its modification time and its files by name. *)
Record DataDir := mkDataDir {
  dd_name : string;
  dd_mtime : Z;
  dd_files : list (string * filestate);
}.

(** The state: the directory [m_path] ([None] when it does not exist), a clock
    for the modification times, what the operating system will do next ([Some
    n]: the next call fails, a removal after [n] files), and [m_data]. *)
Record Protector := mkProtector {
  root : option (list DataDir);
  clock : Z;
  os_faults : list (option nat);
  m_data : bytes;
}.

Definition set_root (ds : option (list DataDir)) (s : Protector) : Protector :=
  mkProtector ds (clock s) (os_faults s) (m_data s).
Definition set_data (d : bytes) (s : Protector) : Protector :=
  mkProtector (root s) (clock s) (os_faults s) d.
Definition tick (s : Protector) : Protector :=
  mkProtector (root s) (clock s + 1) (os_faults s) (m_data s).

Definition on_dirs (f : list DataDir → list DataDir) (s : Protector) : Protector :=
  set_root (f <$> root s) s.

(** The outcome of the next file system call. *)
Definition os_call : M Protector (option nat) := λ s,
  match os_faults s with
  | [] => (None, s)
  | f :: fs => (f, mkProtector (root s) (clock s) fs (m_data s))
  end.

(** [entryInfoList(..., QDir::Time)] *)
Definition newer (a b : DataDir) : Prop := (dd_mtime b ≤ dd_mtime a)%Z.

#[global] Instance newer_dec : RelDecision newer.
Proof. intros a b. unfold newer. apply _. Defined.

Definition by_time (ds : list DataDir) : list DataDir := merge_sort newer ds.

(** * The majority decision *)

(** [std::remove_if] moves the elements to keep to the front; the vector keeps
    its size, and the empty arrays end up behind. *)
Definition remove_if_empty (l : list bytes) : list bytes :=
  filter (λ d, isEmpty d = false) l ++ filter (λ d, isEmpty d = true) l.

(** The first position of an element. *)
Definition first_index (l : list bytes) (d : bytes) : option nat :=
  fst <$> list_find (λ x, d = x) l.

(** The vector [occourences]. *)
Definition occourences (fileContents : list bytes) : list nat :=
  foldl (λ occ currentData,
           match first_index fileContents currentData with
           | Some i => alter S i occ
           | None => occ
           end) (replicate (length fileContents) 0%nat) fileContents.

(** [maxOccourenceIndex] *)
Definition max_index (occ : list nat) : nat :=
  foldl (λ mx i, if bool_decide (default 0 (occ !! mx) < default 0 (occ !! i))%nat then i else mx)
    0%nat (seq 0 (length occ)).

(** The decision: [None] when there is no majority. *)
Definition vote (fileContents : list bytes) : option bytes :=
  let occ := occourences fileContents in
  let mx := max_index occ in
  if bool_decide (default 0 (occ !! mx) < length fileContents `div` 2 + 1)%nat then None
  else fileContents !! mx.

(** * [getData] *)
Definition read_file (f : filestate) : bytes := default "" f.

(** [nullptr]: the caller passed no place for the result. *)
Definition getData (nullptr : bool) : M Protector (Status * bytes) :=
  if nullptr then ret (ErrorGotNullptr, "") else
  let* s := gets id in
  if negb (isEmpty (m_data s)) then ret (Success, m_data s) else
  match root s with
  | None => ret (Success, "")
  | Some dirs =>
      match by_time dirs with
      | [] => ret (Success, "")
      | dataDir :: others =>
          (* rmdir of the others *)
          modify (on_dirs (filter (λ d, dd_name d ∉ dd_name <$> others ∨ dd_files d ≠ []))) ;;;
          let files := (dd_files dataDir).*2 in
          if bool_decide (files = []) then ret (Irretrievable, "")
          else if forallb (λ f, bool_decide (f = None)) files then ret (Irretrievable, "")
          else
            match vote (remove_if_empty (read_file <$> files)) with
            | None => ret (Irretrievable, "")
            | Some d => modify (set_data d) ;;; ret (Success, d)
            end
      end
  end.

(** * [putData] *)

(** [removeRecursively]: a failure leaves some of the files. *)
Definition remove_dir (name : string) : M Protector bool :=
  let* f := os_call in
  match f with
  | None => modify (on_dirs (filter (λ d, dd_name d ≠ name))) ;;; ret true
  | Some n =>
      modify tick ;;;
      let* s := gets id in
      modify (on_dirs (fmap (λ d, if bool_decide (dd_name d = name)
                                  then mkDataDir name (if bool_decide (n = 0)%nat then dd_mtime d else clock s)
                                         (drop n (dd_files d)) else d))) ;;;
      ret false
  end.

(** [mkpath] of the main directory, unless it exists. *)
Definition make_root : M Protector bool :=
  let* s := gets id in
  match root s with
  | Some _ => ret true
  | None =>
      let* f := os_call in
      match f with
      | Some _ => ret false
      | None => modify (set_root (Some [])) ;;; ret true
      end
  end.

(** [mkdir] of the new data directory. *)
Definition make_dir (name : string) : M Protector bool :=
  let* f := os_call in
  let* s := gets id in
  if bool_decide (name ∈ dd_name <$> default [] (root s)) then ret false else
  match f with
  | Some _ => ret false
  | None =>
      modify tick ;;;
      modify (λ s, on_dirs (cons (mkDataDir name (clock s) [])) s) ;;;
      ret true
  end.

(** [std::all_of] over opening the files: stops at the first failure. *)
Fixpoint open_all (files : list string) : M Protector bool :=
  match files with
  | [] => ret true
  | _ :: files' =>
      let* f := os_call in
      match f with Some _ => ret false | None => open_all files' end
  end.

(** [write] and [commit] of one file after the other. *)
Fixpoint write_all (dir : string) (files : list string) (b : bytes) : M Protector bool :=
  match files with
  | [] => ret true
  | file :: files' =>
      let* written := os_call in
      match written with Some _ => ret false | None =>
      let* committed := os_call in
      match committed with Some _ => ret false | None =>
        modify tick ;;;
        modify (λ s, on_dirs (fmap (λ d, if bool_decide (dd_name d = dir)
                  then mkDataDir dir (clock s) (dd_files d ++ [(file, Some b)]) else d)) s) ;;;
        write_all dir files' b
      end end
  end.

(** The old directories, one after the other. *)
Fixpoint remove_all (dirs : list string) : M Protector bool :=
  match dirs with
  | [] => ret true
  | d :: dirs' =>
      let* removed := remove_dir d in
      if (removed : bool) then remove_all dirs' else ret false
  end.

Definition data_files : list string := ["file0"; "file1"; "file2"].

(** [putData]; [uuid] is the fresh name of the new directory. *)
Definition putData (uuid : string) (b : bytes) : M Protector Status :=
  let* made := make_root in
  if negb made then ret ErrorCannotCreateDirectory else
  let* oldDirectories := gets (λ s, dd_name <$> default [] (root s)) in
  let* created := make_dir uuid in
  if negb created then ret ErrorCannotCreateDirectory else
  let* allOpen := open_all data_files in
  if negb allOpen then ret ErrorCannotOpenFile else
  let* written := write_all uuid data_files b in
  if negb written then ret ErrorCannotWriteFile else
  let* removed := remove_all oldDirectories in
  if negb removed then ret ErrorCannotDeleteDirectory else
  modify (set_data "") ;;;
  ret Success.
