(* ===== verification/DataProtectorSpec.v ===== *)
(** Correctness of the redundant storage: the majority decision, what a
    successful store leaves, and what an interrupted one does. *)
From S2P Require Import Prelude PluginApi DataProtector.
From Stdlib Require Import Lia.

(** * The majority decision *)
Section majority.
  Implicit Types (l : list bytes) (d : bytes).

Definition count d l : nat := length (filter (λ x, x = d) l).

(** Two different values cannot both have more than half. *)
Lemma count_two d d' l : d ≠ d' → (count d l + count d' l ≤ length l)%nat.
Proof.
  intros Hne. induction l as [|x l IH]; [done|]. unfold count in *. rewrite !filter_cons.
  repeat case_decide; simpl; try lia. congruence.
Qed.

Lemma first_index_Some l d i :
  first_index l d = Some i → l !! i = Some d.
Proof.
  unfold first_index. intros H. apply fmap_Some in H as ([j x]&H&->).
  apply list_find_Some in H as (?&->&_). done.
Qed.

Lemma first_index_elem l d : d ∈ l → is_Some (first_index l d).
Proof.
  intros H. unfold first_index. rewrite fmap_is_Some. by eapply list_find_elem_of.
Qed.

(** The counters after a part of the loop. *)
Lemma occourences_loop l todo (occ : list nat) (i : nat) :
  foldl (λ occ d, match first_index l d with Some i => alter S i occ | None => occ end) occ todo !! i
  = (λ n, (n + length (filter (λ d, first_index l d = Some i) todo))%nat) <$> occ !! i.
Proof.
  revert occ. induction todo as [|d todo IH]; intros occ; simpl.
  { destruct (occ !! i); simpl; [by rewrite Nat.add_0_r|done]. }
  rewrite IH, filter_cons. destruct (first_index l d) as [j|].
  - destruct (decide (j = i)) as [->|Hne].
    + rewrite list_lookup_alter_eq, decide_True by done. destruct (occ !! i); simpl; f_equal; lia.
    + by rewrite list_lookup_alter_ne, decide_False by congruence.
  - by rewrite decide_False.
Qed.

Lemma length_occourences l : length (occourences l) = length l.
Proof.
  unfold occourences. rewrite <-(length_replicate (length l) 0%nat) at 2.
  generalize (replicate (length l) 0%nat). generalize l at 2. intros todo.
  induction todo as [|d todo IH]; intros occ; simpl; [done|]. rewrite IH.
  destruct (first_index l d); [apply length_alter|done].
Qed.

(** A value is counted at its first position, and only there. *)
Lemma lookup_occourences l i d :
  l !! i = Some d →
  occourences l !! i = Some (if decide (first_index l d = Some i) then count d l else 0%nat).
Proof.
  intros Hi. unfold occourences. rewrite occourences_loop.
  rewrite lookup_replicate_2 by (by eapply lookup_lt_Some). simpl. f_equal. unfold count.
  case_decide as Hf.
  - f_equal. apply list_filter_iff. intros x. split; [|by intros ->].
    intros Hx%first_index_Some. congruence.
  - rewrite filter_none; [done|]. intros y _ Hy.
    pose proof (first_index_Some _ _ _ Hy). congruence.
Qed.

(** [maxOccourenceIndex] is a position of the maximum. *)
Lemma max_index_spec (occ : list nat) :
  occ ≠ [] →
  (max_index occ < length occ)%nat
  ∧ ∀ i n, occ !! i = Some n → (n ≤ default 0 (occ !! max_index occ))%nat.
Proof.
  intros Hne. assert (0 < length occ)%nat as Hpos by (destruct occ; [done|simpl; lia]).
  unfold max_index.
  enough (∀ k, (k ≤ length occ)%nat →
    let m := foldl (λ mx i, if bool_decide (default 0 (occ !! mx) < default 0 (occ !! i))%nat
                            then i else mx) 0%nat (seq 0 k) in
    (m < length occ)%nat ∧ ∀ i, (i < k)%nat → (default 0 (occ !! i) ≤ default 0 (occ !! m))%nat) as H.
  { destruct (H (length occ)) as [H1 H2]; [done|]. split; [done|]. intros i n Hi.
    pose proof (H2 i (lookup_lt_Some _ _ _ Hi)) as Hle. rewrite Hi in Hle. exact Hle. }
  induction k as [|k IH]; intros Hk; [split; [done|lia]|].
  rewrite seq_S, foldl_app. simpl. destruct IH as [H1 H2]; [lia|].
  set (m := foldl _ 0%nat (seq 0 k)) in *. case_bool_decide as Hlt; (split; [lia|]); intros i Hi.
  - destruct (decide (i = k)) as [->|]; [lia|]. specialize (H2 i). lia.
  - destruct (decide (i = k)) as [->|]; [lia|]. apply H2. lia.
Qed.

(** The decision is for [d] exactly when more than half of the arrays are [d]. *)
Lemma vote_spec l d :
  vote l = Some d ↔ (length l `div` 2 + 1 ≤ count d l)%nat.
Proof.
  destruct (decide (l = [])) as [->|Hne].
  { unfold vote, count. simpl. split; [done|lia]. }
  assert (occourences l ≠ []) as Hocc.
  { intros H. apply Hne, length_zero_iff_nil. by rewrite <-length_occourences, H. }
  destruct (max_index_spec _ Hocc) as [Hm Hmax]. rewrite length_occourences in Hm.
  destruct (lookup_lt_is_Some_2 _ _ Hm) as [x Hx]. pose proof (lookup_occourences _ _ _ Hx) as Hox.
  unfold vote. set (m := max_index (occourences l)) in *. rewrite Hox in Hmax |- *. simpl in *.
  pose proof (Nat.div_mod_eq (length l) 2) as Hdiv.
  pose proof (Nat.mod_upper_bound (length l) 2 ltac:(done)) as Hmod.
  split.
  - case_bool_decide as Hb; [done|]. rewrite Hx. intros [= ->]. case_decide; lia.
  - intros Hd. assert (d ∈ l) as Hin.
    { apply dec_stable. intros Hn. unfold count in Hd.
      rewrite filter_none in Hd; [simpl in Hd; lia|]. by intros y Hy ->. }
    destruct (first_index_elem _ _ Hin) as [j Hj].
    pose proof (lookup_occourences _ _ _ (first_index_Some _ _ _ Hj)) as Hoj.
    rewrite decide_True in Hoj by done. pose proof (Hmax _ _ Hoj) as Hle.
    destruct (decide (x = d)) as [->|Hxd].
    + rewrite bool_decide_false by lia. done.
    + pose proof (count_two _ _ l Hxd). exfalso. destruct (decide _); simpl in *; lia.
Qed.
End majority.

(** * Reading *)
Section reading.
  Implicit Types (d : DataDir) (ds : list DataDir) (s : Protector).

Lemma remove_if_empty_perm l : remove_if_empty l ≡ₚ l.
Proof.
  unfold remove_if_empty. induction l as [|x l IH]; [done|]. rewrite !filter_cons.
  destruct (isEmpty x); simpl.
  - rewrite <-Permutation_middle. by f_equiv.
  - by f_equiv.
Qed.

Lemma vote_remove_if_empty l x :
  vote (remove_if_empty l) = Some x ↔ (length l `div` 2 + 1 ≤ count x l)%nat.
Proof.
  rewrite vote_spec. unfold count. by rewrite remove_if_empty_perm.
Qed.

(** The directory [getData] looks at is the most recent one. *)
Lemma by_time_newest d ds :
  (∀ d', d' ∈ ds → (dd_mtime d' < dd_mtime d)%Z) → ∃ others, by_time (d :: ds) = d :: others.
Proof.
  intros Hnew. unfold by_time.
  pose proof (merge_sort_Permutation newer (d :: ds)) as Hperm.
  assert (StronglySorted newer (merge_sort newer (d :: ds))) as Hs.
  { apply StronglySorted_merge_sort.
    - intros a b c. unfold newer. lia.
    - intros a b. unfold newer. lia. }
  destruct (merge_sort newer (d :: ds)) as [|h others].
  { by apply Permutation_nil_cons in Hperm. }
  exists others. f_equal. apply StronglySorted_inv in Hs as [_ Hall].
  assert (h ∈ d :: ds) as Hh by (rewrite <-Hperm; by left).
  assert (d ∈ h :: others) as Hd by (rewrite Hperm; by left).
  apply elem_of_cons in Hh as [->|Hh]; [done|]. apply elem_of_cons in Hd as [->|Hd]; [done|].
  eapply Forall_forall in Hall; [|done]. specialize (Hnew _ Hh). unfold newer in Hall. lia.
Qed.

(** When the most recent directory has a majority of files with contents [x],
    one of them readable, [getData] returns it. *)
Lemma getData_majority d ds others x s :
  m_data s = "" → root s = Some ds → by_time ds = d :: others →
  (length (dd_files d) `div` 2 + 1 ≤ count x (read_file <$> (dd_files d).*2))%nat →
  (∃ y, Some y ∈ (dd_files d).*2) →
  (getData false s).1 = (Success, x).
Proof.
  intros Hm Hr Hb Hc [y Hy]. unfold getData, bind, gets. simpl. rewrite Hm, Hr, Hb. simpl.
  unfold bind, modify. rewrite bool_decide_false.
  2: { intros Hn. rewrite Hn in Hy. by apply elem_of_nil in Hy. }
  destruct (forallb _ _) eqn:Hf.
  { rewrite forallb_forall in Hf. specialize (Hf (Some y) (proj1 (list_elem_of_In _ _) Hy)).
    by apply bool_decide_eq_true in Hf. }
  rewrite (proj2 (vote_remove_if_empty _ x)); [done|]. rewrite !length_fmap. done.
Qed.
End reading.

(** * Storing *)
Section storing.
  Implicit Types (s : Protector).

(** The operating system lets every call succeed. *)
Definition os_good s : Prop := Forall (λ f, f = None) (os_faults s).

Lemma os_call_good s (Q : option nat → Protector → Prop) :
  os_good s → (∀ s', os_good s' → root s' = root s → clock s' = clock s → Q None s') → wp os_call Q s.
Proof.
  intros Hg HQ. unfold wp, os_call. destruct (os_faults s) as [|f fs] eqn:Hf; simpl; [by apply HQ|].
  unfold os_good in Hg. rewrite Hf in Hg. inversion_clear Hg; subst. apply HQ; done.
Qed.

Definition stored (uuid : string) (t : Z) (b : bytes) (n : nat) : DataDir :=
  mkDataDir uuid t ((λ f, (f, Some b)) <$> take n data_files).

Lemma open_all_good files s :
  os_good s →
  wp (open_all files) (λ r s', r = true ∧ os_good s' ∧ root s' = root s ∧ clock s' = clock s) s.
Proof.
  revert s. induction files as [|f files IH]; intros s Hg; simpl; [by apply wp_ret|].
  apply wp_bind, os_call_good; [done|]. intros s' Hg' Hr Hc.
  eapply wp_mono; [by apply IH|]. intros r s'' (?&?&?&?). split_and!; congruence.
Qed.

Lemma write_all_good uuid old b s t files0 files :
  os_good s → root s = Some (mkDataDir uuid t files0 :: old) → uuid ∉ dd_name <$> old →
  wp (write_all uuid files b) (λ r s', r = true ∧ os_good s'
    ∧ ∃ t', root s' = Some (mkDataDir uuid t' (files0 ++ ((λ f, (f, Some b)) <$> files)) :: old)) s.
Proof.
  intros Hg Hr Hu. revert s t files0 Hg Hr.
  induction files as [|f files IH]; intros s t files0 Hg Hr; simpl.
  { apply wp_ret. rewrite app_nil_r. eauto. }
  apply wp_bind, os_call_good; [done|]. intros s1 Hg1 Hr1 _.
  apply wp_bind, os_call_good; [done|]. intros s2 Hg2 Hr2 _.
  apply wp_bind, wp_modify, wp_bind, wp_modify. eapply wp_mono.
  - apply (IH _ (clock (tick s2)) (files0 ++ [(f, Some b)])); [done|]. simpl.
    rewrite Hr2, Hr1, Hr. csimpl. rewrite bool_decide_true by done. do 2 f_equal.
    rewrite <-(list_fmap_id old) at 2. apply list_fmap_ext. intros i d Hd. simpl.
    rewrite bool_decide_false; [done|]. intros Heq. apply Hu, list_elem_of_fmap.
    exists d. split; [done|]. by eapply list_elem_of_lookup_2.
  - intros r s' (?&?&t'&Hs'). split_and!; [done..|]. exists t'. rewrite Hs'. by rewrite <-app_assoc.
Qed.

Lemma remove_all_good names s ds :
  os_good s → root s = Some ds →
  wp (remove_all names) (λ r s', r = true ∧ os_good s'
    ∧ root s' = Some (filter (λ d, dd_name d ∉ names) ds)) s.
Proof.
  revert s ds. induction names as [|x names IH]; intros s ds Hg Hr; simpl.
  { apply wp_ret. rewrite filter_all; [done|]. intros. apply not_elem_of_nil. }
  unfold remove_dir. apply wp_bind, wp_bind, os_call_good; [done|]. intros s1 Hg1 Hr1 _.
  apply wp_bind, wp_modify, wp_ret. eapply wp_mono.
  - apply (IH _ (filter (λ d, dd_name d ≠ x) ds)); [done|]. simpl. by rewrite Hr1, Hr.
  - intros r s' (?&?&Hs'). split_and!; [done..|]. rewrite Hs'. f_equal.
    rewrite list_filter_filter. apply list_filter_iff. intros d. rewrite not_elem_of_cons. tauto.
Qed.

#[local] Arguments open_all : simpl never.
#[local] Arguments write_all : simpl never.
#[local] Arguments remove_all : simpl never.

(** A store that succeeds leaves one directory, with the data in three files. *)
Lemma putData_good uuid b s :
  os_good s → uuid ∉ dd_name <$> default [] (root s) →
  wp (putData uuid b) (λ st s', st = Success ∧ os_good s' ∧ m_data s' = ""
    ∧ ∃ t, root s' = Some [stored uuid t b 3]) s.
Proof.
  intros Hg Hu. unfold putData. apply wp_bind.
  eapply (wp_mono _ (λ r s', r = true ∧ os_good s' ∧ root s' = Some (default [] (root s)))).
  { unfold make_root. apply wp_bind, wp_gets. simpl. destruct (root s) as [ds|] eqn:Hr.
    - by apply wp_ret.
    - apply wp_bind, os_call_good; [done|]. intros s1 ? _ _. by apply wp_bind, wp_modify, wp_ret. }
  set (old := default [] (root s)) in *. intros r s1 (->&Hg1&Hr1). simpl.
  apply wp_bind, wp_gets. rewrite Hr1. simpl. unfold make_dir. apply wp_bind, wp_bind, os_call_good; [done|].
  intros s2 Hg2 Hr2 _. apply wp_bind, wp_gets. simpl. rewrite Hr2, Hr1. simpl.
  rewrite bool_decide_false by done. apply wp_bind, wp_modify, wp_bind, wp_modify, wp_ret. simpl.
  apply wp_bind. eapply wp_mono; [by apply open_all_good|]. intros r s3 (->&Hg3&Hr3&_). simpl in *.
  apply wp_bind. eapply wp_mono.
  { apply (write_all_good uuid old b s3 (clock s2 + 1) [] data_files); [done| |done].
    rewrite Hr3, Hr2, Hr1. done. }
  intros r s4 (->&Hg4&t'&Hr4). simpl. apply wp_bind.
  eapply wp_mono; [by eapply remove_all_good|]. intros r s5 (->&Hg5&Hr5). simpl.
  apply wp_bind, wp_modify, wp_ret. split_and!; [done..|]. exists t'. simpl. rewrite Hr5.
  rewrite filter_cons, decide_True by done. do 2 f_equal.
  apply filter_none. intros d Hd Hn. apply Hn, list_elem_of_fmap. eauto.
Qed.
End storing.
