(* ===== verification/Processor.v ===== *)
(** The request processor of the secrets service
    (daemon/SecretsImpl/secretsrequestprocessor.cpp): its state and the shape of
    its handlers.

    A handler runs in the main thread.  It reads and writes the processor's
    tables, starts an operation in the plugin thread and goes on when it has
    finished ([QtConcurrent::run] with a [QFutureWatcher]), waits for such an
    operation ([waitForFinished]), calls an authentication plugin or the request
    queue, registers the request as pending until the user has answered, and in
    the end returns a result or reports the request as finished.  It is a finite
    tree of these effects.  Between a [Run] and its continuation, other handlers
    may run.

    The texts shown to the user are left out. *)
From S2P Require Import Prelude Result MetadataDb PluginApi PluginWrapper PluginFunctionWrappers DataProtector.

(** [LockCodeRequest::LockCodeTargetType] *)
Abbreviation LockCodeTargetType := Z (only parsing).
Definition MetadataDatabase : LockCodeTargetType := 0.
Definition ExtensionPlugin : LockCodeTargetType := 1.

(** [InteractionParameters::Operation]: the operations the processor names. *)
Inductive Operation :=
  | UnknownOperation | RequestUserData | UnlockDatabase | ModifyLockDatabase | UnlockPlugin
  | ModifyLockPlugin | CreateCollection | UnlockCollection | DeleteCollection | ReadSecret
  | StoreSecret | DeleteSecret | StoreKey | OtherOperation (n : Z).

#[global] Instance Operation_eq_dec : EqDecision Operation.
Proof. solve_decision. Defined.

(** [InteractionParameters::InputType]: [UnknownInput] and
    [AlphaNumericInput]; the others are not named by the processor. *)
Definition UnknownInput : Z := 0.
Definition AlphaNumericInput : Z := 8.

(** [InteractionParameters], without the texts and the echo mode. *)
Record InteractionParameters := mkInteraction {
  ip_secretName : string;
  ip_collectionName : string;
  ip_pluginName : string;
  ip_applicationId : string;
  ip_operation : Operation;
  ip_authenticationPluginName : string;
  ip_inputType : Z;
}.

(** What is in a copy that is changed: the copy constructor of
    [InteractionParametersPrivate], which leaves out the name of the plugin. *)
Definition copied (p : InteractionParameters) : InteractionParameters :=
  mkInteraction (ip_secretName p) (ip_collectionName p) "" (ip_applicationId p) (ip_operation p)
    (ip_authenticationPluginName p) (ip_inputType p).

#[global] Instance InteractionParameters_eq_dec : EqDecision InteractionParameters.
Proof. solve_decision. Defined.

(** [InteractionParameters::isValid] *)
Definition ip_isValid (ip : InteractionParameters) : bool :=
  negb (bool_decide (ip_inputType ip = UnknownInput)).

(** [Secret::type] *)
Definition secret_type (s : Secret) : string := default "Unknown" (secret_filterData s !! "Type").

(** [Secret::setData], [Secret::setCollectionName] *)
Definition setData (d : bytes) (s : Secret) : Secret :=
  mkSecret (secret_identifier s) d (secret_filterData s).

Definition setCollectionName (c : string) (s : Secret) : Secret :=
  let i := secret_identifier s in
  mkSecret (mkIdentifier (ident_name i) c (ident_storagePluginName i))
    (secret_data s) (secret_filterData s).

(** [RequestType] (secrets_p.h) *)
Inductive RequestType :=
  | InvalidRequest
  | GetPluginInfoRequest
  | GetHealthInfoRequest
  | UserInputRequest
  | CollectionNamesRequest
  | CreateDeviceLockCollectionRequest
  | CreateCustomLockCollectionRequest
  | DeleteCollectionRequest
  | SetCollectionSecretRequest
  | SetStandaloneDeviceLockSecretRequest
  | SetStandaloneCustomLockSecretRequest
  | GetCollectionSecretRequest
  | GetStandaloneSecretRequest
  | FindCollectionSecretsRequest
  | FindStandaloneSecretsRequest
  | DeleteCollectionSecretRequest
  | DeleteStandaloneSecretRequest
  | QueryLockStatusRequest
  | ModifyLockCodeRequest
  | ProvideLockCodeRequest
  | ForgetLockCodeRequest
  | SetCollectionUserInputSecretRequest
  | SetStandaloneDeviceLockUserInputSecretRequest
  | SetStandaloneCustomLockUserInputSecretRequest
  | UseCollectionKeyPreCheckRequest
  | SetCollectionKeyPreCheckRequest
  | SetCollectionKeyRequest
  | StoredKeyIdentifiersRequest.

#[global] Instance RequestType_eq_dec : EqDecision RequestType.
Proof. solve_decision. Defined.

(** [QVariantMap], for custom parameters, which are only passed on. *)
Abbreviation QVariantMap := (gmap string string) (only parsing).

(** A key, as a [QByteArray].  [SecretsRequestQueue::deviceLockKey] returns an
    array that refers to the memory where the queue keeps the device lock key
    ([QByteArray::fromRawData]), and so do its copies: they change when another
    key is written there.  [Alias n] is such an array of [n] bytes; other keys are
    values. *)
Inductive Key := Copy (b : bytes) | Alias (n : nat).

#[global] Instance Key_eq_dec : EqDecision Key.
Proof. solve_decision. Defined.

(** The bytes of a key, given the contents of that memory. *)
Definition resolve (deviceLockKeyData : bytes) (k : Key) : bytes :=
  match k with
  | Copy b => b
  | Alias n => String.substring 0 n deviceLockKeyData
  end.

Definition noKey : Key := Copy "".

(** [QByteArray::isEmpty] *)
Definition key_isEmpty (k : Key) : bool :=
  match k with Copy b => isEmpty b | Alias n => bool_decide (n = 0) end.

(** [HealthCheckRequest::Health] *)
Inductive Health := HealthOK | HealthUnknown | HealthCorrupted | HealthOtherError.

(** [QVariant]: the types the processor puts into one. *)
Inductive QVariant :=
  | VString (s : string)
  | VInt (n : Z)
  | VBool (b : bool)
  | VByteArray (b : bytes)
  | VKey (k : Key)
  | VMap (m : QVariantMap)
  | VNames (m : gmap string bool)
  | VFilterData (f : FilterData)
  | VFilterOperator (o : FilterOperator)
  | VSecret (s : Secret)
  | VIdentifier (i : Identifier)
  | VIdentifiers (l : list Identifier)
  | VCollectionMetadata (md : CollectionMetadata)
  | VSecretMetadata (md : SecretMetadata)
  | VInteractionParameters (ip : InteractionParameters)
  | VLockStatus (s : LockStatus)
  | VHealth (h : Health).

Abbreviation QVariantList := (list QVariant).

(** [RequestProcessor::PendingRequest] *)
Record PendingRequest := mkPending {
  pr_callerPid : Z;
  pr_requestId : Z;
  pr_requestType : RequestType;
  pr_parameters : QVariantList;
}.

(** The processor's own tables. *)
Record Processor := mkProcessor {
  m_collectionEncryptionKeys : gmap string Key;
  m_standaloneSecretEncryptionKeys : gmap string Key;
  m_pendingRequests : gmap Z PendingRequest;
}.

Definition insert_collection_key (h : string) (k : Key) (s : Processor) : Processor :=
  mkProcessor (<[h := k]> (m_collectionEncryptionKeys s)) (m_standaloneSecretEncryptionKeys s)
    (m_pendingRequests s).

Definition remove_collection_key (h : string) (s : Processor) : Processor :=
  mkProcessor (delete h (m_collectionEncryptionKeys s)) (m_standaloneSecretEncryptionKeys s)
    (m_pendingRequests s).

Definition insert_standalone_key (h : string) (k : Key) (s : Processor) : Processor :=
  mkProcessor (m_collectionEncryptionKeys s) (<[h := k]> (m_standaloneSecretEncryptionKeys s))
    (m_pendingRequests s).

Definition remove_standalone_key (h : string) (s : Processor) : Processor :=
  mkProcessor (m_collectionEncryptionKeys s) (delete h (m_standaloneSecretEncryptionKeys s))
    (m_pendingRequests s).

Definition insert_pending (p : PendingRequest) (s : Processor) : Processor :=
  mkProcessor (m_collectionEncryptionKeys s) (m_standaloneSecretEncryptionKeys s)
    (<[pr_requestId p := p]> (m_pendingRequests s)).

Definition remove_pending (id : Z) (s : Processor) : Processor :=
  mkProcessor (m_collectionEncryptionKeys s) (m_standaloneSecretEncryptionKeys s)
    (delete id (m_pendingRequests s)).

(** What does not change while the daemon runs: which plugins are installed,
    under which names, and what is known of the callers. *)
Record Environment := mkEnvironment {
  m_autotestMode : bool;
  m_encryptionPlugins : gset string;
  m_storagePlugins : gset string;
  m_encryptedStoragePlugins : gset string;
  m_cryptoStoragePlugins : gset string;
  m_authenticationPlugins : gmap string Z;      (* the authentication types *)
  mappedPluginName : string → string;
  applicationIsPlatformApplication : Z → bool;
  platformApplicationId : string;
  applicationId : Z → string;
  sha512Base64 : bytes → string;
}.

(** [calculateSecretNameHash] *)
Definition calculateSecretNameHash (env : Environment) (i : Identifier) : string :=
  sha512Base64 env (ident_storagePluginName i +:+ ident_collectionName i +:+ ident_name i).

(** The hash of a collection. *)
Definition collection_hash (env : Environment) (collectionName storagePluginName : string) : string :=
  calculateSecretNameHash env (mkIdentifier "" collectionName storagePluginName).

(** * Effects *)

(** The functions of pluginfunctionwrappers.cpp that are run in the plugin
    thread: [S_] on a storage plugin, [E_] on an encrypted storage plugin, [C_]
    on an encryption plugin.  The first arguments are names of plugins. *)
Inductive PluginOp : Type → Type :=
  | S_collectionNames (p : string) : PluginOp (Result * gmap string bool)
  | E_collectionNames (p : string) : PluginOp (Result * gmap string bool)
  | S_collectionMetadata (p c : string) : PluginOp (Result * CollectionMetadata)
  | E_collectionMetadata (p c : string) : PluginOp (Result * CollectionMetadata)
  | S_secretMetadata (p c s : string) : PluginOp (Result * SecretMetadata)
  | E_secretMetadata (p c s : string) : PluginOp (Result * SecretMetadata)
  | S_createCollection (p : string) (md : CollectionMetadata) : PluginOp Result
  | E_createCollection (p : string) (md : CollectionMetadata) (key : Key) : PluginOp Result
  | S_removeCollection (p c : string) : PluginOp Result
  | E_unlockAndRemoveCollection (p c : string) (key : Key) : PluginOp Result
  | E_deriveKeyUnlockAndRemoveCollection (p c : string) (code salt : bytes) : PluginOp Result
  | E_isCollectionLocked (p c : string) : PluginOp (Result * bool)
  | E_deriveKeyFromCode (p : string) (code salt : bytes) : PluginOp (Result * bytes)
  | C_deriveKeyFromCode (p : string) (code salt : bytes) : PluginOp (Result * bytes)
  | E_unlockCollectionAndStoreSecret (p : string) (md : SecretMetadata) (s : Secret) (key : Key)
      : PluginOp Result
  | S_encryptAndStoreSecret (ep p : string) (md : SecretMetadata) (s : Secret) (key : Key)
      : PluginOp Result
  | E_unlockCollectionAndReadSecret (p : string) (md : CollectionMetadata) (i : Identifier)
      (key : Key) : PluginOp (Result * Secret)
  | S_getAndDecryptSecret (ep p : string) (i : Identifier) (key : Key)
      : PluginOp (Result * Secret)
  | E_unlockAndFindSecrets (p : string) (md : CollectionMetadata) (flt : FilterData)
      (o : FilterOperator) (key : Key) : PluginOp (Result * list Identifier)
  | S_findSecrets (p c : string) (flt : FilterData) (o : FilterOperator)
      : PluginOp (Result * list Identifier)
  | E_unlockCollectionAndRemoveSecret (p : string) (md : CollectionMetadata) (i : Identifier)
      (key : Key) : PluginOp Result
  | S_removeSecret (p c s : string) : PluginOp Result
  | E_removeSecret (p c s : string) : PluginOp Result
  | E_setStandaloneSecret (p : string) (md : SecretMetadata) (s : Secret) (key : Key)
      : PluginOp Result
  | E_accessStandaloneSecret (p s : string) (key : Key)
      : PluginOp (Result * (bytes * FilterData))
  | S_collectionSecretPreCheck (p c s : string) (newSecret : bool) : PluginOp Result
  | E_collectionSecretPreCheck (p c : string) (key : Key) (relockRequired : bool) (s : string)
      (newSecret : bool) : PluginOp Result
  | A_storedKeyIdentifiers (p : string) (custom : QVariantMap)
      : PluginOp (Result * list Identifier)
  | A_storedKeyIdentifiersFromCollection (p c : string) (key : Key) (relockRequired : bool)
      (custom : QVariantMap) : PluginOp (Result * list Identifier)
  | A_queryLockSpecificPlugin (p : string) : PluginOp (bool * LockStatus)
  | A_lockSpecificPlugin (p : string) : PluginOp (option Result)
  | A_unlockSpecificPlugin (p : string) (code : bytes) : PluginOp (option Result)
  | A_modifyLockSpecificPlugin (p : string) (old new : bytes) : PluginOp (option Result)
  | A_masterLockPlugins : PluginOp bool
  | A_masterUnlockPlugins (key : bytes) : PluginOp bool
  | A_modifyMasterLockPlugins (old new : bytes) : PluginOp bool
  | E_unlockDeviceLockedCollectionsAndReencrypt (p : string) (old new : Key) : PluginOp Result
  | S_reencryptDeviceLockedCollectionsAndSecrets (p : string) (old new : Key)
      : PluginOp Result.

(** Calls of an authentication plugin. *)
Inductive AuthCall : Type → Type :=
  | BeginAuthentication (p : string) (pid id : Z) : AuthCall Result
  | BeginUserInputInteraction (p : string) (pid id : Z) (ip : InteractionParameters)
      (address : string) : AuthCall Result
  | AuthSupportsLocking (p : string) : AuthCall bool
  | AuthIsLocked (p : string) : AuthCall bool
  | AuthLock (p : string) : AuthCall bool
  | AuthUnlock (p : string) (code : bytes) : AuthCall bool
  | AuthSetLockCode (p : string) (old new : bytes) : AuthCall bool.

(** [SecretsRequestQueue::InitializationMode] *)
Inductive InitializationMode := ModifyLockMode | UnlockMode | LockMode.

(** The data that is kept in redundant files: the salt and the lock code check. *)
Inductive Protected := SaltData | LockCodeCheck.

(** Calls of the request queue that owns the processor (secrets.cpp), and reading
    protected data through a new [DataProtector]. *)
Inductive QueueCall : Type → Type :=
  | Q_deviceLockKey : QueueCall Key
  | Q_deviceLockKeyCopy : QueueCall bytes      (* a deep copy of it *)
  | Q_bkdbLockKey : QueueCall bytes
  | Q_saltData : QueueCall bytes
  | Q_masterLocked : QueueCall bool
  | Q_noLockCode : QueueCall bool
  | Q_testLockCode (code : bytes) : QueueCall bool
  | Q_initialize (code : bytes) (mode : InitializationMode) : QueueCall bool
  | Q_getData (w : Protected) : QueueCall (Status * bytes)
  | Q_queryLockStatusCryptoPlugin (p : string) : QueueCall (Result * LockStatus)
  | Q_lockCryptoPlugin (p : string) : QueueCall Result
  | Q_unlockCryptoPlugin (p : string) (code : bytes) : QueueCall Result
  | Q_setLockCodeCryptoPlugin (p : string) (old new : bytes) : QueueCall Result.

(** What a handler waits for. *)
Inductive Call : Type → Type :=
  | Plugin {A} (op : PluginOp A) : Call A
  | Auth {A} (c : AuthCall A) : Call A
  | Queue {A} (c : QueueCall A) : Call A.

(** * Handlers *)

Inductive Handler :=
  | Return (r : Result) (out : QVariantList)   (* to the caller, with the output parameters *)
  | Finish (r : Result) (out : QVariantList)   (* [requestFinished], the last action *)
  | Crash                                      (* a call on a null pointer *)
  | Mismatch                                   (* a [QVariant] of another type was expected *)
  | Get (k : Processor → Handler)
  | Put (f : Processor → Processor) (h : Handler)
  | Park (p : PendingRequest) (h : Handler)    (* [m_pendingRequests.insert] *)
  | Sync {A} (c : Call A) (k : A → Handler)
  | Run {A} (op : PluginOp A) (k : A → Handler).

(** The callback of a finished operation calls a function that returns a
    result, and reports the request as finished unless it is pending. *)
Fixpoint finishing (out : QVariantList) (h : Handler) : Handler :=
  match h with
  | Return r _ => if bool_decide (code r = Pending) then h else Finish r out
  | Get k => Get (λ s, finishing out (k s))
  | Put f h => Put f (finishing out h)
  | Park p h => Park p (finishing out h)
  | Sync c k => Sync c (λ a, finishing out (k a))
  | Finish _ _ | Crash | Mismatch | Run _ _ => h
  end.

Definition pending : Handler := Return (result_of_code Pending) [].
Definition fail_with (e : ErrorCode) (msg : string) : Handler := Return (result_error e msg) [].

Notation "'run*' x ':=' m 'in' k" := (Run m (λ x, k))
  (at level 10, x name, m at level 100, k at level 200) : sfs_scope.
Notation "'run*' ' p ':=' m 'in' k" := (Run m (λ y, let 'p := y in k))
  (at level 10, p strict pattern, m at level 100, k at level 200) : sfs_scope.
Notation "'wait*' x ':=' m 'in' k" := (Sync (Plugin m) (λ x, k))
  (at level 10, x name, m at level 100, k at level 200) : sfs_scope.
Notation "'wait*' ' p ':=' m 'in' k" := (Sync (Plugin m) (λ y, let 'p := y in k))
  (at level 10, p strict pattern, m at level 100, k at level 200) : sfs_scope.
Notation "'ask*' x ':=' m 'in' k" := (Sync (Auth m) (λ x, k))
  (at level 10, x name, m at level 100, k at level 200) : sfs_scope.
Notation "'queue*' x ':=' m 'in' k" := (Sync (Queue m) (λ x, k))
  (at level 10, x name, m at level 100, k at level 200) : sfs_scope.
Notation "'queue*' ' p ':=' m 'in' k" := (Sync (Queue m) (λ y, let 'p := y in k))
  (at level 10, p strict pattern, m at level 100, k at level 200) : sfs_scope.
