(* ===== verification/ProcessorCollections.v ===== *)
(** The request processor: which authentication plugin to use, and the requests
    about whole collections (secretsrequestprocessor.cpp, up to
    [RequestProcessor::userInput]). *)
From S2P Require Import Prelude Result MetadataDb PluginApi PluginWrapper PluginFunctionWrappers DataProtector Processor.

(** [AuthenticationPlugin::ApplicationSpecificAuthentication] *)
Definition ApplicationSpecificAuthentication : Z := 1.

(** [dataProtectorStatusToHealth] *)
Definition dataProtectorStatusToHealth (s : Status) : Health :=
  match s with
  | Success => HealthOK
  | Irretrievable => HealthCorrupted
  | _ => HealthOtherError
  end.

Definition failed (r : Result) : bool := bool_decide (code r = Failed).

Section processor.
  Context (env : Environment).

Definition hasC (p : string) : bool := bool_decide (p ∈ m_encryptionPlugins env).
Definition hasS (p : string) : bool := bool_decide (p ∈ m_storagePlugins env).
Definition hasE (p : string) : bool := bool_decide (p ∈ m_encryptedStoragePlugins env).
Definition hasA (p : string) : bool := bool_decide (is_Some (m_authenticationPlugins env !! p)).

(** The identity of the caller, as every handler determines it. *)
Definition callerApplicationId (pid : Z) : string :=
  if applicationIsPlatformApplication env pid then platformApplicationId env
  else applicationId env pid.

Definition testSuffix : string := ".test".

(** The name of a default plugin, in the mode of the daemon. *)
Definition in_mode (name : string) : string :=
  if m_autotestMode env then name +:+ testSuffix else name.

Definition systemAuthenticationPlugin : string :=
  mappedPluginName env (in_mode DefaultAuthenticationPluginName).

(** [determineAuthPlugin] *)
Definition determineAuthPlugin (ownerApplicationId callerApplicationId : string)
  (callerIsPlatformApplication : bool) (authPluginName interactionServiceAddress : string) : string :=
  let mappedPluginName' := mappedPluginName env (in_mode DefaultAuthenticationPluginName) in
  let mappedInAppPluginName := mappedPluginName env (in_mode InAppAuthenticationPluginName) in
  if bool_decide (authPluginName = InAppAuthenticationPluginName)
     || bool_decide (authPluginName = InAppAuthenticationPluginName +:+ testSuffix)
     || bool_decide (authPluginName = mappedInAppPluginName) then
    if isEmpty interactionServiceAddress
       || (negb (bool_decide (ownerApplicationId = callerApplicationId))
           && negb callerIsPlatformApplication)
    then mappedPluginName' else mappedInAppPluginName
  else if bool_decide (authPluginName = DefaultAuthenticationPluginName)
     || bool_decide (authPluginName = DefaultAuthenticationPluginName +:+ testSuffix)
     || bool_decide (authPluginName = mappedPluginName') then mappedPluginName'
  else authPluginName.

(** Whether an installed authentication plugin authenticates in the process of
    the application only. *)
Definition is_application_specific (types : Z) : bool :=
  negb (bool_decide (Z.land types ApplicationSpecificAuthentication = 0%Z)).

(** [m_authenticationPlugins[p]->beginAuthentication(...)] and what is done with
    its result: the request is pending unless it failed. *)
Definition begin_authentication (pid id : Z) (p : PendingRequest) : Handler :=
  if hasA systemAuthenticationPlugin then
    ask* result := BeginAuthentication systemAuthenticationPlugin pid id in
    if failed result then Return result [] else Park p (Return result [])
  else Crash.

(** [m_authenticationPlugins[plugin]->beginUserInputInteraction(...)], likewise. *)
Definition begin_user_input (plugin : string) (pid id : Z) (ip : InteractionParameters)
  (address : string) (p : PendingRequest) : Handler :=
  if hasA plugin then
    ask* result := BeginUserInputInteraction plugin pid id ip address in
    if failed result then Return result [] else Park p pending
  else Crash.

(** A collection that uses the device lock key and has to be unlocked. *)
Definition device_lock_authentication (pid id : Z) (collectionName : string)
  (mode : UserInteractionMode) (p : PendingRequest) : Handler :=
  if bool_decide (mode = PreventInteraction) then
    fail_with CollectionIsLockedError
      ("Collection " +:+ collectionName +:+ " is locked and requires device lock authentication")
  else begin_authentication pid id p.

Definition requires_interaction (authPluginName : string) : Handler :=
  fail_with OperationRequiresUserInteraction
    ("Authentication plugin " +:+ authPluginName +:+ " requires user interaction").

(** The metadata of a collection, from the plugin of that name. *)
Definition collectionMetadata_of (storagePluginName collectionName : string)
  : PluginOp (Result * CollectionMetadata) :=
  if hasE storagePluginName then E_collectionMetadata storagePluginName collectionName
  else S_collectionMetadata storagePluginName collectionName.

(** Look up the metadata of a collection and go on with it. *)
Definition with_collectionMetadata (storagePluginName collectionName : string) (out : QVariantList)
  (k : CollectionMetadata → Handler) : Handler :=
  run* '(result, metadata) := collectionMetadata_of storagePluginName collectionName in
  finishing out (if ok result then k metadata else Return result []).

(** The access control test; [message] tells whose collection it is. *)
Definition access_denied (callerApplicationId message : string) (metadata : CollectionMetadata)
  : option Result :=
  if bool_decide (cm_accessControlMode metadata = SystemAccessControlMode) then
    Some (result_error OperationNotSupportedError
            "Access control requests are not currently supported. TODO!")
  else if bool_decide (cm_accessControlMode metadata = OwnerOnlyMode)
          && negb (bool_decide (cm_ownerApplicationId metadata = callerApplicationId)) then
    Some (result_error PermissionsError message)
  else None.

(** Whether the plugin that stores also encrypts. *)
Definition stored_encrypted (storagePluginName encryptionPluginName : string) : bool :=
  bool_decide (storagePluginName = encryptionPluginName) || isEmpty encryptionPluginName.

(** Derive the key of a collection from the code the user entered. *)
Definition derive_key (storagePluginName encryptionPluginName : string) (authenticationCode : bytes)
  (salt : bytes) : PluginOp (Result * bytes) :=
  if stored_encrypted storagePluginName encryptionPluginName then
    E_deriveKeyFromCode storagePluginName authenticationCode salt
  else C_deriveKeyFromCode encryptionPluginName authenticationCode salt.

(** The user has to enter a code, unless the interaction mode forbids it; some
    requests also make sure that an authentication in the application's process
    is possible ([inProcess]). *)
Definition custom_lock_interaction (authPluginName unknown : string) (inProcess : bool)
  (callerPid requestId : Z) (ip : InteractionParameters) (userInteractionMode : UserInteractionMode)
  (interactionServiceAddress : string) (p : PendingRequest) : Handler :=
  if bool_decide (userInteractionMode = PreventInteraction) then requires_interaction authPluginName
  else match m_authenticationPlugins env !! authPluginName with
  | None => fail_with InvalidExtensionPluginError unknown
  | Some types =>
  if inProcess && is_application_specific types
     && (negb (bool_decide (userInteractionMode = ApplicationInteraction))
         || isEmpty interactionServiceAddress) then
    fail_with OperationRequiresApplicationUserInteraction
      ("Authentication plugin " +:+ authPluginName +:+ " requires in-process user interaction")
  else begin_user_input authPluginName callerPid requestId ip interactionServiceAddress p
  end.

(** [determineAuthPlugin] for a collection. *)
Definition collection_auth_plugin (callerPid : Z) (interactionServiceAddress : string)
  (collectionMetadata : CollectionMetadata) : string :=
  determineAuthPlugin (cm_ownerApplicationId collectionMetadata) (callerApplicationId callerPid)
    (applicationIsPlatformApplication env callerPid)
    (cm_authenticationPluginName collectionMetadata) interactionServiceAddress.

(** [RequestProcessor::initializePlugins] *)
Definition initializePlugins (k : bool → Handler) : Handler :=
  queue* key := Q_bkdbLockKey in
  wait* unlocked := A_masterUnlockPlugins key in k unlocked.

(** [RequestProcessor::getHealthInfo] *)
Definition getHealthInfo (callerPid requestId : Z) : Handler :=
  queue* '(saltDataStatus, _) := Q_getData SaltData in
  queue* '(masterlockDataStatus, _) := Q_getData LockCodeCheck in
  Return (result_of_code Succeeded)
    [VHealth (dataProtectorStatusToHealth saltDataStatus);
     VHealth (dataProtectorStatusToHealth masterlockDataStatus)].

(** [RequestProcessor::collectionNames] *)
Definition collectionNames (callerPid requestId : Z) (storagePluginName : string) : Handler :=
  if isEmpty storagePluginName then
    fail_with InvalidExtensionPluginError "Empty storage plugin name given"
  else if negb (hasE storagePluginName) && negb (hasS storagePluginName) then
    fail_with InvalidExtensionPluginError "Unknown storage plugin name given"
  else
    run* '(result, names) :=
      (if hasE storagePluginName then E_collectionNames storagePluginName
       else S_collectionNames storagePluginName) in
    Finish result [VNames names].

(** The guards that the requests to create a collection share. *)
Definition create_guards (collectionName storagePluginName encryptionPluginName : string)
  (k : Handler) : Handler :=
  if eq_ci collectionName "standalone" then
    fail_with InvalidCollectionError "Reserved collection name given"
  else if bool_decide (storagePluginName = encryptionPluginName) && negb (hasE storagePluginName) then
    fail_with InvalidExtensionPluginError
      ("No such encrypted storage plugin exists: " +:+ storagePluginName)
  else if negb (bool_decide (storagePluginName = encryptionPluginName))
          && negb (hasS storagePluginName) then
    fail_with InvalidExtensionPluginError ("No such storage plugin exists: " +:+ storagePluginName)
  else if negb (bool_decide (storagePluginName = encryptionPluginName))
          && negb (hasC encryptionPluginName) then
    fail_with InvalidExtensionPluginError
      ("No such encryption plugin exists: " +:+ encryptionPluginName)
  else k.

(** [RequestProcessor::createDeviceLockCollection] *)
Definition createDeviceLockCollection (callerPid requestId : Z)
  (collectionName storagePluginName encryptionPluginName : string) (unlockSemantic : Z)
  (accessControlMode : AccessControlMode) : Handler :=
  create_guards collectionName storagePluginName encryptionPluginName
  (let metadata :=
     mkCollectionMetadata collectionName (callerApplicationId callerPid) true encryptionPluginName
       systemAuthenticationPlugin unlockSemantic accessControlMode in
   queue* deviceLockKey := Q_deviceLockKey in
   run* pluginResult :=
     (if bool_decide (storagePluginName = encryptionPluginName)
      then E_createCollection storagePluginName metadata deviceLockKey
      else S_createCollection storagePluginName metadata) in
   if ok pluginResult && negb (bool_decide (storagePluginName = encryptionPluginName))
      && bool_decide (unlockSemantic = DeviceLockKeepUnlocked) then
     queue* deviceLockKey := Q_deviceLockKey in
     Put (insert_collection_key (collection_hash env collectionName storagePluginName) deviceLockKey)
       (Finish pluginResult [])
   else Finish pluginResult []).

(** [RequestProcessor::createCustomLockCollection] *)
Definition createCustomLockCollection (callerPid requestId : Z)
  (collectionName storagePluginName encryptionPluginName authenticationPluginName : string)
  (unlockSemantic : Z) (accessControlMode : AccessControlMode)
  (userInteractionMode : UserInteractionMode) (interactionServiceAddress : string) : Handler :=
  create_guards collectionName storagePluginName encryptionPluginName
  match m_authenticationPlugins env !! authenticationPluginName with
  | None => fail_with InvalidExtensionPluginError
              ("No such authentication plugin exists: " +:+ authenticationPluginName)
  | Some types =>
  if is_application_specific types
     && (negb (bool_decide (userInteractionMode = ApplicationInteraction))
         || isEmpty interactionServiceAddress) then
    fail_with OperationRequiresApplicationUserInteraction
      ("Authentication plugin " +:+ authenticationPluginName +:+ " requires in-process user interaction")
  else if bool_decide (userInteractionMode = PreventInteraction) then
    requires_interaction authenticationPluginName
  else
    begin_user_input authenticationPluginName callerPid requestId
      (mkInteraction "" collectionName "" (callerApplicationId callerPid) CreateCollection ""
         AlphaNumericInput) interactionServiceAddress
      (mkPending callerPid requestId CreateCustomLockCollectionRequest
         [VString collectionName; VString storagePluginName; VString encryptionPluginName;
          VString authenticationPluginName; VInt unlockSemantic; VInt accessControlMode;
          VInt userInteractionMode; VString interactionServiceAddress])
  end.

(** [RequestProcessor::createCustomLockCollectionWithEncryptionKey] *)
Definition createCustomLockCollectionWithEncryptionKey (callerPid requestId : Z)
  (collectionName storagePluginName encryptionPluginName authenticationPluginName : string)
  (unlockSemantic : Z) (accessControlMode : AccessControlMode)
  (userInteractionMode : UserInteractionMode) (interactionServiceAddress : string)
  (encryptionKey : Key) : Handler :=
  let metadata :=
    mkCollectionMetadata collectionName (callerApplicationId callerPid) false encryptionPluginName
      authenticationPluginName unlockSemantic accessControlMode in
  run* pluginResult :=
    (if bool_decide (storagePluginName = encryptionPluginName)
     then E_createCollection storagePluginName metadata encryptionKey
     else S_createCollection storagePluginName metadata) in
  if ok pluginResult && negb (bool_decide (storagePluginName = encryptionPluginName))
     && bool_decide (unlockSemantic = CustomLockKeepUnlocked) then
    Put (insert_collection_key (collection_hash env collectionName storagePluginName) encryptionKey)
      (Finish pluginResult [])
  else Finish pluginResult [].

(** [RequestProcessor::createCustomLockCollectionWithAuthenticationCode] *)
Definition createCustomLockCollectionWithAuthenticationCode (callerPid requestId : Z)
  (collectionName storagePluginName encryptionPluginName authenticationPluginName : string)
  (unlockSemantic : Z) (accessControlMode : AccessControlMode)
  (userInteractionMode : UserInteractionMode) (interactionServiceAddress : string)
  (authenticationCode : bytes) : Handler :=
  queue* salt := Q_saltData in
  run* '(result, key) :=
    (if bool_decide (storagePluginName = encryptionPluginName)
     then E_deriveKeyFromCode encryptionPluginName authenticationCode salt
     else C_deriveKeyFromCode encryptionPluginName authenticationCode salt) in
  if negb (ok result) then Finish result [] else
  createCustomLockCollectionWithEncryptionKey callerPid requestId collectionName storagePluginName
    encryptionPluginName authenticationPluginName unlockSemantic accessControlMode
    userInteractionMode interactionServiceAddress (Copy key).

(** [RequestProcessor::deleteCollectionWithLockCode] *)
Definition deleteCollectionWithLockCode (callerPid requestId : Z)
  (collectionName storagePluginName : string) (userInteractionMode : UserInteractionMode)
  (interactionServiceAddress : string) (collectionMetadata : CollectionMetadata)
  (lockCode : bytes) : Handler :=
  let finish pluginResult :=
    if ok pluginResult then
      Put (remove_collection_key (collection_hash env collectionName storagePluginName))
        (Finish pluginResult [])
    else Finish pluginResult [] in
  if hasE storagePluginName then
    queue* salt := Q_saltData in
    run* pluginResult :=
      E_deriveKeyUnlockAndRemoveCollection storagePluginName collectionName lockCode salt in
    finish pluginResult
  else
    run* pluginResult := S_removeCollection storagePluginName collectionName in
    finish pluginResult.

(** [RequestProcessor::deleteCollectionWithEncryptionKey] *)
Definition deleteCollectionWithEncryptionKey (callerPid requestId : Z)
  (collectionName storagePluginName : string) (userInteractionMode : UserInteractionMode)
  (interactionServiceAddress : string) (collectionMetadata : CollectionMetadata)
  (encryptionKey : Key) : Handler :=
  run* pluginResult :=
    (if hasE storagePluginName
     then E_unlockAndRemoveCollection storagePluginName collectionName encryptionKey
     else S_removeCollection storagePluginName collectionName) in
  if ok pluginResult then
    Put (remove_collection_key (collection_hash env collectionName storagePluginName))
      (Finish pluginResult [])
  else Finish pluginResult [].

(** Is the collection locked?  Only one of an encrypted storage plugin is. *)
Definition with_locked (storagePluginName collectionName : string) (k : bool → Handler) : Handler :=
  if hasE storagePluginName then
    wait* '(result, locked) := E_isCollectionLocked storagePluginName collectionName in
    if negb (ok result) then Return result [] else k locked
  else k false.

(** The part of the two functions below that gets a locked collection unlocked:
    with the device lock, or with the code the user enters. *)
Definition unlock_interaction (callerPid requestId : Z) (collectionName storagePluginName : string)
  (operation : Operation) (userInteractionMode : UserInteractionMode)
  (interactionServiceAddress : string) (collectionMetadata : CollectionMetadata)
  (p : PendingRequest) : Handler :=
  let authPluginName :=
    collection_auth_plugin callerPid interactionServiceAddress collectionMetadata in
  if cm_usesDeviceLockKey collectionMetadata then
    device_lock_authentication callerPid requestId collectionName userInteractionMode p
  else
    custom_lock_interaction authPluginName
      ("Unknown collection authentication plugin " +:+ authPluginName) false callerPid requestId
      (mkInteraction "" collectionName storagePluginName (callerApplicationId callerPid) operation ""
         AlphaNumericInput) userInteractionMode interactionServiceAddress p.

(** The tests at the beginning of the two functions below. *)
Definition owner_guards (callerPid : Z) (collectionName : string)
  (collectionMetadata : CollectionMetadata) (k : Handler) : Handler :=
  match access_denied (callerApplicationId callerPid)
          ("Collection " +:+ collectionName +:+ " is owned by a different application")
          collectionMetadata with
  | Some e => Return e []
  | None =>
  if negb (hasA (cm_authenticationPluginName collectionMetadata)) then
    fail_with InvalidExtensionPluginError
      ("No such authentication plugin available: " +:+ cm_authenticationPluginName collectionMetadata)
  else k
  end.

(** [RequestProcessor::deleteCollectionWithMetadata] *)
Definition deleteCollectionWithMetadata (callerPid requestId : Z)
  (collectionName storagePluginName : string) (userInteractionMode : UserInteractionMode)
  (interactionServiceAddress : string) (collectionMetadata : CollectionMetadata) : Handler :=
  owner_guards callerPid collectionName collectionMetadata
  (with_locked storagePluginName collectionName (λ locked,
   if (locked : bool) then
     unlock_interaction callerPid requestId collectionName storagePluginName DeleteCollection
       userInteractionMode interactionServiceAddress collectionMetadata
       (mkPending callerPid requestId DeleteCollectionRequest
          [VString collectionName; VString storagePluginName; VInt userInteractionMode;
           VString interactionServiceAddress; VCollectionMetadata collectionMetadata])
   else
     deleteCollectionWithLockCode callerPid requestId collectionName storagePluginName
       userInteractionMode interactionServiceAddress collectionMetadata "")).

(** [RequestProcessor::deleteCollection] *)
Definition deleteCollection (callerPid requestId : Z) (collectionName storagePluginName : string)
  (userInteractionMode : UserInteractionMode) (interactionServiceAddress : string) : Handler :=
  if isEmpty storagePluginName then
    fail_with InvalidExtensionPluginError "Empty storage plugin name given"
  else if negb (hasE storagePluginName) && negb (hasS storagePluginName) then
    fail_with InvalidExtensionPluginError "Unknown storage plugin name given"
  else if eq_ci collectionName "standalone" then
    fail_with InvalidCollectionError "Reserved collection name given"
  else if isEmpty collectionName then
    fail_with InvalidCollectionError "Empty collection name given"
  else
    with_collectionMetadata storagePluginName collectionName []
      (deleteCollectionWithMetadata callerPid requestId collectionName storagePluginName
         userInteractionMode interactionServiceAddress).

(** [RequestProcessor::storedKeyIdentifiersWithEncryptionKey] *)
Definition storedKeyIdentifiersWithEncryptionKey (callerPid requestId : Z)
  (collectionName storagePluginName : string) (customParameters : QVariantMap)
  (userInteractionMode : UserInteractionMode) (interactionServiceAddress : string)
  (collectionMetadata : CollectionMetadata) (collectionKey : Key) (collectionWasLocked : bool)
  : Handler :=
  let requiresRelock := collectionWasLocked
    && relocks (cm_usesDeviceLockKey collectionMetadata) (cm_unlockSemantic collectionMetadata) in
  run* '(pluginResult, identifiers) :=
    A_storedKeyIdentifiersFromCollection storagePluginName collectionName collectionKey
      requiresRelock customParameters in
  if ok pluginResult && negb requiresRelock then
    Put (insert_collection_key (collection_hash env collectionName storagePluginName) collectionKey)
      (Finish pluginResult [VIdentifiers identifiers])
  else Finish pluginResult [VIdentifiers identifiers].

(** [RequestProcessor::storedKeyIdentifiersWithAuthenticationCode] *)
Definition storedKeyIdentifiersWithAuthenticationCode (callerPid requestId : Z)
  (collectionName storagePluginName : string) (customParameters : QVariantMap)
  (userInteractionMode : UserInteractionMode) (interactionServiceAddress : string)
  (collectionMetadata : CollectionMetadata) (authenticationCode : bytes) : Handler :=
  queue* salt := Q_saltData in
  run* '(result, key) :=
    derive_key storagePluginName (cm_encryptionPluginName collectionMetadata) authenticationCode
      salt in
  if negb (ok result) then Finish result [VIdentifiers []] else
  storedKeyIdentifiersWithEncryptionKey callerPid requestId collectionName storagePluginName
    customParameters userInteractionMode interactionServiceAddress collectionMetadata (Copy key) true.

(** [RequestProcessor::storedKeyIdentifiersWithMetadata] *)
Definition storedKeyIdentifiersWithMetadata (callerPid requestId : Z)
  (collectionName storagePluginName : string) (customParameters : QVariantMap)
  (userInteractionMode : UserInteractionMode) (interactionServiceAddress : string)
  (collectionMetadata : CollectionMetadata) : Handler :=
  owner_guards callerPid collectionName collectionMetadata
  (with_locked storagePluginName collectionName (λ locked,
   if (locked : bool) then
     unlock_interaction callerPid requestId collectionName storagePluginName UnlockCollection
       userInteractionMode interactionServiceAddress collectionMetadata
       (mkPending callerPid requestId StoredKeyIdentifiersRequest
          [VString collectionName; VString storagePluginName; VMap customParameters;
           VInt userInteractionMode; VString interactionServiceAddress;
           VCollectionMetadata collectionMetadata])
   else
     storedKeyIdentifiersWithEncryptionKey callerPid requestId collectionName storagePluginName
       customParameters userInteractionMode interactionServiceAddress collectionMetadata noKey false)).

(** [RequestProcessor::storedKeyIdentifiers] *)
Definition storedKeyIdentifiers (callerPid requestId : Z) (collectionName storagePluginName : string)
  (customParameters : QVariantMap) (userInteractionMode : UserInteractionMode)
  (interactionServiceAddress : string) : Handler :=
  if isEmpty storagePluginName then
    fail_with InvalidExtensionPluginError "Empty storage plugin name given"
  else if negb (hasE storagePluginName) && negb (hasS storagePluginName) then
    fail_with InvalidExtensionPluginError "Unknown storage plugin name given"
  else if eq_ci collectionName "standalone" then
    fail_with InvalidCollectionError "Reserved collection name given"
  else if isEmpty collectionName then
    wait* '(result, identifiers) := A_storedKeyIdentifiers storagePluginName customParameters in
    Return result [VIdentifiers identifiers]
  else
    with_collectionMetadata storagePluginName collectionName []
      (storedKeyIdentifiersWithMetadata callerPid requestId collectionName storagePluginName
         customParameters userInteractionMode interactionServiceAddress).

(** The plugin that asks for data the user has to enter. *)
Definition userInputPlugin (uiParams : InteractionParameters) : string :=
  mappedPluginName env
    (if isEmpty (ip_authenticationPluginName uiParams) then in_mode DefaultAuthenticationPluginName
     else ip_authenticationPluginName uiParams).

Definition invalid_input_plugin (uiParams : InteractionParameters) : Handler :=
  fail_with InvalidExtensionPluginError
    ("Cannot get user input from invalid authentication plugin: "
     +:+ ip_authenticationPluginName uiParams).

(** [RequestProcessor::userInput] *)
Definition userInput (callerPid requestId : Z) (uiParams : InteractionParameters) : Handler :=
  if negb (hasA (userInputPlugin uiParams)) then invalid_input_plugin uiParams else
  let promptParams :=
    mkInteraction (ip_secretName uiParams) (ip_collectionName uiParams) (ip_pluginName (copied uiParams))
      (callerApplicationId callerPid) (ip_operation uiParams) (ip_authenticationPluginName uiParams)
      (ip_inputType uiParams) in
  begin_user_input (userInputPlugin uiParams) callerPid requestId promptParams ""
    (mkPending callerPid requestId UserInputRequest [VInteractionParameters promptParams]).
End processor.
