(* ===== verification/ProcessorSecrets.v ===== *)
(** The request processor: the secrets of a collection
    (secretsrequestprocessor.cpp: setting, getting, finding and deleting). *)
From S2P Require Import Prelude Result MetadataDb PluginApi PluginWrapper.
From S2P Require Import PluginFunctionWrappers Processor ProcessorCollections.

Section processor.
  Context (env : Environment).

(** The guards on an identifier that the requests on one secret share. *)
Definition secret_guards (i : Identifier) (k : Handler) : Handler :=
  if isEmpty (ident_name i) then fail_with InvalidSecretError "Empty secret name given"
  else if isEmpty (ident_collectionName i) then
    fail_with InvalidCollectionError "Empty collection name given"
  else if eq_ci (ident_collectionName i) "standalone" then
    fail_with InvalidCollectionError "Reserved collection name given"
  else if isEmpty (ident_storagePluginName i) then
    fail_with InvalidExtensionPluginError "Empty storage plugin name given"
  else if negb (hasE env (ident_storagePluginName i)) && negb (hasS env (ident_storagePluginName i)) then
    fail_with InvalidExtensionPluginError "Unknown storage plugin name given"
  else k.

(** Keep the key of a collection in a storage plugin, if there is none yet and
    the collection is to be kept unlocked. *)
Definition keep_key (collectionName storagePluginName : string) (usesDeviceLockKey : bool)
  (unlockSemantic : Z) (encryptionKey : Key) (k : Handler) : Handler :=
  let hashedCollectionName := collection_hash env collectionName storagePluginName in
  Get (λ s,
    if bool_decide (m_collectionEncryptionKeys s !! hashedCollectionName = None)
       && negb (relocks usesDeviceLockKey unlockSemantic)
    then Put (insert_collection_key hashedCollectionName encryptionKey) k else k).

(** Use the key that is kept for a collection. *)
Definition with_kept_key (collectionName storagePluginName : string) (k : option Key → Handler)
  : Handler :=
  Get (λ s, k (m_collectionEncryptionKeys s !! collection_hash env collectionName storagePluginName)).

(** What the functions WithAuthenticationCode do: derive the key, and go on with
    it. *)
Definition with_derived_key (storagePluginName encryptionPluginName : string)
  (authenticationCode : bytes) (k : Key → Handler) : Handler :=
  queue* salt := Q_saltData in
  run* '(result, key) := derive_key storagePluginName encryptionPluginName authenticationCode salt in
  if negb (ok result) then Finish result [] else k (Copy key).

(** * Setting a secret *)

(** [RequestProcessor::setCollectionSecretWithEncryptionKey] *)
Definition setCollectionSecretWithEncryptionKey (callerPid requestId : Z) (secret : Secret)
  (userInteractionMode : UserInteractionMode) (interactionServiceAddress : string)
  (collectionMetadata : CollectionMetadata) (encryptionKey : Key) : Handler :=
  let i := secret_identifier secret in
  let secretMetadata :=
    mkSecretMetadata (ident_collectionName i) (ident_name i)
      (cm_ownerApplicationId collectionMetadata) (cm_usesDeviceLockKey collectionMetadata)
      (cm_encryptionPluginName collectionMetadata) (cm_authenticationPluginName collectionMetadata)
      (cm_unlockSemantic collectionMetadata) (cm_accessControlMode collectionMetadata)
      (secret_type secret) "" in
  if stored_encrypted (ident_storagePluginName i) (cm_encryptionPluginName collectionMetadata) then
    run* pluginResult :=
      E_unlockCollectionAndStoreSecret (ident_storagePluginName i) secretMetadata secret
        encryptionKey in
    Finish pluginResult []
  else
    keep_key (ident_collectionName i) (ident_storagePluginName i)
      (sm_usesDeviceLockKey secretMetadata) (sm_unlockSemantic secretMetadata) encryptionKey
    (run* pluginResult :=
       S_encryptAndStoreSecret (sm_encryptionPluginName secretMetadata) (ident_storagePluginName i)
         secretMetadata secret encryptionKey in
     Finish pluginResult []).

(** [RequestProcessor::setCollectionSecretWithAuthenticationCode] *)
Definition setCollectionSecretWithAuthenticationCode (callerPid requestId : Z) (secret : Secret)
  (userInteractionMode : UserInteractionMode) (interactionServiceAddress : string)
  (collectionMetadata : CollectionMetadata) (authenticationCode : bytes) : Handler :=
  let storagePluginName := ident_storagePluginName (secret_identifier secret) in
  let encryptionPluginName := cm_encryptionPluginName collectionMetadata in
  if stored_encrypted storagePluginName encryptionPluginName && negb (hasE env storagePluginName) then
    fail_with InvalidExtensionPluginError
      ("Unknown collection encrypted storage plugin: " +:+ storagePluginName)
  else if negb (stored_encrypted storagePluginName encryptionPluginName)
          && negb (hasC env encryptionPluginName) then
    fail_with InvalidExtensionPluginError
      ("Unknown collection encryption plugin: " +:+ encryptionPluginName)
  else
    with_derived_key storagePluginName encryptionPluginName authenticationCode
      (setCollectionSecretWithEncryptionKey callerPid requestId secret userInteractionMode
         interactionServiceAddress collectionMetadata).

(** [RequestProcessor::setCollectionSecretGetAuthenticationCode] *)
Definition setCollectionSecretGetAuthenticationCode (callerPid requestId : Z) (secret : Secret)
  (userInteractionMode : UserInteractionMode) (interactionServiceAddress : string)
  (collectionMetadata : CollectionMetadata) : Handler :=
  let i := secret_identifier secret in
  let authPluginName :=
    collection_auth_plugin env callerPid interactionServiceAddress collectionMetadata in
  let proceed :=
    setCollectionSecretWithEncryptionKey callerPid requestId secret userInteractionMode
      interactionServiceAddress collectionMetadata in
  let authenticate :=
    let p := mkPending callerPid requestId SetCollectionSecretRequest
               [VSecret secret; VInt userInteractionMode; VString interactionServiceAddress;
                VCollectionMetadata collectionMetadata] in
    if cm_usesDeviceLockKey collectionMetadata then
      device_lock_authentication env callerPid requestId (ident_collectionName i)
        userInteractionMode p
    else
      custom_lock_interaction env authPluginName
        ("Unknown collection authentication plugin: " +:+ authPluginName) false callerPid requestId
        (mkInteraction (ident_name i) (ident_collectionName i) (ident_storagePluginName i)
           (callerApplicationId env callerPid) StoreSecret "" AlphaNumericInput)
        userInteractionMode interactionServiceAddress p in
  if hasE env (ident_storagePluginName i) then
    wait* '(pluginResult, locked) :=
      E_isCollectionLocked (ident_storagePluginName i) (ident_collectionName i) in
    if negb (ok pluginResult) then Return pluginResult [] else
    if negb locked then proceed noKey else authenticate
  else
    with_kept_key (ident_collectionName i) (ident_storagePluginName i) (λ kept,
      match kept with
      | Some key => proceed key
      | None => authenticate
      end).

(** [RequestProcessor::setCollectionSecretWithMetadata] *)
Definition setCollectionSecretWithMetadata (callerPid requestId : Z) (secret : Secret)
  (uiParams : InteractionParameters) (userInteractionMode : UserInteractionMode)
  (interactionServiceAddress : string) (collectionMetadata : CollectionMetadata) : Handler :=
  let i := secret_identifier secret in
  match access_denied (callerApplicationId env callerPid)
          ("Collection " +:+ ident_collectionName i +:+ " in plugin " +:+ ident_storagePluginName i
           +:+ " is owned by a different application") collectionMetadata with
  | Some e => Return e []
  | None =>
  if negb (ip_isValid uiParams) then
    setCollectionSecretGetAuthenticationCode callerPid requestId secret userInteractionMode
      interactionServiceAddress collectionMetadata
  else if negb (hasA env (userInputPlugin env uiParams)) then invalid_input_plugin uiParams
  else
    let modifiedUiParams :=
      mkInteraction (ident_name i) (ident_collectionName i) (ip_pluginName (copied uiParams))
        (callerApplicationId env callerPid) RequestUserData (ip_authenticationPluginName uiParams)
        (ip_inputType uiParams) in
    begin_user_input env (userInputPlugin env uiParams) callerPid requestId modifiedUiParams
      interactionServiceAddress
      (mkPending callerPid requestId SetCollectionUserInputSecretRequest
         [VSecret secret; VInteractionParameters modifiedUiParams; VInt userInteractionMode;
          VString interactionServiceAddress; VCollectionMetadata collectionMetadata])
  end.

(** [RequestProcessor::setCollectionSecret] *)
Definition setCollectionSecret (callerPid requestId : Z) (secret : Secret)
  (uiParams : InteractionParameters) (userInteractionMode : UserInteractionMode)
  (interactionServiceAddress : string) : Handler :=
  secret_guards (secret_identifier secret)
    (with_collectionMetadata env (ident_storagePluginName (secret_identifier secret))
       (ident_collectionName (secret_identifier secret)) []
       (setCollectionSecretWithMetadata callerPid requestId secret uiParams userInteractionMode
          interactionServiceAddress)).

(** * Getting a secret *)

(** [RequestProcessor::getCollectionSecretWithEncryptionKey] *)
Definition getCollectionSecretWithEncryptionKey (callerPid requestId : Z) (identifier : Identifier)
  (userInteractionMode : UserInteractionMode) (interactionServiceAddress : string)
  (collectionMetadata : CollectionMetadata) (encryptionKey : Key) : Handler :=
  let storagePluginName := ident_storagePluginName identifier in
  let encryptionPluginName := cm_encryptionPluginName collectionMetadata in
  if stored_encrypted storagePluginName encryptionPluginName then
    run* '(result, secret) :=
      E_unlockCollectionAndReadSecret storagePluginName collectionMetadata identifier
        encryptionKey in
    Finish result [VSecret secret]
  else
    keep_key (ident_collectionName identifier) storagePluginName
      (cm_usesDeviceLockKey collectionMetadata) (cm_unlockSemantic collectionMetadata) encryptionKey
    (run* '(result, secret) :=
       S_getAndDecryptSecret encryptionPluginName storagePluginName identifier encryptionKey in
     Finish result [VSecret secret]).

(** [RequestProcessor::getCollectionSecretWithAuthenticationCode] *)
Definition getCollectionSecretWithAuthenticationCode (callerPid requestId : Z)
  (identifier : Identifier) (userInteractionMode : UserInteractionMode)
  (interactionServiceAddress : string) (collectionMetadata : CollectionMetadata)
  (authenticationCode : bytes) : Handler :=
  let storagePluginName := ident_storagePluginName identifier in
  let encryptionPluginName := cm_encryptionPluginName collectionMetadata in
  if stored_encrypted storagePluginName encryptionPluginName && negb (hasE env storagePluginName) then
    fail_with InvalidExtensionPluginError
      ("Unknown collection encrypted storage plugin: " +:+ storagePluginName)
  else if negb (stored_encrypted storagePluginName encryptionPluginName)
          && negb (hasC env encryptionPluginName) then
    fail_with InvalidExtensionPluginError
      ("Unknown collection encryption plugin: " +:+ encryptionPluginName)
  else
    with_derived_key storagePluginName encryptionPluginName authenticationCode
      (getCollectionSecretWithEncryptionKey callerPid requestId identifier userInteractionMode
         interactionServiceAddress collectionMetadata).

(** [RequestProcessor::getCollectionSecretWithMetadata] *)
Definition getCollectionSecretWithMetadata (callerPid requestId : Z) (identifier : Identifier)
  (userInteractionMode : UserInteractionMode) (interactionServiceAddress : string)
  (collectionMetadata : CollectionMetadata) : Handler :=
  let storagePluginName := ident_storagePluginName identifier in
  let collectionName := ident_collectionName identifier in
  let authPluginName :=
    collection_auth_plugin env callerPid interactionServiceAddress collectionMetadata in
  let proceed :=
    getCollectionSecretWithEncryptionKey callerPid requestId identifier userInteractionMode
      interactionServiceAddress collectionMetadata in
  let authenticate :=
    let p := mkPending callerPid requestId GetCollectionSecretRequest
               [VIdentifier identifier; VInt userInteractionMode; VString interactionServiceAddress;
                VCollectionMetadata collectionMetadata] in
    if cm_usesDeviceLockKey collectionMetadata then
      device_lock_authentication env callerPid requestId collectionName userInteractionMode p
    else
      custom_lock_interaction env authPluginName
        ("Authentication plugin " +:+ authPluginName +:+ " for collection "
         +:+ cm_collectionName collectionMetadata +:+ " in storage plugin " +:+ storagePluginName
         +:+ " does not exist") true callerPid requestId
        (mkInteraction (ident_name identifier) collectionName "" (callerApplicationId env callerPid)
           ReadSecret "" AlphaNumericInput)
        userInteractionMode interactionServiceAddress p in
  match access_denied (callerApplicationId env callerPid)
          ("Collection " +:+ collectionName +:+ " in plugin " +:+ storagePluginName
           +:+ " is owned by a different application") collectionMetadata with
  | Some e => Return e []
  | None =>
  if stored_encrypted storagePluginName (cm_encryptionPluginName collectionMetadata) then
    wait* '(pluginResult, locked) := E_isCollectionLocked storagePluginName collectionName in
    if negb (ok pluginResult) then Return pluginResult [] else
    if (locked : bool) then authenticate else proceed noKey
  else
    with_kept_key collectionName storagePluginName (λ kept,
      match kept with
      | None => authenticate
      | Some key => proceed key
      end)
  end.

(** [RequestProcessor::getCollectionSecret] *)
Definition getCollectionSecret (callerPid requestId : Z) (identifier : Identifier)
  (userInteractionMode : UserInteractionMode) (interactionServiceAddress : string) : Handler :=
  secret_guards identifier
    (with_collectionMetadata env (ident_storagePluginName identifier)
       (ident_collectionName identifier) []
       (getCollectionSecretWithMetadata callerPid requestId identifier userInteractionMode
          interactionServiceAddress)).

(** * Finding secrets *)

(** [RequestProcessor::findCollectionSecretsWithEncryptionKey] *)
Definition findCollectionSecretsWithEncryptionKey (callerPid requestId : Z)
  (collectionName storagePluginName : string) (flt : FilterData) (filterOperator : FilterOperator)
  (userInteractionMode : UserInteractionMode) (interactionServiceAddress : string)
  (collectionMetadata : CollectionMetadata) (encryptionKey : Key) : Handler :=
  if stored_encrypted storagePluginName (cm_encryptionPluginName collectionMetadata) then
    run* '(result, identifiers) :=
      E_unlockAndFindSecrets storagePluginName collectionMetadata flt filterOperator
        encryptionKey in
    Finish result [VIdentifiers identifiers]
  else
    keep_key collectionName storagePluginName (cm_usesDeviceLockKey collectionMetadata)
      (cm_unlockSemantic collectionMetadata) encryptionKey
    (run* '(result, identifiers) :=
       S_findSecrets storagePluginName collectionName flt filterOperator in
     Finish result [VIdentifiers identifiers]).

(** [RequestProcessor::findCollectionSecretsWithAuthenticationCode] *)
Definition findCollectionSecretsWithAuthenticationCode (callerPid requestId : Z)
  (collectionName storagePluginName : string) (flt : FilterData) (filterOperator : FilterOperator)
  (userInteractionMode : UserInteractionMode) (interactionServiceAddress : string)
  (collectionMetadata : CollectionMetadata) (authenticationCode : bytes) : Handler :=
  let encryptionPluginName := cm_encryptionPluginName collectionMetadata in
  if negb (isEmpty encryptionPluginName)
     && negb (bool_decide (storagePluginName = encryptionPluginName))
     && negb (hasC env encryptionPluginName) then
    fail_with InvalidExtensionPluginError
      ("Unknown collection encryption plugin: " +:+ encryptionPluginName)
  else
    with_derived_key storagePluginName encryptionPluginName authenticationCode
      (findCollectionSecretsWithEncryptionKey callerPid requestId collectionName storagePluginName
         flt filterOperator userInteractionMode interactionServiceAddress collectionMetadata).

(** [RequestProcessor::findCollectionSecretsWithMetadata] *)
Definition findCollectionSecretsWithMetadata (callerPid requestId : Z)
  (collectionName storagePluginName : string) (flt : FilterData) (filterOperator : FilterOperator)
  (userInteractionMode : UserInteractionMode) (interactionServiceAddress : string)
  (collectionMetadata : CollectionMetadata) : Handler :=
  let authPluginName :=
    collection_auth_plugin env callerPid interactionServiceAddress collectionMetadata in
  let proceed :=
    findCollectionSecretsWithEncryptionKey callerPid requestId collectionName storagePluginName
      flt filterOperator userInteractionMode interactionServiceAddress collectionMetadata in
  let authenticate unknown :=
    let p := mkPending callerPid requestId FindCollectionSecretsRequest
               [VString collectionName; VString storagePluginName; VFilterData flt;
                VFilterOperator filterOperator; VInt userInteractionMode;
                VString interactionServiceAddress; VCollectionMetadata collectionMetadata] in
    if cm_usesDeviceLockKey collectionMetadata then
      device_lock_authentication env callerPid requestId collectionName userInteractionMode p
    else
      custom_lock_interaction env authPluginName unknown true callerPid requestId
        (mkInteraction "" collectionName storagePluginName (callerApplicationId env callerPid)
           UnlockCollection "" AlphaNumericInput)
        userInteractionMode interactionServiceAddress p in
  match access_denied (callerApplicationId env callerPid)
          ("Collection " +:+ collectionName +:+ " is owned by a different application")
          collectionMetadata with
  | Some e => Return e []
  | None =>
  if negb (hasA env authPluginName) then
    fail_with InvalidExtensionPluginError
      ("No such authentication plugin available: " +:+ authPluginName)
  else if stored_encrypted storagePluginName (cm_encryptionPluginName collectionMetadata) then
    wait* '(pluginResult, locked) := E_isCollectionLocked storagePluginName collectionName in
    if negb (ok pluginResult) then Return pluginResult [] else
    if (locked : bool) then
      authenticate ("Unknown authentication plugin for collection " +:+ collectionName
                    +:+ " in plugin " +:+ storagePluginName)
    else proceed noKey
  else
    with_kept_key collectionName storagePluginName (λ kept,
      match kept with
      | None => authenticate ("Unknown authentication plugin " +:+ authPluginName
                              +:+ " specified in collection metadata")
      | Some key => proceed key
      end)
  end.

(** [RequestProcessor::findCollectionSecrets] *)
Definition findCollectionSecrets (callerPid requestId : Z) (collectionName storagePluginName : string)
  (flt : FilterData) (filterOperator : FilterOperator) (userInteractionMode : UserInteractionMode)
  (interactionServiceAddress : string) : Handler :=
  if isEmpty storagePluginName then
    fail_with InvalidExtensionPluginError "Empty storage plugin name given"
  else if negb (hasE env storagePluginName) && negb (hasS env storagePluginName) then
    fail_with InvalidExtensionPluginError "Unknown storage plugin name given"
  else if isEmpty collectionName then
    fail_with InvalidCollectionError "Empty collection name given"
  else if eq_ci collectionName "standalone" then
    fail_with InvalidCollectionError "Reserved collection name given"
  else if bool_decide (flt = ∅) then fail_with InvalidFilterError "Empty filter given"
  else
    with_collectionMetadata env storagePluginName collectionName []
      (findCollectionSecretsWithMetadata callerPid requestId collectionName storagePluginName flt
         filterOperator userInteractionMode interactionServiceAddress).

(** [RequestProcessor::findStandaloneSecrets] *)
Definition findStandaloneSecrets (callerPid requestId : Z) (storagePluginName : string)
  (flt : FilterData) (filterOperator : FilterOperator) (userInteractionMode : UserInteractionMode)
  (interactionServiceAddress : string) : Handler :=
  fail_with OperationNotSupportedError "Filtering standalone secrets is not yet supported!".

(** * Deleting a secret *)

(** [RequestProcessor::deleteCollectionSecretWithEncryptionKey] *)
Definition deleteCollectionSecretWithEncryptionKey (callerPid requestId : Z)
  (identifier : Identifier) (userInteractionMode : UserInteractionMode)
  (interactionServiceAddress : string) (collectionMetadata : CollectionMetadata)
  (encryptionKey : Key) : Handler :=
  let storagePluginName := ident_storagePluginName identifier in
  if stored_encrypted storagePluginName (cm_encryptionPluginName collectionMetadata) then
    run* pluginResult :=
      E_unlockCollectionAndRemoveSecret storagePluginName collectionMetadata identifier
        encryptionKey in
    Finish pluginResult []
  else
    keep_key (ident_collectionName identifier) storagePluginName
      (cm_usesDeviceLockKey collectionMetadata) (cm_unlockSemantic collectionMetadata) encryptionKey
    (run* pluginResult :=
       S_removeSecret storagePluginName (ident_collectionName identifier)
         (ident_name identifier) in
     Finish pluginResult []).

(** [RequestProcessor::deleteCollectionSecretWithAuthenticationCode] *)
Definition deleteCollectionSecretWithAuthenticationCode (callerPid requestId : Z)
  (identifier : Identifier) (userInteractionMode : UserInteractionMode)
  (interactionServiceAddress : string) (collectionMetadata : CollectionMetadata)
  (authenticationCode : bytes) : Handler :=
  let storagePluginName := ident_storagePluginName identifier in
  let encryptionPluginName := cm_encryptionPluginName collectionMetadata in
  if negb (isEmpty encryptionPluginName)
     && negb (bool_decide (encryptionPluginName = storagePluginName))
     && negb (hasC env encryptionPluginName) then
    fail_with InvalidExtensionPluginError
      ("Unknown collection encryption plugin: " +:+ encryptionPluginName)
  else
    with_derived_key storagePluginName encryptionPluginName authenticationCode
      (deleteCollectionSecretWithEncryptionKey callerPid requestId identifier userInteractionMode
         interactionServiceAddress collectionMetadata).

(** [RequestProcessor::deleteCollectionSecretWithMetadata].  The two branches
    test whether the authentication plugin exists and whether interaction is
    allowed in different order. *)
Definition deleteCollectionSecretWithMetadata (callerPid requestId : Z) (identifier : Identifier)
  (userInteractionMode : UserInteractionMode) (interactionServiceAddress : string)
  (collectionMetadata : CollectionMetadata) : Handler :=
  let storagePluginName := ident_storagePluginName identifier in
  let collectionName := ident_collectionName identifier in
  let encryptionPluginName := cm_encryptionPluginName collectionMetadata in
  let authPluginName :=
    collection_auth_plugin env callerPid interactionServiceAddress collectionMetadata in
  let proceed :=
    deleteCollectionSecretWithEncryptionKey callerPid requestId identifier userInteractionMode
      interactionServiceAddress collectionMetadata in
  let p := mkPending callerPid requestId DeleteCollectionSecretRequest
             [VIdentifier identifier; VInt userInteractionMode; VString interactionServiceAddress;
              VCollectionMetadata collectionMetadata] in
  let enter_code :=
    custom_lock_interaction env authPluginName "Unknown collection authentication plugin" false
      callerPid requestId
      (mkInteraction (ident_name identifier) collectionName storagePluginName
         (callerApplicationId env callerPid) DeleteSecret "" AlphaNumericInput)
      userInteractionMode interactionServiceAddress p in
  let device_lock :=
    device_lock_authentication env callerPid requestId collectionName userInteractionMode p in
  match access_denied (callerApplicationId env callerPid)
          ("Collection " +:+ collectionName +:+ " is owned by a different application")
          collectionMetadata with
  | Some e => Return e []
  | None =>
  if negb (isEmpty encryptionPluginName)
     && negb (bool_decide (storagePluginName = encryptionPluginName))
     && negb (hasC env encryptionPluginName) then
    fail_with InvalidExtensionPluginError
      ("No such encryption plugin exists: " +:+ encryptionPluginName)
  else if stored_encrypted storagePluginName encryptionPluginName then
    wait* '(pluginResult, locked) := E_isCollectionLocked storagePluginName collectionName in
    if negb (ok pluginResult) then Return pluginResult [] else
    if (locked : bool) then
      if cm_usesDeviceLockKey collectionMetadata then device_lock
      else if negb (hasA env authPluginName) then
        fail_with InvalidExtensionPluginError "Unknown collection authentication plugin"
      else enter_code
    else
      queue* deviceLockKey := Q_deviceLockKey in proceed deviceLockKey
  else
    with_kept_key collectionName storagePluginName (λ kept,
      match kept with
      | None => if cm_usesDeviceLockKey collectionMetadata then device_lock else enter_code
      | Some key => proceed key
      end)
  end.

(** [RequestProcessor::deleteCollectionSecret] *)
Definition deleteCollectionSecret (callerPid requestId : Z) (identifier : Identifier)
  (userInteractionMode : UserInteractionMode) (interactionServiceAddress : string) : Handler :=
  secret_guards identifier
    (with_collectionMetadata env (ident_storagePluginName identifier)
       (ident_collectionName identifier) []
       (deleteCollectionSecretWithMetadata callerPid requestId identifier userInteractionMode
          interactionServiceAddress)).
End processor.

(** * Checks before keys are used or stored *)

Section processor.
  Context (env : Environment).

(** What the two functions WithEncryptionKey have in common; they differ in
    whether the secret is a new one. *)
Definition preCheckWithEncryptionKey (newSecret : bool) (identifier : Identifier)
  (collectionMetadata : CollectionMetadata) (collectionDecryptionKey : Key) : Handler :=
  let storagePluginName := ident_storagePluginName identifier in
  run* result :=
    (if stored_encrypted storagePluginName (cm_encryptionPluginName collectionMetadata) then
       let requiresRelock := negb (key_isEmpty collectionDecryptionKey)
         && relocks (cm_usesDeviceLockKey collectionMetadata) (cm_unlockSemantic collectionMetadata) in
       E_collectionSecretPreCheck storagePluginName (ident_collectionName identifier)
         collectionDecryptionKey requiresRelock (ident_name identifier) newSecret
     else
       S_collectionSecretPreCheck storagePluginName (ident_collectionName identifier)
         (ident_name identifier) newSecret) in
  Finish result [VKey collectionDecryptionKey].

(** The two functions WithAuthenticationCode. *)
Definition preCheckWithAuthenticationCode (newSecret : bool) (identifier : Identifier)
  (collectionMetadata : CollectionMetadata) (authenticationCode : bytes) : Handler :=
  let storagePluginName := ident_storagePluginName identifier in
  let encryptionPluginName := cm_encryptionPluginName collectionMetadata in
  if stored_encrypted storagePluginName encryptionPluginName && negb (hasE env storagePluginName) then
    fail_with InvalidExtensionPluginError
      ("Unknown collection encrypted storage plugin: " +:+ storagePluginName)
  else if negb (stored_encrypted storagePluginName encryptionPluginName)
          && negb (hasC env encryptionPluginName) then
    fail_with InvalidExtensionPluginError
      ("Unknown collection encryption plugin: " +:+ encryptionPluginName)
  else
    with_derived_key storagePluginName encryptionPluginName authenticationCode
      (preCheckWithEncryptionKey newSecret identifier collectionMetadata).

(** The two functions WithMetadata: they register the request with the parameters
    [input] until the user has entered a code, and with two parameters until the
    device lock is open. *)
Definition preCheckWithMetadata (newSecret : bool) (requestType : RequestType)
  (input : QVariantList) (callerPid requestId : Z) (identifier : Identifier)
  (userInteractionMode : UserInteractionMode) (collectionMetadata : CollectionMetadata) : Handler :=
  let storagePluginName := ident_storagePluginName identifier in
  let collectionName := ident_collectionName identifier in
  let authPluginName := collection_auth_plugin env callerPid "" collectionMetadata in
  let proceed := preCheckWithEncryptionKey newSecret identifier collectionMetadata in
  let authenticate operation :=
    if cm_usesDeviceLockKey collectionMetadata then
      device_lock_authentication env callerPid requestId collectionName userInteractionMode
        (mkPending callerPid requestId requestType
           [VIdentifier identifier; VCollectionMetadata collectionMetadata])
    else
      custom_lock_interaction env authPluginName
        ("Unknown collection authentication plugin: " +:+ authPluginName) false callerPid requestId
        (mkInteraction (ident_name identifier) collectionName storagePluginName
           (callerApplicationId env callerPid) operation "" AlphaNumericInput)
        userInteractionMode "" (mkPending callerPid requestId requestType input) in
  match access_denied (callerApplicationId env callerPid)
          ("Collection " +:+ collectionName +:+ " in plugin " +:+ storagePluginName
           +:+ " is owned by a different application") collectionMetadata with
  | Some e => Return e []
  | None =>
  if hasE env storagePluginName then
    wait* '(pluginResult, locked) := E_isCollectionLocked storagePluginName collectionName in
    if negb (ok pluginResult) then Return pluginResult [] else
    if negb locked then proceed noKey else authenticate StoreKey
  else
    with_kept_key env collectionName storagePluginName (λ kept,
      match kept with
      | Some key => proceed key
      | None => authenticate StoreSecret
      end)
  end.

(** [RequestProcessor::useCollectionKeyPreCheckWithEncryptionKey] *)
Definition useCollectionKeyPreCheckWithEncryptionKey (callerPid requestId : Z)
  (identifier : Identifier) (collectionMetadata : CollectionMetadata)
  (collectionDecryptionKey : Key) : Handler :=
  preCheckWithEncryptionKey false identifier collectionMetadata collectionDecryptionKey.

(** [RequestProcessor::useCollectionKeyPreCheckWithAuthenticationCode] *)
Definition useCollectionKeyPreCheckWithAuthenticationCode (callerPid requestId : Z)
  (identifier : Identifier) (operation : Z) (cryptoPluginName : string)
  (userInteractionMode : UserInteractionMode) (collectionMetadata : CollectionMetadata)
  (authenticationCode : bytes) : Handler :=
  preCheckWithAuthenticationCode false identifier collectionMetadata authenticationCode.

(** [RequestProcessor::useCollectionKeyPreCheckWithMetadata] *)
Definition useCollectionKeyPreCheckWithMetadata (callerPid requestId : Z) (identifier : Identifier)
  (operation : Z) (cryptoPluginName : string) (userInteractionMode : UserInteractionMode)
  (collectionMetadata : CollectionMetadata) : Handler :=
  preCheckWithMetadata false UseCollectionKeyPreCheckRequest
    [VIdentifier identifier; VInt operation; VString cryptoPluginName; VInt userInteractionMode;
     VCollectionMetadata collectionMetadata]
    callerPid requestId identifier userInteractionMode collectionMetadata.

(** [RequestProcessor::useCollectionKeyPreCheck] *)
Definition useCollectionKeyPreCheck (callerPid requestId : Z) (identifier : Identifier)
  (operation : Z) (cryptoPluginName : string) (userInteractionMode : UserInteractionMode)
  : Handler :=
  secret_guards env identifier
    (with_collectionMetadata env (ident_storagePluginName identifier)
       (ident_collectionName identifier) [VKey noKey]
       (useCollectionKeyPreCheckWithMetadata callerPid requestId identifier operation
          cryptoPluginName userInteractionMode)).

(** [RequestProcessor::setCollectionKeyPreCheckWithEncryptionKey] *)
Definition setCollectionKeyPreCheckWithEncryptionKey (callerPid requestId : Z)
  (identifier : Identifier) (collectionMetadata : CollectionMetadata)
  (collectionDecryptionKey : Key) : Handler :=
  preCheckWithEncryptionKey true identifier collectionMetadata collectionDecryptionKey.

(** [RequestProcessor::setCollectionKeyPreCheckWithAuthenticationCode] *)
Definition setCollectionKeyPreCheckWithAuthenticationCode (callerPid requestId : Z)
  (identifier : Identifier) (userInteractionMode : UserInteractionMode)
  (collectionMetadata : CollectionMetadata) (authenticationCode : bytes) : Handler :=
  preCheckWithAuthenticationCode true identifier collectionMetadata authenticationCode.

(** [RequestProcessor::setCollectionKeyPreCheckWithMetadata] *)
Definition setCollectionKeyPreCheckWithMetadata (callerPid requestId : Z) (identifier : Identifier)
  (userInteractionMode : UserInteractionMode) (collectionMetadata : CollectionMetadata) : Handler :=
  preCheckWithMetadata true SetCollectionKeyPreCheckRequest
    [VIdentifier identifier; VInt userInteractionMode; VCollectionMetadata collectionMetadata]
    callerPid requestId identifier userInteractionMode collectionMetadata.

(** [RequestProcessor::setCollectionKeyPreCheck] *)
Definition setCollectionKeyPreCheck (callerPid requestId : Z) (identifier : Identifier)
  (userInteractionMode : UserInteractionMode) : Handler :=
  secret_guards env identifier
    (with_collectionMetadata env (ident_storagePluginName identifier)
       (ident_collectionName identifier) [VKey noKey]
       (setCollectionKeyPreCheckWithMetadata callerPid requestId identifier userInteractionMode)).
End processor.
