(* ===== verification/ProcessorStandalone.v ===== *)
(** The request processor: standalone secrets, which belong to no collection
    (secretsrequestprocessor.cpp: setting with the device lock or with a custom
    lock, getting and deleting). *)
From S2P Require Import Prelude Result MetadataDb PluginApi PluginWrapper PluginFunctionWrappers Processor ProcessorCollections ProcessorSecrets.

Section processor.
  Context (env : Environment).

(** The metadata of a standalone secret. *)
Definition secretMetadata_of (storagePluginName name : string) : PluginOp (Result * SecretMetadata) :=
  if hasE env storagePluginName then E_secretMetadata storagePluginName "standalone" name
  else S_secretMetadata storagePluginName "standalone" name.

Definition standalone_hash (name storagePluginName : string) : string :=
  calculateSecretNameHash env (mkIdentifier name "standalone" storagePluginName).

(** The guards that the two requests to set a standalone secret begin with. *)
Definition standalone_guards (i : Identifier) (encryptionPluginName : string) (k : Handler) : Handler :=
  let storagePluginName := ident_storagePluginName i in
  if isEmpty (ident_name i) then fail_with InvalidSecretError "Empty secret name given"
  else if bool_decide (storagePluginName = encryptionPluginName)
          && negb (hasE env storagePluginName) then
    fail_with InvalidExtensionPluginError
      ("No such encrypted storage plugin exists: " +:+ storagePluginName)
  else if negb (bool_decide (storagePluginName = encryptionPluginName))
          && negb (hasS env storagePluginName) then
    fail_with InvalidExtensionPluginError ("No such storage plugin exists: " +:+ storagePluginName)
  else if negb (bool_decide (storagePluginName = encryptionPluginName))
          && negb (hasC env encryptionPluginName) then
    fail_with InvalidExtensionPluginError
      ("No such encryption plugin exists: " +:+ encryptionPluginName)
  else k.

(** Only a standalone secret that does not exist yet is written. *)
Definition unless_exists (storagePluginName name : string) (k : Handler) : Handler :=
  run* '(result, _) := secretMetadata_of storagePluginName name in
  finishing []
    (if failed result && bool_decide (errorCode result = InvalidSecretError) then k
     else if failed result then Return result []
     else fail_with SecretAlreadyExistsError "Cannot overwrite existing standalone secret").

(** The data of the secret is entered by the user. *)
Definition enter_secret (callerPid requestId : Z) (secret : Secret) (uiParams : InteractionParameters)
  (interactionServiceAddress : string) (newMetadata : SecretMetadata) (p : PendingRequest) : Handler :=
  if negb (hasA env (userInputPlugin env uiParams)) then invalid_input_plugin uiParams else
  begin_user_input env (userInputPlugin env uiParams) callerPid requestId
    (mkInteraction (ident_name (secret_identifier secret)) "standalone"
       (ident_storagePluginName (secret_identifier secret)) (sm_ownerApplicationId newMetadata)
       RequestUserData (ip_authenticationPluginName uiParams) (ip_inputType uiParams))
    interactionServiceAddress p.

(** * Setting a secret that the device lock protects *)

(** [RequestProcessor::writeStandaloneDeviceLockSecret] *)
Definition writeStandaloneDeviceLockSecret (callerPid requestId : Z) (secret : Secret)
  (secretMetadata : SecretMetadata) : Handler :=
  let i := secret_identifier secret in
  queue* deviceLockKey := Q_deviceLockKey in
  run* pluginResult :=
    S_encryptAndStoreSecret (sm_encryptionPluginName secretMetadata) (ident_storagePluginName i)
      secretMetadata (setCollectionName "standalone" secret) deviceLockKey in
  if ok pluginResult then
    queue* deviceLockKey := Q_deviceLockKey in
    Put (insert_standalone_key (standalone_hash (ident_name i) (ident_storagePluginName i))
           deviceLockKey)
      (Finish pluginResult [])
  else Finish pluginResult [].

(** [RequestProcessor::setStandaloneDeviceLockSecretWithMetadata] *)
Definition setStandaloneDeviceLockSecretWithMetadata (callerPid requestId : Z) (secret : Secret)
  (uiParams : InteractionParameters) (interactionServiceAddress : string)
  (newMetadata : SecretMetadata) : Handler :=
  if negb (ip_isValid uiParams) then
    writeStandaloneDeviceLockSecret callerPid requestId secret newMetadata
  else
    enter_secret callerPid requestId secret uiParams interactionServiceAddress newMetadata
      (mkPending callerPid requestId SetStandaloneDeviceLockUserInputSecretRequest
         [VSecret secret; VSecretMetadata newMetadata]).

(** [RequestProcessor::setStandaloneDeviceLockSecret] *)
Definition setStandaloneDeviceLockSecret (callerPid requestId : Z) (secret : Secret)
  (encryptionPluginName : string) (uiParams : InteractionParameters) (unlockSemantic : Z)
  (accessControlMode : AccessControlMode) (userInteractionMode : UserInteractionMode)
  (interactionServiceAddress : string) : Handler :=
  let i := secret_identifier secret in
  let storagePluginName := ident_storagePluginName i in
  standalone_guards i encryptionPluginName
  (if bool_decide (accessControlMode = SystemAccessControlMode) then
     fail_with OperationNotSupportedError
       "System access control mode is currently not supported. TODO!"
   else if ip_isValid uiParams && bool_decide (userInteractionMode = PreventInteraction) then
     fail_with OperationRequiresUserInteraction
       "The specified interaction mode precludes requesting secret data from the user"
   else if bool_decide (storagePluginName = encryptionPluginName) || hasE env storagePluginName then
     fail_with OperationNotSupportedError
       "Device-locked standalone secrets cannot be stored in encrypted storage plugins currently"
   else
     let secretMetadata :=
       mkSecretMetadata "standalone" (ident_name i) (callerApplicationId env callerPid) true
         encryptionPluginName (systemAuthenticationPlugin env) unlockSemantic accessControlMode
         (secret_type secret) "" in
     unless_exists storagePluginName (ident_name i)
       (setStandaloneDeviceLockSecretWithMetadata callerPid requestId secret uiParams
          interactionServiceAddress secretMetadata)).

(** * Setting a secret with a lock of its own *)

(** [RequestProcessor::setStandaloneCustomLockSecretWithEncryptionKey] *)
Definition setStandaloneCustomLockSecretWithEncryptionKey (callerPid requestId : Z) (secret : Secret)
  (secretMetadata : SecretMetadata) (encryptionKey : Key) : Handler :=
  let storagePluginName := ident_storagePluginName (secret_identifier secret) in
  let identifiedSecret := setCollectionName "standalone" secret in
  run* pluginResult :=
    (if stored_encrypted storagePluginName (sm_encryptionPluginName secretMetadata) then
       E_setStandaloneSecret storagePluginName secretMetadata identifiedSecret encryptionKey
     else
       S_encryptAndStoreSecret (sm_encryptionPluginName secretMetadata) storagePluginName
         secretMetadata identifiedSecret encryptionKey) in
  if ok pluginResult
     && negb (bool_decide (storagePluginName = sm_encryptionPluginName secretMetadata)) then
    Put (insert_standalone_key
           (standalone_hash (ident_name (secret_identifier secret)) storagePluginName) encryptionKey)
      (Finish pluginResult [])
  else Finish pluginResult [].

(** [RequestProcessor::setStandaloneCustomLockSecretWithAuthenticationCode] *)
Definition setStandaloneCustomLockSecretWithAuthenticationCode (callerPid requestId : Z)
  (secret : Secret) (secretMetadata : SecretMetadata) (authenticationCode : bytes) : Handler :=
  with_derived_key (ident_storagePluginName (secret_identifier secret))
    (sm_encryptionPluginName secretMetadata) authenticationCode
    (setStandaloneCustomLockSecretWithEncryptionKey callerPid requestId secret secretMetadata).

(** [RequestProcessor::setStandaloneCustomLockSecretGetAuthenticationCode] *)
Definition setStandaloneCustomLockSecretGetAuthenticationCode (callerPid requestId : Z)
  (secret : Secret) (userInteractionMode : UserInteractionMode) (interactionServiceAddress : string)
  (secretMetadata : SecretMetadata) : Handler :=
  begin_user_input env (sm_authenticationPluginName secretMetadata) callerPid requestId
    (mkInteraction (ident_name (secret_identifier secret)) "standalone"
       (ident_storagePluginName (secret_identifier secret)) (sm_ownerApplicationId secretMetadata)
       StoreSecret "" AlphaNumericInput)
    interactionServiceAddress
    (mkPending callerPid requestId SetStandaloneCustomLockSecretRequest
       [VSecret secret; VSecretMetadata secretMetadata]).

(** [RequestProcessor::setStandaloneCustomLockSecretWithMetadata] *)
Definition setStandaloneCustomLockSecretWithMetadata (callerPid requestId : Z) (secret : Secret)
  (uiParams : InteractionParameters) (userInteractionMode : UserInteractionMode)
  (interactionServiceAddress : string) (newMetadata : SecretMetadata) : Handler :=
  if negb (ip_isValid uiParams) then
    setStandaloneCustomLockSecretGetAuthenticationCode callerPid requestId secret
      userInteractionMode interactionServiceAddress newMetadata
  else
    enter_secret callerPid requestId secret uiParams interactionServiceAddress newMetadata
      (mkPending callerPid requestId SetStandaloneCustomLockUserInputSecretRequest
         [VSecret secret; VInt userInteractionMode; VString interactionServiceAddress;
          VSecretMetadata newMetadata]).

(** [RequestProcessor::setStandaloneCustomLockSecret].  The authentication plugin
    is used without a test that it exists. *)
Definition setStandaloneCustomLockSecret (callerPid requestId : Z) (secret : Secret)
  (encryptionPluginName authenticationPluginName : string) (uiParams : InteractionParameters)
  (unlockSemantic : Z) (accessControlMode : AccessControlMode)
  (userInteractionMode : UserInteractionMode) (interactionServiceAddress : string) : Handler :=
  let i := secret_identifier secret in
  standalone_guards i encryptionPluginName
  match m_authenticationPlugins env !! authenticationPluginName with
  | None => Crash
  | Some types =>
  if is_application_specific types
     && (negb (bool_decide (userInteractionMode = ApplicationInteraction))
         || isEmpty interactionServiceAddress) then
    fail_with OperationRequiresApplicationUserInteraction
      ("Authentication plugin " +:+ authenticationPluginName +:+ " requires in-process user interaction")
  else if bool_decide (userInteractionMode = PreventInteraction) then
    requires_interaction authenticationPluginName
  else if bool_decide (accessControlMode = SystemAccessControlMode) then
    fail_with OperationNotSupportedError
      "System access control mode is currently not supported. TODO!"
  else
    let secretMetadata :=
      mkSecretMetadata "standalone" (ident_name i) (callerApplicationId env callerPid) false
        encryptionPluginName authenticationPluginName unlockSemantic accessControlMode
        (secret_type secret) "" in
    unless_exists (ident_storagePluginName i) (ident_name i)
      (setStandaloneCustomLockSecretWithMetadata callerPid requestId secret uiParams
         userInteractionMode interactionServiceAddress secretMetadata)
  end.

(** * Getting a secret *)

(** [RequestProcessor::getStandaloneSecretWithEncryptionKey] *)
Definition getStandaloneSecretWithEncryptionKey (callerPid requestId : Z) (identifier : Identifier)
  (userInteractionMode : UserInteractionMode) (interactionServiceAddress : string)
  (secretMetadata : SecretMetadata) (encryptionKey : Key) : Handler :=
  let storagePluginName := ident_storagePluginName identifier in
  let encryptionPluginName := sm_encryptionPluginName secretMetadata in
  let standalone := mkIdentifier (ident_name identifier) "standalone" storagePluginName in
  if stored_encrypted storagePluginName encryptionPluginName then
    run* '(result, (data, filterData)) :=
      E_accessStandaloneSecret storagePluginName (ident_name identifier) encryptionKey in
    Finish result [VSecret (mkSecret standalone data filterData)]
  else
    let hashedSecretName := standalone_hash (ident_name identifier) storagePluginName in
    let read key :=
      run* '(result, secret) :=
        S_getAndDecryptSecret encryptionPluginName storagePluginName standalone key in
      Finish result [VSecret (setCollectionName "" secret)] in
    Get (λ s,
      match m_standaloneSecretEncryptionKeys s !! hashedSecretName with
      | None => Put (insert_standalone_key hashedSecretName encryptionKey) (read encryptionKey)
      | Some key => read key
      end).

(** [RequestProcessor::getStandaloneSecretWithAuthenticationCode] *)
Definition getStandaloneSecretWithAuthenticationCode (callerPid requestId : Z)
  (identifier : Identifier) (userInteractionMode : UserInteractionMode)
  (interactionServiceAddress : string) (secretMetadata : SecretMetadata)
  (authenticationCode : bytes) : Handler :=
  let storagePluginName := ident_storagePluginName identifier in
  let encryptionPluginName := sm_encryptionPluginName secretMetadata in
  if stored_encrypted storagePluginName encryptionPluginName && negb (hasE env storagePluginName) then
    fail_with InvalidExtensionPluginError
      ("Unknown collection encrypted storage plugin: " +:+ storagePluginName)
  else if negb (stored_encrypted storagePluginName encryptionPluginName)
          && negb (hasC env encryptionPluginName) then
    fail_with InvalidExtensionPluginError
      ("Unknown collection encryption plugin: " +:+ encryptionPluginName)
  else
    with_derived_key storagePluginName encryptionPluginName authenticationCode
      (getStandaloneSecretWithEncryptionKey callerPid requestId identifier userInteractionMode
         interactionServiceAddress secretMetadata).

(** [RequestProcessor::getStandaloneSecretWithMetadata] *)
Definition getStandaloneSecretWithMetadata (callerPid requestId : Z) (identifier : Identifier)
  (userInteractionMode : UserInteractionMode) (interactionServiceAddress : string)
  (secretMetadata : SecretMetadata) : Handler :=
  let storagePluginName := ident_storagePluginName identifier in
  let authPluginName :=
    determineAuthPlugin env (sm_ownerApplicationId secretMetadata) (callerApplicationId env callerPid)
      (applicationIsPlatformApplication env callerPid) (sm_authenticationPluginName secretMetadata)
      interactionServiceAddress in
  let p := mkPending callerPid requestId GetStandaloneSecretRequest
             [VIdentifier identifier; VInt userInteractionMode; VString interactionServiceAddress;
              VSecretMetadata secretMetadata] in
  Get (λ s,
    match m_standaloneSecretEncryptionKeys s
            !! standalone_hash (ident_name identifier) storagePluginName with
    | Some key =>
        getStandaloneSecretWithEncryptionKey callerPid requestId identifier userInteractionMode
          interactionServiceAddress secretMetadata key
    | None =>
        if sm_usesDeviceLockKey secretMetadata then
          device_lock_authentication env callerPid requestId (ident_collectionName identifier)
            userInteractionMode p
        else
          custom_lock_interaction env authPluginName
            ("Unknown secret authentication plugin " +:+ authPluginName) false callerPid requestId
            (mkInteraction (ident_name identifier) "" storagePluginName
               (callerApplicationId env callerPid) ReadSecret "" AlphaNumericInput)
            userInteractionMode interactionServiceAddress p
    end).

(** Look up the metadata of a standalone secret and go on with it. *)
Definition with_secretMetadata (storagePluginName name : string) (k : SecretMetadata → Handler)
  : Handler :=
  run* '(result, metadata) := secretMetadata_of storagePluginName name in
  finishing [] (if ok result then k metadata else Return result []).

(** [RequestProcessor::getStandaloneSecret] *)
Definition getStandaloneSecret (callerPid requestId : Z) (identifier : Identifier)
  (userInteractionMode : UserInteractionMode) (interactionServiceAddress : string) : Handler :=
  let storagePluginName := ident_storagePluginName identifier in
  if isEmpty (ident_name identifier) then fail_with InvalidSecretError "Empty secret name given"
  else if negb (isEmpty (ident_collectionName identifier)) then
    fail_with InvalidCollectionError "Non-empty collection given for standalone secret request"
  else if isEmpty storagePluginName then
    fail_with InvalidExtensionPluginError "Empty storage plugin name given"
  else if negb (hasE env storagePluginName) && negb (hasS env storagePluginName) then
    fail_with InvalidExtensionPluginError "Unknown storage plugin name given"
  else
    with_secretMetadata storagePluginName (ident_name identifier)
      (getStandaloneSecretWithMetadata callerPid requestId identifier userInteractionMode
         interactionServiceAddress).

(** * Deleting a secret *)

(** [RequestProcessor::deleteStandaloneSecretWithMetadata] *)
Definition deleteStandaloneSecretWithMetadata (callerPid requestId : Z) (identifier : Identifier)
  (userInteractionMode : UserInteractionMode) (secretMetadata : SecretMetadata) : Handler :=
  let storagePluginName := ident_storagePluginName identifier in
  let encryptionPluginName := sm_encryptionPluginName secretMetadata in
  if bool_decide (sm_accessControlMode secretMetadata = SystemAccessControlMode) then
    fail_with OperationNotSupportedError
      "Access control requests are not currently supported. TODO!"
  else if bool_decide (sm_accessControlMode secretMetadata = OwnerOnlyMode)
          && negb (bool_decide (sm_ownerApplicationId secretMetadata
                                = callerApplicationId env callerPid)) then
    fail_with PermissionsError
      ("Secret " +:+ ident_name identifier +:+ " from collection " +:+ ident_collectionName identifier
       +:+ " in storage plugin " +:+ storagePluginName +:+ " is owned by a different application")
  else if negb (isEmpty encryptionPluginName)
          && negb (bool_decide (storagePluginName = encryptionPluginName))
          && negb (hasC env encryptionPluginName) then
    fail_with InvalidExtensionPluginError
      ("No such encryption plugin exists: " +:+ encryptionPluginName)
  else
    run* pluginResult :=
      (if stored_encrypted storagePluginName encryptionPluginName then
         E_removeSecret storagePluginName (ident_collectionName identifier) (ident_name identifier)
       else S_removeSecret storagePluginName "standalone" (ident_name identifier)) in
    if ok pluginResult && negb (stored_encrypted storagePluginName encryptionPluginName) then
      Put (remove_standalone_key (standalone_hash (ident_name identifier) storagePluginName))
        (Finish pluginResult [])
    else Finish pluginResult [].

(** [RequestProcessor::deleteStandaloneSecret] *)
Definition deleteStandaloneSecret (callerPid requestId : Z) (identifier : Identifier)
  (userInteractionMode : UserInteractionMode) : Handler :=
  with_secretMetadata (ident_storagePluginName identifier) (ident_name identifier)
    (deleteStandaloneSecretWithMetadata callerPid requestId identifier userInteractionMode).
End processor.
