(* ===== verification/ProcessorLocks.v ===== *)
(** The request processor: lock codes of plugins and the master lock
    (secretsrequestprocessor.cpp: querying, changing, providing and forgetting
    lock codes). *)
From S2P Require Import Prelude Result MetadataDb PluginApi PluginWrapper PluginFunctionWrappers Processor ProcessorCollections.

Section processor.
  Context (env : Environment).

(** [RequestProcessor::queryLockStatus] *)
Definition queryLockStatus (callerPid requestId : Z) (lockCodeTargetType : LockCodeTargetType)
  (lockCodeTarget : string) : Handler :=
  if bool_decide (lockCodeTargetType = MetadataDatabase) then
    queue* locked := Q_masterLocked in
    Return (result_of_code Succeeded) [VLockStatus (if (locked : bool) then Locked else Unlocked)]
  else
    wait* '(found, lockStatus) := A_queryLockSpecificPlugin lockCodeTarget in
    if (found : bool) then Return (result_of_code Succeeded) [VLockStatus lockStatus]
    else if hasA env lockCodeTarget then
      ask* supportsLocking := AuthSupportsLocking lockCodeTarget in
      if negb supportsLocking then Return (result_of_code Succeeded) [VLockStatus Unsupported] else
      ask* locked := AuthIsLocked lockCodeTarget in
      Return (result_of_code Succeeded) [VLockStatus (if (locked : bool) then Locked else Unlocked)]
    else
      queue* '(result, lockStatus) := Q_queryLockStatusCryptoPlugin lockCodeTarget in
      Return result [VLockStatus lockStatus].

(** A lock operation on a plugin: on a storage, encrypted storage or encryption
    plugin, or else on an authentication plugin, or else on a crypto plugin. *)
Definition lock_plugin (lockCodeTarget failure : string) (op : PluginOp (option Result))
  (auth : AuthCall bool) (crypto : QueueCall Result) : Handler :=
  wait* found := op in
  match found with
  | Some result => Return result []
  | None =>
  if hasA env lockCodeTarget then
    ask* supportsLocking := AuthSupportsLocking lockCodeTarget in
    if negb supportsLocking then
      fail_with OperationNotSupportedError
        ("Authentication plugin " +:+ lockCodeTarget +:+ " does not support locking")
    else
      ask* done := auth in
      if negb done then fail_with UnknownError (failure +:+ lockCodeTarget)
      else Return (result_of_code Succeeded) []
  else queue* result := crypto in Return result []
  end.

(** Only platform applications may use lock codes; the target of the master lock
    has no name. *)
Definition lock_guards (callerPid : Z) (lockCodeTargetType : LockCodeTargetType)
  (lockCodeTarget verb : string) (k : Handler) : Handler :=
  if bool_decide (lockCodeTargetType = ExtensionPlugin) then
    if negb (applicationIsPlatformApplication env callerPid) then
      fail_with PermissionsError "Only the system settings application can unlock the plugin"
    else k
  else
    if negb (applicationIsPlatformApplication env callerPid) then
      fail_with PermissionsError
        ("Only the system settings application can " +:+ verb +:+ " the secrets database")
    else if negb (isEmpty lockCodeTarget) then
      fail_with OperationNotSupportedError "Invalid target name specified"
    else k.

(** Ask the user for a lock code. *)
Definition enter_lock_code (callerPid requestId : Z) (requestType : RequestType)
  (lockCodeTargetType : LockCodeTargetType) (lockCodeTarget : string)
  (interactionParams request : InteractionParameters) (userInteractionMode : UserInteractionMode)
  (interactionServiceAddress : string) (more : QVariantList) : Handler :=
  if negb (hasA env (userInputPlugin env interactionParams)) then
    invalid_input_plugin interactionParams
  else
    begin_user_input env (userInputPlugin env interactionParams) callerPid requestId request
      interactionServiceAddress
      (mkPending callerPid requestId requestType
         ([VInt lockCodeTargetType; VString lockCodeTarget; VInteractionParameters request;
           VInt userInteractionMode; VString interactionServiceAddress] ++ more)).

(** The interaction parameters of the request, for the operation in hand. *)
Definition lock_request (interactionParams : InteractionParameters) (applicationId : string)
  (operation : Operation) : InteractionParameters :=
  mkInteraction (ip_secretName interactionParams) (ip_collectionName interactionParams)
    (ip_pluginName (copied interactionParams)) applicationId operation
    (userInputPlugin env interactionParams) (ip_inputType interactionParams).

Definition modify_operation (lockCodeTargetType : LockCodeTargetType) : Operation :=
  if bool_decide (lockCodeTargetType = ExtensionPlugin) then ModifyLockPlugin else ModifyLockDatabase.

(** [RequestProcessor::modifyLockCode] *)
Definition modifyLockCode (callerPid requestId : Z) (lockCodeTargetType : LockCodeTargetType)
  (lockCodeTarget : string) (interactionParams : InteractionParameters)
  (userInteractionMode : UserInteractionMode) (interactionServiceAddress : string) : Handler :=
  lock_guards callerPid lockCodeTargetType lockCodeTarget "unlock"
    (enter_lock_code callerPid requestId ModifyLockCodeRequest lockCodeTargetType lockCodeTarget
       interactionParams
       (lock_request interactionParams (callerApplicationId env callerPid)
          (modify_operation lockCodeTargetType))
       userInteractionMode interactionServiceAddress []).

(** [RequestProcessor::modifyLockCodeWithLockCode]: now ask for the new code. *)
Definition modifyLockCodeWithLockCode (callerPid requestId : Z)
  (lockCodeTargetType : LockCodeTargetType) (lockCodeTarget : string)
  (interactionParams : InteractionParameters) (userInteractionMode : UserInteractionMode)
  (interactionServiceAddress : string) (oldLockCode : bytes) : Handler :=
  enter_lock_code callerPid requestId ModifyLockCodeRequest lockCodeTargetType lockCodeTarget
    interactionParams
    (lock_request interactionParams (ip_applicationId interactionParams)
       (modify_operation lockCodeTargetType))
    userInteractionMode interactionServiceAddress [VByteArray oldLockCode].

(** Run an operation on each plugin of a list, one after the other, whatever the
    results. *)
Fixpoint on_each (op : string → PluginOp Result) (plugins : list string) (k : Handler) : Handler :=
  match plugins with
  | [] => k
  | p :: plugins' =>
      wait* result := op p in
      on_each op plugins' k
  end.

(** [QMap::values]: the plugins in the order of their names. *)
Definition plugin_names (plugins : gset string) : list string :=
  merge_sort string_le (elements plugins).

(** [RequestProcessor::modifyLockCodeWithLockCodes] *)
Definition modifyLockCodeWithLockCodes (callerPid requestId : Z)
  (lockCodeTargetType : LockCodeTargetType) (lockCodeTarget : string)
  (interactionParams : InteractionParameters) (userInteractionMode : UserInteractionMode)
  (interactionServiceAddress : string) (oldLockCode newLockCode : bytes) : Handler :=
  if bool_decide (lockCodeTargetType = ExtensionPlugin) then
    lock_plugin lockCodeTarget "Failed to set the lock code for authentication plugin "
      (A_modifyLockSpecificPlugin lockCodeTarget oldLockCode newLockCode)
      (AuthSetLockCode lockCodeTarget oldLockCode newLockCode)
      (Q_setLockCodeCryptoPlugin lockCodeTarget oldLockCode newLockCode)
  else
    queue* correct := Q_testLockCode oldLockCode in
    if negb correct then
      fail_with IncorrectAuthenticationCodeError "The given old lock code was incorrect"
    else
    queue* oldBkdbLockKey := Q_bkdbLockKey in
    queue* oldDeviceLockKey := Q_deviceLockKeyCopy in
    queue* _initialized := Q_initialize newLockCode ModifyLockMode in
    queue* newBkdbLockKey := Q_bkdbLockKey in
    wait* _reencrypted := A_modifyMasterLockPlugins oldBkdbLockKey newBkdbLockKey in
    queue* newDeviceLockKey := Q_deviceLockKey in
    on_each (λ p, E_unlockDeviceLockedCollectionsAndReencrypt p (Copy oldDeviceLockKey) newDeviceLockKey)
      (plugin_names (m_encryptedStoragePlugins env))
    (on_each (λ p, S_reencryptDeviceLockedCollectionsAndSecrets p (Copy oldDeviceLockKey) newDeviceLockKey)
      (plugin_names (m_storagePlugins env))
    (Return (result_of_code Succeeded) [])).

(** [RequestProcessor::provideLockCode] *)
Definition provideLockCode (callerPid requestId : Z) (lockCodeTargetType : LockCodeTargetType)
  (lockCodeTarget : string) (interactionParams : InteractionParameters)
  (userInteractionMode : UserInteractionMode) (interactionServiceAddress : string) : Handler :=
  let enter operation :=
    enter_lock_code callerPid requestId ProvideLockCodeRequest lockCodeTargetType lockCodeTarget
      interactionParams
      (lock_request interactionParams (callerApplicationId env callerPid) operation)
      userInteractionMode interactionServiceAddress [] in
  lock_guards callerPid lockCodeTargetType lockCodeTarget "unlock"
  (if bool_decide (lockCodeTargetType = ExtensionPlugin) then enter UnlockPlugin
   else
     queue* noLockCode := Q_noLockCode in
     if (noLockCode : bool) then
       queue* initialized := Q_initialize "" UnlockMode in
       if negb initialized then
         fail_with UnknownError "Unable to initialize key data from null lock code"
       else
       queue* key := Q_bkdbLockKey in
       wait* _unlocked := A_masterUnlockPlugins key in
       Return (result_of_code Succeeded) []
     else enter UnlockDatabase).

(** [RequestProcessor::provideLockCodeWithLockCode] *)
Definition provideLockCodeWithLockCode (callerPid requestId : Z)
  (lockCodeTargetType : LockCodeTargetType) (lockCodeTarget : string)
  (interactionParams : InteractionParameters) (userInteractionMode : UserInteractionMode)
  (interactionServiceAddress : string) (lockCode : bytes) : Handler :=
  if bool_decide (lockCodeTargetType = ExtensionPlugin) then
    lock_plugin lockCodeTarget "Failed to unlock authentication plugin "
      (A_unlockSpecificPlugin lockCodeTarget lockCode)
      (AuthUnlock lockCodeTarget lockCode)
      (Q_unlockCryptoPlugin lockCodeTarget lockCode)
  else
    queue* correct := Q_testLockCode lockCode in
    if negb correct then
      fail_with IncorrectAuthenticationCodeError "The given lock code was incorrect"
    else
    queue* initialized := Q_initialize lockCode UnlockMode in
    if negb initialized then
      fail_with UnknownError "Unable to initialize key data to unlock metadata databases"
    else
    queue* key := Q_bkdbLockKey in
    wait* _unlocked := A_masterUnlockPlugins key in
    Return (result_of_code Succeeded) [].

(** The code that stands for no key. *)
Definition forgotten_code : bytes :=
  "ffffffffffffffffffffffffffffffffffffffffffffffffffffffffffffffff".

(** [RequestProcessor::forgetLockCode] *)
Definition forgetLockCode (callerPid requestId : Z) (lockCodeTargetType : LockCodeTargetType)
  (lockCodeTarget : string) (interactionParams : InteractionParameters)
  (userInteractionMode : UserInteractionMode) (interactionServiceAddress : string) : Handler :=
  lock_guards callerPid lockCodeTargetType lockCodeTarget "lock"
  (if bool_decide (lockCodeTargetType = ExtensionPlugin) then
     lock_plugin lockCodeTarget "Failed to lock authentication plugin "
       (A_lockSpecificPlugin lockCodeTarget) (AuthLock lockCodeTarget)
       (Q_lockCryptoPlugin lockCodeTarget)
   else
     queue* initialized := Q_initialize forgotten_code LockMode in
     if negb initialized then
       fail_with UnknownError "Unable to re-initialize key data to lock the secrets service"
     else
     wait* _locked := A_masterLockPlugins in
     Return (result_of_code Succeeded) []).
End processor.
