(* ===== verification/ProcessorCompletion.v ===== *)
(** The request processor: what happens when the user has entered what was asked
    for, or has opened the device lock (secretsrequestprocessor.cpp,
    [userInputInteractionCompleted] and [authenticationCompleted]).

    The arguments of the call that continues a request are taken from the
    request's list of parameters, one [takeFirst] per argument of one call.  C++
    leaves open in which order they are evaluated; the order is a parameter
    here. *)
From S2P Require Import Prelude Result MetadataDb PluginApi PluginWrapper PluginFunctionWrappers Processor ProcessorCollections ProcessorSecrets ProcessorStandalone ProcessorLocks.

(** The order in which a compiler evaluates the arguments of a call. *)
Inductive EvaluationOrder := LeftToRight | RightToLeft.

(** The values that the arguments of a call get if each is taken from the front
    of a list. *)
Definition arguments (order : EvaluationOrder) (params : QVariantList) : QVariantList :=
  match order with LeftToRight => params | RightToLeft => reverse params end.

Section processor.
  Context (env : Environment) (order : EvaluationOrder).

Definition incorrect_count : Handler :=
  fail_with UnknownError "Internal error: incorrect parameter count!".

(** Check the number of parameters. *)
Definition expecting (n : nat) (params : QVariantList) (h : Handler) : Handler :=
  if negb (bool_decide (length params = n)) then incorrect_count else h.

(** The switch of [userInputInteractionCompleted]: the requests about lock codes,
    for input, and of the crypto service; *)
Definition continue_other_with_input (pr : PendingRequest) (result : Result) (userInput : bytes) : Handler :=
  let pid := pr_callerPid pr in
  let id := pr_requestId pr in
  let params := pr_parameters pr in
  match pr_requestType pr with
  | ModifyLockCodeRequest =>
      if bool_decide (length params = 5) then
        match arguments order params with
        | [VInt type; VString target; VInteractionParameters ip; VInt mode; VString address] =>
            modifyLockCodeWithLockCode env pid id type target ip mode address userInput
        | _ => Mismatch
        end
      else if bool_decide (length params = 6) then
        match arguments order params with
        | [VInt type; VString target; VInteractionParameters ip; VInt mode; VString address;
           VByteArray oldLockCode] =>
            modifyLockCodeWithLockCodes env pid id type target ip mode address oldLockCode userInput
        | _ => Mismatch
        end
      else incorrect_count
  | ProvideLockCodeRequest => expecting 5 params
      match arguments order params with
      | [VInt type; VString target; VInteractionParameters ip; VInt mode; VString address] =>
          provideLockCodeWithLockCode env pid id type target ip mode address userInput
      | _ => Mismatch
      end
  | UserInputRequest => expecting 1 params (Finish result [VByteArray userInput])
  | UseCollectionKeyPreCheckRequest => expecting 5 params
      match arguments order params with
      | [VIdentifier identifier; VInt operation; VString cryptoPluginName; VInt mode;
         VCollectionMetadata md] =>
          useCollectionKeyPreCheckWithAuthenticationCode env pid id identifier operation
            cryptoPluginName mode md userInput
      | _ => Mismatch
      end
  | SetCollectionKeyPreCheckRequest => expecting 3 params
      match arguments order params with
      | [VIdentifier identifier; VInt mode; VCollectionMetadata md] =>
          setCollectionKeyPreCheckWithAuthenticationCode env pid id identifier mode md userInput
      | _ => Mismatch
      end
  | StoredKeyIdentifiersRequest => expecting 6 params
      match arguments order params with
      | [VString collectionName; VString storagePluginName; VMap custom; VInt mode; VString address;
         VCollectionMetadata md] =>
          storedKeyIdentifiersWithAuthenticationCode env pid id collectionName storagePluginName
            custom mode address md userInput
      | _ => Mismatch
      end
  | _ => fail_with UnknownError
           "Internal error: unknown continuation for asynchronous request!"
  end.

(** reading, finding and deleting; *)
Definition continue_reading_with_input (pr : PendingRequest) (result : Result) (userInput : bytes) : Handler :=
  let pid := pr_callerPid pr in
  let id := pr_requestId pr in
  let params := pr_parameters pr in
  match pr_requestType pr with
  | GetCollectionSecretRequest => expecting 4 params
      match arguments order params with
      | [VIdentifier identifier; VInt mode; VString address; VCollectionMetadata md] =>
          getCollectionSecretWithAuthenticationCode env pid id identifier mode address md userInput
      | _ => Mismatch
      end
  | GetStandaloneSecretRequest => expecting 4 params
      match arguments order params with
      | [VIdentifier identifier; VInt mode; VString address; VSecretMetadata md] =>
          getStandaloneSecretWithAuthenticationCode env pid id identifier mode address md userInput
      | _ => Mismatch
      end
  | FindCollectionSecretsRequest => expecting 7 params
      match arguments order params with
      | [VString collectionName; VString storagePluginName; VFilterData flt; VFilterOperator op;
         VInt mode; VString address; VCollectionMetadata md] =>
          findCollectionSecretsWithAuthenticationCode env pid id collectionName storagePluginName
            flt op mode address md userInput
      | _ => Mismatch
      end
  | DeleteCollectionRequest => expecting 5 params
      match arguments order params with
      | [VString collectionName; VString storagePluginName; VInt mode; VString address;
         VCollectionMetadata md] =>
          deleteCollectionWithLockCode env pid id collectionName storagePluginName mode address md
            userInput
      | _ => Mismatch
      end
  | DeleteCollectionSecretRequest => expecting 4 params
      match arguments order params with
      | [VIdentifier identifier; VInt mode; VString address; VCollectionMetadata md] =>
          deleteCollectionSecretWithAuthenticationCode env pid id identifier mode address md
            userInput
      | _ => Mismatch
      end
  | _ => continue_other_with_input pr result userInput
  end.

(** creating and setting. *)
Definition continue_with_input (pr : PendingRequest) (result : Result) (userInput : bytes) : Handler :=
  let pid := pr_callerPid pr in
  let id := pr_requestId pr in
  let params := pr_parameters pr in
  match pr_requestType pr with
  | CreateCustomLockCollectionRequest => expecting 8 params
      match arguments order params with
      | [VString collectionName; VString storagePluginName; VString encryptionPluginName;
         VString authenticationPluginName; VInt unlockSemantic; VInt accessControlMode;
         VInt mode; VString address] =>
          createCustomLockCollectionWithAuthenticationCode env pid id collectionName
            storagePluginName encryptionPluginName authenticationPluginName unlockSemantic
            accessControlMode mode address userInput
      | _ => Mismatch
      end
  | SetCollectionUserInputSecretRequest => expecting 5 params
      match params with
      | VSecret secret :: VInteractionParameters _ :: rest =>
          match arguments order rest with
          | [VInt mode; VString address; VCollectionMetadata md] =>
              setCollectionSecretGetAuthenticationCode env pid id (setData userInput secret) mode
                address md
          | _ => Mismatch
          end
      | _ => Mismatch
      end
  | SetCollectionSecretRequest => expecting 4 params
      match arguments order params with
      | [VSecret secret; VInt mode; VString address; VCollectionMetadata md] =>
          setCollectionSecretWithAuthenticationCode env pid id secret mode address md userInput
      | _ => Mismatch
      end
  | SetStandaloneDeviceLockUserInputSecretRequest => expecting 2 params
      match params with
      | [VSecret secret; VSecretMetadata md] =>
          writeStandaloneDeviceLockSecret env pid id (setData userInput secret) md
      | _ => Mismatch
      end
  | SetStandaloneCustomLockUserInputSecretRequest => expecting 4 params
      match params with
      | VSecret secret :: rest =>
          match arguments order rest with
          | [VInt mode; VString address; VSecretMetadata md] =>
              setStandaloneCustomLockSecretGetAuthenticationCode env pid id
                (setData userInput secret) mode address md
          | _ => Mismatch
          end
      | _ => Mismatch
      end
  | SetStandaloneCustomLockSecretRequest => expecting 2 params
      match arguments order params with
      | [VSecret secret; VSecretMetadata md] =>
          setStandaloneCustomLockSecretWithAuthenticationCode env pid id secret md userInput
      | _ => Mismatch
      end
  | _ => continue_reading_with_input pr result userInput
  end.

(** The switch of [authenticationCompleted], the later cases; [deviceLockKey] is
    the last argument of the call. *)
Definition continue_other_authenticated (pr : PendingRequest) : Handler :=
  let pid := pr_callerPid pr in
  let id := pr_requestId pr in
  let params := pr_parameters pr in
  match pr_requestType pr with
  | FindCollectionSecretsRequest => expecting 7 params
      match arguments order params with
      | [VString collectionName; VString storagePluginName; VFilterData flt; VFilterOperator op;
         VInt mode; VString address; VCollectionMetadata md] =>
          queue* deviceLockKey := Q_deviceLockKey in
          findCollectionSecretsWithEncryptionKey env pid id collectionName storagePluginName flt op
            mode address md deviceLockKey
      | _ => Mismatch
      end
  | DeleteCollectionSecretRequest => expecting 4 params
      match arguments order params with
      | [VIdentifier identifier; VInt mode; VString address; VCollectionMetadata md] =>
          queue* deviceLockKey := Q_deviceLockKey in
          deleteCollectionSecretWithEncryptionKey env pid id identifier mode address md deviceLockKey
      | _ => Mismatch
      end
  | UseCollectionKeyPreCheckRequest => expecting 2 params
      match arguments order params with
      | [VIdentifier identifier; VCollectionMetadata md] =>
          queue* deviceLockKey := Q_deviceLockKey in
          useCollectionKeyPreCheckWithEncryptionKey pid id identifier md deviceLockKey
      | _ => Mismatch
      end
  | SetCollectionKeyPreCheckRequest => expecting 2 params
      match arguments order params with
      | [VIdentifier identifier; VCollectionMetadata md] =>
          queue* deviceLockKey := Q_deviceLockKey in
          setCollectionKeyPreCheckWithEncryptionKey pid id identifier md deviceLockKey
      | _ => Mismatch
      end
  | _ => fail_with UnknownError
           "Internal error: unknown continuation for authenticated request!"
  end.

(** The earlier cases. *)
Definition continue_authenticated (pr : PendingRequest) : Handler :=
  let pid := pr_callerPid pr in
  let id := pr_requestId pr in
  let params := pr_parameters pr in
  match pr_requestType pr with
  | DeleteCollectionRequest => expecting 5 params
      match arguments order params with
      | [VString collectionName; VString storagePluginName; VInt mode; VString address;
         VCollectionMetadata md] =>
          queue* deviceLockKey := Q_deviceLockKey in
          deleteCollectionWithEncryptionKey env pid id collectionName storagePluginName mode address
            md deviceLockKey
      | _ => Mismatch
      end
  | StoredKeyIdentifiersRequest => expecting 6 params
      match arguments order params with
      | [VString collectionName; VString storagePluginName; VMap custom; VInt mode; VString address;
         VCollectionMetadata md] =>
          queue* deviceLockKey := Q_deviceLockKey in
          storedKeyIdentifiersWithEncryptionKey env pid id collectionName storagePluginName custom
            mode address md deviceLockKey true
      | _ => Mismatch
      end
  | SetCollectionSecretRequest => expecting 4 params
      match arguments order params with
      | [VSecret secret; VInt mode; VString address; VCollectionMetadata md] =>
          queue* deviceLockKey := Q_deviceLockKey in
          setCollectionSecretWithEncryptionKey env pid id secret mode address md deviceLockKey
      | _ => Mismatch
      end
  | GetCollectionSecretRequest => expecting 4 params
      match arguments order params with
      | [VIdentifier identifier; VInt mode; VString address; VCollectionMetadata md] =>
          queue* deviceLockKey := Q_deviceLockKey in
          getCollectionSecretWithEncryptionKey env pid id identifier mode address md deviceLockKey
      | _ => Mismatch
      end
  | GetStandaloneSecretRequest => expecting 4 params
      match arguments order params with
      | [VIdentifier identifier; VInt mode; VString address; VSecretMetadata md] =>
          queue* deviceLockKey := Q_deviceLockKey in
          getStandaloneSecretWithEncryptionKey env pid id identifier mode address md deviceLockKey
      | _ => Mismatch
      end
  | _ => continue_other_authenticated pr
  end.

(** Take the pending request and continue it, if the interaction succeeded. *)
Definition complete (requestId : Z) (result : Result) (unknown : string)
  (continue : PendingRequest → Handler) : Handler :=
  if negb (ok result) then finishing [] (Return result []) else
  Get (λ s,
    match m_pendingRequests s !! requestId with
    | None => finishing [] (fail_with UnknownError unknown)
    | Some pr => Put (remove_pending requestId) (finishing [] (continue pr))
    end).

(** [RequestProcessor::userInputInteractionCompleted] *)
Definition userInputInteractionCompleted (callerPid requestId : Z) (result : Result)
  (userInput : bytes) : Handler :=
  complete requestId result "Internal error: failed to finish unknown pending request!"
    (λ pr, continue_with_input pr result userInput).

(** [RequestProcessor::authenticationCompleted] *)
Definition authenticationCompleted (callerPid requestId : Z) (result : Result) : Handler :=
  complete requestId result
    "Internal error: failed to finish unknown pending authenticated request!" continue_authenticated.
End processor.
