(* ===== verification/SecretsService.v ===== *)
(** The secrets service (daemon/SecretsImpl/secrets.cpp): the D-Bus object, which
    turns a call into a request with a list of parameters; the dispatch of a
    request to the processor, which takes the parameters apart again; and the
    reply.  The crypto service makes requests of its own (secretscryptohelpers.cpp). *)
From S2P Require Import Prelude Result MetadataDb PluginApi PluginWrapper PluginFunctionWrappers Processor ProcessorCollections ProcessorSecrets ProcessorStandalone ProcessorLocks.

(** The methods of [SecretsDBusObject] that have arguments, and the health
    check. *)
Inductive DBusCall :=
  | DGetHealthInfo
  | DUserInput (uiParams : InteractionParameters)
  | DCollectionNames (storagePluginName : string)
  | DCreateDeviceLockCollection (collectionName storagePluginName encryptionPluginName : string)
      (unlockSemantic : Z) (accessControlMode : AccessControlMode)
  | DCreateCustomLockCollection
      (collectionName storagePluginName encryptionPluginName authenticationPluginName : string)
      (unlockSemantic : Z) (accessControlMode : AccessControlMode) (mode : UserInteractionMode)
      (address : string)
  | DDeleteCollection (collectionName storagePluginName : string) (mode : UserInteractionMode)
      (address : string)
  | DSetSecret (secret : Secret) (uiParams : InteractionParameters) (mode : UserInteractionMode)
      (address : string)
  | DSetDeviceLockSecret (secret : Secret) (encryptionPluginName : string)
      (uiParams : InteractionParameters) (unlockSemantic : Z) (accessControlMode : AccessControlMode)
      (mode : UserInteractionMode) (address : string)
  | DSetCustomLockSecret (secret : Secret) (encryptionPluginName authenticationPluginName : string)
      (uiParams : InteractionParameters) (unlockSemantic : Z) (accessControlMode : AccessControlMode)
      (mode : UserInteractionMode) (address : string)
  | DGetSecret (identifier : Identifier) (mode : UserInteractionMode) (address : string)
  | DFindSecrets (collectionName storagePluginName : string) (flt : FilterData)
      (op : FilterOperator) (mode : UserInteractionMode) (address : string)
  | DDeleteSecret (identifier : Identifier) (mode : UserInteractionMode) (address : string)
  | DQueryLockStatus (type : LockCodeTargetType) (target : string)
  | DModifyLockCode (type : LockCodeTargetType) (target : string) (ip : InteractionParameters)
      (mode : UserInteractionMode) (address : string)
  | DProvideLockCode (type : LockCodeTargetType) (target : string) (ip : InteractionParameters)
      (mode : UserInteractionMode) (address : string)
  | DForgetLockCode (type : LockCodeTargetType) (target : string) (ip : InteractionParameters)
      (mode : UserInteractionMode) (address : string).

Section service.
  Context (env : Environment).

(** [mapPluginNames], for each type of argument. *)
Definition map_identifier (i : Identifier) : Identifier :=
  mkIdentifier (ident_name i) (ident_collectionName i)
    (mappedPluginName env (ident_storagePluginName i)).

Definition map_secret (s : Secret) : Secret :=
  mkSecret (map_identifier (secret_identifier s)) (secret_data s) (secret_filterData s).

Definition map_interaction (ip : InteractionParameters) : InteractionParameters :=
  mkInteraction (ip_secretName ip) (ip_collectionName ip) (mappedPluginName env (ip_pluginName ip))
    (ip_applicationId ip) (ip_operation ip) (mappedPluginName env (ip_authenticationPluginName ip))
    (ip_inputType ip).

(** [Secret::Identifier::identifiesStandaloneSecret] *)
Definition identifiesStandaloneSecret (i : Identifier) : bool := isEmpty (ident_collectionName i).

(** * The methods of [SecretsDBusObject]: the type and the parameters of the
    request that is queued *)

Definition mapped (p : string) : QVariant := VString (mappedPluginName env p).

(** [getHealthInfo] *)
Definition dbus_getHealthInfo : RequestType * QVariantList := (GetHealthInfoRequest, []).

(** [userInput] *)
Definition dbus_userInput (uiParams : InteractionParameters) : RequestType * QVariantList :=
  (UserInputRequest,
   [VInteractionParameters
      (mkInteraction "" "" "" (ip_applicationId uiParams) RequestUserData
         (mappedPluginName env (ip_authenticationPluginName uiParams)) (ip_inputType uiParams))]).

(** [collectionNames] *)
Definition dbus_collectionNames (p : string) : RequestType * QVariantList :=
  (CollectionNamesRequest, [mapped p]).

(** [createCollection], with the device lock *)
Definition dbus_createDeviceLockCollection (c p e : string) (semantic : Z) (access : AccessControlMode)
  : RequestType * QVariantList :=
  (CreateDeviceLockCollectionRequest, [VString c; mapped p; mapped e; VInt semantic; VInt access]).

(** [createCollection], with a lock of its own *)
Definition dbus_createCustomLockCollection (c p e a : string) (semantic : Z)
  (access : AccessControlMode) (mode : UserInteractionMode) (address : string)
  : RequestType * QVariantList :=
  (CreateCustomLockCollectionRequest,
   [VString c; mapped p; mapped e; mapped a; VInt semantic; VInt access; VInt mode; VString address]).

(** [deleteCollection] *)
Definition dbus_deleteCollection (c p : string) (mode : UserInteractionMode) (address : string)
  : RequestType * QVariantList :=
  (DeleteCollectionRequest, [VString c; mapped p; VInt mode; VString address]).

(** [setSecret], in a collection *)
Definition dbus_setSecret (secret : Secret) (uiParams : InteractionParameters)
  (mode : UserInteractionMode) (address : string) : RequestType * QVariantList :=
  (SetCollectionSecretRequest,
   [VSecret (map_secret secret); VInteractionParameters uiParams; VInt mode; VString address]).

(** [setSecret], standalone with the device lock *)
Definition dbus_setDeviceLockSecret (secret : Secret) (e : string) (uiParams : InteractionParameters)
  (semantic : Z) (access : AccessControlMode) (mode : UserInteractionMode) (address : string)
  : RequestType * QVariantList :=
  (SetStandaloneDeviceLockSecretRequest,
   [VSecret (map_secret secret); mapped e; VInteractionParameters (map_interaction uiParams);
    VInt semantic; VInt access; VInt mode; VString address]).

(** [setSecret], standalone with a lock of its own *)
Definition dbus_setCustomLockSecret (secret : Secret) (e a : string)
  (uiParams : InteractionParameters) (semantic : Z) (access : AccessControlMode)
  (mode : UserInteractionMode) (address : string) : RequestType * QVariantList :=
  (SetStandaloneCustomLockSecretRequest,
   [VSecret (map_secret secret); mapped e; mapped a;
    VInteractionParameters (map_interaction uiParams); VInt semantic; VInt access; VInt mode;
    VString address]).

(** [getSecret] *)
Definition dbus_getSecret (i : Identifier) (mode : UserInteractionMode) (address : string)
  : RequestType * QVariantList :=
  (if identifiesStandaloneSecret i then GetStandaloneSecretRequest else GetCollectionSecretRequest,
   [VIdentifier (map_identifier i); VInt mode; VString address]).

(** [findSecrets] *)
Definition dbus_findSecrets (c p : string) (flt : FilterData) (op : FilterOperator)
  (mode : UserInteractionMode) (address : string) : RequestType * QVariantList :=
  (if isEmpty c then FindStandaloneSecretsRequest else FindCollectionSecretsRequest,
   (if isEmpty c then [] else [VString c])
   ++ [mapped p; VFilterData flt; VFilterOperator op; VInt mode; VString address]).

(** [deleteSecret] *)
Definition dbus_deleteSecret (i : Identifier) (mode : UserInteractionMode) (address : string)
  : RequestType * QVariantList :=
  (if identifiesStandaloneSecret i then DeleteStandaloneSecretRequest
   else DeleteCollectionSecretRequest,
   [VIdentifier (map_identifier i); VInt mode; VString address]).

(** [queryLockStatus] *)
Definition dbus_queryLockStatus (type : LockCodeTargetType) (target : string)
  : RequestType * QVariantList := (QueryLockStatusRequest, [VInt type; mapped target]).

Definition lock_params (type : LockCodeTargetType) (target : string) (ip : InteractionParameters)
  (mode : UserInteractionMode) (address : string) : QVariantList :=
  [VInt type; mapped target; VInteractionParameters (map_interaction ip); VInt mode; VString address].

(** [modifyLockCode] *)
Definition dbus_modifyLockCode (type : LockCodeTargetType) (target : string)
  (ip : InteractionParameters) (mode : UserInteractionMode) (address : string)
  : RequestType * QVariantList := (ModifyLockCodeRequest, lock_params type target ip mode address).

(** [provideLockCode] *)
Definition dbus_provideLockCode (type : LockCodeTargetType) (target : string)
  (ip : InteractionParameters) (mode : UserInteractionMode) (address : string)
  : RequestType * QVariantList := (ProvideLockCodeRequest, lock_params type target ip mode address).

(** [forgetLockCode] *)
Definition dbus_forgetLockCode (type : LockCodeTargetType) (target : string)
  (ip : InteractionParameters) (mode : UserInteractionMode) (address : string)
  : RequestType * QVariantList := (ForgetLockCodeRequest, lock_params type target ip mode address).

(** All methods together. *)
Definition SecretsDBusObject (c : DBusCall) : RequestType * QVariantList :=
  match c with
  | DGetHealthInfo => dbus_getHealthInfo
  | DUserInput uiParams => dbus_userInput uiParams
  | DCollectionNames p => dbus_collectionNames p
  | DCreateDeviceLockCollection c p e semantic access =>
      dbus_createDeviceLockCollection c p e semantic access
  | DCreateCustomLockCollection c p e a semantic access mode address =>
      dbus_createCustomLockCollection c p e a semantic access mode address
  | DDeleteCollection c p mode address => dbus_deleteCollection c p mode address
  | DSetSecret secret uiParams mode address => dbus_setSecret secret uiParams mode address
  | DSetDeviceLockSecret secret e uiParams semantic access mode address =>
      dbus_setDeviceLockSecret secret e uiParams semantic access mode address
  | DSetCustomLockSecret secret e a uiParams semantic access mode address =>
      dbus_setCustomLockSecret secret e a uiParams semantic access mode address
  | DGetSecret i mode address => dbus_getSecret i mode address
  | DFindSecrets c p flt op mode address => dbus_findSecrets c p flt op mode address
  | DDeleteSecret i mode address => dbus_deleteSecret i mode address
  | DQueryLockStatus type target => dbus_queryLockStatus type target
  | DModifyLockCode type target ip mode address => dbus_modifyLockCode type target ip mode address
  | DProvideLockCode type target ip mode address => dbus_provideLockCode type target ip mode address
  | DForgetLockCode type target ip mode address => dbus_forgetLockCode type target ip mode address
  end.

(** * Requests of the crypto service (secretscryptohelpers.cpp) *)

(** The functions of the queue that the crypto service calls. *)
Inductive CryptoHelperCall :=
  | HStoreKeyPreCheck (identifier : Identifier)
  | HStoreKey (identifier : Identifier) (serializedKey : bytes) (filterData : FilterData)
      (collectionDecryptionKey : Key)
  | HDeleteStoredKey (identifier : Identifier)
  | HStoredKeyIdentifiers (collectionName storagePluginName : string) (custom : QVariantMap)
  | HUseKeyPreCheck (identifier : Identifier) (operation : Z) (cryptoPluginName : string)
  | HStoredKey (identifier : Identifier)
  | HUserInput (uiParams : InteractionParameters)
  | HQueryLockStatus (cryptoPluginName : string)
  | HModifyLockCode (cryptoPluginName : string) (uiParams : InteractionParameters)
  | HProvideLockCode (cryptoPluginName : string) (uiParams : InteractionParameters)
  | HForgetLockCode (cryptoPluginName : string) (uiParams : InteractionParameters).

(** [Secret::TypeCryptoKey] *)
Definition TypeCryptoKey : string := "CryptoKey".

(** The requests that are queued, with their parameters. *)

Definition crypto_lock_params (p : string) (ip : InteractionParameters) : QVariantList :=
  [VInt ExtensionPlugin; VString p; VInteractionParameters ip; VInt SystemInteraction; VString ""].

(** [storeKeyPreCheck] *)
Definition crypto_storeKeyPreCheck (i : Identifier) : RequestType * QVariantList :=
  (SetCollectionKeyPreCheckRequest, [VIdentifier i; VInt SystemInteraction]).

(** [storeKey] *)
Definition crypto_storeKey (i : Identifier) (data : bytes) (fd : FilterData) (key : Key) : RequestType * QVariantList :=
  (SetCollectionKeyRequest,
   [VSecret (mkSecret i data (<["Type" := TypeCryptoKey]> fd)); VInt SystemInteraction; VKey key]).

(** [deleteStoredKey] *)
Definition crypto_deleteStoredKey (i : Identifier) : RequestType * QVariantList :=
  (DeleteCollectionSecretRequest, [VIdentifier i; VInt SystemInteraction; VString ""]).

(** [storedKeyIdentifiers] *)
Definition crypto_storedKeyIdentifiers (c p : string) (custom : QVariantMap) : RequestType * QVariantList :=
  (StoredKeyIdentifiersRequest,
   [VString c; VString p; VMap custom; VInt SystemInteraction; VString ""]).

(** [useKeyPreCheck] *)
Definition crypto_useKeyPreCheck (i : Identifier) (operation : Z) (p : string) : RequestType * QVariantList :=
  (UseCollectionKeyPreCheckRequest,
   [VIdentifier i; VInt operation; VString p; VInt SystemInteraction]).

(** [storedKey] *)
Definition crypto_storedKey (i : Identifier) : RequestType * QVariantList :=
  (GetCollectionSecretRequest, [VIdentifier i; VInt SystemInteraction; VString ""]).

(** [userInput] *)
Definition crypto_userInput (uiParams : InteractionParameters) : RequestType * QVariantList :=
  (UserInputRequest, [VInteractionParameters uiParams]).

(** [queryCryptoPluginLockStatus] *)
Definition crypto_queryCryptoPluginLockStatus (p : string) : RequestType * QVariantList :=
  (QueryLockStatusRequest,
   [VInt (if isEmpty p then MetadataDatabase else ExtensionPlugin); VString p]).

(** [modifyCryptoPluginLockCode] *)
Definition crypto_modifyCryptoPluginLockCode (p : string) (ip : InteractionParameters) : RequestType * QVariantList :=
  (ModifyLockCodeRequest, crypto_lock_params p ip).

(** [provideCryptoPluginLockCode] *)
Definition crypto_provideCryptoPluginLockCode (p : string) (ip : InteractionParameters) : RequestType * QVariantList :=
  (ProvideLockCodeRequest, crypto_lock_params p ip).

(** [forgetCryptoPluginLockCode] *)
Definition crypto_forgetCryptoPluginLockCode (p : string) (ip : InteractionParameters) : RequestType * QVariantList :=
  (ForgetLockCodeRequest, crypto_lock_params p ip).

(** All of them together. *)
Definition crypto_helper (c : CryptoHelperCall) : RequestType * QVariantList :=
  match c with
  | HStoreKeyPreCheck i => crypto_storeKeyPreCheck i
  | HStoreKey i data fd key => crypto_storeKey i data fd key
  | HDeleteStoredKey i => crypto_deleteStoredKey i
  | HStoredKeyIdentifiers c p custom => crypto_storedKeyIdentifiers c p custom
  | HUseKeyPreCheck i operation p => crypto_useKeyPreCheck i operation p
  | HStoredKey i => crypto_storedKey i
  | HUserInput uiParams => crypto_userInput uiParams
  | HQueryLockStatus p => crypto_queryCryptoPluginLockStatus p
  | HModifyLockCode p ip => crypto_modifyCryptoPluginLockCode p ip
  | HProvideLockCode p ip => crypto_provideCryptoPluginLockCode p ip
  | HForgetLockCode p ip => crypto_forgetCryptoPluginLockCode p ip
  end.

(** * Dispatch *)

(** [inParams.size() ? inParams.takeFirst().value<T>() : default] *)
Definition take_param {T} (value : QVariant → option T) (dflt : T) (inParams : QVariantList)
  (k : T → QVariantList → Handler) : Handler :=
  match inParams with
  | [] => k dflt []
  | v :: rest => match value v with Some x => k x rest | None => Mismatch end
  end.

Definition value_string (v : QVariant) := match v with VString s => Some s | _ => None end.
Definition value_int (v : QVariant) := match v with VInt n => Some n | _ => None end.
Definition value_secret (v : QVariant) := match v with VSecret s => Some s | _ => None end.
Definition value_identifier (v : QVariant) := match v with VIdentifier i => Some i | _ => None end.
Definition value_filter (v : QVariant) := match v with VFilterData f => Some f | _ => None end.
Definition value_operator (v : QVariant) := match v with VFilterOperator o => Some o | _ => None end.
Definition value_map (v : QVariant) := match v with VMap m => Some m | _ => None end.
Definition value_interaction (v : QVariant) :=
  match v with VInteractionParameters ip => Some ip | _ => None end.

Definition noIdentifier : Identifier := mkIdentifier "" "" "".
Definition noInteraction : InteractionParameters :=
  mkInteraction "" "" "" "" UnknownOperation "" UnknownInput.

Notation "'take' x ':=' value 'or' d 'from' ps ';' k" :=
  (take_param value d ps (λ x ps, k)) (at level 10, x name, value at level 9, d at level 9,
   ps name, k at level 200).

Definition database_locked : Handler :=
  fail_with SecretsDaemonLockedError "The secrets database is locked".

Definition unless_locked_db (h : Handler) : Handler :=
  queue* locked := Q_masterLocked in
  if (locked : bool) then database_locked else h.

(** The master lock itself can be queried, changed and opened while it is
    locked. *)
Definition unless_locked_plugin (type : LockCodeTargetType) (h : Handler) : Handler :=
  queue* locked := Q_masterLocked in
  if (locked : bool) && negb (bool_decide (type = MetadataDatabase)) then database_locked else h.

(** The first parameters of the requests about lock codes. *)
Definition take_lock_params (ps : QVariantList)
  (k : LockCodeTargetType → string → InteractionParameters → UserInteractionMode → string → Handler)
  : Handler :=
  take type := value_int or MetadataDatabase from ps;
  take target := value_string or "" from ps;
  take ip := value_interaction or noInteraction from ps;
  take mode := value_int or PreventInteraction from ps;
  take address := value_string or "" from ps;
  k type target ip mode address.

(** The cases of [SecretsRequestQueue::handlePendingRequest], without the reply:
    take the parameters from the list and call the processor. *)

(** case [CollectionNamesRequest] *)
Definition pendingCollectionNames (pid id : Z) (ps : QVariantList) : Handler :=
  take p := value_string or "" from ps;
  unless_locked_db (collectionNames env pid id p).

(** case [CreateDeviceLockCollectionRequest] *)
Definition pendingCreateDeviceLockCollection (pid id : Z) (ps : QVariantList) : Handler :=
  take c := value_string or "" from ps;
  take p := value_string or "" from ps;
  take e := value_string or "" from ps;
  take semantic := value_int or DeviceLockKeepUnlocked from ps;
  take access := value_int or OwnerOnlyMode from ps;
  unless_locked_db (createDeviceLockCollection env pid id c p e semantic access).

(** case [CreateCustomLockCollectionRequest] *)
Definition pendingCreateCustomLockCollection (pid id : Z) (ps : QVariantList) : Handler :=
  take c := value_string or "" from ps;
  take p := value_string or "" from ps;
  take e := value_string or "" from ps;
  take a := value_string or "" from ps;
  take semantic := value_int or CustomLockKeepUnlocked from ps;
  take access := value_int or OwnerOnlyMode from ps;
  take mode := value_int or PreventInteraction from ps;
  take address := value_string or "" from ps;
  unless_locked_db
    (createCustomLockCollection env pid id c p e a semantic access mode address).

(** case [DeleteCollectionRequest] *)
Definition pendingDeleteCollection (pid id : Z) (ps : QVariantList) : Handler :=
  take c := value_string or "" from ps;
  take p := value_string or "" from ps;
  take mode := value_int or PreventInteraction from ps;
  take address := value_string or "" from ps;
  unless_locked_db (deleteCollection env pid id c p mode address).

(** case [SetCollectionSecretRequest] *)
Definition pendingSetCollectionSecret (pid id : Z) (ps : QVariantList) : Handler :=
  take secret := value_secret or noSecret from ps;
  take uiParams := value_interaction or noInteraction from ps;
  take mode := value_int or PreventInteraction from ps;
  take address := value_string or "" from ps;
  unless_locked_db (setCollectionSecret env pid id secret uiParams mode address).

(** case [SetStandaloneDeviceLockSecretRequest] *)
Definition pendingSetStandaloneDeviceLockSecret (pid id : Z) (ps : QVariantList) : Handler :=
  take secret := value_secret or noSecret from ps;
  take e := value_string or "" from ps;
  take uiParams := value_interaction or noInteraction from ps;
  take semantic := value_int or DeviceLockKeepUnlocked from ps;
  take access := value_int or OwnerOnlyMode from ps;
  take mode := value_int or PreventInteraction from ps;
  take address := value_string or "" from ps;
  unless_locked_db
    (setStandaloneDeviceLockSecret env pid id secret e uiParams semantic access mode address).

(** case [SetStandaloneCustomLockSecretRequest] *)
Definition pendingSetStandaloneCustomLockSecret (pid id : Z) (ps : QVariantList) : Handler :=
  take secret := value_secret or noSecret from ps;
  take e := value_string or "" from ps;
  take a := value_string or "" from ps;
  take uiParams := value_interaction or noInteraction from ps;
  take semantic := value_int or CustomLockKeepUnlocked from ps;
  take access := value_int or OwnerOnlyMode from ps;
  take mode := value_int or PreventInteraction from ps;
  take address := value_string or "" from ps;
  unless_locked_db
    (setStandaloneCustomLockSecret env pid id secret e a uiParams semantic access mode address).

(** case [GetCollectionSecretRequest] *)
Definition pendingGetCollectionSecret (pid id : Z) (ps : QVariantList) : Handler :=
  take i := value_identifier or noIdentifier from ps;
  take mode := value_int or PreventInteraction from ps;
  take address := value_string or "" from ps;
  unless_locked_db (getCollectionSecret env pid id i mode address).

(** case [GetStandaloneSecretRequest] *)
Definition pendingGetStandaloneSecret (pid id : Z) (ps : QVariantList) : Handler :=
  take i := value_identifier or noIdentifier from ps;
  take mode := value_int or PreventInteraction from ps;
  take address := value_string or "" from ps;
  unless_locked_db (getStandaloneSecret env pid id i mode address).

(** case [FindCollectionSecretsRequest] *)
Definition pendingFindCollectionSecrets (pid id : Z) (ps : QVariantList) : Handler :=
  take c := value_string or "" from ps;
  take p := value_string or "" from ps;
  take flt := value_filter or ∅ from ps;
  take op := value_operator or OperatorOr from ps;
  take mode := value_int or PreventInteraction from ps;
  take address := value_string or "" from ps;
  unless_locked_db (findCollectionSecrets env pid id c p flt op mode address).

(** case [FindStandaloneSecretsRequest] *)
Definition pendingFindStandaloneSecrets (pid id : Z) (ps : QVariantList) : Handler :=
  take p := value_string or "" from ps;
  take flt := value_filter or ∅ from ps;
  take op := value_operator or OperatorOr from ps;
  take mode := value_int or PreventInteraction from ps;
  take address := value_string or "" from ps;
  unless_locked_db (findStandaloneSecrets pid id p flt op mode address).

(** case [DeleteCollectionSecretRequest] *)
Definition pendingDeleteCollectionSecret (pid id : Z) (ps : QVariantList) : Handler :=
  take i := value_identifier or noIdentifier from ps;
  take mode := value_int or PreventInteraction from ps;
  take address := value_string or "" from ps;
  unless_locked_db (deleteCollectionSecret env pid id i mode address).

(** case [DeleteStandaloneSecretRequest] *)
Definition pendingDeleteStandaloneSecret (pid id : Z) (ps : QVariantList) : Handler :=
  take i := value_identifier or noIdentifier from ps;
  take mode := value_int or PreventInteraction from ps;
  unless_locked_db (deleteStandaloneSecret env pid id i mode).

(** case [QueryLockStatusRequest] *)
Definition pendingQueryLockStatus (pid id : Z) (ps : QVariantList) : Handler :=
  take type := value_int or MetadataDatabase from ps;
  take target := value_string or "" from ps;
  unless_locked_plugin type (queryLockStatus env pid id type target).

(** case [ModifyLockCodeRequest] *)
Definition pendingModifyLockCode (pid id : Z) (ps : QVariantList) : Handler :=
  take_lock_params ps (λ type target ip mode address,
    unless_locked_plugin type (modifyLockCode env pid id type target ip mode address)).

(** case [ProvideLockCodeRequest] *)
Definition pendingProvideLockCode (pid id : Z) (ps : QVariantList) : Handler :=
  take_lock_params ps (λ type target ip mode address,
    unless_locked_plugin type (provideLockCode env pid id type target ip mode address)).

(** case [ForgetLockCodeRequest] *)
Definition pendingForgetLockCode (pid id : Z) (ps : QVariantList) : Handler :=
  take_lock_params ps (λ type target ip mode address,
    unless_locked_db (forgetLockCode env pid id type target ip mode address)).

(** case [UseCollectionKeyPreCheckRequest] *)
Definition pendingUseCollectionKeyPreCheck (pid id : Z) (ps : QVariantList) : Handler :=
  take i := value_identifier or noIdentifier from ps;
  take operation := value_int or 0%Z from ps;
  take p := value_string or "" from ps;
  take mode := value_int or PreventInteraction from ps;
  unless_locked_db (useCollectionKeyPreCheck env pid id i operation p mode).

(** case [SetCollectionKeyPreCheckRequest] *)
Definition pendingSetCollectionKeyPreCheck (pid id : Z) (ps : QVariantList) : Handler :=
  take i := value_identifier or noIdentifier from ps;
  take mode := value_int or PreventInteraction from ps;
  unless_locked_db (setCollectionKeyPreCheck env pid id i mode).

(** case [SetCollectionKeyRequest] *)
Definition pendingSetCollectionKey (pid id : Z) (ps : QVariantList) : Handler :=
  take secret := value_secret or noSecret from ps;
  take mode := value_int or PreventInteraction from ps;
  unless_locked_db (setCollectionSecret env pid id secret noInteraction mode "").

(** case [StoredKeyIdentifiersRequest] *)
Definition pendingStoredKeyIdentifiers (pid id : Z) (ps : QVariantList) : Handler :=
  take c := value_string or "" from ps;
  take p := value_string or "" from ps;
  take custom := value_map or ∅ from ps;
  take mode := value_int or PreventInteraction from ps;
  take address := value_string or "" from ps;
  unless_locked_db (storedKeyIdentifiers env pid id c p custom mode address).

(** case [UserInputRequest] *)
Definition pendingUserInput (pid id : Z) (ps : QVariantList) : Handler :=
  take uiParams := value_interaction or noInteraction from ps;
  unless_locked_db (userInput env pid id uiParams).

(** [SecretsRequestQueue::handlePendingRequest], without the reply.  [None]: the
    request for information on plugins, which is left out, and types that are
    not requests. *)
Definition handlePendingRequest (type : RequestType) (pid id : Z) (ps : QVariantList)
  : option Handler :=
  match type with
  | GetHealthInfoRequest => Some (getHealthInfo pid id)
  | CollectionNamesRequest => Some (pendingCollectionNames pid id ps)
  | CreateDeviceLockCollectionRequest => Some (pendingCreateDeviceLockCollection pid id ps)
  | CreateCustomLockCollectionRequest => Some (pendingCreateCustomLockCollection pid id ps)
  | DeleteCollectionRequest => Some (pendingDeleteCollection pid id ps)
  | SetCollectionSecretRequest => Some (pendingSetCollectionSecret pid id ps)
  | SetStandaloneDeviceLockSecretRequest => Some (pendingSetStandaloneDeviceLockSecret pid id ps)
  | SetStandaloneCustomLockSecretRequest => Some (pendingSetStandaloneCustomLockSecret pid id ps)
  | GetCollectionSecretRequest => Some (pendingGetCollectionSecret pid id ps)
  | GetStandaloneSecretRequest => Some (pendingGetStandaloneSecret pid id ps)
  | FindCollectionSecretsRequest => Some (pendingFindCollectionSecrets pid id ps)
  | FindStandaloneSecretsRequest => Some (pendingFindStandaloneSecrets pid id ps)
  | DeleteCollectionSecretRequest => Some (pendingDeleteCollectionSecret pid id ps)
  | DeleteStandaloneSecretRequest => Some (pendingDeleteStandaloneSecret pid id ps)
  | QueryLockStatusRequest => Some (pendingQueryLockStatus pid id ps)
  | ModifyLockCodeRequest => Some (pendingModifyLockCode pid id ps)
  | ProvideLockCodeRequest => Some (pendingProvideLockCode pid id ps)
  | ForgetLockCodeRequest => Some (pendingForgetLockCode pid id ps)
  | UseCollectionKeyPreCheckRequest => Some (pendingUseCollectionKeyPreCheck pid id ps)
  | SetCollectionKeyPreCheckRequest => Some (pendingSetCollectionKeyPreCheck pid id ps)
  | SetCollectionKeyRequest => Some (pendingSetCollectionKey pid id ps)
  | StoredKeyIdentifiersRequest => Some (pendingStoredKeyIdentifiers pid id ps)
  | UserInputRequest => Some (pendingUserInput pid id ps)
  | _ => None
  end.
End service.

(** * The reply *)

(** What is sent when a request has been handled: a reply over D-Bus, or a
    signal to the crypto service, with the result and further values. *)
Inductive Sent :=
  | Reply (r : Result) (values : QVariantList)
  | ToCrypto (r : Result) (values : QVariantList)
  | Nothing.

(** The values of a reply besides the result: the defaults the output parameters
    have. *)
Definition default_out (type : RequestType) : QVariantList :=
  match type with
  | CollectionNamesRequest => [VNames ∅]
  | GetCollectionSecretRequest | GetStandaloneSecretRequest => [VSecret noSecret]
  | FindCollectionSecretsRequest | FindStandaloneSecretsRequest
  | StoredKeyIdentifiersRequest => [VIdentifiers []]
  | QueryLockStatusRequest => [VLockStatus UnknownLockStatus]
  | UserInputRequest => [VByteArray ""]
  | UseCollectionKeyPreCheckRequest | SetCollectionKeyPreCheckRequest => [VKey noKey]
  | _ => []
  end.

(** The output parameters that the processor set, the others at their
    defaults. *)
Definition out_values (type : RequestType) (out : QVariantList) : QVariantList :=
  take (length (default_out type)) out ++ drop (length out) (default_out type).

(** Requests that only the crypto service makes. *)
Definition crypto_only (type : RequestType) : bool :=
  match type with
  | UseCollectionKeyPreCheckRequest | SetCollectionKeyPreCheckRequest | SetCollectionKeyRequest
  | StoredKeyIdentifiersRequest => true
  | _ => false
  end.

(** The end of each case of [handlePendingRequest], with the value of
    [*completed]: a pending request gets no reply yet. *)
Definition pendingReply (isSecretsCryptoRequest : bool) (type : RequestType) (r : Result)
  (out : QVariantList) : Sent * bool :=
  if bool_decide (code r = Pending) then (Nothing, false)
  else match type with
  | GetHealthInfoRequest => (Reply r out, true)
  | UserInputRequest =>
      (if isSecretsCryptoRequest then ToCrypto r [] else Reply r [VByteArray ""], true)
  | _ =>
      (if isSecretsCryptoRequest || crypto_only type then ToCrypto r (out_values type out)
       else Reply r (out_values type out), true)
  end.

(** The types of requests that [handleFinishedRequest] does not know, or does
    nothing about. *)
Definition synchronous (type : RequestType) : bool :=
  match type with
  | InvalidRequest | GetHealthInfoRequest | SetCollectionUserInputSecretRequest
  | SetStandaloneDeviceLockUserInputSecretRequest
  | SetStandaloneCustomLockUserInputSecretRequest => true
  | _ => false
  end.

(** [SecretsRequestQueue::handleFinishedRequest], but for the request for
    information on plugins.  [outParams]: what the processor reported. *)
Definition handleFinishedRequest (isSecretsCryptoRequest : bool) (type : RequestType)
  (outParams : option (Result * QVariantList)) : Sent * bool :=
  let '(r, out) :=
    default (result_error UnknownError "Unable to determine result of request", []) outParams in
  if synchronous type then (Nothing, false)
  else if bool_decide (code r = Pending) then (Nothing, true)
  else if isSecretsCryptoRequest then (ToCrypto r (out_values type out), true)
  else if crypto_only type then (Nothing, true)
  else (Reply r (out_values type out), true).

(** * Answers to the crypto service (secretscryptohelpers.cpp) *)

(** [CryptoApiHelperRequestType]: what the crypto service has asked for. *)
Inductive CryptoApiHelperRequestType :=
  | StoredKeyCryptoApiHelperRequest
  | StoredKeyIdentifiersCryptoApiHelperRequest
  | DeleteStoredKeyCryptoApiHelperRequest
  | UseKeyPreCheckCryptoApiHelperRequest
  | StoreKeyPreCheckCryptoApiHelperRequest
  | StoreKeyCryptoApiHelperRequest
  | UserInputCryptoApiHelperRequest
  | QueryLockStatusCryptoApiHelperRequest
  | ModifyLockCodeCryptoApiHelperRequest
  | ProvideLockCodeCryptoApiHelperRequest
  | ForgetLockCodeCryptoApiHelperRequest.

Definition helper_type (c : CryptoHelperCall) : CryptoApiHelperRequestType :=
  match c with
  | HStoreKeyPreCheck _ => StoreKeyPreCheckCryptoApiHelperRequest
  | HStoreKey _ _ _ _ => StoreKeyCryptoApiHelperRequest
  | HDeleteStoredKey _ => DeleteStoredKeyCryptoApiHelperRequest
  | HStoredKeyIdentifiers _ _ _ => StoredKeyIdentifiersCryptoApiHelperRequest
  | HUseKeyPreCheck _ _ _ => UseKeyPreCheckCryptoApiHelperRequest
  | HStoredKey _ => StoredKeyCryptoApiHelperRequest
  | HUserInput _ => UserInputCryptoApiHelperRequest
  | HQueryLockStatus _ => QueryLockStatusCryptoApiHelperRequest
  | HModifyLockCode _ _ => ModifyLockCodeCryptoApiHelperRequest
  | HProvideLockCode _ _ => ProvideLockCodeCryptoApiHelperRequest
  | HForgetLockCode _ _ => ForgetLockCodeCryptoApiHelperRequest
  end.

(** The end of each of the functions: the request is remembered unless it could
    not be queued. *)
Definition remember (cryptoRequestId : Z) (c : CryptoHelperCall) (enqueueResult : Result)
  (m : gmap Z CryptoApiHelperRequestType) : Result * gmap Z CryptoApiHelperRequestType :=
  if bool_decide (code enqueueResult = Failed) then (enqueueResult, m)
  else (result_of_code Pending, <[cryptoRequestId := helper_type c]> m).

(** The signals, with their values. *)
Inductive CryptoSignal :=
  | storedKeyCompleted (r : Result) (data : bytes) (filterData : FilterData)
  | storedKeyIdentifiersCompleted (r : Result) (identifiers : list Identifier)
  | deleteStoredKeyCompleted (r : Result)
  | useKeyPreCheckCompleted (r : Result) (collectionDecryptionKey : Key)
  | storeKeyPreCheckCompleted (r : Result) (collectionDecryptionKey : Key)
  | storeKeyCompleted (r : Result)
  | userInputCompleted (r : Result) (input : bytes)
  | cryptoPluginLockStatusRequestCompleted (r : Result) (status : LockStatus)
  | cryptoPluginLockCodeRequestCompleted (r : Result).

Definition crypto_signal (type : CryptoApiHelperRequestType) (r : Result) (parameters : QVariantList)
  : CryptoSignal :=
  let key := match parameters with VKey k :: _ => k | _ => noKey end in
  match type with
  | StoredKeyCryptoApiHelperRequest =>
      let s := match parameters with VSecret s :: _ => s | _ => noSecret end in
      storedKeyCompleted r (secret_data s) (secret_filterData s)
  | StoredKeyIdentifiersCryptoApiHelperRequest =>
      storedKeyIdentifiersCompleted r (match parameters with VIdentifiers l :: _ => l | _ => [] end)
  | DeleteStoredKeyCryptoApiHelperRequest => deleteStoredKeyCompleted r
  | UseKeyPreCheckCryptoApiHelperRequest => useKeyPreCheckCompleted r key
  | StoreKeyPreCheckCryptoApiHelperRequest => storeKeyPreCheckCompleted r key
  | StoreKeyCryptoApiHelperRequest => storeKeyCompleted r
  | UserInputCryptoApiHelperRequest =>
      userInputCompleted r (match parameters with VByteArray b :: _ => b | _ => "" end)
  | QueryLockStatusCryptoApiHelperRequest =>
      cryptoPluginLockStatusRequestCompleted r
        (match parameters with VLockStatus l :: _ => l | _ => UnknownLockStatus end)
  | ModifyLockCodeCryptoApiHelperRequest | ProvideLockCodeCryptoApiHelperRequest
  | ForgetLockCodeCryptoApiHelperRequest => cryptoPluginLockCodeRequestCompleted r
  end.

(** [asynchronousCryptoRequestCompleted] *)
Definition asynchronousCryptoRequestCompleted (cryptoRequestId : Z) (r : Result)
  (parameters : QVariantList) (m : gmap Z CryptoApiHelperRequestType)
  : option CryptoSignal * gmap Z CryptoApiHelperRequestType :=
  match m !! cryptoRequestId with
  | None => (None, m)
  | Some type => (Some (crypto_signal type r parameters), delete cryptoRequestId m)
  end.
