(* ===== verification/ProcessorSystem.v ===== *)
(** The request processor at work: the plugin thread with its queue, the main
    thread with its callbacks, the authentication plugins and the request queue,
    as a transition system.

    Calls of plugins, of authentication plugins and of the request queue are
    answered by functions over a state [W] of the surroundings, which are
    parameters.  The plugin thread is a thread pool with one thread
    ([m_secretsThreadPool->setMaxThreadCount(1)]): operations run one after the
    other in the order in which they were started, and a handler that waits for
    an operation lets all earlier ones run first. *)
From S2P Require Import Prelude Result MetadataDb PluginApi PluginWrapper.
From S2P Require Import PluginFunctionWrappers Processor.

(** What has happened in the course of a request: calls and their answers. *)
Inductive Event :=
  | Ev {A} (c : Call A) (a : A).

(** A request that is being handled: whose it is, what has happened, and what is
    left to do. *)
Record Task := mkTask {
  t_pid : Z;
  t_id : Z;
  t_history : list Event;
  t_handler : Handler;
}.

(** What the main thread reports to the request queue. *)
Record Report := mkReport {
  rep_id : Z;
  rep_result : Result;
  rep_out : QVariantList;
}.

(** The ways in which the daemon goes wrong. *)
Inductive Failure := Crashed | Misread.

Section system.
  Context {W : Type} (answer : ∀ A, Call A → M W A).

(** [queued]: operations the plugin thread has not run yet ([Run] handlers);
    [finished]: callbacks of operations that have run; [waiting]: the requests
    whose interaction with the user is under way, and their histories.
    [accepted], [reports] and [calls] are records of what was done, the latest
    first; [stuck] tells that a handler crashed or misread a parameter. *)
Record System := mkSystem {
  surroundings : W;
  processor : Processor;
  queued : list Task;
  finished : list Task;
  waiting : gmap Z (list Event);
  accepted : list Z;
  reports : list Report;
  calls : list (Z * list Event * Event);
  stuck : option Failure;
}.

Definition with_processor (f : Processor → Processor) (s : System) : System :=
  mkSystem (surroundings s) (f (processor s)) (queued s) (finished s) (waiting s) (accepted s)
    (reports s) (calls s) (stuck s).

Definition with_tasks (q f : list Task) (s : System) : System :=
  mkSystem (surroundings s) (processor s) q f (waiting s) (accepted s) (reports s) (calls s)
    (stuck s).

Definition with_waiting (f : gmap Z (list Event) → gmap Z (list Event)) (s : System) : System :=
  mkSystem (surroundings s) (processor s) (queued s) (finished s) (f (waiting s)) (accepted s)
    (reports s) (calls s) (stuck s).

Definition park (p : PendingRequest) (hist : list Event) (s : System) : System :=
  with_processor (insert_pending p) (with_waiting <[pr_requestId p := hist]> s).

Definition accept (id : Z) (s : System) : System :=
  mkSystem (surroundings s) (processor s) (queued s) (finished s) (waiting s) (id :: accepted s)
    (reports s) (calls s) (stuck s).

Definition report (r : Report) (s : System) : System :=
  mkSystem (surroundings s) (processor s) (queued s) (finished s) (waiting s) (accepted s)
    (r :: reports s) (calls s) (stuck s).

Definition set_stuck (f : Failure) (s : System) : System :=
  mkSystem (surroundings s) (processor s) (queued s) (finished s) (waiting s) (accepted s)
    (reports s) (calls s) (Some f).

Definition enqueue (t : Task) (s : System) : System :=
  with_tasks (queued s ++ [t]) (finished s) s.

(** Make a call on behalf of a task. *)
Definition call {A} (pid : Z) (hist : list Event) (c : Call A) : M System A := λ s,
  let '(a, w) := answer A c (surroundings s) in
  (a, mkSystem w (processor s) (queued s) (finished s) (waiting s) (accepted s) (reports s)
        ((pid, hist, Ev c a) :: calls s) (stuck s)).

(** The plugin thread runs the first operation of its queue. *)
Definition work : M System unit := λ s,
  match queued s with
  | [] => (tt, s)
  | mkTask pid id hist h :: rest =>
      match h with
      | Run op k =>
          let '(a, s) := call pid hist (Plugin op) s in
          (tt, with_tasks rest
                 (finished s ++ [mkTask pid id (hist ++ [Ev (Plugin op) a]) (k a)]) s)
      | _ => (tt, with_tasks rest (finished s) s)
      end
  end.

(** The plugin thread runs until its queue is empty. *)
Fixpoint drain (n : nat) : M System unit :=
  match n with
  | O => ret tt
  | S n => work ;;; drain n
  end.

(** Before a call of a plugin is made by the main thread, which waits for it, the
    operations queued before it are run. *)
Definition wait_for {A} (c : Call A) : M System unit := λ s,
  match c with
  | Plugin _ => drain (length (queued s)) s
  | _ => (tt, s)
  end.

(** The main thread runs a handler until it returns, reports, or starts an
    operation.  A result that is returned is the answer to the request, unless it
    is [Pending]; nobody looks at what a callback ([callback]) returns. *)
Fixpoint advance (callback : bool) (pid id : Z) (hist : list Event) (h : Handler) : M System unit :=
  match h with
  | Return r out =>
      if bool_decide (code r = Pending) || callback then ret tt
      else modify (report (mkReport id r out))
  | Finish r out => modify (report (mkReport id r out))
  | Crash => modify (set_stuck Crashed)
  | Mismatch => modify (set_stuck Misread)
  | Get k => let* s := gets processor in advance callback pid id hist (k s)
  | Put f h => modify (with_processor f) ;;; advance callback pid id hist h
  | Park p h => modify (park p hist) ;;; advance callback pid id hist h
  | Sync c k =>
      wait_for c ;;;
      let* a := call pid hist c in
      advance callback pid id (hist ++ [Ev c a]) (k a)
  | Run op k => modify (enqueue (mkTask pid id hist (Run op k)))
  end.

(** The main thread delivers the first callback. *)
Definition deliver : M System unit := λ s,
  match finished s with
  | [] => (tt, s)
  | mkTask pid id hist h :: rest => advance true pid id hist h (with_tasks (queued s) rest s)
  end.

(** The identifiers of the requests that are being handled. *)
Definition active (s : System) (id : Z) : Prop :=
  id ∈ t_id <$> queued s ∨ id ∈ t_id <$> finished s ∨ is_Some (waiting s !! id).

(** A step: a request arrives ([serves] tells which handlers belong to which
    callers), the plugin thread works, a callback is delivered, or
    the interaction of a pending request is completed ([completes],
    which depends on what was begun). *)
Inductive step (serves : Z → Z → Handler → Prop) (completes : list Event → Z → Handler → Prop)
  : System → System → Prop :=
  | step_request pid id h s :
      serves pid id h → ¬ active s id →
      step serves completes s (advance false pid id [] h (accept id s)).2
  | step_work s : step serves completes s (work s).2
  | step_deliver s : step serves completes s (deliver s).2
  | step_complete id hist h s p :
      waiting s !! id = Some hist → completes hist id h →
      m_pendingRequests (processor s) !! id = Some p →
      step serves completes s
        (advance true (pr_callerPid p) id hist h (with_waiting (delete id) s)).2.

(** The beginning: nothing is being done, nothing is pending. *)
Definition initial (w : W) (keys skeys : gmap string Key) : System :=
  mkSystem w (mkProcessor keys skeys ∅) [] [] ∅ [] [] [] None.

Definition reachable serves completes (w : W) (keys skeys : gmap string Key) : System → Prop :=
  rtc (step serves completes) (initial w keys skeys).
End system.
Arguments System : clear implicits.

(** * Invariants of all states *)

(** A policy: which answers are expected of the surroundings; which calls may be
    made, given what has happened; which requests may be registered as pending;
    and how a handler may go on and end.  [callback] tells whether the handler is a
    callback, [parked] whether it has registered the request. *)
Record Policy := mkPolicy {
  expected : ∀ A, Call A → A → Prop;
  allowed : list Event → ∀ A, Call A → Prop;
  parkable : list Event → PendingRequest → Prop;
  may_go_on : bool → Prop;
  may_return : bool → bool → Result → Prop;
  may_finish : bool → bool → Result → Prop;
  may_crash : Prop;
  may_mismatch : Prop;
}.

Section policy.
  Context (P : Policy).

(** Every path through the handler keeps to the policy. *)
Fixpoint safe (hist : list Event) (callback parked : bool) (h : Handler) : Prop :=
  match h with
  | Return r _ => may_return P callback parked r
  | Finish r _ => may_finish P callback parked r
  | Crash => may_crash P
  | Mismatch => may_mismatch P
  | Get k => ∀ s, safe hist callback parked (k s)
  | Put f h =>
      (∀ s, m_pendingRequests (f s) = m_pendingRequests s) ∧ safe hist callback parked h
  | Park p h => (parkable P hist p ∧ may_go_on P parked) ∧ safe hist callback true h
  | Sync c k =>
      allowed P hist _ c ∧ ∀ a, expected P _ c a → safe (hist ++ [Ev c a]) callback parked (k a)
  | Run op k =>
      (allowed P hist _ (Plugin op) ∧ may_go_on P parked)
      ∧ ∀ a, expected P _ (Plugin op) a → safe (hist ++ [Ev (Plugin op) a]) true false (k a)
  end.

(** What is returned to a callback that reports it. *)
Lemma safe_finishing out h hist parked :
  (∀ parked r, may_return P false parked r →
     if bool_decide (code r = Pending) then may_return P true parked r
     else may_finish P true parked r) →
  (∀ parked r, may_finish P false parked r → may_finish P true parked r) →
  safe hist false parked h → safe hist true parked (finishing out h).
Proof.
  intros Hret Hfin. revert hist parked.
  induction h as [r o|r o| | |k IH|f h IH|p h IH|A c k IH|A op k IH];
    intros hist parked; simpl; try done.
  - intros Hr. specialize (Hret _ _ Hr). by case_bool_decide.
  - auto.
  - auto.
  - intros [Hp Hh]. auto.
  - intros [Hp Hh]. auto.
  - intros [Ha Hk]. split; [done|]. intros a He. auto.
Qed.
End policy.

(** * From handlers to the system *)
Section system.
  Context {W : Type} (answer : ∀ A, Call A → M W A).
  Context (serves : Z → Z → Handler → Prop) (completes : list Event → Z → Handler → Prop).
  (** The policy for each request of each caller. *)
  Context (P : Z → Z → Policy).
  (** The surroundings answer as expected. *)
  Context (Hexpected : ∀ pid id A (c : Call A) w, expected (P pid id) A c (answer A c w).1).
  (** A request is registered as what it is. *)
  Context (Hpid : ∀ pid id hist p,
    parkable (P pid id) hist p → pr_callerPid p = pid ∧ pr_requestId p = id).
  (** New requests keep to the policy. *)
  Context (Hserves : ∀ pid id h, serves pid id h → safe (P pid id) [] false false h).
  (** So does what a completed interaction makes of a pending request. *)
  Context (Hcompletes : ∀ id h p hist (s : System W),
    completes hist id h → m_pendingRequests (processor s) !! id = Some p →
    parkable (P (pr_callerPid p) id) hist p →
    ∃ h' f, (∀ pr i, i ≠ id → m_pendingRequests (f pr) !! i = m_pendingRequests pr !! i)
      ∧ safe (P (pr_callerPid p) id) hist true false h'
      ∧ advance answer true (pr_callerPid p) id hist h s
        = advance answer true (pr_callerPid p) id hist h' (with_processor f s)).

Definition queued_ok (t : Task) : Prop :=
  ∃ callback parked, safe (P (t_pid t) (t_id t)) (t_history t) callback parked (t_handler t).

Definition finished_ok (t : Task) : Prop :=
  safe (P (t_pid t) (t_id t)) (t_history t) true false (t_handler t).

Definition call_ok (x : Z * list Event * Event) : Prop :=
  match x.2 with Ev c a => ∃ id, allowed (P x.1.1 id) x.1.2 _ c ∧ expected (P x.1.1 id) _ c a end.

Definition waiting_ok (s : System W) (id : Z) (hist : list Event) : Prop :=
  ∃ p, m_pendingRequests (processor s) !! id = Some p
       ∧ parkable (P (pr_callerPid p) id) hist p.

Definition stuck_ok (f : Failure) : Prop :=
  ∃ pid id, match f with Crashed => may_crash (P pid id) | Misread => may_mismatch (P pid id) end.

(** The invariant of the system. *)
Record invariant (s : System W) : Prop := {
  inv_queued : Forall queued_ok (queued s);
  inv_finished : Forall finished_ok (finished s);
  inv_waiting id hist : waiting s !! id = Some hist → waiting_ok s id hist;
  inv_calls : Forall call_ok (calls s);
  inv_stuck f : stuck s = Some f → stuck_ok f;
}.

Lemma call_inv {A} pid id hist (c : Call A) s :
  invariant s → allowed (P pid id) hist A c →
  wp (call answer pid hist c) (λ a s', invariant s' ∧ expected (P pid id) A c a) s.
Proof.
  intros Hs Ha. unfold wp, call. pose proof (Hexpected pid id A c (surroundings s)) as He.
  destruct (answer A c (surroundings s)) as [a w]; simpl in *. split; [|done].
  destruct Hs. constructor; simpl; try done. constructor; [by exists id|done].
Qed.

Lemma with_tasks_inv q f s :
  invariant s → Forall queued_ok q → Forall finished_ok f → invariant (with_tasks q f s).
Proof. intros Hs Hq Hf. destruct Hs. by constructor. Qed.

Lemma work_inv s : invariant s → invariant (work answer s).2.
Proof.
  intros Hs. unfold work. destruct (queued s) as [|[pid id hist h] rest] eqn:Hq; [done|].
  pose proof (inv_queued s Hs) as Hall. rewrite Hq in Hall.
  apply Forall_cons in Hall as [(callback&parked&Ht) Hrest]; simpl in Ht.
  pose proof (inv_finished s Hs) as Hf.
  destruct h as [ | | | | | | | |A op k]; try by apply with_tasks_inv.
  destruct Ht as [[Ha _] Hk]. pose proof (call_inv pid id hist (Plugin op) s Hs Ha) as Hc. unfold wp in Hc.
  destruct (call answer pid hist (Plugin op) s) as [a s'] eqn:Hcall; simpl in *.
  destruct Hc as [Hs' He]. apply with_tasks_inv; [done..|].
  apply Forall_app. split; [apply Hs'|]. constructor; [|done]. by apply Hk.
Qed.

Lemma drain_inv n s : invariant s → invariant (drain answer n s).2.
Proof.
  revert s. induction n as [|n IH]; intros s Hs; simpl; [done|].
  unfold bind. pose proof (work_inv s Hs) as Hw. destruct (work answer s) as [u s']. by apply IH.
Qed.

Lemma wait_for_inv {A} (c : Call A) s : invariant s → invariant (wait_for answer c s).2.
Proof. intros Hs. destruct c; simpl; [by apply drain_inv|done..]. Qed.

Lemma with_processor_inv f s :
  (∀ id, is_Some (waiting s !! id) →
     m_pendingRequests (f (processor s)) !! id = m_pendingRequests (processor s) !! id) →
  invariant s → invariant (with_processor f s).
Proof.
  intros Hf [? ? Hw ? ?]. constructor; simpl; try done. intros id hist Hi.
  destruct (Hw id hist Hi) as (p&Hp&?). exists p. split; [|done].
  simpl. rewrite Hf by eauto. done.
Qed.

Lemma park_inv pid id p hist s :
  parkable (P pid id) hist p → invariant s → invariant (park p hist s).
Proof.
  intros Hp Hs. destruct (Hpid _ _ _ _ Hp) as [Hcaller Hid].
  destruct Hs as [? ? Hw ? ?]. constructor; simpl; try done.
  intros i h. unfold waiting_ok. simpl. destruct (decide (i = pr_requestId p)) as [->|Hne].
  - rewrite !lookup_insert_eq. intros [= <-]. exists p. by rewrite Hcaller, Hid.
  - rewrite !lookup_insert_ne by done. apply Hw.
Qed.

Lemma advance_inv h : ∀ callback parked pid id hist s,
  invariant s → safe (P pid id) hist callback parked h →
  invariant (advance answer callback pid id hist h s).2.
Proof.
  induction h as [r o|r o| | |k IH|f h IH|p h IH|A c k IH|A op k IH];
    intros callback parked pid id hist s Hs Hh; simpl in *.
  - case_bool_decide; simpl; [done|]. destruct callback; [done|]. destruct Hs. by constructor.
  - destruct Hs. by constructor.
  - destruct Hs. constructor; simpl; try done. intros f [= <-]. by exists pid, id.
  - destruct Hs. constructor; simpl; try done. intros f [= <-]. by exists pid, id.
  - by apply (IH _ callback parked pid id hist).
  - destruct Hh as [Hf Hh]. apply (IH callback parked pid id hist); [|done].
    apply with_processor_inv; [|done]. intros. by rewrite Hf.
  - destruct Hh as [[Hp _] Hh]. apply (IH callback true pid id hist); [|done]. by apply (park_inv pid id).
  - destruct Hh as [Ha Hk]. pose proof (wait_for_inv c s Hs) as Hs'.
    unfold bind. destruct (wait_for answer c s) as [u s']; simpl in *.
    pose proof (call_inv pid id hist c s' Hs' Ha) as Hc. unfold wp in Hc.
    destruct (call answer pid hist c s') as [a s'']; simpl in *. destruct Hc as [Hs'' He].
    apply (IH _ callback parked); [done|]. by apply Hk.
  - apply with_tasks_inv; [done| |apply Hs]. apply Forall_app. split; [apply Hs|].
    constructor; [|done]. by exists callback, parked.
Qed.

Lemma processor_step_inv s s' : invariant s → step answer serves completes s s' → invariant s'.
Proof.
  intros Hs Hst. destruct Hst as [pid id h s Hserve _|s|s|id hist h s p Hw Hc Hp].
  - apply (advance_inv h _ false); [|by apply (Hserves _ _ _ Hserve)]. destruct Hs. by constructor.
  - by apply work_inv.
  - unfold deliver. destruct (finished s) as [|[pid id hist h] rest] eqn:Hf; [done|].
    pose proof (inv_finished s Hs) as Hall. rewrite Hf in Hall.
    apply Forall_cons in Hall as [Ht Hrest].
    apply (advance_inv h _ false); [|done]. apply with_tasks_inv; [done|apply Hs|done].
  - destruct (inv_waiting s Hs id hist Hw) as (p'&Hp'&Hpark).
    rewrite Hp in Hp'. injection Hp' as <-.
    destruct (Hcompletes _ _ _ _ (with_waiting (delete id) s) Hc Hp Hpark) as (h'&f&Hf&Hsafe&->).
    apply (advance_inv h' _ false); [|done]. apply with_processor_inv.
    + intros i [x Hi]. apply Hf. intros ->. simpl in Hi. by rewrite lookup_delete_eq in Hi.
    + destruct Hs as [? ? Hwait ? ?]. constructor; simpl; try done.
      intros i x Hi. apply lookup_delete_Some in Hi as [_ Hi]. by apply Hwait.
Qed.

(** Every reachable state satisfies the invariant. *)
Lemma processor_reachable_inv w keys skeys s :
  reachable answer serves completes w keys skeys s → invariant s.
Proof.
  intros Hr. unfold reachable in Hr.
  revert s Hr. apply (rtc_ind_r invariant (initial w keys skeys)).
  - by constructor.
  - intros x y _ Hxy Hx. by apply (processor_step_inv x).
Qed.
End system.
