(* ===== verification/ProcessorAccess.v ===== *)
(** What the request processor does on behalf of whom, and how requests end.

    The policy [discipline env strict pid id] says: what is stored in a collection is
    touched only after the metadata of that collection have been read, in the
    course of the same request, and allow the caller to access it; the locks of
    the service and of plugins are touched only for platform applications; and a
    pending request has the parameters that its continuation takes.

    If [strict] holds, it also says: plugins are called only if they are
    installed; and every path through a handler gives one answer, by returning a
    result if it is the handler of a new request and by reporting one if it is a
    callback, or leaves the request waiting for the user.  This presupposes that
    the surroundings are well-behaved: that plugins do not answer [Pending], that an
    interaction that does not fail is pending, and that the metadata of a
    collection name plugins that are installed.  The first part does not. *)
From S2P Require Import Prelude Result MetadataDb PluginApi PluginWrapper PluginFunctionWrappers Processor ProcessorCollections ProcessorSecrets ProcessorStandalone ProcessorLocks ProcessorCompletion SecretsService ProcessorSystem.

(** What an operation of a plugin reads or changes. *)
Inductive Touched :=
  | Contents (p c : string)      (* what is stored in the collection [c] of the plugin [p] *)
  | DeviceLocked (p : string)    (* all that the device lock key of the plugin [p] protects *)
  | KeyNames (p : string)        (* the names of the keys in all collections of the plugin [p] *)
  | Descriptions (p : string)    (* names or metadata of collections or secrets *)
  | NewCollection (p : string)   (* a collection that is yet to be created *)
  | Standalone (p : string)      (* a secret outside of collections *)
  | Locks                        (* the locks of plugins *)
  | NoData.                      (* nothing that is stored *)

(** Each operation, one by one. *)
Definition touches {A} (op : PluginOp A) : Touched :=
  match op with
  | S_removeCollection p c | E_unlockAndRemoveCollection p c _
  | E_deriveKeyUnlockAndRemoveCollection p c _ _ | E_isCollectionLocked p c
  | S_findSecrets p c _ _ | S_removeSecret p c _ | E_removeSecret p c _
  | S_collectionSecretPreCheck p c _ _ | E_collectionSecretPreCheck p c _ _ _ _
  | A_storedKeyIdentifiersFromCollection p c _ _ _ => Contents p c
  | E_unlockCollectionAndStoreSecret p _ s _ | S_encryptAndStoreSecret _ p _ s _ =>
      Contents p (ident_collectionName (secret_identifier s))
  | E_unlockCollectionAndReadSecret p _ i _ | S_getAndDecryptSecret _ p i _
  | E_unlockCollectionAndRemoveSecret p _ i _ => Contents p (ident_collectionName i)
  | E_unlockAndFindSecrets p md _ _ _ => Contents p (cm_collectionName md)
  | E_unlockDeviceLockedCollectionsAndReencrypt p _ _
  | S_reencryptDeviceLockedCollectionsAndSecrets p _ _ => DeviceLocked p
  | A_storedKeyIdentifiers p _ => KeyNames p
  | S_collectionNames p | E_collectionNames p | S_collectionMetadata p _ | E_collectionMetadata p _
  | S_secretMetadata p _ _ | E_secretMetadata p _ _ => Descriptions p
  | S_createCollection p _ | E_createCollection p _ _ => NewCollection p
  | E_setStandaloneSecret p _ _ _ | E_accessStandaloneSecret p _ _ => Standalone p
  | A_lockSpecificPlugin _ | A_unlockSpecificPlugin _ _ | A_modifyLockSpecificPlugin _ _ _
  | A_masterLockPlugins | A_masterUnlockPlugins _ | A_modifyMasterLockPlugins _ _ => Locks
  | E_deriveKeyFromCode _ _ _ | C_deriveKeyFromCode _ _ _ | A_queryLockSpecificPlugin _ => NoData
  end.

(** The one collection that an operation needs access to, with the plugin. *)
Definition collection_of {A} (op : PluginOp A) : option (string * string) :=
  match touches op with Contents p c => Some (p, c) | _ => None end.

(** Calls that open, close or change a lock. *)
Definition locks {A} (c : Call A) : bool :=
  match c with
  | Plugin (A_lockSpecificPlugin _) | Plugin (A_unlockSpecificPlugin _ _)
  | Plugin (A_modifyLockSpecificPlugin _ _ _) | Plugin A_masterLockPlugins
  | Plugin (A_masterUnlockPlugins _) | Plugin (A_modifyMasterLockPlugins _ _)
  | Plugin (E_unlockDeviceLockedCollectionsAndReencrypt _ _ _)
  | Plugin (S_reencryptDeviceLockedCollectionsAndSecrets _ _ _)
  | Auth (AuthLock _) | Auth (AuthUnlock _ _) | Auth (AuthSetLockCode _ _ _)
  | Queue (Q_initialize _ _) | Queue (Q_lockCryptoPlugin _) | Queue (Q_unlockCryptoPlugin _ _)
  | Queue (Q_setLockCodeCryptoPlugin _ _ _) => true
  | _ => false
  end.

(** What kind of interaction a call has begun. *)
Inductive Interaction := DeviceLock | UserInput.

Definition begins {A} (c : Call A) : option Interaction :=
  match c with
  | Auth (BeginAuthentication _ _ _) => Some DeviceLock
  | Auth (BeginUserInputInteraction _ _ _ _ _) => Some UserInput
  | _ => None
  end.

Definition begun (hist : list Event) : option Interaction :=
  match last hist with Some (Ev c _) => begins c | None => None end.

Section authorization.
  Context (env : Environment).

(** The metadata allow the application to access the collection. *)
Definition may_access (application : string) (md : CollectionMetadata) : Prop :=
  cm_accessControlMode md ≠ SystemAccessControlMode
  ∧ (cm_accessControlMode md = OwnerOnlyMode → cm_ownerApplicationId md = application).

(** The metadata of the collection were read and allow access. *)
Definition permitted (pid : Z) (hist : list Event) (p c : string) : Prop :=
  ∃ r md, Ev (Plugin (collectionMetadata_of env p c)) (r, md) ∈ hist ∧ ok r = true
    ∧ may_access (callerApplicationId env pid) md.

(** The names of collections; the others stand for standalone secrets. *)
Definition is_collection (c : string) : bool := negb (isEmpty c) && negb (eq_ci c "standalone").

Definition authorized (pid : Z) (hist : list Event) (A : Type) (c : Call A) : Prop :=
  (match c with
   | Plugin op => ∀ p n, collection_of op = Some (p, n) → is_collection n = true → permitted pid hist p n
   | _ => True
   end)
  ∧ (locks c = true → applicationIsPlatformApplication env pid = true).

(** The plugins that an operation calls are installed. *)
Definition installed {A} (c : Call A) : Prop :=
  match c with
  | Plugin op =>
      match op with
      | S_collectionNames p | S_collectionMetadata p _ | S_secretMetadata p _ _
      | S_createCollection p _ | S_removeCollection p _ | S_findSecrets p _ _ _
      | S_removeSecret p _ _ | S_collectionSecretPreCheck p _ _ _
      | S_reencryptDeviceLockedCollectionsAndSecrets p _ _ => hasS env p = true
      | E_collectionNames p | E_collectionMetadata p _ | E_secretMetadata p _ _
      | E_createCollection p _ _ | E_unlockAndRemoveCollection p _ _
      | E_deriveKeyUnlockAndRemoveCollection p _ _ _ | E_isCollectionLocked p _
      | E_deriveKeyFromCode p _ _ | E_unlockCollectionAndStoreSecret p _ _ _
      | E_unlockCollectionAndReadSecret p _ _ _ | E_unlockAndFindSecrets p _ _ _ _
      | E_unlockCollectionAndRemoveSecret p _ _ _ | E_removeSecret p _ _
      | E_setStandaloneSecret p _ _ _ | E_accessStandaloneSecret p _ _
      | E_collectionSecretPreCheck p _ _ _ _ _
      | E_unlockDeviceLockedCollectionsAndReencrypt p _ _ => hasE env p = true
      | C_deriveKeyFromCode p _ _ => hasC env p = true
      | S_encryptAndStoreSecret ep p _ _ _ | S_getAndDecryptSecret ep p _ _ =>
          hasC env ep = true ∧ hasS env p = true
      | A_storedKeyIdentifiers _ _ | A_storedKeyIdentifiersFromCollection _ _ _ _ _
      | A_queryLockSpecificPlugin _ | A_lockSpecificPlugin _ | A_unlockSpecificPlugin _ _
      | A_modifyLockSpecificPlugin _ _ _ | A_masterLockPlugins | A_masterUnlockPlugins _
      | A_modifyMasterLockPlugins _ _ => True
      end
  | Auth a =>
      match a with
      | BeginAuthentication p _ _ | BeginUserInputInteraction p _ _ _ _ | AuthSupportsLocking p
      | AuthIsLocked p | AuthLock p | AuthUnlock p _ | AuthSetLockCode p _ _ => hasA env p = true
      end
  | Queue _ => True
  end.

(** The encryption plugin that metadata name belongs to the storage plugin: it is
    the same if that encrypts, and an installed one otherwise. *)
Definition matches (p encryptionPluginName : string) : Prop :=
  if hasE env p then stored_encrypted p encryptionPluginName = true
  else hasS env p = true ∧ stored_encrypted p encryptionPluginName = false
       ∧ hasC env encryptionPluginName = true.

(** What the surroundings do if they behave well. *)
Definition well_behaved (A : Type) (c : Call A) : A → Prop :=
  match c with
  | Plugin op =>
      match op in PluginOp B return B → Prop with
      | E_collectionMetadata p _ | S_collectionMetadata p _ => λ '(r, md),
          code r ≠ Pending ∧ (ok r = true → matches p (cm_encryptionPluginName md))
      | E_secretMetadata p _ _ | S_secretMetadata p _ _ => λ '(r, md),
          code r ≠ Pending ∧ (ok r = true → matches p (sm_encryptionPluginName md))
      | S_collectionNames _ | E_collectionNames _ => λ a, code a.1 ≠ Pending
      | S_createCollection _ _ | E_createCollection _ _ _ | S_removeCollection _ _
      | E_unlockAndRemoveCollection _ _ _ | E_deriveKeyUnlockAndRemoveCollection _ _ _ _
      | E_unlockCollectionAndStoreSecret _ _ _ _ | S_encryptAndStoreSecret _ _ _ _ _
      | E_unlockCollectionAndRemoveSecret _ _ _ _ | S_removeSecret _ _ _ | E_removeSecret _ _ _
      | E_setStandaloneSecret _ _ _ _ | S_collectionSecretPreCheck _ _ _ _
      | E_collectionSecretPreCheck _ _ _ _ _ _ => λ r, code r ≠ Pending
      | E_isCollectionLocked _ _ => λ a, code a.1 ≠ Pending
      | E_deriveKeyFromCode _ _ _ | C_deriveKeyFromCode _ _ _ => λ a, code a.1 ≠ Pending
      | E_unlockCollectionAndReadSecret _ _ _ _ | S_getAndDecryptSecret _ _ _ _ =>
          λ a, code a.1 ≠ Pending
      | E_unlockAndFindSecrets _ _ _ _ _ | S_findSecrets _ _ _ _ => λ a, code a.1 ≠ Pending
      | E_accessStandaloneSecret _ _ _ => λ a, code a.1 ≠ Pending
      | A_storedKeyIdentifiers _ _ | A_storedKeyIdentifiersFromCollection _ _ _ _ _ =>
          λ a, code a.1 ≠ Pending
      | A_lockSpecificPlugin _ | A_unlockSpecificPlugin _ _ | A_modifyLockSpecificPlugin _ _ _ =>
          λ a, ∀ r, a = Some r → code r ≠ Pending
      | _ => λ _, True
      end
  | Auth op =>
      match op in AuthCall B return B → Prop with
      | BeginAuthentication _ _ _ | BeginUserInputInteraction _ _ _ _ _ =>
          λ r, code r = Pending ∨ code r = Failed
      | _ => λ _, True
      end
  | Queue op =>
      match op in QueueCall B return B → Prop with
      | Q_queryLockStatusCryptoPlugin _ => λ a, code a.1 ≠ Pending
      | Q_lockCryptoPlugin _ | Q_unlockCryptoPlugin _ _ | Q_setLockCodeCryptoPlugin _ _ _ =>
          λ r, code r ≠ Pending
      | _ => λ _, True
      end
  end.

(** Metadata name the collection they are about. *)
Definition names_collection (A : Type) (c : Call A) : A → Prop :=
  match c with
  | Plugin op =>
      match op in PluginOp B return B → Prop with
      | S_collectionMetadata _ n | E_collectionMetadata _ n =>
          λ '(r, md), ok r = true → cm_collectionName md = n
      | _ => λ _, True
      end
  | _ => λ _, True
  end.

Section discipline.
  Context (strict : Prop).

(** The caller may access the collection [c] of the plugin [p], whose metadata
    are [md]. *)
Definition granted (pid : Z) (hist : list Event) (p c : string) (md : CollectionMetadata) : Prop :=
  permitted pid hist p c ∧ cm_collectionName md = c
  ∧ (strict → matches p (cm_encryptionPluginName md)).

(** Where a standalone secret is to be stored: the plugins exist. *)
Definition storable (p e : string) : Prop :=
  strict → if bool_decide (p = e) then hasE env p = true
           else hasS env p = true ∧ hasC env e = true.

(** The parameters of a pending request are those its continuation takes, and
    what it will do is authorized. *)
Definition resumable (pid id : Z) (hist : list Event) (p : PendingRequest) : Prop :=
  (pr_callerPid p = pid ∧ pr_requestId p = id) ∧
  match begun hist, pr_requestType p, pr_parameters p with
  | Some UserInput, CreateCustomLockCollectionRequest,
      [VString _; VString p; VString e; VString _; VInt _; VInt _; VInt _; VString _] => storable p e
  | Some UserInput, SetCollectionUserInputSecretRequest,
      [VSecret s; VInteractionParameters _; VInt _; VString _; VCollectionMetadata md]
  | Some _, SetCollectionSecretRequest, [VSecret s; VInt _; VString _; VCollectionMetadata md] =>
      granted pid hist (ident_storagePluginName (secret_identifier s))
        (ident_collectionName (secret_identifier s)) md
  | Some UserInput, SetStandaloneDeviceLockUserInputSecretRequest, [VSecret s; VSecretMetadata md] =>
      strict → hasS env (ident_storagePluginName (secret_identifier s)) = true
               ∧ hasC env (sm_encryptionPluginName md) = true
  | Some UserInput, SetStandaloneCustomLockUserInputSecretRequest,
      [VSecret s; VInt _; VString _; VSecretMetadata md] =>
      storable (ident_storagePluginName (secret_identifier s)) (sm_encryptionPluginName md)
      ∧ (strict → hasA env (sm_authenticationPluginName md) = true)
  | Some UserInput, SetStandaloneCustomLockSecretRequest, [VSecret s; VSecretMetadata md] =>
      storable (ident_storagePluginName (secret_identifier s)) (sm_encryptionPluginName md)
  | Some _, GetCollectionSecretRequest, [VIdentifier i; VInt _; VString _; VCollectionMetadata md]
  | Some _, DeleteCollectionSecretRequest, [VIdentifier i; VInt _; VString _; VCollectionMetadata md] =>
      granted pid hist (ident_storagePluginName i) (ident_collectionName i) md
  | Some _, GetStandaloneSecretRequest, [VIdentifier i; VInt _; VString _; VSecretMetadata md] =>
      strict → matches (ident_storagePluginName i) (sm_encryptionPluginName md)
  | Some _, FindCollectionSecretsRequest,
      [VString c; VString p; VFilterData _; VFilterOperator _; VInt _; VString _;
       VCollectionMetadata md] => granted pid hist p c md
  | Some _, DeleteCollectionRequest,
      [VString c; VString p; VInt _; VString _; VCollectionMetadata md] => granted pid hist p c md
  | Some UserInput, ModifyLockCodeRequest,
      [VInt _; VString _; VInteractionParameters _; VInt _; VString _]
  | Some UserInput, ModifyLockCodeRequest,
      [VInt _; VString _; VInteractionParameters _; VInt _; VString _; VByteArray _]
  | Some UserInput, ProvideLockCodeRequest,
      [VInt _; VString _; VInteractionParameters _; VInt _; VString _] =>
      applicationIsPlatformApplication env pid = true
  | Some UserInput, UserInputRequest, [VInteractionParameters _] => True
  | Some UserInput, UseCollectionKeyPreCheckRequest,
      [VIdentifier i; VInt _; VString _; VInt _; VCollectionMetadata md]
  | Some UserInput, SetCollectionKeyPreCheckRequest, [VIdentifier i; VInt _; VCollectionMetadata md]
  | Some DeviceLock, UseCollectionKeyPreCheckRequest, [VIdentifier i; VCollectionMetadata md]
  | Some DeviceLock, SetCollectionKeyPreCheckRequest, [VIdentifier i; VCollectionMetadata md] =>
      granted pid hist (ident_storagePluginName i) (ident_collectionName i) md
  | Some _, StoredKeyIdentifiersRequest,
      [VString c; VString p; VMap _; VInt _; VString _; VCollectionMetadata md] =>
      granted pid hist p c md
  | _, _, _ => False
  end.

(** One answer for each request. *)
Definition returns (callback parked : bool) (r : Result) : Prop :=
  if bool_decide (code r = Pending) then parked = true else callback = false ∧ parked = false.

Definition finishes (callback parked : bool) (r : Result) : Prop :=
  callback = true ∧ parked = false ∧ code r ≠ Pending.

Definition discipline (pid id : Z) : Policy :=
  mkPolicy
    (λ A c a, names_collection A c a ∧ (strict → well_behaved A c a))
    (λ hist A c, authorized pid hist A c ∧ (strict → installed c))
    (resumable pid id)
    (λ parked, strict → parked = false)
    (λ callback parked r, strict → returns callback parked r)
    (λ callback parked r, strict → finishes callback parked r)
    (¬ strict) False.
End discipline.
End authorization.
