(* ===== verification/ApplicationPermissions.v ===== *)
(** What the daemon thinks of the process that calls it:
    daemon/SecretsImpl/applicationpermissions.cpp, and what follows for the access
    control of the request processor.

    What the kernel tells of a process is a record; strings are the bytes of their
    UTF-8 encoding. *)
From S2P Require Import Prelude Result PluginApi PluginFunctionWrappers Processor.
From S2P Require Import MetadataDb ProcessorCollections.
From Stdlib Require Import Ascii.

(** * Strings *)

Fixpoint bytes_of (s : string) : list ascii :=
  match s with
  | EmptyString => []
  | String c s => c :: bytes_of s
  end.
Fixpoint string_of (l : list ascii) : string :=
  match l with
  | [] => EmptyString
  | c :: l => String c (string_of l)
  end.

(** [QByteArray::split] *)
Fixpoint split_at (sep : ascii) (s : string) : list string :=
  match s with
  | EmptyString => [EmptyString]
  | String c s =>
      if bool_decide (c = sep) then EmptyString :: split_at sep s
      else match split_at sep s with
           | l :: ls => String c l :: ls
           | [] => [String c EmptyString]
           end
  end.

(** What follows the first place at which [sep] is found: [indexOf] and [mid] *)
Fixpoint after (sep s : string) : option string :=
  if String.prefix sep s then Some (String.substring (String.length sep) (String.length s) s)
  else match s with
       | EmptyString => None
       | String _ s => after sep s
       end.

(** [QString::trimmed]: white space is removed at both ends. *)
Definition isSpace (c : ascii) : bool :=
  let n := nat_of_ascii c in
  bool_decide (n = 32) || (bool_decide (9 ≤ n) && bool_decide (n ≤ 13)).
Fixpoint drop_spaces (l : list ascii) : list ascii :=
  match l with
  | c :: l' => if isSpace c then drop_spaces l' else l
  | [] => []
  end.
Definition trimmed (s : string) : string :=
  string_of (reverse (drop_spaces (reverse (drop_spaces (bytes_of s))))).

(** * Processes *)

(** What /proc says of a process: the contents of cgroup, if it exists and can be
    opened; the size that [lstat] gives for exe, if it does, and the target that
    [readlink] gives; the contents of cmdline; and to whom the directory belongs. *)
Record Process := mkProcess {
  proc_cgroup : option string;
  proc_exe_size : option nat;
  proc_exe : option string;
  proc_cmdline : option string;
  proc_owner : string;
  proc_group : string;
}.

Definition newline : ascii := ascii_of_nat 10.
Definition nul : ascii := ascii_of_nat 0.

(** The loop over the lines *)
Fixpoint booster_cgroup (lines : list string) : string :=
  match lines with
  | [] => ""
  | line :: lines =>
      match after ":name=booster:" line with
      | Some cgroupName =>
          if negb (isEmpty cgroupName) && negb (bool_decide (cgroupName = "/")) then trimmed cgroupName
          else booster_cgroup lines
      | None => booster_cgroup lines
      end
  end.

(** [readBoosterCgroup] *)
Definition readBoosterCgroup (p : Process) : string :=
  match proc_cgroup p with
  | Some contents => booster_cgroup (split_at newline contents)
  | None => ""
  end.

(** The bytes of a C string *)
Fixpoint until_nul (l : list ascii) : list ascii :=
  match l with
  | c :: l => if bool_decide (c = nul) then [] else c :: until_nul l
  | [] => []
  end.

(** What is in a buffer after [readlink] has written to it: at most its length, and
    no end of the string *)
Definition readlink (target buffer : list ascii) : list ascii :=
  take (length buffer) target ++ drop (length target) buffer.

(** [readExeSymlink]; [malloc]: what is in the memory that one gets, if any *)
Definition readExeSymlink (malloc : nat → option (list ascii)) (p : Process) : string :=
  match proc_exe_size p with
  | None => ""
  | Some st_size =>
      match malloc (st_size + 1) with
      | None => ""
      | Some linkName =>
          match proc_exe p with
          | None => ""
          | Some target =>
              let linkName := readlink (bytes_of target) linkName in
              let linkName := <[st_size := nul]> linkName in
              string_of (until_nul linkName)
          end
      end
  end.

(** [readCmdline] *)
Definition readCmdline (p : Process) : string :=
  match proc_cmdline p with
  | Some data =>
      trimmed (string_of ((λ c, if bool_decide (c = nul) then " "%char else c) <$> bytes_of data))
  | None => ""
  end.

(** * Applications *)

Definition sailfish_os : string := "Sailfish OS".

Section Permissions.
Context (malloc : nat → option (list ascii)).
Context (processes : Z → Process).

(** [ApplicationPermissions::applicationId]; [platformApplicationId] is
    [sailfish_os]. *)
Definition permissions_applicationId (pid : Z) : string :=
  if bool_decide (pid = 0%Z) then sailfish_os
  else
    let cgroupName := readBoosterCgroup (processes pid) in
    if negb (isEmpty cgroupName) then cgroupName
    else
      let linkName := readExeSymlink malloc (processes pid) in
      if negb (isEmpty linkName) then linkName
      else
        let cmdLine := readCmdline (processes pid) in
        if negb (isEmpty cmdLine) then cmdLine else "".

(** [ApplicationPermissions::applicationIsPlatformApplication] *)
Definition permissions_isPlatform (pid : Z) : bool :=
  if bool_decide (pid = 0%Z) then true
  else
    let p := processes pid in
    negb (negb (bool_decide (proc_group p = "privileged")) && negb (bool_decide (proc_group p = "disk"))
          && negb (bool_decide (proc_owner p = "root"))).

(** The daemon with these permissions *)
Definition with_permissions (env : Environment) : Environment :=
  mkEnvironment (m_autotestMode env) (m_encryptionPlugins env) (m_storagePlugins env)
    (m_encryptedStoragePlugins env) (m_cryptoStoragePlugins env) (m_authenticationPlugins env)
    (mappedPluginName env) permissions_isPlatform sailfish_os permissions_applicationId
    (sha512Base64 env).

End Permissions.

(** * Properties *)

(** [malloc] gives as much memory as it is asked for. *)
Definition malloc_ok (malloc : nat → option (list ascii)) : Prop :=
  ∀ n l, malloc n = Some l → length l = n.

(** The link whose size is given as zero is never read. *)
Lemma exe_of_size_zero malloc p :
  malloc_ok malloc → proc_exe_size p = Some 0 → readExeSymlink malloc p = "".
Proof.
  intros Hm Hp. unfold readExeSymlink. rewrite Hp.
  destruct (malloc (0 + 1)) as [l|] eqn:E; [|done]. apply Hm in E.
  destruct (proc_exe p) as [target|]; [|done].
  destruct l as [|c [|]]; try done. unfold readlink. simpl.
  destruct (bytes_of target) as [|a l]; simpl; [done|]. done.
Qed.

(** The kernel gives zero as the size of /proc/<pid>/exe (readlink(2)).  Then the
    executable of a caller plays no role: its application id is the name of its
    control group, or else its command line, which the caller chooses. *)
Theorem exe_link_is_ignored malloc processes pid :
  malloc_ok malloc → pid ≠ 0%Z → proc_exe_size (processes pid) = Some 0 →
  permissions_applicationId malloc processes pid
  = if isEmpty (readBoosterCgroup (processes pid)) then readCmdline (processes pid)
    else readBoosterCgroup (processes pid).
Proof.
  intros Hm Hpid Hsize. unfold permissions_applicationId. rewrite bool_decide_eq_false_2 by done.
  rewrite exe_of_size_zero by done. simpl.
  destruct (isEmpty (readBoosterCgroup (processes pid))) eqn:E; simpl; [|done].
  destruct (isEmpty (readCmdline (processes pid))) eqn:E'; simpl; [|done].
  by apply bool_decide_eq_true in E'.
Qed.

(** A process with its arguments, started in the control groups of a session and not
    by the booster *)
Definition example_cgroup : string :=
  "3:cpu:/user.slice" +:+ String newline ("2:name=systemd:/user.slice/session-c1.scope"
    +:+ String newline ("1:name=booster:/" +:+ String newline EmptyString)).
Definition example_process (arguments : string) : Process :=
  mkProcess (Some example_cgroup) (Some 0) (Some "/usr/bin/evil") (Some arguments) "nemo" "nemo".
Definition example_malloc (n : nat) : option (list ascii) := Some (replicate n "x"%char).
Definition spoofed : string := "Sailfish" +:+ String nul ("OS" +:+ String nul EmptyString).

Lemma example_malloc_ok : malloc_ok example_malloc.
Proof. intros n l [= <-]. apply length_replicate. Qed.

Lemma exe_link_is_ignored_witness :
  permissions_applicationId example_malloc (λ _, example_process "bank-app") 42 = "bank-app".
Proof.
  rewrite (exe_link_is_ignored example_malloc (λ _, example_process "bank-app") 42 example_malloc_ok
    ltac:(done) eq_refl). vm_compute. reflexivity.
Defined.

(** C33: Any process that is not started by the booster, which is to say that
    readBoosterCgroup finds no name for it in its control groups, can claim to be
    the platform where the kernel gives zero as the size of the link exe, as
    readlink(2) says: with the arguments Sailfish and OS it gets the application id
    of the platform although it is not a platform application, and passes the access
    control of every collection that belongs to the platform and is of
    OwnerOnlyMode. *)
Theorem platform_identity_can_be_claimed malloc processes env pid p message metadata :
  malloc_ok malloc → pid ≠ 0%Z → processes pid = p →
  proc_exe_size p = Some 0 → readBoosterCgroup p = "" →
  proc_cmdline p = Some ("Sailfish" +:+ String nul ("OS" +:+ String nul EmptyString)) →
  permissions_isPlatform processes pid = false →
  cm_ownerApplicationId metadata = sailfish_os → cm_accessControlMode metadata = OwnerOnlyMode →
  callerApplicationId (with_permissions malloc processes env) pid = sailfish_os
  ∧ access_denied (callerApplicationId (with_permissions malloc processes env) pid) message metadata
    = None.
Proof.
  intros Hm Hpid Hp Hsize Hcg Hcmd Hplat Hown Hmode.
  assert (Hid : callerApplicationId (with_permissions malloc processes env) pid = sailfish_os).
  { unfold callerApplicationId. simpl. rewrite Hplat. unfold permissions_applicationId.
    rewrite bool_decide_eq_false_2, Hp, exe_of_size_zero by done.
    rewrite Hcg. unfold readCmdline. by rewrite Hcmd. }
  split; [done|]. rewrite Hid. unfold access_denied. rewrite Hown, Hmode. done.
Qed.

Definition example_environment : Environment :=
  mkEnvironment false ∅ ∅ ∅ ∅ ∅ (λ n, n) (λ _, false) sailfish_os (λ _, "") (λ b, b).
Definition platform_collection : CollectionMetadata :=
  mkCollectionMetadata "accounts" sailfish_os true "" "" 0 OwnerOnlyMode.

Lemma platform_identity_can_be_claimed_witness :
  access_denied
    (callerApplicationId
       (with_permissions example_malloc (λ _, example_process spoofed) example_environment) 42)
    "The collection is owned by a different application" platform_collection = None.
Proof.
  exact (proj2 (platform_identity_can_be_claimed example_malloc (λ _, example_process spoofed)
    example_environment 42 (example_process spoofed) "The collection is owned by a different application"
    platform_collection example_malloc_ok ltac:(done) eq_refl eq_refl eq_refl eq_refl eq_refl eq_refl
    eq_refl)).
Defined.
