(* ===== verification/ProcessorAuthorized.v ===== *)
(** Every handler of the request processor keeps to the discipline: collections
    and their secrets. *)
From S2P Require Import Prelude Result MetadataDb PluginApi PluginWrapper PluginFunctionWrappers Processor ProcessorCollections ProcessorSecrets ProcessorStandalone ProcessorLocks ProcessorCompletion SecretsService ProcessorSystem ProcessorAccess.

(** Lemmas on handlers, for [walk]. *)
Create HintDb handlers.

(** Use what holds in the strict case. *)
Ltac strictly :=
  let Hs := fresh "Hs" in
  intros Hs;
  repeat match goal with
  | H : granted _ _ _ _ _ _ _ |- _ => destruct H as (_&_&H)
  | H : storable _ _ _ _ |- _ => unfold storable in H
  | H : ?S → _, Hs : ?S |- _ => specialize (H Hs)
  end; cbn in *.

(** Installed plugins: distinguish the cases of the tests. *)
Ltac plugins :=
  strictly; unfold matches in *; destruct_and?;
  repeat match goal with
  | H : (if ?b then _ else _) |- _ => destruct b
  | H : context [hasE ?e ?p] |- _ => destruct (hasE e p)
  | H : context [hasS ?e ?p] |- _ => destruct (hasS e p)
  | H : context [hasC ?e ?p] |- _ => destruct (hasC e p)
  | H : context [stored_encrypted ?p ?e] |- _ => destruct (stored_encrypted p e)
  | H : context [bool_decide ?P] |- _ => destruct (bool_decide P)
  end; cbn in *; destruct_and?; subst; first [done|congruence|tauto].

(** The end of a path: one answer. *)
Ltac answer :=
  strictly; unfold returns, finishes; cbn;
  repeat first [progress destruct_and?|case_bool_decide]; first [intuition congruence|naive_solver].

(** Walk along the paths of a handler: case distinctions, calls, and the handlers
    that the database knows. *)
Ltac walk :=
  intros; cbv zeta beta;
  lazymatch goal with
  | |- safe _ _ _ _ (if ?b then _ else _) => destruct b eqn:?; walk
  | |- safe _ _ _ _ (match ?x with _ => _ end) => destruct x eqn:?; walk
  | |- safe _ _ _ _ (Get _) => intro; walk
  | |- safe _ _ _ _ (fail_with _ _) => unfold fail_with; walk
  | |- safe _ _ _ _ pending => unfold pending; walk
  | |- safe _ _ _ _ (requires_interaction _) => unfold requires_interaction; walk
  | |- safe _ _ _ _ (invalid_input_plugin _) => unfold invalid_input_plugin; walk
  | |- safe _ _ _ _ database_locked => unfold database_locked; walk
  | |- safe _ _ _ _ (Return _ _) => try (cbn [safe may_return discipline]; answer)
  | |- safe _ _ _ _ (Finish _ _) => try (cbn [safe may_finish discipline]; answer)
  | |- safe _ _ _ _ (Put _ _) => split; [try done|walk]
  | |- safe _ _ _ _ (Sync (Plugin (if ?b then _ else _)) _) => destruct b eqn:?; walk
  | |- safe _ _ _ _ (Run (if ?b then _ else _) _) => destruct b eqn:?; walk
  | |- safe _ _ _ _ (Sync _ _) =>
      split; [cbn [allowed discipline]; split; [try (eauto with handlers; fail)|try plugins]
             |intros ? [? ?]; walk]
  | |- safe _ _ _ _ (Run _ _) =>
      split; [split; [cbn [allowed discipline]; split; [try (eauto with handlers; fail)|try plugins]
                     |try done]
             |intros ? [? ?]; walk]
  | |- safe _ _ _ _ _ => try (eauto with handlers; fail)
  | |- _ => idtac
  end.

Section authorized.
  Context (env : Environment) (strict : Prop) (pid id : Z).

Local Abbreviation policy := (discipline env strict pid id).

Lemma permitted_app hist l p c : permitted env pid hist p c → permitted env pid (hist ++ l) p c.
Proof. intros (r&md&Hin&?&?). exists r, md. by rewrite elem_of_app; auto. Qed.

Lemma granted_app hist l p c md :
  granted env strict pid hist p c md → granted env strict pid (hist ++ l) p c md.
Proof. intros (?&?&?). split; [by apply permitted_app|done]. Qed.

(** Calls that touch nothing. *)
Lemma authorized_harmless hist {A} (c : Call A) :
  match c with Plugin op => collection_of op = None | _ => True end → locks c = false →
  authorized env pid hist A c.
Proof. intros Hc Hl. split; [|by rewrite Hl]. destruct c; [|done..]. by rewrite Hc. Qed.

(** Operations on a collection the caller may access. *)
Lemma authorized_touch hist {A} (op : PluginOp A) p c md :
  collection_of op = Some (p, c) → locks (Plugin op) = false → granted env strict pid hist p c md →
  authorized env pid hist A (Plugin op).
Proof. intros Ht Hl [Hp _]. split; [|by rewrite Hl]. rewrite Ht. by intros ?? [= <- <-]. Qed.

(** Operations on a standalone secret. *)
Lemma authorized_standalone hist {A} (op : PluginOp A) p c :
  collection_of op = Some (p, c) → locks (Plugin op) = false → is_collection c = false →
  authorized env pid hist A (Plugin op).
Proof. intros Ht Hl Hc. split; [|by rewrite Hl]. rewrite Ht. intros ?? [= <- <-]. by rewrite Hc. Qed.

(** What platform applications may do. *)
Lemma authorized_lock hist {A} (c : Call A) :
  applicationIsPlatformApplication env pid = true →
  match c with Plugin op => collection_of op = None | _ => True end →
  authorized env pid hist A c.
Proof. intros Hp Hc. split; [|done]. destruct c; [|done..]. by rewrite Hc. Qed.

(** A callback that reports what a handler returns. *)
Lemma finishing_ok hist parked out h :
  safe policy hist false parked h → safe policy hist true parked (finishing out h).
Proof.
  apply safe_finishing; cbn.
  - intros b r Hr. case_bool_decide as Hc.
    + intros Hs. specialize (Hr Hs). unfold returns in *. by rewrite bool_decide_true in * by done.
    + intros Hs. specialize (Hr Hs). unfold returns in Hr. rewrite bool_decide_false in Hr by done.
      destruct Hr. done.
  - intros b r Hr Hs. destruct (Hr Hs) as [? _]. done.
Qed.
End authorized.

#[export] Hint Resolve permitted_app granted_app : handlers.
#[export] Hint Extern 1 (authorized _ _ _ _ _) =>
  first [by apply authorized_harmless
        |eapply authorized_touch; [reflexivity|reflexivity|]; eauto with handlers; fail] : handlers.
#[export] Hint Extern 2 (authorized _ _ _ _ _) =>
  first [by eapply authorized_standalone|by apply authorized_lock] : handlers.

(** * Asking the user *)
Section interaction.
  Context (env : Environment) (strict : Prop) (pid id : Z).

Local Abbreviation policy := (discipline env strict pid id).

(** The request may be registered once the interaction has begun. *)
Definition after {A} (hist : list Event) (c : Call A) (p : PendingRequest) : Prop :=
  ∀ a, resumable env strict pid id (hist ++ [Ev c a]) p.

(** What follows the beginning of an interaction. *)
Lemma begun_ok hist callback (c : AuthCall Result) (h : Result → Handler) p :
  (∀ r, strict → well_behaved env _ (Auth c) r → code r = Pending ∨ code r = Failed) →
  authorized env pid hist _ (Auth c) → (strict → installed env (Auth c)) →
  after hist (Auth c) p → callback = false →
  (∀ r, h r = Return r [] ∨ h r = pending) →
  safe policy hist callback false
    (ask* result := c in if failed result then Return result [] else Park p (h result)).
Proof.
  intros Hw Ha Hi Hp -> Hh. split; [done|]. intros r [_ Hr]. unfold failed.
  case_bool_decide as Hf; [simpl; answer|]. split; [split; [apply Hp|done]|].
  destruct (Hh r) as [->| ->]; simpl; [|answer].
  intros Hs. unfold returns. destruct (Hw r Hs (Hr Hs)); [|done]. by rewrite bool_decide_true.
Qed.

Lemma begin_user_input_ok hist plugin ip address p :
  after hist (Auth (BeginUserInputInteraction plugin pid id ip address)) p →
  (strict → hasA env plugin = true) →
  safe policy hist false false (begin_user_input env plugin pid id ip address p).
Proof.
  intros Hp Hplugin. unfold begin_user_input.
  destruct (hasA _ _) eqn:Ha in |- *; [|simpl; intros Hs; by rewrite (Hplugin Hs) in Ha].
  apply (begun_ok _ _ _ (λ r, pending)); auto. by apply authorized_harmless.
Qed.

Lemma custom_lock_ok hist a u i ip mode address p :
  after hist (Auth (BeginUserInputInteraction a pid id ip address)) p →
  safe policy hist false false (custom_lock_interaction env a u i pid id ip mode address p).
Proof.
  intros Hp. unfold custom_lock_interaction. walk.
  all: apply begin_user_input_ok; [done|]; intros _; apply bool_decide_true; eauto.
Qed.

Context (Hsystem : strict → hasA env (systemAuthenticationPlugin env) = true).

Lemma begin_authentication_ok hist p :
  after hist (Auth (BeginAuthentication (systemAuthenticationPlugin env) pid id)) p →
  safe policy hist false false (begin_authentication env pid id p).
Proof.
  intros Hp. unfold begin_authentication. destruct (hasA _ _) eqn:Ha in |- *;
    [|simpl; intros Hs; by rewrite (Hsystem Hs) in Ha].
  apply (begun_ok _ _ _ (λ r, Return r [])); auto. by apply authorized_harmless.
Qed.

Lemma device_lock_ok hist c mode p :
  after hist (Auth (BeginAuthentication (systemAuthenticationPlugin env) pid id)) p →
  safe policy hist false false (device_lock_authentication env pid id c mode p).
Proof. intros Hp. unfold device_lock_authentication. walk. by apply begin_authentication_ok. Qed.
End interaction.

(** The parameters fit, and access was permitted before. *)
Ltac resume :=
  intro; split; [done|]; unfold begun; rewrite last_snoc; simpl;
  try done; eauto with handlers.
#[export] Hint Extern 1 (after _ _ _ _ _ _) => resume : handlers.

(** * Collections *)
Section collections.
  Context (env : Environment) (strict : Prop) (pid id : Z).

Local Abbreviation policy := (discipline env strict pid id).
Local Abbreviation granted := (granted env strict pid).

(** Access is not denied. *)
Lemma access_denied_none application msg md :
  access_denied application msg md = None → may_access application md.
Proof.
  unfold access_denied. case_bool_decide; [done|]. intros Hd. split; [done|].
  intros Ho. rewrite bool_decide_true in Hd by done. simpl in Hd.
  case_bool_decide; [done|]. done.
Qed.

Lemma access_denied_some application msg md r :
  access_denied application msg md = Some r → code r = Failed.
Proof. unfold access_denied. repeat case_match; by intros [= <-]. Qed.

(** Deny, or go on with what was granted. *)
Lemma unless_denied_ok hist p c md msg k :
  (may_access (callerApplicationId env pid) md → granted hist p c md) →
  (granted hist p c md → safe policy hist false false k) →
  safe policy hist false false
    match access_denied (callerApplicationId env pid) msg md with
    | Some e => Return e []
    | None => k
    end.
Proof.
  intros Hg Hk. destruct (access_denied _ _ _) as [e|] eqn:He.
  - apply access_denied_some in He. simpl. answer.
  - apply access_denied_none in He. auto.
Qed.

Lemma metadata_expected p c r md :
  expected policy _ (Plugin (collectionMetadata_of env p c)) (r, md) →
  (strict → code r ≠ Pending)
  ∧ (ok r = true → cm_collectionName md = c ∧ (strict → matches env p (cm_encryptionPluginName md))).
Proof. unfold collectionMetadata_of. case_match; intros [Hn Hw]; simpl in *; naive_solver. Qed.

(** The handler that goes on may assume that access is granted if it is not
    denied. *)
Lemma with_collectionMetadata_ok hist callback p c out k :
  (strict → hasE env p = true ∨ hasS env p = true) →
  (∀ hist md, (may_access (callerApplicationId env pid) md → granted hist p c md) →
     safe policy hist false false (k md)) →
  safe policy hist callback false (with_collectionMetadata env p c out k).
Proof.
  intros Hplugin Hk. unfold with_collectionMetadata. split; [split; [split|done]|].
  - unfold collectionMetadata_of. case_match; by apply authorized_harmless.
  - intros Hs. unfold collectionMetadata_of.
    destruct (hasE env p) eqn:He in |- *; simpl; [done|]. destruct (Hplugin Hs); congruence.
  - intros [r md] [Hr Hmd]%metadata_expected. apply finishing_ok. walk. apply Hk. intros Hm.
    destruct (Hmd eq_refl) as [<- Hmatch]. split; [|done].
    exists r, md. split; [|done]. rewrite elem_of_app. right. by left.
Qed.

(** The key that is derived for a collection. *)
Lemma derive_key_ok hist callback p e code salt k :
  (strict → hasE env p = true ∧ stored_encrypted p e = true
            ∨ hasC env e = true ∧ stored_encrypted p e = false) →
  (∀ l r key, (strict → Result.code r ≠ Pending) → safe policy (hist ++ l) true false (k (r, key))) →
  safe policy hist callback false (Run (derive_key p e code salt) k).
Proof.
  intros He Hk. unfold derive_key. destruct (stored_encrypted p e) eqn:Hp in |- *.
  all: split; [split; [split; [by apply authorized_harmless|]|done]|].
  all: try (intros Hs; simpl; destruct (He Hs) as [[? ?]|[? ?]]; congruence).
  all: intros [r key] [_ Hw]; by apply Hk.
Qed.

Lemma granted_derive hist p c md :
  granted hist p c md → strict →
  let e := cm_encryptionPluginName md in
  hasE env p = true ∧ stored_encrypted p e = true ∨ hasC env e = true ∧ stored_encrypted p e = false.
Proof. intros (_&_&Hm) Hs. specialize (Hm Hs). unfold matches in Hm. case_match; naive_solver. Qed.

(** The guards of the requests to create something. *)
Lemma create_guards_ok hist c p e k :
  (storable env strict p e → safe policy hist false false k) →
  safe policy hist false false (create_guards env c p e k).
Proof.
  intros Hk. unfold create_guards. walk. apply Hk. intros Hs.
  destruct (bool_decide (p = e)), (hasE env p), (hasS env p), (hasC env e); done.
Qed.

Lemma collectionNames_ok hist p :
  safe policy hist false false (collectionNames env pid id p).
Proof. unfold collectionNames. walk. Qed.

Lemma createDeviceLockCollection_ok hist c p e semantic access :
  safe policy hist false false (createDeviceLockCollection env pid id c p e semantic access).
Proof. apply create_guards_ok. intros Hst. walk. Qed.

Lemma createCustomLockCollection_ok hist c p e a semantic access mode address :
  safe policy hist false false
    (createCustomLockCollection env pid id c p e a semantic access mode address).
Proof.
  apply create_guards_ok. intros Hst. walk. apply begin_user_input_ok; [resume|].
  intros _. apply bool_decide_true. eauto.
Qed.

Lemma createWithEncryptionKey_ok hist callback c p e a semantic access mode address key :
  storable env strict p e →
  safe policy hist callback false (createCustomLockCollectionWithEncryptionKey env pid id c p e a
    semantic access mode address key).
Proof. intros Hst. unfold createCustomLockCollectionWithEncryptionKey. walk. Qed.

Lemma createWithAuthenticationCode_ok hist callback c p e a semantic access mode address code :
  storable env strict p e →
  safe policy hist callback false (createCustomLockCollectionWithAuthenticationCode env pid id c p e a
    semantic access mode address code).
Proof.
  intros Hst. unfold createCustomLockCollectionWithAuthenticationCode. walk.
  all: try by apply createWithEncryptionKey_ok.
  strictly. rewrite Heqb in Hst. apply bool_decide_eq_true in Heqb. by subst.
Qed.

(** * Deleting a collection *)

Lemma deleteCollectionWithLockCode_ok hist callback c p mode address md code :
  granted hist p c md →
  safe policy hist callback false (deleteCollectionWithLockCode env pid id c p mode address md code).
Proof. intros Hp. unfold deleteCollectionWithLockCode. walk. Qed.

Lemma deleteCollectionWithEncryptionKey_ok hist callback c p mode address md key :
  granted hist p c md →
  safe policy hist callback false (deleteCollectionWithEncryptionKey env pid id c p mode address md key).
Proof. intros Hp. unfold deleteCollectionWithEncryptionKey. walk. Qed.

Lemma with_locked_ok hist p c md k :
  granted hist p c md →
  (∀ hist locked, granted hist p c md → safe policy hist false false (k locked)) →
  safe policy hist false false (with_locked env p c k).
Proof. intros Hp Hk. unfold with_locked. walk. Qed.

Lemma owner_guards_ok hist p c md k :
  (may_access (callerApplicationId env pid) md → granted hist p c md) →
  (granted hist p c md → safe policy hist false false k) →
  safe policy hist false false (owner_guards env pid c md k).
Proof.
  intros Hg Hk. unfold owner_guards. apply (unless_denied_ok _ p c); [done|]. intros Hp. walk.
Qed.

(** A request resumes after either interaction. *)
Lemma resume_either hist {A} (c : Call A) a pr :
  begins c = Some DeviceLock ∨ begins c = Some UserInput →
  (begun (hist ++ [Ev c a]) = Some DeviceLock → resumable env strict pid id (hist ++ [Ev c a]) pr) →
  (begun (hist ++ [Ev c a]) = Some UserInput → resumable env strict pid id (hist ++ [Ev c a]) pr) →
  resumable env strict pid id (hist ++ [Ev c a]) pr.
Proof. unfold begun. rewrite last_snoc. intros [Hb|Hb]; rewrite Hb; auto. Qed.

(** * The keys of a collection *)

Lemma storedKeysWithEncryptionKey_ok hist callback c p custom mode address md key locked :
  granted hist p c md →
  safe policy hist callback false (storedKeyIdentifiersWithEncryptionKey env pid id c p custom mode
    address md key locked).
Proof. intros Hp. unfold storedKeyIdentifiersWithEncryptionKey. walk. Qed.

Lemma storedKeysWithAuthenticationCode_ok hist callback c p custom mode address md code :
  granted hist p c md →
  safe policy hist callback false (storedKeyIdentifiersWithAuthenticationCode env pid id c p custom
    mode address md code).
Proof.
  intros Hp. unfold storedKeyIdentifiersWithAuthenticationCode.
  split; [split; [by apply authorized_harmless|done]|]. intros salt _.
  apply derive_key_ok; [by eapply granted_derive|]. intros l r key Hr. walk.
  apply storedKeysWithEncryptionKey_ok. eauto with handlers.
Qed.

Lemma userInput_ok hist ip : safe policy hist false false (userInput env pid id ip).
Proof.
  unfold userInput. walk. apply begin_user_input_ok; [resume|]. intros _. by apply negb_false_iff.
Qed.

Context (Hsystem : strict → hasA env (systemAuthenticationPlugin env) = true).

Lemma unlock_interaction_ok hist c p op mode address md pr :
  (∀ k a, begins k = Some DeviceLock ∨ begins k = Some UserInput →
     resumable env strict pid id (hist ++ [@Ev Result k a]) pr) →
  safe policy hist false false (unlock_interaction env pid id c p op mode address md pr).
Proof.
  intros Hr. unfold unlock_interaction. walk.
  - apply device_lock_ok; [done|]. intros a. apply Hr. by left.
  - apply custom_lock_ok. intros a. apply Hr. by right.
Qed.

Lemma deleteCollectionWithMetadata_ok hist c p mode address md :
  (may_access (callerApplicationId env pid) md → granted hist p c md) →
  safe policy hist false false (deleteCollectionWithMetadata env pid id c p mode address md).
Proof.
  intros Hp. apply (owner_guards_ok _ p); [done|]. intros Hm. apply (with_locked_ok _ _ _ md); [done|].
  intros hist' locked Hp'. walk; [|by apply deleteCollectionWithLockCode_ok].
  apply unlock_interaction_ok. intros k a Hk.
  apply resume_either; [done|..]; intros Hb; split; try done; rewrite Hb; simpl; by apply granted_app.
Qed.

Lemma deleteCollection_ok hist c p mode address :
  safe policy hist false false (deleteCollection env pid id c p mode address).
Proof.
  unfold deleteCollection. walk. apply with_collectionMetadata_ok.
  - destruct (hasE env p), (hasS env p); auto.
  - intros. by apply deleteCollectionWithMetadata_ok.
Qed.

Lemma storedKeysWithMetadata_ok hist c p custom mode address md :
  (may_access (callerApplicationId env pid) md → granted hist p c md) →
  safe policy hist false false
    (storedKeyIdentifiersWithMetadata env pid id c p custom mode address md).
Proof.
  intros Hp. apply (owner_guards_ok _ p); [done|]. intros Hm. apply (with_locked_ok _ _ _ md); [done|].
  intros hist' locked Hp'. walk; [|by apply storedKeysWithEncryptionKey_ok].
  apply unlock_interaction_ok. intros k a Hk.
  apply resume_either; [done|..]; intros Hb; split; try done; rewrite Hb; simpl; by apply granted_app.
Qed.

Lemma storedKeyIdentifiers_ok hist c p custom mode address :
  safe policy hist false false (storedKeyIdentifiers env pid id c p custom mode address).
Proof.
  unfold storedKeyIdentifiers. walk. apply with_collectionMetadata_ok.
  - destruct (hasE env p), (hasS env p); auto.
  - intros. by apply storedKeysWithMetadata_ok.
Qed.
End collections.
#[export] Hint Resolve deleteCollectionWithLockCode_ok deleteCollectionWithEncryptionKey_ok
  createWithAuthenticationCode_ok storedKeysWithEncryptionKey_ok storedKeysWithAuthenticationCode_ok
  : handlers.
#[export] Hint Resolve collectionNames_ok createDeviceLockCollection_ok createCustomLockCollection_ok
  deleteCollection_ok storedKeyIdentifiers_ok userInput_ok : handlers.

(** * The secrets of a collection *)
Section secrets.
  Context (env : Environment) (strict : Prop) (pid id : Z).

Local Abbreviation policy := (discipline env strict pid id).
Local Abbreviation granted_for hist i md :=
  (granted env strict pid hist (ident_storagePluginName i) (ident_collectionName i) md).

Lemma secret_guards_ok hist i k :
  ((strict → hasE env (ident_storagePluginName i) = true
             ∨ hasS env (ident_storagePluginName i) = true) → safe policy hist false false k) →
  safe policy hist false false (secret_guards env i k).
Proof.
  intros Hk. unfold secret_guards. walk. apply Hk. intros _.
  destruct (hasE env _), (hasS env _); auto.
Qed.

Lemma keep_key_ok hist callback c p u semantic key k :
  safe policy hist callback false k →
  safe policy hist callback false (keep_key env c p u semantic key k).
Proof. intros Hk. unfold keep_key. walk. Qed.

Lemma with_derived_key_ok hist callback p e code k :
  (strict → hasE env p = true ∧ stored_encrypted p e = true
            ∨ hasC env e = true ∧ stored_encrypted p e = false) →
  (∀ l key, safe policy (hist ++ l) true false (k key)) →
  safe policy hist callback false (with_derived_key p e code k).
Proof.
  intros He Hk. unfold with_derived_key. split; [split; [by apply authorized_harmless|done]|].
  intros salt _. apply derive_key_ok; [done|]. intros l r key Hr. walk.
  rewrite <-app_assoc. apply Hk.
Qed.

(** The key of a collection that the caller may access. *)
Lemma with_collection_key_ok hist callback p c md code k :
  granted env strict pid hist p c md →
  (∀ l key, granted env strict pid (hist ++ l) p c md → safe policy (hist ++ l) true false (k key)) →
  safe policy hist callback false (with_derived_key p (cm_encryptionPluginName md) code k).
Proof.
  intros Hp Hk. apply with_derived_key_ok; [by eapply granted_derive|]. eauto with handlers.
Qed.

Lemma setWithEncryptionKey_ok hist callback s mode address md key :
  granted_for hist (secret_identifier s) md →
  safe policy hist callback false
    (setCollectionSecretWithEncryptionKey env pid id s mode address md key).
Proof.
  intros Hp. unfold setCollectionSecretWithEncryptionKey. walk. apply keep_key_ok. walk.
Qed.

Lemma setWithAuthenticationCode_ok hist s mode address md code :
  granted_for hist (secret_identifier s) md →
  safe policy hist false false
    (setCollectionSecretWithAuthenticationCode env pid id s mode address md code).
Proof.
  intros Hp. unfold setCollectionSecretWithAuthenticationCode. walk.
  all: eapply with_collection_key_ok; [done|]; intros; by apply setWithEncryptionKey_ok.
Qed.

Lemma getWithEncryptionKey_ok hist callback i mode address md key :
  granted_for hist i md →
  safe policy hist callback false
    (getCollectionSecretWithEncryptionKey env pid id i mode address md key).
Proof.
  intros Hp. unfold getCollectionSecretWithEncryptionKey. walk. apply keep_key_ok. walk.
Qed.

Lemma getWithAuthenticationCode_ok hist i mode address md code :
  granted_for hist i md →
  safe policy hist false false
    (getCollectionSecretWithAuthenticationCode env pid id i mode address md code).
Proof.
  intros Hp. unfold getCollectionSecretWithAuthenticationCode. walk.
  all: eapply with_collection_key_ok; [done|]; intros; by apply getWithEncryptionKey_ok.
Qed.

Lemma findWithEncryptionKey_ok hist callback c p flt op mode address md key :
  granted env strict pid hist p c md →
  safe policy hist callback false
    (findCollectionSecretsWithEncryptionKey env pid id c p flt op mode address md key).
Proof.
  intros Hp. pose proof Hp as (_&<-&_). unfold findCollectionSecretsWithEncryptionKey. walk.
  apply keep_key_ok. walk.
Qed.

Lemma findWithAuthenticationCode_ok hist c p flt op mode address md code :
  granted env strict pid hist p c md →
  safe policy hist false false
    (findCollectionSecretsWithAuthenticationCode env pid id c p flt op mode address md code).
Proof.
  intros Hp. unfold findCollectionSecretsWithAuthenticationCode. walk.
  all: eapply with_collection_key_ok; [done|]; intros; by apply findWithEncryptionKey_ok.
Qed.

Lemma deleteSecretWithEncryptionKey_ok hist callback i mode address md key :
  granted_for hist i md →
  safe policy hist callback false
    (deleteCollectionSecretWithEncryptionKey env pid id i mode address md key).
Proof.
  intros Hp. unfold deleteCollectionSecretWithEncryptionKey. walk. apply keep_key_ok. walk.
Qed.

Lemma deleteSecretWithAuthenticationCode_ok hist i mode address md code :
  granted_for hist i md →
  safe policy hist false false
    (deleteCollectionSecretWithAuthenticationCode env pid id i mode address md code).
Proof.
  intros Hp. unfold deleteCollectionSecretWithAuthenticationCode. walk.
  all: eapply with_collection_key_ok; [done|]; intros; by apply deleteSecretWithEncryptionKey_ok.
Qed.

Context (Hsystem : strict → hasA env (systemAuthenticationPlugin env) = true).

(** The end of the handlers below: with the key, or after an interaction. *)
Local Ltac proceed lemma :=
  walk;
  try (apply device_lock_ok; [done|]; resume);
  try (apply custom_lock_ok; resume);
  try (apply lemma; eauto with handlers).

Lemma setGetAuthenticationCode_ok hist s mode address md :
  granted_for hist (secret_identifier s) md →
  safe policy hist false false
    (setCollectionSecretGetAuthenticationCode env pid id s mode address md).
Proof.
  intros Hp. unfold setCollectionSecretGetAuthenticationCode, with_kept_key.
  proceed setWithEncryptionKey_ok.
Qed.

Lemma setWithMetadata_ok hist s ui mode address md :
  (may_access (callerApplicationId env pid) md → granted_for hist (secret_identifier s) md) →
  safe policy hist false false (setCollectionSecretWithMetadata env pid id s ui mode address md).
Proof.
  intros Hg. eapply unless_denied_ok; [done|]. intros Hp. walk.
  - by apply setGetAuthenticationCode_ok.
  - apply begin_user_input_ok; [resume|]. intros _. by apply negb_false_iff.
Qed.

Lemma setCollectionSecret_ok hist s ui mode address :
  safe policy hist false false (setCollectionSecret env pid id s ui mode address).
Proof.
  apply secret_guards_ok. intros Hp. apply with_collectionMetadata_ok; [done|].
  intros. by apply setWithMetadata_ok.
Qed.

Lemma getWithMetadata_ok hist i mode address md :
  (may_access (callerApplicationId env pid) md → granted_for hist i md) →
  safe policy hist false false (getCollectionSecretWithMetadata env pid id i mode address md).
Proof.
  intros Hg. eapply unless_denied_ok; [done|]. intros Hp. unfold with_kept_key.
  proceed getWithEncryptionKey_ok.
Qed.

Lemma getCollectionSecret_ok hist i mode address :
  safe policy hist false false (getCollectionSecret env pid id i mode address).
Proof.
  apply secret_guards_ok. intros Hp. apply with_collectionMetadata_ok; [done|].
  intros. by apply getWithMetadata_ok.
Qed.

Lemma findWithMetadata_ok hist c p flt op mode address md :
  (may_access (callerApplicationId env pid) md → granted env strict pid hist p c md) →
  safe policy hist false false
    (findCollectionSecretsWithMetadata env pid id c p flt op mode address md).
Proof.
  intros Hg. eapply unless_denied_ok; [done|]. intros Hp. unfold with_kept_key.
  proceed findWithEncryptionKey_ok.
Qed.

Lemma findCollectionSecrets_ok hist c p flt op mode address :
  safe policy hist false false (findCollectionSecrets env pid id c p flt op mode address).
Proof.
  unfold findCollectionSecrets. walk. apply with_collectionMetadata_ok.
  - destruct (hasE env p), (hasS env p); auto.
  - intros. by apply findWithMetadata_ok.
Qed.

Lemma deleteSecretWithMetadata_ok hist i mode address md :
  (may_access (callerApplicationId env pid) md → granted_for hist i md) →
  safe policy hist false false (deleteCollectionSecretWithMetadata env pid id i mode address md).
Proof.
  intros Hg. eapply unless_denied_ok; [done|]. intros Hp. unfold with_kept_key.
  proceed deleteSecretWithEncryptionKey_ok.
Qed.

Lemma deleteCollectionSecret_ok hist i mode address :
  safe policy hist false false (deleteCollectionSecret env pid id i mode address).
Proof.
  apply secret_guards_ok. intros Hp. apply with_collectionMetadata_ok; [done|].
  intros. by apply deleteSecretWithMetadata_ok.
Qed.
End secrets.
#[export] Hint Resolve setWithEncryptionKey_ok setWithAuthenticationCode_ok setGetAuthenticationCode_ok
  getWithEncryptionKey_ok getWithAuthenticationCode_ok findWithEncryptionKey_ok
  findWithAuthenticationCode_ok deleteSecretWithEncryptionKey_ok
  deleteSecretWithAuthenticationCode_ok : handlers.
#[export] Hint Resolve setCollectionSecret_ok getCollectionSecret_ok findCollectionSecrets_ok
  deleteCollectionSecret_ok : handlers.
