(* ===== verification/ProcessorDispatch.v ===== *)
(** The remaining handlers keep to the discipline, and so does whatever is
    dispatched to the processor or continued after an interaction. *)
From S2P Require Import Prelude Result MetadataDb PluginApi PluginWrapper.
From S2P Require Import PluginFunctionWrappers Processor ProcessorCollections ProcessorSecrets.
From S2P Require Import ProcessorStandalone ProcessorLocks ProcessorCompletion.
From S2P Require Import SecretsService ProcessorSystem ProcessorAccess ProcessorAuthorized.

(** * Standalone secrets *)
Section standalone.
  Context (env : Environment) (strict : Prop) (pid id : Z).

Local Abbreviation policy := (discipline env strict pid id).
Local Abbreviation plugin_of s := (ident_storagePluginName (secret_identifier s)).

Lemma standalone_guards_ok hist i e k :
  (storable env strict (ident_storagePluginName i) e → safe policy hist false false k) →
  safe policy hist false false (standalone_guards env i e k).
Proof.
  intros Hk. unfold standalone_guards. walk. apply Hk. intros Hs.
  destruct (bool_decide (_ = e)), (hasE env _), (hasS env _), (hasC env e); done.
Qed.

Lemma storable_installed p e :
  storable env strict p e → strict → hasE env p = true ∨ hasS env p = true.
Proof. intros Hst Hs. specialize (Hst Hs). case_match; naive_solver. Qed.

(** The metadata of a standalone secret are read from an installed plugin. *)
Lemma secretMetadata_ok hist callback p n k :
  (strict → hasE env p = true ∨ hasS env p = true) →
  (∀ hist r md, (strict → code r ≠ Pending) →
     (ok r = true → strict → matches env p (sm_encryptionPluginName md)) →
     safe policy hist true false (k (r, md))) →
  safe policy hist callback false (Run (secretMetadata_of env p n) k).
Proof.
  intros Hplugin Hk. unfold secretMetadata_of. destruct (hasE env p) eqn:He in |- *.
  all: split; [split; [split; [by apply authorized_harmless|]|done]|].
  all: try (intros Hs; simpl; destruct (Hplugin Hs); congruence).
  all: intros [r md] [_ Hw]; apply Hk; naive_solver.
Qed.

Lemma unless_exists_ok hist callback p n k :
  (strict → hasE env p = true ∨ hasS env p = true) →
  (∀ hist, safe policy hist false false k) →
  safe policy hist callback false (unless_exists env p n k).
Proof.
  intros Hp Hk. apply secretMetadata_ok; [done|]. intros hist' r md Hr _. apply finishing_ok. walk.
Qed.

Lemma enter_secret_ok hist s ui address md p :
  (∀ hist c a, begins c = Some UserInput → resumable env strict pid id (hist ++ [@Ev Result c a]) p) →
  safe policy hist false false (enter_secret env pid id s ui address md p).
Proof.
  intros Hp. unfold enter_secret. walk. apply begin_user_input_ok; [intro; by apply Hp|].
  intros _. by apply negb_false_iff.
Qed.

(** A pending request for data of the user. *)
Lemma resume_input hist (c : Call Result) a p :
  begins c = Some UserInput → pr_callerPid p = pid →
  (begun (hist ++ [Ev c a]) = Some UserInput → resumable env strict pid id (hist ++ [Ev c a]) p) →
  resumable env strict pid id (hist ++ [Ev c a]) p.
Proof. intros Hb Hp Hr. apply Hr. unfold begun. by rewrite last_snoc. Qed.

Lemma writeStandalone_ok hist callback s md :
  (strict → hasS env (plugin_of s) = true ∧ hasC env (sm_encryptionPluginName md) = true) →
  safe policy hist callback false (writeStandaloneDeviceLockSecret env pid id s md).
Proof. intros Hi. unfold writeStandaloneDeviceLockSecret. walk. Qed.

Lemma setStandaloneDeviceLock_ok hist s e ui semantic access mode address :
  safe policy hist false false
    (setStandaloneDeviceLockSecret env pid id s e ui semantic access mode address).
Proof.
  apply standalone_guards_ok. intros Hst. walk. apply unless_exists_ok; [by eapply storable_installed|].
  intros hist'. apply orb_false_iff in Heqb1 as [Hne _].
  assert (strict → hasS env (plugin_of s) = true ∧ hasC env e = true) as Hi.
  { intros Hs. specialize (Hst Hs). by rewrite Hne in Hst. }
  unfold setStandaloneDeviceLockSecretWithMetadata. walk; [by apply writeStandalone_ok|].
  apply enter_secret_ok. intros ??? Hb. split; [done|]. unfold begun. by rewrite last_snoc, Hb.
Qed.

(** No encryption plugin has an empty name. *)
Context (Hnames : strict → hasC env "" = false).

Lemma storable_derive p e :
  storable env strict p e → strict →
  hasE env p = true ∧ stored_encrypted p e = true ∨ hasC env e = true ∧ stored_encrypted p e = false.
Proof.
  intros Hst Hs. specialize (Hst Hs). specialize (Hnames Hs). unfold stored_encrypted, isEmpty.
  case_bool_decide; simpl; [by left|]. destruct Hst as [_ He]. right. split; [done|].
  apply bool_decide_false. intros ->. by rewrite Hnames in He.
Qed.

Lemma setStandaloneWithEncryptionKey_ok hist callback s md key :
  storable env strict (plugin_of s) (sm_encryptionPluginName md) →
  safe policy hist callback false
    (setStandaloneCustomLockSecretWithEncryptionKey env pid id s md key).
Proof.
  intros Hst. pose proof (storable_derive _ _ Hst) as Hd.
  unfold setStandaloneCustomLockSecretWithEncryptionKey. walk.
  - intros Hs. by destruct (Hd Hs) as [[? _]|[_ ?]].
  - intros Hs. specialize (Hst Hs). apply orb_false_iff in Heqb as [Heqb _]. rewrite Heqb in Hst.
    simpl. tauto.
Qed.

Lemma setStandaloneWithAuthenticationCode_ok hist callback s md code :
  storable env strict (plugin_of s) (sm_encryptionPluginName md) →
  safe policy hist callback false
    (setStandaloneCustomLockSecretWithAuthenticationCode env pid id s md code).
Proof.
  intros Hst. apply with_derived_key_ok; [by apply storable_derive|]. intros.
  by apply setStandaloneWithEncryptionKey_ok.
Qed.

Lemma setStandaloneGetAuthenticationCode_ok hist s mode address md :
  storable env strict (plugin_of s) (sm_encryptionPluginName md) →
  (strict → hasA env (sm_authenticationPluginName md) = true) →
  safe policy hist false false
    (setStandaloneCustomLockSecretGetAuthenticationCode env pid id s mode address md).
Proof. intros Hst Ha. apply begin_user_input_ok; [resume|done]. Qed.

(** The authentication plugin has to be an installed one. *)
Lemma setStandaloneCustomLock_ok hist s e a ui semantic access mode address :
  (strict → hasA env a = true) →
  safe policy hist false false
    (setStandaloneCustomLockSecret env pid id s e a ui semantic access mode address).
Proof.
  intros Ha. apply standalone_guards_ok. intros Hst.
  destruct (m_authenticationPlugins env !! a) eqn:Hl.
  - walk. apply unless_exists_ok; [by eapply storable_installed|].
    intros hist'. unfold setStandaloneCustomLockSecretWithMetadata.
    walk; [by apply setStandaloneGetAuthenticationCode_ok|].
    apply enter_secret_ok. intros ??? Hb. split; [done|]. unfold begun. by rewrite last_snoc, Hb.
  - simpl. intros Hs. specialize (Ha Hs). apply bool_decide_eq_true in Ha as [x Hx]. congruence.
Qed.

Lemma getStandaloneWithEncryptionKey_ok hist callback i mode address md key :
  (strict → matches env (ident_storagePluginName i) (sm_encryptionPluginName md)) →
  safe policy hist callback false
    (getStandaloneSecretWithEncryptionKey env pid id i mode address md key).
Proof. intros Hm. unfold getStandaloneSecretWithEncryptionKey. walk. Qed.

Lemma getStandaloneWithAuthenticationCode_ok hist i mode address md code :
  (strict → matches env (ident_storagePluginName i) (sm_encryptionPluginName md)) →
  safe policy hist false false
    (getStandaloneSecretWithAuthenticationCode env pid id i mode address md code).
Proof.
  intros Hm. unfold getStandaloneSecretWithAuthenticationCode. walk.
  all: apply with_derived_key_ok; intros; try by apply getStandaloneWithEncryptionKey_ok.
  all: specialize (Hm H); unfold matches in Hm; case_match; naive_solver.
Qed.

Context (Hsystem : strict → hasA env (systemAuthenticationPlugin env) = true).

Lemma with_secretMetadata_ok hist p n k :
  (strict → hasE env p = true ∨ hasS env p = true) →
  (∀ hist md, (strict → matches env p (sm_encryptionPluginName md)) →
     safe policy hist false false (k md)) →
  safe policy hist false false (with_secretMetadata env p n k).
Proof.
  intros Hp Hk. apply secretMetadata_ok; [done|]. intros hist' r md Hr Hm. apply finishing_ok. walk.
Qed.

Lemma getStandaloneSecret_ok hist i mode address :
  safe policy hist false false (getStandaloneSecret env pid id i mode address).
Proof.
  unfold getStandaloneSecret. walk. apply with_secretMetadata_ok.
  { intros _. destruct (hasE env _), (hasS env _); auto. }
  intros hist' md Hm. unfold getStandaloneSecretWithMetadata. walk.
  - by apply getStandaloneWithEncryptionKey_ok.
  - apply device_lock_ok; [done|]. resume.
  - apply custom_lock_ok. resume.
Qed.

(** Such a request has no collection; its plugin has to be an installed one. *)
Lemma deleteStandaloneSecret_ok hist i mode :
  is_collection (ident_collectionName i) = false →
  (strict → hasE env (ident_storagePluginName i) = true ∨ hasS env (ident_storagePluginName i) = true) →
  safe policy hist false false (deleteStandaloneSecret env pid id i mode).
Proof.
  intros Hi Hp. apply with_secretMetadata_ok; [done|]. intros hist' md Hm.
  unfold deleteStandaloneSecretWithMetadata. walk.
Qed.
End standalone.
#[export] Hint Resolve writeStandalone_ok setStandaloneWithAuthenticationCode_ok
  setStandaloneGetAuthenticationCode_ok getStandaloneWithEncryptionKey_ok
  getStandaloneWithAuthenticationCode_ok setStandaloneDeviceLock_ok setStandaloneCustomLock_ok
  getStandaloneSecret_ok deleteStandaloneSecret_ok : handlers.

(** * Lock codes *)
Section locks.
  Context (env : Environment) (strict : Prop) (pid id : Z).

Local Abbreviation policy := (discipline env strict pid id).

Lemma queryLockStatus_ok hist type target :
  safe policy hist false false (queryLockStatus env pid id type target).
Proof. unfold queryLockStatus. walk. Qed.

(** A lock operation on a plugin. *)
Lemma lock_plugin_ok hist target failure op auth crypto :
  applicationIsPlatformApplication env pid = true → collection_of op = None → installed env (Plugin op) →
  (hasA env target = true → installed env (Auth auth)) →
  (∀ r, strict → well_behaved env _ (Plugin op) (Some r) → code r ≠ Pending) →
  (∀ r, strict → well_behaved env _ (Queue crypto) r → code r ≠ Pending) →
  safe policy hist false false (lock_plugin env target failure op auth crypto).
Proof.
  intros Hp Ho Hi Ha Hop Hcrypto. unfold lock_plugin.
  split; [split; [by apply authorized_lock|done]|]. intros [r|] [_ Hw].
  { simpl. intros Hs. unfold returns. rewrite bool_decide_false; eauto. }
  walk.
Qed.

Lemma lock_guards_ok hist type target verb k :
  (applicationIsPlatformApplication env pid = true → safe policy hist false false k) →
  safe policy hist false false (lock_guards env pid type target verb k).
Proof. intros Hk. unfold lock_guards. walk; apply Hk; by apply negb_false_iff. Qed.

(** The request may be continued when the lock code is entered. *)
Definition lock_pending (p : PendingRequest) : Prop :=
  ∀ hist (c : Call Result) a,
    begins c = Some UserInput → resumable env strict pid id (hist ++ [Ev c a]) p.

Lemma enter_lock_code_ok hist requestType type target ip request mode address more :
  lock_pending (mkPending pid id requestType
    ([VInt type; VString target; VInteractionParameters request; VInt mode; VString address] ++ more)) →
  safe policy hist false false
    (enter_lock_code env pid id requestType type target ip request mode address more).
Proof.
  intros Hp. unfold enter_lock_code. walk. apply begin_user_input_ok; [intro; by apply Hp|].
  intros _. by apply negb_false_iff.
Qed.

Lemma lock_pending_intro requestType type target ip mode address more :
  applicationIsPlatformApplication env pid = true →
  (requestType = ModifyLockCodeRequest ∧ (more = [] ∨ ∃ b, more = [VByteArray b])
   ∨ requestType = ProvideLockCodeRequest ∧ more = []) →
  lock_pending (mkPending pid id requestType
    ([VInt type; VString target; VInteractionParameters ip; VInt mode; VString address] ++ more)).
Proof.
  intros Hp Hs hist c a Hb. split; [done|]. unfold begun. rewrite last_snoc, Hb. naive_solver.
Qed.

Lemma modifyLockCode_ok hist type target ip mode address :
  safe policy hist false false (modifyLockCode env pid id type target ip mode address).
Proof.
  apply lock_guards_ok. intros Hp. apply enter_lock_code_ok, lock_pending_intro; auto.
Qed.

Lemma modifyWithLockCode_ok hist type target ip mode address old :
  applicationIsPlatformApplication env pid = true →
  safe policy hist false false
    (modifyLockCodeWithLockCode env pid id type target ip mode address old).
Proof. intros Hp. apply enter_lock_code_ok, lock_pending_intro; eauto. Qed.

Lemma on_each_ok hist op l k :
  (∀ hist p, p ∈ l → authorized env pid hist _ (Plugin (op p)) ∧ installed env (Plugin (op p))) →
  (∀ hist, safe policy hist false false k) → safe policy hist false false (on_each op l k).
Proof.
  intros Ho Hk. revert hist. induction l as [|p l IH]; intros hist; simpl; [done|].
  split; [split; [|intros _]; apply (Ho hist); by left|].
  intros ??. apply IH. intros. apply Ho. by right.
Qed.

Lemma plugin_names_installed (P : gset string) p : p ∈ plugin_names P → p ∈ P.
Proof. unfold plugin_names. by rewrite merge_sort_Permutation, elem_of_elements. Qed.

Lemma modifyWithLockCodes_ok hist type target ip mode address old new :
  applicationIsPlatformApplication env pid = true →
  safe policy hist false false
    (modifyLockCodeWithLockCodes env pid id type target ip mode address old new).
Proof.
  intros Hp. unfold modifyLockCodeWithLockCodes. walk; [by apply lock_plugin_ok; simpl; auto|].
  apply on_each_ok; [|intros; apply on_each_ok; [|intros; simpl; answer]].
  all: intros ? p Hin%plugin_names_installed; split; [by apply authorized_lock|].
  all: simpl; by apply bool_decide_true.
Qed.

Lemma provideLockCode_ok hist type target ip mode address :
  safe policy hist false false (provideLockCode env pid id type target ip mode address).
Proof.
  apply lock_guards_ok. intros Hp. walk; apply enter_lock_code_ok, lock_pending_intro; auto.
Qed.

Lemma provideWithLockCode_ok hist type target ip mode address code :
  applicationIsPlatformApplication env pid = true →
  safe policy hist false false
    (provideLockCodeWithLockCode env pid id type target ip mode address code).
Proof.
  intros Hp. unfold provideLockCodeWithLockCode. walk. by apply lock_plugin_ok; simpl; auto.
Qed.

Lemma forgetLockCode_ok hist type target ip mode address :
  safe policy hist false false (forgetLockCode env pid id type target ip mode address).
Proof. apply lock_guards_ok. intros Hp. walk. by apply lock_plugin_ok; simpl; auto. Qed.
End locks.
#[export] Hint Resolve queryLockStatus_ok modifyLockCode_ok modifyWithLockCode_ok
  modifyWithLockCodes_ok provideLockCode_ok provideWithLockCode_ok forgetLockCode_ok : handlers.

(** * The checks for the crypto service *)
Section prechecks.
  Context (env : Environment) (strict : Prop) (pid id : Z).

Local Abbreviation policy := (discipline env strict pid id).
Local Abbreviation granted_for hist i md :=
  (granted env strict pid hist (ident_storagePluginName i) (ident_collectionName i) md).

Lemma preCheckWithEncryptionKey_ok hist callback new i md key :
  granted_for hist i md → safe policy hist callback false (preCheckWithEncryptionKey new i md key).
Proof. intros Hp. unfold preCheckWithEncryptionKey. walk. Qed.

Lemma preCheckWithAuthenticationCode_ok hist new i md code :
  granted_for hist i md →
  safe policy hist false false (preCheckWithAuthenticationCode env new i md code).
Proof.
  intros Hp. unfold preCheckWithAuthenticationCode. walk.
  all: eapply with_collection_key_ok; [done|]; intros; by apply preCheckWithEncryptionKey_ok.
Qed.

Context (Hsystem : strict → hasA env (systemAuthenticationPlugin env) = true).

Lemma preCheckWithMetadata_ok hist new type input i mode md :
  (may_access (callerApplicationId env pid) md → granted_for hist i md) →
  (∀ hist (c : Call Result) a, granted_for hist i md →
     (begins c = Some UserInput →
      resumable env strict pid id (hist ++ [Ev c a]) (mkPending pid id type input))
     ∧ (begins c = Some DeviceLock → resumable env strict pid id (hist ++ [Ev c a])
          (mkPending pid id type [VIdentifier i; VCollectionMetadata md]))) →
  safe policy hist false false (preCheckWithMetadata env new type input pid id i mode md).
Proof.
  intros Hg Hr. eapply unless_denied_ok; [done|]. intros Hp. unfold with_kept_key. walk.
  all: first [apply preCheckWithEncryptionKey_ok|apply device_lock_ok; [done|]|apply custom_lock_ok];
       try (intros ?; apply Hr; try done); eauto with handlers.
Qed.

Lemma useKeyPreCheck_ok hist i operation p mode :
  safe policy hist false false (useCollectionKeyPreCheck env pid id i operation p mode).
Proof.
  apply secret_guards_ok. intros Hi. apply with_collectionMetadata_ok; [done|]. intros hist' md Hg.
  apply preCheckWithMetadata_ok; [done|]. intros hist'' c a Hp.
  split; intros Hb; (split; [done|]); unfold begun; rewrite last_snoc, Hb; simpl; eauto with handlers.
Qed.

Lemma setKeyPreCheck_ok hist i mode :
  safe policy hist false false (setCollectionKeyPreCheck env pid id i mode).
Proof.
  apply secret_guards_ok. intros Hi. apply with_collectionMetadata_ok; [done|]. intros hist' md Hg.
  apply preCheckWithMetadata_ok; [done|]. intros hist'' c a Hp.
  split; intros Hb; (split; [done|]); unfold begun; rewrite last_snoc, Hb; simpl; eauto with handlers.
Qed.
End prechecks.
#[export] Hint Resolve useKeyPreCheck_ok setKeyPreCheck_ok : handlers.

(** * The service *)

(** The call of the processor that a D-Bus call amounts to. *)
Definition direct (env : Environment) (pid id : Z) (c : DBusCall) : Handler :=
  let name := mappedPluginName env in
  match c with
  | DGetHealthInfo => getHealthInfo pid id
  | DUserInput ip => unless_locked_db (userInput env pid id
      (mkInteraction "" "" "" (ip_applicationId ip) RequestUserData
         (name (ip_authenticationPluginName ip)) (ip_inputType ip)))
  | DCollectionNames p => unless_locked_db (collectionNames env pid id (name p))
  | DCreateDeviceLockCollection c p e semantic access =>
      unless_locked_db (createDeviceLockCollection env pid id c (name p) (name e) semantic access)
  | DCreateCustomLockCollection c p e a semantic access mode address =>
      unless_locked_db (createCustomLockCollection env pid id c (name p) (name e) (name a) semantic
        access mode address)
  | DDeleteCollection c p mode address =>
      unless_locked_db (deleteCollection env pid id c (name p) mode address)
  | DSetSecret s ip mode address =>
      unless_locked_db (setCollectionSecret env pid id (map_secret env s) ip mode address)
  | DSetDeviceLockSecret s e ip semantic access mode address =>
      unless_locked_db (setStandaloneDeviceLockSecret env pid id (map_secret env s) (name e)
        (map_interaction env ip) semantic access mode address)
  | DSetCustomLockSecret s e a ip semantic access mode address =>
      unless_locked_db (setStandaloneCustomLockSecret env pid id (map_secret env s) (name e) (name a)
        (map_interaction env ip) semantic access mode address)
  | DGetSecret i mode address =>
      unless_locked_db
        (if isEmpty (ident_collectionName i)
         then getStandaloneSecret env pid id (map_identifier env i) mode address
         else getCollectionSecret env pid id (map_identifier env i) mode address)
  | DFindSecrets c p flt op mode address =>
      unless_locked_db
        (if isEmpty c then findStandaloneSecrets pid id (name p) flt op mode address
         else findCollectionSecrets env pid id c (name p) flt op mode address)
  | DDeleteSecret i mode address =>
      unless_locked_db
        (if isEmpty (ident_collectionName i)
         then deleteStandaloneSecret env pid id (map_identifier env i) mode
         else deleteCollectionSecret env pid id (map_identifier env i) mode address)
  | DQueryLockStatus type target =>
      unless_locked_plugin type (queryLockStatus env pid id type (name target))
  | DModifyLockCode type target ip mode address =>
      unless_locked_plugin type
        (modifyLockCode env pid id type (name target) (map_interaction env ip) mode address)
  | DProvideLockCode type target ip mode address =>
      unless_locked_plugin type
        (provideLockCode env pid id type (name target) (map_interaction env ip) mode address)
  | DForgetLockCode type target ip mode address =>
      unless_locked_db
        (forgetLockCode env pid id type (name target) (map_interaction env ip) mode address)
  end.

Lemma dispatch_direct env pid id c :
  handlePendingRequest env (SecretsDBusObject env c).1 pid id (SecretsDBusObject env c).2
  = Some (direct env pid id c).
Proof.
  destruct c; try reflexivity; cbn [SecretsDBusObject direct];
    unfold dbus_getSecret, dbus_findSecrets, dbus_deleteSecret, identifiesStandaloneSecret;
    case_match; reflexivity.
Qed.

Section service.
  Context (env : Environment) (strict : Prop).

(** Two requests name a plugin that the processor uses without a test that it is
    installed. *)
Definition names_installed (c : DBusCall) : Prop :=
  match c with
  | DSetCustomLockSecret _ _ a _ _ _ _ _ => hasA env (mappedPluginName env a) = true
  | DDeleteSecret i _ _ =>
      identifiesStandaloneSecret i = true →
      hasE env (ident_storagePluginName (map_identifier env i)) = true
      ∨ hasS env (ident_storagePluginName (map_identifier env i)) = true
  | _ => True
  end.

(** The handler of a request that arrives over D-Bus, or from the crypto service. *)
Inductive serves (pid id : Z) (h : Handler) : Prop :=
  | serves_dbus c :
      (strict → names_installed c) →
      handlePendingRequest env (SecretsDBusObject env c).1 pid id (SecretsDBusObject env c).2 = Some h →
      serves pid id h
  | serves_crypto c :
      handlePendingRequest env (crypto_helper c).1 pid id (crypto_helper c).2 = Some h →
      serves pid id h.

(** The handler of a completed interaction of the kind that was begun; [order]: how
    the compiler evaluates the arguments of the continuation. *)
Inductive completes (order : EvaluationOrder) (hist : list Event) (id : Z) (h : Handler) : Prop :=
  | completes_input pid r input :
      begun hist = Some UserInput →
      h = userInputInteractionCompleted env order pid id r input →
      (strict → code r ≠ Pending) →
      completes order hist id h
  | completes_authentication pid r :
      begun hist = Some DeviceLock →
      h = authenticationCompleted env order pid id r →
      (strict → code r ≠ Pending) →
      completes order hist id h.

Context (Hsystem : strict → hasA env (systemAuthenticationPlugin env) = true).
Context (Hnames : strict → hasC env "" = false).

Section policy.
  Context (pid id : Z).

Local Abbreviation policy := (discipline env strict pid id).

Lemma unless_locked_db_ok hist h :
  (∀ hist, safe policy hist false false h) → safe policy hist false false (unless_locked_db h).
Proof. intros Hh. unfold unless_locked_db. walk. Qed.

Lemma unless_locked_plugin_ok hist type h :
  (∀ hist, safe policy hist false false h) →
  safe policy hist false false (unless_locked_plugin type h).
Proof. intros Hh. unfold unless_locked_plugin. walk. Qed.

(** What the D-Bus object asks for. *)
Lemma dbus_ok c h :
  (strict → names_installed c) →
  handlePendingRequest env (SecretsDBusObject env c).1 pid id (SecretsDBusObject env c).2 = Some h →
  safe policy [] false false h.
Proof.
  intros Hn. rewrite dispatch_direct. intros [= <-]. destruct c; cbn [direct];
    first [apply unless_locked_db_ok|apply unless_locked_plugin_ok|idtac];
    intros; try case_match; eauto with handlers.
  - unfold getHealthInfo. walk.
  - unfold findStandaloneSecrets. walk.
  - apply deleteStandaloneSecret_ok; [done..| |naive_solver]. unfold is_collection. simpl. by rewrite H.
Qed.

(** What the crypto service asks for. *)
Lemma crypto_ok c h :
  handlePendingRequest env (crypto_helper c).1 pid id (crypto_helper c).2 = Some h →
  safe policy [] false false h.
Proof.
  destruct c; intros [= <-];
    first [apply unless_locked_db_ok|apply unless_locked_plugin_ok];
    intros; eauto with handlers.
Qed.

Lemma serves_ok h : serves pid id h → safe policy [] false false h.
Proof. intros [c Hn Hh|c Hh]; [by eapply dbus_ok|by eapply crypto_ok]. Qed.

Lemma expecting_eq n ps h : length ps = n → expecting n ps h = h.
Proof. intros <-. unfold expecting. by rewrite bool_decide_true. Qed.

(** A pending request resumes with what the user has entered. *)
Lemma continue_with_input_ok hist p r input :
  ok r = true → begun hist = Some UserInput → resumable env strict pid id hist p →
  safe policy hist true false (finishing [] (continue_with_input env LeftToRight p r input)).
Proof.
  intros Hok Hb [[Hpid Hid] Hr]. rewrite Hb in Hr. destruct p as [pid' id' type ps]; simpl in *. subst pid' id'.
  destruct type; try done;
    repeat match type of Hr with match ?x with _ => _ end => destruct x; try done end.
  all: cbn [continue_with_input continue_reading_with_input continue_other_with_input pr_requestType pr_parameters pr_callerPid pr_requestId arguments length];
    try rewrite expecting_eq by done; try rewrite (bool_decide_false (6 = 5)) by done;
    try rewrite bool_decide_true by done; destruct_and?; try (apply finishing_ok; eauto with handlers; fail).
  - simpl. apply bool_decide_eq_true in Hok. answer.
  - apply finishing_ok. by apply preCheckWithAuthenticationCode_ok.
  - apply finishing_ok. by apply preCheckWithAuthenticationCode_ok.
Qed.

(** A pending request resumes once the device lock has been opened. *)
Lemma continue_authenticated_ok hist p :
  begun hist = Some DeviceLock → resumable env strict pid id hist p →
  safe policy hist false false (continue_authenticated env LeftToRight p).
Proof.
  intros Hb [[Hpid Hid] Hr]. rewrite Hb in Hr. destruct p as [pid' id' type ps]; simpl in *. subst pid' id'.
  destruct type; try done;
    repeat match type of Hr with match ?x with _ => _ end => destruct x; try done end.
  all: cbn [continue_authenticated continue_other_authenticated pr_requestType pr_parameters pr_callerPid pr_requestId arguments length];
    rewrite expecting_eq by done; destruct_and?;
    (split; [split; [by apply authorized_harmless|done]|intros key _]); eauto with handlers.
  all: apply preCheckWithEncryptionKey_ok; eauto with handlers.
Qed.

(** What a failed interaction leads to. *)
Lemma not_ok_ok hist r :
  (strict → code r ≠ Pending) → safe policy hist true false (finishing [] (Return r [])).
Proof. intros Hr. simpl. case_bool_decide; simpl; [naive_solver|]. answer. Qed.
End policy.

Section system.
  Context {W : Type} (answer : ∀ A, Call A → M W A).

(** The handler of a completed interaction takes the pending request. *)
Lemma complete_advance id r unknown continue p hist (s : System W) :
  m_pendingRequests (processor s) !! id = Some p →
  (strict → code r ≠ Pending) →
  (ok r = true → safe (discipline env strict (pr_callerPid p) id) hist true false
                   (finishing [] (continue p))) →
  ∃ h' f, (∀ pr i, i ≠ id → m_pendingRequests (f pr) !! i = m_pendingRequests pr !! i)
    ∧ safe (discipline env strict (pr_callerPid p) id) hist true false h'
    ∧ advance answer true (pr_callerPid p) id hist (complete id r unknown continue) s
      = advance answer true (pr_callerPid p) id hist h' (with_processor f s).
Proof.
  intros Hp Hr Hc. unfold complete. destruct (ok r) eqn:Hok.
  - exists (finishing [] (continue p)), (remove_pending id). split_and!; [|auto|].
    + intros pr i Hi. simpl. by rewrite lookup_delete_ne.
    + simpl. unfold bind, gets. by rewrite Hp.
  - exists (finishing [] (Return r [])), (λ x, x). split_and!; [done|by apply not_ok_ok|].
    by destruct s.
Qed.

Lemma completes_ok id h p hist (s : System W) :
  completes LeftToRight hist id h → m_pendingRequests (processor s) !! id = Some p →
  resumable env strict (pr_callerPid p) id hist p →
  ∃ h' f, (∀ pr i, i ≠ id → m_pendingRequests (f pr) !! i = m_pendingRequests pr !! i)
    ∧ safe (discipline env strict (pr_callerPid p) id) hist true false h'
    ∧ advance answer true (pr_callerPid p) id hist h s
      = advance answer true (pr_callerPid p) id hist h' (with_processor f s).
Proof.
  intros [pid r input Hb -> Hr|pid r Hb -> Hr] Hp Hres.
  all: apply complete_advance; try done; intros Hok.
  - by apply continue_with_input_ok.
  - by apply finishing_ok, continue_authenticated_ok.
Qed.

(** The surroundings answer as expected. *)
Context (Hanswer : ∀ A (c : Call A) w,
  names_collection A c (answer A c w).1 ∧ (strict → well_behaved env A c (answer A c w).1)).

Lemma discipline_invariant w keys skeys s :
  reachable answer serves (completes LeftToRight) w keys skeys s → invariant (discipline env strict) s.
Proof.
  apply processor_reachable_inv.
  - intros. apply Hanswer.
  - by intros pid id hist p [? _].
  - intros. by eapply serves_ok.
  - intros. by apply completes_ok.
Qed.
End system.
End service.
