(* ===== verification/ProcessorAnswers.v ===== *)
(** Every request is answered once: requests that were accepted are either
    answered, or an operation of theirs is queued or finished, or they wait for the
    user. *)
From S2P Require Import Prelude Result MetadataDb PluginApi PluginWrapper PluginFunctionWrappers Processor ProcessorCompletion ProcessorCollections ProcessorSystem ProcessorAccess ProcessorDispatch.

Section count.
  Context {W : Type}.

(** How often an identifier occurs. *)
Definition occurrences (id : Z) (l : list Z) : nat := count_occ Z.eq_dec l id.

Lemma occurrences_app id l k : occurrences id (l ++ k) = occurrences id l + occurrences id k.
Proof. apply count_occ_app. Qed.

Lemma occurrences_cons id x l :
  occurrences id (x :: l) = (if decide (x = id) then 1 else 0) + occurrences id l.
Proof. unfold occurrences. simpl. destruct (Z.eq_dec x id), (decide (x = id)); done. Qed.

Lemma occurrences_nil id : occurrences id [] = 0.
Proof. done. Qed.

Lemma occurrences_zero id l : id ∉ l → occurrences id l = 0.
Proof. intros Hin. apply count_occ_not_In. by rewrite <-list_elem_of_In. Qed.

#[global] Arguments occurrences : simpl never.

(** The requests that were answered, and those that are under way. *)
Definition answered (id : Z) (s : System W) : nat := occurrences id (rep_id <$> reports s).
Definition waits (id : Z) (s : System W) : nat := from_option (λ _, 1) 0 (waiting s !! id).
Definition under_way (id : Z) (s : System W) : nat :=
  occurrences id (t_id <$> queued s) + occurrences id (t_id <$> finished s) + waits id s.

(** The request the main thread is working on. *)
Definition current (cur : option Z) (id : Z) : nat := if decide (cur = Some id) then 1 else 0.

Definition is_run (t : Task) : Prop := match t_handler t with Run _ _ => True | _ => False end.

Record balanced (cur : option Z) (s : System W) : Prop := {
  bal_eq id : occurrences id (accepted s) = answered id s + under_way id s + current cur id;
  bal_le id : under_way id s + current cur id ≤ 1;
  bal_run : Forall is_run (queued s);
}.

Lemma under_way_inactive id s : ¬ active s id → under_way id s = 0.
Proof.
  intros Hn. unfold under_way, active, waits in *. rewrite !occurrences_zero by naive_solver.
  destruct (waiting s !! id) eqn:Hw; [|done]. exfalso. naive_solver.
Qed.
End count.

(** Rewrite counts. *)
Ltac count :=
  unfold answered, under_way, waits, current in *;
  cbn [report accept enqueue with_tasks with_processor with_waiting queued finished waiting reports
       accepted] in *;
  rewrite ?fmap_app, ?fmap_cons, ?fmap_nil, ?occurrences_app, ?occurrences_cons, ?occurrences_nil in *;
  cbn [t_id rep_id] in *; repeat case_decide; simplify_eq/=; try lia.

Section accounting.
  Context {W : Type} (answer : ∀ A, Call A → M W A) (env : Environment).
  Local Abbreviation P := (discipline env True).
  Context (Hanswer : ∀ A (c : Call A) w,
    names_collection A c (answer A c w).1 ∧ (True → well_behaved env A c (answer A c w).1)).

Lemma balanced_report cur id r out (s : System W) :
  balanced (Some id) s → cur = None → balanced cur (report (mkReport id r out) s).
Proof.
  intros [He Hl Hr] ->. constructor; simpl; [intros i|intros i|done].
  - specialize (He i). count.
  - specialize (Hl i). count.
Qed.

Lemma balanced_enqueue id t (s : System W) :
  balanced (Some id) s → t_id t = id → is_run t → balanced None (enqueue t s).
Proof.
  intros [He Hl Hr] <- Ht. constructor; [intros i|intros i|].
  - specialize (He i). count.
  - specialize (Hl i). count.
  - simpl. apply Forall_app. auto.
Qed.

Lemma waits_insert i id (hist : list Event) (s : System W) :
  from_option (λ _, 1) 0 (<[id := hist]> (waiting s) !! i) = if decide (id = i) then 1 else waits i s.
Proof.
  unfold waits. case_decide as Hd; [subst; by rewrite lookup_insert_eq|].
  by rewrite lookup_insert_ne.
Qed.

Lemma balanced_park p hist (s : System W) :
  balanced (Some (pr_requestId p)) s → balanced None (park p hist s).
Proof.
  intros [He Hl Hr]. constructor; [intros i|intros i|done].
  all: specialize (He i); specialize (Hl i).
  all: unfold answered, under_way, current, waits in *; simpl; rewrite waits_insert.
  all: unfold waits; repeat case_decide; simplify_eq/=; destruct (waiting s !! _); lia.
Qed.

Lemma work_balanced cur (s : System W) : balanced cur s → balanced cur (work answer s).2.
Proof.
  intros Hb. unfold work. destruct (queued s) as [|[pid id hist h] rest] eqn:Hq; [done|].
  destruct Hb as [He Hl Hr]. rewrite Hq in Hr.
  apply Forall_cons in Hr as [Hh Hr]. destruct h as [ | | | | | | | |A op k]; try by destruct Hh.
  unfold call. destruct (answer A (Plugin op) (surroundings s)) as [a w]; simpl.
  constructor; [intros i|intros i|done]; specialize (He i); specialize (Hl i);
    unfold under_way in *; rewrite Hq in *; count.
Qed.

Lemma drain_balanced n cur (s : System W) : balanced cur s → balanced cur (drain answer n s).2.
Proof.
  revert s. induction n as [|n IH]; intros s Hs; simpl; [done|].
  unfold bind. pose proof (work_balanced cur s Hs) as Hw. destruct (work answer s). by apply IH.
Qed.

Lemma sync_balanced {A} (c : Call A) pid hist cur (s : System W) :
  balanced cur s →
  balanced cur (call answer pid hist c (wait_for answer c s).2).2.
Proof.
  intros Hs. assert (balanced cur (wait_for answer c s).2) as [He Hl Hr].
  { destruct c; simpl; [by apply drain_balanced|done..]. }
  unfold call. destruct (answer A c _) as [a w]; simpl. by constructor.
Qed.

(** The main thread answers, starts an operation, or leaves the request waiting. *)
Lemma advance_balanced h : ∀ (callback parked : bool) pid id hist (s : System W),
  balanced (if parked then None else Some id) s → safe (P pid id) hist callback parked h →
  balanced None (advance answer callback pid id hist h s).2.
Proof.
  induction h as [r o|r o| | |k IH|f h IH|p h IH|A c k IH|A op k IH];
    intros callback parked pid id hist s Hs Hh; simpl in *.
  - specialize (Hh I). unfold returns in Hh. case_bool_decide; simpl; [by subst|].
    destruct Hh as [-> ->]. by apply balanced_report.
  - destruct (Hh I) as (->&->&_). by apply balanced_report.
  - by destruct Hh.
  - done.
  - by apply (IH _ callback parked pid id hist).
  - destruct Hh as [Hf Hh]. apply (IH callback parked pid id hist); [|done]. by destruct Hs.
  - destruct Hh as [[[[_ <-] _] Hpk] Hh]. rewrite (Hpk I) in Hs.
    apply (IH callback true pid _ hist); [|done]. by apply balanced_park.
  - destruct Hh as [Ha Hk]. pose proof (sync_balanced c pid hist _ s Hs) as Hs'.
    unfold bind. destruct (wait_for answer c s) as [u s']; simpl in *.
    unfold call in *. pose proof (Hanswer A c (surroundings s')) as He.
    destruct (answer A c (surroundings s')) as [a w]; simpl in *.
    apply (IH a callback parked); [done|]. by apply Hk.
  - destruct Hh as [[_ Hp] Hk]. rewrite (Hp I) in Hs. by apply (balanced_enqueue id).
Qed.

Context (Hsystem : hasA env (systemAuthenticationPlugin env) = true).
Context (Hnames : hasC env "" = false).

Lemma step_balanced (s s' : System W) :
  invariant P s → balanced None s →
  step answer (serves env True) (completes env True LeftToRight) s s' → balanced None s'.
Proof.
  intros Hi Hs Hst. destruct Hst as [pid id h s Hserve Hn|s|s|id hist h s p Hw Hc Hp].
  - apply (advance_balanced h _ false); [|by apply serves_ok]. apply under_way_inactive in Hn.
    destruct Hs as [He Hl Hr]. constructor; [intros i|intros i|done].
    all: specialize (He i); specialize (Hl i); count.
  - by apply work_balanced.
  - unfold deliver. destruct (finished s) as [|[pid id hist h] rest] eqn:Hf; [done|].
    pose proof (inv_finished _ s Hi) as Hall. rewrite Hf in Hall.
    apply Forall_cons in Hall as [Ht Hrest].
    apply (advance_balanced h _ false); [|done]. destruct Hs as [He Hl Hr].
    constructor; [intros i|intros i|done].
    all: specialize (He i); specialize (Hl i); unfold under_way in *; rewrite Hf in *; count.
  - destruct (inv_waiting _ s Hi id hist Hw) as (p'&Hp'&Hpark).
    rewrite Hp in Hp'. injection Hp' as <-.
    destruct (completes_ok env True (λ _, Hsystem) (λ _, Hnames) answer id h p hist
                (with_waiting (delete id) s) Hc Hp Hpark) as (h'&f&Hf&Hsafe&->).
    apply (advance_balanced h' _ false); [|done]. destruct Hs as [He Hl Hr].
    constructor; [intros i|intros i|done].
    all: specialize (He i); specialize (Hl i); unfold under_way, waits, current, answered in *; simpl.
    all: destruct (decide (i = id)) as [->|Hne];
      [rewrite lookup_delete_eq, Hw in *|rewrite lookup_delete_ne by done]; repeat case_decide; simplify_eq/=; lia.
Qed.

Lemma reachable_balanced w keys skeys (s : System W) :
  reachable answer (serves env True) (completes env True LeftToRight) w keys skeys s → balanced None s.
Proof.
  intros Hr. cut (invariant P s ∧ balanced None s); [tauto|]. revert s Hr.
  apply (rtc_ind_r _ (initial w keys skeys)).
  - split; [by constructor|]. constructor; [intros i|intros i|done]; count; rewrite lookup_empty; simpl; lia.
  - intros x y Hx Hxy [Hi Hb]. split; [|by apply (step_balanced x)].
    apply (discipline_invariant env True (λ _, Hsystem) (λ _, Hnames) answer Hanswer w keys skeys).
    by eapply rtc_r.
Qed.
End accounting.
