(* ===== verification/Controller.v ===== *)
(** Names of plugins in the daemon's controller (daemon/controller.cpp): a client
    may name a plugin by a default identifier, which the controller maps to an
    installed plugin as the environment of the process says. *)
From S2P Require Import Prelude Result.

(** [QString::startsWith], [QString::endsWith] *)
Definition startsWith (s p : string) : bool := String.prefix p s.
Definition endsWith (s p : string) : bool := String.prefix (String.rev p) (String.rev s).

(** The identifiers of lib/Crypto/cryptomanager.cpp *)
Definition DefaultCryptoPluginName : string := "plugin.crypto.default".
Definition DefaultCryptoStoragePluginName : string := "plugin.cryptostorage.default".

Section controller.
  (** [qgetenv]: an empty string if the variable is not set. *)
  Context (getenv : string → string).

Definition env_or (variable default : string) : string :=
  if isEmpty (getenv variable) then default else getenv variable.

(** The identifiers with the plugins they stand for, in the order in which the
    controller compares them. *)
Definition plugin_mapping : list (string * string) :=
  [ (DefaultCryptoPluginName,
     env_or "SAILFISH_SECRETSD_DEFAULT_CRYPTO_PLUGIN" "org.sailfishos.crypto.plugin.crypto.openssl");
    (DefaultCryptoStoragePluginName,
     env_or "SAILFISH_SECRETSD_DEFAULT_CRYPTOSTORAGE_PLUGIN"
       "org.sailfishos.secrets.plugin.encryptedstorage.sqlcipher");
    (DefaultStoragePluginName,
     env_or "SAILFISH_SECRETSD_DEFAULT_STORAGE_PLUGIN" "org.sailfishos.secrets.plugin.storage.sqlite");
    (DefaultEncryptionPluginName,
     env_or "SAILFISH_SECRETSD_DEFAULT_ENCRYPTION_PLUGIN"
       "org.sailfishos.secrets.plugin.encryption.openssl");
    (DefaultEncryptedStoragePluginName,
     env_or "SAILFISH_SECRETSD_DEFAULT_ENCRYPTEDSTORAGE_PLUGIN"
       "org.sailfishos.secrets.plugin.encryptedstorage.sqlcipher");
    (DefaultAuthenticationPluginName,
     env_or "SAILFISH_SECRETSD_DEFAULT_AUTHENTICATION_PLUGIN"
       "org.sailfishos.secrets.plugin.authentication.passwordagent");
    (InAppAuthenticationPluginName,
     env_or "SAILFISH_SECRETSD_INAPP_AUTHENTICATION_PLUGIN"
       "org.sailfishos.secrets.plugin.authentication.inapp") ].

Definition testPluginSuffix : string := ".test".

(** The variable [performMapping] *)
Definition performMapping : bool :=
  contains ["1"; "true"; "yes"] (env_or "SAILFISH_SECRETSD_PERFORM_PLUGIN_MAPPING" "true").

(** [Controller::mappedPluginName] *)
Definition controller_mappedPluginName (pluginName : string) : string :=
  if negb (isEmpty pluginName) && performMapping then
    match list_find (λ '(ident, _), startsWith pluginName ident) plugin_mapping with
    | Some (_, (_, plugin)) =>
        if endsWith pluginName testPluginSuffix then plugin +:+ testPluginSuffix else plugin
    | None => pluginName
    end
  else pluginName.
End controller.
