(* ===== verification/LockCodes.v ===== *)
(** The master lock code of the daemon (daemon/SecretsImpl/secrets.cpp): the keys
    of the metadata databases and of device-locked data are derived from the lock
    code and a salt; a text encrypted with the first key tells whether a code is
    correct.  Salt and text are kept in redundant files (DataProtector).

    The crypto plugins that derive keys and encrypt, SHA-512, /dev/urandom, the
    clock and [QUuid::createUuid] are parameters.  The state is what the functions
    read and write: the two directories of redundant files, the cached salt, the
    memory of the keys and the two flags. *)
From S2P Require Import Prelude PluginApi SqlCipherPlugin DataProtector Processor Controller CryptoManager.
From Stdlib Require Import Ascii.

(** * Dummy keys *)

(** [a ^ b] on [char] *)
Definition xor (a b : ascii) : ascii :=
  let '(Ascii a0 a1 a2 a3 a4 a5 a6 a7, Ascii b0 b1 b2 b3 b4 b5 b6 b7) := (a, b) in
  Ascii (xorb a0 b0) (xorb a1 b1) (xorb a2 b2) (xorb a3 b3)
        (xorb a4 b4) (xorb a5 b5) (xorb a6 b6) (xorb a7 b7).

(** Exclusive or of the bytes of [key] into [data], as far as both go. *)
Fixpoint xor_into (data key : bytes) : bytes :=
  match data, key with
  | String a data', String b key' => String (xor a b) (xor_into data' key')
  | _, _ => data
  end.

(** [QByteArray(n, c)] *)
Fixpoint repeated (n : nat) (c : ascii) : bytes :=
  match n with O => "" | S n' => String c (repeated n' c) end.

Definition plaintext : bytes := "The quick brown fox jumps over the lazy dog".

(** [specifyDummyMasterlockKeys]: the test text, the database key and the device
    lock key. *)
Definition specifyDummyMasterlockKeys (lockCode : bytes) : bytes * bytes * bytes :=
  let bkdbKey := xor_into (repeated 64 "f") (toHex lockCode) in
  let deviceLockKey := xor_into (repeated 32 "f") lockCode in
  (xor_into plaintext bkdbKey, bkdbKey, deviceLockKey).

(** * Crypto plugins *)

Definition setIterations (n : Z) (k : KeyDerivationParameters) : KeyDerivationParameters :=
  mkKdf (kdf_function k) (kdf_mac k) (kdf_digest k) n (kdf_inputData k) (kdf_salt k)
    (kdf_outputKeySize k).

(** A crypto plugin: its name, the secret key it generates for an algorithm, a
    size and derivation parameters, and what it encrypts from a text, an
    initialization vector, a key, a block mode and a padding.  [None]: the result
    is not [Succeeded]. *)
Record CryptoPlugin := mkCryptoPlugin {
  cp_name : string;
  cp_generateKey : Z → Z → KeyDerivationParameters → option bytes;
  cp_encrypt : bytes → bytes → bytes → Z → Z → option bytes;
}.

(** What the daemon finds around it.  Random data, times and unique names are
    numbered by the calls. *)
Record LockEnv := mkLockEnv {
  le_autotestMode : bool;
  le_plugins : gmap string CryptoPlugin;
  le_getenv : string → string;
  le_sha512 : bytes → bytes;
  le_uuid : nat → string;
  le_urandom : nat → option bytes;
  le_date : nat → bytes;
  le_notifications : bool;            (* HAS_NEMO_NOTIFICATIONS *)
}.

(** * The state *)

(** The memory of the keys: one block that is allocated when it is first used,
    the offset of the second key and the lengths of both.  [km_overflow]: the
    program has written behind the end of the block. *)
Record KeyMemory := mkMemory {
  km_block : list ascii;
  km_deviceLockKeyData : nat;
  km_bkdbLockKeyLen : nat;
  km_deviceLockKeyLen : nat;
  km_overflow : bool;
}.

(** [ls_faults]: what the operating system does with the secrets directory next;
    [Some left] is a failure, after which a removal has left [left] of the two
    directories.  [ls_calls] counts the calls for unique names and random data,
    [ls_corruptions] the reports of corrupted data. *)
Record LockState := mkLockState {
  ls_check : Protector;
  ls_salt : Protector;
  ls_faults : list (option (option (list DataDir) * option (list DataDir)));
  ls_calls : nat;
  ls_corruptions : nat;
  m_saltData : bytes;
  m_keyData : option KeyMemory;
  m_noLockCode : bool;
  m_locked : bool;
}.

Definition set_check (p : Protector) (s : LockState) : LockState :=
  mkLockState p (ls_salt s) (ls_faults s) (ls_calls s) (ls_corruptions s) (m_saltData s)
    (m_keyData s) (m_noLockCode s) (m_locked s).
Definition set_salt (p : Protector) (s : LockState) : LockState :=
  mkLockState (ls_check s) p (ls_faults s) (ls_calls s) (ls_corruptions s) (m_saltData s)
    (m_keyData s) (m_noLockCode s) (m_locked s).
Definition set_saltData (d : bytes) (s : LockState) : LockState :=
  mkLockState (ls_check s) (ls_salt s) (ls_faults s) (ls_calls s) (ls_corruptions s) d
    (m_keyData s) (m_noLockCode s) (m_locked s).
Definition set_keyData (k : KeyMemory) (s : LockState) : LockState :=
  mkLockState (ls_check s) (ls_salt s) (ls_faults s) (ls_calls s) (ls_corruptions s) (m_saltData s)
    (Some k) (m_noLockCode s) (m_locked s).
Definition setNoLockCode (b : bool) (s : LockState) : LockState :=
  mkLockState (ls_check s) (ls_salt s) (ls_faults s) (ls_calls s) (ls_corruptions s) (m_saltData s)
    (m_keyData s) b (m_locked s).
Definition set_locked (b : bool) (s : LockState) : LockState :=
  mkLockState (ls_check s) (ls_salt s) (ls_faults s) (ls_calls s) (ls_corruptions s) (m_saltData s)
    (m_keyData s) (m_noLockCode s) b.
Definition count_call (s : LockState) : LockState :=
  mkLockState (ls_check s) (ls_salt s) (ls_faults s) (S (ls_calls s)) (ls_corruptions s)
    (m_saltData s) (m_keyData s) (m_noLockCode s) (m_locked s).
Definition count_corruption (s : LockState) : LockState :=
  mkLockState (ls_check s) (ls_salt s) (ls_faults s) (ls_calls s) (S (ls_corruptions s))
    (m_saltData s) (m_keyData s) (m_noLockCode s) (m_locked s).

(** The outcome of the next call on the secrets directory. *)
Definition dir_call : M LockState (option (option (list DataDir) * option (list DataDir))) := λ s,
  match ls_faults s with
  | [] => (None, s)
  | f :: fs =>
      (f, mkLockState (ls_check s) (ls_salt s) fs (ls_calls s) (ls_corruptions s) (m_saltData s)
            (m_keyData s) (m_noLockCode s) (m_locked s))
  end.

(** [QDir::mkpath] of the secrets directory. *)
Definition mkpath : M LockState bool :=
  let* f := dir_call in ret (bool_decide (f = None)).

(** Run an operation of the [DataProtector] for one of the two directories. *)
Definition protector {A} (w : Protected) (m : M Protector A) : M LockState A :=
  match w with
  | LockCodeCheck => zoom ls_check set_check m
  | SaltData => zoom ls_salt set_salt m
  end.

(** A new [DataProtector] has read nothing yet. *)
Definition new_protector (w : Protected) : M LockState unit := protector w (modify (set_data "")).

(** The first part of the stored text, up to a line feed, and what follows it. *)
Fixpoint before_newline (s : bytes) : bytes :=
  match s with
  | String c s' => if bool_decide (c = "010"%char) then "" else String c (before_newline s')
  | EmptyString => ""
  end.

Fixpoint after_newline (s : bytes) : option bytes :=
  match s with
  | String c s' => if bool_decide (c = "010"%char) then Some s' else after_newline s'
  | EmptyString => None
  end.

Definition newline : bytes := String "010" "".

Section lock_codes.
  Context (env : LockEnv).

(** [SecretsRequestQueue::dealWithDataCorruption]: tell the user, or, where there
    is no way to do so, delete everything. *)
Definition dealWithDataCorruption : M LockState unit :=
  modify count_corruption ;;;
  if le_notifications env then ret tt
  else
    let* f := dir_call in
    let '(c, d) := default (None, None) f in
    protector LockCodeCheck (modify (set_root c)) ;;;
    protector SaltData (modify (set_root d)).

(** [putData] with the next unique name. *)
Definition put (w : Protected) (b : bytes) : M LockState Status :=
  let* n := gets ls_calls in
  modify count_call ;;;
  protector w (putData (le_uuid env n) b).

(** [SecretsRequestQueue::writeTestCipherText] *)
Definition writeTestCipherText (testCipherText : bytes) (cipherPluginName : string)
  : M LockState bool :=
  let* made := mkpath in
  if negb made then ret false else
  new_protector LockCodeCheck ;;;
  let* s := put LockCodeCheck (cipherPluginName +:+ newline +:+ testCipherText) in
  ret (bool_decide (s = Success)).

(** [SecretsRequestQueue::determineTestCipherPlugin]: [None] on failure. *)
Definition determineTestCipherPlugin : M LockState (option string) :=
  let* made := mkpath in
  if negb made then ret None else
  new_protector LockCodeCheck ;;;
  let* '(s, previousData) := protector LockCodeCheck (getData false) in
  match s with
  | Irretrievable => dealWithDataCorruption ;;; ret None
  | Success => ret (Some (before_newline previousData))
  | _ => ret None
  end.

(** [SecretsRequestQueue::compareTestCipherText] *)
Definition compareTestCipherText (testCipherText : bytes) (writeIfNotExists : bool)
  (cipherPluginName : string) : M LockState bool :=
  let* made := mkpath in
  if negb made then ret false else
  new_protector LockCodeCheck ;;;
  let* '(s, previousData) := protector LockCodeCheck (getData false) in
  match s with
  | Irretrievable => dealWithDataCorruption ;;; ret false
  | Success =>
      if isEmpty previousData then
        if writeIfNotExists then
          let* s := put LockCodeCheck (cipherPluginName +:+ newline +:+ testCipherText) in
          ret (bool_decide (s = Success))
        else ret false
      else
        ret (bool_decide (default previousData (after_newline previousData) = testCipherText))
  | _ => ret false
  end.

(** [SecretsRequestQueue::saltData] *)
Definition saltData : M LockState bytes :=
  let* cached := gets m_saltData in
  if negb (isEmpty cached) then ret cached else
  let* made := mkpath in
  if negb made then ret "" else
  new_protector SaltData ;;;
  let* '(s, saltData) := protector SaltData (getData false) in
  match s with
  | Irretrievable => dealWithDataCorruption ;;; ret ""
  | Success =>
      if isEmpty saltData then
        let* n := gets ls_calls in
        modify count_call ;;;
        match le_urandom env n with
        | None => ret ""
        | Some random =>
            let saltData := xor_into (String.substring 0 1024 random) (le_date env n) in
            let* s := put SaltData saltData in
            if bool_decide (s = Success) then modify (set_saltData saltData) ;;; ret saltData
            else ret ""
        end
      else modify (set_saltData saltData) ;;; ret saltData
  | _ => ret ""
  end.

(** * Key derivation *)

(** The parameters of the derivation of the first key. *)
Definition kdf_parameters (lockCode salt : bytes) : KeyDerivationParameters :=
  mkKdf KdfPkcs5Pbkdf2 MacHmac DigestSha512 12000
    (if isEmpty lockCode then String "000" "" else lockCode) salt 256.

Definition generate (p : CryptoPlugin) (kdfParams : KeyDerivationParameters) : option bytes :=
  cp_generateKey p AlgorithmAes 256 kdfParams.

Definition test_suffix : string := ".test".

(** The plugin to use: the one of the environment variable, else the given one,
    else the default one.  The outer [None] is a plugin that does not exist, the
    inner one that any plugin may be used. *)
Definition choose_plugin (cipherPluginName : string) : option (option CryptoPlugin) :=
  let value name := le_plugins env !! name in
  let cplugin := if isEmpty cipherPluginName then None else value cipherPluginName in
  match cplugin with
  | None => if negb (isEmpty cipherPluginName) then None else Some cplugin
  | Some _ => Some cplugin
  end ≫= λ cplugin,
  let envCPluginName := le_getenv env "SAILFISH_SECRETSD_MASTERLOCK_CRYPTOPLUGIN" in
  (if isEmpty envCPluginName then Some cplugin
   else
     match value envCPluginName with
     | Some p => Some (Some p)
     | None =>
         if le_autotestMode env then Some <$> value (envCPluginName +:+ test_suffix) else None
     end) ≫= λ cplugin,
  match cplugin with
  | Some p => Some (Some p)
  | None =>
      Some (value (controller_mappedPluginName (le_getenv env)
        (if le_autotestMode env then DefaultCryptoPluginName +:+ test_suffix
         else DefaultCryptoPluginName)))
  end.

(** The first of the plugins that can derive both keys.  The parameters are
    passed on from one plugin to the next. *)
Fixpoint search_plugin (plugins : list CryptoPlugin) (kdfParams : KeyDerivationParameters)
  : option (CryptoPlugin * bytes * bytes) :=
  match plugins with
  | [] => None
  | p :: plugins' =>
      match generate p kdfParams with
      | Some tempKey =>
          let kdfParams := setIterations 16000 kdfParams in
          match generate p kdfParams with
          | Some key => Some (p, tempKey, key)
          | None => search_plugin plugins' kdfParams
          end
      | None => search_plugin plugins' kdfParams
      end
  end.

(** The installed plugins in the order of their names. *)
Definition all_plugins : list CryptoPlugin :=
  omap (λ name, le_plugins env !! name) (qmap_keys (le_plugins env)).

(** Both keys, with the plugin that derives them. *)
Definition derive_keys (cipherPluginName : string) (lockCode salt : bytes)
  : option (CryptoPlugin * bytes * bytes) :=
  let kdfParams := kdf_parameters lockCode salt in
  chosen ← choose_plugin cipherPluginName;
  match chosen with
  | None => search_plugin all_plugins kdfParams
  | Some p =>
      tempKey ← generate p kdfParams;
      key ← generate p (setIterations 16000 kdfParams);
      Some (p, tempKey, key)
  end.

(** The keys and the test text; with them the name of the plugin. *)
Record KeyData := mkKeyData {
  kd_bkdbKey : bytes;
  kd_deviceLockKey : bytes;
  kd_testCipherText : bytes;
  kd_usedCipherPluginName : string;
}.

(** What [generateKeyData] makes of a salt. *)
Definition key_data (cipherPluginName : string) (lockCode salt : bytes) : option KeyData :=
  '(p, bookkeepingdbKey, devicelockKey) ← derive_keys cipherPluginName lockCode salt;
  let iv := String.substring 0 16 (le_sha512 env (salt +:+ bookkeepingdbKey)) in
  text ← cp_encrypt p plaintext iv bookkeepingdbKey BlockModeCbc EncryptionPaddingNone;
  Some (mkKeyData (toHex bookkeepingdbKey) devicelockKey text (cp_name p)).

(** [SecretsRequestQueue::generateKeyData] *)
Definition generateKeyData (lockCode : bytes) (cipherPluginName : string)
  : M LockState (option KeyData) :=
  let* salt := saltData in
  if isEmpty salt then ret None else ret (key_data cipherPluginName lockCode salt).

(** * The memory of the keys *)

(** [memcpy(block + at, data, size)]; [true]: behind the end of the block. *)
Definition memcpy (at_ : nat) (data : bytes) (block : list ascii) : list ascii * bool :=
  let l := String.list_ascii_of_string data in
  (take at_ block ++ l ++ drop (at_ + length l) block,
   negb (Nat.leb (at_ + length l) (length block))).

(** [SecretsRequestQueue::initializeKeyData]; fresh memory is anything. *)
Definition initializeKeyData (bkdbKey deviceLockKey : bytes) (m : option KeyMemory) : KeyMemory :=
  let km := match m with
            | None => mkMemory (replicate (String.length bkdbKey + String.length deviceLockKey) "000"%char)
                        (String.length bkdbKey) 0 0 false
            | Some km => km
            end in
  let '(block, over) := memcpy 0 bkdbKey (km_block km) in
  let '(block, over') := memcpy (km_deviceLockKeyData km) deviceLockKey block in
  mkMemory block (km_deviceLockKeyData km) (String.length bkdbKey) (String.length deviceLockKey)
    (km_overflow km || over || over').

(** [SecretsRequestQueue::bkdbLockKey], [SecretsRequestQueue::deviceLockKey] *)
Definition bkdbLockKey (s : LockState) : bytes :=
  match m_keyData s with
  | None => ""
  | Some km => String.string_of_list_ascii (take (km_bkdbLockKeyLen km) (km_block km))
  end.

Definition deviceLockKey (s : LockState) : bytes :=
  match m_keyData s with
  | None => ""
  | Some km =>
      String.string_of_list_ascii (take (km_deviceLockKeyLen km) (drop (km_deviceLockKeyData km) (km_block km)))
  end.

(** * The lock code *)

Definition no_plugin : string := "no-key-derivation-cipher-plugin".

(** The first part of [initialize]: the test text, the two keys, and the plugin
    that was used.  [None]: it gives up. *)
Definition initial_keys (lockCode : bytes) (determined : option string)
  : M LockState (option (bytes * bytes * bytes * string)) :=
  let cipherPluginName := default "" determined in
  let firstTimeInitialization := isEmpty cipherPluginName in
  let* generated :=
    (if bool_decide (cipherPluginName = no_plugin) then ret (Some (mkKeyData "" "" "" ""))
     else
       let* generated := generateKeyData lockCode cipherPluginName in
       ret (match generated with
            | Some kd => Some kd
            | None => if firstTimeInitialization then Some (mkKeyData "" "" "" no_plugin) else None
            end)) in
  ret ((λ kd,
    (if bool_decide (cipherPluginName = no_plugin)
        || bool_decide (kd_usedCipherPluginName kd = no_plugin)
     then specifyDummyMasterlockKeys lockCode
     else (kd_testCipherText kd, kd_bkdbKey kd, kd_deviceLockKey kd),
     kd_usedCipherPluginName kd)) <$> generated).

(** The second part: test against or modify the test text. *)
Definition mode_check (mode : InitializationMode) (testCipherText : bytes)
  (usedCipherPluginName : string) : M LockState bool :=
  match mode with
  | ModifyLockMode => writeTestCipherText testCipherText usedCipherPluginName
  | UnlockMode => compareTestCipherText testCipherText true usedCipherPluginName
  | LockMode => ret true
  end.

(** The third part: the keys and the flags. *)
Definition set_keys (lockCode : bytes) (mode : InitializationMode) (bkdbKey deviceLockKey : bytes)
  (s : LockState) : LockState :=
  let s := set_keyData (initializeKeyData bkdbKey deviceLockKey (m_keyData s)) s in
  match mode with
  | LockMode => set_locked true s
  | _ => setNoLockCode (isEmpty lockCode) (set_locked false s)
  end.

(** [SecretsRequestQueue::initialize] *)
Definition initialize (lockCode : bytes) (mode : InitializationMode) : M LockState bool :=
  let* determined := determineTestCipherPlugin in
  let* keys := initial_keys lockCode determined in
  match keys with
  | None => ret false
  | Some (testCipherText, bkdbKey, deviceLockKey, usedCipherPluginName) =>
      let* checked := mode_check mode testCipherText usedCipherPluginName in
      if negb checked then ret false
      else modify (set_keys lockCode mode bkdbKey deviceLockKey) ;;; ret true
  end.

(** [SecretsRequestQueue::masterLocked], [SecretsRequestQueue::noLockCode] *)
Definition masterLocked : LockState → bool := m_locked.
Definition noLockCode : LockState → bool := m_noLockCode.

(** [SecretsRequestQueue::testLockCode] *)
Definition testLockCode (lockCode : bytes) : M LockState bool :=
  let* determined := determineTestCipherPlugin in
  match determined with
  | None => ret false
  | Some cipherPluginName =>
      let* generated :=
        (if bool_decide (cipherPluginName = no_plugin) then
           ret (Some (specifyDummyMasterlockKeys lockCode).1.1)
         else
           let* generated := generateKeyData lockCode cipherPluginName in
           ret (kd_testCipherText <$> generated)) in
      match generated with
      | None => ret false
      | Some testCipherText => compareTestCipherText testCipherText false cipherPluginName
      end
  end.
End lock_codes.
