(* ===== verification/LockCodesSpec.v ===== *)
(** Correctness of the lock code: which codes are accepted, what a refused code
    leaves, and the bounds of the key memory. *)
From S2P Require Import Prelude PluginApi CryptoManager SqlCipherPlugin DataProtector DataProtectorSpec.
From S2P Require Import Processor LockCodes.
From Stdlib Require Import Ascii Lia.

(** * What is left alone *)

(** The keys in memory and the flags. *)
Definition keys_are (k : option KeyMemory) (n l : bool) (s : LockState) : Prop :=
  m_keyData s = k ∧ m_noLockCode s = n ∧ m_locked s = l.

Section frame.
  Context (env : LockEnv) (k : option KeyMemory) (n l : bool).

Lemma dir_call_keeps : preserves (keys_are k n l) dir_call.
Proof. intros s Hs. unfold wp, dir_call. by destruct (ls_faults s). Qed.

Lemma protector_keeps {A} w (m : M Protector A) : preserves (keys_are k n l) (protector w m).
Proof. intros s Hs. destruct w; apply wp_zoom; exact Hs. Qed.

Lemma modify_keeps f : (∀ s, keys_are k n l s → keys_are k n l (f s)) →
  preserves (keys_are k n l) (modify f).
Proof. apply preserves_modify. Qed.

Lemma count_call_keeps : preserves (keys_are k n l) (modify count_call).
Proof. by apply modify_keeps. Qed.

Lemma count_corruption_keeps : preserves (keys_are k n l) (modify count_corruption).
Proof. by apply modify_keeps. Qed.

Lemma set_saltData_keeps d : preserves (keys_are k n l) (modify (set_saltData d)).
Proof. by apply modify_keeps. Qed.

#[local] Hint Resolve dir_call_keeps protector_keeps count_call_keeps count_corruption_keeps
  set_saltData_keeps : keep.

Lemma mkpath_keeps : preserves (keys_are k n l) mkpath.
Proof. unfold mkpath. keep. Qed.
#[local] Hint Resolve mkpath_keeps : keep.

Lemma dealWithDataCorruption_keeps : preserves (keys_are k n l) (dealWithDataCorruption env).
Proof. unfold dealWithDataCorruption. keep. Qed.
#[local] Hint Resolve dealWithDataCorruption_keeps : keep.

Lemma put_keeps w b : preserves (keys_are k n l) (put env w b).
Proof. unfold put. keep. Qed.
#[local] Hint Resolve put_keeps : keep.

Lemma new_protector_keeps w : preserves (keys_are k n l) (new_protector w).
Proof. unfold new_protector. keep. Qed.
#[local] Hint Resolve new_protector_keeps : keep.

Lemma writeTestCipherText_keeps t p : preserves (keys_are k n l) (writeTestCipherText env t p).
Proof. unfold writeTestCipherText. keep. Qed.

Lemma determineTestCipherPlugin_keeps :
  preserves (keys_are k n l) (determineTestCipherPlugin env).
Proof. unfold determineTestCipherPlugin. keep. Qed.

Lemma compareTestCipherText_keeps t b p :
  preserves (keys_are k n l) (compareTestCipherText env t b p).
Proof. unfold compareTestCipherText. keep. Qed.

Lemma saltData_keeps : preserves (keys_are k n l) (saltData env).
Proof. unfold saltData. keep. Qed.
#[local] Hint Resolve writeTestCipherText_keeps determineTestCipherPlugin_keeps
  compareTestCipherText_keeps saltData_keeps : keep.

Lemma generateKeyData_keeps c p : preserves (keys_are k n l) (generateKeyData env c p).
Proof. unfold generateKeyData. keep. Qed.
#[local] Hint Resolve generateKeyData_keeps : keep.

Lemma testLockCode_keeps c : preserves (keys_are k n l) (testLockCode env c).
Proof. unfold testLockCode. keep. Qed.
End frame.

#[export] Hint Resolve writeTestCipherText_keeps determineTestCipherPlugin_keeps
  compareTestCipherText_keeps generateKeyData_keeps saltData_keeps : keep.

(** ** The result of [initialize] *)

Lemma initial_keys_keeps env k n l c d : preserves (keys_are k n l) (initial_keys env c d).
Proof. unfold initial_keys. keep. Qed.

Lemma mode_check_keeps env k n l mode t p : preserves (keys_are k n l) (mode_check env mode t p).
Proof. unfold mode_check. keep. Qed.

Lemma wp_initialize env c mode (Q : bool → LockState → Prop) s :
  wp (determineTestCipherPlugin env) (λ determined, wp (initial_keys env c determined) (λ r s2,
      match r with
      | None => Q false s2
      | Some (text, bkdb, dev, used) =>
          wp (mode_check env mode text used) (λ (checked : bool) s3,
            if checked then Q true (set_keys c mode bkdb dev s3) else Q false s3) s2
      end)) s →
  wp (initialize env c mode) Q s.
Proof.
  intros H. unfold initialize. apply wp_bind. eapply wp_mono; [exact H|]. clear H s.
  intros determined s H. apply wp_bind. eapply wp_mono; [exact H|]. clear H s.
  intros [[[[text bkdb] dev] used]|] s H; [|exact H].
  apply wp_bind. eapply wp_mono; [exact H|]. intros [] s3 H3; exact H3.
Qed.

(** A refused code changes neither the keys nor the flags. *)
Lemma initialize_refused env k n l c mode s :
  keys_are k n l s → wp (initialize env c mode) (λ r s', r = false → keys_are k n l s') s.
Proof.
  intros Hs. apply wp_initialize.
  eapply wp_mono; [by apply (determineTestCipherPlugin_keeps env k n l)|]. intros determined s1 H1.
  eapply wp_mono; [by apply (initial_keys_keeps env k n l)|]. intros [[[[text bkdb] dev] used]|] s2 H2; [|done].
  eapply wp_mono; [by apply (mode_check_keeps env k n l)|]. by intros [] s3 H3.
Qed.

(** * A good environment *)

(** The directory has the data in the majority of its files, one of them
    readable, or does not exist and the data are empty. *)
Definition reads (p : Protector) (b : bytes) : Prop :=
  (root p = None ∧ b = "")
  ∨ ∃ d, root p = Some [d]
      ∧ (length (dd_files d) `div` 2 + 1 ≤ count b (read_file <$> (dd_files d).*2))%nat
      ∧ (∃ y, Some y ∈ (dd_files d).*2).

Lemma set_data_reads b' p b : reads p b → reads (set_data b' p) b.
Proof. done. Qed.

Lemma getData_reads p b (Q : Status * bytes → Protector → Prop) :
  reads p b → m_data p = "" → os_good p →
  (∀ p', reads p' b → os_good p' → root p' = root p → Q (Success, b) p') →
  wp (getData false) Q p.
Proof.
  intros [[Hr ->]|(d&Hr&Hc&y&Hy)] Hm Hg HQ.
  - unfold wp, getData, bind, gets. simpl. rewrite Hm, Hr. apply HQ; [by left|done..].
  - pose proof (getData_majority d [d] [] b p Hm Hr eq_refl Hc (ex_intro _ y Hy)) as Hget.
    assert (∀ (x : Status * bytes) p', getData false p = (x, p') → root p' = root p ∧ os_good p') as Hst.
    { intros x p'. unfold getData, bind, gets. simpl. rewrite Hm, Hr. simpl.
      unfold bind, modify, ret, on_dirs. rewrite Hr. simpl.
      rewrite filter_all by (intros; left; apply not_elem_of_nil).
      destruct (bool_decide _); [by intros [= <- <-]|]. destruct (forallb _ _); [by intros [= <- <-]|].
      destruct (vote _); by intros [= <- <-]. }
    unfold wp. destruct (getData false p) as [x p'] eqn:E. destruct (Hst _ _ eq_refl) as [Hr' Hg'].
    simpl in *. subst x. apply HQ; [|done|done]. right. exists d. rewrite Hr'. eauto.
Qed.

Lemma putData_reads uuid b p (Q : Status → Protector → Prop) :
  os_good p → uuid ∉ dd_name <$> default [] (root p) →
  (∀ p', reads p' b → os_good p' → dd_name <$> default [] (root p') = [uuid] → Q Success p') →
  wp (putData uuid b) Q p.
Proof.
  intros Hg Hu HQ. eapply wp_mono; [by apply putData_good|]. intros st p' (->&Hg'&_&t&Hr).
  apply HQ; [|done|by rewrite Hr]. right. exists (stored uuid t b 3). split_and!; [done| |].
  - unfold stored, data_files, count. simpl. rewrite !filter_cons, !decide_True by done. simpl. lia.
  - exists b. simpl. by left.
Qed.

(** Nothing fails, and the unique names are new. *)
Definition lock_good (env : LockEnv) (s : LockState) : Prop :=
  Forall (λ f, f = None) (ls_faults s) ∧ os_good (ls_check s) ∧ os_good (ls_salt s)
  ∧ (∀ i, (ls_calls s ≤ i)%nat → le_uuid env i ∉ dd_name <$> default [] (root (ls_check s)))
  ∧ (∀ i, (ls_calls s ≤ i)%nat → le_uuid env i ∉ dd_name <$> default [] (root (ls_salt s))).

(** The salt is known. *)
Definition salted (s : LockState) (salt : bytes) : Prop :=
  salt ≠ "" ∧ (m_saltData s = salt ∨ m_saltData s = "" ∧ reads (ls_salt s) salt).

(** The environment is good, and [check] and [salt] are stored. *)
Definition ready (env : LockEnv) (check salt : bytes) (s : LockState) : Prop :=
  lock_good env s ∧ reads (ls_check s) check ∧ salted s salt.

Section good.
  Context (env : LockEnv) `{!Inj (=) (=) (le_uuid env)} (check salt : bytes).
  Implicit Types (s : LockState).

Lemma mkpath_good s (Q : bool → LockState → Prop) :
  ready env check salt s →
  (∀ s', ready env check salt s' → m_saltData s' = m_saltData s → Q true s') → wp mkpath Q s.
Proof.
  intros (Hg&Hc&Hs) HQ. unfold mkpath. apply wp_bind. unfold wp at 1, dir_call.
  destruct Hg as (Hf&Hg). destruct (ls_faults s) as [|f fs] eqn:E; simpl.
  - apply wp_ret. apply HQ; [|done]. refine (conj (conj _ Hg) (conj Hc Hs)). by rewrite E.
  - inversion_clear Hf; subst. apply wp_ret. apply HQ; [|done].
    by refine (conj (conj _ Hg) (conj Hc Hs)).
Qed.

Lemma read_check s (Q : Status * bytes → LockState → Prop) :
  ready env check salt s → m_data (ls_check s) = "" →
  (∀ s', ready env check salt s' → Q (Success, check) s') →
  wp (protector LockCodeCheck (getData false)) Q s.
Proof.
  intros ((Hf&Hg1&Hg2&Hu1&Hu2)&Hc&Hs) Hm HQ. apply wp_zoom. apply (getData_reads _ check); [done..|].
  intros p' Hr' Hg' Hroot. apply HQ.
  refine (conj (conj Hf (conj Hg' (conj Hg2 (conj _ Hu2)))) (conj Hr' Hs)). simpl. by rewrite Hroot.
Qed.

Lemma new_check s (Q : unit → LockState → Prop) :
  ready env check salt s →
  (∀ s', ready env check salt s' → m_data (ls_check s') = "" → Q tt s') →
  wp (new_protector LockCodeCheck) Q s.
Proof. intros H HQ. apply wp_zoom, wp_modify, HQ; done. Qed.

Lemma determineTestCipherPlugin_good s :
  ready env check salt s →
  wp (determineTestCipherPlugin env)
    (λ r s', r = Some (before_newline check) ∧ ready env check salt s') s.
Proof.
  intros H. unfold determineTestCipherPlugin. apply wp_bind, mkpath_good; [done|]. intros s1 H1 _. clear s H.
  simpl. apply wp_bind, new_check; [done|]. clear s1 H1. intros s H Hm.
  apply wp_bind, read_check; [done..|]. clear s H Hm. intros s H. by apply wp_ret.
Qed.

Lemma compareTestCipherText_good t b p s :
  ready env check salt s → check ≠ "" →
  wp (compareTestCipherText env t b p)
    (λ r s', r = bool_decide (default check (after_newline check) = t) ∧ ready env check salt s') s.
Proof.
  intros H Hne. unfold compareTestCipherText. apply wp_bind, mkpath_good; [done|]. intros s1 H1 _. clear s H.
  simpl. apply wp_bind, new_check; [done|]. clear s1 H1. intros s H Hm.
  apply wp_bind, read_check; [done..|]. clear s H Hm. intros s H. unfold isEmpty.
  rewrite bool_decide_false by done. by apply wp_ret.
Qed.

Lemma saltData_good s :
  ready env check salt s →
  wp (saltData env) (λ r s', r = salt ∧ ready env check salt s') s.
Proof.
  intros H. unfold saltData. apply wp_bind, wp_gets. unfold isEmpty.
  destruct (decide (m_saltData s = "")) as [Hm|Hm].
  2: { rewrite bool_decide_false by done. apply wp_ret. split; [|done].
       by destruct H as (_&_&Hne&[->|[? _]]). }
  rewrite bool_decide_true by done. simpl. apply wp_bind, mkpath_good; [done|].
  intros s1 H1 Hm1. rewrite <-Hm1 in Hm. clear s H Hm1. simpl.
  apply wp_bind, wp_zoom, wp_modify, wp_bind, wp_zoom. simpl.
  destruct H1 as ((Hf&Hg1&Hg2&Hu1&Hu2)&Hc&Hne&[Hs|[_ Hs]]); [congruence|].
  apply (getData_reads _ salt); [done..|]. intros p' Hr' Hg' Hroot. simpl.
  rewrite bool_decide_false by done. apply wp_bind, wp_modify, wp_ret.
  split; [done|]. refine (conj (conj Hf (conj Hg1 (conj Hg' (conj Hu1 _)))) (conj Hc (conj Hne (or_introl eq_refl)))).
  simpl. by rewrite Hroot.
Qed.

Lemma generateKeyData_good c p s :
  ready env check salt s →
  wp (generateKeyData env c p) (λ r s', r = key_data env p c salt ∧ ready env check salt s') s.
Proof.
  intros H. unfold generateKeyData. apply wp_bind. eapply wp_mono; [by apply saltData_good|].
  intros r s1 (->&H1). unfold isEmpty. rewrite bool_decide_false by apply H1. by apply wp_ret.
Qed.

Lemma writeTestCipherText_good t p s :
  ready env check salt s →
  wp (writeTestCipherText env t p)
    (λ r s', r = true ∧ ready env (p +:+ newline +:+ t) salt s') s.
Proof.
  intros H. unfold writeTestCipherText. apply wp_bind, mkpath_good; [done|]. intros s1 H1 _. clear s H.
  simpl. apply wp_bind, new_check; [done|]. clear s1 H1. intros s ((Hf&Hg1&Hg2&Hu1&Hu2)&Hc&Hs) _.
  apply wp_bind. unfold put. apply wp_bind, wp_gets, wp_bind, wp_modify, wp_zoom. simpl.
  apply putData_reads; [done|by apply Hu1|]. intros p' Hr' Hg' Hroot. apply wp_ret.
  split; [done|]. refine (conj (conj Hf (conj Hg' (conj Hg2 (conj _ _)))) (conj Hr' Hs)); simpl.
  - intros i Hi. rewrite Hroot. intros Hin%list_elem_of_singleton%(inj _). lia.
  - intros i Hi. apply Hu2. lia.
Qed.
End good.

(** ** The stored text *)

Lemma before_newline_app name text :
  before_newline name = name → before_newline (name +:+ newline +:+ text) = name.
Proof.
  induction name as [|a name IH]; simpl; [done|]. case_bool_decide as Hc; [done|]. intros [= H]. by rewrite IH.
Qed.

Lemma after_newline_app name text :
  before_newline name = name → after_newline (name +:+ newline +:+ text) = Some text.
Proof.
  induction name as [|a name IH]; simpl; [done|]. case_bool_decide as Hc; [done|]. intros [= H]. by apply IH.
Qed.

(** ** Which codes are accepted *)

(** The text and the keys that a code leads to, for the stored plugin name. *)
Definition lock_keys (env : LockEnv) (name : string) (c salt : bytes)
  : option (bytes * bytes * bytes) :=
  if bool_decide (name = no_plugin) then Some (specifyDummyMasterlockKeys c)
  else (λ kd, (kd_testCipherText kd, kd_bkdbKey kd, kd_deviceLockKey kd))
         <$> key_data env name c salt.

Definition test_text (env : LockEnv) (name : string) (c salt : bytes) : option bytes :=
  (λ k, k.1.1) <$> lock_keys env name c salt.

Lemma elem_of_all_plugins env p : p ∈ all_plugins env → ∃ k, le_plugins env !! k = Some p.
Proof. unfold all_plugins. rewrite list_elem_of_omap. intros (k&_&H). eauto. Qed.

Lemma search_plugin_elem ps kdf p k1 k2 :
  search_plugin ps kdf = Some (p, k1, k2) →
  p ∈ ps ∧ ∃ kdf1 kdf2, generate p kdf1 = Some k1 ∧ generate p kdf2 = Some k2.
Proof.
  revert kdf. induction ps as [|q ps IH]; intros kdf; simpl; [done|].
  destruct (generate q kdf) as [a|] eqn:E1; [destruct (generate q (setIterations 16000 kdf)) eqn:E2|].
  - intros [= -> -> ->]. split; [by left|eauto].
  - intros H%IH. set_solver.
  - intros H%IH. set_solver.
Qed.

Lemma choose_plugin_installed env name p :
  choose_plugin env name = Some (Some p) → ∃ k, le_plugins env !! k = Some p.
Proof.
  unfold choose_plugin. intros (q&Hq&H)%bind_Some. apply bind_Some in H as (q'&Hq'&H).
  assert (∀ x, q = Some x → ∃ k, le_plugins env !! k = Some x) as Hinst.
  { intros x ->. repeat (case_match; simplify_eq/=; eauto). }
  destruct q' as [x|]; simplify_eq/=; [|eauto].
  destruct (isEmpty _) in Hq'; simplify_eq; [eauto|].
  case_match; simplify_eq; [eauto|]. case_match; [|done]. apply fmap_Some in Hq' as (?&?&[= ->]). eauto.
Qed.

(** The keys are generated by an installed plugin. *)
Lemma derive_keys_installed env name c salt p k1 k2 :
  derive_keys env name c salt = Some (p, k1, k2) →
  (∃ k, le_plugins env !! k = Some p)
  ∧ ∃ kdf1 kdf2, generate p kdf1 = Some k1 ∧ generate p kdf2 = Some k2.
Proof.
  unfold derive_keys. intros ([q|]&Hq&H)%bind_Some.
  - apply bind_Some in H as (a&Ha&H). apply bind_Some in H as (b&Hb&H). simplify_eq.
    apply choose_plugin_installed in Hq. eauto.
  - apply search_plugin_elem in H as [Hin%elem_of_all_plugins ?]. eauto.
Qed.

Section accepted.
  Context (env : LockEnv) `{!Inj (=) (=) (le_uuid env)} (name : string) (text salt : bytes).
  Context (Hname : before_newline name = name).

Let check : bytes := name +:+ newline +:+ text.

Lemma check_not_empty : check ≠ "".
Proof. unfold check. by destruct name. Qed.

Lemma testLockCode_good c s :
  ready env check salt s →
  wp (testLockCode env c)
    (λ r s', r = bool_decide (test_text env name c salt = Some text) ∧ ready env check salt s') s.
Proof.
  intros H. unfold testLockCode. apply wp_bind.
  eapply wp_mono; [by apply determineTestCipherPlugin_good|]. clear s H. intros r s (->&H). simpl.
  unfold check. rewrite before_newline_app by done. fold check.
  apply wp_bind, (wp_mono _ (λ r s', r = test_text env name c salt ∧ ready env check salt s')).
  { unfold test_text, lock_keys. destruct (bool_decide _); [by apply wp_ret|]. apply wp_bind.
    eapply wp_mono; [by apply generateKeyData_good|]. intros r s' (->&H'). apply wp_ret.
    by rewrite <-option_fmap_compose. }
  clear s H. intros r s (->&H). destruct (test_text env name c salt) as [t|].
  - eapply wp_mono; [by apply compareTestCipherText_good, check_not_empty|]. intros r s' (->&H').
    split; [|done]. unfold check. rewrite after_newline_app by done. simpl.
    apply bool_decide_ext. split; congruence.
  - apply wp_ret. by rewrite bool_decide_false.
Qed.

Context (Hnot : ∀ k p, le_plugins env !! k = Some p → cp_name p ≠ no_plugin).

Lemma key_data_used n c kd : key_data env n c salt = Some kd → kd_usedCipherPluginName kd ≠ no_plugin.
Proof.
  unfold key_data. intros ([[p k1] k2]&Hp&H)%bind_Some. apply bind_Some in H as (t&_&[= <-]). simpl.
  apply derive_keys_installed in Hp as [[k Hk] _]. eauto.
Qed.

Lemma initial_keys_good c0 c s :
  ready env c0 salt s → before_newline c0 ≠ "" →
  wp (initial_keys env c (Some (before_newline c0)))
    (λ r s', (λ x, x.1) <$> r = lock_keys env (before_newline c0) c salt ∧ ready env c0 salt s') s.
Proof.
  intros H Hne. unfold initial_keys, lock_keys. simpl. apply wp_bind.
  destruct (bool_decide (before_newline c0 = no_plugin)) eqn:E; [by apply wp_ret, wp_ret|].
  apply wp_bind. eapply wp_mono; [by apply generateKeyData_good|]. clear s H. intros r s (->&H).
  apply wp_ret, wp_ret. split; [|done]. unfold isEmpty. rewrite bool_decide_false by done.
  destruct (key_data env _ c salt) as [kd|] eqn:Ek; [|done]. simpl.
  rewrite bool_decide_false by (by eapply key_data_used). done.
Qed.

Lemma ready_set_keys c0 c mode b d s :
  ready env c0 salt s → ready env c0 salt (set_keys c mode b d s).
Proof. by destruct mode. Qed.

(** Unlocking with a stored text: the code is accepted exactly if it leads to that
    text, and then its keys are put into memory. *)
Lemma unlock_good c s km :
  ready env check salt s → name ≠ "" → m_keyData s = km →
  wp (initialize env c UnlockMode)
    (λ r s', r = bool_decide (test_text env name c salt = Some text) ∧ ready env check salt s'
       ∧ (r = true → ∃ t b d, lock_keys env name c salt = Some (t, b, d)
            ∧ m_keyData s' = Some (initializeKeyData b d km)
            ∧ m_locked s' = false ∧ m_noLockCode s' = isEmpty c)) s.
Proof.
  intros H Hne Hkm. apply wp_initialize.
  eapply wp_mono; [apply wp_and; [by apply determineTestCipherPlugin_good|
    by apply (determineTestCipherPlugin_keeps env km (m_noLockCode s) (m_locked s))]|].
  intros r s1 [(->&H1) K1]. simpl in K1.
  eapply wp_mono; [apply wp_and; [apply initial_keys_good; [done|by unfold check; rewrite before_newline_app]|
    by apply (initial_keys_keeps env km (m_noLockCode s) (m_locked s))]|].
  intros r s2 [(Hr&H2) K2]. unfold check in Hr. rewrite before_newline_app in Hr by done.
  unfold test_text. rewrite <-Hr. destruct r as [[[[t b] d] used]|]; simpl in *; [|done].
  eapply wp_mono; [apply wp_and; [by apply compareTestCipherText_good, check_not_empty|
    by apply (compareTestCipherText_keeps env km (m_noLockCode s) (m_locked s))]|].
  intros r s3 [(->&H3) K3]. simpl in K3. unfold check. rewrite after_newline_app by done. simpl.
  case_bool_decide as Ht.
  - rewrite bool_decide_true by congruence. split_and!; [done|exact H3|].
    intros _. exists t, b, d. simpl. by rewrite (proj1 K3).
  - rewrite bool_decide_false by congruence. done.
Qed.
End accepted.

(** ** Changing the code *)

Section changed.
  Context (env : LockEnv) `{!Inj (=) (=) (le_uuid env)} (check salt : bytes).
  Context (Hnot : ∀ k p, le_plugins env !! k = Some p → cp_name p ≠ no_plugin).

(** A plugin that was chosen is chosen again by its name. *)
Lemma choose_plugin_again name p :
  choose_plugin env name = Some (Some p) → le_plugins env !! cp_name p = Some p → cp_name p ≠ "" →
  choose_plugin env (cp_name p) = Some (Some p).
Proof.
  unfold choose_plugin. intros (q&_&H)%bind_Some Hp Hne. apply bind_Some in H as (q'&Hq'&H).
  assert (isEmpty (cp_name p) = false) as -> by (by apply bool_decide_eq_false). rewrite Hp. simpl.
  destruct (isEmpty (le_getenv _ _)); simpl; [done|]. rewrite Hq'. exact H.
Qed.

(** The keys depend on the name only through the chosen plugin. *)
Lemma key_data_again name p c :
  choose_plugin env name = Some (Some p) → le_plugins env !! cp_name p = Some p → cp_name p ≠ "" →
  key_data env (cp_name p) c salt = key_data env name c salt.
Proof.
  intros Hc Hp Hne. unfold key_data, derive_keys. by rewrite (choose_plugin_again name), Hc.
Qed.

Lemma key_data_plugin name p c kd :
  choose_plugin env name = Some (Some p) → key_data env name c salt = Some kd →
  kd_usedCipherPluginName kd = cp_name p.
Proof.
  intros Hc. unfold key_data, derive_keys. rewrite Hc. simpl.
  intros ([[q k1] k2]&Hq&H)%bind_Some. apply bind_Some in H as (t&_&[= <-]). simpl.
  apply bind_Some in Hq as (a&_&Hq). by apply bind_Some in Hq as (b&_&[= <- _ _]).
Qed.

Lemma modify_good c kd s :
  ready env check salt s → before_newline check ≠ no_plugin →
  key_data env (before_newline check) c salt = Some kd →
  wp (initialize env c ModifyLockMode)
    (λ r s', r = true
       ∧ ready env (kd_usedCipherPluginName kd +:+ newline +:+ kd_testCipherText kd) salt s') s.
Proof.
  intros H Hdummy Hkd. apply wp_initialize.
  eapply wp_mono; [by apply determineTestCipherPlugin_good|]. clear s H. intros r s (->&H).
  unfold initial_keys. simpl. rewrite bool_decide_false by done.
  apply wp_bind, wp_bind. eapply wp_mono; [by apply generateKeyData_good|]. clear s H. intros r s (->&H).
  apply wp_ret, wp_ret. rewrite Hkd. simpl.
  rewrite (bool_decide_false (_ = no_plugin)) by (by eapply key_data_used).
  eapply wp_mono; [by eapply writeTestCipherText_good|]. intros r s' (->&H'). split; [done|exact H'].
Qed.

(** With dummy keys, the new text is stored without a plugin name. *)
Lemma modify_dummy c s :
  ready env check salt s → before_newline check = no_plugin →
  wp (initialize env c ModifyLockMode)
    (λ r s', r = true
       ∧ ready env ("" +:+ newline +:+ (specifyDummyMasterlockKeys c).1.1) salt s') s.
Proof.
  intros H Hdummy. apply wp_initialize.
  eapply wp_mono; [by apply determineTestCipherPlugin_good|]. clear s H. intros r s (->&H).
  unfold initial_keys. rewrite bool_decide_true by done.
  destruct (specifyDummyMasterlockKeys c) as [[t b] d]. apply wp_bind, wp_ret, wp_ret.
  eapply wp_mono; [by eapply (writeTestCipherText_good env check salt t "")|].
  intros r s' (->&H'). split; [done|exact H'].
Qed.
End changed.

(** * The keys of the lock code *)

Lemma length_toHex b : String.length (toHex b) = (2 * String.length b)%nat.
Proof. induction b as [|c b IH]; simpl; [done|]. rewrite IH. lia. Qed.

Lemma length_xor_into data key : String.length (xor_into data key) = String.length data.
Proof.
  revert key. induction data as [|a data IH]; intros [|b key]; simpl; [done..|]. by rewrite IH.
Qed.

Lemma length_list_ascii b : length (String.list_ascii_of_string b) = String.length b.
Proof. induction b as [|c b IH]; simpl; [done|]. by rewrite IH. Qed.

(** * The memory *)

(** 64 bytes for a hexadecimal key, 32 for a raw one, within the block. *)
Definition memory_ok (km : KeyMemory) : Prop :=
  length (km_block km) = 96%nat ∧ km_deviceLockKeyData km = 64%nat
  ∧ km_bkdbLockKeyLen km = 64%nat ∧ km_deviceLockKeyLen km = 32%nat ∧ km_overflow km = false.

Definition keys_fit (s : LockState) : Prop :=
  match m_keyData s with None => True | Some km => memory_ok km end.

Lemma memcpy_fits at_ data block :
  (at_ + String.length data ≤ length block)%nat →
  memcpy at_ data block =
    (take at_ block ++ String.list_ascii_of_string data ++ drop (at_ + String.length data) block, false).
Proof.
  intros Hl. unfold memcpy. rewrite length_list_ascii. f_equal.
  by rewrite (proj2 (Nat.leb_le _ _) Hl).
Qed.

Lemma initializeKeyData_ok b d m :
  String.length b = 64%nat → String.length d = 32%nat →
  match m with None => True | Some km => memory_ok km end →
  ∃ km, initializeKeyData b d m = km ∧ memory_ok km
    ∧ String.string_of_list_ascii (take (km_bkdbLockKeyLen km) (km_block km)) = b
    ∧ String.string_of_list_ascii (take (km_deviceLockKeyLen km)
        (drop (km_deviceLockKeyData km) (km_block km))) = d.
Proof.
  intros Hb Hd Hm. eexists. split; [reflexivity|]. unfold initializeKeyData.
  set (km0 := match m with None => _ | Some km => km end).
  assert (length (km_block km0) = 96%nat ∧ km_deviceLockKeyData km0 = 64%nat ∧ km_overflow km0 = false)
    as (Hlen&Hoff&Hover).
  { subst km0. destruct m as [km|]; [by destruct Hm as (?&?&?&?&?)|]. simpl.
    rewrite length_replicate. by rewrite Hb, Hd. }
  rewrite memcpy_fits by lia. rewrite Hoff, Hover, Hb. cbv beta iota. rewrite take_0, app_nil_l.
  rewrite Nat.add_0_l.
  set (lb := String.list_ascii_of_string b). assert (length lb = 64%nat) as Hlb
    by (by unfold lb; rewrite length_list_ascii).
  rewrite memcpy_fits by (rewrite length_app, length_drop; lia).
  set (ld := String.list_ascii_of_string d). assert (length ld = 32%nat) as Hld
    by (by unfold ld; rewrite length_list_ascii).
  rewrite Hd. rewrite (take_app_length' lb), drop_ge by (rewrite ?length_app, ?length_drop; lia).
  rewrite app_nil_r. unfold memory_ok. simpl. split_and!; try done.
  - rewrite length_app. lia.
  - rewrite take_app_length' by done. apply String.string_of_list_ascii_of_string.
  - rewrite drop_app_length', take_ge by lia. apply String.string_of_list_ascii_of_string.
Qed.

(** What [initialize] puts into memory are the keys it computed, and they fit, if
    the plugins derive keys of the size they are asked for. *)
Section memory.
  Context (env : LockEnv).
  Context (Hsize : ∀ k p kdf key,
    le_plugins env !! k = Some p → generate p kdf = Some key → String.length key = 32%nat).

Lemma key_data_sizes name c salt kd :
  key_data env name c salt = Some kd →
  String.length (kd_bkdbKey kd) = 64%nat ∧ String.length (kd_deviceLockKey kd) = 32%nat.
Proof.
  unfold key_data. intros ([[p k1] k2]&Hp&H)%bind_Some. apply bind_Some in H as (t&_&[= <-]). simpl.
  apply derive_keys_installed in Hp as [[k Hk] (kdf1&kdf2&H1&H2)]. rewrite length_toHex.
  rewrite (Hsize _ _ _ _ Hk H1), (Hsize _ _ _ _ Hk H2). done.
Qed.

Lemma dummy_sizes c :
  String.length (specifyDummyMasterlockKeys c).1.2 = 64%nat
  ∧ String.length (specifyDummyMasterlockKeys c).2 = 32%nat.
Proof. split; [apply (length_xor_into (repeated 64 "f"))|apply (length_xor_into (repeated 32 "f"))]. Qed.

Lemma lock_keys_sizes name c salt t b d :
  lock_keys env name c salt = Some (t, b, d) →
  String.length b = 64%nat ∧ String.length d = 32%nat.
Proof.
  unfold lock_keys. case_bool_decide.
  - intros Heq%(inj Some). pose proof (dummy_sizes c) as Hd. by rewrite Heq in Hd.
  - intros (kd&Hkd&[= -> -> ->])%fmap_Some. by eapply key_data_sizes.
Qed.

Lemma initial_keys_sizes c determined s :
  wp (initial_keys env c determined) (λ r _, ∀ t b d used, r = Some (t, b, d, used) →
    String.length b = 64%nat ∧ String.length d = 32%nat) s.
Proof.
  unfold initial_keys. apply wp_bind.
  destruct (bool_decide (default "" determined = no_plugin)) eqn:E; simpl.
  { apply wp_ret, wp_ret. intros t b d used [= <- <- <- <-]. apply (dummy_sizes c). }
  apply wp_bind. unfold generateKeyData. apply wp_bind. unfold wp at 1.
  destruct (saltData env s) as [salt s1]; simpl.
  set (none := if isEmpty _ then Some _ else None).
  assert (∀ kd t b d used, none = Some kd →
    (if bool_decide (kd_usedCipherPluginName kd = no_plugin) then specifyDummyMasterlockKeys c
     else (kd_testCipherText kd, kd_bkdbKey kd, kd_deviceLockKey kd),
     kd_usedCipherPluginName kd) = (t, b, d, used) →
    String.length b = 64%nat ∧ String.length d = 32%nat) as Hnone.
  { subst none. intros kd t b d used. case_match; [|done]. intros [= <-] [= <- <- <- <-].
    apply (dummy_sizes c). }
  destruct (isEmpty salt); apply wp_ret, wp_ret, wp_ret.
  { intros t b d used (kd&?&?)%fmap_Some. by eapply Hnone. }
  destruct (key_data env _ c salt) as [kd|] eqn:Ekd.
  - intros t b d used (kd'&[= <-]&[= Heq _])%fmap_Some. clear Hnone none E.
    case_bool_decide.
    + pose proof (dummy_sizes c) as Hd. by rewrite <-Heq in Hd.
    + injection Heq as -> -> ->. by eapply key_data_sizes.
  - intros t b d used (kd&?&?)%fmap_Some. by eapply Hnone.
Qed.

Lemma initialize_fits c mode s :
  keys_fit s → wp (initialize env c mode) (λ r s', keys_fit s') s.
Proof.
  intros Hs. set (km := m_keyData s).
  apply wp_initialize.
  eapply wp_mono; [by apply (determineTestCipherPlugin_keeps env km (m_noLockCode s) (m_locked s))|].
  intros determined s1 K1.
  eapply wp_mono; [apply wp_and; [apply initial_keys_sizes|
    by apply (initial_keys_keeps env km (m_noLockCode s) (m_locked s))]|].
  intros r s2 [Hk K2]. simpl in *.
  destruct r as [[[[t b] d] used]|]; [|by unfold keys_fit; rewrite (proj1 K2)].
  destruct (Hk _ _ _ _ eq_refl) as [Hb Hd].
  eapply wp_mono; [by apply (mode_check_keeps env km (m_noLockCode s) (m_locked s))|].
  intros [] s3 K3; simpl in *; [|by unfold keys_fit; rewrite (proj1 K3)].
  destruct (initializeKeyData_ok b d (m_keyData s3)) as (km'&Hkm'&Hok&_); [done..| |].
  { rewrite (proj1 K3). exact Hs. }
  unfold keys_fit, set_keys. destruct mode; simpl; by rewrite Hkm'.
Qed.
End memory.

(** * The dummy keys *)

Lemma xor_assoc a b c : xor a (xor b c) = xor (xor a b) c.
Proof. destruct a, b, c. cbv [xor]. by rewrite !xorb_assoc. Qed.

Lemma xorb_inj a b c : xorb a b = xorb a c → b = c.
Proof. by destruct a, b, c. Qed.

Lemma xor_inj a b c : xor a b = xor a c → b = c.
Proof.
  destruct a, b, c. cbv [xor]. intros [= H0 H1 H2 H3 H4 H5 H6 H7].
  apply xorb_inj in H0, H1, H2, H3, H4, H5, H6, H7. congruence.
Qed.

Lemma xor_zero a : xor a "000" = a.
Proof. destruct a. cbv [xor]. by rewrite !xorb_false_r. Qed.

Lemma xor_into_compose x y z :
  (String.length x ≤ String.length y)%nat →
  xor_into x (xor_into y z) = xor_into (xor_into x y) z.
Proof.
  revert y z. induction x as [|a x IH]; intros y z; [done|].
  destruct y as [|b y]; simpl; [lia|]. destruct z as [|c z]; simpl; [done|].
  intros Hl. rewrite xor_assoc, IH by lia. done.
Qed.

(** Only as many bytes of the key count as there are data. *)
Lemma xor_into_app data k x :
  (String.length data ≤ String.length k)%nat → xor_into data (k +:+ x) = xor_into data k.
Proof.
  revert k. induction data as [|a data IH]; intros [|b k]; simpl; [done..|lia|].
  intros Hl. by rewrite IH by lia.
Qed.

Fixpoint no_zero (k : bytes) : Prop :=
  match k with EmptyString => True | String c k' => c ≠ "000"%char ∧ no_zero k' end.

(** The key can be read off its effect, if it has no zero bytes and is not longer
    than the data. *)
Lemma xor_into_inj data k1 k2 :
  (String.length k1 ≤ String.length data)%nat → (String.length k2 ≤ String.length data)%nat →
  no_zero k1 → no_zero k2 → xor_into data k1 = xor_into data k2 → k1 = k2.
Proof.
  revert k1 k2. induction data as [|a data IH]; intros [|b k1] [|c k2]; simpl; try lia; try done.
  - intros _ _ _ [Hc _] [= H _]. destruct Hc. apply (xor_inj a). by rewrite xor_zero.
  - intros _ _ [Hb _] _ [= H _]. destruct Hb. apply (xor_inj a). by rewrite xor_zero.
  - intros H1 H2 [_ Hz1] [_ Hz2] [= H ?]. f_equal; [by apply (xor_inj a)|]. apply IH; [lia|lia|done..].
Qed.

Lemma hex_digit_range n :
  (n < 16)%nat → hex_digit n ≠ "000"%char ∧ (∀ m, (m < 16)%nat → hex_digit n = hex_digit m → n = m).
Proof.
  intros Hn. do 16 (destruct n as [|n]; [split; [done|]; intros m Hm;
    do 16 (destruct m as [|m]; [done|]); lia|]). lia.
Qed.

Lemma nibbles c :
  (nat_of_ascii c / 16 < 16)%nat ∧ (nat_of_ascii c mod 16 < 16)%nat.
Proof.
  pose proof (nat_ascii_bounded c). split; [|by apply Nat.mod_upper_bound].
  apply Nat.Div0.div_lt_upper_bound. lia.
Qed.

Lemma no_zero_toHex b : no_zero (toHex b).
Proof.
  induction b as [|c b IH]; simpl; [done|]. destruct (nibbles c).
  split; [|split; [|done]]; by apply hex_digit_range.
Qed.

Lemma toHex_inj b1 b2 : toHex b1 = toHex b2 → b1 = b2.
Proof.
  revert b2. induction b1 as [|c b1 IH]; intros [|d b2]; simpl; [done..|]. intros [= H1 H2 H3].
  destruct (nibbles c), (nibbles d). apply hex_digit_range in H1, H2; [|done..].
  change (nat_of_ascii c `div` 16 = nat_of_ascii d `div` 16)%nat in H1.
  change (nat_of_ascii c `mod` 16 = nat_of_ascii d `mod` 16)%nat in H2.
  f_equal; [|by apply IH].
  rewrite <-(ascii_nat_embedding c), <-(ascii_nat_embedding d). f_equal.
  pose proof (Nat.div_mod_eq (nat_of_ascii c) 16). pose proof (Nat.div_mod_eq (nat_of_ascii d) 16). lia.
Qed.

Lemma toHex_app a b : toHex (a +:+ b) = toHex a +:+ toHex b.
Proof. induction a as [|c a IH]; simpl; [done|]. by rewrite IH. Qed.

(** The test text of a dummy key. *)
Lemma dummy_text c :
  (specifyDummyMasterlockKeys c).1.1 = xor_into (xor_into plaintext (repeated 64 "f")) (toHex c).
Proof. unfold specifyDummyMasterlockKeys. cbn [fst]. by rewrite xor_into_compose by (simpl; lia). Qed.

Lemma dummy_text_inj c1 c2 :
  (String.length c1 ≤ 21)%nat → (String.length c2 ≤ 21)%nat →
  (specifyDummyMasterlockKeys c1).1.1 = (specifyDummyMasterlockKeys c2).1.1 → c1 = c2.
Proof.
  rewrite !dummy_text. intros H1 H2 H%xor_into_inj; [by apply toHex_inj|..];
    try apply no_zero_toHex; rewrite length_toHex, length_xor_into; simpl; lia.
Qed.

Lemma dummy_text_prefix c x y :
  (22 ≤ String.length c)%nat →
  (specifyDummyMasterlockKeys (c +:+ x)).1.1 = (specifyDummyMasterlockKeys (c +:+ y)).1.1.
Proof.
  intros Hc. rewrite !dummy_text, !toHex_app.
  rewrite !xor_into_app; [done|..]; rewrite length_toHex, length_xor_into; simpl; lia.
Qed.
