(* ===== verification/CryptoKey.v ===== *)
(** Values of the crypto API: results (lib/Crypto/result.cpp) with the
    translation of results of the secrets API (database/util.cpp), and keys
    (lib/Crypto/key.h, key.cpp) with what may be read back of a stored key
    (daemon/CryptoImpl/cryptorequestprocessor.cpp). *)
From S2P Require Import Prelude Result PluginApi CryptoManager.

(** * Results *)

(** [Crypto::Result::ErrorCode]: an unscoped enumeration; these are the
    enumerators the modelled code uses. *)
Definition C_NoError : Z := 0.
Definition C_UnknownError : Z := 2.
Definition SerializationError : Z := 3.
Definition StorageError : Z := 4.
Definition InvalidCryptographicServiceProvider : Z := 10.
Definition InvalidStorageProvider : Z := 11.
Definition InvalidKeyIdentifier : Z := 12.
Definition DuplicateKeyIdentifier : Z := 13.
Definition InvalidInitializationVectorError : Z := 15.
Definition InvalidAuthenticationTagError : Z := 16.
Definition C_OperationNotSupportedError : Z := 20.
Definition BlockModeNotSupportedError : Z := 21.
Definition EncryptionPaddingNotSupportedError : Z := 22.
Definition SignaturePaddingNotSupportedError : Z := 23.
Definition DigestNotSupportedError : Z := 24.
Definition EmptySecretKeyError : Z := 30.
Definition EmptyPrivateKeyError : Z := 31.
Definition EmptyPublicKeyError : Z := 32.
Definition EmptyDataError : Z := 33.
Definition EmptySignatureError : Z := 34.
Definition CryptoPluginEncryptionError : Z := 40.
Definition CryptoPluginDecryptionError : Z := 41.
Definition CryptoPluginRandomDataError : Z := 42.
Definition CryptoPluginCipherSessionError : Z := 43.
Definition CryptoPluginKeyGenerationError : Z := 44.
Definition CryptoPluginKeyImportError : Z := 45.
Definition CryptoPluginDigestError : Z := 46.
Definition CryptoPluginSigningError : Z := 47.
Definition CryptoPluginVerificationError : Z := 48.
Definition CryptoPluginAuthenticationTagError : Z := 49.
Definition CryptoPluginIncorrectPassphrase : Z := 51.
Definition CryptoPluginIsLockedError : Z := 52.

(** [Crypto::Result]; its result codes are those of the secrets API. *)
Record CResult := mkCResult {
  c_code : ResultCode;
  c_errorCode : Z;
  c_storageErrorCode : Z;
  c_errorMessage : string;
}.

#[global] Instance CResult_eq_dec : EqDecision CResult.
Proof. solve_decision. Defined.

(** [Result(ResultCode)], [Result(ErrorCode, const QString &)] *)
Definition cresult_of_code (c : ResultCode) : CResult :=
  mkCResult c (match c with Failed => C_UnknownError | _ => C_NoError end) 0
    (match c with Failed => "Unknown error" | _ => "" end).
Definition cresult_error (e : Z) (msg : string) : CResult :=
  mkCResult (if Z.leb C_UnknownError e then Failed else Succeeded) e 0 msg.

Definition c_ok (r : CResult) : bool := bool_decide (c_code r = Succeeded).

Definition contains_code (l : list Z) (e : Z) : bool := bool_decide (e ∈ l).

(** [transformSecretsResult] *)
Definition transformSecretsResult (result : Result) : CResult :=
  match code result with
  | Failed =>
      mkCResult Failed
        (if contains_code [InvalidSecretError; InvalidSecretIdentifierError; InvalidCollectionError;
                           InvalidExtensionPluginError] (errorCode result)
         then InvalidKeyIdentifier else StorageError)
        (errorCode result) (errorMessage result)
  | Pending => mkCResult Pending C_NoError 0 ""
  | Succeeded => cresult_of_code Succeeded
  end.

Lemma transformSecretsResult_code r : c_code (transformSecretsResult r) = code r.
Proof. unfold transformSecretsResult. by destruct (code r). Qed.

Lemma transformSecretsResult_ok r : c_ok (transformSecretsResult r) = ok r.
Proof. unfold c_ok, ok. by rewrite transformSecretsResult_code. Qed.

(** * Keys *)

(** [Key::Origin] and [Key::Component]; the components are flags. *)
Definition OriginUnknown : Z := 0.
Definition OriginImported : Z := 1.
Definition NoData : Z := 0.
Definition MetaData : Z := 1.
Definition PublicKeyData : Z := 2.
Definition PrivateKeyData : Z := 4.

(** [Key]; [Key::Identifier] has the fields of [Secret::Identifier]. *)
Record CKey := mkKey {
  k_identifier : Identifier;
  k_origin : Z;
  k_algorithm : Z;
  k_operations : Z;
  k_componentConstraints : Z;
  k_size : Z;
  k_publicKey : bytes;
  k_privateKey : bytes;
  k_secretKey : bytes;
  k_customParameters : list bytes;
  k_filterData : FilterData;
}.

#[global] Instance CKey_eq_dec : EqDecision CKey.
Proof. solve_decision. Defined.

Definition noIdentifier : Identifier := mkIdentifier "" "" "".

(** [Key::Identifier::isValid] *)
Definition identifier_isValid (i : Identifier) : bool :=
  negb (isEmpty (ident_name i)) && negb (isEmpty (ident_collectionName i))
  && negb (isEmpty (ident_storagePluginName i)).

(** [Key::setFilterData] of all fields: the type cannot be overwritten. *)
Definition typed_filterData (data : FilterData) : FilterData := <["Type" := "CryptoKey"]> data.

(** [Key::setFilterData] of one field. *)
Definition setFilterDataField (field value : string) (data : FilterData) : FilterData :=
  if eq_ci field "Type" then data else <[field := value]> data.

(** [Key::Key()] *)
Definition noCKey : CKey :=
  mkKey noIdentifier OriginUnknown AlgorithmUnknown OperationUnknown
    (Z.lor MetaData PublicKeyData) 0 "" "" "" [] (typed_filterData ∅).

(** The setters, as far as they are used. *)
Definition set_public (custom : list bytes) (pub : bytes) (k : CKey) : CKey :=
  mkKey (k_identifier k) (k_origin k) (k_algorithm k) (k_operations k) (k_componentConstraints k)
    (k_size k) pub (k_privateKey k) (k_secretKey k) custom (k_filterData k).
Definition set_private (priv secret : bytes) (k : CKey) : CKey :=
  mkKey (k_identifier k) (k_origin k) (k_algorithm k) (k_operations k) (k_componentConstraints k)
    (k_size k) (k_publicKey k) priv secret (k_customParameters k) (k_filterData k).
Definition set_identifier (identifier : Identifier) (k : CKey) : CKey :=
  mkKey identifier (k_origin k) (k_algorithm k) (k_operations k) (k_componentConstraints k)
    (k_size k) (k_publicKey k) (k_privateKey k) (k_secretKey k) (k_customParameters k) (k_filterData k).
Definition set_origin (origin : Z) (k : CKey) : CKey :=
  mkKey (k_identifier k) origin (k_algorithm k) (k_operations k) (k_componentConstraints k)
    (k_size k) (k_publicKey k) (k_privateKey k) (k_secretKey k) (k_customParameters k) (k_filterData k).
Definition set_filterData (data : FilterData) (k : CKey) : CKey :=
  mkKey (k_identifier k) (k_origin k) (k_algorithm k) (k_operations k) (k_componentConstraints k)
    (k_size k) (k_publicKey k) (k_privateKey k) (k_secretKey k) (k_customParameters k)
    (typed_filterData data).
Definition clear_metadata (k : CKey) : CKey :=
  mkKey noIdentifier OriginUnknown AlgorithmUnknown OperationUnknown NoData
    (k_size k) (k_publicKey k) (k_privateKey k) (k_secretKey k) (k_customParameters k)
    (typed_filterData ∅).

(** [a & b], as a condition. *)
Definition has_flag (flags flag : Z) : bool := negb (bool_decide (Z.land flags flag = 0%Z)).

(** [nullifyKeyFields] *)
Definition nullifyKeyFields (keep : Z) (key : CKey) : CKey :=
  let kcc := k_componentConstraints key in
  let key := if negb (has_flag keep MetaData) || negb (has_flag kcc MetaData)
             then clear_metadata key else key in
  let key := if negb (has_flag keep PublicKeyData) || negb (has_flag kcc PublicKeyData)
             then set_public [] "" key else key in
  if negb (has_flag keep PrivateKeyData) || negb (has_flag kcc PrivateKeyData)
  then set_private "" "" key else key.

(** The order and the equality of identifiers and keys. *)
Definition identifier_ltb (a b : Identifier) : bool :=
  if negb (bool_decide (ident_storagePluginName a = ident_storagePluginName b))
  then String.ltb (ident_storagePluginName a) (ident_storagePluginName b)
  else if negb (bool_decide (ident_collectionName a = ident_collectionName b))
  then String.ltb (ident_collectionName a) (ident_collectionName b)
  else String.ltb (ident_name a) (ident_name b).

Definition key_eqb (a b : CKey) : bool :=
  bool_decide (k_filterData a = k_filterData b)
  && bool_decide (k_customParameters a = k_customParameters b)
  && bool_decide (k_publicKey a = k_publicKey b) && bool_decide (k_privateKey a = k_privateKey b)
  && bool_decide (k_secretKey a = k_secretKey b) && bool_decide (k_identifier a = k_identifier b)
  && bool_decide (k_origin a = k_origin b) && bool_decide (k_algorithm a = k_algorithm b)
  && bool_decide (k_operations a = k_operations b) && bool_decide (k_size a = k_size b).

Definition key_ltb (a b : CKey) : bool :=
  if negb (bool_decide (k_size a = 0%Z)) && negb (bool_decide (k_size b = 0%Z))
     && negb (bool_decide (k_size a = k_size b))
  then Z.ltb (k_size a) (k_size b)
  else if negb (bool_decide (k_identifier a = k_identifier b))
  then identifier_ltb (k_identifier a) (k_identifier b)
  else if negb (bool_decide (k_publicKey a = k_publicKey b))
  then String.ltb (k_publicKey a) (k_publicKey b)
  else if negb (bool_decide (k_privateKey a = k_privateKey b))
  then String.ltb (k_privateKey a) (k_privateKey b)
  else if negb (bool_decide (k_secretKey a = k_secretKey b))
  then String.ltb (k_secretKey a) (k_secretKey b)
  else Z.ltb (k_algorithm a) (k_algorithm b).
