(* ===== verification/KeySerialization.v ===== *)
(** The serialization of keys in lib/Crypto/serialization.cpp, over the
    operators of Qt's QDataStream. *)
From Stdlib Require Import Ascii.
From S2P Require Import Prelude Result PluginApi CryptoManager CryptoKey.

(** * The stream

    [out << v] appends the form of [v] to the buffer; [in >> v] takes a value
    off the front of the buffer.  Past the end of the buffer it gives the
    value an empty stream gives, and the stream's status, which the code never
    looks at, is left out. *)
Class QDataStream := {
  put_quint32 : Z → bytes;
  get_quint32 : M bytes Z;
  put_qint32 : Z → bytes;
  get_qint32 : M bytes Z;
  put_QString : string → bytes;
  get_QString : M bytes string;
  put_QByteArray : bytes → bytes;
  get_QByteArray : M bytes bytes;
  put_QVector : list bytes → bytes;
  get_QVector : M bytes (list bytes);
  put_QMap : FilterData → bytes;
  get_QMap : M bytes FilterData;
}.

(** Sizes are signed 32-bit integers in Qt 5. *)
Definition int32 (z : Z) : Prop := (-2147483648 ≤ z < 2147483648)%Z.
Definition uint32 (z : Z) : Prop := (0 ≤ z < 4294967296)%Z.
Definition sized {A} (length : A → nat) (a : A) : Prop := int32 (Z.of_nat (length a)).

Definition sized_map (f : FilterData) : Prop :=
  sized size f ∧ map_Forall (λ k v, sized String.length k ∧ sized String.length v) f.

(** What is written is read back, up to where it ends. *)
Class QDataStreamLaws (Q : QDataStream) := {
  quint32_law z rest : uint32 z → get_quint32 (put_quint32 z +:+ rest) = (z, rest);
  qint32_law z rest : int32 z → get_qint32 (put_qint32 z +:+ rest) = (z, rest);
  QString_law s rest : sized String.length s → get_QString (put_QString s +:+ rest) = (s, rest);
  QByteArray_law s rest :
    sized String.length s → get_QByteArray (put_QByteArray s +:+ rest) = (s, rest);
  QVector_law l rest :
    sized length l → Forall (sized String.length) l → get_QVector (put_QVector l +:+ rest) = (l, rest);
  QMap_law f rest : sized_map f → get_QMap (put_QMap f +:+ rest) = (f, rest);
}.

(** * The operations *)

Definition magic : Z := 0x4B657900.
Definition version : Z := 100.

Inductive SerializationMode := LosslessSerializationMode | LossySerializationMode.

#[global] Instance SerializationMode_eq_dec : EqDecision SerializationMode.
Proof. solve_decision. Defined.

Section serialization.
Context {Q : QDataStream}.

(** The fields that only the lossless mode writes. *)
Definition written_identifier (mode : SerializationMode) (key : CKey) : Identifier :=
  match mode with
  | LosslessSerializationMode => k_identifier key
  | LossySerializationMode => mkIdentifier "" "" ""
  end.
Definition written_filterData (mode : SerializationMode) (key : CKey) : FilterData :=
  match mode with
  | LosslessSerializationMode => k_filterData key
  | LossySerializationMode => ∅
  end.

(** [Key::serialize] *)
Definition serialize (key : CKey) (mode : SerializationMode) : bytes :=
  put_quint32 magic +:+ put_qint32 version
  +:+ put_QString (ident_name (written_identifier mode key))
  +:+ put_QString (ident_collectionName (written_identifier mode key))
  +:+ put_QString (ident_storagePluginName (written_identifier mode key))
  +:+ put_qint32 (k_origin key) +:+ put_qint32 (k_algorithm key) +:+ put_qint32 (k_operations key)
  +:+ put_qint32 (k_componentConstraints key) +:+ put_qint32 (k_size key)
  +:+ put_QByteArray (k_publicKey key) +:+ put_QByteArray (k_privateKey key)
  +:+ put_QByteArray (k_secretKey key) +:+ put_QVector (k_customParameters key)
  +:+ put_QMap (written_filterData mode key).

(** The part of [Key::deserialize] after the header. *)
Definition get_fields : M bytes CKey :=
  let* name := get_QString in
  let* collectionName := get_QString in
  let* storagePluginName := get_QString in
  let* iorigin := get_qint32 in
  let* ialgorithm := get_qint32 in
  let* ioperations := get_qint32 in
  let* icomponentConstraints := get_qint32 in
  let* isize := get_qint32 in
  let* publicKey := get_QByteArray in
  let* privateKey := get_QByteArray in
  let* secretKey := get_QByteArray in
  let* customParameters := get_QVector in
  let* filterData := get_QMap in
  ret (mkKey (mkIdentifier name collectionName storagePluginName) iorigin ialgorithm ioperations
         icomponentConstraints isize publicKey privateKey secretKey customParameters
         (typed_filterData filterData)).

(** [Key::deserialize]: the key and [*ok]. *)
Definition deserialize (data : bytes) : CKey * bool :=
  let '(m, data) := get_quint32 data in
  if negb (bool_decide (m = magic)) then (noCKey, false)
  else
    let '(v, data) := get_qint32 data in
    if negb (bool_decide (v = version)) then (noCKey, false)
    else ((get_fields data).1, true).

(** * Its correctness *)

(** What the types of the C++ class guarantee of a key: its numbers are ints,
    its arrays have sizes, and its filter data name the type. *)
Definition key_wf (key : CKey) : Prop :=
  (sized String.length (ident_name (k_identifier key))
   ∧ sized String.length (ident_collectionName (k_identifier key))
   ∧ sized String.length (ident_storagePluginName (k_identifier key)))
  ∧ (int32 (k_origin key) ∧ int32 (k_algorithm key) ∧ int32 (k_operations key)
     ∧ int32 (k_componentConstraints key) ∧ int32 (k_size key))
  ∧ (sized String.length (k_publicKey key) ∧ sized String.length (k_privateKey key)
     ∧ sized String.length (k_secretKey key))
  ∧ (sized length (k_customParameters key) ∧ Forall (sized String.length) (k_customParameters key))
  ∧ (sized_map (k_filterData key) ∧ k_filterData key !! "Type" = Some "CryptoKey").

(** What a serialized key keeps. *)
Definition kept (mode : SerializationMode) (key : CKey) : CKey :=
  match mode with
  | LosslessSerializationMode => key
  | LossySerializationMode =>
      mkKey noIdentifier (k_origin key) (k_algorithm key) (k_operations key)
        (k_componentConstraints key) (k_size key) (k_publicKey key) (k_privateKey key)
        (k_secretKey key) (k_customParameters key) (typed_filterData ∅)
  end.

Context {QL : QDataStreamLaws Q}.

Lemma written_typed mode key :
  k_filterData key !! "Type" = Some "CryptoKey" →
  typed_filterData (written_filterData mode key) = k_filterData (kept mode key).
Proof. intros Ht. destruct mode; [by apply insert_id|done]. Qed.

Lemma written_sized mode key :
  key_wf key →
  sized String.length (ident_name (written_identifier mode key))
  ∧ sized String.length (ident_collectionName (written_identifier mode key))
  ∧ sized String.length (ident_storagePluginName (written_identifier mode key))
  ∧ sized_map (written_filterData mode key).
Proof.
  intros ((?&?&?)&_&_&_&Hf&_). destruct mode; cbn [written_identifier written_filterData].
  - repeat (split; [done|]). exact Hf.
  - repeat split; done.
Qed.

Lemma app_string_nil (a : string) : a +:+ "" = a.
Proof. induction a as [|x a IH]; [done|]. change (String.String x (a +:+ "") = String.String x a). by rewrite IH. Qed.

(** One field. *)
Lemma bind_field {A B} (m : M bytes A) (k : A → M bytes B) a data rest :
  m data = (a, rest) → bind m k data = k a rest.
Proof. unfold bind. by intros ->. Qed.

Lemma get_fields_serialized mode key rest :
  key_wf key →
  get_fields (put_QString (ident_name (written_identifier mode key))
    +:+ put_QString (ident_collectionName (written_identifier mode key))
    +:+ put_QString (ident_storagePluginName (written_identifier mode key))
    +:+ put_qint32 (k_origin key) +:+ put_qint32 (k_algorithm key) +:+ put_qint32 (k_operations key)
    +:+ put_qint32 (k_componentConstraints key) +:+ put_qint32 (k_size key)
    +:+ put_QByteArray (k_publicKey key) +:+ put_QByteArray (k_privateKey key)
    +:+ put_QByteArray (k_secretKey key) +:+ put_QVector (k_customParameters key)
    +:+ put_QMap (written_filterData mode key) +:+ rest) = (kept mode key, rest).
Proof.
  intros Hwf. pose proof (written_sized mode key Hwf) as (?&?&?&?).
  destruct Hwf as (_&(?&?&?&?&?)&(?&?&?)&(?&?)&_&Ht). unfold get_fields.
  do 3 (erewrite bind_field; [|by apply QString_law]).
  do 5 (erewrite bind_field; [|by apply qint32_law]).
  do 3 (erewrite bind_field; [|by apply QByteArray_law]).
  erewrite bind_field; [|by apply QVector_law].
  erewrite bind_field; [|by apply QMap_law].
  unfold ret. rewrite written_typed by done. by destruct mode, key as [[] ? ? ? ? ? ? ? ? ? ?].
Qed.

Lemma deserialize_header data :
  deserialize (put_quint32 magic +:+ put_qint32 version +:+ data) = ((get_fields data).1, true).
Proof.
  unfold deserialize. rewrite quint32_law by done. rewrite bool_decide_true by done.
  cbn [negb]. rewrite qint32_law by done. by rewrite bool_decide_true.
Qed.

Lemma deserialize_serialize mode key :
  key_wf key → deserialize (serialize key mode) = (kept mode key, true).
Proof.
  intros Hwf. unfold serialize. rewrite deserialize_header.
  pose proof (get_fields_serialized mode key "" Hwf) as Hg. rewrite app_string_nil in Hg.
  by rewrite Hg.
Qed.

(** A header with another number is refused. *)
Lemma deserialize_other m v data :
  uint32 m → int32 v → m ≠ magic ∨ v ≠ version →
  deserialize (put_quint32 m +:+ put_qint32 v +:+ data) = (noCKey, false).
Proof.
  intros Hm Hv Hne. unfold deserialize. rewrite quint32_law by done.
  case_bool_decide; [|done]. cbn [negb]. rewrite qint32_law by done.
  case_bool_decide; [|done]. naive_solver.
Qed.

(** Only the header decides whether data count as a key. *)
Lemma deserialize_ok_header d d' :
  get_quint32 d = (magic, d') → (get_qint32 d').1 = version →
  deserialize d = ((get_fields (get_qint32 d').2).1, true).
Proof.
  intros Hm Hv. unfold deserialize. rewrite Hm, bool_decide_true by done. cbn [negb].
  destruct (get_qint32 d') as [v d'']. simpl in *. by rewrite bool_decide_true.
Qed.
End serialization.

(** * A data stream that keeps the laws of KeySerialization: numbers are four
    bytes, the highest first; strings, arrays and maps are preceded by their
    size.  It shows that the laws can hold, and runs the examples. *)

Definition byte_at (n : Z) (z : Z) : ascii := ascii_of_N (Z.to_N (z / n mod 256)).
Definition value (c : ascii) : Z := Z.of_N (N_of_ascii c).

Lemma value_byte_at n z : value (byte_at n z) = (z / n mod 256)%Z.
Proof.
  unfold value, byte_at. pose proof (Z.mod_pos_bound (z / n) 256 eq_refl).
  rewrite N_ascii_embedding by lia. lia.
Qed.

Definition be_put (z : Z) : bytes :=
  String.String (byte_at 16777216 z) (String.String (byte_at 65536 z)
    (String.String (byte_at 256 z) (String.String (byte_at 1 z) ""))).

Definition be_get : M bytes Z := λ data,
  match data with
  | String.String a (String.String b (String.String c (String.String d rest))) =>
      (value a * 16777216 + value b * 65536 + value c * 256 + value d, rest)%Z
  | _ => (0%Z, "")
  end.

Definition be_get_signed : M bytes Z :=
  let* z := be_get in ret (if Z.leb 2147483648 z then z - 4294967296 else z)%Z.

(** The first [n] bytes, or as many as there are. *)
Fixpoint be_take (n : nat) : M bytes bytes := λ data,
  match n, data with
  | S n, String.String c rest => let '(s, rest') := be_take n rest in (String.String c s, rest')
  | _, _ => ("", data)
  end.

Definition be_put_string (s : bytes) : bytes := be_put (Z.of_nat (String.length s)) +:+ s.
Definition be_get_string : M bytes bytes :=
  let* n := be_get in be_take (Z.to_nat n).

Fixpoint be_put_all {A} (put : A → bytes) (l : list A) : bytes :=
  match l with
  | [] => ""
  | a :: l => put a +:+ be_put_all put l
  end.
Fixpoint be_get_all {A} (get : M bytes A) (n : nat) : M bytes (list A) :=
  match n with
  | O => ret []
  | S n => let* a := get in let* l := be_get_all get n in ret (a :: l)
  end.

Definition be_put_list {A} (put : A → bytes) (l : list A) : bytes :=
  be_put (Z.of_nat (length l)) +:+ be_put_all put l.
Definition be_get_list {A} (get : M bytes A) : M bytes (list A) :=
  let* n := be_get in be_get_all get (Z.to_nat n).

Definition be_put_pair (p : string * string) : bytes := be_put_string p.1 +:+ be_put_string p.2.
Definition be_get_pair : M bytes (string * string) :=
  let* k := be_get_string in let* v := be_get_string in ret (k, v).

#[export] Instance big_endian : QDataStream := {|
  put_quint32 := be_put;
  get_quint32 := be_get;
  put_qint32 := be_put;
  get_qint32 := be_get_signed;
  put_QString := be_put_string;
  get_QString := be_get_string;
  put_QByteArray := be_put_string;
  get_QByteArray := be_get_string;
  put_QVector := be_put_list be_put_string;
  get_QVector := be_get_list be_get_string;
  put_QMap := λ f, be_put_list be_put_pair (map_to_list f);
  get_QMap := let* l := be_get_list be_get_pair in ret (list_to_map l);
|}.

(** * Its laws *)

Lemma be_get_put z rest : be_get (be_put z +:+ rest) = (z mod 4294967296, rest)%Z.
Proof.
  change (be_get (be_put z +:+ rest))
    with (value (byte_at 16777216 z) * 16777216 + value (byte_at 65536 z) * 65536
          + value (byte_at 256 z) * 256 + value (byte_at 1 z), rest)%Z.
  rewrite !value_byte_at. f_equal. rewrite Z.div_1_r.
  change 16777216%Z with (256 * (256 * 256))%Z. change 65536%Z with (256 * 256)%Z.
  rewrite <-!Z.div_div by done.
  pose proof (Z.div_mod z 256). pose proof (Z.div_mod (z / 256) 256).
  pose proof (Z.div_mod (z / 256 / 256) 256). pose proof (Z.div_mod (z / 256 / 256 / 256) 256).
  pose proof (Z.mod_pos_bound z 256). pose proof (Z.mod_pos_bound (z / 256) 256).
  pose proof (Z.mod_pos_bound (z / 256 / 256) 256).
  pose proof (Z.mod_pos_bound (z / 256 / 256 / 256) 256).
  apply Z.mod_unique with (z / 256 / 256 / 256 / 256)%Z; lia.
Qed.

Lemma be_unsigned z rest : uint32 z → be_get (be_put z +:+ rest) = (z, rest).
Proof. intros Hz. rewrite be_get_put, Z.mod_small; [done|]. unfold uint32 in Hz. lia. Qed.

Lemma be_signed z rest : int32 z → be_get_signed (be_put z +:+ rest) = (z, rest).
Proof.
  intros Hz. unfold be_get_signed. erewrite bind_field; [|apply be_get_put].
  unfold ret. f_equal. unfold int32 in Hz. destruct (decide (z < 0)%Z) as [Hn|Hn].
  - replace (z mod 4294967296)%Z with (z + 4294967296)%Z
      by (apply Z.mod_unique with (-1)%Z; lia).
    rewrite (proj2 (Z.leb_le _ _)) by lia. lia.
  - rewrite Z.mod_small by lia. by rewrite (proj2 (Z.leb_gt _ _)) by lia.
Qed.

Lemma app_string_assoc (a b c : string) : (a +:+ b) +:+ c = a +:+ (b +:+ c).
Proof.
  induction a as [|x a IH]; [done|].
  change (String.String x ((a +:+ b) +:+ c) = String.String x (a +:+ (b +:+ c))). by rewrite IH.
Qed.

Lemma sized_uint {A} (len : A → nat) a : sized len a → uint32 (Z.of_nat (len a)).
Proof. unfold sized, int32, uint32. lia. Qed.

Lemma be_take_app s rest : be_take (String.length s) (s +:+ rest) = (s, rest).
Proof.
  induction s as [|c s IH]; [by destruct rest|].
  change ((let '(s', r) := be_take (String.length s) (s +:+ rest) in (String.String c s', r))
          = (String.String c s, rest)). by rewrite IH.
Qed.

Lemma be_string s rest :
  sized String.length s → be_get_string (be_put_string s +:+ rest) = (s, rest).
Proof.
  intros Hs. unfold be_get_string, be_put_string. rewrite app_string_assoc.
  erewrite bind_field; [|apply be_unsigned, sized_uint, Hs]. rewrite Nat2Z.id. apply be_take_app.
Qed.

Lemma be_pair p rest :
  sized String.length p.1 ∧ sized String.length p.2 →
  be_get_pair (be_put_pair p +:+ rest) = (p, rest).
Proof.
  intros [H1 H2]. unfold be_get_pair, be_put_pair. rewrite app_string_assoc.
  erewrite bind_field; [|by apply be_string]. erewrite bind_field; [|by apply be_string].
  by destruct p.
Qed.

Lemma be_list {A} (put : A → bytes) (get : M bytes A) (P : A → Prop) l rest :
  (∀ a rest, P a → get (put a +:+ rest) = (a, rest)) → sized length l → Forall P l →
  be_get_list get (be_put_list put l +:+ rest) = (l, rest).
Proof.
  intros Hg Hs Hl. unfold be_get_list, be_put_list. rewrite app_string_assoc.
  erewrite bind_field; [|apply be_unsigned, sized_uint, Hs]. rewrite Nat2Z.id. clear Hs.
  induction Hl as [|a l Ha Hl IH]; [done|]. cbn [be_put_all be_get_all length].
  rewrite app_string_assoc. erewrite bind_field; [|by apply Hg].
  erewrite bind_field; [|exact IH]. done.
Qed.

#[export] Instance big_endian_laws : QDataStreamLaws big_endian.
Proof.
  split.
  - apply be_unsigned.
  - apply be_signed.
  - apply be_string.
  - apply be_string.
  - intros l rest Hs Hl. eapply be_list; [|done|exact Hl]. intros. by apply be_string.
  - intros f rest [Hs Hf]. cbn [get_QMap put_QMap big_endian].
    erewrite bind_field; [unfold ret; by rewrite list_to_map_to_list|].
    eapply (be_list _ _ _ _ _ be_pair); [unfold sized; by rewrite length_map_to_list|].
    apply Forall_forall. intros [k v] Hkv%elem_of_map_to_list. exact (Hf _ _ Hkv).
Qed.
