(* ===== verification/CryptoPluginWrapper.v ===== *)
(** The interface of crypto plugins (lib/Crypto/Plugins/extensionplugins.h), and
    the wrapper of plugins that store keys
    (daemon/CryptoImpl/cryptopluginwrapper.cpp): an encrypted storage plugin
    wrapper whose plugin is also a crypto plugin.  A key is stored by the plugin
    in the same transaction as its metadata. *)
From S2P Require Import Prelude Result Sqlite MetadataDb PluginApi CryptoManager.
From S2P Require Import PluginWrapper CryptoKey.

(** * The interface of crypto plugins *)

(** What the daemon only passes on: custom parameters (a QVariantMap),
    parameters of key pairs and of key derivation. *)
Class CryptoParams := {
  Custom : Type;
  KeyPairGenerationParameters : Type;
  DerivationParameters : Type;
  noCustom : Custom;
}.

(** Arguments that travel together. *)
Record SignatureOptions := mkSignatureOptions { so_padding : Z; so_digest : Z }.
Record EncryptionOptions := mkEncryptionOptions { eo_blockMode : Z; eo_padding : Z }.
Record CipherSessionOptions := mkCipherSessionOptions {
  cso_operation : Z;
  cso_blockMode : Z;
  cso_encryptionPadding : Z;
  cso_signaturePadding : Z;
  cso_digestFunction : Z;
}.

Section api.
Context `{!CryptoParams}.

(** [CryptoPlugin].  An output parameter is returned, [None] if it was not
    written. *)
Class CryptoPlugin (P : Type) `{PluginBase P} := {
  cp_canStoreKeys : bool;
  cp_generateRandomData : Z → string → Z → Custom → M P (CResult * option bytes);
  cp_seedRandomDataGenerator : Z → string → bytes → Z → Custom → M P CResult;
  cp_generateInitializationVector : Z → Z → Z → Custom → M P (CResult * option bytes);
  cp_generateKey : CKey → KeyPairGenerationParameters → DerivationParameters → Custom →
    M P (CResult * option CKey);
  cp_generateAndStoreKey : CKey → KeyPairGenerationParameters → DerivationParameters → Custom →
    M P (CResult * option CKey);
  (** [importKey] changes fields of a given key. *)
  cp_importKey : bytes → bytes → Custom → CKey → M P (CResult * CKey);
  cp_importAndStoreKey : bytes → CKey → bytes → Custom → M P (CResult * option CKey);
  cp_storedKey : Identifier → Z → Custom → M P (CResult * option CKey);
  (** [storedKeyIdentifiers] appends to a list. *)
  cp_storedKeyIdentifiers : string → Custom → M P (CResult * list Identifier);
  cp_calculateDigest : bytes → SignatureOptions → Custom → M P (CResult * option bytes);
  cp_sign : bytes → CKey → SignatureOptions → Custom → M P (CResult * option bytes);
  cp_verify : bytes → bytes → CKey → SignatureOptions → Custom →
    M P (CResult * option Z);
  cp_encrypt : bytes → bytes → CKey → EncryptionOptions → bytes → Custom →
    M P (CResult * (option bytes * option bytes));
  cp_decrypt : bytes → bytes → CKey → EncryptionOptions → bytes → bytes → Custom →
    M P (CResult * (option bytes * option Z));
  cp_initializeCipherSession : Z → bytes → CKey → CipherSessionOptions → Custom →
    M P (CResult * option Z);
  cp_updateCipherSessionAuthentication : Z → bytes → Custom → Z → M P CResult;
  cp_updateCipherSession : Z → bytes → Custom → Z → M P (CResult * option bytes);
  cp_finalizeCipherSession : Z → bytes → Custom → Z →
    M P (CResult * (option bytes * option Z));
}.
End api.

Section crypto_wrapper.
  Context `{!CryptoParams} {P : Type} `{EncryptedStoragePlugin P, !CryptoPlugin P}.

(** The names that are not known yet are appended. *)
Definition append_known (collectionName : string) (knownKeys : list string)
  (identifiers : list Identifier) : list string :=
  foldl (λ known ident,
           if bool_decide (ident_collectionName ident = collectionName)
              && negb (contains known (ident_name ident))
           then known ++ [ident_name ident] else known) knownKeys identifiers.

(** [CryptoStoragePluginWrapper::keyNames]; [None]: the names were not set. *)
Definition cw_keyNames (collectionName : string) (customParameters : Custom)
  : M (Wrapper P) (Result * option (list string)) :=
  let* '(sresult, knownKeys) := on_db (keyNames collectionName) in
  if negb (ok sresult) then ret (sresult, None) else
  if cp_canStoreKeys then
    let* '(result, identifiers) :=
      on_plugin (cp_storedKeyIdentifiers collectionName customParameters) in
    if negb (c_ok result) then
      ret (result_error (if bool_decide (c_storageErrorCode result = 0%Z) then UnknownError
                         else c_storageErrorCode result) (c_errorMessage result), None)
    else ret (result_of_code Succeeded, Some (append_known collectionName knownKeys identifiers))
  else ret (result_of_code Succeeded, Some knownKeys).

(** [storedKeyIdentifiers] *)
Definition cw_storedKeyIdentifiers (collectionName : string) (customParameters : Custom)
  : M (Wrapper P) (CResult * list Identifier) :=
  on_plugin (cp_storedKeyIdentifiers collectionName customParameters).

Definition collection_is_locked (collectionName : string) : Result :=
  mkResult Failed CollectionIsLockedError
    ("Collection " +:+ collectionName +:+ " from plugin " +:+ pb_name +:+ " is locked").

(** The second half of [prepareToStoreKey]: with the collection unlocked, begin
    the transaction of the metadata and insert those of the key. *)
Definition insert_key_metadata (metadata : SecretMetadata) : M (Wrapper P) CResult :=
  let* '(sresult, (_, exists_)) :=
    on_db (secretMetadata (sm_collectionName metadata) (sm_secretName metadata)
             noSecretMetadata false) in
  if negb (ok sresult) then ret (transformSecretsResult sresult)
  else if (exists_ : bool) then
    ret (cresult_error DuplicateKeyIdentifier
           "A secret with that name already exists in the collection") else
  let* begun := on_db beginTransaction in
  if negb begun then
    ret (transformSecretsResult (mkResult Failed DatabaseTransactionError
           "Unable to start metadata db transaction for generateAndStoreKey")) else
  let* sresult := on_db (insertSecretMetadata metadata) in
  if negb (ok sresult) then on_db rollbackTransaction ;;; ret (transformSecretsResult sresult)
  else ret (cresult_of_code Succeeded).

(** [prepareToStoreKey], with [*wasLocked]; it calls the plugin's own
    functions, not those of the wrapper. *)
Definition prepareToStoreKey (metadata : SecretMetadata) (collectionUnlockKey : bytes)
  : M (Wrapper P) (CResult * bool) :=
  let* pluginLocked := gets wrapper_isLocked in
  if pluginLocked then
    ret (cresult_error CryptoPluginIsLockedError ("Plugin " +:+ pb_name +:+ " is locked"), false) else
  let* masterLocked := isMasterLocked in
  if (masterLocked : bool) then
    ret (cresult_error CryptoPluginIsLockedError ("Plugin " +:+ pb_name +:+ " is master-locked"),
         false)
  else if negb cp_canStoreKeys then
    ret (cresult_error C_OperationNotSupportedError ("Plugin " +:+ pb_name +:+ " cannot store keys"),
         false) else
  let* '(sresult, locked) :=
    on_plugin (ep_isCollectionLocked (sm_collectionName metadata) false) in
  if negb (ok sresult) then ret (transformSecretsResult sresult, false)
  else if (locked : bool) then
    let* sresult :=
      on_plugin (ep_setEncryptionKey (sm_collectionName metadata) collectionUnlockKey) in
    if negb (ok sresult) then ret (transformSecretsResult sresult, true) else
    let* '(_, locked) := on_plugin (ep_isCollectionLocked (sm_collectionName metadata) false) in
    if (locked : bool) then
      ret (transformSecretsResult (collection_is_locked (sm_collectionName metadata)), true) else
    let* result := insert_key_metadata metadata in ret (result, true)
  else let* result := insert_key_metadata metadata in ret (result, false).

(** The common body of the two functions below. *)
Definition store_key (metadata : SecretMetadata) (collectionUnlockKey : bytes)
  (operation : M P (CResult * option CKey)) (keyReference : CKey) : M (Wrapper P) (CResult * CKey) :=
  let* '(result, wasLocked) := prepareToStoreKey metadata collectionUnlockKey in
  let* '(result, keyReference) :=
    (if c_ok result then
       let* '(result, key) := on_plugin operation in
       (if negb (c_ok result) then on_db rollbackTransaction else on_db commitTransaction) ;;;
       ret (result, default keyReference key)
     else ret (result, keyReference)) in
  (if (wasLocked : bool)
   then on_plugin (ep_setEncryptionKey (sm_collectionName metadata) "") ;;; ret tt
   else ret tt) ;;;
  ret (result, keyReference).

(** [generateAndStoreKey] *)
Definition cw_generateAndStoreKey (metadata : SecretMetadata) (keyTemplate : CKey)
  (kpgParams : KeyPairGenerationParameters) (skdfParams : DerivationParameters)
  (customParameters : Custom) (collectionUnlockKey : bytes) (keyReference : CKey)
  : M (Wrapper P) (CResult * CKey) :=
  store_key metadata collectionUnlockKey
    (cp_generateAndStoreKey keyTemplate kpgParams skdfParams customParameters) keyReference.

(** [importAndStoreKey] *)
Definition cw_importAndStoreKey (metadata : SecretMetadata) (data : bytes) (keyTemplate : CKey)
  (importPassphrase : bytes) (customParameters : Custom) (collectionUnlockKey : bytes)
  (keyReference : CKey) : M (Wrapper P) (CResult * CKey) :=
  store_key metadata collectionUnlockKey
    (cp_importAndStoreKey data keyTemplate importPassphrase customParameters) keyReference.
End crypto_wrapper.
