(* ===== verification/CryptoFunctionWrappers.v ===== *)
(** The functions that run in the threads of crypto plugins
    (daemon/CryptoImpl/cryptopluginfunctionwrappers.cpp).

    The functions take pointers to a crypto plugin and to a wrapper; a pointer is
    a place in the state [S] of all plugins, or null.  [P] is the state of the
    plugin inside the wrapper, [Q] that of a crypto plugin without storage. *)
From S2P Require Import Prelude Result Sqlite MetadataDb PluginApi PluginWrapper.
From S2P Require Import CryptoManager CryptoKey CryptoPluginWrapper.

(** A pointer into [S]. *)
Record Place (S T : Type) := mkPlace { at_get : S → T; at_put : T → S → S }.
Arguments mkPlace {S T}.
Arguments at_get {S T}.
Arguments at_put {S T}.

(** A call through a pointer. *)
Definition at_ {S T A} (p : Place S T) (m : M T A) : M S A := zoom (at_get p) (at_put p) m.

Section plugin_functions.
  Context `{!CryptoParams} {Q : Type} `{HQ : PluginBase Q, !CryptoPlugin Q}.

(** Functions of the plugin alone; an output that is not written keeps the
    value it is declared with. *)
Definition data_result (m : M Q (CResult * option bytes)) : M Q (CResult * bytes) :=
  let* '(result, data) := m in ret (result, default "" data).

Definition cf_generateRandomData (custom : Custom) (callerIdent : Z) (csprngEngineName : string)
  (numberBytes : Z) : M Q (CResult * bytes) :=
  data_result (cp_generateRandomData callerIdent csprngEngineName numberBytes custom).

Definition cf_seedRandomDataGenerator (custom : Custom) (callerIdent : Z)
  (csprngEngineName : string) (seedData : bytes) (entropyEstimate : Z) : M Q CResult :=
  cp_seedRandomDataGenerator callerIdent csprngEngineName seedData entropyEstimate custom.

Definition cf_generateInitializationVector (custom : Custom) (algorithm blockMode keySize : Z)
  : M Q (CResult * bytes) :=
  data_result (cp_generateInitializationVector algorithm blockMode keySize custom).

Definition cf_importKey (custom : Custom) (keyData passphrase : bytes) : M Q (CResult * CKey) :=
  cp_importKey keyData passphrase custom noCKey.

Definition cf_generateKey (custom : Custom) (keyTemplate : CKey)
  (kpgParams : KeyPairGenerationParameters) (skdfParams : DerivationParameters)
  : M Q (CResult * CKey) :=
  let* '(result, key) := cp_generateKey keyTemplate kpgParams skdfParams custom in
  ret (result, default keyTemplate key).

Definition cf_storedKey (identifier : Identifier) (keyComponents : Z) (custom : Custom)
  : M Q (CResult * CKey) :=
  let* '(result, key) := cp_storedKey identifier keyComponents custom in
  ret (result, default (set_identifier identifier noCKey) key).

Definition cf_storedKeyIdentifiers (collectionName : string) (custom : Custom)
  : M Q (CResult * list Identifier) :=
  cp_storedKeyIdentifiers collectionName custom.

Definition cf_calculateDigest (custom : Custom) (data : bytes) (options : SignatureOptions)
  : M Q (CResult * bytes) :=
  data_result (cp_calculateDigest data options custom).

Definition cf_updateCipherSessionAuthentication (custom : Custom) (clientId : Z)
  (authenticationData : bytes) (cipherSessionToken : Z) : M Q CResult :=
  cp_updateCipherSessionAuthentication clientId authenticationData custom cipherSessionToken.

Definition cf_updateCipherSession (custom : Custom) (clientId : Z) (data : bytes)
  (cipherSessionToken : Z) : M Q (CResult * bytes) :=
  data_result (cp_updateCipherSession clientId data custom cipherSessionToken).

Definition cf_finalizeCipherSession (custom : Custom) (clientId : Z) (data : bytes)
  (cipherSessionToken : Z) : M Q (CResult * (bytes * Z)) :=
  let* '(result, (generatedData, verificationStatus)) :=
    cp_finalizeCipherSession clientId data custom cipherSessionToken in
  ret (result, (default "" generatedData, default VerificationStatusUnknown verificationStatus)).
End plugin_functions.

Section key_functions.
  Context (cfg : MetadataConfig) `{!CryptoParams} {P : Type} `{EncryptedStoragePlugin P, !CryptoPlugin P}.
  Context {Q : Type} `{HQ : PluginBase Q, !CryptoPlugin Q} {S : Type}.

(** [unlockCollection], with [*wasLocked]. *)
Definition cf_unlockCollection (collectionName : string) (collectionKey : bytes)
  : M (Wrapper P) (Result * bool) :=
  let* '(lockedResult, locked) := ew_isCollectionLocked collectionName false in
  if negb (ok lockedResult) then ret (lockedResult, false)
  else if negb locked then ret (lockedResult, false) else
  let* lockedResult := ew_setEncryptionKey cfg collectionName collectionKey in
  if negb (ok lockedResult) then ret (lockedResult, true) else
  let* '(lockedResult, locked) := ew_isCollectionLocked collectionName locked in
  if ok lockedResult && locked then
    ret (result_error IncorrectAuthenticationCodeError
           ("The authentication code entered for collection " +:+ collectionName +:+ " was incorrect"),
         true)
  else ret (lockedResult, true).

(** The body that the functions below share when there is a wrapper: unlock the
    collection of the key if the key given is a mere reference, let the plugin
    work, and lock again what was locked. *)
Definition use_stored_key {A} (reference : bool) (key : CKey) (collectionKey : bytes)
  (operation : M P (CResult * A)) (untouched : A) : M (Wrapper P) (CResult * A) :=
  let collectionName := ident_collectionName (k_identifier key) in
  let* '(result, wasLocked) :=
    (if reference then
       let* '(lockedResult, wasLocked) := cf_unlockCollection collectionName collectionKey in
       ret (if bool_decide (code lockedResult = Failed) then transformSecretsResult lockedResult
            else cresult_of_code Succeeded, wasLocked)
     else ret (cresult_of_code Succeeded, false)) in
  let* '(result, a) :=
    (if c_ok result then on_plugin operation else ret (result, untouched)) in
  (if (wasLocked : bool) then ew_setEncryptionKey cfg collectionName "" ;;; ret tt else ret tt) ;;;
  ret (result, a).

(** [PluginWrapperAndCustomParams] *)
Record PluginPointers := mkPointers {
  pw_plugin : option (Place S Q);
  pw_wrapper : option (Place S (Wrapper P));
  pw_custom : Custom;
}.

Definition null_error : CResult :=
  cresult_error InvalidCryptographicServiceProvider "Internal error: wrapper and plugin null".

(** The wrapper if there is one, else the plugin. *)
Definition use_key {A} (pcp : PluginPointers) (reference : bool) (key : CKey)
  (collectionKey : bytes) (stored : M P (CResult * A)) (plain : M Q (CResult * A)) (untouched : A)
  : M S (CResult * A) :=
  match pw_wrapper pcp, pw_plugin pcp with
  | Some w, _ => at_ w (use_stored_key reference key collectionKey stored untouched)
  | None, Some p => at_ p plain
  | None, None => ret (null_error, untouched)
  end.

(** Whether the key lacks the parts an operation needs. *)
Definition lacks_private (key : CKey) : bool :=
  isEmpty (k_privateKey key) && isEmpty (k_secretKey key).
Definition lacks_all (key : CKey) : bool :=
  isEmpty (k_publicKey key) && isEmpty (k_privateKey key) && isEmpty (k_secretKey key).

(** [sign] *)
Definition cf_sign (pcp : PluginPointers) (data : bytes) (key : CKey) (collectionKey : bytes)
  (options : SignatureOptions) : M S (CResult * bytes) :=
  let* '(result, signature) :=
    use_key pcp (lacks_private key) key collectionKey
      (cp_sign data key options (pw_custom pcp)) (cp_sign data key options (pw_custom pcp)) None in
  ret (result, default "" signature).

(** [verify] *)
Definition cf_verify (pcp : PluginPointers) (signature data : bytes) (key : CKey)
  (collectionKey : bytes) (options : SignatureOptions) : M S (CResult * Z) :=
  let* '(result, status) :=
    use_key pcp (lacks_all key) key collectionKey
      (cp_verify signature data key options (pw_custom pcp))
      (cp_verify signature data key options (pw_custom pcp)) None in
  ret (result, default VerificationStatusUnknown status).

(** [encrypt] *)
Definition cf_encrypt (pcp : PluginPointers) (data iv : bytes) (key : CKey) (collectionKey : bytes)
  (options : EncryptionOptions) (authenticationData : bytes) : M S (CResult * (bytes * bytes)) :=
  let* '(result, (ciphertext, tag)) :=
    use_key pcp (lacks_all key) key collectionKey
      (cp_encrypt data iv key options authenticationData (pw_custom pcp))
      (cp_encrypt data iv key options authenticationData (pw_custom pcp)) (None, None) in
  ret (result, (default "" ciphertext, default "" tag)).

(** [decrypt] *)
Definition cf_decrypt (pcp : PluginPointers) (data iv : bytes) (key : CKey) (collectionKey : bytes)
  (options : EncryptionOptions) (authData tag : bytes) : M S (CResult * (bytes * Z)) :=
  let* '(result, (plaintext, status)) :=
    use_key pcp (lacks_private key) key collectionKey
      (cp_decrypt data iv key options authData tag (pw_custom pcp))
      (cp_decrypt data iv key options authData tag (pw_custom pcp)) (None, None) in
  ret (result, (default "" plaintext, default VerificationStatusUnknown status)).

(** Which parts a session needs depends on its operation. *)
Definition session_reference (operation : Z) (key : CKey) : bool :=
  (bool_decide (operation = OperationSign) || bool_decide (operation = OperationDecrypt))
  && lacks_private key
  || (bool_decide (operation = OperationVerify) || bool_decide (operation = OperationEncrypt))
     && lacks_all key.

(** [initializeCipherSession] *)
Definition cf_initializeCipherSession (pcp : PluginPointers) (clientId : Z) (iv : bytes)
  (key : CKey) (collectionKey : bytes) (options : CipherSessionOptions) : M S (CResult * Z) :=
  let* '(result, token) :=
    use_key pcp (session_reference (cso_operation options) key) key collectionKey
      (cp_initializeCipherSession clientId iv key options (pw_custom pcp))
      (cp_initializeCipherSession clientId iv key options (pw_custom pcp)) None in
  ret (result, default 0%Z token).

(** The metadata of a key are those of its collection. *)
Definition key_metadata (keyTemplate : CKey) (cm : CollectionMetadata) (plugin : string)
  : SecretMetadata :=
  mkSecretMetadata (ident_collectionName (k_identifier keyTemplate))
    (ident_name (k_identifier keyTemplate)) (cm_ownerApplicationId cm) (cm_usesDeviceLockKey cm)
    (cm_encryptionPluginName cm) (cm_authenticationPluginName cm) (cm_unlockSemantic cm)
    (cm_accessControlMode cm) "CryptoKey" plugin.

(** The body of the next two. *)
Definition with_key_metadata (keyTemplate : CKey) (plugin : string)
  (store : SecretMetadata → CKey → M (Wrapper P) (CResult * CKey)) : M (Wrapper P) (CResult * CKey) :=
  let* '(sresult, collectionMetadata) :=
    wrapper_collectionMetadata (ident_collectionName (k_identifier keyTemplate))
      noCollectionMetadata in
  if negb (ok sresult) then ret (transformSecretsResult sresult, keyTemplate)
  else store (key_metadata keyTemplate collectionMetadata plugin) keyTemplate.

(** [importAndStoreKey]; [plugin] is the name of the crypto plugin. *)
Definition cf_importAndStoreKey (custom : Custom) (plugin : string) (keyData : bytes)
  (keyTemplate : CKey) (passphrase collectionDecryptionKey : bytes) : M (Wrapper P) (CResult * CKey) :=
  with_key_metadata keyTemplate plugin (λ metadata keyReference,
    cw_importAndStoreKey metadata keyData keyTemplate passphrase custom collectionDecryptionKey
      keyReference).

(** [generateAndStoreKey] *)
Definition cf_generateAndStoreKey (custom : Custom) (plugin : string) (keyTemplate : CKey)
  (kpgParams : KeyPairGenerationParameters) (skdfParams : DerivationParameters)
  (collectionUnlockCode : bytes) : M (Wrapper P) (CResult * CKey) :=
  with_key_metadata keyTemplate plugin (λ metadata keyReference,
    cw_generateAndStoreKey metadata keyTemplate kpgParams skdfParams custom collectionUnlockCode
      keyReference).
End key_functions.
