(* ===== verification/CryptoWrapperSpec.v ===== *)
(** Correctness of the wrapper of key-storing plugins and of the functions that
    use keys: a key and its metadata are stored together, a collection that was
    locked is locked again, and a stored key is used exactly if its collection
    can be unlocked. *)
From S2P Require Import Prelude Result Sqlite Transactions MetadataDb PluginApi PluginWrapper.
From S2P Require Import WrapperSpec MetadataLock PluginFunctionWrappers FunctionSpec VaultSpec.
From S2P Require Import CryptoManager CryptoKey CryptoPluginWrapper CryptoFunctionWrappers.

Lemma c_ok_error e text : (2 ≤ e)%Z → c_ok (cresult_error e text) = false.
Proof.
  intros He. unfold cresult_error, c_ok. rewrite (proj2 (Z.leb_le _ _)) by exact He. done.
Qed.

(** A storage plugin answers at once: it succeeds or fails. *)
Class Definite (P : Type) `{EncryptedStoragePlugin P} := {
  definite_isCollectionLocked c b p : wp (ep_isCollectionLocked c b) (λ rl _, code rl.1 ≠ Pending) p;
  definite_setEncryptionKey c k p : wp (ep_setEncryptionKey c k) (λ r _, code r ≠ Pending) p;
  definite_setSecret c s x fd p : wp (ep_setSecret c s x fd) (λ r _, code r ≠ Pending) p;
  definite_getSecret c s p : wp (ep_getSecret c s) (λ rx _, code rx.1 ≠ Pending) p;
}.

Lemma definite_failed r : code r ≠ Pending → bool_decide (code r = Failed) = negb (ok r).
Proof. unfold ok. by destruct (code r). Qed.

(** * Atomicity, for any plugin and whatever the engine does *)
Section atomic.
  Context `{!CryptoParams} {P : Type} `{EncryptedStoragePlugin P, !CryptoPlugin P}.
  Implicit Types (t : MetaTables) (w : Wrapper P).

(** The outcome of storing a key, as that of the other operations. *)
Definition key_outcome (run : MetaTables → option (MetaTables * unit)) t (r : CResult) (db : MetaDb)
  : Prop :=
  if c_ok r then ∃ t', run t = Some (t', tt) ∧ (idle t' db ∨ commit_failed t t' db)
  else idle t db ∨ (leaked t db ∧ c_storageErrorCode r = DatabaseTransactionError).

(** After the preparation the transaction is open exactly if it succeeded. *)
Definition prepared (md : SecretMetadata) t (r : CResult) (db : MetaDb) : Prop :=
  if c_ok r then ∃ t', sql_insert_secret md t = Some (t', tt) ∧ live t t' db
  else idle t db ∨ (leaked t db ∧ c_storageErrorCode r = DatabaseTransactionError).

Lemma prepared_refused md t r db : c_ok r = false → idle t db → prepared md t r db.
Proof. intros Hr Hi. unfold prepared. rewrite Hr. by left. Qed.

Lemma insert_key_metadata_spec md t w :
  settled t w →
  wp (insert_key_metadata md) (λ r w', prepared md t r (m_metadataDb w') ∧ same_plugin w w') w.
Proof.
  intros Hs. unfold insert_key_metadata. apply wp_bind, wp_zoom.
  eapply wp_mono; [by eapply secretMetadata_idle_spec|]. intros [r [md' existing]] db1 (Hi&_&_).
  destruct (ok r) eqn:Hr; simpl.
  2: { apply wp_ret. split; [|done]. apply prepared_refused; [|done]. by rewrite transformSecretsResult_ok. }
  destruct existing; simpl; [apply wp_ret; split; [by apply prepared_refused|done]|].
  apply wp_bind, wp_zoom. eapply wp_mono; [by eapply begin_spec|]. intros [|] db2 [Hl _]; simpl.
  2: { apply wp_ret. split; [|done]. right. split; [exact Hl|done]. }
  apply wp_bind, wp_zoom. eapply wp_mono; [by eapply db_update_spec|]. simpl.
  intros r3 db3 [Hr3 _]. destruct (ok r3) eqn:Hok; simpl.
  2: { apply wp_bind, wp_zoom. eapply wp_mono; [apply rollback_spec, Hr3|].
       intros _ db4 [Hi4 _]. apply wp_ret. split; [|done]. apply prepared_refused; [|done].
       by rewrite transformSecretsResult_ok. }
  apply wp_ret. split; [|done]. exact Hr3.
Qed.

Lemma prepareToStoreKey_spec md key t w :
  settled t w →
  wp (prepareToStoreKey md key) (λ '(r, _) w', prepared md t r (m_metadataDb w')) w.
Proof.
  intros Hs. unfold prepareToStoreKey. apply wp_bind, wp_gets.
  destruct (wrapper_isLocked w); [by apply wp_ret, prepared_refused|]. apply wp_bind.
  eapply wp_mono; [by eapply isMasterLocked_spec|]. intros [|] w1 (Hs1&_&_);
    [by apply wp_ret, prepared_refused|].
  destruct cp_canStoreKeys; simpl; [|by apply wp_ret, prepared_refused].
  apply wp_bind, wp_zoom. unfold wp at 1. destruct (ep_isCollectionLocked _ _ _) as [[r l] p1].
  cbn [fst snd]. destruct (ok r) eqn:Hr; simpl.
  2: { apply wp_ret, prepared_refused; [by rewrite transformSecretsResult_ok|done]. }
  assert (∀ (b : bool) w2, settled t w2 → wp (let* result := insert_key_metadata md in ret (result, b))
    (λ '(r, _) w', prepared md t r (m_metadataDb w')) w2) as Hins.
  { intros b w2 Hs2. apply wp_bind. eapply wp_mono; [by apply insert_key_metadata_spec|].
    intros r2 w3 [? _]. by apply wp_ret. }
  destruct l; [|by apply Hins]. apply wp_bind, wp_zoom. unfold wp at 1.
  destruct (ep_setEncryptionKey _ _ _) as [r2 p2]. cbn [fst snd]. destruct (ok r2) eqn:Hr2; simpl.
  2: { apply wp_ret, prepared_refused; [by rewrite transformSecretsResult_ok|done]. }
  apply wp_bind, wp_zoom. unfold wp at 1. destruct (ep_isCollectionLocked _ _ _) as [[r3 l3] p3].
  cbn [fst snd]. destruct l3; [by apply wp_ret, prepared_refused|]. by apply Hins.
Qed.

(** The key is stored by the plugin and its metadata are committed, or the
    metadata are as before. *)
Lemma store_key_outcome md key op ref t w :
  settled t w →
  wp (store_key md key op ref) (λ '(r, _) w',
    key_outcome (sql_insert_secret md) t r (m_metadataDb w')) w.
Proof.
  intros Hs. unfold store_key. apply wp_bind. eapply wp_mono; [by apply prepareToStoreKey_spec|].
  intros [r b] w1 Hp. apply wp_bind.
  apply wp_mono with (λ '(r, _) w', key_outcome (sql_insert_secret md) t r (m_metadataDb w')).
  - unfold prepared in Hp. destruct (c_ok r) eqn:Hr.
    2: { apply wp_ret. unfold key_outcome. by rewrite Hr. }
    destruct Hp as (t'&Hrun&Hl). apply wp_bind, wp_zoom. unfold wp at 1.
    destruct (op (m_plugin w1)) as [[r2 k] p2]. cbn [fst snd]. unfold key_outcome.
    destruct (c_ok r2) eqn:Hr2; simpl; apply wp_bind, wp_zoom.
    + eapply wp_mono; [by eapply commit_spec|]. simpl. intros c db3 [Hc _]. apply wp_ret.
      rewrite Hr2. exists t'. split; [done|]. destruct c; auto.
    + eapply wp_mono; [by eapply rollback_spec, live_aborted|]. intros _ db3 [Hi _].
      apply wp_ret. rewrite Hr2. by left.
  - intros [r2 k] w2 Ho. apply wp_bind. destruct b; [|by apply wp_ret, wp_ret].
    apply wp_bind, wp_zoom. unfold wp at 1. by apply wp_ret, wp_ret.
Qed.
End atomic.

(** * Relocking, for any plugin that forgets keys *)
Section relocking.
  Context (cfg : MetadataConfig) `{!CryptoParams} {P : Type}.
  Context `{EncryptedStoragePlugin P, !CryptoPlugin P, HR : !RelockSpec (P := P)}.
  #[local] Existing Instance shut_queries.
  Implicit Types (w : Wrapper P).

(** Unlocking tells whether the collection was locked. *)
Lemma cf_unlockCollection_was c k w :
  meta_ok w →
  wp (cf_unlockCollection cfg c k) (λ '(_, wasLocked) w', meta_ok w'
    ∧ wasLocked = reported_locked c (m_plugin w)) w.
Proof.
  intros Hw. unfold cf_unlockCollection, reported_locked, ew_isCollectionLocked.
  apply wp_bind, wp_zoom. unfold wp at 1.
  destruct (ep_isCollectionLocked c false (m_plugin w)) as [[r l] p1]. cbn [fst snd].
  destruct (ok r); simpl; [|by apply wp_ret]. destruct l; simpl; [|by apply wp_ret].
  apply wp_bind. eapply wp_mono; [by apply meta_setEncryptionKey|]. intros r1 w1 Hw1.
  destruct (ok r1); simpl; [|by apply wp_ret]. apply wp_bind, wp_zoom. unfold wp at 1.
  destruct (ep_isCollectionLocked _ _ _) as [[r2 l2] p2]. cbn [fst snd].
  destruct (ok r2 && l2); by apply wp_ret.
Qed.

Lemma relock_shuts (b : bool) c w :
  meta_ok w →
  wp (if b then ew_setEncryptionKey cfg c "" ;;; ret tt else ret tt) (λ _ w', meta_ok w'
    ∧ (b = true → shut c (m_plugin w'))) w.
Proof.
  intros Hw. destruct b; [|by apply wp_ret]. apply wp_bind.
  eapply wp_mono; [apply (both_setEncryptionKey cfg (shut (P := P) c)); [done|apply shut_law]|].
  intros r w' [[? ?] _]. by apply wp_ret.
Qed.

(** A collection that was locked when a key in it was used is locked afterwards,
    whatever the operation did. *)
Lemma use_stored_key_shuts {A} key ck (op : M P (CResult * A)) a w :
  let c := ident_collectionName (k_identifier key) in
  meta_ok w → reported_locked c (m_plugin w) = true →
  wp (use_stored_key cfg true key ck op a) (λ _ w', meta_ok w' ∧ shut c (m_plugin w')) w.
Proof.
  intros c Hw Hl. unfold use_stored_key. apply wp_bind, wp_bind.
  eapply wp_mono; [by apply cf_unlockCollection_was|]. intros [r b] w1 [Hw1 ->].
  apply wp_ret. fold c. rewrite Hl. apply wp_bind.
  apply wp_mono with (λ (_ : CResult * A) w', meta_ok w').
  - case_match; [by apply meta_on_plugin|by apply wp_ret].
  - intros [r' a'] w2 Hw2. apply wp_bind. eapply wp_mono; [by apply (relock_shuts true)|].
    intros [] w3 [? Hs]. apply wp_ret. auto.
Qed.

(** Storing a key locks again with the plugin's own function. *)
Lemma prepareToStoreKey_was md key t w :
  settled t w → pb_isLocked (m_plugin w) = false → healthy w → cp_canStoreKeys = true →
  wp (prepareToStoreKey md key) (λ '(_, wasLocked) _,
    wasLocked = reported_locked (sm_collectionName md) (m_plugin w)) w.
Proof.
  intros Hs Hl Hh Hcan. unfold prepareToStoreKey, wrapper_isLocked, reported_locked.
  apply wp_bind, wp_gets. rewrite Hl. apply wp_bind.
  eapply wp_mono; [by eapply isMasterLocked_spec|]. intros b w1 (_&[Hp _]&Hg).
  destruct (Hg Hh) as [_ ->]. rewrite Hcan. cbn [negb]. apply wp_bind, wp_zoom. unfold wp at 1.
  rewrite Hp. destruct (ep_isCollectionLocked _ _ _) as [[r l] p1]. cbn [fst snd].
  destruct (ok r); simpl; [|by apply wp_ret].
  assert (∀ (b : bool) w2, wp (let* result := insert_key_metadata md in ret (result, b))
    (λ '(_, b') _, b' = b) w2) as Hins by (intros; apply wp_bind; unfold wp at 1; by apply wp_ret).
  destruct l; [|apply Hins]. apply wp_bind, wp_zoom. unfold wp at 1.
  destruct (ep_setEncryptionKey _ _ _) as [r2 p2]. cbn [fst snd]. destruct (ok r2); [|by apply wp_ret].
  apply wp_bind, wp_zoom. unfold wp at 1. destruct (ep_isCollectionLocked _ _ _) as [[r3 l3] p3].
  cbn [fst snd]. destruct l3; [by apply wp_ret|]. apply Hins.
Qed.

Lemma store_key_shuts md key op ref t w :
  settled t w → healthy w → pb_isLocked (m_plugin w) = false → cp_canStoreKeys = true →
  reported_locked (sm_collectionName md) (m_plugin w) = true →
  wp (store_key md key op ref) (λ _ w', shut (sm_collectionName md) (m_plugin w')) w.
Proof.
  intros Hs Hh Hl Hcan Hrep. unfold store_key. apply wp_bind.
  eapply wp_mono; [by eapply prepareToStoreKey_was|]. intros [r b] w1 ->. rewrite Hrep.
  apply wp_bind. unfold wp at 1. match goal with |- context [let '_ := ?x in _] => destruct x as [r2 k2] end.
  apply wp_bind, wp_bind, wp_zoom. unfold wp at 1. apply wp_ret, wp_ret. apply shut_law.
Qed.
End relocking.

(** * Using a stored key, in a good environment *)
Section vault.
  Context (cfg : MetadataConfig) `{!CryptoParams} {P : Type}.
  Context `{EncryptedStoragePluginSpec P, !CryptoPlugin P, !Definite P}.
  Implicit Types (w : Wrapper P) (V : Vault) (c : string).

(** A view of the plugin that changes as the vault does, whatever more it
    says. *)
Class VaultView (I : Vault → P → Prop) := {
  view_queries V : Queries (I V);
  view_setEncryptionKey V c k p : I V p →
    wp (ep_setEncryptionKey c k) (λ r p', I (vault_key key_of c k V) p'
      ∧ ok r = vault_key_ok key_of c k V) p;
  view_isCollectionLocked V c b p : I V p →
    wp (ep_isCollectionLocked c b) (λ '(r, locked) p', I V p' ∧
      match V !! c with
      | Some e => ok r = true ∧ locked = negb (ve_unlocked e)
      | None => ok r = false ∧ locked = b
      end) p;
}.
#[local] Existing Instance view_queries.
Context (I : Vault → P → Prop) `{!VaultView I}.

Lemma view_key_wrapper V c k w :
  both (I V) w →
  wp (ew_setEncryptionKey cfg c k) (λ r w', both (I (vault_key key_of c k V)) w'
    ∧ ok r = vault_key_ok key_of c k V ∧ code r ≠ Pending) w.
Proof.
  intros [Hm HI]. pose proof (view_setEncryptionKey _ c k _ HI) as [HI' Hok].
  eapply wp_mono; [by apply (both_setEncryptionKey cfg (I (vault_key key_of c k V)))|].
  intros r w' [? ->]. split_and!; [done..|]. apply definite_setEncryptionKey.
Qed.

Lemma view_locked_wrapper V c b w :
  both (I V) w →
  wp (ew_isCollectionLocked c b) (λ '(r, locked) w', both (I V) w' ∧ code r ≠ Pending ∧
    match V !! c with
    | Some e => ok r = true ∧ locked = negb (ve_unlocked e)
    | None => ok r = false ∧ locked = b
    end) w.
Proof.
  intros [Hm HI]. apply wp_zoom.
  eapply wp_mono; [apply wp_and; [by apply view_isCollectionLocked|apply definite_isCollectionLocked]|].
  intros [r l] p' [[? ?] ?]. done.
Qed.

(** What unlocking leads to: the vault afterwards and whether the collection was
    locked. *)
Definition unlocks V c k (r : Result) (wasLocked : bool) w' : Prop :=
  code r ≠ Pending ∧
  match accessible c k V with
  | Some e => ok r = true ∧ wasLocked = negb (ve_unlocked e) ∧ both (I (opened_vault c V)) w'
  | None => ok r = false ∧ both (I V) w'
      ∧ (wasLocked = true → ∃ e, V !! c = Some e ∧ ve_unlocked e = false)
  end.

Lemma cf_unlockCollection_view V c k w :
  both (I V) w →
  wp (cf_unlockCollection cfg c k) (λ '(r, wasLocked) w', unlocks V c k r wasLocked w') w.
Proof.
  intros Hw. unfold cf_unlockCollection, unlocks, accessible. apply wp_bind.
  eapply wp_mono; [by apply view_locked_wrapper|]. intros [r l] w1 (Hw1&Hd&Hl).
  destruct (V !! c) as [e|] eqn:Hc; simpl; destruct Hl as [Hr ->]; rewrite Hr; simpl; [|by apply wp_ret].
  destruct (ve_unlocked e) eqn:He; simpl.
  { apply wp_ret. rewrite He. split_and!; [done..|]. unfold opened_vault.
    by rewrite (alter_same _ _ e); [|done|by apply entry_with_lock_same]. }
  apply wp_bind. eapply wp_mono; [by apply view_key_wrapper|]. intros r2 w2 (Hw2&Hr2&Hd2).
  unfold vault_key_ok in Hr2. rewrite Hc in Hr2. rewrite (vault_key_locked _ _ _ _ Hc He) in Hw2.
  destruct (fits key_of k e) eqn:Hf.
  - rewrite orb_true_r in Hr2. rewrite Hr2. simpl. apply wp_bind.
    eapply wp_mono; [by apply view_locked_wrapper|]. intros [r3 l3] w3 (Hw3&Hd3&Hl3).
    unfold opened_vault in Hl3. rewrite lookup_alter_eq, Hc in Hl3. simpl in Hl3.
    destruct Hl3 as [Hr3 ->]. rewrite Hr3. apply wp_ret. rewrite He. by split_and!.
  - destruct (ok r2) eqn:Hok2; simpl; [|apply wp_ret; split_and!; eauto]. apply wp_bind.
    eapply wp_mono; [by apply view_locked_wrapper|]. intros [r3 l3] w3 (Hw3&Hd3&Hl3).
    rewrite Hc, He in Hl3. destruct Hl3 as [-> ->]. simpl. apply wp_ret. split_and!; eauto.
Qed.

(** Locking again what was locked. *)
Lemma relock_view (b : bool) V c w :
  both (I V) w →
  wp (if b then ew_setEncryptionKey cfg c "" ;;; ret tt else ret tt) (λ _ w',
    both (I (if b then vault_key key_of c "" V else V)) w') w.
Proof.
  intros Hw. destruct b; [|by apply wp_ret]. apply wp_bind.
  eapply wp_mono; [by apply view_key_wrapper|]. intros r w' (?&_&_). by apply wp_ret.
Qed.

Lemma accessible_lookup V c k e : accessible c k V = Some e → V !! c = Some e.
Proof.
  unfold accessible. destruct (V !! c) as [e'|]; [|done]. simpl. case_match; [|done].
  by intros [= ->].
Qed.

Lemma opened_then_locked V c e :
  V !! c = Some e →
  (if negb (ve_unlocked e) then vault_key key_of c "" (opened_vault c V) else opened_vault c V) = V.
Proof.
  intros Hc. destruct (ve_unlocked e) eqn:He; simpl.
  - unfold opened_vault. apply (alter_same _ _ e); [done|]. by apply entry_with_lock_same.
  - by apply (relocked_vault _ _ e).
Qed.
End vault.

(** An operation with a reference to a stored key, of which it is known what it
    does to a plugin with an open collection. *)
Section use.
  Context (cfg : MetadataConfig) `{!CryptoParams} {P : Type}.
  Context `{EncryptedStoragePluginSpec P, !CryptoPlugin P, !Definite P}.
  Context {X : Type} (I : X → Vault → P → Prop) `{!∀ x, VaultView (I x)}.

Lemma use_stored_key_view {A} key ck (op : M P (CResult * A)) a (Q : CResult → A → X → Prop) V x w :
  let c := ident_collectionName (k_identifier key) in
  both (I x V) w →
  (∀ p, I x (opened_vault c V) p →
     wp op (λ '(r, b) p', ∃ x', I x' (opened_vault c V) p' ∧ Q r b x') p) →
  wp (use_stored_key cfg true key ck op a) (λ '(r, b) w',
    match accessible c ck V with
    | Some _ => ∃ x', both (I x' V) w' ∧ Q r b x'
    | None => both (I x V) w' ∧ c_ok r = false ∧ b = a
    end) w.
Proof.
  intros c Hw Hop. unfold use_stored_key. fold c. apply wp_bind, wp_bind.
  eapply wp_mono; [by apply (cf_unlockCollection_view cfg (I x))|].
  intros [r b] w1 [Hd Hu]. apply wp_ret. rewrite definite_failed by done.
  destruct (accessible c ck V) as [e|] eqn:Ha.
  - destruct Hu as (->&->&[Hm HI]). apply wp_bind, wp_zoom. simpl.
    eapply wp_mono; [by apply Hop|]. intros [r2 a2] p' (x'&HI'&HQ). apply wp_bind.
    eapply wp_mono; [apply (relock_view cfg (I x') _ (opened_vault c V)); by split|].
    intros [] w3 Hw3. apply accessible_lookup in Ha. rewrite (opened_then_locked _ _ _ Ha) in Hw3.
    apply wp_ret. eauto.
  - destruct Hu as (Hr&Hw1&Hb). rewrite Hr.
    cbn [negb]. rewrite transformSecretsResult_ok, Hr. apply wp_bind, wp_ret, wp_bind.
    eapply wp_mono; [by apply (relock_view cfg (I x) b V)|].
    intros [] w3 Hw3. apply wp_ret. rewrite transformSecretsResult_ok. split_and!; [|done..].
    destruct b; [|done]. destruct (Hb eq_refl) as (e&Hc&He). by rewrite (locked_again _ _ _ Hc He) in Hw3.
Qed.

(** * Storing a key, in a good environment *)

Implicit Types (t : MetaTables) (w : Wrapper P).

Lemma insert_key_metadata_good md t w :
  settled t w → healthy w →
  wp (insert_key_metadata md) (λ r w', healthy w' ∧ m_plugin w' = m_plugin w ∧
    match sql_insert_secret md t with
    | Some (t', _) => c_ok r = true ∧ live t t' (m_metadataDb w')
    | None => c_ok r = false ∧ settled t w'
    end) w.
Proof.
  intros Hs Hh. unfold insert_key_metadata. apply wp_bind, wp_zoom.
  eapply wp_mono; [by eapply secretMetadata_idle_spec|]. intros [r [md' existing]] db1 (Hi&Hex&Hg).
  destruct (Hg Hh) as [Hg1 Hr]. rewrite Hr, (Hex Hr). cbn [negb].
  case_bool_decide as Hsome.
  { apply wp_ret. split; [done|]. split; [done|]. unfold sql_insert_secret.
    destruct Hsome as [row ->]. by destruct (collections t !! _). }
  apply wp_bind, wp_zoom. eapply wp_mono; [by eapply begin_spec|]. intros b db2 [Hl Hg2].
  destruct (Hg2 Hg1) as [Hg2' ->]. cbn [negb]. apply wp_bind, wp_zoom.
  eapply wp_mono; [by eapply db_update_spec|]. simpl. intros r3 db3 [Hr3 Hg3].
  destruct (Hg3 Hg2') as [Hg3' Hn]. destruct (ok r3) eqn:Hok; cbn [negb].
  - destruct Hr3 as (t'&->&Hl'). by apply wp_ret.
  - destruct (Hn eq_refl) as [-> Hl']. apply wp_bind, wp_zoom.
    eapply wp_mono; [by eapply rollback_spec, live_aborted|]. intros _ db4 [Hi4 Hg4].
    apply wp_ret. split; [by apply Hg4|]. split; [done|]. by rewrite transformSecretsResult_ok.
Qed.

(** The preparation succeeds exactly if the collection can be unlocked and the
    metadata be inserted. *)
Lemma prepareToStoreKey_view md k x V t w :
  let c := sm_collectionName md in
  settled t w → healthy w → I x V (m_plugin w) → pb_isLocked (m_plugin w) = false →
  cp_canStoreKeys = true →
  wp (prepareToStoreKey md k) (λ '(r, wasLocked) w', healthy w' ∧
    match accessible c k V, sql_insert_secret md t with
    | Some e, Some (t', _) => c_ok r = true ∧ wasLocked = negb (ve_unlocked e)
        ∧ I x (opened_vault c V) (m_plugin w') ∧ live t t' (m_metadataDb w')
    | Some e, None => c_ok r = false ∧ wasLocked = negb (ve_unlocked e)
        ∧ I x (opened_vault c V) (m_plugin w') ∧ settled t w'
    | None, _ => c_ok r = false ∧ I x V (m_plugin w') ∧ settled t w'
        ∧ (wasLocked = true → ∃ e, V !! c = Some e ∧ ve_unlocked e = false)
    end) w.
Proof.
  intros c Hs Hh HI Hpl Hcan. unfold prepareToStoreKey, wrapper_isLocked. fold c.
  apply wp_bind, wp_gets. rewrite Hpl. apply wp_bind.
  eapply wp_mono; [by eapply isMasterLocked_spec|]. intros b w1 (Hs1&[Hp _]&Hg).
  destruct (Hg Hh) as [Hh1 ->]. rewrite Hcan. cbn [negb]. apply wp_bind, wp_zoom. rewrite Hp.
  eapply wp_mono; [by apply view_isCollectionLocked|]. intros [r l] p1 [HI1 Hl].
  unfold accessible. destruct (V !! c) as [e|] eqn:Hc; destruct Hl as [Hr ->]; rewrite Hr; simpl.
  2: { apply wp_ret. split; [done|]. by rewrite transformSecretsResult_ok. }
  assert (∀ (b : bool) w2, settled t w2 → healthy w2 → I x (opened_vault c V) (m_plugin w2) →
    wp (let* result := insert_key_metadata md in ret (result, b)) (λ '(r, b') w', healthy w' ∧
      match sql_insert_secret md t with
      | Some (t', _) => c_ok r = true ∧ b' = b
          ∧ I x (opened_vault c V) (m_plugin w') ∧ live t t' (m_metadataDb w')
      | None => c_ok r = false ∧ b' = b ∧ I x (opened_vault c V) (m_plugin w') ∧ settled t w'
      end) w2) as Hins.
  { intros b w2 Hs2 Hh2 HI2. apply wp_bind. eapply wp_mono; [by apply (insert_key_metadata_good md t)|].
    intros r2 w3 (Hh3&Hp3&Hm). apply wp_ret. rewrite Hp3. split; [done|].
    destruct (sql_insert_secret md t) as [[t' []]|]; naive_solver. }
  destruct (ve_unlocked e) eqn:He; simpl.
  { rewrite He. apply Hins; [done..|]. unfold opened_vault.
    by rewrite (alter_same _ _ e); [|done|by apply entry_with_lock_same]. }
  apply wp_bind, wp_zoom. eapply wp_mono; [by apply view_setEncryptionKey|]. intros r2 p2 [HI2 Hr2].
  unfold vault_key_ok in Hr2. rewrite Hc in Hr2. rewrite (vault_key_locked _ _ _ _ Hc He) in HI2.
  destruct (fits key_of k e) eqn:Hf.
  - rewrite orb_true_r in Hr2. rewrite Hr2. cbn [negb]. apply wp_bind, wp_zoom.
    eapply wp_mono; [by apply view_isCollectionLocked|]. intros [r3 l3] p3 [HI3 Hl3].
    unfold opened_vault in Hl3. rewrite lookup_alter_eq, Hc in Hl3. simpl in Hl3.
    destruct Hl3 as [_ ->]. rewrite He. by apply Hins.
  - destruct (ok r2) eqn:Hok2; cbn [negb].
    2: { apply wp_ret. rewrite transformSecretsResult_ok. split; [done|]. split_and!; eauto. }
    apply wp_bind, wp_zoom. eapply wp_mono; [by apply view_isCollectionLocked|].
    intros [r3 l3] p3 [HI3 Hl3]. rewrite Hc, He in Hl3. destruct Hl3 as [_ ->]. simpl.
    apply wp_ret. split; [done|]. split_and!; eauto.
Qed.

(** The plugin's own relocking. *)
Lemma relock_plugin_view (b : bool) x V c t w :
  settled t w → healthy w → I x V (m_plugin w) →
  wp (if b then on_plugin (ep_setEncryptionKey c "") ;;; ret tt else ret tt) (λ _ w',
    settled t w' ∧ healthy w' ∧ I x (if b then vault_key key_of c "" V else V) (m_plugin w')) w.
Proof.
  intros Hs Hh HI. destruct b; [|by apply wp_ret]. apply wp_bind, wp_zoom.
  eapply wp_mono; [by apply view_setEncryptionKey|]. intros r p [? _]. by apply wp_ret.
Qed.

(** Storing a key with an operation of which it is known what it does to a
    plugin with an open collection. *)
Lemma store_key_view md k (op : M P (CResult * option CKey)) ref
  (Q : CResult → option CKey → X → Vault → Prop) x V t w :
  let c := sm_collectionName md in
  settled t w → healthy w → I x V (m_plugin w) → pb_isLocked (m_plugin w) = false →
  cp_canStoreKeys = true →
  (∀ p, I x (opened_vault c V) p → wp op (λ '(r, key) p', ∃ x' V', I x' V' p' ∧ Q r key x' V') p) →
  wp (store_key md k op ref) (λ '(r, key) w', healthy w' ∧
    match accessible c k V, sql_insert_secret md t with
    | Some e, Some (t', _) => ∃ x' V' key', Q r key' x' V' ∧ key = default ref key'
        ∧ settled (if c_ok r then t' else t) w'
        ∧ I x' (if negb (ve_unlocked e) then vault_key key_of c "" V' else V') (m_plugin w')
    | _, _ => c_ok r = false ∧ key = ref ∧ settled t w' ∧ I x V (m_plugin w')
    end) w.
Proof.
  intros c Hs Hh HI Hpl Hcan Hop. unfold store_key. apply wp_bind.
  eapply wp_mono; [by eapply prepareToStoreKey_view|]. intros [r b] w1 [Hh1 Hp]. fold c in Hp.
  destruct (accessible c k V) as [e|] eqn:Ha.
  2: { destruct Hp as (Hr&HI1&Hs1&Hb). rewrite Hr. apply wp_bind, wp_ret, wp_bind.
       eapply wp_mono; [by apply (relock_plugin_view b x V c t)|]. intros [] w2 (Hs2&Hh2&HI2).
       apply wp_ret. split_and!; [done..|]. destruct b; [|done].
       destruct (Hb eq_refl) as (e&Hc&He). by rewrite (locked_again _ _ _ Hc He) in HI2. }
  apply accessible_lookup in Ha.
  destruct (sql_insert_secret md t) as [[t' []]|]; destruct Hp as (Hr&->&HI1&Hl); rewrite Hr.
  2: { apply wp_bind, wp_ret, wp_bind.
       eapply wp_mono; [by apply (relock_plugin_view _ x (opened_vault c V) c t)|].
       intros [] w2 (Hs2&Hh2&HI2). rewrite (opened_then_locked _ _ _ Ha) in HI2.
       apply wp_ret. by split_and!. }
  apply wp_bind, wp_bind, wp_zoom. eapply wp_mono; [by apply Hop|]. intros [r2 key'] p2 (x'&V'&HI2&HQ).
  apply wp_bind. apply wp_mono with (λ _ w', settled (if c_ok r2 then t' else t) w' ∧ healthy w'
    ∧ m_plugin w' = p2).
  - destruct (c_ok r2); cbn [negb]; apply wp_zoom.
    + eapply wp_mono; [by eapply commit_spec|]. intros b db3 [Hc3 Hg3]. destruct (Hg3 Hh1) as [? ->]. done.
    + eapply wp_mono; [by eapply rollback_spec, live_aborted|]. intros _ db3 [Hi3 Hg3].
      split_and!; [done|by apply Hg3|done].
  - intros _ w3 (Hs3&Hh3&Hp3). apply wp_ret, wp_bind. rewrite <-Hp3 in HI2.
    eapply wp_mono; [by apply (relock_plugin_view _ x' V' c (if c_ok r2 then t' else t))|]. intros [] w4 (Hs4&Hh4&HI4).
    apply wp_ret. split; [done|]. exists x', V', key'. done.
Qed.
End use.
