(* ===== verification/SqlCipherCrypto.v ===== *)
(** The SQLCipher plugin as a crypto plugin
    (plugins/sqlcipherplugin/cryptoplugin.cpp): keys are stored as secrets of
    the plugin's own collections, and used by the OpenSSL plugin it contains.

    [P] is the state of its storage, with the operations of
    encryptedstorageplugin.cpp; [O] the state of the OpenSSL plugin. *)
From S2P Require Import Prelude Result PluginApi CryptoManager CryptoKey CryptoPluginWrapper KeySerialization.

(** [SqlCipherPlugin] *)
Record Storing (P O : Type) := mkStoring { m_storage : P; m_opensslCryptoPlugin : O }.
Arguments mkStoring {P O}.
Arguments m_storage {P O}.
Arguments m_opensslCryptoPlugin {P O}.

Section storing.
  Context {P O : Type}.

Definition on_storage {A} : M P A → M (Storing P O) A :=
  zoom m_storage (λ p s, mkStoring p (m_opensslCryptoPlugin s)).
Definition on_openssl {A} : M O A → M (Storing P O) A :=
  zoom m_opensslCryptoPlugin (λ o s, mkStoring (m_storage s) o).
End storing.

(** The storage interface of the plugin. *)
#[export] Instance storing_base {P O} `{PluginBase P} : PluginBase (Storing P O) := {|
  pb_name := pb_name;
  pb_supportsLocking := λ s, pb_supportsLocking (m_storage s);
  pb_isLocked := λ s, pb_isLocked (m_storage s);
  pb_lock := on_storage pb_lock;
  pb_unlock := λ c, on_storage (pb_unlock c);
  pb_setLockCode := λ c c', on_storage (pb_setLockCode c c');
|}.

#[export] Instance storing_storage {P O} `{EncryptedStoragePlugin P}
  : EncryptedStoragePlugin (Storing P O) := {|
  ep_collectionNames := on_storage ep_collectionNames;
  ep_createCollection := λ c k, on_storage (ep_createCollection c k);
  ep_removeCollection := λ c, on_storage (ep_removeCollection c);
  ep_isCollectionLocked := λ c b, on_storage (ep_isCollectionLocked c b);
  ep_deriveKeyFromCode := λ c s, on_storage (ep_deriveKeyFromCode c s);
  ep_setEncryptionKey := λ c k, on_storage (ep_setEncryptionKey c k);
  ep_reencrypt := λ c k k', on_storage (ep_reencrypt c k k');
  ep_setSecret := λ c s x fd, on_storage (ep_setSecret c s x fd);
  ep_getSecret := λ c s, on_storage (ep_getSecret c s);
  ep_secretNames := λ c, on_storage (ep_secretNames c);
  ep_findSecrets := λ c flt op, on_storage (ep_findSecrets c flt op);
  ep_removeSecret := λ c s, on_storage (ep_removeSecret c s);
  ep_setStandaloneSecret := λ s x fd k, on_storage (ep_setStandaloneSecret s x fd k);
  ep_accessSecret := λ s k, on_storage (ep_accessSecret s k);
|}.

Section crypto.
  Context `{!CryptoParams, !QDataStream} {P O : Type} `{EncryptedStoragePlugin P}.
  Context `{HO : PluginBase O, !CryptoPlugin O}.

(** [name()] *)
Definition sc_name : string := @pb_name P _.

(** The three checks each function starts with. *)
Definition key_identifier_error (identifier : Identifier) : option CResult :=
  if isEmpty (ident_name identifier) then
    Some (cresult_error InvalidKeyIdentifier "Empty key name given")
  else if isEmpty (ident_collectionName identifier) then
    Some (cresult_error InvalidKeyIdentifier "Empty collection name given")
  else if eq_ci (ident_collectionName identifier) "standalone" then
    Some (cresult_error InvalidKeyIdentifier "Invalid collection name given")
  else None.

(** Store a full key as a secret and hand out its public part. *)
Definition store_as_secret (retn : CResult) (fullKey : CKey)
  : M (Storing P O) (CResult * option CKey) :=
  let* storeResult :=
    on_storage (ep_setSecret (ident_collectionName (k_identifier fullKey))
                  (ident_name (k_identifier fullKey))
                  (serialize fullKey LossySerializationMode) (k_filterData fullKey)) in
  if bool_decide (code storeResult = Failed) then
    ret (mkCResult Failed StorageError (errorCode storeResult) (errorMessage storeResult), None)
  else ret (retn, Some (set_private "" "" fullKey)).

(** [generateAndStoreKey] *)
Definition sc_generateAndStoreKey (keyTemplate : CKey) (kpgParams : KeyPairGenerationParameters)
  (skdfParams : DerivationParameters) (customParameters : Custom)
  : M (Storing P O) (CResult * option CKey) :=
  match key_identifier_error (k_identifier keyTemplate) with
  | Some e => ret (e, None)
  | None =>
      let* '(retn, key) :=
        on_openssl (cp_generateKey keyTemplate kpgParams skdfParams customParameters) in
      if bool_decide (c_code retn = Failed) then ret (retn, None)
      else store_as_secret retn (default keyTemplate key)
  end.

(** [importAndStoreKey] *)
Definition sc_importAndStoreKey (data : bytes) (keyTemplate : CKey) (passphrase : bytes)
  (customParameters : Custom) : M (Storing P O) (CResult * option CKey) :=
  match key_identifier_error (k_identifier keyTemplate) with
  | Some e => ret (e, None)
  | None =>
      let* '(retn, importedKey) :=
        on_openssl (cp_importKey data passphrase customParameters keyTemplate) in
      if bool_decide (c_code retn = Failed) then ret (retn, None)
      else store_as_secret retn (set_origin OriginImported importedKey)
  end.

(** [storedKey_internal] *)
Definition storedKey_internal (identifier : Identifier) : M (Storing P O) (CResult * option CKey) :=
  match key_identifier_error identifier with
  | Some e => ret (e, None)
  | None =>
      let* '(storageResult, secret) :=
        on_storage (ep_getSecret (ident_collectionName identifier) (ident_name identifier)) in
      if bool_decide (code storageResult = Failed) then
        ret (transformSecretsResult storageResult, None) else
      let '(secret, filterData) := default ("", ∅) secret in
      let '(fullKey, deserialized) := deserialize secret in
      if negb deserialized then
        ret (cresult_error SerializationError "Unable to deserialize key from secret blob", None)
      else
        ret (cresult_of_code Succeeded,
             Some (set_filterData filterData
                     (set_identifier
                        (mkIdentifier (ident_name identifier) (ident_collectionName identifier) sc_name)
                        fullKey)))
  end.

(** [storedKey] *)
Definition sc_storedKey (identifier : Identifier) (keyComponents : Z) (customParameters : Custom)
  : M (Storing P O) (CResult * option CKey) :=
  let* '(retn, fullKey) := storedKey_internal identifier in
  ret (retn, Some (nullifyKeyFields keyComponents (default noCKey fullKey))).

(** [storedKeyIdentifiers]; the empty list if it fails. *)
Definition sc_storedKeyIdentifiers (collectionName : string) (customParameters : Custom)
  : M (Storing P O) (CResult * list Identifier) :=
  let* '(result, locked) := on_storage (ep_isCollectionLocked collectionName false) in
  if negb (ok result) then ret (transformSecretsResult result, [])
  else if (locked : bool) then
    ret (transformSecretsResult (result_error CollectionIsLockedError
           ("Collection " +:+ collectionName +:+ " is locked")), []) else
  let* '(result, snames) := on_storage (ep_secretNames collectionName) in
  if negb (ok result) then ret (transformSecretsResult result, []) else
  let* identifiers :=
    foldM (λ identifiers sname,
             let keyIdent := mkIdentifier sname collectionName sc_name in
             let* '(keyResult, _) := storedKey_internal keyIdent in
             ret (if c_ok keyResult then identifiers ++ [keyIdent] else identifiers)) snames [] in
  ret (cresult_of_code Succeeded, identifiers).

(** [getFullKey]: a key with the plugin's name is a reference. *)
Definition getFullKey (key : CKey) : M (Storing P O) (CResult * option CKey) :=
  if negb (isEmpty (ident_name (k_identifier key)))
     && bool_decide (ident_storagePluginName (k_identifier key) = sc_name)
  then
    let* '(result, readKey) := storedKey_internal (k_identifier key) in
    ret (result, if c_ok result then readKey else None)
  else ret (cresult_of_code Succeeded, Some key).

(** The operations with a key: the full key is used in its place. *)
Definition with_full_key {A} (key : CKey) (operation : CKey → M O (CResult * A)) (untouched : A)
  : M (Storing P O) (CResult * A) :=
  let* '(keyResult, fullKey) := getFullKey key in
  if negb (c_ok keyResult) then ret (keyResult, untouched)
  else on_openssl (operation (default noCKey fullKey)).

Definition seed_error : CResult :=
  cresult_error CryptoPluginRandomDataError
    "The SQLCipher crypto plugin doesn't support client-provided seed data".

#[export] Instance storing_crypto : CryptoPlugin (Storing P O) := {|
  cp_canStoreKeys := true;
  cp_generateRandomData := λ i e n v, on_openssl (cp_generateRandomData i e n v);
  cp_seedRandomDataGenerator := λ _ _ _ _ _, ret seed_error;
  cp_generateInitializationVector := λ a b n v, on_openssl (cp_generateInitializationVector a b n v);
  cp_generateKey := λ k g d v, on_openssl (cp_generateKey k g d v);
  cp_generateAndStoreKey := sc_generateAndStoreKey;
  cp_importKey := λ x p v k, on_openssl (cp_importKey x p v k);
  cp_importAndStoreKey := sc_importAndStoreKey;
  cp_storedKey := sc_storedKey;
  cp_storedKeyIdentifiers := sc_storedKeyIdentifiers;
  cp_calculateDigest := λ x o v, on_openssl (cp_calculateDigest x o v);
  cp_sign := λ x k o v, with_full_key k (λ k, cp_sign x k o v) None;
  cp_verify := λ s x k o v, with_full_key k (λ k, cp_verify s x k o v) None;
  cp_encrypt := λ x iv k o a v, with_full_key k (λ k, cp_encrypt x iv k o a v) (None, None);
  cp_decrypt := λ x iv k o a t v, with_full_key k (λ k, cp_decrypt x iv k o a t v) (None, None);
  cp_initializeCipherSession := λ i iv k o v,
    with_full_key k (λ k, cp_initializeCipherSession i iv k o v) None;
  cp_updateCipherSessionAuthentication := λ i x v t,
    on_openssl (cp_updateCipherSessionAuthentication i x v t);
  cp_updateCipherSession := λ i x v t, on_openssl (cp_updateCipherSession i x v t);
  cp_finalizeCipherSession := λ i x v t, on_openssl (cp_finalizeCipherSession i x v t);
|}.
End crypto.
