(* ===== verification/SqlCipherCryptoSpec.v ===== *)
(** The SQLCipher plugin as a crypto plugin is correct: its storage keeps the
    contract of a vault, a stored key is read back as it was stored, and a
    reference to a stored key is used as the key itself. *)
From S2P Require Import Prelude Result PluginApi CryptoManager CryptoKey KeySerialization.
From S2P Require Import Sqlite MetadataDb PluginWrapper WrapperSpec PluginFunctionWrappers FunctionSpec VaultSpec CryptoPluginWrapper CryptoFunctionWrappers CryptoWrapperSpec SqlCipherCrypto.

(** * Its storage *)
Section storage.
  Context {P O : Type}.

Lemma wp_on_storage {A} (m : M P A) (Q : A → P → Prop) (R : A → Storing P O → Prop) s :
  wp m Q (m_storage s) → (∀ a p, Q a p → R a (mkStoring p (m_opensslCryptoPlugin s))) →
  wp (on_storage m) R s.
Proof. intros Hm HR. apply wp_zoom. eapply wp_mono; [exact Hm|]. auto. Qed.

#[export, program] Instance storing_spec `{EncryptedStoragePluginSpec P}
  : EncryptedStoragePluginSpec (Storing P O) := {|
  vready := λ s, vready (m_storage s);
  vault := λ s, vault (m_storage s);
  key_of := key_of;
  listed := listed;
  storable := storable;
|}.
Next Obligation. intros. by apply (vready_unlocked (P := P)). Qed.
Next Obligation. intros. eapply wp_on_storage; [by apply (vcollectionNames_law (P := P))|]. by intros []. Qed.
Next Obligation. intros. eapply wp_on_storage; [by apply (vcreateCollection_law (P := P))|]. done. Qed.
Next Obligation. intros. eapply wp_on_storage; [by apply (vremoveCollection_law (P := P))|]. done. Qed.
Next Obligation. intros. eapply wp_on_storage; [by apply (visCollectionLocked_law (P := P))|]. by intros []. Qed.
Next Obligation. intros. eapply wp_on_storage; [by apply (vsetEncryptionKey_law (P := P))|]. done. Qed.
Next Obligation. intros. eapply wp_on_storage; [by apply (vreencrypt_law (P := P))|]. done. Qed.
Next Obligation. intros. eapply wp_on_storage; [by apply (vsetSecret_law (P := P))|]. done. Qed.
Next Obligation. intros. eapply wp_on_storage; [by apply (vremoveSecret_law (P := P))|]. done. Qed.
Next Obligation. intros. eapply wp_on_storage; [by apply (vgetSecret_law (P := P))|]. by intros []. Qed.
Next Obligation. intros. eapply wp_on_storage; [by apply (vsecretNames_law (P := P))|]. by intros []. Qed.

Lemma preserves_on_storage {A} (K : P → Prop) (m : M P A) :
  preserves K m → preserves (λ s : Storing P O, K (m_storage s)) (on_storage m).
Proof. intros Hm s Hs. eapply wp_on_storage; [by apply Hm|]. done. Qed.

#[export] Instance storing_relock `{RelockSpec P} : RelockSpec (P := Storing P O).
Proof.
  refine {| shut := λ c s, shut (P := P) c (m_storage s) |}.
  - intros c s. pose proof (shut_law (P := P) c (m_storage s)) as Hs. cbn. unfold on_storage, zoom.
    by destruct (ep_setEncryptionKey c "" (m_storage s)).
  - intros c. destruct (shut_queries (P := P) c) as [H1' H2 H3].
    split; intros; apply preserves_on_storage; auto.
Defined.

#[export] Instance storing_definite `{Definite P} : Definite (Storing P O).
Proof.
  split; intros.
  - eapply wp_on_storage; [apply (definite_isCollectionLocked (P := P))|done].
  - eapply wp_on_storage; [apply (definite_setEncryptionKey (P := P))|done].
  - eapply wp_on_storage; [apply (definite_setSecret (P := P))|done].
  - eapply wp_on_storage; [apply (definite_getSecret (P := P))|done].
Qed.

(** The plugin holds a vault, and its OpenSSL plugin is in a given state. *)
Definition view `{EncryptedStoragePluginSpec P} (o : O) (V : Vault) (s : Storing P O) : Prop :=
  holds V s ∧ m_opensslCryptoPlugin s = o.

#[export] Instance storing_view `{EncryptedStoragePluginSpec P} o : VaultView (view o).
Proof.
  split.
  - intros V. destruct (holds_queries (P := P) V) as [H2 H3 H4].
    split; [intros s [Hs Ho]|intros c b s [Hs Ho]|intros c s [Hs Ho]].
    + eapply wp_on_storage; [by apply H2|]. by intros.
    + eapply wp_on_storage; [by apply H3|]. by intros.
    + eapply wp_on_storage; [by apply H4|]. by intros.
  - intros V c k s [[Hr HV] Ho]. change (vault (m_storage s) = V) in HV. eapply wp_on_storage.
    { by apply (vsetEncryptionKey_law (P := P)). }
    intros r p' (?&?&?). rewrite HV in *. by split_and!.
  - intros V c b s [[Hr HV] Ho]. change (vault (m_storage s) = V) in HV. eapply wp_on_storage.
    { by apply (visCollectionLocked_law (P := P)). }
    intros [r l] p' (?&?&?). rewrite HV in *. by split_and!.
Qed.
End storage.

(** * Keys *)

Section crypto.
  Context `{!CryptoParams, Stream : !QDataStream, !QDataStreamLaws Stream}.
  Context {P O : Type} `{EncryptedStoragePluginSpec P, !Definite P}.
  Context `{HO : PluginBase O, !CryptoPlugin O}.
  Implicit Types (s : Storing P O) (V : Vault) (id : Identifier) (key : CKey).

(** The key that the secret [(x, fd)] of a collection stands for. *)
Definition key_of_secret id (x : bytes * FilterData) : option CKey :=
  let '(key, deserialized) := deserialize x.1 in
  if deserialized
  then Some (set_filterData x.2
               (set_identifier (mkIdentifier (ident_name id) (ident_collectionName id) (sc_name (P := P))) key))
  else None.

(** The key stored under an identifier, as far as its collection is unlocked. *)
Definition stored_key V id : option CKey :=
  match key_identifier_error id with
  | Some _ => None
  | None => e ← unlocked_entry (ident_collectionName id) V;
            x ← ve_secrets e !! ident_name id;
            key_of_secret id x
  end.

Lemma key_identifier_names id :
  key_identifier_error id = None → ident_name id ≠ "" ∧ ident_collectionName id ≠ "".
Proof. unfold key_identifier_error, isEmpty. repeat case_bool_decide; naive_solver. Qed.

(** Reading leaves the OpenSSL plugin alone. *)
Definition reads V s s' : Prop :=
  holds V s' ∧ m_opensslCryptoPlugin s' = m_opensslCryptoPlugin s.

Lemma key_identifier_error_ok id e : key_identifier_error id = Some e → c_ok e = false.
Proof. unfold key_identifier_error. repeat case_match; naive_solver. Qed.

Lemma storedKey_internal_vault id V s :
  holds V s →
  wp (storedKey_internal id) (λ '(r, key) s', reads V s s' ∧ key = stored_key V id
    ∧ c_ok r = bool_decide (is_Some (stored_key V id))) s.
Proof.
  intros [Hr HV]. unfold storedKey_internal, stored_key.
  destruct (key_identifier_error id) as [e|] eqn:He.
  { apply wp_ret. split_and!; [by split|done|]. by rewrite (key_identifier_error_ok _ _ He). }
  apply key_identifier_names in He as Hn. destruct Hn as [Hn Hc]. apply wp_bind.
  eapply wp_on_storage.
  { apply wp_and; [by apply (vgetSecret_law (P := P))|].
    apply definite_getSecret. }
  intros [r x] p' ((Hr'&HV'&Hx&Hok)&Hd). simpl in Hd. rewrite definite_failed by done.
  rewrite decide_True in Hx by done. change (vault (m_storage s)) with (vault s) in *.
  rewrite HV in Hx, HV'. subst x. revert Hok.
  destruct (unlocked_entry (ident_collectionName id) V) as [e'|]; simpl; intros Hok.
  2: { rewrite Hok. apply wp_ret. rewrite transformSecretsResult_ok. by split_and!. }
  destruct (ve_secrets e' !! ident_name id) as [[y fd]|]; simpl in *; rewrite Hok.
  2: { apply wp_ret. rewrite transformSecretsResult_ok. by split_and!. }
  unfold key_of_secret. simpl. destruct (deserialize y) as [k b]. destruct b; by apply wp_ret.
Qed.

(** [storedKey] gives what was asked for and may be read. *)
Lemma storedKey_vault id components custom V s :
  holds V s →
  wp (sc_storedKey id components custom) (λ '(r, key) s', reads V s s'
    ∧ key = Some (nullifyKeyFields components (default noCKey (stored_key V id)))
    ∧ c_ok r = bool_decide (is_Some (stored_key V id))) s.
Proof.
  intros Hs. unfold sc_storedKey. apply wp_bind.
  eapply wp_mono; [by apply storedKey_internal_vault|]. intros [r k] s' (?&->&?). by apply wp_ret.
Qed.

(** The key that is used in the place of [key]. *)
Definition full_key V key : option CKey :=
  if negb (isEmpty (ident_name (k_identifier key)))
     && bool_decide (ident_storagePluginName (k_identifier key) = (sc_name (P := P)))
  then stored_key V (k_identifier key) else Some key.

Lemma getFullKey_vault key V s :
  holds V s →
  wp (getFullKey key) (λ '(r, k) s', reads V s s' ∧ k = full_key V key
    ∧ c_ok r = bool_decide (is_Some (full_key V key))) s.
Proof.
  intros Hs. unfold getFullKey, full_key. destruct (_ && _); [|by apply wp_ret].
  apply wp_bind. eapply wp_mono; [by apply storedKey_internal_vault|]. intros [r k] s' (?&->&Hr).
  apply wp_ret. split; [done|]. split; [|done]. rewrite Hr. by destruct (stored_key V _).
Qed.

(** An operation with a key is the OpenSSL plugin's operation with the full key,
    or fails without reaching it. *)
Lemma with_full_key_vault {A} key (operation : CKey → M O (CResult * A)) untouched V s :
  holds V s →
  wp (with_full_key key operation untouched) (λ '(r, a) s', holds V s' ∧
    match full_key V key with
    | Some full => (r, a, m_opensslCryptoPlugin s') = operation full (m_opensslCryptoPlugin s)
    | None => c_ok r = false ∧ a = untouched ∧ m_opensslCryptoPlugin s' = m_opensslCryptoPlugin s
    end) s.
Proof.
  intros Hs. unfold with_full_key. apply wp_bind.
  eapply wp_mono; [by apply getFullKey_vault|]. intros [r k] s1 ([Hs1 Ho]&->&Hr). rewrite Hr.
  destruct (full_key V key) as [full|]; simpl.
  - unfold wp, on_openssl, zoom. rewrite Ho. destruct (operation full _) as [[r' a] o']. done.
  - apply wp_ret. by rewrite Hr.
Qed.

(** * Storing *)

Lemma store_as_secret_vault retn full V s :
  holds V s → key_identifier_error (k_identifier full) = None →
  wp (store_as_secret retn full) (λ '(r, key) s', m_opensslCryptoPlugin s' = m_opensslCryptoPlugin s ∧
    let id := k_identifier full in
    match unlocked_entry (ident_collectionName id) V with
    | Some _ => r = retn ∧ key = Some (set_private "" "" full)
        ∧ holds (vault_set (ident_collectionName id) (ident_name id)
                   (serialize full LossySerializationMode) (k_filterData full) V) s'
    | None => c_ok r = false ∧ key = None ∧ holds V s'
    end) s.
Proof.
  intros [Hr HV] Hid. destruct (key_identifier_names _ Hid) as [Hn Hc]. unfold store_as_secret.
  apply wp_bind. eapply wp_on_storage.
  { apply wp_and; [by apply (vsetSecret_law (P := P))|].
    apply definite_setSecret. }
  intros r p' ((Hr'&Hx)&Hd). rewrite definite_failed by done.
  change (vault (m_storage s)) with (vault s) in *. rewrite HV in Hx. simpl.
  destruct (unlocked_entry _ V) as [e|] eqn:Hu.
  - rewrite decide_True in Hx by eauto. destruct Hx as [-> Hx]. by apply wp_ret.
  - rewrite decide_False in Hx by (intros (_&_&?%is_Some_None); done). destruct Hx as [-> Hx].
    by apply wp_ret.
Qed.

(** What is read of a key that was stored. *)
Lemma stored_key_set full V :
  key_wf full → key_identifier_error (k_identifier full) = None →
  is_Some (unlocked_entry (ident_collectionName (k_identifier full)) V) →
  stored_key (vault_set (ident_collectionName (k_identifier full)) (ident_name (k_identifier full))
                (serialize full LossySerializationMode) (k_filterData full) V) (k_identifier full)
  = Some (set_identifier (mkIdentifier (ident_name (k_identifier full))
                            (ident_collectionName (k_identifier full)) (sc_name (P := P))) full).
Proof.
  intros Hwf Hid [e He]. unfold stored_key. rewrite Hid. unfold unlocked_entry in *.
  unfold vault_set. rewrite lookup_alter_eq.
  destruct (V !! ident_collectionName (k_identifier full)) as [e'|]; [|done]. simpl in *.
  destruct (ve_unlocked e'); [|done]. simpl. rewrite lookup_insert_eq. simpl.
  unfold key_of_secret. simpl. rewrite deserialize_serialize by done. f_equal.
  destruct Hwf as (_&_&_&_&_&Ht). destruct full. unfold set_filterData, set_identifier. simpl in *.
  f_equal. by apply insert_id.
Qed.

(** * Through the wrapper *)

(** The key a reference stands for, whether or not its collection is locked. *)
Definition referenced V key : option CKey :=
  full_key (opened_vault (ident_collectionName (k_identifier key)) V) key.

(** Using a reference is using the key stored under it, for every operation:
    exactly if the collection can be unlocked and holds such a key; and what is
    stored and locked stays as it was. *)
Lemma use_reference_vault cfg {A} key ck (operation : CKey → M O (CResult * A)) untouched V o w :
  meta_ok w → view o V (m_plugin w) →
  wp (use_stored_key cfg true key ck (with_full_key key operation untouched) untouched)
    (λ '(r, a) w',
      match accessible (P := Storing P O) (ident_collectionName (k_identifier key)) ck V, referenced V key with
      | Some _, Some full => ∃ o', (r, a, o') = operation full o ∧ both (view o' V) w'
      | _, _ => c_ok r = false ∧ a = untouched ∧ both (view o V) w'
      end) w.
Proof.
  intros Hm Hv. eapply wp_mono.
  { apply (use_stored_key_view cfg view key ck _ untouched (λ r a o',
      match referenced V key with
      | Some full => (r, a, o') = operation full o
      | None => c_ok r = false ∧ a = untouched ∧ o' = o
      end) V o); [by split|].
    intros s [Hs Ho]. eapply wp_mono; [by apply (with_full_key_vault key operation untouched)|].
    intros [r a] s' [Hs' Hx]. exists (m_opensslCryptoPlugin s'). split; [done|].
    unfold referenced. rewrite Ho in Hx. by destruct (full_key _ key). }
  intros [r a] w' Hx. destruct (accessible _ ck V); [|naive_solver].
  destruct Hx as (o'&Hb&HQ). destruct (referenced V key); [by exists o'|naive_solver].
Qed.

(** * Storing through the wrapper *)

Definition vault_with_key full V : Vault :=
  vault_set (ident_collectionName (k_identifier full)) (ident_name (k_identifier full))
    (serialize full LossySerializationMode) (k_filterData full) V.

(** An operation that stores the key [full], once the OpenSSL plugin has
    answered [r0]. *)
Definition stored_as (r0 : CResult) full V (r : CResult) (key : option CKey) V' : Prop :=
  if bool_decide (c_code r0 = Failed) then r = r0 ∧ V' = V else
  match unlocked_entry (ident_collectionName (k_identifier full)) V with
  | Some _ => r = r0 ∧ key = Some (set_private "" "" full) ∧ V' = vault_with_key full V
  | None => c_ok r = false ∧ V' = V
  end.

Lemma store_after_openssl {A} (m : M O A) (retn : A → CResult) (full : A → CKey) V o s :
  view o V s → key_identifier_error (k_identifier (full (m o).1)) = None →
  wp (let* a := on_openssl m in
      if bool_decide (c_code (retn a) = Failed) then ret (retn a, None)
      else store_as_secret (retn a) (full a))
    (λ '(r, key) s', ∃ V', view (m o).2 V' s' ∧ stored_as (retn (m o).1) (full (m o).1) V r key V') s.
Proof.
  intros [Hs Ho] Hid. apply wp_bind. unfold wp at 1, on_openssl, zoom. rewrite Ho.
  destruct (m o) as [a o']. simpl in *. unfold stored_as.
  case_bool_decide; [apply wp_ret; by exists V|].
  eapply wp_mono; [apply (store_as_secret_vault (retn a) (full a) V); [|done]; exact Hs|].
  intros [r key] s' [Ho' Hx]. cbv zeta in Hx. revert Hx. destruct (unlocked_entry _ V); intros Hx.
  - destruct Hx as (->&->&Hs'). eexists. split; [by split|done].
  - destruct Hx as (?&_&Hs'). by exists V.
Qed.

Lemma sc_generateAndStoreKey_vault keyTemplate g d custom V o s :
  let '(r0, key0, o') := cp_generateKey keyTemplate g d custom o in
  view o V s → key_identifier_error (k_identifier keyTemplate) = None →
  k_identifier (default keyTemplate key0) = k_identifier keyTemplate →
  wp (sc_generateAndStoreKey keyTemplate g d custom) (λ '(r, key) s', ∃ V', view o' V' s'
    ∧ stored_as r0 (default keyTemplate key0) V r key V') s.
Proof.
  pose proof (store_after_openssl (cp_generateKey keyTemplate g d custom) fst
    (λ a, default keyTemplate a.2) V o s) as Hst.
  destruct (cp_generateKey keyTemplate g d custom o) as [[r0 key0] o'] eqn:Hg. simpl in Hst.
  intros Hv Hid Hk. unfold sc_generateAndStoreKey. rewrite Hid. rewrite Hk in Hst.
  specialize (Hst Hv Hid). eapply wp_mono; [|exact (λ a b H, H)]. revert Hst.
  unfold wp, bind. by destruct (on_openssl _ s) as [[??] ?].
Qed.

Lemma sc_importAndStoreKey_vault data keyTemplate passphrase custom V o s :
  let '(r0, key0, o') := cp_importKey data passphrase custom keyTemplate o in
  view o V s → key_identifier_error (k_identifier keyTemplate) = None →
  k_identifier key0 = k_identifier keyTemplate →
  wp (sc_importAndStoreKey data keyTemplate passphrase custom) (λ '(r, key) s', ∃ V', view o' V' s'
    ∧ stored_as r0 (set_origin OriginImported key0) V r key V') s.
Proof.
  pose proof (store_after_openssl (cp_importKey data passphrase custom keyTemplate) fst
    (λ a, set_origin OriginImported a.2) V o s) as Hst.
  destruct (cp_importKey data passphrase custom keyTemplate o) as [[r0 key0] o'] eqn:Hg. simpl in Hst.
  intros Hv Hid Hk. unfold sc_importAndStoreKey. rewrite Hid. rewrite Hk in Hst.
  specialize (Hst Hv Hid). eapply wp_mono; [|exact (λ a b H, H)]. revert Hst.
  unfold wp, bind. by destruct (on_openssl _ s) as [[??] ?].
Qed.

Lemma set_then_locked c n x fd V e :
  V !! c = Some e →
  (if negb (ve_unlocked e) then vault_key key_of c "" (vault_set c n x fd (opened_vault c V))
   else vault_set c n x fd (opened_vault c V)) = vault_set c n x fd V.
Proof.
  intros Hc. unfold vault_key, vault_set, opened_vault.
  destruct (ve_unlocked e) eqn:He; apply map_eq; intros c'; simpl;
    (destruct (decide (c' = c)) as [->|Hne]; [|by rewrite !lookup_alter_ne]);
    rewrite !lookup_alter_eq, Hc; simpl; f_equal; unfold entry_with_lock, entry_with_secrets; simpl;
    by rewrite He.
Qed.

Lemma unlocked_opened c k V e :
  accessible (P := Storing P O) c k V = Some e → unlocked_entry c (opened_vault c V) = Some (entry_with_lock true e).
Proof.
  intros Ha%accessible_lookup. unfold unlocked_entry, opened_vault.
  by rewrite lookup_alter_eq, Ha.
Qed.

(** Key, metadata and answer after storing through the wrapper: all as they
    should be, or nothing has happened to what is stored. *)
Definition key_kept md k r0 full V t (o o' : O) (r : CResult) (key : CKey) (w' : Wrapper (Storing P O))
  : Prop :=
  healthy w' ∧
  if c_ok r then r = r0 ∧ key = set_private "" "" full ∧ is_Some (accessible (P := Storing P O) (sm_collectionName md) k V)
    ∧ ∃ t', sql_insert_secret md t = Some (t', tt) ∧ settled t' w' ∧ view o' (vault_with_key full V) (m_plugin w')
  else settled t w' ∧ (view o V (m_plugin w') ∨ view o' V (m_plugin w'))
    ∧ (c_code r0 = Failed ∨ accessible (P := Storing P O) (sm_collectionName md) k V = None
       ∨ sql_insert_secret md t = None).

Lemma store_key_kept md k op ref r0 full V t o o' (w : Wrapper (Storing P O)) :
  settled t w → healthy w → view o V (m_plugin w) → c_code r0 ≠ Pending →
  ident_collectionName (k_identifier full) = sm_collectionName md →
  (∀ V s, view o V s → wp op (λ '(r, x) s', ∃ V', view o' V' s' ∧ stored_as r0 full V r x V') s) →
  wp (store_key md k op ref) (λ '(r, key) w', key_kept md k r0 full V t o o' r key w') w.
Proof.
  intros Hs Hh Hv Hd Hc Hop. eapply wp_mono.
  { apply (store_key_view view md k op ref (λ r ko x V', x = o'
      ∧ stored_as r0 full (opened_vault (sm_collectionName md) V) r ko V') o V t); try done.
    - by apply (vready_unlocked (P := P)), Hv.
    - intros s Hv'. eapply wp_mono; [by apply Hop|]. intros [r key] s' (V'&?&?). by exists o', V'. }
  intros [r key] w' [Hh' Hx]. unfold key_kept. split; [done|].
  destruct (accessible (sm_collectionName md) k V) as [e|] eqn:Ha.
  2: { destruct Hx as (->&_&?&?). split_and!; [done|by left|]. right. by left. }
  destruct (sql_insert_secret md t) as [[t' []]|].
  2: { destruct Hx as (->&_&?&?). split_and!; [done|by left|]. right. by right. }
  destruct Hx as (x'&V'&key'&[-> Hst]&->&Hs'&Hv'). unfold stored_as in Hst. rewrite Hc in Hst.
  case_bool_decide as Hf.
  { destruct Hst as [-> ->]. assert (c_ok r0 = false) as Hr by (unfold c_ok; by rewrite Hf).
    rewrite Hr in Hs' |- *. rewrite (opened_then_locked _ _ _ (accessible_lookup _ _ _ _ Ha)) in Hv'. auto. }
  rewrite (unlocked_opened _ _ _ _ Ha) in Hst. destruct Hst as (->&->&->).
  assert (c_ok r0 = true) as Hr by (unfold c_ok; by destruct (c_code r0)).
  rewrite Hr in Hs' |- *. split_and!; [done..|eauto|]. exists t'. split_and!; [done..|].
  unfold vault_with_key in Hv'. rewrite Hc in Hv'.
  rewrite (set_then_locked _ _ _ _ _ _ (accessible_lookup _ _ _ _ Ha)) in Hv'.
  unfold vault_with_key. by rewrite Hc.
Qed.
End crypto.
