(* ===== verification/CryptoKeysSpec.v ===== *)
(** Keys of the SQLCipher plugin from end to end, through the functions that run
    in its thread: what is generated or imported is kept, and a reference to it
    is as good as the key. *)
From S2P Require Import Prelude Result Sqlite MetadataDb PluginApi CryptoManager PluginWrapper.
From S2P Require Import WrapperSpec MetadataLock SqlitePlugin SqlCipherPlugin PluginFunctionWrappers.
From S2P Require Import FunctionSpec VaultSpec CryptoKey KeySerialization CryptoPluginWrapper.
From S2P Require Import CryptoFunctionWrappers CryptoWrapperSpec SqlCipherCrypto SqlCipherCryptoSpec.

Lemma wp_at {S T A} (pl : Place S T) (m : M T A) (Q : A → T → Prop) s :
  wp m Q (at_get pl s) → wp (at_ pl m) (λ a s', ∃ t, s' = at_put pl t s ∧ Q a t) s.
Proof. intros Hm. apply wp_zoom. eapply wp_mono; [exact Hm|]. eauto. Qed.

Section keys.
  Context (cfg : MetadataConfig) `{!CryptoParams, Stream : !QDataStream, !QDataStreamLaws Stream}.
  Context {P O : Type} `{EncryptedStoragePluginSpec P, !Definite P, HO : PluginBase O, !CryptoPlugin O}.
  Context {Q : Type} `{HQ : PluginBase Q, !CryptoPlugin Q} {S : Type}.
  Implicit Types (V : Vault) (key full : CKey) (o : O) (w : Wrapper (Storing P O)).
  Implicit Types (pcp : PluginPointers (P := Storing P O) (Q := Q) (S := S)).

(** * References *)

(** What an operation with a reference to a stored key comes to: the OpenSSL
    plugin's operation with the stored key, if its collection can be unlocked
    with [ck]; else a failure in which the OpenSSL plugin has no part.  What is
    stored, and what is locked, does not change. *)
Definition acts_for {A B} V key (ck : bytes) o (operation : CKey → M O (CResult * A)) (untouched : A)
  (out : A → B) (r : CResult) (b : B) w' : Prop :=
  match accessible (P := Storing P O) (ident_collectionName (k_identifier key)) ck V, referenced (P := P) V key with
  | Some _, Some full => ∃ a o', (r, a, o') = operation full o ∧ b = out a ∧ both (view o' V) w'
  | _, _ => c_ok r = false ∧ b = out untouched ∧ both (view o V) w'
  end.

Lemma use_key_acts {A B} pcp pl key ck (operation : CKey → M O (CResult * A)) plain untouched
  (out : A → B) V o s :
  pw_wrapper pcp = Some pl → meta_ok (at_get pl s) → view o V (m_plugin (at_get pl s)) →
  wp (let* '(result, a) := use_key cfg pcp true key ck (with_full_key key operation untouched)
                             plain untouched in ret (result, out a))
    (λ '(r, b) s', ∃ w', s' = at_put pl w' s ∧ acts_for V key ck o operation untouched out r b w') s.
Proof.
  intros Hpl Hm Hv. unfold use_key. rewrite Hpl. apply wp_bind.
  eapply wp_mono; [apply wp_at; by apply (use_reference_vault cfg key ck operation untouched V o)|].
  intros [r a] s' (w'&->&Hx). apply wp_ret. exists w'. split; [done|]. unfold acts_for.
  destruct (accessible _ ck V); [|by destruct Hx as (?&->&?)].
  destruct (referenced V key); [|by destruct Hx as (?&->&?)].
  destruct Hx as (o'&?&?). by exists a, o'.
Qed.

Lemma lacks_all_private key : lacks_all key = true → lacks_private key = true.
Proof. unfold lacks_all, lacks_private. by destruct (isEmpty (k_publicKey key)). Qed.

(** * From generating to using *)

(** The lock and the key of the collection do not change when a key is stored. *)
Lemma accessible_with_key c ck full V e :
  accessible (P := Storing P O) c ck V = Some e →
  is_Some (accessible (P := Storing P O) c ck (vault_with_key full V)).
Proof.
  unfold accessible, vault_with_key, vault_set. intros Ha.
  destruct (decide (c = ident_collectionName (k_identifier full))) as [->|Hne];
    [|rewrite lookup_alter_ne by done; by eexists].
  rewrite lookup_alter_eq. destruct (V !! _) as [e'|]; [|done]. simpl in *.
  unfold fits in *. simpl. by destruct (_ || _).
Qed.

Lemma opened_with_key full V :
  opened_vault (ident_collectionName (k_identifier full)) (vault_with_key full V)
  = vault_with_key full (opened_vault (ident_collectionName (k_identifier full)) V).
Proof.
  unfold opened_vault, vault_with_key, vault_set. apply map_eq. intros c'.
  destruct (decide (c' = ident_collectionName (k_identifier full))) as [->|Hne].
  - rewrite !lookup_alter_eq. by destruct (V !! _).
  - by rewrite !lookup_alter_ne.
Qed.

(** A key that names the plugin in its identifier. *)
Definition own_identifier (id : Identifier) : Prop :=
  key_identifier_error id = None ∧ ident_storagePluginName id = sc_name (P := P).

Lemma referenced_stored key full ck V e :
  key_wf full → own_identifier (k_identifier full) → k_identifier key = k_identifier full →
  accessible (P := Storing P O) (ident_collectionName (k_identifier full)) ck V = Some e →
  referenced (P := P) (vault_with_key full V) key = Some full.
Proof.
  intros Hwf [Hid Hname] Hk Ha. unfold referenced, full_key. rewrite Hk, Hname.
  pose proof (key_identifier_names _ Hid) as [Hn _]. unfold isEmpty.
  rewrite (bool_decide_false _ Hn), bool_decide_true by done. cbn [negb andb].
  rewrite opened_with_key. unfold vault_with_key.
  rewrite (stored_key_set (P := P)); [|done..|rewrite (unlocked_opened _ _ _ _ Ha); by eexists].
  f_equal. destruct full as [[n c p]]. simpl in *. unfold set_identifier. simpl. by subst p.
Qed.

(** The metadata of the collection are read in front of storing. *)
Lemma with_key_metadata_good keyTemplate plugin store V o t row
  (R : CResult * CKey → Wrapper (Storing P O) → Prop) w :
  let c := ident_collectionName (k_identifier keyTemplate) in
  settled t w → healthy w → view o V (m_plugin w) → collections t !! c = Some row →
  (∀ w', settled t w' → healthy w' → view o V (m_plugin w') →
     wp (store (key_metadata keyTemplate (read_collection noCollectionMetadata row) plugin) keyTemplate) R w') →
  wp (with_key_metadata keyTemplate plugin store) R w.
Proof.
  intros c Hs Hh [Hv Ho] Hrow Hst. unfold with_key_metadata. apply wp_bind.
  unfold wrapper_collectionMetadata. apply wp_bind.
  eapply wp_mono; [by apply (isMasterLocked_spec t)|]. intros b w1 (Hs1&[Hp1 _]&Hh1).
  destruct (Hh1 Hh) as [Hg1 ->]. apply wp_bind, wp_zoom.
  eapply wp_mono; [by apply collectionMetadata_good|]. intros [r [md ex]] db' (Hok&Hi&Hg&Hmd).
  fold c in Hmd. rewrite Hrow in Hmd. injection Hmd as -> ->. apply wp_ret. rewrite Hok. cbn [negb].
  apply Hst; [done..|]. simpl. by rewrite Hp1.
Qed.

(** Generating and importing, as the daemon does it: in terms of what the
    OpenSSL plugin makes. *)
Lemma cf_generateAndStoreKey_kept custom plugin keyTemplate g d ck V o t row w :
  let '(r0, key0, o') := cp_generateKey keyTemplate g d custom o in
  settled t w → healthy w → view o V (m_plugin w) →
  collections t !! ident_collectionName (k_identifier keyTemplate) = Some row →
  key_identifier_error (k_identifier keyTemplate) = None →
  k_identifier (default keyTemplate key0) = k_identifier keyTemplate → c_code r0 ≠ Pending →
  wp (cf_generateAndStoreKey custom plugin keyTemplate g d ck) (λ '(r, key) w',
    key_kept (key_metadata keyTemplate (read_collection noCollectionMetadata row) plugin) ck r0
      (default keyTemplate key0) V t o o' r key w') w.
Proof.
  pose proof (λ V s, sc_generateAndStoreKey_vault (P := P) keyTemplate g d custom V o s) as Hop.
  destruct (cp_generateKey keyTemplate g d custom o) as [[r0 key0] o'].
  intros Hs Hh Hv Hrow Hid Hk Hd. unfold cf_generateAndStoreKey.
  eapply with_key_metadata_good; [done..|]. intros w' Hs' Hh' Hv'. unfold cw_generateAndStoreKey.
  eapply store_key_kept; try done; [by rewrite Hk|]. intros V1 s1 Hv1. by apply Hop.
Qed.

Lemma cf_importAndStoreKey_kept custom plugin keyTemplate data passphrase ck V o t row w :
  let '(r0, key0, o') := cp_importKey data passphrase custom keyTemplate o in
  settled t w → healthy w → view o V (m_plugin w) →
  collections t !! ident_collectionName (k_identifier keyTemplate) = Some row →
  key_identifier_error (k_identifier keyTemplate) = None →
  k_identifier key0 = k_identifier keyTemplate → c_code r0 ≠ Pending →
  wp (cf_importAndStoreKey custom plugin data keyTemplate passphrase ck) (λ '(r, key) w',
    key_kept (key_metadata keyTemplate (read_collection noCollectionMetadata row) plugin) ck r0
      (set_origin OriginImported key0) V t o o' r key w') w.
Proof.
  pose proof (λ V s, sc_importAndStoreKey_vault (P := P) data keyTemplate passphrase custom V o s) as Hop.
  destruct (cp_importKey data passphrase custom keyTemplate o) as [[r0 key0] o'].
  intros Hs Hh Hv Hrow Hid Hk Hd. unfold cf_importAndStoreKey.
  eapply with_key_metadata_good; [done..|]. intros w' Hs' Hh' Hv'. unfold cw_importAndStoreKey.
  eapply store_key_kept; try done; [simpl; by rewrite Hk|]. intros V1 s1 Hv1. by apply Hop.
Qed.
End keys.

(** * Keys and the state of the wrapper *)
Section sign_later.
  Context (cfg : MetadataConfig) `{!CryptoParams, Stream : !QDataStream, !QDataStreamLaws Stream}.
  Context {P O : Type} `{EncryptedStoragePluginSpec P, !Definite P, HO : PluginBase O, !CryptoPlugin O}.
  Context {Q : Type} `{HQ : PluginBase Q, !CryptoPlugin Q}.

(** The wrapper itself as the place the pointers lead to. *)
Definition the_wrapper (custom : Custom)
  : PluginPointers (P := Storing P O) (Q := Q) (S := Wrapper (Storing P O)) :=
  mkPointers None (Some (mkPlace id (λ w _, w))) custom.

Lemma key_kept_signs md ck r0 full V t (o o' : O) r key (w : Wrapper (Storing P O)) data options custom :
  key_kept md ck r0 full V t o o' r key w → c_ok r = true →
  key_wf full → own_identifier (P := P) (k_identifier full) →
  sm_collectionName md = ident_collectionName (k_identifier full) →
  wp (cf_sign cfg (the_wrapper custom) data key ck options) (λ '(r', sig) w',
    ∃ a o2, (r', a, o2) = cp_sign data full options custom o' ∧ sig = default "" a
      ∧ both (view o2 (vault_with_key full V)) w') w.
Proof.
  intros [Hh Hk] Hr Hwf Hid Hc. rewrite Hr in Hk. destruct Hk as (_&->&[e Ha]&t'&_&Hs&Hv).
  rewrite Hc in Ha. unfold cf_sign. change (lacks_private (set_private "" "" full)) with true.
  eapply wp_mono; [apply (use_key_acts cfg (P := P) _ (mkPlace id (λ w _, w)) _ ck
    (λ k, cp_sign data k options custom) _ None (default "") (vault_with_key full V) o'); [done| |done]|].
  { split; [exact Hh|]. by exists t'. }
  intros [r' sig] w' (w''&->&Hx). unfold acts_for in Hx. simpl in Hx.
  destruct (accessible_with_key _ _ full _ _ Ha) as [e' He'].
  rewrite He', (referenced_stored (P := P) (O := O) (set_private "" "" full) full ck V e) in Hx; done.
Qed.
End sign_later.

(** * The SQLCipher plugin answers every request at once, whatever the engine
    does: the instance of [Definite] for it. *)

(** An operation that never answers Pending. *)
Definition at_once {S A} (result : A → Result) (m : M S A) : Prop :=
  ∀ s, wp m (λ a _, code (result a) ≠ Pending) s.

Section rules.
  Context {S A : Type} (result : A → Result).

Lemma at_once_ret a : code (result a) ≠ Pending → at_once result (ret (S := S) a).
Proof. intros Ha s. by apply wp_ret. Qed.

Lemma at_once_bind {B} (m : M S B) (k : B → M S A) :
  (∀ b, at_once result (k b)) → at_once result (bind m k).
Proof. intros Hk s. apply wp_bind. unfold wp at 1. apply Hk. Qed.

Lemma at_once_zoom {T} (get : T → S) put (m : M S A) :
  at_once result m → at_once result (zoom get put m).
Proof. intros Hm t. apply wp_zoom. apply Hm. Qed.
End rules.

Lemma error_not_pending e text : code (result_error e text) ≠ Pending.
Proof. unfold result_error. simpl. by case_match. Qed.

(** Walk through an operation; only what it returns matters. *)
Ltac answers :=
  intros;
  lazymatch goal with
  | |- at_once _ (bind _ _) => apply at_once_bind; answers
  | |- at_once _ (zoom _ _ _) => apply at_once_zoom; answers
  | |- at_once _ (let '_ := ?x in _) => destruct x; answers
  | |- at_once _ (if ?b then _ else _) => destruct b; answers
  | |- at_once _ (match ?x with _ => _ end) => destruct x eqn:?; answers
  | |- at_once _ (ret _) => apply at_once_ret; simpl; first [done|apply error_not_pending]
  | |- _ => idtac
  end.

Section cipher.
  Context `{CipherEnv}.

Lemma secret_name_error_definite c s e : secret_name_error c s = Some e → code e ≠ Pending.
Proof. unfold secret_name_error. repeat case_match; intros [= <-]; apply error_not_pending. Qed.

Lemma with_collection_at_once {A} (result : A → Result) c err k :
  (∀ e, result (err e) = e) → at_once result k → at_once result (with_collection c err k).
Proof.
  intros Herr Hk. apply at_once_bind. intros p. destruct (opened c p); [by apply at_once_zoom|].
  apply at_once_ret. rewrite Herr. destruct (exists_file c p); apply error_not_pending.
Qed.

Lemma set_in_database_at_once s x fd : at_once id (set_in_database s x fd).
Proof. unfold set_in_database, cipher_finish. answers. Qed.

Lemma get_in_database_at_once s : at_once fst (get_in_database s).
Proof. unfold get_in_database. answers. Qed.

#[export] Instance cipher_definite : Definite SqlCipher.
Proof.
  split.
  - intros c b. change (at_once fst (cipher_isCollectionLocked c b)).
    unfold cipher_isCollectionLocked. answers.
  - intros c k. change (at_once id (cipher_setEncryptionKey c k)).
    unfold cipher_setEncryptionKey, openCollectionDatabase. answers.
  - intros c s x fd. change (at_once id (cipher_setSecret c s x fd)). unfold cipher_setSecret.
    destruct (secret_name_error c s) eqn:He.
    + apply at_once_ret. by eapply secret_name_error_definite.
    + apply with_collection_at_once; [done|apply set_in_database_at_once].
  - intros c s. change (at_once fst (cipher_getSecret c s)). unfold cipher_getSecret.
    destruct (secret_name_error c s) eqn:He.
    + apply at_once_ret. by eapply secret_name_error_definite.
    + apply with_collection_at_once; [done|apply get_in_database_at_once].
Qed.
End cipher.
