(* ===== verification/CryptoProcessor.v ===== *)
(** The request processor of the crypto service
    (daemon/CryptoImpl/cryptorequestprocessor.cpp).

    A handler runs in the main thread.  It checks its arguments, asks the secrets
    service for something (secretscryptohelpers.cpp), registers the request as
    pending until the secrets service has answered, starts an operation of a
    crypto plugin in the thread of the plugin and goes on when it has finished,
    and in the end returns a result or reports the request as finished.  It is a
    finite tree of these effects.

    Names start with [rp_].  The texts shown to the user and the echo mode are
    left out. *)
From S2P Require Import Prelude Result MetadataDb PluginApi CryptoManager PluginWrapper.
From S2P Require Import PluginFunctionWrappers Processor SecretsService CryptoKey KeySerialization.
From S2P Require Import CryptoPluginWrapper CryptoFunctionWrappers.

(** [InteractionParameters::Operation]: operations that the crypto service
    names. *)
Definition DeriveKey : Operation := OtherOperation 16777216.
Definition ImportKey : Operation := OtherOperation 67108864.
Definition LockPlugin : Operation := OtherOperation 32.

(** * Requests *)

(** [RequestType] (crypto_p.h), without the ending [Request]. *)
Inductive CryptoRequestType :=
  | RInvalid
  | RGetPluginInfo
  | RGenerateRandomData
  | RSeedRandomDataGenerator
  | RGenerateInitializationVector
  | RGenerateKey
  | RGenerateStoredKey
  | RImportKey
  | RImportStoredKey
  | RStoredKey
  | RDeleteStoredKey
  | RStoredKeyIdentifiers
  | RCalculateDigest
  | RSign
  | RVerify
  | REncrypt
  | RDecrypt
  | RInitializeCipherSession
  | RUpdateCipherSessionAuthentication
  | RUpdateCipherSession
  | RFinalizeCipherSession
  | RQueryLockStatus
  | RModifyLockCode
  | RProvideLockCode
  | RForgetLockCode.

#[global] Instance CryptoRequestType_eq_dec : EqDecision CryptoRequestType.
Proof. solve_decision. Defined.

(** [QVariant]: the types that the crypto service puts into one. *)
Inductive CVariant :=
  | CVNumber (n : Z)
  | CVPid (pid : Z)
  | CVDouble (d : Z)
  | CVString (s : string)
  | CVBytes (b : bytes)
  | CVCollectionKey (k : Key)
  | CVMap (m : QVariantMap)
  | CVKey (k : CKey)
  | CVIdentifier (i : Identifier)
  | CVIdentifiers (l : list Identifier)
  | CVComponents (c : Z)
  | CVAlgorithm (a : Z)
  | CVBlockMode (b : Z)
  | CVEncryptionPadding (p : Z)
  | CVSignaturePadding (p : Z)
  | CVDigestFunction (d : Z)
  | CVOperation (o : Z)
  | CVVerificationStatus (s : Z)
  | CVKeyPair (p : KeyPairParameters)
  | CVKeyDerivation (p : KeyDerivationParameters)
  | CVInteraction (ip : InteractionParameters)
  | CVTargetType (t : LockCodeTargetType)
  | CVLockStatus (s : LockStatus)
  | CVUninitialized.

(** [QVariant::value] *)
Definition cv_number v := match v with CVNumber n => Some n | _ => None end.
Definition cv_pid v := match v with CVPid n => Some n | _ => None end.
Definition cv_double v := match v with CVDouble n => Some n | _ => None end.
Definition cv_string v := match v with CVString s => Some s | _ => None end.
Definition cv_bytes v := match v with CVBytes b => Some b | _ => None end.
Definition cv_collectionKey v := match v with CVCollectionKey k => Some k | _ => None end.
Definition cv_map v := match v with CVMap m => Some m | _ => None end.
Definition cv_key v := match v with CVKey k => Some k | _ => None end.
Definition cv_identifier v := match v with CVIdentifier i => Some i | _ => None end.
Definition cv_components v := match v with CVComponents c => Some c | _ => None end.
Definition cv_algorithm v := match v with CVAlgorithm a => Some a | _ => None end.
Definition cv_blockMode v := match v with CVBlockMode b => Some b | _ => None end.
Definition cv_encryptionPadding v := match v with CVEncryptionPadding p => Some p | _ => None end.
Definition cv_signaturePadding v := match v with CVSignaturePadding p => Some p | _ => None end.
Definition cv_digestFunction v := match v with CVDigestFunction d => Some d | _ => None end.
Definition cv_operation v := match v with CVOperation o => Some o | _ => None end.
Definition cv_keyPair v := match v with CVKeyPair p => Some p | _ => None end.
Definition cv_keyDerivation v := match v with CVKeyDerivation p => Some p | _ => None end.
Definition cv_interaction v := match v with CVInteraction ip => Some ip | _ => None end.
Definition cv_targetType v := match v with CVTargetType t => Some t | _ => None end.

(** [RequestProcessor::PendingRequest] *)
Record CryptoPending := mkCryptoPending {
  cpr_callerPid : Z;
  cpr_requestId : Z;
  cpr_requestType : CryptoRequestType;
  cpr_parameters : list CVariant;
}.

(** * Effects *)

(** The functions of cryptopluginfunctionwrappers.cpp that are run in the thread
    of a plugin.  The first argument is the name of the plugin; the functions
    that use a key also get the wrapper of that name, if there is one. *)
Inductive CryptoOp : Type → Type :=
  | K_generateRandomData (p : string) (custom : QVariantMap) (callerIdent : Z)
      (csprngEngineName : string) (numberBytes : Z) : CryptoOp (CResult * bytes)
  | K_seedRandomDataGenerator (p : string) (custom : QVariantMap) (callerIdent : Z)
      (csprngEngineName : string) (seedData : bytes) (entropyEstimate : Z) : CryptoOp CResult
  | K_generateInitializationVector (p : string) (custom : QVariantMap)
      (algorithm blockMode keySize : Z) : CryptoOp (CResult * bytes)
  | K_generateKey (p : string) (custom : QVariantMap) (keyTemplate : CKey)
      (kpgParams : KeyPairParameters) (skdfParams : KeyDerivationParameters) : CryptoOp (CResult * CKey)
  | K_generateAndStoreKey (p : string) (custom : QVariantMap) (keyTemplate : CKey)
      (kpgParams : KeyPairParameters) (skdfParams : KeyDerivationParameters)
      (collectionUnlockCode : Key) : CryptoOp (CResult * CKey)
  | K_importKey (p : string) (custom : QVariantMap) (data passphrase : bytes)
      : CryptoOp (CResult * CKey)
  | K_importAndStoreKey (p : string) (custom : QVariantMap) (data : bytes) (keyTemplate : CKey)
      (passphrase : bytes) (collectionDecryptionKey : Key) : CryptoOp (CResult * CKey)
  | K_storedKey (p : string) (identifier : Identifier) (keyComponents : Z) (custom : QVariantMap)
      : CryptoOp (CResult * CKey)
  | K_calculateDigest (p : string) (custom : QVariantMap) (data : bytes)
      (options : SignatureOptions) : CryptoOp (CResult * bytes)
  | K_sign (p : string) (custom : QVariantMap) (data : bytes) (key : CKey) (collectionKey : Key)
      (options : SignatureOptions) : CryptoOp (CResult * bytes)
  | K_verify (p : string) (custom : QVariantMap) (signature data : bytes) (key : CKey)
      (collectionKey : Key) (options : SignatureOptions) : CryptoOp (CResult * Z)
  | K_encrypt (p : string) (custom : QVariantMap) (data iv : bytes) (key : CKey)
      (collectionKey : Key) (options : EncryptionOptions) (authenticationData : bytes)
      : CryptoOp (CResult * (bytes * bytes))
  | K_decrypt (p : string) (custom : QVariantMap) (data iv : bytes) (key : CKey)
      (collectionKey : Key) (options : EncryptionOptions) (authData tag : bytes)
      : CryptoOp (CResult * (bytes * Z))
  | K_initializeCipherSession (p : string) (custom : QVariantMap) (clientId : Z) (iv : bytes)
      (key : CKey) (collectionKey : Key) (options : CipherSessionOptions) : CryptoOp (CResult * Z)
  | K_updateCipherSessionAuthentication (p : string) (custom : QVariantMap) (clientId : Z)
      (authenticationData : bytes) (cipherSessionToken : Z) : CryptoOp CResult
  | K_updateCipherSession (p : string) (custom : QVariantMap) (clientId : Z) (data : bytes)
      (cipherSessionToken : Z) : CryptoOp (CResult * bytes)
  | K_finalizeCipherSession (p : string) (custom : QVariantMap) (clientId : Z) (data : bytes)
      (cipherSessionToken : Z) : CryptoOp (CResult * (bytes * Z)).

(** Handlers.  A result that is returned or reported comes with the values of
    the output parameters. *)
Inductive CHandler :=
  | CReturn (r : CResult) (out : list CVariant)
  | CFinish (r : CResult) (out : list CVariant)    (* [requestFinished], the last action *)
  | CCrash                                         (* a call on a null pointer, or of [takeFirst] on an empty list *)
  | CMismatch                                      (* a [QVariant] of another type was expected *)
  | CPark (p : CryptoPending) (h : CHandler)       (* [m_pendingRequests.insert] *)
  | CTake (k : option CryptoPending → CHandler)    (* [m_pendingRequests.take(requestId)] *)
  | CSecrets (c : CryptoHelperCall) (k : Result → CHandler)
  | CRun {A} (op : CryptoOp A) (k : A → CHandler).

(** A function that returns a result is called in a callback, which reports the
    request as finished unless the result is [Pending]. *)
Fixpoint rp_finishing (out : list CVariant) (h : CHandler) : CHandler :=
  match h with
  | CReturn r _ => if bool_decide (c_code r = Pending) then h else CFinish r out
  | CPark p h => CPark p (rp_finishing out h)
  | CTake k => CTake (λ p, rp_finishing out (k p))
  | CSecrets c k => CSecrets c (λ r, rp_finishing out (k r))
  | CFinish _ _ | CCrash | CMismatch | CRun _ _ => h
  end.

Definition c_pending : CHandler := CReturn (cresult_of_code Pending) [].
Definition c_fail (e : Z) (message : string) : CHandler := CReturn (cresult_error e message) [].

Definition c_failed (r : CResult) : bool := bool_decide (c_code r = Failed).
Definition c_is_pending (r : CResult) : bool := bool_decide (c_code r = Pending).

Notation "'crun*' x ':=' m 'in' k" := (CRun m (λ x, k))
  (at level 10, x name, m at level 100, k at level 200) : sfs_scope.
Notation "'crun*' ' p ':=' m 'in' k" := (CRun m (λ y, let 'p := y in k))
  (at level 10, p strict pattern, m at level 100, k at level 200) : sfs_scope.
Notation "'secrets*' x ':=' m 'in' k" := (CSecrets m (λ x, k))
  (at level 10, x name, m at level 100, k at level 200) : sfs_scope.

(** What does not change while the daemon runs, besides [Environment]: the
    crypto plugins, and whether they can store keys. *)
Section processor.
  Context `{!QDataStream} (env : Environment) (m_cryptoPlugins : gmap string bool).

(** [m_secrets->storagePluginNames().contains], for either kind. *)
Definition rp_isStorage (p : string) : bool :=
  bool_decide (p ∈ m_encryptedStoragePlugins env) || bool_decide (p ∈ m_storagePlugins env).

(** [m_secrets->cryptoStoragePluginWrapper(p)] is not null. *)
Definition rp_hasWrapper (p : string) : bool := bool_decide (p ∈ m_cryptoStoragePlugins env).

Definition rp_canStore (p : string) : bool := default false (m_cryptoPlugins !! p).

(** The guard of the requests that name a plugin. *)
Definition rp_with_plugin (p : string) (h : CHandler) : CHandler :=
  if bool_decide (m_cryptoPlugins !! p = None) then
    c_fail InvalidCryptographicServiceProvider "No such cryptographic service provider plugin exists"
  else h.

(** * Random data *)

(** [generateRandomData] *)
Definition rp_generateRandomData (callerPid requestId numberBytes : Z) (csprngEngineName : string)
  (customParameters : QVariantMap) (cryptosystemProviderName : string) : CHandler :=
  rp_with_plugin cryptosystemProviderName
    (crun* '(result, data) :=
       K_generateRandomData cryptosystemProviderName customParameters callerPid csprngEngineName
         numberBytes in
     CFinish result [CVBytes data]).

(** [seedRandomDataGenerator] *)
Definition rp_seedRandomDataGenerator (callerPid requestId : Z) (seedData : bytes)
  (entropyEstimate : Z) (csprngEngineName : string) (customParameters : QVariantMap)
  (cryptosystemProviderName : string) : CHandler :=
  rp_with_plugin cryptosystemProviderName
    (crun* result :=
       K_seedRandomDataGenerator cryptosystemProviderName customParameters callerPid
         csprngEngineName seedData entropyEstimate in
     CFinish result []).

(** [generateInitializationVector] *)
Definition rp_generateInitializationVector (callerPid requestId algorithm blockMode keySize : Z)
  (customParameters : QVariantMap) (cryptosystemProviderName : string) : CHandler :=
  rp_with_plugin cryptosystemProviderName
    (crun* '(result, data) :=
       K_generateInitializationVector cryptosystemProviderName customParameters algorithm blockMode
         keySize in
     CFinish result [CVBytes data]).

(** * Generating keys *)

(** [generateKey] *)
Definition rp_generateKey (callerPid requestId : Z) (keyTemplate : CKey)
  (kpgParams : KeyPairParameters) (skdfParams : KeyDerivationParameters)
  (customParameters : QVariantMap) (cryptosystemProviderName : string) : CHandler :=
  rp_with_plugin cryptosystemProviderName
    (crun* '(result, key) :=
       K_generateKey cryptosystemProviderName customParameters keyTemplate kpgParams skdfParams in
     CFinish result [CVKey key]).

(** The guards that [generateStoredKey] and [importStoredKey] share. *)
Definition rp_template_guards (keyTemplate : CKey) (cryptosystemProviderName : string)
  (h : CHandler) : CHandler :=
  let i := k_identifier keyTemplate in
  if isEmpty (ident_name i) then
    c_fail InvalidKeyIdentifier "Template key identifier has empty name"
  else if isEmpty (ident_collectionName i) then
    c_fail InvalidKeyIdentifier "Template key identifier has empty collection name"
  else if bool_decide (ident_collectionName i = "standalone") then
    c_fail InvalidKeyIdentifier "Template key identifier has invalid collection name"
  else if isEmpty cryptosystemProviderName then
    c_fail InvalidCryptographicServiceProvider
      "Empty cryptographic service provider plugin name given"
  else if bool_decide (m_cryptoPlugins !! cryptosystemProviderName = None) then
    c_fail InvalidCryptographicServiceProvider
      "No such cryptographic service provider plugin exists"
  else if isEmpty (ident_storagePluginName i) then
    c_fail InvalidStorageProvider "Empty storage plugin name specified in key template identifier"
  else if negb (rp_isStorage (ident_storagePluginName i)) then
    c_fail InvalidStorageProvider "Unknown storage plugin name specified in key template identifier"
  else if bool_decide (cryptosystemProviderName = ident_storagePluginName i)
          && negb (rp_canStore cryptosystemProviderName) then
    c_fail StorageError "The specified cryptographic service provider cannot store keys"
  else h.

(** Check for existence of the collection and for duplicate secrets. *)
Definition rp_storeKeyPreCheck (keyTemplate : CKey) (pending : CryptoPending) : CHandler :=
  secrets* r := HStoreKeyPreCheck (k_identifier keyTemplate) in
  if c_failed (transformSecretsResult r) then CReturn (transformSecretsResult r) []
  else CPark pending c_pending.

(** [generateStoredKey] *)
Definition rp_generateStoredKey (callerPid requestId : Z) (keyTemplate : CKey)
  (kpgParams : KeyPairParameters) (skdfParams : KeyDerivationParameters)
  (uiParams : InteractionParameters) (customParameters : QVariantMap)
  (cryptosystemProviderName : string) : CHandler :=
  rp_template_guards keyTemplate cryptosystemProviderName
    (rp_storeKeyPreCheck keyTemplate
       (mkCryptoPending callerPid requestId RGenerateStoredKey
          [CVKey keyTemplate; CVKeyPair kpgParams; CVKeyDerivation skdfParams;
           CVInteraction uiParams; CVMap customParameters; CVString cryptosystemProviderName])).

(** A key without its private parts. *)
Definition rp_partialKey (key : CKey) : CKey := set_private "" "" key.

(** [generateStoredKey_inStoragePlugin] *)
Definition rp_generateStoredKey_inStoragePlugin (callerPid requestId : Z) (result : CResult)
  (fullKey : CKey) : CHandler :=
  CFinish result [CVKey (rp_partialKey fullKey)].

(** [generateStoredKey_inCryptoPlugin] *)
Definition rp_generateStoredKey_inCryptoPlugin (callerPid requestId : Z) (keyTemplate : CKey)
  (kpgParams : KeyPairParameters) (skdfParams : KeyDerivationParameters)
  (customParameters : QVariantMap) (cryptosystemProviderName : string)
  (collectionDecryptionKey : Key) : CHandler :=
  if negb (rp_hasWrapper cryptosystemProviderName) then CCrash
  else
    crun* '(result, key) :=
      K_generateAndStoreKey cryptosystemProviderName customParameters keyTemplate kpgParams
        skdfParams collectionDecryptionKey in
    CFinish result [CVKey (rp_partialKey key)].

(** [generateStoredKey_withKdfData], which always returns [Pending] *)
Definition rp_generateStoredKey_withKdfData (callerPid requestId : Z) (keyTemplate : CKey)
  (kpgParams : KeyPairParameters) (skdfParams : KeyDerivationParameters)
  (customParameters : QVariantMap) (cryptosystemProviderName : string)
  (collectionDecryptionKey : Key) : CHandler :=
  if bool_decide (ident_storagePluginName (k_identifier keyTemplate) = cryptosystemProviderName)
  then
    rp_generateStoredKey_inCryptoPlugin callerPid requestId keyTemplate kpgParams skdfParams
      customParameters cryptosystemProviderName collectionDecryptionKey
  else
    crun* '(result, key) :=
      K_generateKey cryptosystemProviderName customParameters keyTemplate kpgParams skdfParams in
    if c_failed result then CFinish result []
    else
      secrets* r := HStoreKey (k_identifier key) (serialize key LossySerializationMode)
                      (k_filterData key) collectionDecryptionKey in
      if c_failed (transformSecretsResult r) then CFinish (transformSecretsResult r) []
      else CPark (mkCryptoPending callerPid requestId RGenerateStoredKey [CVKey key]) c_pending.

(** [generateStoredKey_afterPreCheck] *)
Definition rp_generateStoredKey_afterPreCheck (callerPid requestId : Z) (keyTemplate : CKey)
  (kpgParams : KeyPairParameters) (skdfParams : KeyDerivationParameters)
  (uiParams : InteractionParameters) (customParameters : QVariantMap)
  (cryptosystemProviderName : string) (preCheckResult : CResult) (collectionDecryptionKey : Key)
  : CHandler :=
  if negb (c_ok preCheckResult) then
    rp_finishing [CVKey keyTemplate] (CReturn preCheckResult [])
  else if negb (kdf_isValid skdfParams) || negb (ip_isValid uiParams) then
    rp_finishing [CVKey keyTemplate]
      (rp_generateStoredKey_withKdfData callerPid requestId keyTemplate kpgParams skdfParams
         customParameters cryptosystemProviderName collectionDecryptionKey)
  else
    let i := k_identifier keyTemplate in
    secrets* r :=
      HUserInput (mkInteraction (ident_name i) (ident_collectionName i) (ident_storagePluginName i)
        "" DeriveKey (ip_authenticationPluginName uiParams) (ip_inputType uiParams)) in
    let result := transformSecretsResult r in
    if c_is_pending result then
      CPark (mkCryptoPending callerPid requestId RGenerateStoredKey
               [CVKey keyTemplate; CVKeyPair kpgParams; CVKeyDerivation skdfParams;
                CVMap customParameters; CVString cryptosystemProviderName;
                CVCollectionKey collectionDecryptionKey])
        c_pending
    else CFinish result [CVKey keyTemplate].

(** [generateStoredKey_withInputData] *)
Definition rp_generateStoredKey_withInputData (callerPid requestId : Z) (result : CResult)
  (keyTemplate : CKey) (kpgParams : KeyPairParameters) (skdfParams : KeyDerivationParameters)
  (customParameters : QVariantMap) (cryptosystemProviderName : string)
  (collectionDecryptionKey : Key) : CHandler :=
  rp_finishing [CVKey keyTemplate]
    (if c_ok result then
       rp_generateStoredKey_withKdfData callerPid requestId keyTemplate kpgParams skdfParams
         customParameters cryptosystemProviderName collectionDecryptionKey
     else CReturn result []).

(** * Importing keys *)

(** [promptForKeyPassphrase] *)
Definition rp_promptForKeyPassphrase (key : CKey) (uiParams : InteractionParameters)
  (k : CResult → CHandler) : CHandler :=
  let i := k_identifier key in
  secrets* r :=
    HUserInput
      (if identifier_isValid i then
         mkInteraction (ident_name i) (ident_collectionName i) "" "" ImportKey
           (ip_authenticationPluginName uiParams) (ip_inputType uiParams)
       else
         mkInteraction "" "" "" "" ImportKey (ip_authenticationPluginName uiParams)
           (ip_inputType uiParams)) in
  k (transformSecretsResult r).

(** A passphrase is missing or wrong, and the user can be asked for one. *)
Definition rp_needsPassphrase (result : CResult) (uiParams : InteractionParameters) : bool :=
  c_failed result && bool_decide (c_errorCode result = CryptoPluginIncorrectPassphrase)
  && ip_isValid uiParams.

(** [importKey] *)
Definition rp_importKey (callerPid requestId : Z) (data : bytes) (uiParams : InteractionParameters)
  (customParameters : QVariantMap) (cryptosystemProviderName : string) (passphrase : bytes)
  : CHandler :=
  rp_with_plugin cryptosystemProviderName
    (crun* '(result, outputKey) :=
       K_importKey cryptosystemProviderName customParameters data passphrase in
     let conclude (result : CResult) : CHandler :=
       let outputKey := if c_failed result then outputKey else set_origin OriginImported outputKey in
       if c_is_pending result then
         CPark (mkCryptoPending callerPid requestId RImportKey
                  [CVBytes data; CVInteraction uiParams; CVMap customParameters;
                   CVString cryptosystemProviderName])
           c_pending
       else CFinish result [CVKey outputKey] in
     if rp_needsPassphrase result uiParams
     then rp_promptForKeyPassphrase noCKey uiParams conclude
     else conclude result).

(** [importKey_withPassphrase] *)
Definition rp_importKey_withPassphrase (callerPid requestId : Z) (data : bytes)
  (uiParams : InteractionParameters) (customParameters : QVariantMap)
  (cryptosystemProviderName : string) (result : CResult) (passphrase : bytes) : CHandler :=
  rp_finishing [CVKey noCKey]
    (if c_ok result then
       rp_importKey callerPid requestId data uiParams customParameters cryptosystemProviderName
         passphrase
     else CReturn result []).

(** [importStoredKey] *)
Definition rp_importStoredKey (callerPid requestId : Z) (data : bytes) (keyTemplate : CKey)
  (uiParams : InteractionParameters) (customParameters : QVariantMap)
  (cryptosystemProviderName : string) : CHandler :=
  rp_template_guards keyTemplate cryptosystemProviderName
    (rp_storeKeyPreCheck keyTemplate
       (mkCryptoPending callerPid requestId RImportStoredKey
          [CVBytes data; CVKey keyTemplate; CVInteraction uiParams; CVMap customParameters;
           CVString cryptosystemProviderName])).

(** The request as it waits for a passphrase. *)
Definition rp_importStoredKey_pending (callerPid requestId : Z) (data : bytes) (keyTemplate : CKey)
  (uiParams : InteractionParameters) (customParameters : QVariantMap)
  (cryptosystemProviderName : string) (collectionDecryptionKey : Key) : CryptoPending :=
  mkCryptoPending callerPid requestId RImportStoredKey
    [CVBytes data; CVKey keyTemplate; CVInteraction uiParams; CVMap customParameters;
     CVString cryptosystemProviderName; CVCollectionKey collectionDecryptionKey].

(** [importStoredKey_withPassphrase] *)
Definition rp_importStoredKey_withPassphrase (callerPid requestId : Z) (data : bytes)
  (keyTemplate : CKey) (uiParams : InteractionParameters) (customParameters : QVariantMap)
  (cryptosystemProviderName : string) (collectionDecryptionKey : Key) (passphraseResult : CResult)
  (passphrase : bytes) : CHandler :=
  let pending :=
    rp_importStoredKey_pending callerPid requestId data keyTemplate uiParams customParameters
      cryptosystemProviderName collectionDecryptionKey in
  if negb (c_ok passphraseResult) then CFinish passphraseResult [CVKey keyTemplate]
  else if bool_decide (cryptosystemProviderName = ident_storagePluginName (k_identifier keyTemplate))
  then
    if negb (rp_hasWrapper cryptosystemProviderName) then CCrash
    else
      crun* '(outputResult, outputKey) :=
        K_importAndStoreKey cryptosystemProviderName customParameters data keyTemplate passphrase
          collectionDecryptionKey in
      if rp_needsPassphrase outputResult uiParams then
        rp_promptForKeyPassphrase keyTemplate uiParams (λ outputResult,
          if c_is_pending outputResult then CPark pending c_pending
          else CFinish outputResult [CVKey outputKey])
      else
        rp_finishing
          [CVKey (if c_failed outputResult then outputKey else set_origin OriginImported outputKey)]
          (CReturn outputResult [])
  else
    crun* '(result, outputKey) :=
      K_importKey cryptosystemProviderName customParameters data passphrase in
    if rp_needsPassphrase result uiParams then CPark pending c_pending
    else if c_ok result then
      let outputKey := set_origin OriginImported outputKey in
      secrets* r := HStoreKey (k_identifier outputKey) (serialize outputKey LossySerializationMode)
                      (k_filterData outputKey) collectionDecryptionKey in
      let result := transformSecretsResult r in
      if negb (c_failed result) then
        CPark (mkCryptoPending callerPid requestId RImportStoredKey [CVKey keyTemplate])
          (rp_finishing [CVKey outputKey] (CReturn result []))
      else CFinish result [CVKey outputKey]
    else rp_finishing [CVKey outputKey] (CReturn result []).

(** [importStoredKey_afterPreCheck] *)
Definition rp_importStoredKey_afterPreCheck (callerPid requestId : Z) (data : bytes)
  (keyTemplate : CKey) (uiParams : InteractionParameters) (customParameters : QVariantMap)
  (cryptosystemProviderName : string) (preCheckResult : CResult) (collectionDecryptionKey : Key)
  : CHandler :=
  if negb (c_ok preCheckResult) then CFinish preCheckResult [CVKey keyTemplate]
  else
    rp_importStoredKey_withPassphrase callerPid requestId data keyTemplate uiParams customParameters
      cryptosystemProviderName collectionDecryptionKey (cresult_of_code Succeeded) "".

(** [importStoredKey_inStoragePlugin] *)
Definition rp_importStoredKey_inStoragePlugin (callerPid requestId : Z) (result : CResult)
  (fullKey : CKey) : CHandler :=
  CFinish result [CVKey (rp_partialKey fullKey)].

(** * Stored keys *)

(** [storedKey]; what it returns at once is in the output parameter. *)
Definition rp_storedKey (callerPid requestId : Z) (identifier : Identifier) (keyComponents : Z)
  (customParameters : QVariantMap) : CHandler :=
  let p := ident_storagePluginName identifier in
  if isEmpty p then
    c_fail InvalidStorageProvider "Empty storage plugin name specified in identifier"
  else if negb (rp_isStorage p) then
    c_fail InvalidStorageProvider "Unknown storage plugin name specified in identifier"
  else if negb (bool_decide (m_cryptoPlugins !! p = None)) then
    crun* '(result, key) := K_storedKey p identifier keyComponents customParameters in
    CFinish result [CVKey key]
  else
    secrets* r := HStoredKey identifier in
    let retn := transformSecretsResult r in
    if c_failed retn then CReturn retn []
    else if c_is_pending retn then
      CPark (mkCryptoPending callerPid requestId RStoredKey
               [CVIdentifier identifier; CVComponents keyComponents])
        (CReturn retn [])
    else
      CReturn retn [CVKey (nullifyKeyFields keyComponents (set_filterData ∅ (deserialize "").1))].

(** [storedKey2] *)
Definition rp_storedKey2 (requestId keyComponents : Z) (result : CResult) (serializedKey : bytes)
  (filterData : FilterData) : CHandler :=
  CFinish result
    [CVKey (nullifyKeyFields keyComponents (set_filterData filterData (deserialize serializedKey).1))].

(** [deleteStoredKey] *)
Definition rp_deleteStoredKey (callerPid requestId : Z) (identifier : Identifier) : CHandler :=
  secrets* r := HDeleteStoredKey identifier in
  let retn := transformSecretsResult r in
  if c_is_pending retn then
    CPark (mkCryptoPending callerPid requestId RDeleteStoredKey [CVIdentifier identifier])
      (CReturn retn [])
  else CReturn retn [].

(** [deleteStoredKey2] *)
Definition rp_deleteStoredKey2 (callerPid requestId : Z) (result : CResult) (identifier : Identifier)
  : CHandler := CFinish result [].

(** [storedKeyIdentifiers] *)
Definition rp_storedKeyIdentifiers (callerPid requestId : Z)
  (storagePluginName collectionName : string) (customParameters : QVariantMap) : CHandler :=
  secrets* r := HStoredKeyIdentifiers collectionName storagePluginName customParameters in
  let retn := transformSecretsResult r in
  if c_is_pending retn then
    CPark (mkCryptoPending callerPid requestId RStoredKeyIdentifiers []) (CReturn retn [])
  else CReturn retn [].

(** [storedKeyIdentifiers2] *)
Definition rp_storedKeyIdentifiers2 (callerPid requestId : Z) (result : CResult)
  (identifiers : list Identifier) : CHandler :=
  CFinish result [CVIdentifiers identifiers].

(** [calculateDigest] *)
Definition rp_calculateDigest (callerPid requestId : Z) (data : bytes)
  (padding digestFunction : Z) (customParameters : QVariantMap) (cryptosystemProviderName : string)
  : CHandler :=
  rp_with_plugin cryptosystemProviderName
    (crun* '(result, digest) :=
       K_calculateDigest cryptosystemProviderName customParameters data
         (mkSignatureOptions padding digestFunction) in
     CFinish result [CVBytes digest]).

(** * Using keys *)

(** The beginning that the next functions share.  A key that brings the parts
    that are needed is used as it is.  Another is a reference: if it names a key
    of the crypto plugin itself, the secrets service is asked for the key of its
    collection ([stored]: the request as it waits for that); if not, for the key
    ([elsewhere]). *)
Definition rp_with_key (reference : bool) (key : CKey) (operation : Z)
  (cryptosystemProviderName : string) (stored elsewhere : CryptoPending) (use : CKey → CHandler)
  : CHandler :=
  let i := k_identifier key in
  rp_with_plugin cryptosystemProviderName
    (if negb reference then use key
     else if isEmpty (ident_name i) then
       c_fail InvalidKeyIdentifier "Empty key name given in key reference identifier"
     else if isEmpty (ident_collectionName i) then
       c_fail InvalidKeyIdentifier "Empty collection name given in key reference identifier"
     else if isEmpty (ident_storagePluginName i) then
       c_fail InvalidKeyIdentifier "Empty storage plugin name given in key reference identifier"
     else if negb (rp_isStorage (ident_storagePluginName i)) then
       c_fail InvalidStorageProvider
         "Unknown storage plugin name specified in key reference identifier"
     else if bool_decide (ident_storagePluginName i = cryptosystemProviderName) then
       secrets* r := HUseKeyPreCheck i operation cryptosystemProviderName in
       let retn := transformSecretsResult r in
       if c_failed retn then CReturn retn [] else CPark stored (CReturn retn [])
     else
       secrets* r := HStoredKey i in
       let retn := transformSecretsResult r in
       if c_failed retn then CReturn retn []
       else if c_is_pending retn then CPark elsewhere (CReturn retn [])
       else use (deserialize "").1).

(** Sign in the plugin, and report. *)
Definition rp_run_sign (data : bytes) (key : CKey) (collectionKey : Key) (padding digestFunction : Z)
  (customParameters : QVariantMap) (p : string) : CHandler :=
  crun* '(result, signature) :=
    K_sign p customParameters data key collectionKey (mkSignatureOptions padding digestFunction) in
  CFinish result [CVBytes signature].

(** [sign] *)
Definition rp_sign (callerPid requestId : Z) (data : bytes) (key : CKey) (padding digestFunction : Z)
  (customParameters : QVariantMap) (cryptosystemProviderName : string) : CHandler :=
  rp_with_key (lacks_private key) key OperationSign cryptosystemProviderName
    (mkCryptoPending callerPid requestId RSign
       [CVBytes data; CVKey key; CVSignaturePadding padding; CVDigestFunction digestFunction;
        CVMap customParameters; CVString cryptosystemProviderName])
    (mkCryptoPending callerPid requestId RSign
       [CVBytes data; CVSignaturePadding padding; CVDigestFunction digestFunction;
        CVMap customParameters; CVString cryptosystemProviderName])
    (λ fullKey, rp_run_sign data fullKey noKey padding digestFunction customParameters
                  cryptosystemProviderName).

(** [sign_withKey] *)
Definition rp_sign_withKey (requestId : Z) (result : CResult) (serializedKey data : bytes)
  (padding digestFunction : Z) (customParameters : QVariantMap) (cryptoPluginName : string)
  : CHandler :=
  if negb (c_ok result) then CFinish result [CVBytes ""]
  else rp_run_sign data (deserialize serializedKey).1 noKey padding digestFunction customParameters
         cryptoPluginName.

(** [sign_withCollectionKey] *)
Definition rp_sign_withCollectionKey (requestId : Z) (data : bytes) (key : CKey)
  (padding digestFunction : Z) (customParameters : QVariantMap) (cryptoPluginName : string)
  (result : CResult) (collectionKey : Key) : CHandler :=
  if negb (c_ok result) then CFinish result [CVBytes ""]
  else rp_run_sign data key collectionKey padding digestFunction customParameters cryptoPluginName.

(** Verify in the plugin, and report. *)
Definition rp_run_verify (signature data : bytes) (key : CKey) (collectionKey : Key)
  (padding digestFunction : Z) (customParameters : QVariantMap) (p : string) : CHandler :=
  crun* '(result, status) :=
    K_verify p customParameters signature data key collectionKey
      (mkSignatureOptions padding digestFunction) in
  CFinish result [CVVerificationStatus status].

(** [verify] *)
Definition rp_verify (callerPid requestId : Z) (signature data : bytes) (key : CKey)
  (padding digestFunction : Z) (customParameters : QVariantMap) (cryptosystemProviderName : string)
  : CHandler :=
  rp_with_key (lacks_all key) key OperationVerify cryptosystemProviderName
    (mkCryptoPending callerPid requestId RVerify
       [CVBytes signature; CVBytes data; CVKey key; CVSignaturePadding padding;
        CVDigestFunction digestFunction; CVMap customParameters; CVString cryptosystemProviderName])
    (mkCryptoPending callerPid requestId RVerify
       [CVBytes signature; CVBytes data; CVSignaturePadding padding;
        CVDigestFunction digestFunction; CVMap customParameters; CVString cryptosystemProviderName])
    (λ fullKey, rp_run_verify signature data fullKey noKey padding digestFunction customParameters
                  cryptosystemProviderName).

(** [verify_withKey] *)
Definition rp_verify_withKey (requestId : Z) (result : CResult)
  (serializedKey signature data : bytes) (padding digestFunction : Z)
  (customParameters : QVariantMap) (cryptoPluginName : string) : CHandler :=
  if negb (c_ok result) then CFinish result [CVVerificationStatus VerificationFailed]
  else rp_run_verify signature data (deserialize serializedKey).1 noKey padding digestFunction
         customParameters cryptoPluginName.

(** [verify_withCollectionKey] *)
Definition rp_verify_withCollectionKey (requestId : Z) (signature data : bytes) (key : CKey)
  (padding digestFunction : Z) (customParameters : QVariantMap) (cryptoPluginName : string)
  (result : CResult) (collectionKey : Key) : CHandler :=
  if negb (c_ok result) then CFinish result [CVVerificationStatus VerificationFailed]
  else rp_run_verify signature data key collectionKey padding digestFunction customParameters
         cryptoPluginName.

(** Encrypt in the plugin, and report. *)
Definition rp_run_encrypt (data iv : bytes) (key : CKey) (collectionKey : Key)
  (blockMode padding : Z) (authenticationData : bytes) (customParameters : QVariantMap) (p : string)
  : CHandler :=
  crun* '(result, (encrypted, tag)) :=
    K_encrypt p customParameters data iv key collectionKey (mkEncryptionOptions blockMode padding)
      authenticationData in
  CFinish result [CVBytes encrypted; CVBytes tag].

(** [encrypt] *)
Definition rp_encrypt (callerPid requestId : Z) (data iv : bytes) (key : CKey)
  (blockMode padding : Z) (authenticationData : bytes) (customParameters : QVariantMap)
  (cryptosystemProviderName : string) : CHandler :=
  rp_with_key (lacks_all key) key OperationEncrypt cryptosystemProviderName
    (mkCryptoPending callerPid requestId REncrypt
       [CVBytes data; CVBytes iv; CVKey key; CVBlockMode blockMode; CVEncryptionPadding padding;
        CVBytes authenticationData; CVMap customParameters; CVString cryptosystemProviderName])
    (mkCryptoPending callerPid requestId REncrypt
       [CVBytes data; CVBytes iv; CVBlockMode blockMode; CVEncryptionPadding padding;
        CVBytes authenticationData; CVMap customParameters; CVString cryptosystemProviderName])
    (λ fullKey, rp_run_encrypt data iv fullKey noKey blockMode padding authenticationData
                  customParameters cryptosystemProviderName).

(** [encrypt_withKey] *)
Definition rp_encrypt_withKey (requestId : Z) (result : CResult) (serializedKey data iv : bytes)
  (blockMode padding : Z) (authenticationData : bytes) (customParameters : QVariantMap)
  (cryptoPluginName : string) : CHandler :=
  if negb (c_ok result) then CFinish result [CVBytes ""; CVBytes ""]
  else
    let '(fullKey, ok) := deserialize serializedKey in
    if negb ok then
      CFinish (cresult_error SerializationError "Failed to deserialize key!")
        [CVBytes ""; CVBytes ""]
    else rp_run_encrypt data iv fullKey noKey blockMode padding authenticationData customParameters
           cryptoPluginName.

(** [encrypt_withCollectionKey] *)
Definition rp_encrypt_withCollectionKey (requestId : Z) (data iv : bytes) (key : CKey)
  (blockMode padding : Z) (authenticationData : bytes) (customParameters : QVariantMap)
  (cryptoPluginName : string) (result : CResult) (collectionKey : Key) : CHandler :=
  if negb (c_ok result) then CFinish result [CVBytes ""; CVBytes ""]
  else rp_run_encrypt data iv key collectionKey blockMode padding authenticationData customParameters
         cryptoPluginName.

(** Decrypt in the plugin, and report. *)
Definition rp_run_decrypt (data iv : bytes) (key : CKey) (collectionKey : Key)
  (blockMode padding : Z) (authenticationData authenticationTag : bytes)
  (customParameters : QVariantMap) (p : string) : CHandler :=
  crun* '(result, (decrypted, status)) :=
    K_decrypt p customParameters data iv key collectionKey (mkEncryptionOptions blockMode padding)
      authenticationData authenticationTag in
  CFinish result [CVBytes decrypted; CVVerificationStatus status].

(** [decrypt] *)
Definition rp_decrypt (callerPid requestId : Z) (data iv : bytes) (key : CKey)
  (blockMode padding : Z) (authenticationData authenticationTag : bytes)
  (customParameters : QVariantMap) (cryptosystemProviderName : string) : CHandler :=
  rp_with_key (lacks_private key) key OperationDecrypt cryptosystemProviderName
    (mkCryptoPending callerPid requestId RDecrypt
       [CVBytes data; CVBytes iv; CVKey key; CVBlockMode blockMode; CVEncryptionPadding padding;
        CVBytes authenticationData; CVBytes authenticationTag; CVMap customParameters;
        CVString cryptosystemProviderName])
    (mkCryptoPending callerPid requestId RDecrypt
       [CVBytes data; CVBytes iv; CVBlockMode blockMode; CVEncryptionPadding padding;
        CVBytes authenticationData; CVBytes authenticationTag; CVMap customParameters;
        CVString cryptosystemProviderName])
    (λ fullKey, rp_run_decrypt data iv fullKey noKey blockMode padding authenticationData
                  authenticationTag customParameters cryptosystemProviderName).

(** [decrypt_withKey] *)
Definition rp_decrypt_withKey (requestId : Z) (result : CResult) (serializedKey data iv : bytes)
  (blockMode padding : Z) (authenticationData authenticationTag : bytes)
  (customParameters : QVariantMap) (cryptoPluginName : string) : CHandler :=
  if negb (c_ok result) then CFinish result [CVBytes ""; CVVerificationStatus VerificationFailed]
  else rp_run_decrypt data iv (deserialize serializedKey).1 noKey blockMode padding
         authenticationData authenticationTag customParameters cryptoPluginName.

(** [decrypt_withCollectionKey] *)
Definition rp_decrypt_withCollectionKey (requestId : Z) (data iv : bytes) (key : CKey)
  (blockMode padding : Z) (authenticationData authenticationTag : bytes)
  (customParameters : QVariantMap) (cryptoPluginName : string) (result : CResult)
  (collectionKey : Key) : CHandler :=
  if negb (c_ok result) then CFinish result [CVBytes ""; CVVerificationStatus VerificationFailed]
  else rp_run_decrypt data iv key collectionKey blockMode padding authenticationData
         authenticationTag customParameters cryptoPluginName.

(** * Sessions *)

(** Begin a session in the plugin, and report. *)
Definition rp_run_initialize (clientId : Z) (iv : bytes) (key : CKey) (collectionKey : Key)
  (options : CipherSessionOptions) (customParameters : QVariantMap) (p : string) : CHandler :=
  crun* '(result, token) :=
    K_initializeCipherSession p customParameters clientId iv key collectionKey options in
  CFinish result [CVNumber token].

(** [initializeCipherSession] *)
Definition rp_initializeCipherSession (callerPid requestId : Z) (iv : bytes) (key : CKey)
  (operation blockMode encryptionPadding signaturePadding digestFunction : Z)
  (customParameters : QVariantMap) (cryptosystemProviderName : string) : CHandler :=
  rp_with_key (lacks_private key) key operation cryptosystemProviderName
    (mkCryptoPending callerPid requestId RInitializeCipherSession
       [CVBytes iv; CVKey key; CVOperation operation; CVBlockMode blockMode;
        CVEncryptionPadding encryptionPadding; CVSignaturePadding signaturePadding;
        CVDigestFunction digestFunction; CVMap customParameters; CVString cryptosystemProviderName])
    (mkCryptoPending callerPid requestId RInitializeCipherSession
       [CVPid callerPid; CVBytes iv; CVOperation operation; CVBlockMode blockMode;
        CVEncryptionPadding encryptionPadding; CVSignaturePadding signaturePadding;
        CVDigestFunction digestFunction; CVMap customParameters; CVString cryptosystemProviderName])
    (λ fullKey, rp_run_initialize callerPid iv fullKey noKey
                  (mkCipherSessionOptions operation blockMode encryptionPadding signaturePadding
                     digestFunction)
                  customParameters cryptosystemProviderName).

(** [initializeCipherSession_withKey] *)
Definition rp_initializeCipherSession_withKey (requestId : Z) (result : CResult)
  (serializedKey : bytes) (callerPid : Z) (iv : bytes)
  (operation blockMode encryptionPadding signaturePadding digestFunction : Z)
  (customParameters : QVariantMap) (cryptoPluginName : string) : CHandler :=
  if negb (c_ok result) then CFinish result [CVNumber 0]
  else rp_run_initialize callerPid iv (deserialize serializedKey).1 noKey
         (mkCipherSessionOptions operation blockMode encryptionPadding signaturePadding
            digestFunction)
         customParameters cryptoPluginName.

(** [initializeCipherSession_withCollectionKey] *)
Definition rp_initializeCipherSession_withCollectionKey (requestId callerPid : Z) (iv : bytes)
  (key : CKey) (operation blockMode encryptionPadding signaturePadding digestFunction : Z)
  (customParameters : QVariantMap) (cryptoPluginName : string) (result : CResult)
  (collectionKey : Key) : CHandler :=
  if negb (c_ok result) then CFinish result [CVNumber 0]
  else rp_run_initialize callerPid iv key collectionKey
         (mkCipherSessionOptions operation blockMode encryptionPadding signaturePadding
            digestFunction)
         customParameters cryptoPluginName.

(** [updateCipherSessionAuthentication] *)
Definition rp_updateCipherSessionAuthentication (callerPid requestId : Z)
  (authenticationData : bytes) (customParameters : QVariantMap) (cryptosystemProviderName : string)
  (cipherSessionToken : Z) : CHandler :=
  rp_with_plugin cryptosystemProviderName
    (crun* result :=
       K_updateCipherSessionAuthentication cryptosystemProviderName customParameters callerPid
         authenticationData cipherSessionToken in
     CFinish result []).

(** [updateCipherSession] *)
Definition rp_updateCipherSession (callerPid requestId : Z) (data : bytes)
  (customParameters : QVariantMap) (cryptosystemProviderName : string) (cipherSessionToken : Z)
  : CHandler :=
  rp_with_plugin cryptosystemProviderName
    (crun* '(result, generatedData) :=
       K_updateCipherSession cryptosystemProviderName customParameters callerPid data
         cipherSessionToken in
     CFinish result [CVBytes generatedData]).

(** [finalizeCipherSession] *)
Definition rp_finalizeCipherSession (callerPid requestId : Z) (data : bytes)
  (customParameters : QVariantMap) (cryptosystemProviderName : string) (cipherSessionToken : Z)
  : CHandler :=
  rp_with_plugin cryptosystemProviderName
    (crun* '(result, (generatedData, status)) :=
       K_finalizeCipherSession cryptosystemProviderName customParameters callerPid data
         cipherSessionToken in
     CFinish result [CVBytes generatedData; CVVerificationStatus status]).

(** * Lock codes *)

Definition rp_invalid_target : CHandler :=
  c_fail InvalidCryptographicServiceProvider
    "Invalid crypto plugin name specified as lock code target".

(** [queryLockStatus] *)
Definition rp_queryLockStatus (callerPid requestId : Z) (lockCodeTargetType : LockCodeTargetType)
  (lockCodeTarget : string) : CHandler :=
  if bool_decide (lockCodeTargetType = ExtensionPlugin)
     && bool_decide (m_cryptoPlugins !! lockCodeTarget = None) then rp_invalid_target
  else
    secrets* r :=
      HQueryLockStatus (if bool_decide (lockCodeTargetType = ExtensionPlugin) then lockCodeTarget
                        else "") in
    let retn := transformSecretsResult r in
    if c_is_pending retn then
      CPark (mkCryptoPending callerPid requestId RQueryLockStatus
               [CVPid callerPid; CVTargetType lockCodeTargetType; CVString lockCodeTarget])
        (CReturn retn [])
    else CReturn retn [].

(** The body of the next three. *)
Definition rp_lockCode (requestType : CryptoRequestType) (operation : Operation)
  (call : string → InteractionParameters → CryptoHelperCall) (callerPid requestId : Z)
  (lockCodeTargetType : LockCodeTargetType) (lockCodeTarget : string)
  (interactionParameters : InteractionParameters) : CHandler :=
  if bool_decide (m_cryptoPlugins !! lockCodeTarget = None) then rp_invalid_target
  else
    secrets* r :=
      call lockCodeTarget
        (mkInteraction "" "" lockCodeTarget "" operation
           (ip_authenticationPluginName interactionParameters) (ip_inputType interactionParameters)) in
    let retn := transformSecretsResult r in
    if c_is_pending retn then
      CPark (mkCryptoPending callerPid requestId requestType
               [CVPid callerPid; CVTargetType lockCodeTargetType; CVString lockCodeTarget;
                CVInteraction interactionParameters])
        (CReturn retn [])
    else CReturn retn [].

(** [modifyLockCode] *)
Definition rp_modifyLockCode : Z → Z → LockCodeTargetType → string → InteractionParameters → CHandler :=
  rp_lockCode RModifyLockCode ModifyLockPlugin HModifyLockCode.

(** [provideLockCode] *)
Definition rp_provideLockCode : Z → Z → LockCodeTargetType → string → InteractionParameters → CHandler :=
  rp_lockCode RProvideLockCode UnlockPlugin HProvideLockCode.

(** [forgetLockCode] *)
Definition rp_forgetLockCode : Z → Z → LockCodeTargetType → string → InteractionParameters → CHandler :=
  rp_lockCode RForgetLockCode LockPlugin HForgetLockCode.

(** * Answers of the secrets service

    Each slot takes the pending request, and calls the function that goes on with
    it, with the parameters from the list. *)

(** [pr.parameters.takeFirst().value<T>()] *)
Definition take_first {T} (value : CVariant → option T) (parameters : list CVariant)
  (k : T → list CVariant → CHandler) : CHandler :=
  match parameters with
  | [] => CCrash
  | v :: rest => match value v with Some x => k x rest | None => CMismatch end
  end.

Notation "'first' x ':=' value 'from' ps ';' k" :=
  (take_first value ps (λ x ps, k)) (at level 10, x name, value at level 9, ps name, k at level 200).

(** A warning is logged, and nothing is done. *)
Definition rp_unknown : CHandler := c_pending.

Definition rp_take (k : CryptoPending → CHandler) : CHandler :=
  CTake (λ p, match p with Some pr => k pr | None => rp_unknown end).

(** [KeyDerivationParameters::setInputData] *)
Definition setInputData (input : bytes) (p : KeyDerivationParameters) : KeyDerivationParameters :=
  mkKdf (kdf_function p) (kdf_mac p) (kdf_digest p) (kdf_iterations p) input (kdf_salt p)
    (kdf_outputKeySize p).

(** [secretsStoredKeyCompleted] *)
Definition rp_secretsStoredKeyCompleted (requestId : Z) (result : Result) (serializedKey : bytes)
  (filterData : FilterData) : CHandler :=
  rp_take (λ pr,
    let returnResult := transformSecretsResult result in
    let ps := cpr_parameters pr in
    match cpr_requestType pr with
    | RStoredKey =>
        match ps with
        | [] => CCrash
        | _ :: ps =>
            first keyComponents := cv_components from ps;
            rp_storedKey2 requestId keyComponents returnResult serializedKey filterData
        end
    | RSign =>
        first data := cv_bytes from ps;
        first padding := cv_signaturePadding from ps;
        first digestFunction := cv_digestFunction from ps;
        first customParameters := cv_map from ps;
        first cryptoPluginName := cv_string from ps;
        rp_sign_withKey requestId returnResult serializedKey data padding digestFunction
          customParameters cryptoPluginName
    | RVerify =>
        first signature := cv_bytes from ps;
        first data := cv_bytes from ps;
        first padding := cv_signaturePadding from ps;
        first digestFunction := cv_digestFunction from ps;
        first customParameters := cv_map from ps;
        first cryptoPluginName := cv_string from ps;
        rp_verify_withKey requestId returnResult serializedKey signature data padding digestFunction
          customParameters cryptoPluginName
    | REncrypt =>
        first data := cv_bytes from ps;
        first iv := cv_bytes from ps;
        first blockMode := cv_blockMode from ps;
        first padding := cv_encryptionPadding from ps;
        first authenticationData := cv_bytes from ps;
        first customParameters := cv_map from ps;
        first cryptoPluginName := cv_string from ps;
        rp_encrypt_withKey requestId returnResult serializedKey data iv blockMode padding
          authenticationData customParameters cryptoPluginName
    | RDecrypt =>
        first data := cv_bytes from ps;
        first iv := cv_bytes from ps;
        first blockMode := cv_blockMode from ps;
        first padding := cv_encryptionPadding from ps;
        first authenticationData := cv_bytes from ps;
        first authenticationTag := cv_bytes from ps;
        first customParameters := cv_map from ps;
        first cryptoPluginName := cv_string from ps;
        rp_decrypt_withKey requestId returnResult serializedKey data iv blockMode padding
          authenticationData authenticationTag customParameters cryptoPluginName
    | RInitializeCipherSession =>
        first callerPid := cv_pid from ps;
        first iv := cv_bytes from ps;
        first operation := cv_operation from ps;
        first blockMode := cv_blockMode from ps;
        first encryptionPadding := cv_encryptionPadding from ps;
        first signaturePadding := cv_signaturePadding from ps;
        first digestFunction := cv_digestFunction from ps;
        first customParameters := cv_map from ps;
        first cryptoPluginName := cv_string from ps;
        rp_initializeCipherSession_withKey requestId returnResult serializedKey callerPid iv
          operation blockMode encryptionPadding signaturePadding digestFunction customParameters
          cryptoPluginName
    | _ => rp_unknown
    end).

(** [secretsUseKeyPreCheckCompleted] *)
Definition rp_secretsUseKeyPreCheckCompleted (requestId : Z) (result : Result)
  (collectionDecryptionKey : Key) : CHandler :=
  rp_take (λ pr,
    let returnResult := transformSecretsResult result in
    let ps := cpr_parameters pr in
    match cpr_requestType pr with
    | RSign =>
        first data := cv_bytes from ps;
        first key := cv_key from ps;
        first padding := cv_signaturePadding from ps;
        first digestFunction := cv_digestFunction from ps;
        first customParameters := cv_map from ps;
        first cryptosystemProviderName := cv_string from ps;
        rp_sign_withCollectionKey requestId data key padding digestFunction customParameters
          cryptosystemProviderName returnResult collectionDecryptionKey
    | RVerify =>
        first signature := cv_bytes from ps;
        first data := cv_bytes from ps;
        first key := cv_key from ps;
        first padding := cv_signaturePadding from ps;
        first digestFunction := cv_digestFunction from ps;
        first customParameters := cv_map from ps;
        first cryptosystemProviderName := cv_string from ps;
        rp_verify_withCollectionKey requestId signature data key padding digestFunction
          customParameters cryptosystemProviderName returnResult collectionDecryptionKey
    | REncrypt =>
        first data := cv_bytes from ps;
        first iv := cv_bytes from ps;
        first key := cv_key from ps;
        first blockMode := cv_blockMode from ps;
        first padding := cv_encryptionPadding from ps;
        first authenticationData := cv_bytes from ps;
        first customParameters := cv_map from ps;
        first cryptosystemProviderName := cv_string from ps;
        rp_encrypt_withCollectionKey requestId data iv key blockMode padding authenticationData
          customParameters cryptosystemProviderName returnResult collectionDecryptionKey
    | RDecrypt =>
        first data := cv_bytes from ps;
        first iv := cv_bytes from ps;
        first key := cv_key from ps;
        first blockMode := cv_blockMode from ps;
        first padding := cv_encryptionPadding from ps;
        first authenticationData := cv_bytes from ps;
        first authenticationTag := cv_bytes from ps;
        first customParameters := cv_map from ps;
        first cryptosystemProviderName := cv_string from ps;
        rp_decrypt_withCollectionKey requestId data iv key blockMode padding authenticationData
          authenticationTag customParameters cryptosystemProviderName returnResult
          collectionDecryptionKey
    | RInitializeCipherSession =>
        first iv := cv_bytes from ps;
        first key := cv_key from ps;
        first operation := cv_operation from ps;
        first blockMode := cv_blockMode from ps;
        first encryptionPadding := cv_encryptionPadding from ps;
        first signaturePadding := cv_signaturePadding from ps;
        first digestFunction := cv_digestFunction from ps;
        first customParameters := cv_map from ps;
        first cryptosystemProviderName := cv_string from ps;
        rp_initializeCipherSession_withCollectionKey requestId (cpr_callerPid pr) iv key operation
          blockMode encryptionPadding signaturePadding digestFunction customParameters
          cryptosystemProviderName returnResult collectionDecryptionKey
    | _ => rp_unknown
    end).

(** [secretsStoreKeyPreCheckCompleted] *)
Definition rp_secretsStoreKeyPreCheckCompleted (requestId : Z) (result : Result)
  (collectionDecryptionKey : Key) : CHandler :=
  rp_take (λ pr,
    let returnResult := transformSecretsResult result in
    let ps := cpr_parameters pr in
    match cpr_requestType pr with
    | RGenerateStoredKey =>
        first keyTemplate := cv_key from ps;
        first kpgParams := cv_keyPair from ps;
        first skdfParams := cv_keyDerivation from ps;
        first uiParams := cv_interaction from ps;
        first customParameters := cv_map from ps;
        first cryptosystemProviderName := cv_string from ps;
        rp_generateStoredKey_afterPreCheck (cpr_callerPid pr) requestId keyTemplate kpgParams
          skdfParams uiParams customParameters cryptosystemProviderName returnResult
          collectionDecryptionKey
    | RImportStoredKey =>
        first data := cv_bytes from ps;
        first keyTemplate := cv_key from ps;
        first uiParams := cv_interaction from ps;
        first customParameters := cv_map from ps;
        first cryptosystemProviderName := cv_string from ps;
        rp_importStoredKey_afterPreCheck (cpr_callerPid pr) requestId data keyTemplate uiParams
          customParameters cryptosystemProviderName returnResult collectionDecryptionKey
    | _ => rp_unknown
    end).

(** [secretsStoreKeyCompleted] *)
Definition rp_secretsStoreKeyCompleted (requestId : Z) (result : Result) : CHandler :=
  rp_take (λ pr,
    let returnResult := transformSecretsResult result in
    let ps := cpr_parameters pr in
    match cpr_requestType pr with
    | RGenerateStoredKey =>
        first fullKey := cv_key from ps;
        rp_generateStoredKey_inStoragePlugin (cpr_callerPid pr) requestId returnResult fullKey
    | RImportStoredKey =>
        first key := cv_key from ps;
        rp_importStoredKey_inStoragePlugin (cpr_callerPid pr) requestId returnResult key
    | _ => rp_unknown
    end).

(** [secretsDeleteStoredKeyCompleted] *)
Definition rp_secretsDeleteStoredKeyCompleted (requestId : Z) (result : Result) : CHandler :=
  rp_take (λ pr,
    let returnResult := transformSecretsResult result in
    match cpr_requestType pr with
    | RDeleteStoredKey =>
        match cpr_parameters pr with
        | [] => rp_deleteStoredKey2 (cpr_callerPid pr) requestId returnResult noIdentifier
        | v :: _ =>
            match cv_identifier v with
            | Some i => rp_deleteStoredKey2 (cpr_callerPid pr) requestId returnResult i
            | None => CMismatch
            end
        end
    | _ => rp_unknown
    end).

(** [secretsStoredKeyIdentifiersCompleted]; the identifiers have the same fields
    in both services. *)
Definition rp_secretsStoredKeyIdentifiersCompleted (requestId : Z) (result : Result)
  (idents : list Identifier) : CHandler :=
  rp_take (λ pr,
    let returnResult := transformSecretsResult result in
    let identifiers :=
      (λ i, mkIdentifier (ident_name i) (ident_collectionName i) (ident_storagePluginName i))
        <$> idents in
    match cpr_requestType pr with
    | RStoredKeyIdentifiers =>
        rp_storedKeyIdentifiers2 (cpr_callerPid pr) requestId returnResult identifiers
    | _ => rp_unknown
    end).

(** [secretsUserInputCompleted] *)
Definition rp_secretsUserInputCompleted (requestId : Z) (result : Result) (userInput : bytes)
  : CHandler :=
  rp_take (λ pr,
    let returnResult := transformSecretsResult result in
    let ps := cpr_parameters pr in
    match cpr_requestType pr with
    | RGenerateStoredKey =>
        first keyTemplate := cv_key from ps;
        first kpgParams := cv_keyPair from ps;
        first skdfParams := cv_keyDerivation from ps;
        first customParameters := cv_map from ps;
        first cryptosystemProviderName := cv_string from ps;
        first collectionDecryptionKey := cv_collectionKey from ps;
        rp_generateStoredKey_withInputData (cpr_callerPid pr) requestId returnResult keyTemplate
          kpgParams (setInputData userInput skdfParams) customParameters cryptosystemProviderName
          collectionDecryptionKey
    | RImportKey =>
        first data := cv_bytes from ps;
        first uiParams := cv_interaction from ps;
        first customParameters := cv_map from ps;
        first cryptosystemProviderName := cv_string from ps;
        rp_importKey_withPassphrase (cpr_callerPid pr) requestId data uiParams customParameters
          cryptosystemProviderName returnResult userInput
    | RImportStoredKey =>
        first data := cv_bytes from ps;
        first keyTemplate := cv_key from ps;
        first uiParams := cv_interaction from ps;
        first customParameters := cv_map from ps;
        first cryptosystemProviderName := cv_string from ps;
        first collectionDecryptionKey := cv_collectionKey from ps;
        rp_importStoredKey_withPassphrase (cpr_callerPid pr) requestId data keyTemplate uiParams
          customParameters cryptosystemProviderName collectionDecryptionKey returnResult userInput
    | _ => rp_unknown
    end).

(** [secretsCryptoPluginLockStatusRequestCompleted] *)
Definition rp_secretsCryptoPluginLockStatusRequestCompleted (requestId : Z) (result : Result)
  (lockStatus : LockStatus) : CHandler :=
  rp_take (λ pr,
    match cpr_requestType pr with
    | RQueryLockStatus => CFinish (transformSecretsResult result) [CVLockStatus lockStatus]
    | _ => rp_unknown
    end).

(** [secretsCryptoPluginLockCodeRequestCompleted] *)
Definition rp_secretsCryptoPluginLockCodeRequestCompleted (requestId : Z) (result : Result)
  : CHandler :=
  rp_take (λ pr,
    match cpr_requestType pr with
    | RModifyLockCode | RProvideLockCode | RForgetLockCode =>
        CFinish (transformSecretsResult result) []
    | _ => rp_unknown
    end).

(** The connections that the constructor makes. *)
Definition rp_slot (requestId : Z) (signal : CryptoSignal) : CHandler :=
  match signal with
  | storedKeyCompleted r data filterData => rp_secretsStoredKeyCompleted requestId r data filterData
  | useKeyPreCheckCompleted r key => rp_secretsUseKeyPreCheckCompleted requestId r key
  | storeKeyPreCheckCompleted r key => rp_secretsStoreKeyPreCheckCompleted requestId r key
  | storeKeyCompleted r => rp_secretsStoreKeyCompleted requestId r
  | deleteStoredKeyCompleted r => rp_secretsDeleteStoredKeyCompleted requestId r
  | storedKeyIdentifiersCompleted r l => rp_secretsStoredKeyIdentifiersCompleted requestId r l
  | userInputCompleted r input => rp_secretsUserInputCompleted requestId r input
  | cryptoPluginLockStatusRequestCompleted r status =>
      rp_secretsCryptoPluginLockStatusRequestCompleted requestId r status
  | cryptoPluginLockCodeRequestCompleted r =>
      rp_secretsCryptoPluginLockCodeRequestCompleted requestId r
  end.
End processor.

(** * Locking crypto plugins: the functions of the crypto request processor
    (daemon/CryptoImpl/cryptorequestprocessor.cpp, forwarded by crypto.cpp) and
    those of the secrets request queue that call them
    (daemon/SecretsImpl/secrets.cpp).

    A function that follows a null pointer returns [None]. *)

Section crypto_locks.
  Context {P : Type} `{!PluginBase P}.

(** [m_cryptoPlugins] *)
Abbreviation Plugins := (gmap string P).

(** Run a function of the plugin with this name, in its thread. *)
Definition run_plugin {A} (pluginName : string) (m : M P A) : M Plugins (option A) := λ ps,
  match ps !! pluginName with
  | None => (None, ps)
  | Some p => let '(a, p') := m p in (Some a, <[pluginName := p']> ps)
  end.

Definition has_plugin (pluginName : string) : M Plugins bool :=
  gets (λ ps, bool_decide (is_Some (ps !! pluginName))).

(** [CryptoImpl::RequestProcessor::queryLockStatusPlugin] *)
Definition queryLockStatusPlugin (pluginName : string) : M Plugins (option LockStatus) :=
  let* known := has_plugin pluginName in
  if (known : bool) then ret (Some UnknownLockStatus)
  else
    run_plugin pluginName
      (let* supported := gets pb_supportsLocking in
       if negb supported then ret Unsupported
       else let* locked := gets pb_isLocked in ret (if (locked : bool) then Locked else Unlocked)).

(** [CryptoImpl::RequestProcessor::lockPlugin] *)
Definition lockPlugin (pluginName : string) : M Plugins (option bool) :=
  let* known := has_plugin pluginName in
  if (known : bool) then ret (Some false) else run_plugin pluginName pb_lock.

(** [CryptoImpl::RequestProcessor::unlockPlugin] *)
Definition unlockPlugin (pluginName : string) (lockCode : bytes) : M Plugins (option bool) :=
  let* known := has_plugin pluginName in
  if (known : bool) then ret (Some false) else run_plugin pluginName (pb_unlock lockCode).

(** [CryptoImpl::RequestProcessor::setLockCodePlugin] *)
Definition setLockCodePlugin (pluginName : string) (oldCode newCode : bytes)
  : M Plugins (option bool) :=
  let* known := has_plugin pluginName in
  if (known : bool) then ret (Some false) else run_plugin pluginName (pb_setLockCode oldCode newCode).

(** The guards that the functions of the secrets request queue share: there is
    such a plugin, and it supports locking. *)
Definition crypto_plugin_guards (pluginName : string) (k : M Plugins (option Result))
  : M Plugins (option Result) :=
  let* ps := gets id in
  match ps !! pluginName with
  | None =>
      ret (Some (result_error InvalidExtensionPluginError
        ("No such extension plugin exists: " +:+ pluginName)))
  | Some p =>
      if negb (pb_supportsLocking p) then
        ret (Some (result_error OperationNotSupportedError
          ("Crypto plugin " +:+ pluginName +:+ " does not support locking")))
      else k
  end.

(** Their result. *)
Definition crypto_plugin_result (done : option bool) (message : string) : option Result :=
  (λ done : bool, if done then result_of_code Succeeded else result_error UnknownError message) <$> done.

(** [SecretsRequestQueue::lockCryptoPlugin] *)
Definition lockCryptoPlugin (pluginName : string) : M Plugins (option Result) :=
  crypto_plugin_guards pluginName
    (let* done := lockPlugin pluginName in
     ret (crypto_plugin_result done ("Failed to lock crypto plugin " +:+ pluginName))).

(** [SecretsRequestQueue::unlockCryptoPlugin] *)
Definition unlockCryptoPlugin (pluginName : string) (lockCode : bytes) : M Plugins (option Result) :=
  crypto_plugin_guards pluginName
    (let* done := unlockPlugin pluginName lockCode in
     ret (crypto_plugin_result done ("Failed to unlock crypto plugin " +:+ pluginName))).

(** [SecretsRequestQueue::setLockCodeCryptoPlugin] *)
Definition setLockCodeCryptoPlugin (pluginName : string) (oldCode newCode : bytes)
  : M Plugins (option Result) :=
  crypto_plugin_guards pluginName
    (let* done := setLockCodePlugin pluginName oldCode newCode in
     ret (crypto_plugin_result done ("Failed to set lock code for crypto plugin " +:+ pluginName))).

(** [SecretsRequestQueue::queryLockStatusCryptoPlugin] *)
Definition queryLockStatusCryptoPlugin (pluginName : string)
  : M Plugins (option (Result * LockStatus)) :=
  let* ps := gets id in
  match ps !! pluginName with
  | None =>
      ret (Some (result_error InvalidExtensionPluginError
        ("No such extension plugin exists: " +:+ pluginName), UnknownLockStatus))
  | Some p =>
      if negb (pb_supportsLocking p) then ret (Some (result_of_code Succeeded, Unsupported))
      else
        let* status := queryLockStatusPlugin pluginName in
        ret (pair (result_of_code Succeeded) <$> status)
  end.
End crypto_locks.
