(* ===== verification/CryptoService.v ===== *)
(** The crypto service (daemon/CryptoImpl/crypto.cpp): the D-Bus object, which
    turns a call into a request with a list of parameters; the dispatch of a
    request to the processor, which takes the parameters apart again; and the
    reply.

    Names start with [cq_]; left out is the request for information on
    plugins. *)
From S2P Require Import Prelude Result MetadataDb PluginApi PluginWrapper PluginFunctionWrappers Processor SecretsService.
From S2P Require Import CryptoManager CryptoKey KeySerialization CryptoPluginWrapper CryptoFunctionWrappers CryptoProcessor.

(** The methods of [CryptoDBusObject]. *)
Inductive CryptoCall :=
  | XGenerateRandomData (numberBytes : Z) (csprngEngineName : string) (custom : QVariantMap) (p : string)
  | XSeedRandomDataGenerator (seedData : bytes) (entropyEstimate : Z) (csprngEngineName : string)
      (custom : QVariantMap) (p : string)
  | XGenerateInitializationVector (algorithm blockMode keySize : Z) (custom : QVariantMap) (p : string)
  | XGenerateKey (keyTemplate : CKey) (kpgParams : KeyPairParameters)
      (skdfParams : KeyDerivationParameters) (custom : QVariantMap) (p : string)
  | XGenerateStoredKey (keyTemplate : CKey) (kpgParams : KeyPairParameters)
      (skdfParams : KeyDerivationParameters) (uiParams : InteractionParameters)
      (custom : QVariantMap) (p : string)
  | XImportKey (data : bytes) (uiParams : InteractionParameters) (custom : QVariantMap) (p : string)
  | XImportStoredKey (data : bytes) (keyTemplate : CKey) (uiParams : InteractionParameters)
      (custom : QVariantMap) (p : string)
  | XStoredKey (identifier : Identifier) (keyComponents : Z) (custom : QVariantMap)
  | XDeleteStoredKey (identifier : Identifier)
  | XStoredKeyIdentifiers (storagePluginName collectionName : string) (custom : QVariantMap)
  | XCalculateDigest (data : bytes) (padding digestFunction : Z) (custom : QVariantMap) (p : string)
  | XSign (data : bytes) (key : CKey) (padding digest : Z) (custom : QVariantMap) (p : string)
  | XVerify (signature data : bytes) (key : CKey) (padding digest : Z) (custom : QVariantMap)
      (p : string)
  | XEncrypt (data iv : bytes) (key : CKey) (blockMode padding : Z) (authenticationData : bytes)
      (custom : QVariantMap) (p : string)
  | XDecrypt (data iv : bytes) (key : CKey) (blockMode padding : Z)
      (authenticationData authenticationTag : bytes) (custom : QVariantMap) (p : string)
  | XInitializeCipherSession (iv : bytes) (key : CKey)
      (operation blockMode encryptionPadding signaturePadding digest : Z) (custom : QVariantMap)
      (p : string)
  | XUpdateCipherSessionAuthentication (authenticationData : bytes) (custom : QVariantMap)
      (p : string) (token : Z)
  | XUpdateCipherSession (data : bytes) (custom : QVariantMap) (p : string) (token : Z)
  | XFinalizeCipherSession (data : bytes) (custom : QVariantMap) (p : string) (token : Z)
  | XQueryLockStatus (type : LockCodeTargetType) (target : string)
  | XModifyLockCode (type : LockCodeTargetType) (target : string) (ip : InteractionParameters)
  | XProvideLockCode (type : LockCodeTargetType) (target : string) (ip : InteractionParameters)
  | XForgetLockCode (type : LockCodeTargetType) (target : string) (ip : InteractionParameters).

Section service.
  Context `{!QDataStream} (env : Environment) (m_cryptoPlugins : gmap string bool).

(** [mapPluginNames]; those of identifiers and of interaction parameters are the
    functions of the secrets service. *)
Definition map_key (k : CKey) : CKey := set_identifier (map_identifier env (k_identifier k)) k.

Definition cq_mapped (p : string) : CVariant := CVString (mappedPluginName env p).

(** * The methods of [CryptoDBusObject]: the type and the parameters of the
    request that is queued *)

(** [generateRandomData] *)
Definition cq_generateRandomData (n : Z) (engine : string) (custom : QVariantMap) (p : string) :=
  (RGenerateRandomData, [CVNumber n; CVString engine; CVMap custom; cq_mapped p]).

(** [seedRandomDataGenerator] *)
Definition cq_seedRandomDataGenerator (seed : bytes) (entropy : Z) (engine : string)
  (custom : QVariantMap) (p : string) :=
  (RSeedRandomDataGenerator,
   [CVBytes seed; CVDouble entropy; CVString engine; CVMap custom; cq_mapped p]).

(** [generateInitializationVector] *)
Definition cq_generateInitializationVector (algorithm blockMode keySize : Z) (custom : QVariantMap)
  (p : string) :=
  (RGenerateInitializationVector,
   [CVAlgorithm algorithm; CVBlockMode blockMode; CVNumber keySize; CVMap custom; cq_mapped p]).

(** [generateKey] *)
Definition cq_generateKey (keyTemplate : CKey) (kpg : KeyPairParameters)
  (skdf : KeyDerivationParameters) (custom : QVariantMap) (p : string) :=
  (RGenerateKey,
   [CVKey (map_key keyTemplate); CVKeyPair kpg; CVKeyDerivation skdf; CVMap custom; cq_mapped p]).

(** [generateStoredKey] *)
Definition cq_generateStoredKey (keyTemplate : CKey) (kpg : KeyPairParameters)
  (skdf : KeyDerivationParameters) (uiParams : InteractionParameters) (custom : QVariantMap)
  (p : string) :=
  (RGenerateStoredKey,
   [CVKey (map_key keyTemplate); CVKeyPair kpg; CVKeyDerivation skdf; CVInteraction uiParams;
    CVMap custom; cq_mapped p]).

(** [importKey] *)
Definition cq_importKey (data : bytes) (uiParams : InteractionParameters) (custom : QVariantMap)
  (p : string) :=
  (RImportKey,
   [CVBytes data; CVInteraction (map_interaction env uiParams); CVMap custom; cq_mapped p]).

(** [importStoredKey] *)
Definition cq_importStoredKey (data : bytes) (keyTemplate : CKey) (uiParams : InteractionParameters)
  (custom : QVariantMap) (p : string) :=
  (RImportStoredKey,
   [CVBytes data; CVKey (map_key keyTemplate); CVInteraction (map_interaction env uiParams);
    CVMap custom; cq_mapped p]).

(** [storedKey] *)
Definition cq_storedKey (i : Identifier) (keyComponents : Z) (custom : QVariantMap) :=
  (RStoredKey, [CVIdentifier (map_identifier env i); CVComponents keyComponents; CVMap custom]).

(** [deleteStoredKey] *)
Definition cq_deleteStoredKey (i : Identifier) :=
  (RDeleteStoredKey, [CVIdentifier (map_identifier env i)]).

(** [storedKeyIdentifiers] *)
Definition cq_storedKeyIdentifiers (storagePluginName collectionName : string)
  (custom : QVariantMap) :=
  (RStoredKeyIdentifiers, [cq_mapped storagePluginName; CVString collectionName; CVMap custom]).

(** [calculateDigest] *)
Definition cq_calculateDigest (data : bytes) (padding digestFunction : Z) (custom : QVariantMap)
  (p : string) :=
  (RCalculateDigest,
   [CVBytes data; CVSignaturePadding padding; CVDigestFunction digestFunction; CVMap custom;
    cq_mapped p]).

(** [sign] *)
Definition cq_sign (data : bytes) (key : CKey) (padding digest : Z) (custom : QVariantMap)
  (p : string) :=
  (RSign,
   [CVBytes data; CVKey (map_key key); CVSignaturePadding padding; CVDigestFunction digest;
    CVMap custom; cq_mapped p]).

(** [verify] *)
Definition cq_verify (signature data : bytes) (key : CKey) (padding digest : Z)
  (custom : QVariantMap) (p : string) :=
  (RVerify,
   [CVBytes signature; CVBytes data; CVKey (map_key key); CVSignaturePadding padding;
    CVDigestFunction digest; CVMap custom; cq_mapped p]).

(** [encrypt] *)
Definition cq_encrypt (data iv : bytes) (key : CKey) (blockMode padding : Z)
  (authenticationData : bytes) (custom : QVariantMap) (p : string) :=
  (REncrypt,
   [CVBytes data; CVBytes iv; CVKey (map_key key); CVBlockMode blockMode;
    CVEncryptionPadding padding; CVBytes authenticationData; CVMap custom; cq_mapped p]).

(** [decrypt] *)
Definition cq_decrypt (data iv : bytes) (key : CKey) (blockMode padding : Z)
  (authenticationData authenticationTag : bytes) (custom : QVariantMap) (p : string) :=
  (RDecrypt,
   [CVBytes data; CVBytes iv; CVKey (map_key key); CVBlockMode blockMode;
    CVEncryptionPadding padding; CVBytes authenticationData; CVBytes authenticationTag;
    CVMap custom; cq_mapped p]).

(** [initializeCipherSession] *)
Definition cq_initializeCipherSession (iv : bytes) (key : CKey)
  (operation blockMode encryptionPadding signaturePadding digest : Z) (custom : QVariantMap)
  (p : string) :=
  (RInitializeCipherSession,
   [CVBytes iv; CVKey (map_key key); CVOperation operation; CVBlockMode blockMode;
    CVEncryptionPadding encryptionPadding; CVSignaturePadding signaturePadding;
    CVDigestFunction digest; CVMap custom; cq_mapped p]).

(** [updateCipherSessionAuthentication] *)
Definition cq_updateCipherSessionAuthentication (authenticationData : bytes) (custom : QVariantMap)
  (p : string) (token : Z) :=
  (RUpdateCipherSessionAuthentication,
   [CVBytes authenticationData; CVMap custom; cq_mapped p; CVNumber token]).

(** [updateCipherSession] *)
Definition cq_updateCipherSession (data : bytes) (custom : QVariantMap) (p : string) (token : Z) :=
  (RUpdateCipherSession, [CVBytes data; CVMap custom; cq_mapped p; CVNumber token]).

(** [finalizeCipherSession] *)
Definition cq_finalizeCipherSession (data : bytes) (custom : QVariantMap) (p : string) (token : Z) :=
  (RFinalizeCipherSession, [CVBytes data; CVMap custom; cq_mapped p; CVNumber token]).

(** [queryLockStatus] *)
Definition cq_queryLockStatus (type : LockCodeTargetType) (target : string) :=
  (RQueryLockStatus, [CVTargetType type; cq_mapped target]).

Definition cq_lock_params (type : LockCodeTargetType) (target : string) (ip : InteractionParameters) :=
  [CVTargetType type; cq_mapped target; CVInteraction (map_interaction env ip)].

(** [modifyLockCode] *)
Definition cq_modifyLockCode (type : LockCodeTargetType) (target : string)
  (ip : InteractionParameters) := (RModifyLockCode, cq_lock_params type target ip).

(** [provideLockCode] *)
Definition cq_provideLockCode (type : LockCodeTargetType) (target : string)
  (ip : InteractionParameters) := (RProvideLockCode, cq_lock_params type target ip).

(** [forgetLockCode] *)
Definition cq_forgetLockCode (type : LockCodeTargetType) (target : string)
  (ip : InteractionParameters) := (RForgetLockCode, cq_lock_params type target ip).

(** All methods together. *)
Definition CryptoDBusObject (c : CryptoCall) : CryptoRequestType * list CVariant :=
  match c with
  | XGenerateRandomData n engine custom p => cq_generateRandomData n engine custom p
  | XSeedRandomDataGenerator seed entropy engine custom p =>
      cq_seedRandomDataGenerator seed entropy engine custom p
  | XGenerateInitializationVector a b n custom p => cq_generateInitializationVector a b n custom p
  | XGenerateKey k kpg skdf custom p => cq_generateKey k kpg skdf custom p
  | XGenerateStoredKey k kpg skdf ip custom p => cq_generateStoredKey k kpg skdf ip custom p
  | XImportKey data ip custom p => cq_importKey data ip custom p
  | XImportStoredKey data k ip custom p => cq_importStoredKey data k ip custom p
  | XStoredKey i components custom => cq_storedKey i components custom
  | XDeleteStoredKey i => cq_deleteStoredKey i
  | XStoredKeyIdentifiers p c custom => cq_storedKeyIdentifiers p c custom
  | XCalculateDigest data padding digest custom p => cq_calculateDigest data padding digest custom p
  | XSign data k padding digest custom p => cq_sign data k padding digest custom p
  | XVerify sig data k padding digest custom p => cq_verify sig data k padding digest custom p
  | XEncrypt data iv k b padding ad custom p => cq_encrypt data iv k b padding ad custom p
  | XDecrypt data iv k b padding ad tag custom p => cq_decrypt data iv k b padding ad tag custom p
  | XInitializeCipherSession iv k o b ep sp d custom p =>
      cq_initializeCipherSession iv k o b ep sp d custom p
  | XUpdateCipherSessionAuthentication ad custom p token =>
      cq_updateCipherSessionAuthentication ad custom p token
  | XUpdateCipherSession data custom p token => cq_updateCipherSession data custom p token
  | XFinalizeCipherSession data custom p token => cq_finalizeCipherSession data custom p token
  | XQueryLockStatus type target => cq_queryLockStatus type target
  | XModifyLockCode type target ip => cq_modifyLockCode type target ip
  | XProvideLockCode type target ip => cq_provideLockCode type target ip
  | XForgetLockCode type target ip => cq_forgetLockCode type target ip
  end.

(** * Dispatch *)

(** [inParams.size() ? inParams.takeFirst().value<T>() : default] *)
Definition take_in {T} (value : CVariant → option T) (dflt : T) (inParams : list CVariant)
  (k : T → list CVariant → CHandler) : CHandler :=
  match inParams with
  | [] => k dflt []
  | v :: rest => match value v with Some x => k x rest | None => CMismatch end
  end.

Notation "'take' x ':=' value 'or' d 'from' ps ';' k" :=
  (take_in value d ps (λ x ps, k)) (at level 10, x name, value at level 9, d at level 9,
   ps name, k at level 200).

(** [KeyDerivationParameters()], [KeyPairGenerationParameters()] *)
Definition noKdf : KeyDerivationParameters := mkKdf KdfUnknown 0 0 0 "" "" 0.
Definition noKeyPair : KeyPairParameters := mkKeyPairParameters 0 ∅ ∅ ∅.

(** The cases of [CryptoRequestQueue::handlePendingRequest], without the
    reply: take the parameters from the list and call the processor. *)

(** case [GenerateRandomDataRequest] *)
Definition cq_pendingGenerateRandomData (pid id : Z) (ps : list CVariant) : CHandler :=
  take numberBytes := cv_number or 0%Z from ps;
  take csprngEngineName := cv_string or "" from ps;
  take custom := cv_map or ∅ from ps;
  take p := cv_string or "" from ps;
  rp_generateRandomData m_cryptoPlugins pid id numberBytes csprngEngineName custom p.

(** case [SeedRandomDataGeneratorRequest] *)
Definition cq_pendingSeedRandomDataGenerator (pid id : Z) (ps : list CVariant) : CHandler :=
  take seedData := cv_bytes or "" from ps;
  take entropyEstimate := cv_double or 1%Z from ps;
  take csprngEngineName := cv_string or "" from ps;
  take custom := cv_map or ∅ from ps;
  take p := cv_string or "" from ps;
  rp_seedRandomDataGenerator m_cryptoPlugins pid id seedData entropyEstimate csprngEngineName
    custom p.

(** case [GenerateInitializationVectorRequest] *)
Definition cq_pendingGenerateInitializationVector (pid id : Z) (ps : list CVariant) : CHandler :=
  take algorithm := cv_algorithm or AlgorithmUnknown from ps;
  take blockMode := cv_blockMode or BlockModeUnknown from ps;
  take keySize := cv_number or (-1)%Z from ps;
  take custom := cv_map or ∅ from ps;
  take p := cv_string or "" from ps;
  rp_generateInitializationVector m_cryptoPlugins pid id algorithm blockMode keySize custom p.

(** case [GenerateKeyRequest] *)
Definition cq_pendingGenerateKey (pid id : Z) (ps : list CVariant) : CHandler :=
  take templateKey := cv_key or noCKey from ps;
  take kpgParams := cv_keyPair or noKeyPair from ps;
  take skdfParams := cv_keyDerivation or noKdf from ps;
  take custom := cv_map or ∅ from ps;
  take p := cv_string or "" from ps;
  rp_generateKey m_cryptoPlugins pid id templateKey kpgParams skdfParams custom p.

(** case [GenerateStoredKeyRequest] *)
Definition cq_pendingGenerateStoredKey (pid id : Z) (ps : list CVariant) : CHandler :=
  take templateKey := cv_key or noCKey from ps;
  take kpgParams := cv_keyPair or noKeyPair from ps;
  take skdfParams := cv_keyDerivation or noKdf from ps;
  take uiParams := cv_interaction or noInteraction from ps;
  take custom := cv_map or ∅ from ps;
  take p := cv_string or "" from ps;
  rp_generateStoredKey env m_cryptoPlugins pid id templateKey kpgParams skdfParams uiParams custom p.

(** case [ImportKeyRequest] *)
Definition cq_pendingImportKey (pid id : Z) (ps : list CVariant) : CHandler :=
  take data := cv_bytes or "" from ps;
  take uiParams := cv_interaction or noInteraction from ps;
  take custom := cv_map or ∅ from ps;
  take p := cv_string or "" from ps;
  rp_importKey m_cryptoPlugins pid id data uiParams custom p "".

(** case [ImportStoredKeyRequest] *)
Definition cq_pendingImportStoredKey (pid id : Z) (ps : list CVariant) : CHandler :=
  take data := cv_bytes or "" from ps;
  take keyTemplate := cv_key or noCKey from ps;
  take uiParams := cv_interaction or noInteraction from ps;
  take custom := cv_map or ∅ from ps;
  take p := cv_string or "" from ps;
  rp_importStoredKey env m_cryptoPlugins pid id data keyTemplate uiParams custom p.

(** case [StoredKeyRequest] *)
Definition cq_pendingStoredKey (pid id : Z) (ps : list CVariant) : CHandler :=
  take ident := cv_identifier or noIdentifier from ps;
  take components := cv_components or (Z.lor MetaData PublicKeyData) from ps;
  take custom := cv_map or ∅ from ps;
  rp_storedKey env m_cryptoPlugins pid id ident components custom.

(** case [DeleteStoredKeyRequest] *)
Definition cq_pendingDeleteStoredKey (pid id : Z) (ps : list CVariant) : CHandler :=
  take identifier := cv_identifier or noIdentifier from ps;
  rp_deleteStoredKey pid id identifier.

(** case [StoredKeyIdentifiersRequest] *)
Definition cq_pendingStoredKeyIdentifiers (pid id : Z) (ps : list CVariant) : CHandler :=
  take storagePluginName := cv_string or "" from ps;
  take collectionName := cv_string or "" from ps;
  take custom := cv_map or ∅ from ps;
  rp_storedKeyIdentifiers pid id storagePluginName collectionName custom.

(** case [CalculateDigestRequest] *)
Definition cq_pendingCalculateDigest (pid id : Z) (ps : list CVariant) : CHandler :=
  take data := cv_bytes or "" from ps;
  take padding := cv_signaturePadding or 0%Z from ps;
  take digestFunction := cv_digestFunction or 0%Z from ps;
  take custom := cv_map or ∅ from ps;
  take p := cv_string or "" from ps;
  rp_calculateDigest m_cryptoPlugins pid id data padding digestFunction custom p.

(** case [SignRequest] *)
Definition cq_pendingSign (pid id : Z) (ps : list CVariant) : CHandler :=
  take data := cv_bytes or "" from ps;
  take key := cv_key or noCKey from ps;
  take padding := cv_signaturePadding or 0%Z from ps;
  take digest := cv_digestFunction or 0%Z from ps;
  take custom := cv_map or ∅ from ps;
  take p := cv_string or "" from ps;
  rp_sign env m_cryptoPlugins pid id data key padding digest custom p.

(** case [VerifyRequest] *)
Definition cq_pendingVerify (pid id : Z) (ps : list CVariant) : CHandler :=
  take signature := cv_bytes or "" from ps;
  take data := cv_bytes or "" from ps;
  take key := cv_key or noCKey from ps;
  take padding := cv_signaturePadding or 0%Z from ps;
  take digest := cv_digestFunction or 0%Z from ps;
  take custom := cv_map or ∅ from ps;
  take p := cv_string or "" from ps;
  rp_verify env m_cryptoPlugins pid id signature data key padding digest custom p.

(** case [EncryptRequest] *)
Definition cq_pendingEncrypt (pid id : Z) (ps : list CVariant) : CHandler :=
  take data := cv_bytes or "" from ps;
  take iv := cv_bytes or "" from ps;
  take key := cv_key or noCKey from ps;
  take blockMode := cv_blockMode or BlockModeUnknown from ps;
  take padding := cv_encryptionPadding or 0%Z from ps;
  take authenticationData := cv_bytes or "" from ps;
  take custom := cv_map or ∅ from ps;
  take p := cv_string or "" from ps;
  rp_encrypt env m_cryptoPlugins pid id data iv key blockMode padding authenticationData custom p.

(** case [DecryptRequest] *)
Definition cq_pendingDecrypt (pid id : Z) (ps : list CVariant) : CHandler :=
  take data := cv_bytes or "" from ps;
  take iv := cv_bytes or "" from ps;
  take key := cv_key or noCKey from ps;
  take blockMode := cv_blockMode or BlockModeUnknown from ps;
  take padding := cv_encryptionPadding or 0%Z from ps;
  take authenticationData := cv_bytes or "" from ps;
  take authenticationTag := cv_bytes or "" from ps;
  take custom := cv_map or ∅ from ps;
  take p := cv_string or "" from ps;
  rp_decrypt env m_cryptoPlugins pid id data iv key blockMode padding authenticationData
    authenticationTag custom p.

(** case [InitializeCipherSessionRequest] *)
Definition cq_pendingInitializeCipherSession (pid id : Z) (ps : list CVariant) : CHandler :=
  take iv := cv_bytes or "" from ps;
  take key := cv_key or noCKey from ps;
  take operation := cv_operation or OperationUnknown from ps;
  take blockMode := cv_blockMode or BlockModeUnknown from ps;
  take encryptionPadding := cv_encryptionPadding or 0%Z from ps;
  take signaturePadding := cv_signaturePadding or 0%Z from ps;
  take digest := cv_digestFunction or 0%Z from ps;
  take custom := cv_map or ∅ from ps;
  take p := cv_string or "" from ps;
  rp_initializeCipherSession env m_cryptoPlugins pid id iv key operation blockMode encryptionPadding
    signaturePadding digest custom p.

(** case [UpdateCipherSessionAuthenticationRequest] *)
Definition cq_pendingUpdateCipherSessionAuthentication (pid id : Z) (ps : list CVariant) : CHandler :=
  take authenticationData := cv_bytes or "" from ps;
  take custom := cv_map or ∅ from ps;
  take p := cv_string or "" from ps;
  take token := cv_number or 0%Z from ps;
  rp_updateCipherSessionAuthentication m_cryptoPlugins pid id authenticationData custom p token.

(** case [UpdateCipherSessionRequest] *)
Definition cq_pendingUpdateCipherSession (pid id : Z) (ps : list CVariant) : CHandler :=
  take data := cv_bytes or "" from ps;
  take custom := cv_map or ∅ from ps;
  take p := cv_string or "" from ps;
  take token := cv_number or 0%Z from ps;
  rp_updateCipherSession m_cryptoPlugins pid id data custom p token.

(** case [FinalizeCipherSessionRequest] *)
Definition cq_pendingFinalizeCipherSession (pid id : Z) (ps : list CVariant) : CHandler :=
  take data := cv_bytes or "" from ps;
  take custom := cv_map or ∅ from ps;
  take p := cv_string or "" from ps;
  take token := cv_number or 0%Z from ps;
  rp_finalizeCipherSession m_cryptoPlugins pid id data custom p token.

(** case [QueryLockStatusRequest] *)
Definition cq_pendingQueryLockStatus (pid id : Z) (ps : list CVariant) : CHandler :=
  take type := cv_targetType or ExtensionPlugin from ps;
  take target := cv_string or "" from ps;
  rp_queryLockStatus m_cryptoPlugins pid id type target.

(** case [ModifyLockCodeRequest] *)
Definition cq_pendingModifyLockCode (pid id : Z) (ps : list CVariant) : CHandler :=
  take type := cv_targetType or ExtensionPlugin from ps;
  take target := cv_string or "" from ps;
  take ip := cv_interaction or noInteraction from ps;
  rp_modifyLockCode m_cryptoPlugins pid id type target ip.

(** case [ProvideLockCodeRequest] *)
Definition cq_pendingProvideLockCode (pid id : Z) (ps : list CVariant) : CHandler :=
  take type := cv_targetType or ExtensionPlugin from ps;
  take target := cv_string or "" from ps;
  take ip := cv_interaction or noInteraction from ps;
  rp_provideLockCode m_cryptoPlugins pid id type target ip.

(** case [ForgetLockCodeRequest] *)
Definition cq_pendingForgetLockCode (pid id : Z) (ps : list CVariant) : CHandler :=
  take type := cv_targetType or ExtensionPlugin from ps;
  take target := cv_string or "" from ps;
  take ip := cv_interaction or noInteraction from ps;
  rp_forgetLockCode m_cryptoPlugins pid id type target ip.

(** [CryptoRequestQueue::handlePendingRequest], without the reply.  [None]: the
    request for information on plugins, and types that are not requests. *)
Definition cq_handlePendingRequest (type : CryptoRequestType) (pid id : Z) (ps : list CVariant)
  : option CHandler :=
  match type with
  | RInvalid | RGetPluginInfo => None
  | RGenerateRandomData => Some (cq_pendingGenerateRandomData pid id ps)
  | RSeedRandomDataGenerator => Some (cq_pendingSeedRandomDataGenerator pid id ps)
  | RGenerateInitializationVector => Some (cq_pendingGenerateInitializationVector pid id ps)
  | RGenerateKey => Some (cq_pendingGenerateKey pid id ps)
  | RGenerateStoredKey => Some (cq_pendingGenerateStoredKey pid id ps)
  | RImportKey => Some (cq_pendingImportKey pid id ps)
  | RImportStoredKey => Some (cq_pendingImportStoredKey pid id ps)
  | RStoredKey => Some (cq_pendingStoredKey pid id ps)
  | RDeleteStoredKey => Some (cq_pendingDeleteStoredKey pid id ps)
  | RStoredKeyIdentifiers => Some (cq_pendingStoredKeyIdentifiers pid id ps)
  | RCalculateDigest => Some (cq_pendingCalculateDigest pid id ps)
  | RSign => Some (cq_pendingSign pid id ps)
  | RVerify => Some (cq_pendingVerify pid id ps)
  | REncrypt => Some (cq_pendingEncrypt pid id ps)
  | RDecrypt => Some (cq_pendingDecrypt pid id ps)
  | RInitializeCipherSession => Some (cq_pendingInitializeCipherSession pid id ps)
  | RUpdateCipherSessionAuthentication =>
      Some (cq_pendingUpdateCipherSessionAuthentication pid id ps)
  | RUpdateCipherSession => Some (cq_pendingUpdateCipherSession pid id ps)
  | RFinalizeCipherSession => Some (cq_pendingFinalizeCipherSession pid id ps)
  | RQueryLockStatus => Some (cq_pendingQueryLockStatus pid id ps)
  | RModifyLockCode => Some (cq_pendingModifyLockCode pid id ps)
  | RProvideLockCode => Some (cq_pendingProvideLockCode pid id ps)
  | RForgetLockCode => Some (cq_pendingForgetLockCode pid id ps)
  end.
End service.

(** * The reply *)

(** The values that follow the result in a reply which [handlePendingRequest]
    sends: the output parameters, as far as the processor set them, else as they
    were declared.  A verification status is sent as a number, and the lock
    status is not initialized. *)
Definition cq_default_out (type : CryptoRequestType) : list CVariant :=
  match type with
  | RGenerateRandomData | RGenerateInitializationVector | RCalculateDigest | RSign
  | RUpdateCipherSession => [CVBytes ""]
  | RGenerateKey | RGenerateStoredKey | RImportKey | RImportStoredKey | RStoredKey => [CVKey noCKey]
  | RStoredKeyIdentifiers => [CVIdentifiers []]
  | RVerify => [CVNumber VerificationStatusUnknown]
  | REncrypt => [CVBytes ""; CVBytes ""]
  | RDecrypt | RFinalizeCipherSession => [CVBytes ""; CVNumber VerificationStatusUnknown]
  | RInitializeCipherSession => [CVNumber 0]
  | RQueryLockStatus => [CVUninitialized]
  | _ => []
  end.

(** The end of each case of [handlePendingRequest]: the reply, unless the
    request is pending, and [*completed]. *)
Definition cq_pendingReply (type : CryptoRequestType) (r : CResult) (out : list CVariant)
  : option (CResult * list CVariant) * bool :=
  if c_is_pending r then (None, false)
  else (Some (r, out ++ drop (length out) (cq_default_out type)), true).

(** Each case of [handleFinishedRequest]: the result and the values that the
    processor reported ([outParams]), or the given ones where values are missing
    ([request->outParams.size() ? request->outParams.takeFirst().value<T>() : T()]);
    no reply for a result that is still [Pending]. *)
Definition cq_finished (requestName : string) (defaults : list CVariant)
  (outParams : option (CResult * list CVariant)) : option (CResult * list CVariant) * bool :=
  let '(r, out) :=
    default (cresult_error C_UnknownError
               ("Unable to determine result of " +:+ requestName +:+ " request"), [])
      outParams in
  if c_is_pending r then (None, true)
  else (Some (r, take (length defaults) out ++ drop (length out) defaults), true).

Definition cq_finishedGenerateRandomData := cq_finished "GenerateRandomDataRequest" [CVBytes ""].
Definition cq_finishedSeedRandomDataGenerator := cq_finished "SeedRandomDataGeneratorRequest" [].
Definition cq_finishedGenerateInitializationVector :=
  cq_finished "GenerateInitializationVectorRequest" [CVBytes ""].
Definition cq_finishedGenerateKey := cq_finished "GenerateKeyRequest" [CVKey noCKey].
Definition cq_finishedGenerateStoredKey := cq_finished "GenerateStoredKeyRequest" [CVKey noCKey].
Definition cq_finishedImportKey := cq_finished "ImportKeyRequest" [CVKey noCKey].
Definition cq_finishedImportStoredKey := cq_finished "ImportStoredKeyRequest" [CVKey noCKey].
Definition cq_finishedStoredKey := cq_finished "StoredKeyRequest" [CVKey noCKey].
Definition cq_finishedDeleteStoredKey := cq_finished "DeleteStoredKeyRequest" [].
Definition cq_finishedStoredKeyIdentifiers :=
  cq_finished "StoredKeyIdentifiersRequest" [CVIdentifiers []].
(** The text of the error names another request. *)
Definition cq_finishedCalculateDigest := cq_finished "SignRequest" [CVBytes ""].
Definition cq_finishedSign := cq_finished "SignRequest" [CVBytes ""].
Definition cq_finishedVerify :=
  cq_finished "VerifyRequest" [CVVerificationStatus VerificationStatusUnknown].
Definition cq_finishedEncrypt := cq_finished "EncryptRequest" [CVBytes ""; CVBytes ""].
Definition cq_finishedDecrypt :=
  cq_finished "DecryptRequest" [CVBytes ""; CVVerificationStatus VerificationStatusUnknown].
(** The reply has one value more than that of [handlePendingRequest]. *)
Definition cq_finishedInitializeCipherSession :=
  cq_finished "InitializeCipherSessionRequest" [CVNumber 0; CVBytes ""].
Definition cq_finishedUpdateCipherSessionAuthentication :=
  cq_finished "UpdateCipherSessionAuthenticationRequest" [].
Definition cq_finishedUpdateCipherSession := cq_finished "UpdateCipherSessionRequest" [CVBytes ""].
Definition cq_finishedFinalizeCipherSession :=
  cq_finished "FinalizeCipherSessionRequest" [CVBytes ""; CVVerificationStatus VerificationStatusUnknown].
Definition cq_finishedQueryLockStatus :=
  cq_finished "QueryLockStatusRequest" [CVLockStatus UnknownLockStatus].
Definition cq_finishedModifyLockCode := cq_finished "ModifyLockCodeRequest" [].
Definition cq_finishedProvideLockCode := cq_finished "ProvideLockCodeRequest" [].
Definition cq_finishedForgetLockCode := cq_finished "ForgetLockCodeRequest" [].

(** [CryptoRequestQueue::handleFinishedRequest]: the reply and [*completed]. *)
Definition cq_handleFinishedRequest (type : CryptoRequestType)
  : option (CResult * list CVariant) → option (CResult * list CVariant) * bool :=
  match type with
  | RGenerateRandomData => cq_finishedGenerateRandomData
  | RSeedRandomDataGenerator => cq_finishedSeedRandomDataGenerator
  | RGenerateInitializationVector => cq_finishedGenerateInitializationVector
  | RGenerateKey => cq_finishedGenerateKey
  | RGenerateStoredKey => cq_finishedGenerateStoredKey
  | RImportKey => cq_finishedImportKey
  | RImportStoredKey => cq_finishedImportStoredKey
  | RStoredKey => cq_finishedStoredKey
  | RDeleteStoredKey => cq_finishedDeleteStoredKey
  | RStoredKeyIdentifiers => cq_finishedStoredKeyIdentifiers
  | RCalculateDigest => cq_finishedCalculateDigest
  | RSign => cq_finishedSign
  | RVerify => cq_finishedVerify
  | REncrypt => cq_finishedEncrypt
  | RDecrypt => cq_finishedDecrypt
  | RInitializeCipherSession => cq_finishedInitializeCipherSession
  | RUpdateCipherSessionAuthentication => cq_finishedUpdateCipherSessionAuthentication
  | RUpdateCipherSession => cq_finishedUpdateCipherSession
  | RFinalizeCipherSession => cq_finishedFinalizeCipherSession
  | RQueryLockStatus => cq_finishedQueryLockStatus
  | RModifyLockCode => cq_finishedModifyLockCode
  | RProvideLockCode => cq_finishedProvideLockCode
  | RForgetLockCode => cq_finishedForgetLockCode
  | RInvalid | RGetPluginInfo => λ _, (None, false)
  end.
