(* ===== verification/CryptoSystem.v ===== *)
(** The crypto service at work: requests, operations in the threads of the
    plugins, and the answers of the secrets service, as a transition system.

    Operations of plugins and the queue of the secrets service are answered by
    functions over a state [W] of the surroundings, which are parameters.  There
    are two plugin threads, and a plugin belongs to one of them; the operations
    are taken to finish in any order. *)
From S2P Require Import Prelude Result MetadataDb PluginApi PluginWrapper PluginFunctionWrappers Processor SecretsService.
From S2P Require Import CryptoManager CryptoKey KeySerialization CryptoPluginWrapper CryptoFunctionWrappers CryptoProcessor CryptoService.

(** What has happened in the course of a request. *)
Inductive CEvent :=
  | CEvCall (c : CryptoHelperCall)          (* a request to the secrets service was queued *)
  | CEvSignal (signal : CryptoSignal)       (* it was answered *)
  | CEvRun {A} (op : CryptoOp A) (a : A).   (* a plugin did an operation *)

(** Who asks, for what, and what has happened. *)
Record CContext := mkContext {
  cx_pid : Z;
  cx_id : Z;
  cx_call : CryptoCall;
  cx_history : list CEvent;
}.

Definition noted (e : CEvent) (x : CContext) : CContext :=
  mkContext (cx_pid x) (cx_id x) (cx_call x) (cx_history x ++ [e]).

(** An operation that was started, or that is [done] and whose callback has not
    run yet. *)
Record CTask := mkCTask { ct_context : CContext; ct_done : bool; ct_handler : CHandler }.
Definition ct_id (t : CTask) : Z := cx_id (ct_context t).

(** An answer: what the processor said, and what is sent to the caller. *)
Record CReport := mkCReport {
  crep_context : CContext;
  crep_result : CResult;
  crep_out : list CVariant;
  crep_reply : option (CResult * list CVariant);
}.
Definition crep_id (r : CReport) : Z := cx_id (crep_context r).

Inductive CFailure := HasCrashed | HasMisread.

(** [cs_helpers]: what the secrets service remembers of the requests of the
    crypto service ([m_cryptoApiHelperRequests]).  [cs_waiting]: the contexts of
    the pending requests.  [cs_accepted], [cs_reports] and [cs_performed] are
    records of what was done, the latest first. *)
Record CSystem (W : Type) := mkCSystem {
  cs_world : W;
  cs_pending : gmap Z CryptoPending;
  cs_helpers : gmap Z CryptoApiHelperRequestType;
  cs_tasks : list CTask;
  cs_waiting : gmap Z CContext;
  cs_accepted : list Z;
  cs_reports : list CReport;
  cs_performed : list (CContext * CEvent);
  cs_stuck : option CFailure;
}.
Arguments mkCSystem {W}.
Arguments cs_world {W}.
Arguments cs_pending {W}.
Arguments cs_helpers {W}.
Arguments cs_tasks {W}.
Arguments cs_waiting {W}.
Arguments cs_accepted {W}.
Arguments cs_reports {W}.
Arguments cs_performed {W}.
Arguments cs_stuck {W}.

Section system.
  Context {W : Type}.
  (** A plugin does an operation; the secrets service queues a request. *)
  Context (perform : ∀ A, CryptoOp A → M W A) (enqueue : Z → Z → CryptoHelperCall → M W Result).
  Context `{!QDataStream} (env : Environment) (m_cryptoPlugins : gmap string bool).

Implicit Types s : CSystem W.

Definition cs_park (x : CContext) (p : CryptoPending) s : CSystem W :=
  mkCSystem (cs_world s) (<[cpr_requestId p := p]> (cs_pending s)) (cs_helpers s) (cs_tasks s)
    (<[cx_id x := x]> (cs_waiting s)) (cs_accepted s) (cs_reports s) (cs_performed s) (cs_stuck s).

Definition cs_unpark (id : Z) s : CSystem W :=
  mkCSystem (cs_world s) (delete id (cs_pending s)) (cs_helpers s) (cs_tasks s)
    (delete id (cs_waiting s)) (cs_accepted s) (cs_reports s) (cs_performed s) (cs_stuck s).

Definition cs_with_tasks (l : list CTask) s : CSystem W :=
  mkCSystem (cs_world s) (cs_pending s) (cs_helpers s) l (cs_waiting s) (cs_accepted s)
    (cs_reports s) (cs_performed s) (cs_stuck s).

Definition cs_with_helpers (m : gmap Z CryptoApiHelperRequestType) s : CSystem W :=
  mkCSystem (cs_world s) (cs_pending s) m (cs_tasks s) (cs_waiting s) (cs_accepted s)
    (cs_reports s) (cs_performed s) (cs_stuck s).

Definition cs_accept (id : Z) s : CSystem W :=
  mkCSystem (cs_world s) (cs_pending s) (cs_helpers s) (cs_tasks s) (cs_waiting s)
    (id :: cs_accepted s) (cs_reports s) (cs_performed s) (cs_stuck s).

Definition cs_report (r : CReport) s : CSystem W :=
  mkCSystem (cs_world s) (cs_pending s) (cs_helpers s) (cs_tasks s) (cs_waiting s) (cs_accepted s)
    (r :: cs_reports s) (cs_performed s) (cs_stuck s).

Definition cs_set_stuck (f : CFailure) s : CSystem W :=
  mkCSystem (cs_world s) (cs_pending s) (cs_helpers s) (cs_tasks s) (cs_waiting s) (cs_accepted s)
    (cs_reports s) (cs_performed s) (Some f).

Definition cs_perform (x : CContext) (e : CEvent) (w : W) s : CSystem W :=
  mkCSystem w (cs_pending s) (cs_helpers s) (cs_tasks s) (cs_waiting s) (cs_accepted s)
    (cs_reports s) ((x, e) :: cs_performed s) (cs_stuck s).

(** The type of the request that a method makes. *)
Definition cx_type (x : CContext) : CryptoRequestType := (CryptoDBusObject env (cx_call x)).1.

(** Ask the secrets service: the request is queued there, and remembered. *)
Definition ask_secrets (x : CContext) (c : CryptoHelperCall) : M (CSystem W) Result := λ s,
  let '(enqueued, w) := enqueue (cx_pid x) (cx_id x) c (cs_world s) in
  let '(r, helpers) := remember (cx_id x) c enqueued (cs_helpers s) in
  (r, cs_with_helpers helpers (cs_perform x (CEvCall c) w s)).

(** The main thread runs a handler until it returns, reports, or starts an
    operation.  A result that a method of the processor returns is sent, unless
    it is [Pending]; nobody looks at what a callback returns. *)
Fixpoint c_advance (callback : bool) (x : CContext) (h : CHandler) s : CSystem W :=
  match h with
  | CReturn r out =>
      if c_is_pending r || callback then s
      else cs_report (mkCReport x r out (cq_pendingReply (cx_type x) r out).1) s
  | CFinish r out =>
      cs_report (mkCReport x r out (cq_handleFinishedRequest (cx_type x) (Some (r, out))).1) s
  | CCrash => cs_set_stuck HasCrashed s
  | CMismatch => cs_set_stuck HasMisread s
  | CPark p h => c_advance callback x h (cs_park x p s)
  | CTake k => c_advance callback x (k (cs_pending s !! cx_id x)) (cs_unpark (cx_id x) s)
  | CSecrets c k =>
      let '(r, s) := ask_secrets x c s in
      c_advance callback (if bool_decide (code r = Failed) then x else noted (CEvCall c) x) (k r) s
  | CRun op k => cs_with_tasks (cs_tasks s ++ [mkCTask x false (CRun op k)]) s
  end.

(** A plugin thread does the operation of a task. *)
Definition c_work (t : CTask) s : CTask * CSystem W :=
  match ct_handler t with
  | CRun op k =>
      let '(a, w) := perform _ op (cs_world s) in
      (mkCTask (noted (CEvRun op a) (ct_context t)) true (k a),
       cs_perform (ct_context t) (CEvRun op a) w s)
  | _ => (t, s)
  end.

(** The requests that are being handled. *)
Definition c_active s (id : Z) : Prop := id ∈ ct_id <$> cs_tasks s ∨ is_Some (cs_pending s !! id).

(** A step: a request arrives and is dispatched; a plugin thread does an
    operation; the callback of one runs; the secrets service has completed a
    request, which it does not do with the result [Pending]. *)
Inductive c_step s : CSystem W → Prop :=
  | c_step_request pid id c type ps h :
      CryptoDBusObject env c = (type, ps) →
      cq_handlePendingRequest env m_cryptoPlugins type pid id ps = Some h →
      ¬ c_active s id →
      c_step s (c_advance false (mkContext pid id c []) h (cs_accept id s))
  | c_step_work l t l' t' s' :
      cs_tasks s = l ++ t :: l' → ct_done t = false → c_work t s = (t', s') →
      c_step s (cs_with_tasks (l ++ t' :: l') s')
  | c_step_callback l t l' :
      cs_tasks s = l ++ t :: l' → ct_done t = true →
      c_step s (c_advance true (ct_context t) (ct_handler t) (cs_with_tasks (l ++ l') s))
  | c_step_signal id r values signal helpers x :
      code r ≠ Pending →
      asynchronousCryptoRequestCompleted id r values (cs_helpers s) = (Some signal, helpers) →
      cs_waiting s !! id = Some x →
      c_step s (c_advance true (noted (CEvSignal signal) x)
                  (rp_slot env m_cryptoPlugins id signal) (cs_with_helpers helpers s)).

Definition c_initial (w : W) : CSystem W := mkCSystem w ∅ ∅ [] ∅ [] [] [] None.
Definition c_reachable (w : W) : CSystem W → Prop := rtc c_step (c_initial w).
End system.
