(* ===== verification/CryptoPromises.v ===== *)
(** The promises of the crypto service: which operations it starts for whom and
    after which checks, what it asks of the secrets service, and what its answers
    are.  Every handler keeps them, and so they hold in every state of the system
    that is reached. *)
From S2P Require Import Prelude Result MetadataDb PluginApi PluginWrapper PluginFunctionWrappers Processor SecretsService ProcessorAnswers.
From S2P Require Import CryptoManager CryptoKey KeySerialization CryptoPluginWrapper CryptoFunctionWrappers CryptoProcessor CryptoService CryptoSystem.

(** * The promises *)

Section promises.
  Context `{!QDataStream} (env : Environment) (m_cryptoPlugins : gmap string bool).

(** The request to the secrets service that is not answered yet. *)
Definition outstanding (hist : list CEvent) : option CryptoHelperCall :=
  match last hist with Some (CEvCall c) => Some c | _ => None end.

(** The last thing that happened is that a plugin did this. *)
Definition ran {A} (hist : list CEvent) (op : CryptoOp A) (a : A) : Prop :=
  ∃ h, hist = h ++ [CEvRun op a].

(** The secrets service has allowed to use a key of the plugin [p], or handed
    out a key. *)
Definition use_checked (i : Identifier) (operation : Z) (p : string) (r : Result) (ck : Key)
  : list CEvent :=
  [CEvCall (HUseKeyPreCheck i operation p); CEvSignal (useKeyPreCheckCompleted r ck)].
Definition fetched (i : Identifier) (r : Result) (data : bytes) (fd : FilterData) : list CEvent :=
  [CEvCall (HStoredKey i); CEvSignal (storedKeyCompleted r data fd)].
(** It has allowed to store a key. *)
Definition store_checked (i : Identifier) (r : Result) (ck : Key) : list CEvent :=
  [CEvCall (HStoreKeyPreCheck i); CEvSignal (storeKeyPreCheckCompleted r ck)].

(** How an operation comes to its key [key], when the caller named [given]: it is
    the caller's own; or it names a key of the plugin, and the secrets service
    has allowed the operation and given the key of the collection; or the key has
    been fetched from another plugin. *)
Inductive obtained (reference : bool) (given : CKey) (operation : Z) (p : string)
  : list CEvent → CKey → Key → Prop :=
  | obtained_own : reference = false → obtained reference given operation p [] given noKey
  | obtained_stored r ck :
      reference = true → ok r = true → ident_storagePluginName (k_identifier given) = p →
      obtained reference given operation p
        (use_checked (k_identifier given) operation p r ck) given ck
  | obtained_fetched r data fd :
      reference = true → ok r = true → ident_storagePluginName (k_identifier given) ≠ p →
      obtained reference given operation p
        (fetched (k_identifier given) r data fd) (deserialize data).1 noKey.

(** The history begins with a successful check of the template, and the key of
    the collection is the one that the check gave. *)
Definition checked_template (t : CKey) (ck : Key) (hist : list CEvent) : Prop :=
  ∃ r h, ok r = true ∧ hist = store_checked (k_identifier t) r ck ++ h.

(** What the user entered in the course of a request: as a passphrase, which is empty
    at first, and as input for the derivation of a key. *)
Definition entered (hist : list CEvent) (input : bytes) : Prop :=
  ∃ r, CEvSignal (userInputCompleted r input) ∈ hist.
Definition passphrase_of (hist : list CEvent) (pass : bytes) : Prop := pass = "" ∨ entered hist pass.
Definition derivation_of (given skdf : KeyDerivationParameters) (hist : list CEvent) : Prop :=
  skdf = given ∨ ∃ input, entered hist input ∧ skdf = setInputData input given.

(** The operations that may be started for a request of a caller. *)
Definition op_allowed {A} (x : CContext) (op : CryptoOp A) : Prop :=
  let hist := cx_history x in
  match op with
  | K_generateRandomData p custom client engine n =>
      client = cx_pid x ∧ ∃ p', p = mappedPluginName env p'
        ∧ cx_call x = XGenerateRandomData n engine custom p'
  | K_seedRandomDataGenerator p custom client engine seed entropy =>
      client = cx_pid x ∧ ∃ p', p = mappedPluginName env p'
        ∧ cx_call x = XSeedRandomDataGenerator seed entropy engine custom p'
  | K_generateInitializationVector p custom a b n =>
      ∃ p', p = mappedPluginName env p' ∧ cx_call x = XGenerateInitializationVector a b n custom p'
  | K_generateKey p custom t kpg skdf =>
      ∃ t' p', t = map_key env t' ∧ p = mappedPluginName env p'
        ∧ (cx_call x = XGenerateKey t' kpg skdf custom p'
           ∨ (∃ skdf' ip ck, cx_call x = XGenerateStoredKey t' kpg skdf' ip custom p'
                ∧ checked_template t ck hist ∧ derivation_of skdf' skdf hist))
  | K_generateAndStoreKey p custom t kpg skdf ck =>
      ∃ t' skdf' ip p', t = map_key env t' ∧ p = mappedPluginName env p'
        ∧ cx_call x = XGenerateStoredKey t' kpg skdf' ip custom p' ∧ checked_template t ck hist
        ∧ derivation_of skdf' skdf hist
  | K_importKey p custom data pass =>
      ∃ ip p', p = mappedPluginName env p' ∧ passphrase_of hist pass
        ∧ (cx_call x = XImportKey data ip custom p'
           ∨ ∃ t' ck, cx_call x = XImportStoredKey data t' ip custom p'
               ∧ checked_template (map_key env t') ck hist)
  | K_importAndStoreKey p custom data t pass ck =>
      ∃ t' ip p', t = map_key env t' ∧ p = mappedPluginName env p'
        ∧ cx_call x = XImportStoredKey data t' ip custom p' ∧ checked_template t ck hist
        ∧ passphrase_of hist pass
  | K_storedKey p i components custom =>
      ∃ i', i = map_identifier env i' ∧ p = ident_storagePluginName i
        ∧ cx_call x = XStoredKey i' components custom
  | K_calculateDigest p custom data o =>
      ∃ p', p = mappedPluginName env p'
        ∧ cx_call x = XCalculateDigest data (so_padding o) (so_digest o) custom p'
  | K_sign p custom data key ck o =>
      ∃ given p', p = mappedPluginName env p'
        ∧ cx_call x = XSign data given (so_padding o) (so_digest o) custom p'
        ∧ obtained (lacks_private given) (map_key env given) OperationSign p hist key ck
  | K_verify p custom signature data key ck o =>
      ∃ given p', p = mappedPluginName env p'
        ∧ cx_call x = XVerify signature data given (so_padding o) (so_digest o) custom p'
        ∧ obtained (lacks_all given) (map_key env given) OperationVerify p hist key ck
  | K_encrypt p custom data iv key ck o ad =>
      ∃ given p', p = mappedPluginName env p'
        ∧ cx_call x = XEncrypt data iv given (eo_blockMode o) (eo_padding o) ad custom p'
        ∧ obtained (lacks_all given) (map_key env given) OperationEncrypt p hist key ck
  | K_decrypt p custom data iv key ck o ad tag =>
      ∃ given p', p = mappedPluginName env p'
        ∧ cx_call x = XDecrypt data iv given (eo_blockMode o) (eo_padding o) ad tag custom p'
        ∧ obtained (lacks_private given) (map_key env given) OperationDecrypt p hist key ck
  | K_initializeCipherSession p custom client iv key ck o =>
      client = cx_pid x ∧ ∃ given p', p = mappedPluginName env p'
        ∧ cx_call x = XInitializeCipherSession iv given (cso_operation o) (cso_blockMode o)
            (cso_encryptionPadding o) (cso_signaturePadding o) (cso_digestFunction o) custom p'
        ∧ obtained (lacks_private given) (map_key env given) (cso_operation o) p hist key ck
  | K_updateCipherSessionAuthentication p custom client ad token =>
      client = cx_pid x ∧ ∃ p', p = mappedPluginName env p'
        ∧ cx_call x = XUpdateCipherSessionAuthentication ad custom p' token
  | K_updateCipherSession p custom client data token =>
      client = cx_pid x ∧ ∃ p', p = mappedPluginName env p'
        ∧ cx_call x = XUpdateCipherSession data custom p' token
  | K_finalizeCipherSession p custom client data token =>
      client = cx_pid x ∧ ∃ p', p = mappedPluginName env p'
        ∧ cx_call x = XFinalizeCipherSession data custom p' token
  end.

(** Keys are given to the secrets service only after it has allowed to store one
    under the name that the caller gave, and they come from the plugin. *)
Definition call_allowed (x : CContext) (c : CryptoHelperCall) : Prop :=
  match c with
  | HStoreKey i data fd ck =>
      ∃ p custom r key,
        (∃ t kpg skdf, checked_template t ck (cx_history x)
           ∧ ran (cx_history x) (K_generateKey p custom t kpg skdf) (r, key)
           ∧ i = k_identifier key ∧ data = serialize key LossySerializationMode)
        ∨ (∃ t d pass, checked_template t ck (cx_history x)
             ∧ ran (cx_history x) (K_importKey p custom d pass) (r, key)
             ∧ i = k_identifier key
             ∧ data = serialize (set_origin OriginImported key) LossySerializationMode)
  | _ => True
  end.

(** How a key was obtained, if the call uses one. *)
Definition key_obtained (c : CryptoCall) (hist : list CEvent) (key : CKey) (ck : Key) : Prop :=
  match c with
  | XSign _ given _ _ _ p =>
      obtained (lacks_private given) (map_key env given) OperationSign (mappedPluginName env p)
        hist key ck
  | XVerify _ _ given _ _ _ p =>
      obtained (lacks_all given) (map_key env given) OperationVerify (mappedPluginName env p)
        hist key ck
  | XEncrypt _ _ given _ _ _ _ p =>
      obtained (lacks_all given) (map_key env given) OperationEncrypt (mappedPluginName env p)
        hist key ck
  | XDecrypt _ _ given _ _ _ _ _ p =>
      obtained (lacks_private given) (map_key env given) OperationDecrypt (mappedPluginName env p)
        hist key ck
  | XInitializeCipherSession _ given o _ _ _ _ _ p =>
      obtained (lacks_private given) (map_key env given) o (mappedPluginName env p) hist key ck
  | _ => False
  end.

(** The interaction that a request about the lock of a plugin asks for. *)
Definition lock_interaction (operation : Operation) (target : string) (ip : InteractionParameters)
  : InteractionParameters :=
  mkInteraction "" "" (mappedPluginName env target) "" operation
    (ip_authenticationPluginName (map_interaction env ip)) (ip_inputType (map_interaction env ip)).
Definition lock_target (type : LockCodeTargetType) (target : string) : string :=
  if bool_decide (type = ExtensionPlugin) then mappedPluginName env target else "".

(** A successful answer to a request is the answer of the plugin to the
    operation that was asked for, with the arguments of the request and the key that
    was obtained for it, or the answer of the secrets service; with one exception: a
    key that is imported to be stored elsewhere is answered with the template that
    the caller gave. *)
Definition answer_of (x : CContext) (r : CResult) (out : list CVariant) : Prop :=
  let hist := cx_history x in
  let pid := cx_pid x in
  let m := mappedPluginName env in
  match cx_call x with
  | XGenerateRandomData n engine custom p =>
      ∃ d, ran hist (K_generateRandomData (m p) custom pid engine n) (r, d) ∧ out = [CVBytes d]
  | XSeedRandomDataGenerator seed entropy engine custom p =>
      ran hist (K_seedRandomDataGenerator (m p) custom pid engine seed entropy) r ∧ out = []
  | XGenerateInitializationVector a b n custom p =>
      ∃ d, ran hist (K_generateInitializationVector (m p) custom a b n) (r, d) ∧ out = [CVBytes d]
  | XGenerateKey t kpg skdf custom p =>
      ∃ k, ran hist (K_generateKey (m p) custom (map_key env t) kpg skdf) (r, k) ∧ out = [CVKey k]
  | XGenerateStoredKey t kpg given _ custom p =>
      ∃ h k skdf ck, out = [CVKey (rp_partialKey k)]
        ∧ checked_template (map_key env t) ck h ∧ derivation_of given skdf h
        ∧ (hist = h ++ [CEvRun (K_generateAndStoreKey (m p) custom (map_key env t) kpg skdf ck) (r, k)]
           ∨ (∃ r' r'',
                hist = h ++ [CEvRun (K_generateKey (m p) custom (map_key env t) kpg skdf) (r', k);
                             CEvCall (HStoreKey (k_identifier k) (serialize k LossySerializationMode)
                                        (k_filterData k) ck);
                             CEvSignal (storeKeyCompleted r'')]
                ∧ c_failed r' = false ∧ ok r'' = true))
  | XImportKey data _ custom p =>
      ∃ h k pass, hist = h ++ [CEvRun (K_importKey (m p) custom data pass) (r, k)]
        ∧ passphrase_of h pass ∧ out = [CVKey (set_origin OriginImported k)]
  | XImportStoredKey data t _ custom p =>
      ∃ h k pass ck, checked_template (map_key env t) ck h ∧ passphrase_of h pass
        ∧ (hist = h ++ [CEvRun (K_importAndStoreKey (m p) custom data (map_key env t) pass ck) (r, k)]
           ∧ out = [CVKey (set_origin OriginImported k)]
           ∨ (∃ r' r'',
                hist = h ++ [CEvRun (K_importKey (m p) custom data pass) (r', k);
                             CEvCall (HStoreKey (k_identifier k)
                                        (serialize (set_origin OriginImported k) LossySerializationMode)
                                        (k_filterData k) ck);
                             CEvSignal (storeKeyCompleted r'')]
                ∧ c_ok r' = true ∧ ok r'' = true
                ∧ out = [CVKey (rp_partialKey (map_key env t))]))
  | XStoredKey i components custom =>
      let i := map_identifier env i in
      (∃ k, ran hist (K_storedKey (ident_storagePluginName i) i components custom) (r, k)
         ∧ out = [CVKey k])
      ∨ (∃ r' data fd, hist = fetched i r' data fd ∧ ok r' = true
           ∧ out = [CVKey (nullifyKeyFields components (set_filterData fd (deserialize data).1))])
  | XDeleteStoredKey i =>
      ∃ r', hist = [CEvCall (HDeleteStoredKey (map_identifier env i));
                    CEvSignal (deleteStoredKeyCompleted r')] ∧ ok r' = true ∧ out = []
  | XStoredKeyIdentifiers p c custom =>
      ∃ r' l, hist = [CEvCall (HStoredKeyIdentifiers c (m p) custom);
                      CEvSignal (storedKeyIdentifiersCompleted r' l)] ∧ ok r' = true
        ∧ out = [CVIdentifiers l]
  | XCalculateDigest data padding digest custom p =>
      ∃ d, ran hist (K_calculateDigest (m p) custom data (mkSignatureOptions padding digest)) (r, d)
        ∧ out = [CVBytes d]
  | XSign data _ padding digest custom p =>
      ∃ h key ck d, out = [CVBytes d] ∧ key_obtained (cx_call x) h key ck
        ∧ hist = h ++ [CEvRun (K_sign (m p) custom data key ck (mkSignatureOptions padding digest)) (r, d)]
  | XVerify signature data _ padding digest custom p =>
      ∃ h key ck v, out = [CVVerificationStatus v] ∧ key_obtained (cx_call x) h key ck
        ∧ hist = h ++ [CEvRun (K_verify (m p) custom signature data key ck
                                 (mkSignatureOptions padding digest)) (r, v)]
  | XEncrypt data iv _ b padding ad custom p =>
      ∃ h key ck d t, out = [CVBytes d; CVBytes t] ∧ key_obtained (cx_call x) h key ck
        ∧ hist = h ++ [CEvRun (K_encrypt (m p) custom data iv key ck (mkEncryptionOptions b padding) ad)
                         (r, (d, t))]
  | XDecrypt data iv _ b padding ad tag custom p =>
      ∃ h key ck d v, out = [CVBytes d; CVVerificationStatus v] ∧ key_obtained (cx_call x) h key ck
        ∧ hist = h ++ [CEvRun (K_decrypt (m p) custom data iv key ck (mkEncryptionOptions b padding) ad tag)
                         (r, (d, v))]
  | XInitializeCipherSession iv _ o b ep sp d custom p =>
      ∃ h key ck token, out = [CVNumber token] ∧ key_obtained (cx_call x) h key ck
        ∧ hist = h ++ [CEvRun (K_initializeCipherSession (m p) custom pid iv key ck
                                 (mkCipherSessionOptions o b ep sp d)) (r, token)]
  | XUpdateCipherSessionAuthentication ad custom p token =>
      ran hist (K_updateCipherSessionAuthentication (m p) custom pid ad token) r ∧ out = []
  | XUpdateCipherSession data custom p token =>
      ∃ d, ran hist (K_updateCipherSession (m p) custom pid data token) (r, d) ∧ out = [CVBytes d]
  | XFinalizeCipherSession data custom p token =>
      ∃ d v, ran hist (K_finalizeCipherSession (m p) custom pid data token) (r, (d, v))
        ∧ out = [CVBytes d; CVVerificationStatus v]
  | XQueryLockStatus type target =>
      ∃ r' status, hist = [CEvCall (HQueryLockStatus (lock_target type target));
                           CEvSignal (cryptoPluginLockStatusRequestCompleted r' status)]
        ∧ ok r' = true ∧ out = [CVLockStatus status]
  | XModifyLockCode type target ip =>
      ∃ r', hist = [CEvCall (HModifyLockCode (m target) (lock_interaction ModifyLockPlugin target ip));
                    CEvSignal (cryptoPluginLockCodeRequestCompleted r')] ∧ ok r' = true ∧ out = []
  | XProvideLockCode type target ip =>
      ∃ r', hist = [CEvCall (HProvideLockCode (m target) (lock_interaction UnlockPlugin target ip));
                    CEvSignal (cryptoPluginLockCodeRequestCompleted r')] ∧ ok r' = true ∧ out = []
  | XForgetLockCode type target ip =>
      ∃ r', hist = [CEvCall (HForgetLockCode (m target) (lock_interaction LockPlugin target ip));
                    CEvSignal (cryptoPluginLockCodeRequestCompleted r')] ∧ ok r' = true ∧ out = []
  end.

(** The result of an operation. *)
Definition op_result {A} (op : CryptoOp A) : A → CResult :=
  match op in CryptoOp A return A → CResult with
  | K_generateRandomData _ _ _ _ _ | K_generateInitializationVector _ _ _ _ _
  | K_generateKey _ _ _ _ _ | K_generateAndStoreKey _ _ _ _ _ _ | K_importKey _ _ _ _
  | K_importAndStoreKey _ _ _ _ _ _ | K_storedKey _ _ _ _ | K_calculateDigest _ _ _ _
  | K_sign _ _ _ _ _ _ | K_verify _ _ _ _ _ _ _ | K_encrypt _ _ _ _ _ _ _ _
  | K_decrypt _ _ _ _ _ _ _ _ _ | K_initializeCipherSession _ _ _ _ _ _ _
  | K_updateCipherSession _ _ _ _ _ | K_finalizeCipherSession _ _ _ _ _ => fst
  | K_seedRandomDataGenerator _ _ _ _ _ _ | K_updateCipherSessionAuthentication _ _ _ _ _ => id
  end.

(** * Pending requests *)

(** A key is stored in the crypto plugin itself only if that has a wrapper. *)
Definition storable (t : CKey) (p : string) : Prop :=
  p = ident_storagePluginName (k_identifier t) → rp_hasWrapper env p = true.

(** The requests that use a key which is only named: the key, the operation, the
    plugin, and the request as it waits for the check, or for the key. *)
Definition uses (pid id : Z) (c : CryptoCall)
  : option (CKey * Z * string * CryptoPending * CryptoPending) :=
  let m := mappedPluginName env in
  match c with
  | XSign data k padding digest custom p =>
      if negb (lacks_private k) then None else
      Some (map_key env k, OperationSign, m p,
        mkCryptoPending pid id RSign
          [CVBytes data; CVKey (map_key env k); CVSignaturePadding padding; CVDigestFunction digest;
           CVMap custom; CVString (m p)],
        mkCryptoPending pid id RSign
          [CVBytes data; CVSignaturePadding padding; CVDigestFunction digest; CVMap custom;
           CVString (m p)])
  | XVerify signature data k padding digest custom p =>
      if negb (lacks_all k) then None else
      Some (map_key env k, OperationVerify, m p,
        mkCryptoPending pid id RVerify
          [CVBytes signature; CVBytes data; CVKey (map_key env k); CVSignaturePadding padding;
           CVDigestFunction digest; CVMap custom; CVString (m p)],
        mkCryptoPending pid id RVerify
          [CVBytes signature; CVBytes data; CVSignaturePadding padding; CVDigestFunction digest;
           CVMap custom; CVString (m p)])
  | XEncrypt data iv k b padding ad custom p =>
      if negb (lacks_all k) then None else
      Some (map_key env k, OperationEncrypt, m p,
        mkCryptoPending pid id REncrypt
          [CVBytes data; CVBytes iv; CVKey (map_key env k); CVBlockMode b;
           CVEncryptionPadding padding; CVBytes ad; CVMap custom; CVString (m p)],
        mkCryptoPending pid id REncrypt
          [CVBytes data; CVBytes iv; CVBlockMode b; CVEncryptionPadding padding; CVBytes ad;
           CVMap custom; CVString (m p)])
  | XDecrypt data iv k b padding ad tag custom p =>
      if negb (lacks_private k) then None else
      Some (map_key env k, OperationDecrypt, m p,
        mkCryptoPending pid id RDecrypt
          [CVBytes data; CVBytes iv; CVKey (map_key env k); CVBlockMode b;
           CVEncryptionPadding padding; CVBytes ad; CVBytes tag; CVMap custom; CVString (m p)],
        mkCryptoPending pid id RDecrypt
          [CVBytes data; CVBytes iv; CVBlockMode b; CVEncryptionPadding padding; CVBytes ad;
           CVBytes tag; CVMap custom; CVString (m p)])
  | XInitializeCipherSession iv k o b ep sp d custom p =>
      if negb (lacks_private k) then None else
      Some (map_key env k, o, m p,
        mkCryptoPending pid id RInitializeCipherSession
          [CVBytes iv; CVKey (map_key env k); CVOperation o; CVBlockMode b; CVEncryptionPadding ep;
           CVSignaturePadding sp; CVDigestFunction d; CVMap custom; CVString (m p)],
        mkCryptoPending pid id RInitializeCipherSession
          [CVPid pid; CVBytes iv; CVOperation o; CVBlockMode b; CVEncryptionPadding ep;
           CVSignaturePadding sp; CVDigestFunction d; CVMap custom; CVString (m p)])
  | _ => None
  end.

Definition lock_pending (requestType : CryptoRequestType) (pid id : Z) (type : LockCodeTargetType)
  (target : string) (ip : InteractionParameters) : CryptoPending :=
  mkCryptoPending pid id requestType
    [CVPid pid; CVTargetType type; CVString (mappedPluginName env target);
     CVInteraction (map_interaction env ip)].

(** A request of [pid] that has come so far and is registered: its parameters. *)
Inductive awaits (pid id : Z) : CryptoCall → list CEvent → CryptoPending → Prop :=
  | aw_generate t kpg skdf ip custom p :
      storable (map_key env t) (mappedPluginName env p) →
      awaits pid id (XGenerateStoredKey t kpg skdf ip custom p)
        [CEvCall (HStoreKeyPreCheck (k_identifier (map_key env t)))]
        (mkCryptoPending pid id RGenerateStoredKey
           [CVKey (map_key env t); CVKeyPair kpg; CVKeyDerivation skdf; CVInteraction ip;
            CVMap custom; CVString (mappedPluginName env p)])
  | aw_generate_input t kpg skdf ip ip' custom p r ck :
      storable (map_key env t) (mappedPluginName env p) → ok r = true →
      awaits pid id (XGenerateStoredKey t kpg skdf ip custom p)
        (store_checked (k_identifier (map_key env t)) r ck ++ [CEvCall (HUserInput ip')])
        (mkCryptoPending pid id RGenerateStoredKey
           [CVKey (map_key env t); CVKeyPair kpg; CVKeyDerivation skdf; CVMap custom;
            CVString (mappedPluginName env p); CVCollectionKey ck])
  | aw_generate_store t kpg skdf skdf' ip custom p h r key ck :
      checked_template (map_key env t) ck h → derivation_of skdf skdf' h → c_failed r = false →
      awaits pid id (XGenerateStoredKey t kpg skdf ip custom p)
        (h ++ [CEvRun (K_generateKey (mappedPluginName env p) custom (map_key env t) kpg skdf')
                 (r, key);
               CEvCall (HStoreKey (k_identifier key) (serialize key LossySerializationMode)
                          (k_filterData key) ck)])
        (mkCryptoPending pid id RGenerateStoredKey [CVKey key])
  | aw_import data ip custom p h ip' :
      awaits pid id (XImportKey data ip custom p) (h ++ [CEvCall (HUserInput ip')])
        (mkCryptoPending pid id RImportKey
           [CVBytes data; CVInteraction (map_interaction env ip); CVMap custom;
            CVString (mappedPluginName env p)])
  | aw_importStored data t ip custom p :
      storable (map_key env t) (mappedPluginName env p) →
      awaits pid id (XImportStoredKey data t ip custom p)
        [CEvCall (HStoreKeyPreCheck (k_identifier (map_key env t)))]
        (mkCryptoPending pid id RImportStoredKey
           [CVBytes data; CVKey (map_key env t); CVInteraction (map_interaction env ip);
            CVMap custom; CVString (mappedPluginName env p)])
  | aw_importStored_input data t ip ip' custom p h ck :
      storable (map_key env t) (mappedPluginName env p) → checked_template (map_key env t) ck h →
      awaits pid id (XImportStoredKey data t ip custom p) (h ++ [CEvCall (HUserInput ip')])
        (rp_importStoredKey_pending pid id data (map_key env t) (map_interaction env ip) custom
           (mappedPluginName env p) ck)
  (* nobody has been asked *)
  | aw_importStored_lost data t ip custom p h pass r k ck :
      mappedPluginName env p ≠ ident_storagePluginName (k_identifier (map_key env t)) →
      rp_needsPassphrase r (map_interaction env ip) = true →
      awaits pid id (XImportStoredKey data t ip custom p)
        (h ++ [CEvRun (K_importKey (mappedPluginName env p) custom data pass) (r, k)])
        (rp_importStoredKey_pending pid id data (map_key env t) (map_interaction env ip) custom
           (mappedPluginName env p) ck)
  | aw_importStored_store data t ip custom p h pass r k ck :
      checked_template (map_key env t) ck h → passphrase_of h pass → c_ok r = true →
      awaits pid id (XImportStoredKey data t ip custom p)
        (h ++ [CEvRun (K_importKey (mappedPluginName env p) custom data pass) (r, k);
               CEvCall (HStoreKey (k_identifier k)
                          (serialize (set_origin OriginImported k) LossySerializationMode)
                          (k_filterData k) ck)])
        (mkCryptoPending pid id RImportStoredKey [CVKey (map_key env t)])
  | aw_storedKey i components custom :
      awaits pid id (XStoredKey i components custom) [CEvCall (HStoredKey (map_identifier env i))]
        (mkCryptoPending pid id RStoredKey
           [CVIdentifier (map_identifier env i); CVComponents components])
  | aw_deleteStoredKey i :
      awaits pid id (XDeleteStoredKey i) [CEvCall (HDeleteStoredKey (map_identifier env i))]
        (mkCryptoPending pid id RDeleteStoredKey [CVIdentifier (map_identifier env i)])
  | aw_storedKeyIdentifiers p c custom :
      awaits pid id (XStoredKeyIdentifiers p c custom)
        [CEvCall (HStoredKeyIdentifiers c (mappedPluginName env p) custom)]
        (mkCryptoPending pid id RStoredKeyIdentifiers [])
  | aw_use c given operation p stored elsewhere :
      uses pid id c = Some (given, operation, p, stored, elsewhere) →
      ident_storagePluginName (k_identifier given) = p →
      awaits pid id c [CEvCall (HUseKeyPreCheck (k_identifier given) operation p)] stored
  | aw_fetch c given operation p stored elsewhere :
      uses pid id c = Some (given, operation, p, stored, elsewhere) →
      ident_storagePluginName (k_identifier given) ≠ p →
      awaits pid id c [CEvCall (HStoredKey (k_identifier given))] elsewhere
  | aw_queryLockStatus type target :
      awaits pid id (XQueryLockStatus type target) [CEvCall (HQueryLockStatus (lock_target type target))]
        (mkCryptoPending pid id RQueryLockStatus
           [CVPid pid; CVTargetType type; CVString (mappedPluginName env target)])
  | aw_modifyLockCode type target ip :
      awaits pid id (XModifyLockCode type target ip)
        [CEvCall (HModifyLockCode (mappedPluginName env target) (lock_interaction ModifyLockPlugin target ip))]
        (lock_pending RModifyLockCode pid id type target ip)
  | aw_provideLockCode type target ip :
      awaits pid id (XProvideLockCode type target ip)
        [CEvCall (HProvideLockCode (mappedPluginName env target) (lock_interaction UnlockPlugin target ip))]
        (lock_pending RProvideLockCode pid id type target ip)
  | aw_forgetLockCode type target ip :
      awaits pid id (XForgetLockCode type target ip)
        [CEvCall (HForgetLockCode (mappedPluginName env target) (lock_interaction LockPlugin target ip))]
        (lock_pending RForgetLockCode pid id type target ip).
End promises.

(** * Handlers that keep the promises *)

(** Take booleans and results apart. *)
Ltac results :=
  unfold c_ok, c_failed, c_is_pending, ok, rp_needsPassphrase in *;
  rewrite ?transformSecretsResult_code in *;
  repeat case_bool_decide; simplify_eq/=.

Section safe.
  Context `{!QDataStream} (env : Environment) (m_cryptoPlugins : gmap string bool).

(** The arguments of a method, as they reach the processor. *)
Definition cq_direct (pid id : Z) (c : CryptoCall) : CHandler :=
  let m := mappedPluginName env in
  let mk := map_key env in
  let mi := map_interaction env in
  match c with
  | XGenerateRandomData n engine custom p =>
      rp_generateRandomData m_cryptoPlugins pid id n engine custom (m p)
  | XSeedRandomDataGenerator seed entropy engine custom p =>
      rp_seedRandomDataGenerator m_cryptoPlugins pid id seed entropy engine custom (m p)
  | XGenerateInitializationVector a b n custom p =>
      rp_generateInitializationVector m_cryptoPlugins pid id a b n custom (m p)
  | XGenerateKey t kpg skdf custom p =>
      rp_generateKey m_cryptoPlugins pid id (mk t) kpg skdf custom (m p)
  | XGenerateStoredKey t kpg skdf ip custom p =>
      rp_generateStoredKey env m_cryptoPlugins pid id (mk t) kpg skdf ip custom (m p)
  | XImportKey data ip custom p => rp_importKey m_cryptoPlugins pid id data (mi ip) custom (m p) ""
  | XImportStoredKey data t ip custom p =>
      rp_importStoredKey env m_cryptoPlugins pid id data (mk t) (mi ip) custom (m p)
  | XStoredKey i components custom =>
      rp_storedKey env m_cryptoPlugins pid id (map_identifier env i) components custom
  | XDeleteStoredKey i => rp_deleteStoredKey pid id (map_identifier env i)
  | XStoredKeyIdentifiers p c custom => rp_storedKeyIdentifiers pid id (m p) c custom
  | XCalculateDigest data padding digest custom p =>
      rp_calculateDigest m_cryptoPlugins pid id data padding digest custom (m p)
  | XSign data k padding digest custom p =>
      rp_sign env m_cryptoPlugins pid id data (mk k) padding digest custom (m p)
  | XVerify signature data k padding digest custom p =>
      rp_verify env m_cryptoPlugins pid id signature data (mk k) padding digest custom (m p)
  | XEncrypt data iv k b padding ad custom p =>
      rp_encrypt env m_cryptoPlugins pid id data iv (mk k) b padding ad custom (m p)
  | XDecrypt data iv k b padding ad tag custom p =>
      rp_decrypt env m_cryptoPlugins pid id data iv (mk k) b padding ad tag custom (m p)
  | XInitializeCipherSession iv k o b ep sp d custom p =>
      rp_initializeCipherSession env m_cryptoPlugins pid id iv (mk k) o b ep sp d custom (m p)
  | XUpdateCipherSessionAuthentication ad custom p token =>
      rp_updateCipherSessionAuthentication m_cryptoPlugins pid id ad custom (m p) token
  | XUpdateCipherSession data custom p token =>
      rp_updateCipherSession m_cryptoPlugins pid id data custom (m p) token
  | XFinalizeCipherSession data custom p token =>
      rp_finalizeCipherSession m_cryptoPlugins pid id data custom (m p) token
  | XQueryLockStatus type target => rp_queryLockStatus m_cryptoPlugins pid id type (m target)
  | XModifyLockCode type target ip =>
      rp_modifyLockCode m_cryptoPlugins pid id type (m target) (mi ip)
  | XProvideLockCode type target ip =>
      rp_provideLockCode m_cryptoPlugins pid id type (m target) (mi ip)
  | XForgetLockCode type target ip =>
      rp_forgetLockCode m_cryptoPlugins pid id type (m target) (mi ip)
  end.

(** What the D-Bus object packs into a list is what the processor gets. *)
Lemma cq_dispatch_direct pid id c :
  cq_handlePendingRequest env m_cryptoPlugins (CryptoDBusObject env c).1 pid id
    (CryptoDBusObject env c).2 = Some (cq_direct pid id c).
Proof. by destruct c. Qed.

(** The request is answered, and the answer is the right one. *)
Definition settled (x : CContext) (r : CResult) (out : list CVariant) : Prop :=
  outstanding (cx_history x) = None ∧ (c_ok r = true → answer_of env x r out).

(** Every path through the handler keeps the promises.  [callback] tells whether
    it is a callback, [parked] whether the request has been registered. *)
Fixpoint c_safe (callback parked : bool) (x : CContext) (h : CHandler) : Prop :=
  match h with
  | CReturn r out =>
      if c_is_pending r then parked = true
      else callback = false ∧ parked = false ∧ settled x r out
  | CFinish r out => c_code r ≠ Pending ∧ parked = false ∧ settled x r out
  | CCrash | CMismatch | CTake _ => False
  | CPark p h =>
      parked = false ∧ awaits env (cx_pid x) (cx_id x) (cx_call x) (cx_history x) p
      ∧ c_safe callback true x h
  | CSecrets c k =>
      parked = false ∧ outstanding (cx_history x) = None ∧ call_allowed x c
      ∧ (∀ r, code r = Failed → c_safe callback false x (k r))
      ∧ c_safe callback false (noted (CEvCall c) x) (k (result_of_code Pending))
  | CRun op k =>
      parked = false ∧ outstanding (cx_history x) = None ∧ op_allowed env x op
      ∧ ∀ a, c_code (op_result op a) ≠ Pending → c_safe true false (noted (CEvRun op a) x) (k a)
  end.

Lemma outstanding_last h e :
  outstanding (h ++ [e]) = match e with CEvCall c => Some c | _ => None end.
Proof. unfold outstanding. by rewrite last_snoc. Qed.

Lemma ran_last {A} h (op : CryptoOp A) a : ran (h ++ [CEvRun op a]) op a.
Proof. by exists h. Qed.

Lemma checked_template_app t ck h h' :
  checked_template t ck h → checked_template t ck (h ++ h').
Proof. intros (r & h0 & Hr & ->). exists r, (h0 ++ h'). by rewrite app_assoc. Qed.

(** A refusal. *)
Lemma c_fail_safe x e msg : outstanding (cx_history x) = None →
  (2 ≤ e)%Z → c_safe false false x (c_fail e msg).
Proof.
  intros Ho He. unfold c_fail, c_safe, cresult_error, settled, C_UnknownError.
  destruct (Z.leb_spec 2 e); [done|lia].
Qed.

Lemma rp_with_plugin_safe x p h :
  outstanding (cx_history x) = None → (is_Some (m_cryptoPlugins !! p) → c_safe false false x h) →
  c_safe false false x (rp_with_plugin m_cryptoPlugins p h).
Proof.
  intros Ho Hh. unfold rp_with_plugin. case_bool_decide as Hp.
  - by apply c_fail_safe.
  - apply Hh. by destruct (m_cryptoPlugins !! p).
Qed.

(** The nodes of a handler. *)
Lemma run_safe {A} callback x (op : CryptoOp A) k :
  outstanding (cx_history x) = None → op_allowed env x op →
  (∀ a, c_code (op_result op a) ≠ Pending → c_safe true false (noted (CEvRun op a) x) (k a)) →
  c_safe callback false x (CRun op k).
Proof. done. Qed.

Lemma finish_safe callback x r out :
  c_code r ≠ Pending → outstanding (cx_history x) = None →
  (c_ok r = true → answer_of env x r out) → c_safe callback false x (CFinish r out).
Proof. done. Qed.

Lemma finish_failed_safe callback x r out :
  c_code r ≠ Pending → outstanding (cx_history x) = None → c_ok r = false →
  c_safe callback false x (CFinish r out).
Proof. intros ?? Hr. apply finish_safe; [done..|congruence]. Qed.

Lemma park_safe callback x p r out :
  awaits env (cx_pid x) (cx_id x) (cx_call x) (cx_history x) p → c_is_pending r = true →
  c_safe callback false x (CPark p (CReturn r out)).
Proof. intros Hp Hr. simpl. by rewrite Hr. Qed.

(** A request to the secrets service: a failure is returned, or reported; else
    the request is registered. *)
Lemma ask_safe callback x c k :
  outstanding (cx_history x) = None → call_allowed x c →
  (∀ r, code r = Failed → c_safe callback false x (k r)) →
  c_safe callback false (noted (CEvCall c) x) (k (result_of_code Pending)) →
  c_safe callback false x (CSecrets c k).
Proof. done. Qed.

Lemma return_failed_safe x r out :
  outstanding (cx_history x) = None → code r = Failed →
  c_safe false false x (CReturn (transformSecretsResult r) out).
Proof.
  intros Ho Hr. unfold c_safe, c_is_pending, settled. rewrite transformSecretsResult_ok.
  rewrite transformSecretsResult_code, Hr. simpl. unfold ok. by rewrite Hr.
Qed.

Lemma finish_secrets_failed_safe callback x r out :
  outstanding (cx_history x) = None → code r = Failed →
  c_safe callback false x (CFinish (transformSecretsResult r) out).
Proof.
  intros Ho Hr. apply finish_failed_safe; [|done|].
  - by rewrite transformSecretsResult_code, Hr.
  - rewrite transformSecretsResult_ok. unfold ok. by rewrite Hr.
Qed.

Lemma failed_not_pending r : code r = Failed →
  c_is_pending (transformSecretsResult r) = false ∧ c_failed (transformSecretsResult r) = true.
Proof. intros Hr. unfold c_is_pending, c_failed. by rewrite transformSecretsResult_code, Hr. Qed.

#[local] Arguments c_safe : simpl never.

(** The requests that the plugin answers alone. *)
Ltac answered :=
  repeat match goal with |- ∃ _, _ => eexists end; split_and!; first [by exists [] | done].

Ltac plugin_alone :=
  apply rp_with_plugin_safe; [done|]; intros _; apply run_safe; [done|by simpl; naive_solver|];
  intros a Ha; repeat match goal with a : _ * _ |- _ => destruct a end; simpl in Ha;
  apply finish_safe; [done..|]; intros _; unfold answer_of; simpl;
  answered.

Lemma alone_safe pid id c :
  match c with
  | XGenerateRandomData _ _ _ _ | XSeedRandomDataGenerator _ _ _ _ _
  | XGenerateInitializationVector _ _ _ _ _ | XGenerateKey _ _ _ _ _ | XCalculateDigest _ _ _ _ _
  | XUpdateCipherSessionAuthentication _ _ _ _ | XUpdateCipherSession _ _ _ _
  | XFinalizeCipherSession _ _ _ _ => True
  | _ => False
  end → c_safe false false (mkContext pid id c []) (cq_direct pid id c).
Proof.
  destruct c; intros []; simpl.
  all: plugin_alone.
Qed.

(** The requests that use a key. *)
Lemma rp_with_key_safe pid id c reference given operation p stored elsewhere use :
  (reference = true → uses env pid id c = Some (given, operation, p, stored, elsewhere)) →
  (reference = false → c_safe false false (mkContext pid id c []) (use given)) →
  c_safe false false (mkContext pid id c [])
    (rp_with_key env m_cryptoPlugins reference given operation p stored elsewhere use).
Proof.
  intros Huses Huse. unfold rp_with_key. apply rp_with_plugin_safe; [done|]. intros _.
  destruct reference; simpl; [|by apply Huse]. specialize (Huses eq_refl).
  destruct (isEmpty (ident_name _)); [by apply c_fail_safe|].
  destruct (isEmpty (ident_collectionName _)); [by apply c_fail_safe|].
  destruct (isEmpty (ident_storagePluginName _)); [by apply c_fail_safe|].
  destruct (negb (rp_isStorage _ _)); [by apply c_fail_safe|].
  case_bool_decide as Hp.
  - apply ask_safe; [done..| |by apply park_safe; [eapply aw_use|]].
    intros r Hr. rewrite (proj2 (failed_not_pending r Hr)). by apply return_failed_safe.
  - apply ask_safe; [done..| |by apply park_safe; [eapply aw_fetch|]].
    intros r Hr. rewrite (proj2 (failed_not_pending r Hr)). by apply return_failed_safe.
Qed.

(** The operation that the call asks for, with that key. *)
Definition use_handler (pid : Z) (c : CryptoCall) (key : CKey) (ck : Key) : CHandler :=
  let m := mappedPluginName env in
  match c with
  | XSign data _ padding digest custom p => rp_run_sign data key ck padding digest custom (m p)
  | XVerify signature data _ padding digest custom p =>
      rp_run_verify signature data key ck padding digest custom (m p)
  | XEncrypt data iv _ b padding ad custom p =>
      rp_run_encrypt data iv key ck b padding ad custom (m p)
  | XDecrypt data iv _ b padding ad tag custom p =>
      rp_run_decrypt data iv key ck b padding ad tag custom (m p)
  | XInitializeCipherSession iv _ o b ep sp d custom p =>
      rp_run_initialize pid iv key ck (mkCipherSessionOptions o b ep sp d) custom (m p)
  | _ => CMismatch
  end.

Lemma use_handler_safe callback pid id c hist key ck :
  outstanding hist = None → key_obtained env c hist key ck →
  c_safe callback false (mkContext pid id c hist) (use_handler pid c key ck).
Proof.
  intros Ho Hk. destruct c; try done; simpl in Hk |- *.
  all: apply run_safe; [done|by simpl; eauto 10|].
  all: intros a Ha; repeat match goal with a : _ * _ |- _ => destruct a end; simpl in Ha.
  all: apply finish_safe; [done|by apply outstanding_last|intros _; unfold answer_of; simpl].
  all: repeat match goal with |- ∃ _, _ => eexists end; split; [done|]; split; [exact Hk|done].
Qed.

Lemma using_safe pid id c :
  match c with
  | XSign _ _ _ _ _ _ | XVerify _ _ _ _ _ _ _ | XEncrypt _ _ _ _ _ _ _ _
  | XDecrypt _ _ _ _ _ _ _ _ _ | XInitializeCipherSession _ _ _ _ _ _ _ _ _ => True
  | _ => False
  end → c_safe false false (mkContext pid id c []) (cq_direct pid id c).
Proof.
  destruct c; intros []; apply rp_with_key_safe.
  1, 3, 5, 7, 9: intros Href; unfold uses; fold (map_key env key).
  1-5: by match type of Href with ?r (map_key _ ?k) = _ => change (r k = true) in Href end; rewrite Href.
  all: intros Href; match goal with |- c_safe _ _ (mkContext ?pid ?id ?c _) _ =>
         apply (use_handler_safe false pid id c [] (map_key env key) noKey) end;
       [done|by apply obtained_own].
Qed.

(** Crypto plugins that can store keys are encrypted storage plugins
    (lib/Crypto/Plugins/extensionplugins.cpp), and have a wrapper. *)
Context (Hstores : ∀ p,
  m_cryptoPlugins !! p = Some true → rp_isStorage env p = true → rp_hasWrapper env p = true).

Lemma rp_template_guards_safe x t p h :
  outstanding (cx_history x) = None → (storable env t p → c_safe false false x h) →
  c_safe false false x (rp_template_guards env m_cryptoPlugins t p h).
Proof.
  intros Ho Hh. unfold rp_template_guards.
  repeat (case_match; [by apply c_fail_safe|]).
  apply Hh. intros ->.
  match goal with H : bool_decide (?a = ?a) && _ = false |- _ => rename H into Hc end.
  rewrite bool_decide_eq_true_2 in Hc by done. apply negb_false_iff in Hc.
  unfold rp_canStore in Hc. apply Hstores.
  - by destruct (m_cryptoPlugins !! _); simplify_eq/=.
  - by apply negb_false_iff.
Qed.

Lemma rp_storeKeyPreCheck_safe pid id c t p :
  awaits env pid id c [CEvCall (HStoreKeyPreCheck (k_identifier t))] p →
  c_safe false false (mkContext pid id c []) (rp_storeKeyPreCheck t p).
Proof.
  intros Hp. apply ask_safe; [done..| |by apply park_safe].
  intros r Hr. rewrite (proj2 (failed_not_pending r Hr)). by apply return_failed_safe.
Qed.

Lemma lack_of_plugin_safe x p out h :
  outstanding (cx_history x) = None → c_safe true false x (rp_finishing out h) →
  c_safe true false x (rp_finishing out (rp_with_plugin m_cryptoPlugins p h)).
Proof.
  intros Ho Hh. unfold rp_with_plugin. case_bool_decide; [|done].
  unfold c_fail. simpl. by apply finish_failed_safe.
Qed.

(** The callback of an import. *)
Lemma importKey_safe callback pid id data ip custom p pass hist h :
  let x := mkContext pid id (XImportKey data ip custom p) hist in
  outstanding hist = None → passphrase_of hist pass →
  h = CRun (K_importKey (mappedPluginName env p) custom data pass) (λ '(result, outputKey),
        let conclude (result : CResult) : CHandler :=
          let outputKey := if c_failed result then outputKey else set_origin OriginImported outputKey in
          if c_is_pending result then
            CPark (mkCryptoPending pid id RImportKey
                     [CVBytes data; CVInteraction (map_interaction env ip); CVMap custom;
                      CVString (mappedPluginName env p)])
              c_pending
          else CFinish result [CVKey outputKey] in
        if rp_needsPassphrase result (map_interaction env ip)
        then rp_promptForKeyPassphrase noCKey (map_interaction env ip) conclude
        else conclude result) →
  c_safe callback false x h.
Proof.
  intros x Ho Hpass ->. apply run_safe; [done|by simpl; eauto 10|]. intros [r k] Hr. simpl in Hr.
  destruct (rp_needsPassphrase r _) eqn:Hn.
  - apply ask_safe; [by apply outstanding_last|done| |].
    + intros r' Hr'. rewrite (proj1 (failed_not_pending r' Hr')).
      apply finish_secrets_failed_safe; [by apply outstanding_last|done].
    + apply park_safe; [|done]. by apply aw_import.
  - unfold c_is_pending. rewrite bool_decide_eq_false_2 by done.
    apply finish_safe; [done|by apply outstanding_last|]. intros Hk.
    assert (c_failed r = false) as -> by (revert Hk; unfold c_ok, c_failed; by destruct (c_code r)).
    unfold answer_of. simpl. by eexists _, _, _.
Qed.

(** Generating, after the checks. *)
Lemma generateStoredKey_withKdfData_safe callback pid id t kpg skdf skdf' ip custom p ck hist :
  let x := mkContext pid id (XGenerateStoredKey t kpg skdf ip custom p) hist in
  outstanding hist = None → checked_template (map_key env t) ck hist → derivation_of skdf skdf' hist →
  storable env (map_key env t) (mappedPluginName env p) →
  c_safe callback false x
    (rp_generateStoredKey_withKdfData env pid id (map_key env t) kpg skdf' custom
       (mappedPluginName env p) ck).
Proof.
  intros x Ho Hc Hd Hs. unfold rp_generateStoredKey_withKdfData. case_bool_decide as Hp.
  - unfold rp_generateStoredKey_inCryptoPlugin. rewrite Hs by done. simpl.
    apply run_safe; [done|by simpl; eauto 15|]. intros [r k] Hr.
    apply finish_safe; [done|by apply outstanding_last|]. intros _. unfold answer_of. simpl.
    eexists _, _, _, _. split_and!; [done|exact Hc|exact Hd|by left].
  - apply run_safe; [done|simpl; eauto 20|]. intros [r k] Hr.
    destruct (c_failed r) eqn:Hf.
    + apply finish_failed_safe; [done|by apply outstanding_last|].
      revert Hf. unfold c_failed, c_ok. by destruct (c_code r).
    + apply ask_safe; [by apply outstanding_last| | |].
      * eexists _, _, _, _. left. eexists _, _, _.
        split_and!; [by apply checked_template_app|apply ran_last|done..].
      * intros r' Hr'. rewrite (proj2 (failed_not_pending r' Hr')).
        apply finish_secrets_failed_safe; [by apply outstanding_last|done].
      * apply park_safe; [|done]. simpl. rewrite <-app_assoc. by apply aw_generate_store.
Qed.

Lemma not_failed r : c_code r ≠ Pending → c_failed r = negb (c_ok r).
Proof. unfold c_failed, c_ok. by destruct (c_code r). Qed.

(** Importing, after the checks. *)
Lemma importStoredKey_withPassphrase_safe pid id data t ip custom p ck result pass hist :
  let x := mkContext pid id (XImportStoredKey data t ip custom p) hist in
  outstanding hist = None → checked_template (map_key env t) ck hist → passphrase_of hist pass →
  storable env (map_key env t) (mappedPluginName env p) → c_code result ≠ Pending →
  c_safe true false x
    (rp_importStoredKey_withPassphrase env pid id data (map_key env t) (map_interaction env ip)
       custom (mappedPluginName env p) ck result pass).
Proof.
  intros x Ho Hc Hpass Hs Hres. unfold rp_importStoredKey_withPassphrase.
  destruct (c_ok result) eqn:Hok; simpl; [|by apply finish_failed_safe].
  case_bool_decide as Hp.
  - rewrite Hs by done. simpl. apply run_safe; [done|by simpl; eauto 15|]. intros [r k] Hr.
    simpl in Hr. destruct (rp_needsPassphrase r _) eqn:Hn.
    + apply ask_safe; [by apply outstanding_last|done| |].
      * intros r' Hr'. rewrite (proj1 (failed_not_pending r' Hr')).
        apply finish_secrets_failed_safe; [by apply outstanding_last|done].
      * apply park_safe; [|done]. apply aw_importStored_input; [done|].
        by apply checked_template_app.
    + simpl. rewrite bool_decide_eq_false_2 by done.
      apply finish_safe; [done|by apply outstanding_last|]. intros Hk.
      rewrite not_failed, Hk by done. unfold answer_of. simpl.
      eexists _, _, _, _. split_and!; [exact Hc|exact Hpass|by left].
  - apply run_safe; [done|by simpl; eauto 20|]. intros [r k] Hr. simpl in Hr.
    destruct (rp_needsPassphrase r _) eqn:Hn.
    { apply park_safe; [|done]. by apply aw_importStored_lost. }
    destruct (c_ok r) eqn:Hk.
    + apply ask_safe; [by apply outstanding_last| | |].
      * eexists _, _, _, _. right. eexists _, _, _.
        split_and!; [by apply checked_template_app|apply ran_last|done..].
      * intros r' Hr'. rewrite (proj2 (failed_not_pending r' Hr')).
        apply finish_secrets_failed_safe; [by apply outstanding_last|done].
      * apply park_safe; [|done]. simpl. rewrite <-app_assoc. by apply aw_importStored_store.
    + simpl. rewrite bool_decide_eq_false_2 by done.
      apply finish_failed_safe; [done|by apply outstanding_last|done].
Qed.

(** The requests that the secrets service answers. *)
Lemma forwarded_safe pid id c call p :
  awaits env pid id c [CEvCall call] p → call_allowed (mkContext pid id c []) call →
  c_safe false false (mkContext pid id c [])
    (CSecrets call (λ r,
       if c_is_pending (transformSecretsResult r) then CPark p (CReturn (transformSecretsResult r) [])
       else CReturn (transformSecretsResult r) [])).
Proof.
  intros Hp Hc. apply ask_safe; [done..| |by apply park_safe].
  intros r Hr. rewrite (proj1 (failed_not_pending r Hr)). by apply return_failed_safe.
Qed.

(** Every request that arrives is served as promised. *)
Lemma served_safe pid id c : c_safe false false (mkContext pid id c []) (cq_direct pid id c).
Proof.
  destruct c; try (by apply alone_safe); try (by apply using_safe); simpl.
  - apply rp_template_guards_safe; [done|]. intros Hs. by apply rp_storeKeyPreCheck_safe, aw_generate.
  - apply rp_with_plugin_safe; [done|]. intros _. eapply importKey_safe; [done|by left|done].
  - apply rp_template_guards_safe; [done|]. intros Hs. by apply rp_storeKeyPreCheck_safe, aw_importStored.
  - unfold rp_storedKey.
    destruct (isEmpty _); [by apply c_fail_safe|].
    destruct (negb (rp_isStorage _ _)); [by apply c_fail_safe|].
    destruct (negb _).
    + apply run_safe; [done|by simpl; eauto|]. intros [r k] Hr.
      apply finish_safe; [done..|]. intros _. unfold answer_of. simpl. left.
      eexists _. split; [by exists []|done].
    + apply ask_safe; [done..| |apply park_safe; [apply aw_storedKey|done]].
      intros r Hr. rewrite (proj2 (failed_not_pending r Hr)). by apply return_failed_safe.
  - apply forwarded_safe; [apply aw_deleteStoredKey|done].
  - apply forwarded_safe; [apply aw_storedKeyIdentifiers|done].
  - unfold rp_queryLockStatus. case_match; [by apply c_fail_safe|].
    apply forwarded_safe; [apply aw_queryLockStatus|done].
  - unfold rp_modifyLockCode, rp_lockCode. case_match; [by apply c_fail_safe|].
    apply forwarded_safe; [apply aw_modifyLockCode|done].
  - unfold rp_provideLockCode, rp_lockCode. case_match; [by apply c_fail_safe|].
    apply forwarded_safe; [apply aw_provideLockCode|done].
  - unfold rp_forgetLockCode, rp_lockCode. case_match; [by apply c_fail_safe|].
    apply forwarded_safe; [apply aw_forgetLockCode|done].
Qed.

(** What the slots make of the answers of the secrets service. *)
Definition resumes (pid id : Z) (c : CryptoCall) (hist : list CEvent) (p : CryptoPending)
  (signal : CryptoSignal) : Prop :=
  ∃ k, rp_slot env m_cryptoPlugins id signal = CTake k
    ∧ c_safe true false (mkContext pid id c (hist ++ [CEvSignal signal])) (k (Some p)).

Lemma secrets_code r : code r ≠ Pending → c_code (transformSecretsResult r) ≠ Pending.
Proof. by rewrite transformSecretsResult_code. Qed.

(** A failure of the secrets service is passed on. *)
Lemma not_ok_safe x h e r out :
  cx_history x = h ++ [CEvSignal e] → code r ≠ Pending → c_ok (transformSecretsResult r) = false →
  c_safe true false x (CFinish (transformSecretsResult r) out).
Proof.
  intros Hx Hr Hok. apply finish_failed_safe; [by apply secrets_code| |done].
  rewrite Hx. by apply outstanding_last.
Qed.

Lemma uses_stored pid id c given operation p stored elsewhere r ck :
  uses env pid id c = Some (given, operation, p, stored, elsewhere) →
  ident_storagePluginName (k_identifier given) = p → ok r = true →
  key_obtained env c (use_checked (k_identifier given) operation p r ck) given ck.
Proof.
  intros Hu Hp Hr. destruct c; try done; simpl in *; destruct (negb _) eqn:Hl; try done;
    apply negb_false_iff in Hl; injection Hu as <- <- <- <- <-; by apply obtained_stored.
Qed.

Lemma uses_fetched pid id c given operation p stored elsewhere r data fd :
  uses env pid id c = Some (given, operation, p, stored, elsewhere) →
  ident_storagePluginName (k_identifier given) ≠ p → ok r = true →
  key_obtained env c (fetched (k_identifier given) r data fd) (deserialize data).1 noKey.
Proof.
  intros Hu Hp Hr. destruct c; try done; simpl in *; destruct (negb _) eqn:Hl; try done;
    apply negb_false_iff in Hl; injection Hu as <- <- <- <- <-; by apply obtained_fetched.
Qed.

(** A request that waited for a check, or for a key. *)
Lemma unless_ok_safe x h e r out use :
  cx_history x = h ++ [CEvSignal e] → code r ≠ Pending →
  (c_ok (transformSecretsResult r) = true → c_safe true false x use) →
  c_safe true false x
    (if negb (c_ok (transformSecretsResult r)) then CFinish (transformSecretsResult r) out else use).
Proof.
  intros Hx Hr Huse. destruct (c_ok _) eqn:Hok; [by apply Huse|by eapply not_ok_safe].
Qed.

Lemma use_resumes pid id c given operation p stored elsewhere r ck :
  uses env pid id c = Some (given, operation, p, stored, elsewhere) →
  ident_storagePluginName (k_identifier given) = p → code r ≠ Pending →
  resumes pid id c [CEvCall (HUseKeyPreCheck (k_identifier given) operation p)] stored
    (useKeyPreCheckCompleted r ck).
Proof.
  intros Hu Hp Hr.
  assert (Hret : c_ok (transformSecretsResult r) = true →
    c_safe true false (mkContext pid id c (use_checked (k_identifier given) operation p r ck))
      (use_handler pid c given ck)).
  { intros Hok. rewrite transformSecretsResult_ok in Hok.
    apply use_handler_safe; [done|]. by eapply uses_stored. }
  destruct c; try done; simpl in Hu; destruct (negb _); try done; injection Hu as <- <- <- <- <-.
  all: eexists; split; [done|]; cbn -[c_safe transformSecretsResult c_ok].
  all: by eapply (unless_ok_safe _ [_]).
Qed.

Lemma fetch_resumes pid id c given operation p stored elsewhere r data fd :
  uses env pid id c = Some (given, operation, p, stored, elsewhere) →
  ident_storagePluginName (k_identifier given) ≠ p → code r ≠ Pending →
  resumes pid id c [CEvCall (HStoredKey (k_identifier given))] elsewhere
    (storedKeyCompleted r data fd).
Proof.
  intros Hu Hp Hr.
  assert (Hret : c_ok (transformSecretsResult r) = true →
    c_safe true false (mkContext pid id c (fetched (k_identifier given) r data fd))
      (use_handler pid c (deserialize data).1 noKey)).
  { intros Hok. rewrite transformSecretsResult_ok in Hok.
    apply use_handler_safe; [done|]. by eapply uses_fetched. }
  destruct c; try done; simpl in Hu; destruct (negb _); try done; injection Hu as <- <- <- <- <-.
  all: eexists; split; [done|]; cbn -[c_safe transformSecretsResult c_ok deserialize].
  3: { eapply (unless_ok_safe _ [_]); [done..|]. intros Hok. specialize (Hret Hok).
       simpl in Hret. destruct (deserialize data) as [key' []]; [done|].
       by apply finish_failed_safe. }
  all: by eapply (unless_ok_safe _ [_]).
Qed.

Lemma finishing_failed_safe x h e r out :
  cx_history x = h ++ [CEvSignal e] → code r ≠ Pending → c_ok (transformSecretsResult r) = false →
  c_safe true false x (rp_finishing out (CReturn (transformSecretsResult r) [])).
Proof.
  intros Hx Hr Hok. simpl. rewrite bool_decide_eq_false_2 by (by apply secrets_code).
  by eapply not_ok_safe.
Qed.

Lemma withKdfData_finishing out pid id t kpg skdf custom p ck :
  rp_finishing out (rp_generateStoredKey_withKdfData env pid id t kpg skdf custom p ck)
  = rp_generateStoredKey_withKdfData env pid id t kpg skdf custom p ck.
Proof.
  unfold rp_generateStoredKey_withKdfData, rp_generateStoredKey_inCryptoPlugin. by repeat case_match.
Qed.

Lemma generateStoredKey_afterPreCheck_safe pid id t kpg skdf ip custom p r ck :
  storable env (map_key env t) (mappedPluginName env p) → code r ≠ Pending →
  c_safe true false
    (mkContext pid id (XGenerateStoredKey t kpg skdf ip custom p)
       (store_checked (k_identifier (map_key env t)) r ck))
    (rp_generateStoredKey_afterPreCheck env pid id (map_key env t) kpg skdf ip custom
       (mappedPluginName env p) (transformSecretsResult r) ck).
Proof.
  intros Hs Hr. unfold rp_generateStoredKey_afterPreCheck.
  destruct (c_ok _) eqn:Hok; simpl negb; cbv iota; [|by eapply (finishing_failed_safe _ [_])].
  rewrite transformSecretsResult_ok in Hok.
  assert (checked_template (map_key env t) ck (store_checked (k_identifier (map_key env t)) r ck)).
  { exists r, []. by rewrite app_nil_r. }
  destruct (_ || _).
  - rewrite withKdfData_finishing. apply generateStoredKey_withKdfData_safe; [done..|by left|done].
  - apply ask_safe; [done..| |].
    + intros r' Hr'. rewrite (proj1 (failed_not_pending r' Hr')).
      by apply finish_secrets_failed_safe.
    + apply park_safe; [|done]. by apply aw_generate_input.
Qed.

Lemma generateStoredKey_withInputData_safe pid id t kpg skdf input ip custom p r ck h :
  storable env (map_key env t) (mappedPluginName env p) → code r ≠ Pending →
  checked_template (map_key env t) ck h →
  c_safe true false
    (mkContext pid id (XGenerateStoredKey t kpg skdf ip custom p)
       (h ++ [CEvSignal (userInputCompleted r input)]))
    (rp_generateStoredKey_withInputData env pid id (transformSecretsResult r) (map_key env t) kpg
       (setInputData input skdf) custom (mappedPluginName env p) ck).
Proof.
  intros Hs Hr Hc. unfold rp_generateStoredKey_withInputData.
  destruct (c_ok _) eqn:Hok; [|by eapply finishing_failed_safe].
  rewrite withKdfData_finishing. apply generateStoredKey_withKdfData_safe;
    [by apply outstanding_last|by apply checked_template_app| |done].
  right. exists input. split; [|done]. exists r. apply elem_of_app. right. by apply list_elem_of_singleton.
Qed.

Lemma importKey_withPassphrase_safe pid id data ip custom p r pass h :
  code r ≠ Pending →
  c_safe true false (mkContext pid id (XImportKey data ip custom p)
    (h ++ [CEvSignal (userInputCompleted r pass)]))
    (rp_importKey_withPassphrase m_cryptoPlugins pid id data (map_interaction env ip) custom
       (mappedPluginName env p) (transformSecretsResult r) pass).
Proof.
  intros Hr. unfold rp_importKey_withPassphrase.
  destruct (c_ok _) eqn:Hok; [|by eapply finishing_failed_safe].
  apply lack_of_plugin_safe; [by apply outstanding_last|].
  eapply importKey_safe; [by apply outstanding_last| |done]. right. exists r. apply elem_of_app. right.
  by apply list_elem_of_singleton.
Qed.

(** A result of the secrets service that is passed on. *)
Lemma pass_on_safe x h e r out :
  cx_history x = h ++ [CEvSignal e] → code r ≠ Pending →
  (ok r = true → answer_of env x (transformSecretsResult r) out) →
  c_safe true false x (CFinish (transformSecretsResult r) out).
Proof.
  intros Hx Hr Ha. apply finish_safe; [by apply secrets_code| |].
  - rewrite Hx. by apply outstanding_last.
  - by rewrite transformSecretsResult_ok.
Qed.

Lemma same_identifiers (l : list Identifier) :
  (λ i, mkIdentifier (ident_name i) (ident_collectionName i) (ident_storagePluginName i)) <$> l = l.
Proof. induction l as [|[] l IH]; [done|]. by rewrite fmap_cons, IH. Qed.

(** Every pending request is resumed as promised. *)
Lemma slot_safe pid id c hist p call r values :
  awaits env pid id c hist p → outstanding hist = Some call → code r ≠ Pending →
  resumes pid id c hist p (crypto_signal (helper_type call) r values).
Proof.
  intros Hp Ho Hr. destruct Hp; unfold outstanding in Ho; rewrite ?last_app_cons in Ho;
    simpl in Ho; try (injection Ho as <-); try done.
  12: by eapply fetch_resumes.
  11: by eapply use_resumes.
  all: eexists; split; [done|]; cbn -[c_safe transformSecretsResult c_ok deserialize app].
  - by apply generateStoredKey_afterPreCheck_safe.
  - apply generateStoredKey_withInputData_safe; [done..|]. apply checked_template_app.
    by eexists _, []; split; [|by rewrite app_nil_r].
  - eapply pass_on_safe; [done..|]. intros Hok. unfold answer_of. simpl. rewrite <-app_assoc.
    eexists _, _, _, _. split_and!; [done..|]. right. by repeat eexists.
  - by apply importKey_withPassphrase_safe.
  - unfold rp_importStoredKey_afterPreCheck. eapply (unless_ok_safe _ [_]); [done..|].
    rewrite transformSecretsResult_ok. intros Hok.
    apply importStoredKey_withPassphrase_safe; [done| |by left|done..]. by exists r, [].
  - apply importStoredKey_withPassphrase_safe; [by apply outstanding_last| | |done|by apply secrets_code].
    + by do 2 apply checked_template_app.
    + right. exists r. apply elem_of_app. right. by apply list_elem_of_singleton.
  - eapply pass_on_safe; [done..|]. intros Hok. unfold answer_of. simpl. rewrite <-app_assoc.
    eexists _, _, _, _. split_and!; [done..|]. right. by repeat eexists.
  - eapply (pass_on_safe _ [_]); [done..|]. intros Hok. unfold answer_of. right. by repeat eexists.
  - eapply (pass_on_safe _ [_]); [done..|]. intros Hok. by eexists.
  - eapply (pass_on_safe _ [_]); [done..|]. intros Hok. unfold answer_of. simpl. eexists _, _.
    split_and!; [done..|]. do 2 f_equal. apply same_identifiers.
  - eapply (pass_on_safe _ [_]); [done..|]. intros Hok. unfold answer_of. by repeat eexists.
  - eapply (pass_on_safe _ [_]); [done..|]. intros Hok. unfold answer_of. by repeat eexists.
  - eapply (pass_on_safe _ [_]); [done..|]. intros Hok. unfold answer_of. by repeat eexists.
  - eapply (pass_on_safe _ [_]); [done..|]. intros Hok. unfold answer_of. by repeat eexists.
Qed.
End safe.

(** * Every state that is reached *)

Section invariant.
  Context {W : Type}.
  Context (perform : ∀ A, CryptoOp A → M W A) (enqueue : Z → Z → CryptoHelperCall → M W Result).
  Context `{!QDataStream} (env : Environment) (m_cryptoPlugins : gmap string bool).
  (** Operations of plugins are synchronous. *)
  Context (Hperform : ∀ A (op : CryptoOp A) w, c_code (op_result op (perform A op w).1) ≠ Pending).
  Context (Hstores : ∀ p,
    m_cryptoPlugins !! p = Some true → rp_isStorage env p = true → rp_hasWrapper env p = true).

Implicit Types s : CSystem W.

Definition tasks_of (id : Z) s : list CTask := filter (λ t, ct_id t = id) (cs_tasks s).
Definition accepted_times (id : Z) s : nat := occurrences id (cs_accepted s).
Definition answered_times (id : Z) s : nat := occurrences id (crep_id <$> cs_reports s).

Definition task_ok (t : CTask) : Prop :=
  c_safe env true false (ct_context t) (ct_handler t)
  ∧ outstanding (cx_history (ct_context t)) = None
  ∧ (ct_done t = false → ∃ A (op : CryptoOp A) k, ct_handler t = CRun op k).

(** Where a request is: nowhere, in the thread of a plugin, or with the secrets
    service. *)
Inductive status s (id : Z) : Prop :=
  | st_idle :
      tasks_of id s = [] → cs_waiting s !! id = None → cs_pending s !! id = None →
      cs_helpers s !! id = None → accepted_times id s = answered_times id s → status s id
  | st_task t :
      tasks_of id s = [t] → cs_waiting s !! id = None → cs_pending s !! id = None →
      cs_helpers s !! id = None → accepted_times id s = S (answered_times id s) → task_ok t →
      status s id
  | st_waiting x p :
      tasks_of id s = [] → cs_waiting s !! id = Some x → cs_pending s !! id = Some p →
      cx_id x = id → awaits env (cx_pid x) id (cx_call x) (cx_history x) p →
      cs_helpers s !! id = helper_type <$> outstanding (cx_history x) →
      accepted_times id s = S (answered_times id s) → status s id.

Definition report_ok (r : CReport) : Prop :=
  (c_ok (crep_result r) = true → answer_of env (crep_context r) (crep_result r) (crep_out r))
  ∧ is_Some (crep_reply r).

Definition performed_ok (e : CContext * CEvent) : Prop :=
  match e.2 with
  | CEvRun op _ => op_allowed env e.1 op
  | CEvCall c => call_allowed e.1 c
  | CEvSignal _ => True
  end.

Record records_ok s : Prop := {
  ro_reports : Forall report_ok (cs_reports s);
  ro_performed : Forall performed_ok (cs_performed s);
  ro_stuck : cs_stuck s = None;
}.

Record c_invariant s : Prop := {
  ci_status id : status s id;
  ci_records : records_ok s;
}.

(** In the middle of a handler. *)
Record at_work (parked : bool) (x : CContext) s : Prop := {
  aw_others id : id ≠ cx_id x → status s id;
  aw_records : records_ok s;
  aw_tasks : tasks_of (cx_id x) s = [];
  aw_count : accepted_times (cx_id x) s = S (answered_times (cx_id x) s);
  aw_helpers : cs_helpers s !! cx_id x = helper_type <$> outstanding (cx_history x);
  aw_parked :
    if parked then
      cs_waiting s !! cx_id x = Some x
      ∧ ∃ p, cs_pending s !! cx_id x = Some p
             ∧ awaits env (cx_pid x) (cx_id x) (cx_call x) (cx_history x) p
    else cs_waiting s !! cx_id x = None ∧ cs_pending s !! cx_id x = None;
}.

Lemma awaits_id pid id c hist p : awaits env pid id c hist p → cpr_requestId p = id.
Proof.
  destruct 1 as [| | | | | | | | | | |c given operation p stored elsewhere Hu
    |c given operation p stored elsewhere Hu| | | |]; try done;
    destruct c; try done; simpl in Hu; destruct (negb _); by simplify_eq/=.
Qed.

(** One kind of request is registered although nobody has been asked. *)
Lemma awaits_abandoned pid id c hist p :
  awaits env pid id c hist p → outstanding hist = None →
  ∃ data t ip custom q h pass r k,
    c = XImportStoredKey data t ip custom q
    ∧ mappedPluginName env q ≠ ident_storagePluginName (k_identifier (map_key env t))
    ∧ hist = h ++ [CEvRun (K_importKey (mappedPluginName env q) custom data pass) (r, k)]
    ∧ rp_needsPassphrase r (map_interaction env ip) = true.
Proof.
  destruct 1; unfold outstanding; rewrite ?last_app_cons; simpl; try done.
  intros _. by repeat eexists.
Qed.

(** The status of a request does not depend on others. *)
Lemma status_ext s s' id :
  tasks_of id s' = tasks_of id s → cs_waiting s' !! id = cs_waiting s !! id →
  cs_pending s' !! id = cs_pending s !! id → cs_helpers s' !! id = cs_helpers s !! id →
  accepted_times id s' = accepted_times id s → answered_times id s' = answered_times id s →
  status s id → status s' id.
Proof.
  intros Ht Hw Hp Hh Ha Hb. destruct 1 as [|t|x p].
  - apply st_idle; congruence.
  - apply (st_task _ _ t); first [congruence|done].
  - apply (st_waiting _ _ x p); first [congruence|done].
Qed.

Lemma tasks_of_app id l l' : filter (λ t, ct_id t = id) (l ++ l')
  = filter (λ t, ct_id t = id) l ++ filter (λ t, ct_id t = id) l'.
Proof. apply filter_app. Qed.

Lemma tasks_of_single id t :
  filter (λ t, ct_id t = id) [t] = if decide (ct_id t = id) then [t] else [].
Proof. by rewrite filter_cons, filter_nil. Qed.

(** An answer. *)
Lemma report_inv x r out reply s :
  at_work false x s → outstanding (cx_history x) = None →
  (c_ok r = true → answer_of env x r out) → is_Some reply →
  c_invariant (cs_report (mkCReport x r out reply) s).
Proof.
  intros [Ho [] Ht Hc Hh [Hw Hp]] Hout Ha Hs. rewrite Hout in Hh. split.
  - intros id. destruct (decide (id = cx_id x)) as [->|Hne].
    + apply st_idle; [done..|]. unfold answered_times. simpl. rewrite occurrences_cons.
      unfold crep_id at 1. simpl. by rewrite decide_True.
    + eapply status_ext, Ho; [done..| |done]. unfold answered_times. simpl.
      rewrite occurrences_cons. unfold crep_id at 1. simpl. by rewrite decide_False.
  - split; simpl; [|done..]. by constructor.
Qed.

(** An operation is started. *)
Lemma start_inv {A} x (op : CryptoOp A) k s :
  at_work false x s → c_safe env true false x (CRun op k) →
  c_invariant (cs_with_tasks (cs_tasks s ++ [mkCTask x false (CRun op k)]) s).
Proof.
  intros [Ho [] Ht Hc Hh [Hw Hp]] Hsafe. rewrite (proj1 (proj2 Hsafe)) in Hh. split; [|done].
  intros id. destruct (decide (id = cx_id x)) as [->|Hne].
  - apply (st_task _ _ (mkCTask x false (CRun op k))); try done.
    + unfold tasks_of in *. simpl. rewrite tasks_of_app, Ht, tasks_of_single. simpl.
      by rewrite decide_True.
    + split_and!; [done|apply Hsafe|]. intros _. by eexists _, _, _.
  - eapply status_ext, Ho; [|done..]. unfold tasks_of. simpl.
    rewrite tasks_of_app, tasks_of_single. unfold ct_id at 2. simpl.
    by rewrite decide_False, app_nil_r.
Qed.

(** The request is registered. *)
Lemma c_park_inv x p s :
  at_work false x s → awaits env (cx_pid x) (cx_id x) (cx_call x) (cx_history x) p →
  at_work true x (cs_park x p s).
Proof.
  intros [Ho [] Ht Hc Hh [Hw Hp]] Ha. assert (Hid := awaits_id _ _ _ _ _ Ha). split; try done.
  - intros id Hne. eapply status_ext, Ho; try done; simpl.
    + by rewrite lookup_insert_ne.
    + rewrite lookup_insert_ne; congruence.
  - simpl. rewrite Hid, !lookup_insert_eq. by eauto.
Qed.

(** The secrets service is asked. *)
Lemma ask_inv x c s r s' :
  at_work false x s → outstanding (cx_history x) = None → call_allowed x c →
  ask_secrets enqueue x c s = (r, s') →
  (code r = Failed ∧ at_work false x s')
  ∨ (r = result_of_code Pending ∧ at_work false (noted (CEvCall c) x) s').
Proof.
  intros [Ho [] Ht Hc Hh [Hw Hp]] Hout Ha. unfold ask_secrets, remember.
  destruct (enqueue _ _ _ _) as [e w]. case_bool_decide as Hf; intros [= <- <-].
  - left. split; [done|]. split; try done.
    + intros id Hne. by eapply status_ext, Ho.
    + split; try done. by constructor.
  - right. split; [done|]. split; try done.
    + intros id Hne. eapply status_ext, Ho, Hne; try done. simpl. by rewrite lookup_insert_ne.
    + split; try done. by constructor.
    + simpl. rewrite lookup_insert_eq. by rewrite outstanding_last.
Qed.

Lemma c_advance_inv h : ∀ callback parked x s,
  c_safe env callback parked x h → at_work parked x s →
  c_invariant (c_advance enqueue env callback x h s).
Proof.
  induction h as [r out|r out| | |p h IH|k IH|c k IH|A op k IH]; intros callback parked x s Hsafe Hs.
  - simpl in *. destruct (c_is_pending r) eqn:Hr; simpl.
    + subst parked. destruct Hs as [Ho Hrec Ht Hc Hh (Hw & p & Hp & Ha)]. split; [|done].
      intros id. destruct (decide (id = cx_id x)) as [->|Hne]; [|by apply Ho].
      by apply (st_waiting _ _ x p).
    + destruct Hsafe as (-> & -> & Hout & Ha). apply report_inv; try done.
      unfold cq_pendingReply. rewrite Hr. by eexists.
  - destruct Hsafe as (Hr & -> & Hout & Ha). simpl. apply report_inv; try done.
    assert (Hf : ∀ name defaults, is_Some (cq_finished name defaults (Some (r, out))).1).
    { intros name defaults. unfold cq_finished, c_is_pending. simpl.
      rewrite bool_decide_eq_false_2 by done. by eexists. }
    unfold cx_type. destruct (cx_call x); simpl; apply Hf.
  - done.
  - done.
  - destruct Hsafe as (-> & Ha & Hsafe). simpl. eapply IH; [done|]. by apply c_park_inv.
  - done.
  - destruct Hsafe as (-> & Hout & Hc & Hfail & Hpend). simpl.
    destruct (ask_secrets enqueue x c s) as [r s'] eqn:Hask.
    destruct (ask_inv x c s r s') as [[Hf Hs']|[-> Hs']]; try done.
    + rewrite bool_decide_eq_true_2 by done. by eapply IH; [apply Hfail|].
    + simpl. by eapply IH.
  - assert (Hp := proj1 Hsafe). subst parked. simpl. by apply start_inv.
Qed.

Lemma initial_inv w : c_invariant (c_initial w).
Proof. split; [|done]. intros id. by apply st_idle. Qed.

(** A request that is not active is nowhere. *)
Lemma inactive_idle s id : status s id → ¬ c_active s id →
  tasks_of id s = [] ∧ cs_waiting s !! id = None ∧ cs_pending s !! id = None
  ∧ cs_helpers s !! id = None ∧ accepted_times id s = answered_times id s.
Proof.
  intros Hst Hn. destruct Hst as [|t Ht|x p ?? Hp]; [done|exfalso..].
  - apply Hn. left. apply list_elem_of_fmap. exists t.
    assert (t ∈ tasks_of id s) as [? ?]%list_elem_of_filter by (rewrite Ht; by left). done.
  - apply Hn. right. by rewrite Hp.
Qed.

Lemma request_at_work pid id c s :
  c_invariant s → ¬ c_active s id → at_work false (mkContext pid id c []) (cs_accept id s).
Proof.
  intros [Hst []] Hn. destruct (inactive_idle s id) as (Ht & Hw & Hp & Hh & Hc); [done..|].
  split; try done.
  - intros id' Hne. eapply status_ext, Hst; try done. unfold accepted_times. simpl.
    rewrite occurrences_cons. rewrite decide_False; [done|]. naive_solver.
  - unfold accepted_times in *. simpl. rewrite occurrences_cons, Hc. by rewrite decide_True.
Qed.

(** The tasks of a request, when the list is taken apart. *)
Lemma tasks_of_middle s l t l' :
  cs_tasks s = l ++ t :: l' → status s (ct_id t) →
  tasks_of (ct_id t) s = [t] ∧ filter (λ u, ct_id u = ct_id t) l = []
  ∧ filter (λ u, ct_id u = ct_id t) l' = [].
Proof.
  intros Hs Hst. assert (Ht : tasks_of (ct_id t) s = filter (λ u, ct_id u = ct_id t) l
    ++ t :: filter (λ u, ct_id u = ct_id t) l').
  { unfold tasks_of. rewrite Hs, filter_app, filter_cons. by rewrite decide_True. }
  destruct Hst as [Ht'|u Ht'|x p Ht']; rewrite Ht' in Ht.
  - by destruct (filter _ l).
  - destruct (filter _ l) as [|? []]; [|done..]. by simplify_eq/=.
  - by destruct (filter _ l).
Qed.

Lemma c_work_inv s l t l' t' s' :
  c_invariant s → cs_tasks s = l ++ t :: l' → ct_done t = false → c_work perform t s = (t', s') →
  c_invariant (cs_with_tasks (l ++ t' :: l') s').
Proof.
  intros [Hst []] Hl Hd. destruct (tasks_of_middle s l t l') as (Ht & Hl1 & Hl2); [done..|].
  destruct (Hst (ct_id t)) as [|u Ht' Hw Hp Hh Hc (Hsafe & _ & Hrun)|]; [congruence| |congruence].
  assert (u = t) as -> by congruence. destruct (Hrun Hd) as (A & op & k & Hh').
  unfold c_work. rewrite Hh' in Hsafe |- *.
  destruct (perform A op (cs_world s)) as [a w] eqn:Ha. intros [= <- <-].
  destruct Hsafe as (_ & _ & Hop & Hk). split.
  - intros id. destruct (decide (id = ct_id t)) as [->|Hne].
    + eapply st_task; [|done..|].
      * unfold tasks_of. simpl. rewrite filter_app, filter_cons, Hl1, Hl2. by rewrite decide_True.
      * split_and!; [|by apply outstanding_last|done]. apply Hk.
        specialize (Hperform A op (cs_world s)). by rewrite Ha in Hperform.
    + eapply status_ext, (Hst id); try done. unfold tasks_of. simpl.
      rewrite Hl, !filter_app, !filter_cons. by rewrite !decide_False.
  - split; simpl; try done. by constructor.
Qed.

Lemma callback_inv s l t l' :
  c_invariant s → cs_tasks s = l ++ t :: l' → 
  c_invariant (c_advance enqueue env true (ct_context t) (ct_handler t)
    (cs_with_tasks (l ++ l') s)).
Proof.
  intros [Hst []] Hl. destruct (tasks_of_middle s l t l') as (Ht & Hl1 & Hl2); [done..|].
  destruct (Hst (ct_id t)) as [|u Ht' Hw Hp Hh Hc (Hsafe & Hout & _)|]; [congruence| |congruence].
  assert (u = t) as -> by congruence. eapply c_advance_inv; [done|].
  split; try done.
  - intros id Hne. eapply status_ext, (Hst id); try done. unfold tasks_of. simpl.
    rewrite Hl, !filter_app, !filter_cons. by rewrite decide_False.
  - change (tasks_of (ct_id t) (cs_with_tasks (l ++ l') s) = []). unfold tasks_of. simpl.
    by rewrite filter_app, Hl1, Hl2.
  - simpl. by rewrite Hout.
Qed.

Lemma signal_inv s id r values signal helpers x :
  c_invariant s → code r ≠ Pending →
  asynchronousCryptoRequestCompleted id r values (cs_helpers s) = (Some signal, helpers) →
  cs_waiting s !! id = Some x →
  c_invariant (c_advance enqueue env true (noted (CEvSignal signal) x)
    (rp_slot env m_cryptoPlugins id signal) (cs_with_helpers helpers s)).
Proof.
  intros [Hst []] Hr Hs Hx. unfold asynchronousCryptoRequestCompleted in Hs.
  destruct (cs_helpers s !! id) as [type|] eqn:Hh; [|done]. injection Hs as <- <-.
  destruct (Hst id) as [| |x' p Ht Hw Hp Hid Ha Hh' Hc]; [congruence..|].
  assert (x' = x) as -> by congruence. rewrite Hh' in Hh.
  destruct (outstanding (cx_history x)) as [call|] eqn:Hout; [|done]. injection Hh as <-.
  destruct (slot_safe env m_cryptoPlugins _ _ _ _ _ _ r values Ha Hout Hr) as (k & -> & Hk).
  simpl. rewrite Hid, Hp. destruct x as [pid id' c hist]; simpl in *; subst id'.
  eapply c_advance_inv; [done|]. split; try done.
  - intros id' Hne. eapply status_ext, (Hst id'); try done; simpl in *; by rewrite lookup_delete_ne.
  - simpl. rewrite outstanding_last. by rewrite lookup_delete_eq.
  - simpl. by rewrite !lookup_delete_eq.
Qed.

Lemma c_step_inv s s' : c_invariant s → c_step perform enqueue env m_cryptoPlugins s s' → c_invariant s'.
Proof.
  intros Hs. destruct 1 as [pid id c type ps h Hc Hh Hn|l t l' t' s' Hl Hd Hw|l t l' Hl Hd|].
  - assert (Hd := cq_dispatch_direct env m_cryptoPlugins pid id c). rewrite Hc in Hd. simpl in Hd.
    rewrite Hd in Hh. injection Hh as <-.
    eapply c_advance_inv; [by apply served_safe|]. by apply request_at_work.
  - by eapply c_work_inv.
  - by eapply callback_inv.
  - by eapply signal_inv.
Qed.

(** The invariant holds in every state that is reached. *)
Lemma c_reachable_inv w s : c_reachable perform enqueue env m_cryptoPlugins w s → c_invariant s.
Proof.
  intros Hs. unfold c_reachable in Hs. revert s Hs. apply (rtc_ind_r c_invariant (c_initial w)).
  - apply initial_inv.
  - intros s s' _ Hstep Hs. by eapply c_step_inv.
Qed.

(** * Requests that nobody works on *)

(** Nothing has changed for a request. *)
Record same_for (id : Z) s s' : Prop := {
  sf_tasks : tasks_of id s' = tasks_of id s;
  sf_waiting : cs_waiting s' !! id = cs_waiting s !! id;
  sf_pending : cs_pending s' !! id = cs_pending s !! id;
  sf_helpers : cs_helpers s' !! id = cs_helpers s !! id;
  sf_accepted : accepted_times id s' = accepted_times id s;
  sf_answered : answered_times id s' = answered_times id s;
}.

#[local] Instance same_for_preorder id : PreOrder (same_for id).
Proof. split; [done|]. intros s1 s2 s3 [] []. split; congruence. Qed.

Lemma same_report id x r out reply s :
  id ≠ cx_id x → same_for id s (cs_report (mkCReport x r out reply) s).
Proof.
  intros Hne. split; try done. unfold answered_times. simpl. rewrite occurrences_cons.
  unfold crep_id at 1. simpl. by rewrite decide_False.
Qed.

Lemma same_tasks id l l' s :
  filter (λ t, ct_id t = id) l' = filter (λ t, ct_id t = id) l → cs_tasks s = l →
  same_for id s (cs_with_tasks l' s).
Proof. intros Hl Hs. split; try done. unfold tasks_of. simpl. by rewrite Hs. Qed.

(** What a handler does concerns its own request. *)
Lemma c_advance_same h : ∀ callback parked x s id,
  c_safe env callback parked x h → id ≠ cx_id x →
  same_for id s (c_advance enqueue env callback x h s).
Proof.
  induction h as [r out|r out| | |p h IH|k IH|c k IH|A op k IH];
    intros callback parked x s id Hsafe Hne; simpl; try done.
  - destruct (_ || _); [done|]. by apply same_report.
  - by apply same_report.
  - destruct Hsafe as (-> & Ha & Hsafe). transitivity (cs_park x p s); [|by eapply IH].
    split; try done; simpl; [by rewrite lookup_insert_ne|].
    rewrite lookup_insert_ne; [done|]. by rewrite (awaits_id _ _ _ _ _ Ha).
  - destruct Hsafe as (-> & Hout & Hc & Hfail & Hpend). unfold ask_secrets, remember.
    destruct (enqueue _ _ _ _) as [e w]. case_bool_decide as Hf.
    + rewrite bool_decide_eq_true_2 by done. etrans; [|by eapply IH; [apply Hfail|]]. done.
    + etrans; [|by eapply IH]. split; try done. simpl. by rewrite lookup_insert_ne.
  - eapply same_tasks; [|done]. rewrite tasks_of_app, tasks_of_single. unfold ct_id at 2. simpl.
    by rewrite decide_False, app_nil_r.
Qed.

(** A pending request for which the secrets service owes no answer. *)
Definition abandoned (id : Z) s : Prop :=
  ∃ x, cs_waiting s !! id = Some x ∧ outstanding (cx_history x) = None.

Lemma abandoned_step id s s' :
  c_invariant s → abandoned id s → c_step perform enqueue env m_cryptoPlugins s s' →
  same_for id s s'.
Proof.
  intros Hi (x & Hx & Hout) Hstep. assert (Hst := ci_status s Hi id).
  destruct Hst as [| |x' p Ht Hw Hp Hid Ha Hh Hc]; [congruence..|].
  assert (x' = x) as -> by congruence. rewrite Hout in Hh. simpl in Hh.
  assert (Htask : ∀ l t l', cs_tasks s = l ++ t :: l' → ct_id t ≠ id).
  { intros l t l' Hl <-. destruct (tasks_of_middle s l t l') as [? _]; [done|apply Hi|].
    congruence. }
  destruct Hstep as [pid id' c type ps h Hcall Hh' Hn|l t l' t' s' Hl Hd Hwork|l t l' Hl Hd
    |id' r values signal helpers y Hr Hs Hy].
  - assert (id ≠ id') as Hne by (intros ->; apply Hn; right; by rewrite Hp).
    assert (Hd := cq_dispatch_direct env m_cryptoPlugins pid id' c). rewrite Hcall in Hd.
    simpl in Hd. rewrite Hd in Hh'. injection Hh' as <-.
    etrans; [|eapply c_advance_same; [by apply served_safe|done]].
    split; try done. unfold accepted_times. simpl. rewrite occurrences_cons.
    by rewrite decide_False.
  - assert (ct_id t' = ct_id t ∧ cs_tasks s' = cs_tasks s ∧ same_for id s s') as (Ht' & Hsl & Hsame).
    { unfold c_work in Hwork. destruct (ct_handler t); try (by simplify_eq).
      destruct (perform _ _ _). by simplify_eq. }
    etrans; [exact Hsame|]. apply (same_tasks _ (l ++ t :: l')); [|by rewrite Hsl].
    rewrite !filter_app, !filter_cons, Ht'. by rewrite !decide_False by eauto.
  - destruct (ci_status s Hi (ct_id t)) as [|u Ht' Hw' Hp' Hh' Hc' (Hsafe & _)|];
      destruct (tasks_of_middle s l t l') as [Ht'' _]; try apply Hi; try done; try congruence.
    assert (u = t) as -> by congruence.
    etrans; [|eapply c_advance_same; [exact Hsafe|by apply not_eq_sym, (Htask l t l')]].
    apply (same_tasks _ (l ++ t :: l')); [|done]. rewrite !filter_app, filter_cons.
    by rewrite decide_False by eauto.
  - unfold asynchronousCryptoRequestCompleted in Hs.
    destruct (cs_helpers s !! id') as [type|] eqn:Hty; [|done]. injection Hs as <- <-.
    assert (id' ≠ id) as Hne by congruence.
    destruct (ci_status s Hi id') as [| |z q Ht' Hw' Hp' Hid' Ha' Hh' Hc']; [congruence..|].
    assert (z = y) as -> by congruence. rewrite Hh' in Hty.
    destruct (outstanding (cx_history y)) as [call|] eqn:Hout'; [|done]. injection Hty as <-.
    destruct (slot_safe env m_cryptoPlugins _ _ _ _ _ _ r values Ha' Hout' Hr) as (k & -> & Hk).
    simpl. rewrite Hid', Hp'. destruct y as [pid id'' c hist]; simpl in *; subst id''.
    etrans; [|eapply c_advance_same; [exact Hk|done]].
    split; try done; simpl; by rewrite lookup_delete_ne.
Qed.

(** It stays as it is. *)
Lemma abandoned_forever id s s' :
  c_invariant s → abandoned id s → rtc (c_step perform enqueue env m_cryptoPlugins) s s' →
  same_for id s s'.
Proof.
  intros Hi Ha Hs. revert Hi Ha. induction Hs as [s|s s1 s2 Hstep Hs IH]; intros Hi Ha; [done|].
  assert (Hsame := abandoned_step id s s1 Hi Ha Hstep). etrans; [exact Hsame|].
  apply IH; [by eapply c_step_inv|]. destruct Ha as (x & Hx & Hout). exists x.
  by rewrite (sf_waiting _ _ _ Hsame).
Qed.
End invariant.
