(* ===== verification/ClientRequest.v ===== *)
(** The requests of the client libraries: what the classes of lib/Secrets and
    lib/Crypto that are named [...Request] have in common.

    A request has parameters, which the application sets, and values, which the
    reply of the daemon sets.  [startRequest] hands the parameters to the manager,
    which calls the daemon over D-Bus; the reply is awaited by a watcher, unless
    it is there at once and is a failure.  Slots that are connected to the signals
    of a request do not call it. *)
From S2P Require Import Prelude.

(** [Request::Status] *)
Inductive ClientStatus := Inactive | Active | Finished.
#[global] Instance ClientStatus_eq_dec : EqDecision ClientStatus.
Proof. solve_decision. Defined.

(** [LockCodeRequest::LockCodeRequestType], of both libraries *)
Inductive LockCodeRequestType := QueryLockStatus | ModifyLockCode | ProvideLockCode | ForgetLockCode.
#[global] Instance LockCodeRequestType_eq_dec : EqDecision LockCodeRequestType.
Proof. solve_decision. Defined.

(** [operator==] where it compares all that is modelled. *)
Definition same {T} `{!EqDecision T} (x y : T) : bool := bool_decide (x = y).

(** What the requests need of the two classes [Result]. *)
Class RequestResult (R : Type) := {
  rr_default : R;                          (* [Result()] *)
  rr_pending : R;                          (* [Result(Result::Pending)] *)
  rr_is_pending : R → bool;                (* [code() == Result::Pending] *)
  rr_ok : R → bool;                        (* [code() == Result::Succeeded] *)
  rr_not_initialized : string → R;         (* [Result(...ManagerNotInitializedError, message)] *)
}.

Class RequestResultLaws (R : Type) `{!RequestResult R} := {
  rr_default_ok : rr_ok rr_default = true;
  rr_pending_is_pending : rr_is_pending rr_pending = true;
  rr_ok_not_pending r : rr_ok r = true → rr_is_pending r = false;
  rr_not_initialized_fails m :
    rr_ok (rr_not_initialized m) = false ∧ rr_is_pending (rr_not_initialized m) = false;
}.

(** A reply: the result and the values after it, or an error of the bus.  An
    error is also what Qt makes of a reply whose types are not those of the
    [QDBusPendingReply]; values after the expected ones do not matter. *)
Inductive Reply (R V : Type) :=
  | Answer (r : R) (values : list V)
  | BusError (message : string).
Arguments Answer {R V}. Arguments BusError {R V}.

Fixpoint types_match {V} (types : list (V → bool)) (values : list V) : bool :=
  match types, values with
  | [], _ => true
  | t :: types, v :: values => t v && types_match types values
  | _ :: _, [] => false
  end.

Definition received {R V} (types : list (V → bool)) (reply : Reply R V) : Reply R V :=
  match reply with
  | Answer _ values =>
      if types_match types values then reply else BusError "Unexpected reply signature"
  | BusError _ => reply
  end.

(** What a function of the manager returns: a reply that it made itself, or the
    pending reply to a call of the daemon. *)
Inductive Issued (Call R V : Type) :=
  | Local (reply : Reply R V)
  | Remote (c : Call).
Arguments Local {Call R V}. Arguments Remote {Call R V}.

(** What a request does, in order. *)
Inductive ClientEvent (Call : Type) :=
  | Emitted (signal : string)
  | Called (c : Call).
Arguments Emitted {Call}. Arguments Called {Call}.

Section requests.
  Context {P V R Call : Type} `{!RequestResult R}.

(** How the classes differ in [startRequest].  Where two fields of signals are
    given, the signals [statusChanged] and [resultChanged] are between them. *)
Record RequestClass := mkRequestClass {
  rc_issue : nat → P → Issued Call R V;    (* the call, with the manager *)
  rc_types : list (V → bool);              (* the types after [Result] in [QDBusPendingReply<...>] *)
  rc_defaults : list V;                    (* default-constructed values of these types *)
  rc_fails : string → bool;                (* whether an error of the bus is tested for at once *)
  rc_error_values : list V → list V;       (* the values after such an error *)
  rc_failed_values : list V → list V → list V; (* from those before and those of a failure that is there *)
  rc_taken : list V → list V → list V;     (* from those before and those of the awaited reply *)
  rc_error_seen : bool;                    (* whether the callback tests for an error of the bus *)
  rc_first : list string;
  rc_failed_last : list string;            (* if the reply is there and a failure *)
  rc_last : list string;
}.

Record ClientRequest := mkClientRequest {
  cr_parameters : P;
  cr_values : list V;
  cr_status : ClientStatus;
  cr_result : R;
  cr_manager : option nat;
  cr_watcher : option (RequestClass * option (Reply R V));  (* with the reply, if it is there *)
  cr_trace : list (ClientEvent Call);
}.

Definition emit (signal : string) (q : ClientRequest) : ClientRequest :=
  mkClientRequest (cr_parameters q) (cr_values q) (cr_status q) (cr_result q) (cr_manager q)
    (cr_watcher q) (cr_trace q ++ [Emitted signal]).

Definition emit_all (signals : list string) (q : ClientRequest) : ClientRequest :=
  foldl (λ q s, emit s q) q signals.

Definition with_parameters (p : P) (q : ClientRequest) : ClientRequest :=
  mkClientRequest p (cr_values q) (cr_status q) (cr_result q) (cr_manager q) (cr_watcher q)
    (cr_trace q).

Definition with_values (v : list V) (q : ClientRequest) : ClientRequest :=
  mkClientRequest (cr_parameters q) v (cr_status q) (cr_result q) (cr_manager q) (cr_watcher q)
    (cr_trace q).

Definition with_status (s : ClientStatus) (q : ClientRequest) : ClientRequest :=
  mkClientRequest (cr_parameters q) (cr_values q) s (cr_result q) (cr_manager q) (cr_watcher q)
    (cr_trace q).

Definition with_result (r : R) (q : ClientRequest) : ClientRequest :=
  mkClientRequest (cr_parameters q) (cr_values q) (cr_status q) r (cr_manager q) (cr_watcher q)
    (cr_trace q).

Definition with_watcher (w : option (RequestClass * option (Reply R V))) (q : ClientRequest)
  : ClientRequest :=
  mkClientRequest (cr_parameters q) (cr_values q) (cr_status q) (cr_result q) (cr_manager q) w
    (cr_trace q).

(** A new request object. *)
Definition newRequest (p : P) (values : list V) : ClientRequest :=
  mkClientRequest p values Inactive rr_default None None [].

(** * Setters *)

(** [if (d->m_status == Request::Finished) { ... emit statusChanged(); }] *)
Definition inactivate (q : ClientRequest) : ClientRequest :=
  if bool_decide (cr_status q = Finished) then emit "statusChanged" (with_status Inactive q) else q.

(** The setter of a parameter; [guarded]: not while the request is active. *)
Definition setParameter {T} (guarded : bool) (eqb : T → T → bool) (get : P → T) (set : T → P → P)
  (signal : string) (v : T) (q : ClientRequest) : ClientRequest :=
  if (negb guarded || negb (bool_decide (cr_status q = Active)))
     && negb (eqb (get (cr_parameters q)) v)
  then emit signal (inactivate (with_parameters (set v (cr_parameters q)) q))
  else q.

(** [setManager] *)
Definition setManager (manager : option nat) (q : ClientRequest) : ClientRequest :=
  if bool_decide (cr_manager q = manager) then q
  else
    emit "managerChanged"
      (mkClientRequest (cr_parameters q) (cr_values q) (cr_status q) (cr_result q) manager
         (cr_watcher q) (cr_trace q)).

(** * Running a request *)

(** [reply.argumentAt<n>()]: default-constructed values in place of what is
    missing, and all values of an error are missing. *)
Definition arguments (cls : RequestClass) (reply : Reply R V) : R * list V :=
  match reply with
  | Answer r values =>
      (r, take (length (rc_defaults cls)) values ++ drop (length values) (rc_defaults cls))
  | BusError _ => (rr_default, rc_defaults cls)
  end.

Definition finish (r : R) (values : list V) (signals : list string) (q : ClientRequest)
  : ClientRequest :=
  emit_all signals (with_values values (with_result r (with_status Finished q))).

(** The first lines of [startRequest]. *)
Definition activate (q : ClientRequest) : ClientRequest :=
  let q := emit "statusChanged" (with_status Active q) in
  if rr_is_pending (cr_result q) then q else emit "resultChanged" (with_result rr_pending q).

(** The call; [bus]: the reply, if it is there when the call returns. *)
Definition issue (bus : Call → option (Reply R V)) (types : list (V → bool)) (i : Issued Call R V)
  (q : ClientRequest) : option (Reply R V) * ClientRequest :=
  match i with
  | Local reply => (Some reply, q)
  | Remote c =>
      (received types <$> bus c,
       mkClientRequest (cr_parameters q) (cr_values q) (cr_status q) (cr_result q) (cr_manager q)
         (cr_watcher q) (cr_trace q ++ [Called c]))
  end.

(** [!reply.isValid() && !reply.error().message().isEmpty()], or what the class
    has in its place. *)
Definition seen_error (cls : RequestClass) (reply : Reply R V) : option string :=
  match reply with
  | BusError m => if rc_fails cls m then Some m else None
  | Answer _ _ => None
  end.

(** The rest: an error, a failure that is there at once, or a watcher. *)
Definition follow (cls : RequestClass) (reply : option (Reply R V)) (q : ClientRequest)
  : ClientRequest :=
  match reply with
  | None => with_watcher (Some (cls, None)) q
  | Some reply' =>
      match seen_error cls reply' with
      | Some m =>
          finish (rr_not_initialized m) (rc_error_values cls (cr_values q))
            (rc_first cls ++ ["statusChanged"; "resultChanged"]) q
      | None =>
          let '(r, values) := arguments cls reply' in
          if rr_ok r then with_watcher (Some (cls, reply)) q
          else
            finish r (rc_failed_values cls (cr_values q) values)
              (rc_first cls ++ ["statusChanged"; "resultChanged"] ++ rc_failed_last cls) q
      end
  end.

(** [startRequest] *)
Definition startRequest (cls : RequestClass) (bus : Call → option (Reply R V)) (q : ClientRequest)
  : ClientRequest :=
  match cr_manager q with
  | Some manager =>
      if bool_decide (cr_status q = Active) then q
      else
        let '(reply, q') :=
          issue bus (rc_types cls) (rc_issue cls manager (cr_parameters q)) (activate q) in
        follow cls reply q'
  | None => q
  end.

(** The callback of the watcher, when the message [reply] has arrived, or the
    reply was there before. *)
Definition watcherFinished (reply : Reply R V) (q : ClientRequest) : ClientRequest :=
  match cr_watcher q with
  | None => q
  | Some (cls, known) =>
      let reply := default (received (rc_types cls) reply) known in
      let '(r, values) :=
        match reply with
        | BusError m =>
            if rc_error_seen cls then (rr_not_initialized m, rc_defaults cls)
            else arguments cls reply
        | Answer _ _ => arguments cls reply
        end in
      finish r (rc_taken cls (cr_values q) values)
        (rc_first cls ++ ["statusChanged"; "resultChanged"] ++ rc_last cls) (with_watcher None q)
  end.

(** * The life of a request *)

(** What all setters have in common. *)
Record is_setter (f : ClientRequest → ClientRequest) : Prop := mk_is_setter {
  set_result q : cr_result (f q) = cr_result q;
  set_watcher q : cr_watcher (f q) = cr_watcher q;
  set_manager q : cr_manager (f q) = cr_manager q;
  set_status q :
    cr_status (f q) = cr_status q ∨ (cr_status q = Finished ∧ cr_status (f q) = Inactive);
}.

Lemma inactivate_fields q :
  cr_result (inactivate q) = cr_result q ∧ cr_watcher (inactivate q) = cr_watcher q
  ∧ cr_manager (inactivate q) = cr_manager q ∧ cr_parameters (inactivate q) = cr_parameters q
  ∧ (cr_status (inactivate q) = cr_status q
     ∨ (cr_status q = Finished ∧ cr_status (inactivate q) = Inactive)).
Proof. unfold inactivate. case_bool_decide; split_and!; simpl; auto. Qed.

Lemma setParameter_setter {T} guarded (eqb : T → T → bool) get set signal v :
  is_setter (setParameter guarded eqb get set signal v).
Proof.
  split; intros q; unfold setParameter; case_match; try done; simpl;
    destruct (inactivate_fields (with_parameters (set v (cr_parameters q)) q))
      as (Hr & Hw & Hm & _ & Hs); simpl in *; auto.
Qed.

(** Whatever the application and the bus do; [cls] chooses the class by the
    parameters. *)
Inductive client_step (cls : P → RequestClass) : ClientRequest → ClientRequest → Prop :=
  | client_set f q : is_setter f → client_step cls q (f q)
  | client_manager m q : client_step cls q (setManager m q)
  | client_start bus q : client_step cls q (startRequest (cls (cr_parameters q)) bus q)
  | client_reply reply q : client_step cls q (watcherFinished reply q).

Lemma emit_all_fields signals q :
  cr_status (emit_all signals q) = cr_status q ∧ cr_result (emit_all signals q) = cr_result q
  ∧ cr_watcher (emit_all signals q) = cr_watcher q ∧ cr_values (emit_all signals q) = cr_values q
  ∧ cr_manager (emit_all signals q) = cr_manager q.
Proof.
  revert q. induction signals as [|s l IH]; intros q; [done|]. apply (IH (emit s q)).
Qed.

Lemma finish_fields r values signals q :
  cr_status (finish r values signals q) = Finished ∧ cr_result (finish r values signals q) = r
  ∧ cr_watcher (finish r values signals q) = cr_watcher q
  ∧ cr_values (finish r values signals q) = values
  ∧ cr_manager (finish r values signals q) = cr_manager q.
Proof.
  unfold finish.
  by destruct (emit_all_fields signals (with_values values (with_result r (with_status Finished q))))
    as (-> & -> & -> & -> & ->).
Qed.

(** Reads the fields of a finished request. *)
Ltac finish_facts :=
  match goal with
  | |- context [finish ?r ?v ?l ?q] =>
      let H := fresh in
      pose proof (finish_fields r v l q) as H; destruct H as (-> & ? & -> & ? & ->)
  end.

Lemma follow_fields cls reply q :
  cr_status q = Active → cr_watcher q = None →
  cr_manager (follow cls reply q) = cr_manager q
  ∧ ((cr_status (follow cls reply q) = Active ∧ cr_result (follow cls reply q) = cr_result q
      ∧ cr_watcher (follow cls reply q) = Some (cls, reply))
     ∨ (cr_status (follow cls reply q) = Finished ∧ cr_watcher (follow cls reply q) = None)).
Proof.
  intros Hs Hw. destruct reply as [reply|]; simpl; [|auto].
  destruct (seen_error cls reply) as [m|]; [finish_facts; auto|].
  destruct (arguments cls reply) as [r values].
  destruct (rr_ok r); [simpl; auto|]. finish_facts. auto.
Qed.

Lemma activate_fields `{!RequestResultLaws R} q :
  cr_status (activate q) = Active ∧ rr_is_pending (cr_result (activate q)) = true
  ∧ cr_watcher (activate q) = cr_watcher q ∧ cr_manager (activate q) = cr_manager q
  ∧ cr_parameters (activate q) = cr_parameters q ∧ cr_values (activate q) = cr_values q.
Proof.
  unfold activate. simpl. destruct (rr_is_pending (cr_result q)) eqn:Hp; simpl; [done|].
  by rewrite rr_pending_is_pending.
Qed.

Lemma issue_fields bus types i q :
  cr_status (issue bus types i q).2 = cr_status q ∧ cr_result (issue bus types i q).2 = cr_result q
  ∧ cr_watcher (issue bus types i q).2 = cr_watcher q
  ∧ cr_manager (issue bus types i q).2 = cr_manager q
  ∧ cr_values (issue bus types i q).2 = cr_values q.
Proof. by destruct i. Qed.

(** A request is active exactly while a reply is awaited, and then its result is
    pending. *)
Record request_ok (q : ClientRequest) : Prop := mk_request_ok {
  ro_active : cr_status q = Active ↔ is_Some (cr_watcher q);
  ro_pending : cr_status q = Active → rr_is_pending (cr_result q) = true;
}.

Lemma setter_ok f q : is_setter f → request_ok q → request_ok (f q).
Proof.
  intros Hf [Ha Hp]. destruct (set_status _ Hf q) as [Hs|[Hs Hs']].
  - split; rewrite Hs; [by rewrite (set_watcher _ Hf)|by rewrite (set_result _ Hf)].
  - split; rewrite Hs'; [|done]. rewrite (set_watcher _ Hf), <- Ha, Hs. done.
Qed.

Lemma not_Active_no_watcher q : request_ok q → cr_status q ≠ Active → cr_watcher q = None.
Proof.
  intros Hq Hs. destruct (cr_watcher q) as [w|] eqn:Hw; [|done].
  destruct Hs. apply Hq. rewrite Hw. by eexists.
Qed.

Lemma start_progress `{!RequestResultLaws R} cls bus m q :
  request_ok q → cr_status q ≠ Active → cr_manager q = Some m →
  let q' := startRequest cls bus q in
  (cr_status q' = Active ∧ is_Some (cr_watcher q') ∧ rr_is_pending (cr_result q') = true)
  ∨ (cr_status q' = Finished ∧ cr_watcher q' = None).
Proof.
  intros Hq Hs Hm. assert (Hw := not_Active_no_watcher q Hq Hs).
  unfold startRequest. rewrite Hm. rewrite bool_decide_eq_false_2 by done.
  destruct (activate_fields q) as (Ha & Hp & Hw' & _).
  destruct (issue bus (rc_types cls) (rc_issue cls m (cr_parameters q)) (activate q)) as [reply q'] eqn:Hi.
  destruct (issue_fields bus (rc_types cls) (rc_issue cls m (cr_parameters q)) (activate q))
    as (Hs1 & Hr1 & Hw1 & _). rewrite Hi in *. simpl in *.
  destruct (follow_fields cls reply q') as [_ [(Hf & Hr & Hw2)|[Hf Hw2]]]; [congruence..| |by right].
  left. rewrite Hf, Hw2, Hr, Hr1. split; [done|]. split; [by eexists|done].
Qed.

Lemma start_ok `{!RequestResultLaws R} cls bus q : request_ok q → request_ok (startRequest cls bus q).
Proof.
  intros Hq. destruct (cr_manager q) as [m|] eqn:Hm; [|by unfold startRequest; rewrite Hm].
  destruct (decide (cr_status q = Active)) as [Hs|Hs].
  { unfold startRequest. rewrite Hm. by rewrite bool_decide_eq_true_2. }
  destruct (start_progress cls bus m q Hq Hs Hm) as [(Ha & Hw & Hp)|[Hf Hw]].
  - by split; rewrite Ha.
  - split; rewrite Hf; [|done]. rewrite Hw. split; [done|]. by intros [? ?].
Qed.

Lemma reply_finishes reply q :
  is_Some (cr_watcher q) →
  cr_status (watcherFinished reply q) = Finished ∧ cr_watcher (watcherFinished reply q) = None.
Proof.
  intros [[cls known] Hw]. unfold watcherFinished. rewrite Hw.
  case_match. by destruct (finish_fields r (rc_taken cls (cr_values q) l)
    (rc_first cls ++ ["statusChanged"; "resultChanged"] ++ rc_last cls) (with_watcher None q))
    as (-> & _ & -> & _).
Qed.

Lemma reply_ok reply q : request_ok q → request_ok (watcherFinished reply q).
Proof.
  intros Hq. destruct (cr_watcher q) as [w|] eqn:Hw.
  - destruct (reply_finishes reply q) as [Hs Hw']; [rewrite Hw; by eexists|].
    split; rewrite Hs; [|done]. rewrite Hw'. split; [done|]. by intros [? ?].
  - unfold watcherFinished. by rewrite Hw.
Qed.

Lemma manager_ok m q : request_ok q → request_ok (setManager m q).
Proof. intros [Ha Hp]. unfold setManager. case_bool_decide; [by split|]. by split. Qed.

Lemma client_reachable_ok `{!RequestResultLaws R} cls p values q :
  rtc (client_step cls) (newRequest p values) q → request_ok q.
Proof.
  assert (Hn : request_ok (newRequest p values)).
  { split; simpl; [|done]. split; [done|]. by intros [? ?]. }
  revert Hn. generalize (newRequest p values). induction 2 as [|? ? ? Hstep _ IH]; [done|].
  apply IH. destruct Hstep; [by apply setter_ok|by apply manager_ok|by apply start_ok|by apply reply_ok].
Qed.
End requests.
Arguments RequestClass : clear implicits.
Arguments ClientRequest : clear implicits.
