(* ===== verification/SecretsClient.v ===== *)
(** The secrets client library: the requests of lib/Secrets and the calls of
    SecretManagerPrivate (lib/Secrets/secretmanager.cpp).  The request for
    information on plugins is left out.

    What an application sets a secret or an identifier to is compared by the
    [operator==] of their classes.  Fields that a constructor does not initialize
    are arguments of the new object. *)
From S2P Require Import Prelude Result PluginApi PluginFunctionWrappers Processor.
From S2P Require Import SecretsService ClientRequest.

Definition SecretManagerNotInitializedError : ErrorCode := 17.
Definition InteractionServiceUnavailableError : ErrorCode := 81.

#[export] Instance secrets_result : RequestResult Result := {|
  rr_default := result_of_code Succeeded;
  rr_pending := result_of_code Pending;
  rr_is_pending r := bool_decide (code r = Pending);
  rr_ok r := ok r;
  rr_not_initialized m := result_error SecretManagerNotInitializedError m;
|}.

#[export] Instance secrets_result_laws : RequestResultLaws Result.
Proof.
  split; [done|done| |done]. intros r Hr. simpl in *. apply ok_spec in Hr. by rewrite Hr.
Qed.

Abbreviation SecretsIssued := (Issued DBusCall Result QVariant).
Abbreviation SecretsReply := (Reply Result QVariant).
Abbreviation SecretsRequest P := (ClientRequest P QVariant Result DBusCall).
Abbreviation SecretsSetter P T := (T → SecretsRequest P → SecretsRequest P).
Abbreviation SecretsClass P := (RequestClass P QVariant Result DBusCall).

(** [operator==] of identifiers and of secrets *)
Definition identifier_eqb (a b : Identifier) : bool :=
  bool_decide (ident_collectionName a = ident_collectionName b)
  && bool_decide (ident_name a = ident_name b).

Definition secret_eqb (a b : Secret) : bool :=
  identifier_eqb (secret_identifier a) (secret_identifier b)
  && bool_decide (secret_data a = secret_data b)
  && bool_decide (secret_filterData a = secret_filterData b).

Definition no_interaction : InteractionParameters := mkInteraction "" "" "" "" UnknownOperation "" 0.
Definition no_secret : Secret := mkSecret (mkIdentifier "" "" "") "" ∅.

(** [Secret::Identifier::isValid], [Secret::Identifier::identifiesStandaloneSecret] *)
Definition identifier_isValid (i : Identifier) : bool :=
  negb (isEmpty (ident_name i)) && negb (isEmpty (ident_storagePluginName i)).
Definition identifiesStandaloneSecret (i : Identifier) : bool := isEmpty (ident_collectionName i).

(** The types of the values of replies. *)
Definition t_byteArray (v : QVariant) : bool := match v with VByteArray _ => true | _ => false end.
Definition t_names (v : QVariant) : bool := match v with VNames _ => true | _ => false end.
Definition t_secret (v : QVariant) : bool := match v with VSecret _ => true | _ => false end.
Definition t_secretIdentifiers (v : QVariant) : bool :=
  match v with VIdentifiers _ => true | _ => false end.
Definition t_secretsLockStatus (v : QVariant) : bool :=
  match v with VLockStatus _ => true | _ => false end.
Definition t_health (v : QVariant) : bool := match v with VHealth _ => true | _ => false end.

(** * The calls *)

(** [if (!m_interface) ...] *)
Definition sm_call (connected : bool) (i : SecretsIssued) : SecretsIssued :=
  if connected then i else Local (BusError "Not connected to daemon").

(** [registerInteractionService]; [service]: the address at which the service of
    the application can be registered, if it can be. *)
Definition registerInteractionService (service : option string) (mode : UserInteractionMode)
  : Result * string :=
  if bool_decide (mode = ApplicationInteraction) then
    match service with
    | Some address => (result_of_code Succeeded, address)
    | None =>
        (result_error InteractionServiceUnavailableError "Unable to start in-process ui service", "")
    end
  else (result_of_code Succeeded, "").

Definition sm_with_address (service : option string) (mode : UserInteractionMode)
  (values : list QVariant) (c : string → DBusCall) : SecretsIssued :=
  let '(uiServiceResult, address) := registerInteractionService service mode in
  if bool_decide (code uiServiceResult = Failed) then Local (Answer uiServiceResult values)
  else Remote (c address).

(** [getHealthInfo] *)
Definition sm_getHealthInfo (connected : bool) : SecretsIssued :=
  sm_call connected (Remote DGetHealthInfo).

(** [userInput] *)
Definition sm_userInput (connected : bool) (uiParams : InteractionParameters) : SecretsIssued :=
  sm_call connected (Remote (DUserInput uiParams)).

(** [collectionNames] *)
Definition sm_collectionNames (connected : bool) (storagePluginName : string) : SecretsIssued :=
  sm_call connected (Remote (DCollectionNames storagePluginName)).

(** [createCollection], for the device lock and for a lock of its own *)
Definition sm_createDeviceLockCollection (connected : bool)
  (collectionName storagePluginName encryptionPluginName : string) (unlockSemantic : Z)
  (accessControlMode : AccessControlMode) : SecretsIssued :=
  sm_call connected
    (Remote (DCreateDeviceLockCollection collectionName storagePluginName encryptionPluginName
               unlockSemantic accessControlMode)).

Definition sm_createCustomLockCollection (connected : bool) (service : option string)
  (collectionName storagePluginName encryptionPluginName authenticationPluginName : string)
  (unlockSemantic : Z) (accessControlMode : AccessControlMode) (mode : UserInteractionMode)
  : SecretsIssued :=
  sm_call connected
    (sm_with_address service mode []
       (DCreateCustomLockCollection collectionName storagePluginName encryptionPluginName
          authenticationPluginName unlockSemantic accessControlMode mode)).

(** [deleteCollection] *)
Definition sm_deleteCollection (connected : bool) (service : option string)
  (collectionName storagePluginName : string) (mode : UserInteractionMode) : SecretsIssued :=
  sm_call connected
    (sm_with_address service mode [] (DDeleteCollection collectionName storagePluginName mode)).

(** [setSecret], of a collection and the two of standalone secrets *)
Definition sm_setSecret (connected : bool) (service : option string) (secret : Secret)
  (uiParams : InteractionParameters) (mode : UserInteractionMode) : SecretsIssued :=
  sm_call connected
    (if negb (identifier_isValid (secret_identifier secret))
        || identifiesStandaloneSecret (secret_identifier secret) then
       Local (Answer (result_error InvalidSecretIdentifierError
                        "This method cannot be invoked with a standalone secret") [])
     else sm_with_address service mode [] (DSetSecret secret uiParams mode)).

Definition sm_for_standalone (secret : Secret) (i : SecretsIssued) : SecretsIssued :=
  if negb (identifier_isValid (secret_identifier secret))
     || negb (identifiesStandaloneSecret (secret_identifier secret)) then
    Local (Answer (result_error InvalidSecretIdentifierError
                     "This method cannot be invoked with a collection secret") [])
  else i.

Definition sm_setDeviceLockSecret (connected : bool) (service : option string) (secret : Secret)
  (encryptionPluginName : string) (uiParams : InteractionParameters) (unlockSemantic : Z)
  (accessControlMode : AccessControlMode) (mode : UserInteractionMode) : SecretsIssued :=
  sm_call connected
    (sm_for_standalone secret
       (sm_with_address service mode []
          (DSetDeviceLockSecret secret encryptionPluginName uiParams unlockSemantic
             accessControlMode mode))).

Definition sm_setCustomLockSecret (connected : bool) (service : option string) (secret : Secret)
  (encryptionPluginName authenticationPluginName : string) (uiParams : InteractionParameters)
  (unlockSemantic : Z) (accessControlMode : AccessControlMode) (mode : UserInteractionMode)
  : SecretsIssued :=
  sm_call connected
    (sm_for_standalone secret
       (sm_with_address service mode []
          (DSetCustomLockSecret secret encryptionPluginName authenticationPluginName uiParams
             unlockSemantic accessControlMode mode))).

Definition sm_for_valid (identifier : Identifier) (i : SecretsIssued) : SecretsIssued :=
  if negb (identifier_isValid identifier) then
    Local (Answer (result_error InvalidSecretIdentifierError "The given identifier is invalid") [])
  else i.

(** [getSecret] *)
Definition sm_getSecret (connected : bool) (service : option string) (identifier : Identifier)
  (mode : UserInteractionMode) : SecretsIssued :=
  sm_call connected
    (sm_for_valid identifier (sm_with_address service mode [] (DGetSecret identifier mode))).

(** [findSecrets], in a collection and of standalone secrets *)
Definition sm_findSecrets (connected : bool) (service : option string)
  (collectionName storagePluginName : string) (flt : FilterData) (op : FilterOperator)
  (mode : UserInteractionMode) : SecretsIssued :=
  sm_call connected
    (if isEmpty collectionName then
       Local (Answer (result_error InvalidCollectionError "The given collection name is invalid")
                [VIdentifiers []])
     else
       sm_with_address service mode [VIdentifiers []]
         (DFindSecrets collectionName storagePluginName flt op mode)).

Definition sm_findStandaloneSecrets (connected : bool) (service : option string)
  (storagePluginName : string) (flt : FilterData) (op : FilterOperator)
  (mode : UserInteractionMode) : SecretsIssued :=
  sm_call connected (sm_with_address service mode [] (DFindSecrets "" storagePluginName flt op mode)).

(** [deleteSecret] *)
Definition sm_deleteSecret (connected : bool) (service : option string) (identifier : Identifier)
  (mode : UserInteractionMode) : SecretsIssued :=
  sm_call connected
    (sm_for_valid identifier (sm_with_address service mode [] (DDeleteSecret identifier mode))).

(** [queryLockStatus] *)
Definition sm_queryLockStatus (connected : bool) (type : LockCodeTargetType) (target : string)
  : SecretsIssued :=
  sm_call connected (Remote (DQueryLockStatus type target)).

(** [modifyLockCode] *)
Definition sm_modifyLockCode (connected : bool) (service : option string)
  (type : LockCodeTargetType) (target : string) (ip : InteractionParameters)
  (mode : UserInteractionMode) : SecretsIssued :=
  sm_call connected (sm_with_address service mode [] (DModifyLockCode type target ip mode)).

(** [provideLockCode] *)
Definition sm_provideLockCode (connected : bool) (service : option string)
  (type : LockCodeTargetType) (target : string) (ip : InteractionParameters)
  (mode : UserInteractionMode) : SecretsIssued :=
  sm_call connected (sm_with_address service mode [] (DProvideLockCode type target ip mode)).

(** [forgetLockCode] *)
Definition sm_forgetLockCode (connected : bool) (service : option string)
  (type : LockCodeTargetType) (target : string) (ip : InteractionParameters)
  (mode : UserInteractionMode) : SecretsIssued :=
  sm_call connected (sm_with_address service mode [] (DForgetLockCode type target ip mode)).

(** * The requests *)

(** [startRequest] of most requests. *)
Definition secrets_class {P} (issue : nat → P → SecretsIssued) (types : list (QVariant → bool))
  (defaults : list QVariant) (signals : list string) : SecretsClass P :=
  mkRequestClass issue types defaults (λ m, negb (isEmpty m)) id (λ _ v, v) (λ _ v, v) false []
    signals signals.

Section requests.
  Context (connected : nat → bool) (uiService : nat → option string).

(** ** [HealthCheckRequest] *)

Definition newHealthCheckRequest : SecretsRequest unit :=
  newRequest tt [VHealth HealthUnknown; VHealth HealthUnknown].

Definition HealthCheckRequest_class : SecretsClass unit :=
  mkRequestClass (λ m _, sm_getHealthInfo (connected m)) [t_health; t_health]
    [VHealth HealthOK; VHealth HealthOK] (λ m, negb (isEmpty m))
    (λ _, [VHealth HealthUnknown; VHealth HealthUnknown]) (λ _ v, v) (λ _ v, v) false
    ["saltDataHealthChanged"; "masterlockHealthChanged"; "isHealthyChanged"] [] [].

Definition HealthCheckRequest_startRequest := startRequest HealthCheckRequest_class.

(** [isHealthy] *)
Definition isHealthy (q : SecretsRequest unit) : bool :=
  match cr_values q with
  | [VHealth HealthOK; VHealth HealthOK] => true
  | _ => false
  end.

(** ** [CollectionNamesRequest] *)

Record CollectionNamesParameters := mkCollectionNamesParameters {
  names_storagePluginName : string;
}.

Definition CollectionNamesRequest_setStoragePluginName : SecretsSetter CollectionNamesParameters
      string :=
  setParameter true same names_storagePluginName
    (λ v p, mkCollectionNamesParameters v)
    "storagePluginNameChanged".

Definition newCollectionNamesRequest : SecretsRequest CollectionNamesParameters :=
  newRequest (mkCollectionNamesParameters "")
    [VNames ∅].

Definition CollectionNamesRequest_class : SecretsClass CollectionNamesParameters :=
  mkRequestClass (λ m p, sm_collectionNames (connected m) (names_storagePluginName p)) [t_names]
    [VNames ∅] (λ m, negb (isEmpty m)) id (λ old _, old) (λ _ v, v) false [] []
    ["collectionNamesChanged"].

Definition CollectionNamesRequest_startRequest := startRequest CollectionNamesRequest_class.

(** ** [CreateCollectionRequest] *)

(** [CreateCollectionRequest::CollectionLockType] *)
Inductive CollectionLockType := DeviceLock | CustomLock.
#[global] Instance CollectionLockType_eq_dec : EqDecision CollectionLockType.
Proof. solve_decision. Defined.

Record CreateCollectionParameters := mkCreateCollectionParameters {
  create_collectionLockType : CollectionLockType;
  create_collectionName : string;
  create_storagePluginName : string;
  create_encryptionPluginName : string;
  create_authenticationPluginName : string;
  create_deviceLockUnlockSemantic : Z;
  create_customLockUnlockSemantic : Z;
  create_accessControlMode : AccessControlMode;
  create_userInteractionMode : UserInteractionMode;
}.

Definition CreateCollectionRequest_setCollectionLockType : SecretsSetter
      CreateCollectionParameters CollectionLockType :=
  setParameter true same create_collectionLockType
    (λ v p, mkCreateCollectionParameters v (create_collectionName p) (create_storagePluginName p)
        (create_encryptionPluginName p) (create_authenticationPluginName p)
        (create_deviceLockUnlockSemantic p) (create_customLockUnlockSemantic p)
        (create_accessControlMode p) (create_userInteractionMode p))
    "collectionLockTypeChanged".

Definition CreateCollectionRequest_setCollectionName : SecretsSetter CreateCollectionParameters
      string :=
  setParameter true same create_collectionName
    (λ v p, mkCreateCollectionParameters (create_collectionLockType p) v
        (create_storagePluginName p) (create_encryptionPluginName p)
        (create_authenticationPluginName p) (create_deviceLockUnlockSemantic p)
        (create_customLockUnlockSemantic p) (create_accessControlMode p)
        (create_userInteractionMode p))
    "collectionNameChanged".

Definition CreateCollectionRequest_setStoragePluginName : SecretsSetter
      CreateCollectionParameters string :=
  setParameter true same create_storagePluginName
    (λ v p, mkCreateCollectionParameters (create_collectionLockType p) (create_collectionName p)
        v (create_encryptionPluginName p) (create_authenticationPluginName p)
        (create_deviceLockUnlockSemantic p) (create_customLockUnlockSemantic p)
        (create_accessControlMode p) (create_userInteractionMode p))
    "storagePluginNameChanged".

Definition CreateCollectionRequest_setEncryptionPluginName : SecretsSetter
      CreateCollectionParameters string :=
  setParameter true same create_encryptionPluginName
    (λ v p, mkCreateCollectionParameters (create_collectionLockType p) (create_collectionName p)
        (create_storagePluginName p) v (create_authenticationPluginName p)
        (create_deviceLockUnlockSemantic p) (create_customLockUnlockSemantic p)
        (create_accessControlMode p) (create_userInteractionMode p))
    "encryptionPluginNameChanged".

Definition CreateCollectionRequest_setAuthenticationPluginName : SecretsSetter
      CreateCollectionParameters string :=
  setParameter true same create_authenticationPluginName
    (λ v p, mkCreateCollectionParameters (create_collectionLockType p) (create_collectionName p)
        (create_storagePluginName p) (create_encryptionPluginName p) v
        (create_deviceLockUnlockSemantic p) (create_customLockUnlockSemantic p)
        (create_accessControlMode p) (create_userInteractionMode p))
    "authenticationPluginNameChanged".

Definition CreateCollectionRequest_setDeviceLockUnlockSemantic : SecretsSetter
      CreateCollectionParameters Z :=
  setParameter true same create_deviceLockUnlockSemantic
    (λ v p, mkCreateCollectionParameters (create_collectionLockType p) (create_collectionName p)
        (create_storagePluginName p) (create_encryptionPluginName p)
        (create_authenticationPluginName p) v (create_customLockUnlockSemantic p)
        (create_accessControlMode p) (create_userInteractionMode p))
    "deviceLockUnlockSemanticChanged".

Definition CreateCollectionRequest_setCustomLockUnlockSemantic : SecretsSetter
      CreateCollectionParameters Z :=
  setParameter true same create_customLockUnlockSemantic
    (λ v p, mkCreateCollectionParameters (create_collectionLockType p) (create_collectionName p)
        (create_storagePluginName p) (create_encryptionPluginName p)
        (create_authenticationPluginName p) (create_deviceLockUnlockSemantic p) v
        (create_accessControlMode p) (create_userInteractionMode p))
    "customLockUnlockSemanticChanged".

Definition CreateCollectionRequest_setAccessControlMode : SecretsSetter
      CreateCollectionParameters AccessControlMode :=
  setParameter true same create_accessControlMode
    (λ v p, mkCreateCollectionParameters (create_collectionLockType p) (create_collectionName p)
        (create_storagePluginName p) (create_encryptionPluginName p)
        (create_authenticationPluginName p) (create_deviceLockUnlockSemantic p)
        (create_customLockUnlockSemantic p) v (create_userInteractionMode p))
    "accessControlModeChanged".

Definition CreateCollectionRequest_setUserInteractionMode : SecretsSetter
      CreateCollectionParameters UserInteractionMode :=
  setParameter true same create_userInteractionMode
    (λ v p, mkCreateCollectionParameters (create_collectionLockType p) (create_collectionName p)
        (create_storagePluginName p) (create_encryptionPluginName p)
        (create_authenticationPluginName p) (create_deviceLockUnlockSemantic p)
        (create_customLockUnlockSemantic p) (create_accessControlMode p) v)
    "userInteractionModeChanged".

Definition newCreateCollectionRequest : SecretsRequest CreateCollectionParameters :=
  newRequest (mkCreateCollectionParameters DeviceLock "" "" "" "" DeviceLockKeepUnlocked
      CustomLockKeepUnlocked OwnerOnlyMode PreventInteraction)
    [].

Definition CreateCollectionRequest_class : SecretsClass CreateCollectionParameters :=
  secrets_class
    (λ m p,
       match create_collectionLockType p with
       | CustomLock =>
           sm_createCustomLockCollection (connected m) (uiService m) (create_collectionName p)
             (create_storagePluginName p) (create_encryptionPluginName p)
             (create_authenticationPluginName p) (create_customLockUnlockSemantic p)
             (create_accessControlMode p) (create_userInteractionMode p)
       | DeviceLock =>
           sm_createDeviceLockCollection (connected m) (create_collectionName p)
             (create_storagePluginName p) (create_encryptionPluginName p)
             (create_deviceLockUnlockSemantic p) (create_accessControlMode p)
       end) [] [] [].

Definition CreateCollectionRequest_startRequest := startRequest CreateCollectionRequest_class.

(** ** [DeleteCollectionRequest] *)

Record DeleteCollectionParameters := mkDeleteCollectionParameters {
  deleteCollection_collectionName : string;
  deleteCollection_storagePluginName : string;
  deleteCollection_userInteractionMode : UserInteractionMode;
}.

Definition DeleteCollectionRequest_setCollectionName : SecretsSetter DeleteCollectionParameters
      string :=
  setParameter true same deleteCollection_collectionName
    (λ v p, mkDeleteCollectionParameters v (deleteCollection_storagePluginName p)
        (deleteCollection_userInteractionMode p))
    "collectionNameChanged".

Definition DeleteCollectionRequest_setStoragePluginName : SecretsSetter
      DeleteCollectionParameters string :=
  setParameter true same deleteCollection_storagePluginName
    (λ v p, mkDeleteCollectionParameters (deleteCollection_collectionName p) v
        (deleteCollection_userInteractionMode p))
    "storagePluginNameChanged".

Definition DeleteCollectionRequest_setUserInteractionMode : SecretsSetter
      DeleteCollectionParameters UserInteractionMode :=
  setParameter true same deleteCollection_userInteractionMode
    (λ v p, mkDeleteCollectionParameters (deleteCollection_collectionName p)
        (deleteCollection_storagePluginName p) v)
    "userInteractionModeChanged".

Definition newDeleteCollectionRequest : SecretsRequest DeleteCollectionParameters :=
  newRequest (mkDeleteCollectionParameters "" "" PreventInteraction)
    [].

Definition DeleteCollectionRequest_class : SecretsClass DeleteCollectionParameters :=
  secrets_class
    (λ m p, sm_deleteCollection (connected m) (uiService m) (deleteCollection_collectionName p)
              (deleteCollection_storagePluginName p) (deleteCollection_userInteractionMode p))
    [] [] [].

Definition DeleteCollectionRequest_startRequest := startRequest DeleteCollectionRequest_class.

(** ** [DeleteSecretRequest] *)

Record DeleteSecretParameters := mkDeleteSecretParameters {
  deleteSecret_identifier : Identifier;
  deleteSecret_userInteractionMode : UserInteractionMode;
}.

Definition DeleteSecretRequest_setIdentifier : SecretsSetter DeleteSecretParameters Identifier :=
  setParameter true identifier_eqb deleteSecret_identifier
    (λ v p, mkDeleteSecretParameters v (deleteSecret_userInteractionMode p))
    "identifierChanged".

Definition DeleteSecretRequest_setUserInteractionMode : SecretsSetter DeleteSecretParameters
      UserInteractionMode :=
  setParameter true same deleteSecret_userInteractionMode
    (λ v p, mkDeleteSecretParameters (deleteSecret_identifier p) v)
    "userInteractionModeChanged".

Definition newDeleteSecretRequest : SecretsRequest DeleteSecretParameters :=
  newRequest (mkDeleteSecretParameters (mkIdentifier "" "" "") PreventInteraction)
    [].

Definition DeleteSecretRequest_class : SecretsClass DeleteSecretParameters :=
  mkRequestClass
    (λ m p, sm_deleteSecret (connected m) (uiService m) (deleteSecret_identifier p)
              (deleteSecret_userInteractionMode p))
    [] [] (λ _, false) id (λ _ v, v) (λ _ v, v) false [] [] [].

Definition DeleteSecretRequest_startRequest := startRequest DeleteSecretRequest_class.

(** ** [FindSecretsRequest] *)

Record FindSecretsParameters := mkFindSecretsParameters {
  find_collectionName : string;
  find_storagePluginName : string;
  find_filter : FilterData;
  find_filterOperator : FilterOperator;
  find_userInteractionMode : UserInteractionMode;
}.

Definition FindSecretsRequest_setCollectionName : SecretsSetter FindSecretsParameters string :=
  setParameter true same find_collectionName
    (λ v p, mkFindSecretsParameters v (find_storagePluginName p) (find_filter p)
        (find_filterOperator p) (find_userInteractionMode p))
    "collectionNameChanged".

Definition FindSecretsRequest_setStoragePluginName : SecretsSetter FindSecretsParameters string :=
  setParameter true same find_storagePluginName
    (λ v p, mkFindSecretsParameters (find_collectionName p) v (find_filter p)
        (find_filterOperator p) (find_userInteractionMode p))
    "storagePluginNameChanged".

Definition FindSecretsRequest_setFilter : SecretsSetter FindSecretsParameters FilterData :=
  setParameter true same find_filter
    (λ v p, mkFindSecretsParameters (find_collectionName p) (find_storagePluginName p) v
        (find_filterOperator p) (find_userInteractionMode p))
    "filterChanged".

Definition FindSecretsRequest_setFilterOperator : SecretsSetter FindSecretsParameters
      FilterOperator :=
  setParameter true same find_filterOperator
    (λ v p, mkFindSecretsParameters (find_collectionName p) (find_storagePluginName p)
        (find_filter p) v (find_userInteractionMode p))
    "filterOperatorChanged".

Definition FindSecretsRequest_setUserInteractionMode : SecretsSetter FindSecretsParameters
      UserInteractionMode :=
  setParameter true same find_userInteractionMode
    (λ v p, mkFindSecretsParameters (find_collectionName p) (find_storagePluginName p)
        (find_filter p) (find_filterOperator p) v)
    "userInteractionModeChanged".

Definition newFindSecretsRequest (filterOperator : FilterOperator) : SecretsRequest
      FindSecretsParameters :=
  newRequest (mkFindSecretsParameters "" "" ∅ filterOperator PreventInteraction)
    [VIdentifiers []].

Definition FindSecretsRequest_class : SecretsClass FindSecretsParameters :=
  secrets_class
    (λ m p,
       if isEmpty (find_collectionName p) then
         sm_findStandaloneSecrets (connected m) (uiService m) (find_storagePluginName p)
           (find_filter p) (find_filterOperator p) (find_userInteractionMode p)
       else
         sm_findSecrets (connected m) (uiService m) (find_collectionName p)
           (find_storagePluginName p) (find_filter p) (find_filterOperator p)
           (find_userInteractionMode p))
    [t_secretIdentifiers] [VIdentifiers []] ["identifiersChanged"].

Definition FindSecretsRequest_startRequest := startRequest FindSecretsRequest_class.

(** ** [InteractionRequest] *)

Record InteractionRequestParameters := mkInteractionRequestParameters {
  interaction_interactionParameters : InteractionParameters;
}.

Definition InteractionRequest_setInteractionParameters : SecretsSetter
      InteractionRequestParameters InteractionParameters :=
  setParameter true same interaction_interactionParameters
    (λ v p, mkInteractionRequestParameters v)
    "interactionParametersChanged".

Definition newInteractionRequest : SecretsRequest InteractionRequestParameters :=
  newRequest (mkInteractionRequestParameters no_interaction)
    [VByteArray ""].

Definition InteractionRequest_class : SecretsClass InteractionRequestParameters :=
  secrets_class (λ m p, sm_userInput (connected m) (interaction_interactionParameters p))
    [t_byteArray] [VByteArray ""] ["userInputChanged"].

Definition InteractionRequest_startRequest := startRequest InteractionRequest_class.

(** ** [StoredSecretRequest] *)

Record StoredSecretParameters := mkStoredSecretParameters {
  stored_identifier : Identifier;
  stored_userInteractionMode : UserInteractionMode;
}.

Definition StoredSecretRequest_setIdentifier : SecretsSetter StoredSecretParameters Identifier :=
  setParameter true identifier_eqb stored_identifier
    (λ v p, mkStoredSecretParameters v (stored_userInteractionMode p))
    "identifierChanged".

Definition StoredSecretRequest_setUserInteractionMode : SecretsSetter StoredSecretParameters
      UserInteractionMode :=
  setParameter true same stored_userInteractionMode
    (λ v p, mkStoredSecretParameters (stored_identifier p) v)
    "userInteractionModeChanged".

Definition newStoredSecretRequest : SecretsRequest StoredSecretParameters :=
  newRequest (mkStoredSecretParameters (mkIdentifier "" "" "") PreventInteraction)
    [VSecret no_secret].

Definition StoredSecretRequest_class : SecretsClass StoredSecretParameters :=
  secrets_class
    (λ m p, sm_getSecret (connected m) (uiService m) (stored_identifier p)
              (stored_userInteractionMode p))
    [t_secret] [VSecret no_secret] ["secretChanged"].

Definition StoredSecretRequest_startRequest := startRequest StoredSecretRequest_class.

(** ** [StoreSecretRequest] *)

(** [StoreSecretRequest::SecretStorageType] *)
Inductive SecretStorageType :=
  | CollectionSecret
  | StandaloneDeviceLockSecret
  | StandaloneCustomLockSecret.
#[global] Instance SecretStorageType_eq_dec : EqDecision SecretStorageType.
Proof. solve_decision. Defined.

Record StoreSecretParameters := mkStoreSecretParameters {
  store_secretStorageType : SecretStorageType;
  store_secret : Secret;
  store_encryptionPluginName : string;
  store_authenticationPluginName : string;
  store_interactionParameters : InteractionParameters;
  store_deviceLockUnlockSemantic : Z;
  store_customLockUnlockSemantic : Z;
  store_accessControlMode : AccessControlMode;
  store_userInteractionMode : UserInteractionMode;
}.

Definition StoreSecretRequest_setSecretStorageType : SecretsSetter StoreSecretParameters
      SecretStorageType :=
  setParameter true same store_secretStorageType
    (λ v p, mkStoreSecretParameters v (store_secret p) (store_encryptionPluginName p)
        (store_authenticationPluginName p) (store_interactionParameters p)
        (store_deviceLockUnlockSemantic p) (store_customLockUnlockSemantic p)
        (store_accessControlMode p) (store_userInteractionMode p))
    "secretStorageTypeChanged".

Definition StoreSecretRequest_setEncryptionPluginName : SecretsSetter StoreSecretParameters
      string :=
  setParameter true same store_encryptionPluginName
    (λ v p, mkStoreSecretParameters (store_secretStorageType p) (store_secret p) v
        (store_authenticationPluginName p) (store_interactionParameters p)
        (store_deviceLockUnlockSemantic p) (store_customLockUnlockSemantic p)
        (store_accessControlMode p) (store_userInteractionMode p))
    "encryptionPluginNameChanged".

Definition StoreSecretRequest_setAuthenticationPluginName : SecretsSetter StoreSecretParameters
      string :=
  setParameter true same store_authenticationPluginName
    (λ v p, mkStoreSecretParameters (store_secretStorageType p) (store_secret p)
        (store_encryptionPluginName p) v (store_interactionParameters p)
        (store_deviceLockUnlockSemantic p) (store_customLockUnlockSemantic p)
        (store_accessControlMode p) (store_userInteractionMode p))
    "authenticationPluginNameChanged".

Definition StoreSecretRequest_setSecret : SecretsSetter StoreSecretParameters Secret :=
  setParameter true secret_eqb store_secret
    (λ v p, mkStoreSecretParameters (store_secretStorageType p) v (store_encryptionPluginName p)
        (store_authenticationPluginName p) (store_interactionParameters p)
        (store_deviceLockUnlockSemantic p) (store_customLockUnlockSemantic p)
        (store_accessControlMode p) (store_userInteractionMode p))
    "secretChanged".

Definition StoreSecretRequest_setInteractionParameters : SecretsSetter StoreSecretParameters
      InteractionParameters :=
  setParameter true same store_interactionParameters
    (λ v p, mkStoreSecretParameters (store_secretStorageType p) (store_secret p)
        (store_encryptionPluginName p) (store_authenticationPluginName p) v
        (store_deviceLockUnlockSemantic p) (store_customLockUnlockSemantic p)
        (store_accessControlMode p) (store_userInteractionMode p))
    "interactionParametersChanged".

Definition StoreSecretRequest_setDeviceLockUnlockSemantic : SecretsSetter StoreSecretParameters Z :=
  setParameter true same store_deviceLockUnlockSemantic
    (λ v p, mkStoreSecretParameters (store_secretStorageType p) (store_secret p)
        (store_encryptionPluginName p) (store_authenticationPluginName p)
        (store_interactionParameters p) v (store_customLockUnlockSemantic p)
        (store_accessControlMode p) (store_userInteractionMode p))
    "deviceLockUnlockSemanticChanged".

Definition StoreSecretRequest_setCustomLockUnlockSemantic : SecretsSetter StoreSecretParameters Z :=
  setParameter true same store_customLockUnlockSemantic
    (λ v p, mkStoreSecretParameters (store_secretStorageType p) (store_secret p)
        (store_encryptionPluginName p) (store_authenticationPluginName p)
        (store_interactionParameters p) (store_deviceLockUnlockSemantic p) v
        (store_accessControlMode p) (store_userInteractionMode p))
    "customLockUnlockSemanticChanged".

Definition StoreSecretRequest_setAccessControlMode : SecretsSetter StoreSecretParameters
      AccessControlMode :=
  setParameter true same store_accessControlMode
    (λ v p, mkStoreSecretParameters (store_secretStorageType p) (store_secret p)
        (store_encryptionPluginName p) (store_authenticationPluginName p)
        (store_interactionParameters p) (store_deviceLockUnlockSemantic p)
        (store_customLockUnlockSemantic p) v (store_userInteractionMode p))
    "accessControlModeChanged".

Definition StoreSecretRequest_setUserInteractionMode : SecretsSetter StoreSecretParameters
      UserInteractionMode :=
  setParameter true same store_userInteractionMode
    (λ v p, mkStoreSecretParameters (store_secretStorageType p) (store_secret p)
        (store_encryptionPluginName p) (store_authenticationPluginName p)
        (store_interactionParameters p) (store_deviceLockUnlockSemantic p)
        (store_customLockUnlockSemantic p) (store_accessControlMode p) v)
    "userInteractionModeChanged".

Definition newStoreSecretRequest : SecretsRequest StoreSecretParameters :=
  newRequest (mkStoreSecretParameters CollectionSecret no_secret "" "" no_interaction
      DeviceLockKeepUnlocked CustomLockKeepUnlocked OwnerOnlyMode PreventInteraction)
    [].

Definition StoreSecretRequest_class : SecretsClass StoreSecretParameters :=
  secrets_class
    (λ m p,
       match store_secretStorageType p with
       | CollectionSecret =>
           sm_setSecret (connected m) (uiService m) (store_secret p)
             (store_interactionParameters p) (store_userInteractionMode p)
       | StandaloneCustomLockSecret =>
           sm_setCustomLockSecret (connected m) (uiService m) (store_secret p)
             (store_encryptionPluginName p) (store_authenticationPluginName p)
             (store_interactionParameters p) (store_customLockUnlockSemantic p)
             (store_accessControlMode p) (store_userInteractionMode p)
       | StandaloneDeviceLockSecret =>
           sm_setDeviceLockSecret (connected m) (uiService m) (store_secret p)
             (store_encryptionPluginName p) (store_interactionParameters p)
             (store_deviceLockUnlockSemantic p) (store_accessControlMode p)
             (store_userInteractionMode p)
       end) [] [] [].

Definition StoreSecretRequest_startRequest := startRequest StoreSecretRequest_class.

(** ** [LockCodeRequest] *)

Record SecretsLockCodeParameters := mkSecretsLockCodeParameters {
  secretsLock_lockCodeRequestType : LockCodeRequestType;
  secretsLock_lockCodeTargetType : Z;
  secretsLock_userInteractionMode : UserInteractionMode;
  secretsLock_interactionParameters : InteractionParameters;
  secretsLock_lockCodeTarget : string;
}.

(** The setter of the type also forgets the lock status. *)
Definition secretsLock_forget (q : SecretsRequest SecretsLockCodeParameters)
  : SecretsRequest SecretsLockCodeParameters :=
  match cr_values q with
  | [VLockStatus UnknownLockStatus] => q
  | _ => emit "lockStatusChanged" (with_values [VLockStatus UnknownLockStatus] q)
  end.

Definition secretsLock_setRequestType (guarded : bool)
  (eqb : LockCodeRequestType → LockCodeRequestType → bool)
  (get : SecretsLockCodeParameters → LockCodeRequestType)
  (set : LockCodeRequestType → SecretsLockCodeParameters → SecretsLockCodeParameters) (signal :
      string)
  (v : LockCodeRequestType) (q : SecretsRequest SecretsLockCodeParameters)
  : SecretsRequest SecretsLockCodeParameters :=
  if (negb guarded || negb (bool_decide (cr_status q = Active)))
     && negb (eqb (get (cr_parameters q)) v)
  then emit signal (secretsLock_forget (inactivate (with_parameters (set v (cr_parameters q)) q)))
  else q.

Definition SecretsLockCodeRequest_setLockCodeRequestType : SecretsSetter
      SecretsLockCodeParameters LockCodeRequestType :=
  secretsLock_setRequestType true same secretsLock_lockCodeRequestType
    (λ v p, mkSecretsLockCodeParameters v (secretsLock_lockCodeTargetType p)
        (secretsLock_userInteractionMode p) (secretsLock_interactionParameters p)
        (secretsLock_lockCodeTarget p))
    "lockCodeRequestTypeChanged".

Definition SecretsLockCodeRequest_setLockCodeTargetType : SecretsSetter SecretsLockCodeParameters
      Z :=
  setParameter true same secretsLock_lockCodeTargetType
    (λ v p, mkSecretsLockCodeParameters (secretsLock_lockCodeRequestType p) v
        (secretsLock_userInteractionMode p) (secretsLock_interactionParameters p)
        (secretsLock_lockCodeTarget p))
    "lockCodeTargetTypeChanged".

Definition SecretsLockCodeRequest_setUserInteractionMode : SecretsSetter
      SecretsLockCodeParameters UserInteractionMode :=
  setParameter true same secretsLock_userInteractionMode
    (λ v p, mkSecretsLockCodeParameters (secretsLock_lockCodeRequestType p)
        (secretsLock_lockCodeTargetType p) v (secretsLock_interactionParameters p)
        (secretsLock_lockCodeTarget p))
    "userInteractionModeChanged".

Definition SecretsLockCodeRequest_setInteractionParameters : SecretsSetter
      SecretsLockCodeParameters InteractionParameters :=
  setParameter true same secretsLock_interactionParameters
    (λ v p, mkSecretsLockCodeParameters (secretsLock_lockCodeRequestType p)
        (secretsLock_lockCodeTargetType p) (secretsLock_userInteractionMode p) v
        (secretsLock_lockCodeTarget p))
    "interactionParametersChanged".

Definition SecretsLockCodeRequest_setLockCodeTarget : SecretsSetter SecretsLockCodeParameters
      string :=
  setParameter true same secretsLock_lockCodeTarget
    (λ v p, mkSecretsLockCodeParameters (secretsLock_lockCodeRequestType p)
        (secretsLock_lockCodeTargetType p) (secretsLock_userInteractionMode p)
        (secretsLock_interactionParameters p) v)
    "lockCodeTargetChanged".

Definition newSecretsLockCodeRequest : SecretsRequest SecretsLockCodeParameters :=
  newRequest (mkSecretsLockCodeParameters ModifyLockCode MetadataDatabase SystemInteraction
      no_interaction "")
    [VLockStatus UnknownLockStatus].

(** [startRequest] for [QueryLockStatus] *)
Definition SecretsQueryLockRequest_class : SecretsClass SecretsLockCodeParameters :=
  mkRequestClass
    (λ m p, sm_queryLockStatus (connected m) (secretsLock_lockCodeTargetType p)
              (secretsLock_lockCodeTarget p))
    [t_secretsLockStatus] [VLockStatus UnknownLockStatus] (λ m, negb (isEmpty m))
    (λ _, [VLockStatus UnknownLockStatus]) (λ _ _, [VLockStatus UnknownLockStatus]) (λ _ v, v)
    false ["lockStatusChanged"] [] [].

(** [startRequest] for the other types: the call *)
Definition SecretsLockCodeRequest_issue (m : nat) (p : SecretsLockCodeParameters) : SecretsIssued :=
  match secretsLock_lockCodeRequestType p with
  | ModifyLockCode => sm_modifyLockCode (connected m) (uiService m)
  | ProvideLockCode => sm_provideLockCode (connected m) (uiService m)
  | _ => sm_forgetLockCode (connected m) (uiService m)
  end (secretsLock_lockCodeTargetType p) (secretsLock_lockCodeTarget p)
    (secretsLock_interactionParameters p) (secretsLock_userInteractionMode p).

(** It leaves the lock status alone. *)
Definition SecretsCodeRequest_class : SecretsClass SecretsLockCodeParameters :=
  mkRequestClass SecretsLockCodeRequest_issue [] [] (λ m, negb (isEmpty m)) id (λ old _, old)
    (λ old _, old) false [] [] [].

Definition SecretsLockCodeRequest_class (p : SecretsLockCodeParameters) : SecretsClass
      SecretsLockCodeParameters :=
  if bool_decide (secretsLock_lockCodeRequestType p = QueryLockStatus) then
      SecretsQueryLockRequest_class
  else SecretsCodeRequest_class.

Definition SecretsLockCodeRequest_startRequest (bus : DBusCall → option SecretsReply)
  (q : SecretsRequest SecretsLockCodeParameters) : SecretsRequest SecretsLockCodeParameters :=
  startRequest (SecretsLockCodeRequest_class (cr_parameters q)) bus q.
End requests.
