(* ===== verification/CryptoClient.v ===== *)
(** The crypto client library: the requests of lib/Crypto and the calls of
    CryptoManagerPrivate (lib/Crypto/cryptomanager.cpp).  [CipherRequest] is in a
    file of its own; the request for information on plugins is left out.

    What an application sets a key to is compared by [operator==] of keys.  Fields
    that a constructor does not initialize are arguments of the new object. *)
From S2P Require Import Prelude Result PluginApi PluginFunctionWrappers Processor CryptoManager.
From S2P Require Import SecretsService CryptoKey CryptoProcessor CryptoService ClientRequest SecretsClient.

#[global] Instance KeyDerivationParameters_eq_dec : EqDecision KeyDerivationParameters.
Proof. solve_decision. Defined.
#[global] Instance KeyPairParameters_eq_dec : EqDecision KeyPairParameters.
Proof. solve_decision. Defined.

Definition CryptoManagerNotInitializedError : Z := 14.

#[export] Instance crypto_result : RequestResult CResult := {|
  rr_default := cresult_of_code Succeeded;
  rr_pending := cresult_of_code Pending;
  rr_is_pending r := c_is_pending r;
  rr_ok r := c_ok r;
  rr_not_initialized m := cresult_error CryptoManagerNotInitializedError m;
|}.

#[export] Instance crypto_result_laws : RequestResultLaws CResult.
Proof.
  split; [done|done| |done].
  intros r Hr. unfold rr_ok, rr_is_pending, crypto_result, c_ok, c_is_pending in *.
  apply bool_decide_eq_true in Hr. rewrite Hr. done.
Qed.

Abbreviation CryptoIssued := (Issued CryptoCall CResult CVariant).
Abbreviation CryptoReply := (Reply CResult CVariant).
Abbreviation CryptoRequest P := (ClientRequest P CVariant CResult CryptoCall).
Abbreviation CryptoSetter P T := (T → CryptoRequest P → CryptoRequest P).
Abbreviation CryptoClass P := (RequestClass P CVariant CResult CryptoCall).

(** The types of the values of replies; a lock status may be uninitialized. *)
Definition t_bytes (v : CVariant) : bool := match v with CVBytes _ => true | _ => false end.
Definition t_number (v : CVariant) : bool := match v with CVNumber _ => true | _ => false end.
Definition t_key (v : CVariant) : bool := match v with CVKey _ => true | _ => false end.
Definition t_identifiers (v : CVariant) : bool := match v with CVIdentifiers _ => true | _ => false end.
Definition t_verificationStatus (v : CVariant) : bool :=
  match v with CVVerificationStatus _ => true | _ => false end.
Definition t_lockStatus (v : CVariant) : bool :=
  match v with CVLockStatus _ | CVUninitialized => true | _ => false end.

(** * The calls *)

(** [if (!m_interface) ...] *)
Definition cm_call (connected : bool) (c : CryptoCall) : CryptoIssued :=
  if connected then Remote c else Local (BusError "Not connected to daemon").

(** [generateRandomData] *)
Definition cm_generateRandomData (connected : bool) (numberBytes : Z)
    (csprngEngineName : string) (custom : QVariantMap) (p : string) : CryptoIssued :=
  cm_call connected (XGenerateRandomData numberBytes csprngEngineName custom p).

(** [seedRandomDataGenerator] *)
Definition cm_seedRandomDataGenerator (connected : bool) (seedData : bytes)
    (entropyEstimate : Z) (csprngEngineName : string) (custom : QVariantMap)
    (p : string) : CryptoIssued :=
  cm_call connected (XSeedRandomDataGenerator seedData entropyEstimate csprngEngineName custom p).

(** [generateInitializationVector] *)
Definition cm_generateInitializationVector (connected : bool) (algorithm blockMode keySize : Z)
    (custom : QVariantMap) (p : string) : CryptoIssued :=
  cm_call connected (XGenerateInitializationVector algorithm blockMode keySize custom p).

(** [generateKey] *)
Definition cm_generateKey (connected : bool) (keyTemplate : CKey)
    (kpgParams : KeyPairParameters) (skdfParams : KeyDerivationParameters)
    (custom : QVariantMap) (p : string) : CryptoIssued :=
  cm_call connected (XGenerateKey keyTemplate kpgParams skdfParams custom p).

(** [generateStoredKey] *)
Definition cm_generateStoredKey (connected : bool) (keyTemplate : CKey)
    (kpgParams : KeyPairParameters) (skdfParams : KeyDerivationParameters)
    (uiParams : InteractionParameters) (custom : QVariantMap) (p : string) : CryptoIssued :=
  cm_call connected (XGenerateStoredKey keyTemplate kpgParams skdfParams uiParams custom p).

(** [importKey] *)
Definition cm_importKey (connected : bool) (data : bytes) (uiParams : InteractionParameters)
    (custom : QVariantMap) (p : string) : CryptoIssued :=
  cm_call connected (XImportKey data uiParams custom p).

(** [importStoredKey] *)
Definition cm_importStoredKey (connected : bool) (data : bytes) (keyTemplate : CKey)
    (uiParams : InteractionParameters) (custom : QVariantMap) (p : string) : CryptoIssued :=
  cm_call connected (XImportStoredKey data keyTemplate uiParams custom p).

(** [storedKey] *)
Definition cm_storedKey (connected : bool) (identifier : Identifier) (keyComponents : Z)
    (custom : QVariantMap) : CryptoIssued :=
  cm_call connected (XStoredKey identifier keyComponents custom).

(** [deleteStoredKey] *)
Definition cm_deleteStoredKey (connected : bool) (identifier : Identifier) : CryptoIssued :=
  cm_call connected (XDeleteStoredKey identifier).

(** [storedKeyIdentifiers] *)
Definition cm_storedKeyIdentifiers (connected : bool)
    (storagePluginName collectionName : string) (custom : QVariantMap) : CryptoIssued :=
  cm_call connected (XStoredKeyIdentifiers storagePluginName collectionName custom).

(** [calculateDigest] *)
Definition cm_calculateDigest (connected : bool) (data : bytes) (padding digestFunction : Z)
    (custom : QVariantMap) (p : string) : CryptoIssued :=
  cm_call connected (XCalculateDigest data padding digestFunction custom p).

(** [sign] *)
Definition cm_sign (connected : bool) (data : bytes) (key : CKey) (padding digest : Z)
    (custom : QVariantMap) (p : string) : CryptoIssued :=
  cm_call connected (XSign data key padding digest custom p).

(** [verify] *)
Definition cm_verify (connected : bool) (signature data : bytes) (key : CKey)
    (padding digest : Z) (custom : QVariantMap) (p : string) : CryptoIssued :=
  cm_call connected (XVerify signature data key padding digest custom p).

(** [encrypt] *)
Definition cm_encrypt (connected : bool) (data iv : bytes) (key : CKey) (blockMode padding : Z)
    (authenticationData : bytes) (custom : QVariantMap) (p : string) : CryptoIssued :=
  cm_call connected (XEncrypt data iv key blockMode padding authenticationData custom p).

(** [decrypt] *)
Definition cm_decrypt (connected : bool) (data iv : bytes) (key : CKey) (blockMode padding : Z)
    (authenticationData authenticationTag : bytes) (custom : QVariantMap)
    (p : string) : CryptoIssued :=
  cm_call connected (XDecrypt data iv key blockMode padding authenticationData authenticationTag
    custom p).

(** [initializeCipherSession] *)
Definition cm_initializeCipherSession (connected : bool) (iv : bytes) (key : CKey)
    (operation blockMode encryptionPadding signaturePadding digest : Z) (custom : QVariantMap)
    (p : string) : CryptoIssued :=
  cm_call connected (XInitializeCipherSession iv key operation blockMode encryptionPadding
    signaturePadding digest custom p).

(** [updateCipherSessionAuthentication] *)
Definition cm_updateCipherSessionAuthentication (connected : bool) (authenticationData : bytes)
    (custom : QVariantMap) (p : string) (token : Z) : CryptoIssued :=
  cm_call connected (XUpdateCipherSessionAuthentication authenticationData custom p token).

(** [updateCipherSession] *)
Definition cm_updateCipherSession (connected : bool) (data : bytes) (custom : QVariantMap)
    (p : string) (token : Z) : CryptoIssued :=
  cm_call connected (XUpdateCipherSession data custom p token).

(** [finalizeCipherSession] *)
Definition cm_finalizeCipherSession (connected : bool) (data : bytes) (custom : QVariantMap)
    (p : string) (token : Z) : CryptoIssued :=
  cm_call connected (XFinalizeCipherSession data custom p token).

(** [queryLockStatus] *)
Definition cm_queryLockStatus (connected : bool) (type : LockCodeTargetType)
    (target : string) : CryptoIssued :=
  cm_call connected (XQueryLockStatus type target).

(** [modifyLockCode] *)
Definition cm_modifyLockCode (connected : bool) (type : LockCodeTargetType) (target : string)
    (ip : InteractionParameters) : CryptoIssued :=
  cm_call connected (XModifyLockCode type target ip).

(** [provideLockCode] *)
Definition cm_provideLockCode (connected : bool) (type : LockCodeTargetType) (target : string)
    (ip : InteractionParameters) : CryptoIssued :=
  cm_call connected (XProvideLockCode type target ip).

(** [forgetLockCode] *)
Definition cm_forgetLockCode (connected : bool) (type : LockCodeTargetType) (target : string)
    (ip : InteractionParameters) : CryptoIssued :=
  cm_call connected (XForgetLockCode type target ip).

(** * The requests *)

(** [startRequest] of most requests. *)
Definition crypto_class {P} (issue : nat → P → CryptoIssued) (types : list (CVariant → bool))
  (defaults : list CVariant) (signals : list string) : CryptoClass P :=
  mkRequestClass issue types defaults (λ m, negb (isEmpty m)) id (λ _ v, v) (λ _ v, v) false [] signals signals.

(** A request that looks at errors of the bus in both places. *)
Definition import_class {P} (issue : nat → P → CryptoIssued) (types : list (CVariant → bool))
  (defaults : list CVariant) (signals : list string) : CryptoClass P :=
  mkRequestClass issue types defaults (λ _, true) id (λ _ v, v) (λ _ v, v) true [] signals signals.

Section requests.
  Context (connected : nat → bool).

(** ** [CalculateDigestRequest] *)

Record CalculateDigestParameters := mkCalculateDigestParameters {
  digest_data : bytes;
  digest_padding : Z;
  digest_digestFunction : Z;
  digest_customParameters : QVariantMap;
  digest_cryptoPluginName : string;
}.

Definition CalculateDigestRequest_setData : CryptoSetter CalculateDigestParameters bytes :=
  setParameter true same digest_data
    (λ v p, mkCalculateDigestParameters v (digest_padding p) (digest_digestFunction p)
        (digest_customParameters p) (digest_cryptoPluginName p))
    "dataChanged".

Definition CalculateDigestRequest_setPadding : CryptoSetter CalculateDigestParameters Z :=
  setParameter true same digest_padding
    (λ v p, mkCalculateDigestParameters (digest_data p) v (digest_digestFunction p)
        (digest_customParameters p) (digest_cryptoPluginName p))
    "paddingChanged".

Definition CalculateDigestRequest_setDigestFunction : CryptoSetter CalculateDigestParameters Z :=
  setParameter true same digest_digestFunction
    (λ v p, mkCalculateDigestParameters (digest_data p) (digest_padding p) v
        (digest_customParameters p) (digest_cryptoPluginName p))
    "digestFunctionChanged".

Definition CalculateDigestRequest_setCryptoPluginName : CryptoSetter CalculateDigestParameters
      string :=
  setParameter true same digest_cryptoPluginName
    (λ v p, mkCalculateDigestParameters (digest_data p) (digest_padding p) (digest_digestFunction
        p) (digest_customParameters p) v)
    "cryptoPluginNameChanged".

Definition CalculateDigestRequest_setCustomParameters : CryptoSetter CalculateDigestParameters
      QVariantMap :=
  setParameter false same digest_customParameters
    (λ v p, mkCalculateDigestParameters (digest_data p) (digest_padding p) (digest_digestFunction
        p) v (digest_cryptoPluginName p))
    "customParametersChanged".

Definition newCalculateDigestRequest (padding digestFunction : Z) : CryptoRequest
      CalculateDigestParameters :=
  newRequest (mkCalculateDigestParameters "" padding digestFunction ∅ "")
    [CVBytes ""].

Definition CalculateDigestRequest_class : CryptoClass CalculateDigestParameters :=
  crypto_class
    (λ m p, cm_calculateDigest (connected m) (digest_data p) (digest_padding p)
      (digest_digestFunction p) (digest_customParameters p) (digest_cryptoPluginName p))
    [t_bytes] [CVBytes ""]
    ["digestChanged"].

Definition CalculateDigestRequest_startRequest := startRequest CalculateDigestRequest_class.

(** ** [DecryptRequest] *)

Record DecryptParameters := mkDecryptParameters {
  decrypt_data : bytes;
  decrypt_initializationVector : bytes;
  decrypt_key : CKey;
  decrypt_blockMode : Z;
  decrypt_padding : Z;
  decrypt_authenticationData : bytes;
  decrypt_authenticationTag : bytes;
  decrypt_customParameters : QVariantMap;
  decrypt_cryptoPluginName : string;
}.

Definition DecryptRequest_setData : CryptoSetter DecryptParameters bytes :=
  setParameter true same decrypt_data
    (λ v p, mkDecryptParameters v (decrypt_initializationVector p) (decrypt_key p)
        (decrypt_blockMode p) (decrypt_padding p) (decrypt_authenticationData p)
        (decrypt_authenticationTag p) (decrypt_customParameters p) (decrypt_cryptoPluginName p))
    "dataChanged".

Definition DecryptRequest_setInitializationVector : CryptoSetter DecryptParameters bytes :=
  setParameter true same decrypt_initializationVector
    (λ v p, mkDecryptParameters (decrypt_data p) v (decrypt_key p) (decrypt_blockMode p)
        (decrypt_padding p) (decrypt_authenticationData p) (decrypt_authenticationTag p)
        (decrypt_customParameters p) (decrypt_cryptoPluginName p))
    "initializationVectorChanged".

Definition DecryptRequest_setKey : CryptoSetter DecryptParameters CKey :=
  setParameter true key_eqb decrypt_key
    (λ v p, mkDecryptParameters (decrypt_data p) (decrypt_initializationVector p) v
        (decrypt_blockMode p) (decrypt_padding p) (decrypt_authenticationData p)
        (decrypt_authenticationTag p) (decrypt_customParameters p) (decrypt_cryptoPluginName p))
    "keyChanged".

Definition DecryptRequest_setBlockMode : CryptoSetter DecryptParameters Z :=
  setParameter true same decrypt_blockMode
    (λ v p, mkDecryptParameters (decrypt_data p) (decrypt_initializationVector p) (decrypt_key p)
        v (decrypt_padding p) (decrypt_authenticationData p) (decrypt_authenticationTag p)
        (decrypt_customParameters p) (decrypt_cryptoPluginName p))
    "blockModeChanged".

Definition DecryptRequest_setPadding : CryptoSetter DecryptParameters Z :=
  setParameter true same decrypt_padding
    (λ v p, mkDecryptParameters (decrypt_data p) (decrypt_initializationVector p) (decrypt_key p)
        (decrypt_blockMode p) v (decrypt_authenticationData p) (decrypt_authenticationTag p)
        (decrypt_customParameters p) (decrypt_cryptoPluginName p))
    "paddingChanged".

Definition DecryptRequest_setAuthenticationData : CryptoSetter DecryptParameters bytes :=
  setParameter true same decrypt_authenticationData
    (λ v p, mkDecryptParameters (decrypt_data p) (decrypt_initializationVector p) (decrypt_key p)
        (decrypt_blockMode p) (decrypt_padding p) v (decrypt_authenticationTag p)
        (decrypt_customParameters p) (decrypt_cryptoPluginName p))
    "authenticationDataChanged".

Definition DecryptRequest_setAuthenticationTag : CryptoSetter DecryptParameters bytes :=
  setParameter true same decrypt_authenticationTag
    (λ v p, mkDecryptParameters (decrypt_data p) (decrypt_initializationVector p) (decrypt_key p)
        (decrypt_blockMode p) (decrypt_padding p) (decrypt_authenticationData p) v
        (decrypt_customParameters p) (decrypt_cryptoPluginName p))
    "authenticationTagChanged".

Definition DecryptRequest_setCryptoPluginName : CryptoSetter DecryptParameters string :=
  setParameter true same decrypt_cryptoPluginName
    (λ v p, mkDecryptParameters (decrypt_data p) (decrypt_initializationVector p) (decrypt_key p)
        (decrypt_blockMode p) (decrypt_padding p) (decrypt_authenticationData p)
        (decrypt_authenticationTag p) (decrypt_customParameters p) v)
    "cryptoPluginNameChanged".

Definition DecryptRequest_setCustomParameters : CryptoSetter DecryptParameters QVariantMap :=
  setParameter false same decrypt_customParameters
    (λ v p, mkDecryptParameters (decrypt_data p) (decrypt_initializationVector p) (decrypt_key p)
        (decrypt_blockMode p) (decrypt_padding p) (decrypt_authenticationData p)
        (decrypt_authenticationTag p) v (decrypt_cryptoPluginName p))
    "customParametersChanged".

Definition newDecryptRequest (blockMode padding : Z) : CryptoRequest DecryptParameters :=
  newRequest (mkDecryptParameters "" "" noCKey blockMode padding "" "" ∅ "")
    [CVBytes ""; CVVerificationStatus VerificationStatusUnknown].

Definition DecryptRequest_class : CryptoClass DecryptParameters :=
  crypto_class
    (λ m p, cm_decrypt (connected m) (decrypt_data p) (decrypt_initializationVector p)
      (decrypt_key p) (decrypt_blockMode p) (decrypt_padding p) (decrypt_authenticationData p)
      (decrypt_authenticationTag p) (decrypt_customParameters p) (decrypt_cryptoPluginName p))
    [t_bytes; t_verificationStatus] [CVBytes ""; CVVerificationStatus 0]
    ["plaintextChanged"; "verificationStatusChanged"].

Definition DecryptRequest_startRequest := startRequest DecryptRequest_class.

(** ** [DeleteStoredKeyRequest] *)

Record DeleteStoredKeyParameters := mkDeleteStoredKeyParameters {
  delete_identifier : Identifier;
  delete_customParameters : QVariantMap;
}.

Definition DeleteStoredKeyRequest_setIdentifier : CryptoSetter DeleteStoredKeyParameters
      Identifier :=
  setParameter true same delete_identifier
    (λ v p, mkDeleteStoredKeyParameters v (delete_customParameters p))
    "identifierChanged".

Definition DeleteStoredKeyRequest_setCustomParameters : CryptoSetter DeleteStoredKeyParameters
      QVariantMap :=
  setParameter false same delete_customParameters
    (λ v p, mkDeleteStoredKeyParameters (delete_identifier p) v)
    "customParametersChanged".

Definition newDeleteStoredKeyRequest : CryptoRequest DeleteStoredKeyParameters :=
  newRequest (mkDeleteStoredKeyParameters (mkIdentifier "" "" "") ∅)
    [].

Definition DeleteStoredKeyRequest_class : CryptoClass DeleteStoredKeyParameters :=
  crypto_class
    (λ m p, cm_deleteStoredKey (connected m) (delete_identifier p))
    [] []
    [].

Definition DeleteStoredKeyRequest_startRequest := startRequest DeleteStoredKeyRequest_class.

(** ** [EncryptRequest] *)

Record EncryptParameters := mkEncryptParameters {
  encrypt_data : bytes;
  encrypt_initializationVector : bytes;
  encrypt_key : CKey;
  encrypt_blockMode : Z;
  encrypt_padding : Z;
  encrypt_authenticationData : bytes;
  encrypt_customParameters : QVariantMap;
  encrypt_cryptoPluginName : string;
}.

Definition EncryptRequest_setData : CryptoSetter EncryptParameters bytes :=
  setParameter true same encrypt_data
    (λ v p, mkEncryptParameters v (encrypt_initializationVector p) (encrypt_key p)
        (encrypt_blockMode p) (encrypt_padding p) (encrypt_authenticationData p)
        (encrypt_customParameters p) (encrypt_cryptoPluginName p))
    "dataChanged".

Definition EncryptRequest_setInitializationVector : CryptoSetter EncryptParameters bytes :=
  setParameter true same encrypt_initializationVector
    (λ v p, mkEncryptParameters (encrypt_data p) v (encrypt_key p) (encrypt_blockMode p)
        (encrypt_padding p) (encrypt_authenticationData p) (encrypt_customParameters p)
        (encrypt_cryptoPluginName p))
    "initializationVectorChanged".

Definition EncryptRequest_setKey : CryptoSetter EncryptParameters CKey :=
  setParameter true key_eqb encrypt_key
    (λ v p, mkEncryptParameters (encrypt_data p) (encrypt_initializationVector p) v
        (encrypt_blockMode p) (encrypt_padding p) (encrypt_authenticationData p)
        (encrypt_customParameters p) (encrypt_cryptoPluginName p))
    "keyChanged".

Definition EncryptRequest_setBlockMode : CryptoSetter EncryptParameters Z :=
  setParameter true same encrypt_blockMode
    (λ v p, mkEncryptParameters (encrypt_data p) (encrypt_initializationVector p) (encrypt_key p)
        v (encrypt_padding p) (encrypt_authenticationData p) (encrypt_customParameters p)
        (encrypt_cryptoPluginName p))
    "blockModeChanged".

Definition EncryptRequest_setPadding : CryptoSetter EncryptParameters Z :=
  setParameter true same encrypt_padding
    (λ v p, mkEncryptParameters (encrypt_data p) (encrypt_initializationVector p) (encrypt_key p)
        (encrypt_blockMode p) v (encrypt_authenticationData p) (encrypt_customParameters p)
        (encrypt_cryptoPluginName p))
    "paddingChanged".

Definition EncryptRequest_setAuthenticationData : CryptoSetter EncryptParameters bytes :=
  setParameter true same encrypt_authenticationData
    (λ v p, mkEncryptParameters (encrypt_data p) (encrypt_initializationVector p) (encrypt_key p)
        (encrypt_blockMode p) (encrypt_padding p) v (encrypt_customParameters p)
        (encrypt_cryptoPluginName p))
    "authenticationDataChanged".

Definition EncryptRequest_setCryptoPluginName : CryptoSetter EncryptParameters string :=
  setParameter true same encrypt_cryptoPluginName
    (λ v p, mkEncryptParameters (encrypt_data p) (encrypt_initializationVector p) (encrypt_key p)
        (encrypt_blockMode p) (encrypt_padding p) (encrypt_authenticationData p)
        (encrypt_customParameters p) v)
    "cryptoPluginNameChanged".

Definition EncryptRequest_setCustomParameters : CryptoSetter EncryptParameters QVariantMap :=
  setParameter false same encrypt_customParameters
    (λ v p, mkEncryptParameters (encrypt_data p) (encrypt_initializationVector p) (encrypt_key p)
        (encrypt_blockMode p) (encrypt_padding p) (encrypt_authenticationData p) v
        (encrypt_cryptoPluginName p))
    "customParametersChanged".

Definition newEncryptRequest (blockMode padding : Z) : CryptoRequest EncryptParameters :=
  newRequest (mkEncryptParameters "" "" noCKey blockMode padding "" ∅ "")
    [CVBytes ""; CVBytes ""].

Definition EncryptRequest_class : CryptoClass EncryptParameters :=
  crypto_class
    (λ m p, cm_encrypt (connected m) (encrypt_data p) (encrypt_initializationVector p)
      (encrypt_key p) (encrypt_blockMode p) (encrypt_padding p) (encrypt_authenticationData p)
      (encrypt_customParameters p) (encrypt_cryptoPluginName p))
    [t_bytes; t_bytes] [CVBytes ""; CVBytes ""]
    ["ciphertextChanged"; "authenticationTagChanged"].

Definition EncryptRequest_startRequest := startRequest EncryptRequest_class.

(** ** [GenerateInitializationVectorRequest] *)

Record GenerateInitializationVectorParameters := mkGenerateInitializationVectorParameters {
  iv_algorithm : Z;
  iv_blockMode : Z;
  iv_keySize : Z;
  iv_customParameters : QVariantMap;
  iv_cryptoPluginName : string;
}.

Definition GenerateInitializationVectorRequest_setAlgorithm : CryptoSetter
      GenerateInitializationVectorParameters Z :=
  setParameter true same iv_algorithm
    (λ v p, mkGenerateInitializationVectorParameters v (iv_blockMode p) (iv_keySize p)
        (iv_customParameters p) (iv_cryptoPluginName p))
    "algorithmChanged".

Definition GenerateInitializationVectorRequest_setBlockMode : CryptoSetter
      GenerateInitializationVectorParameters Z :=
  setParameter true same iv_blockMode
    (λ v p, mkGenerateInitializationVectorParameters (iv_algorithm p) v (iv_keySize p)
        (iv_customParameters p) (iv_cryptoPluginName p))
    "blockModeChanged".

Definition GenerateInitializationVectorRequest_setKeySize : CryptoSetter
      GenerateInitializationVectorParameters Z :=
  setParameter true same iv_keySize
    (λ v p, mkGenerateInitializationVectorParameters (iv_algorithm p) (iv_blockMode p) v
        (iv_customParameters p) (iv_cryptoPluginName p))
    "keySizeChanged".

Definition GenerateInitializationVectorRequest_setCryptoPluginName : CryptoSetter
      GenerateInitializationVectorParameters string :=
  setParameter true same iv_cryptoPluginName
    (λ v p, mkGenerateInitializationVectorParameters (iv_algorithm p) (iv_blockMode p)
        (iv_keySize p) (iv_customParameters p) v)
    "cryptoPluginNameChanged".

Definition GenerateInitializationVectorRequest_setCustomParameters : CryptoSetter
      GenerateInitializationVectorParameters QVariantMap :=
  setParameter false same iv_customParameters
    (λ v p, mkGenerateInitializationVectorParameters (iv_algorithm p) (iv_blockMode p)
        (iv_keySize p) v (iv_cryptoPluginName p))
    "customParametersChanged".

Definition newGenerateInitializationVectorRequest : CryptoRequest
      GenerateInitializationVectorParameters :=
  newRequest (mkGenerateInitializationVectorParameters AlgorithmUnknown BlockModeCbc (-1)%Z ∅ "")
    [CVBytes ""].

Definition GenerateInitializationVectorRequest_class : CryptoClass
      GenerateInitializationVectorParameters :=
  crypto_class
    (λ m p, cm_generateInitializationVector (connected m) (iv_algorithm p) (iv_blockMode p)
      (iv_keySize p) (iv_customParameters p) (iv_cryptoPluginName p))
    [t_bytes] [CVBytes ""]
    ["generatedInitializationVectorChanged"].

Definition GenerateInitializationVectorRequest_startRequest := startRequest
      GenerateInitializationVectorRequest_class.

(** ** [GenerateKeyRequest] *)

Record GenerateKeyParameters := mkGenerateKeyParameters {
  gk_keyTemplate : CKey;
  gk_kpgParams : KeyPairParameters;
  gk_skdfParams : KeyDerivationParameters;
  gk_customParameters : QVariantMap;
  gk_cryptoPluginName : string;
}.

Definition GenerateKeyRequest_setCryptoPluginName : CryptoSetter GenerateKeyParameters string :=
  setParameter true same gk_cryptoPluginName
    (λ v p, mkGenerateKeyParameters (gk_keyTemplate p) (gk_kpgParams p) (gk_skdfParams p)
        (gk_customParameters p) v)
    "cryptoPluginNameChanged".

Definition GenerateKeyRequest_setKeyDerivationParameters : CryptoSetter GenerateKeyParameters
      KeyDerivationParameters :=
  setParameter true same gk_skdfParams
    (λ v p, mkGenerateKeyParameters (gk_keyTemplate p) (gk_kpgParams p) v (gk_customParameters p)
        (gk_cryptoPluginName p))
    "keyDerivationParametersChanged".

Definition GenerateKeyRequest_setKeyPairGenerationParameters : CryptoSetter GenerateKeyParameters
      KeyPairParameters :=
  setParameter true same gk_kpgParams
    (λ v p, mkGenerateKeyParameters (gk_keyTemplate p) v (gk_skdfParams p) (gk_customParameters
        p) (gk_cryptoPluginName p))
    "keyPairGenerationParametersChanged".

Definition GenerateKeyRequest_setKeyTemplate : CryptoSetter GenerateKeyParameters CKey :=
  setParameter true key_eqb gk_keyTemplate
    (λ v p, mkGenerateKeyParameters v (gk_kpgParams p) (gk_skdfParams p) (gk_customParameters p)
        (gk_cryptoPluginName p))
    "keyTemplateChanged".

Definition GenerateKeyRequest_setCustomParameters : CryptoSetter GenerateKeyParameters
      QVariantMap :=
  setParameter false same gk_customParameters
    (λ v p, mkGenerateKeyParameters (gk_keyTemplate p) (gk_kpgParams p) (gk_skdfParams p) v
        (gk_cryptoPluginName p))
    "customParametersChanged".

Definition newGenerateKeyRequest : CryptoRequest GenerateKeyParameters :=
  newRequest (mkGenerateKeyParameters noCKey noKeyPair noKdf ∅ "")
    [CVKey noCKey].

Definition GenerateKeyRequest_class : CryptoClass GenerateKeyParameters :=
  crypto_class
    (λ m p, cm_generateKey (connected m) (gk_keyTemplate p) (gk_kpgParams p) (gk_skdfParams p)
      (gk_customParameters p) (gk_cryptoPluginName p))
    [t_key] [CVKey noCKey]
    ["generatedKeyChanged"].

Definition GenerateKeyRequest_startRequest := startRequest GenerateKeyRequest_class.

(** ** [GenerateRandomDataRequest] *)

Record GenerateRandomDataParameters := mkGenerateRandomDataParameters {
  random_numberBytes : Z;
  random_csprngEngineName : string;
  random_customParameters : QVariantMap;
  random_cryptoPluginName : string;
}.

Definition GenerateRandomDataRequest_setCryptoPluginName : CryptoSetter
      GenerateRandomDataParameters string :=
  setParameter true same random_cryptoPluginName
    (λ v p, mkGenerateRandomDataParameters (random_numberBytes p) (random_csprngEngineName p)
        (random_customParameters p) v)
    "cryptoPluginNameChanged".

Definition GenerateRandomDataRequest_setCsprngEngineName : CryptoSetter
      GenerateRandomDataParameters string :=
  setParameter true same random_csprngEngineName
    (λ v p, mkGenerateRandomDataParameters (random_numberBytes p) v (random_customParameters p)
        (random_cryptoPluginName p))
    "csprngEngineNameChanged".

Definition GenerateRandomDataRequest_setNumberBytes : CryptoSetter GenerateRandomDataParameters Z :=
  setParameter true same random_numberBytes
    (λ v p, mkGenerateRandomDataParameters v (random_csprngEngineName p) (random_customParameters
        p) (random_cryptoPluginName p))
    "numberBytesChanged".

Definition GenerateRandomDataRequest_setCustomParameters : CryptoSetter
      GenerateRandomDataParameters QVariantMap :=
  setParameter false same random_customParameters
    (λ v p, mkGenerateRandomDataParameters (random_numberBytes p) (random_csprngEngineName p) v
        (random_cryptoPluginName p))
    "customParametersChanged".

Definition newGenerateRandomDataRequest : CryptoRequest GenerateRandomDataParameters :=
  newRequest (mkGenerateRandomDataParameters 0 "default" ∅ "")
    [CVBytes ""].

Definition GenerateRandomDataRequest_class : CryptoClass GenerateRandomDataParameters :=
  crypto_class
    (λ m p, cm_generateRandomData (connected m) (random_numberBytes p) (random_csprngEngineName
      p) (random_customParameters p) (random_cryptoPluginName p))
    [t_bytes] [CVBytes ""]
    ["generatedDataChanged"].

Definition GenerateRandomDataRequest_startRequest := startRequest GenerateRandomDataRequest_class.

(** ** [GenerateStoredKeyRequest] *)

Record GenerateStoredKeyParameters := mkGenerateStoredKeyParameters {
  gsk_keyTemplate : CKey;
  gsk_kpgParams : KeyPairParameters;
  gsk_skdfParams : KeyDerivationParameters;
  gsk_uiParams : InteractionParameters;
  gsk_customParameters : QVariantMap;
  gsk_cryptoPluginName : string;
}.

Definition GenerateStoredKeyRequest_setCryptoPluginName : CryptoSetter
      GenerateStoredKeyParameters string :=
  setParameter true same gsk_cryptoPluginName
    (λ v p, mkGenerateStoredKeyParameters (gsk_keyTemplate p) (gsk_kpgParams p) (gsk_skdfParams
        p) (gsk_uiParams p) (gsk_customParameters p) v)
    "cryptoPluginNameChanged".

Definition GenerateStoredKeyRequest_setInteractionParameters : CryptoSetter
      GenerateStoredKeyParameters InteractionParameters :=
  setParameter true same gsk_uiParams
    (λ v p, mkGenerateStoredKeyParameters (gsk_keyTemplate p) (gsk_kpgParams p) (gsk_skdfParams
        p) v (gsk_customParameters p) (gsk_cryptoPluginName p))
    "interactionParametersChanged".

Definition GenerateStoredKeyRequest_setKeyDerivationParameters : CryptoSetter
      GenerateStoredKeyParameters KeyDerivationParameters :=
  setParameter true same gsk_skdfParams
    (λ v p, mkGenerateStoredKeyParameters (gsk_keyTemplate p) (gsk_kpgParams p) v (gsk_uiParams
        p) (gsk_customParameters p) (gsk_cryptoPluginName p))
    "keyDerivationParametersChanged".

Definition GenerateStoredKeyRequest_setKeyPairGenerationParameters : CryptoSetter
      GenerateStoredKeyParameters KeyPairParameters :=
  setParameter true same gsk_kpgParams
    (λ v p, mkGenerateStoredKeyParameters (gsk_keyTemplate p) v (gsk_skdfParams p) (gsk_uiParams
        p) (gsk_customParameters p) (gsk_cryptoPluginName p))
    "keyPairGenerationParametersChanged".

Definition GenerateStoredKeyRequest_setKeyTemplate : CryptoSetter GenerateStoredKeyParameters
      CKey :=
  setParameter true key_eqb gsk_keyTemplate
    (λ v p, mkGenerateStoredKeyParameters v (gsk_kpgParams p) (gsk_skdfParams p) (gsk_uiParams p)
        (gsk_customParameters p) (gsk_cryptoPluginName p))
    "keyTemplateChanged".

Definition GenerateStoredKeyRequest_setCustomParameters : CryptoSetter
      GenerateStoredKeyParameters QVariantMap :=
  setParameter false same gsk_customParameters
    (λ v p, mkGenerateStoredKeyParameters (gsk_keyTemplate p) (gsk_kpgParams p) (gsk_skdfParams
        p) (gsk_uiParams p) v (gsk_cryptoPluginName p))
    "customParametersChanged".

Definition newGenerateStoredKeyRequest : CryptoRequest GenerateStoredKeyParameters :=
  newRequest (mkGenerateStoredKeyParameters noCKey noKeyPair noKdf no_interaction ∅ "")
    [CVKey noCKey].

Definition GenerateStoredKeyRequest_class : CryptoClass GenerateStoredKeyParameters :=
  crypto_class
    (λ m p, cm_generateStoredKey (connected m) (gsk_keyTemplate p) (gsk_kpgParams p)
      (gsk_skdfParams p) (gsk_uiParams p) (gsk_customParameters p) (gsk_cryptoPluginName p))
    [t_key] [CVKey noCKey]
    ["generatedKeyReferenceChanged"].

Definition GenerateStoredKeyRequest_startRequest := startRequest GenerateStoredKeyRequest_class.

(** ** [ImportKeyRequest] *)

Record ImportKeyParameters := mkImportKeyParameters {
  import_data : bytes;
  import_uiParams : InteractionParameters;
  import_customParameters : QVariantMap;
  import_cryptoPluginName : string;
}.

Definition ImportKeyRequest_setCryptoPluginName : CryptoSetter ImportKeyParameters string :=
  setParameter true same import_cryptoPluginName
    (λ v p, mkImportKeyParameters (import_data p) (import_uiParams p) (import_customParameters p) v)
    "cryptoPluginNameChanged".

Definition ImportKeyRequest_setInteractionParameters : CryptoSetter ImportKeyParameters
      InteractionParameters :=
  setParameter true same import_uiParams
    (λ v p, mkImportKeyParameters (import_data p) v (import_customParameters p)
        (import_cryptoPluginName p))
    "interactionParametersChanged".

Definition ImportKeyRequest_setData : CryptoSetter ImportKeyParameters bytes :=
  setParameter true same import_data
    (λ v p, mkImportKeyParameters v (import_uiParams p) (import_customParameters p)
        (import_cryptoPluginName p))
    "dataChanged".

Definition ImportKeyRequest_setCustomParameters : CryptoSetter ImportKeyParameters QVariantMap :=
  setParameter false same import_customParameters
    (λ v p, mkImportKeyParameters (import_data p) (import_uiParams p) v (import_cryptoPluginName p))
    "customParametersChanged".

Definition newImportKeyRequest : CryptoRequest ImportKeyParameters :=
  newRequest (mkImportKeyParameters "" no_interaction ∅ "")
    [CVKey noCKey].

Definition ImportKeyRequest_class : CryptoClass ImportKeyParameters :=
  import_class
    (λ m p, cm_importKey (connected m) (import_data p) (import_uiParams p)
      (import_customParameters p) (import_cryptoPluginName p))
    [t_key] [CVKey noCKey]
    ["importedKeyChanged"].

Definition ImportKeyRequest_startRequest := startRequest ImportKeyRequest_class.

(** ** [ImportStoredKeyRequest] *)

Record ImportStoredKeyParameters := mkImportStoredKeyParameters {
  importStored_data : bytes;
  importStored_keyTemplate : CKey;
  importStored_uiParams : InteractionParameters;
  importStored_customParameters : QVariantMap;
  importStored_cryptoPluginName : string;
}.

Definition ImportStoredKeyRequest_setCryptoPluginName : CryptoSetter ImportStoredKeyParameters
      string :=
  setParameter true same importStored_cryptoPluginName
    (λ v p, mkImportStoredKeyParameters (importStored_data p) (importStored_keyTemplate p)
        (importStored_uiParams p) (importStored_customParameters p) v)
    "cryptoPluginNameChanged".

Definition ImportStoredKeyRequest_setInteractionParameters : CryptoSetter
      ImportStoredKeyParameters InteractionParameters :=
  setParameter true same importStored_uiParams
    (λ v p, mkImportStoredKeyParameters (importStored_data p) (importStored_keyTemplate p) v
        (importStored_customParameters p) (importStored_cryptoPluginName p))
    "interactionParametersChanged".

Definition ImportStoredKeyRequest_setData : CryptoSetter ImportStoredKeyParameters bytes :=
  setParameter true same importStored_data
    (λ v p, mkImportStoredKeyParameters v (importStored_keyTemplate p) (importStored_uiParams p)
        (importStored_customParameters p) (importStored_cryptoPluginName p))
    "dataChanged".

Definition ImportStoredKeyRequest_setKeyTemplate : CryptoSetter ImportStoredKeyParameters CKey :=
  setParameter true key_eqb importStored_keyTemplate
    (λ v p, mkImportStoredKeyParameters (importStored_data p) v (importStored_uiParams p)
        (importStored_customParameters p) (importStored_cryptoPluginName p))
    "keyTemplateChanged".

Definition ImportStoredKeyRequest_setCustomParameters : CryptoSetter ImportStoredKeyParameters
      QVariantMap :=
  setParameter false same importStored_customParameters
    (λ v p, mkImportStoredKeyParameters (importStored_data p) (importStored_keyTemplate p)
        (importStored_uiParams p) v (importStored_cryptoPluginName p))
    "customParametersChanged".

Definition newImportStoredKeyRequest : CryptoRequest ImportStoredKeyParameters :=
  newRequest (mkImportStoredKeyParameters "" noCKey no_interaction ∅ "")
    [CVKey noCKey].

Definition ImportStoredKeyRequest_class : CryptoClass ImportStoredKeyParameters :=
  import_class
    (λ m p, cm_importStoredKey (connected m) (importStored_data p) (importStored_keyTemplate p)
      (importStored_uiParams p) (importStored_customParameters p) (importStored_cryptoPluginName p))
    [t_key] [CVKey noCKey]
    ["importedKeyReferenceChanged"].

Definition ImportStoredKeyRequest_startRequest := startRequest ImportStoredKeyRequest_class.

(** ** [SeedRandomDataGeneratorRequest] *)

Record SeedRandomDataGeneratorParameters := mkSeedRandomDataGeneratorParameters {
  seed_seedData : bytes;
  seed_entropyEstimate : Z;
  seed_csprngEngineName : string;
  seed_customParameters : QVariantMap;
  seed_cryptoPluginName : string;
}.

Definition SeedRandomDataGeneratorRequest_setCryptoPluginName : CryptoSetter
      SeedRandomDataGeneratorParameters string :=
  setParameter true same seed_cryptoPluginName
    (λ v p, mkSeedRandomDataGeneratorParameters (seed_seedData p) (seed_entropyEstimate p)
        (seed_csprngEngineName p) (seed_customParameters p) v)
    "cryptoPluginNameChanged".

Definition SeedRandomDataGeneratorRequest_setCsprngEngineName : CryptoSetter
      SeedRandomDataGeneratorParameters string :=
  setParameter true same seed_csprngEngineName
    (λ v p, mkSeedRandomDataGeneratorParameters (seed_seedData p) (seed_entropyEstimate p) v
        (seed_customParameters p) (seed_cryptoPluginName p))
    "csprngEngineNameChanged".

(** The estimate is clamped; estimates are integers here. *)
Definition SeedRandomDataGeneratorRequest_setEntropyEstimate (estimate : Z)
  : CryptoRequest SeedRandomDataGeneratorParameters → CryptoRequest
      SeedRandomDataGeneratorParameters :=
  setParameter true same seed_entropyEstimate
    (λ v p, mkSeedRandomDataGeneratorParameters (seed_seedData p) v (seed_csprngEngineName p)
              (seed_customParameters p) (seed_cryptoPluginName p))
    "entropyEstimateChanged" (Z.max 0 (Z.min 1 estimate)).

Definition SeedRandomDataGeneratorRequest_setSeedData : CryptoSetter
      SeedRandomDataGeneratorParameters bytes :=
  setParameter true same seed_seedData
    (λ v p, mkSeedRandomDataGeneratorParameters v (seed_entropyEstimate p) (seed_csprngEngineName
        p) (seed_customParameters p) (seed_cryptoPluginName p))
    "seedDataChanged".

Definition SeedRandomDataGeneratorRequest_setCustomParameters : CryptoSetter
      SeedRandomDataGeneratorParameters QVariantMap :=
  setParameter false same seed_customParameters
    (λ v p, mkSeedRandomDataGeneratorParameters (seed_seedData p) (seed_entropyEstimate p)
        (seed_csprngEngineName p) v (seed_cryptoPluginName p))
    "customParametersChanged".

Definition newSeedRandomDataGeneratorRequest : CryptoRequest SeedRandomDataGeneratorParameters :=
  newRequest (mkSeedRandomDataGeneratorParameters "" 1 "default" ∅ "")
    [].

Definition SeedRandomDataGeneratorRequest_class : CryptoClass SeedRandomDataGeneratorParameters :=
  crypto_class
    (λ m p, cm_seedRandomDataGenerator (connected m) (seed_seedData p) (seed_entropyEstimate p)
      (seed_csprngEngineName p) (seed_customParameters p) (seed_cryptoPluginName p))
    [] []
    [].

Definition SeedRandomDataGeneratorRequest_startRequest := startRequest
      SeedRandomDataGeneratorRequest_class.

(** ** [SignRequest] *)

Record SignParameters := mkSignParameters {
  sign_data : bytes;
  sign_key : CKey;
  sign_padding : Z;
  sign_digestFunction : Z;
  sign_customParameters : QVariantMap;
  sign_cryptoPluginName : string;
}.

Definition SignRequest_setData : CryptoSetter SignParameters bytes :=
  setParameter true same sign_data
    (λ v p, mkSignParameters v (sign_key p) (sign_padding p) (sign_digestFunction p)
        (sign_customParameters p) (sign_cryptoPluginName p))
    "dataChanged".

Definition SignRequest_setKey : CryptoSetter SignParameters CKey :=
  setParameter true key_eqb sign_key
    (λ v p, mkSignParameters (sign_data p) v (sign_padding p) (sign_digestFunction p)
        (sign_customParameters p) (sign_cryptoPluginName p))
    "keyChanged".

Definition SignRequest_setPadding : CryptoSetter SignParameters Z :=
  setParameter true same sign_padding
    (λ v p, mkSignParameters (sign_data p) (sign_key p) v (sign_digestFunction p)
        (sign_customParameters p) (sign_cryptoPluginName p))
    "paddingChanged".

Definition SignRequest_setDigestFunction : CryptoSetter SignParameters Z :=
  setParameter true same sign_digestFunction
    (λ v p, mkSignParameters (sign_data p) (sign_key p) (sign_padding p) v (sign_customParameters
        p) (sign_cryptoPluginName p))
    "digestFunctionChanged".

Definition SignRequest_setCryptoPluginName : CryptoSetter SignParameters string :=
  setParameter true same sign_cryptoPluginName
    (λ v p, mkSignParameters (sign_data p) (sign_key p) (sign_padding p) (sign_digestFunction p)
        (sign_customParameters p) v)
    "cryptoPluginNameChanged".

Definition SignRequest_setCustomParameters : CryptoSetter SignParameters QVariantMap :=
  setParameter false same sign_customParameters
    (λ v p, mkSignParameters (sign_data p) (sign_key p) (sign_padding p) (sign_digestFunction p)
        v (sign_cryptoPluginName p))
    "customParametersChanged".

Definition newSignRequest : CryptoRequest SignParameters :=
  newRequest (mkSignParameters "" noCKey 0 0 ∅ "")
    [CVBytes ""].

Definition SignRequest_class : CryptoClass SignParameters :=
  crypto_class
    (λ m p, cm_sign (connected m) (sign_data p) (sign_key p) (sign_padding p)
      (sign_digestFunction p) (sign_customParameters p) (sign_cryptoPluginName p))
    [t_bytes] [CVBytes ""]
    ["signatureChanged"].

Definition SignRequest_startRequest := startRequest SignRequest_class.

(** ** [StoredKeyIdentifiersRequest] *)

Record StoredKeyIdentifiersParameters := mkStoredKeyIdentifiersParameters {
  identifiers_storagePluginName : string;
  identifiers_collectionName : string;
  identifiers_customParameters : QVariantMap;
}.

Definition StoredKeyIdentifiersRequest_setStoragePluginName : CryptoSetter
      StoredKeyIdentifiersParameters string :=
  setParameter true same identifiers_storagePluginName
    (λ v p, mkStoredKeyIdentifiersParameters v (identifiers_collectionName p)
        (identifiers_customParameters p))
    "storagePluginNameChanged".

Definition StoredKeyIdentifiersRequest_setCollectionName : CryptoSetter
      StoredKeyIdentifiersParameters string :=
  setParameter true same identifiers_collectionName
    (λ v p, mkStoredKeyIdentifiersParameters (identifiers_storagePluginName p) v
        (identifiers_customParameters p))
    "collectionNameChanged".

Definition StoredKeyIdentifiersRequest_setCustomParameters : CryptoSetter
      StoredKeyIdentifiersParameters QVariantMap :=
  setParameter false same identifiers_customParameters
    (λ v p, mkStoredKeyIdentifiersParameters (identifiers_storagePluginName p)
        (identifiers_collectionName p) v)
    "customParametersChanged".

Definition newStoredKeyIdentifiersRequest : CryptoRequest StoredKeyIdentifiersParameters :=
  newRequest (mkStoredKeyIdentifiersParameters "" "" ∅)
    [CVIdentifiers []].

Definition StoredKeyIdentifiersRequest_class : CryptoClass StoredKeyIdentifiersParameters :=
  crypto_class
    (λ m p, cm_storedKeyIdentifiers (connected m) (identifiers_storagePluginName p)
      (identifiers_collectionName p) (identifiers_customParameters p))
    [t_identifiers] [CVIdentifiers []]
    ["identifiersChanged"].

Definition StoredKeyIdentifiersRequest_startRequest := startRequest
      StoredKeyIdentifiersRequest_class.

(** ** [StoredKeyRequest] *)

Record StoredKeyParameters := mkStoredKeyParameters {
  storedKey_identifier : Identifier;
  storedKey_keyComponents : Z;
  storedKey_customParameters : QVariantMap;
}.

Definition StoredKeyRequest_setIdentifier : CryptoSetter StoredKeyParameters Identifier :=
  setParameter true same storedKey_identifier
    (λ v p, mkStoredKeyParameters v (storedKey_keyComponents p) (storedKey_customParameters p))
    "identifierChanged".

Definition StoredKeyRequest_setKeyComponents : CryptoSetter StoredKeyParameters Z :=
  setParameter true same storedKey_keyComponents
    (λ v p, mkStoredKeyParameters (storedKey_identifier p) v (storedKey_customParameters p))
    "keyComponentsChanged".

Definition StoredKeyRequest_setCustomParameters : CryptoSetter StoredKeyParameters QVariantMap :=
  setParameter false same storedKey_customParameters
    (λ v p, mkStoredKeyParameters (storedKey_identifier p) (storedKey_keyComponents p) v)
    "customParametersChanged".

Definition newStoredKeyRequest : CryptoRequest StoredKeyParameters :=
  newRequest (mkStoredKeyParameters (mkIdentifier "" "" "") (Z.lor MetaData PublicKeyData) ∅)
    [CVKey noCKey].

Definition StoredKeyRequest_class : CryptoClass StoredKeyParameters :=
  crypto_class
    (λ m p, cm_storedKey (connected m) (storedKey_identifier p) (storedKey_keyComponents p)
      (storedKey_customParameters p))
    [t_key] [CVKey noCKey]
    ["storedKeyChanged"].

Definition StoredKeyRequest_startRequest := startRequest StoredKeyRequest_class.

(** ** [VerifyRequest] *)

Record VerifyParameters := mkVerifyParameters {
  verify_signature : bytes;
  verify_data : bytes;
  verify_key : CKey;
  verify_padding : Z;
  verify_digestFunction : Z;
  verify_customParameters : QVariantMap;
  verify_cryptoPluginName : string;
}.

(** The setters of the request also forget the status of an earlier verification,
    before they make the request inactive. *)
Definition verify_forget (q : CryptoRequest VerifyParameters) : CryptoRequest VerifyParameters :=
  match cr_values q with
  | [CVVerificationStatus s] =>
      if bool_decide (s = VerificationStatusUnknown) then q
      else emit "verificationStatusChanged"
             (with_values [CVVerificationStatus VerificationStatusUnknown] q)
  | _ => q
  end.

Definition verify_setParameter {T} (guarded : bool) (eqb : T → T → bool)
  (get : VerifyParameters → T) (set : T → VerifyParameters → VerifyParameters) (signal : string)
  (v : T) (q : CryptoRequest VerifyParameters) : CryptoRequest VerifyParameters :=
  if (negb guarded || negb (bool_decide (cr_status q = Active)))
     && negb (eqb (get (cr_parameters q)) v)
  then emit signal (inactivate (verify_forget (with_parameters (set v (cr_parameters q)) q)))
  else q.

Definition VerifyRequest_setSignature : CryptoSetter VerifyParameters bytes :=
  verify_setParameter true same verify_signature
    (λ v p, mkVerifyParameters v (verify_data p) (verify_key p) (verify_padding p)
        (verify_digestFunction p) (verify_customParameters p) (verify_cryptoPluginName p))
    "signatureChanged".

Definition VerifyRequest_setData : CryptoSetter VerifyParameters bytes :=
  verify_setParameter true same verify_data
    (λ v p, mkVerifyParameters (verify_signature p) v (verify_key p) (verify_padding p)
        (verify_digestFunction p) (verify_customParameters p) (verify_cryptoPluginName p))
    "dataChanged".

Definition VerifyRequest_setKey : CryptoSetter VerifyParameters CKey :=
  verify_setParameter true key_eqb verify_key
    (λ v p, mkVerifyParameters (verify_signature p) (verify_data p) v (verify_padding p)
        (verify_digestFunction p) (verify_customParameters p) (verify_cryptoPluginName p))
    "keyChanged".

Definition VerifyRequest_setPadding : CryptoSetter VerifyParameters Z :=
  verify_setParameter true same verify_padding
    (λ v p, mkVerifyParameters (verify_signature p) (verify_data p) (verify_key p) v
        (verify_digestFunction p) (verify_customParameters p) (verify_cryptoPluginName p))
    "paddingChanged".

Definition VerifyRequest_setDigestFunction : CryptoSetter VerifyParameters Z :=
  verify_setParameter true same verify_digestFunction
    (λ v p, mkVerifyParameters (verify_signature p) (verify_data p) (verify_key p)
        (verify_padding p) v (verify_customParameters p) (verify_cryptoPluginName p))
    "digestFunctionChanged".

Definition VerifyRequest_setCryptoPluginName : CryptoSetter VerifyParameters string :=
  verify_setParameter true same verify_cryptoPluginName
    (λ v p, mkVerifyParameters (verify_signature p) (verify_data p) (verify_key p)
        (verify_padding p) (verify_digestFunction p) (verify_customParameters p) v)
    "cryptoPluginNameChanged".

Definition VerifyRequest_setCustomParameters : CryptoSetter VerifyParameters QVariantMap :=
  setParameter false same verify_customParameters
    (λ v p, mkVerifyParameters (verify_signature p) (verify_data p) (verify_key p)
        (verify_padding p) (verify_digestFunction p) v (verify_cryptoPluginName p))
    "customParametersChanged".

Definition newVerifyRequest : CryptoRequest VerifyParameters :=
  newRequest (mkVerifyParameters "" "" noCKey 0 0 ∅ "")
    [CVVerificationStatus VerificationStatusUnknown].

Definition VerifyRequest_class : CryptoClass VerifyParameters :=
  crypto_class
    (λ m p, cm_verify (connected m) (verify_signature p) (verify_data p) (verify_key p)
      (verify_padding p) (verify_digestFunction p) (verify_customParameters p)
      (verify_cryptoPluginName p))
    [t_verificationStatus] [CVVerificationStatus 0]
    ["verificationStatusChanged"].

Definition VerifyRequest_startRequest := startRequest VerifyRequest_class.

(** ** [LockCodeRequest] *)

Record LockCodeParameters := mkLockCodeParameters {
  lockCode_lockCodeRequestType : LockCodeRequestType;
  lockCode_lockCodeTargetType : Z;
  lockCode_lockCodeTarget : string;
  lockCode_interactionParameters : InteractionParameters;
  lockCode_customParameters : QVariantMap;
}.

(** The setter of the type also forgets the lock status. *)
Definition lock_forget (q : CryptoRequest LockCodeParameters) : CryptoRequest LockCodeParameters :=
  match cr_values q with
  | [CVLockStatus UnknownLockStatus] => q
  | _ => emit "lockStatusChanged" (with_values [CVLockStatus UnknownLockStatus] q)
  end.

Definition lock_setRequestType (guarded : bool)
  (eqb : LockCodeRequestType → LockCodeRequestType → bool)
  (get : LockCodeParameters → LockCodeRequestType)
  (set : LockCodeRequestType → LockCodeParameters → LockCodeParameters) (signal : string)
  (v : LockCodeRequestType) (q : CryptoRequest LockCodeParameters)
  : CryptoRequest LockCodeParameters :=
  if (negb guarded || negb (bool_decide (cr_status q = Active)))
     && negb (eqb (get (cr_parameters q)) v)
  then emit signal (lock_forget (inactivate (with_parameters (set v (cr_parameters q)) q)))
  else q.

Definition LockCodeRequest_setLockCodeRequestType : CryptoSetter LockCodeParameters
      LockCodeRequestType :=
  lock_setRequestType true same lockCode_lockCodeRequestType
    (λ v p, mkLockCodeParameters v (lockCode_lockCodeTargetType p) (lockCode_lockCodeTarget p)
        (lockCode_interactionParameters p) (lockCode_customParameters p))
    "lockCodeRequestTypeChanged".

Definition LockCodeRequest_setLockCodeTargetType : CryptoSetter LockCodeParameters Z :=
  setParameter true same lockCode_lockCodeTargetType
    (λ v p, mkLockCodeParameters (lockCode_lockCodeRequestType p) v (lockCode_lockCodeTarget p)
        (lockCode_interactionParameters p) (lockCode_customParameters p))
    "lockCodeTargetTypeChanged".

Definition LockCodeRequest_setInteractionParameters : CryptoSetter LockCodeParameters
      InteractionParameters :=
  setParameter true same lockCode_interactionParameters
    (λ v p, mkLockCodeParameters (lockCode_lockCodeRequestType p) (lockCode_lockCodeTargetType p)
        (lockCode_lockCodeTarget p) v (lockCode_customParameters p))
    "interactionParametersChanged".

Definition LockCodeRequest_setLockCodeTarget : CryptoSetter LockCodeParameters string :=
  setParameter true same lockCode_lockCodeTarget
    (λ v p, mkLockCodeParameters (lockCode_lockCodeRequestType p) (lockCode_lockCodeTargetType p)
        v (lockCode_interactionParameters p) (lockCode_customParameters p))
    "lockCodeTargetChanged".

Definition LockCodeRequest_setCustomParameters : CryptoSetter LockCodeParameters QVariantMap :=
  setParameter false same lockCode_customParameters
    (λ v p, mkLockCodeParameters (lockCode_lockCodeRequestType p) (lockCode_lockCodeTargetType p)
        (lockCode_lockCodeTarget p) (lockCode_interactionParameters p) v)
    "customParametersChanged".

Definition newLockCodeRequest : CryptoRequest LockCodeParameters :=
  newRequest (mkLockCodeParameters ModifyLockCode ExtensionPlugin "" no_interaction ∅)
    [CVLockStatus UnknownLockStatus].

(** [startRequest] for [QueryLockStatus] *)
Definition QueryLockRequest_class : CryptoClass LockCodeParameters :=
  mkRequestClass
    (λ m p, cm_queryLockStatus (connected m) (lockCode_lockCodeTargetType p)
      (lockCode_lockCodeTarget p))
    [t_lockStatus] [CVLockStatus UnknownLockStatus] (λ m, negb (isEmpty m))
    (λ _, [CVLockStatus UnknownLockStatus]) (λ _ _, [CVLockStatus UnknownLockStatus]) (λ _ v, v)
    false ["lockStatusChanged"] [] [].

(** [startRequest] for the other types: the call *)
Definition LockCodeRequest_issue (m : nat) (p : LockCodeParameters) : CryptoIssued :=
  match lockCode_lockCodeRequestType p with
  | ModifyLockCode => cm_modifyLockCode (connected m)
  | ProvideLockCode => cm_provideLockCode (connected m)
  | _ => cm_forgetLockCode (connected m)
  end (lockCode_lockCodeTargetType p) (lockCode_lockCodeTarget p) (lockCode_interactionParameters
      p).

(** It leaves the lock status alone. *)
Definition CodeRequest_class : CryptoClass LockCodeParameters :=
  mkRequestClass LockCodeRequest_issue [] [] (λ m, negb (isEmpty m)) id (λ old _, old)
    (λ old _, old) false [] [] [].

Definition LockCodeRequest_class (p : LockCodeParameters) : CryptoClass LockCodeParameters :=
  if bool_decide (lockCode_lockCodeRequestType p = QueryLockStatus) then QueryLockRequest_class
  else CodeRequest_class.

Definition LockCodeRequest_startRequest (bus : CryptoCall → option CryptoReply)
  (q : CryptoRequest LockCodeParameters) : CryptoRequest LockCodeParameters :=
  startRequest (LockCodeRequest_class (cr_parameters q)) bus q.
End requests.
