(* ===== verification/CipherRequest.v ===== *)
(** [CipherRequest] of lib/Crypto: a cipher session of the daemon as one request
    object, which is started again for each step of the session.  Several steps may
    be under way; their watchers are in a queue.

    [replies] says what the daemon answers to each call, whenever the answer comes
    (reading the reply of a watcher that has not finished waits for it).  A watcher
    whose deletion was asked for emits nothing more. *)
From S2P Require Import Prelude Result PluginApi PluginFunctionWrappers Processor.
From S2P Require Import CryptoManager CryptoKey CryptoProcessor CryptoService ClientRequest.
From S2P Require Import SecretsClient CryptoClient.

(** [CipherRequest::CipherMode] *)
Inductive CipherMode := InitializeCipher | UpdateCipherAuthentication | UpdateCipher | FinalizeCipher.
#[global] Instance CipherMode_eq_dec : EqDecision CipherMode.
Proof. solve_decision. Defined.

Definition C_CryptoPluginInvalidCipherSessionToken : Z := 50.

Record CipherParameters := mkCipherParameters {
  cipher_cipherMode : CipherMode;
  cipher_operation : Z;
  cipher_data : bytes;
  cipher_initializationVector : bytes;
  cipher_key : CKey;
  cipher_blockMode : Z;
  cipher_encryptionPadding : Z;
  cipher_signaturePadding : Z;
  cipher_digestFunction : Z;
  cipher_customParameters : QVariantMap;
  cipher_cryptoPluginName : string;
}.

(** A signal, with the status, the result and the generated data that a slot
    sees; a call, with the watcher of its reply. *)
Inductive CipherEvent :=
  | CipherEmitted (signal : string) (status : ClientStatus) (result : CResult) (data : bytes)
  | CipherCalled (watcher : nat) (c : CryptoCall).

Record CipherRequest := mkCipherRequest {
  ci_parameters : CipherParameters;
  ci_cipherSessionToken : Z;
  ci_generatedData : bytes;
  ci_verificationStatus : Z;
  ci_watcherQueue : list (nat * CipherMode);   (* with the callback that is connected *)
  ci_completedHash : gset nat;
  ci_status : ClientStatus;
  ci_result : CResult;
  ci_manager : option nat;
  ci_created : nat;                            (* the watchers so far *)
  ci_trace : list CipherEvent;
}.

Definition ci_with_parameters (v : CipherParameters) (q : CipherRequest) : CipherRequest :=
  mkCipherRequest v (ci_cipherSessionToken q) (ci_generatedData q) (ci_verificationStatus q) (ci_watcherQueue q) (ci_completedHash q) (ci_status q) (ci_result q) (ci_manager q) (ci_created q) (ci_trace q).

Definition ci_with_token (v : Z) (q : CipherRequest) : CipherRequest :=
  mkCipherRequest (ci_parameters q) v (ci_generatedData q) (ci_verificationStatus q)
    (ci_watcherQueue q) (ci_completedHash q) (ci_status q) (ci_result q) (ci_manager q) (ci_created q) (ci_trace q).

Definition ci_with_data (v : bytes) (q : CipherRequest) : CipherRequest :=
  mkCipherRequest (ci_parameters q) (ci_cipherSessionToken q) v (ci_verificationStatus q)
    (ci_watcherQueue q) (ci_completedHash q) (ci_status q) (ci_result q) (ci_manager q) (ci_created q) (ci_trace q).

Definition ci_with_verification (v : Z) (q : CipherRequest) : CipherRequest :=
  mkCipherRequest (ci_parameters q) (ci_cipherSessionToken q) (ci_generatedData q) v
    (ci_watcherQueue q) (ci_completedHash q) (ci_status q) (ci_result q) (ci_manager q) (ci_created q) (ci_trace q).

Definition ci_with_queue (v : list (nat * CipherMode)) (q : CipherRequest) : CipherRequest :=
  mkCipherRequest (ci_parameters q) (ci_cipherSessionToken q) (ci_generatedData q)
    (ci_verificationStatus q) v (ci_completedHash q) (ci_status q) (ci_result q) (ci_manager q) (ci_created q) (ci_trace q).

Definition ci_with_completed (v : gset nat) (q : CipherRequest) : CipherRequest :=
  mkCipherRequest (ci_parameters q) (ci_cipherSessionToken q) (ci_generatedData q)
    (ci_verificationStatus q) (ci_watcherQueue q) v (ci_status q) (ci_result q) (ci_manager q) (ci_created q) (ci_trace q).

Definition ci_with_status (v : ClientStatus) (q : CipherRequest) : CipherRequest :=
  mkCipherRequest (ci_parameters q) (ci_cipherSessionToken q) (ci_generatedData q)
    (ci_verificationStatus q) (ci_watcherQueue q) (ci_completedHash q) v (ci_result q) (ci_manager q) (ci_created q) (ci_trace q).

Definition ci_with_result (v : CResult) (q : CipherRequest) : CipherRequest :=
  mkCipherRequest (ci_parameters q) (ci_cipherSessionToken q) (ci_generatedData q)
    (ci_verificationStatus q) (ci_watcherQueue q) (ci_completedHash q) (ci_status q) v (ci_manager q) (ci_created q) (ci_trace q).

Definition ci_with_manager (v : option nat) (q : CipherRequest) : CipherRequest :=
  mkCipherRequest (ci_parameters q) (ci_cipherSessionToken q) (ci_generatedData q)
    (ci_verificationStatus q) (ci_watcherQueue q) (ci_completedHash q) (ci_status q) (ci_result q) v (ci_created q) (ci_trace q).

Definition ci_with_created (v : nat) (q : CipherRequest) : CipherRequest :=
  mkCipherRequest (ci_parameters q) (ci_cipherSessionToken q) (ci_generatedData q)
    (ci_verificationStatus q) (ci_watcherQueue q) (ci_completedHash q) (ci_status q) (ci_result q) (ci_manager q) v (ci_trace q).

Definition ci_with_trace (v : list CipherEvent) (q : CipherRequest) : CipherRequest :=
  mkCipherRequest (ci_parameters q) (ci_cipherSessionToken q) (ci_generatedData q)
    (ci_verificationStatus q) (ci_watcherQueue q) (ci_completedHash q) (ci_status q) (ci_result q) (ci_manager q) (ci_created q) v.

Definition ci_emit (signal : string) (q : CipherRequest) : CipherRequest :=
  ci_with_trace (ci_trace q ++ [CipherEmitted signal (ci_status q) (ci_result q) (ci_generatedData q)]) q.

(** The signal, if [needed]. *)
Definition ci_emit_if (needed : bool) (signal : string) (q : CipherRequest) : CipherRequest :=
  if needed then ci_emit signal q else q.

Definition newCipherRequest (operation : Z) : CipherRequest :=
  mkCipherRequest
    (mkCipherParameters InitializeCipher operation "" "" noCKey BlockModeCbc EncryptionPaddingNone
       SignaturePaddingNone DigestSha256 ∅ "")
    0 "" VerificationStatusUnknown [] ∅ Inactive (cresult_of_code Succeeded) None 0 [].

(** * Setters *)

Definition ci_setParameter {T} (guarded : bool) (eqb : T → T → bool) (get : CipherParameters → T)
  (set : T → CipherParameters → CipherParameters) (signal : string) (v : T) (q : CipherRequest)
  : CipherRequest :=
  if (negb guarded || negb (bool_decide (ci_status q = Active)))
     && negb (eqb (get (ci_parameters q)) v)
  then
    let q := ci_with_parameters (set v (ci_parameters q)) q in
    let q :=
      if bool_decide (ci_status q = Finished) then ci_emit "statusChanged" (ci_with_status Inactive q)
      else q in
    ci_emit signal q
  else q.

Definition CipherRequest_setCipherMode : CipherMode → CipherRequest → CipherRequest :=
  ci_setParameter true same cipher_cipherMode
    (λ v p, mkCipherParameters v (cipher_operation p) (cipher_data p)
        (cipher_initializationVector p) (cipher_key p) (cipher_blockMode p)
        (cipher_encryptionPadding p) (cipher_signaturePadding p) (cipher_digestFunction p)
        (cipher_customParameters p) (cipher_cryptoPluginName p))
    "cipherModeChanged".

Definition CipherRequest_setOperation : Z → CipherRequest → CipherRequest :=
  ci_setParameter true same cipher_operation
    (λ v p, mkCipherParameters (cipher_cipherMode p) v (cipher_data p)
        (cipher_initializationVector p) (cipher_key p) (cipher_blockMode p)
        (cipher_encryptionPadding p) (cipher_signaturePadding p) (cipher_digestFunction p)
        (cipher_customParameters p) (cipher_cryptoPluginName p))
    "operationChanged".

Definition CipherRequest_setData : bytes → CipherRequest → CipherRequest :=
  ci_setParameter false same cipher_data
    (λ v p, mkCipherParameters (cipher_cipherMode p) (cipher_operation p) v
        (cipher_initializationVector p) (cipher_key p) (cipher_blockMode p)
        (cipher_encryptionPadding p) (cipher_signaturePadding p) (cipher_digestFunction p)
        (cipher_customParameters p) (cipher_cryptoPluginName p))
    "dataChanged".

Definition CipherRequest_setInitializationVector : bytes → CipherRequest → CipherRequest :=
  ci_setParameter true same cipher_initializationVector
    (λ v p, mkCipherParameters (cipher_cipherMode p) (cipher_operation p) (cipher_data p) v
        (cipher_key p) (cipher_blockMode p) (cipher_encryptionPadding p) (cipher_signaturePadding
        p) (cipher_digestFunction p) (cipher_customParameters p) (cipher_cryptoPluginName p))
    "initializationVectorChanged".

Definition CipherRequest_setKey : CKey → CipherRequest → CipherRequest :=
  ci_setParameter true key_eqb cipher_key
    (λ v p, mkCipherParameters (cipher_cipherMode p) (cipher_operation p) (cipher_data p)
        (cipher_initializationVector p) v (cipher_blockMode p) (cipher_encryptionPadding p)
        (cipher_signaturePadding p) (cipher_digestFunction p) (cipher_customParameters p)
        (cipher_cryptoPluginName p))
    "keyChanged".

Definition CipherRequest_setBlockMode : Z → CipherRequest → CipherRequest :=
  ci_setParameter true same cipher_blockMode
    (λ v p, mkCipherParameters (cipher_cipherMode p) (cipher_operation p) (cipher_data p)
        (cipher_initializationVector p) (cipher_key p) v (cipher_encryptionPadding p)
        (cipher_signaturePadding p) (cipher_digestFunction p) (cipher_customParameters p)
        (cipher_cryptoPluginName p))
    "blockModeChanged".

Definition CipherRequest_setEncryptionPadding : Z → CipherRequest → CipherRequest :=
  ci_setParameter true same cipher_encryptionPadding
    (λ v p, mkCipherParameters (cipher_cipherMode p) (cipher_operation p) (cipher_data p)
        (cipher_initializationVector p) (cipher_key p) (cipher_blockMode p) v
        (cipher_signaturePadding p) (cipher_digestFunction p) (cipher_customParameters p)
        (cipher_cryptoPluginName p))
    "encryptionPaddingChanged".

Definition CipherRequest_setSignaturePadding : Z → CipherRequest → CipherRequest :=
  ci_setParameter true same cipher_signaturePadding
    (λ v p, mkCipherParameters (cipher_cipherMode p) (cipher_operation p) (cipher_data p)
        (cipher_initializationVector p) (cipher_key p) (cipher_blockMode p)
        (cipher_encryptionPadding p) v (cipher_digestFunction p) (cipher_customParameters p)
        (cipher_cryptoPluginName p))
    "signaturePaddingChanged".

Definition CipherRequest_setDigestFunction : Z → CipherRequest → CipherRequest :=
  ci_setParameter true same cipher_digestFunction
    (λ v p, mkCipherParameters (cipher_cipherMode p) (cipher_operation p) (cipher_data p)
        (cipher_initializationVector p) (cipher_key p) (cipher_blockMode p)
        (cipher_encryptionPadding p) (cipher_signaturePadding p) v (cipher_customParameters p)
        (cipher_cryptoPluginName p))
    "digestFunctionChanged".

Definition CipherRequest_setCryptoPluginName : string → CipherRequest → CipherRequest :=
  ci_setParameter true same cipher_cryptoPluginName
    (λ v p, mkCipherParameters (cipher_cipherMode p) (cipher_operation p) (cipher_data p)
        (cipher_initializationVector p) (cipher_key p) (cipher_blockMode p)
        (cipher_encryptionPadding p) (cipher_signaturePadding p) (cipher_digestFunction p)
        (cipher_customParameters p) v)
    "cryptoPluginNameChanged".

Definition CipherRequest_setCustomParameters : QVariantMap → CipherRequest → CipherRequest :=
  ci_setParameter false same cipher_customParameters
    (λ v p, mkCipherParameters (cipher_cipherMode p) (cipher_operation p) (cipher_data p)
        (cipher_initializationVector p) (cipher_key p) (cipher_blockMode p)
        (cipher_encryptionPadding p) (cipher_signaturePadding p) (cipher_digestFunction p) v
        (cipher_cryptoPluginName p))
    "customParametersChanged".

Definition CipherRequest_setManager (manager : option nat) (q : CipherRequest) : CipherRequest :=
  if bool_decide (ci_manager q = manager) then q
  else ci_emit "managerChanged" (ci_with_manager manager q).

(** * Starting a step *)

(** The types after [Result] of the replies, by the callback that reads them. *)
Definition cipher_types (mode : CipherMode) : list (CVariant → bool) :=
  match mode with
  | InitializeCipher => [t_number]
  | UpdateCipherAuthentication => []
  | UpdateCipher => [t_bytes]
  | FinalizeCipher => [t_bytes; t_verificationStatus]
  end.

(** [reply.argumentAt<0>()] and the others: result, token, data, status. *)
Definition cipher_arguments (mode : CipherMode) (reply : CryptoReply) : CResult * (Z * bytes * Z) :=
  match received (cipher_types mode) reply with
  | BusError _ => (cresult_of_code Succeeded, (0, "", 0))
  | Answer r values =>
      (r,
       match mode, values with
       | InitializeCipher, CVNumber token :: _ => (token, "", 0)
       | UpdateCipher, CVBytes data :: _ => (0, data, 0)
       | FinalizeCipher, CVBytes data :: CVVerificationStatus status :: _ => (0, data, status)
       | _, _ => (0, "", 0)
       end)
  end%Z.

Section cipher.
  Context (connected : nat → bool) (replies : nat → CryptoReply).

(** The call of a step. *)
Definition cipher_issue (m : nat) (q : CipherRequest) : CryptoIssued :=
  let p := ci_parameters q in
  match cipher_cipherMode p with
  | InitializeCipher =>
      cm_initializeCipherSession (connected m) (cipher_initializationVector p) (cipher_key p)
        (cipher_operation p) (cipher_blockMode p) (cipher_encryptionPadding p)
        (cipher_signaturePadding p) (cipher_digestFunction p) (cipher_customParameters p)
        (cipher_cryptoPluginName p)
  | UpdateCipherAuthentication =>
      cm_updateCipherSessionAuthentication (connected m) (cipher_data p) (cipher_customParameters p)
        (cipher_cryptoPluginName p) (ci_cipherSessionToken q)
  | UpdateCipher =>
      cm_updateCipherSession (connected m) (cipher_data p) (cipher_customParameters p)
        (cipher_cryptoPluginName p) (ci_cipherSessionToken q)
  | FinalizeCipher =>
      cm_finalizeCipherSession (connected m) (cipher_data p) (cipher_customParameters p)
        (cipher_cryptoPluginName p) (ci_cipherSessionToken q)
  end.

(** A failure that is there at once, with the values of its reply. *)
Definition cipher_fail (mode : CipherMode) (r : CResult) (token : Z) (data : bytes) (status : Z)
  (q : CipherRequest) : CipherRequest :=
  let q := ci_with_result r (ci_with_status Finished q) in
  match mode with
  | InitializeCipher =>
      ci_emit "resultChanged" (ci_emit "statusChanged" (ci_with_token token q))
  | UpdateCipherAuthentication => ci_emit "resultChanged" (ci_emit "statusChanged" q)
  | UpdateCipher =>
      let needsGdEmit := negb (bool_decide (ci_generatedData q = data)) in
      ci_emit_if needsGdEmit "generatedDataChanged"
        (ci_emit "resultChanged" (ci_emit "statusChanged" (ci_with_data data q)))
  | FinalizeCipher =>
      let needsGdEmit := negb (bool_decide (ci_generatedData q = data)) in
      let needsVfEmit := negb (bool_decide (ci_verificationStatus q = status)) in
      ci_emit_if needsVfEmit "verificationStatusChanged"
        (ci_emit_if needsGdEmit "generatedDataChanged"
           (ci_emit "resultChanged"
              (ci_emit "statusChanged" (ci_with_verification status (ci_with_data data q)))))
  end.

(** The three cases after a call; [now]: whether the reply is there when the call
    returns. *)
Definition cipher_follow (now : bool) (q : CipherRequest) (i : CryptoIssued) : CipherRequest :=
  let mode := cipher_cipherMode (ci_parameters q) in
  let watch q :=
    ci_with_created (S (ci_created q)) (ci_with_queue (ci_watcherQueue q ++ [(ci_created q, mode)]) q) in
  let '(reply, q) :=
    match i with
    | Local reply => (Some reply, q)
    | Remote c =>
        (if now then Some (received (cipher_types mode) (replies (ci_created q))) else None,
         ci_with_trace (ci_trace q ++ [CipherCalled (ci_created q) c]) q)
    end in
  match reply with
  | None => watch q
  | Some reply =>
      let '(r, (token, data, status)) := cipher_arguments mode reply in
      match reply with
      | BusError message =>
          if isEmpty message then watch q
          else
            ci_emit "resultChanged"
              (ci_emit "statusChanged"
                 (ci_with_result (cresult_error CryptoManagerNotInitializedError message)
                    (ci_with_status Finished q)))
      | Answer _ _ =>
          if c_ok r then watch q else cipher_fail mode r token data status q
      end
  end.

(** The first lines of [startRequest]. *)
Definition cipher_activate (q : CipherRequest) : CipherRequest :=
  let q :=
    if bool_decide (ci_status q = Active) then q
    else ci_emit "statusChanged" (ci_with_status Active q) in
  if c_is_pending (ci_result q) then q
  else ci_emit "resultChanged" (ci_with_result (cresult_of_code Pending) q).

(** [startRequest]: unlike those of the other requests, also while active. *)
Definition CipherRequest_startRequest (now : bool) (q : CipherRequest) : CipherRequest :=
  match ci_manager q with
  | None => q
  | Some m =>
      let q := cipher_activate q in
      match cipher_cipherMode (ci_parameters q) with
      | InitializeCipher =>
          let q := ci_with_token 0 (ci_with_queue [] q) in
          cipher_follow now q (cipher_issue m q)
      | _ =>
          if bool_decide (ci_cipherSessionToken q = 0%Z) then q     (* a warning is logged *)
          else cipher_follow now q (cipher_issue m q)
      end
  end.

(** * The callbacks *)

(** The status, when a watcher was taken from the queue. *)
Definition cipher_settle (q : CipherRequest) : bool * CipherRequest :=
  match ci_watcherQueue q with
  | [] =>
      if bool_decide (ci_status q = Finished) then (false, q) else (true, ci_with_status Finished q)
  | _ :: _ => (false, q)
  end.

(** The callback of [InitializeCipher] *)
Definition cipher_initialized (r : CResult) (token : Z) (q : CipherRequest) : CipherRequest :=
  let '(needsStEmit, q) := cipher_settle q in
  let q := ci_with_token token (ci_with_result r q) in
  let q :=
    if c_ok r && bool_decide (token = 0%Z) then
      ci_with_result (cresult_error C_CryptoPluginInvalidCipherSessionToken
                        "Plugin returned invalid cipher session token") q
    else q in
  ci_emit "resultChanged" (ci_emit_if needsStEmit "statusChanged" q).

(** The callback of [UpdateCipherAuthentication] *)
Definition cipher_authenticated (r : CResult) (q : CipherRequest) : CipherRequest :=
  let '(needsStEmit, q) := cipher_settle q in
  ci_emit "resultChanged" (ci_emit_if needsStEmit "statusChanged" (ci_with_result r q)).

(** What the callback of [UpdateCipher] does for one watcher *)
Definition cipher_updated (r : CResult) (data : bytes) (q : CipherRequest) : CipherRequest :=
  let '(needsStEmit, q) := cipher_settle q in
  ci_emit "generatedDataChanged"
    (ci_emit "resultChanged"
       (ci_emit_if needsStEmit "statusChanged" (ci_with_data data (ci_with_result r q)))).

(** The callback of [FinalizeCipher] *)
Definition cipher_finalized (r : CResult) (data : bytes) (status : Z) (q : CipherRequest)
  : CipherRequest :=
  let '(needsStEmit, q) := cipher_settle q in
  let q := ci_with_result r q in
  let q := if c_ok r then ci_with_token 0 q else q in
  let q := ci_with_data data q in
  let needsVfEmit := negb (bool_decide (ci_verificationStatus q = status)) in
  ci_emit_if needsVfEmit "verificationStatusChanged"
    (ci_emit "generatedDataChanged"
       (ci_emit "resultChanged"
          (ci_emit_if needsStEmit "statusChanged" (ci_with_verification status q)))).

(** The loop in the callback of [UpdateCipher], over the queue. *)
Fixpoint cipher_drain (queue : list (nat * CipherMode)) (q : CipherRequest) : CipherRequest :=
  match queue with
  | [] => q
  | (w, _) :: rest =>
      if bool_decide (w ∈ ci_completedHash q) then
        let q := ci_with_queue rest (ci_with_completed (ci_completedHash q ∖ {[w]}) q) in
        let '(r, (_, data, _)) := cipher_arguments UpdateCipher (replies w) in
        cipher_drain rest (cipher_updated r data q)
      else q
  end.

(** The signal [finished] of the watcher [w], with its callback.  All but that of
    [UpdateCipher] take the first watcher of the queue for the one that finished;
    taking one from an empty queue is an error of the program ([None]). *)
Definition CipherRequest_finished (w : nat) (mode : CipherMode) (q : CipherRequest)
  : option CipherRequest :=
  match mode with
  | UpdateCipher =>
      Some (cipher_drain (ci_watcherQueue q) (ci_with_completed ({[w]} ∪ ci_completedHash q) q))
  | _ =>
      match ci_watcherQueue q with
      | [] => None
      | (head, _) :: rest =>
          let '(r, (token, data, status)) := cipher_arguments mode (replies head) in
          let q := ci_with_queue rest q in
          Some (match mode with
                | InitializeCipher => cipher_initialized r token q
                | UpdateCipherAuthentication => cipher_authenticated r q
                | UpdateCipher | FinalizeCipher => cipher_finalized r data status q
                end)
      end
  end.
End cipher.

(** * Updates in order *)

Definition called (q : CipherRequest) : list nat :=
  omap (λ e, match e with CipherCalled w _ => Some w | _ => None end) (ci_trace q).

(** The results and data that are announced by [generatedDataChanged]. *)
Definition delivered (q : CipherRequest) : list (CResult * bytes) :=
  omap (λ e, match e with
             | CipherEmitted s _ r d =>
                 if bool_decide (s = "generatedDataChanged") then Some (r, d) else None
             | CipherCalled _ _ => None
             end) (ci_trace q).

(** The reply to an update. *)
Definition update_reply (replies : nat → CryptoReply) (w : nat) : CResult * bytes :=
  let '(r, (_, data, _)) := cipher_arguments UpdateCipher (replies w) in (r, data).

(** An application that feeds data into a session, while watchers finish in any
    order. *)
Inductive update_step connected replies : CipherRequest → CipherRequest → Prop :=
  | update_data v q : update_step connected replies q (CipherRequest_setData v q)
  | update_start q :
      cipher_cipherMode (ci_parameters q) = UpdateCipher →
      update_step connected replies q (CipherRequest_startRequest connected replies false q)
  | update_finish w q q' :
      (w, UpdateCipher) ∈ ci_watcherQueue q → w ∉ ci_completedHash q →
      CipherRequest_finished replies w UpdateCipher q = Some q' →
      update_step connected replies q q'.

Section updates.
  Context (connected : nat → bool) (replies : nat → CryptoReply).

(** A session that is open, of which [ws] are the calls and [ds] what was
    announced so far. *)
Record updating (c0 : list nat) (d0 : list (CResult * bytes)) (ws : list nat)
  (ds : list (CResult * bytes)) (q : CipherRequest) : Prop := mk_updating {
  up_called : called q = c0 ++ ws;
  up_delivered : delivered q = d0 ++ ds;
  up_order : ds ++ (update_reply replies <$> (ci_watcherQueue q).*1) = update_reply replies <$> ws;
  up_mode : Forall (λ w, w.2 = UpdateCipher) (ci_watcherQueue q);
  up_fresh : Forall (λ w, w < ci_created q) (ci_watcherQueue q).*1;
  up_distinct : NoDup (ci_watcherQueue q).*1;
  up_completed : ∀ w, w ∈ ci_completedHash q → w ∈ (ci_watcherQueue q).*1;
  up_token : ci_cipherSessionToken q ≠ 0%Z;
  up_active : ci_watcherQueue q ≠ [] → ci_status q = Active;
}.

(** Between two updates the first watcher has not finished, and the request is
    over if there is none. *)
Definition settled (ws : list nat) (q : CipherRequest) : Prop :=
  (∀ w, head (ci_watcherQueue q).*1 = Some w → w ∉ ci_completedHash q)
  ∧ (ci_watcherQueue q = [] → ws ≠ [] → ci_status q ≠ Active).

Lemma delivered_emit s q :
  s ≠ "generatedDataChanged" → delivered (ci_emit s q) = delivered q.
Proof.
  intros Hs. unfold delivered. simpl. rewrite omap_app. simpl.
  rewrite bool_decide_eq_false_2 by done. by rewrite app_nil_r.
Qed.

Lemma called_emit s q : called (ci_emit s q) = called q.
Proof. unfold called. simpl. rewrite omap_app. simpl. by rewrite app_nil_r. Qed.

Lemma updated_spec r data q q' :
  cipher_updated r data q = q' →
  called q' = called q ∧ delivered q' = delivered q ++ [(r, data)]
  ∧ ci_watcherQueue q' = ci_watcherQueue q ∧ ci_completedHash q' = ci_completedHash q
  ∧ ci_created q' = ci_created q ∧ ci_cipherSessionToken q' = ci_cipherSessionToken q
  ∧ (ci_watcherQueue q = [] → ci_status q' = Finished)
  ∧ (ci_watcherQueue q ≠ [] → ci_status q' = ci_status q).
Proof.
  intros <-. unfold cipher_updated, cipher_settle.
  assert (Hd : ∀ q0, delivered (ci_emit "generatedDataChanged" (ci_emit "resultChanged" q0))
                     = delivered q0 ++ [(ci_result q0, ci_generatedData q0)]).
  { intros q0. unfold delivered. simpl. rewrite !omap_app. simpl. by rewrite app_nil_r. }
  destruct (ci_watcherQueue q) as [|w l] eqn:Hq; [case_bool_decide as Hs|]; simpl;
    rewrite !called_emit, Hd; unfold ci_emit_if; rewrite ?called_emit, ?delivered_emit by done;
    simpl; rewrite ?Hq; done.
Qed.

Lemma drain_spec c0 d0 ws queue : ∀ ds q,
  ci_watcherQueue q = queue → updating c0 d0 ws ds q →
  (queue = [] → ws ≠ [] → ci_status q ≠ Active) →
  ∃ ds', updating c0 d0 ws ds' (cipher_drain replies queue q)
         ∧ settled ws (cipher_drain replies queue q).
Proof.
  induction queue as [|[w mode] rest IH]; intros ds q Hq Hup Hend; simpl.
  { exists ds. split; [done|]. split; rewrite Hq; [done|by auto]. }
  case_bool_decide as Hw.
  2:{ exists ds. split; [done|]. split; rewrite Hq; [|done]. simpl. by intros ? [= <-]. }
  destruct (cipher_arguments UpdateCipher (replies w)) as [r [[token data] status]] eqn:Harg.
  assert (Hr : update_reply replies w = (r, data)) by (unfold update_reply; by rewrite Harg).
  set (q1 := ci_with_queue rest (ci_with_completed (ci_completedHash q ∖ {[w]}) q)).
  destruct (updated_spec r data q1 _ eq_refl) as (Hc & Hd & Hqu & Hco & Hcr & Ht & Hfin & Hact).
  destruct Hup as [Uc Ud Uo Um Uf Un Uh Ut Ua]. rewrite Hq in Uo, Um, Uf, Un, Uh, Ua. simpl in *.
  apply Forall_cons in Um as [_ Um]. apply Forall_cons in Uf as [_ Uf].
  apply NoDup_cons in Un as [Hnw Un].
  apply (IH (ds ++ [(r, data)])); [by rewrite Hqu|split|].
  - by rewrite Hc.
  - rewrite Hd. change (delivered q1) with (delivered q). rewrite Ud. by rewrite app_assoc.
  - rewrite Hqu. rewrite <- Uo, <- app_assoc. simpl. by rewrite Hr.
  - by rewrite Hqu.
  - rewrite Hqu, Hcr. done.
  - by rewrite Hqu.
  - rewrite Hqu, Hco. simpl. intros v [Hv Hne]%elem_of_difference.
    apply Uh, elem_of_cons in Hv as [->|Hv]; [|done]. destruct Hne. by apply elem_of_singleton.
  - by rewrite Ht.
  - rewrite Hqu. intros Hne. rewrite Hact by done. simpl. by apply Ua.
  - intros -> _. by rewrite Hfin.
Qed.

(** Only what is announced and called matters. *)
Lemma updating_same c0 d0 ws ds q q' :
  called q' = called q → delivered q' = delivered q → ci_watcherQueue q' = ci_watcherQueue q →
  ci_created q' = ci_created q → ci_completedHash q' = ci_completedHash q →
  ci_cipherSessionToken q' = ci_cipherSessionToken q →
  (ci_watcherQueue q ≠ [] → ci_status q' = ci_status q) →
  updating c0 d0 ws ds q → updating c0 d0 ws ds q'.
Proof.
  intros Hc Hd Hq Hcr Hco Ht Hs [Uc Ud Uo Um Uf Un Uh Ut Ua].
  split; rewrite ?Hc, ?Hd, ?Hq, ?Hcr, ?Hco, ?Ht; try done. intros Hne. rewrite Hs by done. by apply Ua.
Qed.

Lemma setData_spec c0 d0 ws ds v q :
  updating c0 d0 ws ds q → settled ws q →
  updating c0 d0 ws ds (CipherRequest_setData v q) ∧ settled ws (CipherRequest_setData v q)
  ∧ ci_manager (CipherRequest_setData v q) = ci_manager q.
Proof.
  intros Hup Hset. unfold CipherRequest_setData, ci_setParameter. simpl.
  case_match; [|done]. case_bool_decide as Hs.
  - split_and!; [|split; [apply Hset|done]|done].
    apply (updating_same _ _ _ _ q); try done.
    + by rewrite !called_emit.
    + by rewrite !delivered_emit.
    + intros Hne. destruct Hup. simpl in *. rewrite up_active0 in Hs by done. done.
  - split_and!; [|split; apply Hset|done].
    apply (updating_same _ _ _ _ q); try done; [by rewrite !called_emit|by rewrite !delivered_emit].
Qed.

Lemma activate_spec q :
  called (cipher_activate q) = called q ∧ delivered (cipher_activate q) = delivered q
  ∧ ci_watcherQueue (cipher_activate q) = ci_watcherQueue q
  ∧ ci_created (cipher_activate q) = ci_created q
  ∧ ci_completedHash (cipher_activate q) = ci_completedHash q
  ∧ ci_cipherSessionToken (cipher_activate q) = ci_cipherSessionToken q
  ∧ ci_parameters (cipher_activate q) = ci_parameters q
  ∧ ci_manager (cipher_activate q) = ci_manager q ∧ ci_status (cipher_activate q) = Active.
Proof.
  unfold cipher_activate.
  case_bool_decide; case_match; split_and!; rewrite ?called_emit, ?delivered_emit by done; try done.
  - exact (called_emit "statusChanged" (ci_with_status Active q)).
  - by apply (delivered_emit "statusChanged" (ci_with_status Active q)).
Qed.

Lemma start_spec c0 d0 ws ds m q :
  ci_manager q = Some m → connected m = true →
  cipher_cipherMode (ci_parameters q) = UpdateCipher →
  updating c0 d0 ws ds q → settled ws q →
  let q' := CipherRequest_startRequest connected replies false q in
  updating c0 d0 (ws ++ [ci_created q]) ds q' ∧ settled (ws ++ [ci_created q]) q'
  ∧ ci_manager q' = ci_manager q.
Proof.
  intros Hm Hcon Hmode Hup Hset. unfold CipherRequest_startRequest. rewrite Hm. simpl.
  destruct (activate_spec q) as (Hc & Hd & Hq & Hcr & Hco & Ht & Hp & Hm' & Hs).
  destruct Hup as [Uc Ud Uo Um Uf Un Uh Ut Ua].
  rewrite Hp, Hmode. rewrite bool_decide_eq_false_2 by congruence.
  unfold cipher_issue. rewrite Hp, Hmode. unfold cm_updateCipherSession, cm_call. rewrite Hcon.
  unfold cipher_follow. rewrite Hp, Hmode. simpl.
  assert (Hfresh : ci_created q ∉ (ci_watcherQueue q).*1).
  { intros Hin. rewrite Forall_forall in Uf. apply Uf in Hin. lia. }
  split_and!; [split; simpl; rewrite ?Hq, ?Hcr, ?Hco, ?Ht| |by rewrite Hm'].
  - unfold called. simpl. rewrite omap_app. simpl. fold (called (cipher_activate q)).
    rewrite Hc, Uc. by rewrite <- app_assoc.
  - unfold delivered. simpl. rewrite omap_app. simpl. rewrite app_nil_r.
    fold (delivered (cipher_activate q)). by rewrite Hd.
  - rewrite fmap_app, !fmap_app. simpl. by rewrite app_assoc, Uo.
  - apply Forall_app. split; [done|]. by constructor.
  - rewrite fmap_app. apply Forall_app. split; [|constructor; [simpl; lia|constructor]].
    eapply Forall_impl; [exact Uf|]. simpl. intros. lia.
  - rewrite fmap_app. apply NoDup_app. split_and!; [done| |apply NoDup_singleton].
    intros x Hx Hx'. apply list_elem_of_singleton in Hx'. simpl in Hx'. by subst x.
  - intros w Hw. rewrite fmap_app. apply elem_of_app. left. by apply Uh.
  - done.
  - done.
  - split; simpl; rewrite Hq, Hcr.
    + rewrite Hco. destruct Hset as [Hh _]. destruct (ci_watcherQueue q) as [|w l] eqn:Hqq; simpl in *.
      * intros w [= <-] Hin. by apply Uh, elem_of_nil in Hin.
      * done.
    + intros Hnil. by apply app_eq_nil in Hnil as [_ ?].
Qed.

Lemma finish_spec c0 d0 ws ds w q q' :
  (w, UpdateCipher) ∈ ci_watcherQueue q → updating c0 d0 ws ds q → settled ws q →
  CipherRequest_finished replies w UpdateCipher q = Some q' →
  (∃ ds', updating c0 d0 ws ds' q') ∧ settled ws q'.
Proof.
  intros Hin Hup Hset [= <-].
  destruct (drain_spec c0 d0 ws (ci_watcherQueue q) ds
    (ci_with_completed ({[w]} ∪ ci_completedHash q) q) eq_refl) as (ds' & H1 & H2).
  - destruct Hup as [Uc Ud Uo Um Uf Un Uh Ut Ua]. split; try done.
    simpl. intros v [->%elem_of_singleton|Hv]%elem_of_union; [|by apply Uh].
    apply list_elem_of_fmap. by exists (w, UpdateCipher).
  - by apply Hset.
  - split; [by exists ds'|done].
Qed.
End updates.

(** * All steps *)

Inductive cipher_setter : (CipherRequest → CipherRequest) → Prop :=
  | setter_cipherMode v : cipher_setter (CipherRequest_setCipherMode v)
  | setter_operation v : cipher_setter (CipherRequest_setOperation v)
  | setter_data v : cipher_setter (CipherRequest_setData v)
  | setter_initializationVector v : cipher_setter (CipherRequest_setInitializationVector v)
  | setter_key v : cipher_setter (CipherRequest_setKey v)
  | setter_blockMode v : cipher_setter (CipherRequest_setBlockMode v)
  | setter_encryptionPadding v : cipher_setter (CipherRequest_setEncryptionPadding v)
  | setter_signaturePadding v : cipher_setter (CipherRequest_setSignaturePadding v)
  | setter_digestFunction v : cipher_setter (CipherRequest_setDigestFunction v)
  | setter_customParameters v : cipher_setter (CipherRequest_setCustomParameters v)
  | setter_cryptoPluginName v : cipher_setter (CipherRequest_setCryptoPluginName v)
  | setter_manager v : cipher_setter (CipherRequest_setManager v).

Inductive cipher_step connected replies : CipherRequest → CipherRequest → Prop :=
  | cipher_set f q : cipher_setter f → cipher_step connected replies q (f q)
  | cipher_start now q :
      cipher_step connected replies q (CipherRequest_startRequest connected replies now q)
  | cipher_finish w mode q q' :
      (w, mode) ∈ ci_watcherQueue q → CipherRequest_finished replies w mode q = Some q' →
      cipher_step connected replies q q'.

(** A request that waits for nothing. *)
Record abandoned (q : CipherRequest) : Prop := mk_abandoned {
  ab_status : ci_status q = Active;
  ab_queue : ci_watcherQueue q = [];
  ab_token : ci_cipherSessionToken q = 0%Z;
  ab_mode : cipher_cipherMode (ci_parameters q) ≠ InitializeCipher;
}.

Lemma setter_abandoned f q :
  cipher_setter f → abandoned q → abandoned (f q) ∧ called (f q) = called q.
Proof.
  intros Hf Hq. assert (Ha := ab_status _ Hq).
  destruct Hf; unfold CipherRequest_setManager, CipherRequest_setCipherMode,
    CipherRequest_setOperation, CipherRequest_setData, CipherRequest_setInitializationVector,
    CipherRequest_setKey, CipherRequest_setBlockMode, CipherRequest_setEncryptionPadding,
    CipherRequest_setSignaturePadding, CipherRequest_setDigestFunction,
    CipherRequest_setCustomParameters, CipherRequest_setCryptoPluginName, ci_setParameter;
    simpl; rewrite ?Ha; simpl; try done; case_match; try done;
    (split; [|by rewrite called_emit]); destruct Hq; by split.
Qed.

Lemma step_abandoned connected replies q q' :
  cipher_step connected replies q q' → abandoned q → abandoned q' ∧ called q' = called q.
Proof.
  intros [f q0 Hf|now q0|w mode q0 q1 Hw _] Hq.
  - by apply setter_abandoned.
  - unfold CipherRequest_startRequest. destruct (ci_manager q0) as [m|]; [|done].
    destruct (activate_spec q0) as (Hc & _ & Hqu & _ & _ & Ht & Hp & _ & Hs).
    destruct Hq as [Qs Qq Qt Qm]. rewrite Hp.
    rewrite bool_decide_eq_true_2 by congruence.
    assert (Hab : abandoned (cipher_activate q0)) by (split; congruence).
    by destruct (cipher_cipherMode (ci_parameters q0)).
  - rewrite (ab_queue _ Hq) in Hw. by apply elem_of_nil in Hw.
Qed.
