(* ===== verification/Marshalling.v ===== *)
(** The values that cross the bus: the operators for [QDBusArgument] of
    lib/Secrets/serialization.cpp and lib/Crypto/serialization.cpp.

    A [QDBusArgument] is a list of tokens.  Writing appends tokens; reading takes
    them away, and is undefined ([None]) if the next token is not of the type that
    is read: the library does not look at the type.  A container is left by
    skipping what has not been read of it.  One kind of token ends all kinds of
    containers, since [endStructure], [endMap] and [endMapEntry] are one operation.

    Enumerations are numbers here, as they are on the bus.  The classes
    [InteractionParameters] and [KeyDerivationParameters] are taken with the fields
    that the rest of the development leaves out. *)
From S2P Require Import Prelude Result PluginApi PluginFunctionWrappers Processor.
From S2P Require Import CryptoManager CryptoKey KeySerialization.

Inductive Token :=
  | TInt (n : Z) | TUInt (n : Z) | TLongLong (n : Z) | TULongLong (n : Z) | TDouble (n : Z)
  | TString (s : string) | TBytes (b : bytes)
  | TStringMap (m : gmap string string)                                  (* a{ss} *)
  | TVariantMap (m : QVariantMap)                                        (* a{sv} *)
  | TVariantFields (numbers : gmap string Z) (arrays : gmap string bytes)  (* a{sv} *)
  | TBeginStructure | TBeginMap (signature : string) | TBeginMapEntry | TEnd.
Abbreviation QDBusArgument := (list Token).

(** The signature of a message; [muted]: the containers that are open within a
    map, whose signature is known at its beginning. *)
Fixpoint signature_of (muted : nat) (a : QDBusArgument) : string :=
  match a with
  | [] => ""
  | t :: a =>
      match muted with
      | O =>
          match t with
          | TInt _ => "i" +:+ signature_of 0 a
          | TUInt _ => "u" +:+ signature_of 0 a
          | TLongLong _ => "x" +:+ signature_of 0 a
          | TULongLong _ => "t" +:+ signature_of 0 a
          | TDouble _ => "d" +:+ signature_of 0 a
          | TString _ => "s" +:+ signature_of 0 a
          | TBytes _ => "ay" +:+ signature_of 0 a
          | TStringMap _ => "a{ss}" +:+ signature_of 0 a
          | TVariantMap _ | TVariantFields _ _ => "a{sv}" +:+ signature_of 0 a
          | TBeginStructure | TBeginMapEntry => "(" +:+ signature_of 0 a
          | TBeginMap s => "a{" +:+ s +:+ "}" +:+ signature_of 1 a
          | TEnd => ")" +:+ signature_of 0 a
          end
      | S n =>
          match t with
          | TBeginStructure | TBeginMap _ | TBeginMapEntry => signature_of (S (S n)) a
          | TEnd => signature_of n a
          | _ => signature_of (S n) a
          end
      end
  end.

(** * Reading *)

Definition Reader (A : Type) : Type := QDBusArgument → option (A * QDBusArgument).

Definition done_reading {A} (x : A) : Reader A := λ a, Some (x, a).
Definition read_bind {A B} (m : Reader A) (k : A → Reader B) : Reader B := λ a,
  match m a with Some (x, a) => k x a | None => None end.
Notation "'read*' x ':=' m 'in' k" := (read_bind m (λ x, k))
  (at level 10, x name, m at level 100, k at level 200) : sfs_scope.

Definition read_int : Reader Z := λ a, match a with TInt n :: a => Some (n, a) | _ => None end.
Definition read_uint : Reader Z := λ a, match a with TUInt n :: a => Some (n, a) | _ => None end.
Definition read_longlong : Reader Z := λ a,
  match a with TLongLong n :: a => Some (n, a) | _ => None end.
Definition read_ulonglong : Reader Z := λ a,
  match a with TULongLong n :: a => Some (n, a) | _ => None end.
Definition read_double : Reader Z := λ a, match a with TDouble n :: a => Some (n, a) | _ => None end.
Definition read_string : Reader string := λ a,
  match a with TString s :: a => Some (s, a) | _ => None end.
Definition read_bytes : Reader bytes := λ a, match a with TBytes b :: a => Some (b, a) | _ => None end.
Definition read_stringMap : Reader (gmap string string) := λ a,
  match a with TStringMap m :: a => Some (m, a) | _ => None end.
Definition read_variantMap : Reader QVariantMap := λ a,
  match a with TVariantMap m :: a => Some (m, a) | _ => None end.
Definition read_variantFields : Reader (gmap string Z * gmap string bytes) := λ a,
  match a with TVariantFields n b :: a => Some ((n, b), a) | _ => None end.

(** [endStructure], [endMap], [endMapEntry]: on to the end of the container. *)
Fixpoint leave (depth : nat) (a : QDBusArgument) : option QDBusArgument :=
  match a with
  | [] => None
  | TEnd :: a => match depth with O => Some a | S d => leave d a end
  | (TBeginStructure | TBeginMap _ | TBeginMapEntry) :: a => leave (S depth) a
  | _ :: a => leave depth a
  end.

Definition read_end : Reader unit := λ a,
  match leave 0 a with Some a => Some (tt, a) | None => None end.

Definition read_structure {A} (m : Reader A) : Reader A := λ a,
  match a with
  | TBeginStructure :: a => (read* x := m in read* u := read_end in done_reading x) a
  | _ => None
  end.

Definition write_structure (body : QDBusArgument) : QDBusArgument :=
  TBeginStructure :: body ++ [TEnd].

(** * Enumerations *)

(** [argument << static_cast<int>(v)], and back, within a structure. *)
Definition write_enumeration (v : Z) : QDBusArgument := write_structure [TInt v].
Definition read_enumeration : Reader Z := read_structure read_int.

(** Of lib/Secrets and of lib/Crypto; names that are in both have a prefix in the
    second. *)
Definition write_UserInteractionMode : Z → QDBusArgument := write_enumeration.
Definition read_UserInteractionMode : Reader Z := read_enumeration.
Definition write_AccessControlMode : Z → QDBusArgument := write_enumeration.
Definition read_AccessControlMode : Reader Z := read_enumeration.
Definition write_DeviceLockUnlockSemantic : Z → QDBusArgument := write_enumeration.
Definition read_DeviceLockUnlockSemantic : Reader Z := read_enumeration.
Definition write_CustomLockUnlockSemantic : Z → QDBusArgument := write_enumeration.
Definition read_CustomLockUnlockSemantic : Reader Z := read_enumeration.
Definition write_FilterOperator : Z → QDBusArgument := write_enumeration.
Definition read_FilterOperator : Reader Z := read_enumeration.
Definition write_InputType : Z → QDBusArgument := write_enumeration.
Definition read_InputType : Reader Z := read_enumeration.
Definition write_EchoMode : Z → QDBusArgument := write_enumeration.
Definition read_EchoMode : Reader Z := read_enumeration.
Definition write_InteractionOperation : Z → QDBusArgument := write_enumeration.
Definition read_InteractionOperation : Reader Z := read_enumeration.
Definition write_LockCodeTargetType : Z → QDBusArgument := write_enumeration.
Definition read_LockCodeTargetType : Reader Z := read_enumeration.
Definition write_LockStatus : Z → QDBusArgument := write_enumeration.
Definition read_LockStatus : Reader Z := read_enumeration.
Definition write_Health : Z → QDBusArgument := write_enumeration.
Definition read_Health : Reader Z := read_enumeration.
Definition write_KeyOrigin : Z → QDBusArgument := write_enumeration.
Definition read_KeyOrigin : Reader Z := read_enumeration.
Definition write_Algorithm : Z → QDBusArgument := write_enumeration.
Definition read_Algorithm : Reader Z := read_enumeration.
Definition write_BlockMode : Z → QDBusArgument := write_enumeration.
Definition read_BlockMode : Reader Z := read_enumeration.
Definition write_EncryptionPadding : Z → QDBusArgument := write_enumeration.
Definition read_EncryptionPadding : Reader Z := read_enumeration.
Definition write_SignaturePadding : Z → QDBusArgument := write_enumeration.
Definition read_SignaturePadding : Reader Z := read_enumeration.
Definition write_DigestFunction : Z → QDBusArgument := write_enumeration.
Definition read_DigestFunction : Reader Z := read_enumeration.
Definition write_MessageAuthenticationCode : Z → QDBusArgument := write_enumeration.
Definition read_MessageAuthenticationCode : Reader Z := read_enumeration.
Definition write_KeyDerivationFunction : Z → QDBusArgument := write_enumeration.
Definition read_KeyDerivationFunction : Reader Z := read_enumeration.
Definition write_CryptoOperation : Z → QDBusArgument := write_enumeration.
Definition read_CryptoOperation : Reader Z := read_enumeration.
Definition write_CryptoOperations : Z → QDBusArgument := write_enumeration.
Definition read_CryptoOperations : Reader Z := read_enumeration.
Definition write_VerificationStatus : Z → QDBusArgument := write_enumeration.
Definition read_VerificationStatus : Reader Z := read_enumeration.
Definition write_VerificationStatusType : Z → QDBusArgument := write_enumeration.
Definition read_VerificationStatusType : Reader Z := read_enumeration.
Definition write_KeyComponent : Z → QDBusArgument := write_enumeration.
Definition read_KeyComponent : Reader Z := read_enumeration.
Definition write_KeyComponents : Z → QDBusArgument := write_enumeration.
Definition read_KeyComponents : Reader Z := read_enumeration.
Definition write_CipherMode : Z → QDBusArgument := write_enumeration.
Definition read_CipherMode : Reader Z := read_enumeration.
Definition write_CryptoInputType : Z → QDBusArgument := write_enumeration.
Definition read_CryptoInputType : Reader Z := read_enumeration.
Definition write_CryptoEchoMode : Z → QDBusArgument := write_enumeration.
Definition read_CryptoEchoMode : Reader Z := read_enumeration.
Definition write_CryptoInteractionOperation : Z → QDBusArgument := write_enumeration.
Definition read_CryptoInteractionOperation : Reader Z := read_enumeration.
Definition write_KeyPairType : Z → QDBusArgument := write_enumeration.
Definition read_KeyPairType : Reader Z := read_enumeration.
Definition write_CryptoLockCodeTargetType : Z → QDBusArgument := write_enumeration.
Definition read_CryptoLockCodeTargetType : Reader Z := read_enumeration.
Definition write_CryptoLockStatus : Z → QDBusArgument := write_enumeration.
Definition read_CryptoLockStatus : Reader Z := read_enumeration.

Inductive Enumeration :=
  | E_UserInteractionMode | E_AccessControlMode |
  E_DeviceLockUnlockSemantic | E_CustomLockUnlockSemantic | E_FilterOperator | E_InputType |
  E_EchoMode | E_InteractionOperation | E_LockCodeTargetType | E_LockStatus | E_Health |
  E_KeyOrigin | E_Algorithm | E_BlockMode | E_EncryptionPadding | E_SignaturePadding |
  E_DigestFunction | E_MessageAuthenticationCode | E_KeyDerivationFunction | E_CryptoOperation |
  E_CryptoOperations | E_VerificationStatus | E_VerificationStatusType | E_KeyComponent |
  E_KeyComponents | E_CipherMode | E_CryptoInputType | E_CryptoEchoMode |
  E_CryptoInteractionOperation | E_KeyPairType | E_CryptoLockCodeTargetType | E_CryptoLockStatus.

Definition write_enum (e : Enumeration) : Z → QDBusArgument :=
  match e with
  | E_UserInteractionMode => write_UserInteractionMode
  | E_AccessControlMode => write_AccessControlMode
  | E_DeviceLockUnlockSemantic => write_DeviceLockUnlockSemantic
  | E_CustomLockUnlockSemantic => write_CustomLockUnlockSemantic
  | E_FilterOperator => write_FilterOperator
  | E_InputType => write_InputType
  | E_EchoMode => write_EchoMode
  | E_InteractionOperation => write_InteractionOperation
  | E_LockCodeTargetType => write_LockCodeTargetType
  | E_LockStatus => write_LockStatus
  | E_Health => write_Health
  | E_KeyOrigin => write_KeyOrigin
  | E_Algorithm => write_Algorithm
  | E_BlockMode => write_BlockMode
  | E_EncryptionPadding => write_EncryptionPadding
  | E_SignaturePadding => write_SignaturePadding
  | E_DigestFunction => write_DigestFunction
  | E_MessageAuthenticationCode => write_MessageAuthenticationCode
  | E_KeyDerivationFunction => write_KeyDerivationFunction
  | E_CryptoOperation => write_CryptoOperation
  | E_CryptoOperations => write_CryptoOperations
  | E_VerificationStatus => write_VerificationStatus
  | E_VerificationStatusType => write_VerificationStatusType
  | E_KeyComponent => write_KeyComponent
  | E_KeyComponents => write_KeyComponents
  | E_CipherMode => write_CipherMode
  | E_CryptoInputType => write_CryptoInputType
  | E_CryptoEchoMode => write_CryptoEchoMode
  | E_CryptoInteractionOperation => write_CryptoInteractionOperation
  | E_KeyPairType => write_KeyPairType
  | E_CryptoLockCodeTargetType => write_CryptoLockCodeTargetType
  | E_CryptoLockStatus => write_CryptoLockStatus
  end.

Definition read_enum (e : Enumeration) : Reader Z :=
  match e with
  | E_UserInteractionMode => read_UserInteractionMode
  | E_AccessControlMode => read_AccessControlMode
  | E_DeviceLockUnlockSemantic => read_DeviceLockUnlockSemantic
  | E_CustomLockUnlockSemantic => read_CustomLockUnlockSemantic
  | E_FilterOperator => read_FilterOperator
  | E_InputType => read_InputType
  | E_EchoMode => read_EchoMode
  | E_InteractionOperation => read_InteractionOperation
  | E_LockCodeTargetType => read_LockCodeTargetType
  | E_LockStatus => read_LockStatus
  | E_Health => read_Health
  | E_KeyOrigin => read_KeyOrigin
  | E_Algorithm => read_Algorithm
  | E_BlockMode => read_BlockMode
  | E_EncryptionPadding => read_EncryptionPadding
  | E_SignaturePadding => read_SignaturePadding
  | E_DigestFunction => read_DigestFunction
  | E_MessageAuthenticationCode => read_MessageAuthenticationCode
  | E_KeyDerivationFunction => read_KeyDerivationFunction
  | E_CryptoOperation => read_CryptoOperation
  | E_CryptoOperations => read_CryptoOperations
  | E_VerificationStatus => read_VerificationStatus
  | E_VerificationStatusType => read_VerificationStatusType
  | E_KeyComponent => read_KeyComponent
  | E_KeyComponents => read_KeyComponents
  | E_CipherMode => read_CipherMode
  | E_CryptoInputType => read_CryptoInputType
  | E_CryptoEchoMode => read_CryptoEchoMode
  | E_CryptoInteractionOperation => read_CryptoInteractionOperation
  | E_KeyPairType => read_KeyPairType
  | E_CryptoLockCodeTargetType => read_CryptoLockCodeTargetType
  | E_CryptoLockStatus => read_CryptoLockStatus
  end.

(** * Classes of lib/Secrets *)

(** A number that is no enumerator has no counterpart here. *)
Definition ResultCode_of (n : Z) : option ResultCode :=
  match n with 0%Z => Some Succeeded | 1%Z => Some Pending | 2%Z => Some Failed | _ => None end.

Definition read_ResultCode : Reader ResultCode := λ a,
  match read_int a with
  | Some (n, a) => match ResultCode_of n with Some c => Some (c, a) | None => None end
  | None => None
  end.

Definition write_Result (r : Result) : QDBusArgument :=
  write_structure [TInt (ResultCode_value (code r)); TInt (errorCode r); TString (errorMessage r)].
Definition read_Result : Reader Result :=
  read_structure
    (read* code := read_ResultCode in
     read* errorCode := read_int in
     read* message := read_string in
     done_reading (mkResult code errorCode message)).

Definition write_Identifier (i : Identifier) : QDBusArgument :=
  write_structure
    [TString (ident_name i); TString (ident_collectionName i); TString (ident_storagePluginName i)].
Definition read_Identifier : Reader Identifier :=
  read_structure
    (read* name := read_string in
     read* collectionName := read_string in
     read* storagePluginName := read_string in
     done_reading (mkIdentifier name collectionName storagePluginName)).

Definition write_Secret (s : Secret) : QDBusArgument :=
  write_structure
    (write_Identifier (secret_identifier s)
     ++ [TBytes (secret_data s); TStringMap (secret_filterData s)]).
Definition read_Secret : Reader Secret :=
  read_structure
    (read* identifier := read_Identifier in
     read* data := read_bytes in
     read* metadata := read_stringMap in
     done_reading (mkSecret identifier data metadata)).

Record PluginInfo := mkPluginInfo {
  info_displayName : string;
  info_name : string;
  info_version : Z;
  info_statusFlags : Z;
}.

(** The name is written twice, and read as the version. *)
Definition write_PluginInfo (i : PluginInfo) : QDBusArgument :=
  write_structure
    [TString (info_displayName i); TString (info_name i); TString (info_name i);
     TInt (info_statusFlags i)].
Definition read_PluginInfo : Reader PluginInfo :=
  read_structure
    (read* displayName := read_string in
     read* name := read_string in
     read* version := read_int in
     read* iStatusFlags := read_int in
     done_reading (mkPluginInfo displayName name version iStatusFlags)).

(** [InteractionParameters::PromptText], written in some order of its keys. *)
Fixpoint write_prompts (l : list (Z * string)) : QDBusArgument :=
  match l with
  | [] => []
  | (key, value) :: l => [TBeginMapEntry; TInt key; TString value; TEnd] ++ write_prompts l
  end.
Definition write_PromptText (p : gmap Z string) : QDBusArgument :=
  TBeginMap "is" :: write_prompts (map_to_list p) ++ [TEnd].

(** [while (!argument.atEnd())]; [fuel]: the number of tokens. *)
Fixpoint read_prompts (fuel : nat) (promptText : gmap Z string) : Reader (gmap Z string) := λ a,
  match fuel with
  | O => None
  | S fuel =>
      match a with
      | TEnd :: _ => Some (promptText, a)
      | TBeginMapEntry :: a =>
          (read* key := read_int in
           read* value := read_string in
           read* u := read_end in
           read_prompts fuel (<[key := value]> promptText)) a
      | _ => None
      end
  end.
Definition read_PromptText : Reader (gmap Z string) := λ a,
  match a with
  | TBeginMap _ :: a =>
      (read* promptText := read_prompts (length a) ∅ in
       read* u := read_end in done_reading promptText) a
  | _ => None
  end.

(** [static_cast<int>(operation)], and back *)
Definition Operation_value (o : Operation) : Z :=
  match o with
  | UnknownOperation => 0 | RequestUserData => 1 | UnlockDatabase => 2 | ModifyLockDatabase => 8
  | UnlockPlugin => 16 | ModifyLockPlugin => 64 | CreateCollection => 128 | UnlockCollection => 256
  | DeleteCollection => 2048 | ReadSecret => 4096 | StoreSecret => 8192 | DeleteSecret => 131072
  | StoreKey => 33554432 | OtherOperation n => n
  end%Z.
Definition Operation_of (n : Z) : Operation :=
  match n with
  | 0 => UnknownOperation | 1 => RequestUserData | 2 => UnlockDatabase | 8 => ModifyLockDatabase
  | 16 => UnlockPlugin | 64 => ModifyLockPlugin | 128 => CreateCollection | 256 => UnlockCollection
  | 2048 => DeleteCollection | 4096 => ReadSecret | 8192 => StoreSecret | 131072 => DeleteSecret
  | 33554432 => StoreKey | n => OtherOperation n
  end%Z.

(** [InteractionParameters] with all of its fields. *)
Record FullInteraction := mkFullInteraction {
  full_parameters : InteractionParameters;
  full_promptText : gmap Z string;
  full_echoMode : Z;
}.

Definition write_InteractionParameters (r : FullInteraction) : QDBusArgument :=
  let p := full_parameters r in
  write_structure
    ([TString (ip_secretName p); TString (ip_collectionName p); TString (ip_pluginName p);
      TString (ip_applicationId p)]
     ++ write_InteractionOperation (Operation_value (ip_operation p))
     ++ [TString (ip_authenticationPluginName p)]
     ++ write_PromptText (full_promptText r)
     ++ write_InputType (ip_inputType p)
     ++ write_EchoMode (full_echoMode r)).
Definition read_InteractionParameters : Reader FullInteraction :=
  read_structure
    (read* secretName := read_string in
     read* collectionName := read_string in
     read* pluginName := read_string in
     read* applicationId := read_string in
     read* operation := read_InteractionOperation in
     read* authenticationPluginName := read_string in
     read* promptText := read_PromptText in
     read* inputType := read_InputType in
     read* echoMode := read_EchoMode in
     done_reading
       (mkFullInteraction
          (mkInteraction secretName collectionName pluginName applicationId (Operation_of operation)
             authenticationPluginName inputType)
          promptText echoMode)).

(** [InteractionResponse]: the result and the data *)
Definition write_InteractionResponse (r : Result * bytes) : QDBusArgument :=
  write_structure (write_Result r.1 ++ [TBytes r.2]).
Definition read_InteractionResponse : Reader (Result * bytes) :=
  read_structure
    (read* result := read_Result in
     read* responseData := read_bytes in
     done_reading (result, responseData)).

(** * Classes of lib/Crypto *)

Section keys.
  Context `{!QDataStream}.

Definition write_Key (k : CKey) : QDBusArgument :=
  write_structure [TBytes (serialize k LosslessSerializationMode)].
Definition read_Key : Reader CKey :=
  read_structure (read* keydata := read_bytes in done_reading (deserialize keydata).1).
End keys.

Definition write_KeyIdentifier (i : Identifier) : QDBusArgument :=
  write_structure
    [TString (ident_name i); TString (ident_collectionName i); TString (ident_storagePluginName i)].
Definition read_KeyIdentifier : Reader Identifier :=
  read_structure
    (read* name := read_string in
     read* collectionName := read_string in
     read* storagePluginName := read_string in
     done_reading (mkIdentifier name collectionName storagePluginName)).

Definition write_CryptoResult (r : CResult) : QDBusArgument :=
  write_structure
    [TInt (ResultCode_value (c_code r)); TInt (c_errorCode r); TInt (c_storageErrorCode r);
     TString (c_errorMessage r)].
Definition read_CryptoResult : Reader CResult :=
  read_structure
    (read* code := read_ResultCode in
     read* errorCode := read_int in
     read* storageErrorCode := read_int in
     read* message := read_string in
     done_reading (mkCResult code errorCode storageErrorCode message)).

Definition write_CryptoPluginInfo (i : PluginInfo) : QDBusArgument :=
  write_structure
    [TString (info_displayName i); TString (info_name i); TInt (info_version i);
     TInt (info_statusFlags i)].
Definition read_CryptoPluginInfo : Reader PluginInfo :=
  read_structure
    (read* displayName := read_string in
     read* name := read_string in
     read* version := read_int in
     read* iStatusFlags := read_int in
     done_reading (mkPluginInfo displayName name version iStatusFlags)).

(** The same text as in lib/Secrets *)
Definition write_CryptoPromptText : gmap Z string → QDBusArgument := write_PromptText.
Definition read_CryptoPromptText : Reader (gmap Z string) := read_PromptText.

Definition write_CryptoInteractionParameters (r : FullInteraction) : QDBusArgument :=
  let p := full_parameters r in
  write_structure
    ([TString (ip_secretName p); TString (ip_collectionName p); TString (ip_pluginName p);
      TString (ip_applicationId p)]
     ++ write_CryptoInteractionOperation (Operation_value (ip_operation p))
     ++ [TString (ip_authenticationPluginName p)]
     ++ write_CryptoPromptText (full_promptText r)
     ++ write_CryptoInputType (ip_inputType p)
     ++ write_CryptoEchoMode (full_echoMode r)).
Definition read_CryptoInteractionParameters : Reader FullInteraction :=
  read_structure
    (read* keyName := read_string in
     read* collectionName := read_string in
     read* pluginName := read_string in
     read* applicationId := read_string in
     read* operation := read_CryptoInteractionOperation in
     read* authenticationPluginName := read_string in
     read* promptText := read_CryptoPromptText in
     read* inputType := read_CryptoInputType in
     read* echoMode := read_CryptoEchoMode in
     done_reading
       (mkFullInteraction
          (mkInteraction keyName collectionName pluginName applicationId (Operation_of operation)
             authenticationPluginName inputType)
          promptText echoMode)).

(** [KeyDerivationParameters] with all of its fields. *)
Record FullDerivation := mkFullDerivation {
  full_derivation : KeyDerivationParameters;
  full_algorithm : Z;
  full_memorySize : Z;
  full_parallelism : Z;
  full_customParameters : QVariantMap;
}.

Definition write_KeyDerivationParameters (d : FullDerivation) : QDBusArgument :=
  let k := full_derivation d in
  write_structure
    ([TBytes (kdf_inputData k); TBytes (kdf_salt k)]
     ++ write_KeyDerivationFunction (kdf_function k)
     ++ write_MessageAuthenticationCode (kdf_mac k)
     ++ write_Algorithm (full_algorithm d)
     ++ write_DigestFunction (kdf_digest k)
     ++ [TLongLong (full_memorySize d); TInt (kdf_iterations k); TInt (full_parallelism d);
         TInt (kdf_outputKeySize k); TVariantMap (full_customParameters d)]).
Definition read_KeyDerivationParameters : Reader FullDerivation :=
  read_structure
    (read* inputData := read_bytes in
     read* salt := read_bytes in
     read* keyDerivationFunction := read_KeyDerivationFunction in
     read* keyDerivationMac := read_MessageAuthenticationCode in
     read* keyDerivationAlgorithm := read_Algorithm in
     read* keyDerivationDigestFunction := read_DigestFunction in
     read* memorySize := read_longlong in
     read* iterations := read_int in
     read* parallelism := read_int in
     read* outputKeySize := read_int in
     read* customParameters := read_variantMap in
     done_reading
       (mkFullDerivation
          (mkKdf keyDerivationFunction keyDerivationMac keyDerivationDigestFunction iterations
             inputData salt outputKeySize)
          keyDerivationAlgorithm memorySize parallelism customParameters)).

Definition write_KeyPairGenerationParameters (p : KeyPairParameters) : QDBusArgument :=
  write_structure
    [TInt (kp_keyPairType p); TVariantFields (kp_numbers p) (kp_arrays p);
     TVariantMap (kp_customParameters p)].
Definition read_KeyPairGenerationParameters : Reader KeyPairParameters :=
  read_structure
    (read* ikeyPairType := read_int in
     read* subclassParameters := read_variantFields in
     read* customParameters := read_variantMap in
     done_reading
       (mkKeyPairParameters ikeyPairType customParameters subclassParameters.1
          subclassParameters.2)).

(** * Everything that is read is what was written *)

Lemma read_prompts_write l : ∀ fuel m rest,
  length (write_prompts l) < fuel →
  read_prompts fuel m (write_prompts l ++ TEnd :: rest)
  = Some (foldl (λ m kv, <[kv.1 := kv.2]> m) m l, TEnd :: rest).
Proof.
  induction l as [|[k v] l IH]; intros [|fuel] m rest Hf; simpl in *; try lia; [done|].
  unfold read_bind. simpl. rewrite IH by lia. done.
Qed.

Lemma foldl_insert_map (l : list (Z * string)) : ∀ m : gmap Z string,
  NoDup l.*1 → (∀ k, k ∈ l.*1 → m !! k = None) →
  foldl (λ m kv, <[kv.1 := kv.2]> m) m l = list_to_map l ∪ m.
Proof.
  induction l as [|[k v] l IH]; intros m Hd Hm; simpl; [by rewrite (left_id_L ∅ (∪))|].
  apply NoDup_cons in Hd as [Hk Hd]. rewrite IH; [|done|].
  - rewrite <- insert_union_l, insert_union_r; [done|]. by apply not_elem_of_list_to_map_1.
  - intros k' Hk'. rewrite lookup_insert_ne by set_solver. apply Hm. simpl. by right.
Qed.

Lemma read_PromptText_write p rest :
  read_PromptText (TBeginMap "is" :: write_prompts (map_to_list p) ++ TEnd :: rest) = Some (p, rest).
Proof.
  unfold read_PromptText, read_bind.
  rewrite read_prompts_write by (rewrite length_app; simpl; lia).
  rewrite foldl_insert_map; [|apply NoDup_fst_map_to_list|done].
  rewrite list_to_map_to_list, (right_id_L ∅ (∪)). done.
Qed.

Lemma read_structure_write {A} (r : Reader A) body v rest :
  r (body ++ TEnd :: rest) = Some (v, TEnd :: rest) →
  read_structure r (write_structure body ++ rest) = Some (v, rest).
Proof.
  intros Hr. unfold write_structure, read_structure. simpl. rewrite <- app_assoc. simpl.
  unfold read_bind. by rewrite Hr.
Qed.

#[local] Arguments read_PromptText : simpl never.

(** What the type of a value guarantees: an operation that has a name is not given
    by its number. *)
Definition canonical (o : Operation) : Prop := Operation_of (Operation_value o) = o.

Lemma read_interaction_write r rest :
  canonical (ip_operation (full_parameters r)) →
  read_InteractionParameters (write_InteractionParameters r ++ rest) = Some (r, rest).
Proof.
  intros Hc. destruct r as [[secret collection plugin application op authentication input] prompts echo].
  simpl in Hc. apply read_structure_write. simpl. rewrite <- !app_assoc. unfold read_bind. simpl.
  rewrite read_PromptText_write. simpl. by rewrite Hc.
Qed.

Lemma read_Key_write `{!QDataStream, !QDataStreamLaws _} k rest :
  key_wf k → read_Key (write_Key k ++ rest) = Some (k, rest).
Proof.
  intros Hk. apply read_structure_write. simpl. unfold read_bind. simpl.
  by rewrite deserialize_serialize.
Qed.
