(* ===== verification/Messages.v ===== *)
(** The messages between the client libraries and the daemon: how the calls of
    lib/Secrets/secretmanager.cpp and lib/Crypto/cryptomanager.cpp are put on the
    bus, and how QtDBus finds and calls the slots of the two objects that the daemon
    exports (secrets_p.h and crypto_p.h).

    QtDBus calls the slot that has the name of the message and whose parameters
    have the signature of the message, with the values read as the types of the
    parameters; a message that fits no slot is answered with an error. *)
From S2P Require Import Prelude Result PluginApi PluginFunctionWrappers Processor.
From S2P Require Import SecretsService CryptoManager CryptoKey KeySerialization CryptoProcessor.
From S2P Require Import CryptoService Marshalling.

(** The types of parameters that are used. *)
Inductive WireType :=
  | T_QString | T_QByteArray | T_int | T_quint32 | T_quint64 | T_double | T_QVariantMap
  | T_enumeration (e : Enumeration)
  | T_Secret | T_SecretIdentifier | T_SecretFilterData | T_InteractionParameters
  | T_Key | T_KeyIdentifier | T_CryptoInteractionParameters | T_KeyDerivationParameters
  | T_KeyPairGenerationParameters.
Coercion T_enumeration : Enumeration >-> WireType.

Definition value (t : WireType) : Type :=
  match t with
  | T_QString => string
  | T_QByteArray => bytes
  | T_int | T_quint32 | T_quint64 | T_double | T_enumeration _ => Z
  | T_QVariantMap => QVariantMap
  | T_Secret => Secret
  | T_SecretIdentifier | T_KeyIdentifier => Identifier
  | T_SecretFilterData => FilterData
  | T_InteractionParameters | T_CryptoInteractionParameters => FullInteraction
  | T_Key => CKey
  | T_KeyDerivationParameters => FullDerivation
  | T_KeyPairGenerationParameters => KeyPairParameters
  end.

(** The signature of a type *)
Definition signature (t : WireType) : string :=
  match t with
  | T_QString => "s"
  | T_QByteArray => "ay"
  | T_int => "i"
  | T_quint32 => "u"
  | T_quint64 => "t"
  | T_double => "d"
  | T_QVariantMap => "a{sv}"
  | T_enumeration _ => "(i)"
  | T_Secret => "((sss)aya{ss})"
  | T_SecretIdentifier | T_KeyIdentifier => "(sss)"
  | T_SecretFilterData => "a{ss}"
  | T_InteractionParameters | T_CryptoInteractionParameters => "(ssss(i)sa{is}(i)(i))"
  | T_Key => "(ay)"
  | T_KeyDerivationParameters => "(ayay(i)(i)(i)(i)xiiia{sv})"
  | T_KeyPairGenerationParameters => "(ia{sv}a{sv})"
  end.

Fixpoint signatures (l : list WireType) : string :=
  match l with [] => "" | t :: l => signature t +:+ signatures l end.

(** The fields of some classes that the rest of the development leaves out. *)
Record LeftOut := mkLeftOut {
  lo_promptText : gmap Z string;
  lo_echoMode : Z;
  lo_algorithm : Z;
  lo_memorySize : Z;
  lo_parallelism : Z;
  lo_customParameters : QVariantMap;
}.
Definition with_texts (x : LeftOut) (p : InteractionParameters) : FullInteraction :=
  mkFullInteraction p (lo_promptText x) (lo_echoMode x).
Definition with_limits (x : LeftOut) (k : KeyDerivationParameters) : FullDerivation :=
  mkFullDerivation k (lo_algorithm x) (lo_memorySize x) (lo_parallelism x) (lo_customParameters x).

Definition FilterOperator_value (o : FilterOperator) : Z :=
  match o with OperatorOr => 0 | OperatorAnd => 1 end.
Definition FilterOperator_of (n : Z) : option FilterOperator :=
  match n with 0%Z => Some OperatorOr | 1%Z => Some OperatorAnd | _ => None end.

Section messages.
  Context `{!QDataStream}.

(** [argument << v], and [argument >> v], for each type *)
Definition write (t : WireType) : value t → QDBusArgument :=
  match t return value t → QDBusArgument with
  | T_QString => λ v, [TString v]
  | T_QByteArray => λ v, [TBytes v]
  | T_int => λ v, [TInt v]
  | T_quint32 => λ v, [TUInt v]
  | T_quint64 => λ v, [TULongLong v]
  | T_double => λ v, [TDouble v]
  | T_QVariantMap => λ v, [TVariantMap v]
  | T_enumeration e => write_enum e
  | T_Secret => write_Secret
  | T_SecretIdentifier => write_Identifier
  | T_SecretFilterData => λ v, [TStringMap v]
  | T_InteractionParameters => write_InteractionParameters
  | T_Key => write_Key
  | T_KeyIdentifier => write_KeyIdentifier
  | T_CryptoInteractionParameters => write_CryptoInteractionParameters
  | T_KeyDerivationParameters => write_KeyDerivationParameters
  | T_KeyPairGenerationParameters => write_KeyPairGenerationParameters
  end.

Definition read (t : WireType) : Reader (value t) :=
  match t return Reader (value t) with
  | T_QString => read_string
  | T_QByteArray => read_bytes
  | T_int => read_int
  | T_quint32 => read_uint
  | T_quint64 => read_ulonglong
  | T_double => read_double
  | T_QVariantMap => read_variantMap
  | T_enumeration e => read_enum e
  | T_Secret => read_Secret
  | T_SecretIdentifier => read_Identifier
  | T_SecretFilterData => read_stringMap
  | T_InteractionParameters => read_InteractionParameters
  | T_Key => read_Key
  | T_KeyIdentifier => read_KeyIdentifier
  | T_CryptoInteractionParameters => read_CryptoInteractionParameters
  | T_KeyDerivationParameters => read_KeyDerivationParameters
  | T_KeyPairGenerationParameters => read_KeyPairGenerationParameters
  end.

(** * What the clients send *)

(** [QVariant::fromValue<T>(v)] *)
Definition Argument : Type := { t : WireType & value t }.
Definition fromValue (t : WireType) (v : value t) : Argument := existT t v.

Fixpoint write_all (args : list Argument) : QDBusArgument :=
  match args with [] => [] | existT t v :: args => write t v ++ write_all args end.

(** The name of the method and the arguments. *)
Record Message := mkMessage { message_name : string; message_arguments : QDBusArgument }.

(** [m_interface->asyncCallWithArgumentList(name, args)] *)
Definition call (name : string) (args : list Argument) : Message :=
  mkMessage name (write_all args).

(** A slot: its name, the types of its parameters before the message, and the call
    of the object that it is. *)
Fixpoint parameters (l : list WireType) (A : Type) : Type :=
  match l with [] => A | t :: l => value t → parameters l A end.

Record Slot (A : Type) := mkSlot {
  slot_name : string;
  slot_types : list WireType;
  slot_call : parameters slot_types (option A);
}.
Arguments mkSlot {A}. Arguments slot_name {A}. Arguments slot_types {A}. Arguments slot_call {A}.

Fixpoint find_slot {A} (name sig : string) (slots : list (Slot A)) : option (Slot A) :=
  match slots with
  | [] => None
  | s :: slots =>
      if bool_decide (slot_name s = name) && bool_decide (signatures (slot_types s) = sig) then Some s
      else find_slot name sig slots
  end.

Fixpoint read_all {A} (l : list WireType) : parameters l A → Reader A :=
  match l return parameters l A → Reader A with
  | [] => λ f, done_reading f
  | t :: l => λ f, read* v := read t in read_all l (f v)
  end.

(** The call of the object that a message leads to. *)
Definition receive {A} (slots : list (Slot A)) (m : Message) : option A :=
  match find_slot (message_name m) (signature_of 0 (message_arguments m)) slots with
  | Some s =>
      match read_all (slot_types s) (slot_call s) (message_arguments m) with
      | Some (c, _) => c
      | None => None
      end
  | None => None
  end.

Definition crypto_message (x : LeftOut) (c : CryptoCall) : Message :=
  match c with
  | XGenerateRandomData numberBytes csprngEngineName custom p =>
      call "generateRandomData" [fromValue T_quint64 numberBytes;
         fromValue T_QString csprngEngineName; fromValue T_QVariantMap custom;
         fromValue T_QString p]
  | XSeedRandomDataGenerator seedData entropyEstimate csprngEngineName custom p =>
      call "seedRandomDataGenerator" [fromValue T_QByteArray seedData;
         fromValue T_double entropyEstimate; fromValue T_QString csprngEngineName;
         fromValue T_QVariantMap custom; fromValue T_QString p]
  | XGenerateInitializationVector algorithm blockMode keySize custom p =>
      call "generateInitializationVector" [fromValue E_Algorithm algorithm;
         fromValue E_BlockMode blockMode; fromValue T_int keySize; fromValue T_QVariantMap custom;
         fromValue T_QString p]
  | XGenerateKey keyTemplate kpgParams skdfParams custom p =>
      call "generateKey" [fromValue T_Key keyTemplate;
         fromValue T_KeyPairGenerationParameters kpgParams;
         fromValue T_KeyDerivationParameters (with_limits x skdfParams);
         fromValue T_QVariantMap custom; fromValue T_QString p]
  | XGenerateStoredKey keyTemplate kpgParams skdfParams uiParams custom p =>
      call "generateStoredKey" [fromValue T_Key keyTemplate;
         fromValue T_KeyPairGenerationParameters kpgParams;
         fromValue T_KeyDerivationParameters (with_limits x skdfParams);
         fromValue T_CryptoInteractionParameters (with_texts x uiParams);
         fromValue T_QVariantMap custom; fromValue T_QString p]
  | XImportKey data uiParams custom p =>
      call "importKey" [fromValue T_QByteArray data;
         fromValue T_CryptoInteractionParameters (with_texts x uiParams);
         fromValue T_QVariantMap custom; fromValue T_QString p]
  | XImportStoredKey data keyTemplate uiParams custom p =>
      call "importStoredKey" [fromValue T_QByteArray data; fromValue T_Key keyTemplate;
         fromValue T_CryptoInteractionParameters (with_texts x uiParams);
         fromValue T_QVariantMap custom; fromValue T_QString p]
  | XStoredKey identifier keyComponents custom =>
      call "storedKey" [fromValue T_KeyIdentifier identifier;
         fromValue E_KeyComponents keyComponents; fromValue T_QVariantMap custom]
  | XDeleteStoredKey identifier =>
      call "deleteStoredKey" [fromValue T_KeyIdentifier identifier]
  | XStoredKeyIdentifiers storagePluginName collectionName custom =>
      call "storedKeyIdentifiers" [fromValue T_QString storagePluginName;
         fromValue T_QString collectionName; fromValue T_QVariantMap custom]
  | XCalculateDigest data padding digestFunction custom p =>
      call "calculateDigest" [fromValue T_QByteArray data; fromValue E_SignaturePadding padding;
         fromValue E_DigestFunction digestFunction; fromValue T_QVariantMap custom;
         fromValue T_QString p]
  | XSign data key padding digest custom p =>
      call "sign" [fromValue T_QByteArray data; fromValue T_Key key;
         fromValue E_SignaturePadding padding; fromValue E_DigestFunction digest;
         fromValue T_QVariantMap custom; fromValue T_QString p]
  | XVerify signature data key padding digest custom p =>
      call "verify" [fromValue T_QByteArray signature; fromValue T_QByteArray data;
         fromValue T_Key key; fromValue E_SignaturePadding padding;
         fromValue E_DigestFunction digest; fromValue T_QVariantMap custom; fromValue T_QString p]
  | XEncrypt data iv key blockMode padding authenticationData custom p =>
      call "encrypt" [fromValue T_QByteArray data; fromValue T_QByteArray iv; fromValue T_Key key;
         fromValue E_BlockMode blockMode; fromValue E_EncryptionPadding padding;
         fromValue T_QByteArray authenticationData; fromValue T_QVariantMap custom;
         fromValue T_QString p]
  | XDecrypt data iv key blockMode padding authenticationData authenticationTag custom p =>
      call "decrypt" [fromValue T_QByteArray data; fromValue T_QByteArray iv; fromValue T_Key key;
         fromValue E_BlockMode blockMode; fromValue E_EncryptionPadding padding;
         fromValue T_QByteArray authenticationData; fromValue T_QByteArray authenticationTag;
         fromValue T_QVariantMap custom; fromValue T_QString p]
  | XInitializeCipherSession iv key operation blockMode encryptionPadding signaturePadding digest
      custom p =>
      call "initializeCipherSession" [fromValue T_QByteArray iv; fromValue T_Key key;
         fromValue E_CryptoOperation operation; fromValue E_BlockMode blockMode;
         fromValue E_EncryptionPadding encryptionPadding;
         fromValue E_SignaturePadding signaturePadding; fromValue E_DigestFunction digest;
         fromValue T_QVariantMap custom; fromValue T_QString p]
  | XUpdateCipherSessionAuthentication authenticationData custom p token =>
      call "updateCipherSessionAuthentication" [fromValue T_QByteArray authenticationData;
         fromValue T_QVariantMap custom; fromValue T_QString p; fromValue T_quint32 token]
  | XUpdateCipherSession data custom p token =>
      call "updateCipherSession" [fromValue T_QByteArray data; fromValue T_QVariantMap custom;
         fromValue T_QString p; fromValue T_quint32 token]
  | XFinalizeCipherSession data custom p token =>
      call "finalizeCipherSession" [fromValue T_QByteArray data; fromValue T_QVariantMap custom;
         fromValue T_QString p; fromValue T_quint32 token]
  | XQueryLockStatus type target =>
      call "queryLockStatus" [fromValue E_CryptoLockCodeTargetType type;
         fromValue T_QString target]
  | XModifyLockCode type target ip =>
      call "modifyLockCode" [fromValue E_CryptoLockCodeTargetType type;
         fromValue T_QString target; fromValue T_CryptoInteractionParameters (with_texts x ip)]
  | XProvideLockCode type target ip =>
      call "provideLockCode" [fromValue E_CryptoLockCodeTargetType type;
         fromValue T_QString target; fromValue T_CryptoInteractionParameters (with_texts x ip)]
  | XForgetLockCode type target ip =>
      call "forgetLockCode" [fromValue E_CryptoLockCodeTargetType type;
         fromValue T_QString target; fromValue T_CryptoInteractionParameters (with_texts x ip)]
  end.

Definition secrets_message (x : LeftOut) (c : DBusCall) : Message :=
  match c with
  | DGetHealthInfo =>
      call "getHealthInfo" []
  | DUserInput uiParams =>
      call "userInput" [fromValue T_InteractionParameters (with_texts x uiParams)]
  | DCollectionNames storagePluginName =>
      call "collectionNames" [fromValue T_QString storagePluginName]
  | DCreateDeviceLockCollection collectionName storagePluginName encryptionPluginName
      unlockSemantic accessControlMode =>
      call "createCollection" [fromValue T_QString collectionName;
         fromValue T_QString storagePluginName; fromValue T_QString encryptionPluginName;
         fromValue E_DeviceLockUnlockSemantic unlockSemantic;
         fromValue E_AccessControlMode accessControlMode]
  | DCreateCustomLockCollection collectionName storagePluginName encryptionPluginName
      authenticationPluginName unlockSemantic accessControlMode mode address =>
      call "createCollection" [fromValue T_QString collectionName;
         fromValue T_QString storagePluginName; fromValue T_QString encryptionPluginName;
         fromValue T_QString authenticationPluginName;
         fromValue E_CustomLockUnlockSemantic unlockSemantic;
         fromValue E_AccessControlMode accessControlMode; fromValue E_UserInteractionMode mode;
         fromValue T_QString address]
  | DDeleteCollection collectionName storagePluginName mode address =>
      call "deleteCollection" [fromValue T_QString collectionName;
         fromValue T_QString storagePluginName; fromValue E_UserInteractionMode mode;
         fromValue T_QString address]
  | DSetSecret secret uiParams mode address =>
      call "setSecret" [fromValue T_Secret secret;
         fromValue T_InteractionParameters (with_texts x uiParams);
         fromValue E_UserInteractionMode mode; fromValue T_QString address]
  | DSetDeviceLockSecret secret encryptionPluginName uiParams unlockSemantic accessControlMode
      mode address =>
      call "setSecret" [fromValue T_Secret secret; fromValue T_QString encryptionPluginName;
         fromValue T_InteractionParameters (with_texts x uiParams);
         fromValue E_DeviceLockUnlockSemantic unlockSemantic;
         fromValue E_AccessControlMode accessControlMode; fromValue E_UserInteractionMode mode;
         fromValue T_QString address]
  | DSetCustomLockSecret secret encryptionPluginName authenticationPluginName uiParams
      unlockSemantic accessControlMode mode address =>
      call "setSecret" [fromValue T_Secret secret; fromValue T_QString encryptionPluginName;
         fromValue T_QString authenticationPluginName;
         fromValue T_InteractionParameters (with_texts x uiParams);
         fromValue E_CustomLockUnlockSemantic unlockSemantic;
         fromValue E_AccessControlMode accessControlMode; fromValue E_UserInteractionMode mode;
         fromValue T_QString address]
  | DGetSecret identifier mode address =>
      call "getSecret" [fromValue T_SecretIdentifier identifier;
         fromValue E_UserInteractionMode mode; fromValue T_QString address]
  | DFindSecrets collectionName storagePluginName flt op mode address =>
      call "findSecrets" [fromValue T_QString collectionName;
         fromValue T_QString storagePluginName; fromValue T_SecretFilterData flt;
         fromValue E_FilterOperator (FilterOperator_value op);
         fromValue E_UserInteractionMode mode; fromValue T_QString address]
  | DDeleteSecret identifier mode address =>
      call "deleteSecret" [fromValue T_SecretIdentifier identifier;
         fromValue E_UserInteractionMode mode; fromValue T_QString address]
  | DQueryLockStatus type target =>
      call "queryLockStatus" [fromValue E_LockCodeTargetType type; fromValue T_QString target]
  | DModifyLockCode type target ip mode address =>
      call "modifyLockCode" [fromValue E_LockCodeTargetType type; fromValue T_QString target;
         fromValue T_InteractionParameters (with_texts x ip);
         fromValue E_UserInteractionMode mode; fromValue T_QString address]
  | DProvideLockCode type target ip mode address =>
      call "provideLockCode" [fromValue E_LockCodeTargetType type; fromValue T_QString target;
         fromValue T_InteractionParameters (with_texts x ip);
         fromValue E_UserInteractionMode mode; fromValue T_QString address]
  | DForgetLockCode type target ip mode address =>
      call "forgetLockCode" [fromValue E_LockCodeTargetType type; fromValue T_QString target;
         fromValue T_InteractionParameters (with_texts x ip);
         fromValue E_UserInteractionMode mode; fromValue T_QString address]
  end.

(** * The slots of the objects that the daemon exports *)

Definition crypto_slotGenerateRandomData : Slot CryptoCall :=
  mkSlot "generateRandomData" [T_quint64; T_QString; T_QVariantMap; T_QString]
    (λ numberBytes csprngEngineName customParameters cryptosystemProviderName, Some
       (XGenerateRandomData numberBytes csprngEngineName customParameters
       cryptosystemProviderName)).

Definition crypto_slotSeedRandomDataGenerator : Slot CryptoCall :=
  mkSlot "seedRandomDataGenerator" [T_QByteArray; T_double; T_QString; T_QVariantMap; T_QString]
    (λ seedData entropyEstimate csprngEngineName customParameters cryptosystemProviderName, Some
       (XSeedRandomDataGenerator seedData entropyEstimate csprngEngineName customParameters
       cryptosystemProviderName)).

Definition crypto_slotGenerateInitializationVector : Slot CryptoCall :=
  mkSlot "generateInitializationVector" [T_enumeration E_Algorithm; T_enumeration E_BlockMode;
     T_int; T_QVariantMap; T_QString]
    (λ algorithm blockMode keySize customParameters cryptosystemProviderName, Some
       (XGenerateInitializationVector algorithm blockMode keySize customParameters
       cryptosystemProviderName)).

Definition crypto_slotGenerateKey : Slot CryptoCall :=
  mkSlot "generateKey" [T_Key; T_KeyPairGenerationParameters; T_KeyDerivationParameters;
     T_QVariantMap; T_QString]
    (λ keyTemplate kpgParams skdfParams customParameters cryptosystemProviderName, Some
       (XGenerateKey keyTemplate kpgParams (full_derivation skdfParams) customParameters
       cryptosystemProviderName)).

Definition crypto_slotGenerateStoredKey : Slot CryptoCall :=
  mkSlot "generateStoredKey" [T_Key; T_KeyPairGenerationParameters; T_KeyDerivationParameters;
     T_CryptoInteractionParameters; T_QVariantMap; T_QString]
    (λ keyTemplate kpgParams skdfParams uiParams customParameters cryptosystemProviderName, Some
       (XGenerateStoredKey keyTemplate kpgParams (full_derivation skdfParams) (full_parameters
       uiParams) customParameters cryptosystemProviderName)).

Definition crypto_slotImportKey : Slot CryptoCall :=
  mkSlot "importKey" [T_QByteArray; T_CryptoInteractionParameters; T_QVariantMap; T_QString]
    (λ data uiParams customParameters cryptosystemProviderName, Some (XImportKey data
       (full_parameters uiParams) customParameters cryptosystemProviderName)).

Definition crypto_slotImportStoredKey : Slot CryptoCall :=
  mkSlot "importStoredKey" [T_QByteArray; T_Key; T_CryptoInteractionParameters; T_QVariantMap;
     T_QString]
    (λ data keyTemplate uiParams customParameters cryptosystemProviderName, Some (XImportStoredKey
       data keyTemplate (full_parameters uiParams) customParameters cryptosystemProviderName)).

Definition crypto_slotStoredKey : Slot CryptoCall :=
  mkSlot "storedKey" [T_KeyIdentifier; T_enumeration E_KeyComponents; T_QVariantMap]
    (λ identifier keyComponents customParameters, Some (XStoredKey identifier keyComponents
       customParameters)).

Definition crypto_slotDeleteStoredKey : Slot CryptoCall :=
  mkSlot "deleteStoredKey" [T_KeyIdentifier]
    (λ identifier, Some (XDeleteStoredKey identifier)).

Definition crypto_slotStoredKeyIdentifiers : Slot CryptoCall :=
  mkSlot "storedKeyIdentifiers" [T_QString; T_QString; T_QVariantMap]
    (λ storagePluginName collectionName customParameters, Some (XStoredKeyIdentifiers
       storagePluginName collectionName customParameters)).

Definition crypto_slotCalculateDigest : Slot CryptoCall :=
  mkSlot "calculateDigest" [T_QByteArray; T_enumeration E_SignaturePadding;
     T_enumeration E_DigestFunction; T_QVariantMap; T_QString]
    (λ data padding digestFunction customParameters cryptosystemProviderName, Some
       (XCalculateDigest data padding digestFunction customParameters cryptosystemProviderName)).

Definition crypto_slotSign : Slot CryptoCall :=
  mkSlot "sign" [T_QByteArray; T_Key; T_enumeration E_SignaturePadding;
     T_enumeration E_DigestFunction; T_QVariantMap; T_QString]
    (λ data key padding digestFunction customParameters cryptosystemProviderName, Some (XSign data
       key padding digestFunction customParameters cryptosystemProviderName)).

Definition crypto_slotVerify : Slot CryptoCall :=
  mkSlot "verify" [T_QByteArray; T_QByteArray; T_Key; T_enumeration E_SignaturePadding;
     T_enumeration E_DigestFunction; T_QVariantMap; T_QString]
    (λ signature data key padding digestFunction customParameters cryptosystemProviderName, Some
       (XVerify signature data key padding digestFunction customParameters
       cryptosystemProviderName)).

Definition crypto_slotEncrypt : Slot CryptoCall :=
  mkSlot "encrypt" [T_QByteArray; T_QByteArray; T_Key; T_enumeration E_BlockMode;
     T_enumeration E_EncryptionPadding; T_QByteArray; T_QVariantMap; T_QString]
    (λ data iv key blockMode padding authenticationData customParameters cryptosystemProviderName,
       Some (XEncrypt data iv key blockMode padding authenticationData customParameters
       cryptosystemProviderName)).

Definition crypto_slotDecrypt : Slot CryptoCall :=
  mkSlot "decrypt" [T_QByteArray; T_QByteArray; T_Key; T_enumeration E_BlockMode;
     T_enumeration E_EncryptionPadding; T_QByteArray; T_QByteArray; T_QVariantMap; T_QString]
    (λ data iv key blockMode padding authenticationData authenticationTag customParameters
       cryptosystemProviderName, Some (XDecrypt data iv key blockMode padding authenticationData
       authenticationTag customParameters cryptosystemProviderName)).

Definition crypto_slotInitializeCipherSession : Slot CryptoCall :=
  mkSlot "initializeCipherSession" [T_QByteArray; T_Key; T_enumeration E_CryptoOperation;
     T_enumeration E_BlockMode; T_enumeration E_EncryptionPadding;
     T_enumeration E_SignaturePadding; T_enumeration E_DigestFunction; T_QVariantMap; T_QString]
    (λ initializationVector key operation blockMode encryptionPadding signaturePadding
       digestFunction customParameters cryptosystemProviderName, Some (XInitializeCipherSession
       initializationVector key operation blockMode encryptionPadding signaturePadding
       digestFunction customParameters cryptosystemProviderName)).

Definition crypto_slotUpdateCipherSessionAuthentication : Slot CryptoCall :=
  mkSlot "updateCipherSessionAuthentication" [T_QByteArray; T_QVariantMap; T_QString; T_quint32]
    (λ authenticationData customParameters cryptosystemProviderName cipherSessionToken, Some
       (XUpdateCipherSessionAuthentication authenticationData customParameters
       cryptosystemProviderName cipherSessionToken)).

Definition crypto_slotUpdateCipherSession : Slot CryptoCall :=
  mkSlot "updateCipherSession" [T_QByteArray; T_QVariantMap; T_QString; T_quint32]
    (λ data customParameters cryptosystemProviderName cipherSessionToken, Some
       (XUpdateCipherSession data customParameters cryptosystemProviderName cipherSessionToken)).

Definition crypto_slotFinalizeCipherSession : Slot CryptoCall :=
  mkSlot "finalizeCipherSession" [T_QByteArray; T_QVariantMap; T_QString; T_quint32]
    (λ data customParameters cryptosystemProviderName cipherSessionToken, Some
       (XFinalizeCipherSession data customParameters cryptosystemProviderName
       cipherSessionToken)).

Definition crypto_slotQueryLockStatus : Slot CryptoCall :=
  mkSlot "queryLockStatus" [T_enumeration E_CryptoLockCodeTargetType; T_QString]
    (λ lockCodeTargetType lockCodeTarget, Some (XQueryLockStatus lockCodeTargetType
       lockCodeTarget)).

Definition crypto_slotModifyLockCode : Slot CryptoCall :=
  mkSlot "modifyLockCode" [T_enumeration E_CryptoLockCodeTargetType; T_QString;
     T_CryptoInteractionParameters]
    (λ lockCodeTargetType lockCodeTarget interactionParameters, Some (XModifyLockCode
       lockCodeTargetType lockCodeTarget (full_parameters interactionParameters))).

Definition crypto_slotProvideLockCode : Slot CryptoCall :=
  mkSlot "provideLockCode" [T_enumeration E_CryptoLockCodeTargetType; T_QString;
     T_CryptoInteractionParameters]
    (λ lockCodeTargetType lockCodeTarget interactionParameters, Some (XProvideLockCode
       lockCodeTargetType lockCodeTarget (full_parameters interactionParameters))).

Definition crypto_slotForgetLockCode : Slot CryptoCall :=
  mkSlot "forgetLockCode" [T_enumeration E_CryptoLockCodeTargetType; T_QString;
     T_CryptoInteractionParameters]
    (λ lockCodeTargetType lockCodeTarget interactionParameters, Some (XForgetLockCode
       lockCodeTargetType lockCodeTarget (full_parameters interactionParameters))).

Definition crypto_slots : list (Slot CryptoCall) := [crypto_slotGenerateRandomData;
   crypto_slotSeedRandomDataGenerator; crypto_slotGenerateInitializationVector;
   crypto_slotGenerateKey; crypto_slotGenerateStoredKey; crypto_slotImportKey;
   crypto_slotImportStoredKey; crypto_slotStoredKey; crypto_slotDeleteStoredKey;
   crypto_slotStoredKeyIdentifiers; crypto_slotCalculateDigest; crypto_slotSign;
   crypto_slotVerify; crypto_slotEncrypt; crypto_slotDecrypt; crypto_slotInitializeCipherSession;
   crypto_slotUpdateCipherSessionAuthentication; crypto_slotUpdateCipherSession;
   crypto_slotFinalizeCipherSession; crypto_slotQueryLockStatus; crypto_slotModifyLockCode;
   crypto_slotProvideLockCode; crypto_slotForgetLockCode].

Definition secrets_slotGetHealthInfo : Slot DBusCall :=
  mkSlot "getHealthInfo" []
    (Some DGetHealthInfo).

Definition secrets_slotUserInput : Slot DBusCall :=
  mkSlot "userInput" [T_InteractionParameters]
    (λ uiParams, Some (DUserInput (full_parameters uiParams))).

Definition secrets_slotCollectionNames : Slot DBusCall :=
  mkSlot "collectionNames" [T_QString]
    (λ storagePluginName, Some (DCollectionNames storagePluginName)).

Definition secrets_slotCreateDeviceLockCollection : Slot DBusCall :=
  mkSlot "createCollection" [T_QString; T_QString; T_QString;
     T_enumeration E_DeviceLockUnlockSemantic; T_enumeration E_AccessControlMode]
    (λ collectionName storagePluginName encryptionPluginName unlockSemantic accessControlMode,
       Some (DCreateDeviceLockCollection collectionName storagePluginName encryptionPluginName
       unlockSemantic accessControlMode)).

Definition secrets_slotCreateCustomLockCollection : Slot DBusCall :=
  mkSlot "createCollection" [T_QString; T_QString; T_QString; T_QString;
     T_enumeration E_CustomLockUnlockSemantic; T_enumeration E_AccessControlMode;
     T_enumeration E_UserInteractionMode; T_QString]
    (λ collectionName storagePluginName encryptionPluginName authenticationPluginName
       unlockSemantic accessControlMode userInteractionMode interactionServiceAddress, Some
       (DCreateCustomLockCollection collectionName storagePluginName encryptionPluginName
       authenticationPluginName unlockSemantic accessControlMode userInteractionMode
       interactionServiceAddress)).

Definition secrets_slotDeleteCollection : Slot DBusCall :=
  mkSlot "deleteCollection" [T_QString; T_QString; T_enumeration E_UserInteractionMode; T_QString]
    (λ collectionName storagePluginName userInteractionMode interactionServiceAddress, Some
       (DDeleteCollection collectionName storagePluginName userInteractionMode
       interactionServiceAddress)).

Definition secrets_slotSetSecret : Slot DBusCall :=
  mkSlot "setSecret" [T_Secret; T_InteractionParameters; T_enumeration E_UserInteractionMode;
     T_QString]
    (λ secret uiParams userInteractionMode interactionServiceAddress, Some (DSetSecret secret
       (full_parameters uiParams) userInteractionMode interactionServiceAddress)).

Definition secrets_slotSetDeviceLockSecret : Slot DBusCall :=
  mkSlot "setSecret" [T_Secret; T_QString; T_InteractionParameters;
     T_enumeration E_DeviceLockUnlockSemantic; T_enumeration E_AccessControlMode;
     T_enumeration E_UserInteractionMode; T_QString]
    (λ secret encryptionPluginName uiParams unlockSemantic accessControlMode userInteractionMode
       interactionServiceAddress, Some (DSetDeviceLockSecret secret encryptionPluginName
       (full_parameters uiParams) unlockSemantic accessControlMode userInteractionMode
       interactionServiceAddress)).

Definition secrets_slotSetCustomLockSecret : Slot DBusCall :=
  mkSlot "setSecret" [T_Secret; T_QString; T_QString; T_InteractionParameters;
     T_enumeration E_CustomLockUnlockSemantic; T_enumeration E_AccessControlMode;
     T_enumeration E_UserInteractionMode; T_QString]
    (λ secret encryptionPluginName authenticationPluginName uiParams unlockSemantic
       accessControlMode userInteractionMode interactionServiceAddress, Some (DSetCustomLockSecret
       secret encryptionPluginName authenticationPluginName (full_parameters uiParams)
       unlockSemantic accessControlMode userInteractionMode interactionServiceAddress)).

Definition secrets_slotGetSecret : Slot DBusCall :=
  mkSlot "getSecret" [T_SecretIdentifier; T_enumeration E_UserInteractionMode; T_QString]
    (λ identifier userInteractionMode interactionServiceAddress, Some (DGetSecret identifier
       userInteractionMode interactionServiceAddress)).

Definition secrets_slotFindSecrets : Slot DBusCall :=
  mkSlot "findSecrets" [T_QString; T_QString; T_SecretFilterData; T_enumeration E_FilterOperator;
     T_enumeration E_UserInteractionMode; T_QString]
    (λ collectionName storagePluginName filter filterOperator userInteractionMode
       interactionServiceAddress, match FilterOperator_of filterOperator with Some op => Some
       (DFindSecrets collectionName storagePluginName filter op userInteractionMode
       interactionServiceAddress) | None => None end).

Definition secrets_slotDeleteSecret : Slot DBusCall :=
  mkSlot "deleteSecret" [T_SecretIdentifier; T_enumeration E_UserInteractionMode; T_QString]
    (λ identifier userInteractionMode interactionServiceAddress, Some (DDeleteSecret identifier
       userInteractionMode interactionServiceAddress)).

Definition secrets_slotQueryLockStatus : Slot DBusCall :=
  mkSlot "queryLockStatus" [T_enumeration E_LockCodeTargetType; T_QString]
    (λ lockCodeTargetType lockCodeTarget, Some (DQueryLockStatus lockCodeTargetType
       lockCodeTarget)).

Definition secrets_slotModifyLockCode : Slot DBusCall :=
  mkSlot "modifyLockCode" [T_enumeration E_LockCodeTargetType; T_QString; T_InteractionParameters;
     T_enumeration E_UserInteractionMode; T_QString]
    (λ lockCodeTargetType lockCodeTarget interactionParameters userInteractionMode
       interactionServiceAddress, Some (DModifyLockCode lockCodeTargetType lockCodeTarget
       (full_parameters interactionParameters) userInteractionMode interactionServiceAddress)).

Definition secrets_slotProvideLockCode : Slot DBusCall :=
  mkSlot "provideLockCode" [T_enumeration E_LockCodeTargetType; T_QString;
     T_InteractionParameters; T_enumeration E_UserInteractionMode; T_QString]
    (λ lockCodeTargetType lockCodeTarget interactionParameters userInteractionMode
       interactionServiceAddress, Some (DProvideLockCode lockCodeTargetType lockCodeTarget
       (full_parameters interactionParameters) userInteractionMode interactionServiceAddress)).

Definition secrets_slotForgetLockCode : Slot DBusCall :=
  mkSlot "forgetLockCode" [T_enumeration E_LockCodeTargetType; T_QString; T_InteractionParameters;
     T_enumeration E_UserInteractionMode; T_QString]
    (λ lockCodeTargetType lockCodeTarget interactionParameters userInteractionMode
       interactionServiceAddress, Some (DForgetLockCode lockCodeTargetType lockCodeTarget
       (full_parameters interactionParameters) userInteractionMode interactionServiceAddress)).

Definition secrets_slots : list (Slot DBusCall) := [secrets_slotGetHealthInfo;
   secrets_slotUserInput; secrets_slotCollectionNames; secrets_slotCreateDeviceLockCollection;
   secrets_slotCreateCustomLockCollection; secrets_slotDeleteCollection; secrets_slotSetSecret;
   secrets_slotSetDeviceLockSecret; secrets_slotSetCustomLockSecret; secrets_slotGetSecret;
   secrets_slotFindSecrets; secrets_slotDeleteSecret; secrets_slotQueryLockStatus;
   secrets_slotModifyLockCode; secrets_slotProvideLockCode; secrets_slotForgetLockCode].


(** * Every message arrives as it was sent *)

(** What the C++ types guarantee of a value. *)
Definition valid (t : WireType) : value t → Prop :=
  match t return value t → Prop with
  | T_InteractionParameters | T_CryptoInteractionParameters =>
      λ v, canonical (ip_operation (full_parameters v))
  | T_Key => key_wf
  | _ => λ _, True
  end.

Lemma read_write `{!QDataStreamLaws _} t v rest :
  valid t v → read t (write t v ++ rest) = Some (v, rest).
Proof.
  destruct t; intros Hv; simpl in *; try done.
  - by destruct e.
  - by destruct v as [[? ? ?] ? ?].
  - by destruct v.
  - by apply read_interaction_write.
  - by apply read_Key_write.
  - by destruct v.
  - by apply read_interaction_write.
  - by destruct v as [[? ? ? ? ? ? ?] ? ? ? ?].
  - by destruct v.
Qed.

Lemma signature_muted l rest : ∀ n,
  signature_of (S n) (write_prompts l ++ rest) = signature_of (S n) rest.
Proof. induction l as [|[k v] l IH]; intros n; simpl; [done|]. by rewrite IH. Qed.

Lemma signature_write t v rest :
  signature_of 0 (write t v ++ rest) = signature t +:+ signature_of 0 rest.
Proof.
  assert (Hi : ∀ r, signature_of 0 (write_InteractionParameters r ++ rest)
                    = signature T_InteractionParameters +:+ signature_of 0 rest).
  { intros r. unfold write_InteractionParameters, write_structure, write_PromptText. simpl.
    rewrite <- !app_assoc. simpl.
    by rewrite signature_muted. }
  destruct t; try done. by destruct e.
Qed.

Lemma signature_write_all args :
  signature_of 0 (write_all args) = signatures ((λ a, projT1 a) <$> args).
Proof.
  induction args as [|[t v] args IH]; [done|]. simpl. by rewrite signature_write, IH.
Qed.

Lemma read_all_cons `{!QDataStreamLaws _} {A} t l (f : parameters (t :: l) A) v rest :
  valid t v → read_all (t :: l) f (write t v ++ rest) = read_all l (f v) rest.
Proof. intros Hv. simpl. unfold read_bind. by rewrite read_write. Qed.

(** The values of a message, given to a slot. *)
Inductive fits {A} : ∀ l, parameters l A → list Argument → A → Prop :=
  | fits_nil x : fits [] x [] x
  | fits_cons t l (f : parameters (t :: l) A) v args x :
      valid t v → fits l (f v) args x → fits (t :: l) f (fromValue t v :: args) x.

Lemma read_all_fits `{!QDataStreamLaws _} {A} l (f : parameters l A) args x :
  fits l f args x → read_all l f (write_all args) = Some (x, []).
Proof.
  induction 1 as [|t l f v args x Hv _ IH]; [done|]. simpl write_all.
  by rewrite read_all_cons.
Qed.

Lemma receive_call `{!QDataStreamLaws _} {A} (slots : list (Slot A)) s args c :
  find_slot (slot_name s) (signatures ((λ a, projT1 a) <$> args)) slots = Some s →
  fits (slot_types s) (slot_call s) args (Some c) →
  receive slots (call (slot_name s) args) = Some c.
Proof.
  intros Hf Hx. unfold receive, call. simpl. rewrite signature_write_all, Hf.
  by rewrite (read_all_fits _ _ _ _ Hx).
Qed.
End messages.
