(* ===== verification/AuthPlugins.v ===== *)
(** How users prove who they are, and applications what they are: the
    authentication plugins plugins/passwordagentauthplugin and
    plugins/inappauthplugin with lib/Secrets/interactionrequestwatcher.cpp, and
    daemon/SecretsImpl/applicationpermissions.cpp.

    The plugins are objects with queues of pending calls to other processes; each
    function that QtDBus or a timer calls is a function of the state.  The watcher of a
    call emits finished once, as Qt documents, and nothing once it is deleted; a timer
    with its authenticator lives on after deleteLater, until the event loop deletes it.
    Slots connected to the signals of a plugin do not change it before they return.  The branches of the in-app plugin
    for unit tests are left out. *)
From S2P Require Import Prelude Result PluginApi PluginFunctionWrappers Processor.
From S2P Require Import SecretsService Marshalling.
From stdpp Require Import pretty.

Definition AuthenticationTimeoutError : ErrorCode := 12.
Definition OperationRequiresSystemUserInteraction : ErrorCode := 16.
Definition InteractionServiceUnknownError : ErrorCode := 80.
Definition InteractionServiceRequestFailedError : ErrorCode := 83.
Definition InteractionServiceResponseInvalidError : ErrorCode := 85.
Definition InteractionViewError : ErrorCode := 94.
Definition InteractionViewUserCanceledError : ErrorCode := 95.

(** [InteractionParameters::Prompt], [EchoMode] and an [InputType] *)
Definition MessagePrompt : Z := 0.
Definition Instruction : Z := 16.
Definition NewInstruction : Z := 17.
Definition RepeatInstruction : Z := 18.
Definition AcceptPrompt : Z := 32.
Definition CancelPrompt : Z := 48.
Definition PasswordEcho : Z := 2.
Definition NoEcho : Z := 3.
Definition NumericInput : Z := 4.

Definition prompt_message (p : gmap Z string) : string := default "" (p !! MessagePrompt).

(** The values of a map, in some order. *)
Definition map_values {K A B} `{Countable K} (f : A → B) (m : gmap K A) : list B :=
  f <$> (map_to_list m).*2.

Lemma map_values_insert {K A B} `{Countable K} (f : A → B) (m : gmap K A) i x :
  m !! i = None → map_values f (<[i := x]> m) ≡ₚ f x :: map_values f m.
Proof. intros Hi. unfold map_values. by rewrite map_to_list_insert. Qed.

Lemma map_values_delete {K A B} `{Countable K} (f : A → B) (m : gmap K A) i x :
  m !! i = Some x → map_values f m ≡ₚ f x :: map_values f (delete i m).
Proof. intros Hi. unfold map_values. by rewrite <- (map_to_list_delete m i x Hi). Qed.

Lemma map_values_update {K A B} `{Countable K} (f : A → B) (m : gmap K A) i x y :
  m !! i = Some x → f y = f x → map_values f (<[i := y]> m) ≡ₚ map_values f m.
Proof.
  intros Hi Hf. rewrite (map_values_delete f m i x Hi), <- Hf, <- insert_delete_eq.
  apply map_values_insert. apply lookup_delete_eq.
Qed.

(** The same for lists of values. *)
Lemma concat_values_delete {K A B} `{Countable K} (f : A → list B) (m : gmap K A) i x :
  m !! i = Some x → concat (map_values f m) ≡ₚ f x ++ concat (map_values f (delete i m)).
Proof. intros Hi. by rewrite (map_values_delete f m i x Hi). Qed.

Lemma concat_values_insert {K A B} `{Countable K} (f : A → list B) (m : gmap K A) i x y :
  m !! i = Some x →
  concat (map_values f (<[i := y]> m)) ≡ₚ f y ++ concat (map_values f (delete i m)).
Proof.
  intros Hi. rewrite (concat_values_delete f _ i y) by apply lookup_insert_eq.
  by rewrite delete_insert_eq.
Qed.

(** * The password agent *)

Module PasswordAgent.

(** [PasswordResponse]: a call of the agent that is under way; [newPassword]: it
    is a call of CreatePassword. *)
Record PasswordResponse := mkPasswordResponse {
  pr_callerPid : Z;
  pr_requestId : Z;
  pr_parameters : FullInteraction;
  pr_address : string;
  pr_newPassword : bool;
  pr_password : bytes;
}.

Record Agent := mkAgent {
  agent_connection : string;
  agent_service : string;
  agent_path : string;
  agent_responses : gmap string PasswordResponse;     (* by cookie *)
}.

(** [PolkitResponse], with the prompt that its callback has *)
Record PolkitResponse := mkPolkitResponse {
  pk_callerPid : Z;
  pk_requestId : Z;
  pk_promptText : gmap Z string;
}.

(** The properties of a dialog, without the texts and the texts. *)
Record Properties := mkProperties {
  prop_applicationPid : Z;
  prop_echo : Z;
  prop_allowedCharacters : Z;
  prop_texts : gmap string string;
}.

(** What the plugin emits and calls. *)
Inductive Event :=
  | UserInputInteractionCompleted (callerPid requestId : Z) (parameters : FullInteraction)
      (address : string) (result : Result) (password : bytes)
  | AuthenticationCompleted (callerPid requestId : Z) (result : Result)
  | CreatePassword (cookie message : string) (properties : Properties)
  | QueryPassword (cookie message : string) (properties : Properties)
  | CancelPassword (cookie : string)
  | CheckAuthorization (callerPid startTime : Z) (details : gmap string string) (cookie : string)
  | CancelCheckAuthorization (cookie : string)
  | RequestPermission (message : string) (callerPid : Z).

(** The timer of [startDeviceLockAuthentication] with the authenticator that is its
    child, and what their lambdas have captured.  [dl_running]: the single shot has
    not been fired; [dl_deleteLater]: [deleteLater] was called, the object is still
    there and still emits. *)
Record DeviceLock := mkDeviceLock {
  dl_callerPid : Z;
  dl_requestId : Z;
  dl_running : bool;
  dl_deleteLater : bool;
}.

Record Plugin := mkPlugin {
  m_sessionAgent : option Agent;
  m_polkitResponses : gmap string PolkitResponse;     (* by cookie *)
  deviceLockTimers : gmap N DeviceLock;               (* the objects, by their address *)
  cookieCounter : Z;                                  (* a static int *)
  timers : N;                                         (* the timers so far *)
  events : list Event;
}.

Definition newPlugin : Plugin := mkPlugin None ∅ ∅ 0 0 [].

Definition with_agent (a : option Agent) (s : Plugin) : Plugin :=
  mkPlugin a (m_polkitResponses s) (deviceLockTimers s) (cookieCounter s) (timers s) (events s).
Definition with_polkit (m : gmap string PolkitResponse) (s : Plugin) : Plugin :=
  mkPlugin (m_sessionAgent s) m (deviceLockTimers s) (cookieCounter s) (timers s) (events s).
Definition with_timers (m : gmap N DeviceLock) (n : N) (s : Plugin) : Plugin :=
  mkPlugin (m_sessionAgent s) (m_polkitResponses s) m (cookieCounter s) n (events s).
Definition emit (e : Event) (s : Plugin) : Plugin :=
  mkPlugin (m_sessionAgent s) (m_polkitResponses s) (deviceLockTimers s) (cookieCounter s) (timers s)
    (events s ++ [e]).

(** The int after another one: two's complement, which is what compilers do beyond
    the largest int, where C++ leaves it open. *)
Definition next_int (n : Z) : Z := (n + 1 + 2 ^ 31) `mod` 2 ^ 32 - 2 ^ 31.

(** [QString::number(++cookieCounter)] *)
Definition next_cookie (s : Plugin) : string * Plugin :=
  let n := next_int (cookieCounter s) in
  (pretty n,
   mkPlugin (m_sessionAgent s) (m_polkitResponses s) (deviceLockTimers s) n (timers s) (events s)).

(** ** Authentication *)

(** [beginAuthentication]; [startTime]: what the kernel says about the caller, or
    zero *)
Definition beginAuthentication (startTime : Z) (callerPid requestId : Z) (promptText : gmap Z string)
  (s : Plugin) : Result * Plugin :=
  let '(cookie, s) := next_cookie s in
  let details : gmap string string :=
    if isEmpty (prompt_message promptText) then ∅
    else {["polkit.message" := prompt_message promptText]} in
  let s := emit (CheckAuthorization callerPid startTime details cookie) s in
  (result_of_code Pending,
   with_polkit (<[cookie := mkPolkitResponse callerPid requestId promptText]> (m_polkitResponses s)) s).

(** [startDeviceLockAuthentication] *)
Definition startDeviceLockAuthentication (callerPid requestId : Z) (promptText : gmap Z string)
  (s : Plugin) : Plugin :=
  let timer := timers s in
  let s := with_timers (<[timer := mkDeviceLock callerPid requestId true false]> (deviceLockTimers s))
             (N.succ timer) s in
  emit (RequestPermission (prompt_message promptText) callerPid) s.

(** What the three lambdas do: announce the result, whether or not that was done
    before, and [timeout->deleteLater()]. *)
Definition deviceLockCompleted (result : Result) (running : bool) (timer : N) (l : DeviceLock) (s : Plugin)
  : Plugin :=
  let s := emit (AuthenticationCompleted (dl_callerPid l) (dl_requestId l) result) s in
  with_timers (<[timer := mkDeviceLock (dl_callerPid l) (dl_requestId l) running true]>
                 (deviceLockTimers s)) (timers s) s.

(** The signals that they are connected to; an object that is gone emits none, and
    a single shot is fired once. *)
Definition deviceLockTimeout (timer : N) (s : Plugin) : Plugin :=
  match deviceLockTimers s !! timer with
  | Some l =>
      if dl_running l then
        deviceLockCompleted
          (result_error AuthenticationTimeoutError "Device lock authentication timed out") false timer l s
      else s
  | None => s
  end.
Definition permissionGranted (timer : N) (s : Plugin) : Plugin :=
  match deviceLockTimers s !! timer with
  | Some l => deviceLockCompleted (result_of_code Succeeded) (dl_running l) timer l s
  | None => s
  end.
Definition aborted (timer : N) (s : Plugin) : Plugin :=
  match deviceLockTimers s !! timer with
  | Some l =>
      deviceLockCompleted
        (result_error InteractionViewUserCanceledError "The user canceled the authentication dialog")
        (dl_running l) timer l s
  | None => s
  end.

(** The event loop deletes what was to be deleted later. *)
Definition deferredDelete (timer : N) (s : Plugin) : Plugin :=
  match deviceLockTimers s !! timer with
  | Some l =>
      if dl_deleteLater l then with_timers (delete timer (deviceLockTimers s)) (timers s) s else s
  | None => s
  end.

(** What a call on the bus ends with; [NoReply] is one of the types of errors,
    and [Other]. *)
Inductive ErrorType := NoReply | Other | AnotherError.
#[global] Instance ErrorType_eq_dec : EqDecision ErrorType.
Proof. solve_decision. Defined.

Inductive PolkitReply :=
  | PolkitError (type : ErrorType) (message : string)
  | PolkitResult (isAuthorized : bool) (details : gmap string string).

(** The callback in [beginAuthentication]; [equal]: comparison without regard to
    case *)
Definition polkitFinished (equal : string → string → bool) (cookie : string) (reply : PolkitReply)
  (s : Plugin) : Plugin :=
  match m_polkitResponses s !! cookie with
  | None => s
  | Some response =>
      let s := with_polkit (delete cookie (m_polkitResponses s)) s in
      let completed result s :=
        emit (AuthenticationCompleted (pk_callerPid response) (pk_requestId response) result) s in
      match reply with
      | PolkitError type message =>
          let s := if bool_decide (type = NoReply) then emit (CancelCheckAuthorization cookie) s else s in
          completed (result_error InteractionViewError message) s
      | PolkitResult true _ => completed (result_of_code Succeeded) s
      | PolkitResult false details =>
          if equal (default "" (details !! "polkit.dismissed")) "true" then
            completed (result_error InteractionViewUserCanceledError
                         "The user canceled the authentication dialog") s
          else if bool_decide (details ≠ ∅) then
            completed (result_error IncorrectAuthenticationCodeError
                         "Password Agent was unable to verify the authenticity of the user") s
          else
            startDeviceLockAuthentication (pk_callerPid response) (pk_requestId response)
              (pk_promptText response) s
      end
  end.

(** ** Passwords *)

(** [promptKeys] *)
Definition promptKeys : list (Z * string) :=
  [(Instruction, "enterCurrentPasswordText"); (NewInstruction, "enterNewPasswordText");
   (RepeatInstruction, "repeatNewPasswordText"); (AcceptPrompt, "acceptText");
   (CancelPrompt, "cancelText")].

Fixpoint prompt_key (keys : list (Z * string)) (prompt : Z) : option string :=
  match keys with
  | [] => None
  | (first, second) :: keys => if bool_decide (first = prompt) then Some second else prompt_key keys prompt
  end.

(** The loop over the prompts *)
Definition prompt_texts (promptText : gmap Z string) : gmap string string :=
  foldl (λ texts kv, match prompt_key promptKeys kv.1 with
                     | Some key => <[key := kv.2]> texts
                     | None => texts
                     end) ∅ (map_to_list promptText).

Definition dialog (callerPid : Z) (p : FullInteraction) : Properties :=
  mkProperties callerPid
    (if bool_decide (full_echoMode p = NoEcho) then 1
     else if bool_decide (full_echoMode p = PasswordEcho) then 2 else 0)
    (if bool_decide (ip_inputType (full_parameters p) = NumericInput) then 0 else 2)
    (prompt_texts (full_promptText p)).

Definition with_responses (m : gmap string PasswordResponse) (a : Agent) : Agent :=
  mkAgent (agent_connection a) (agent_service a) (agent_path a) m.

(** [beginUserInputInteraction] *)
Definition beginUserInputInteraction (callerPid requestId : Z) (p : FullInteraction)
  (interactionServiceAddress : string) (s : Plugin) : Result * Plugin :=
  match m_sessionAgent s with
  | None => (result_error InteractionViewError "No password agent is registered", s)
  | Some agent =>
      let '(cookie, s) := next_cookie s in
      let message := prompt_message (full_promptText p) in
      let newPassword := bool_decide (is_Some (full_promptText p !! RepeatInstruction)) in
      let s :=
        emit ((if newPassword then CreatePassword else QueryPassword) cookie message
                (dialog callerPid p)) s in
      let response :=
        mkPasswordResponse callerPid requestId p interactionServiceAddress newPassword "" in
      (result_of_code Pending,
       with_agent (Some (with_responses (<[cookie := response]> (agent_responses agent)) agent)) s)
  end.

Inductive AgentReply :=
  | AgentError (type : ErrorType) (message : string)
  | AgentPassword (password : string).     (* empty for QueryPassword *)

Definition input_completed (response : PasswordResponse) (result : Result) (password : bytes) : Event :=
  UserInputInteractionCompleted (pr_callerPid response) (pr_requestId response)
    (pr_parameters response) (pr_address response) result password.

(** The callback in [beginUserInputInteraction] *)
Definition passwordFinished (cookie : string) (reply : AgentReply) (s : Plugin) : Plugin :=
  match m_sessionAgent s with
  | None => s
  | Some agent =>
      match agent_responses agent !! cookie with
      | None => s
      | Some response =>
          let s := with_agent (Some (with_responses (delete cookie (agent_responses agent)) agent)) s in
          match reply with
          | AgentError type message =>
              let s := if bool_decide (type = NoReply) then emit (CancelPassword cookie) s else s in
              let result :=
                if bool_decide (type = Other) && isEmpty message then
                  result_error InteractionViewUserCanceledError "The user canceled the input dialog"
                else result_error InteractionViewError message in
              emit (input_completed response result (pr_password response)) s
          | AgentPassword password =>
              emit (input_completed response (result_of_code Succeeded)
                      (if pr_newPassword response then password else pr_password response)) s
          end
      end
  end.

(** ** Agents *)

(** [destroyAgent] *)
Definition destroyAgent (agent : Agent) (s : Plugin) : Plugin :=
  foldl (λ s response,
           emit (input_completed response
                   (result_error InteractionViewError "Password agent exited") "") s)
    s (map_to_list (agent_responses agent)).*2.

(** [destroyAgent(m_sessionAgent.take())] *)
Definition drop_agent (s : Plugin) : Plugin :=
  match m_sessionAgent s with
  | Some agent => destroyAgent agent (with_agent None s)
  | None => s
  end.

(** [~PasswordAgentPlugin] *)
Definition destroyPlugin (s : Plugin) : Plugin :=
  let s :=
    match m_sessionAgent s with
    | Some agent =>
        foldl (λ s cookie, emit (CancelPassword cookie) s) s (map_to_list (agent_responses agent)).*1
    | None => s
    end in
  foldl (λ s cookie, emit (CancelCheckAuthorization cookie) s) s (map_to_list (m_polkitResponses s)).*1.

(** [removeConnection], [disconnected] *)
Definition removeConnection (name : string) (s : Plugin) : Plugin :=
  match m_sessionAgent s with
  | Some agent => if bool_decide (agent_connection agent = name) then drop_agent s else s
  | None => s
  end.
Definition disconnected : string → Plugin → Plugin := removeConnection.

(** The replies to the methods for agents: an error, or nothing. *)
Definition ExistingAgent : string := "org.sailfishos.Security.Error.ExistingAgent".
Definition InvalidCookie : string := "org.sailfishos.Security.Error.InvalidCookie".
Definition AccessDenied : string := "org.freedesktop.DBus.Error.AccessDenied".

(** [RegisterSessionAgent]; who calls: the name of the connection and the service *)
Definition RegisterSessionAgent (connection service path : string) (s : Plugin)
  : option string * Plugin :=
  match m_sessionAgent s with
  | Some _ => (Some ExistingAgent, s)
  | None => (None, with_agent (Some (mkAgent connection service path ∅)) s)
  end.

(** [UnregisterSessionAgent] *)
Definition UnregisterSessionAgent (connection service path : string) (s : Plugin) : Plugin :=
  match m_sessionAgent s with
  | Some agent =>
      if bool_decide (agent_connection agent = connection) && bool_decide (agent_service agent = service)
         && bool_decide (agent_path agent = path)
      then drop_agent s else s
  | None => s
  end.

(** [ValidatePassword] *)
Definition ValidatePassword (connection service cookie password : string) (s : Plugin)
  : option string * Plugin :=
  match m_sessionAgent s with
  | None => (Some AccessDenied, s)
  | Some agent =>
      if negb (bool_decide (agent_connection agent = connection))
         || negb (bool_decide (agent_service agent = service))
      then (Some AccessDenied, s)
      else
        match agent_responses agent !! cookie with
        | Some r =>
            let r := mkPasswordResponse (pr_callerPid r) (pr_requestId r) (pr_parameters r)
                       (pr_address r) (pr_newPassword r) password in
            (None,
             with_agent (Some (with_responses (<[cookie := r]> (agent_responses agent)) agent)) s)
        | None => (Some InvalidCookie, s)
        end
  end.

(** ** All that can happen *)

(** The request that a signal of a device lock authentication announces again: one
    that is already over. *)
Definition late_answer (timer : N) (s : Plugin) : list (Z * Z) :=
  match deviceLockTimers s !! timer with
  | Some l => if dl_deleteLater l then [(dl_callerPid l, dl_requestId l)] else []
  | None => []
  end.
Definition late_timeout (timer : N) (s : Plugin) : list (Z * Z) :=
  match deviceLockTimers s !! timer with
  | Some l => if dl_running l then late_answer timer s else []
  | None => []
  end.

(** A step, with the requests that it answers once more. *)
Inductive step (equal : string → string → bool) : Plugin → list (Z * Z) → Plugin → Prop :=
  | step_polkit cookie reply s : step equal s [] (polkitFinished equal cookie reply s)
  | step_timeout timer s : step equal s (late_timeout timer s) (deviceLockTimeout timer s)
  | step_granted timer s : step equal s (late_answer timer s) (permissionGranted timer s)
  | step_aborted timer s : step equal s (late_answer timer s) (aborted timer s)
  | step_deleted timer s : step equal s [] (deferredDelete timer s)
  | step_password cookie reply s : step equal s [] (passwordFinished cookie reply s)
  | step_disconnected name s : step equal s [] (disconnected name s)
  | step_register connection service path s :
      step equal s [] (RegisterSessionAgent connection service path s).2
  | step_unregister connection service path s :
      step equal s [] (UnregisterSessionAgent connection service path s)
  | step_validate connection service cookie password s :
      step equal s [] (ValidatePassword connection service cookie password s).2.

(** The reachable states, with the caller and the request of each authentication
    and of each interaction that was begun, and of each late answer. *)
Inductive reachable (equal : string → string → bool)
  : list (Z * Z) → list (Z * Z) → list (Z * Z) → Plugin → Prop :=
  | reach_new : reachable equal [] [] [] newPlugin
  | reach_step auths inputs late again s s' :
      reachable equal auths inputs late s → step equal s again s' →
      reachable equal auths inputs (late ++ again) s'
  | reach_authentication startTime pid id promptText auths inputs late s s' r :
      reachable equal auths inputs late s →
      beginAuthentication startTime pid id promptText s = (r, s') →
      reachable equal (if bool_decide (code r = Pending) then auths ++ [(pid, id)] else auths) inputs late s'
  | reach_input pid id p address auths inputs late s s' r :
      reachable equal auths inputs late s →
      beginUserInputInteraction pid id p address s = (r, s') →
      reachable equal auths (if bool_decide (code r = Pending) then inputs ++ [(pid, id)] else inputs)
        late s'.

(** The requests that were completed, and those that wait. *)
Definition completed_auths (s : Plugin) : list (Z * Z) :=
  omap (λ e, match e with AuthenticationCompleted pid id _ => Some (pid, id) | _ => None end) (events s).
Definition completed_inputs (s : Plugin) : list (Z * Z) :=
  omap (λ e, match e with
             | UserInputInteractionCompleted pid id _ _ _ _ => Some (pid, id)
             | _ => None
             end) (events s).
Definition polkit_request (p : PolkitResponse) : Z * Z := (pk_callerPid p, pk_requestId p).
Definition password_request (r : PasswordResponse) : Z * Z := (pr_callerPid r, pr_requestId r).
Definition lock_request (l : DeviceLock) : list (Z * Z) :=
  if dl_deleteLater l then [] else [(dl_callerPid l, dl_requestId l)].
Definition pending_auths (s : Plugin) : list (Z * Z) :=
  map_values polkit_request (m_polkitResponses s) ++ concat (map_values lock_request (deviceLockTimers s)).
Definition pending_inputs (s : Plugin) : list (Z * Z) :=
  match m_sessionAgent s with
  | Some agent => map_values password_request (agent_responses agent)
  | None => []
  end.

(** ** Accounting *)

(** As long as the counter is one: each cookie is the number of a request that was
    begun. *)
Definition cookie_of (n : Z) (c : string) : Prop := ∃ m : Z, c = pretty m ∧ (m ≤ n)%Z.

Record accounted (auths inputs late : list (Z * Z)) (s : Plugin) : Prop := mk_accounted {
  ac_auths : auths ++ late ≡ₚ completed_auths s ++ pending_auths s;
  ac_inputs : inputs ≡ₚ completed_inputs s ++ pending_inputs s;
  ac_counter : cookieCounter s = Z.of_nat (length auths + length inputs);
  ac_polkit : ∀ c, is_Some (m_polkitResponses s !! c) → cookie_of (cookieCounter s) c;
  ac_agent : ∀ a c, m_sessionAgent s = Some a → is_Some (agent_responses a !! c) →
             cookie_of (cookieCounter s) c;
  ac_timers : ∀ t, is_Some (deviceLockTimers s !! t) → (t < timers s)%N;
}.

(** What is announced adds to what was completed. *)
Lemma completed_auths_emit e s :
  completed_auths (emit e s)
  = completed_auths s
    ++ match e with AuthenticationCompleted pid id _ => [(pid, id)] | _ => [] end.
Proof. unfold completed_auths. simpl. rewrite omap_app. by destruct e. Qed.

Lemma completed_inputs_emit e s :
  completed_inputs (emit e s)
  = completed_inputs s
    ++ match e with UserInputInteractionCompleted pid id _ _ _ _ => [(pid, id)] | _ => [] end.
Proof. unfold completed_inputs. simpl. rewrite omap_app. by destruct e. Qed.

Lemma fresh_cookie (n : Z) : ¬ cookie_of n (pretty (n + 1)%Z).
Proof. intros (m & Hm%(inj pretty) & Hle). lia. Qed.

Lemma cookie_of_weaken (n m : Z) c : (n ≤ m)%Z → cookie_of n c → cookie_of m c.
Proof. intros Hle (k & -> & Hk). exists k. split; [done|lia]. Qed.

Lemma next_int_small (n : nat) : (Z.of_nat n + 1 < 2 ^ 31)%Z → next_int (Z.of_nat n) = (Z.of_nat n + 1)%Z.
Proof. intros Hn. unfold next_int. rewrite Z.mod_small; lia. Qed.

(** Nothing changes but what is announced, and that is no completion. *)
Lemma accounted_emit auths inputs late e s :
  match e with
  | AuthenticationCompleted _ _ _ | UserInputInteractionCompleted _ _ _ _ _ _ => False
  | _ => True
  end → accounted auths inputs late s → accounted auths inputs late (emit e s).
Proof.
  intros He [Ha Hi Hn Hp Hg Ht].
  split; try done; [rewrite completed_auths_emit|rewrite completed_inputs_emit];
    destruct e; simpl; rewrite ?app_nil_r; done.
Qed.

(** A pending authentication is completed. *)
Lemma accounted_polkit auths inputs late cookie response r s :
  accounted auths inputs late s → m_polkitResponses s !! cookie = Some response →
  accounted auths inputs late
    (emit (AuthenticationCompleted (pk_callerPid response) (pk_requestId response) r)
       (with_polkit (delete cookie (m_polkitResponses s)) s)).
Proof.
  intros [Ha Hi Hn Hp Hg Ht] Hc. split; try done.
  - rewrite completed_auths_emit, Ha. unfold pending_auths. simpl.
    rewrite (map_values_delete _ _ _ _ Hc). by rewrite <- app_assoc.
  - by rewrite completed_inputs_emit, app_nil_r.
  - simpl. intros c [x [_ Hx]%lookup_delete_Some]. apply Hp. by exists x.
Qed.

(** The signals of a device lock authentication: the first one completes it, each
    later one is late. *)
Lemma accounted_timer auths inputs late timer l running r s :
  accounted auths inputs late s → deviceLockTimers s !! timer = Some l →
  accounted auths inputs (late ++ late_answer timer s) (deviceLockCompleted r running timer l s).
Proof.
  intros [Ha Hi Hn Hp Hg Ht] Hc. unfold late_answer. rewrite Hc. split; try done.
  - change (completed_auths (deviceLockCompleted r running timer l s))
      with (completed_auths (emit (AuthenticationCompleted (dl_callerPid l) (dl_requestId l) r) s)).
    rewrite completed_auths_emit, app_assoc, Ha. unfold pending_auths. simpl.
    rewrite (concat_values_insert lock_request _ timer l) by done.
    rewrite (concat_values_delete lock_request _ timer l Hc). generalize (concat (map_values lock_request
      (delete timer (deviceLockTimers s)))) as rest. intros rest.
    unfold lock_request. simpl. destruct (dl_deleteLater l); simpl; solve_Permutation.
  - change (completed_inputs (deviceLockCompleted r running timer l s))
      with (completed_inputs (emit (AuthenticationCompleted (dl_callerPid l) (dl_requestId l) r) s)).
    by rewrite completed_inputs_emit, app_nil_r.
  - simpl. intros t [x [[<- _]|[_ Hx]]%lookup_insert_Some]; apply Ht; by eexists.
Qed.

(** The object that is over is deleted. *)
Lemma accounted_deleted auths inputs late timer s :
  accounted auths inputs late s → accounted auths inputs late (deferredDelete timer s).
Proof.
  intros Hs. unfold deferredDelete. destruct (deviceLockTimers s !! timer) as [l|] eqn:Hc; [|done].
  destruct (dl_deleteLater l) eqn:Hl; [|done]. destruct Hs as [Ha Hi Hn Hp Hg Ht]. split; try done.
  - change (completed_auths (with_timers _ _ ?s)) with (completed_auths s). rewrite Ha.
    unfold pending_auths. simpl. rewrite (concat_values_delete lock_request _ timer l Hc).
    unfold lock_request at 1. by rewrite Hl.
  - simpl. intros t [x [_ Hx]%lookup_delete_Some]. apply Ht. by exists x.
Qed.

(** An authentication is handed on to the device lock. *)
Lemma accounted_hand_on auths inputs late cookie response s :
  accounted auths inputs late s → m_polkitResponses s !! cookie = Some response →
  accounted auths inputs late
    (startDeviceLockAuthentication (pk_callerPid response) (pk_requestId response)
       (pk_promptText response) (with_polkit (delete cookie (m_polkitResponses s)) s)).
Proof.
  intros [Ha Hi Hn Hp Hg Ht] Hc. apply accounted_emit; [done|].
  assert (Hnew : deviceLockTimers s !! timers s = None).
  { destruct (deviceLockTimers s !! timers s) eqn:E; [|done].
    assert (timers s < timers s)%N by (apply Ht; by eexists). lia. }
  split; try done; simpl.
  - rewrite Ha. unfold pending_auths. simpl. rewrite (map_values_delete _ _ _ _ Hc).
    unfold map_values at 4. rewrite map_to_list_insert by done. simpl. solve_Permutation.
  - intros c [x [_ Hx]%lookup_delete_Some]. apply Hp. by exists x.
  - intros t [x [[<- _]|[_ Hx]]%lookup_insert_Some]; [lia|].
    assert (t < timers s)%N by (apply Ht; by exists x). lia.
Qed.

(** A pending interaction is completed. *)
Lemma accounted_password auths inputs late agent cookie response r password s :
  accounted auths inputs late s → m_sessionAgent s = Some agent →
  agent_responses agent !! cookie = Some response →
  accounted auths inputs late
    (emit (input_completed response r password)
       (with_agent (Some (with_responses (delete cookie (agent_responses agent)) agent)) s)).
Proof.
  intros [Ha Hi Hn Hp Hg Ht] Hag Hc. split; try done.
  - by rewrite completed_auths_emit, app_nil_r.
  - rewrite completed_inputs_emit, Hi. unfold pending_inputs. rewrite Hag. simpl.
    rewrite (map_values_delete _ _ _ _ Hc). by rewrite <- app_assoc.
  - simpl. intros a c [= <-] [x Hx]. simpl in Hx. apply lookup_delete_Some in Hx as [_ Hx].
    apply (Hg agent); [done|]. by exists x.
Qed.

Lemma destroyed_events s l :
  let s' := foldl (λ s response,
           emit (input_completed response
                   (result_error InteractionViewError "Password agent exited") "") s) s l in
  completed_auths s' = completed_auths s
  ∧ completed_inputs s' = completed_inputs s ++ (password_request <$> l)
  ∧ m_sessionAgent s' = m_sessionAgent s ∧ m_polkitResponses s' = m_polkitResponses s
  ∧ deviceLockTimers s' = deviceLockTimers s ∧ cookieCounter s' = cookieCounter s
  ∧ timers s' = timers s.
Proof.
  revert s. induction l as [|r l IH]; intros s; simpl; [by rewrite app_nil_r|].
  destruct (IH (emit (input_completed r
    (result_error InteractionViewError "Password agent exited") "") s))
    as (-> & -> & -> & -> & -> & -> & ->).
  rewrite completed_auths_emit, completed_inputs_emit, app_nil_r. simpl. by rewrite <- app_assoc.
Qed.

Lemma accounted_drop auths inputs late s : accounted auths inputs late s → accounted auths inputs late (drop_agent s).
Proof.
  intros Hs. unfold drop_agent. destruct (m_sessionAgent s) as [agent|] eqn:Hag; [|done].
  destruct Hs as [Ha Hi Hn Hp Hg Ht].
  destruct (destroyed_events (with_agent None s) (map_to_list (agent_responses agent)).*2)
    as (Ea & Ei & Es & Ep & Et & Ec & En).
  unfold destroyAgent. split.
  - rewrite Ea. unfold pending_auths. by rewrite Ep, Et.
  - rewrite Ei. unfold pending_inputs. rewrite Es. simpl. rewrite app_nil_r.
    rewrite Hi. unfold pending_inputs. by rewrite Hag.
  - rewrite Ec. exact Hn.
  - rewrite Ep, Ec. exact Hp.
  - rewrite Es. done.
  - rewrite Et, En. exact Ht.
Qed.

Lemma accounted_same_agent auths inputs late agent m s :
  accounted auths inputs late s → m_sessionAgent s = Some agent →
  map_values password_request m ≡ₚ map_values password_request (agent_responses agent) →
  (∀ c, is_Some (m !! c) → is_Some (agent_responses agent !! c)) →
  accounted auths inputs late (with_agent (Some (with_responses m agent)) s).
Proof.
  intros [Ha Hi Hn Hp Hg Ht] Hag Hm Hdom. split; try done.
  - rewrite Hi. unfold pending_inputs. rewrite Hag. simpl. by rewrite Hm.
  - simpl. intros a c [= <-] Hc. apply (Hg agent); [done|]. by apply Hdom.
Qed.

Lemma step_accounted equal auths inputs late again s s' :
  step equal s again s' → accounted auths inputs late s → accounted auths inputs (late ++ again) s'.
Proof.
  intros Hstep Hs.
  destruct Hstep as [cookie reply s|t s|t s|t s|t s|cookie reply s|name s|conn service path s
                    |conn service path s|conn service cookie password s]; rewrite ?app_nil_r.
  - unfold polkitFinished. destruct (m_polkitResponses s !! cookie) as [response|] eqn:E; [|done].
    destruct reply as [type message|[] details].
    + case_bool_decide; [|by apply accounted_polkit].
      apply (accounted_polkit auths inputs late cookie response _ (emit (CancelCheckAuthorization cookie) s));
        [by apply accounted_emit|done].
    + by apply accounted_polkit.
    + case_match; [by apply accounted_polkit|]. case_bool_decide; [by apply accounted_polkit|].
      by apply accounted_hand_on.
  - unfold deviceLockTimeout, late_timeout. destruct (deviceLockTimers s !! t) as [l|] eqn:E;
      [|by rewrite app_nil_r]. destruct (dl_running l); [|by rewrite app_nil_r]. by apply accounted_timer.
  - unfold permissionGranted. destruct (deviceLockTimers s !! t) as [l|] eqn:E; [by apply accounted_timer|].
    unfold late_answer. by rewrite E, app_nil_r.
  - unfold aborted. destruct (deviceLockTimers s !! t) as [l|] eqn:E; [by apply accounted_timer|].
    unfold late_answer. by rewrite E, app_nil_r.
  - by apply accounted_deleted.
  - unfold passwordFinished. destruct (m_sessionAgent s) as [agent|] eqn:Hag; [|done].
    destruct (agent_responses agent !! cookie) as [response|] eqn:E; [|done].
    destruct reply as [type message|password]; [|by apply accounted_password].
    destruct (bool_decide (type = NoReply)); [|by apply accounted_password].
    apply (accounted_password auths inputs late agent cookie response _ _ (emit (CancelPassword cookie) s));
      [by apply accounted_emit|done..].
  - unfold disconnected, removeConnection. repeat case_match; try done. by apply accounted_drop.
  - unfold RegisterSessionAgent. destruct (m_sessionAgent s) as [agent|] eqn:Hag; [done|].
    destruct Hs as [Ha Hi Hn Hp Hg Ht]. split; try done.
    + rewrite Hi. unfold pending_inputs. by rewrite Hag.
    + simpl. intros a c [= <-] [x Hx]. simpl in Hx. by rewrite lookup_empty in Hx.
  - unfold UnregisterSessionAgent. repeat case_match; try done. by apply accounted_drop.
  - unfold ValidatePassword. destruct (m_sessionAgent s) as [agent|] eqn:Hag; [|done].
    case_match; [done|]. destruct (agent_responses agent !! cookie) as [r|] eqn:E; [|done].
    apply accounted_same_agent; [done|done|by apply map_values_update with r|].
    intros c [x [[<- _]|[_ Hx]]%lookup_insert_Some]; [by rewrite E|by rewrite Hx].
Qed.

(** While fewer requests than an int can count were begun, the next cookie is new. *)
Lemma begin_authentication_accounted auths inputs late startTime pid rid promptText s :
  accounted auths inputs late s → (Z.of_nat (length auths + length inputs) + 1 < 2 ^ 31)%Z →
  accounted (auths ++ [(pid, rid)]) inputs late (beginAuthentication startTime pid rid promptText s).2.
Proof.
  intros [Ha Hi Hn Hp Hg Ht] Hbound. unfold beginAuthentication. simpl.
  rewrite Hn, next_int_small, <- Hn by done.
  assert (Hnew : m_polkitResponses s !! pretty (cookieCounter s + 1)%Z = None).
  { destruct (m_polkitResponses s !! _) eqn:E; [|done].
    destruct (fresh_cookie (cookieCounter s)). apply Hp. by eexists. }
  split; simpl; try done.
  - change (completed_auths (with_polkit _ ?s)) with (completed_auths s).
    rewrite completed_auths_emit, app_nil_r. unfold pending_auths. simpl.
    rewrite (map_values_insert _ _ _ _ Hnew).
    transitivity ((pid, rid) :: auths ++ late); [solve_Permutation|]. rewrite Ha. unfold pending_auths.
    simpl. solve_Permutation.
  - change (completed_inputs (with_polkit _ ?s)) with (completed_inputs s).
    by rewrite completed_inputs_emit, app_nil_r.
  - rewrite Hn, length_app. simpl. lia.
  - intros c [x [[<- _]|[_ Hx]]%lookup_insert_Some]; [by exists (cookieCounter s + 1)%Z|].
    apply (cookie_of_weaken (cookieCounter s)); [lia|]. apply Hp. by exists x.
  - intros a c Hag Hc. apply (cookie_of_weaken (cookieCounter s)); [lia|]. by apply (Hg a).
Qed.

Lemma begin_input_accounted auths inputs late pid rid p address agent s :
  accounted auths inputs late s → m_sessionAgent s = Some agent →
  (Z.of_nat (length auths + length inputs) + 1 < 2 ^ 31)%Z →
  accounted auths (inputs ++ [(pid, rid)]) late (beginUserInputInteraction pid rid p address s).2.
Proof.
  intros [Ha Hi Hn Hp Hg Ht] Hag Hbound. unfold beginUserInputInteraction. rewrite Hag. simpl.
  rewrite Hn, next_int_small, <- Hn by done.
  assert (Hnew : agent_responses agent !! pretty (cookieCounter s + 1)%Z = None).
  { destruct (agent_responses agent !! _) eqn:E; [|done].
    destruct (fresh_cookie (cookieCounter s)). apply (Hg agent); [done|]. by eexists. }
  split; simpl; try done.
  - change (completed_auths (with_agent _ ?s)) with (completed_auths s).
    rewrite completed_auths_emit. destruct (bool_decide _); by rewrite app_nil_r.
  - change (completed_inputs (with_agent _ ?s)) with (completed_inputs s).
    rewrite completed_inputs_emit. unfold pending_inputs. simpl.
    rewrite (map_values_insert _ _ _ _ Hnew), Hi. unfold pending_inputs. rewrite Hag.
    rewrite <- app_assoc. destruct (bool_decide _); rewrite app_nil_r; apply Permutation_app_head;
      by rewrite Permutation_app_comm.
  - rewrite Hn, length_app. simpl. lia.
  - intros c Hc. apply (cookie_of_weaken (cookieCounter s)); [lia|]. by apply Hp.
  - intros a c [= <-] [x Hx]. simpl in Hx.
    apply lookup_insert_Some in Hx as [[<- _]|[_ Hx]]; [by exists (cookieCounter s + 1)%Z|].
    apply (cookie_of_weaken (cookieCounter s)); [lia|]. apply (Hg agent); [done|]. by exists x.
Qed.

Lemma reachable_accounted equal auths inputs late s :
  reachable equal auths inputs late s → (Z.of_nat (length auths + length inputs) < 2 ^ 31)%Z →
  accounted auths inputs late s.
Proof.
  induction 1 as [|auths inputs late again s s' _ IH Hstep
                 |startTime pid rid promptText auths inputs late s s' r _ IH Hb
                 |pid rid p address auths inputs late s s' r _ IH Hb]; intros Hbound.
  - split; try done; simpl; intros c [x Hx]; by rewrite lookup_empty in Hx.
  - by apply (step_accounted equal auths inputs late again s); [|apply IH].
  - assert (r = result_of_code Pending) as ->
      by (change (result_of_code Pending) with (beginAuthentication startTime pid rid promptText s).1;
          by rewrite Hb).
    simpl in *. rewrite length_app in Hbound. simpl in Hbound.
    replace s' with (beginAuthentication startTime pid rid promptText s).2 by (by rewrite Hb).
    apply begin_authentication_accounted; [apply IH|]; lia.
  - destruct (m_sessionAgent s) as [agent|] eqn:Hag.
    + assert (r = result_of_code Pending) as ->
        by (unfold beginUserInputInteraction in Hb; rewrite Hag in Hb; simpl in Hb; by inversion Hb).
      simpl in *. rewrite length_app in Hbound. simpl in Hbound.
      replace s' with (beginUserInputInteraction pid rid p address s).2 by (by rewrite Hb).
      apply begin_input_accounted with agent; [apply IH|done|]; lia.
    + unfold beginUserInputInteraction in Hb. rewrite Hag in Hb. simplify_eq. by apply IH.
Qed.

(** ** Properties *)

(** A dialog, and a plugin with an agent that shows it *)
Definition example_interaction : FullInteraction :=
  mkFullInteraction (mkInteraction "pin" "bank" "" "app" RequestUserData "agent" 0)
    {[MessagePrompt := "The PIN"]} PasswordEcho.
Definition example_registered : Plugin := (RegisterSessionAgent ":1.7" "agent" "/agent" newPlugin).2.
Definition example_begun : Plugin :=
  (beginUserInputInteraction 42 7 example_interaction "" example_registered).2.
Definition example_agent : Agent := default (mkAgent "" "" "" ∅) (m_sessionAgent example_begun).

(** An authentication for which polkit has no agent, two signals of the device lock
    before its timer is deleted, and a password. *)
Definition example_device_lock : Plugin :=
  polkitFinished String.eqb "2" (PolkitResult false ∅) (beginAuthentication 0 43 8 ∅ example_begun).2.
Definition example_answered : Plugin :=
  deferredDelete 0 (aborted 0 (permissionGranted 0 example_device_lock)).
Definition example_finished : Plugin :=
  passwordFinished "1" (AgentPassword "") (ValidatePassword ":1.7" "agent" "1" "4711" example_answered).2.

Lemma example_device_lock_reachable :
  reachable String.eqb [(43, 8)%Z] [(42, 7)%Z] [] example_device_lock.
Proof.
  apply (reach_step String.eqb [(43, 8)%Z] [(42, 7)%Z] [] []
    (beginAuthentication 0 43 8 ∅ example_begun).2); [|constructor].
  apply (reach_authentication String.eqb 0 43 8 ∅ [] [(42, 7)%Z] [] example_begun _
    (result_of_code Pending)); [|by vm_compute].
  apply (reach_input String.eqb 42 7 example_interaction "" [] [] [] example_registered example_begun
    (result_of_code Pending)); [|by vm_compute].
  apply (reach_step String.eqb [] [] [] [] newPlugin); constructor.
Qed.

Lemma example_reachable :
  reachable String.eqb [(43, 8)%Z] [(42, 7)%Z] [(43, 8)%Z] example_finished.
Proof.
  apply (reach_step String.eqb _ _ [(43, 8)%Z] []
    (ValidatePassword ":1.7" "agent" "1" "4711" example_answered).2); [|constructor].
  apply (reach_step String.eqb _ _ [(43, 8)%Z] [] example_answered); [|constructor].
  apply (reach_step String.eqb _ _ [(43, 8)%Z] [] (aborted 0 (permissionGranted 0 example_device_lock)));
    [|constructor].
  apply (reach_step String.eqb _ _ [] [(43, 8)%Z] (permissionGranted 0 example_device_lock));
    [|exact (step_aborted String.eqb 0 (permissionGranted 0 example_device_lock))].
  apply (reach_step String.eqb _ _ [] [] example_device_lock);
    [exact example_device_lock_reachable|exact (step_granted String.eqb 0 example_device_lock)].
Qed.

(** C30: Each authentication and each password interaction that the plugin has begun
    is answered or still pending, whatever polkit, the device lock, the timers, the
    registered agent and other processes do and in whatever order, as long as fewer
    than 2^31 requests were begun, which is when the int of the cookies overflows.
    Interactions are answered exactly once: those begun are, up to order, the
    completed ones and those that wait.  Authentications are so too but for the late
    answers: the signals of a device lock authentication that come after its first
    answer and before the event loop deletes its timer, each of which announces the
    same request once more.  No answer is given to a request nobody made. *)
Theorem agent_requests_accounted equal auths inputs late s :
  reachable equal auths inputs late s → (Z.of_nat (length auths + length inputs) < 2 ^ 31)%Z →
  auths ++ late ≡ₚ completed_auths s ++ pending_auths s
  ∧ inputs ≡ₚ completed_inputs s ++ pending_inputs s.
Proof. intros Hr Hb. destruct (reachable_accounted equal auths inputs late s Hr Hb). done. Qed.

Lemma agent_requests_accounted_witness :
  completed_inputs example_finished = [(42, 7)%Z] ∧ pending_inputs example_finished = []
  ∧ completed_auths example_finished = [(43, 8)%Z; (43, 8)%Z] ∧ pending_auths example_finished = []
  ∧ [(43, 8)%Z] ++ [(43, 8)%Z] ≡ₚ completed_auths example_finished ++ pending_auths example_finished.
Proof.
  split; [vm_compute; reflexivity|]. split; [vm_compute; reflexivity|].
  split; [vm_compute; reflexivity|]. split; [vm_compute; reflexivity|].
  exact (proj1 (agent_requests_accounted String.eqb [(43, 8)%Z] [(42, 7)%Z] [(43, 8)%Z] example_finished
    example_reachable eq_refl)).
Defined.

(** The device lock that grants permission and reports an abort before the timer is
    deleted answers one authentication twice, with success and with an error. *)
Theorem device_lock_answers_twice :
  events example_answered
  = events example_device_lock
    ++ [AuthenticationCompleted 43 8 (result_of_code Succeeded);
        AuthenticationCompleted 43 8
          (result_error InteractionViewUserCanceledError "The user canceled the authentication dialog")].
Proof. vm_compute. reflexivity. Qed.

(** While an agent is registered, no other connection can take its place, remove
    it, or set a password: what it calls changes nothing and, where the method has
    an error, is answered with one. *)
Theorem others_cannot_interfere agent s connection service path cookie password :
  m_sessionAgent s = Some agent → agent_connection agent ≠ connection →
  RegisterSessionAgent connection service path s = (Some ExistingAgent, s)
  ∧ UnregisterSessionAgent connection service path s = s
  ∧ ValidatePassword connection service cookie password s = (Some AccessDenied, s)
  ∧ disconnected connection s = s.
Proof.
  intros Hag Hne. unfold RegisterSessionAgent, UnregisterSessionAgent, ValidatePassword, disconnected,
    removeConnection. rewrite Hag. by rewrite (bool_decide_eq_false_2 _ Hne).
Qed.

Lemma others_cannot_interfere_witness :
  ValidatePassword ":1.8" "agent" "1" "0000" example_begun = (Some AccessDenied, example_begun).
Proof.
  exact (proj1 (proj2 (proj2 (others_cannot_interfere example_agent example_begun ":1.8" "agent" "/agent"
    "1" "0000" eq_refl ltac:(vm_compute; discriminate))))).
Defined.

(** When the connection of the agent ends, every interaction that waits for it is
    answered: with an error and without a password; nothing waits any more and a
    new agent can register. *)
Theorem agent_exit_answers agent s :
  m_sessionAgent s = Some agent →
  let s' := disconnected (agent_connection agent) s in
  events s' = events s ++ ((λ r, input_completed r
                (result_error InteractionViewError "Password agent exited") "")
              <$> (map_to_list (agent_responses agent)).*2)
  ∧ pending_inputs s' = []
  ∧ ∀ connection service path, (RegisterSessionAgent connection service path s').1 = None.
Proof.
  intros Hag. unfold disconnected, removeConnection, drop_agent. rewrite Hag.
  rewrite bool_decide_eq_true_2 by done. simpl. unfold destroyAgent.
  destruct (destroyed_events (with_agent None s) (map_to_list (agent_responses agent)).*2)
    as (_ & _ & Es & _). split.
  - clear. change (events s) with (events (with_agent None s)). generalize (with_agent None s).
    induction (map_to_list (agent_responses agent)).*2 as [|r l IH]; intros t; simpl;
      [by rewrite app_nil_r|]. rewrite IH. simpl. by rewrite <- app_assoc.
  - unfold pending_inputs, RegisterSessionAgent. rewrite Es. done.
Qed.

Lemma agent_exit_answers_witness :
  let s' := disconnected ":1.7" example_begun in
  pending_inputs example_begun = [(42, 7)%Z] ∧ pending_inputs s' = [].
Proof.
  split; [vm_compute; reflexivity|].
  exact (proj1 (proj2 (agent_exit_answers example_agent example_begun eq_refl))).
Defined.

(** An agent that ends QueryPassword without having called ValidatePassword, and
    replies without an error, makes the interaction succeed with the empty password. *)
Theorem unvalidated_password_is_empty agent s pid rid p address reply :
  m_sessionAgent s = Some agent → full_promptText p !! RepeatInstruction = None →
  let s' := (beginUserInputInteraction pid rid p address s).2 in
  let cookie := (next_cookie s).1 in
  events (passwordFinished cookie (AgentPassword reply) s')
  = events s' ++ [UserInputInteractionCompleted pid rid p address (result_of_code Succeeded) ""].
Proof.
  intros Hag Hp. unfold beginUserInputInteraction. rewrite Hag, Hp. simpl.
  unfold passwordFinished. simpl. by rewrite lookup_insert_eq.
Qed.

Lemma unvalidated_password_is_empty_witness :
  events (passwordFinished "1" (AgentPassword "typed, but not validated") example_begun)
  = events example_begun
    ++ [UserInputInteractionCompleted 42 7 example_interaction "" (result_of_code Succeeded) ""].
Proof.
  exact (unvalidated_password_is_empty (mkAgent ":1.7" "agent" "/agent" ∅) example_registered 42 7
    example_interaction "" "typed, but not validated" eq_refl eq_refl).
Defined.

End PasswordAgent.
