(* ===== verification/InAppInteraction.v ===== *)
(** User interaction inside the application that asks: the plugin
    plugins/inappauthplugin with lib/Secrets/interactionrequestwatcher.cpp in the
    daemon, the service and the view of lib/Secrets/interactionservice.cpp in the
    application, and what the two make of each other's messages; and what the daemon
    thinks of a process, daemon/SecretsImpl/applicationpermissions.cpp.

    Objects that QtDBus holds a call for are in a store, so that a signal of one that
    is no longer known to the plugin is still delivered; an object that was deleted
    emits nothing.  The branches of the plugin for unit tests are left out, and what
    is only logged. *)
From S2P Require Import Prelude Result PluginApi PluginFunctionWrappers Processor.
From S2P Require Import SecretsService SecretsClient Marshalling AuthPlugins.
From stdpp Require Import pretty.

Definition InteractionServiceRequestInvalidError : ErrorCode := 82.
Definition InteractionServiceRequestBusyError : ErrorCode := 84.
Definition InteractionViewUnavailableError : ErrorCode := 90.

(** [quint64], [qint64] and [pid_t] of a number *)
Definition to_quint64 (z : Z) : Z := z mod 2 ^ 64.
Definition to_qint64 (z : Z) : Z := (z + 2 ^ 63) mod 2 ^ 64 - 2 ^ 63.
Definition to_int (z : Z) : Z := (z + 2 ^ 31) mod 2 ^ 32 - 2 ^ 31.
Definition to_uint (z : Z) : Z := z mod 2 ^ 32.

Lemma qint64_quint64 z : (- 2 ^ 63 ≤ z < 2 ^ 63)%Z → to_qint64 (to_quint64 z) = z.
Proof.
  intros Hz. unfold to_qint64, to_quint64. rewrite Zplus_mod_idemp_l.
  rewrite Z.mod_small by lia. lia.
Qed.

Lemma uint_int z : (0 ≤ z < 2 ^ 32)%Z → to_uint (to_int z) = z.
Proof.
  intros Hz. unfold to_uint, to_int. rewrite Zminus_mod_idemp_l.
  replace (z + 2 ^ 31 - 2 ^ 31)%Z with z by lia. by apply Z.mod_small.
Qed.

Lemma quint64_inj a b :
  (- 2 ^ 63 ≤ a < 2 ^ 63)%Z → (- 2 ^ 63 ≤ b < 2 ^ 63)%Z → to_quint64 a = to_quint64 b → a = b.
Proof. intros Ha Hb Heq. rewrite <- (qint64_quint64 a), <- (qint64_quint64 b) by done. by rewrite Heq. Qed.

(** [InteractionResponse]: the result and the data *)
Definition InteractionResponse : Type := Result * bytes.
Definition newResponse : InteractionResponse := (result_of_code Succeeded, "").
Definition setResult (r : Result) (response : InteractionResponse) : InteractionResponse :=
  (r, response.2).

(** * In the daemon: watcher and plugin *)

Module InApp.

(** The method that was called last and has not been answered *)
Inductive Call :=
  | PerformInteractionRequest (parameters : FullInteraction)
  | ContinueInteractionRequest (uiRequestId : string) (parameters : FullInteraction)
  | CancelInteractionRequest (uiRequestId : string)
  | FinishInteractionRequest (uiRequestId : string).

(** [InteractionRequestWatcherPrivate]; [m_watcher]: there is a watcher;
    [outstanding]: the call it waits for *)
Record Watcher := mkWatcher {
  m_watcher : bool;
  outstanding : option Call;
  m_connection : option string;
  m_requestId : Z;
  m_callerPid : Z;
  m_request : FullInteraction;
  m_interactionServiceAddress : string;
  m_uiRequestId : string;
}.

(** The new object with the four setters *)
Definition newWatcher (requestId callerPid : Z) (parameters : FullInteraction) (address : string)
  : Watcher :=
  mkWatcher false None None (to_quint64 requestId) (to_int callerPid) parameters address "".

Definition with_connection (c : option string) (w : Watcher) : Watcher :=
  mkWatcher (m_watcher w) (outstanding w) c (m_requestId w) (m_callerPid w) (m_request w)
    (m_interactionServiceAddress w) (m_uiRequestId w).
Definition with_call (c : Call) (w : Watcher) : Watcher :=
  mkWatcher true (Some c) (m_connection w) (m_requestId w) (m_callerPid w) (m_request w)
    (m_interactionServiceAddress w) (m_uiRequestId w).
Definition answered (w : Watcher) : Watcher :=
  mkWatcher (m_watcher w) None (m_connection w) (m_requestId w) (m_callerPid w) (m_request w)
    (m_interactionServiceAddress w) (m_uiRequestId w).
Definition with_uiRequestId (u : string) (w : Watcher) : Watcher :=
  mkWatcher (m_watcher w) (outstanding w) (m_connection w) (m_requestId w) (m_callerPid w)
    (m_request w) (m_interactionServiceAddress w) u.

(** [connectToInteractionService]; [up]: there is somebody at the address *)
Definition connectToInteractionService (up : bool) (w : Watcher) : bool * Watcher :=
  if negb up then (false, w)
  else (true, with_connection
                (Some ("sailfishsecretsd-ui-connection-" +:+ pretty (m_requestId w))) w).

(** [sendInteractionRequest] *)
Definition sendInteractionRequest (w : Watcher) : bool * Watcher :=
  if m_watcher w then (false, w)
  else (true, with_call (PerformInteractionRequest (m_request w)) w).

(** [if (!m_data->m_watcher || m_data->m_uiRequestId.isEmpty())] and the call *)
Definition call_service (c : string → Call) (w : Watcher) : bool * Watcher :=
  if negb (m_watcher w) || isEmpty (m_uiRequestId w) then (false, w)
  else (true, with_call (c (m_uiRequestId w)) w).

Definition continueInteractionRequest (request : FullInteraction) : Watcher → bool * Watcher :=
  call_service (λ u, ContinueInteractionRequest u request).
Definition cancelInteractionRequest : Watcher → bool * Watcher :=
  call_service CancelInteractionRequest.
Definition finishInteractionRequest : Watcher → bool * Watcher :=
  call_service FinishInteractionRequest.

(** [disconnectFromInteractionService] *)
Definition disconnectFromInteractionService (w : Watcher) : Watcher := with_connection None w.

(** A reply that is valid, or the message of the error, if it is one *)
Inductive Reply (A : Type) := Valid (a : A) | Invalid (error : option string).
Arguments Valid {A} _.
Arguments Invalid {A} _.

Definition invalid_response (error : option string) (message : string) : InteractionResponse :=
  setResult (result_error InteractionServiceResponseInvalidError (default message error)) newResponse.

(** [interactionRequestFinished()] of the watcher, up to the signal *)
Definition request_response (reply : Reply (InteractionResponse * string)) (w : Watcher)
  : InteractionResponse * Watcher :=
  match reply with
  | Valid (response, uiRequestId) => (response, with_uiRequestId uiRequestId w)
  | Invalid error => (invalid_response error "Invalid response to Ui request", w)
  end.

(** [interactionContinuationRequestFinished], up to the signal *)
Definition continuation_response (reply : Reply InteractionResponse) : InteractionResponse :=
  match reply with
  | Valid response => response
  | Invalid error => invalid_response error "Invalid response to Ui continuation request"
  end.

(** The plugin; [watchers]: all watchers that exist, [m_requests]: pointers *)
Record Event := Completed {
  ev_callerPid : Z;
  ev_requestId : Z;
  ev_parameters : FullInteraction;
  ev_address : string;
  ev_result : Result;
  ev_data : bytes;
}.

Record Plugin := mkPlugin {
  watchers : gmap N Watcher;
  next_watcher : N;
  m_requests : gmap Z N;
  m_responses : gmap Z InteractionResponse;
  events : list Event;
}.

Definition newPlugin : Plugin := mkPlugin ∅ 0 ∅ ∅ [].

Definition with_watchers (ws : gmap N Watcher) (s : Plugin) : Plugin :=
  mkPlugin ws (next_watcher s) (m_requests s) (m_responses s) (events s).
Definition with_requests (m : gmap Z N) (s : Plugin) : Plugin :=
  mkPlugin (watchers s) (next_watcher s) m (m_responses s) (events s).
Definition with_responses (m : gmap Z InteractionResponse) (s : Plugin) : Plugin :=
  mkPlugin (watchers s) (next_watcher s) (m_requests s) m (events s).
Definition emit (e : Event) (s : Plugin) : Plugin :=
  mkPlugin (watchers s) (next_watcher s) (m_requests s) (m_responses s) (events s ++ [e]).

(** [beginAuthentication] *)
Definition beginAuthentication (callerPid requestId : Z) (promptText : gmap Z string) : Result :=
  result_error OperationRequiresSystemUserInteraction
    "In-App plugin cannot properly authenticate the user".

(** [new InteractionRequestWatcher]: the pointer, and the store with the object *)
Definition alloc (w : Watcher) (s : Plugin) : N * Plugin :=
  (next_watcher s,
   mkPlugin (<[next_watcher s := w]> (watchers s)) (N.succ (next_watcher s)) (m_requests s)
     (m_responses s) (events s)).
Definition set_watcher (o : N) (w : Watcher) (s : Plugin) : Plugin :=
  with_watchers (<[o := w]> (watchers s)) s.
Definition deleteLater (o : N) (s : Plugin) : Plugin := with_watchers (delete o (watchers s)) s.

(** [beginUserInputInteraction] *)
Definition beginUserInputInteraction (up : bool) (callerPid requestId : Z) (p : FullInteraction)
  (interactionServiceAddress : string) (s : Plugin) : Result * Plugin :=
  if isEmpty interactionServiceAddress then
    (result_error InteractionServiceUnknownError
       "Invalid interaction service address for in-app authentication", s)
  else
    let w := newWatcher requestId callerPid p interactionServiceAddress in
    let '(watcher, s) := alloc w s in
    let '(connected, w) := connectToInteractionService up w in
    let s := set_watcher watcher w s in
    if negb connected then
      (result_error InteractionServiceUnavailableError "Unable to connect to ui service",
       deleteLater watcher s)
    else
      let '(sent, w) := sendInteractionRequest w in
      let s := set_watcher watcher w s in
      if negb sent then
        (result_error InteractionServiceRequestFailedError
           "Unable to send interaction request to ui service", deleteLater watcher s)
      else
        (result_of_code Pending,
         with_requests (<[to_quint64 requestId := watcher]> (m_requests s)) s).

(** [interactionRequestResponse] of the plugin *)
Definition interactionRequestResponse (requestId : Z) (response : InteractionResponse) (s : Plugin)
  : Plugin :=
  match m_requests s !! requestId with
  | None => s
  | Some watcher =>
      let s := with_responses (<[requestId := response]> (m_responses s)) s in
      match watchers s !! watcher with
      | Some w => set_watcher watcher (finishInteractionRequest w).2 s
      | None => s
      end
  end.

(** [interactionRequestFinished(quint64)] of the plugin *)
Definition interactionRequestFinished (requestId : Z) (s : Plugin) : Plugin :=
  match m_requests s !! requestId with
  | None => s
  | Some watcher =>
      let s := with_requests (delete requestId (m_requests s)) s in
      match watchers s !! watcher with
      | None => s
      | Some w =>
          let s := deleteLater watcher (set_watcher watcher (disconnectFromInteractionService w) s) in
          let response := default newResponse (m_responses s !! requestId) in
          let s := with_responses (delete requestId (m_responses s)) s in
          emit (Completed (to_uint (m_callerPid w)) (to_qint64 (m_requestId w)) (m_request w)
                  (m_interactionServiceAddress w) response.1 response.2) s
      end
  end.

(** The slots of the watchers, for the watcher at [o]: what it was waiting for is
    answered, and its signal reaches the plugin. *)
Definition performFinished (o : N) (reply : Reply (InteractionResponse * string)) (s : Plugin) : Plugin :=
  match watchers s !! o with
  | Some w =>
      let '(response, w) := request_response reply (answered w) in
      interactionRequestResponse (m_requestId w) response (set_watcher o w s)
  | None => s
  end.
Definition interactionContinuationRequestFinished (o : N) (reply : Reply InteractionResponse)
  (s : Plugin) : Plugin :=
  match watchers s !! o with
  | Some w =>
      interactionRequestResponse (m_requestId w) (continuation_response reply)
        (set_watcher o (answered w) s)
  | None => s
  end.
Definition interactionCancelFinished (o : N) (reply : Reply Result) (s : Plugin) : Plugin :=
  match watchers s !! o with
  | Some w => interactionRequestFinished (m_requestId w) (set_watcher o (answered w) s)
  | None => s
  end.
Definition interactionFinishFinished : N → Reply Result → Plugin → Plugin := interactionCancelFinished.

(** ** All that can happen *)

Definition is_qint64 (z : Z) : Prop := (- 2 ^ 63 ≤ z < 2 ^ 63)%Z.

(** One event of the plugin; new requests have numbers in [allowed]. *)
Inductive step (allowed : Z → Prop) : Plugin → Plugin → Prop :=
  | step_begin up callerPid requestId p address s :
      is_qint64 requestId → allowed requestId →
      step allowed s (beginUserInputInteraction up callerPid requestId p address s).2
  | step_perform o w p reply s :
      watchers s !! o = Some w → outstanding w = Some (PerformInteractionRequest p) →
      step allowed s (performFinished o reply s)
  | step_continue o w u p reply s :
      watchers s !! o = Some w → outstanding w = Some (ContinueInteractionRequest u p) →
      step allowed s (interactionContinuationRequestFinished o reply s)
  | step_cancel o w u reply s :
      watchers s !! o = Some w → outstanding w = Some (CancelInteractionRequest u) →
      step allowed s (interactionCancelFinished o reply s)
  | step_finish o w u reply s :
      watchers s !! o = Some w → outstanding w = Some (FinishInteractionRequest u) →
      step allowed s (interactionFinishFinished o reply s).

Definition reachable : Plugin → Prop := rtc (step (λ _, True)) newPlugin.

(** The answers to a request *)
Definition answers (requestId : Z) (s : Plugin) : list Event :=
  filter (λ e, ev_requestId e = requestId) (events s).

Record wf (s : Plugin) : Prop := mk_wf {
  wf_fresh : ∀ o w, watchers s !! o = Some w → (o < next_watcher s)%N;
  wf_ids : ∀ o w, watchers s !! o = Some w → ∃ z, is_qint64 z ∧ m_requestId w = to_quint64 z;
  wf_pointers : ∀ k o, m_requests s !! k = Some o →
    (o < next_watcher s)%N ∧ ∀ w, watchers s !! o = Some w → m_requestId w = k;
}.

(** A request that waits for an answer which cannot come: its watcher, the only one
    with its number, waits for nothing. *)
Record unanswered (requestId : Z) (o : N) (s : Plugin) : Prop := mk_unanswered {
  un_wf : wf s;
  un_watcher : ∃ w, watchers s !! o = Some w ∧ outstanding w = None;
  un_request : m_requests s !! to_quint64 requestId = Some o;
  un_only : ∀ o' w, watchers s !! o' = Some w → m_requestId w = to_quint64 requestId → o' = o;
}.

Lemma wf_responses s m : wf s → wf (with_responses m s).
Proof. by intros [Hf Hi Hp]. Qed.

Lemma wf_emit s e : wf s → wf (emit e s).
Proof. by intros [Hf Hi Hp]. Qed.

Lemma wf_take s k : wf s → wf (with_requests (delete k (m_requests s)) s).
Proof. intros [Hf Hi Hp]. split; [done|done|]. simpl. intros k' o [_ Ho]%lookup_delete_Some. by apply Hp. Qed.

Lemma watcher_set_wf s o w w' :
  watchers s !! o = Some w → m_requestId w' = m_requestId w → wf s → wf (set_watcher o w' s).
Proof.
  intros Ho Hid [Hf Hi Hp]. split; simpl.
  - intros o' x [[<- <-]|[_ Hx]]%lookup_insert_Some; by eauto.
  - intros o' x [[<- <-]|[_ Hx]]%lookup_insert_Some; [|by eauto]. rewrite Hid. by eapply Hi.
  - intros k o' Hk. destruct (Hp k o' Hk) as [Hlt Hw]. split; [done|].
    intros x [[<- <-]|[_ Hx]]%lookup_insert_Some; [|by eauto]. rewrite Hid. by apply Hw.
Qed.

Lemma watcher_delete_wf s o : wf s → wf (deleteLater o s).
Proof.
  intros [Hf Hi Hp]. split; simpl; [intros o' x [_ Hx]%lookup_delete_Some; by eauto..|].
  intros k o' Hk. destruct (Hp k o' Hk) as [Hlt Hw]. split; [done|].
  intros x [_ Hx]%lookup_delete_Some. by apply Hw.
Qed.

Lemma request_id_calls w :
  m_requestId (finishInteractionRequest w).2 = m_requestId w ∧ m_requestId (answered w) = m_requestId w.
Proof. unfold finishInteractionRequest, call_service. by case_match. Qed.

(** The two signals of a watcher. *)
Lemma response_wf id response s : wf s → wf (interactionRequestResponse id response s).
Proof.
  intros Hs. unfold interactionRequestResponse. case_match; [|done]. simpl.
  apply (wf_responses _ (<[id := response]> (m_responses s))) in Hs.
  destruct (watchers s !! _) as [w|] eqn:Hw; [|done].
  eapply watcher_set_wf; [exact Hw|apply request_id_calls|done].
Qed.

Lemma finished_wf id s : wf s → wf (interactionRequestFinished id s).
Proof.
  intros Hs. unfold interactionRequestFinished. case_match; [|done]. simpl.
  apply (wf_take _ id) in Hs. destruct (watchers s !! _) as [w|] eqn:Hw; [|done].
  apply wf_emit, wf_responses, watcher_delete_wf. by eapply watcher_set_wf.
Qed.

Lemma finished_request_id reply w :
  m_requestId (request_response reply (answered w)).2 = m_requestId w.
Proof. by destruct reply as [[]|]. Qed.

(** The watcher of a request that was sent *)
Definition begun (callerPid requestId : Z) (p : FullInteraction) (address : string) : Watcher :=
  mkWatcher true (Some (PerformInteractionRequest p))
    (Some ("sailfishsecretsd-ui-connection-" +:+ pretty (to_quint64 requestId)))
    (to_quint64 requestId) (to_int callerPid) p address "".

Lemma begin_cases up callerPid requestId p address s :
  let b := beginUserInputInteraction up callerPid requestId p address s in
  let n := next_watcher s in
  m_responses b.2 = m_responses s ∧ events b.2 = events s
  ∧ ((b.1 ≠ result_of_code Pending ∧ m_requests b.2 = m_requests s
      ∧ ((watchers b.2 = watchers s ∧ next_watcher b.2 = n)
         ∨ (watchers b.2 = delete n (watchers s) ∧ next_watcher b.2 = N.succ n)))
     ∨ (b.1 = result_of_code Pending ∧ next_watcher b.2 = N.succ n
        ∧ watchers b.2 = <[n := begun callerPid requestId p address]> (watchers s)
        ∧ m_requests b.2 = <[to_quint64 requestId := n]> (m_requests s))).
Proof.
  unfold beginUserInputInteraction. simpl. case_match; [simpl; by auto 10|].
  destruct up; simpl; (split; [done|split; [done|]]).
  - right. by rewrite !insert_insert_eq.
  - left. split_and!; [done|done|]. right. by rewrite !insert_insert_eq, delete_insert_eq.
Qed.

Lemma begin_wf up callerPid requestId p address s :
  is_qint64 requestId → wf s → wf (beginUserInputInteraction up callerPid requestId p address s).2.
Proof.
  intros Hid Hs.
  destruct (begin_cases up callerPid requestId p address s)
    as (_ & _ & [(_ & Hr & [[Hw Hn]|[Hw Hn]])|(_ & Hn & Hw & Hr)]).
  - destruct Hs. split; by rewrite ?Hr, ?Hw, ?Hn.
  - apply (watcher_delete_wf s (next_watcher s)) in Hs as [Hf Hi Hp]. simpl in *.
    split; rewrite ?Hr, ?Hw, ?Hn; [|done|].
    + intros o w ?%Hf. lia.
    + intros k o [Hlt Ho]%Hp. split; [lia|done].
  - destruct Hs as [Hf Hi Hp]. split; rewrite ?Hr, ?Hw, ?Hn.
    + intros o w [[<- <-]|[_ ?%Hf]]%lookup_insert_Some; lia.
    + intros o w [[<- <-]|[_ ?%Hi]]%lookup_insert_Some; [by exists requestId|done].
    + intros k o [[<- <-]|[Hk [Hlt Ho]%Hp]]%lookup_insert_Some.
      * split; [lia|]. intros w. rewrite lookup_insert_eq. by intros [= <-].
      * split; [lia|]. intros w. rewrite lookup_insert_ne by lia. apply Ho.
Qed.

Lemma step_wf allowed s s' : step allowed s s' → wf s → wf s'.
Proof.
  intros Hstep Hs. destruct Hstep as [|o w p reply s Ho|o w u p reply s Ho|o w u reply s Ho
                                     |o w u reply s Ho]; [by apply begin_wf|..].
  - unfold performFinished. rewrite Ho. destruct (request_response _ _) as [r w'] eqn:E.
    apply response_wf. eapply watcher_set_wf; [done| |done].
    change w' with (r, w').2. rewrite <- E. apply finished_request_id.
  - unfold interactionContinuationRequestFinished. rewrite Ho. apply response_wf. by eapply watcher_set_wf.
  - unfold interactionCancelFinished. rewrite Ho. apply finished_wf. by eapply watcher_set_wf.
  - unfold interactionFinishFinished, interactionCancelFinished. rewrite Ho. apply finished_wf.
    by eapply watcher_set_wf.
Qed.

Lemma reachable_wf s : reachable s → wf s.
Proof.
  intros Hs. assert (Hnew : wf newPlugin) by (split; simpl; intros o w Ho; by rewrite lookup_empty in Ho).
  unfold reachable in Hs. revert Hnew. induction Hs as [|s1 s2 s3 Hstep _ IH]; [done|].
  intros H1. apply IH. by eapply step_wf.
Qed.

(** ** Requests that are never answered *)

Lemma unanswered_set requestId o o' w w' s :
  watchers s !! o' = Some w → o' ≠ o → m_requestId w' = m_requestId w →
  unanswered requestId o s → unanswered requestId o (set_watcher o' w' s).
Proof.
  intros Ho' Hne Hid [Hwf [v [Hv Hout]] Hreq Honly]. split; [by eapply watcher_set_wf| |done|].
  - exists v. split; [|done]. simpl. by rewrite lookup_insert_ne.
  - simpl. intros o2 x [[<- <-]|[_ Hx]]%lookup_insert_Some Hx2; [|by eapply Honly].
    eapply Honly; [exact Ho'|congruence].
Qed.

(** A signal with another number does nothing to it. *)
Lemma unanswered_response requestId o id response s :
  id ≠ to_quint64 requestId → unanswered requestId o s →
  unanswered requestId o (interactionRequestResponse id response s)
  ∧ events (interactionRequestResponse id response s) = events s.
Proof.
  intros Hid Hs. unfold interactionRequestResponse.
  destruct (m_requests s !! id) as [o'|] eqn:E; [|done]. simpl.
  assert (Hs' : unanswered requestId o (with_responses (<[id := response]> (m_responses s)) s)).
  { destruct Hs as [Hwf Hw Hreq Honly]. split; try done. by apply wf_responses. }
  destruct (watchers s !! o') as [w|] eqn:Hw; [|done]. split; [|done].
  eapply unanswered_set; [exact Hw| |apply request_id_calls|done].
  intros ->. destruct Hs as [Hwf _ Hreq _].
  apply (wf_pointers _ Hwf) in E as [_ E%(λ H, H w Hw)].
  apply (wf_pointers _ Hwf) in Hreq as [_ Hreq%(λ H, H w Hw)]. congruence.
Qed.

Lemma unanswered_finished requestId o id s :
  is_qint64 requestId → id ≠ to_quint64 requestId → unanswered requestId o s →
  unanswered requestId o (interactionRequestFinished id s)
  ∧ answers requestId (interactionRequestFinished id s) = answers requestId s.
Proof.
  intros Hr Hid Hs. unfold interactionRequestFinished.
  destruct (m_requests s !! id) as [o'|] eqn:E; [|done]. simpl.
  assert (Hs' : unanswered requestId o (with_requests (delete id (m_requests s)) s)).
  { destruct Hs as [Hwf Hw Hreq Honly]. split; [by apply wf_take|done| |done].
    simpl. by rewrite lookup_delete_ne. }
  destruct (watchers s !! o') as [w|] eqn:Hw; [|done].
  assert (Hw' := proj2 (wf_pointers _ (un_wf _ _ _ Hs) _ _ E) w Hw).
  assert (Hne : o' ≠ o).
  { intros ->. destruct Hs as [Hwf _ Hreq _].
    apply (wf_pointers _ Hwf) in Hreq as [_ Hreq%(λ H, H w Hw)]. congruence. }
  split.
  - destruct Hs' as [Hwf [v [Hv Hout]] Hreq Honly]. split; simpl.
    + apply wf_emit, wf_responses, watcher_delete_wf. by eapply watcher_set_wf.
    + exists v. split; [|done]. rewrite lookup_delete_ne by done. by rewrite lookup_insert_ne.
    + done.
    + intros o2 x [Ho2 Hx]%lookup_delete_Some. rewrite lookup_insert_ne in Hx by done. by eapply Honly.
  - unfold answers. simpl. rewrite filter_app, filter_cons_False, filter_nil, app_nil_r; [done|].
    simpl. destruct (wf_ids _ (un_wf _ _ _ Hs) _ _ Hw) as (z & Hz & Hwz).
    rewrite Hwz, qint64_quint64 by done. intros ->. congruence.
Qed.

Lemma unanswered_begin requestId o up callerPid id p address s :
  is_qint64 requestId → is_qint64 id → id ≠ requestId → unanswered requestId o s →
  unanswered requestId o (beginUserInputInteraction up callerPid id p address s).2
  ∧ answers requestId (beginUserInputInteraction up callerPid id p address s).2 = answers requestId s.
Proof.
  intros Hr Hid Hne Hs.
  destruct (begin_cases up callerPid id p address s) as (_ & He & Hcases).
  split; [|unfold answers; by rewrite He].
  assert (Hwf' := begin_wf up callerPid id p address s Hid (un_wf _ _ _ Hs)).
  destruct Hs as [Hwf [v [Hv Hout]] Hreq Honly]. assert (Hlt := wf_fresh _ Hwf _ _ Hv).
  assert (Hk : to_quint64 id ≠ to_quint64 requestId) by (intros Heq; by apply quint64_inj in Heq).
  destruct Hcases as [(_ & Hm & [[Hw _]|[Hw _]])|(_ & _ & Hw & Hm)];
    (split; [done|rewrite Hw|rewrite Hm|rewrite Hw]); try by eauto.
  - exists v. by rewrite lookup_delete_ne by lia.
  - intros o' w [_ Ho']%lookup_delete_Some. by eapply Honly.
  - exists v. by rewrite lookup_insert_ne by lia.
  - by rewrite lookup_insert_ne.
  - intros o' w [[<- <-]|[_ Ho']]%lookup_insert_Some; [done|by eapply Honly].
Qed.

Lemma unanswered_step requestId o s s' :
  is_qint64 requestId → step (λ id, id ≠ requestId) s s' → unanswered requestId o s →
  unanswered requestId o s' ∧ answers requestId s' = answers requestId s.
Proof.
  intros Hr Hstep Hs.
  assert (Hother : ∀ o' w c, watchers s !! o' = Some w → outstanding w = Some c →
            o' ≠ o ∧ m_requestId w ≠ to_quint64 requestId).
  { intros o' w c Ho' Hc. destruct Hs as [_ [v [Hv Hout]] _ Honly]. assert (o' ≠ o) by congruence.
    split; [done|]. intros Heq. by apply (Honly _ _ Ho') in Heq. }
  destruct Hstep as [up callerPid id p address s Hid Hne|o' w p reply s Ho Hc|o' w u p reply s Ho Hc
                    |o' w u reply s Ho Hc|o' w u reply s Ho Hc].
  - by apply unanswered_begin.
  - destruct (Hother _ _ _ Ho Hc) as [Hno Hnid]. unfold performFinished. rewrite Ho.
    destruct (request_response _ _) as [r w'] eqn:E.
    assert (Hw' : m_requestId w' = m_requestId w)
      by (change w' with (r, w').2; rewrite <- E; apply finished_request_id).
    unfold answers.
    destruct (unanswered_response requestId o (m_requestId w') r (set_watcher o' w' s)) as [Hu ->];
      [congruence|by eapply unanswered_set|done].
  - destruct (Hother _ _ _ Ho Hc) as [Hno Hnid]. unfold interactionContinuationRequestFinished.
    rewrite Ho. unfold answers.
    destruct (unanswered_response requestId o (m_requestId w) (continuation_response reply)
      (set_watcher o' (answered w) s)) as [Hu ->]; [done|by eapply unanswered_set|done].
  - destruct (Hother _ _ _ Ho Hc) as [Hno Hnid]. unfold interactionCancelFinished. rewrite Ho.
    apply (unanswered_finished requestId o (m_requestId w) (set_watcher o' (answered w) s));
      [done|done|by eapply unanswered_set].
  - destruct (Hother _ _ _ Ho Hc) as [Hno Hnid].
    unfold interactionFinishFinished, interactionCancelFinished. rewrite Ho.
    apply (unanswered_finished requestId o (m_requestId w) (set_watcher o' (answered w) s));
      [done|done|by eapply unanswered_set].
Qed.

Lemma unanswered_steps requestId o s s' :
  is_qint64 requestId → rtc (step (λ id, id ≠ requestId)) s s' → unanswered requestId o s →
  unanswered requestId o s' ∧ answers requestId s' = answers requestId s.
Proof.
  intros Hr. induction 1 as [|s1 s2 s3 Hstep _ IH]; [done|]. intros Hs.
  destruct (unanswered_step requestId o s1 s2 Hr Hstep Hs) as [Hs2 <-]. by apply IH.
Qed.

(** A reply without a number of the service leaves the request so. *)
Lemma refused_unanswered callerPid requestId p address s up s1 reply :
  wf s → is_qint64 requestId →
  (∀ o w, watchers s !! o = Some w → m_requestId w ≠ to_quint64 requestId) →
  beginUserInputInteraction up callerPid requestId p address s = (result_of_code Pending, s1) →
  (∀ response u, reply = Valid (response, u) → u = "") →
  let s2 := performFinished (next_watcher s) reply s1 in
  unanswered requestId (next_watcher s) s2 ∧ answers requestId s2 = answers requestId s.
Proof.
  intros Hs Hr Hfresh Hb Hreply.
  assert (Hwf1 := begin_wf up callerPid requestId p address s Hr Hs).
  destruct (begin_cases up callerPid requestId p address s)
    as (_ & He & [(Hb' & _)|(_ & _ & Hw & Hm)]); rewrite Hb in *; simpl in *; [done|].
  set (b := begun callerPid requestId p address) in *. set (n := next_watcher s) in *.
  assert (Hn : watchers s1 !! n = Some b) by (by rewrite Hw, lookup_insert_eq).
  destruct (request_response reply (answered b)) as [r w'] eqn:E.
  assert (Hw' : w' = answered b).
  { destruct reply as [[response u]|e]; simpl in E; [|by simplify_eq].
    rewrite (Hreply response u eq_refl) in E. by simplify_eq. }
  assert (Hp : performFinished n reply s1
    = set_watcher n (answered b) (with_responses (<[to_quint64 requestId := r]> (m_responses s1))
        (set_watcher n (answered b) s1))).
  { unfold performFinished. rewrite Hn, E, Hw'. unfold interactionRequestResponse. simpl.
    by rewrite Hm, lookup_insert_eq, lookup_insert_eq. }
  rewrite Hp. split; [|unfold answers; simpl; by rewrite He].
  split; simpl; rewrite ?insert_insert_eq.
  - eapply watcher_set_wf; [apply lookup_insert_eq|done|]. apply wf_responses. by eapply watcher_set_wf.
  - exists (answered b). by rewrite lookup_insert_eq.
  - by rewrite Hm, lookup_insert_eq.
  - rewrite Hw, insert_insert_eq. intros o' w [[<- _]|[_ Ho']]%lookup_insert_Some Hid; [done|].
    by apply Hfresh in Ho'.
Qed.
End InApp.

(** * In the application: service and view *)

Module UiService.

Inductive ActiveRequestState := Inactive | Started | Waiting.
#[global] Instance ActiveRequestState_eq_dec : EqDecision ActiveRequestState.
Proof. solve_decision. Defined.

Inductive Argument :=
  | ResponseArgument (r : InteractionResponse)
  | StringArgument (s : string)
  | ResultArgument (r : Result).

(** A reply to the call with a number, or no message. *)
Record QDBusMessage := mkMessage {
  msg_serial : option N;
  msg_arguments : list Argument;
}.

(** [InteractionService]; [m_interactionView]: the manager has a view;
    [m_uiService]: of the view, it is set; [subscribed]: the connections whose end
    is announced to [clientDisconnected]; [connections]: those that are up;
    [shown]: the requests that the view was given; [sent]: the replies. *)
Record Service := mkService {
  m_address : string;
  m_interactionView : bool;
  m_uiService : bool;
  m_activeConnection : option string;
  m_activeReply : QDBusMessage;
  m_activeRequestId : string;
  m_activeRequestState : ActiveRequestState;
  connections : gset string;
  subscribed : gset string;
  shown : list FullInteraction;
  sent : list (option string * QDBusMessage);
}.

Definition newService (view : bool) : Service :=
  mkService "" view false None (mkMessage None []) "" Inactive ∅ ∅ [] [].

(** [registerServer]; the directory for sockets, empty if there is none, and whether
    it can be made *)
Definition registerServer (path : string) (made : bool) (pid : Z) (s : Service) : bool * Service :=
  if negb (isEmpty (m_address s)) then (true, s)
  else if isEmpty path then (false, s)
  else if negb made then (false, s)
  else
    (true,
     mkService ("unix:path=" +:+ path +:+ "/sailfishsecretsd-uiSocket-" +:+ pretty pid)
       (m_interactionView s) (m_uiService s) (m_activeConnection s) (m_activeReply s)
       (m_activeRequestId s) (m_activeRequestState s) (connections s) (subscribed s) (shown s) (sent s)).

Definition with_uiService (b : bool) (s : Service) : Service :=
  mkService (m_address s) (m_interactionView s) b (m_activeConnection s) (m_activeReply s)
    (m_activeRequestId s) (m_activeRequestState s) (connections s) (subscribed s) (shown s) (sent s).
Definition with_active (id : string) (state : ActiveRequestState) (s : Service) : Service :=
  mkService (m_address s) (m_interactionView s) (m_uiService s) (m_activeConnection s) (m_activeReply s)
    id state (connections s) (subscribed s) (shown s) (sent s).
Definition with_reply (connection : option string) (reply : QDBusMessage) (s : Service) : Service :=
  mkService (m_address s) (m_interactionView s) (m_uiService s) connection reply
    (m_activeRequestId s) (m_activeRequestState s) (connections s) (subscribed s) (shown s) (sent s).
Definition with_connections (cs ss : gset string) (s : Service) : Service :=
  mkService (m_address s) (m_interactionView s) (m_uiService s) (m_activeConnection s) (m_activeReply s)
    (m_activeRequestId s) (m_activeRequestState s) cs ss (shown s) (sent s).
Definition show (p : FullInteraction) (s : Service) : Service :=
  mkService (m_address s) (m_interactionView s) (m_uiService s) (m_activeConnection s) (m_activeReply s)
    (m_activeRequestId s) (m_activeRequestState s) (connections s) (subscribed s) (shown s ++ [p]) (sent s).
Definition send (connection : option string) (m : QDBusMessage) (s : Service) : Service :=
  mkService (m_address s) (m_interactionView s) (m_uiService s) (m_activeConnection s) (m_activeReply s)
    (m_activeRequestId s) (m_activeRequestState s) (connections s) (subscribed s) (shown s)
    (sent s ++ [(connection, m)]).

(** [m_activeConnection.isConnected()] *)
Definition isConnected (s : Service) : bool :=
  match m_activeConnection s with
  | Some c => bool_decide (c ∈ connections s)
  | None => false
  end.

(** [InteractionService::sendResponse] *)
Definition sendResponse (response : InteractionResponse) (s : Service) : Service :=
  if isEmpty (m_activeRequestId s) then s
  else
    let s := with_active (m_activeRequestId s) Waiting s in
    let s := with_reply (m_activeConnection s)
               (mkMessage (msg_serial (m_activeReply s))
                  (msg_arguments (m_activeReply s)
                   ++ [ResponseArgument response; StringArgument (m_activeRequestId s)])) s in
    send (m_activeConnection s) (m_activeReply s) s.

(** The view: [sendResponse], and the four functions that the service calls.
    [answer]: what the application answers before its [performRequest] returns. *)
Definition view_sendResponse (response : InteractionResponse) (s : Service) : Service :=
  if m_uiService s then with_uiService false (sendResponse response s) else s.

Definition view_performRequest (answer : option InteractionResponse) (request : FullInteraction)
  (s : Service) : bool * Service :=
  if m_uiService s then (false, s)
  else
    let s := show request (with_uiService true s) in
    (true, match answer with Some response => view_sendResponse response s | None => s end).
Definition view_continueRequest : option InteractionResponse → FullInteraction → Service → bool * Service :=
  view_performRequest.
Definition view_cancelRequest (s : Service) : bool * Service := (true, with_uiService false s).
Definition view_finishRequest (s : Service) : bool * Service :=
  if m_uiService s then (false, s) else (true, s).

(** [!m_parent->m_interactionView || !m_parent->m_interactionView->...] *)
Definition on_view (f : Service → bool * Service) (s : Service) : bool * Service :=
  if negb (m_interactionView s) then (false, s) else f s.

(** [performInteractionRequest], of a call with its connection and number, and the
    identifier that [createUuid] makes; the arguments of the reply, unless it is
    delayed *)
Definition ui_performInteractionRequest (uuid : string) (answer : option InteractionResponse)
  (connection : string) (message : N) (request : FullInteraction) (s : Service)
  : option (InteractionResponse * string) * Service :=
  if negb (isEmpty (m_activeRequestId s)) then
    (Some (setResult (result_error InteractionServiceRequestBusyError
                        "Ui service is busy handling another request") newResponse, ""), s)
  else
    let '(performed, s) := on_view (view_performRequest answer request) s in
    if negb performed then
      (Some (setResult (result_error InteractionViewUnavailableError
                          "Cannot perform ui request: view busy or no view registered") newResponse, ""), s)
    else
      let subscribed :=
        match m_activeConnection s with
        | Some c => if isConnected s then subscribed s ∖ {[c]} else subscribed s
        | None => subscribed s
        end in
      let s := with_active uuid (m_activeRequestState s) s in
      let s := with_connections (connections s) ({[connection]} ∪ subscribed) s in
      (None, with_reply (Some connection) (mkMessage (Some message) []) s).

(** [continueInteractionRequest] *)
Definition ui_continueInteractionRequest (answer : option InteractionResponse) (connection : string)
  (message : N) (requestId : string) (request : FullInteraction) (s : Service)
  : option InteractionResponse * Service :=
  if bool_decide (requestId ≠ m_activeRequestId s) then
    (Some (setResult (result_error InteractionServiceRequestInvalidError
                        ("Cannot continue non-active ui request: " +:+ requestId)) newResponse), s)
  else if bool_decide (m_activeRequestState s ≠ Waiting) then
    (Some (setResult (result_error InteractionServiceRequestBusyError
                        ("Cannot continue non-waiting ui request: " +:+ requestId)) newResponse), s)
  else
    let '(continued, s) := on_view (view_continueRequest answer request) s in
    if negb continued then
      (Some (setResult (result_error InteractionViewUnavailableError
                          "Cannot continue ui request: view busy or no view registered") newResponse), s)
    else (None, with_reply (Some connection) (mkMessage (Some message) []) s).

(** [cancelInteractionRequest] *)
Definition ui_cancelInteractionRequest (requestId : string) (s : Service) : Result * Service :=
  if bool_decide (requestId ≠ m_activeRequestId s) then
    (result_error InteractionServiceRequestInvalidError
       ("Cannot cancel non-active ui request: " +:+ requestId), s)
  else
    let '(canceled, s) := on_view view_cancelRequest s in
    if negb canceled then
      (result_error InteractionViewUnavailableError
         "Cannot cancel ui request: view busy or no view registered", s)
    else (result_of_code Succeeded, with_active "" Inactive s).

(** [finishInteractionRequest] *)
Definition ui_finishInteractionRequest (requestId : string) (s : Service) : Result * Service :=
  if bool_decide (requestId ≠ m_activeRequestId s) then
    (result_error InteractionServiceRequestInvalidError
       ("Cannot finish non-active ui request: " +:+ requestId), s)
  else if bool_decide (m_activeRequestState s ≠ Waiting) then
    (result_error InteractionServiceRequestBusyError
       ("Cannot finish non-waiting ui request: " +:+ requestId), s)
  else
    let '(finished, s) := on_view view_finishRequest s in
    if negb finished then
      (result_error InteractionViewUnavailableError
         "Cannot finish ui request: view busy or no view registered", s)
    else (result_of_code Succeeded, with_active "" Inactive s).

(** [clientDisconnected] *)
Definition clientDisconnected (s : Service) : Service :=
  if negb (isConnected s) then
    with_active "" Inactive (with_reply None (mkMessage None []) s)
  else s.

(** [handleUiConnection], and the end of a connection *)
Definition handleUiConnection (connection : string) (s : Service) : Service :=
  with_connections ({[connection]} ∪ connections s) (subscribed s) s.
Definition connectionEnds (connection : string) (s : Service) : Service :=
  let announced := bool_decide (connection ∈ subscribed s) in
  let s := with_connections (connections s ∖ {[connection]}) (subscribed s ∖ {[connection]}) s in
  if announced then clientDisconnected s else s.

(** ** All that can happen *)

(** The reply that QtDBus sends if the method has not delayed it *)
Definition automatic_reply {A} (f : A → list Argument) (connection : string) (message : N)
  (r : option A * Service) : Service :=
  match r.1 with
  | Some a => send (Some connection) (mkMessage (Some message) (f a)) r.2
  | None => r.2
  end.
Definition response_arguments (r : InteractionResponse * string) : list Argument :=
  [ResponseArgument r.1; StringArgument r.2].
Definition method_reply (connection : string) (message : N) (r : Result * Service) : Service :=
  automatic_reply (λ a, [ResultArgument a]) connection message (Some r.1, r.2).

(** One event, with the number of the call that it is, if it is one. [early]: the
    view may answer before [performRequest] or [continueRequest] returns. *)
Inductive step (early : Prop) : option N → Service → Service → Prop :=
  | step_perform uuid answer connection message request s :
      uuid ≠ "" → (is_Some answer → early) →
      step early (Some message) s
        (automatic_reply response_arguments connection message
           (ui_performInteractionRequest uuid answer connection message request s))
  | step_continue answer connection message requestId request s :
      (is_Some answer → early) →
      step early (Some message) s
        (automatic_reply (λ r, [ResponseArgument r]) connection message
           (ui_continueInteractionRequest answer connection message requestId request s))
  | step_cancel connection message requestId s :
      step early (Some message) s
        (method_reply connection message (ui_cancelInteractionRequest requestId s))
  | step_finish connection message requestId s :
      step early (Some message) s
        (method_reply connection message (ui_finishInteractionRequest requestId s))
  | step_response response s : step early None s (view_sendResponse response s)
  | step_connect connection s : step early None s (handleUiConnection connection s)
  | step_disconnect connection s : step early None s (connectionEnds connection s).

(** States, with the numbers of the calls so far; no number is used twice. *)
Inductive steps (early : Prop) (used : list N) (s : Service) : list N → Service → Prop :=
  | steps_refl : steps early used s used s
  | steps_call message used' s1 s2 :
      steps early used s used' s1 → message ∉ used' → step early (Some message) s1 s2 →
      steps early used s (message :: used') s2
  | steps_event used' s1 s2 :
      steps early used s used' s1 → step early None s1 s2 → steps early used s used' s2.

(** The calls that were answered *)
Definition replied (s : Service) : list N := omap (λ m, msg_serial m.2) (sent s).

(** ** Replies *)

(** No call is answered twice, and the call whose reply the view holds was not. *)
Record replies_ok (used : list N) (s : Service) : Prop := mk_replies_ok {
  rp_once : NoDup (replied s);
  rp_used : replied s ⊆ used;
  rp_view : m_uiService s = true → m_activeRequestId s ≠ "" →
    ∃ n, m_activeReply s = mkMessage (Some n) [] ∧ n ∈ used ∧ n ∉ replied s;
}.

Lemma replied_send c m args s :
  replied (send c (mkMessage (Some m) args) s) = replied s ++ [m].
Proof. unfold replied. simpl. by rewrite omap_app. Qed.

Lemma replies_ok_reply used c m args s :
  m ∉ used → replies_ok used s → replies_ok (m :: used) (send c (mkMessage (Some m) args) s).
Proof.
  intros Hm [Ho Hu Hv]. split; rewrite ?replied_send.
  - apply NoDup_app. split_and!; [done| |apply NoDup_singleton]. set_solver.
  - set_solver.
  - intros Hs Hid. destruct (Hv Hs Hid) as (n & Hreply & Hn & Hr). exists n. split_and!; [done|set_solver..].
Qed.

Lemma replies_ok_weaken used m s : replies_ok used s → replies_ok (m :: used) s.
Proof.
  intros [Ho Hu Hv]. split; [done|set_solver|]. intros Hs Hid.
  destruct (Hv Hs Hid) as (n & Hreply & Hn & Hr). exists n. split_and!; [done|set_solver..].
Qed.

(** Nothing is sent, and the view holds no reply or the request is gone. *)
Lemma replies_ok_idle used s s' :
  replies_ok used s → sent s' = sent s → m_uiService s' = false ∨ m_activeRequestId s' = "" →
  replies_ok used s'.
Proof.
  intros [Ho Hu Hv] Hs Hidle. split; unfold replied in *; rewrite Hs; [done|done|].
  intros Hu' Hid. destruct Hidle; congruence.
Qed.

Lemma replies_ok_method used c m r s' :
  m ∉ used → replies_ok used s' → replies_ok (m :: used) (method_reply c m (r, s')).
Proof. intros Hm Hs. by apply replies_ok_reply. Qed.

Lemma replies_ok_new used c m s s' :
  m ∉ used → replies_ok used s → sent s' = sent s →
  replies_ok (m :: used) (with_reply c (mkMessage (Some m) []) s').
Proof.
  intros Hm [Ho Hu Hv] Hs. split; unfold replied in *; simpl; rewrite Hs; [done|set_solver|].
  intros _ _. exists m. split_and!; [done|set_solver..].
Qed.

Lemma replies_ok_response used r s : replies_ok used s → replies_ok used (view_sendResponse r s).
Proof.
  intros Hs. unfold view_sendResponse. destruct (m_uiService s) eqn:Hv; [|done].
  unfold sendResponse. destruct (isEmpty (m_activeRequestId s)) eqn:He.
  { by apply (replies_ok_idle used s); [..|left]. }
  apply bool_decide_eq_false in He. destruct Hs as [Ho Hu Hview].
  destruct (Hview Hv He) as (n & Hreply & Hn & Hr). simpl. rewrite Hreply. simpl.
  split; [| |done]; unfold replied in *; simpl; rewrite omap_app; simpl.
  - apply NoDup_app. split_and!; [done| |apply NoDup_singleton]. set_solver.
  - set_solver.
Qed.

Lemma on_view_none f answer request s :
  f = view_performRequest answer request → answer = None →
  (on_view f s = (false, s))
  ∨ (m_uiService s = false ∧ on_view f s = (true, show request (with_uiService true s))).
Proof.
  intros -> ->. unfold on_view, view_performRequest. destruct (m_interactionView s); [|by left].
  simpl. destruct (m_uiService s); [by left|by right].
Qed.

Lemma step_replies_ok used message s s' :
  step False message s s' → replies_ok used s →
  match message with
  | Some m => m ∉ used → replies_ok (m :: used) s'
  | None => replies_ok used s'
  end.
Proof.
  intros Hstep Hs. destruct Hstep as [uuid answer c m request s Hid Ha|answer c m id request s Ha
    |c m id s|c m id s|r s|c s|c s].
  - intros Hm. unfold ui_performInteractionRequest.
    case_match; [by apply replies_ok_reply|].
    destruct answer as [r|]; [by destruct Ha|].
    destruct (on_view_none _ None request s eq_refl eq_refl) as [->|[_ ->]]; simpl.
    + by apply replies_ok_reply.
    + by apply (replies_ok_new used _ m s).
  - intros Hm. unfold ui_continueInteractionRequest.
    case_match; [by apply replies_ok_reply|]. case_match; [by apply replies_ok_reply|].
    destruct answer as [r|]; [by destruct Ha|].
    destruct (on_view_none _ None request s eq_refl eq_refl) as [Hv|[_ Hv]];
      unfold view_continueRequest; rewrite Hv; simpl.
    + by apply replies_ok_reply.
    + by apply (replies_ok_new used _ m s).
  - intros Hm. unfold ui_cancelInteractionRequest, on_view, view_cancelRequest. simpl.
    case_match; [by apply replies_ok_method|].
    destruct (m_interactionView s); apply replies_ok_method; try done.
    by apply (replies_ok_idle used s); [..|left].
  - intros Hm. unfold ui_finishInteractionRequest, on_view, view_finishRequest. simpl.
    case_match; [by apply replies_ok_method|]. case_match; [by apply replies_ok_method|].
    destruct (m_interactionView s); [|by apply replies_ok_method].
    destruct (m_uiService s); apply replies_ok_method; try done.
    by apply (replies_ok_idle used s); [..|right].
  - by apply replies_ok_response.
  - by destruct Hs.
  - unfold connectionEnds, clientDisconnected. repeat case_match; by destruct Hs.
Qed.

Lemma steps_replies_ok used s used' s' :
  steps False used s used' s' → replies_ok used s → replies_ok used' s'.
Proof.
  intros Hsteps Hs. induction Hsteps as [|m used' s1 s2 _ IH Hm Hstep|used' s1 s2 _ IH Hstep]; [done|..].
  - by apply (step_replies_ok used' (Some m) s1).
  - by apply (step_replies_ok used' None s1).
Qed.

(** ** Answers that come too early *)

(** The call is known and was not answered, and if its reply is the active one then
    neither the view nor the service will use it. *)
Record unheard (n : N) (used : list N) (s : Service) : Prop := mk_unheard {
  uh_used : n ∈ used;
  uh_replied : n ∉ replied s;
  uh_active : msg_serial (m_activeReply s) = Some n →
    m_uiService s = false ∧ m_activeRequestState s ≠ Waiting;
}.

Lemma unheard_reply n used c m args s :
  m ∉ used → unheard n used s → unheard n (m :: used) (send c (mkMessage (Some m) args) s).
Proof. intros Hm [Hn Hr Ha]. split; [set_solver| |done]. rewrite replied_send. set_solver. Qed.

Lemma unheard_new n used c m s s' :
  m ∉ used → unheard n used s → n ∉ replied s' →
  unheard n (m :: used) (with_reply c (mkMessage (Some m) []) s').
Proof. intros Hm [Hn Hr Ha] Hr'. split; [set_solver|done|]. simpl. intros [= <-]. by destruct Hm. Qed.

(** What the view sends, it sends in reply to another call. *)
Lemma unheard_response n used r s : unheard n used s → unheard n used (view_sendResponse r s).
Proof.
  intros Hs. unfold view_sendResponse. destruct (m_uiService s) eqn:Hv; [|done].
  destruct Hs as [Hn Hr Ha].
  assert (Hne : msg_serial (m_activeReply s) ≠ Some n) by (intros [? _]%Ha; congruence).
  unfold sendResponse. destruct (isEmpty _); [by split|].
  split; [done| |done]. unfold replied in *. simpl. rewrite omap_app. simpl.
  destruct (msg_serial (m_activeReply s)); set_solver.
Qed.

(** The view is given a request, and perhaps answers at once. *)
Lemma unheard_view n used answer request s b s' :
  (m_activeRequestId s = "" ∨ msg_serial (m_activeReply s) ≠ Some n) →
  on_view (view_performRequest answer request) s = (b, s') → unheard n used s →
  n ∉ replied s' ∧ (b = false → s' = s).
Proof.
  unfold on_view, view_performRequest. intros Hor Hb [Hn Hr Ha].
  destruct (m_interactionView s); simplify_eq/=; [|done].
  destruct (m_uiService s); simplify_eq/=; [done|]. split; [|done].
  destruct answer as [r|]; [|done]. unfold view_sendResponse, sendResponse. simpl.
  destruct (isEmpty (m_activeRequestId s)) eqn:E; [done|].
  apply bool_decide_eq_false in E. destruct Hor as [?|Hne]; [done|].
  unfold replied in *. simpl. rewrite omap_app. simpl.
  destruct (msg_serial (m_activeReply s)); set_solver.
Qed.

Lemma unheard_idle n used s s' :
  unheard n used s → sent s' = sent s → m_activeReply s' = m_activeReply s →
  (m_uiService s' = true → m_uiService s = true) → m_activeRequestState s' ≠ Waiting →
  unheard n used s'.
Proof.
  intros [Hn Hr Ha] Hs Hreply Hv Hst. split; unfold replied in *; rewrite ?Hs, ?Hreply; [done|done|].
  intros [Hv' _]%Ha. split; [|done]. destruct (m_uiService s'); [|done]. rewrite Hv in Hv'; done.
Qed.

Lemma step_unheard n used message s s' :
  step True message s s' → unheard n used s →
  match message with
  | Some m => m ∉ used → unheard n (m :: used) s'
  | None => unheard n used s'
  end.
Proof.
  intros Hstep Hs. destruct Hstep as [uuid answer c m request s Hid Ha|answer c m id request s Ha
    |c m id s|c m id s|r s|c s|c s].
  - intros Hm. unfold ui_performInteractionRequest.
    destruct (isEmpty (m_activeRequestId s)) eqn:E; [|by apply unheard_reply].
    apply bool_decide_eq_true in E. simpl.
    destruct (on_view _ s) as [b s1] eqn:Hv.
    destruct (unheard_view n used answer request s b s1 (or_introl E) Hv Hs) as [Hr Hb].
    destruct b; simpl; [by apply (unheard_new n used _ m s)|].
    rewrite Hb by done. by apply unheard_reply.
  - intros Hm. unfold ui_continueInteractionRequest.
    case_match; [by apply unheard_reply|].
    destruct (bool_decide (m_activeRequestState s ≠ Waiting)) eqn:E; [by apply unheard_reply|].
    apply bool_decide_eq_false in E.
    assert (Hne : msg_serial (m_activeReply s) ≠ Some n) by (by intros [_ ?]%(uh_active _ _ _ Hs)).
    unfold view_continueRequest. destruct (on_view _ s) as [b s1] eqn:Hv.
    destruct (unheard_view n used answer request s b s1 (or_intror Hne) Hv Hs) as [Hr Hb].
    destruct b; simpl; [by apply (unheard_new n used _ m s)|].
    rewrite Hb by done. by apply unheard_reply.
  - intros Hm. unfold ui_cancelInteractionRequest, on_view, view_cancelRequest. simpl.
    case_match; [by apply unheard_reply|].
    destruct (m_interactionView s); apply unheard_reply; try done. by apply (unheard_idle n used s).
  - intros Hm. unfold ui_finishInteractionRequest, on_view, view_finishRequest. simpl.
    case_match; [by apply unheard_reply|]. case_match; [by apply unheard_reply|].
    destruct (m_interactionView s); [|by apply unheard_reply].
    destruct (m_uiService s) eqn:Hv; apply unheard_reply; try done.
    apply (unheard_idle n used s); simpl; congruence.
  - by apply unheard_response.
  - by destruct Hs.
  - unfold connectionEnds, clientDisconnected. repeat case_match; by destruct Hs.
Qed.

Lemma steps_unheard n used s used' s' :
  steps True used s used' s' → unheard n used s → unheard n used' s'.
Proof.
  intros Hsteps Hs. induction Hsteps as [|m used' s1 s2 _ IH Hm Hstep|used' s1 s2 _ IH Hstep]; [done|..].
  - by apply (step_unheard n used' (Some m) s1).
  - by apply (step_unheard n used' None s1).
Qed.

End UiService.

(** * Properties *)

Import InApp UiService.

(** What arrives of what was written *)
Definition over_bus {A} (write : A → QDBusArgument) (read : Reader A) (a : A) : option A :=
  match read (write a) with
  | Some (a', []) => Some a'
  | _ => None
  end.

Lemma parameters_over_bus p :
  canonical (ip_operation (full_parameters p)) →
  over_bus write_InteractionParameters read_InteractionParameters p = Some p.
Proof.
  intros Hp. unfold over_bus. rewrite <- (app_nil_r (write_InteractionParameters p)).
  by rewrite read_interaction_write.
Qed.

Lemma read_Result_write r rest : read_Result (write_Result r ++ rest) = Some (r, rest).
Proof. destruct r as [c e m]. apply read_structure_write. by destruct c. Qed.

Lemma response_over_bus r : over_bus write_InteractionResponse read_InteractionResponse r = Some r.
Proof.
  assert (Hr : ∀ rest, read_InteractionResponse (write_InteractionResponse r ++ rest) = Some (r, rest)).
  { intros rest. apply read_structure_write. rewrite <- app_assoc. unfold read_bind at 1.
    rewrite read_Result_write. by destruct r. }
  unfold over_bus. rewrite <- (app_nil_r (write_InteractionResponse r)). by rewrite Hr.
Qed.

(** The service accepts a request. *)
Lemma service_accepts uuid connection message p c :
  m_interactionView c = true → m_uiService c = false → m_activeRequestId c = "" → uuid ≠ "" →
  ∃ c1, ui_performInteractionRequest uuid None connection message p c = (None, c1)
        ∧ shown c1 = shown c ++ [p] ∧ m_interactionView c1 = true ∧ m_uiService c1 = true
        ∧ m_activeRequestId c1 = uuid ∧ m_activeReply c1 = mkMessage (Some message) []
        ∧ m_activeConnection c1 = Some connection ∧ sent c1 = sent c.
Proof.
  intros Hv Hu Hid Huuid. unfold ui_performInteractionRequest. rewrite Hid. simpl.
  unfold on_view, view_performRequest. rewrite Hv, Hu. simpl. by eexists.
Qed.

(** The view answers, and the service is told that this was all. *)
Lemma service_finishes uuid connection message response c :
  m_interactionView c = true → m_uiService c = true → m_activeRequestId c = uuid → uuid ≠ "" →
  m_activeReply c = mkMessage (Some message) [] → m_activeConnection c = Some connection →
  let c2 := view_sendResponse response c in
  sent c2 = sent c ++ [(Some connection,
              mkMessage (Some message) [ResponseArgument response; StringArgument uuid])]
  ∧ ∃ c3, ui_finishInteractionRequest uuid c2 = (result_of_code Succeeded, c3)
          ∧ m_uiService c3 = false ∧ m_activeRequestId c3 = "" ∧ m_activeRequestState c3 = Inactive.
Proof.
  intros Hv Hu Hid Hne Hreply Hconn.
  assert (Hc2 : view_sendResponse response c
    = with_uiService false (send (Some connection)
        (mkMessage (Some message) [ResponseArgument response; StringArgument uuid])
        (with_reply (Some connection)
           (mkMessage (Some message) [ResponseArgument response; StringArgument uuid])
           (with_active uuid Waiting c)))).
  { unfold view_sendResponse, sendResponse, isEmpty.
    rewrite Hu, Hid, bool_decide_eq_false_2 by done. simpl. by rewrite Hreply, Hconn. }
  intros c2. subst c2. rewrite Hc2. split; [done|].
  unfold ui_finishInteractionRequest, on_view. simpl.
  rewrite (bool_decide_eq_false_2 (uuid ≠ uuid)) by (by intros []). simpl. rewrite Hv. simpl. by eexists.
Qed.

(** The plugin hears the response and then the end. *)
Lemma plugin_finishes callerPid requestId p address s s1 uuid response reply :
  is_qint64 requestId → (0 ≤ callerPid < 2 ^ 32)%Z → uuid ≠ "" →
  watchers s1 = <[next_watcher s := begun callerPid requestId p address]> (watchers s) →
  m_requests s1 = <[to_quint64 requestId := next_watcher s]> (m_requests s) → events s1 = events s →
  let s2 := performFinished (next_watcher s) (Valid (response, uuid)) s1 in
  let s3 := interactionFinishFinished (next_watcher s) reply s2 in
  (outstanding <$> watchers s2 !! next_watcher s) = Some (Some (FinishInteractionRequest uuid))
  ∧ events s3 = events s ++ [Completed callerPid requestId p address response.1 response.2]
  ∧ m_requests s3 !! to_quint64 requestId = None ∧ watchers s3 !! next_watcher s = None.
Proof.
  intros Hr Hpid Huuid Hw Hm He.
  set (n := next_watcher s) in *. set (b := begun callerPid requestId p address) in *.
  assert (Hs2 : performFinished n (Valid (response, uuid)) s1
    = set_watcher n (with_call (FinishInteractionRequest uuid) (with_uiRequestId uuid (answered b)))
        (with_responses (<[to_quint64 requestId := response]> (m_responses s1))
           (set_watcher n (with_uiRequestId uuid (answered b)) s1))).
  { unfold performFinished. rewrite Hw, lookup_insert_eq. simpl. unfold interactionRequestResponse. simpl.
    rewrite Hm, lookup_insert_eq, lookup_insert_eq.
    unfold finishInteractionRequest, call_service, isEmpty. simpl.
    by rewrite bool_decide_eq_false_2. }
  intros s2 s3. subst s3. subst s2. rewrite Hs2.
  split; [simpl; by rewrite lookup_insert_eq|].
  unfold interactionFinishFinished, interactionCancelFinished. simpl. rewrite lookup_insert_eq.
  unfold interactionRequestFinished. simpl. rewrite Hm, lookup_insert_eq, lookup_insert_eq. simpl.
  rewrite lookup_insert_eq. simpl. rewrite uint_int, qint64_quint64 by done.
  by rewrite He, !lookup_delete_eq.
Qed.

(** C31: An interaction inside the application, from end to end and over the bus: the
    service of the application accepts it and gives the view what the daemon asked
    for; the response of the view is the one reply to the call; the daemon finishes
    the request with the service, which is then free for the next one; and the
    plugin announces the response to the request that was made, exactly once. *)
Theorem in_app_interaction_completes callerPid requestId p address s uuid connection message c response :
  is_qint64 requestId → (0 ≤ callerPid < 2 ^ 32)%Z → address ≠ "" → uuid ≠ "" →
  canonical (ip_operation (full_parameters p)) →
  m_interactionView c = true → m_uiService c = false → m_activeRequestId c = "" →
  ∃ s1 p' c1 response' s2 c3,
    beginUserInputInteraction true callerPid requestId p address s = (result_of_code Pending, s1)
    ∧ over_bus write_InteractionParameters read_InteractionParameters p = Some p'
    ∧ ui_performInteractionRequest uuid None connection message p' c = (None, c1)
    ∧ shown c1 = shown c ++ [p]
    ∧ sent (view_sendResponse response c1)
      = sent c ++ [(Some connection,
                    mkMessage (Some message) [ResponseArgument response; StringArgument uuid])]
    ∧ over_bus write_InteractionResponse read_InteractionResponse response = Some response'
    ∧ performFinished (next_watcher s) (Valid (response', uuid)) s1 = s2
    ∧ (outstanding <$> watchers s2 !! next_watcher s) = Some (Some (FinishInteractionRequest uuid))
    ∧ ui_finishInteractionRequest uuid (view_sendResponse response c1) = (result_of_code Succeeded, c3)
    ∧ (m_uiService c3 = false ∧ m_activeRequestId c3 = "" ∧ m_activeRequestState c3 = Inactive)
    ∧ let s3 := interactionFinishFinished (next_watcher s) (Valid (result_of_code Succeeded)) s2 in
      events s3 = events s ++ [Completed callerPid requestId p address response.1 response.2]
      ∧ m_requests s3 !! to_quint64 requestId = None ∧ watchers s3 !! next_watcher s = None.
Proof.
  intros Hr Hpid Haddr Huuid Hop Hv Hu Hid.
  destruct (service_accepts uuid connection message p c Hv Hu Hid Huuid)
    as (c1 & Hc1 & Hshown & Hv1 & Hu1 & Hid1 & Hreply & Hconn & Hsent).
  destruct (begin_cases true callerPid requestId p address s) as (_ & He & Hcases).
  destruct (beginUserInputInteraction true callerPid requestId p address s) as [b s1] eqn:Hb.
  simpl in Hcases, He.
  assert (b = result_of_code Pending) as ->.
  { unfold beginUserInputInteraction in Hb. unfold isEmpty in Hb. rewrite (bool_decide_eq_false_2 _ Haddr) in Hb.
    simpl in Hb. by injection Hb as <- _. }
  destruct Hcases as [[? _]|(_ & _ & Hw & Hm)]; [done|].
  destruct (service_finishes uuid connection message response c1 Hv1 Hu1 Hid1 Huuid Hreply Hconn)
    as (Hsent2 & c3 & Hfin & Hfree).
  destruct (plugin_finishes callerPid requestId p address s s1 uuid response
    (Valid (result_of_code Succeeded)) Hr Hpid Huuid Hw Hm He) as (Hout & Hs3).
  exists s1, p, c1, response, (performFinished (next_watcher s) (Valid (response, uuid)) s1), c3.
  rewrite Hsent in Hsent2. rewrite parameters_over_bus, response_over_bus by done.
  do 9 (split; [done|]). by split.
Qed.

(** An application with a view *)
Definition example_request : FullInteraction := PasswordAgent.example_interaction.

Lemma in_app_interaction_completes_witness :
  ∃ s1 s2,
    beginUserInputInteraction true 42 7 example_request "unix:path=/ui" newPlugin
    = (result_of_code Pending, s1)
    ∧ events (interactionFinishFinished 0 (Valid (result_of_code Succeeded)) s2)
      = [Completed 42 7 example_request "unix:path=/ui" (result_of_code Succeeded) "4711"].
Proof.
  destruct (in_app_interaction_completes 42 7 example_request "unix:path=/ui" newPlugin "{uuid}" "c" 1
    (newService true) (result_of_code Succeeded, "4711"))
    as (s1 & p' & c1 & r & s2 & c3 & Hb & _ & _ & _ & _ & _ & _ & _ & _ & _ & He & _);
    [unfold is_qint64; lia|lia|done|done|reflexivity|reflexivity|reflexivity|reflexivity|].
  exists s1, s2. by split.
Defined.

(** C32: A request that the service of the application refuses - it is busy with
    another one, has no view, or the view is - or whose call fails - the application
    has quit or the call has timed out - is never answered by the plugin, whatever
    happens next: the plugin waits for a number that only an accepted request has. *)
Theorem refused_interaction_never_answered callerPid requestId p address s up s1 reply s2 :
  reachable s → is_qint64 requestId →
  (∀ o w, watchers s !! o = Some w → m_requestId w ≠ to_quint64 requestId) →
  beginUserInputInteraction up callerPid requestId p address s = (result_of_code Pending, s1) →
  ((∃ error, reply = Invalid error)
   ∨ ∃ uuid answer connection message c c' r,
       ui_performInteractionRequest uuid answer connection message p c = (Some r, c') ∧ reply = Valid r) →
  rtc (InApp.step (λ id, id ≠ requestId)) (performFinished (next_watcher s) reply s1) s2 →
  answers requestId s2 = answers requestId s ∧ m_requests s2 !! to_quint64 requestId = Some (next_watcher s).
Proof.
  intros Hs Hr Hfresh Hb Hreply Hsteps.
  destruct (refused_unanswered callerPid requestId p address s up s1 reply) as [Hu Ha]; try done.
  - by apply reachable_wf.
  - intros response u ->. destruct Hreply as [[? ?]|(uuid & answer & conn & m & c & c' & r & Hp & [= <-])];
      [done|].
    unfold ui_performInteractionRequest in Hp. repeat case_match; by simplify_eq.
  - destruct (unanswered_steps requestId (next_watcher s) _ s2 Hr Hsteps Hu) as [Hu2 ->].
    split; [done|]. apply Hu2.
Qed.

(** The reply of an application without a view, and another request after it *)
Definition example_refused : InteractionResponse * string :=
  default (newResponse, "{uuid}")
    (ui_performInteractionRequest "{uuid}" None "c" 1 example_request (newService false)).1.
Definition example_stuck : InApp.Plugin :=
  (beginUserInputInteraction true 43 8 example_request "unix:path=/ui"
     (performFinished 0 (Valid example_refused)
        (beginUserInputInteraction true 42 7 example_request "unix:path=/ui" newPlugin).2)).2.

Lemma refused_interaction_never_answered_witness :
  answers 7 example_stuck = [] ∧ m_requests example_stuck !! 7%Z = Some 0%N.
Proof.
  refine (refused_interaction_never_answered 42 7 example_request "unix:path=/ui" newPlugin true
    (beginUserInputInteraction true 42 7 example_request "unix:path=/ui" newPlugin).2
    (Valid example_refused) example_stuck (rtc_refl _ _) _ _ eq_refl _ _).
  - unfold is_qint64; lia.
  - simpl. intros o w Ho. by rewrite lookup_empty in Ho.
  - right. exists "{uuid}", None, "c", 1%N, (newService false), (newService false), example_refused.
    split; reflexivity.
  - apply rtc_once. apply InApp.step_begin; [unfold is_qint64|]; lia.
Defined.

(** Whatever the daemon, other processes and the user do, the service replies to no
    call twice, as long as the view does not answer a request before it has returned
    from being given it. *)
Theorem ui_calls_replied_once view used s :
  steps False [] (newService view) used s → NoDup (replied s) ∧ replied s ⊆ used.
Proof.
  intros Hs. assert (Hnew : replies_ok [] (newService view)) by (split; [constructor|done|done]).
  apply steps_replies_ok in Hs as [Ho Hu _]; done.
Qed.

(** Two calls: the second while the view shows the first *)
Definition example_shown : Service :=
  (ui_performInteractionRequest "{uuid}" None "c" 1 example_request (newService true)).2.

Lemma ui_calls_replied_once_witness :
  let s := view_sendResponse (result_of_code Succeeded, "4711")
             (automatic_reply response_arguments "d" 2
                (ui_performInteractionRequest "{other}" None "d" 2 example_request example_shown)) in
  replied s = [2%N; 1%N] ∧ NoDup (replied s).
Proof.
  intros s. split; [vm_compute; reflexivity|].
  refine (proj1 (ui_calls_replied_once true [2%N; 1%N] s _)).
  apply steps_event with (s1 := automatic_reply response_arguments "d" 2
    (ui_performInteractionRequest "{other}" None "d" 2 example_request example_shown)); [|constructor].
  apply steps_call with (s1 := example_shown); [|set_solver|constructor; [done|by intros []]].
  apply steps_call with (s1 := newService true); [constructor|set_solver|].
  change example_shown with (automatic_reply response_arguments "c" 1
    (ui_performInteractionRequest "{uuid}" None "c" 1 example_request (newService true))).
  constructor; [done|by intros []].
Defined.

(** A view that answers a request before it has returned from being given it is not
    heard: the response is dropped, the reply is delayed all the same, and no reply
    to the call is ever sent. *)
Theorem early_answer_is_lost uuid response connection message p used c c1 used' c2 :
  m_activeRequestId c = "" → m_activeRequestState c ≠ Waiting → message ∉ replied c →
  ui_performInteractionRequest uuid (Some response) connection message p c = (None, c1) →
  steps True (message :: used) c1 used' c2 → message ∉ replied c2.
Proof.
  intros Hid Hst Hm Hp Hsteps.
  cut (unheard message (message :: used) c1); [intros Hu; by apply (steps_unheard _ _ _ _ _ Hsteps) in Hu as []|].
  unfold ui_performInteractionRequest in Hp. rewrite Hid in Hp. simpl in Hp.
  unfold on_view, view_performRequest in Hp.
  destruct (m_interactionView c); [|done]. destruct (m_uiService c); [done|]. simpl in Hp.
  unfold view_sendResponse, sendResponse in Hp. simpl in Hp. rewrite Hid in Hp. simpl in Hp.
  inversion Hp. split; [set_solver|done|done].
Qed.

(** The view answers early, answers again, and the request is canceled. *)
Definition example_early : Service :=
  (ui_performInteractionRequest "{uuid}" (Some (result_of_code Succeeded, "4711")) "c" 1
     example_request (newService true)).2.
Definition example_again : Service := view_sendResponse (result_of_code Succeeded, "4711") example_early.

Lemma early_answer_is_lost_witness :
  1%N ∉ replied (method_reply "c" 2 (ui_cancelInteractionRequest "{uuid}" example_again)).
Proof.
  refine (early_answer_is_lost "{uuid}" (result_of_code Succeeded, "4711") "c" 1 example_request []
    (newService true) example_early [2%N; 1%N] _ eq_refl _ _ eq_refl _); [done| |].
  - change (replied (newService true)) with (@nil N). set_solver.
  - apply steps_call with (s1 := example_again); [|set_solver|constructor].
    apply steps_event with (s1 := example_early); constructor.
Defined.
