(* ===== verification/ValueClasses.v ===== *)
(** The value classes of lib/Secrets and lib/Crypto: objects that share their
    private parts until one of them is changed (QSharedDataPointer), their copy
    constructors and setters, and the parameters of key pairs.  The file ends with
    its properties.

    A private part that is shared is copied, by the copy constructor of its class,
    before a setter changes it: that is what Qt documents of QSharedDataPointer, whose
    code is not part of this program.  The statements leave open which setter is
    called; the setters of the classes follow. *)
From S2P Require Import Prelude Result PluginApi CryptoManager PluginFunctionWrappers Processor.
From S2P Require Import CryptoKey Marshalling.

(** * Shared private parts *)

Section CopyOnWrite.
Context {A : Type} (newPrivate : A) (copyPrivate : A → A).

(** The private parts that were made, and the variables of the class with their
    [d_ptr] *)
Record World := mkWorld {
  privates : gmap N A;
  next_private : N;
  variables : gmap string N;
}.

Definition emptyWorld : World := mkWorld ∅ 0 ∅.

(** [T x;], [T x(y);] or [x = y;], [x.setField(v);] and the end of [x] *)
Inductive Statement :=
  | Construct (x : string)
  | Copy (x y : string)
  | Change (x : string) (set : A → A)
  | Destroy (x : string).

(** A new private part for a variable *)
Definition alloc (x : string) (a : A) (w : World) : World :=
  mkWorld (<[next_private w := a]> (privates w)) (N.succ (next_private w))
    (<[x := next_private w]> (variables w)).

Definition shared (x : string) (p : N) (w : World) : bool :=
  bool_decide (map_Exists (λ y q, y ≠ x ∧ q = p) (variables w)).

(** [d_ptr->] in a function that is not const: [detach] *)
Definition detach (x : string) (w : World) : World :=
  match variables w !! x with
  | Some p =>
      if shared x p w then
        match privates w !! p with
        | Some a => alloc x (copyPrivate a) w
        | None => w
        end
      else w
  | None => w
  end.

Definition execute (s : Statement) (w : World) : World :=
  match s with
  | Construct x => alloc x newPrivate w
  | Copy x y =>
      match variables w !! y with
      | Some p => mkWorld (privates w) (next_private w) (<[x := p]> (variables w))
      | None => w
      end
  | Change x set =>
      let w := detach x w in
      match variables w !! x with
      | Some p => mkWorld (alter set p (privates w)) (next_private w) (variables w)
      | None => w
      end
  | Destroy x => mkWorld (privates w) (next_private w) (delete x (variables w))
  end.

Definition run (l : list Statement) (w : World) : World := foldl (λ w s, execute s w) w l.

(** What the functions of a variable see *)
Definition value (x : string) (w : World) : option A :=
  variables w !! x ≫= λ p, privates w !! p.

(** ** Variables with values of their own *)

Definition assign (s : Statement) (m : gmap string A) : gmap string A :=
  match s with
  | Construct x => <[x := newPrivate]> m
  | Copy x y => match m !! y with Some a => <[x := a]> m | None => m end
  | Change x set => alter set x m
  | Destroy x => delete x m
  end.
Definition assign_all (l : list Statement) (m : gmap string A) : gmap string A :=
  foldl (λ m s, assign s m) m l.

(** Each variable has a private part. *)
Definition world_ok (w : World) : Prop :=
  (∀ x p, variables w !! x = Some p → is_Some (privates w !! p))
  ∧ ∀ p, is_Some (privates w !! p) → (p < next_private w)%N.

Lemma alloc_ok x a w : world_ok w → world_ok (alloc x a w).
Proof.
  intros [Hv Hp]. split; simpl.
  - intros y p [[<- <-]|[Hne Hy%Hv]]%lookup_insert_Some; [by rewrite lookup_insert_eq|].
    assert (p < next_private w)%N by (by apply Hp). by rewrite lookup_insert_ne by lia.
  - intros p [a' [[<- _]|[_ Ha]]%lookup_insert_Some]; [lia|].
    assert (p < next_private w)%N by (apply Hp; by exists a'). lia.
Qed.

Lemma value_alloc x y a w :
  world_ok w → value y (alloc x a w) = if bool_decide (y = x) then Some a else value y w.
Proof.
  intros [Hv Hp]. unfold value, alloc. simpl. case_bool_decide as Hyx.
  - subst. rewrite lookup_insert_eq. simpl. by rewrite lookup_insert_eq.
  - rewrite lookup_insert_ne by done. destruct (variables w !! y) as [p|] eqn:E; [|done]. simpl.
    assert (p < next_private w)%N by (apply Hp; by eapply Hv). by rewrite lookup_insert_ne by lia.
Qed.

(** After [detach] the variable has a private part for itself, with the value that
    the copy constructor gives if it was shared; no other variable has changed. *)
Lemma detach_spec x w :
  world_ok w →
  let w' := detach x w in
  world_ok w'
  ∧ (∀ y, y ≠ x → value y w' = value y w)
  ∧ (∀ p, variables w' !! x = Some p → shared x p w' = false)
  ∧ value x w' = match variables w !! x with
                 | Some p => if shared x p w then copyPrivate <$> value x w else value x w
                 | None => value x w
                 end.
Proof.
  intros Hw. unfold detach. destruct (variables w !! x) as [p|] eqn:Hx; [|split_and!; try done; congruence].
  destruct (shared x p w) eqn:Hs; [|split_and!; try done; congruence].
  destruct (proj1 Hw x p Hx) as [a Ha]. rewrite Ha.
  split_and!; [by apply alloc_ok| | |].
  - intros y Hy. rewrite value_alloc by done. by rewrite bool_decide_eq_false_2.
  - simpl. rewrite lookup_insert_eq. intros q [= <-]. apply bool_decide_eq_false.
    intros (y & q & Hy & Hne & ->). simpl in Hy. rewrite lookup_insert_ne in Hy by done.
    destruct (proj1 Hw y _ Hy) as [b Hb].
    assert (next_private w < next_private w)%N by (apply (proj2 Hw); by exists b). lia.
  - rewrite value_alloc, bool_decide_eq_true_2 by done. unfold value. rewrite Hx. simpl. by rewrite Ha.
Qed.

Lemma change_spec x set w :
  world_ok w →
  let w' := execute (Change x set) w in
  world_ok w' ∧ (∀ y, y ≠ x → value y w' = value y w) ∧ value x w' = set <$> value x (detach x w).
Proof.
  intros Hw. destruct (detach_spec x w Hw) as (Hw' & Hother & Hown & _). simpl.
  destruct (variables (detach x w) !! x) as [p|] eqn:Hx.
  - destruct (proj1 Hw' x p Hx) as [a Ha]. split_and!.
    + destruct Hw' as [Hv Hp]. split; simpl.
      * intros y q Hy%Hv. by apply lookup_alter_is_Some.
      * intros q Hq%lookup_alter_is_Some. by apply Hp.
    + intros y Hy. rewrite <- Hother by done. unfold value. simpl.
      destruct (variables (detach x w) !! y) as [q|] eqn:E; [|done]. simpl.
      apply lookup_alter_ne. intros ->. specialize (Hown _ eq_refl).
      apply bool_decide_eq_false in Hown. apply Hown. by eexists y, _.
    + unfold value. simpl. rewrite Hx. simpl. apply lookup_alter_eq.
  - split_and!; [done|done|]. unfold value. by rewrite Hx.
Qed.

(** If the copy constructor copies, the variables behave as if nothing was shared. *)
Lemma execute_refines s w m :
  (∀ a, copyPrivate a = a) → world_ok w → (∀ x, value x w = m !! x) →
  world_ok (execute s w) ∧ ∀ x, value x (execute s w) = assign s m !! x.
Proof.
  intros Hcopy Hw Hm. destruct s as [x|x y|x set|x].
  - split; [by apply alloc_ok|]. intros y. simpl. rewrite value_alloc by done.
    case_bool_decide; subst; [by rewrite lookup_insert_eq|by rewrite lookup_insert_ne].
  - simpl. destruct (variables w !! y) as [p|] eqn:Hy.
    2: { assert (Hmy : m !! y = None) by (rewrite <- Hm; unfold value; by rewrite Hy). by rewrite Hmy. }
    destruct (proj1 Hw y p Hy) as [a Ha].
    assert (Hmy : m !! y = Some a) by (rewrite <- Hm; unfold value; by rewrite Hy). rewrite Hmy. split.
    + destruct Hw as [Hv Hp]. split; [|done]. simpl. intros z q [[<- <-]|[_ Hz]]%lookup_insert_Some; eauto.
    + intros z. unfold value. simpl. destruct (decide (z = x)) as [->|Hz].
      * by rewrite !lookup_insert_eq.
      * rewrite !lookup_insert_ne by done. apply Hm.
  - destruct (change_spec x set w Hw) as (Hw' & Hother & Hown). split; [done|].
    intros y. simpl. destruct (decide (y = x)) as [->|Hy].
    + rewrite lookup_alter_eq, <- Hm. change (value x (execute (Change x set) w) = set <$> value x w).
      rewrite Hown. destruct (detach_spec x w Hw) as (_ & _ & _ & ->). f_equal.
      destruct (variables w !! x) as [p|]; [|done]. case_match; [|done].
      destruct (value x w) as [a|]; [|done]. simpl. by rewrite Hcopy.
    + rewrite lookup_alter_ne, <- Hm by done. by apply Hother.
  - split.
    + destruct Hw as [Hv Hp]. split; [|done]. simpl. intros y p [_ Hy]%lookup_delete_Some. by eapply Hv.
    + intros y. unfold value. simpl. destruct (decide (y = x)) as [->|Hy].
      * by rewrite !lookup_delete_eq.
      * rewrite !lookup_delete_ne by done. apply Hm.
Qed.

Lemma run_ok l w : world_ok w → world_ok (run l w).
Proof.
  revert w. induction l as [|s l IH]; intros w Hw; [done|]. simpl. apply IH. clear IH.
  destruct s as [x|x y|x set|x].
  - by apply alloc_ok.
  - simpl. destruct (variables w !! y) as [p|] eqn:Hy; [|done].
    destruct Hw as [Hv Hp]. split; [|done]. simpl. intros z q [[<- <-]|[_ Hz]]%lookup_insert_Some; eauto.
  - by apply change_spec.
  - destruct Hw as [Hv Hp]. split; [|done]. simpl. intros y p [_ Hy]%lookup_delete_Some. by eapply Hv.
Qed.

Lemma empty_ok : world_ok emptyWorld.
Proof. split; simpl; [intros x p Hx|intros p [a Hx]]; by rewrite lookup_empty in Hx. Qed.

Lemma run_refines l w m :
  (∀ a, copyPrivate a = a) → world_ok w → (∀ x, value x w = m !! x) →
  ∀ x, value x (run l w) = assign_all l m !! x.
Proof.
  intros Hcopy. revert w m. induction l as [|s l IH]; intros w m Hw Hm; [done|]. simpl.
  destruct (execute_refines s w m Hcopy Hw Hm) as [Hw' Hm']. by apply IH.
Qed.

(** A copy that is changed has what the copy constructor made of the original, and
    the change. *)
Lemma copy_then_change x y set w a :
  world_ok w → x ≠ y → value y w = Some a →
  let w' := run [Copy x y; Change x set] w in
  value x w' = Some (set (copyPrivate a)) ∧ value y w' = Some a.
Proof.
  intros Hw Hxy Hy. unfold value in Hy. destruct (variables w !! y) as [p|] eqn:Hp; [|done]. simpl in Hy.
  set (w1 := mkWorld (privates w) (next_private w) (<[x := p]> (variables w))).
  assert (E : run [Copy x y] w = w1) by (simpl; by rewrite Hp).
  assert (Hw1 : world_ok w1) by (rewrite <- E; by apply run_ok).
  cbv zeta. replace (run [Copy x y; Change x set] w) with (execute (Change x set) w1)
    by (rewrite <- E; done).
  destruct (change_spec x set w1 Hw1) as (_ & Hother & Hx). rewrite Hx, Hother by done. clear Hother Hx. destruct (detach_spec x w1 Hw1) as (_ & _ & _ & ->).
  unfold value. simpl. rewrite lookup_insert_eq, lookup_insert_ne, Hp by done. simpl. rewrite Hy.
  unfold shared. rewrite bool_decide_eq_true_2; [done|].
  exists y, p. simpl. by rewrite lookup_insert_ne.
Qed.

End CopyOnWrite.

(** * Copy constructors *)

(** Those that copy all fields: [SecretIdentifierPrivate] and [KeyIdentifierPrivate],
    [SecretPrivate], [ResultPrivate] of both libraries, [KeyPrivate],
    [InteractionResponsePrivate] and [KeyPairGenerationParametersPrivate]. *)
Definition copy_Identifier (i : Identifier) : Identifier :=
  mkIdentifier (ident_name i) (ident_collectionName i) (ident_storagePluginName i).
Definition copy_Secret (s : Secret) : Secret :=
  mkSecret (secret_identifier s) (secret_data s) (secret_filterData s).
Definition copy_Result (r : Result) : Result := mkResult (code r) (errorCode r) (errorMessage r).
Definition copy_CResult (r : CResult) : CResult :=
  mkCResult (c_code r) (c_errorCode r) (c_storageErrorCode r) (c_errorMessage r).
Definition copy_Key (k : CKey) : CKey :=
  mkKey (k_identifier k) (k_origin k) (k_algorithm k) (k_operations k) (k_componentConstraints k)
    (k_size k) (k_publicKey k) (k_privateKey k) (k_secretKey k) (k_customParameters k) (k_filterData k).
Definition copy_Response (r : Result * bytes) : Result * bytes := (r.1, r.2).
Definition copy_KeyPairParameters (p : KeyPairParameters) : KeyPairParameters :=
  mkKeyPairParameters (kp_keyPairType p) (kp_customParameters p) (kp_numbers p) (kp_arrays p).

(** [InteractionParametersPrivate] of lib/Secrets: without the plugin *)
Definition copy_InteractionParameters (i : FullInteraction) : FullInteraction :=
  mkFullInteraction (copied (full_parameters i)) (full_promptText i) (full_echoMode i).

(** [InteractionParametersPrivate] of lib/Crypto: without both plugins *)
Definition copy_CryptoInteractionParameters (i : FullInteraction) : FullInteraction :=
  let p := full_parameters i in
  mkFullInteraction
    (mkInteraction (ip_secretName p) (ip_collectionName p) "" (ip_applicationId p) (ip_operation p) ""
       (ip_inputType p))
    (full_promptText i) (full_echoMode i).

(** [KeyDerivationParametersPrivate]: the parallelism is not initialized, but what
    happens to be in the memory. *)
Definition copy_KeyDerivationParameters (memory : Z) (d : FullDerivation) : FullDerivation :=
  mkFullDerivation (full_derivation d) (full_algorithm d) (full_memorySize d) memory
    (full_customParameters d).

(** * New objects *)

Definition MacUnknown : Z := 0.
Definition DigestUnknown : Z := 0.

Definition newIdentifier : Identifier := mkIdentifier "" "" "".
Definition newResult : Result := mkResult Succeeded NoError "".
Definition newCResult : CResult := mkCResult Succeeded 0 0 "".
Definition newInteractionParameters : FullInteraction :=
  mkFullInteraction (mkInteraction "" "" "" "" UnknownOperation "" 0) ∅ 2.
Definition newKeyDerivationParameters : FullDerivation :=
  mkFullDerivation (mkKdf KdfUnknown MacUnknown DigestUnknown 16384 "" "" 256) AlgorithmUnknown 16384 1 ∅.

(** * Setters of identifiers, secrets and responses *)

Definition Identifier_setName (v : string) (i : Identifier) : Identifier :=
  mkIdentifier v (ident_collectionName i) (ident_storagePluginName i).
Definition Identifier_setCollectionName (v : string) (i : Identifier) : Identifier :=
  mkIdentifier (ident_name i) v (ident_storagePluginName i).
Definition Identifier_setStoragePluginName (v : string) (i : Identifier) : Identifier :=
  mkIdentifier (ident_name i) (ident_collectionName i) v.

(** [Secret::FilterDataFieldType], [Secret::TypeUnknown] *)
Definition FilterDataFieldType : string := "Type".
Definition TypeUnknown : string := "Unknown".

Definition Secret_setFilterDataField (field v : string) (s : Secret) : Secret :=
  mkSecret (secret_identifier s) (secret_data s) (<[field := v]> (secret_filterData s)).
Definition Secret_setType (v : string) : Secret → Secret := Secret_setFilterDataField FilterDataFieldType v.
Definition Secret_setIdentifier (i : Identifier) (s : Secret) : Secret :=
  mkSecret i (secret_data s) (secret_filterData s).
Definition Secret_setName (v : string) (s : Secret) : Secret :=
  Secret_setIdentifier (Identifier_setName v (secret_identifier s)) s.
Definition Secret_setCollectionName (v : string) (s : Secret) : Secret :=
  Secret_setIdentifier (Identifier_setCollectionName v (secret_identifier s)) s.
Definition Secret_setStoragePluginName (v : string) (s : Secret) : Secret :=
  Secret_setIdentifier (Identifier_setStoragePluginName v (secret_identifier s)) s.
Definition Secret_setData (v : bytes) (s : Secret) : Secret :=
  mkSecret (secret_identifier s) v (secret_filterData s).
Definition Secret_setFilterData (v : FilterData) (s : Secret) : Secret :=
  mkSecret (secret_identifier s) (secret_data s) v.

(** [Secret()] *)
Definition newSecret : Secret := Secret_setType TypeUnknown (mkSecret newIdentifier "" ∅).

Definition Response_setResult (v : Result) (r : Result * bytes) : Result * bytes := (v, r.2).
Definition Response_setResponseData (v : bytes) (r : Result * bytes) : Result * bytes := (r.1, v).

(** * Setters of interaction parameters

    A setter that is given the value of the field changes nothing, but detaches. *)
Definition ip_set (f : InteractionParameters → InteractionParameters) (i : FullInteraction)
  : FullInteraction :=
  mkFullInteraction (f (full_parameters i)) (full_promptText i) (full_echoMode i).
Definition setSecretName (v : string) : FullInteraction → FullInteraction :=
  ip_set (λ p, mkInteraction v (ip_collectionName p) (ip_pluginName p) (ip_applicationId p)
                 (ip_operation p) (ip_authenticationPluginName p) (ip_inputType p)).
Definition setCollectionName (v : string) : FullInteraction → FullInteraction :=
  ip_set (λ p, mkInteraction (ip_secretName p) v (ip_pluginName p) (ip_applicationId p)
                 (ip_operation p) (ip_authenticationPluginName p) (ip_inputType p)).
Definition setPluginName (v : string) : FullInteraction → FullInteraction :=
  ip_set (λ p, mkInteraction (ip_secretName p) (ip_collectionName p) v (ip_applicationId p)
                 (ip_operation p) (ip_authenticationPluginName p) (ip_inputType p)).
Definition setApplicationId (v : string) : FullInteraction → FullInteraction :=
  ip_set (λ p, mkInteraction (ip_secretName p) (ip_collectionName p) (ip_pluginName p) v
                 (ip_operation p) (ip_authenticationPluginName p) (ip_inputType p)).
Definition setOperation (v : Operation) : FullInteraction → FullInteraction :=
  ip_set (λ p, mkInteraction (ip_secretName p) (ip_collectionName p) (ip_pluginName p)
                 (ip_applicationId p) v (ip_authenticationPluginName p) (ip_inputType p)).
Definition setAuthenticationPluginName (v : string) : FullInteraction → FullInteraction :=
  ip_set (λ p, mkInteraction (ip_secretName p) (ip_collectionName p) (ip_pluginName p)
                 (ip_applicationId p) (ip_operation p) v (ip_inputType p)).
Definition setPromptText (v : gmap Z string) (i : FullInteraction) : FullInteraction :=
  mkFullInteraction (full_parameters i) v (full_echoMode i).
Definition setPromptMessage (message : string) : FullInteraction → FullInteraction :=
  setPromptText {[0%Z := message]}.
Definition setInputType (v : Z) : FullInteraction → FullInteraction :=
  ip_set (λ p, mkInteraction (ip_secretName p) (ip_collectionName p) (ip_pluginName p)
                 (ip_applicationId p) (ip_operation p) (ip_authenticationPluginName p) v).
Definition setEchoMode (v : Z) (i : FullInteraction) : FullInteraction :=
  mkFullInteraction (full_parameters i) (full_promptText i) v.

(** * Setters of the parameters of key derivation *)

Definition kdf_set (f : KeyDerivationParameters → KeyDerivationParameters) (d : FullDerivation)
  : FullDerivation :=
  mkFullDerivation (f (full_derivation d)) (full_algorithm d) (full_memorySize d) (full_parallelism d)
    (full_customParameters d).
Definition setInputData (v : bytes) : FullDerivation → FullDerivation :=
  kdf_set (λ k, mkKdf (kdf_function k) (kdf_mac k) (kdf_digest k) (kdf_iterations k) v (kdf_salt k)
                  (kdf_outputKeySize k)).
Definition setSalt (v : bytes) : FullDerivation → FullDerivation :=
  kdf_set (λ k, mkKdf (kdf_function k) (kdf_mac k) (kdf_digest k) (kdf_iterations k) (kdf_inputData k) v
                  (kdf_outputKeySize k)).
Definition setKeyDerivationFunction (v : Z) : FullDerivation → FullDerivation :=
  kdf_set (λ k, mkKdf v (kdf_mac k) (kdf_digest k) (kdf_iterations k) (kdf_inputData k) (kdf_salt k)
                  (kdf_outputKeySize k)).
Definition setKeyDerivationMac (v : Z) : FullDerivation → FullDerivation :=
  kdf_set (λ k, mkKdf (kdf_function k) v (kdf_digest k) (kdf_iterations k) (kdf_inputData k)
                  (kdf_salt k) (kdf_outputKeySize k)).
Definition setKeyDerivationDigestFunction (v : Z) : FullDerivation → FullDerivation :=
  kdf_set (λ k, mkKdf (kdf_function k) (kdf_mac k) v (kdf_iterations k) (kdf_inputData k) (kdf_salt k)
                  (kdf_outputKeySize k)).
Definition setIterations (v : Z) : FullDerivation → FullDerivation :=
  kdf_set (λ k, mkKdf (kdf_function k) (kdf_mac k) (kdf_digest k) v (kdf_inputData k) (kdf_salt k)
                  (kdf_outputKeySize k)).
Definition setOutputKeySize (v : Z) : FullDerivation → FullDerivation :=
  kdf_set (λ k, mkKdf (kdf_function k) (kdf_mac k) (kdf_digest k) (kdf_iterations k) (kdf_inputData k)
                  (kdf_salt k) v).
Definition setKeyDerivationAlgorithm (v : Z) (d : FullDerivation) : FullDerivation :=
  mkFullDerivation (full_derivation d) v (full_memorySize d) (full_parallelism d)
    (full_customParameters d).
Definition setMemorySize (v : Z) (d : FullDerivation) : FullDerivation :=
  mkFullDerivation (full_derivation d) (full_algorithm d) v (full_parallelism d) (full_customParameters d).
Definition setParallelism (v : Z) (d : FullDerivation) : FullDerivation :=
  mkFullDerivation (full_derivation d) (full_algorithm d) (full_memorySize d) v (full_customParameters d).
Definition setCustomParameters (v : QVariantMap) (d : FullDerivation) : FullDerivation :=
  mkFullDerivation (full_derivation d) (full_algorithm d) (full_memorySize d) (full_parallelism d) v.

(** * Parameters of key pairs *)

Definition setKeyPairType (v : Z) (p : KeyPairParameters) : KeyPairParameters :=
  mkKeyPairParameters v (kp_customParameters p) (kp_numbers p) (kp_arrays p).
Definition kp_setCustomParameters (v : FilterData) (p : KeyPairParameters) : KeyPairParameters :=
  mkKeyPairParameters (kp_keyPairType p) v (kp_numbers p) (kp_arrays p).

(** [m_subclassParameters.insert(field, v)] *)
Definition insert_number (field : string) (v : Z) (p : KeyPairParameters) : KeyPairParameters :=
  mkKeyPairParameters (kp_keyPairType p) (kp_customParameters p) (<[field := v]> (kp_numbers p))
    (kp_arrays p).
Definition insert_array (field : string) (v : bytes) (p : KeyPairParameters) : KeyPairParameters :=
  mkKeyPairParameters (kp_keyPairType p) (kp_customParameters p) (kp_numbers p)
    (<[field := v]> (kp_arrays p)).

Definition setEllipticCurve : Z → KeyPairParameters → KeyPairParameters := insert_number "ellipticCurve".
Definition setModulusLength : Z → KeyPairParameters → KeyPairParameters := insert_number "modulusLength".
Definition setNumberPrimes : Z → KeyPairParameters → KeyPairParameters := insert_number "numberPrimes".
Definition setPublicExponent : Z → KeyPairParameters → KeyPairParameters := insert_number "publicExponent".
Definition setPrimeFactorLength : Z → KeyPairParameters → KeyPairParameters :=
  insert_number "primeFactorLength".
Definition setPrivateExponentLength : Z → KeyPairParameters → KeyPairParameters :=
  insert_number "privateExponentLength".
Definition setGenerateFamilyParameters (b : bool) : KeyPairParameters → KeyPairParameters :=
  insert_number "generateFamilyParameters" (if b then 1 else 0)%Z.
Definition setModulus : bytes → KeyPairParameters → KeyPairParameters := insert_array "modulus".
Definition setPrimeFactor : bytes → KeyPairParameters → KeyPairParameters := insert_array "primeFactor".
Definition setBase : bytes → KeyPairParameters → KeyPairParameters := insert_array "base".

(** The constructors *)
Definition newKeyPairParameters : KeyPairParameters := mkKeyPairParameters AlgorithmUnknown ∅ ∅ ∅.
Definition EcKeyPairGenerationParameters : KeyPairParameters :=
  setEllipticCurve CurveSecp384r1 (setKeyPairType KeyPairEc newKeyPairParameters).
Definition RsaKeyPairGenerationParameters : KeyPairParameters :=
  setPublicExponent 65537 (setNumberPrimes 2 (setModulusLength 4096
    (setKeyPairType KeyPairRsa newKeyPairParameters))).
Definition DsaKeyPairGenerationParameters : KeyPairParameters :=
  setGenerateFamilyParameters false (setPrimeFactorLength 256 (setModulusLength 3072
    (setKeyPairType KeyPairDsa newKeyPairParameters))).
Definition DhKeyPairGenerationParameters : KeyPairParameters :=
  setGenerateFamilyParameters false (setPrivateExponentLength 256 (setModulusLength 3072
    (setKeyPairType KeyPairDh newKeyPairParameters))).

(** * Properties *)

(** The objects of a class behave as if each variable had a value of its own. *)
Definition is_value_class {A} (newPrivate : A) (copyPrivate : A → A) : Prop :=
  ∀ l x, value x (run newPrivate copyPrivate l emptyWorld) = assign_all newPrivate l ∅ !! x.

Lemma complete_copy_value_class {A} (newPrivate : A) (copyPrivate : A → A) :
  (∀ a, copyPrivate a = a) → is_value_class newPrivate copyPrivate.
Proof.
  intros Hcopy l x. apply run_refines; [done|apply empty_ok|].
  intros y. unfold value. simpl. by rewrite !lookup_empty.
Qed.

(** C34: Identifiers, secrets, keys, results, responses and the parameters of key pairs
    are values: although copies share their private parts until one is changed, no
    sequence of declarations, copies, assignments, changes and destructions can be
    told apart from one in which each variable has a value of its own. *)
Theorem value_classes_are_values :
  is_value_class newIdentifier copy_Identifier ∧ is_value_class newSecret copy_Secret
  ∧ is_value_class noCKey copy_Key ∧ is_value_class newResult copy_Result
  ∧ is_value_class newCResult copy_CResult ∧ is_value_class (newResult, "") copy_Response
  ∧ is_value_class newKeyPairParameters copy_KeyPairParameters.
Proof. split_and!; apply complete_copy_value_class; by intros []. Qed.

(** A copy of [y] that is changed *)
Definition changed_copy {A} (newPrivate : A) (copyPrivate : A → A) (l : list Statement) (x y : string)
  (set : A → A) : option A :=
  value x (run newPrivate copyPrivate (l ++ [Copy x y; Change x set]) emptyWorld).

Lemma changed_copy_spec {A} (newPrivate : A) (copyPrivate : A → A) l x y set a :
  x ≠ y → value y (run newPrivate copyPrivate l emptyWorld) = Some a →
  changed_copy newPrivate copyPrivate l x y set = Some (set (copyPrivate a)).
Proof.
  intros Hxy Hy. unfold changed_copy, run. rewrite foldl_app.
  apply (copy_then_change newPrivate copyPrivate x y set
    (run newPrivate copyPrivate l emptyWorld) a); [apply run_ok, empty_ok|done|done].
Qed.

(** So a copy of a secret that is renamed, moved or given other data is the original
    with this one change, its type and filter data among what is kept. *)
Theorem changed_secret_keeps_rest l x y a name data :
  x ≠ y → value y (run newSecret copy_Secret l emptyWorld) = Some a →
  changed_copy newSecret copy_Secret l x y (Secret_setName name)
    = Some (mkSecret (Identifier_setName name (secret_identifier a)) (secret_data a) (secret_filterData a))
  ∧ changed_copy newSecret copy_Secret l x y (Secret_setData data)
    = Some (mkSecret (secret_identifier a) data (secret_filterData a)).
Proof. intros Hxy Hy. rewrite !(changed_copy_spec _ _ _ _ _ _ a) by done. by destruct a. Qed.

Lemma changed_secret_keeps_rest_witness :
  secret_filterData <$> changed_copy newSecret copy_Secret [Construct "y"] "x" "y" (Secret_setName "pin")
  = Some {["Type" := "Unknown"]}.
Proof.
  rewrite (proj1 (changed_secret_keeps_rest [Construct "y"] "x" "y" newSecret "pin" "" ltac:(done) eq_refl)).
  reflexivity.
Defined.

(** Interaction parameters are not: after any statements, a copy of interaction
    parameters of lib/Secrets has no plugin any more once it is changed, and one of
    lib/Crypto neither a plugin nor an authentication plugin, whatever the original
    has; unless it is this field that is set. *)
Theorem changed_interaction_loses_plugin l x y i application plugin :
  x ≠ y →
  (value y (run newInteractionParameters copy_InteractionParameters l emptyWorld) = Some i →
   (ip_pluginName ∘ full_parameters
      <$> changed_copy newInteractionParameters copy_InteractionParameters l x y
            (setApplicationId application)) = Some ""
   ∧ (ip_pluginName ∘ full_parameters
        <$> changed_copy newInteractionParameters copy_InteractionParameters l x y
              (setPluginName plugin)) = Some plugin)
  ∧ (value y (run newInteractionParameters copy_CryptoInteractionParameters l emptyWorld) = Some i →
     let j := changed_copy newInteractionParameters copy_CryptoInteractionParameters l x y
                (setApplicationId application) in
     (ip_pluginName ∘ full_parameters <$> j) = Some ""
     ∧ (ip_authenticationPluginName ∘ full_parameters <$> j) = Some "").
Proof. intros Hxy. split; intros Hy; cbv zeta; by rewrite !(changed_copy_spec _ _ _ _ _ _ i). Qed.

Lemma changed_interaction_loses_plugin_witness :
  let l := [Construct "y"; Change "y" (setPluginName "org.sailfishos.secrets.plugin.encryption.openssl")] in
  (ip_pluginName ∘ full_parameters
     <$> changed_copy newInteractionParameters copy_InteractionParameters l "x" "y"
           (setApplicationId "app")) = Some "".
Proof.
  exact (proj1 (proj1 (changed_interaction_loses_plugin
    [Construct "y"; Change "y" (setPluginName "org.sailfishos.secrets.plugin.encryption.openssl")] "x" "y"
    (setPluginName "org.sailfishos.secrets.plugin.encryption.openssl" newInteractionParameters) "app" ""
    ltac:(done)) eq_refl)).
Defined.

(** A copy of parameters of key derivation has an arbitrary parallelism once another
    field is changed: what happens to be in the memory. *)
Theorem changed_derivation_loses_parallelism memory l x y d size :
  x ≠ y →
  value y (run newKeyDerivationParameters (copy_KeyDerivationParameters memory) l emptyWorld) = Some d →
  changed_copy newKeyDerivationParameters (copy_KeyDerivationParameters memory) l x y
    (setOutputKeySize size)
  = Some (setParallelism memory (setOutputKeySize size d)).
Proof. intros Hxy Hy. by rewrite (changed_copy_spec _ _ _ _ _ _ d). Qed.

Lemma changed_derivation_loses_parallelism_witness :
  full_parallelism <$> changed_copy newKeyDerivationParameters (copy_KeyDerivationParameters 4711)
    [Construct "y"] "x" "y" (setOutputKeySize 128) = Some 4711%Z.
Proof.
  rewrite (changed_derivation_loses_parallelism 4711 [Construct "y"] "x" "y" newKeyDerivationParameters 128
    ltac:(done) eq_refl). reflexivity.
Defined.

(** The parameters that the constructors of the four kinds of key pairs give are
    valid, and stay so exactly as long as their fields make sense. *)
Theorem key_pair_parameters_valid curve modulus primes exponent factor :
  let rsa := setPublicExponent exponent (setNumberPrimes primes (setModulusLength modulus
               RsaKeyPairGenerationParameters)) in
  let dsa := setPrimeFactorLength factor (setModulusLength modulus DsaKeyPairGenerationParameters) in
  let dh := setPrivateExponentLength factor (setModulusLength modulus DhKeyPairGenerationParameters) in
  (kp_isValid EcKeyPairGenerationParameters && kp_isValid RsaKeyPairGenerationParameters
   && kp_isValid DsaKeyPairGenerationParameters && kp_isValid DhKeyPairGenerationParameters = true)
  ∧ (kp_isValid (setEllipticCurve curve EcKeyPairGenerationParameters) = true ↔ curve ≠ CurveUnknown)
  ∧ (kp_isValid rsa = true ↔ (0 < modulus ∧ 2 ≤ primes ∧ 3 ≤ exponent)%Z)
  ∧ (kp_isValid dsa = true ↔ (0 < modulus ∧ 0 < factor)%Z)
  ∧ (kp_isValid dh = true ↔ (0 < modulus ∧ 0 < factor)%Z).
Proof.
  split; [vm_compute; reflexivity|]. split_and!.
  - change (negb (bool_decide (curve = CurveUnknown)) = true ↔ curve ≠ CurveUnknown).
    rewrite negb_true_iff. apply bool_decide_eq_false.
  - change ((0 <? modulus)%Z && (2 <=? primes)%Z && (3 <=? exponent)%Z = true
      ↔ (0 < modulus ∧ 2 ≤ primes ∧ 3 ≤ exponent)%Z).
    rewrite !andb_true_iff, Z.ltb_lt, !Z.leb_le. tauto.
  - change ((0 <? modulus)%Z && (0 <? factor)%Z = true ↔ (0 < modulus ∧ 0 < factor)%Z).
    by rewrite andb_true_iff, !Z.ltb_lt.
  - change ((0 <? modulus)%Z && (0 <? factor)%Z = true ↔ (0 < modulus ∧ 0 < factor)%Z).
    by rewrite andb_true_iff, !Z.ltb_lt.
Qed.
