(* ===== verification/OpenSslApi.v ===== *)
(** What the crypto code uses of OpenSSL and of the C library.

    OpenSSL itself is a parameter: a class of operations on a state of the
    library, which decides about failures and random numbers.  Memory is modelled
    as far as the code manages it by hand: buffers and contexts are objects at
    addresses, which are allocated and freed; what C leaves undefined is recorded
    as a fault. *)
From S2P Require Import Prelude PluginApi.

(** * Ciphers and digests

    The results of [EVP_aes_128_cbc()], [EVP_sha256()] and so on. *)
Inductive CipherMode := ModeEcb | ModeCbc | ModeCfb1 | ModeCfb8 | ModeCfb128 | ModeOfb | ModeCtr
  | ModeGcm | ModeCcm | ModeXts.
Record Cipher := EVP_aes { cipher_bits : Z; cipher_mode : CipherMode }.
Inductive Digest := EVP_sha1 | EVP_sha256 | EVP_sha512 | EVP_md5.

#[global] Instance CipherMode_eq_dec : EqDecision CipherMode.
Proof. solve_decision. Defined.
#[global] Instance Cipher_eq_dec : EqDecision Cipher.
Proof. solve_decision. Defined.

(** What [EVP_EncryptUpdate] is given: the length of the message that follows
    (CCM), authentication data, or data to encrypt. *)
Inductive UpdateInput := InLength (n : Z) | InAuthentication (b : bytes) | InData (b : bytes).

(** The uses of [EVP_CIPHER_CTX_ctrl] *)
Inductive Control := SetIvLength (n : Z) | SetTagLength (n : Z) | SetTag (tag : bytes).

(** [EVP_PKEY_base_id] *)
Inductive KeyKind := EVP_PKEY_RSA | EVP_PKEY_DSA | EVP_PKEY_DH | EVP_PKEY_EC | EVP_PKEY_OTHER.

#[global] Instance KeyKind_eq_dec : EqDecision KeyKind.
Proof. solve_decision. Defined.

(** The curves and the paddings of RSA that the code uses. *)
Inductive Nid :=
  NID_X9_62_c2pnb163v1 | NID_X9_62_c2pnb163v2 | NID_X9_62_c2pnb163v3 | NID_X9_62_c2pnb176v1 |
  NID_X9_62_c2pnb208w1 | NID_X9_62_c2pnb272w1 | NID_X9_62_c2pnb304w1 | NID_X9_62_c2pnb368w1 |
  NID_X9_62_c2tnb191v1 | NID_X9_62_c2tnb191v2 | NID_X9_62_c2tnb191v3 | NID_X9_62_c2tnb239v1 |
  NID_X9_62_c2tnb239v2 | NID_X9_62_c2tnb239v3 | NID_X9_62_c2tnb359v1 | NID_X9_62_c2tnb431r1 |
  NID_secp160k1 | NID_secp160r1 | NID_secp160r2 | NID_secp192k1 | NID_secp224k1 |
  NID_secp224r1 | NID_secp256k1 | NID_secp384r1 | NID_secp521r1.
Inductive RsaPadding := RSA_NO_PADDING | RSA_PKCS1_PADDING | RSA_PKCS1_OAEP_PADDING.

#[global] Instance Nid_eq_dec : EqDecision Nid.
Proof. solve_decision. Defined.

Inductive Direction := Encrypting | Decrypting.

(** * The library

    Functions return the int of the C function and what they write. *)
Class OpenSsl (L : Type) := {
  CipherCtx : Type;
  MdCtx : Type;
  PKey : Type;
  cipher_ctx_new : CipherCtx;
  md_ctx_new : MdCtx;
  (** Is there memory for one more object? *)
  lib_memory : M L bool;
  (** Symmetric ciphers.  The library reads as many bytes of the key and of the
      initialization vector as the context says. *)
  key_bytes : CipherCtx → nat;
  iv_bytes : CipherCtx → nat;
  lib_EncryptInit : option Cipher → option bytes → option bytes → CipherCtx → M L (Z * CipherCtx);
  lib_DecryptInit : option Cipher → option bytes → option bytes → CipherCtx → M L (Z * CipherCtx);
  lib_EncryptUpdate : UpdateInput → CipherCtx → M L (Z * bytes * CipherCtx);
  lib_DecryptUpdate : UpdateInput → CipherCtx → M L (Z * bytes * CipherCtx);
  lib_EncryptFinal : CipherCtx → M L (Z * bytes * CipherCtx);
  lib_DecryptFinal : CipherCtx → M L (Z * bytes * CipherCtx);
  lib_control : Control → CipherCtx → M L (Z * CipherCtx);
  lib_get_tag : nat → CipherCtx → M L (Z * bytes * CipherCtx);
  (** Digests and signatures *)
  lib_DigestInit : Digest → MdCtx → M L (Z * MdCtx);
  lib_DigestUpdate : bytes → MdCtx → M L (Z * MdCtx);
  lib_DigestFinal : MdCtx → M L (Z * bytes * MdCtx);
  digest_size : Digest → nat;
  lib_DigestSignInit : Digest → PKey → MdCtx → M L (Z * MdCtx);
  lib_DigestSignUpdate : bytes → MdCtx → M L (Z * MdCtx);
  (** The first call asks for the size of the signature. *)
  lib_DigestSignFinal_size : MdCtx → M L (Z * nat * MdCtx);
  lib_DigestSignFinal : MdCtx → M L (Z * bytes * MdCtx);
  lib_DigestVerifyInit : Digest → PKey → MdCtx → M L (Z * MdCtx);
  lib_DigestVerifyUpdate : bytes → MdCtx → M L (Z * MdCtx);
  lib_DigestVerifyFinal : bytes → MdCtx → M L (Z * MdCtx);
  (** Asymmetric encryption: the initialization of the context with a padding,
      the size of the result, and the result. *)
  lib_pkey_encrypt_init : PKey → M L Z;
  lib_pkey_decrypt_init : PKey → M L Z;
  lib_set_padding : PKey → RsaPadding → M L Z;
  lib_pkey_encrypt_size : PKey → RsaPadding → bytes → M L (Z * nat);
  lib_pkey_encrypt : PKey → RsaPadding → bytes → M L (Z * bytes);
  lib_pkey_decrypt_size : PKey → RsaPadding → bytes → M L (Z * nat);
  lib_pkey_decrypt : PKey → RsaPadding → bytes → M L (Z * bytes);
  (** Keys *)
  pkey_kind : PKey → KeyKind;
  pkey_bits : PKey → Z;
  (** [None]: the data are no such key; the flag: a passphrase was asked for. *)
  lib_read_private : bytes → option bytes → M L (option PKey * bool);
  lib_read_public : bytes → option bytes → M L (option PKey * bool);
  lib_write_private : PKey → M L (Z * bytes);
  lib_write_public : PKey → M L (Z * bytes);
  lib_generate_rsa : Z → Z → M L (option PKey);
  (** Elliptic curves: whether parameter generation can be initialized, the
      curve is known, parameters and a key can be generated. *)
  lib_paramgen_init : M L Z;
  lib_set_curve : Nid → M L Z;
  lib_paramgen : Nid → M L Z;
  lib_keygen_init : Nid → M L Z;
  lib_keygen : Nid → M L (Z * PKey);
  (** Other functions *)
  lib_pbkdf2 : bytes → bytes → Z → Digest → nat → M L (Z * bytes);
  lib_RAND_bytes : nat → M L (Z * bytes);
  lib_RAND_add : bytes → Z → M L unit;
  (** What reading [n] bytes of /dev/urandom leaves in a buffer. *)
  lib_urandom : nat → M L bytes;
}.

(** * Memory *)
Inductive Fault := NullPointer | UseAfterFree | DoubleFree | OutOfBounds.

#[global] Instance Fault_eq_dec : EqDecision Fault.
Proof. solve_decision. Defined.

Section memory.
Context {L : Type} `{SSL : OpenSsl L}.

(** An object: a buffer, a context, or one of which only the existence
    matters. *)
Inductive Object := OBuffer (b : bytes) | OCipher (c : CipherCtx) | OMd (c : MdCtx) | OOther.

(** The memory of the process with the library's state.  Addresses are positive
    and not used twice, so that a stale pointer is recognized. *)
Record Memory := mkMemory {
  library : L;
  heap : gmap Z Object;
  next_address : Z;
  faults : list Fault;
}.

Definition on_library {A} (m : M L A) : M Memory A :=
  zoom library (λ l s, mkMemory l (heap s) (next_address s) (faults s)) m.

Definition fault (f : Fault) : M Memory unit :=
  modify (λ s, mkMemory (library s) (heap s) (next_address s) (f :: faults s)).

Definition set_heap (h : gmap Z Object) (s : Memory) : Memory :=
  mkMemory (library s) h (next_address s) (faults s).

(** Allocation; a null pointer if there is no memory. *)
Definition allocate (o : Object) : M Memory Z :=
  let* available := on_library lib_memory in
  if (available : bool) then
    let* a := gets next_address in
    modify (λ s, mkMemory (library s) (<[a := o]> (heap s)) (a + 1)%Z (faults s)) ;;;
    ret a
  else ret 0%Z.

(** [free], [OPENSSL_free], [EVP_CIPHER_CTX_free] and the like accept null
    pointers. *)
Definition free (a : Z) : M Memory unit :=
  if bool_decide (a = 0%Z) then ret tt else
  let* h := gets heap in
  match h !! a with
  | Some _ => modify (set_heap (delete a h))
  | None => fault DoubleFree
  end.

Definition stale (a : Z) : Fault := if bool_decide (a = 0%Z) then NullPointer else UseAfterFree.

(** Zero bytes, [memset(p, 0, n)] *)
Fixpoint zeros (n : nat) : bytes :=
  match n with O => "" | S n => String.String Ascii.zero (zeros n) end.

(** [malloc(n)] followed by [memset], which does not test the pointer. *)
Definition malloc_zero (n : nat) : M Memory Z :=
  let* a := allocate (OBuffer (zeros n)) in
  (if bool_decide (a = 0%Z) then fault NullPointer else ret tt) ;;; ret a.

(** The first [n] bytes and the rest. *)
Definition take_bytes (n : nat) (b : bytes) : bytes := String.substring 0 n b.
Definition drop_bytes (n : nat) (b : bytes) : bytes := String.substring n (String.length b - n) b.

(** Write [out] at an offset of a buffer. *)
Definition write (a : Z) (offset : nat) (out : bytes) : M Memory unit :=
  let* h := gets heap in
  match h !! a with
  | Some (OBuffer b) =>
      if (offset + String.length out <=? String.length b)%nat then
        modify (set_heap (<[a := OBuffer (take_bytes offset b +:+ out
                                         +:+ drop_bytes (offset + String.length out) b)]> h))
      else fault OutOfBounds
  | _ => fault (stale a)
  end.

(** [QByteArray(p, n)]: copy the first [n] bytes of a buffer. *)
Definition read (a : Z) (n : nat) : M Memory bytes :=
  let* h := gets heap in
  match h !! a with
  | Some (OBuffer b) =>
      if (n <=? String.length b)%nat then ret (take_bytes n b) else fault OutOfBounds ;;; ret b
  | _ => fault (stale a) ;;; ret ""
  end.

(** A function of the library on the cipher context at an address. *)
Definition on_cipher {A} (a : Z) (f : CipherCtx → M L (A * CipherCtx)) (failed : A) : M Memory A :=
  let* h := gets heap in
  match h !! a with
  | Some (OCipher c) =>
      let* '(r, c) := on_library (f c) in
      let* h := gets heap in
      modify (set_heap (<[a := OCipher c]> h)) ;;; ret r
  | _ => fault (stale a) ;;; ret failed
  end.

Definition on_md {A} (a : Z) (f : MdCtx → M L (A * MdCtx)) (failed : A) : M Memory A :=
  let* h := gets heap in
  match h !! a with
  | Some (OMd c) =>
      let* '(r, c) := on_library (f c) in
      let* h := gets heap in
      modify (set_heap (<[a := OMd c]> h)) ;;; ret r
  | _ => fault (stale a) ;;; ret failed
  end.

(** * The functions on cipher contexts *)

Definition EVP_CIPHER_CTX_new : M Memory Z := allocate (OCipher cipher_ctx_new).
Definition EVP_MD_CTX_create : M Memory Z := allocate (OMd md_ctx_new).

(** An argument that is read up to the length the context says. *)
Definition reads (arg : option bytes) (n : nat) : M Memory unit :=
  match arg with
  | Some b => if (n <=? String.length b)%nat then ret tt else fault OutOfBounds
  | None => ret tt
  end.

(** The library's functions come in pairs. *)
Definition lib_init (d : Direction) :=
  match d with Encrypting => lib_EncryptInit | Decrypting => lib_DecryptInit end.
Definition lib_update (d : Direction) :=
  match d with Encrypting => lib_EncryptUpdate | Decrypting => lib_DecryptUpdate end.
Definition lib_final (d : Direction) :=
  match d with Encrypting => lib_EncryptFinal | Decrypting => lib_DecryptFinal end.

(** [EVP_EncryptInit_ex], [EVP_DecryptInit_ex] *)
Definition EVP_Init (d : Direction) (a : Z) (cipher : option Cipher) (key iv : option bytes) : M Memory Z :=
  let* '(r, sizes) := on_cipher a
    (λ c, let* '(r, c) := lib_init d cipher key iv c in ret (r, (key_bytes c, iv_bytes c), c))
    (0%Z, (0%nat, 0%nat)) in
  if bool_decide (r = 0%Z) then ret r else
  reads key sizes.1 ;;; reads iv sizes.2 ;;; ret r.

(** What an update or a finalization writes goes to a buffer at an offset; the
    result is the int and the number of bytes. *)
Definition cipher_out (m : CipherCtx → M L (Z * bytes * CipherCtx)) (a : Z) (out : option (Z * nat))
  : M Memory (Z * nat) :=
  let* '(r, bytes) := on_cipher a m (0%Z, "") in
  match out with
  | Some (buffer, offset) => write buffer offset bytes
  | None => ret tt
  end ;;;
  ret (r, String.length bytes).
(** [EVP_EncryptUpdate], [EVP_DecryptUpdate], [EVP_EncryptFinal_ex],
    [EVP_DecryptFinal_ex] *)
Definition EVP_Update (d : Direction) (a : Z) (out : option (Z * nat)) (input : UpdateInput)
  : M Memory (Z * nat) := cipher_out (lib_update d input) a out.
Definition EVP_Final (d : Direction) (a : Z) (out : option (Z * nat)) : M Memory (Z * nat) :=
  cipher_out (lib_final d) a out.
Definition EVP_CIPHER_CTX_ctrl (a : Z) (control : Control) : M Memory Z :=
  on_cipher a (lib_control control) 0%Z.
Definition EVP_CTRL_GET_TAG (a : Z) (n : nat) (buffer : Z) : M Memory Z :=
  let* '(r, _) := cipher_out (lib_get_tag n) a (Some (buffer, 0%nat)) in ret r.
End memory.

Arguments Object L {SSL}.
Arguments Memory L {SSL}.
Arguments mkMemory {L SSL}.

(** * Reasoning about the memory of OpenSslApi: what each primitive does to a heap
    without faults, and what the documentation of OpenSSL says about the sizes of
    what it reads and writes. *)

(** * Byte strings *)
Lemma zeros_length n : String.length (zeros n) = n.
Proof. induction n; simpl; congruence. Qed.

Lemma take_bytes_length n b : String.length (take_bytes n b) = Nat.min n (String.length b).
Proof. revert n. induction b as [|c b IH]; intros [|n]; simpl; [done..|]. by rewrite <-IH. Qed.

Lemma drop_bytes_all n b : String.length b ≤ n → drop_bytes n b = "".
Proof.
  unfold drop_bytes. intros Hn. replace (String.length b - n) with 0 by lia.
  clear Hn. revert n. induction b as [|c b IH]; intros [|n]; simpl; auto.
Qed.

Lemma substring_cons m n c b : String.substring (S m) n (String.String c b) = String.substring m n b.
Proof. done. Qed.

Lemma drop_bytes_length n b : String.length (drop_bytes n b) = String.length b - n.
Proof.
  unfold drop_bytes. revert n. induction b as [|c b IH]; intros [|n]; simpl; [done..| |].
  - specialize (IH 0). rewrite Nat.sub_0_r in IH. by rewrite IH.
  - apply (IH n).
Qed.

Lemma take_app a b : take_bytes (String.length a) (a +:+ b) = a.
Proof. unfold take_bytes. induction a as [|c a IH]; simpl; [by destruct b|]. by rewrite IH. Qed.

Lemma take_bytes_0 b : take_bytes 0 b = "".
Proof. by destruct b. Qed.

Lemma app_empty_l (b : bytes) : "" +:+ b = b.
Proof. done. Qed.

Lemma length_app_bytes (a b : bytes) : String.length (a +:+ b) = String.length a + String.length b.
Proof. induction a as [|x a IH]; simpl; [done|]. unfold String.app in *. by rewrite IH. Qed.

Lemma string_app_assoc' (a b c : bytes) : (a +:+ b) +:+ c = a +:+ (b +:+ c).
Proof. induction a as [|x a IH]; simpl; [done|]. unfold String.app in *. by rewrite IH. Qed.

Section rules.
Context {L : Type} `{SSL : OpenSsl L}.
Implicit Types (h : gmap Z (Object L)) (s : Memory L).

(** * A heap without faults *)
Definition mem h s : Prop :=
  heap s = h ∧ faults s = [] ∧ (0 < next_address s)%Z
  ∧ ∀ a, is_Some (h !! a) → (0 < a < next_address s)%Z.

Lemma mem_null h s : mem h s → h !! 0%Z = None.
Proof. intros (_&_&_&Ha). destruct (h !! 0%Z) eqn:E; [|done]. pose proof (Ha 0%Z ltac:(eauto)). lia. Qed.

Lemma mem_alter h s a o : is_Some (h !! a) → mem h s → mem (<[a := o]> h) (set_heap (<[a := o]> h) s).
Proof.
  intros Hs (_&Hf&Hn&Ha). split_and!; [done..|]. intros b Hb. simpl. apply Ha.
  destruct (decide (b = a)) as [->|]; [done|]. by rewrite lookup_insert_ne in Hb.
Qed.

Lemma wp_on_library {A} (m : M L A) Q h s :
  mem h s → (∀ s', mem h s' → Q (m (library s)).1 s') → wp (on_library m) Q s.
Proof.
  intros Hm HQ. apply wp_zoom. unfold wp. destruct (m (library s)) as [a l]. apply HQ.
  destruct s. by apply Hm.
Qed.

Lemma wp_new o (Q : Z → Memory L → Prop) h s :
  mem h s →
  (∀ a s', (0 < a)%Z → h !! a = None → mem (<[a := o]> h) s' → Q a s') →
  wp (let* a := gets next_address in
      modify (λ s, mkMemory (library s) (<[a := o]> (heap s)) (a + 1)%Z (faults s)) ;;; ret a) Q s.
Proof.
  intros (Hh&Hf&Hn&Ha) HQ. apply wp_bind, wp_gets, wp_bind, wp_modify, wp_ret.
  assert (h !! next_address s = None) as Hx.
  { destruct (h !! next_address s) eqn:E; [|done]. pose proof (Ha _ (ex_intro _ _ E)). lia. }
  apply HQ; [done..|]. split_and!; simpl; [by rewrite Hh|done|lia|]. intros b Hb.
  destruct (decide (b = next_address s)) as [->|]; [lia|]. rewrite lookup_insert_ne in Hb by done.
  specialize (Ha b Hb). lia.
Qed.

(** An allocation fails or gives a new object. *)
Lemma wp_allocate o (Q : Z → Memory L → Prop) h s :
  mem h s →
  (∀ s', mem h s' → Q 0%Z s') →
  (∀ a s', (0 < a)%Z → h !! a = None → mem (<[a := o]> h) s' → Q a s') →
  wp (allocate o) Q s.
Proof.
  intros Hm H0 HQ. apply wp_bind. apply (wp_on_library _ _ h); [done|]. intros s' Hs'.
  destruct (lib_memory (library s)).1; [|by apply wp_ret, H0]. by apply (wp_new _ _ h).
Qed.

Lemma wp_free a o (Q : unit → Memory L → Prop) h s :
  mem h s → h !! a = Some o → (∀ s', mem (delete a h) s' → Q tt s') → wp (free a) Q s.
Proof.
  intros Hm Ha HQ. unfold free. rewrite bool_decide_false.
  2: { intros ->. by rewrite (mem_null h s) in Ha. }
  apply wp_bind, wp_gets. rewrite (proj1 Hm), Ha. apply wp_modify, HQ.
  destruct Hm as (Hh&Hf&Hn&Hb). split_and!; [done..|]. intros b Hs. simpl. apply Hb.
  eapply lookup_delete_is_Some in Hs. by destruct Hs.
Qed.

Lemma wp_free_null (Q : unit → Memory L → Prop) s : Q tt s → wp (free 0%Z) Q s.
Proof. done. Qed.

Lemma wp_write a b offset out (Q : unit → Memory L → Prop) h s :
  mem h s → h !! a = Some (OBuffer b) → offset + String.length out ≤ String.length b →
  (∀ s', mem (<[a := OBuffer (take_bytes offset b +:+ out
                              +:+ drop_bytes (offset + String.length out) b)]> h) s' → Q tt s') →
  wp (write a offset out) Q s.
Proof.
  intros Hm Ha Hl HQ. apply wp_bind, wp_gets. rewrite (proj1 Hm), Ha.
  rewrite (proj2 (Nat.leb_le _ _) Hl). apply wp_modify, HQ, mem_alter; [eauto|done].
Qed.

Lemma wp_read a b n (Q : bytes → Memory L → Prop) h s :
  mem h s → h !! a = Some (OBuffer b) → n ≤ String.length b → Q (take_bytes n b) s → wp (read a n) Q s.
Proof.
  intros Hm Ha Hl HQ. apply wp_bind, wp_gets. rewrite (proj1 Hm), Ha.
  by rewrite (proj2 (Nat.leb_le _ _) Hl).
Qed.

Lemma wp_on_cipher {A} a c f failed (Q : A → Memory L → Prop) h s :
  mem h s → h !! a = Some (OCipher c) →
  (∀ l r c' l', f c l = (r, c', l') → ∀ s', mem (<[a := OCipher c']> h) s' → Q r s') →
  wp (on_cipher a f failed) Q s.
Proof.
  intros Hm Ha HQ. apply wp_bind, wp_gets. rewrite (proj1 Hm), Ha. apply wp_bind.
  apply (wp_on_library _ _ h); [done|]. intros s' Hs'.
  destruct (f c (library s)) as [[r c'] l'] eqn:E. cbn [fst snd].
  apply wp_bind, wp_gets. rewrite (proj1 Hs'). apply wp_bind, wp_modify, wp_ret.
  eapply HQ; [done|]. apply mem_alter; [eauto|done].
Qed.

Lemma wp_on_md {A} a c f failed (Q : A → Memory L → Prop) h s :
  mem h s → h !! a = Some (OMd c) →
  (∀ l r c' l', f c l = (r, c', l') → ∀ s', mem (<[a := OMd c']> h) s' → Q r s') →
  wp (on_md a f failed) Q s.
Proof.
  intros Hm Ha HQ. apply wp_bind, wp_gets. rewrite (proj1 Hm), Ha. apply wp_bind.
  apply (wp_on_library _ _ h); [done|]. intros s' Hs'.
  destruct (f c (library s)) as [[r c'] l'] eqn:E. cbn [fst snd].
  apply wp_bind, wp_gets. rewrite (proj1 Hs'). apply wp_bind, wp_modify, wp_ret.
  eapply HQ; [done|]. apply mem_alter; [eauto|done].
Qed.
End rules.

(** Two heaps built from one by insertions and deletions are equal. *)
Ltac heap_eq :=
  apply map_eq; intros ?i;
  repeat match goal with
  | |- context [delete ?a _ !! ?i] =>
      destruct (decide (i = a)) as [->|]; [rewrite lookup_delete_eq|rewrite lookup_delete_ne by done]
  | |- context [<[?a := _]> _ !! ?i] =>
      destruct (decide (i = a)) as [->|]; [rewrite lookup_insert_eq|rewrite lookup_insert_ne by done]
  end; simplify_map_eq; try done.
