(* ===== verification/OpenSslEvp.v ===== *)
(** The layer over OpenSSL: plugins/opensslcryptoplugin/evp/evp_helpers_p.h and
    evp.cpp.  A null pointer that stands for no result is 0; an output parameter
    is returned. *)
From S2P Require Import Prelude PluginApi CryptoManager OpenSslApi.

(** * Tables *)

Definition MAX_CIPHER_SESSIONS_PER_CLIENT : Z := 5.
Definition GCM_TAG_SIZE : Z := 16.
Definition GCM_IV_SIZE : Z := 12.
Definition CCM_TAG_SIZE : Z := 14.
Definition CCM_IV_SIZE : Z := 7.
Definition AES_BLOCK_SIZE : nat := 16.

Definition initializationVectorSize (algorithm blockMode keySize : Z) : Z :=
  if bool_decide (blockMode = BlockModeEcb) then 0
  else if bool_decide (algorithm = AlgorithmRsa) then 0
  else if bool_decide (algorithm = AlgorithmAes) then
    if bool_decide (blockMode = BlockModeGcm) then GCM_IV_SIZE
    else if bool_decide (blockMode = BlockModeCcm) then CCM_IV_SIZE
    else 16
  else -1.

Definition authenticationTagSize (algorithm blockMode : Z) : Z :=
  if bool_decide (algorithm = AlgorithmAes) then
    if bool_decide (blockMode = BlockModeGcm) then GCM_TAG_SIZE
    else if bool_decide (blockMode = BlockModeCcm) then CCM_TAG_SIZE
    else 0
  else 0.

Definition getEvpDigestFunction (digestFunction : Z) : option Digest :=
  if bool_decide (digestFunction = DigestSha256) then Some EVP_sha256
  else if bool_decide (digestFunction = DigestSha512) then Some EVP_sha512
  else if bool_decide (digestFunction = DigestMd5) then Some EVP_md5
  else None.

(** The sizes of the keys of AES *)
Definition aes_of_size (bits : Z) (mode : CipherMode) : option Cipher :=
  if bool_decide (bits = 128%Z) || bool_decide (bits = 192%Z) || bool_decide (bits = 256%Z)
  then Some (EVP_aes bits mode) else None.

Definition getEvpCipher (block_mode key_length_bytes : Z) : option Cipher :=
  let key_length_bits := (key_length_bytes * 8)%Z in
  if bool_decide (block_mode = BlockModeEcb) then aes_of_size key_length_bits ModeEcb
  else if bool_decide (block_mode = BlockModeCbc) then aes_of_size key_length_bits ModeCbc
  else if bool_decide (block_mode = BlockModeCfb1) then aes_of_size key_length_bits ModeCfb1
  else if bool_decide (block_mode = BlockModeCfb8) then aes_of_size key_length_bits ModeCfb8
  else if bool_decide (block_mode = BlockModeCfb128) then aes_of_size key_length_bits ModeCfb128
  else if bool_decide (block_mode = BlockModeOfb) then aes_of_size key_length_bits ModeOfb
  else if bool_decide (block_mode = BlockModeCtr) then aes_of_size key_length_bits ModeCtr
  else if bool_decide (block_mode = BlockModeGcm) then aes_of_size key_length_bits ModeGcm
  else if bool_decide (block_mode = BlockModeCcm) then aes_of_size key_length_bits ModeCcm
  else if bool_decide (block_mode = BlockModeXts) then
    if bool_decide (key_length_bits = 192%Z) then None else aes_of_size key_length_bits ModeXts
  else None.

Definition getOpenSslRsaPadding (padding : Z) : option RsaPadding :=
  if bool_decide (padding = EncryptionPaddingNone) then Some RSA_NO_PADDING
  else if bool_decide (padding = EncryptionPaddingRsaPkcs1) then Some RSA_PKCS1_PADDING
  else if bool_decide (padding = EncryptionPaddingRsaOaep) then Some RSA_PKCS1_OAEP_PADDING
  else None.

(** A switch over an enumeration as a table. *)
Fixpoint switch {A} (table : list (Z * A)) (v : Z) : option A :=
  match table with
  | [] => None
  | (k, a) :: table => if bool_decide (v = k) then Some a else switch table v
  end.

(** [None] is 0: the curve is not supported. *)
Definition getEllipticCurveNid : Z → option Nid := switch [
  (CurveAX962c2pnb163v1, NID_X9_62_c2pnb163v1);
  (CurveAX962c2pnb163v2, NID_X9_62_c2pnb163v2);
  (CurveAX962c2pnb163v3, NID_X9_62_c2pnb163v3);
  (CurveAX962c2pnb176v1, NID_X9_62_c2pnb176v1);
  (CurveAX962c2pnb208w1, NID_X9_62_c2pnb208w1);
  (CurveAX962c2pnb272w1, NID_X9_62_c2pnb272w1);
  (CurveAX962c2pnb304w1, NID_X9_62_c2pnb304w1);
  (CurveAX962c2pnb368w1, NID_X9_62_c2pnb368w1);
  (CurveAX962c2tnb191v1, NID_X9_62_c2tnb191v1);
  (CurveAX962c2tnb191v2, NID_X9_62_c2tnb191v2);
  (CurveAX962c2tnb191v3, NID_X9_62_c2tnb191v3);
  (CurveAX962c2tnb239v1, NID_X9_62_c2tnb239v1);
  (CurveAX962c2tnb239v2, NID_X9_62_c2tnb239v2);
  (CurveAX962c2tnb239v3, NID_X9_62_c2tnb239v3);
  (CurveAX962c2tnb359v1, NID_X9_62_c2tnb359v1);
  (CurveAX962c2tnb431r1, NID_X9_62_c2tnb431r1);
  (CurveSecp160k1, NID_secp160k1);
  (CurveSecp160r1, NID_secp160r1);
  (CurveSecp160r2, NID_secp160r2);
  (CurveSecp192k1, NID_secp192k1);
  (CurveSecp224k1, NID_secp224k1);
  (CurveSecp224r1, NID_secp224r1);
  (CurveSecp256k1, NID_secp256k1);
  (CurveSecp384r1, NID_secp384r1);
  (CurveSecp521r1, NID_secp521r1)
].

Definition getEllipticCurveKeySize (curve : Z) : Z := default 0%Z (switch [
  (CurveAX962c2pnb163v1, 163);
  (CurveAX962c2pnb163v2, 163);
  (CurveAX962c2pnb163v3, 163);
  (CurveAX962c2pnb176v1, 176);
  (CurveAX962c2pnb208w1, 208);
  (CurveAX962c2pnb272w1, 272);
  (CurveAX962c2pnb304w1, 304);
  (CurveAX962c2pnb368w1, 368);
  (CurveAX962c2tnb191v1, 191);
  (CurveAX962c2tnb191v2, 191);
  (CurveAX962c2tnb191v3, 191);
  (CurveAX962c2tnb239v1, 239);
  (CurveAX962c2tnb239v2, 239);
  (CurveAX962c2tnb239v3, 359);
  (CurveAX962c2tnb359v1, 359);
  (CurveAX962c2tnb431r1, 431);
  (CurveSecp160k1, 160);
  (CurveSecp160r1, 160);
  (CurveSecp160r2, 160);
  (CurveSecp192k1, 192);
  (CurveSecp192r1, 192);
  (CurveSecp224k1, 224);
  (CurveSecp224r1, 224);
  (CurveSecp256k1, 256);
  (CurveSecp256r1, 256);
  (CurveSecp384r1, 384);
  (CurveSecp521r1, 521)
]%Z curve).

Section evp.
Context {L : Type} `{SSL : OpenSsl L}.

(** * Symmetric encryption *)

(** The size of the output and its buffer: the two functions differ in the
    direction. *)
Definition aes_crypt (d : Direction) (evp_cipher : option Cipher) (init_vector key input : bytes)
  : M (Memory L) (Z * Z) :=
  match evp_cipher with
  | None => ret (-1, 0)%Z
  | Some cipher =>
      if isEmpty input || isEmpty key then ret (-1, 0)%Z else
      let* output := malloc_zero (String.length input + AES_BLOCK_SIZE) in
      let* context := EVP_CIPHER_CTX_new in
      let failure := free context ;;; free output ;;; ret (-1, 0)%Z in
      let* r := EVP_Init d context (Some cipher) (Some key) (Some init_vector) in
      if bool_decide (r = 0%Z) then failure else
      let* '(r, update_length) := EVP_Update d context (Some (output, 0%nat)) (InData input) in
      if bool_decide (r = 0%Z) then failure else
      let* '(r, final_length) := EVP_Final d context (Some (output, update_length)) in
      if bool_decide (r = 0%Z) then failure else
      free context ;;;
      ret (Z.of_nat (update_length + final_length), output)
  end.

Definition aes_encrypt_plaintext := aes_crypt Encrypting.
Definition aes_decrypt_ciphertext := aes_crypt Decrypting.

(** A step that is only taken in some modes, with the int 1 otherwise. *)
Definition when (b : bool) (m : M (Memory L) Z) : M (Memory L) Z := if b then m else ret 1%Z.

(** [EVP_CIPHER_mode(evp_cipher)] reads the cipher before it is tested. *)
Definition EVP_CIPHER_mode (evp_cipher : option Cipher) : M (Memory L) (option CipherMode) :=
  match evp_cipher with
  | Some cipher => ret (Some (cipher_mode cipher))
  | None => fault NullPointer ;;; ret None
  end.

Definition is_mode (mode : option CipherMode) (m : CipherMode) : bool := bool_decide (mode = Some m).

(** Both functions begin alike: the context is made for the cipher, the length of
    the vector and what CCM needs are set, key and vector are given, and the
    length and the authentication data. *)
Definition auth_begin (d : Direction) (ci : Cipher) (ctx : Z) (iv key auth : bytes) (n : nat) (ccm : Control)
  {A} (failure : M (Memory L) A) (k : M (Memory L) A) : M (Memory L) A :=
  let mode := Some (cipher_mode ci) in
  let* r := EVP_Init d ctx (Some ci) None None in
  if bool_decide (r = 0%Z) then failure else
  let* r := when (is_mode mode ModeGcm || is_mode mode ModeCcm)
              (EVP_CIPHER_CTX_ctrl ctx (SetIvLength (Z.of_nat (String.length iv)))) in
  if bool_decide (r = 0%Z) then failure else
  let* r := when (is_mode mode ModeCcm) (EVP_CIPHER_CTX_ctrl ctx ccm) in
  if bool_decide (r = 0%Z) then failure else
  let* r := EVP_Init d ctx None (Some key) (Some iv) in
  if bool_decide (r = 0%Z) then failure else
  let* r := when (is_mode mode ModeCcm)
              (let* '(r, _) := EVP_Update d ctx None (InLength (Z.of_nat n)) in ret r) in
  if bool_decide (r = 0%Z) then failure else
  let* '(r, _) := EVP_Update d ctx None (InAuthentication auth) in
  if bool_decide (r = 0%Z) then failure else k.

(** The size, the ciphertext and the tag. *)
Definition aes_auth_encrypt_plaintext (evp_cipher : option Cipher)
  (init_vector key auth plaintext : bytes) (tag_length : Z) : M (Memory L) (Z * Z * Z) :=
  let* mode := EVP_CIPHER_mode evp_cipher in
  match evp_cipher with
  | None => ret (-1, 0, 0)%Z
  | Some cipher =>
      if isEmpty plaintext || isEmpty auth || isEmpty key || (tag_length <=? 0)%Z
      then ret (-1, 0, 0)%Z else
      let* ciphertext := malloc_zero (String.length plaintext + AES_BLOCK_SIZE) in
      let* tag_output := malloc_zero (Z.to_nat tag_length) in
      let* context := EVP_CIPHER_CTX_new in
      let failure := free context ;;; free ciphertext ;;; free tag_output ;;; ret (-1, 0, 0)%Z in
      auth_begin Encrypting cipher context init_vector key auth (String.length plaintext)
        (SetTagLength tag_length) failure (
      let* '(r, update_length) := EVP_Update Encrypting context (Some (ciphertext, 0%nat)) (InData plaintext) in
      if bool_decide (r = 0%Z) then failure else
      let* '(r, final_length) := EVP_Final Encrypting context (Some (ciphertext, update_length)) in
      if bool_decide (r = 0%Z) then failure else
      let* r := when (is_mode mode ModeGcm || is_mode mode ModeCcm)
                  (EVP_CTRL_GET_TAG context (Z.to_nat tag_length) tag_output) in
      if bool_decide (r = 0%Z) then failure else
      free context ;;;
      ret (Z.of_nat (update_length + final_length), ciphertext, tag_output))
  end.

(** The size, the plaintext and [*verified]. *)
Definition aes_auth_decrypt_ciphertext (evp_cipher : option Cipher)
  (init_vector key auth tag ciphertext : bytes) (verified : Z) : M (Memory L) (Z * Z * Z) :=
  let* mode := EVP_CIPHER_mode evp_cipher in
  match evp_cipher with
  | None => ret (-1, 0, verified)%Z
  | Some cipher =>
      if isEmpty ciphertext || isEmpty auth || isEmpty tag || isEmpty key
      then ret (-1, 0, verified)%Z else
      let* plaintext := malloc_zero (String.length ciphertext + AES_BLOCK_SIZE) in
      let* context := EVP_CIPHER_CTX_new in
      let failure := free context ;;; free plaintext ;;; ret (-1, 0, verified)%Z in
      auth_begin Decrypting cipher context init_vector key auth (String.length ciphertext) (SetTag tag) failure (
      let* '(last_update_result, update_length) :=
        EVP_Update Decrypting context (Some (plaintext, 0%nat)) (InData ciphertext) in
      if is_mode mode ModeGcm then
        if bool_decide (last_update_result = 0%Z) then failure else
        let* r := EVP_CIPHER_CTX_ctrl context (SetTag tag) in
        if bool_decide (r = 0%Z) then failure else
        let* '(verified, final_length) := EVP_Final Decrypting context (Some (plaintext, update_length)) in
        free context ;;;
        ret (Z.of_nat (update_length + final_length), plaintext, verified)
      else
        free context ;;;
        ret (Z.of_nat update_length, plaintext,
             if is_mode mode ModeCcm then last_update_result else verified))
  end.

(** * Key derivation *)

Definition pkcs5_pbkdf2_hmac (pass salt : bytes) (iter digestFunction : Z) (keylen : nat)
  : M (Memory L) (Z * bytes) :=
  let md := if bool_decide (digestFunction = 10%Z) then EVP_sha1
            else if bool_decide (digestFunction = 21%Z) then EVP_sha256
            else if bool_decide (digestFunction = 23%Z) then EVP_sha512
            else EVP_sha256 in
  on_library (lib_pbkdf2 pass salt iter md keylen).

(** * Asymmetric encryption *)

Definition key_is_rsa (pkey : PKey) : bool := bool_decide (pkey_kind pkey = EVP_PKEY_RSA).

(** The int, the buffer and its length. *)
Definition pkey_crypt (init : M L Z) (padded : M L Z) (size : M L (Z * nat)) (run : M L (Z * bytes))
  (pkey : PKey) : M (Memory L) (Z * Z * nat) :=
  let* pkctx := allocate OOther in
  if bool_decide (pkctx = 0%Z) then ret (-1, 0, 0%nat)%Z else
  let failure := free pkctx ;;; ret (-1, 0, 0%nat)%Z in
  let* r := on_library init in
  if negb (bool_decide (r = 1%Z)) then failure else
  let* r := when (key_is_rsa pkey) (on_library padded) in
  if negb (bool_decide (r = 1%Z)) then failure else
  let* '(r, length) := on_library size in
  if negb (bool_decide (r = 1%Z)) then failure else
  let* buffer := allocate (OBuffer (zeros length)) in
  if bool_decide (buffer = 0%Z) then failure else
  let* '(r, out) := on_library run in
  write buffer 0 out ;;;
  if negb (bool_decide (r = 1%Z)) then free buffer ;;; failure else
  free pkctx ;;;
  ret (1%Z, buffer, String.length out).

Definition pkey_encrypt_plaintext (pkey : PKey) (padding : RsaPadding) (plaintext : bytes)
  : M (Memory L) (Z * Z * nat) :=
  pkey_crypt (lib_pkey_encrypt_init pkey) (lib_set_padding pkey padding)
    (lib_pkey_encrypt_size pkey padding plaintext) (lib_pkey_encrypt pkey padding plaintext) pkey.

Definition pkey_decrypt_ciphertext (pkey : PKey) (padding : RsaPadding) (ciphertext : bytes)
  : M (Memory L) (Z * Z * nat) :=
  pkey_crypt (lib_pkey_decrypt_init pkey) (lib_set_padding pkey padding)
    (lib_pkey_decrypt_size pkey padding ciphertext) (lib_pkey_decrypt pkey padding ciphertext) pkey.

(** * Digests and signatures *)

Definition digest (digestFunc : Digest) (data : bytes) : M (Memory L) (Z * Z * nat) :=
  let* mdctx := EVP_MD_CTX_create in
  if bool_decide (mdctx = 0%Z) then ret (-1, 0, 0%nat)%Z else
  let failure := free mdctx ;;; ret (-1, 0, 0%nat)%Z in
  let* r := on_md mdctx (lib_DigestInit digestFunc) 0%Z in
  if negb (bool_decide (r = 1%Z)) then failure else
  let* r := on_md mdctx (lib_DigestUpdate data) 0%Z in
  if negb (bool_decide (r = 1%Z)) then failure else
  let* digest := allocate (OBuffer (zeros (digest_size digestFunc))) in
  if bool_decide (digest = 0%Z) then failure else
  let* '(r, out) := on_md mdctx lib_DigestFinal (0%Z, "") in
  write digest 0 out ;;;
  if negb (bool_decide (r = 1%Z)) then free digest ;;; free mdctx ;;; ret (-1, digest, String.length out)%Z
  else free mdctx ;;; ret (r, digest, String.length out).

(** The beginning of a signing or verifying session: the int and the context. *)
Definition session_init (init : MdCtx → M L (Z * MdCtx)) : M (Memory L) (Z * Z) :=
  let* mdctx := EVP_MD_CTX_create in
  if bool_decide (mdctx = 0%Z) then ret (-1, 0)%Z else
  let* r := on_md mdctx init 0%Z in
  if negb (bool_decide (r = 1%Z)) then free mdctx ;;; ret (-1, 0)%Z else
  ret (1%Z, mdctx).

Definition sign_session_init (digestFunc : Digest) (pkey : PKey) : M (Memory L) (Z * Z) :=
  session_init (lib_DigestSignInit digestFunc pkey).
Definition verify_session_init (digestFunc : Digest) (pkey : PKey) : M (Memory L) (Z * Z) :=
  session_init (lib_DigestVerifyInit digestFunc pkey).

(** An update destroys the context if it fails. *)
Definition session_update (update : MdCtx → M L (Z * MdCtx)) (mdctx : Z) : M (Memory L) Z :=
  if bool_decide (mdctx = 0%Z) then ret (-2)%Z else
  let* r := on_md mdctx update 0%Z in
  if negb (bool_decide (r = 1%Z)) then free mdctx ;;; ret (-1)%Z else ret 1%Z.

Definition sign_session_update (mdctx : Z) (data : bytes) : M (Memory L) Z :=
  session_update (lib_DigestSignUpdate data) mdctx.
Definition verify_session_update (mdctx : Z) (data : bytes) : M (Memory L) Z :=
  session_update (lib_DigestVerifyUpdate data) mdctx.

(** The int, the signature and its length; the context is destroyed. *)
Definition sign_session_finalize (mdctx : Z) : M (Memory L) (Z * Z * nat) :=
  if bool_decide (mdctx = 0%Z) then ret (-2, 0, 0%nat)%Z else
  let* '(r, length) := on_md mdctx lib_DigestSignFinal_size (0%Z, 0%nat) in
  if negb (bool_decide (r = 1%Z)) then free mdctx ;;; ret (-1, 0, length)%Z else
  let* signature := allocate (OBuffer (zeros length)) in
  if bool_decide (signature = 0%Z) then free mdctx ;;; ret (-1, 0, length)%Z else
  let* '(r, out) := on_md mdctx lib_DigestSignFinal (0%Z, "") in
  write signature 0 out ;;;
  if negb (bool_decide (r = 1%Z)) then
    free signature ;;; free signature ;;; free mdctx ;;; ret (-1, signature, String.length out)%Z
  else free mdctx ;;; ret (r, signature, String.length out).

Definition verify_session_finalize (mdctx : Z) (signature : bytes) : M (Memory L) Z :=
  if bool_decide (mdctx = 0%Z) then ret (-2)%Z else
  let* r := on_md mdctx (lib_DigestVerifyFinal signature) 0%Z in
  free mdctx ;;; ret r.

Definition sign (digestFunc : Digest) (pkey : PKey) (data : bytes) : M (Memory L) (Z * Z * nat) :=
  let* '(r, mdctx) := sign_session_init digestFunc pkey in
  if negb (bool_decide (r = 1%Z)) then ret (-1, 0, 0%nat)%Z else
  let* r := sign_session_update mdctx data in
  if negb (bool_decide (r = 1%Z)) then ret (-1, 0, 0%nat)%Z else
  let* '(r, signature, length) := sign_session_finalize mdctx in
  ret (if bool_decide (r = 1%Z) then 1 else -1, signature, length)%Z.

Definition verify (digestFunc : Digest) (pkey : PKey) (data signature : bytes) : M (Memory L) Z :=
  let* '(r, mdctx) := verify_session_init digestFunc pkey in
  if negb (bool_decide (r = 1%Z)) then ret (-1)%Z else
  let* r := verify_session_update mdctx data in
  if negb (bool_decide (r = 1%Z)) then ret (-1)%Z else
  verify_session_finalize mdctx signature.

(** * Keys *)

(** The public and the private key with their lengths.  The labels at the end of
    the C function free what was allocated so far, in reverse order. *)
Definition generate_ec_key (curveNid : Nid) : M (Memory L) (Z * (Z * nat) * (Z * nat)) :=
  let answer r : M (Memory L) (Z * (Z * nat) * (Z * nat)) := ret (r, (0%Z, 0%nat), (0%Z, 0%nat)) in
  let* pctx := allocate OOther in
  if bool_decide (pctx = 0%Z) then answer (-1)%Z else
  let err_free_pctx r := free pctx ;;; answer r in
  let* r := on_library lib_paramgen_init in
  if negb (bool_decide (r = 1%Z)) then err_free_pctx (-1)%Z else
  let* r := on_library (lib_set_curve curveNid) in
  if negb (bool_decide (r = 1%Z)) then err_free_pctx (-2)%Z else
  let* r := on_library (lib_paramgen curveNid) in
  if negb (bool_decide (r = 1%Z)) then err_free_pctx (-1)%Z else
  let* params := allocate OOther in
  let* kctx := allocate OOther in
  let err_free_params r := free params ;;; err_free_pctx r in
  if bool_decide (kctx = 0%Z) then err_free_params (-1)%Z else
  let err_free_kctx r := free kctx ;;; err_free_params r in
  let* r := on_library (lib_keygen_init curveNid) in
  if negb (bool_decide (r = 1%Z)) then err_free_kctx (-1)%Z else
  let* '(r, pkey) := on_library (lib_keygen curveNid) in
  if negb (bool_decide (r = 1%Z)) then err_free_kctx (-1)%Z else
  let* key := allocate OOther in
  let err_free_key r := free key ;;; err_free_kctx r in
  let* bioPrivateKey := allocate OOther in
  if bool_decide (bioPrivateKey = 0%Z) then err_free_key (-1)%Z else
  let err_free_bioPrivateKey r := free bioPrivateKey ;;; err_free_key r in
  let* '(r, privateKey) := on_library (lib_write_private pkey) in
  if negb (bool_decide (r = 1%Z)) then err_free_bioPrivateKey (-1)%Z else
  let* bioPublicKey := allocate OOther in
  if bool_decide (bioPublicKey = 0%Z) then err_free_bioPrivateKey (-1)%Z else
  let err_free_bioPublicKey r := free bioPublicKey ;;; err_free_bioPrivateKey r in
  let* '(r, publicKey) := on_library (lib_write_public pkey) in
  if negb (bool_decide (r = 1%Z)) then err_free_bioPublicKey (-1)%Z else
  let* privKeyBuffer := allocate (OBuffer (zeros (String.length privateKey))) in
  if bool_decide (privKeyBuffer = 0%Z) then err_free_bioPublicKey (-1)%Z else
  let* pubKeyBuffer := allocate (OBuffer (zeros (String.length publicKey))) in
  if bool_decide (pubKeyBuffer = 0%Z) then free privKeyBuffer ;;; err_free_bioPublicKey (-1)%Z else
  write privKeyBuffer 0 privateKey ;;;
  write pubKeyBuffer 0 publicKey ;;;
  free bioPublicKey ;;; free bioPrivateKey ;;; free key ;;; free kctx ;;; free params ;;; free pctx ;;;
  ret (1%Z, (pubKeyBuffer, String.length publicKey), (privKeyBuffer, String.length privateKey)).

(** [readEvpPrivKey], [readEvpPubKey] *)
Definition readEvpPrivKey (privKey : bytes) : M (Memory L) (option PKey) :=
  let* '(pkey, _) := on_library (lib_read_private privKey None) in ret pkey.
Definition readEvpPubKey (pubKey : bytes) : M (Memory L) (option PKey) :=
  let* '(pkey, _) := on_library (lib_read_public pubKey None) in ret pkey.
End evp.
