(* ===== verification/OpenSslCrypto.v ===== *)
(** The OpenSSL crypto plugin, plugins/opensslcryptoplugin/opensslcryptoplugin.cpp:
    random data, keys, digests, signatures and encryption.  These functions use
    the memory of the process and the library; the cipher sessions are in
    OpenSslSessions.  An output parameter is returned, [None] if it was not
    written. *)
From stdpp Require Import pretty.
From S2P Require Import Prelude Result PluginApi CryptoManager CryptoKey CryptoPluginWrapper.
From S2P Require Import OpenSslApi OpenSslEvp.

Section plugin.
Context {L : Type} `{SSL : OpenSsl L}.

Definition c_succeeded : CResult := cresult_of_code Succeeded.

(** * Random data *)

Definition DefaultCsprngEngineName : string := "default".

Definition ossl_seedRandomDataGenerator (csprngEngineName : string) (seedData : bytes) (entropyEstimate : Z)
  : M (Memory L) CResult :=
  if negb (bool_decide (csprngEngineName = DefaultCsprngEngineName)) then
    ret (cresult_error CryptoPluginRandomDataError
           "The OpenSSL crypto plugin doesn't currently support other RNG engines")
  else on_library (lib_RAND_add seedData entropyEstimate) ;;; ret c_succeeded.

(** [numberBytes] is a quint64. *)
Definition ossl_generateRandomData (csprngEngineName : string) (numberBytes : Z)
  : M (Memory L) (CResult * option bytes) :=
  let useDevURandom := bool_decide (csprngEngineName = "/dev/urandom") in
  if negb useDevURandom && negb (bool_decide (csprngEngineName = DefaultCsprngEngineName)) then
    ret (cresult_error CryptoPluginRandomDataError
           "This crypto plugin only supports default and /dev/urandom engines", None)
  else if bool_decide (numberBytes = 0%Z) || (4096 <? numberBytes)%Z then
    ret (cresult_error CryptoPluginRandomDataError
           "This crypto plugin can only generate up to 4096 bytes of random data at a time", None)
  else
    let nbytes := Z.to_nat numberBytes in
    if useDevURandom then
      let* data := on_library (lib_urandom nbytes) in ret (c_succeeded, Some data)
    else
      let* '(r, data) := on_library (lib_RAND_bytes nbytes) in
      if negb (bool_decide (r = 1%Z)) then
        ret (cresult_error CryptoPluginRandomDataError
               "This crypto plugin failed to generate the random data", None)
      else ret (c_succeeded, Some data).

Definition ossl_generateInitializationVector (algorithm blockMode keySize : Z)
  : M (Memory L) (CResult * option bytes) :=
  let ivSize := initializationVectorSize algorithm blockMode keySize in
  if (ivSize <? 0)%Z then
    ret (cresult_error C_OperationNotSupportedError
           "Unable to generate initialization vector for this configuration", None)
  else if bool_decide (ivSize = 0%Z) then ret (c_succeeded, None)
  else
    let* '(r, iv) := on_library (lib_RAND_bytes (Z.to_nat ivSize)) in
    if (r <=? 0)%Z then
      ret (cresult_error CryptoPluginCipherSessionError "Unable to generate initialization vector", None)
    else ret (c_succeeded, Some iv).

(** * Keys *)

(** The setters of the parts of a key *)
Definition set_pair (publicKey privateKey : bytes) (algorithm size : Z) (k : CKey) : CKey :=
  mkKey (k_identifier k) (k_origin k) algorithm (k_operations k) (k_componentConstraints k)
    size publicKey privateKey (k_secretKey k) (k_customParameters k) (k_filterData k).
Definition set_secret (secretKey : bytes) (size : Z) (k : CKey) : CKey :=
  mkKey (k_identifier k) (k_origin k) (k_algorithm k) (k_operations k) (k_componentConstraints k)
    size (k_publicKey k) (k_privateKey k) secretKey (k_customParameters k) (k_filterData k).

Definition unsupported {A} (message : string) : CResult * option A :=
  (cresult_error C_OperationNotSupportedError message, None).
Definition generation_error {A} (message : string) : CResult * option A :=
  (cresult_error CryptoPluginKeyGenerationError message, None).

Definition generateRsaKey (keyTemplate : CKey) (kpgParams : KeyPairParameters)
  : M (Memory L) (CResult * option CKey) :=
  if negb (bool_decide (kp_keyPairType kpgParams = KeyPairRsa))
     || negb (bool_decide (k_algorithm keyTemplate = AlgorithmRsa)) then
    ret (unsupported "This method can only generate RSA keys.")
  else if (modulusLength kpgParams <? 8)%Z || (8192 <? modulusLength kpgParams)%Z
          || negb (bool_decide (Z.rem (modulusLength kpgParams) 8 = 0%Z)) then
    ret (unsupported "Unsupported modulus length specified")
  else if (4294967295 <? publicExponent kpgParams)%Z then
    ret (unsupported "Unsupported public exponent, too large")
  else if negb (bool_decide (numberPrimes kpgParams = 2%Z)) then
    ret (unsupported "Unsupported number of primes")
  else
    let* exponent := on_library lib_memory in
    if negb exponent then ret (generation_error "Failed to set public exponent") else
    let* rsa := on_library (lib_generate_rsa (modulusLength kpgParams) (publicExponent kpgParams)) in
    match rsa with
    | None => ret (generation_error "Failed to initialize RSA key pair generation")
    | Some rsa =>
        let* '(r, pubdata) := on_library (lib_write_public rsa) in
        if negb (bool_decide (r = 1%Z)) then
          ret (generation_error "Failed to write public key data to memory")
        else if isEmpty pubdata then ret (generation_error "Failed to read public key data from memory") else
        let* '(r, privdata) := on_library (lib_write_private rsa) in
        if negb (bool_decide (r = 1%Z)) then
          ret (generation_error "Failed to write private key data to memory")
        else if isEmpty privdata then ret (generation_error "Failed to read private key data from memory")
        else ret (c_succeeded,
                  Some (set_pair pubdata privdata (k_algorithm keyTemplate) (modulusLength kpgParams)
                          keyTemplate))
    end.

Definition generateEcKey (keyTemplate : CKey) (kpgParams : KeyPairParameters)
  : M (Memory L) (CResult * option CKey) :=
  if negb (bool_decide (kp_keyPairType kpgParams = KeyPairEc))
     || negb (bool_decide (k_algorithm keyTemplate = AlgorithmEc)) then
    ret (unsupported "This method can only generate EC keys.")
  else
    let curveKeySize := getEllipticCurveKeySize (ellipticCurve kpgParams) in
    match getEllipticCurveNid (ellipticCurve kpgParams) with
    | None => ret (unsupported "The given elliptic curve is not supported.")
    | Some curveNid =>
        if bool_decide (curveKeySize = 0%Z) then
          ret (unsupported "The given elliptic curve is not supported.") else
        let* '(r, (publicKeyBuffer, publicKeySize), (privateKeyBuffer, privateKeySize)) :=
          generate_ec_key curveNid in
        if bool_decide (r = (-2)%Z) then
          ret (unsupported "The given elliptic curve is not supported by OpenSSL.")
        else if negb (bool_decide (r = 1%Z)) then
          ret (generation_error "Error happened while generating the EC key.") else
        let* privateKey := read privateKeyBuffer privateKeySize in
        let* publicKey := read publicKeyBuffer publicKeySize in
        free privateKeyBuffer ;;; free publicKeyBuffer ;;;
        ret (c_succeeded, Some (set_pair publicKey privateKey AlgorithmEc curveKeySize keyTemplate))
    end.

Definition bad_key_size (size : Z) : bool :=
  (size <? 8)%Z || (2048 <? size)%Z || negb (bool_decide (Z.rem size 8 = 0%Z)).

Definition ossl_generateKey (keyTemplate : CKey) (kpgParams : KeyPairParameters)
  (skdfParams : KeyDerivationParameters) : M (Memory L) (CResult * option CKey) :=
  if kp_isValid kpgParams then
    if bool_decide (kp_keyPairType kpgParams = KeyPairRsa) then generateRsaKey keyTemplate kpgParams
    else if bool_decide (kp_keyPairType kpgParams = KeyPairEc) then generateEcKey keyTemplate kpgParams
    else ret (unsupported "Can't generate specified key type, it's not supported yet.")
  else if negb (kdf_isValid skdfParams) then
    if negb (bool_decide (k_algorithm keyTemplate = AlgorithmAes)) then
      ret (unsupported "TODO: algorithms other than Aes")
    else if bad_key_size (k_size keyTemplate) then ret (unsupported "Unsupported key size specified") else
    let* '(randomResult, randomKey) :=
      ossl_generateRandomData "/dev/urandom" (Z.quot (k_size keyTemplate) 8) in
    if bool_decide (c_code randomResult = Failed) then ret (randomResult, None)
    else ret (c_succeeded, Some (set_secret (default "" randomKey) (k_size keyTemplate) keyTemplate))
  else if negb (bool_decide (kdf_function skdfParams = KdfPkcs5Pbkdf2)) then
    ret (unsupported "Unsupported key derivation function specified")
  else if negb (bool_decide (kdf_mac skdfParams = MacHmac)) then
    ret (unsupported "Unsupported key derivation message authentication code specified")
  else if negb (bool_decide (kdf_digest skdfParams = DigestSha1))
          && negb (bool_decide (kdf_digest skdfParams = DigestSha256))
          && negb (bool_decide (kdf_digest skdfParams = DigestSha512)) then
    ret (unsupported "Unsupported key derivation digest function specified")
  else if bad_key_size (kdf_outputKeySize skdfParams) then
    ret (unsupported "Unsupported derived key size specified")
  else if (kdf_iterations skdfParams <? 0)%Z || (32768 <? kdf_iterations skdfParams)%Z then
    ret (unsupported "Unsupported iterations specified")
  else
    let nbytes := Z.to_nat (Z.quot (kdf_outputKeySize skdfParams) 8) in
    let* '(r, buf) := pkcs5_pbkdf2_hmac (kdf_inputData skdfParams) (kdf_salt skdfParams)
                        (kdf_iterations skdfParams) (kdf_digest skdfParams) nbytes in
    if negb (bool_decide (r = 1%Z)) then
      ret (generation_error "The crypto plugin failed to derive the key data")
    else ret (c_succeeded, Some (set_secret buf (kdf_outputKeySize skdfParams) keyTemplate)).

(** The algorithm of an imported key *)
Definition algorithm_of (kind : KeyKind) : Z :=
  match kind with
  | EVP_PKEY_RSA => AlgorithmRsa
  | EVP_PKEY_DSA => AlgorithmDsa
  | EVP_PKEY_DH => AlgorithmDh
  | EVP_PKEY_EC => AlgorithmEc
  | EVP_PKEY_OTHER => AlgorithmUnknown
  end.

Definition import_error (message : string) (key : CKey) : CResult * CKey :=
  (cresult_error CryptoPluginKeyImportError message, key).

(** The second half of [importKey]: from the library's key to the parts of a
    key.  The key read as a private key has both parts. *)
Definition import_pkey (pkey : PKey) (hasPrivateKeyData : bool) (importedKey : CKey)
  : M (Memory L) (CResult * CKey) :=
  let importedKey := set_pair (k_publicKey importedKey) (k_privateKey importedKey)
                       (algorithm_of (pkey_kind pkey)) (k_size importedKey) importedKey in
  let* '(r, publicKey) := on_library (lib_write_public pkey) in
  if negb (bool_decide (r = 1%Z)) then
    ret (import_error "Failed to write public key data to memory" importedKey)
  else if isEmpty publicKey then
    ret (import_error "Failed to read public key data from memory" importedKey) else
  let* '(r, privateKey) :=
    (if hasPrivateKeyData then on_library (lib_write_private pkey) else ret (1%Z, "")) in
  if (r <? 1)%Z then ret (import_error "Failed to write private key data to memory" importedKey)
  else if hasPrivateKeyData && isEmpty privateKey then
    ret (import_error "Failed to read private key data from memory" importedKey)
  else ret (c_succeeded,
            set_pair publicKey privateKey (algorithm_of (pkey_kind pkey)) (pkey_bits pkey) importedKey).

Definition ossl_importKey (data passphrase : bytes) (importedKey : CKey) : M (Memory L) (CResult * CKey) :=
  if isEmpty data then ret (import_error "No key data provided" importedKey) else
  let* '(pkey, requested) := on_library (lib_read_private data (Some passphrase)) in
  match pkey with
  | Some pkey => import_pkey pkey true importedKey
  | None =>
      if (requested : bool) then
        ret (cresult_error CryptoPluginIncorrectPassphrase "Incorrect passphrase", importedKey) else
      let* '(pkey, requested) := on_library (lib_read_public data (Some passphrase)) in
      match pkey with
      | Some pkey => import_pkey pkey false importedKey
      | None =>
          if (requested : bool) then
            ret (cresult_error CryptoPluginIncorrectPassphrase "Incorrect passphrase", importedKey)
          else ret (import_error "Key read error" importedKey)
      end
  end.

(** * Digests and signatures *)

(** The result of a function of OpenSslEvp: copied and freed. *)
Definition taken (buffer : Z) (length : nat) : M (Memory L) (CResult * option bytes) :=
  let* out := read buffer length in free buffer ;;; ret (c_succeeded, Some out).

Definition ossl_calculateDigest (data : bytes) (options : SignatureOptions)
  : M (Memory L) (CResult * option bytes) :=
  if isEmpty data then
    ret (cresult_error EmptyDataError "Can't digest data if there is no data.", None)
  else if negb (bool_decide (so_padding options = SignaturePaddingNone)) then
    ret (unsupported "TODO: digest padding other than None")
  else match getEvpDigestFunction (so_digest options) with
  | None => ret (cresult_error DigestNotSupportedError "Unsupported digest function chosen.", None)
  | Some evpDigestFunc =>
      let* '(r, digestBytes, digestLength) := digest evpDigestFunc data in
      if negb (bool_decide (r = 1%Z)) then
        ret (cresult_error CryptoPluginDigestError "Failed to digest.", None)
      else taken digestBytes digestLength
  end.

Definition ossl_sign (data : bytes) (key : CKey) (options : SignatureOptions)
  : M (Memory L) (CResult * option bytes) :=
  if isEmpty data then ret (cresult_error EmptyDataError "Can't sign data if there is no data.", None)
  else if isEmpty (k_privateKey key) then
    ret (cresult_error EmptyPrivateKeyError "Can't sign without private key.", None)
  else if negb (bool_decide (so_padding options = SignaturePaddingNone)) then
    ret (unsupported "TODO: signature padding other than None")
  else match getEvpDigestFunction (so_digest options) with
  | None => ret (cresult_error DigestNotSupportedError "Unsupported digest function chosen.", None)
  | Some evpDigestFunc =>
      let* pkey := readEvpPrivKey (k_privateKey key) in
      match pkey with
      | None =>
          ret (cresult_error CryptoPluginSigningError "Failed to read private key from PEM format.", None)
      | Some pkey =>
          let* '(r, signatureBytes, signatureLength) := sign evpDigestFunc pkey data in
          if negb (bool_decide (r = 1%Z)) then
            ret (cresult_error CryptoPluginSigningError "Failed to sign.", None)
          else taken signatureBytes signatureLength
      end
  end.

Definition ossl_verify (signature data : bytes) (key : CKey) (options : SignatureOptions)
  : M (Memory L) (CResult * option Z) :=
  if isEmpty signature then
    ret (cresult_error EmptySignatureError "Can't verify without signature.", None)
  else if isEmpty (k_publicKey key) then
    ret (cresult_error EmptyPublicKeyError "Can't verify without public key.", None)
  else if negb (bool_decide (so_padding options = SignaturePaddingNone)) then
    ret (unsupported "TODO: signature padding other than None")
  else match getEvpDigestFunction (so_digest options) with
  | None => ret (cresult_error DigestNotSupportedError "Unsupported digest function chosen.",
                 Some VerificationStatusUnknown)
  | Some evpDigestFunc =>
      let* pkey := readEvpPubKey (k_publicKey key) in
      match pkey with
      | None =>
          ret (cresult_error CryptoPluginVerificationError "Failed to read public key from PEM format.",
               Some VerificationStatusUnknown)
      | Some pkey =>
          let* r := verify evpDigestFunc pkey data signature in
          ret (if bool_decide (r = 1%Z) then (c_succeeded, Some VerificationSucceeded)
               else if bool_decide (r = 0%Z) then (c_succeeded, Some VerificationFailed)
               else (cresult_error CryptoPluginVerificationError
                       "Error occurred while verifying the given signature.",
                     Some VerificationStatusUnknown))
      end
  end.

(** * Encryption *)

(** [aes_encrypt_plaintext] and the other three members of the plugin; empty if
    the function gives nothing. *)
Definition plugin_aes (d : Direction) (blockMode : Z) (input key init_vector : bytes) : M (Memory L) bytes :=
  let* '(size, output) :=
    aes_crypt d (getEvpCipher blockMode (Z.of_nat (String.length key))) init_vector key input in
  if (size <=? 0)%Z then ret "" else
  let* outputData := read output (Z.to_nat size) in free output ;;; ret outputData.
Definition plugin_aes_encrypt := plugin_aes Encrypting.
Definition plugin_aes_decrypt := plugin_aes Decrypting.

Definition plugin_aes_auth_encrypt (blockMode : Z) (plaintext key init_vector auth : bytes) (tagLength : Z)
  : M (Memory L) (bytes * bytes) :=
  let* '(size, encrypted, tag) :=
    aes_auth_encrypt_plaintext (getEvpCipher blockMode (Z.of_nat (String.length key))) init_vector key auth
      plaintext tagLength in
  if (size <=? 0)%Z then ret ("", "") else
  let* encryptedData := read encrypted (Z.to_nat size) in
  free encrypted ;;;
  let* tagData := read tag (Z.to_nat tagLength) in
  free tag ;;;
  ret (encryptedData, tagData).

Definition plugin_aes_auth_decrypt (blockMode : Z) (ciphertext key init_vector auth tag : bytes)
  : M (Memory L) (bytes * bool) :=
  let* '(size, decrypted, verifyResult) :=
    aes_auth_decrypt_ciphertext (getEvpCipher blockMode (Z.of_nat (String.length key))) init_vector key auth
      tag ciphertext (-1)%Z in
  if (size <=? 0)%Z then ret ("", false) else
  let* decryptedData := read decrypted (Z.to_nat size) in
  free decrypted ;;;
  ret (decryptedData, (0 <? verifyResult)%Z).

(** The test of the initialization vector *)
Definition iv_error (key : CKey) (blockMode : Z) (iv : bytes) : option CResult :=
  let expectedIvSize := initializationVectorSize (k_algorithm key) blockMode (k_size key) in
  if negb (isEmpty iv) && (expectedIvSize <? 0)%Z then
    Some (cresult_error InvalidInitializationVectorError
      "Initialization Vector should not be provided for this algorithm/mode/key configuration")
  else if negb (bool_decide (Z.of_nat (String.length iv) = expectedIvSize)) then
    Some (cresult_error InvalidInitializationVectorError
      ("Initialization Vector length should be " +:+ pretty expectedIvSize +:+ " but was "
       +:+ pretty (String.length iv)))
  else None.

Definition crypt_failure : CResult * (option bytes * option bytes) :=
  (cresult_error CryptoPluginEncryptionError "OpenSSL crypto plugin failed to encrypt the data", (None, None)).

(** What [encryptAes] checks first *)
Definition encryptAes_error (iv : bytes) (key : CKey) (options : EncryptionOptions) (authenticationData : bytes)
  : option CResult :=
  if isEmpty (k_secretKey key) then
    Some (cresult_error EmptySecretKeyError "Cannot encrypt with empty secret key")
  else if negb (bool_decide (k_algorithm key = AlgorithmAes)) then
    Some (cresult_error C_OperationNotSupportedError
      "OpenSslCryptoPlugin::encryptAes should only be used with AES")
  else if negb (bool_decide (eo_padding options = EncryptionPaddingNone)) then
    Some (cresult_error C_OperationNotSupportedError "TODO: encryption padding other than None")
  else if negb (bool_decide (Z.of_nat (String.length (k_secretKey key)) * 8 = k_size key)%Z) then
    Some (cresult_error CryptoPluginKeyGenerationError "Secret key size does not match")
  else if negb (isEmpty authenticationData)
          && bool_decide (authenticationTagSize (k_algorithm key) (eo_blockMode options) = 0%Z) then
    Some (cresult_error BlockModeNotSupportedError
      "Authenticated encryption not supported for block modes other than GCM and CCM")
  else iv_error key (eo_blockMode options) iv.

Definition encryptAes (data iv : bytes) (key : CKey) (options : EncryptionOptions) (authenticationData : bytes)
  : M (Memory L) (CResult * (option bytes * option bytes)) :=
  match encryptAes_error iv key options authenticationData with
  | Some e => ret (e, (None, None))
  | None =>
      if negb (isEmpty authenticationData) then
        let* '(ciphertext, tag) :=
          plugin_aes_auth_encrypt (eo_blockMode options) data (k_secretKey key) iv authenticationData
            (authenticationTagSize (k_algorithm key) (eo_blockMode options)) in
        if isEmpty tag then
          ret (cresult_error CryptoPluginAuthenticationTagError
                 "OpenSSL crypto plugin failed to get the authentication tag", (None, None))
        else if negb (isEmpty ciphertext) then ret (c_succeeded, (Some ciphertext, Some tag))
        else ret crypt_failure
      else
        let* ciphertext := plugin_aes_encrypt (eo_blockMode options) data (k_secretKey key) iv in
        if negb (isEmpty ciphertext) then ret (c_succeeded, (Some ciphertext, None)) else ret crypt_failure
  end.

Definition is_asymmetric (algorithm : Z) : bool :=
  (FirstAsymmetricAlgorithm <=? algorithm)%Z && (algorithm <=? LastAsymmetricAlgorithm)%Z.

(** What both asymmetric operations check after the key. *)
Definition asymmetric_padding (name : string) (iv : bytes) (key : CKey) (options : EncryptionOptions)
  : CResult + RsaPadding :=
  let no message := inl (cresult_error C_OperationNotSupportedError message) in
  if negb (isEmpty iv) then
    no "TODO: initialization vectors are not yet supported with asymmetric encryption"
  else if negb (is_asymmetric (k_algorithm key)) then
    no ("OpenSslCryptoPlugin::" +:+ name +:+ " only supports asymmetric algorithms")
  else if negb (bool_decide (eo_blockMode options = BlockModeUnknown)) then
    no "TODO: encryption padding other than Unknown"
  else match getOpenSslRsaPadding (eo_padding options) with
  | None => no "The given padding type is not supported for the given algorithm."
  | Some opensslPadding =>
      if negb (bool_decide (k_algorithm key = AlgorithmRsa))
         && negb (bool_decide (eo_padding options = EncryptionPaddingNone)) then
        no "The given padding type is not supported for the given algorithm."
      else inr opensslPadding
  end.

Definition encryptAsymmetric (data iv : bytes) (key : CKey) (options : EncryptionOptions)
  : M (Memory L) (CResult * option bytes) :=
  if isEmpty (k_publicKey key) then
    ret (cresult_error EmptyPublicKeyError "Cannot encrypt if there is no public key to encrypt with.", None)
  else match asymmetric_padding "encryptAssymmetric" iv key options with
  | inl e => ret (e, None)
  | inr opensslPadding =>
      let* pkey := readEvpPubKey (k_publicKey key) in
      match pkey with
      | None =>
          ret (cresult_error CryptoPluginEncryptionError "Failed to read public key from PEM format.", None)
      | Some pkey =>
          let* '(r, encryptedBytes, length) := pkey_encrypt_plaintext pkey opensslPadding data in
          if negb (bool_decide (r = 1%Z)) then
            ret (cresult_error CryptoPluginEncryptionError "Failed to encrypt.", None)
          else taken encryptedBytes length
      end
  end.

Definition ossl_encrypt (data iv : bytes) (key : CKey) (options : EncryptionOptions) (authenticationData : bytes)
  : M (Memory L) (CResult * (option bytes * option bytes)) :=
  if bool_decide (k_algorithm key = AlgorithmAes) then encryptAes data iv key options authenticationData
  else if is_asymmetric (k_algorithm key) then
    let* '(r, encrypted) := encryptAsymmetric data iv key options in ret (r, (encrypted, None))
  else ret (cresult_error C_OperationNotSupportedError "Unsupported encryption algorithm specified.", (None, None)).

(** What [decryptAes] checks first *)
Definition decryptAes_error (iv : bytes) (key : CKey) (options : EncryptionOptions)
  (authenticationData authenticationTag : bytes) : option CResult :=
  let tagSize := authenticationTagSize (k_algorithm key) (eo_blockMode options) in
  if isEmpty (k_secretKey key) then
    Some (cresult_error EmptySecretKeyError "Cannot decrypt with empty secret key")
  else if negb (bool_decide (k_algorithm key = AlgorithmAes)) then
    Some (cresult_error C_OperationNotSupportedError
      "OpenSslCryptoPlugin::decryptAes should only be used with AES")
  else if negb (bool_decide (eo_padding options = EncryptionPaddingNone)) then
    Some (cresult_error C_OperationNotSupportedError "TODO: encryption padding other than None")
  else if negb (isEmpty authenticationData)
          && negb (bool_decide (eo_blockMode options = BlockModeGcm))
          && negb (bool_decide (eo_blockMode options = BlockModeCcm)) then
    Some (cresult_error BlockModeNotSupportedError
      "Authenticated decryption not supported for block modes other than GCM and CCM")
  else if negb (isEmpty authenticationData)
          && negb (bool_decide (Z.of_nat (String.length authenticationTag) = tagSize)) then
    Some (cresult_error InvalidAuthenticationTagError
      ("Authenticated decryption failed, authentication tag length should be " +:+ pretty tagSize
       +:+ " but was " +:+ pretty (String.length authenticationTag)))
  else iv_error key (eo_blockMode options) iv.

Definition decryptAes (data iv : bytes) (key : CKey) (options : EncryptionOptions)
  (authenticationData authenticationTag : bytes) : M (Memory L) (CResult * (option bytes * option Z)) :=
  match decryptAes_error iv key options authenticationData authenticationTag with
  | Some e => ret (e, (None, None))
  | None =>
      let* '(plaintext, status) :=
        (if negb (isEmpty authenticationData) then
           let* '(plaintext, verified) :=
             plugin_aes_auth_decrypt (eo_blockMode options) data (k_secretKey key) iv authenticationData
               authenticationTag in
           ret (plaintext, if (verified : bool) then VerificationSucceeded else VerificationFailed)
         else
           let* plaintext := plugin_aes_decrypt (eo_blockMode options) data (k_secretKey key) iv in
           ret (plaintext, VerificationFailed)) in
      if isEmpty plaintext || bool_decide (plaintext = zeros 1) then
        ret (cresult_error CryptoPluginDecryptionError "Failed to decrypt the secret", (None, None))
      else ret (c_succeeded, (Some plaintext, Some status))
  end.

Definition decryptAsymmetric (data iv : bytes) (key : CKey) (options : EncryptionOptions)
  : M (Memory L) (CResult * option bytes) :=
  if isEmpty (k_privateKey key) then
    ret (cresult_error EmptyPrivateKeyError "Cannot decrypt if there is no private key to decrypt with.", None)
  else match asymmetric_padding "decryptAssymmetric" iv key options with
  | inl e => ret (e, None)
  | inr opensslPadding =>
      let* pkey := readEvpPrivKey (k_privateKey key) in
      match pkey with
      | None =>
          ret (cresult_error CryptoPluginDecryptionError "Failed to read private key from PEM format.", None)
      | Some pkey =>
          let* '(r, decryptedBytes, length) := pkey_decrypt_ciphertext pkey opensslPadding data in
          if negb (bool_decide (r = 1%Z)) then
            ret (cresult_error CryptoPluginEncryptionError "Failed to encrypt.", None)
          else taken decryptedBytes length
      end
  end.

Definition ossl_decrypt (data iv : bytes) (key : CKey) (options : EncryptionOptions)
  (authenticationData authenticationTag : bytes) : M (Memory L) (CResult * (option bytes * option Z)) :=
  if bool_decide (k_algorithm key = AlgorithmAes) then
    decryptAes data iv key options authenticationData authenticationTag
  else if is_asymmetric (k_algorithm key) then
    let* '(r, decrypted) := decryptAsymmetric data iv key options in ret (r, (decrypted, None))
  else ret (cresult_error C_OperationNotSupportedError "Unsupported decryption algorithm specified.", (None, None)).
End plugin.

(** * The OpenSSL encryption plugin for secrets, plugins/opensslplugin/plugin.cpp.
    SHA-256 is a parameter. *)

Section plugin.
Context {L : Type} `{SSL : OpenSsl L} (sha256 : bytes → bytes).

Definition oenc_deriveKeyFromCode (authenticationCode salt : bytes) : M (Memory L) (Result * option bytes) :=
  let inputData := if isEmpty authenticationCode then zeros 1 else authenticationCode in
  let* '(r, buf) := pkcs5_pbkdf2_hmac inputData salt 10000 21 32 in
  if negb (bool_decide (r = 1%Z)) then
    ret (result_error SecretsPluginKeyDerivationError "The OpenSSL plugin failed to derive the key data", None)
  else ret (result_of_code Succeeded, Some buf).

(** [initVector.resize(16)] of the hash of the key *)
Definition init_vector (key : bytes) : bytes := take_bytes 16 (sha256 key).

Definition oenc_encryptSecret (plaintext key : bytes) : M (Memory L) (Result * option bytes) :=
  let* ciphertext := plugin_aes_encrypt BlockModeCbc plaintext key (init_vector key) in
  if negb (isEmpty ciphertext) then ret (result_of_code Succeeded, Some ciphertext)
  else ret (result_error SecretsPluginEncryptionError "OpenSSL plugin failed to encrypt the secret", None).

Definition oenc_decryptSecret (encrypted key : bytes) : M (Memory L) (Result * option bytes) :=
  let* decrypted := plugin_aes_decrypt BlockModeCbc encrypted key (init_vector key) in
  if isEmpty decrypted || bool_decide (decrypted = zeros 1) then
    ret (result_error SecretsPluginDecryptionError "OpenSSL plugin failed to decrypt the secret", None)
  else ret (result_of_code Succeeded, Some decrypted).
End plugin.
