(* ===== verification/OpenSslSessions.v ===== *)
(** The cipher sessions of the OpenSSL crypto plugin
    (plugins/opensslcryptoplugin/opensslcryptoplugin.cpp): objects that
    several maps point to, each with a context of the library and a timer. *)
From S2P Require Import Prelude Result PluginApi CryptoManager CryptoKey CryptoPluginWrapper.
From S2P Require Import OpenSslApi OpenSslEvp OpenSslCrypto.

Section sessions.
Context {L : Type} `{SSL : OpenSsl L}.

(** [CipherSessionData]; contexts are addresses, 0 is none. *)
Record CipherSessionData := mkSession {
  csd_iv : bytes;
  csd_key : CKey;
  csd_operation : Z;
  csd_blockMode : Z;
  csd_token : Z;
  csd_evp_md_ctx : Z;
  csd_evp_cipher_ctx : Z;
  csd_timeout : Z;
}.

Record CipherSessionLookup := mkLookup {
  lookup_csd : Z;
  lookup_sessionToken : Z;
  lookup_clientId : Z;
}.

(** The plugin with the memory it uses.  [sessions] are the objects created with
    [new CipherSessionData] and not deleted yet; objects and timers have
    increasing addresses. *)
Record OpenSslPlugin := mkOpenSsl {
  memory : Memory L;
  sessions : gmap Z CipherSessionData;
  next_object : Z;
  m_cipherSessions : gmap Z (gmap Z Z);
  m_cipherSessionTimeouts : gmap Z CipherSessionLookup;
}.

Definition on_memory {A} (m : M (Memory L) A) : M OpenSslPlugin A :=
  zoom memory (λ x s, mkOpenSsl x (sessions s) (next_object s) (m_cipherSessions s)
                        (m_cipherSessionTimeouts s)) m.

Definition set_sessions (x : gmap Z CipherSessionData) (s : OpenSslPlugin) : OpenSslPlugin :=
  mkOpenSsl (memory s) x (next_object s) (m_cipherSessions s) (m_cipherSessionTimeouts s).
Definition set_cipherSessions (x : gmap Z (gmap Z Z)) (s : OpenSslPlugin) : OpenSslPlugin :=
  mkOpenSsl (memory s) (sessions s) (next_object s) x (m_cipherSessionTimeouts s).
Definition set_timeouts (x : gmap Z CipherSessionLookup) (s : OpenSslPlugin) : OpenSslPlugin :=
  mkOpenSsl (memory s) (sessions s) (next_object s) (m_cipherSessions s) x.

(** The sessions of a client: [m_cipherSessions[clientId]] creates an entry if
    there is none. *)
Definition of_client (clientId : Z) (s : OpenSslPlugin) : gmap Z Z :=
  default ∅ (m_cipherSessions s !! clientId).

(** * Tokens *)

(** The loop [for (possible = 1; possible < MAX; ++possible)] *)
Definition first_free (used : gmap Z Z) (possible : list Z) : Z :=
  default 0%Z (head (filter (λ t, used !! t = None) possible)).

Definition getNextCipherSessionToken (all : gmap Z (gmap Z Z)) (clientId : Z) : Z :=
  match all !! clientId with
  | None => 1
  | Some used => first_free used (seqZ 1 (MAX_CIPHER_SESSIONS_PER_CLIENT - 1))
  end.

(** * Beginning a session *)

Definition unsupported_session (message : string) : option CResult :=
  Some (cresult_error C_OperationNotSupportedError message).

(** The tests of the key and the operation *)
Definition session_key_error (key : CKey) (operation : Z) : option CResult :=
  if bool_decide (k_algorithm key = AlgorithmAes) then
    if negb (bool_decide (operation = OperationEncrypt)) && negb (bool_decide (operation = OperationDecrypt)) then
      unsupported_session "Plugin only supports encrypt and decrypt symmetric cipher sessions"
    else if isEmpty (k_secretKey key) then
      Some (cresult_error EmptySecretKeyError "Cannot create a cipher session with empty secret key")
    else None
  else if bool_decide (k_algorithm key = AlgorithmRsa) then
    if negb (bool_decide (operation = OperationSign)) && negb (bool_decide (operation = OperationVerify)) then
      unsupported_session "Plugin only supports sign and verify asymmetric cipher sessions"
    else if isEmpty (k_publicKey key) then
      Some (cresult_error EmptyPublicKeyError "Cannot create a cipher session with empty public key")
    else if bool_decide (operation = OperationSign) && isEmpty (k_privateKey key) then
      Some (cresult_error EmptyPrivateKeyError
        "Cannot create a sign or encrypt cipher session with empty private key")
    else None
  else unsupported_session "Plugin only supports AES and RSA cipher sessions".

Definition session_error (key : CKey) (options : CipherSessionOptions) : option CResult :=
  match session_key_error key (cso_operation options) with
  | Some e => Some e
  | None =>
      if negb (bool_decide (cso_encryptionPadding options = EncryptionPaddingNone)) then
        Some (cresult_error EncryptionPaddingNotSupportedError "Plugin only supports encryption padding None")
      else if negb (bool_decide (cso_signaturePadding options = SignaturePaddingNone)) then
        Some (cresult_error SignaturePaddingNotSupportedError "Plugin only supports signature padding None")
      else if negb (bool_decide (cso_digestFunction options = DigestSha256)) then
        Some (cresult_error DigestNotSupportedError "Plugin only supports digest function Sha256")
      else None
  end.

Definition session_failure (message : string) : CResult := cresult_error CryptoPluginCipherSessionError message.

(** A cipher context for encryption or decryption, with the messages of the
    branch. *)
Definition open_cipher (d : Direction) (noContext noCipher noInit noLength noKey : string) (key : CKey) (iv : bytes) (blockMode : Z)
  : M (Memory L) (CResult + Z) :=
  let* context := EVP_CIPHER_CTX_new in
  if bool_decide (context = 0%Z) then ret (inl (session_failure noContext))
  else if negb (bool_decide (k_algorithm key = AlgorithmAes)) then ret (inr context) else
  let failure message := free context ;;; ret (inl (session_failure message)) in
  match getEvpCipher blockMode (Z.of_nat (String.length (k_secretKey key))) with
  | None => failure noCipher
  | Some cipher =>
      let* r := EVP_Init d context (Some cipher) None None in
      if negb (bool_decide (r = 1%Z)) then failure noInit else
      let* r := when (bool_decide (blockMode = BlockModeGcm))
                  (EVP_CIPHER_CTX_ctrl context (SetIvLength (Z.of_nat (String.length iv)))) in
      if negb (bool_decide (r = 1%Z)) then failure noLength else
      let* r := EVP_Init d context None (Some (k_secretKey key)) (Some iv) in
      if negb (bool_decide (r = 1%Z)) then failure noKey else
      ret (inr context)
  end.

Definition open_encryption : CKey → bytes → Z → M (Memory L) (CResult + Z) :=
  open_cipher Encrypting "Unable to initialize cipher context for encryption"
    "Cannot create cipher for AES encryption, check key size and block mode"
    "Unable to initialize encryption cipher context in AES 256 mode"
    "Unable to set encryption initialization vector length" "Unable to initialize encryption key and IV".

Definition open_decryption : CKey → bytes → Z → M (Memory L) (CResult + Z) :=
  open_cipher Decrypting "Unable to initialize cipher context for decryption"
    "Cannot create cipher for AES deccryption, check key size and block mode"
    "Unable to initialize decryption cipher context in AES 256 mode"
    "Unable to set decryption initialization vector length"
    "Unable to initialize decryption cipher context in AES 256 mode".

(** A context for signing or verifying *)
Definition open_digest (readKey : M (Memory L) (option PKey)) (unreadable : CResult)
  (init : Digest → PKey → M (Memory L) (Z * Z)) (digestFunction : Z) : M (Memory L) (CResult + Z) :=
  match getEvpDigestFunction digestFunction with
  | None => ret (inl (cresult_error DigestNotSupportedError "Unsupported digest function chosen."))
  | Some evpDigestFunc =>
      let* pkey := readKey in
      match pkey with
      | None => ret (inl unreadable)
      | Some pkey =>
          let* '(r, context) := init evpDigestFunc pkey in
          if negb (bool_decide (r = 1%Z)) then
            ret (inl (session_failure "Failed to initialize cipher session context"))
          else ret (inr context)
      end
  end.

(** The contexts of a new session: of the digest and of the cipher. *)
Definition open_contexts (iv : bytes) (key : CKey) (options : CipherSessionOptions)
  : M (Memory L) (CResult + Z * Z) :=
  let cipher (m : M (Memory L) (CResult + Z)) :=
    let* r := m in ret (match r with inl e => inl e | inr c => inr (0%Z, c) end) in
  let md (m : M (Memory L) (CResult + Z)) :=
    let* r := m in ret (match r with inl e => inl e | inr c => inr (c, 0%Z) end) in
  if bool_decide (cso_operation options = OperationEncrypt) then
    cipher (open_encryption key iv (cso_blockMode options))
  else if bool_decide (cso_operation options = OperationDecrypt) then
    cipher (open_decryption key iv (cso_blockMode options))
  else if bool_decide (cso_operation options = OperationSign) then
    md (open_digest (readEvpPrivKey (k_privateKey key))
          (session_failure "Failed to read private key from PEM format.") sign_session_init
          (cso_digestFunction options))
  else if bool_decide (cso_operation options = OperationVerify) then
    md (open_digest (readEvpPubKey (k_publicKey key))
          (cresult_error CryptoPluginVerificationError "Failed to read public key from PEM format.")
          verify_session_init (cso_digestFunction options))
  else ret (inl (cresult_error C_OperationNotSupportedError "Unsupported operation for cipher request")).

(** [new CipherSessionData] with its timer, entered into both maps. *)
Definition add_session (clientId : Z) (iv : bytes) (key : CKey) (options : CipherSessionOptions)
  (sessionToken evp_md_ctx evp_cipher_ctx : Z) : M OpenSslPlugin unit :=
  modify (λ s,
    let csd := next_object s in
    let timeout := (csd + 1)%Z in
    mkOpenSsl (memory s)
      (<[csd := mkSession iv key (cso_operation options) (cso_blockMode options) sessionToken
                  evp_md_ctx evp_cipher_ctx timeout]> (sessions s))
      (timeout + 1)%Z
      (<[clientId := <[sessionToken := csd]> (of_client clientId s)]> (m_cipherSessions s))
      (<[timeout := mkLookup csd sessionToken clientId]> (m_cipherSessionTimeouts s))).

Definition ossl_initializeCipherSession (clientId : Z) (iv : bytes) (key : CKey) (options : CipherSessionOptions)
  : M OpenSslPlugin (CResult * option Z) :=
  match session_error key options with
  | Some e => ret (e, None)
  | None =>
      let* sessionToken := gets (λ s, getNextCipherSessionToken (m_cipherSessions s) clientId) in
      if bool_decide (sessionToken = 0%Z) then
        ret (session_failure "Too many concurrent cipher sessions initiated by client", None)
      else match (if bool_decide (cso_operation options = OperationEncrypt)
                  then iv_error key (cso_blockMode options) iv else None) with
      | Some e => ret (e, None)
      | None =>
          let* contexts := on_memory (open_contexts iv key options) in
          match contexts with
          | inl e => ret (e, None)
          | inr (evp_md_ctx, evp_cipher_ctx) =>
              add_session clientId iv key options sessionToken evp_md_ctx evp_cipher_ctx ;;;
              ret (c_succeeded, Some sessionToken)
          end
      end
  end.

(** * Using a session *)

Definition unknown_token : CResult := session_failure "Unknown cipher session token provided".
Definition uninitialized : CResult := session_failure "Cipher context has not been initialized".

(** The session object under a token; [inl] if there is none. *)
Definition find_session {A} (clientId token : Z) (unknown : A)
  (found : Z → CipherSessionData → M OpenSslPlugin A) : M OpenSslPlugin A :=
  let* s := gets id in
  match m_cipherSessions s !! clientId ≫= lookup token with
  | None => ret unknown
  | Some csd =>
      match sessions s !! csd with
      | Some data => found csd data
      | None => on_memory (fault UseAfterFree) ;;; ret unknown
      end
  end.

Definition ossl_updateCipherSessionAuthentication (clientId : Z) (authenticationData : bytes) (token : Z)
  : M OpenSslPlugin CResult :=
  find_session clientId token unknown_token (λ _ csd,
    if negb (bool_decide (csd_blockMode csd = BlockModeGcm)) then
      ret (session_failure "Block mode is not GCM, cannot update authentication data")
    else if bool_decide (csd_evp_cipher_ctx csd = 0%Z) then ret uninitialized
    else if bool_decide (csd_operation csd = OperationEncrypt) then
      let* '(r, _) := on_memory (EVP_Update Encrypting (csd_evp_cipher_ctx csd) None
                                   (InAuthentication authenticationData)) in
      ret (if bool_decide (r = 1%Z) then c_succeeded
           else session_failure "Failed to update encryption cipher authentication data")
    else if bool_decide (csd_operation csd = OperationDecrypt) then
      let* '(r, _) := on_memory (EVP_Update Decrypting (csd_evp_cipher_ctx csd) None
                                   (InAuthentication authenticationData)) in
      ret (if bool_decide (r = 1%Z) then c_succeeded
           else session_failure "Failed to update decryption cipher authentication data")
    else ret (session_failure "TODO: implement sign/verify authentication data!")).

(** [new unsigned char[n]] in a scoped pointer *)
Definition new_buffer (n : nat) : M (Memory L) Z :=
  let* a := gets next_address in
  modify (λ s, mkMemory (library s) (<[a := OBuffer (zeros n)]> (heap s)) (a + 1)%Z (faults s)) ;;;
  ret a.

(** An update of the cipher: the generated data, or [None] if it failed. *)
Definition update_cipher (d : Direction) (context : Z) (data : bytes) : M (Memory L) (option bytes) :=
  let* buffer := new_buffer (String.length data + AES_BLOCK_SIZE) in
  let* '(r, size) := EVP_Update d context (Some (buffer, 0%nat)) (InData data) in
  if negb (bool_decide (r = 1%Z)) then free buffer ;;; ret None else
  let* generated := read buffer size in
  free buffer ;;;
  ret (Some generated).

Definition ossl_updateCipherSession (clientId : Z) (data : bytes) (token : Z)
  : M OpenSslPlugin (CResult * option bytes) :=
  find_session clientId token (unknown_token, None) (λ _ csd,
    if bool_decide (csd_evp_cipher_ctx csd = 0%Z) && bool_decide (csd_evp_md_ctx csd = 0%Z) then
      ret (uninitialized, None)
    else if negb (bool_decide (csd_evp_cipher_ctx csd = 0%Z)) then
      if bool_decide (csd_operation csd = OperationEncrypt) then
        let* generated := on_memory (update_cipher Encrypting (csd_evp_cipher_ctx csd) data) in
        ret (match generated with
             | Some _ => (c_succeeded, generated)
             | None => (session_failure "Failed to update encryption cipher data", None)
             end)
      else if bool_decide (csd_operation csd = OperationDecrypt) then
        let* generated := on_memory (update_cipher Decrypting (csd_evp_cipher_ctx csd) data) in
        ret (match generated with
             | Some _ => (c_succeeded, generated)
             | None => (session_failure "Failed to update decryption cipher data", None)
             end)
      else ret (c_succeeded, Some "")
    else if isEmpty data then ret (cresult_error EmptyDataError "Empty input data specified", None)
    else if bool_decide (csd_operation csd = OperationSign) then
      let* r := on_memory (sign_session_update (csd_evp_md_ctx csd) data) in
      ret (if bool_decide (r = 1%Z) then (c_succeeded, Some "")
           else (session_failure "Failed to update sign cipher data", None))
    else if bool_decide (csd_operation csd = OperationVerify) then
      let* r := on_memory (verify_session_update (csd_evp_md_ctx csd) data) in
      ret (if bool_decide (r = 1%Z) then (c_succeeded, Some "")
           else (session_failure "Failed to update verify cipher data", None))
    else ret (c_succeeded, Some "")).

(** * Ending a session *)

(** [CipherSessionDataDeleter::cleanup]; the timer is deleted later. *)
Definition cleanup (csd : Z) : M OpenSslPlugin unit :=
  let* s := gets id in
  match sessions s !! csd with
  | None => on_memory (fault UseAfterFree)
  | Some data =>
      on_memory (free (csd_evp_cipher_ctx data)) ;;;
      on_memory (free (csd_evp_md_ctx data)) ;;;
      modify (λ s, set_sessions (delete csd (sessions s)) s)
  end.

(** The last blocks of an encryption, or the tag. *)
Definition finalize_encryption (csd : CipherSessionData) : M (Memory L) (CResult * option bytes) :=
  let* buffer := new_buffer 32 in
  let* '(r, size) := EVP_Final Encrypting (csd_evp_cipher_ctx csd) (Some (buffer, 0%nat)) in
  if negb (bool_decide (r = 1%Z)) then
    free buffer ;;; ret (session_failure "Failed to finalize encryption cipher", None)
  else if bool_decide (csd_blockMode csd = BlockModeGcm) then
    free buffer ;;;
    let* buffer := new_buffer (Z.to_nat GCM_TAG_SIZE) in
    let* r := EVP_CTRL_GET_TAG (csd_evp_cipher_ctx csd) (Z.to_nat GCM_TAG_SIZE) buffer in
    if negb (bool_decide (r = 1%Z)) then
      free buffer ;;; ret (session_failure "Failed to retrieve authentication tag", None)
    else taken buffer (Z.to_nat GCM_TAG_SIZE)
  else taken buffer size.

(** The last blocks of a decryption, and whether the tag fits. *)
Definition finalize_decryption (csd : CipherSessionData) (data : bytes)
  : M (Memory L) (CResult * (option bytes * option Z)) :=
  let* buffer := new_buffer 32 in
  let failure message := free buffer ;;; ret (session_failure message, (None, None)) in
  if bool_decide (csd_blockMode csd = BlockModeGcm) then
    if negb (bool_decide (Z.of_nat (String.length data) = GCM_TAG_SIZE)) then
      failure "GCM authenticationTag data is not the expected size" else
    let* r := EVP_CIPHER_CTX_ctrl (csd_evp_cipher_ctx csd) (SetTag data) in
    if bool_decide (r = 0%Z) then failure "Unable to set the GCM authenticationTag to finalize the cipher" else
    let* '(r, size) := EVP_Final Decrypting (csd_evp_cipher_ctx csd) (Some (buffer, 0%nat)) in
    let* '(result, generated) := taken buffer size in
    ret (result, (generated, Some (if (0 <? r)%Z then VerificationSucceeded else VerificationFailed)))
  else
    let* '(r, size) := EVP_Final Decrypting (csd_evp_cipher_ctx csd) (Some (buffer, 0%nat)) in
    if negb (bool_decide (r = 1%Z)) then failure "Failed to finalize the decryption cipher" else
    let* '(result, generated) := taken buffer size in
    ret (result, (generated, None)).

Definition finalize_signature (csd : CipherSessionData) : M (Memory L) (CResult * option bytes) :=
  let* '(r, signatureData, signatureLength) := sign_session_finalize (csd_evp_md_ctx csd) in
  if negb (bool_decide (r = 1%Z)) then ret (session_failure "Failed to finalize sign cipher", None)
  else taken signatureData signatureLength.

Definition finalize_verification (csd : CipherSessionData) (data : bytes)
  : M (Memory L) (CResult * (option bytes * option Z)) :=
  let* r := verify_session_finalize (csd_evp_md_ctx csd) data in
  ret (if bool_decide (r = 1%Z) then (c_succeeded, (Some "", Some VerificationSucceeded))
       else if bool_decide (r = 0%Z) then (c_succeeded, (Some "", Some VerificationFailed))
       else (session_failure "Failed to finalize verify cipher with signature data",
             (None, Some VerificationStatusUnknown))).

(** [csd->evp_md_ctx = nullptr] *)
Definition forget_md (csd : Z) : M OpenSslPlugin unit :=
  modify (λ s, match sessions s !! csd with
               | Some d => set_sessions (<[csd := mkSession (csd_iv d) (csd_key d) (csd_operation d)
                             (csd_blockMode d) (csd_token d) 0 (csd_evp_cipher_ctx d) (csd_timeout d)]>
                             (sessions s)) s
               | None => s
               end).

(** What [finalizeCipherSession] does between taking the session out of the maps
    and deleting it. *)
Definition finalize_session (csd : Z) (data : CipherSessionData) (input : bytes)
  : M OpenSslPlugin (CResult * (option bytes * option Z)) :=
  if negb (bool_decide (csd_evp_cipher_ctx data = 0%Z)) then
    if bool_decide (csd_operation data = OperationEncrypt) then
      let* '(r, generated) := on_memory (finalize_encryption data) in ret (r, (generated, None))
    else if bool_decide (csd_operation data = OperationDecrypt) then
      on_memory (finalize_decryption data input)
    else ret (c_succeeded, (Some "", None))
  else if bool_decide (csd_operation data = OperationSign) then
    let* '(r, generated) := on_memory (finalize_signature data) in
    forget_md csd ;;; ret (r, (generated, None))
  else if bool_decide (csd_operation data = OperationVerify) then
    if isEmpty input then
      ret (cresult_error EmptySignatureError "Empty signature data specified", (None, None)) else
    let* r := on_memory (finalize_verification data input) in
    forget_md csd ;;; ret r
  else ret (c_succeeded, (None, None)).

Definition remove_token (clientId token : Z) : M OpenSslPlugin unit :=
  modify (λ s, set_cipherSessions (<[clientId := delete token (of_client clientId s)]> (m_cipherSessions s)) s).

Definition ossl_finalizeCipherSession (clientId : Z) (input : bytes) (token : Z)
  : M OpenSslPlugin (CResult * (option bytes * option Z)) :=
  find_session clientId token (unknown_token, (None, None)) (λ csd data,
    if bool_decide (csd_evp_cipher_ctx data = 0%Z) && bool_decide (csd_evp_md_ctx data = 0%Z) then
      ret (uninitialized, (None, None)) else
    remove_token clientId token ;;;
    modify (λ s, set_timeouts (delete (csd_timeout data) (m_cipherSessionTimeouts s)) s) ;;;
    let* r := finalize_session csd data input in
    cleanup csd ;;;
    ret r).

(** The slot of a timer: a minute without activity ends the session. *)
Definition timed_out (timeout : Z) : M OpenSslPlugin unit :=
  let* s := gets id in
  match m_cipherSessionTimeouts s !! timeout with
  | None => ret tt
  | Some lookup =>
      modify (λ s, set_timeouts (delete timeout (m_cipherSessionTimeouts s)) s) ;;;
      remove_token (lookup_clientId lookup) (lookup_sessionToken lookup) ;;;
      cleanup (lookup_csd lookup)
  end.
End sessions.

Arguments OpenSslPlugin L {SSL}.

(** * The plugin as a crypto plugin *)
Section instances.
Context {L : Type} `{SSL : OpenSsl L} {C : Type} (noC : C).

Definition openssl_params : CryptoParams := {|
  Custom := C;
  KeyPairGenerationParameters := KeyPairParameters;
  DerivationParameters := KeyDerivationParameters;
  noCustom := noC;
|}.
#[local] Existing Instance openssl_params.

Definition no_storing : CResult :=
  cresult_error C_OperationNotSupportedError "The OpenSSL crypto plugin doesn't support storing keys".

#[export] Instance openssl_base : PluginBase (OpenSslPlugin L) := {|
  pb_name := "org.sailfishos.crypto.plugin.crypto.openssl";
  pb_supportsLocking := λ _, false;
  pb_isLocked := λ _, false;
  pb_lock := ret false;
  pb_unlock := λ _, ret false;
  pb_setLockCode := λ _ _, ret false;
|}.

Definition openssl_crypto : CryptoPlugin (OpenSslPlugin L) := {|
  cp_canStoreKeys := false;
  cp_generateRandomData := λ _ engine n _, on_memory (ossl_generateRandomData engine n);
  cp_seedRandomDataGenerator := λ _ engine seed entropy _,
    on_memory (ossl_seedRandomDataGenerator engine seed entropy);
  cp_generateInitializationVector := λ a b n _, on_memory (ossl_generateInitializationVector a b n);
  cp_generateKey := λ k g d _, on_memory (ossl_generateKey k g d);
  cp_generateAndStoreKey := λ _ _ _ _, ret (no_storing, None);
  cp_importKey := λ data passphrase _ k, on_memory (ossl_importKey data passphrase k);
  cp_importAndStoreKey := λ _ _ _ _, ret (no_storing, None);
  cp_storedKey := λ _ _ _, ret (no_storing, None);
  cp_storedKeyIdentifiers := λ _ _, ret (no_storing, []);
  cp_calculateDigest := λ data o _, on_memory (ossl_calculateDigest data o);
  cp_sign := λ data k o _, on_memory (ossl_sign data k o);
  cp_verify := λ signature data k o _, on_memory (ossl_verify signature data k o);
  cp_encrypt := λ data iv k o auth _, on_memory (ossl_encrypt data iv k o auth);
  cp_decrypt := λ data iv k o auth tag _, on_memory (ossl_decrypt data iv k o auth tag);
  cp_initializeCipherSession := λ client iv k o _, ossl_initializeCipherSession client iv k o;
  cp_updateCipherSessionAuthentication := λ client data _ token,
    ossl_updateCipherSessionAuthentication client data token;
  cp_updateCipherSession := λ client data _ token, ossl_updateCipherSession client data token;
  cp_finalizeCipherSession := λ client data _ token, ossl_finalizeCipherSession client data token;
|}.
End instances.
