(* ===== verification/OpenSslSpec.v ===== *)
(** What OpenSSL documents about sizes, and that the layer of OpenSslEvp keeps to
    them: it reads and writes within its buffers, uses no freed object and frees
    what it allocated. *)
From S2P Require Import Prelude PluginApi CryptoManager CryptoKey CryptoPluginWrapper OpenSslApi OpenSslEvp OpenSslCrypto.

(** [EVP_CIPHER_key_length]: XTS takes two keys. *)
Definition cipher_key_bytes (c : Cipher) : nat :=
  Z.to_nat (cipher_bits c / 8 * (if bool_decide (cipher_mode c = ModeXts) then 2 else 1)).

(** [EVP_CIPHER_iv_length], the length by default *)
Definition cipher_iv_bytes (c : Cipher) : nat :=
  match cipher_mode c with
  | ModeEcb => 0
  | ModeGcm => 12
  | ModeCcm => 7
  | _ => 16
  end.

(** The manual pages: a context holds back at most one block, an update writes no
    more than it was given and what was held back, a finalization at most one
    block. *)
Class OpenSslDocs (L : Type) {SSL : OpenSsl L} := {
  pending : CipherCtx → nat;
  doc_pending c : pending c ≤ 16;
  doc_init d cipher key iv c l r c' l' :
    lib_init d cipher key iv c l = (r, c', l') → r ≠ 0%Z →
    pending c' = 0
    ∧ match cipher with
      | Some ci => key_bytes c' = cipher_key_bytes ci ∧ iv_bytes c' = cipher_iv_bytes ci
      | None => key_bytes c' = key_bytes c ∧ iv_bytes c' = iv_bytes c
      end;
  doc_control x c l r c' l' :
    lib_control x c l = (r, c', l') → r ≠ 0%Z →
    key_bytes c' = key_bytes c ∧ pending c' = pending c
    ∧ iv_bytes c' = match x with SetIvLength n => Z.to_nat n | _ => iv_bytes c end;
  doc_update d input c l r out c' l' :
    lib_update d input c l = (r, out, c', l') →
    match input with
    | InData b => String.length out + pending c' ≤ pending c + String.length b
    | _ => pending c' = pending c
    end;
  doc_final d c l r out c' l' : lib_final d c l = (r, out, c', l') → String.length out ≤ 16;
  doc_get_tag n c l r out c' l' : lib_get_tag n c l = (r, out, c', l') → String.length out ≤ n;
  doc_digest d c l r out c' l' :
    lib_DigestFinal c l = (r, out, c', l') → String.length out ≤ digest_size d;
  doc_signature c l r n c' l' l2 r2 out c2 l3 :
    lib_DigestSignFinal_size c l = (r, n, c', l') →
    lib_DigestSignFinal c' l2 = (r2, out, c2, l3) → String.length out ≤ n;
  doc_pkey_encrypt k p x l r n l' l2 r2 out l3 :
    lib_pkey_encrypt_size k p x l = (r, n, l') →
    lib_pkey_encrypt k p x l2 = (r2, out, l3) → String.length out ≤ n;
  doc_pkey_decrypt k p x l r n l' l2 r2 out l3 :
    lib_pkey_decrypt_size k p x l = (r, n, l') →
    lib_pkey_decrypt k p x l2 = (r2, out, l3) → String.length out ≤ n;
}.

(** * The table of ciphers fits the library *)

Lemma aes_of_size_some bits m c : aes_of_size bits m = Some c → c = EVP_aes bits m.
Proof. unfold aes_of_size. case_match; congruence. Qed.

(** Except for XTS the cipher reads as many bytes as the key has, and as many of
    the initialization vector as [initializationVectorSize] says. *)
Lemma getEvpCipher_sizes mode n size c :
  getEvpCipher mode (Z.of_nat n) = Some c → mode ≠ BlockModeXts →
  cipher_key_bytes c = n ∧ Z.of_nat (cipher_iv_bytes c) = initializationVectorSize AlgorithmAes mode size.
Proof.
  intros Hc Hx.
  assert (∀ m, c = EVP_aes (Z.of_nat n * 8) m → m ≠ ModeXts → cipher_key_bytes c = n) as Hk.
  { intros m -> Hm. unfold cipher_key_bytes. simpl. rewrite bool_decide_false by done.
    rewrite Z.div_mul by done. lia. }
  unfold getEvpCipher in Hc. unfold initializationVectorSize.
  repeat (case_bool_decide; [subst; apply aes_of_size_some in Hc; split; [by eapply Hk|];
    subst; by vm_compute|]).
  by rewrite bool_decide_false in Hc.
Qed.

Lemma getEvpCipher_gcm n c : getEvpCipher BlockModeGcm n = Some c → cipher_mode c = ModeGcm.
Proof. unfold getEvpCipher. repeat (rewrite bool_decide_false by done). rewrite bool_decide_true by done.
  by intros ->%aes_of_size_some. Qed.

Section spec.
Context {L : Type} `{SSL : OpenSsl L, !OpenSslDocs L}.
Implicit Types (h : gmap Z (Object L)) (s : Memory L).

(** * A context and its buffers

    [owned ctx c bufs h s]: apart from the heap [h] there are the context [c] at
    [ctx] and the buffers [bufs], and nothing else. *)
Definition owned (ctx : Z) (c : CipherCtx) (bufs : gmap Z bytes) h s : Prop :=
  ∃ h', mem h' s ∧ h !! ctx = None ∧ bufs !! ctx = None ∧ h' !! ctx = Some (OCipher c)
    ∧ (∀ p b, bufs !! p = Some b → h' !! p = Some (OBuffer b) ∧ h !! p = None)
    ∧ (∀ p, p ≠ ctx → bufs !! p = None → h' !! p = h !! p).

(** Only buffers are left. *)
Definition left_over (bufs : gmap Z bytes) h s : Prop :=
  ∃ h', mem h' s
    ∧ (∀ p b, bufs !! p = Some b → h' !! p = Some (OBuffer b) ∧ h !! p = None)
    ∧ (∀ p, bufs !! p = None → h' !! p = h !! p).

Lemma left_over_nothing h s : left_over ∅ h s ↔ mem h s.
Proof.
  split.
  - intros (h'&Hm&_&Hr). replace h with h'; [done|]. apply map_eq. intros p. by apply Hr.
  - intros Hm. exists h. split_and!; [done| |done]. intros p b [=].
Qed.

Lemma left_over_one p b h s :
  (0 < p)%Z → h !! p = None → left_over {[p := b]} h s → mem (<[p := OBuffer b]> h) s.
Proof.
  intros Hp Hh (h'&Hm&Hb&Hr). replace (<[p := OBuffer b]> h) with h'; [done|]. apply map_eq. intros a.
  destruct (decide (a = p)) as [->|Hne].
  - rewrite lookup_insert_eq. apply (Hb p b). by rewrite lookup_singleton_eq.
  - rewrite lookup_insert_ne by done. apply Hr. by rewrite lookup_singleton_ne.
Qed.

Lemma wp_malloc_left n (Q : Z → Memory L → Prop) bufs h s :
  (∀ l, (lib_memory l).1 = true) → left_over bufs h s →
  (∀ a s', (0 < a)%Z → h !! a = None → bufs !! a = None → left_over (<[a := zeros n]> bufs) h s' → Q a s') →
  wp (malloc_zero n) Q s.
Proof.
  intros Hl (h'&Hm&Hb&Hr) HQ. apply wp_bind, wp_bind. apply (wp_on_library _ _ h'); [done|]. intros s' Hs'.
  rewrite Hl. apply (wp_new _ _ h'); [done|]. intros a s2 Ha Hh Hs2.
  rewrite bool_decide_false by lia. apply wp_bind, wp_ret, wp_ret.
  assert (bufs !! a = None) as Hn.
  { destruct (bufs !! a) as [b|] eqn:E; [|done]. destruct (Hb a b E) as [Hx _]. congruence. }
  apply HQ; [done|by rewrite <-(Hr a Hn)|done|]. eexists. split; [done|]. split.
  - intros p b Hp. destruct (decide (p = a)) as [->|Hne].
    + rewrite lookup_insert_eq in Hp. injection Hp as <-. rewrite lookup_insert_eq. split; [done|].
      by rewrite <-(Hr a Hn).
    + rewrite lookup_insert_ne in Hp by done. rewrite lookup_insert_ne by done. eauto.
  - intros p Hp. apply lookup_insert_None in Hp as [Hp Hne]. rewrite lookup_insert_ne by done. eauto.
Qed.

Lemma wp_context_new (Q : Z → Memory L → Prop) bufs h s :
  (∀ l, (lib_memory l).1 = true) → left_over bufs h s →
  (∀ a s', owned a cipher_ctx_new bufs h s' → Q a s') →
  wp EVP_CIPHER_CTX_new Q s.
Proof.
  intros Hl (h'&Hm&Hb&Hr) HQ. apply wp_bind. apply (wp_on_library _ _ h'); [done|]. intros s' Hs'.
  rewrite Hl. apply (wp_new _ _ h'); [done|]. intros a s2 Ha Hh Hs2. apply HQ.
  assert (bufs !! a = None) as Hn.
  { destruct (bufs !! a) as [b|] eqn:E; [|done]. destruct (Hb a b E) as [Hx _]. congruence. }
  eexists. split; [done|]. split; [by rewrite <-(Hr a Hn)|]. split; [done|].
  split; [by rewrite lookup_insert_eq|]. split.
  - intros p b Hp. rewrite lookup_insert_ne; [eauto|]. congruence.
  - intros p Hne Hp. rewrite lookup_insert_ne by done. eauto.
Qed.

Lemma wp_free_context ctx c bufs h (Q : unit → Memory L → Prop) s :
  owned ctx c bufs h s → (∀ s', left_over bufs h s' → Q tt s') → wp (free ctx) Q s.
Proof.
  intros (h'&Hm&Hh&Hn&Hc&Hb&Hr) HQ. eapply wp_free; [done..|]. intros s' Hs'. apply HQ.
  eexists. split; [done|]. split.
  - intros p b Hp. rewrite lookup_delete_ne; [eauto|]. congruence.
  - intros p Hp. destruct (decide (p = ctx)) as [->|]; [by rewrite lookup_delete_eq|].
    rewrite lookup_delete_ne; auto.
Qed.

Lemma wp_free_left p b bufs h (Q : unit → Memory L → Prop) s :
  left_over bufs h s → bufs !! p = Some b → (∀ s', left_over (delete p bufs) h s' → Q tt s') →
  wp (free p) Q s.
Proof.
  intros (h'&Hm&Hb&Hr) Hp HQ. destruct (Hb p b Hp) as [Hx Hy]. eapply wp_free; [done..|].
  intros s' Hs'. apply HQ. eexists. split; [done|]. split.
  - intros q b' Hq. apply lookup_delete_Some in Hq as [Hne Hq]. rewrite lookup_delete_ne by done. eauto.
  - intros q Hq. destruct (decide (q = p)) as [->|]; [by rewrite lookup_delete_eq|].
    rewrite lookup_delete_ne in Hq by done. rewrite lookup_delete_ne by done. eauto.
Qed.

Lemma wp_read_left p b n bufs h (Q : bytes → Memory L → Prop) s :
  left_over bufs h s → bufs !! p = Some b → n ≤ String.length b → Q (take_bytes n b) s → wp (read p n) Q s.
Proof. intros (h'&Hm&Hb&_) Hp Hn HQ. eapply wp_read; [done|by apply Hb|done..]. Qed.

(** * Rules for the functions on cipher contexts *)

Lemma owned_cipher {A} ctx c bufs h f failed (Q : A → Memory L → Prop) s :
  owned ctx c bufs h s →
  (∀ l r c' l', f c l = (r, c', l') → ∀ s', owned ctx c' bufs h s' → Q r s') →
  wp (on_cipher ctx f failed) Q s.
Proof.
  intros (h'&Hm&Hh&Hn&Hc&Hb&Hr) HQ. eapply wp_on_cipher; [done..|]. intros l r c' l' E s' Hs'.
  eapply HQ; [done|]. eexists. split; [done|]. do 2 (split; [done|]). split; [by rewrite lookup_insert_eq|].
  split.
  - intros p b Hp. rewrite lookup_insert_ne; [eauto|]. congruence.
  - intros p Hne Hp. rewrite lookup_insert_ne by done. eauto.
Qed.

Lemma owned_write ctx c bufs h p b offset out (Q : unit → Memory L → Prop) s :
  owned ctx c bufs h s → bufs !! p = Some b → offset + String.length out ≤ String.length b →
  (∀ s', owned ctx c (<[p := take_bytes offset b +:+ out +:+ drop_bytes (offset + String.length out) b]> bufs)
           h s' → Q tt s') →
  wp (write p offset out) Q s.
Proof.
  intros (h'&Hm&Hh&Hn&Hc&Hb&Hr) Hp Hl HQ. destruct (Hb p b Hp) as [Hx Hy].
  assert (p ≠ ctx) as Hne by congruence.
  eapply wp_write; [done..|]. intros s' Hs'. apply HQ. eexists. split; [done|].
  split; [done|]. split; [by rewrite lookup_insert_ne|]. split; [by rewrite lookup_insert_ne|]. split.
  - intros q b' Hq. destruct (decide (q = p)) as [->|Hqp].
    + rewrite lookup_insert_eq in Hq. rewrite lookup_insert_eq. by injection Hq as <-.
    + rewrite lookup_insert_ne in Hq by done. rewrite lookup_insert_ne by done. eauto.
  - intros q Hqc Hq. apply lookup_insert_None in Hq as [Hq Hqp]. rewrite lookup_insert_ne by done. eauto.
Qed.

(** The arguments are as long as the library reads them. *)
Definition long_enough (arg : option bytes) (n : nat) : Prop :=
  match arg with Some b => n ≤ String.length b | None => True end.

Lemma wp_reads arg n (Q : unit → Memory L → Prop) s : long_enough arg n → Q tt s → wp (reads arg n) Q s.
Proof. intros Hl HQ. destruct arg as [b|]; [|done]. simpl in *. by rewrite (proj2 (Nat.leb_le _ _) Hl). Qed.

Lemma owned_init d ctx c bufs h cipher key iv (Q : Z → Memory L → Prop) s :
  owned ctx c bufs h s →
  long_enough key (match cipher with Some ci => cipher_key_bytes ci | None => key_bytes c end) →
  long_enough iv (match cipher with Some ci => cipher_iv_bytes ci | None => iv_bytes c end) →
  (∀ l c' l' s', lib_init d cipher key iv c l = (0%Z, c', l') → owned ctx c' bufs h s' → Q 0%Z s') →
  (∀ l r c' l' s', lib_init d cipher key iv c l = (r, c', l') → r ≠ 0%Z → owned ctx c' bufs h s' → Q r s') →
  wp (EVP_Init d ctx cipher key iv) Q s.
Proof.
  intros Ho Hk Hi H0 HQ. apply wp_bind. eapply owned_cipher; [done|].
  intros l [r sizes] c' l' E s' Hs'. unfold bind, ret in E.
  destruct (lib_init d cipher key iv c l) as [[r0 c0] l0] eqn:E0. injection E as <- <- <- <-.
  case_bool_decide as Hr; [subst; apply wp_ret; eauto|].
  destruct (doc_init _ _ _ _ _ _ _ _ _ E0 Hr) as [_ Hd].
  assert (key_bytes c0 = match cipher with Some ci => cipher_key_bytes ci | None => key_bytes c end
    ∧ iv_bytes c0 = match cipher with Some ci => cipher_iv_bytes ci | None => iv_bytes c end)
    as [Hkc Hic] by (by destruct cipher).
  apply wp_bind, wp_reads; [by rewrite <-Hkc in Hk|]. apply wp_bind, wp_reads; [by rewrite <-Hic in Hi|].
  apply wp_ret. eauto.
Qed.

Lemma owned_update d ctx c bufs h p b offset data (Q : Z * nat → Memory L → Prop) s :
  owned ctx c bufs h s → bufs !! p = Some b →
  offset + pending c + String.length data ≤ String.length b →
  (∀ l r out c' l' s', lib_update d (InData data) c l = (r, out, c', l') →
     owned ctx c' (<[p := take_bytes offset b +:+ out +:+ drop_bytes (offset + String.length out) b]> bufs)
       h s' → Q (r, String.length out) s') →
  wp (EVP_Update d ctx (Some (p, offset)) (InData data)) Q s.
Proof.
  intros Ho Hp Hl HQ. apply wp_bind. eapply owned_cipher; [done|]. intros l [r out] c' l' E s' Hs'.
  pose proof (doc_update d (InData data) c l r out c' l' E) as Hout. simpl in Hout.
  apply wp_bind. eapply owned_write; [done..|lia|]. intros s2 Hs2. apply wp_ret. eauto.
Qed.

Lemma owned_feed d ctx c bufs h input (Q : Z * nat → Memory L → Prop) s :
  owned ctx c bufs h s →
  (∀ l r out c' l' s', lib_update d input c l = (r, out, c', l') → owned ctx c' bufs h s' →
     Q (r, String.length out) s') →
  wp (EVP_Update d ctx None input) Q s.
Proof.
  intros Ho HQ. apply wp_bind. eapply owned_cipher; [done|]. intros l [r out] c' l' E s' Hs'.
  apply wp_bind, wp_ret, wp_ret. eauto.
Qed.

Lemma owned_final d ctx c bufs h p b offset (Q : Z * nat → Memory L → Prop) s :
  owned ctx c bufs h s → bufs !! p = Some b → offset + 16 ≤ String.length b →
  (∀ l r out c' l' s', lib_final d c l = (r, out, c', l') → String.length out ≤ 16 →
     owned ctx c' (<[p := take_bytes offset b +:+ out +:+ drop_bytes (offset + String.length out) b]> bufs)
       h s' → Q (r, String.length out) s') →
  wp (EVP_Final d ctx (Some (p, offset))) Q s.
Proof.
  intros Ho Hp Hl HQ. apply wp_bind. eapply owned_cipher; [done|]. intros l [r out] c' l' E s' Hs'.
  pose proof (doc_final d c l r out c' l' E) as Hout.
  apply wp_bind. eapply owned_write; [done..|lia|]. intros s2 Hs2. apply wp_ret. eauto.
Qed.

Lemma owned_control ctx c bufs h x (Q : Z → Memory L → Prop) s :
  owned ctx c bufs h s →
  (∀ l r c' l' s', lib_control x c l = (r, c', l') → owned ctx c' bufs h s' → Q r s') →
  wp (EVP_CIPHER_CTX_ctrl ctx x) Q s.
Proof. intros Ho HQ. eapply owned_cipher; [done|]. eauto. Qed.

Lemma owned_get_tag ctx c bufs h n p b (Q : Z → Memory L → Prop) s :
  owned ctx c bufs h s → bufs !! p = Some b → n ≤ String.length b →
  (∀ l r out c' l' s', lib_get_tag n c l = (r, out, c', l') →
     owned ctx c' (<[p := out +:+ drop_bytes (String.length out) b]> bufs) h s' → Q r s') →
  wp (EVP_CTRL_GET_TAG ctx n p) Q s.
Proof.
  intros Ho Hp Hl HQ. apply wp_bind, wp_bind. eapply owned_cipher; [done|]. intros l [r out] c' l' E s' Hs'.
  pose proof (doc_get_tag n c l r out c' l' E) as Hout.
  apply wp_bind. eapply owned_write; [done..|simpl; lia|]. intros s2 Hs2. apply wp_ret, wp_ret. cbn [fst snd].
  eapply HQ; [done|]. by rewrite take_bytes_0 in Hs2.
Qed.

(** What a failing function frees. *)
Lemma owned_discard {A} ctx c p b h (a : A) (Q : A → Memory L → Prop) s :
  owned ctx c {[p := b]} h s → (∀ s', mem h s' → Q a s') → wp (free ctx ;;; free p ;;; ret a) Q s.
Proof.
  intros Hs HQ. apply wp_bind. eapply wp_free_context; [done|]. intros s1 Hs1.
  apply wp_bind. eapply wp_free_left; [done|by rewrite lookup_singleton_eq|]. intros s2 Hs2.
  apply wp_ret, HQ. rewrite delete_singleton_eq in Hs2. by apply left_over_nothing.
Qed.

(** * Symmetric encryption *)

(** A run of the library: the two parts of the output. *)
Definition crypt_run d (ci : Cipher) (key iv input out1 out2 : bytes) : Prop :=
  ∃ l0 r0 c0 l0' l1 r1 c1 l1' l2 r2 c2 l2',
    lib_init d (Some ci) (Some key) (Some iv) cipher_ctx_new l0 = (r0, c0, l0') ∧ r0 ≠ 0%Z
    ∧ lib_update d (InData input) c0 l1 = (r1, out1, c1, l1') ∧ r1 ≠ 0%Z
    ∧ lib_final d c1 l2 = (r2, out2, c2, l2') ∧ r2 ≠ 0%Z.

(** A run in which the library fails. *)
Definition crypt_fails d (ci : Cipher) (key iv input : bytes) : Prop :=
  (∃ l0 c0 l0', lib_init d (Some ci) (Some key) (Some iv) cipher_ctx_new l0 = (0%Z, c0, l0'))
  ∨ ∃ l0 r0 c0 l0' l1 r1 out1 c1 l1',
      lib_init d (Some ci) (Some key) (Some iv) cipher_ctx_new l0 = (r0, c0, l0') ∧ r0 ≠ 0%Z
      ∧ lib_update d (InData input) c0 l1 = (r1, out1, c1, l1')
      ∧ (r1 = 0%Z ∨ r1 ≠ 0%Z ∧ ∃ l2 out2 c2 l2', lib_final d c1 l2 = (0%Z, out2, c2, l2')).

(** Whatever the library answers, encryption and decryption without
    authentication stay within their buffers, and leave behind nothing but the
    output. *)
Lemma aes_crypt_safe d mode size iv key input h s :
  (∀ l, (lib_memory l).1 = true) → mem h s → mode ≠ BlockModeXts →
  Z.of_nat (String.length iv) = initializationVectorSize AlgorithmAes mode size →
  wp (aes_crypt d (getEvpCipher mode (Z.of_nat (String.length key))) iv key input) (λ '(n, p) s',
    n = (-1)%Z ∧ mem h s' ∧ (isEmpty input = false → isEmpty key = false →
      ∀ ci, getEvpCipher mode (Z.of_nat (String.length key)) = Some ci → crypt_fails d ci key iv input)
    ∨ ∃ ci out1 out2 rest, getEvpCipher mode (Z.of_nat (String.length key)) = Some ci
        ∧ crypt_run d ci key iv input out1 out2
        ∧ n = Z.of_nat (String.length (out1 +:+ out2)) ∧ (0 < p)%Z ∧ h !! p = None
        ∧ left_over {[p := (out1 +:+ out2) +:+ rest]} h s') s.
Proof.
  intros Hl Hm Hx Hiv. unfold aes_crypt. destruct (getEvpCipher _ _) as [ci|] eqn:Ec; [|by apply wp_ret; left].
  destruct (getEvpCipher_sizes _ _ size _ Ec Hx) as [Hk Hi].
  case_match eqn:Hempty; [apply wp_ret; left|].
  { split_and!; [done..|]. intros He1 He2. by rewrite He1, He2 in Hempty. }
  apply wp_bind. eapply wp_malloc_left; [done|by apply left_over_nothing|].
  intros p s1 Hp Hh _ Hs1. apply wp_bind. eapply wp_context_new; [done..|]. intros ctx s2 Hs2.
  rewrite insert_empty in Hs2.
  apply wp_bind. eapply owned_init; [done|simpl; lia|simpl; lia| |].
  { intros l0 c' l0' s3 E0 Hs3. rewrite bool_decide_true by done. eapply owned_discard; [done|].
    intros s4 Hs4. left. split_and!; [done..|]. intros _ _ ci' [= <-]. left. eauto. }
  intros l0 r0 c0 l0' s3 E0 Hr0 Hs3. rewrite bool_decide_false by done.
  destruct (doc_init _ _ _ _ _ _ _ _ _ E0 Hr0) as [Hpend _].
  apply wp_bind. eapply owned_update; [done|by rewrite lookup_singleton_eq| |].
  { rewrite zeros_length, Hpend. unfold AES_BLOCK_SIZE. lia. }
  intros l1 r1 out1 c1 l1' s4 E1 Hs4. rewrite insert_singleton_eq in Hs4.
  pose proof (doc_update _ _ _ _ _ _ _ _ E1) as Hout1. simpl in Hout1. rewrite Hpend in Hout1.
  case_bool_decide as Hr1.
  { eapply owned_discard; [done|]. intros s5 Hs5. left. split_and!; [done..|]. intros _ _ ci' [= <-].
    right. do 9 eexists. split_and!; [done..|]. by left. }
  apply wp_bind. eapply owned_final; [done|by rewrite lookup_singleton_eq| |].
  { rewrite !length_app_bytes, drop_bytes_length, take_bytes_length, zeros_length. unfold AES_BLOCK_SIZE. lia. }
  intros l2 r2 out2 c2 l2' s5 E2 Hout2 Hs5. rewrite insert_singleton_eq in Hs5.
  case_bool_decide as Hr2.
  { subst. eapply owned_discard; [done|]. intros s6 Hs6. left. split_and!; [done..|]. intros _ _ ci' [= <-].
    right. do 9 eexists. split_and!; [done..|]. right. eauto 10. }
  apply wp_bind. eapply wp_free_context; [done|]. intros s6 Hs6. apply wp_ret. right.
  eexists ci, out1, out2, _. split; [done|]. split; [by do 12 eexists; split_and!|].
  split; [rewrite length_app_bytes; lia|]. do 2 (split; [done|]).
  rewrite take_bytes_0, app_empty_l in Hs6. simpl in Hs6. rewrite take_app in Hs6. by rewrite string_app_assoc'.
Qed.

(** * Authenticated encryption *)

Definition authenticating (ci : Cipher) : bool :=
  bool_decide (cipher_mode ci = ModeGcm) || bool_decide (cipher_mode ci = ModeCcm).

(** A conditional step on the context *)
Lemma owned_when b m ctx c bufs h (Q : Z → Memory L → Prop) s :
  owned ctx c bufs h s → (b = false → Q 1%Z s) → (b = true → wp m Q s) → wp (when b m) Q s.
Proof. intros Ho Hf Ht. destruct b; simpl; [auto|]. apply wp_ret. auto. Qed.

Lemma auth_begin_safe d ci ctx iv key auth n ccm {A} (failure k : M (Memory L) A) Q bufs h s :
  owned ctx cipher_ctx_new bufs h s → authenticating ci = true →
  (∀ m, ccm ≠ SetIvLength m) → cipher_key_bytes ci ≤ String.length key →
  (∀ c s', owned ctx c bufs h s' → wp failure Q s') →
  (∀ c s', owned ctx c bufs h s' → pending c = 0 → wp k Q s') →
  wp (auth_begin d ci ctx iv key auth n ccm failure k) Q s.
Proof.
  intros Ho Hauth Hccm Hkey Hfail Hk. unfold auth_begin.
  apply wp_bind. eapply owned_init; [done..| |].
  { intros l c' l' s' _ Hs'. rewrite bool_decide_true by done. eauto. }
  intros l0 r0 c0 l0' s0 E0 Hr0 Hs0. rewrite bool_decide_false by done.
  destruct (doc_init _ _ _ _ _ _ _ _ _ E0 Hr0) as (_&Hkb&_).
  replace (is_mode (Some (cipher_mode ci)) ModeGcm || is_mode (Some (cipher_mode ci)) ModeCcm) with true.
  2: { unfold is_mode, authenticating in *. by destruct (cipher_mode ci). }
  unfold when at 1. apply wp_bind. eapply owned_control; [done|]. intros l1 r1 c1 l1' s1 E1 Hs1.
  case_bool_decide as Hr1; [eauto|]. destruct (doc_control _ _ _ _ _ _ E1 Hr1) as (Hkb1&_&Hib1).
  rewrite Nat2Z.id in Hib1.
  assert (∀ c2 s2, owned ctx c2 bufs h s2 → key_bytes c2 = key_bytes c1 → iv_bytes c2 = iv_bytes c1 →
    wp (let* r := EVP_Init d ctx None (Some key) (Some iv) in
        if bool_decide (r = 0%Z) then failure else
        let* r := when (is_mode (Some (cipher_mode ci)) ModeCcm)
                    (let* '(r, _) := EVP_Update d ctx None (InLength (Z.of_nat n)) in ret r) in
        if bool_decide (r = 0%Z) then failure else
        let* '(r, _) := EVP_Update d ctx None (InAuthentication auth) in
        if bool_decide (r = 0%Z) then failure else k) Q s2) as Hrest.
  { intros c2 s2 Hs2 Hk2 Hi2. apply wp_bind. eapply owned_init; [done| | | |].
    { simpl. rewrite Hk2, Hkb1, Hkb. lia. }
    { simpl. rewrite Hi2, Hib1. lia. }
    { intros l c' l' s' _ Hs'. rewrite bool_decide_true by done. eauto. }
    intros l3 r3 c3 l3' s3 E3 Hr3 Hs3. rewrite bool_decide_false by done.
    destruct (doc_init _ _ _ _ _ _ _ _ _ E3 Hr3) as [Hp3 _].
    apply wp_bind. eapply (owned_when _ _ _ _ _ _ _ _ Hs3).
    - intros _. rewrite bool_decide_false by done. apply wp_bind. eapply owned_feed; [done|].
      intros l4 r4 out4 c4 l4' s4 E4 Hs4. case_bool_decide; [eauto|].
      pose proof (doc_update _ _ _ _ _ _ _ _ E4) as Hp4. simpl in Hp4. eapply Hk; [done|congruence].
    - intros _. apply wp_bind. eapply owned_feed; [done|]. intros l4 r4 out4 c4 l4' s4 E4 Hs4. apply wp_ret.
      pose proof (doc_update _ _ _ _ _ _ _ _ E4) as Hp4. simpl in Hp4. case_bool_decide; [eauto|].
      apply wp_bind. eapply owned_feed; [done|]. intros l5 r5 out5 c5 l5' s5 E5 Hs5.
      pose proof (doc_update _ _ _ _ _ _ _ _ E5) as Hp5. simpl in Hp5.
      case_bool_decide; [eauto|]. eapply Hk; [done|congruence]. }
  apply wp_bind. eapply (owned_when _ _ _ _ _ _ _ _ Hs1).
  - intros _. rewrite bool_decide_false by done. eauto.
  - intros _. eapply owned_control; [done|]. intros l2 r2 c2 l2' s2 E2 Hs2.
    case_bool_decide as Hr2; [eauto|]. destruct (doc_control _ _ _ _ _ _ E2 Hr2) as (?&_&Hib2).
    eapply Hrest; [done..|]. destruct ccm; [by destruct (Hccm n0)|done..].
Qed.


Lemma owned_discard_two {A} ctx c p b t tag h (a : A) (Q : A → Memory L → Prop) s :
  owned ctx c {[p := b; t := tag]} h s → p ≠ t → (∀ s', mem h s' → Q a s') →
  wp (free ctx ;;; free p ;;; free t ;;; ret a) Q s.
Proof.
  intros Hs Hne HQ. apply wp_bind. eapply wp_free_context; [done|]. intros s1 Hs1.
  apply wp_bind. eapply wp_free_left; [done|by simplify_map_eq|]. intros s2 Hs2.
  rewrite delete_insert_id in Hs2 by (by simplify_map_eq).
  apply wp_bind. eapply wp_free_left; [done|by simplify_map_eq|]. intros s3 Hs3.
  apply wp_ret, HQ. rewrite delete_singleton_eq in Hs3. by apply left_over_nothing.
Qed.

Lemma aes_auth_encrypt_safe ci iv key auth input n h s :
  (∀ l, (lib_memory l).1 = true) → mem h s → authenticating ci = true →
  cipher_key_bytes ci ≤ String.length key →
  wp (aes_auth_encrypt_plaintext (Some ci) iv key auth input n) (λ '(size, p, t) s',
    size = (-1)%Z ∧ mem h s'
    ∨ ∃ b tag, (0 ≤ size ≤ Z.of_nat (String.length b))%Z ∧ String.length tag = Z.to_nat n
        ∧ p ≠ t ∧ left_over {[p := b; t := tag]} h s') s.
Proof.
  intros Hl Hm Ha Hk. unfold aes_auth_encrypt_plaintext. apply wp_bind, wp_ret.
  case_match; [apply wp_ret; by left|].
  apply wp_bind. eapply wp_malloc_left; [done|by apply left_over_nothing|]. intros p s1 Hp Hhp _ Hs1.
  apply wp_bind. eapply wp_malloc_left; [done..|]. intros t s2 Ht Hht Hpt Hs2.
  assert (p ≠ t) as Hne by (intros ->; by rewrite insert_empty, lookup_singleton_eq in Hpt).
  rewrite insert_insert_ne, insert_empty in Hs2 by done.
  apply wp_bind. eapply wp_context_new; [done..|]. intros ctx s3 Hs3.
  eapply auth_begin_safe; [done..| |].
  { intros c s' Hs'. eapply owned_discard_two; [done..|]. eauto. }
  intros c s4 Hs4 Hpend.
  apply wp_bind. eapply owned_update; [done|by simplify_map_eq| |].
  { rewrite zeros_length, Hpend. unfold AES_BLOCK_SIZE. lia. }
  intros l1 r1 out1 c1 l1' s5 E1 Hs5. rewrite insert_insert_eq in Hs5.
  pose proof (doc_update _ _ _ _ _ _ _ _ E1) as Hout1. simpl in Hout1. rewrite Hpend in Hout1.
  case_bool_decide; [eapply owned_discard_two; [done..|]; eauto|].
  apply wp_bind. eapply owned_final; [done|by simplify_map_eq| |].
  { rewrite !length_app_bytes, drop_bytes_length, take_bytes_length, zeros_length. unfold AES_BLOCK_SIZE. lia. }
  intros l2 r2 out2 c2 l2' s6 E2 Hout2 Hs6. rewrite insert_insert_eq in Hs6.
  case_bool_decide; [eapply owned_discard_two; [done..|]; eauto|].
  replace (is_mode _ _ || _) with true.
  2: { unfold is_mode, authenticating in *. by destruct (cipher_mode ci). }
  apply wp_bind. simpl. eapply owned_get_tag; [done|by simplify_map_eq|by rewrite zeros_length|].
  intros l3 r3 tag c3 l3' s7 E3 Hs7. pose proof (doc_get_tag _ _ _ _ _ _ _ E3) as Htag.
  rewrite insert_insert_ne, insert_singleton_eq in Hs7 by done.
  case_bool_decide; [eapply owned_discard_two; [done..|]; eauto|].
  apply wp_bind. eapply wp_free_context; [done|]. intros s8 Hs8. apply wp_ret. right.
  eexists _, _. split; [|split; [|done]].
  - rewrite !length_app_bytes, !drop_bytes_length, !take_bytes_length, !length_app_bytes,
      drop_bytes_length, take_bytes_length, zeros_length. unfold AES_BLOCK_SIZE. lia.
  - rewrite length_app_bytes, drop_bytes_length, zeros_length. lia.
Qed.

Lemma aes_auth_decrypt_safe ci iv key auth tag input v h s :
  (∀ l, (lib_memory l).1 = true) → mem h s → authenticating ci = true →
  cipher_key_bytes ci ≤ String.length key →
  wp (aes_auth_decrypt_ciphertext (Some ci) iv key auth tag input v) (λ '(size, p, _) s',
    size = (-1)%Z ∧ mem h s'
    ∨ ∃ b, (0 ≤ size ≤ Z.of_nat (String.length b))%Z ∧ left_over {[p := b]} h s') s.
Proof.
  intros Hl Hm Ha Hk. unfold aes_auth_decrypt_ciphertext. apply wp_bind, wp_ret.
  case_match; [apply wp_ret; by left|].
  apply wp_bind. eapply wp_malloc_left; [done|by apply left_over_nothing|]. intros p s1 Hp Hhp _ Hs1.
  rewrite insert_empty in Hs1. apply wp_bind. eapply wp_context_new; [done..|]. intros ctx s3 Hs3.
  eapply auth_begin_safe; [done..| |].
  { intros c s' Hs'. eapply owned_discard; [done|]. eauto. }
  intros c s4 Hs4 Hpend.
  apply wp_bind. eapply owned_update; [done|by simplify_map_eq| |].
  { rewrite zeros_length, Hpend. unfold AES_BLOCK_SIZE. lia. }
  intros l1 r1 out1 c1 l1' s5 E1 Hs5. rewrite insert_singleton_eq in Hs5.
  pose proof (doc_update _ _ _ _ _ _ _ _ E1) as Hout1. simpl in Hout1. rewrite Hpend in Hout1.
  case_match.
  - case_bool_decide; [eapply owned_discard; [done|]; eauto|].
    apply wp_bind. eapply owned_control; [done|]. intros l2 r2 c2 l2' s6 E2 Hs6.
    case_bool_decide; [eapply owned_discard; [done|]; eauto|].
    apply wp_bind. eapply owned_final; [done|by simplify_map_eq| |].
    { rewrite !length_app_bytes, drop_bytes_length, take_bytes_length, zeros_length. unfold AES_BLOCK_SIZE. lia. }
    intros l3 r3 out3 c3 l3' s7 E3 Hout3 Hs7. rewrite insert_singleton_eq in Hs7.
    apply wp_bind. eapply wp_free_context; [done|]. intros s8 Hs8. apply wp_ret. right.
    eexists. split; [|done].
    rewrite !length_app_bytes, !drop_bytes_length, !take_bytes_length, !length_app_bytes,
      drop_bytes_length, take_bytes_length, zeros_length. unfold AES_BLOCK_SIZE. lia.
  - apply wp_bind. eapply wp_free_context; [done|]. intros s8 Hs8. apply wp_ret. right.
    eexists. split; [|done]. rewrite !length_app_bytes. lia.
Qed.

(** * The functions of the plugin *)

Lemma getEvpCipher_auth mode n c :
  getEvpCipher mode (Z.of_nat n) = Some c → mode = BlockModeGcm ∨ mode = BlockModeCcm →
  authenticating c = true ∧ cipher_key_bytes c = n.
Proof.
  intros Hc Hm. split.
  - destruct Hm as [-> | ->]; by apply aes_of_size_some in Hc as ->.
  - eapply (getEvpCipher_sizes mode n 0); [done|]. by destruct Hm as [-> | ->].
Qed.

Lemma left_over_taken p b n h (Q : bytes → Memory L → Prop) s :
  left_over {[p := b]} h s → n ≤ String.length b → (∀ s', mem h s' → Q (take_bytes n b) s') →
  wp (let* out := read p n in free p ;;; ret out) Q s.
Proof.
  intros Hs Hn HQ. apply wp_bind. eapply wp_read_left; [done|by rewrite lookup_singleton_eq|done|].
  apply wp_bind. eapply wp_free_left; [done|by rewrite lookup_singleton_eq|]. intros s' Hs'.
  apply wp_ret, HQ. rewrite delete_singleton_eq in Hs'. by apply left_over_nothing.
Qed.

(** Apart from what is left in memory when there is no output, the heap is as
    before. *)
Definition leaks (empty : bool) h s : Prop :=
  if empty then ∃ bufs, left_over bufs h s ∧ size bufs ≤ 2 else mem h s.

Lemma mem_leaks e h s : mem h s → leaks e h s.
Proof. intros Hm. destruct e; [|done]. exists ∅. split; [by apply left_over_nothing|]. rewrite map_size_empty. lia. Qed.

Lemma plugin_aes_safe d mode ksize iv key input h s :
  (∀ l, (lib_memory l).1 = true) → mem h s → mode ≠ BlockModeXts →
  Z.of_nat (String.length iv) = initializationVectorSize AlgorithmAes mode ksize →
  wp (plugin_aes d mode input key iv) (λ out s', leaks (isEmpty out) h s'
    ∧ ((∃ ci out1 out2, getEvpCipher mode (Z.of_nat (String.length key)) = Some ci
          ∧ crypt_run d ci key iv input out1 out2 ∧ out = out1 +:+ out2)
       ∨ out = "" ∧ (isEmpty input = false → isEmpty key = false →
           ∀ ci, getEvpCipher mode (Z.of_nat (String.length key)) = Some ci → crypt_fails d ci key iv input))) s.
Proof.
  intros Hl Hm Hx Hiv. apply wp_bind. eapply wp_mono; [by eapply aes_crypt_safe|].
  intros [n p] s' [(->&Hs'&Hfails)|(ci&out1&out2&rest&Hci&Hrun&->&Hp&Hh&Hs')]; simpl.
  { apply wp_ret. split; [by apply mem_leaks|]. by right. }
  case_match eqn:E.
  - apply wp_ret. split; [eexists; split; [done|]; rewrite map_size_singleton; lia|].
    left. eexists ci, out1, out2. split_and!; [done..|].
    destruct (out1 +:+ out2); [done|]. apply Z.leb_le in E. simpl in E. lia.
  - eapply left_over_taken; [done|rewrite (length_app_bytes (out1 +:+ out2)); lia|].
    intros s2 Hs2. rewrite Nat2Z.id, take_app. split; [by apply mem_leaks|]. left. eauto 10.
Qed.

Lemma plugin_aes_auth_encrypt_safe mode iv key auth input n h s :
  (∀ l, (lib_memory l).1 = true) → mem h s → mode = BlockModeGcm ∨ mode = BlockModeCcm →
  is_Some (getEvpCipher mode (Z.of_nat (String.length key))) →
  wp (plugin_aes_auth_encrypt mode input key iv auth n) (λ '(out, tag) s', leaks (isEmpty out) h s') s.
Proof.
  intros Hl Hm Hmode [ci Hci]. destruct (getEvpCipher_auth _ _ _ Hci Hmode) as [Ha Hk].
  unfold plugin_aes_auth_encrypt. rewrite Hci. apply wp_bind.
  eapply wp_mono; [eapply aes_auth_encrypt_safe; [done..|lia]|].
  intros [[size p] t] s' [(->&Hs')|(b&tag&Hsize&Htag&Hne&Hs')]; simpl.
  { apply wp_ret. by apply mem_leaks. }
  case_match eqn:E.
  - apply wp_ret. eexists. split; [done|]. rewrite map_size_insert, map_size_singleton. by case_match; simpl; lia.
  - apply wp_bind. eapply wp_read_left; [done|by simplify_map_eq|lia|]. apply wp_bind.
    eapply wp_free_left; [done|by simplify_map_eq|]. intros s2 Hs2.
    rewrite delete_insert_id in Hs2 by (by simplify_map_eq).
    apply wp_bind. eapply wp_read_left; [done|by rewrite lookup_singleton_eq|lia|]. apply wp_bind.
    eapply wp_free_left; [done|by rewrite lookup_singleton_eq|]. intros s3 Hs3. apply wp_ret.
    rewrite delete_singleton_eq in Hs3. by apply mem_leaks, left_over_nothing.
Qed.

Lemma plugin_aes_auth_decrypt_safe mode iv key auth tag input h s :
  (∀ l, (lib_memory l).1 = true) → mem h s → mode = BlockModeGcm ∨ mode = BlockModeCcm →
  is_Some (getEvpCipher mode (Z.of_nat (String.length key))) →
  wp (plugin_aes_auth_decrypt mode input key iv auth tag) (λ '(out, _) s', leaks (isEmpty out) h s') s.
Proof.
  intros Hl Hm Hmode [ci Hci]. destruct (getEvpCipher_auth _ _ _ Hci Hmode) as [Ha Hk].
  unfold plugin_aes_auth_decrypt. rewrite Hci. apply wp_bind.
  eapply wp_mono; [eapply aes_auth_decrypt_safe; [done..|lia]|].
  intros [[size p] v] s' [(->&Hs')|(b&Hsize&Hs')]; simpl.
  { apply wp_ret. by apply mem_leaks. }
  case_match eqn:E.
  - apply wp_ret. eexists. split; [done|]. rewrite map_size_singleton. lia.
  - apply wp_bind. eapply wp_read_left; [done|by rewrite lookup_singleton_eq|lia|].
    apply wp_bind. eapply wp_free_left; [done|by rewrite lookup_singleton_eq|]. intros s2 Hs2. apply wp_ret.
    rewrite delete_singleton_eq in Hs2. by apply mem_leaks, left_over_nothing.
Qed.

(** The buffer that a function gives is copied and freed. *)
Lemma taken_safe p b n h s :
  (0 < p)%Z → h !! p = None → mem (<[p := OBuffer b]> h) s → n ≤ String.length b →
  wp (taken p n) (λ '(r, out) s', r = c_succeeded ∧ out = Some (take_bytes n b) ∧ mem h s') s.
Proof.
  intros Hp Hh Hm Hn. apply wp_bind. eapply wp_read; [done|by rewrite lookup_insert_eq|done|].
  apply wp_bind. eapply wp_free; [done|by rewrite lookup_insert_eq|]. intros s' Hs'. apply wp_ret.
  rewrite delete_insert_id in Hs' by done. done.
Qed.

(** * Asymmetric encryption and digests *)

Lemma pkey_crypt_safe init padded sizes run pkey h s :
  mem h s →
  (∀ l r n l' l2 r2 out l3, sizes l = (r, n, l') → run l2 = (r2, out, l3) → String.length out ≤ n) →
  wp (pkey_crypt init padded sizes run pkey) (λ '(r, p, n) s',
    r = (-1)%Z ∧ mem h s'
    ∨ r = 1%Z ∧ ∃ b, n ≤ String.length b ∧ (0 < p)%Z ∧ h !! p = None ∧ mem (<[p := OBuffer b]> h) s') s.
Proof.
  intros Hm Hdoc. apply wp_bind. eapply wp_allocate; [done| |].
  { intros s' Hs'. rewrite bool_decide_true by done. apply wp_ret. by left. }
  intros x s1 Hx Hhx Hs1. rewrite bool_decide_false by lia.
  assert (∀ s' Q, mem (<[x := OOther]> h) s' → (∀ s', mem h s' → Q (-1, 0, 0%nat)%Z s') →
    wp (free x ;;; ret (-1, 0, 0%nat)%Z) Q s') as Hfail.
  { intros s' Q Hs' HQ. apply wp_bind. eapply wp_free; [done|by rewrite lookup_insert_eq|]. intros s2 Hs2.
    apply wp_ret, HQ. by rewrite delete_insert_id in Hs2. }
  apply wp_bind. eapply wp_on_library; [done|]. intros s2 Hs2. case_match; [eapply Hfail; [done|]; by left|].
  assert (∀ s3, mem (<[x:=OOther]> h) s3 → wp (
     let* '(r, length) := on_library sizes in
     if negb (bool_decide (r = 1%Z)) then free x ;;; ret (-1, 0, 0%nat)%Z else
     let* buffer := allocate (OBuffer (zeros length)) in
     if bool_decide (buffer = 0%Z) then free x ;;; ret (-1, 0, 0%nat)%Z else
     let* '(r, out) := on_library run in
     write buffer 0 out ;;;
     if negb (bool_decide (r = 1%Z)) then free buffer ;;; free x ;;; ret (-1, 0, 0%nat)%Z else
     free x ;;;
     ret (1%Z, buffer, String.length out)) (λ '(r, p, n) s',
    r = (-1)%Z ∧ mem h s'
    ∨ r = 1%Z ∧ ∃ b, n ≤ String.length b ∧ (0 < p)%Z ∧ h !! p = None ∧ mem (<[p := OBuffer b]> h) s') s3) as Hrest.
  { intros s3 Hs3. apply wp_bind. eapply wp_on_library; [done|]. intros s4 Hs4.
    destruct (sizes (library s3)) as [[r n] l'] eqn:Es. simpl. case_match; [eapply Hfail; [done|]; by left|].
    apply wp_bind. eapply wp_allocate; [done| |].
    { intros s' Hs'. rewrite bool_decide_true by done. eapply Hfail; [done|]. by left. }
    intros p s5 Hp Hhp Hs5. apply lookup_insert_None in Hhp as [Hhp Hne]. rewrite bool_decide_false by lia.
    apply wp_bind. eapply wp_on_library; [done|]. intros s6 Hs6.
    destruct (run (library s5)) as [[r2 out] l3] eqn:Er. cbn [fst snd]. pose proof (Hdoc _ _ _ _ _ _ _ _ Es Er) as Hout.
    apply wp_bind. eapply wp_write; [done|by rewrite lookup_insert_eq|by rewrite zeros_length|].
    intros s7 Hs7. rewrite insert_insert_eq in Hs7. case_match.
    - apply wp_bind. eapply wp_free; [done|by rewrite lookup_insert_eq|]. intros s8 Hs8.
      rewrite delete_insert_id in Hs8 by (by rewrite lookup_insert_ne). eapply Hfail; [done|]. by left.
    - apply wp_bind. eapply wp_free; [done|by rewrite lookup_insert_ne, lookup_insert_eq|].
      intros s8 Hs8. apply wp_ret. right. split; [done|]. eexists. split; [|split; [done|]; split; [done|]].
      2: { rewrite delete_insert_ne, delete_insert_id in Hs8 by done. exact Hs8. }
      rewrite !length_app_bytes. lia. }
  apply wp_bind. unfold when. destruct (key_is_rsa pkey).
  - eapply wp_on_library; [done|]. intros s3 Hs3. case_match; [eapply Hfail; [done|]; by left|]. by apply Hrest.
  - apply wp_ret. by apply Hrest.
Qed.

(** * Encryption and decryption by the plugin *)

Lemma iv_error_none key mode iv :
  iv_error key mode iv = None →
  Z.of_nat (String.length iv) = initializationVectorSize (k_algorithm key) mode (k_size key).
Proof. unfold iv_error. case_match; [done|]. by case_bool_decide. Qed.

Lemma encryptAes_error_none iv key options auth :
  encryptAes_error iv key options auth = None →
  k_algorithm key = AlgorithmAes
  ∧ Z.of_nat (String.length iv) = initializationVectorSize AlgorithmAes (eo_blockMode options) (k_size key)
  ∧ (isEmpty auth = false → eo_blockMode options = BlockModeGcm ∨ eo_blockMode options = BlockModeCcm).
Proof.
  unfold encryptAes_error. case_match; [done|]. case_bool_decide as Ha; [|done]. simpl.
  do 3 (case_match; [done|]). intros Hi%iv_error_none. rewrite Ha in Hi. split_and!; [done..|].
  intros Hauth. rewrite Hauth, Ha in *. unfold authenticationTagSize in *. simpl in *.
  repeat case_bool_decide; auto; done.
Qed.

Lemma decryptAes_error_none iv key options auth tag :
  decryptAes_error iv key options auth tag = None →
  k_algorithm key = AlgorithmAes
  ∧ Z.of_nat (String.length iv) = initializationVectorSize AlgorithmAes (eo_blockMode options) (k_size key)
  ∧ (isEmpty auth = false → eo_blockMode options = BlockModeGcm ∨ eo_blockMode options = BlockModeCcm).
Proof.
  unfold decryptAes_error. case_match; [done|]. case_bool_decide as Ha; [|done]. simpl.
  do 3 (case_match; [done|]). intros Hi%iv_error_none. rewrite Ha in Hi. split_and!; [done..|].
  intros Hauth. rewrite Hauth in *. simpl in *. repeat case_bool_decide; auto; done.
Qed.

(** What makes a symmetric request safe: its block mode is not XTS, and if it is
    authenticated there is a cipher for its key. *)
Definition sound_key (key : CKey) (options : EncryptionOptions) (auth : bytes) : Prop :=
  k_algorithm key = AlgorithmAes →
  eo_blockMode options ≠ BlockModeXts
  ∧ (isEmpty auth = false →
     is_Some (getEvpCipher (eo_blockMode options) (Z.of_nat (String.length (k_secretKey key))))).

Lemma taken_leaks p b n h s :
  (0 < p)%Z → h !! p = None → mem (<[p := OBuffer b]> h) s → n ≤ String.length b →
  wp (taken p n) (λ '(r, _) s', leaks (negb (c_ok r)) h s') s.
Proof.
  intros Hp Hh Hm Hn. eapply wp_mono; [by eapply taken_safe|]. intros [r out] s' (_&_&Hs'). by apply mem_leaks.
Qed.

Lemma encryptAsymmetric_safe data iv key options h s :
  mem h s → wp (encryptAsymmetric data iv key options) (λ '(r, _) s', leaks (negb (c_ok r)) h s') s.
Proof.
  intros Hm. unfold encryptAsymmetric. case_match; [apply wp_ret; by apply mem_leaks|].
  destruct (asymmetric_padding _ _ _ _) as [e|padding]; [apply wp_ret; by apply mem_leaks|].
  apply wp_bind, wp_bind. eapply wp_on_library; [done|]. intros s1 Hs1.
  destruct (lib_read_public _ _ _) as [[[pkey|] ?] ?]; apply wp_ret; [|apply wp_ret; by apply mem_leaks].
  apply wp_bind. eapply wp_mono; [eapply pkey_crypt_safe; [done|]; intros; by eapply doc_pkey_encrypt|].
  intros [[r p] n] s2 [[-> Hs2]|(->&bb&Hn&Hp&Hh&Hs2)]; simpl.
  - apply wp_ret. by apply mem_leaks.
  - by eapply taken_leaks.
Qed.

Lemma decryptAsymmetric_safe data iv key options h s :
  mem h s → wp (decryptAsymmetric data iv key options) (λ '(r, _) s', leaks (negb (c_ok r)) h s') s.
Proof.
  intros Hm. unfold decryptAsymmetric. case_match; [apply wp_ret; by apply mem_leaks|].
  destruct (asymmetric_padding _ _ _ _) as [e|padding]; [apply wp_ret; by apply mem_leaks|].
  apply wp_bind, wp_bind. eapply wp_on_library; [done|]. intros s1 Hs1.
  destruct (lib_read_private _ _ _) as [[[pkey|] ?] ?]; apply wp_ret; [|apply wp_ret; by apply mem_leaks].
  apply wp_bind. eapply wp_mono; [eapply pkey_crypt_safe; [done|]; intros; by eapply doc_pkey_decrypt|].
  intros [[r p] n] s2 [[-> Hs2]|(->&bb&Hn&Hp&Hh&Hs2)]; simpl.
  - apply wp_ret. by apply mem_leaks.
  - by eapply taken_leaks.
Qed.

Lemma ossl_encrypt_safe data iv key options auth h s :
  (∀ l, (lib_memory l).1 = true) → mem h s → sound_key key options auth →
  wp (ossl_encrypt data iv key options auth) (λ '(r, _) s', leaks (negb (c_ok r)) h s') s.
Proof.
  intros Hl Hm Hkey. unfold ossl_encrypt. case_bool_decide as Ha.
  - destruct (Hkey Ha) as [Hx Hauth]. unfold encryptAes.
    destruct (encryptAes_error _ _ _ _) eqn:E; [apply wp_ret; by apply mem_leaks|].
    apply encryptAes_error_none in E as (_&Hiv&Hmode). destruct (isEmpty auth) eqn:Eauth; simpl; apply wp_bind.
    + eapply wp_mono; [by eapply plugin_aes_safe|]. intros out s1 [Hs1 _].
      destruct (isEmpty out) eqn:Eo; simpl; by apply wp_ret.
    + eapply wp_mono; [eapply plugin_aes_auth_encrypt_safe; eauto|]. intros [out tag] s1 Hs1.
      destruct (isEmpty out) eqn:Eo; [by repeat case_match; apply wp_ret|].
      by repeat case_match; apply wp_ret; apply mem_leaks.
  - case_match; [|apply wp_ret; by apply mem_leaks]. apply wp_bind.
    eapply wp_mono; [by apply encryptAsymmetric_safe|]. by intros [r out] s1 Hs1.
Qed.

Lemma ossl_decrypt_safe data iv key options auth tag h s :
  (∀ l, (lib_memory l).1 = true) → mem h s → sound_key key options auth →
  wp (ossl_decrypt data iv key options auth tag) (λ '(r, _) s', leaks (negb (c_ok r)) h s') s.
Proof.
  intros Hl Hm Hkey. unfold ossl_decrypt. case_bool_decide as Ha.
  - destruct (Hkey Ha) as [Hx Hauth]. unfold decryptAes.
    destruct (decryptAes_error _ _ _ _ _) eqn:E; [apply wp_ret; by apply mem_leaks|].
    apply decryptAes_error_none in E as (_&Hiv&Hmode). apply wp_bind.
    eapply (wp_mono _ (λ '(out, _) s', leaks (isEmpty out) h s')).
    + destruct (isEmpty auth) eqn:Eauth; simpl; apply wp_bind.
      * eapply wp_mono; [by eapply plugin_aes_safe|]. by intros out s1 [Hs1 _].
      * eapply wp_mono; [eapply plugin_aes_auth_decrypt_safe; eauto|]. by intros [out v] s1 Hs1.
    + intros [out status] s1 Hs1. destruct (isEmpty out) eqn:Eo; [by apply wp_ret|].
      case_match; apply wp_ret; by apply mem_leaks.
  - case_match; [|apply wp_ret; by apply mem_leaks]. apply wp_bind.
    eapply wp_mono; [by apply decryptAsymmetric_safe|]. by intros [r out] s1 Hs1.
Qed.

(** * Decryption inverts encryption

    What a correct and working library does in the modes without authentication and
    other than XTS, which refuses data that are shorter than a block. *)
Definition plain_cipher (ci : Cipher) : Prop :=
  authenticating ci = false ∧ ∃ mode n, mode ≠ BlockModeXts ∧ getEvpCipher mode n = Some ci.

Class CipherLaws := {
  law_encrypt ci key iv input :
    plain_cipher ci → cipher_key_bytes ci = String.length key → cipher_iv_bytes ci = String.length iv →
    ¬ crypt_fails Encrypting ci key iv input;
  law_nonempty ci key iv input a b :
    crypt_run Encrypting ci key iv input a b → input ≠ "" → a +:+ b ≠ "";
  law_decrypt ci key iv input a b :
    plain_cipher ci → crypt_run Encrypting ci key iv input a b →
    ¬ crypt_fails Decrypting ci key iv (a +:+ b);
  law_inverse ci key iv input a b c d :
    crypt_run Encrypting ci key iv input a b → crypt_run Decrypting ci key iv (a +:+ b) c d →
    c +:+ d = input;
}.

Context {Laws : CipherLaws}.

Lemma isEmpty_false b : isEmpty b = false ↔ b ≠ "".
Proof. unfold isEmpty. by case_bool_decide. Qed.

Lemma plugin_aes_roundtrip mode ksize iv key input ci h s :
  (∀ l, (lib_memory l).1 = true) → mem h s → mode ≠ BlockModeXts →
  Z.of_nat (String.length iv) = initializationVectorSize AlgorithmAes mode ksize →
  getEvpCipher mode (Z.of_nat (String.length key)) = Some ci → authenticating ci = false →
  key ≠ "" → input ≠ "" →
  wp (plugin_aes_encrypt mode input key iv) (λ c s', c ≠ "" ∧ mem h s'
    ∧ ∀ h2 s2, mem h2 s2 →
        wp (plugin_aes_decrypt mode c key iv) (λ out s3, out = input ∧ mem h2 s3) s2) s.
Proof.
  intros Hl Hm Hx Hiv Hci Ha Hkey Hin.
  assert (plain_cipher ci) as Hplain by (split; [done|by eexists _, _]).
  eapply wp_mono; [by eapply (plugin_aes_safe _ mode ksize)|].
  intros c s1 (Hs1&[(ci'&a&b&Hci'&Hrun&->)|[_ Hfails]]).
  2: { destruct (getEvpCipher_sizes _ _ ksize _ Hci Hx) as [Hk Hi].
    destruct (law_encrypt ci key iv input); [done..|lia|].
    apply Hfails; [by apply isEmpty_false..|done]. }
  rewrite Hci in Hci'. injection Hci' as <-. pose proof (law_nonempty _ _ _ _ _ _ Hrun Hin) as Hc.
  rewrite (proj2 (isEmpty_false _) Hc) in Hs1. split_and!; [done..|]. intros h2 s2 Hs2.
  eapply wp_mono; [by eapply (plugin_aes_safe _ mode ksize)|].
  intros out s3 (Hs3&[(ci'&x&y&Hci'&Hrun2&->)|[_ Hfails]]).
  2: { destruct (law_decrypt ci key iv input a b Hplain Hrun). apply Hfails; [by apply isEmpty_false..|done]. }
  rewrite Hci in Hci'. injection Hci' as <-. pose proof (law_inverse _ _ _ _ _ _ _ _ Hrun Hrun2) as Hi.
  rewrite Hi in *. rewrite (proj2 (isEmpty_false _) Hin) in Hs3. done.
Qed.
End spec.
