(* ===== verification/OpenSslSessionsSpec.v ===== *)
(** The cipher sessions of the OpenSSL plugin: what the operations on them do to
    memory, as long as no update or end of a signature fails. *)
From S2P Require Import Prelude Result PluginApi CryptoManager CryptoKey CryptoPluginWrapper.
From S2P Require Import OpenSslApi OpenSslEvp OpenSslCrypto OpenSslSessions OpenSslSpec.

Section spec.
Context {L : Type} `{SSL : OpenSsl L, !OpenSslDocs L}.
Implicit Types (h : gmap Z (Object L)) (m : Memory L) (s : OpenSslPlugin L).

(** The errors after which a context may dangle, or memory was freed twice: an update
    of a signature failed, or its end.  (See the theorems on dangling contexts.) *)
Definition signature_failed (r : CResult) : Prop :=
  r = session_failure "Failed to update sign cipher data"
  ∨ r = session_failure "Failed to update verify cipher data"
  ∨ r = session_failure "Failed to finalize sign cipher".

Lemma wp_any {T A} (x : M T A) (t : T) : wp x (λ _ _, True) t.
Proof. done. Qed.

(** A fact that is known beforehand *)
Lemma wp_impl {T A} (P : Prop) (x : M T A) (Q : A → T → Prop) (t : T) :
  (P → wp x Q t) → wp x (λ a t, P → Q a t) t.
Proof. auto. Qed.

(** * What the operations do to memory *)

Lemma wp_new_buffer n (Q : Z → Memory L → Prop) h m :
  mem h m → (∀ a m', (0 < a)%Z → h !! a = None → mem (<[a := OBuffer (zeros n)]> h) m' → Q a m') →
  wp (new_buffer n) Q m.
Proof. intros Hm HQ. by apply (wp_new _ _ h). Qed.

(** The context at [a] was used. *)
Definition used_cipher (a : Z) h m : Prop := ∃ c, mem (<[a := OCipher c]> h) m.

(** A buffer that was made after a context is freed. *)
Lemma wp_free_buffer p b a c h (Q : unit → Memory L → Prop) m :
  mem (<[p := OBuffer b]> (<[a := OCipher c]> h)) m → h !! p = None → a ≠ p →
  (∀ m', mem (<[a := OCipher c]> h) m' → Q tt m') → wp (free p) Q m.
Proof.
  intros Hm Hp Hne HQ. eapply wp_free; [done|by rewrite lookup_insert_eq|]. intros m' Hm'. apply HQ.
  rewrite delete_insert_id in Hm'; [done|]. by rewrite lookup_insert_ne.
Qed.

(** A function that writes at most [n] bytes into a new buffer *)
Lemma wp_cipher_out f a c p n h (Q : Z * nat → Memory L → Prop) m :
  mem (<[p := OBuffer (zeros n)]> h) m → h !! a = Some (OCipher c) → h !! p = None →
  (∀ l r out c' l', f c l = (r, out, c', l') → String.length out ≤ n) →
  (∀ r out b c' m', String.length out ≤ n → String.length b = n →
     mem (<[p := OBuffer b]> (<[a := OCipher c']> h)) m' → Q (r, String.length out) m') →
  wp (cipher_out f a (Some (p, 0%nat))) Q m.
Proof.
  intros Hm Ha Hp Hout HQ. assert (a ≠ p) as Hne by congruence. apply wp_bind.
  eapply wp_on_cipher; [done|by rewrite lookup_insert_ne|]. intros l [r out] c' l' E m1 Hm1.
  apply wp_bind. eapply wp_write; [done|by rewrite lookup_insert_ne, lookup_insert_eq| |].
  { rewrite zeros_length. simpl. by eapply Hout. }
  pose proof (Hout _ _ _ _ _ E) as Hle. intros m2 Hm2. apply wp_ret. eapply (HQ r out); [done| |].
  2: { rewrite (insert_insert_ne _ a p), insert_insert_eq in Hm2 by done. exact Hm2. }
  rewrite !length_app_bytes, drop_bytes_length, take_bytes_length, zeros_length. lia.
Qed.

Lemma update_cipher_safe d a c data h m :
  mem h m → h !! a = Some (OCipher c) → wp (update_cipher d a data) (λ _ m', used_cipher a h m') m.
Proof.
  intros Hm Ha. apply wp_bind, (wp_new_buffer _ _ h); [done|]. intros p m1 Hp Hhp Hm1.
  assert (a ≠ p) as Hne by congruence.
  apply wp_bind. eapply wp_cipher_out; [done..| |].
  { intros l r out c' l' E. pose proof (doc_update _ _ _ _ _ _ _ _ E) as Hout. simpl in Hout.
    pose proof (doc_pending c). unfold AES_BLOCK_SIZE. lia. }
  intros r out b c' m2 Hout Hb Hm2. case_match; apply wp_bind.
  - eapply wp_free_buffer; [done..|]. intros m3 Hm3. apply wp_ret. by exists c'.
  - eapply wp_read; [done|by rewrite lookup_insert_eq|lia|]. apply wp_bind.
    eapply wp_free_buffer; [done..|]. intros m3 Hm3. apply wp_ret. by exists c'.
Qed.

Lemma feed_safe d a c input h m :
  mem h m → h !! a = Some (OCipher c) → wp (EVP_Update d a None input) (λ _ m', used_cipher a h m') m.
Proof.
  intros Hm Ha. apply wp_bind. eapply wp_on_cipher; [done..|]. intros l [r out] c' l' E m1 Hm1.
  apply wp_bind, wp_ret, wp_ret. by exists c'.
Qed.

(** The end of an operation that gives out a buffer *)
Lemma taken_used p b n a c h m :
  mem (<[p := OBuffer b]> (<[a := OCipher c]> h)) m → h !! p = None → a ≠ p → n ≤ String.length b →
  wp (taken p n) (λ _ m', used_cipher a h m') m.
Proof.
  intros Hm Hp Hne Hn. apply wp_bind. eapply wp_read; [done|by rewrite lookup_insert_eq|done|].
  apply wp_bind. eapply wp_free_buffer; [done..|]. intros m' Hm'. apply wp_ret. by exists c.
Qed.

Lemma finalize_encryption_safe csd c h m :
  mem h m → h !! csd_evp_cipher_ctx csd = Some (OCipher c) →
  wp (finalize_encryption csd) (λ _ m', used_cipher (csd_evp_cipher_ctx csd) h m') m.
Proof.
  intros Hm Ha. apply wp_bind, (wp_new_buffer _ _ h); [done|]. intros p m1 Hp Hhp Hm1.
  assert (csd_evp_cipher_ctx csd ≠ p) as Hne by congruence.
  apply wp_bind. eapply wp_cipher_out; [done..| |].
  { intros l r out c' l' E. pose proof (doc_final _ _ _ _ _ _ _ E). lia. }
  intros r out b c' m2 Hout Hb Hm2. case_match.
  { apply wp_bind. eapply wp_free_buffer; [done..|]. intros m3 Hm3. apply wp_ret. by exists c'. }
  case_match; [|eapply taken_used; [done..|lia]].
  apply wp_bind. eapply wp_free_buffer; [done..|]. intros m3 Hm3.
  apply wp_bind, (wp_new_buffer _ _ _ _ Hm3). intros q m4 Hq Hhq Hm4.
  apply wp_bind, wp_bind. eapply wp_cipher_out; [exact Hm4|by rewrite lookup_insert_eq|done| |].
  { intros l r0 out0 c0 l' E. by eapply doc_get_tag. }
  apply lookup_insert_None in Hhq as [Hhq Hne2].
  intros r0 out0 b0 c0 m5 Hout0 Hb0 Hm5. apply wp_ret. rewrite insert_insert_eq in Hm5. case_match.
  - apply wp_bind. eapply wp_free_buffer; [done..|]. intros m6 Hm6. apply wp_ret. by exists c0.
  - eapply taken_used; [done..|lia].
Qed.

Lemma finalize_decryption_safe csd c data h m :
  mem h m → h !! csd_evp_cipher_ctx csd = Some (OCipher c) →
  wp (finalize_decryption csd data) (λ _ m', used_cipher (csd_evp_cipher_ctx csd) h m') m.
Proof.
  intros Hm Ha. apply wp_bind, (wp_new_buffer _ _ h); [done|]. intros p m1 Hp Hhp Hm1.
  assert (csd_evp_cipher_ctx csd ≠ p) as Hne by congruence.
  assert (∀ c0 m' (x : CResult * (option bytes * option Z)),
    mem (<[csd_evp_cipher_ctx csd := OCipher c0]> (<[p := OBuffer (zeros 32)]> h)) m' →
    wp (free p ;;; ret x) (λ _ m', used_cipher (csd_evp_cipher_ctx csd) h m') m') as Hfail.
  { intros c0 m' x Hm'. rewrite insert_insert_ne in Hm' by done. apply wp_bind.
    eapply wp_free_buffer; [done..|]. intros m3 Hm3. apply wp_ret. by exists c0. }
  assert (mem (<[csd_evp_cipher_ctx csd := OCipher c]> (<[p := OBuffer (zeros 32)]> h)) m1) as Hm1'.
  { rewrite insert_id; [done|]. by rewrite lookup_insert_ne. }
  assert (∀ c0 m' (k : Z * nat → M (Memory L) (CResult * (option bytes * option Z))),
    mem (<[csd_evp_cipher_ctx csd := OCipher c0]> (<[p := OBuffer (zeros 32)]> h)) m' →
    (∀ r n b c1 m2, n ≤ String.length b →
       mem (<[p := OBuffer b]> (<[csd_evp_cipher_ctx csd := OCipher c1]> h)) m2 →
       wp (k (r, n)) (λ _ m', used_cipher (csd_evp_cipher_ctx csd) h m') m2) →
    wp (let* x := EVP_Final Decrypting (csd_evp_cipher_ctx csd) (Some (p, 0%nat)) in k x)
      (λ _ m', used_cipher (csd_evp_cipher_ctx csd) h m') m') as Hfinal.
  { intros c0 m' k Hm' Hk. rewrite insert_insert_ne in Hm' by done. apply wp_bind.
    eapply wp_cipher_out; [done|by rewrite lookup_insert_eq|by rewrite lookup_insert_ne| |].
    { intros l r out c' l' E. pose proof (doc_final _ _ _ _ _ _ _ E). lia. }
    intros r out b c' m2 Hout Hb Hm2. rewrite insert_insert_eq in Hm2. eapply Hk; [|done]. lia. }
  case_match.
  - case_match; [by eapply Hfail|]. apply wp_bind. eapply wp_on_cipher; [exact Hm1|by rewrite lookup_insert_ne|].
    intros l r c' l' E m2 Hm2. case_match; [by eapply Hfail|]. eapply Hfinal; [done|].
    intros r1 n b c1 m3 Hn Hm3. apply wp_bind. eapply wp_mono; [by eapply taken_used|].
    by intros [res gen] m4 Hm4.
  - eapply Hfinal; [done|]. intros r1 n b c1 m3 Hn Hm3. case_match.
    + apply wp_bind. eapply wp_free_buffer; [done..|]. intros m4 Hm4. apply wp_ret. by exists c1.
    + apply wp_bind. eapply wp_mono; [by eapply taken_used|]. by intros [res gen] m4 Hm4.
Qed.

(** * Digest contexts *)

Definition used_md (a : Z) h m : Prop := ∃ c, mem (<[a := OMd c]> h) m.

Lemma session_update_safe update a c h m :
  mem h m → h !! a = Some (OMd c) →
  wp (session_update update a) (λ r m', r = 1%Z → used_md a h m') m.
Proof.
  intros Hm Ha. unfold session_update. rewrite bool_decide_false.
  2: { intros ->. by rewrite (mem_null h m) in Ha. }
  apply wp_bind. eapply wp_on_md; [done..|]. intros l r c' l' E m1 Hm1. case_match.
  - apply wp_bind. eapply wp_mono; [apply wp_any|]. intros [] m2 _. by apply wp_ret.
  - apply wp_ret. intros _. by exists c'.
Qed.

Lemma finalize_signature_safe csd c h m :
  mem h m → h !! csd_evp_md_ctx csd = Some (OMd c) →
  wp (finalize_signature csd) (λ r m', ¬ signature_failed r.1 → mem (delete (csd_evp_md_ctx csd) h) m') m.
Proof.
  intros Hm Ha. set (a := csd_evp_md_ctx csd) in *. apply wp_bind.
  eapply (wp_mono _ (λ '(r, p, n) m', r ≠ 1%Z
    ∨ r = 1%Z ∧ ∃ b, (0 < p)%Z ∧ h !! p = None ∧ p ≠ a ∧ n ≤ String.length b
        ∧ mem (<[p := OBuffer b]> (delete a h)) m')).
  - unfold sign_session_finalize. rewrite bool_decide_false.
    2: { intros Hz. unfold a in Ha. by rewrite Hz, (mem_null h m) in Ha. }
    assert (∀ (y : M (Memory L) unit) m' (x : Z * Z * nat), x.1.1 = (-1)%Z →
      wp (y ;;; ret x) (λ '(r, p, n) m', r ≠ 1%Z
        ∨ r = 1%Z ∧ ∃ b, (0 < p)%Z ∧ h !! p = None ∧ p ≠ a ∧ n ≤ String.length b
          ∧ mem (<[p := OBuffer b]> (delete a h)) m') m') as Hfail.
    { intros y m' [[r p] n] Hr. simpl in Hr. subst r. apply wp_bind. eapply wp_mono; [apply wp_any|].
      intros [] m1 _. apply wp_ret. by left. }
    apply wp_bind. eapply wp_on_md; [done..|]. intros l [r n] c' l' E m1 Hm1.
    case_match; [by apply Hfail|]. apply wp_bind. eapply wp_allocate; [done| |].
    { intros m' Hm'. rewrite bool_decide_true by done. by apply Hfail. }
    intros p m2 Hp Hhp Hm2. apply lookup_insert_None in Hhp as [Hhp Hne]. rewrite bool_decide_false by lia.
    apply wp_bind. eapply wp_on_md; [done|by rewrite lookup_insert_ne, lookup_insert_eq|].
    intros l2 [r2 out] c2 l2' E2 m3 Hm3. pose proof (doc_signature _ _ _ _ _ _ _ _ _ _ _ E E2) as Hout.
    apply wp_bind. eapply wp_write; [done|by rewrite lookup_insert_ne, lookup_insert_eq|by rewrite zeros_length|].
    intros m4 Hm4. simpl. destruct (decide (r2 = 1%Z)) as [->|Hr2].
    2: { rewrite (bool_decide_false (r2 = 1%Z)) by done. simpl. do 2 (apply wp_bind; eapply wp_mono; [apply wp_any|]; intros [] ? _). by apply Hfail. }
    apply wp_bind.
    eapply wp_free; [done|by rewrite lookup_insert_ne, lookup_insert_eq|]. intros m5 Hm5. apply wp_ret. right.
    split; [done|]. eexists. split_and!; [done..| |].
    2: { rewrite delete_insert_ne, delete_insert_eq, delete_insert_ne, delete_insert_eq, insert_insert_eq
           in Hm5 by done. exact Hm5. }
    rewrite !length_app_bytes. lia.
  - intros [[r p] n] m' [Hr|(->&b&Hp&Hhp&Hne&Hn&Hm')].
    + rewrite bool_decide_false by done. apply wp_ret. intros []. by right; right.
    + simpl. eapply wp_mono; [eapply taken_safe; [done|by rewrite lookup_delete_ne|done..]|].
      by intros [??] ? (_&_&?).
Qed.

Lemma finalize_verification_safe csd c data h m :
  mem h m → h !! csd_evp_md_ctx csd = Some (OMd c) →
  wp (finalize_verification csd data) (λ _ m', mem (delete (csd_evp_md_ctx csd) h) m') m.
Proof.
  intros Hm Ha. apply wp_bind. unfold verify_session_finalize. rewrite bool_decide_false.
  2: { intros Hz. by rewrite Hz, (mem_null h m) in Ha. }
  apply wp_bind. eapply wp_on_md; [done..|]. intros l r c' l' E m1 Hm1. apply wp_bind.
  eapply wp_free; [done|by rewrite lookup_insert_eq|]. intros m2 Hm2. apply wp_ret, wp_ret.
  by rewrite delete_insert_eq in Hm2.
Qed.

(** * New contexts *)

(** An error, or a new object [o]. *)
Definition opened {A} (P : A → Z) (o : Object L → Prop) h (r : CResult + A) m : Prop :=
  match r with
  | inl _ => mem h m
  | inr x => (0 < P x)%Z ∧ h !! P x = None ∧ ∃ obj, o obj ∧ mem (<[P x := obj]> h) m
  end.

Definition is_cipher (o : Object L) : Prop := ∃ c, o = OCipher c.
Definition is_md (o : Object L) : Prop := ∃ c, o = OMd c.

Lemma open_cipher_safe d e1 e2 e3 e4 e5 key iv mode h m :
  mem h m →
  (k_algorithm key = AlgorithmAes →
    mode ≠ BlockModeXts ∧
    (mode ≠ BlockModeGcm →
     Z.of_nat (String.length iv) = initializationVectorSize AlgorithmAes mode (k_size key))) →
  wp (open_cipher d e1 e2 e3 e4 e5 key iv mode) (opened id is_cipher h) m.
Proof.
  intros Hm Hkey. apply wp_bind. eapply wp_allocate; [done| |].
  { intros m' Hm'. rewrite bool_decide_true by done. by apply wp_ret. }
  intros a m10 Ha Hh Hn1. rewrite bool_decide_false by lia. case_match eqn:Halg.
  { apply wp_ret. split_and!; [done..|]. eexists. by split; [exists cipher_ctx_new|]. }
  apply negb_false_iff, bool_decide_eq_true in Halg. destruct (Hkey Halg) as [Hx Hiv].
  assert (∀ o m' e, mem (<[a := o]> h) m' →
    wp (free a ;;; ret (inl e)) (opened id is_cipher h) m') as Hfail.
  { intros o m' e Hm'. apply wp_bind. eapply wp_free; [done|by rewrite lookup_insert_eq|]. intros m6 Hm6.
    apply wp_ret. simpl. by rewrite delete_insert_id in Hm6. }
  destruct (getEvpCipher _ _) as [ci|] eqn:Eci; [|by eapply Hfail].
  destruct (getEvpCipher_sizes _ _ (k_size key) _ Eci Hx) as [Hk Hi].
  assert (owned a cipher_ctx_new ∅ h m10) as Ho.
  { eexists. split; [done|]. split_and!; [done..|by rewrite lookup_insert_eq|done|].
    intros p Hp _. by rewrite lookup_insert_ne. }
  assert (∀ c m', owned a c ∅ h m' → mem (<[a := OCipher c]> h) m') as Hown.
  { intros c m' (h'&Hm'&_&_&Hc&_&Hr). replace (<[a := OCipher c]> h) with h'; [done|]. apply map_eq. intros p.
    destruct (decide (p = a)) as [->|]; [by rewrite lookup_insert_eq|]. rewrite lookup_insert_ne by done.
    by apply Hr. }
  apply wp_bind. eapply owned_init; [done..| |].
  { intros l c l' m20 _ Hn2. simpl. eapply Hfail. by apply Hown. }
  intros l r c l' m20 E Hr Hn2. destruct (doc_init _ _ _ _ _ _ _ _ _ E Hr) as (_&Hkb&Hib).
  case_match; [by eapply Hfail, Hown|].
  assert (∀ c2 m30, owned a c2 ∅ h m30 → key_bytes c2 = key_bytes c → iv_bytes c2 ≤ String.length iv →
    wp (let* r := EVP_Init d a None (Some (k_secretKey key)) (Some iv) in
        if negb (bool_decide (r = 1%Z)) then free a ;;; ret (inl (session_failure e5)) else ret (inr a))
      (opened id is_cipher h) m30) as Hrest.
  { intros c2 m30 Hn3 Hk2 Hi2. apply wp_bind. eapply owned_init; [done|simpl|simpl|..].
    { rewrite Hk2, Hkb. lia. }
    { done. }
    { intros l2 c3 l2' m40 _ Hn4. simpl. eapply Hfail. by apply Hown. }
    intros l2 r2 c3 l2' m40 E2 Hr2 Hn4. case_match; [by eapply Hfail, Hown|]. apply wp_ret.
    split_and!; [done..|]. eexists. split; [by exists c3|]. by apply Hown. }
  destruct (decide (mode = BlockModeGcm)) as [Hg|Hg]; unfold when; apply wp_bind;
    [rewrite bool_decide_true by done|rewrite bool_decide_false by done].
  - eapply owned_control; [done|]. intros l1 r1 c1 l1' m30 E1 Hn3. case_match eqn:Hr1; [by eapply Hfail, Hown|].
    apply negb_false_iff, bool_decide_eq_true in Hr1. subst r1.
    destruct (doc_control _ _ _ _ _ _ E1 ltac:(done)) as (Hkb1&_&Hib1). rewrite Nat2Z.id in Hib1.
    eapply Hrest; [done..|]. lia.
  - apply wp_ret. simpl. eapply Hrest; [done..|]. rewrite Hib. specialize (Hiv Hg). lia.
Qed.

Lemma session_init_safe init h m :
  mem h m →
  wp (session_init init) (λ '(r, a) m', r ≠ 1%Z ∧ mem h m'
    ∨ r = 1%Z ∧ (0 < a)%Z ∧ h !! a = None ∧ used_md a h m') m.
Proof.
  intros Hm. apply wp_bind. eapply wp_allocate; [done| |].
  { intros m' Hm'. rewrite bool_decide_true by done. apply wp_ret. by left. }
  intros a m1 Ha Hh Hm1. rewrite bool_decide_false by lia. apply wp_bind.
  eapply wp_on_md; [done|by rewrite lookup_insert_eq|]. intros l r c l' E m2 Hm2.
  rewrite insert_insert_eq in Hm2. case_match.
  - apply wp_bind. eapply wp_free; [done|by rewrite lookup_insert_eq|]. intros m3 Hm3. apply wp_ret. left.
    by rewrite delete_insert_id in Hm3.
  - apply wp_ret. right. split_and!; [done..|]. by exists c.
Qed.

Lemma open_digest_safe readKey unreadable init digestFunction h m :
  mem h m → (∀ h m, mem h m → wp readKey (λ _ m', mem h m') m) →
  (∀ digest pkey, ∃ f, init digest pkey = session_init f) →
  wp (open_digest readKey unreadable init digestFunction) (opened id is_md h) m.
Proof.
  intros Hm Hread Hinit. unfold open_digest. destruct (getEvpDigestFunction _) as [dig|]; [|by apply wp_ret].
  apply wp_bind. eapply wp_mono; [by apply Hread|]. intros [pkey|] m1 Hm1; [|by apply wp_ret].
  destruct (Hinit dig pkey) as [f ->]. apply wp_bind. eapply wp_mono; [by apply session_init_safe|].
  intros [r a] m2 [[Hr Hm2]|(->&Ha&Hh&c&Hm2)].
  - rewrite bool_decide_false by done. by apply wp_ret.
  - apply wp_ret. split_and!; [done..|]. eexists. by split; [exists c|].
Qed.

(** The session can be read within bounds. *)
Definition sound_session (iv : bytes) (key : CKey) (options : CipherSessionOptions) : Prop :=
  k_algorithm key = AlgorithmAes →
  cso_blockMode options ≠ BlockModeXts ∧
  (cso_operation options = OperationDecrypt → cso_blockMode options ≠ BlockModeGcm →
   Z.of_nat (String.length iv)
   = initializationVectorSize AlgorithmAes (cso_blockMode options) (k_size key)).

(** The contexts fit the operation. *)
Definition contexts_fit (operation md ci : Z) (o : Object L) : Prop :=
  (operation = OperationEncrypt ∨ operation = OperationDecrypt) ∧ ci ≠ 0%Z ∧ md = 0%Z ∧ is_cipher o
  ∨ (operation = OperationSign ∨ operation = OperationVerify) ∧ md ≠ 0%Z ∧ ci = 0%Z ∧ is_md o.

Definition the_context (md ci : Z) : Z := if bool_decide (ci = 0%Z) then md else ci.

Lemma open_contexts_safe iv key options h m :
  mem h m → sound_session iv key options →
  (cso_operation options = OperationEncrypt → iv_error key (cso_blockMode options) iv = None) →
  wp (open_contexts iv key options) (λ r m', match r with
    | inl _ => mem h m'
    | inr (md, ci) => (0 < the_context md ci)%Z ∧ h !! the_context md ci = None
        ∧ ∃ o, contexts_fit (cso_operation options) md ci o ∧ mem (<[the_context md ci := o]> h) m'
    end) m.
Proof.
  intros Hm Hs Hiv. unfold open_contexts.
  assert (∀ (x : M (Memory L) (CResult + Z)),
    cso_operation options = OperationEncrypt ∨ cso_operation options = OperationDecrypt →
    wp x (opened id is_cipher h) m →
    wp (let* r := x in ret (match r with inl e => inl e | inr c => inr (0%Z, c) end)) (λ r m', match r with
      | inl _ => mem h m'
      | inr (md, ci) => (0 < the_context md ci)%Z ∧ h !! the_context md ci = None
          ∧ ∃ o, contexts_fit (cso_operation options) md ci o ∧ mem (<[the_context md ci := o]> h) m'
      end) m) as Hci.
  { intros x Hop Hx. apply wp_bind. eapply wp_mono; [done|]. intros [e|a] m1; [done|].
    intros (Ha&Hh&o&Ho&Hm1). apply wp_ret. simpl in *. unfold the_context. rewrite bool_decide_false by lia.
    split_and!; [done..|]. exists o. split; [left|done]. split_and!; [done|lia|done..]. }
  assert (∀ (x : M (Memory L) (CResult + Z)),
    cso_operation options = OperationSign ∨ cso_operation options = OperationVerify →
    wp x (opened id is_md h) m →
    wp (let* r := x in ret (match r with inl e => inl e | inr c => inr (c, 0%Z) end)) (λ r m', match r with
      | inl _ => mem h m'
      | inr (md, ci) => (0 < the_context md ci)%Z ∧ h !! the_context md ci = None
          ∧ ∃ o, contexts_fit (cso_operation options) md ci o ∧ mem (<[the_context md ci := o]> h) m'
      end) m) as Hmd.
  { intros x Hop Hx. apply wp_bind. eapply wp_mono; [done|]. intros [e|a] m1; [done|].
    intros (Ha&Hh&o&Ho&Hm1). apply wp_ret. simpl in *. unfold the_context. rewrite bool_decide_true by done.
    split_and!; [done..|]. exists o. split; [right|done]. split_and!; [done|lia|done..]. }
  case_bool_decide as He.
  { apply Hci; [by left|]. apply open_cipher_safe; [done|]. intros Ha. destruct (Hs Ha) as [Hx _].
    split; [done|]. intros _. rewrite <-Ha. by apply iv_error_none, Hiv. }
  case_bool_decide as Hd.
  { apply Hci; [by right|]. apply open_cipher_safe; [done|]. intros Ha. destruct (Hs Ha) as [Hx Hdec].
    split; [done|]. by apply Hdec. }
  case_bool_decide as Hsig.
  { apply Hmd; [by left|]. apply open_digest_safe; [done| |by eexists]. intros h' m' Hm'. apply wp_bind.
    eapply wp_on_library; [done|]. intros m2 Hm2. by destruct (lib_read_private _ _ _) as [[??]?]. }
  case_bool_decide as Hver; [|by apply wp_ret].
  apply Hmd; [by right|]. apply open_digest_safe; [done| |by eexists]. intros h' m' Hm'. apply wp_bind.
  eapply wp_on_library; [done|]. intros m2 Hm2. by destruct (lib_read_public _ _ _) as [[??]?].
Qed.
End spec.
