(* ===== verification/OpenSslSessionsInv.v ===== *)
(** The invariant of the cipher sessions: maps, objects, timers and contexts fit
    each other.  Each operation has one of four effects on the sessions of one
    client; effects keep the invariant and leave other clients alone. *)
From S2P Require Import Prelude Result PluginApi CryptoManager CryptoKey CryptoPluginWrapper.
From S2P Require Import OpenSslApi OpenSslEvp OpenSslCrypto OpenSslSessions OpenSslSpec.
From S2P Require Import OpenSslSessionsSpec.

Section invariant.
Context {L : Type} `{SSL : OpenSsl L}.
Implicit Types (base h : gmap Z (Object L)) (m : Memory L) (s : OpenSslPlugin L).

Definition session_at s (clientId token : Z) : option Z := m_cipherSessions s !! clientId ≫= lookup token.

(** The live context of a session, and whether it fits. *)
Definition ctx (d : CipherSessionData) : Z := the_context (csd_evp_md_ctx d) (csd_evp_cipher_ctx d).
Definition fits (d : CipherSessionData) (o : Object L) : Prop :=
  contexts_fit (csd_operation d) (csd_evp_md_ctx d) (csd_evp_cipher_ctx d) o.

(** [base] is the part of the heap that does not belong to sessions. *)
Record Inv base s : Prop := {
  inv_mem : mem (heap (memory s)) (memory s);
  inv_base a o : base !! a = Some o → heap (memory s) !! a = Some o;
  inv_owner a o : heap (memory s) !! a = Some o →
    base !! a = Some o ∨ ∃ csd d, sessions s !! csd = Some d ∧ ctx d = a;
  inv_ctx csd d : sessions s !! csd = Some d →
    base !! ctx d = None ∧ ∃ o, fits d o ∧ heap (memory s) !! ctx d = Some o;
  inv_distinct csd1 csd2 d1 d2 :
    sessions s !! csd1 = Some d1 → sessions s !! csd2 = Some d2 → ctx d1 = ctx d2 → csd1 = csd2;
  inv_entry c t csd : session_at s c t = Some csd →
    (1 ≤ t < MAX_CIPHER_SESSIONS_PER_CLIENT)%Z
    ∧ ∃ d, sessions s !! csd = Some d ∧ m_cipherSessionTimeouts s !! csd_timeout d = Some (mkLookup csd t c);
  inv_timer x l : m_cipherSessionTimeouts s !! x = Some l →
    session_at s (lookup_clientId l) (lookup_sessionToken l) = Some (lookup_csd l)
    ∧ ∃ d, sessions s !! lookup_csd l = Some d ∧ csd_timeout d = x;
  inv_object csd d : sessions s !! csd = Some d →
    (csd < next_object s)%Z ∧ (csd_timeout d < next_object s)%Z
    ∧ ∃ l, m_cipherSessionTimeouts s !! csd_timeout d = Some l ∧ lookup_csd l = csd;
}.

Definition with_memory m s : OpenSslPlugin L :=
  mkOpenSsl m (sessions s) (next_object s) (m_cipherSessions s) (m_cipherSessionTimeouts s).

(** What an operation of a client does: nothing but calls to the library, use of
    the context of one session, a new session, the end of a session. *)
Inductive effect (clientId : Z) s : OpenSslPlugin L → Prop :=
| eff_same m : mem (heap (memory s)) m → effect clientId s (with_memory m s)
| eff_touch token csd d o m :
    session_at s clientId token = Some csd → sessions s !! csd = Some d → fits d o →
    mem (<[ctx d := o]> (heap (memory s))) m → effect clientId s (with_memory m s)
| eff_add token d o m :
    getNextCipherSessionToken (m_cipherSessions s) clientId = token → token ≠ 0%Z → fits d o →
    heap (memory s) !! ctx d = None → mem (<[ctx d := o]> (heap (memory s))) m →
    csd_timeout d = (next_object s + 1)%Z →
    effect clientId s (mkOpenSsl m (<[next_object s := d]> (sessions s)) (next_object s + 1 + 1)%Z
      (<[clientId := <[token := next_object s]> (of_client clientId s)]> (m_cipherSessions s))
      (<[csd_timeout d := mkLookup (next_object s) token clientId]> (m_cipherSessionTimeouts s)))
| eff_remove token csd d m :
    session_at s clientId token = Some csd → sessions s !! csd = Some d →
    mem (delete (ctx d) (heap (memory s))) m →
    effect clientId s (mkOpenSsl m (delete csd (sessions s)) (next_object s)
      (<[clientId := delete token (of_client clientId s)]> (m_cipherSessions s))
      (delete (csd_timeout d) (m_cipherSessionTimeouts s))).

(** * Maps of maps *)
Lemma session_at_insert all c u c' t :
  (<[c := u]> all : gmap Z (gmap Z Z)) !! c' ≫= lookup t
  = if bool_decide (c' = c) then u !! t else all !! c' ≫= lookup t.
Proof.
  case_bool_decide as E; [subst; by rewrite lookup_insert_eq|]. by rewrite lookup_insert_ne by congruence.
Qed.

Lemma of_client_lookup s c t : of_client c s !! t = session_at s c t.
Proof. unfold of_client, session_at. by destruct (m_cipherSessions s !! c). Qed.

(** The token of a new session is unused and small. *)
Lemma next_token_free s c t :
  getNextCipherSessionToken (m_cipherSessions s) c = t → t ≠ 0%Z →
  (1 ≤ t < MAX_CIPHER_SESSIONS_PER_CLIENT)%Z ∧ session_at s c t = None.
Proof.
  unfold getNextCipherSessionToken, session_at. destruct (m_cipherSessions s !! c) as [used|]; simpl.
  2: { intros <- _. by split. }
  unfold first_free. destruct (filter _ _) as [|x l] eqn:E; simpl; [by intros <-|]. intros <- _.
  assert (x ∈ filter (λ t, used !! t = None) (seqZ 1 (MAX_CIPHER_SESSIONS_PER_CLIENT - 1))) as Hx.
  { rewrite E. by left. }
  apply list_elem_of_filter in Hx as [Hu Hx%elem_of_seqZ]. split; [lia|done].
Qed.

(** No token: all of them are in use. *)
Lemma no_token s c :
  getNextCipherSessionToken (m_cipherSessions s) c = 0%Z →
  ∀ t, (1 ≤ t < MAX_CIPHER_SESSIONS_PER_CLIENT)%Z → is_Some (session_at s c t).
Proof.
  unfold getNextCipherSessionToken, session_at. destruct (m_cipherSessions s !! c) as [used|]; simpl; [|done].
  unfold first_free. intros E t Ht. destruct (used !! t) eqn:Et; [eauto|]. exfalso.
  assert (t ∈ filter (λ t, used !! t = None) (seqZ 1 (MAX_CIPHER_SESSIONS_PER_CLIENT - 1))) as Hx.
  { apply list_elem_of_filter. split; [done|]. apply elem_of_seqZ. lia. }
  destruct (filter _ _) as [|x l] eqn:El; [by apply not_elem_of_nil in Hx|]. simpl in E. subst x.
  assert (0%Z ∈ filter (λ t, used !! t = None) (seqZ 1 (MAX_CIPHER_SESSIONS_PER_CLIENT - 1))) as H0.
  { rewrite El. by left. }
  apply list_elem_of_filter in H0 as [_ H0%elem_of_seqZ]. lia.
Qed.

(** * Consequences of the invariant *)

Lemma inv_unique base s c1 t1 c2 t2 csd :
  Inv base s → session_at s c1 t1 = Some csd → session_at s c2 t2 = Some csd → c1 = c2 ∧ t1 = t2.
Proof.
  intros Hi (_&d1&Hd1&Ht1)%(inv_entry _ _ Hi) (_&d2&Hd2&Ht2)%(inv_entry _ _ Hi).
  rewrite Hd1 in Hd2. injection Hd2 as <-. rewrite Ht1 in Ht2. by injection Ht2.
Qed.

(** Two sessions do not share a timer. *)
Lemma inv_timers base s csd1 csd2 d1 d2 :
  Inv base s → sessions s !! csd1 = Some d1 → sessions s !! csd2 = Some d2 →
  csd_timeout d1 = csd_timeout d2 → csd1 = csd2.
Proof.
  intros Hi (_&_&l1&Hl1&<-)%(inv_object _ _ Hi) (_&_&l2&Hl2&<-)%(inv_object _ _ Hi) E. congruence.
Qed.

Lemma mem_heap h m : mem h m → heap m = h.
Proof. by intros [? _]. Qed.

(** * Effects keep the invariant *)

Lemma touch_inv base s csd d o m :
  Inv base s → sessions s !! csd = Some d → fits d o →
  mem (<[ctx d := o]> (heap (memory s))) m → Inv base (with_memory m s).
Proof.
  intros Hi Hd Hf Hm. pose proof (mem_heap _ _ Hm) as Hh. destruct (inv_ctx _ _ Hi _ _ Hd) as [Hb _].
  split; simpl; try apply Hi.
  - by rewrite Hh.
  - intros a o' Ha. rewrite Hh, lookup_insert_ne by congruence. by apply (inv_base _ _ Hi).
  - intros a o' Ha. rewrite Hh in Ha. destruct (decide (a = ctx d)) as [->|Hne]; [by right; exists csd, d|].
    rewrite lookup_insert_ne in Ha by done. by apply (inv_owner _ _ Hi).
  - intros csd' d' Hd'. destruct (inv_ctx _ _ Hi _ _ Hd') as [Hb' (o'&Hf'&Ho')]. split; [done|].
    rewrite Hh. destruct (decide (ctx d' = ctx d)) as [E|Hne].
    + rewrite E, lookup_insert_eq. pose proof (inv_distinct _ _ Hi _ _ _ _ Hd' Hd E) as ->. exists o.
      split; [|done]. congruence.
    + rewrite lookup_insert_ne by done. eauto.
Qed.

Lemma same_inv base s m : Inv base s → mem (heap (memory s)) m → Inv base (with_memory m s).
Proof.
  intros Hi Hm. pose proof (mem_heap _ _ Hm) as Hh. split; simpl; rewrite ?Hh; try apply Hi. done.
Qed.

Lemma add_inv base s clientId token d o m :
  Inv base s → getNextCipherSessionToken (m_cipherSessions s) clientId = token → token ≠ 0%Z → fits d o →
  heap (memory s) !! ctx d = None → mem (<[ctx d := o]> (heap (memory s))) m →
  csd_timeout d = (next_object s + 1)%Z →
  Inv base (mkOpenSsl m (<[next_object s := d]> (sessions s)) (next_object s + 1 + 1)%Z
    (<[clientId := <[token := next_object s]> (of_client clientId s)]> (m_cipherSessions s))
    (<[csd_timeout d := mkLookup (next_object s) token clientId]> (m_cipherSessionTimeouts s))).
Proof.
  intros Hi Ht H0 Hf Hn Hm Hx. destruct (next_token_free _ _ _ Ht H0) as [Hr Hfree].
  pose proof (mem_heap _ _ Hm) as Hh.
  assert (∀ csd d', sessions s !! csd = Some d' → csd ≠ next_object s ∧ csd_timeout d' ≠ csd_timeout d) as Hold.
  { intros csd d' Hd'. destruct (inv_object _ _ Hi _ _ Hd') as (?&?&_). lia. }
  assert (∀ csd d', sessions s !! csd = Some d' → ctx d' ≠ ctx d) as Hctx.
  { intros csd d' Hd' E. destruct (inv_ctx _ _ Hi _ _ Hd') as (_&o'&_&Ho'). congruence. }
  assert (base !! ctx d = None) as Hb.
  { destruct (base !! ctx d) eqn:E; [|done]. apply (inv_base _ _ Hi) in E. congruence. }
  split; simpl; rewrite ?Hh.
  - done.
  - intros a o' Ha. rewrite lookup_insert_ne by congruence. by apply (inv_base _ _ Hi).
  - intros a o' Ha. destruct (decide (a = ctx d)) as [->|Hne].
    { right. exists (next_object s), d. by rewrite lookup_insert_eq. }
    rewrite lookup_insert_ne in Ha by done. destruct (inv_owner _ _ Hi _ _ Ha) as [|(csd&d'&Hd'&<-)]; [by left|].
    right. exists csd, d'. rewrite lookup_insert_ne; [done|]. apply not_eq_sym. by eapply Hold.
  - intros csd d' Hd'. apply lookup_insert_Some in Hd' as [[<- <-]|[Hne Hd']].
    { split; [done|]. exists o. by rewrite lookup_insert_eq. }
    rewrite lookup_insert_ne by (apply not_eq_sym; by eapply Hctx). by apply (inv_ctx _ _ Hi csd).
  - intros csd1 csd2 d1 d2 H1 H2 E.
    apply lookup_insert_Some in H1 as [[<- <-]|[Hne1 H1]]; apply lookup_insert_Some in H2 as [[<- <-]|[Hne2 H2]].
    + done.
    + by destruct (Hctx _ _ H2).
    + by destruct (Hctx _ _ H1).
    + by eapply (inv_distinct _ _ Hi).
  - intros c t csd. unfold session_at. simpl. rewrite session_at_insert. intros Hat.
    assert (c = clientId ∧ t = token ∧ csd = next_object s ∨
      (c, t) ≠ (clientId, token) ∧ session_at s c t = Some csd) as [(->&->&->)|[Hne Hat']].
    { case_bool_decide as E; [subst c|].
      - apply lookup_insert_Some in Hat as [[<- <-]|[Hne Hat]]; [by left|right].
        rewrite of_client_lookup in Hat. split; congruence.
      - right. split; [congruence|done]. }
    + split; [done|]. exists d. by rewrite !lookup_insert_eq.
    + destruct (inv_entry _ _ Hi _ _ _ Hat') as (Hr'&d'&Hd'&Hl'). split; [done|]. exists d'.
      destruct (Hold _ _ Hd'). by rewrite !lookup_insert_ne by done.
  - intros x l Hl. unfold session_at. simpl. rewrite session_at_insert.
    apply lookup_insert_Some in Hl as [[<- <-]|[Hne Hl]]; simpl.
    + rewrite bool_decide_true, lookup_insert_eq by done. split; [done|]. exists d. by rewrite lookup_insert_eq.
    + destruct (inv_timer _ _ Hi _ _ Hl) as (Hat&d'&Hd'&Hx'). split.
      * case_bool_decide as E; [|done]. rewrite lookup_insert_ne; [by rewrite of_client_lookup, <-E|]. congruence.
      * exists d'. destruct (Hold _ _ Hd'). by rewrite lookup_insert_ne.
  - intros csd d' Hd'. apply lookup_insert_Some in Hd' as [[<- <-]|[Hne Hd']].
    + split_and!; [lia..|]. eexists. by rewrite lookup_insert_eq.
    + destruct (inv_object _ _ Hi _ _ Hd') as (?&?&l&Hl&El). split_and!; [lia..|]. exists l.
      destruct (Hold _ _ Hd'). by rewrite lookup_insert_ne.
Qed.

Lemma remove_inv base s clientId token csd d m :
  Inv base s → session_at s clientId token = Some csd → sessions s !! csd = Some d →
  mem (delete (ctx d) (heap (memory s))) m →
  Inv base (mkOpenSsl m (delete csd (sessions s)) (next_object s)
    (<[clientId := delete token (of_client clientId s)]> (m_cipherSessions s))
    (delete (csd_timeout d) (m_cipherSessionTimeouts s))).
Proof.
  intros Hi Hat Hd Hm. pose proof (mem_heap _ _ Hm) as Hh.
  destruct (inv_ctx _ _ Hi _ _ Hd) as (Hb&_).
  assert (∀ csd' d', csd' ≠ csd → sessions s !! csd' = Some d' →
    csd_timeout d' ≠ csd_timeout d ∧ ctx d' ≠ ctx d) as Hne.
  { intros csd' d' Hne Hd'. split; intros E; apply Hne; [by eapply inv_timers|by eapply (inv_distinct _ _ Hi)]. }
  split; simpl; rewrite ?Hh.
  - done.
  - intros a o Ha. rewrite lookup_delete_ne by congruence. by apply (inv_base _ _ Hi).
  - intros a o Ha. apply lookup_delete_Some in Ha as [Hne' Ha].
    destruct (inv_owner _ _ Hi _ _ Ha) as [|(csd'&d'&Hd'&<-)]; [by left|].
    right. exists csd', d'. rewrite lookup_delete_ne; [done|]. congruence.
  - intros csd' d' Hd'. apply lookup_delete_Some in Hd' as [Hn Hd'].
    destruct (inv_ctx _ _ Hi _ _ Hd') as (?&o&?&?). split; [done|]. exists o. split; [done|].
    destruct (Hne csd' d'); [done..|]. by rewrite lookup_delete_ne.
  - intros csd1 csd2 d1 d2 [? H1]%lookup_delete_Some [? H2]%lookup_delete_Some E.
    by eapply (inv_distinct _ _ Hi).
  - intros c t csd'. unfold session_at. simpl. rewrite session_at_insert. intros H.
    assert ((c, t) ≠ (clientId, token) ∧ session_at s c t = Some csd') as [Hct H'].
    { case_bool_decide as E; [subst c|split; [congruence|done]].
      apply lookup_delete_Some in H as [? H]. rewrite of_client_lookup in H. split; congruence. }
    destruct (inv_entry _ _ Hi _ _ _ H') as (Hr'&d'&Hd'&Hl'). split; [done|].
    assert (csd' ≠ csd) as Hcc. { intros ->. apply Hct. by destruct (inv_unique _ _ _ _ _ _ _ Hi Hat H') as [-> ->]. }
    exists d'. destruct (Hne csd' d'); [done..|]. by rewrite !lookup_delete_ne by done.
  - intros x l Hl. apply lookup_delete_Some in Hl as [Hx Hl].
    destruct (inv_timer _ _ Hi _ _ Hl) as (Hat'&d'&Hd'&Hx'). unfold session_at. simpl.
    rewrite session_at_insert.
    assert (lookup_csd l ≠ csd) as Hcc by congruence. split.
    + case_bool_decide as E; [|done]. rewrite lookup_delete_ne; [by rewrite of_client_lookup, <-E|].
      intros Et. rewrite E, <-Et in Hat'. congruence.
    + exists d'. by rewrite lookup_delete_ne.
  - intros csd' d' Hd'. apply lookup_delete_Some in Hd' as [Hn Hd'].
    destruct (inv_object _ _ Hi _ _ Hd') as (?&?&l&Hl&El). split_and!; [done..|]. exists l.
    destruct (Hne csd' d'); [done..|]. by rewrite lookup_delete_ne.
Qed.

Lemma effect_inv base clientId s s' : Inv base s → effect clientId s s' → Inv base s'.
Proof. intros Hi []; [by apply same_inv|by eapply touch_inv|by eapply add_inv|by eapply remove_inv]. Qed.

(** * Effects leave other clients alone *)

(** What a client sees under a token: the session and the contents of its
    context. *)
Definition view s (clientId token : Z) : option (CipherSessionData * Object L) :=
  csd ← session_at s clientId token; d ← sessions s !! csd; o ← heap (memory s) !! ctx d; Some (d, o).

(** A view of a session whose object and context are kept is kept. *)
Lemma view_kept base s s' c t :
  Inv base s → session_at s' c t = session_at s c t →
  (∀ csd d, session_at s c t = Some csd → sessions s !! csd = Some d →
    sessions s' !! csd = Some d ∧ heap (memory s') !! ctx d = heap (memory s) !! ctx d) →
  view s' c t = view s c t.
Proof.
  intros Hi E Hk. unfold view. rewrite E. destruct (session_at s c t) as [csd|] eqn:Hat; simpl; [|done].
  destruct (inv_entry _ _ Hi _ _ _ Hat) as (_&d&Hd&_). destruct (Hk csd d) as [Hd' Hh]; [done..|].
  rewrite Hd, Hd'. simpl. by rewrite Hh.
Qed.

Lemma effect_isolated base clientId s s' c t :
  Inv base s → effect clientId s s' → c ≠ clientId → view s' c t = view s c t.
Proof.
  intros Hi He Hc. assert (∀ token csd csd' d d', session_at s clientId token = Some csd →
    sessions s !! csd = Some d → session_at s c t = Some csd' → sessions s !! csd' = Some d' →
    csd' ≠ csd ∧ ctx d' ≠ ctx d) as Hne.
  { intros token csd csd' d d' Hat Hd Hat' Hd'.
    assert (csd' ≠ csd) as H. { intros ->. apply Hc. by destruct (inv_unique _ _ _ _ _ _ _ Hi Hat Hat'). }
    split; [done|]. intros E. by destruct (H (inv_distinct _ _ Hi _ _ _ _ Hd' Hd E)). }
  destruct He as [m Hm|token csd d o m Hat Hd Hf Hm|token d o m Ht H0 Hf Hn Hm Hx|token csd d m Hat Hd Hm];
    pose proof (mem_heap _ _ Hm) as Hh; eapply view_kept; try done; simpl; rewrite ?Hh;
    try (unfold session_at; simpl; by rewrite session_at_insert, bool_decide_false); intros csd' d' Hat' Hd'.
  - done.
  - destruct (Hne _ _ _ _ _ Hat Hd Hat' Hd'). by rewrite lookup_insert_ne.
  - destruct (inv_object _ _ Hi _ _ Hd') as [Hlt _]. destruct (inv_ctx _ _ Hi _ _ Hd') as (_&o'&_&Ho').
    rewrite !lookup_insert_ne; [done|congruence|lia].
  - destruct (Hne _ _ _ _ _ Hat Hd Hat' Hd'). by rewrite !lookup_delete_ne.
Qed.
End invariant.

(** * The operations on cipher sessions as steps: each has an effect on one client,
    so that all states that requests and timeouts reach satisfy the invariant. *)

Section steps.
Context {L : Type} `{SSL : OpenSsl L, !OpenSslDocs L}.
Implicit Types (base h : gmap Z (Object L)) (m : Memory L) (s : OpenSslPlugin L).

Lemma wp_on_memory {A} (x : M (Memory L) A) (Q : A → OpenSslPlugin L → Prop) s :
  wp x (λ a m, Q a (with_memory m s)) (memory s) → wp (on_memory x) Q s.
Proof. apply wp_zoom. Qed.

Lemma effect_none base clientId s : Inv base s → effect clientId s s.
Proof.
  intros Hi. assert (s = with_memory (memory s) s) as E by (by destruct s). rewrite E at 2.
  apply eff_same, Hi.
Qed.

(** * The contexts of a session *)

Lemma fits_cases d (o : Object L) : fits d o →
  csd_evp_cipher_ctx d ≠ 0%Z ∧ csd_evp_md_ctx d = 0%Z ∧ ctx d = csd_evp_cipher_ctx d ∧ is_cipher o
  ∨ csd_evp_cipher_ctx d = 0%Z ∧ csd_evp_md_ctx d ≠ 0%Z ∧ ctx d = csd_evp_md_ctx d ∧ is_md o.
Proof.
  unfold fits, contexts_fit, ctx, the_context.
  intros [(_&Hc&Hm&Ho)|(_&Hm&Hc&Ho)]; [left|right]; rewrite Hc || rewrite bool_decide_false by done;
    rewrite ?bool_decide_true by done; done.
Qed.

Lemma fits_same d (o o' : Object L) :
  fits d o → (is_cipher o → is_cipher o') → (is_md o → is_md o') → fits d o'.
Proof. unfold fits, contexts_fit. intuition. Qed.

(** * Looking up a session *)

Lemma wp_find {A} base clientId token (unknown : A) found (Q : A → OpenSslPlugin L → Prop) s :
  Inv base s → (session_at s clientId token = None → Q unknown s) →
  (∀ csd d o, session_at s clientId token = Some csd → sessions s !! csd = Some d → fits d o →
     heap (memory s) !! ctx d = Some o → wp (found csd d) Q s) →
  wp (find_session clientId token unknown found) Q s.
Proof.
  intros Hi Hnone Hsome. apply wp_bind, wp_gets. unfold session_at in *. simpl.
  destruct (m_cipherSessions s !! clientId ≫= lookup token) as [csd|] eqn:E; [|apply wp_ret; by apply Hnone].
  destruct (inv_entry _ _ Hi _ _ _ E) as (_&d&Hd&_). rewrite Hd.
  destruct (inv_ctx _ _ Hi _ _ Hd) as (_&o&Hf&Ho). by eapply Hsome.
Qed.

(** Using a cipher context has an effect on its session. *)
Lemma used_effect base clientId token csd d s m :
  Inv base s → session_at s clientId token = Some csd → sessions s !! csd = Some d →
  fits d (OCipher cipher_ctx_new) → used_cipher (ctx d) (heap (memory s)) m →
  effect clientId s (with_memory m s).
Proof.
  intros Hi Hat Hd Hf [c Hm]. eapply eff_touch; [done..| |done].
  eapply fits_same; [done|by exists c|by intros [??]].
Qed.

Lemma used_md_effect base clientId token csd d c s m :
  Inv base s → session_at s clientId token = Some csd → sessions s !! csd = Some d →
  fits d (OMd c) → used_md (ctx d) (heap (memory s)) m → effect clientId s (with_memory m s).
Proof.
  intros Hi Hat Hd Hf [c' Hm]. eapply eff_touch; [done..| |done].
  eapply fits_same; [done|by intros [??]|by exists c'].
Qed.

(** * The operations *)

Lemma updateAuthentication_effect base clientId data token s :
  Inv base s →
  wp (ossl_updateCipherSessionAuthentication clientId data token) (λ r s',
    effect clientId s s' ∧ (session_at s clientId token = None → r = unknown_token)) s.
Proof.
  intros Hi. eapply wp_find; [done| |].
  { intros _. split; [by eapply effect_none|done]. }
  intros csd d o Hat Hd Hf Ho.
  assert (∀ r, effect clientId s s ∧ (session_at s clientId token = None → r = unknown_token)) as Hret.
  { split; [by eapply effect_none|congruence]. }
  destruct (negb _); [by apply wp_ret, Hret|]. case_bool_decide as Hc; [by apply wp_ret, Hret|].
  destruct (fits_cases _ _ Hf) as [(_&_&Hctx&c&->)|(?&_)]; [|done].
  repeat case_bool_decide; [| |by apply wp_ret, Hret]; (apply wp_bind, wp_on_memory;
    eapply wp_mono; [eapply feed_safe; [apply Hi|by rewrite <-Hctx]|]; intros [r n] m Hm; apply wp_ret;
    split; [|congruence]; rewrite <-Hctx in Hm; eapply used_effect; [done..| |done];
    eapply fits_same; [done|by eexists|by intros [??]]).
Qed.

Lemma update_effect base clientId data token s :
  Inv base s →
  wp (ossl_updateCipherSession clientId data token) (λ r s',
    (¬ signature_failed r.1 → effect clientId s s')
    ∧ (session_at s clientId token = None → r = (unknown_token, None))) s.
Proof.
  intros Hi. eapply wp_find; [done| |].
  { intros _. split; [by intros _; eapply effect_none|done]. }
  intros csd d o Hat Hd Hf Ho.
  assert (∀ r, (¬ signature_failed r.1 → effect clientId s s) ∧
    (session_at s clientId token = None → r = (unknown_token, None : option bytes))) as Hret.
  { split; [by intros _; eapply effect_none|congruence]. }
  destruct (_ && _); [by apply wp_ret, Hret|].
  destruct (fits_cases _ _ Hf) as [(Hc&Hm&Hctx&c&->)|(Hc&Hm&Hctx&c&->)].
  - rewrite bool_decide_false by done. cbn [negb].
    repeat case_bool_decide; [| |by apply wp_ret, Hret]; (apply wp_bind, wp_on_memory;
      eapply wp_mono; [eapply update_cipher_safe; [apply Hi|by rewrite <-Hctx]|]; intros r m Hm'; apply wp_ret;
      split; [intros _|congruence]; rewrite <-Hctx in Hm'; eapply used_effect; [done..| |done];
      eapply fits_same; [done|by eexists|by intros [??]]).
  - rewrite bool_decide_true by done. cbn [negb]. case_match; [by apply wp_ret, Hret|].
    repeat case_bool_decide; [| |by apply wp_ret, Hret]; (apply wp_bind, wp_on_memory;
      eapply wp_mono; [eapply session_update_safe; [apply Hi|by rewrite <-Hctx]|]; intros r m Hm'; apply wp_ret;
      split; [intros Hok|congruence]; case_bool_decide; [|by destruct Hok; unfold signature_failed; auto];
      rewrite <-Hctx in Hm'; eapply used_md_effect; [done..|by apply Hm']).
Qed.

(** The session object goes away with its contexts. *)
Lemma cleanup_safe csd d h s :
  sessions s !! csd = Some d → mem h (memory s) →
  (csd_evp_cipher_ctx d = 0%Z ∧ csd_evp_md_ctx d = 0%Z) ∨ (∃ o, fits d o ∧ h !! ctx d = Some o) →
  wp (cleanup csd) (λ _ s', ∃ m, mem (delete (ctx d) h) m ∧
    s' = mkOpenSsl m (delete csd (sessions s)) (next_object s) (m_cipherSessions s)
           (m_cipherSessionTimeouts s)) s.
Proof.
  intros Hd Hm Hc. apply wp_bind, wp_gets. simpl. rewrite Hd.
  destruct Hc as [[Hc Hd']|(o&Hf&Ho)].
  - rewrite Hc, Hd'. exists (memory s). split; [|done]. unfold ctx, the_context. rewrite Hc, Hd'. simpl.
    rewrite delete_id; [done|]. by apply (mem_null h (memory s)).
  - destruct (fits_cases _ _ Hf) as [(_&Hmd&Hctx&_)|(Hci&_&Hctx&_)]; apply wp_bind, wp_on_memory.
    + rewrite <-Hctx. eapply wp_free; [done..|]. intros m Hm'. apply wp_bind, wp_on_memory. rewrite Hmd.
      apply wp_free_null, wp_modify. by exists m.
    + rewrite Hci. apply wp_free_null, wp_bind, wp_on_memory. rewrite <-Hctx. eapply wp_free; [done..|].
      intros m Hm'. apply wp_modify. by exists m.
Qed.

(** What is left of a session when its operation is finished: it keeps its live
    context or has forgotten it. *)
Definition finished csd d h s s' : Prop :=
  ∃ m d', s' = mkOpenSsl m (<[csd := d']> (sessions s)) (next_object s) (m_cipherSessions s)
            (m_cipherSessionTimeouts s)
    ∧ (d' = d ∧ (∃ o, fits d o ∧ mem (<[ctx d := o]> h) m)
       ∨ csd_evp_cipher_ctx d' = 0%Z ∧ csd_evp_md_ctx d' = 0%Z ∧ mem (delete (ctx d) h) m).

Lemma used_finished csd d h m s :
  sessions s !! csd = Some d → fits d (OCipher cipher_ctx_new) → used_cipher (ctx d) h m →
  finished csd d h s (with_memory m s).
Proof.
  intros Hd Hf [c Hm]. exists m, d. split; [by rewrite insert_id|]. left. split; [done|]. exists (OCipher c).
  split; [|done]. eapply fits_same; [done|by exists c|by intros [??]].
Qed.

Lemma forget_finished csd d h m s :
  sessions s !! csd = Some d → csd_evp_cipher_ctx d = 0%Z → mem (delete (ctx d) h) m →
  wp (forget_md csd) (λ _ s', finished csd d h s s') (with_memory m s).
Proof.
  intros Hd Hc Hm. apply wp_modify. simpl. rewrite Hd. eexists _, _. split; [done|]. by right.
Qed.

Lemma finalize_session_safe csd d o input h s :
  sessions s !! csd = Some d → mem h (memory s) → fits d o → h !! ctx d = Some o →
  wp (finalize_session csd d input) (λ r s', ¬ signature_failed r.1 → finished csd d h s s') s.
Proof.
  intros Hd Hm Hf Ho. unfold finalize_session.
  assert (finished csd d h s s) as Hnone.
  { exists (memory s), d. split; [by rewrite insert_id; destruct s|]. left. split; [done|]. exists o.
    by rewrite insert_id. }
  destruct (fits_cases _ _ Hf) as [(Hc&Hmd&Hctx&c&->)|(Hc&Hmd&Hctx&c&->)].
  - rewrite bool_decide_false by done. cbn [negb].
    assert (fits d (OCipher cipher_ctx_new)) as Hf'. { eapply fits_same; [done|by eexists|by intros [??]]. }
    repeat case_bool_decide; [apply wp_bind| |by apply wp_ret]; apply wp_on_memory.
    + eapply wp_mono; [eapply finalize_encryption_safe; [done|by rewrite <-Hctx]|]. intros [r out] m Hm'.
      apply wp_ret. intros _. rewrite <-Hctx in Hm'. by apply used_finished.
    + eapply wp_mono; [eapply finalize_decryption_safe; [done|by rewrite <-Hctx]|]. intros r m Hm'.
      intros _. rewrite <-Hctx in Hm'. by apply used_finished.
  - rewrite bool_decide_true by done. cbn [negb]. repeat case_bool_decide; [| |by apply wp_ret].
    + apply wp_bind, wp_on_memory. eapply wp_mono; [eapply finalize_signature_safe; [done|by rewrite <-Hctx]|].
      intros [r out] m Hm'. rewrite <-Hctx in Hm'. apply wp_bind.
      apply (wp_impl _ _ (λ _ s', finished csd d h s s')). intros Hok. apply forget_finished; [done..|].
      by apply Hm'.
    + destruct (isEmpty input); [by apply wp_ret|]. apply wp_bind, wp_on_memory.
      eapply wp_mono; [eapply finalize_verification_safe; [done|by rewrite <-Hctx]|].
      intros r m Hm'. rewrite <-Hctx in Hm'. apply wp_bind. eapply wp_mono; [by eapply forget_finished|].
      by intros [] s' ? _.
Qed.

Lemma removed_token s clientId token m x n y :
  session_at (mkOpenSsl m x n (<[clientId := delete token (of_client clientId s)]> (m_cipherSessions s)) y)
    clientId token = None.
Proof.
  unfold session_at. simpl. by rewrite session_at_insert, bool_decide_true, lookup_delete_eq.
Qed.

(** Finishing a session leaves the map of sessions alone. *)
Lemma finalize_session_map csd d input s :
  wp (finalize_session csd d input) (λ _ s', m_cipherSessions s' = m_cipherSessions s) s.
Proof.
  assert (∀ m, wp (forget_md csd) (λ _ s', m_cipherSessions s' = m_cipherSessions s) (with_memory m s)) as Hforget.
  { intros m. apply wp_modify. simpl. by case_match. }
  unfold finalize_session. repeat case_match; try by apply wp_ret.
  - apply wp_bind, wp_on_memory. eapply wp_mono; [apply wp_any|]. intros [r out] m _. by apply wp_ret.
  - apply wp_on_memory. eapply wp_mono; [apply wp_any|]. by intros r m _.
  - apply wp_bind, wp_on_memory. eapply wp_mono; [apply wp_any|]. intros [r out] m _. apply wp_bind.
    eapply wp_mono; [apply Hforget|]. intros [] s' Hs'. by apply wp_ret.
  - apply wp_bind, wp_on_memory. eapply wp_mono; [apply wp_any|]. intros r m _. apply wp_bind.
    eapply wp_mono; [apply Hforget|]. intros [] s' Hs'. by apply wp_ret.
Qed.

Lemma cleanup_map csd s : m_cipherSessions (cleanup csd s).2 = m_cipherSessions s.
Proof.
  unfold cleanup, bind, gets. simpl. destruct (sessions s !! csd) as [d|]; [|done].
  unfold on_memory, zoom. by repeat (destruct (free _ _); simpl).
Qed.

Lemma contexts_not_null d (o : Object L) :
  fits d o → bool_decide (csd_evp_cipher_ctx d = 0%Z) && bool_decide (csd_evp_md_ctx d = 0%Z) = false.
Proof. intros Hf. destruct (fits_cases _ _ Hf) as [(?&_)|(_&?&_)]; repeat case_bool_decide; done. Qed.

(** The token is free again, whatever happens. *)
Lemma finalize_frees base clientId input token s :
  Inv base s →
  wp (ossl_finalizeCipherSession clientId input token) (λ r s', session_at s' clientId token = None
    ∧ (session_at s clientId token = None → r = (unknown_token, (None, None)))) s.
Proof.
  intros Hi. eapply wp_find; [done|done|]. intros csd d o Hat Hd Hf Ho. rewrite (contexts_not_null _ _ Hf).
  apply wp_bind, wp_modify, wp_bind, wp_modify, wp_bind.
  eapply wp_mono; [apply finalize_session_map|]. intros r s' Hs'. apply wp_bind. unfold wp at 1.
  apply wp_ret. split; [|congruence]. unfold session_at. rewrite cleanup_map, Hs'. simpl.
  by rewrite session_at_insert, bool_decide_true, lookup_delete_eq.
Qed.

Lemma finalize_effect base clientId input token s :
  Inv base s →
  wp (ossl_finalizeCipherSession clientId input token)
    (λ r s', ¬ signature_failed r.1 → effect clientId s s') s.
Proof.
  intros Hi. eapply wp_find; [done| |].
  { intros _ _. by eapply effect_none. }
  intros csd d o Hat Hd Hf Ho. rewrite (contexts_not_null _ _ Hf).
  apply wp_bind, wp_modify, wp_bind, wp_modify, wp_bind.
  eapply wp_mono; [eapply finalize_session_safe; [exact Hd|apply Hi|done..]|].
  intros r s' Hfinished. apply wp_bind.
  apply (wp_impl (¬ signature_failed r.1) (cleanup csd) (λ _ s', effect clientId s s')). intros Hok.
  destruct (Hfinished Hok) as (m&d'&->&Hfin). simpl in *.
  assert (∃ h', mem h' m ∧ delete (ctx d') h' = delete (ctx d) (heap (memory s)) ∧
    ((csd_evp_cipher_ctx d' = 0%Z ∧ csd_evp_md_ctx d' = 0%Z) ∨ (∃ o, fits d' o ∧ h' !! ctx d' = Some o)))
    as (h'&Hm'&Hdel&Hc).
  { destruct Hfin as [[-> (o'&Hf'&Hm')]|(Hc&Hmd&Hm')]; eexists; (split; [exact Hm'|]).
    - split; [by rewrite delete_insert_eq|]. right. exists o'. by rewrite lookup_insert_eq.
    - split; [|by left]. unfold ctx at 1, the_context. rewrite Hc, Hmd. simpl.
      rewrite delete_id; [done|]. by eapply mem_null. }
  eapply wp_mono; [eapply cleanup_safe; [by simpl; rewrite lookup_insert_eq|done..]|].
  intros [] s' (m'&Hm2&->). simpl. rewrite delete_insert_eq. eapply eff_remove; [done..|]. by rewrite <-Hdel.
Qed.

(** A timer that fires ends its session; one that was stopped does nothing. *)
Lemma timeout_effect base timeout s :
  Inv base s →
  wp (timed_out timeout) (λ _ s', ∃ clientId, effect clientId s s'
    ∧ (∀ l, m_cipherSessionTimeouts s !! timeout = Some l →
       clientId = lookup_clientId l ∧ session_at s' clientId (lookup_sessionToken l) = None)) s.
Proof.
  intros Hi. apply wp_bind, wp_gets. simpl. destruct (m_cipherSessionTimeouts s !! timeout) as [l|] eqn:El.
  2: { apply wp_ret. exists 0%Z. split; [by eapply effect_none|done]. }
  destruct (inv_timer _ _ Hi _ _ El) as (Hat&d&Hd&Hx).
  destruct (inv_ctx _ _ Hi _ _ Hd) as (_&o&Hf&Ho).
  apply wp_bind, wp_modify, wp_bind, wp_modify.
  eapply wp_mono; [eapply cleanup_safe; [exact Hd|apply Hi|right; by exists o]|].
  intros [] s' (m&Hm&->). simpl. exists (lookup_clientId l). rewrite <-Hx. split.
  - exact (eff_remove _ s _ _ d m Hat Hd Hm).
  - intros l' [= <-]. split; [done|]. exact (removed_token s _ _ _ _ _ _).
Qed.

Lemma initialize_effect base clientId iv key options s :
  Inv base s → sound_session iv key options →
  wp (ossl_initializeCipherSession clientId iv key options) (λ '(r, token) s',
    effect clientId s s' ∧
    match token with
    | Some t => r = c_succeeded ∧ session_at s clientId t = None ∧ is_Some (session_at s' clientId t)
    | None => ∃ m, s' = with_memory m s
    end) s.
Proof.
  intros Hi Hs. pose proof (effect_none _ clientId _ Hi) as Hnone.
  assert (∃ m, s = with_memory m s) as Hsame by (exists (memory s); by destruct s).
  unfold ossl_initializeCipherSession. destruct (session_error key options); [by apply wp_ret|].
  apply wp_bind, wp_gets. case_bool_decide as H0; [by apply wp_ret|].
  destruct (if bool_decide _ then _ else _) as [e|] eqn:Eiv; [by apply wp_ret|].
  apply wp_bind, wp_on_memory. eapply wp_mono; [eapply open_contexts_safe; [apply Hi|done|]|].
  { intros Hop. by rewrite bool_decide_true in Eiv. }
  intros [e|[md ci]] m.
  { intros Hm. apply wp_ret. split; [by apply eff_same|by exists m]. }
  intros (Hpos&Hn&o&Hf&Hm). apply wp_bind, wp_modify, wp_ret. split; [|split_and!].
  - exact (eff_add clientId s _ (mkSession iv key (cso_operation options) (cso_blockMode options) _ md ci _)
      o m eq_refl H0 Hf Hn Hm eq_refl).
  - done.
  - by eapply next_token_free.
  - unfold session_at. simpl. rewrite session_at_insert, bool_decide_true, lookup_insert_eq by done. by eexists.
Qed.

(** * Reachable states

    Requests of clients and timers that fire, in any order, as long as no request is
    answered with the failure of a signature. *)
Inductive session_step s : OpenSslPlugin L → Prop :=
| step_initialize clientId iv key options :
    sound_session iv key options →
    session_step s (ossl_initializeCipherSession clientId iv key options s).2
| step_authenticate clientId data token :
    session_step s (ossl_updateCipherSessionAuthentication clientId data token s).2
| step_update clientId data token :
    ¬ signature_failed (ossl_updateCipherSession clientId data token s).1.1 →
    session_step s (ossl_updateCipherSession clientId data token s).2
| step_finalize clientId data token :
    ¬ signature_failed (ossl_finalizeCipherSession clientId data token s).1.1 →
    session_step s (ossl_finalizeCipherSession clientId data token s).2
| step_timeout timeout : session_step s (timed_out timeout s).2.

Definition started (l : L) : OpenSslPlugin L := mkOpenSsl (mkMemory l ∅ 1 []) ∅ 1 ∅ ∅.

Lemma started_inv l : Inv ∅ (started l).
Proof.
  split; simpl; try done.
  - split_and!; [done..|]. by intros a [??].
Qed.

Lemma step_effect base s s' :
  Inv base s → session_step s s' → ∃ clientId, effect clientId s s'.
Proof.
  intros Hi [clientId iv key options Hs|clientId data token|clientId data token Hok|clientId data token Hok|x].
  - exists clientId. pose proof (initialize_effect _ clientId _ _ _ _ Hi Hs) as Hw. revert Hw. unfold wp.
    destruct (ossl_initializeCipherSession _ _ _ _ _) as [[??]?]. by intros [? _].
  - exists clientId. apply (updateAuthentication_effect _ _ _ _ _ Hi).
  - exists clientId. by apply (update_effect _ _ _ _ _ Hi).
  - exists clientId. by apply (finalize_effect _ _ _ _ _ Hi).
  - destruct (timeout_effect _ x _ Hi) as (c&He&_). by exists c.
Qed.

Lemma session_reachable_inv l s : rtc session_step (started l) s → Inv ∅ s.
Proof.
  intros Hr. assert (Inv ∅ (started l)) as Hi by apply started_inv. revert Hi.
  induction Hr as [|x y z Hxy _ IH]; [done|]. intros Hi. apply IH.
  destruct (step_effect _ _ _ Hi Hxy) as [c He]. by eapply effect_inv.
Qed.
End steps.

(** * Signatures in pieces *)

Section signing.
Context {L : Type} `{SSL : OpenSsl L}.
Implicit Types (m : Memory L) (s : OpenSslPlugin L).

(** [EVP_DigestSignUpdate] can be called several times to hash additional data. *)
Class SignaturesAccumulate := {
  accumulate_works data c l : (lib_DigestSignUpdate data c l).1.1 = 1%Z;
  accumulate a b c l c' l' :
    lib_DigestSignUpdate a c l = (1%Z, c', l') → lib_DigestSignUpdate b c' l' = lib_DigestSignUpdate (a +:+ b) c l;
}.

(** All requests of a client that signs the pieces [chunks]. *)
Definition sign_session (clientId : Z) (key : CKey) (options : CipherSessionOptions) (chunks : list bytes)
  : M (OpenSslPlugin L) (CResult * option bytes) :=
  let* '(r, token) := ossl_initializeCipherSession clientId "" key options in
  match token with
  | None => ret (r, None)
  | Some token =>
      foldM (λ _ data, let* _ := ossl_updateCipherSession clientId data token in ret tt) chunks tt ;;;
      let* '(r, (signature, _)) := ossl_finalizeCipherSession clientId "" token in
      ret (r, signature)
  end.

Definition all_of (chunks : list bytes) : bytes := foldr String.app "" chunks.

(** * Updates in pieces *)

Lemma app_empty_r (b : bytes) : b +:+ "" = b.
Proof. induction b as [|c b IH]; [done|]. unfold String.app in *. simpl. by rewrite IH. Qed.

Context `{!SignaturesAccumulate}.

Lemma update_unfold a data m :
  a ≠ 0%Z → ∀ c, heap m !! a = Some (OMd c) →
  ∃ c' l', lib_DigestSignUpdate data c (library m) = (1%Z, c', l')
    ∧ sign_session_update a data m
      = (1%Z, mkMemory l' (<[a := OMd c']> (heap m)) (next_address m) (faults m)).
Proof.
  intros Ha c Hc. pose proof (accumulate_works data c (library m)) as Hw.
  destruct (lib_DigestSignUpdate data c (library m)) as [[r c'] l'] eqn:E. simpl in Hw. subst r.
  exists c', l'. split; [done|]. unfold sign_session_update, session_update. rewrite bool_decide_false by done.
  unfold on_md, bind, gets, on_library, zoom, ret, modify, set_heap. rewrite Hc, E. done.
Qed.

(** Two updates are one. *)
Lemma update_twice a d1 d2 m m1 :
  a ≠ 0%Z → (∃ c, heap m !! a = Some (OMd c)) → sign_session_update a d1 m = (1%Z, m1) →
  sign_session_update a d2 m1 = sign_session_update a (d1 +:+ d2) m ∧ ∃ c, heap m1 !! a = Some (OMd c).
Proof.
  intros Ha [c Hc] E1. destruct (update_unfold a d1 m Ha c Hc) as (c1&l1&Hl1&E). rewrite E in E1.
  injection E1 as <-. destruct (update_unfold a (d1 +:+ d2) m Ha c Hc) as (c2&l2&Hl2&->).
  edestruct (update_unfold a d2 (mkMemory l1 (<[a := OMd c1]> (heap m)) (next_address m) (faults m)) Ha c1)
    as (c3&l3&Hl3&->); [by simpl; rewrite lookup_insert_eq|]. simpl in *.
  rewrite (accumulate _ _ _ _ _ _ Hl1), Hl2 in Hl3. injection Hl3 as <- <-.
  rewrite insert_insert_eq, lookup_insert_eq. eauto.
Qed.

(** A session for signing that is found under its token. *)
Definition signing_session s (clientId token a : Z) : Prop :=
  ∃ csd d, session_at s clientId token = Some csd ∧ sessions s !! csd = Some d
    ∧ csd_operation d = OperationSign ∧ csd_evp_cipher_ctx d = 0%Z ∧ csd_evp_md_ctx d = a ∧ a ≠ 0%Z.

Lemma signing_update s clientId token a data m :
  signing_session s clientId token a → data ≠ "" → sign_session_update a data (memory s) = (1%Z, m) →
  ossl_updateCipherSession clientId data token s = (c_succeeded, Some "", with_memory m s).
Proof.
  intros (csd&d&Hat&Hd&Hop&Hci&Hmd&Ha) Hdata E. unfold ossl_updateCipherSession, find_session.
  unfold session_at in Hat. unfold bind at 1, gets. simpl. rewrite Hat, Hd, Hci, Hmd, Hop.
  rewrite (bool_decide_false (a = 0%Z)) by done. rewrite (proj2 (isEmpty_false data)) by done. simpl.
  unfold on_memory, zoom, bind, ret. rewrite E. done.
Qed.

Lemma signing_chunks s clientId token a chunks m :
  signing_session s clientId token a → (∃ c, heap (memory s) !! a = Some (OMd c)) →
  Forall (λ d, d ≠ "") chunks → chunks ≠ [] →
  sign_session_update a (all_of chunks) (memory s) = (1%Z, m) →
  foldM (λ _ data, let* _ := ossl_updateCipherSession clientId data token in ret tt) chunks tt s
  = (tt, with_memory m s).
Proof.
  intros Hs Hc Hne Hnil E. revert s m Hs Hc E. induction Hne as [|d chunks Hd _ IH]; [done|]. intros s m Hs Hc E.
  pose proof Hs as (_&_&_&_&_&_&_&Ha). destruct Hc as [c Hc].
  destruct (update_unfold a d (memory s) Ha c Hc) as (c1&l1&_&E1).
  set (m1 := mkMemory l1 _ _ _) in E1. simpl. unfold bind at 1 2.
  rewrite (signing_update _ _ _ _ _ _ Hs Hd E1). unfold ret at 1.
  destruct (decide (chunks = [])) as [->|Hn].
  - simpl in *. rewrite app_empty_r, E1 in E. by injection E as <-.
  - destruct (update_twice a d (all_of chunks) (memory s) m1 Ha (ex_intro _ c Hc) E1) as [Et Hc1].
    rewrite (IH Hn (with_memory m1 s) m); [done..|]. simpl. by rewrite Et.
Qed.

(** * Signing at once *)

(** What a successful [ossl_sign] consists of. *)
Lemma sign_steps data key options sig m m' :
  ossl_sign data key options m = (c_succeeded, Some sig, m') →
  ∃ dig pkey a p n m1 m2 m3 m4,
    getEvpDigestFunction (so_digest options) = Some dig
    ∧ readEvpPrivKey (k_privateKey key) m = (Some pkey, m1)
    ∧ sign_session_init dig pkey m1 = (1%Z, a, m2)
    ∧ sign_session_update a data m2 = (1%Z, m3)
    ∧ sign_session_finalize a m3 = (1%Z, p, n, m4)
    ∧ taken p n m4 = (c_succeeded, Some sig, m') ∧ k_privateKey key ≠ "".
Proof.
  unfold ossl_sign. destruct (isEmpty data); [done|]. destruct (isEmpty (k_privateKey key)) eqn:Hk; [done|].
  destruct (negb _); [done|]. destruct (getEvpDigestFunction _) as [dig|] eqn:Hdig; [|done].
  unfold bind at 1. destruct (readEvpPrivKey _ m) as [[pkey|] m1] eqn:E1; [|done].
  unfold bind at 1, sign, bind at 1. destruct (sign_session_init dig pkey m1) as [[r1 a] m2] eqn:E2.
  case_bool_decide as Hr1; [subst r1|done]. cbn [negb]. unfold bind at 1.
  destruct (sign_session_update a data m2) as [r2 m3] eqn:E3. case_bool_decide as Hr2; [subst r2|done].
  cbn [negb]. unfold bind at 1. destruct (sign_session_finalize a m3) as [[[r3 p] n] m4] eqn:E4. unfold ret at 1.
  destruct (decide (r3 = 1%Z)) as [->|Hr3]; [|by rewrite (bool_decide_false (r3 = 1%Z))]. simpl. intros E5.
  exists dig, pkey, a, p, n, m1, m2, m3, m4. split_and!; [done..|]. by apply isEmpty_false.
Qed.

Lemma session_init_context init m a m' :
  session_init init m = (1%Z, a, m') → a ≠ 0%Z ∧ ∃ c, heap m' !! a = Some (OMd c).
Proof.
  unfold session_init, bind. destruct (EVP_MD_CTX_create m) as [b m1]. case_bool_decide as Hb; [done|].
  unfold on_md at 1, bind at 1, gets. destruct (heap m1 !! b) as [[| |c|]|].
  1,2,4,5: simpl; unfold bind; destruct (free b _); by intros [=].
  unfold bind, on_library, zoom. destruct (init c (library m1)) as [[r c'] l']. simpl.
  case_bool_decide; [|simpl; unfold bind; destruct (free b _); by intros [=]]. simpl. unfold ret. intros [= <- <-]. split; [done|]. simpl.
  rewrite lookup_insert_eq. eauto.
Qed.

(** * The session *)

Definition sign_options (options : CipherSessionOptions) : SignatureOptions :=
  {| so_padding := cso_signaturePadding options; so_digest := cso_digestFunction options |}.

Lemma initialize_signing clientId key options s dig pkey a m1 m2 :
  session_error key options = None → cso_operation options = OperationSign →
  getNextCipherSessionToken (m_cipherSessions s) clientId ≠ 0%Z →
  getEvpDigestFunction (cso_digestFunction options) = Some dig →
  readEvpPrivKey (k_privateKey key) (memory s) = (Some pkey, m1) →
  sign_session_init dig pkey m1 = (1%Z, a, m2) → a ≠ 0%Z →
  ∃ token s', ossl_initializeCipherSession clientId "" key options s = (c_succeeded, Some token, s')
    ∧ memory s' = m2 ∧ signing_session s' clientId token a.
Proof.
  intros He Hop Ht Hdig E1 E2 Ha. unfold ossl_initializeCipherSession. rewrite He. unfold bind at 1, gets.
  set (token := getNextCipherSessionToken _ _) in *. rewrite (bool_decide_false (token = 0%Z)) by done.
  rewrite Hop. simpl. unfold open_contexts. rewrite Hop. simpl. unfold open_digest. rewrite Hdig.
  unfold on_memory, zoom, bind. rewrite E1, E2. simpl. exists token. eexists. split_and!; [done..|].
  eexists _, _. unfold session_at. simpl. rewrite session_at_insert, bool_decide_true, !lookup_insert_eq by done.
  done.
Qed.

Lemma finalize_signing clientId token a p n sig s m4 m' :
  signing_session s clientId token a → sign_session_finalize a (memory s) = (1%Z, p, n, m4) →
  taken p n m4 = (c_succeeded, Some sig, m') →
  ∃ s', ossl_finalizeCipherSession clientId "" token s = (c_succeeded, (Some sig, None), s') ∧ memory s' = m'
    ∧ session_at s' clientId token = None.
Proof.
  intros (csd&d&Hat&Hd&Hop&Hci&Hmd&Ha) E1 E2. unfold ossl_finalizeCipherSession, find_session.
  unfold session_at in Hat. unfold bind at 1, gets. simpl. rewrite Hat, Hd, Hci, Hmd.
  rewrite (bool_decide_false (a = 0%Z)) by done. simpl. unfold finalize_session. rewrite Hci, Hop. simpl.
  unfold finalize_signature. rewrite Hmd. unfold bind, remove_token, modify, on_memory, zoom. simpl.
  rewrite E1. simpl. rewrite E2. unfold forget_md, modify. simpl. rewrite Hd. unfold cleanup, bind, gets. simpl.
  rewrite lookup_insert_eq. simpl. unfold on_memory, zoom. rewrite Hci. eexists. split_and!; [done..|].
  unfold session_at. simpl. by rewrite session_at_insert, bool_decide_true, lookup_delete_eq.
Qed.

Lemma sign_session_agrees clientId key options chunks sig s m' :
  session_error key options = None → cso_operation options = OperationSign →
  getNextCipherSessionToken (m_cipherSessions s) clientId ≠ 0%Z →
  Forall (λ d, d ≠ "") chunks → chunks ≠ [] →
  ossl_sign (all_of chunks) key (sign_options options) (memory s) = (c_succeeded, Some sig, m') →
  ∃ s', sign_session clientId key options chunks s = (c_succeeded, Some sig, s') ∧ memory s' = m'.
Proof.
  intros He Hop Ht Hne Hnil Hsign.
  destruct (sign_steps _ _ _ _ _ _ Hsign) as (dig&pkey&a&p&n&m1&m2&m3&m4&Hdig&E1&E2&E3&E4&E5&_).
  destruct (session_init_context _ _ _ _ E2) as [Ha Hc].
  destruct (initialize_signing clientId key options s dig pkey a m1 m2) as (token&s1&Ei&Hm1&Hs1); [done..|].
  unfold sign_session, bind at 1. rewrite Ei. rewrite <-Hm1 in Hc, E3. unfold bind at 1.
  rewrite (signing_chunks _ _ _ _ _ _ Hs1 Hc Hne Hnil E3).
  destruct (finalize_signing clientId token a p n sig (with_memory m3 s1) m4 m') as (s2&Ef&Hm2&_); [done..|].
  unfold bind. rewrite Ef. by exists s2.
Qed.
End signing.
