(* ===== verification/Examples.v ===== *)
(** Example states, at which the properties are evaluated. *)
From S2P Require Import Prelude Result Sqlite Transactions MetadataDb PluginApi.
From S2P Require Import MetadataSync PluginWrapper WrapperSpec SqlitePlugin SqlitePluginSpec.
From S2P Require Import SqlCipherPlugin CipherSpec.

(** An open metadata database without collections, and an open SQLite plugin
    that stores nothing. *)
Definition hex64 (digit : string) : string := String.concat "" (replicate 64 digit).
Definition key_a : string := hex64 "a".
Definition key_b : string := hex64 "b".

Definition example_meta (fs : list (option fault)) : MetaDb :=
  mkDatabase true key_a (Some (DbFile (mkMetaTables ∅ ∅) (Some key_a) currentSchemaVersion))
    None "C" [] 0 fs.

Definition empty_tables : SqliteTables := mkSqliteTables {["standalone"]} ∅ ∅.

Definition example_sqlite (fs : list (option fault)) : SqliteDb :=
  mkDatabase true "" (Some (DbFile empty_tables (Some "") 1)) None "C" [] 0 fs.

Definition example_wrapper (fs : list (option fault)) : Wrapper SqliteDb :=
  mkWrapper (example_meta fs) false (example_sqlite []).

Definition vault_metadata : CollectionMetadata :=
  mkCollectionMetadata "vault" "app" true "enc" "auth" DeviceLockKeepUnlocked OwnerOnlyMode.
Definition token : SecretMetadata :=
  mkSecretMetadata "vault" "token" "app" true "enc" "auth" DeviceLockKeepUnlocked OwnerOnlyMode "" "".

Lemma example_settled fs : settled (mkMetaTables ∅ ∅) (example_wrapper fs).
Proof. repeat split. Qed.

Lemma example_meta_good : good (example_meta []).
Proof.
  split; [constructor|]. split; [reflexivity|]. intros fl [[= <-]|?]; [|done]. vm_compute. reflexivity.
Qed.

Lemma empty_tables_wf : sqlite_wf empty_tables.
Proof.
  split; simpl.
  - set_solver.
  - intros c ->%elem_of_singleton. by left.
  - intros c s [? Hs]. by rewrite lookup_empty in Hs.
  - intros c s f [? Hs]. by rewrite lookup_empty in Hs.
Qed.

Lemma example_sqlite_idle : Idle True empty_tables (example_sqlite []).
Proof.
  split; [repeat split|]. intros _. split; [constructor|]. split; [reflexivity|].
  intros fl [[= <-]|?]; [|done]. reflexivity.
Qed.

Lemma example_represents :
  represents (example_wrapper []) (mkMetaTables ∅ ∅, sqlite_view empty_tables).
Proof.
  split_and!; [apply example_settled|apply example_meta_good| |].
  - exists empty_tables. split; [apply example_sqlite_idle|apply empty_tables_wf].
  - apply (Idle_store _ _ _ example_sqlite_idle).
Qed.

Lemma foreign_key_empty : foreign_key (mkMetaTables ∅ ∅).
Proof. intros c s [? Hs]. simpl in Hs. by rewrite lookup_empty in Hs. Qed.

Lemma example_in_sync : in_sync (mkMetaTables ∅ ∅, sqlite_view empty_tables).
Proof.
  split; [apply foreign_key_empty|]. split; simpl.
  - intros c _. rewrite lookup_empty. split; [by intros []|]. set_solver.
  - intros c s _. rewrite map_lookup_imap, !lookup_empty. simpl. done.
Qed.

(** The same with one collection, without secrets. *)
Definition vault_rows : MetaTables := mkMetaTables {["vault" := collection_values vault_metadata]} ∅.

Definition vault_meta : MetaDb :=
  mkDatabase true key_a (Some (DbFile vault_rows (Some key_a) currentSchemaVersion)) None "C" [] 0 [].

Definition vault_tables : SqliteTables := mkSqliteTables {["standalone"; "vault"]} ∅ ∅.

Definition vault_wrapper : Wrapper SqliteDb :=
  mkWrapper vault_meta false
    (mkDatabase true "" (Some (DbFile vault_tables (Some "") 1)) None "C" [] 0 []).

Lemma vault_meta_good : good vault_meta.
Proof.
  split; [constructor|]. split; [reflexivity|]. intros fl [[= <-]|?]; [vm_compute; reflexivity|done].
Qed.

Lemma vault_represents : represents vault_wrapper (vault_rows, sqlite_view vault_tables).
Proof.
  assert (Idle True vault_tables (m_plugin vault_wrapper)) as Hi.
  { split; [repeat split|]. intros _. split; [constructor|]. split; [reflexivity|].
    intros fl [[= <-]|?]; [|done]. reflexivity. }
  split_and!; [repeat split|apply vault_meta_good| |].
  - exists vault_tables. split; [done|]. split; simpl.
    + set_solver.
    + intros c [Hc|Hc]%elem_of_union; apply elem_of_singleton in Hc as ->; [by left|]. right. vm_compute. reflexivity.
    + intros c s [? Hs]. by rewrite lookup_empty in Hs.
    + intros c s f [? Hs]. by rewrite lookup_empty in Hs.
  - apply (Idle_store _ _ _ Hi).
Qed.

(** An encryption that prefixes the key, for the example. *)
Definition prefix_encryption : EncryptionPlugin := mkEncryptionPlugin
  (λ plaintext key, (result_of_code Succeeded, key +:+ plaintext))
  (λ encrypted key, if String.prefix key encrypted
     then (result_of_code Succeeded, String.substring (String.length key)
                       (String.length encrypted - String.length key) encrypted)
     else (result_error SecretsPluginDecryptionError "wrong key", "")).

Lemma prefix_append k x : String.prefix k (k +:+ x) = true.
Proof. induction k as [|a k IH]; simpl; [by destruct x|]. by destruct (Ascii.ascii_dec a a). Qed.

Lemma substring_append k x :
  String.substring (String.length k) (String.length (k +:+ x) - String.length k) (k +:+ x) = x.
Proof.
  induction k as [|a k IH]; simpl; [|done]. rewrite Nat.sub_0_r.
  induction x as [|b x IHx]; [done|]. change (String b (String.substring 0 (String.length x) x) = String b x).
  f_equal. exact IHx.
Qed.

(** The environment of the SQLCipher plugin: a function with values of 64 digits
    in place of SHA-256, and one that always succeeds in place of PBKDF2. *)
Fixpoint pad (n : nat) (s : string) : string :=
  match n with
  | O => ""
  | S n' => match s with
            | EmptyString => String (Ascii.ascii_of_nat 48) (pad n' "")
            | String c s' => String c (pad n' s')
            end
  end.

Lemma length_pad n s : String.length (pad n s) = n.
Proof. revert s. induction n as [|n IH]; intros []; simpl; [done..| |]; by rewrite IH. Qed.

#[global] Instance example_env : CipherEnv := {|
  localeName := "C"; sha256Hex := λ b, pad 64 (toHex b); pbkdf2 := λ code salt, Some (code +:+ salt);
|}.

#[global] Instance example_env_spec : CipherEnvSpec.
Proof. intros b. apply length_pad. Qed.

(** A SQLCipher plugin without collections. *)
Definition empty_cipher : SqlCipher := mkSqlCipher ∅ ∅.

Definition example_encrypted (fs : list (option fault)) : Wrapper SqlCipher :=
  mkWrapper (example_meta fs) false empty_cipher.

Lemma empty_cipher_ready : cipher_ready empty_cipher.
Proof. intros c. split; [constructor|]. unfold database. simpl. rewrite lookup_empty. done. Qed.

(** The same with one locked collection, which holds one secret; [fs] is what
    the engine does to its database. *)
Definition safe_tables : CipherTables := mkCipherTables {["pin" := "1234"]} {[("pin", "kind") := "pin"]}.

Definition locked_cipher (fs : list (option fault)) : SqlCipher :=
  mkSqlCipher {["vault" := mkDatabase false "" (Some (DbFile safe_tables (Some (hexKey "k1")) 1))
                             None "C" [] 0 fs]} ∅.

Definition locked_wrapper (fs : list (option fault)) : Wrapper SqlCipher :=
  mkWrapper vault_meta false (locked_cipher fs).

Lemma safe_tables_wf : cipher_wf safe_tables.
Proof.
  intros s f [v Hv]. simpl in *. apply lookup_singleton_Some in Hv as [[= <- <-] _].
  rewrite lookup_singleton_eq. by eexists.
Qed.

Lemma locked_cipher_ready : cipher_ready (locked_cipher []).
Proof.
  intros c. change (opened c (locked_cipher [])) with (bool_decide (c ∈ (∅ : gset string))).
  rewrite bool_decide_false by set_solver. unfold database. simpl.
  destruct (decide (c = "vault")) as [->|Hc].
  - rewrite lookup_singleton_eq. split; [constructor|]. intros fl [= <-].
    eexists _, _. split; [reflexivity|apply safe_tables_wf].
  - rewrite lookup_singleton_ne by done. split; [constructor|done].
Qed.
