(* ===== verification/DatabaseProps.v ===== *)
(** The properties of the database layer and of the result values. *)
From S2P Require Import Prelude Result Sqlite.
From Stdlib Require Import OrdersEx Lia.

(** * Transactions *)
Section transactions.
  Context {T : Type} `{!Inhabited T}.
  Implicit Types (db : Database T) (t : T).

(** How the program uses the counted transactions: begin, run the statements,
    commit unless one of them failed. *)
Definition committed_transaction (runs : list (T → option T)) : M (Database T) bool :=
  let* begun := beginTransaction in
  if negb begun then ret false else
  let* '(done, _) := executeBatch true runs in
  if (done : bool) then commitTransaction else rollbackTransaction ;;; ret false.

(** What the statements make of the tables; [None] when one is refused. *)
Definition apply_all (runs : list (T → option T)) (t : T) : option T :=
  foldl (λ o run, t' ← o; run t') (Some t) runs.

Lemma apply_all_None runs : foldl (λ o run, t' ← o; run t') None runs = @None T.
Proof. by induction runs. Qed.

Lemma executeBatch_spec runs t0 t db :
  live t0 t db →
  wp (executeBatch true runs) (λ '(b, _) db',
    (if (b : bool) then ∃ t', apply_all runs t = Some t' ∧ live t0 t' db' else aborted t0 db')
    ∧ (good db → good db' ∧ (b = false → apply_all runs t = None))) db.
Proof.
  revert t db. induction runs as [|run runs IH]; intros t db Hl; cbn [executeBatch].
  { apply wp_ret. split; [eauto|]. by intros. }
  apply wp_bind. eapply wp_mono; [by eapply execute_spec|]. intros [[[]|] txt] db1 [Hx Hg].
  - destruct Hx as (t1&Hrun&Hl1). apply bind_Some in Hrun as (t2&Hrun&[= ->]).
    eapply wp_mono; [by apply IH|]. intros [b txt'] db2 [Hb Hg2].
    unfold apply_all in *. simpl. rewrite Hrun. split; [done|]. intros HG. apply Hg2. by apply Hg.
  - apply wp_ret. split; [done|]. intros HG. destruct (Hg HG) as [? Hn]. split; [done|]. intros _.
    destruct (Hn eq_refl eq_refl) as [Hr _]. unfold apply_all. simpl.
    destruct (run t); [done|]. apply apply_all_None.
Qed.
End transactions.

(** One statement of the examples below: write the value [n], unless it is
    zero. *)
Definition write (n : nat) (_ : nat) : option nat := if decide (n = 0%nat) then None else Some n.

(** A database of one number, open and idle. *)
Definition example_db (fs : list (option fault)) : Database nat :=
  mkDatabase true "" (Some (DbFile 7%nat (Some "") 1)) None "C" [] 0 fs.

(** A transaction is atomic, whatever the engine does: begun on tables [t]
    outside any other transaction, it either commits all its statements, or the
    database is idle on [t] again, or it could not be begun or ended, in which
    case its result is failure too. *)
Theorem transaction_atomic {T} `{!Inhabited T} (runs : list (T → option T)) t (db : Database T) :
  idle t db →
  wp (committed_transaction runs) (λ b db',
    if (b : bool) then ∃ t', apply_all runs t = Some t' ∧ idle t' db'
    else idle t db' ∨ leaked t db' ∨ ∃ t', apply_all runs t = Some t' ∧ commit_failed t t' db') db.
Proof.
  intros Hi. unfold committed_transaction. apply wp_bind. eapply wp_mono; [by eapply begin_spec|].
  intros [|] db1 [Hb _]; simpl; [|apply wp_ret; auto]. apply wp_bind.
  eapply wp_mono; [by apply executeBatch_spec|]. intros [[|] txt] db2 [Hx _].
  - destruct Hx as (t'&Ht'&Hl). eapply wp_mono; [by eapply commit_spec|].
    intros [|] db3 [Hc _]; eauto.
  - apply wp_bind. eapply wp_mono; [by eapply rollback_spec|]. intros _ db3 [? _]. apply wp_ret. auto.
Qed.

Lemma transaction_atomic_witness :
  idle 7%nat (example_db [None; None; Some (Fault TxnRolledBack "disk I/O error")])
  ∧ wp (committed_transaction [write 3; write 4])
      (λ b db', if (b : bool) then ∃ t', apply_all [write 3; write 4] 7%nat = Some t' ∧ idle t' db'
         else idle 7%nat db' ∨ leaked 7%nat db'
              ∨ ∃ t', apply_all [write 3; write 4] 7%nat = Some t' ∧ commit_failed 7%nat t' db')
      (example_db [None; None; Some (Fault TxnRolledBack "disk I/O error")]).
Proof.
  assert (idle 7%nat (example_db [None; None; Some (Fault TxnRolledBack "disk I/O error")])) as Hi
    by (repeat split).
  split; [exact Hi|]. apply (transaction_atomic [write 3; write 4] 7%nat _ Hi).
Defined.

(** In a good environment a transaction does exactly what its statements
    do: it commits when none of them is refused, and otherwise leaves the
    tables as they were. *)
Theorem transaction_functional {T} `{!Inhabited T} (runs : list (T → option T)) t (db : Database T) :
  idle t db → good db →
  wp (committed_transaction runs) (λ b db', good db' ∧
    match apply_all runs t with
    | Some t' => b = true ∧ idle t' db'
    | None => b = false ∧ idle t db'
    end) db.
Proof.
  intros Hi Hg. unfold committed_transaction. apply wp_bind. eapply wp_mono; [by eapply begin_spec|].
  intros b db1 [Hl Hg1]. destruct (Hg1 Hg) as [Hg1' ->]. simpl. apply wp_bind.
  eapply wp_mono; [by apply executeBatch_spec|]. intros [b txt] db2 [Hx Hg2].
  destruct (Hg2 Hg1') as [Hg2' Hn]. destruct b.
  - destruct Hx as (t'&Ht'&Hl'). rewrite Ht'. eapply wp_mono; [by eapply commit_spec|].
    intros b db3 [Hc Hg3]. destruct (Hg3 Hg2') as [? ->]. done.
  - rewrite (Hn eq_refl). apply wp_bind. eapply wp_mono; [by eapply rollback_spec|].
    intros _ db3 [? Hg3]. apply wp_ret. auto.
Qed.

Lemma transaction_functional_witness :
  good (example_db []) ∧
  wp (committed_transaction [write 3; write 0]) (λ b db', good db' ∧ b = false ∧ idle 7%nat db')
    (example_db []).
Proof.
  assert (good (example_db [])) as Hg.
  { split; [constructor|]. split; [reflexivity|]. intros fl [[= <-]|?]; [reflexivity|discriminate]. }
  split; [exact Hg|].
  apply (transaction_functional [write 3; write 0] 7%nat (example_db [])); [repeat split|exact Hg].
Defined.

(** A failed begin is not undone: the counter stays at one, and the next
    begin reports success although no transaction is open, so that what follows
    is not protected by it. *)
Theorem failed_begin_corrupts_counter {T} `{!Inhabited T} t (db : Database T) :
  idle t db → (beginTransaction db).1 = false →
  let db1 := (beginTransaction db).2 in
  (beginTransaction db1).1 = true ∧ snapshot (beginTransaction db1).2 = None.
Proof. apply begin_after_failed_begin. Qed.

Definition busy : list (option fault) := [Some (Fault StmtAborted "database is locked")].

Lemma failed_begin_corrupts_counter_witness :
  let db1 := (beginTransaction (example_db busy)).2 in
  (beginTransaction db1).1 = true ∧ snapshot (beginTransaction db1).2 = None.
Proof.
  apply (failed_begin_corrupts_counter 7%nat (example_db busy)); [repeat split|reflexivity].
Defined.

(** The error path of a failed commit, a rollback, drives the counter below
    zero and leaves the transaction as it is; no transaction can be begun
    afterwards. *)
Theorem failed_commit_jams_database {T} `{!Inhabited T} t0 t (db : Database T) :
  live t0 t db → (commitTransaction db).1 = false →
  let db1 := (rollbackTransaction (commitTransaction db).2).2 in
  m_transactionSemaphore db1 = (-1)%Z
  ∧ snapshot db1 = snapshot (commitTransaction db).2
  ∧ (beginTransaction db1).1 = false.
Proof.
  intros Hl Hb. pose proof (commit_spec t0 t db Hl) as [Hc _]. rewrite Hb in Hc.
  pose proof (rollback_after_failed_commit _ _ _ Hc) as (?&_&?&?). done.
Qed.

Lemma failed_commit_jams_database_witness :
  let db := (beginTransaction (example_db (None :: busy))).2 in
  let db1 := (rollbackTransaction (commitTransaction db).2).2 in
  m_transactionSemaphore db1 = (-1)%Z
  ∧ snapshot db1 = snapshot (commitTransaction db).2
  ∧ (beginTransaction db1).1 = false.
Proof.
  apply (failed_commit_jams_database 7%nat 7%nat (beginTransaction (example_db (None :: busy))).2);
    [repeat split|reflexivity].
Defined.

(** * Opening *)

(** The schema upgrade always ends: every round either stops the upgrade or
    raises the schema version, so the rounds allowed are never exhausted,
    whatever the upgrade functions and statements do. *)
Theorem upgrade_terminates {T} `{!Inhabited T} (ups : list (UpgradeOperation T)) cur (db : Database T) :
  (executeUpgradeStatements ups cur db).1 ≠ None.
Proof. apply executeUpgradeStatements_terminates. Qed.

(** A database encrypted with one key is not opened with another, whatever
    the engine does, and the attempt leaves its file and the connection as they
    were. *)
Theorem wrong_key_is_refused {T} `{!Inhabited T} key key' t v setup create ups cur (db : Database T) :
  m_open db = false → snapshot db = None → m_transactionSemaphore db = 0%Z →
  file db = Some (DbFile t (Some key) v) → key' ≠ key → Forall no_key setup →
  wp (open (PragmaKey key' :: setup) create ups cur)
     (λ b db', b = false ∧ m_open db' = false ∧ file db' = file db ∧ snapshot db' = None) db.
Proof.
  intros Ho Hs Hsem Hf Hne Hsetup.
  eapply wp_mono; [eapply (open_wrong_key key' (DbFile t (Some key) v)); try done|].
  - by apply bool_decide_eq_false.
  - intros b db' (?&?&?&?&?). by rewrite Hf.
Qed.

Definition closed_db : Database nat :=
  mkDatabase false "" (Some (DbFile 7%nat (Some "secret") 1)) None "C" [] 0 [].

Lemma wrong_key_is_refused_witness :
  wp (open [PragmaKey "guess"; PragmaFile "PRAGMA journal_mode = WAL;"] [] [mkUpgrade None None] 1)
     (λ b db', b = false ∧ m_open db' = false ∧ file db' = file closed_db ∧ snapshot db' = None)
     closed_db.
Proof.
  apply (wrong_key_is_refused "secret" "guess" 7%nat 1%Z [PragmaFile "PRAGMA journal_mode = WAL;"] []
           [mkUpgrade None None] 1%Z closed_db); try reflexivity; [discriminate|repeat constructor].
Defined.

(** In a good environment a database is opened with its key and holds the
    tables of its file; without a file it is created with empty tables and the
    current schema version, encrypted with the key. *)
Theorem open_functional {T} `{!Inhabited T} key o setup create ups cur (db : Database T) :
  m_open db = false → snapshot db = None → m_transactionSemaphore db = 0%Z →
  Forall (λ f, f = None) (faults db) →
  file db = (λ t, DbFile t (Some key) cur) <$> o → setup_for key setup → cur = (lengthOf ups + 1)%Z →
  wp (open setup create ups cur)
     (λ b db', b = true ∧ good db' ∧ idle (default inhabitant o) db'
        ∧ (o = None → file db' = Some (DbFile inhabitant (Some key) cur))) db.
Proof.
  intros Ho Hs Hsem Hfs Hf Hsetup Hcur. destruct o as [t|].
  - eapply wp_mono; [by eapply (open_existing key t (Some key)); auto|]. intros b db' (?&?&?). done.
  - eapply wp_mono; [by eapply (open_new key)|]. intros b db' (?&?&?&?). done.
Qed.

Lemma open_functional_witness :
  wp (open [PragmaKey "secret"] [] [mkUpgrade None None] 1)
     (λ b db', b = true ∧ good db' ∧ idle 7%nat db'
        ∧ (Some 7%nat = None → file db' = Some (DbFile inhabitant (Some "secret") 1%Z))) closed_db.
Proof.
  apply (open_functional "secret" (Some 7%nat) [PragmaKey "secret"] [] [mkUpgrade None None] 1%Z closed_db);
    try reflexivity; [constructor|]. left. exists []. split; [reflexivity|constructor].
Defined.

(** * Results *)

Lemma string_ltb_spec a b : String.ltb a b = true ↔ String.compare a b = Lt.
Proof. unfold String.ltb. destruct (String.compare a b); done. Qed.

Lemma string_compare_OT a b : String.compare a b = String_as_OT.compare a b.
Proof.
  revert b. induction a as [|x a IH]; intros [|y b]; simpl; [done..|].
  unfold Ascii.compare, Ascii_as_OT.compare. by rewrite IH.
Qed.

Lemma string_ltb_irrefl a : String.ltb a a = false.
Proof.
  apply not_true_is_false. rewrite string_ltb_spec, string_compare_OT.
  apply (irreflexivity String_as_OT.lt).
Qed.

Lemma string_ltb_trans a b c : String.ltb a b = true → String.ltb b c = true → String.ltb a c = true.
Proof.
  rewrite !string_ltb_spec, !string_compare_OT. apply (transitivity (R := String_as_OT.lt)).
Qed.

Lemma string_ltb_total a b : a = b ∨ String.ltb a b = true ∨ String.ltb b a = true.
Proof.
  rewrite !string_ltb_spec, !string_compare_OT.
  destruct (String_as_OT.compare_spec a b) as [|H|H]; auto.
Qed.

Lemma ResultCode_value_inj a b : ResultCode_value a = ResultCode_value b → a = b.
Proof. by destruct a, b. Qed.

(** The three fields, compared one after the other. *)
Lemma result_ltb_spec a b :
  result_ltb a b = true ↔
    (ResultCode_value (code a) < ResultCode_value (code b))%Z
    ∨ (code a = code b ∧ (errorCode a < errorCode b)%Z)
    ∨ (code a = code b ∧ errorCode a = errorCode b
       ∧ String.ltb (errorMessage a) (errorMessage b) = true).
Proof.
  unfold result_ltb. case_bool_decide as Hc.
  - rewrite Hc. case_bool_decide as He; rewrite ?Z.ltb_lt; [|intuition lia].
    rewrite He. intuition lia.
  - rewrite Z.ltb_lt. intuition.
Qed.

Lemma result_eqb_spec a b : result_eqb a b = true ↔ a = b.
Proof.
  unfold result_eqb. destruct a, b; simpl. rewrite !andb_true_iff, !bool_decide_eq_true. naive_solver.
Qed.

(** [operator<] of the results is a strict total order that agrees with
    [operator==]: it is irreflexive and transitive, and of two results one is
    smaller, or they are equal. *)
Theorem result_order :
  (∀ r, result_ltb r r = false)
  ∧ (∀ a b c, result_ltb a b = true → result_ltb b c = true → result_ltb a c = true)
  ∧ (∀ a b, result_eqb a b = true ∨ result_ltb a b = true ∨ result_ltb b a = true)
  ∧ (∀ a b, result_eqb a b = true ↔ a = b).
Proof.
  split_and!; [| | |apply result_eqb_spec].
  - intros r. apply not_true_is_false. rewrite result_ltb_spec, string_ltb_irrefl. intuition lia.
  - intros a b c. rewrite !result_ltb_spec. pose proof (string_ltb_trans (errorMessage a)
      (errorMessage b) (errorMessage c)).
    intros [?|[[Ha ?]|(Ha&He&?)]] [?|[[Hb ?]|(Hb&He'&?)]];
      rewrite <-?Hb, ?Ha, <-?He', ?He in *; intuition (lia || congruence).
  - intros a b. rewrite result_eqb_spec, !result_ltb_spec.
    destruct (Z.lt_trichotomy (ResultCode_value (code a)) (ResultCode_value (code b)))
      as [?|[Hc%ResultCode_value_inj|?]]; [tauto| |tauto].
    destruct (Z.lt_trichotomy (errorCode a) (errorCode b)) as [?|[He|?]]; [tauto| |intuition].
    destruct (string_ltb_total (errorMessage a) (errorMessage b)) as [Hm|[?|?]]; [|tauto|intuition].
    left. destruct a, b; simpl in *. congruence.
Qed.
