(* ===== verification/StorageProps.v ===== *)
(** The properties of the storage plugin wrappers, of the metadata database and
    of the SQLite storage plugin. *)
From S2P Require Import Prelude Result Sqlite Transactions MetadataDb PluginApi MetadataSync.
From S2P Require Import PluginWrapper WrapperSpec MetadataLock SqlitePlugin SqlitePluginSpec SqliteSearch.
From S2P Require Import SqlCipherPlugin Examples.

(** * The wrappers *)

(** C3: Every modifying request to the wrapper of a storage plugin is atomic
    with respect to the metadata, for any plugin and whatever the engine does:
    when it succeeds, the metadata is changed as the request says (unless the
    commit itself failed); when it fails, the metadata is as before (at worst a
    transaction that could not be begun left its counter behind, and then the
    error says so). *)
Theorem storage_wrapper_atomic {P} `{StoragePlugin P} req t (w : Wrapper P) :
  settled t w →
  wp (run_request req) (λ r w',
    if ok r then ∃ t', request_sql req t = Some (t', tt)
                   ∧ (idle t' (m_metadataDb w') ∨ commit_failed t t' (m_metadataDb w'))
    else idle t (m_metadataDb w')
         ∨ (leaked t (m_metadataDb w') ∧ errorCode r = DatabaseTransactionError)) w.
Proof. apply run_request_outcome. Qed.

Lemma storage_wrapper_atomic_witness :
  wp (run_request (CreateCollection vault_metadata)) (λ r w',
    if ok r then ∃ t', request_sql (CreateCollection vault_metadata) (mkMetaTables ∅ ∅) = Some (t', tt)
                   ∧ (idle t' (m_metadataDb w') ∨ commit_failed (mkMetaTables ∅ ∅) t' (m_metadataDb w'))
    else idle (mkMetaTables ∅ ∅) (m_metadataDb w')
         ∨ (leaked (mkMetaTables ∅ ∅) (m_metadataDb w') ∧ errorCode r = DatabaseTransactionError))
    (example_wrapper [None; None; None; None; Some (Fault StmtAborted "database is locked")]).
Proof. apply storage_wrapper_atomic. apply example_settled. Defined.

(** C4: Any sequence of requests to the wrapper of a storage plugin that keeps
    its contract, in a good environment, has the results and the effects of the
    abstract store with metadata: the wrapper refines it.  If metadata and
    plugin agree on which managed collections and secrets exist before, they
    agree afterwards. *)
Theorem storage_wrapper_refines_store {P} `{StoragePluginSpec P} reqs (w : Wrapper P) ts :
  represents w ts → in_sync ts →
  wp (run_requests reqs) (λ rs w', ok <$> rs = (spec_run reqs ts).1
    ∧ represents w' (spec_run reqs ts).2 ∧ in_sync (spec_run reqs ts).2) w.
Proof.
  intros Hw Hs. eapply wp_mono; [by apply run_requests_refine|].
  intros rs w' [? ?]. split_and!; [done..|by apply spec_run_sync].
Qed.

Definition example_requests : list storage_request :=
  [CreateCollection vault_metadata; SetSecret token "s3cret" ∅; CreateCollection vault_metadata;
   RemoveSecret "vault" "token"; RemoveCollection "vault"].

Lemma storage_wrapper_refines_store_witness :
  wp (run_requests example_requests) (λ rs w',
    ok <$> rs = [true; true; false; true; true]
    ∧ represents w' (spec_run example_requests (mkMetaTables ∅ ∅, sqlite_view empty_tables)).2
    ∧ in_sync (spec_run example_requests (mkMetaTables ∅ ∅, sqlite_view empty_tables)).2)
    (example_wrapper []).
Proof.
  apply (storage_wrapper_refines_store example_requests (example_wrapper [])
           (mkMetaTables ∅ ∅, sqlite_view empty_tables) example_represents example_in_sync).
Defined.

(** C36: A wrapper that is not initialized yet synchronizes its metadata with
    its plugin: afterwards the metadata satisfies its foreign key and names
    exactly the plugin's managed collections and secrets; what was known about
    them is kept, what was not known is entered as imported, and rows of
    unmanaged names are left alone. *)
Theorem initialize_synchronizes {P} `{StoragePluginSpec P} cfg key t (w : Wrapper P) :
  settled t w → healthy w → ready (m_plugin w) → foreign_key t → m_initialized w = false →
  wp (sw_initialize cfg key) (λ b w', b = true ∧ m_initialized w' = true
    ∧ ∃ t', represents w' (t', store (m_plugin w)) ∧ synchronized cfg t (store (m_plugin w)) t') w.
Proof. apply sw_initialize_good. Qed.

Definition example_config : MetadataConfig := mkMetadataConfig "enc" "auth" "sqlite" false.

Lemma initialize_synchronizes_witness :
  wp (sw_initialize example_config "") (λ b w', b = true ∧ m_initialized w' = true
    ∧ ∃ t', represents w' (t', store (example_sqlite []))
        ∧ synchronized example_config (mkMetaTables ∅ ∅) (store (example_sqlite [])) t')
    (example_wrapper []).
Proof.
  apply (initialize_synchronizes example_config "" (mkMetaTables ∅ ∅) (example_wrapper [])).
  - apply example_settled.
  - apply example_meta_good.
  - exists empty_tables. split; [apply example_sqlite_idle|apply empty_tables_wf].
  - apply foreign_key_empty.
  - reflexivity.
Defined.

(** The same atomicity holds for the wrapper of an encrypted storage
    plugin, including the requests on standalone secrets and the guards on
    locked collections. *)
Theorem encrypted_wrapper_atomic {P} `{EncryptedStoragePlugin P} req t (w : Wrapper P) :
  settled t w →
  wp (run_encrypted req) (λ r w',
    if ok r then ∃ t', encrypted_sql req t = Some (t', tt)
                   ∧ (idle t' (m_metadataDb w') ∨ commit_failed t t' (m_metadataDb w'))
    else idle t (m_metadataDb w')
         ∨ (leaked t (m_metadataDb w') ∧ errorCode r = DatabaseTransactionError)) w.
Proof. apply run_encrypted_outcome. Qed.

Lemma encrypted_wrapper_atomic_witness :
  wp (run_encrypted (ERemoveCollection "vault")) (λ r w',
    if ok r then ∃ t', encrypted_sql (ERemoveCollection "vault") (mkMetaTables ∅ ∅) = Some (t', tt)
                   ∧ (idle t' (m_metadataDb w') ∨ commit_failed (mkMetaTables ∅ ∅) t' (m_metadataDb w'))
    else idle (mkMetaTables ∅ ∅) (m_metadataDb w')
         ∨ (leaked (mkMetaTables ∅ ∅) (m_metadataDb w') ∧ errorCode r = DatabaseTransactionError))
    (example_encrypted [None; None; Some (Fault StmtAborted "database is locked")]).
Proof. apply (encrypted_wrapper_atomic (ERemoveCollection "vault")). repeat split. Defined.

(** A new collection of an encrypted storage plugin is relocked at the end
    of its creation, unless its unlock semantic is to keep it unlocked: the last
    thing the plugin is told is to forget the key. *)
Theorem new_collection_is_relocked {P} `{EncryptedStoragePlugin P} md key t (w : Wrapper P) :
  settled t w →
  ¬ (cm_usesDeviceLockKey md = true ∧ cm_unlockSemantic md = DeviceLockKeepUnlocked) →
  ¬ (cm_usesDeviceLockKey md = false ∧ cm_unlockSemantic md = CustomLockKeepUnlocked) →
  wp (ew_createCollection md key) (λ r w', ok r = true →
    ∃ p, m_plugin w' = (ep_setEncryptionKey (cm_collectionName md) "" p).2) w.
Proof.
  intros Hs H1 H2. eapply ew_createCollection_relock; [done|]. unfold relock.
  destruct (cm_usesDeviceLockKey md); simpl; rewrite ?orb_false_r;
    apply negb_true_iff, bool_decide_eq_false; naive_solver.
Qed.

Definition safe : CollectionMetadata :=
  mkCollectionMetadata "safe" "app" true "enc" "auth" DeviceLockRelock OwnerOnlyMode.

Lemma new_collection_is_relocked_witness :
  wp (ew_createCollection safe "key") (λ r w', ok r = true →
    ∃ p, m_plugin w' = (ep_setEncryptionKey "safe" "" p).2) (example_encrypted []).
Proof.
  apply (new_collection_is_relocked safe "key" (mkMetaTables ∅ ∅) (example_encrypted []));
    [repeat split| |]; intros [? ?]; discriminate.
Defined.

(** While the plugin is locked, or while its metadata database is locked,
    every modifying request to either wrapper is refused with the error that
    says so, and nothing at all changes. *)
Theorem locked_plugin_refuses {P E} `{StoragePlugin P} `{EncryptedStoragePlugin E}
  req ereq (w : Wrapper P) (v : Wrapper E) :
  pb_isLocked (m_plugin w) = true ∨ m_open (m_metadataDb w) = false →
  pb_isLocked (m_plugin v) = true ∨ m_open (m_metadataDb v) = false →
  (∃ r, errorCode r = SecretsPluginIsLockedError ∧ ok r = false ∧ run_request req w = (r, w))
  ∧ (∃ r, errorCode r = SecretsPluginIsLockedError ∧ ok r = false ∧ run_encrypted ereq v = (r, v)).
Proof.
  intros Hw Hv. split.
  - destruct (unless_locked_refuses w Hw) as (r&?&?&Hk). exists r. split_and!; [done..|].
    destruct req; apply Hk.
  - destruct (unless_locked_refuses v Hv) as (r&?&?&Hk). exists r. split_and!; [done..|].
    destruct ereq; apply Hk.
Qed.

Lemma locked_plugin_refuses_witness :
  let w := mkWrapper (close (example_meta [])).2 false (example_sqlite []) in
  let v := mkWrapper (close (example_meta [])).2 false empty_cipher in
  (∃ r, errorCode r = SecretsPluginIsLockedError ∧ ok r = false
        ∧ run_request (RemoveCollection "vault") w = (r, w))
  ∧ (∃ r, errorCode r = SecretsPluginIsLockedError ∧ ok r = false
          ∧ run_encrypted (ERemoveCollection "vault") v = (r, v)).
Proof. apply locked_plugin_refuses; right; reflexivity. Defined.

(** * The master lock *)

(** After the metadata database was re-keyed and locked, only the new key
    unlocks it, and then all its rows are there again (with the notional
    standalone collection); any other key, the old one included, is refused and
    the database stays locked. *)
Theorem rekeyed_database_needs_new_key t old new key (db : MetaDb) :
  String.length old = 64%nat → String.length new = 64%nat →
  settled_at (DbFile t (Some old) currentSchemaVersion) None 0 old db →
  wp (rekey_lock_unlock old new key) (λ '(rekeyed, unlocked) db', rekeyed = true ∧
    if decide (key = new) then unlocked = true ∧ idle (with_standalone t) db' ∧ good db'
    else unlocked = false ∧ sealed t new db') db.
Proof. intros Ho Hn H. eapply rekey_lock_unlock_spec; [by right|done..]. Qed.

Lemma rekeyed_database_needs_new_key_witness :
  wp (rekey_lock_unlock key_a key_b key_a) (λ '(rekeyed, unlocked) db', rekeyed = true ∧
    if decide (key_a = key_b)
    then unlocked = true ∧ idle (with_standalone (mkMetaTables ∅ ∅)) db' ∧ good db'
    else unlocked = false ∧ sealed (mkMetaTables ∅ ∅) key_b db') (example_meta []).
Proof.
  apply (rekeyed_database_needs_new_key (mkMetaTables ∅ ∅) key_a key_b key_a (example_meta []));
    [reflexivity..|]. repeat split. constructor.
Defined.

(** A wrong master lock key never unlocks the metadata database, whatever
    the engine does, and leaves it locked and its file untouched. *)
Theorem wrong_master_key_is_refused t key key' (db : MetaDb) :
  sealed t key db → key' ≠ key →
  wp (unlock key') (λ r db', ok r = false ∧ sealed t key db') db.
Proof.
  intros Hs Hne. eapply wp_mono; [by apply unlock_wrong_key|]. intros r db' [Hr ?].
  split; [|done]. apply not_ok_spec. by rewrite Hr.
Qed.

Lemma wrong_master_key_is_refused_witness :
  wp (unlock key_b) (λ r db', ok r = false ∧ sealed (mkMetaTables ∅ ∅) key_a db')
    (close (example_meta [None; Some (Fault StmtAborted "busy")])).2.
Proof.
  apply (wrong_master_key_is_refused (mkMetaTables ∅ ∅) key_a key_b); [repeat split|discriminate].
Defined.

(** * Metadata *)

(** The metadata of a collection that was inserted is read back unchanged
    by [collectionMetadata], in the caller's record with the collection's name;
    before, it is reported missing and the record is not touched. *)
Theorem collection_metadata_roundtrip md t (db : MetaDb) md0 :
  idle t db → good db → collections t !! cm_collectionName md = None →
  cm_collectionName md0 = cm_collectionName md →
  wp (let* before := collectionMetadata (cm_collectionName md) md0 true in
      let* inserted := insertCollectionMetadata md in
      let* afterwards := collectionMetadata (cm_collectionName md) md0 false in
      ret (before.2, ok inserted, afterwards.2))
     (λ x _, x = ((md0, false), true, (md, true))) db.
Proof.
  intros Hi Hg Hnone Hname. apply wp_bind. eapply wp_mono; [by apply collectionMetadata_good|].
  intros [r [md1 ex1]] db1 (_&Hi1&Hg1&Hx1). rewrite Hnone in Hx1. injection Hx1 as -> ->.
  apply wp_bind. eapply wp_mono; [eapply db_update_idle; [done..|]; unfold sql_insert_collection; by rewrite Hnone|].
  intros r2 db2 (->&Hi2&Hg2). apply wp_bind. eapply wp_mono; [by apply collectionMetadata_good|].
  intros [r3 [md3 ex3]] db3 (_&_&_&Hx3). simpl in Hx3. rewrite lookup_insert_eq in Hx3.
  rewrite read_collection_values in Hx3 by done. apply wp_ret. simpl. by rewrite Hx3.
Qed.

Definition vault0 : CollectionMetadata := mkCollectionMetadata "vault" "" false "" "" 0 0.

Lemma collection_metadata_roundtrip_witness :
  wp (let* before := collectionMetadata "vault" vault0 true in
      let* inserted := insertCollectionMetadata vault_metadata in
      let* afterwards := collectionMetadata "vault" vault0 false in
      ret (before.2, ok inserted, afterwards.2))
     (λ x _, x = ((vault0, false), true, (vault_metadata, true))) (example_meta []).
Proof.
  apply (collection_metadata_roundtrip vault_metadata (mkMetaTables ∅ ∅) (example_meta []) vault0);
    [repeat split|apply example_meta_good|reflexivity..].
Defined.

(** The metadata of a secret that was inserted is read back by
    [secretMetadata], except its type and its crypto plugin, which keep what
    the caller's record holds. *)
Theorem secret_metadata_roundtrip md t (db : MetaDb) md0 :
  idle t db → good db → is_Some (collections t !! sm_collectionName md) →
  secrets t !! (sm_collectionName md, sm_secretName md) = None →
  sm_collectionName md0 = sm_collectionName md → sm_secretName md0 = sm_secretName md →
  wp (let* inserted := insertSecretMetadata md in
      let* afterwards := secretMetadata (sm_collectionName md) (sm_secretName md) md0 false in
      ret (ok inserted, afterwards.2))
     (λ x _, x = (true,
        (mkSecretMetadata (sm_collectionName md) (sm_secretName md) (sm_ownerApplicationId md)
           (sm_usesDeviceLockKey md) (sm_encryptionPluginName md) (sm_authenticationPluginName md)
           (sm_unlockSemantic md) (sm_accessControlMode md) (sm_secretType md0)
           (sm_cryptoPluginName md0), true))) db.
Proof.
  intros Hi Hg [row Hc] Hnone Hcn Hsn. apply wp_bind.
  eapply wp_mono; [eapply db_update_idle; [done..|]; unfold sql_insert_secret; by rewrite Hc, Hnone|].
  intros r2 db2 (->&Hi2&Hg2). apply wp_bind. eapply wp_mono; [by apply secretMetadata_good|].
  intros [r3 [md3 ex3]] db3 (_&_&_&Hx3). simpl in Hx3. rewrite lookup_insert_eq in Hx3.
  rewrite read_secret_values in Hx3 by done. apply wp_ret. simpl. by rewrite Hx3.
Qed.

Definition token0 : SecretMetadata := mkSecretMetadata "vault" "token" "" false "" "" 0 0 "t" "p".

Lemma secret_metadata_roundtrip_witness :
  wp (let* inserted := insertSecretMetadata token in
      let* afterwards := secretMetadata "vault" "token" token0 false in
      ret (ok inserted, afterwards.2))
     (λ x _, x = (true, (mkSecretMetadata "vault" "token" "app" true "enc" "auth"
                           DeviceLockKeepUnlocked OwnerOnlyMode "t" "p", true))) vault_meta.
Proof.
  apply (secret_metadata_roundtrip token vault_rows
           vault_meta token0); try reflexivity.
  - repeat split.
  - apply vault_meta_good.
  - eexists. reflexivity.
Defined.

(** * The SQLite storage plugin *)

(** The modifying operations of the plugin, and what they make of the tables. *)
Inductive sqlite_request :=
  | SqCreateCollection (collectionName : string)
  | SqRemoveCollection (collectionName : string)
  | SqSetSecret (collectionName secretName : string) (secret : bytes) (filterData : FilterData)
  | SqRemoveSecret (collectionName secretName : string).

Definition run_sqlite (req : sqlite_request) : M SqliteDb Result :=
  match req with
  | SqCreateCollection c => sqlite_createCollection c
  | SqRemoveCollection c => sqlite_removeCollection c
  | SqSetSecret c s x fd => sqlite_setSecret c s x fd
  | SqRemoveSecret c s => sqlite_removeSecret c s
  end.

Definition sqlite_tables (req : sqlite_request) (t : SqliteTables) : SqliteTables :=
  match req with
  | SqCreateCollection c => after (sql_insert_cname c) t
  | SqRemoveCollection c => after (sql_delete_cname c) t
  | SqSetSecret c s x fd => set_tables c s x fd t
  | SqRemoveSecret c s => after (sql_delete_blob c s) t
  end.

(** Every modifying operation of the SQLite plugin is one transaction,
    whatever the engine does: it succeeds and the tables are changed as the
    operation says, filter data included; or it fails and the tables are as
    before, unless its transaction could not be begun or ended, which its error
    code tells. *)
Theorem sqlite_operation_atomic req t (db : SqliteDb) :
  idle t db → sqlite_wf t →
  wp (run_sqlite req) (λ r db',
    if ok r then idle (sqlite_tables req t) db'
    else idle t db'
         ∨ (errorCode r = DatabaseTransactionError ∧ jammed t (sqlite_tables req t) db')) db.
Proof.
  intros Hi Hwf. assert (Idle False t db) as Hidle by (by split).
  eapply (wp_mono _ (λ r db', ended False t (sqlite_tables req t) r db')).
  - destruct req; simpl; (eapply wp_mono;
      [by first [apply createCollection_ended|apply removeCollection_ended
                |apply setSecret_ended|apply removeSecret_ended]|by intros ?? []]).
  - intros r db'. unfold ended. destruct (ok r); [by intros []|].
    intros [[? _]|(_&?&?)]; auto.
Qed.

Definition full : list (option fault) := [None; None; None; Some (Fault TxnRolledBack "disk full")].

Lemma sqlite_operation_atomic_witness :
  wp (run_sqlite (SqSetSecret "standalone" "pin" "1234" ∅)) (λ r db',
    if ok r then idle (sqlite_tables (SqSetSecret "standalone" "pin" "1234" ∅) empty_tables) db'
    else idle empty_tables db'
         ∨ (errorCode r = DatabaseTransactionError
            ∧ jammed empty_tables (sqlite_tables (SqSetSecret "standalone" "pin" "1234" ∅) empty_tables) db'))
    (example_sqlite full).
Proof.
  apply (sqlite_operation_atomic (SqSetSecret "standalone" "pin" "1234" ∅) empty_tables);
    [repeat split|apply empty_tables_wf].
Defined.

(** The abstract store a storage plugin promises. *)
Definition store_step (req : sqlite_request) (st : Store) : bool * Store :=
  match req with
  | SqCreateCollection c =>
      if decide (managed c ∧ c ∉ st_collections st) then (true, store_create c st) else (false, st)
  | SqRemoveCollection c => if decide (managed c) then (true, store_remove c st) else (false, st)
  | SqSetSecret c s x fd =>
      if decide (s ≠ "" ∧ has_collection c st) then (true, store_set c s x fd st) else (false, st)
  | SqRemoveSecret c s =>
      if decide (s ≠ "" ∧ c ≠ "") then (true, store_delete c s st) else (false, st)
  end.

Lemma run_sqlite_step req db :
  sqlite_ready db →
  wp (run_sqlite req) (λ r db', ok r = (store_step req (sqlite_store db)).1 ∧ sqlite_ready db'
    ∧ sqlite_store db' = (store_step req (sqlite_store db)).2) db.
Proof.
  intros Hr. destruct req as [c|c|c s x fd|c s]; simpl.
  - eapply wp_mono; [exact (createCollection_law (P := SqliteDb) db c Hr)|].
    intros r db' [? Hx]. simpl in Hx. destruct (decide _); by destruct Hx.
  - eapply wp_mono; [exact (removeCollection_law (P := SqliteDb) db c Hr)|].
    intros r db' [? Hx]. simpl in Hx. destruct (decide _); by destruct Hx.
  - eapply wp_mono; [exact (setSecret_law (P := SqliteDb) db c s x fd Hr)|].
    intros r db' [? Hx]. simpl in Hx. destruct (decide _); by destruct Hx.
  - eapply wp_mono; [exact (removeSecret_law (P := SqliteDb) db c s Hr)|].
    intros r db' [? Hx]. simpl in Hx. destruct (decide _); by destruct Hx.
Qed.

(** Run requests, and read one secret at the end. *)
Fixpoint sqlite_session (reqs : list sqlite_request) (c s : string)
  : M SqliteDb (list bool * option (bytes * FilterData)) :=
  match reqs with
  | [] => let* '(_, x) := sqlite_getSecret c s in ret ([], x)
  | req :: reqs' =>
      let* r := run_sqlite req in
      let* '(bs, x) := sqlite_session reqs' c s in ret (ok r :: bs, x)
  end.

Fixpoint store_session (reqs : list sqlite_request) (c s : string) (st : Store)
  : list bool * option (bytes * FilterData) :=
  match reqs with
  | [] => ([], if decide (s = "") then None else st_secrets st !! (c, s))
  | req :: reqs' =>
      let '(b, st') := store_step req st in
      let '(bs, x) := store_session reqs' c s st' in (b :: bs, x)
  end.

(** C5: The SQLite plugin implements the abstract store: for any sequence of
    operations in a good environment, each succeeds or fails as the store does,
    and a secret read at the end is the one stored last under its names, with
    its filter data, or none. *)
Theorem sqlite_plugin_refines_store reqs c s (db : SqliteDb) :
  sqlite_ready db →
  wp (sqlite_session reqs c s) (λ x db', sqlite_ready db'
    ∧ x = store_session reqs c s (sqlite_store db)) db.
Proof.
  revert db. induction reqs as [|req reqs IH]; intros db Hr; simpl.
  - apply wp_bind. eapply wp_mono; [exact (getSecret_law (P := SqliteDb) db c s Hr)|].
    intros [r x] db' (?&_&Hx). apply wp_ret. split; [done|]. simpl in Hx.
    destruct (decide (s = "")) as [->|Hs].
    + rewrite decide_False in Hx by tauto. by destruct Hx as [_ ->].
    + rewrite decide_True in Hx by done. destruct Hx as [(_&->&_)|(_&->&->)]; done.
  - apply wp_bind. eapply wp_mono; [by apply run_sqlite_step|]. intros r db1 (Hok&Hr1&Hst).
    apply wp_bind. eapply wp_mono; [by apply IH|]. intros [bs x] db2 [? Hx]. apply wp_ret.
    split; [done|]. rewrite Hst in Hx. destruct (store_step req (sqlite_store db)) as [b st]. simpl in *.
    destruct (store_session reqs c s st). congruence.
Qed.

Lemma example_sqlite_ready : sqlite_ready (example_sqlite []).
Proof. exists empty_tables. split; [apply example_sqlite_idle|apply empty_tables_wf]. Qed.

Lemma sqlite_plugin_refines_store_witness :
  wp (sqlite_session [SqCreateCollection "vault"; SqSetSecret "vault" "token" "one" ∅;
                      SqSetSecret "vault" "token" "two" {["kind" := "totp"]};
                      SqSetSecret "nowhere" "token" "x" ∅] "vault" "token")
     (λ x db', sqlite_ready db' ∧ x = ([true; true; true; false], Some ("two", {["kind" := "totp"]})))
     (example_sqlite []).
Proof.
  apply (sqlite_plugin_refines_store
           [SqCreateCollection "vault"; SqSetSecret "vault" "token" "one" ∅;
            SqSetSecret "vault" "token" "two" {["kind" := "totp"]};
            SqSetSecret "nowhere" "token" "x" ∅] "vault" "token" (example_sqlite [])).
  apply example_sqlite_ready.
Defined.

(** C37: In a good environment, [findSecrets] with a non-empty filter returns
    each secret of the collection whose filter data match it, once, and no
    other, and stores nothing: with OperatorOr one field of the filter has to
    match, with OperatorAnd all of them, names and values compared without
    regard to case.  This holds for stores in which the filter data of no secret
    have two fields that differ only in case ([ci_distinct]). *)
Theorem findSecrets_correct c flt op (db : SqliteDb) :
  sqlite_ready db → c ≠ "" → flt ≠ ∅ →
  (∀ s x fd, st_secrets (sqlite_store db) !! (c, s) = Some (x, fd) → ci_distinct fd) →
  wp (sqlite_findSecrets c flt op) (λ '(r, names) db', ok r = true ∧ NoDup names
    ∧ sqlite_ready db' ∧ sqlite_store db' = sqlite_store db
    ∧ ∀ s, s ∈ names ↔ ∃ x fd, st_secrets (sqlite_store db) !! (c, s) = Some (x, fd)
                               ∧ filter_spec op flt fd) db.
Proof.
  intros (t&Hi&Hwf) Hc Hflt Hci. rewrite (Idle_store _ _ _ Hi) in *.
  eapply wp_mono; [by apply findSecrets_good|]. intros [r names] db' [Hi' Hx].
  rewrite decide_True in Hx by done. destruct Hx as (?&?&Hn).
  split_and!; [done..|by exists t|by eapply Idle_store|]. intros s. rewrite Hn.
  split; intros (x&fd&Hs&Hm); exists x, fd; (split; [done|]);
    by apply (filter_matches_spec op flt fd (Hci _ _ _ Hs)).
Qed.

(** A database with secrets in a collection and outside of it *)
Definition filled_tables : SqliteTables :=
  mkSqliteTables {["standalone"; "vault"]}
    (list_to_map [(("vault", "token"), "k1one"); (("vault", "note"), "k1two"); (("standalone", "pin"), "0000")])
    (list_to_map [(("vault", "token", "Kind"), "totp"); (("vault", "note", "kind"), "text")]).
Definition filled_sqlite : SqliteDb :=
  mkDatabase true "" (Some (DbFile filled_tables (Some "") 1)) None "C" [] 0 [].

Lemma filled_tables_wf : sqlite_wf filled_tables.
Proof.
  split; simpl.
  - set_solver.
  - intros c [->%elem_of_singleton| ->%elem_of_singleton]%elem_of_union; [by left|]. right. by vm_compute.
  - intros c s Hs. apply lookup_insert_is_Some in Hs as [[= <- _]|[_ Hs]]; [set_solver|].
    apply lookup_insert_is_Some in Hs as [[= <- _]|[_ Hs]]; [set_solver|].
    apply lookup_insert_is_Some in Hs as [[= <- _]|[_ [? Hs]]]; [set_solver|]. by rewrite lookup_empty in Hs.
  - intros c s f Hs. apply lookup_insert_is_Some in Hs as [[= <- <- _]|[_ Hs]]; [by eexists|].
    apply lookup_insert_is_Some in Hs as [[= <- <- _]|[_ [? Hs]]]; [by eexists|]. by rewrite lookup_empty in Hs.
Qed.

Lemma filled_idle : Idle True filled_tables filled_sqlite.
Proof.
  split; [repeat split|]. intros _. split; [constructor|]. split; [reflexivity|].
  intros fl [[= <-]|?]; [|done]. reflexivity.
Qed.

(** No secret of it has two fields. *)
Lemma filled_distinct s x fd :
  st_secrets (sqlite_view filled_tables) !! ("vault", s) = Some (x, fd) → ci_distinct fd.
Proof.
  replace (st_secrets (sqlite_view filled_tables))
    with (list_to_map [(("vault", "token"), ("k1one", {["Kind" := "totp"]}));
                       (("vault", "note"), ("k1two", {["kind" := "text"]}));
                       (("standalone", "pin"), ("0000", ∅))] : gmap (string * string) (bytes * FilterData))
    by (vm_compute; reflexivity).
  rewrite !list_to_map_cons. intros [[_ [= _ <-]]|[_ Hs]]%lookup_insert_Some.
  { by intros k1 k2 <-%lookup_singleton_is_Some <-%lookup_singleton_is_Some. }
  apply lookup_insert_Some in Hs as [[_ [= _ <-]]|[_ Hs]].
  { by intros k1 k2 <-%lookup_singleton_is_Some <-%lookup_singleton_is_Some. }
  by apply lookup_insert_Some in Hs as [[[=] _]|[_ Hs]].
Qed.

Lemma findSecrets_correct_witness :
  let found := sqlite_findSecrets "vault" {["kind" := "TOTP"]} OperatorAnd filled_sqlite in
  found.1.2 = ["token"]
  ∧ ∀ s, s ∈ found.1.2 ↔ ∃ x fd, st_secrets (sqlite_store filled_sqlite) !! ("vault", s) = Some (x, fd)
                                 ∧ filter_spec OperatorAnd {["kind" := "TOTP"]} fd.
Proof.
  intros found. split; [vm_compute; reflexivity|].
  pose proof (findSecrets_correct "vault" {["kind" := "TOTP"]} OperatorAnd filled_sqlite) as Hw.
  unfold wp in Hw. fold found in Hw. destruct found as [[r names] db'].
  apply Hw; clear Hw.
  - exists filled_tables. split; [apply filled_idle|apply filled_tables_wf].
  - discriminate.
  - discriminate.
  - intros s x fd Hs. rewrite (Idle_store _ _ _ filled_idle) in Hs.
    exact (filled_distinct s x fd Hs).
Defined.

(** C38: Re-encrypting, whatever the engine and the encryption plugin do, has one of
    three outcomes: it succeeds, and exactly the selected secrets (those of a
    collection, or one standalone secret) were decrypted with the old key and
    encrypted with the new one; or it fails, and no secret is changed; or it fails
    with DatabaseTransactionError because its transaction could not be begun or
    ended, and the transaction is left open, with what was changed in it.  In a good
    environment it succeeds exactly when a name is given and every selected secret
    can be decrypted and encrypted. *)
Theorem reencrypt_correct plugin oldkey newkey c s t (db : SqliteDb) :
  idle t db →
  wp (sqlite_reencrypt c s oldkey newkey plugin) (λ r db',
    (if ok r then ∃ t', idle t' db'
                    ∧ reencrypted plugin oldkey newkey (reencrypt_condition c s) t t'
     else idle t db' ∨ (errorCode r = DatabaseTransactionError ∧ ∃ t', jammed t t' db'))
    ∧ (good db → ok r = true ↔ reencryptable plugin oldkey newkey c s t)) db.
Proof.
  intros Hi. assert (Idle (good db) t db) as Hidle by (by split).
  eapply wp_mono; [by apply (reencrypt_ended plugin oldkey newkey (good db))|].
  intros r db' [(t'&He&Hre) HG]. split; [|done]. unfold ended in He. destruct (ok r).
  - exists t'. split; [apply He|auto].
  - destruct He as [[? _]|(_&?&?)]; eauto.
Qed.

Lemma reencrypt_correct_witness :
  let done := sqlite_reencrypt "vault" "" "k1" "k2" prefix_encryption filled_sqlite in
  ok done.1 = true
  ∧ (map_to_list ∘ sq_secrets <$> content done.2)
    = Some (map_to_list (list_to_map [(("vault", "token"), "k2one"); (("vault", "note"), "k2two");
                                      (("standalone", "pin"), "0000")] : gmap (string * string) bytes))
  ∧ ∃ t', idle t' done.2
      ∧ reencrypted prefix_encryption "k1" "k2" (reencrypt_condition "vault" "") filled_tables t'.
Proof.
  intros done. assert (ok done.1 = true) as Hok by (vm_compute; reflexivity).
  split; [exact Hok|]. split; [vm_compute; reflexivity|].
  pose proof (reencrypt_correct prefix_encryption "k1" "k2" "vault" "" filled_tables filled_sqlite
    ltac:(repeat split)) as Hw.
  unfold wp in Hw. destruct Hw as [Hw _]. fold done in Hw. rewrite Hok in Hw. exact Hw.
Defined.

(** The first use of the plugin makes it ready: without a database file it
    stores nothing, with one it stores what the file holds, and the notional
    standalone collection is there but is never reported. *)
Theorem sqlite_first_use o (db : SqliteDb) :
  closed_on o db → match o with Some t => sqlite_wf t | None => True end →
  wp openDatabaseIfNecessary (λ _ db', sqlite_ready db'
    ∧ sqlite_store db' = match o with Some t => sqlite_view t | None => mkStore ∅ ∅ end) db.
Proof. apply openDatabaseIfNecessary_good. Qed.

Lemma sqlite_first_use_witness :
  wp openDatabaseIfNecessary (λ _ db', sqlite_ready db' ∧ sqlite_store db' = mkStore ∅ ∅)
    (mkDatabase false "" None None "C" [] 0 []).
Proof.
  apply (sqlite_first_use None); [|exact I]. split_and!; [reflexivity..|constructor|reflexivity].
Defined.

(** * What a failed begin leads to *)

(** A plugin that refuses to create collections. *)
Definition reserved : CollectionMetadata :=
  mkCollectionMetadata "Standalone" "app" true "enc" "auth" DeviceLockKeepUnlocked OwnerOnlyMode.

(** After one transaction of the metadata database could not be begun,
    atomicity is lost: the next request that the plugin refuses fails and
    leaves its metadata behind, so that metadata and plugin disagree. *)
Theorem atomicity_lost_after_failed_begin :
  let w0 := example_wrapper [None; None; None; None; Some (Fault StmtAborted "database is locked")] in
  let '(r1, w1) := sw_createCollection vault_metadata w0 in
  let '(r2, w2) := sw_createCollection reserved w1 in
  ok r1 = false ∧ ok r2 = false
  ∧ (collections <$> content (m_metadataDb w2)) = Some {["Standalone" := collection_values reserved]}
  ∧ sqlite_store (m_plugin w2) = sqlite_store (m_plugin w0).
Proof. vm_compute. split_and!; reflexivity. Qed.
