(* ===== verification/VaultProps.v ===== *)
(** The properties of the SQLCipher plugin and of the compound plugin
    operations. *)
From S2P Require Import Prelude Result Sqlite Transactions MetadataDb PluginApi.
From S2P Require Import MetadataLock MetadataSync PluginWrapper WrapperSpec SqlitePlugin SqlitePluginSpec.
From S2P Require Import SqlCipherPlugin CipherSpec PluginFunctionWrappers FunctionSpec VaultSpec.
From S2P Require Import StorageFunctionSpec CipherSafety Examples.

(** * A session with an encrypted storage plugin *)
Inductive vault_request :=
  | VCollectionNames
  | VCreateCollection (c : string) (key : bytes)
  | VRemoveCollection (c : string)
  | VIsCollectionLocked (c : string)
  | VSetEncryptionKey (c : string) (key : bytes)
  | VReencrypt (c : string) (oldkey newkey : bytes)
  | VSetSecret (c s : string) (x : bytes) (fd : FilterData)
  | VRemoveSecret (c s : string)
  | VGetSecret (c s : string)
  | VSecretNames (c : string).

(** What the caller sees of the outcome; [None] is a failure. *)
Inductive vault_answer :=
  | Done (success : bool)
  | LockState (locked : option bool)
  | Data (secret : option (bytes * FilterData))
  | Names (names : option (gset string)).

Section session.
  Context {P : Type} `{EncryptedStoragePluginSpec P}.

Definition run_vault (req : vault_request) : M P vault_answer :=
  match req with
  | VCollectionNames => let* '(r, names) := ep_collectionNames in
      ret (Names (if ok r then Some (list_to_set names) else None))
  | VCreateCollection c k => let* r := ep_createCollection c k in ret (Done (ok r))
  | VRemoveCollection c => let* r := ep_removeCollection c in ret (Done (ok r))
  | VIsCollectionLocked c => let* '(r, locked) := ep_isCollectionLocked c false in
      ret (LockState (if ok r then Some locked else None))
  | VSetEncryptionKey c k => let* r := ep_setEncryptionKey c k in ret (Done (ok r))
  | VReencrypt c k k' => let* r := ep_reencrypt c k k' in ret (Done (ok r))
  | VSetSecret c s x fd => let* r := ep_setSecret c s x fd in ret (Done (ok r))
  | VRemoveSecret c s => let* r := ep_removeSecret c s in ret (Done (ok r))
  | VGetSecret c s => let* '(r, x) := ep_getSecret c s in ret (Data (if ok r then x else None))
  | VSecretNames c => let* '(r, names) := ep_secretNames c in
      ret (Names (if ok r then Some (list_to_set names) else None))
  end.

(** The abstract vault's answer, and what becomes of it. *)
Definition vault_step (req : vault_request) (V : Vault) : vault_answer * Vault :=
  match req with
  | VCollectionNames => (Names (Some (filter listed (dom V))), V)
  | VCreateCollection c k =>
      if decide (storable c ∧ V !! c = None) then (Done true, vault_create key_of c k V)
      else (Done false, V)
  | VRemoveCollection c => (Done true, delete c V)
  | VIsCollectionLocked c => (LockState (negb ∘ ve_unlocked <$> V !! c), V)
  | VSetEncryptionKey c k => (Done (vault_key_ok key_of c k V), vault_key key_of c k V)
  | VReencrypt c k k' => (Done (vault_rekey_ok key_of c k V), vault_rekey key_of c k k' V)
  | VSetSecret c s x fd =>
      if decide (s ≠ "" ∧ c ≠ "" ∧ is_Some (unlocked_entry c V)) then (Done true, vault_set c s x fd V)
      else (Done false, V)
  | VRemoveSecret c s =>
      if decide (s ≠ "" ∧ c ≠ "" ∧ is_Some (unlocked_entry c V)) then (Done true, vault_delete c s V)
      else (Done false, V)
  | VGetSecret c s =>
      (Data (if decide (s ≠ "" ∧ c ≠ "") then e ← unlocked_entry c V; ve_secrets e !! s else None), V)
  | VSecretNames c =>
      (Names (e ← (if isEmpty c then None else unlocked_entry c V); Some (dom (ve_secrets e))), V)
  end.

Fixpoint run_vaults (reqs : list vault_request) : M P (list vault_answer) :=
  match reqs with
  | [] => ret []
  | req :: reqs' => let* a := run_vault req in let* l := run_vaults reqs' in ret (a :: l)
  end.

Fixpoint vault_steps (reqs : list vault_request) (V : Vault) : list vault_answer * Vault :=
  match reqs with
  | [] => ([], V)
  | req :: reqs' =>
      let '(a, V1) := vault_step req V in
      let '(l, V2) := vault_steps reqs' V1 in (a :: l, V2)
  end.

Lemma run_vault_step req V p :
  holds V p → wp (run_vault req) (λ a p', a = (vault_step req V).1 ∧ holds (vault_step req V).2 p') p.
Proof.
  intros [Hr <-]. destruct req as [|c k|c|c|c k|c k k'|c s x fd|c s|c s|c]; simpl; apply wp_bind.
  - eapply wp_mono; [by apply vcollectionNames_law|]. intros [r names] p' (->&?&?&_&Hn). apply wp_ret.
    split; [|by split]. do 2 f_equal. apply set_eq. intros c.
    by rewrite elem_of_list_to_set, elem_of_filter, elem_of_dom.
  - eapply wp_mono; [by apply vcreateCollection_law|]. intros r p' [? Hx]. apply wp_ret.
    unfold holds. destruct (decide _); destruct Hx as [-> ->]; done.
  - eapply wp_mono; [by apply vremoveCollection_law|]. intros r p' (?&->&?). by apply wp_ret.
  - eapply wp_mono; [by apply visCollectionLocked_law|]. intros [r l] p' (?&?&Hx). apply wp_ret.
    split; [|by split]. destruct (vault p !! c); destruct Hx as [-> ->]; done.
  - eapply wp_mono; [by apply vsetEncryptionKey_law|]. intros r p' (?&?&->). by apply wp_ret.
  - eapply wp_mono; [by apply vreencrypt_law|]. intros r p' (?&?&->). by apply wp_ret.
  - eapply wp_mono; [by apply vsetSecret_law|]. intros r p' [? Hx]. apply wp_ret.
    unfold holds. destruct (decide _); destruct Hx as [-> ->]; done.
  - eapply wp_mono; [by apply vremoveSecret_law|]. intros r p' [? Hx]. apply wp_ret.
    unfold holds. destruct (decide _); destruct Hx as [-> ->]; done.
  - eapply wp_mono; [by apply vgetSecret_law|]. intros [r x] p' (?&?&Hx&->). apply wp_ret.
    split; [|by split]. rewrite <-Hx. by destruct x.
  - eapply wp_mono; [by apply vsecretNames_law|]. intros [r names] p' (?&?&Hx). apply wp_ret.
    split; [|by split]. destruct (if isEmpty c then None else _) as [e|]; simpl; [|by destruct Hx as [-> _]].
    destruct Hx as (->&_&Hn). do 2 f_equal. apply set_eq. intros s.
    by rewrite elem_of_list_to_set, elem_of_dom.
Qed.

Lemma run_vault_steps reqs V p :
  holds V p → wp (run_vaults reqs) (λ l p', l = (vault_steps reqs V).1 ∧ holds (vault_steps reqs V).2 p') p.
Proof.
  revert V p. induction reqs as [|req reqs IH]; intros V p Hp; simpl; [done|].
  apply wp_bind. eapply wp_mono; [by apply run_vault_step|]. intros a p1 [-> Hp1].
  destruct (vault_step req V) as [a V1]. apply wp_bind. eapply wp_mono; [by apply IH|].
  intros l p2 [-> Hp2]. apply wp_ret. simpl in *. by destruct (vault_steps reqs V1).
Qed.
End session.

(** C6: The SQLCipher plugin implements the abstract vault: for any sequence of
    requests in a good environment, every answer, down to the secrets read and
    the names listed, is the vault's, in which a collection has a key, is
    locked or unlocked, and gives and takes secrets only while it is
    unlocked. *)
Theorem sqlcipher_plugin_refines_vault `{CipherEnvSpec} reqs (p : SqlCipher) :
  cipher_ready p →
  wp (run_vaults reqs) (λ answers p', answers = (vault_steps reqs (cipher_vault p)).1
    ∧ cipher_ready p' ∧ cipher_vault p' = (vault_steps reqs (cipher_vault p)).2) p.
Proof. intros Hr. exact (run_vault_steps (P := SqlCipher) reqs (cipher_vault p) p (conj Hr eq_refl)). Qed.

Definition vault_session : list vault_request :=
  [VCreateCollection "safe" "k1"; VSetSecret "safe" "pin" "1234" {["kind" := "pin"]};
   VSetEncryptionKey "safe" ""; VGetSecret "safe" "pin"; VSetEncryptionKey "safe" "k2";
   VIsCollectionLocked "safe"; VReencrypt "safe" "k1" "k2"; VGetSecret "safe" "pin";
   VSetEncryptionKey "safe" "k1"; VSetEncryptionKey "safe" "k2"; VSecretNames "safe"].

Lemma sqlcipher_plugin_refines_vault_witness :
  wp (run_vaults vault_session) (λ answers p',
    answers = [Done true; Done true; Done true; Data None; Done false; LockState (Some true); Done true;
               Data (Some ("1234", {["kind" := "pin"]})); Done false; Done true; Names (Some {["pin"]})]
    ∧ cipher_ready p' ∧ cipher_vault p' = (vault_steps vault_session ∅).2) empty_cipher.
Proof.
  apply (wp_mono _ _ _ _ (sqlcipher_plugin_refines_vault vault_session empty_cipher empty_cipher_ready)).
  intros answers p' (->&?&?). split; [|done]. vm_compute. reflexivity.
Defined.

(** * Locked collections *)

(** C7: Whatever the engine does, a locked collection of the SQLCipher plugin
    gives nothing away and is not changed by any sequence of requests that
    neither presents its key nor removes it: every request for its secrets is
    refused without data, and afterwards it is still locked and its file is
    still the same. *)
Theorem locked_collection_is_sealed `{CipherEnv} c key t v reqs (p : SqlCipher) :
  sealed_file c (DbFile t (Some key) v) p → Forall (λ req, ¬ opens c key req) reqs →
  wp (run_ciphers reqs) (λ answers p', sealed_file c (DbFile t (Some key) v) p'
    ∧ Forall2 (λ req a, asks c req → refused a) reqs answers) p.
Proof. intros Hp Hreqs. by apply sealed_requests. Qed.

Definition attack : list cipher_request :=
  [CSetEncryptionKey "vault" "guess"; CGetSecret "vault" "pin"; CSetSecret "vault" "pin" "0000" ∅;
   CCreateCollection "vault" "mine"; CReencrypt "vault" "guess" "mine"; CSetEncryptionKey "vault" "";
   CSecretNames "vault"; CFindSecrets "vault" {["kind" := "pin"]} OperatorAnd].

Lemma locked_collection_is_sealed_witness :
  let p := locked_cipher [None; Some (Fault StmtAborted "disk I/O error")] in
  wp (run_ciphers attack) (λ answers p', sealed_file "vault" (DbFile safe_tables (Some (hexKey "k1")) 1) p'
    ∧ Forall2 (λ req a, asks "vault" req → refused a) attack answers) p.
Proof.
  apply (locked_collection_is_sealed "vault" (hexKey "k1") safe_tables 1 attack); [by split|].
  repeat constructor; simpl; try tauto; intros (_&_&Hk); vm_compute in Hk; discriminate.
Defined.

(** C8: A collection of the SQLCipher plugin that was locked, and was unlocked
    only to store, read, remove or find secrets, is locked again afterwards
    unless its unlock semantic keeps it unlocked: on every path, with a right
    and with a wrong key, whatever the engine does to the plugin's files, as
    long as the metadata database is unlocked and works. *)
Theorem relocked_after_use `{CipherEnv} cfg u key (w : Wrapper SqlCipher) :
  meta_ok w → reported_locked (use_collection u) (m_plugin w) = true → use_relocks u = true →
  wp (run_use cfg u key) (λ _ w', meta_ok w' ∧ opened (use_collection u) (m_plugin w') = false) w.
Proof. intros Hw Hl Hr. exact (run_use_shuts cfg u key w Hw Hl Hr). Qed.

Definition relocking : CollectionMetadata :=
  mkCollectionMetadata "vault" "app" true "enc" "auth" DeviceLockRelock OwnerOnlyMode.

Definition vault_config : MetadataConfig := mkMetadataConfig "enc" "auth" "sqlcipher" true.

Lemma relocked_after_use_witness :
  wp (run_use vault_config (ReadSecret relocking (mkIdentifier "pin" "vault" "sqlcipher")) "k1")
    (λ _ w', meta_ok w' ∧ opened "vault" (m_plugin w') = false)
    (locked_wrapper [None; None; None; None; None; None; Some (Fault TxnRolledBack "disk full")]).
Proof.
  apply (relocked_after_use vault_config (ReadSecret relocking (mkIdentifier "pin" "vault" "sqlcipher")) "k1").
  - split; [apply vault_meta_good|]. exists vault_rows. repeat split.
  - vm_compute. reflexivity.
  - reflexivity.
Defined.

(** * Reading a secret of a collection that may be locked *)

(** In a good environment, [unlockCollectionAndReadSecret] returns the
    secret exactly if the collection exists, is unlocked or is unlocked by the
    key, and holds the secret; what the plugin stores does not change, and the
    collection is left unlocked only if it was before or if its unlock semantic
    says so. *)
Theorem unlock_and_read_correct cfg {P} `{EncryptedStoragePluginSpec P} md id key V (w : Wrapper P) :
  meta_ok w → holds V (m_plugin w) →
  wp (unlockCollectionAndReadSecret cfg md id key) (λ '(r, secret) w',
    meta_ok w'
    ∧ holds (left_vault (ident_collectionName id) key (cm_usesDeviceLockKey md)
               (cm_unlockSemantic md) V) (m_plugin w')
    ∧ match accessible (ident_collectionName id) key V with
      | None => ok r = false ∧ secret = noSecret
      | Some e =>
          match (if decide (ident_name id ≠ "" ∧ ident_collectionName id ≠ "")
                 then ve_secrets e !! ident_name id else None) with
          | Some (x, fd) => ok r = true ∧ secret = mkSecret id x fd
          | None => ok r = false ∧ secret = mkSecret id "" ∅
          end
      end) w.
Proof.
  intros Hm Hp. eapply wp_mono; [by apply (read_secret_vault cfg md id key V w (conj Hm Hp))|].
  intros [r secret] w' [[??] ?]. by split_and!.
Qed.

Lemma unlock_and_read_correct_witness :
  wp (unlockCollectionAndReadSecret vault_config relocking (mkIdentifier "pin" "vault" "sqlcipher") "k1")
    (λ '(r, secret) w', ok r = true
      ∧ secret = mkSecret (mkIdentifier "pin" "vault" "sqlcipher") "1234" {["kind" := "pin"]}
      ∧ cipher_vault (m_plugin w') = cipher_vault (locked_cipher [])) (locked_wrapper []).
Proof.
  eapply wp_mono.
  - apply (unlock_and_read_correct vault_config relocking (mkIdentifier "pin" "vault" "sqlcipher") "k1"
             (cipher_vault (locked_cipher [])) (locked_wrapper [])).
    + split; [apply vault_meta_good|]. exists vault_rows. repeat split.
    + split; [apply locked_cipher_ready|reflexivity].
  - intros [r secret] w' (_&[_ HV]&Hx). vm_compute in Hx. destruct Hx as [Hr ->].
    split_and!; [exact Hr|vm_compute; reflexivity|]. exact HV.
Defined.

(** * Storing and reading with an encryption plugin *)

(** A secret that the daemon encrypts and stores in a collection of a
    storage plugin is read back and decrypted unchanged with the same key,
    filter data included, whatever the encryption plugin does as long as it
    decrypts what it encrypted. *)
Theorem store_then_read {P} `{StoragePluginSpec P} enc md secret key ts (w : Wrapper P) :
  decrypts enc → represents w ts →
  sm_collectionName md = ident_collectionName (secret_identifier secret) →
  sm_secretName md = ident_name (secret_identifier secret) →
  ok (encryptSecret enc (secret_data secret) key).1 = true →
  spec_ok (SetSecret md "" ∅) ts.1 ts.2 = true →
  wp (store_and_read enc md secret key) (λ x _, x = (true, (true, secret))) w.
Proof. intros. by eapply store_and_read_spec. Qed.

Lemma prefix_decrypts : decrypts prefix_encryption.
Proof.
  intros x k y r [= <- <-] _. simpl. rewrite prefix_append, substring_append. by eexists.
Qed.

Definition example_secret : Secret :=
  mkSecret (mkIdentifier "token" "vault" "sqlite") "s3cret" {["kind" := "totp"]}.

Lemma store_then_read_witness :
  wp (store_and_read prefix_encryption token example_secret "k1")
    (λ x _, x = (true, (true, example_secret))) vault_wrapper.
Proof.
  apply (store_then_read prefix_encryption token example_secret "k1"
           (vault_rows, sqlite_view vault_tables) vault_wrapper);
    [apply prefix_decrypts|apply vault_represents|reflexivity..|vm_compute; reflexivity].
Defined.

(** * Changing the device lock key *)

(** In a good environment, [unlockDeviceLockedCollectionsAndReencrypt]
    changes the key of exactly the collections that use the device lock key, as
    their metadata says, and whose key is the old one; their secrets stay the
    same and the other collections are untouched.  It reports success exactly if
    no collection was left behind. *)
Theorem device_lock_change_rekeys cfg {P} `{EncryptedStoragePluginSpec P} old new t V (w : Wrapper P) :
  at_tables t V w → metadata_complete t V →
  wp (unlockDeviceLockedCollectionsAndReencrypt cfg old new) (λ r w', ∃ V',
    meta_ok w' ∧ holds V' (m_plugin w')
    ∧ (∀ c, V' !! c = if decide (listed c ∧ device_locked t c = true)
                      then rekeyed old new <$> V !! c else V !! c)
    ∧ (ok r = true ↔ ∀ c e, listed c → device_locked t c = true → V !! c = Some e →
                            fits key_of old e = true)) w.
Proof.
  intros Hw Hc. eapply wp_mono; [by apply (device_lock_change_vault cfg t)|].
  intros r w' (V'&[??]&?&?). exists V'. by split_and!.
Qed.

Lemma locked_cipher_vault : cipher_vault (locked_cipher []) =
  {["vault" := mkEntry (hexKey "k1") false {["pin" := ("1234", {["kind" := "pin"]})]}]}.
Proof. vm_compute. reflexivity. Qed.

Lemma device_lock_change_rekeys_witness :
  wp (unlockDeviceLockedCollectionsAndReencrypt vault_config "k1" "k2") (λ r w',
    ok r = true
    ∧ cipher_vault (m_plugin w') !! "vault"
      = Some (mkEntry (hexKey "k2") true {["pin" := ("1234", {["kind" := "pin"]})]})) (locked_wrapper []).
Proof.
  eapply wp_mono.
  - apply (device_lock_change_rekeys vault_config "k1" "k2" vault_rows
             {["vault" := mkEntry (hexKey "k1") false {["pin" := ("1234", {["kind" := "pin"]})]}]}
             (locked_wrapper [])).
    + split; [repeat split|]. split; [apply vault_meta_good|].
      split; [apply locked_cipher_ready|apply locked_cipher_vault].
    + intros c _ [e He]. apply lookup_singleton_Some in He as [<- _].
      exists (collection_values vault_metadata). reflexivity.
  - intros r w' (V'&_&[_ HV]&Hc&Hok). split.
    + apply Hok. intros c e _ _ He. apply lookup_singleton_Some in He as [_ <-]. vm_compute. reflexivity.
    + change (vault (m_plugin w') !! "vault" = Some (mkEntry (hexKey "k2") true {["pin" := ("1234", {["kind" := "pin"]})]})).
      rewrite HV, Hc. vm_compute. reflexivity.
Defined.

(** [reencryptDeviceLockedCollectionsAndSecrets], which runs when the lock
    code changes, never re-encrypts a standalone secret of the SQLite plugin,
    whatever its metadata says and whatever the result is: it looks for the
    standalone secrets under the empty collection name, but they are stored
    under the name [standalone]. *)
Theorem device_lock_change_skips_standalone encs old new (w : Wrapper SqliteDb) :
  sqlite_ready (m_plugin w) →
  wp (reencryptDeviceLockedCollectionsAndSecrets encs old new) (λ _ w', sqlite_ready (m_plugin w')
    ∧ ∀ s, fst <$> st_secrets (sqlite_store (m_plugin w')) !! ("standalone", s)
           = fst <$> st_secrets (sqlite_store (m_plugin w)) !! ("standalone", s)) w.
Proof.
  intros (t0&Hi&Hwf). eapply wp_mono; [apply (device_lock_change_keeps_standalone encs old new t0)|].
  - by exists t0.
  - intros _ w' (t&Hi'&Hwf'&Hs). split; [by exists t|]. intros s.
    rewrite (Idle_store _ _ _ Hi), (Idle_store _ _ _ Hi'), !lookup_view, Hs.
    by destruct (sq_secrets t0 !! ("standalone", s)).
Qed.

(** A standalone secret that uses the device lock key. *)
Definition pin_metadata : SecretMetadata :=
  mkSecretMetadata "standalone" "pin" "app" true "enc" "auth" DeviceLockKeepUnlocked OwnerOnlyMode "" "".

Definition pin_tables : SqliteTables := mkSqliteTables {["standalone"]} {[("standalone", "pin") := "k11234"]} ∅.

Definition pin_wrapper : Wrapper SqliteDb := mkWrapper
  (mkDatabase true key_a (Some (DbFile
     (mkMetaTables {["standalone" := collection_values standaloneMetadata]}
        {[("standalone", "pin") := secret_values pin_metadata]})
     (Some key_a) currentSchemaVersion)) None "C" [] 0 [])
  false (mkDatabase true "" (Some (DbFile pin_tables (Some "") 1)) None "C" [] 0 []).

Lemma pin_tables_wf : sqlite_wf pin_tables.
Proof.
  split; simpl.
  - set_solver.
  - intros c ->%elem_of_singleton. by left.
  - intros c s [? Hs]. apply lookup_singleton_Some in Hs as [[= <- <-] _]. set_solver.
  - intros c s f [? Hs]. by rewrite lookup_empty in Hs.
Qed.

Lemma device_lock_change_skips_standalone_witness :
  (let '(r, w') := reencryptDeviceLockedCollectionsAndSecrets {["enc" := prefix_encryption]} "k1" "k2"
                     pin_wrapper in
   ok r = true)
  ∧ wp (reencryptDeviceLockedCollectionsAndSecrets {["enc" := prefix_encryption]} "k1" "k2")
      (λ _ w', sqlite_ready (m_plugin w')
        ∧ ∀ s, fst <$> st_secrets (sqlite_store (m_plugin w')) !! ("standalone", s)
               = fst <$> st_secrets (sqlite_store (m_plugin pin_wrapper)) !! ("standalone", s)) pin_wrapper.
Proof.
  split; [vm_compute; reflexivity|]. apply device_lock_change_skips_standalone.
  exists pin_tables. split; [|apply pin_tables_wf]. split; [repeat split|]. intros _.
  split; [constructor|]. split; [reflexivity|]. intros fl [[= <-]|?]; [reflexivity|discriminate].
Defined.

(** * The master lock of all plugins *)

(** A wrong master lock key unlocks no plugin, whatever the engine does:
    if any plugin is there, [masterUnlockPlugins] reports failure, and the
    metadata of every plugin stays locked with its key. *)
Theorem wrong_master_key_refused_by_all {P E} `{StoragePlugin P} `{EncryptedStoragePlugin E}
  key key' (ss : list (Configured P)) (es : list (Configured E)) :
  Forall (master_locked key) ss → Forall (master_locked key) es → key' ≠ key →
  wp (masterUnlockPlugins key') (λ b '(ss', es'), b = bool_decide (ss = [] ∧ es = [])
    ∧ Forall (master_locked key) ss' ∧ Forall (master_locked key) es') (ss, es).
Proof. apply masterUnlockPlugins_wrong_key. Qed.

Lemma wrong_master_key_refused_by_all_witness :
  let ss := [(vault_config, mkWrapper (close (example_meta [])).2 false (example_sqlite []))] in
  let es := [(vault_config, mkWrapper (close (example_meta [Some (Fault StmtAborted "busy")])).2 false empty_cipher)] in
  wp (masterUnlockPlugins key_b) (λ b '(ss', es'), b = bool_decide (ss = [] ∧ es = [])
    ∧ Forall (master_locked key_a) ss' ∧ Forall (master_locked key_a) es') (ss, es).
Proof.
  intros ss es. apply (wrong_master_key_refused_by_all key_a key_b ss es);
    [repeat constructor; exists (mkMetaTables ∅ ∅); repeat split..|discriminate].
Defined.
