(* ===== verification/QueueProps.v ===== *)
(** The properties of the request queue and of the data protector. *)
From S2P Require Import Prelude Result PluginApi RequestQueue RequestQueueSpec DataProtector.
From S2P Require Import DataProtectorSpec.
From Stdlib Require Import Lia.

(** * An example queue: requests carry strings, connections and messages are
    numbers; pending requests of type 1 finish at once, the others later. *)
Abbreviation ExampleQueue := (@Queue string nat nat).
Abbreviation ExampleRequest := (@RequestData string nat nat).

Definition example_pending (r : ExampleRequest) : @Handled string :=
  mkHandled [] [] [] (bool_decide (type r = 1%Z)).
Definition example_finished (r : ExampleRequest) : @Handled string := mkHandled (inParams r) [] [] true.

(** Two requests accepted one after the other. *)
Definition two_requests : ExampleQueue :=
  (handleSecretsRequest (Some 101%Z) 1 ["a"] 0%nat 0%nat
     (handleSecretsRequest (Some 100%Z) 2 ["b"] 0%nat 0%nat initial_queue).2).2.

Lemma two_requests_reachable : reachable example_pending example_finished two_requests.
Proof. eapply rtc_l; [apply step_secrets|]. eapply rtc_l; [apply step_secrets|]. apply rtc_refl. Qed.

(** In every reachable state of the queue, however requests, completions
    and events are interleaved and whatever the handlers do, the requests being
    enqueued and the requests in the queue all have different identifiers, and
    a request being enqueued is registered under its own. *)
Theorem request_ids_unique {V C M} (hp hf : @RequestData V C M → @Handled V) (q : @Queue V C M) :
  reachable hp hf q →
  NoDup ((requestId <$> m_requests q) ++ (map_to_list (m_enqueuingRequests q)).*1)
  ∧ ∀ i r, m_enqueuingRequests q !! i = Some r → requestId r = i.
Proof.
  intros [Hwf _]%reachable_inv. split; [apply (wf_unique _ Hwf)|]. intros i r Hr.
  by apply (wf_enqueuing _ Hwf) in Hr as [? _].
Qed.

Lemma request_ids_unique_witness :
  NoDup ((requestId <$> m_requests two_requests)
         ++ (map_to_list (m_enqueuingRequests two_requests)).*1)
  ∧ ∀ i r, m_enqueuingRequests two_requests !! i = Some r → requestId r = i.
Proof. apply (request_ids_unique example_pending example_finished), two_requests_reachable. Defined.

(** No request is lost between being accepted and being queued: in every
    reachable state each request being enqueued has exactly one event posted
    that will append it, and no such event is posted for any other id, so the
    case "Unable to finish enqueuing request" never happens. *)
Theorem accepted_requests_are_queued {V C M} (hp hf : @RequestData V C M → @Handled V) (q : @Queue V C M) :
  reachable hp hf q →
  NoDup (posted_ids (events q))
  ∧ ∀ i, i ∈ posted_ids (events q) ↔ is_Some (m_enqueuingRequests q !! i).
Proof. intros [Hwf _]%reachable_inv. split; [apply (wf_posted_once _ Hwf)|apply (wf_posted _ Hwf)]. Qed.

Lemma accepted_requests_are_queued_witness :
  NoDup (posted_ids (events two_requests))
  ∧ ∀ i, i ∈ posted_ids (events two_requests) ↔ is_Some (m_enqueuingRequests two_requests !! i).
Proof.
  apply (accepted_requests_are_queued example_pending example_finished), two_requests_reachable.
Defined.

(** C35: No wake-up is lost: in every reachable state, while a request in the
    queue is new, an event that handles requests is posted, even if handling
    was interrupted to stay responsive; and so it is while a request is
    finished, provided the handler of finished requests always completes
    them. *)
Theorem no_lost_wakeup {V C M} (hp hf : @RequestData V C M → @Handled V) (q : @Queue V C M) r :
  reachable hp hf q → r ∈ m_requests q →
  request_status r = RequestPending
  ∨ (request_status r = RequestFinished ∧ ∀ r', completed (hf r') = true) →
  HandleRequests ∈ events q.
Proof.
  intros [_ Ha]%reachable_inv Hr Hw. apply list_elem_of_lookup_1 in Hr as [n Hn]. by eapply Ha.
Qed.

Definition queued_request : ExampleQueue :=
  (deliver example_pending example_finished (FinishEnqueueRequest 1) []
     (set_events [FinishEnqueueRequest 2] two_requests)).2.

Lemma queued_request_reachable : reachable example_pending example_finished queued_request.
Proof.
  eapply rtc_r; [apply two_requests_reachable|].
  apply (step_event _ _ (FinishEnqueueRequest 1) [FinishEnqueueRequest 2] [] two_requests). reflexivity.
Qed.

Definition first_request : ExampleRequest :=
  mkRequestData 1 100 2 RequestPending ["b"] [] (Some 0%nat) (Some 0%nat) 0 false.

Lemma no_lost_wakeup_witness : HandleRequests ∈ events queued_request.
Proof.
  apply (no_lost_wakeup example_pending example_finished queued_request first_request).
  - apply queued_request_reachable.
  - left.
  - left. reflexivity.
Defined.

(** A request is accepted unless all identifiers but one are in use: the
    search for an identifier ends, and the request gets one in range that no
    other request has, and an event is posted that will append it; otherwise
    the request is refused with SecretsDaemonRequestQueueFullError and the queue
    is as before. *)
Theorem enqueueRequest_correct {V C M} (hp hf : @RequestData V C M → @Handled V) r (q : @Queue V C M) :
  reachable hp hf q → request_status r = RequestPending →
  wp (enqueueRequest r) (λ '(res, o) q',
    ((Z.of_nat (length (ids q)) < quint64_size - 1)%Z → ok res = true)
    ∧ (if ok res
       then ∃ i, o = Some i ∧ i ∉ ids q ∧ (0 ≤ i < quint64_size)%Z
            ∧ m_enqueuingRequests q' !! i = Some (set_requestId i r)
            ∧ FinishEnqueueRequest i ∈ events q'
       else errorCode res = SecretsDaemonRequestQueueFullError ∧ ids q' = ids q)
    ∧ m_requests q' = m_requests q) q.
Proof.
  intros [Hwf _]%reachable_inv Hs. eapply wp_mono; [by apply (enqueueRequest_spec hp hf)|].
  intros [res o] q' (Hh&Hreq&Hlen&Hres). split_and!; [done| |done]. destruct (ok res).
  - destruct Hres as (i&->&Hi&Hids&Henq&He). exists i.
    assert (0 ≤ i < quint64_size)%Z as Hr.
    { apply (wf_range _ (hl_wf _ _ _ Hh)). rewrite Hids. by left. }
    split; [done|]. split; [done|]. split; [exact Hr|]. split; [|done].
    by rewrite Henq, lookup_insert_eq.
  - by destruct Hres as (_&?&->).
Qed.

Lemma enqueueRequest_correct_witness :
  wp (enqueueRequest first_request) (λ '(res, o) q',
    ((Z.of_nat (length (ids two_requests)) < quint64_size - 1)%Z → ok res = true)
    ∧ (if ok res
       then ∃ i, o = Some i ∧ i ∉ ids two_requests ∧ (0 ≤ i < quint64_size)%Z
            ∧ m_enqueuingRequests q' !! i = Some (set_requestId i first_request)
            ∧ FinishEnqueueRequest i ∈ events q'
       else errorCode res = SecretsDaemonRequestQueueFullError ∧ ids q' = ids two_requests)
    ∧ m_requests q' = m_requests two_requests) two_requests.
Proof.
  apply (enqueueRequest_correct example_pending example_finished);
    [apply two_requests_reachable|reflexivity].
Defined.

(** C39: Handling the requests ends, whatever the handlers do; if it is not
    interrupted, no request in the queue is new any more: every one has been
    given to its handler. *)
Theorem handleRequests_serves_all {V C M} (hp hf : @RequestData V C M → @Handled V)
  (q : @Queue V C M) es elapsed :
  reachable hp hf q → events q = HandleRequests :: es →
  wp (handleRequests hp hf elapsed) (λ o q', o = Some tt
    ∧ (Forall (λ b, b = false) elapsed →
         ∀ r, r ∈ m_requests q' → request_status r ≠ RequestPending)) (set_events es q).
Proof.
  intros [Hwf _]%reachable_inv Hes. eapply wp_mono; [by eapply handleRequests_spec|].
  intros o q' (?&_&Hserved). split; [done|]. intros Hf r Hr.
  apply list_elem_of_lookup_1 in Hr as [n Hn]. by eapply Hserved.
Qed.

Definition handling_queue : ExampleQueue :=
  (deliver example_pending example_finished (FinishEnqueueRequest 2) []
     (set_events [HandleRequests] queued_request)).2.

Lemma handleRequests_serves_all_witness :
  wp (handleRequests example_pending example_finished []) (λ o q', o = Some tt
    ∧ (Forall (λ b, b = false) [] →
         ∀ r, r ∈ m_requests q' → request_status r ≠ RequestPending))
    (set_events [HandleRequests] handling_queue).
Proof.
  apply (handleRequests_serves_all example_pending example_finished handling_queue [HandleRequests] []).
  - eapply rtc_r; [apply queued_request_reachable|].
    apply (step_event _ _ (FinishEnqueueRequest 2) [HandleRequests] [] queued_request). reflexivity.
  - reflexivity.
Defined.

(** * The data protector *)

(** An empty store in a good environment. *)
Definition fresh : Protector := mkProtector None 0 [] "".

Lemma fresh_good : os_good fresh.
Proof. constructor. Qed.

(** The decision between the files is a strict majority vote: it is for
    some contents exactly when more than half of the files have them, wherever
    they are in the directory; the empty contents of unreadable files count as
    a vote. *)
Theorem vote_is_majority (fileContents : list bytes) x :
  vote (remove_if_empty fileContents) = Some x ↔
  (length fileContents < 2 * length (filter (λ y, y = x) fileContents))%nat.
Proof.
  rewrite vote_remove_if_empty. unfold count.
  pose proof (Nat.div_mod_eq (length fileContents) 2) as Hdiv.
  pose proof (Nat.mod_upper_bound (length fileContents) 2 ltac:(done)) as Hmod. lia.
Qed.

(** A store, then damage to the files of the data directory, then a read. *)
Definition put_damage_get (uuid : string) (b : bytes)
  (damage : list (string * filestate) → list (string * filestate)) : M Protector (Status * (Status * bytes)) :=
  let* st := putData uuid b in
  modify (on_dirs (fmap (λ d, mkDataDir (dd_name d) (dd_mtime d) (damage (dd_files d))))) ;;;
  let* r := getData false in
  ret (st, r).

(** C40: What was stored is read back, even if one of the three files was
    afterwards overwritten with anything or made unreadable. *)
Theorem damaged_file_is_outvoted uuid b i name f (s : Protector) :
  os_good s → uuid ∉ dd_name <$> default [] (root s) →
  wp (put_damage_get uuid b (λ files, <[i := (name, f)]> files))
     (λ r _, r = (Success, (Success, b))) s.
Proof.
  intros Hg Hu. unfold put_damage_get. apply wp_bind. eapply wp_mono; [by apply putData_good|].
  intros st s1 (->&_&Hm&t&Hr). apply wp_bind, wp_modify, wp_bind. unfold wp at 1.
  set (files := <[i := (name, f)]> ((λ f, (f, Some b)) <$> data_files)).
  set (s2 := on_dirs _ s1).
  assert ((getData false s2).1 = (Success, b)) as Hget.
  { apply (getData_majority (mkDataDir uuid t files) [mkDataDir uuid t files] []); [done| |done|..].
    - unfold s2, on_dirs, set_root; simpl. by rewrite Hr.
    - simpl. subst files. unfold data_files, count.
      destruct i as [|[|[|i]]]; simpl; rewrite ?filter_cons; repeat case_decide; simpl in *; done || lia.
    - simpl. exists b. subst files. unfold data_files. destruct i as [|[|[|i]]]; simpl; set_solver. }
  destruct (getData false s2) as [r s3]. simpl in *. by subst.
Qed.

Lemma damaged_file_is_outvoted_witness :
  wp (put_damage_get "1b4e28ba" "salt" (λ files, <[1%nat := ("file1", None)]> files))
     (λ r _, r = (Success, (Success, "salt"))) fresh.
Proof.
  apply (damaged_file_is_outvoted "1b4e28ba" "salt" 1 "file1" None fresh);
    [apply fresh_good|apply not_elem_of_nil].
Defined.

(** When two of the three files cannot be opened, the contents of the third
    are not returned, and the loss is not reported either: [getData] says
    Success and returns nothing. *)
Theorem two_unreadable_files_read_as_empty uuid t b (s : Protector) :
  m_data s = "" → b ≠ "" →
  root s = Some [mkDataDir uuid t [("file0", Some b); ("file1", None); ("file2", None)]] →
  (getData false s).1 = (Success, "").
Proof.
  intros Hm Hb Hr. eapply getData_majority; [done|done|done|..]; simpl.
  - unfold count. rewrite filter_cons, decide_False by done. done.
  - exists b. by left.
Qed.

Lemma two_unreadable_files_read_as_empty_witness :
  (getData false (mkProtector
     (Some [mkDataDir "1b4e28ba" 4 [("file0", Some "salt"); ("file1", None); ("file2", None)]])
     4 [] "")).1 = (Success, "").
Proof.
  apply (two_unreadable_files_read_as_empty "1b4e28ba" 4 "salt"); [reflexivity|discriminate|reflexivity].
Defined.

(** An interrupted store loses the old data: if a file of the new directory
    cannot be opened, [putData] reports it, the old directory is still complete,
    and yet [getData] reports the data as irretrievable, because it looks at the
    most recent directory and not, as its comment says, at the oldest. *)
Theorem interrupted_store_is_irretrievable uuid b n fs ds (s : Protector) :
  m_data s = "" → root s = Some ds → os_faults s = None :: Some n :: fs →
  uuid ∉ dd_name <$> ds → (∀ d, d ∈ ds → (dd_mtime d ≤ clock s)%Z) →
  let '(st, s') := putData uuid b s in
  st = ErrorCannotOpenFile ∧ (∀ d, d ∈ ds → d ∈ default [] (root s'))
  ∧ (getData false s').1.1 = Irretrievable.
Proof.
  intros Hm Hr Hf Hu Ht. destruct s as [r c f m]. simpl in *. subst.
  unfold putData, make_root, make_dir, bind, gets, modify, ret, os_call. simpl.
  unfold make_dir, bind, gets, modify, ret, os_call. simpl. rewrite bool_decide_false by done. simpl.
  split_and!; [done|intros d Hd; by right|].
  unfold getData, bind, gets, modify, ret. simpl.
  destruct (by_time_newest (mkDataDir uuid (c + 1) []) ds) as [others ->].
  { intros d Hd. specialize (Ht _ Hd). simpl. lia. }
  done.
Qed.

Definition salted : Protector := (putData "1b4e28ba" "salt" fresh).2.

Lemma interrupted_store_is_irretrievable_witness :
  let s := mkProtector (root salted) (clock salted) [None; Some 0%nat] "" in
  let '(st, s') := putData "9a7b330a" "pepper" s in
  st = ErrorCannotOpenFile
  ∧ (∀ d, d ∈ default [] (root salted) → d ∈ default [] (root s'))
  ∧ (getData false s').1.1 = Irretrievable.
Proof.
  apply (interrupted_store_is_irretrievable "9a7b330a" "pepper" 0 [] (default [] (root salted))
           (mkProtector (root salted) (clock salted) [None; Some 0%nat] "")); try reflexivity.
  - vm_compute. intros H. apply list_elem_of_singleton in H. discriminate.
  - intros d Hd. vm_compute in Hd. apply list_elem_of_singleton in Hd. subst. vm_compute. discriminate.
Defined.
