(* ===== verification/ProcessorProps.v ===== *)
(** Properties of the request processor of the secrets service: who may do what,
    how requests end, and what goes wrong. *)
From S2P Require Import Prelude Result MetadataDb PluginApi PluginWrapper.
From S2P Require Import PluginFunctionWrappers DataProtector Processor ProcessorCollections.
From S2P Require Import ProcessorSecrets ProcessorStandalone ProcessorLocks.
From S2P Require Import ProcessorCompletion SecretsService ProcessorSystem ProcessorAccess.
From S2P Require Import ProcessorAuthorized ProcessorDispatch ProcessorAnswers.

(** * A small daemon *)

Definition example_env : Environment :=
  mkEnvironment false {["enc"]} {["sqlite"]} {["cipher"]} ∅
    {["plugin.authentication.default" := 2%Z]} (λ n, n)
    (λ pid, bool_decide (pid = 1%Z)) "platform"
    (λ pid, if bool_decide (pid = 2%Z) then "app" else "other") (λ b, b).

Definition done_result : Result := result_of_code Succeeded.
Definition only_from (p : string) (q : string) : Result :=
  if bool_decide (p = q) then done_result
  else result_error InvalidExtensionPluginError "No such plugin".

(** The metadata of every collection and of every standalone secret. *)
Definition example_metadata (c e : string) : CollectionMetadata :=
  mkCollectionMetadata c "app" false e "plugin.authentication.default" CustomLockKeepUnlocked
    OwnerOnlyMode.
Definition example_secret_metadata (c s e : string) : SecretMetadata :=
  mkSecretMetadata c s "app" false e "plugin.authentication.default" CustomLockKeepUnlocked
    OwnerOnlyMode "Unknown" "".

(** The answers of the plugins. *)
Definition plugin_answer {A} (op : PluginOp A) : A :=
  match op in PluginOp B return B with
  | S_collectionNames _ | E_collectionNames _ => (done_result, ∅)
  | S_collectionMetadata p c => (only_from p "sqlite", example_metadata c "enc")
  | E_collectionMetadata p c => (only_from p "cipher", example_metadata c "cipher")
  | S_secretMetadata p c s => (only_from p "sqlite", example_secret_metadata c s "enc")
  | E_secretMetadata p c s => (only_from p "cipher", example_secret_metadata c s "cipher")
  | E_isCollectionLocked _ _ => (done_result, true)
  | E_deriveKeyFromCode _ code _ | C_deriveKeyFromCode _ code _ => (done_result, code)
  | E_unlockCollectionAndReadSecret _ _ i _ | S_getAndDecryptSecret _ _ i _ =>
      (done_result, mkSecret i "data" ∅)
  | E_unlockAndFindSecrets _ _ _ _ _ | S_findSecrets _ _ _ _ | A_storedKeyIdentifiers _ _
  | A_storedKeyIdentifiersFromCollection _ _ _ _ _ => (done_result, [])
  | E_accessStandaloneSecret _ _ _ => (done_result, ("data", ∅))
  | A_queryLockSpecificPlugin _ => (false, UnknownLockStatus)
  | A_lockSpecificPlugin _ | A_unlockSpecificPlugin _ _ | A_modifyLockSpecificPlugin _ _ _ => None
  | A_masterLockPlugins | A_masterUnlockPlugins _ | A_modifyMasterLockPlugins _ _ => true
  | S_createCollection _ _ | E_createCollection _ _ _ | S_removeCollection _ _
  | E_unlockAndRemoveCollection _ _ _ | E_deriveKeyUnlockAndRemoveCollection _ _ _ _
  | E_unlockCollectionAndStoreSecret _ _ _ _ | S_encryptAndStoreSecret _ _ _ _ _
  | E_unlockCollectionAndRemoveSecret _ _ _ _ | S_removeSecret _ _ _ | E_removeSecret _ _ _
  | E_setStandaloneSecret _ _ _ _ | S_collectionSecretPreCheck _ _ _ _
  | E_collectionSecretPreCheck _ _ _ _ _ _ | E_unlockDeviceLockedCollectionsAndReencrypt _ _ _
  | S_reencryptDeviceLockedCollectionsAndSecrets _ _ _ => done_result
  end.

Definition auth_answer {A} (c : AuthCall A) : A :=
  match c in AuthCall B return B with
  | BeginAuthentication _ _ _ | BeginUserInputInteraction _ _ _ _ _ => result_of_code Pending
  | AuthSupportsLocking _ | AuthIsLocked _ => false
  | AuthLock _ | AuthUnlock _ _ | AuthSetLockCode _ _ _ => true
  end.

Definition queue_answer {A} (c : QueueCall A) : A :=
  match c in QueueCall B return B with
  | Q_deviceLockKey => Alias 32
  | Q_deviceLockKeyCopy => "key"
  | Q_bkdbLockKey | Q_saltData => ""
  | Q_masterLocked | Q_noLockCode => false
  | Q_testLockCode _ | Q_initialize _ _ => true
  | Q_getData _ => (Success, "")
  | Q_queryLockStatusCryptoPlugin _ => (done_result, Unsupported)
  | Q_lockCryptoPlugin _ | Q_unlockCryptoPlugin _ _ | Q_setLockCodeCryptoPlugin _ _ _ => done_result
  end.

Definition example_answer (A : Type) (c : Call A) : M unit A :=
  λ w, (match c in Call B return B with
        | Plugin op => plugin_answer op
        | Auth c => auth_answer c
        | Queue c => queue_answer c
        end, w).

Lemma only_from_ok p q : ok (only_from p q) = true → p = q.
Proof. unfold only_from. by case_bool_decide. Qed.

Lemma only_from_code p q : code (only_from p q) ≠ Pending.
Proof. unfold only_from. by case_bool_decide. Qed.

(** The example answers as it should. *)
Lemma example_answers A (c : Call A) w :
  names_collection A c (example_answer A c w).1
  ∧ well_behaved example_env A c (example_answer A c w).1.
Proof.
  destruct c as [B op|B op|B op]; destruct op; simpl; try done; repeat split; auto; try done.
  all: try apply only_from_code; intros ->%only_from_ok; vm_compute; auto.
Qed.

Lemma example_answers_strictly A (c : Call A) w :
  names_collection A c (example_answer A c w).1
  ∧ (True → well_behaved example_env A c (example_answer A c w).1).
Proof. split; [|intros _]; apply example_answers. Qed.

Lemma example_answers_loosely A (c : Call A) w :
  names_collection A c (example_answer A c w).1
  ∧ (False → well_behaved example_env A c (example_answer A c w).1).
Proof. split; [|done]. apply example_answers. Qed.

Definition example_start : System unit := initial tt ∅ ∅.

(** * An example run: an application reads a secret of its own *)

Definition read_token : DBusCall := DGetSecret (mkIdentifier "token" "vault" "sqlite") SystemInteraction "".

Definition handler_of (c : DBusCall) (pid id : Z) : Handler :=
  default Mismatch
    (handlePendingRequest example_env (SecretsDBusObject example_env c).1 pid id
       (SecretsDBusObject example_env c).2).

Definition code_entered : Handler :=
  userInputInteractionCompleted example_env LeftToRight 2 7 (result_of_code Succeeded) "1234".

Definition requested : System unit :=
  (advance example_answer false 2 7 [] (handler_of read_token 2 7) (accept 7 example_start)).2.
Definition looked_up : System unit := (work example_answer requested).2.
Definition asked : System unit := (deliver example_answer looked_up).2.
Definition asked_history : list Event := default [] (waiting asked !! 7%Z).
Definition asked_pending : PendingRequest :=
  default (mkPending 0 0 InvalidRequest []) (m_pendingRequests (processor asked) !! 7%Z).

(** The user enters the code, the key is derived, and the secret is read. *)
Definition resumed : System unit :=
  (advance example_answer true (pr_callerPid asked_pending) 7 asked_history code_entered
     (with_waiting (delete 7%Z) asked)).2.
Definition derived : System unit := (work example_answer resumed).2.
Definition opened : System unit := (deliver example_answer derived).2.
Definition read : System unit := (work example_answer opened).2.
Definition answered_state : System unit := (deliver example_answer read).2.

Section example.
  Context (strict : Prop) (order : EvaluationOrder).

Lemma asked_reachable :
  reachable example_answer (serves example_env strict) (completes example_env strict order) tt ∅ ∅ asked.
Proof.
  apply (rtc_l _ _ requested); [|apply (rtc_l _ _ looked_up); [exact (step_work _ _ _ requested)|]].
  - apply (step_request _ _ _ 2 7 (handler_of read_token 2 7)).
    + by apply (serves_dbus _ _ 2 7 _ read_token).
    + intros [Ha|[Ha|[? Ha]]]; [by apply elem_of_nil in Ha..|done].
  - apply rtc_once. exact (step_deliver _ _ _ looked_up).
Qed.

End example.

Section example_read.
  Context (strict : Prop).

Local Abbreviation reached :=
  (reachable example_answer (serves example_env strict) (completes example_env strict LeftToRight) tt ∅ ∅).

Lemma read_reachable : reached read.
Proof.
  apply (rtc_r _ opened); [|exact (step_work _ _ _ opened)].
  apply (rtc_r _ derived); [|exact (step_deliver _ _ _ derived)].
  apply (rtc_r _ resumed); [|exact (step_work _ _ _ resumed)].
  apply (rtc_r _ asked); [apply asked_reachable|].
  apply (step_complete _ _ _ 7 asked_history code_entered asked asked_pending).
  - vm_compute. reflexivity.
  - apply (completes_input _ _ _ _ _ _ 2 (result_of_code Succeeded) "1234"); [|reflexivity|done].
    vm_compute. reflexivity.
  - vm_compute. reflexivity.
Qed.

Lemma answered_reachable : reached answered_state.
Proof. apply (rtc_r _ read); [apply read_reachable|exact (step_deliver _ _ _ read)]. Qed.
End example_read.

(** * Who may do what *)

(** C1: What is stored in a collection is read, changed or removed only on behalf
    of an application that may access the collection: whatever requests arrive
    over D-Bus and from the crypto service, however their operations and callbacks
    interleave with those of other requests, whatever plugins and users answer (the
    metadata of a collection name that collection) and whatever keys are kept.  Of
    the operations of storage and encryption plugins, each one that touches the
    contents of a collection was preceded, in the course of the same request, by a
    successful reading of the metadata of that very collection, which say that it is
    not under system access control and, if it belongs to its owner only, that the
    caller is the owner; each one that encrypts anew what the device lock protects,
    or touches locks, is on behalf of a platform application.  Nothing is claimed of
    the others: listing the names of the keys in all unlocked collections of a
    plugin (storedKeyIdentifiers without a collection), which the code does for any
    caller, listing names and reading metadata, creating collections, and standalone
    secrets, under which fall the empty and the reserved name of a collection. *)
Theorem access_control env {W} (answer : ∀ A, Call A → M W A) w keys skeys s
  pid hist A (op : PluginOp A) a :
  (∀ A (c : Call A) w, names_collection A c (answer A c w).1) →
  reachable answer (serves env False) (completes env False LeftToRight) w keys skeys s →
  (pid, hist, Ev (Plugin op) a) ∈ calls s →
  match touches op with
  | Contents p c =>
      is_collection c = true →
      ∃ r md, Ev (Plugin (collectionMetadata_of env p c)) (r, md) ∈ hist ∧ ok r = true
        ∧ cm_accessControlMode md ≠ SystemAccessControlMode
        ∧ (cm_accessControlMode md = OwnerOnlyMode →
           cm_ownerApplicationId md = callerApplicationId env pid)
  | DeviceLocked _ | Locks => applicationIsPlatformApplication env pid = true
  | KeyNames _ | Descriptions _ | NewCollection _ | Standalone _ | NoData => True
  end.
Proof.
  intros Hanswer Hr Hin.
  assert (invariant (discipline env False) s) as Hinv
    by (eapply discipline_invariant; [done|done| |done]; intros; split; [apply Hanswer|done]).
  pose proof (proj1 (Forall_forall _ _) (inv_calls _ s Hinv) _ Hin) as (id&[[Ha Hl] _]&_).
  destruct (touches op) as [p c|p|p|p|p|p| |] eqn:Ht; try done.
  - intros Hc. destruct (Ha p c) as (r&md&?&?&?&?); [unfold collection_of; by rewrite Ht|done|].
    by exists r, md.
  - apply Hl. by destruct op.
  - apply Hl. by destruct op.
Qed.

Lemma access_control_witness :
  ∃ r md, Ev (Plugin (collectionMetadata_of example_env "sqlite" "vault")) (r, md)
      ∈ (nth 0 (calls read) (0%Z, [], Ev (Queue Q_masterLocked) true)).1.2 ∧ ok r = true
    ∧ cm_accessControlMode md ≠ SystemAccessControlMode
    ∧ (cm_accessControlMode md = OwnerOnlyMode →
       cm_ownerApplicationId md = callerApplicationId example_env 2).
Proof.
  refine (access_control example_env example_answer tt ∅ ∅ read 2 _ _
            (S_getAndDecryptSecret "enc" "sqlite" (mkIdentifier "token" "vault" "sqlite") (Copy "1234"))
            (done_result, mkSecret (mkIdentifier "token" "vault" "sqlite") "data" ∅) _ _ _ _).
  - intros. apply example_answers.
  - apply read_reachable.
  - vm_compute. left.
  - reflexivity.
Defined.

(** C23: Locks are opened, closed and changed, lock codes are set and what the
    device lock protects is encrypted anew only on behalf of platform
    applications. *)
Theorem locks_for_platform_only env {W} (answer : ∀ A, Call A → M W A) w keys skeys s
  pid hist A (c : Call A) a :
  (∀ A (c : Call A) w, names_collection A c (answer A c w).1) →
  reachable answer (serves env False) (completes env False LeftToRight) w keys skeys s →
  (pid, hist, Ev c a) ∈ calls s → locks c = true →
  applicationIsPlatformApplication env pid = true.
Proof.
  intros Hanswer Hr Hin Hl.
  assert (invariant (discipline env False) s) as Hinv
    by (eapply discipline_invariant; [done|done| |done]; intros; split; [apply Hanswer|done]).
  pose proof (proj1 (Forall_forall _ _) (inv_calls _ s Hinv) _ Hin) as (id&[[_ Ha] _]&_). auto.
Qed.

(** The platform locks the service. *)
Definition lock_service : DBusCall :=
  DForgetLockCode MetadataDatabase "" noInteraction SystemInteraction "".
Definition service_locked : System unit :=
  (advance example_answer false 1 3 [] (handler_of lock_service 1 3) (accept 3 example_start)).2.

Lemma service_locked_reachable strict :
  reachable example_answer (serves example_env strict) (completes example_env strict LeftToRight) tt ∅ ∅
    service_locked.
Proof.
  apply rtc_once, (step_request _ _ _ 1 3 (handler_of lock_service 1 3)).
  - by apply (serves_dbus _ _ 1 3 _ lock_service).
  - intros [Ha|[Ha|[? Ha]]]; [by apply elem_of_nil in Ha..|done].
Qed.

Lemma locks_for_platform_only_witness : applicationIsPlatformApplication example_env 1 = true.
Proof.
  eapply (locks_for_platform_only example_env example_answer tt ∅ ∅ service_locked 1 _ _
            (Plugin A_masterLockPlugins) true).
  - intros. apply example_answers.
  - apply service_locked_reachable.
  - vm_compute. left.
  - reflexivity.
Defined.

(** * How requests end *)

(** C24: If the compiler evaluates the arguments of a call from left to right, which
    C++ leaves open, then the parameters of a pending request are what its
    continuation takes: in every reachable state no handler ever found a parameter of
    another type, and each request that waits for the user is registered under its
    own identifier with the parameters of its type, in the right number and order,
    and with access granted to what it will touch.  For the other order this fails;
    [right_to_left_misreads] has a run. *)
Theorem pending_requests_typed env {W} (answer : ∀ A, Call A → M W A) w keys skeys s :
  (∀ A (c : Call A) w, names_collection A c (answer A c w).1) →
  reachable answer (serves env False) (completes env False LeftToRight) w keys skeys s →
  stuck s ≠ Some Misread
  ∧ ∀ id hist, waiting s !! id = Some hist →
      ∃ p, m_pendingRequests (processor s) !! id = Some p
        ∧ resumable env False (pr_callerPid p) id hist p.
Proof.
  intros Hanswer Hr.
  assert (invariant (discipline env False) s) as Hinv
    by (eapply discipline_invariant; [done|done| |done]; intros; split; [apply Hanswer|done]).
  split; [|apply Hinv]. intros Hs. by destruct (inv_stuck _ s Hinv _ Hs) as (?&?&[]).
Qed.

Lemma pending_requests_typed_witness :
  stuck asked ≠ Some Misread
  ∧ ∀ id hist, waiting asked !! id = Some hist →
      ∃ p, m_pendingRequests (processor asked) !! id = Some p
        ∧ resumable example_env False (pr_callerPid p) id hist p.
Proof.
  apply (pending_requests_typed example_env example_answer tt ∅ ∅ asked).
  - intros. apply example_answers.
  - apply asked_reachable.
Defined.

(** C2: Every request is answered exactly once.  If plugins, authentication plugins
    and metadata are well-behaved and the default authentication plugin is
    installed, then in every reachable state the daemon has not crashed; each
    accepted request has been answered once or is under way, in exactly one place
    (an operation of it is queued, the callback of one is due, or it waits for the
    user); and when nothing is under way, all have been answered.  The requests
    are all but those that name an unknown plugin where the code does not test it. *)
Theorem answered_once env {W} (answer : ∀ A, Call A → M W A) w keys skeys s :
  (∀ A (c : Call A) w,
     names_collection A c (answer A c w).1 ∧ (True → well_behaved env A c (answer A c w).1)) →
  hasA env (systemAuthenticationPlugin env) = true → hasC env "" = false →
  reachable answer (serves env True) (completes env True LeftToRight) w keys skeys s →
  stuck s = None
  ∧ (∀ id, occurrences id (accepted s) = answered id s + under_way id s ∧ under_way id s ≤ 1)
  ∧ (queued s = [] → finished s = [] → waiting s = ∅ →
     ∀ id, occurrences id (accepted s) = answered id s).
Proof.
  intros Hanswer Hsys Hnames Hr. destruct (reachable_balanced answer env Hanswer Hsys Hnames _ _ _ _ Hr)
    as [He Hl _].
  assert (∀ id, occurrences id (accepted s) = answered id s + under_way id s ∧ under_way id s ≤ 1) as Hb.
  { intros id. specialize (He id). specialize (Hl id). unfold current in *. simpl in *. lia. }
  split_and!; [|done|].
  - pose proof (discipline_invariant env True (λ _, Hsys) (λ _, Hnames) answer Hanswer _ _ _ _ Hr) as Hi.
    destruct (stuck s) as [f|] eqn:Hs; [|done].
    destruct (inv_stuck _ s Hi _ Hs) as (?&?&Hf). destruct f; by destruct Hf.
  - intros Hq Hf Hw id. destruct (Hb id) as [-> _]. unfold under_way, waits.
    rewrite Hq, Hf, Hw, lookup_empty. simpl. unfold occurrences. simpl. lia.
Qed.

Lemma answered_once_witness :
  stuck answered_state = None
  ∧ (∀ id, occurrences id (accepted answered_state)
           = answered id answered_state + under_way id answered_state
         ∧ under_way id answered_state ≤ 1)
  ∧ (queued answered_state = [] → finished answered_state = [] → waiting answered_state = ∅ →
     ∀ id, occurrences id (accepted answered_state) = answered id answered_state).
Proof.
  apply (answered_once example_env example_answer tt ∅ ∅).
  - apply example_answers_strictly.
  - vm_compute. reflexivity.
  - vm_compute. reflexivity.
  - apply answered_reachable.
Defined.

(** The answer of the example. *)
Example read_token_answer :
  reports answered_state
  = [mkReport 7 done_result [VSecret (mkSecret (mkIdentifier "token" "vault" "sqlite") "data" ∅)]].
Proof. vm_compute. reflexivity. Qed.

(** * Dispatch *)

(** C25: A method of the D-Bus object packs its arguments into a request, and the
    dispatch takes them apart again: every call reaches the function of the
    processor that it means, with its own arguments, plugin names mapped, after
    the test of the master lock; no argument is lost, swapped or misread. *)
Theorem dbus_dispatch_roundtrip env pid id c :
  handlePendingRequest env (SecretsDBusObject env c).1 pid id (SecretsDBusObject env c).2
  = Some (direct env pid id c).
Proof. apply dispatch_direct. Qed.

(** While the service is locked, every D-Bus call but the health check and
    those on the master lock itself (status, change, unlock) is refused with
    [SecretsDaemonLockedError] before anything else is done, even to lock it. *)
Theorem locked_service_refuses env pid id c :
  match c with
  | DGetHealthInfo => False
  | DQueryLockStatus type _ | DModifyLockCode type _ _ _ _ | DProvideLockCode type _ _ _ _ =>
      type ≠ MetadataDatabase
  | _ => True
  end →
  ∃ k, handlePendingRequest env (SecretsDBusObject env c).1 pid id (SecretsDBusObject env c).2
       = Some (Sync (Queue Q_masterLocked) k)
     ∧ k true = fail_with SecretsDaemonLockedError "The secrets database is locked".
Proof.
  intros Hc. rewrite dispatch_direct. destruct c; try done; cbn [direct];
    unfold unless_locked_db, unless_locked_plugin;
    (eexists; split; [reflexivity|]); simpl; try reflexivity; by rewrite bool_decide_false.
Qed.

Lemma locked_service_refuses_witness :
  ∃ k, handlePendingRequest example_env (SecretsDBusObject example_env read_token).1 2 7
         (SecretsDBusObject example_env read_token).2
       = Some (Sync (Queue Q_masterLocked) k)
     ∧ k true = fail_with SecretsDaemonLockedError "The secrets database is locked".
Proof. apply (locked_service_refuses example_env 2 7 read_token). exact I. Defined.

(** * Which authentication plugin *)

(** The authentication plugin of the application's own process is used only if
    the application has given the address of its interaction service and owns what
    is to be unlocked (or is a platform application); in all other cases the
    system's plugin asks instead, and any other plugin is used as it is named. *)
Theorem in_app_authentication_guarded env owner caller platform name address :
  let system := mappedPluginName env (in_mode env DefaultAuthenticationPluginName) in
  let in_app := mappedPluginName env (in_mode env InAppAuthenticationPluginName) in
  let p := determineAuthPlugin env owner caller platform name address in
  (p = system ∨ p = in_app ∨ p = name)
  ∧ (p = in_app → p ≠ system → address ≠ "" ∧ (owner = caller ∨ platform = true))
  ∧ (name = InAppAuthenticationPluginName → address = "" → p = system).
Proof.
  intros system in_app p. subst p. unfold determineAuthPlugin, isEmpty.
  fold system in_app. split_and!.
  - repeat case_match; auto.
  - destruct (bool_decide (name = InAppAuthenticationPluginName) || _ || _) eqn:Hin.
    + repeat case_bool_decide; destruct platform; simpl; auto; done.
    + apply orb_false_iff in Hin as [_ Hin%bool_decide_eq_false]. case_match; [done|]. done.
  - intros -> ->. rewrite !bool_decide_true by done. done.
Qed.

(** * Interaction *)

(** No path through the handler asks the user. *)
Fixpoint never_asks (h : Handler) : Prop :=
  match h with
  | Return _ _ | Finish _ _ | Crash | Mismatch => True
  | Get k => ∀ s, never_asks (k s)
  | Put _ h => never_asks h
  | Park _ _ => False
  | Sync c k => begins c = None ∧ ∀ a, never_asks (k a)
  | Run _ k => ∀ a, never_asks (k a)
  end.

Lemma never_asks_finishing out h : never_asks h → never_asks (finishing out h).
Proof.
  induction h; simpl; try done; try naive_solver.
  by case_bool_decide.
Qed.

Ltac head_of t := lazymatch t with ?f _ => head_of f | _ => t end.

(** Follow the paths; a path that would ask contradicts the mode. *)
Ltac quiet :=
  intros; cbv zeta beta;
  lazymatch goal with
  | |- never_asks (if ?b then _ else _) => destruct b eqn:?; quiet
  | |- never_asks (match ?x with _ => _ end) => destruct x eqn:?; quiet
  | |- never_asks (finishing _ _) => apply never_asks_finishing; quiet
  | |- never_asks (Return _ _) => exact I
  | |- never_asks (Finish _ _) => exact I
  | |- never_asks Crash => exact I
  | |- True => exact I
  | |- never_asks (Put _ _) => cbn [never_asks]; quiet
  | |- never_asks (Get _) => cbn [never_asks]; intro; quiet
  | |- never_asks (Run _ _) => cbn [never_asks]; intro; quiet
  | |- never_asks (Sync (Auth _) _) =>
      exfalso;
      repeat match goal with
      | H : context [bool_decide (?x = ?x)] |- _ => rewrite (bool_decide_true (x = x)) in H by done
      | H : negb _ = true |- _ => apply negb_true_iff in H
      | H : negb _ = false |- _ => apply negb_false_iff in H
      end; rewrite ?andb_true_r in *; simpl in *; congruence
  | |- never_asks (Sync _ _) => cbn [never_asks]; split; [reflexivity|quiet]
  | |- never_asks ?h => let f := head_of h in unfold f; quiet
  end.

(** The requests on collections and their secrets, with the mode given. *)
Definition collection_request (c : DBusCall) (mode : UserInteractionMode) : Prop :=
  match c with
  | DDeleteCollection _ _ m _ | DGetSecret _ m _ | DFindSecrets _ _ _ _ m _ | DDeleteSecret _ m _ =>
      m = mode
  | DSetSecret _ ip m _ => m = mode ∧ ip_isValid ip = false
  | DSetDeviceLockSecret _ _ ip _ _ m _ => m = mode
  | DCreateCustomLockCollection _ _ _ _ _ _ m _ | DSetCustomLockSecret _ _ _ _ _ _ m _ => m = mode
  | DCollectionNames _ | DCreateDeviceLockCollection _ _ _ _ _ => True
  | _ => False
  end.

(** A request on collections or secrets that is made with [PreventInteraction]
    never asks the user for anything, on no path through its handlers; for setting
    a secret of a collection this needs that the data of the secret come with the
    request. *)
Theorem prevented_interaction env pid id c :
  collection_request c PreventInteraction → never_asks (direct env pid id c).
Proof.
  intros Hc. destruct c; try done; simpl in Hc; destruct_and?; subst; cbn [direct]; quiet.
Qed.

Lemma prevented_interaction_witness :
  never_asks (direct example_env 2 7
    (DGetSecret (mkIdentifier "token" "vault" "sqlite") PreventInteraction "")).
Proof. apply prevented_interaction. reflexivity. Defined.

(** * What goes wrong *)

(** If its key is kept, a standalone secret is read for whoever asks: its
    metadata may say that it belongs to its owner only, or that it is under system
    access control, but they are not looked at. *)
Theorem standalone_secrets_unprotected env pid id i mode address md key (s : Processor) :
  m_standaloneSecretEncryptionKeys s !! standalone_hash env (ident_name i) (ident_storagePluginName i)
    = Some key →
  stored_encrypted (ident_storagePluginName i) (sm_encryptionPluginName md) = false →
  ∃ h h' k, getStandaloneSecretWithMetadata env pid id i mode address md = Get h
    ∧ h s = Get h'
    ∧ h' s = Run (S_getAndDecryptSecret (sm_encryptionPluginName md) (ident_storagePluginName i)
                    (mkIdentifier (ident_name i) "standalone" (ident_storagePluginName i)) key) k
    ∧ ∀ r x, k (r, x) = Finish r [VSecret (setCollectionName "" x)].
Proof.
  intros Hk He. do 3 eexists. split; [reflexivity|]. cbv beta. rewrite Hk.
  unfold getStandaloneSecretWithEncryptionKey. rewrite He. split; [reflexivity|]. cbv beta zeta.
  rewrite Hk. split; [reflexivity|]. reflexivity.
Qed.

Lemma standalone_secrets_unprotected_witness :
  let i := mkIdentifier "pin" "" "sqlite" in
  let md := example_secret_metadata "standalone" "pin" "enc" in
  let s := mkProcessor ∅ {["sqlitestandalonepin" := Copy "key"]} ∅ in
  (sm_accessControlMode md = OwnerOnlyMode
   ∧ sm_ownerApplicationId md ≠ callerApplicationId example_env 3)
  ∧ ∃ h h' k, getStandaloneSecretWithMetadata example_env 3 9 i PreventInteraction "" md = Get h
    ∧ h s = Get h'
    ∧ h' s = Run (S_getAndDecryptSecret "enc" "sqlite" (mkIdentifier "pin" "standalone" "sqlite")
                    (Copy "key")) k
    ∧ ∀ r x, k (r, x) = Finish r [VSecret (setCollectionName "" x)].
Proof.
  intros i md s. split; [split; [reflexivity|discriminate]|].
  apply (standalone_secrets_unprotected example_env 3 9 i PreventInteraction "" md (Copy "key") s);
    vm_compute; reflexivity.
Defined.

(** A code is kept before it is known to be right.  When a secret of a
    collection in plain storage that is to be kept unlocked is read with a key
    derived from what the user entered, the key is kept for the collection, and it
    still is when the plugin has answered that it cannot decrypt the secret with
    it: the next request uses it without asking. *)
Theorem unverified_key_is_kept env {W} (answer : ∀ A, Call A → M W A) callback pid id hist i mode
  address md key r x w (s : System W) :
  let p := ident_storagePluginName i in
  let h := collection_hash env (ident_collectionName i) p in
  stored_encrypted p (cm_encryptionPluginName md) = false →
  relocks (cm_usesDeviceLockKey md) (cm_unlockSemantic md) = false →
  m_collectionEncryptionKeys (processor s) !! h = None →
  queued s = [] → finished s = [] →
  answer _ (Plugin (S_getAndDecryptSecret (cm_encryptionPluginName md) p i key)) (surroundings s)
    = ((r, x), w) →
  let s' := (deliver answer (work answer (advance answer callback pid id hist
               (getCollectionSecretWithEncryptionKey env pid id i mode address md key) s).2).2).2 in
  reports s' = mkReport id r [VSecret x] :: reports s
  ∧ m_collectionEncryptionKeys (processor s') !! h = Some key.
Proof.
  intros p h He Hr Hk Hq Hf Ha s'. subst s' h.
  assert ((advance answer callback pid id hist
             (getCollectionSecretWithEncryptionKey env pid id i mode address md key) s).2
    = enqueue (mkTask pid id hist
        (Run (S_getAndDecryptSecret (cm_encryptionPluginName md) p i key)
           (λ '(result, secret), Finish result [VSecret secret])))
        (with_processor (insert_collection_key (collection_hash env (ident_collectionName i) p) key) s))
    as ->.
  { unfold getCollectionSecretWithEncryptionKey. subst p. rewrite He. cbn [keep_key advance].
    unfold bind, gets. rewrite Hk, Hr. reflexivity. }
  unfold enqueue, work. simpl. rewrite Hq. simpl. unfold call. simpl. rewrite Ha. simpl.
  rewrite Hf. simpl. split; [done|]. apply lookup_insert_eq.
Qed.

(** A plugin that cannot decrypt the secret. *)
Definition wrong_plugin {A} (op : PluginOp A) : A :=
  match op in PluginOp B return B with
  | S_getAndDecryptSecret _ _ i _ =>
      (result_error SecretsPluginDecryptionError "wrong key", mkSecret i "" ∅)
  | op => plugin_answer op
  end.
Definition wrong (A : Type) (c : Call A) : M unit A :=
  λ w, (match c in Call B return B with
        | Plugin op => wrong_plugin op
        | Auth c => auth_answer c
        | Queue c => queue_answer c
        end, w).

Lemma unverified_key_is_kept_witness :
  let i := mkIdentifier "token" "vault" "sqlite" in
  let md := example_metadata "vault" "enc" in
  let s' := (deliver wrong (work wrong (advance wrong true 2 7 []
               (getCollectionSecretWithEncryptionKey example_env 2 7 i SystemInteraction "" md
                  (Copy "0000")) example_start).2).2).2 in
  reports s' = [mkReport 7 (result_error SecretsPluginDecryptionError "wrong key")
                  [VSecret (mkSecret i "" ∅)]]
  ∧ m_collectionEncryptionKeys (processor s') !! collection_hash example_env "vault" "sqlite"
    = Some (Copy "0000").
Proof.
  intros i md.
  apply (unverified_key_is_kept example_env wrong true 2 7 [] i SystemInteraction "" md (Copy "0000")
           (result_error SecretsPluginDecryptionError "wrong key") (mkSecret i "" ∅) tt example_start);
    vm_compute; reflexivity.
Defined.

(** Every path through the handler ends by returning that result. *)
Fixpoint always_returns (r : Result) (h : Handler) : Prop :=
  match h with
  | Return r' _ => r' = r
  | Get k => ∀ s, always_returns r (k s)
  | Put _ h | Park _ h => always_returns r h
  | Sync _ k => ∀ a, always_returns r (k a)
  | Finish _ _ | Run _ _ | Crash | Mismatch => False
  end.

Lemma always_returns_on_each r op l k :
  always_returns r k → always_returns r (on_each op l k).
Proof. intros Hk. induction l as [|p l IH]; simpl; auto. Qed.

(** A change of the master lock code is reported as done whenever the old
    code was right: that the new keys could not be set up, that the metadata
    databases could not be encrypted anew, or that a plugin failed to encrypt what
    the device lock protects, makes no difference to the answer. *)
Theorem lock_code_change_claims_success env pid id target ip mode address old new type :
  type ≠ ExtensionPlugin →
  ∃ k, modifyLockCodeWithLockCodes env pid id type target ip mode address old new
       = Sync (Queue (Q_testLockCode old)) k
     ∧ always_returns (result_of_code Succeeded) (k true).
Proof.
  intros Ht. unfold modifyLockCodeWithLockCodes. rewrite bool_decide_false by done.
  eexists. split; [reflexivity|]. simpl. intros. by do 2 apply always_returns_on_each.
Qed.

Lemma lock_code_change_claims_success_witness :
  ∃ k, modifyLockCodeWithLockCodes example_env 1 3 MetadataDatabase "" noInteraction SystemInteraction
         "" "old" "new"
       = Sync (Queue (Q_testLockCode "old")) k
     ∧ always_returns (result_of_code Succeeded) (k true).
Proof. apply lock_code_change_claims_success. discriminate. Defined.

(** The continuation of a request takes its parameters from the front of a
    list in the arguments of one call, in an order that C++ leaves to the compiler.
    One that evaluates arguments from right to left misreads every one of the
    parameters of a pending request to read a secret. *)
Theorem evaluation_order_matters env pid id i mode address md r input :
  continue_with_input env RightToLeft
    (mkPending pid id GetCollectionSecretRequest
       [VIdentifier i; VInt mode; VString address; VCollectionMetadata md]) r input = Mismatch
  ∧ continue_with_input env LeftToRight
      (mkPending pid id GetCollectionSecretRequest
         [VIdentifier i; VInt mode; VString address; VCollectionMetadata md]) r input
    = getCollectionSecretWithAuthenticationCode env pid id i mode address md input.
Proof. split; reflexivity. Qed.

(** So a daemon that is compiled that way misreads the parameters when the user has
    entered the code for a secret. *)
Theorem right_to_left_misreads :
  ∃ s, reachable example_answer (serves example_env False) (completes example_env False RightToLeft)
         tt ∅ ∅ s ∧ stuck s = Some Misread.
Proof.
  pose (h := userInputInteractionCompleted example_env RightToLeft 2 7 (result_of_code Succeeded) "1234").
  exists (advance example_answer true (pr_callerPid asked_pending) 7 asked_history h
            (with_waiting (delete 7%Z) asked)).2.
  split; [|vm_compute; reflexivity]. apply (rtc_r _ asked); [apply asked_reachable|].
  apply (step_complete _ _ _ 7 asked_history h asked asked_pending).
  - vm_compute. reflexivity.
  - apply (completes_input _ _ _ _ _ _ 2 (result_of_code Succeeded) "1234"); [|reflexivity|done].
    vm_compute. reflexivity.
  - vm_compute. reflexivity.
Qed.

(** An application can crash the daemon by naming a plugin that is not
    installed: with an unknown authentication plugin in the request to set a
    standalone secret with a lock of its own, and with an unknown storage plugin in
    the request to delete one, whose metadata are then asked of a plugin that does
    not exist. *)
Theorem unknown_plugins_crash env pid id s e a ui semantic access mode address i :
  let p := ident_storagePluginName (secret_identifier s) in
  ident_name (secret_identifier s) ≠ "" → p ≠ e → hasS env p = true → hasC env e = true →
  hasA env a = false →
  hasE env (ident_storagePluginName i) = false → hasS env (ident_storagePluginName i) = false →
  setStandaloneCustomLockSecret env pid id s e a ui semantic access mode address = Crash
  ∧ ∃ (op : PluginOp (Result * SecretMetadata)) k, deleteStandaloneSecret env pid id i mode = Run op k
      ∧ ¬ installed env (Plugin op).
Proof.
  intros p Hn Hpe Hs Hc Ha HE HS. split.
  - unfold setStandaloneCustomLockSecret, standalone_guards. fold p. unfold isEmpty.
    rewrite !(bool_decide_false (_ = _)) by done. rewrite Hs, Hc. simpl.
    destruct (m_authenticationPlugins env !! a) eqn:Hl; [|done].
    unfold hasA in Ha. rewrite bool_decide_true in Ha by eauto. done.
  - unfold deleteStandaloneSecret, with_secretMetadata, secretMetadata_of. rewrite HE.
    do 2 eexists. split; [reflexivity|]. simpl. by rewrite HS.
Qed.

Lemma unknown_plugins_crash_witness :
  let s := mkSecret (mkIdentifier "pin" "" "sqlite") "1234" ∅ in
  setStandaloneCustomLockSecret example_env 2 7 s "enc" "nosuch" noInteraction 8 0 SystemInteraction ""
    = Crash
  ∧ ∃ (op : PluginOp (Result * SecretMetadata)) k,
      deleteStandaloneSecret example_env 2 7 (mkIdentifier "pin" "" "nosuch") SystemInteraction = Run op k
      ∧ ¬ installed example_env (Plugin op).
Proof.
  intros s. apply (unknown_plugins_crash example_env 2 7 s); first [discriminate|vm_compute; reflexivity].
Defined.
