(* ===== verification/LockProps.v ===== *)
(** The properties of the lock code, of locking crypto plugins and of the names
    of plugins. *)
From S2P Require Import Prelude Result PluginApi SqlCipherPlugin PluginFunctionWrappers DataProtector DataProtectorSpec Processor Controller CryptoManager LockCodes LockCodesSpec CryptoProcessor.
From Stdlib Require Import Ascii Lia.

(** * A small environment *)

(** A string of exactly [n] bytes. *)
Fixpoint fit (n : nat) (s : bytes) : bytes :=
  match n with
  | O => ""
  | S n' => match s with
            | EmptyString => String "0" (fit n' "")
            | String c s' => String c (fit n' s')
            end
  end.

Lemma length_fit n s : String.length (fit n s) = n.
Proof. revert s. induction n as [|n IH]; intros []; simpl; [done..| |]; by rewrite IH. Qed.

(** A plugin whose keys contain the input and depend on the iterations, and whose
    texts show the key. *)
Definition toy_plugin : CryptoPlugin :=
  mkCryptoPlugin "toy"
    (λ _ _ kdf, Some (fit 32 ((if bool_decide (kdf_iterations kdf = 12000%Z) then "a" else "b")
                               +:+ kdf_inputData kdf)))
    (λ _ _ key _ _, Some key).

(** A plugin that cannot derive with many iterations. *)
Definition weak_plugin : CryptoPlugin :=
  mkCryptoPlugin "feeble"
    (λ _ _ kdf, if bool_decide (kdf_iterations kdf = 12000%Z) then Some (fit 32 "") else None)
    (λ _ _ key _ _, Some key).

Definition toy_env (plugins : gmap string CryptoPlugin) (default : string) (notify : bool) : LockEnv :=
  mkLockEnv false plugins
    (λ v, if bool_decide (v = "SAILFISH_SECRETSD_DEFAULT_CRYPTO_PLUGIN") then default else "")
    (λ b, b) (λ n, repeated n "u") (λ _, Some "random") (λ _, "2018") notify.

Definition toy : LockEnv := toy_env {["toy" := toy_plugin]} "toy" true.

#[global] Instance toy_uuid_inj plugins d n : Inj (=) (=) (le_uuid (toy_env plugins d n)).
Proof.
  intros i j H. simpl in H. revert j H. induction i as [|i IH]; intros [|j]; simpl; [done..|].
  intros [= H]. f_equal. by apply IH.
Qed.

(** A daemon whose directory holds [check] as the lock code check data, and a
    salt. *)
Definition toy_dir (b : bytes) : Protector :=
  mkProtector (Some [mkDataDir "dir" 1 [("file0", Some b); ("file1", Some b); ("file2", Some b)]]) 5 [] "".

Definition toy_state (check : bytes) : LockState :=
  mkLockState (toy_dir check) (toy_dir "salt") [] 0 0 "" None false true.

Lemma uuid_not_dir i : repeated i "u" ≠ "dir".
Proof. by destruct i. Qed.

Lemma toy_ready plugins d n check : ready (toy_env plugins d n) check "salt" (toy_state check).
Proof.
  assert (∀ b, reads (toy_dir b) b) as Hreads.
  { intros b. right. eexists. split; [reflexivity|]. unfold count. simpl.
    rewrite !filter_cons, !decide_True by done. simpl. split; [lia|]. exists b. by left. }
  refine (conj (conj _ (conj _ (conj _ (conj _ _)))) (conj (Hreads check) (conj _ (or_intror (conj eq_refl (Hreads "salt"))))));
    try done; try by constructor.
  all: intros i _ H; simpl in H; by apply list_elem_of_singleton, uuid_not_dir in H.
Qed.

Lemma toy_names d n : ∀ k p, le_plugins (toy_env {["toy" := toy_plugin]} d n) !! k = Some p → cp_name p ≠ no_plugin.
Proof. intros k p. simpl. intros [_ <-]%lookup_singleton_Some. done. Qed.

Lemma toy_sizes d n : ∀ k p kdf key, le_plugins (toy_env {["toy" := toy_plugin]} d n) !! k = Some p →
  generate p kdf = Some key → String.length key = 32%nat.
Proof. intros k p kdf key. simpl. intros [_ <-]%lookup_singleton_Some <-%(inj Some). apply (length_fit 32). Qed.

(** * Accepting codes *)

(** C22: Whatever goes wrong, a code that is refused changes neither the keys in
    memory nor the flags that say whether the daemon is locked and whether it has
    a lock code; and testing a code never changes them. *)
Theorem refused_lock_code_changes_nothing env c mode (s : LockState) :
  ((initialize env c mode s).1 = false →
     let s' := (initialize env c mode s).2 in
     m_keyData s' = m_keyData s ∧ noLockCode s' = noLockCode s ∧ masterLocked s' = masterLocked s)
  ∧ let s' := (testLockCode env c s).2 in
    m_keyData s' = m_keyData s ∧ noLockCode s' = noLockCode s ∧ masterLocked s' = masterLocked s.
Proof.
  split.
  - exact (initialize_refused env (m_keyData s) (m_noLockCode s) (m_locked s) c mode s
             (conj eq_refl (conj eq_refl eq_refl))).
  - exact (testLockCode_keeps env (m_keyData s) (m_noLockCode s) (m_locked s) c s
             (conj eq_refl (conj eq_refl eq_refl))).
Qed.

(** C21: Where a lock code has been set with the keys of a crypto plugin, or as a dummy
    code, so that the name of the plugin (or the one that stands for none) is stored
    and not empty, a code is accepted exactly if the text it leads to is the stored
    one: testing it and unlocking with it agree on that.  After unlocking, the daemon
    is unlocked and its memory holds the two keys derived from the code.  (The plugins
    derive keys of the size they are asked for, and nothing fails.)  With an empty
    name, on first use and after a change of a dummy code, the two do not agree:
    [empty_name_disagrees]. *)
Theorem lock_code_accepted_exactly env name text salt c (s : LockState) :
  Inj (=) (=) (le_uuid env) →
  (∀ k p, le_plugins env !! k = Some p → cp_name p ≠ no_plugin) →
  (∀ k p kdf key, le_plugins env !! k = Some p → generate p kdf = Some key → String.length key = 32%nat) →
  before_newline name = name → name ≠ "" →
  ready env (name +:+ newline +:+ text) salt s → keys_fit s →
  let accepted := bool_decide (test_text env name c salt = Some text) in
  let '(r, s') := initialize env c UnlockMode s in
  (testLockCode env c s).1 = accepted ∧ r = accepted
  ∧ (r = true → masterLocked s' = false ∧ noLockCode s' = isEmpty c
     ∧ lock_keys env name c salt = Some (text, bkdbLockKey s', deviceLockKey s')).
Proof.
  intros Hinj Hnot Hsize Hname Hne Hready Hfit accepted.
  pose proof (unlock_good env name text salt Hname Hnot c s _ Hready Hne eq_refl) as Hu.
  pose proof (testLockCode_good env name text salt Hname c s Hready) as [Ht _].
  unfold wp in Hu. destruct (initialize env c UnlockMode s) as [r s'].
  destruct Hu as (Hr&_&Hkeys). simpl in *. split_and!; [done..|].
  intros Htrue. destruct (Hkeys Htrue) as (t&b&d&Hlk&Hkm&Hl&Hn). split_and!; [done..|].
  rewrite Hr in Htrue. apply bool_decide_eq_true in Htrue. unfold test_text in Htrue.
  rewrite Hlk in *. simpl in Htrue. injection Htrue as ->.
  destruct (lock_keys_sizes env Hsize name c salt _ _ _ Hlk) as [Hb Hd].
  destruct (initializeKeyData_ok b d (m_keyData s) Hb Hd Hfit) as (km&Hk&_&Hrb&Hrd).
  unfold bkdbLockKey, deviceLockKey. rewrite Hkm, Hk, Hrb, Hrd. done.
Qed.

Lemma lock_code_accepted_exactly_witness :
  let s := toy_state ("toy" +:+ newline +:+ fit 32 "a1234") in
  let '(r, s') := initialize toy "1234" UnlockMode s in
  (testLockCode toy "1234" s).1 = true ∧ r = true
  ∧ masterLocked s' = false ∧ deviceLockKey s' = fit 32 "b1234".
Proof.
  pose proof (lock_code_accepted_exactly toy "toy" (fit 32 "a1234") "salt" "1234"
    (toy_state ("toy" +:+ newline +:+ fit 32 "a1234")) _ (toy_names _ _) (toy_sizes _ _)
    eq_refl ltac:(discriminate) (toy_ready _ _ _ _) I) as H.
  cbv zeta in H |- *. destruct (initialize _ _ _ _) as [r s'].
  assert (bool_decide (test_text toy "toy" "1234" "salt" = Some (fit 32 "a1234")) = true) as Ha
    by (vm_compute; reflexivity).
  rewrite Ha in H. destruct H as (Ht&Hr&Hk). destruct (Hk Hr) as (Hl&_&Hlk).
  split; [exact Ht|]. split; [exact Hr|]. split; [exact Hl|].
  assert (lock_keys toy "toy" "1234" "salt"
          = Some (fit 32 "a1234", toHex (fit 32 "a1234"), fit 32 "b1234")) as Hv
    by (vm_compute; reflexivity).
  rewrite Hv in Hlk. injection Hlk as _ Hd. exact (eq_sym Hd).
Defined.

(** Set a new lock code, then test a code. *)
Definition change_then_test (env : LockEnv) (new c : bytes) : M LockState (bool * bool) :=
  let* changed := initialize env new ModifyLockMode in
  let* accepted := testLockCode env c in
  ret (changed, accepted).

(** After the lock code was changed, exactly the codes that lead to the same
    text as the new one are accepted, the new one among them; whatever the code
    before, and if it is the first one.  (The plugin [p] that derives the keys is
    given by the stored name, the environment or the default, it is installed
    under its own name, and nothing fails.) *)
Theorem lock_code_change_roundtrip env check salt p new c kd (s : LockState) :
  Inj (=) (=) (le_uuid env) →
  (∀ k q, le_plugins env !! k = Some q → cp_name q ≠ no_plugin) →
  le_plugins env !! cp_name p = Some p → cp_name p ≠ "" → before_newline (cp_name p) = cp_name p →
  before_newline check ≠ no_plugin → choose_plugin env (before_newline check) = Some (Some p) →
  ready env check salt s → key_data env (before_newline check) new salt = Some kd →
  (change_then_test env new c s).1 =
    (true, bool_decide (test_text env (cp_name p) c salt = Some (kd_testCipherText kd)))
  ∧ test_text env (cp_name p) new salt = Some (kd_testCipherText kd).
Proof.
  intros Hinj Hnot Hp Hne Hline Hdummy Hc Hready Hkd. split.
  - enough (wp (change_then_test env new c) (λ r _, r = (true,
      bool_decide (test_text env (cp_name p) c salt = Some (kd_testCipherText kd)))) s) as H by exact H.
    unfold change_then_test. apply wp_bind.
    eapply wp_mono; [by eapply modify_good|]. intros r s1 (->&H1). apply wp_bind.
    rewrite (key_data_plugin env salt _ _ _ _ Hc Hkd) in H1.
    eapply wp_mono; [by apply testLockCode_good|]. intros r s2 (->&_). by apply wp_ret.
  - unfold test_text, lock_keys. rewrite bool_decide_false by (by eapply Hnot).
    by rewrite (key_data_again env salt (before_newline check)), Hkd.
Qed.

Lemma lock_code_change_roundtrip_witness :
  (change_then_test toy "5678" "5678" (toy_state ("toy" +:+ newline +:+ fit 32 "a1234"))).1 = (true, true)
  ∧ (change_then_test toy "5678" "1234" (toy_state "")).1 = (true, false).
Proof.
  split.
  - etransitivity;
      [apply (lock_code_change_roundtrip toy ("toy" +:+ newline +:+ fit 32 "a1234") "salt" toy_plugin
                "5678" "5678" (mkKeyData (toHex (fit 32 "a5678")) (fit 32 "b5678") (fit 32 "a5678") "toy"))|];
      try apply toy_ready; try exact (toy_names "toy" true); try (vm_compute; reflexivity);
      try (vm_compute; discriminate). apply _.
  - etransitivity;
      [apply (lock_code_change_roundtrip toy "" "salt" toy_plugin
                "5678" "1234" (mkKeyData (toHex (fit 32 "a5678")) (fit 32 "b5678") (fit 32 "a5678") "toy"))|];
      try apply toy_ready; try exact (toy_names "toy" true); try (vm_compute; reflexivity);
      try (vm_compute; discriminate). apply _.
Defined.

(** The keys never leave the block of memory that was allocated for the first
    of them, whatever codes are given and whatever fails, if the plugins derive
    keys of the size they are asked for. *)
Theorem lock_keys_fit_memory env (codes : list (bytes * InitializationMode)) (s : LockState) :
  (∀ k p kdf key, le_plugins env !! k = Some p → generate p kdf = Some key → String.length key = 32%nat) →
  keys_fit s →
  keys_fit (foldM (λ _ '(c, mode), initialize env c mode) codes true s).2.
Proof.
  intros Hsize Hfit.
  apply (preserves_foldM keys_fit (λ _ '(c, mode), initialize env c mode)); [|done].
  intros _ [c mode] s' Hs'. by apply initialize_fits.
Qed.

Lemma lock_keys_fit_memory_witness :
  keys_fit (foldM (λ _ '(c, mode), initialize toy c mode)
    [("1234", ModifyLockMode); ("ffff", LockMode); ("1234", UnlockMode)] true (toy_state "")).2.
Proof.
  apply (lock_keys_fit_memory toy [("1234", ModifyLockMode); ("ffff", LockMode); ("1234", UnlockMode)]).
  - apply toy_sizes.
  - exact I.
Defined.

(** * Where no plugin derives keys *)

(** Without a plugin the code is compared through dummy keys: two codes of at
    most 21 bytes are told apart, but of a longer code only the first 22 bytes
    count. *)
Theorem dummy_codes_compared env salt c0 c (s : LockState) :
  Inj (=) (=) (le_uuid env) →
  ready env (no_plugin +:+ newline +:+ (specifyDummyMasterlockKeys c0).1.1) salt s →
  ((String.length c0 ≤ 21)%nat → (String.length c ≤ 21)%nat →
     (testLockCode env c s).1 = bool_decide (c = c0))
  ∧ (∀ d x y, (22 ≤ String.length d)%nat → c0 = d +:+ x → c = d +:+ y →
     (testLockCode env c s).1 = true).
Proof.
  intros Hinj Hready.
  pose proof (testLockCode_good env no_plugin (specifyDummyMasterlockKeys c0).1.1 salt eq_refl c s Hready)
    as [Ht _]. rewrite Ht.
  assert (test_text env no_plugin c salt = Some (specifyDummyMasterlockKeys c).1.1) as ->.
  { unfold test_text, lock_keys. by rewrite bool_decide_true. }
  split.
  - intros H0 H. apply bool_decide_ext. split; [|by intros ->].
    intros Heq%(inj Some). by apply dummy_text_inj.
  - intros d x y Hd -> ->. apply bool_decide_eq_true_2. f_equal. by apply dummy_text_prefix.
Qed.

Lemma dummy_codes_compared_witness :
  let stored c := no_plugin +:+ newline +:+ (specifyDummyMasterlockKeys c).1.1 in
  let env := toy_env ∅ "" true in
  (testLockCode env "1234" (toy_state (stored "1234"))).1 = true
  ∧ (testLockCode env "1235" (toy_state (stored "1234"))).1 = false
  ∧ (testLockCode env ("a long code, 22 bytes." +:+ "5678")
       (toy_state (stored ("a long code, 22 bytes." +:+ "1234")))).1 = true.
Proof.
  split; [|split].
  - rewrite (proj1 (dummy_codes_compared (toy_env ∅ "" true) "salt" "1234" "1234" _ _ (toy_ready _ _ _ _)));
      simpl; [reflexivity|lia..].
  - rewrite (proj1 (dummy_codes_compared (toy_env ∅ "" true) "salt" "1234" "1235" _ _ (toy_ready _ _ _ _)));
      simpl; [reflexivity|lia..].
  - apply (proj2 (dummy_codes_compared (toy_env ∅ "" true) "salt" ("a long code, 22 bytes." +:+ "1234")
      ("a long code, 22 bytes." +:+ "5678") _ _ (toy_ready _ _ _ _))
      "a long code, 22 bytes." "1234" "5678"); simpl; [lia|reflexivity..].
Defined.

(** Changing the lock code where no plugin derives keys locks the user out:
    the change succeeds, and afterwards every code is refused, the new one too,
    because the text was stored without the name that stands for dummy keys. *)
Theorem dummy_code_change_locks_out env check salt new c (s : LockState) :
  Inj (=) (=) (le_uuid env) →
  before_newline check = no_plugin → ready env check salt s →
  (∀ c, key_data env "" c salt = None) →
  (change_then_test env new c s).1 = (true, false).
Proof.
  intros Hinj Hcheck Hready Hnone.
  enough (wp (change_then_test env new c) (λ r _, r = (true, false)) s) as H by exact H.
  unfold change_then_test. apply wp_bind. eapply wp_mono; [by eapply modify_dummy|].
  intros r s1 (->&H1). apply wp_bind. eapply wp_mono; [exact (testLockCode_good env "" _ salt eq_refl c _ H1)|].
  intros r s2 (->&_). apply wp_ret. unfold test_text, lock_keys. by rewrite Hnone.
Qed.

Lemma dummy_code_change_locks_out_witness :
  let check := no_plugin +:+ newline +:+ (specifyDummyMasterlockKeys "1234").1.1 in
  (change_then_test (toy_env ∅ "" true) "5678" "5678" (toy_state check)).1 = (true, false).
Proof.
  apply (dummy_code_change_locks_out (toy_env ∅ "" true)
    (no_plugin +:+ newline +:+ (specifyDummyMasterlockKeys "1234").1.1) "salt" "5678" "5678").
  - apply _.
  - reflexivity.
  - apply toy_ready.
  - intros c. reflexivity.
Defined.

(** What such a change leaves behind is a stored text with an empty name.  There,
    testing the code refuses it and unlocking with it accepts it. *)
Theorem empty_name_disagrees :
  let s := toy_state (newline +:+ (specifyDummyMasterlockKeys "1234").1.1) in
  (testLockCode (toy_env ∅ "" true) "1234" s).1 = false
  ∧ (initialize (toy_env ∅ "" true) "1234" UnlockMode s).1 = true.
Proof. split; vm_compute; reflexivity. Qed.

(** If the plugin has to be searched for, and the first one can derive only
    one of the keys, the second one is asked for both keys with the same number of
    iterations: the key of the databases is the device lock key, and after the
    daemon has set the lock code, it refuses it (the next time, the keys are
    derived as they should be). *)
Theorem search_derives_one_key env p1 p2 ps salt c k0 k t (s : LockState) :
  Inj (=) (=) (le_uuid env) →
  (∀ k q, le_plugins env !! k = Some q → cp_name q ≠ no_plugin) →
  choose_plugin env "" = Some None → all_plugins env = p1 :: p2 :: ps →
  generate p1 (kdf_parameters c salt) = Some k0 →
  generate p1 (setIterations 16000 (kdf_parameters c salt)) = None →
  generate p2 (setIterations 16000 (kdf_parameters c salt)) = Some k →
  cp_encrypt p2 plaintext (String.substring 0 16 (le_sha512 env (salt +:+ k))) k
    BlockModeCbc EncryptionPaddingNone = Some t →
  before_newline (cp_name p2) = cp_name p2 → test_text env (cp_name p2) c salt ≠ Some t →
  ready env "" salt s →
  key_data env "" c salt = Some (mkKeyData (toHex k) k t (cp_name p2))
  ∧ (change_then_test env c c s).1 = (true, false).
Proof.
  intros Hinj Hnot Hc Hall H1 H1' H2 Ht Hline Hne Hready.
  assert (key_data env "" c salt = Some (mkKeyData (toHex k) k t (cp_name p2))) as Hkd.
  { unfold key_data, derive_keys. rewrite Hc. simpl. rewrite Hall. simpl. rewrite H1, H1', H2. simpl.
    change (setIterations 16000 (setIterations 16000 (kdf_parameters c salt)))
      with (setIterations 16000 (kdf_parameters c salt)). rewrite H2. simpl. by rewrite Ht. }
  split; [done|].
  enough (wp (change_then_test env c c) (λ r _, r = (true, false)) s) as H by exact H.
  unfold change_then_test. apply wp_bind. eapply wp_mono; [by eapply modify_good|].
  intros r s1 (->&HR). apply wp_bind.
  eapply wp_mono; [exact (testLockCode_good env (cp_name p2) t salt Hline c _ HR)|].
  intros r s2 (->&_). apply wp_ret. by rewrite bool_decide_false.
Qed.

Definition two_plugins : LockEnv :=
  toy_env (<["feeble" := weak_plugin]> {["toy" := toy_plugin]}) "absent" true.

Lemma search_derives_one_key_witness :
  (change_then_test two_plugins "1234" "1234" (toy_state "")).1 = (true, false).
Proof.
  apply (search_derives_one_key two_plugins weak_plugin toy_plugin [] "salt" "1234" (fit 32 "")
           (fit 32 "b1234") (fit 32 "b1234") (toy_state "")); try (vm_compute; reflexivity).
  - apply _.
  - intros k q. simpl. intros [[_ <-]|[_ [_ <-]%lookup_singleton_Some]]%lookup_insert_Some; discriminate.
  - vm_compute. discriminate.
  - apply toy_ready.
Defined.

(** * Locking crypto plugins *)

Lemma guarded_fails {P} `{!PluginBase P} name (k : M (gmap string P) (option Result)) ps :
  (∀ p, ps !! name = Some p → ∃ r, k ps = (Some r, ps) ∧ code r = Failed) →
  ∃ r, crypto_plugin_guards name k ps = (Some r, ps) ∧ code r = Failed.
Proof.
  intros Hk. unfold crypto_plugin_guards, bind, gets, id. destruct (ps !! name) as [p|]; [|by eexists].
  destruct (pb_supportsLocking p); simpl; [eauto|by eexists].
Qed.

Lemma has_plugin_known {P A} name (p : P) (k : bool → M (gmap string P) A) ps :
  ps !! name = Some p → bind (has_plugin name) k ps = k true ps.
Proof. intros E. unfold has_plugin, bind, gets. by rewrite bool_decide_true. Qed.

(** No crypto plugin is ever locked, unlocked or given a lock code: each of
    these requests fails and leaves all plugins as they are, because the functions
    of the crypto side refuse exactly the plugins they know; and the lock status of
    a plugin that supports locking is reported as unknown.  At least no null
    pointer is followed, since the secrets side checks the name first. *)
Theorem crypto_plugins_are_never_locked {P} `{!PluginBase P} (name : string) (code old new : bytes)
  (ps : gmap string P) :
  Forall (λ m, ∃ r, m ps = (Some r, ps) ∧ Result.code r = Failed)
    [lockCryptoPlugin name; unlockCryptoPlugin name code; setLockCodeCryptoPlugin name old new]
  ∧ ∃ r status, queryLockStatusCryptoPlugin name ps = (Some (r, status), ps)
      ∧ (status = UnknownLockStatus ∨ status = Unsupported).
Proof.
  split.
  - repeat (apply Forall_cons; split); [..|constructor]; apply guarded_fails; intros p Hp;
      unfold lockPlugin, unlockPlugin, setLockCodePlugin, bind at 1;
      rewrite (has_plugin_known _ p) by done; by eexists.
  - unfold queryLockStatusCryptoPlugin, bind, gets, id.
    destruct (ps !! name) as [p|] eqn:E; [|by eauto]. destruct (pb_supportsLocking p); simpl; [|by eauto].
    unfold queryLockStatusPlugin. rewrite (has_plugin_known _ p) by done. simpl. by eauto.
Qed.

(** * Names of plugins *)

(** With an environment that maps nothing, mapping the name of a plugin a
    second time changes nothing, and a name for tests stays one. *)
Theorem plugin_mapping_idempotent (name : string) :
  let map := controller_mappedPluginName (λ _, "") in
  map (map name) = map name ∧ endsWith (map name) testPluginSuffix = endsWith name testPluginSuffix.
Proof.
  cbv zeta. unfold controller_mappedPluginName at 2 3 4.
  assert (performMapping (λ _, "") = true) as -> by (by vm_compute).
  destruct (isEmpty name) eqn:Ename.
  { apply bool_decide_eq_true in Ename as ->. by vm_compute. }
  cbn [negb andb]. destruct (list_find _ (plugin_mapping (λ _, ""))) as [[i [ident plugin]]|] eqn:Hf.
  - apply list_find_Some in Hf as (Hl&_&_). destruct (endsWith name testPluginSuffix);
      do 7 (destruct i as [|i]; [injection Hl as <- <-; by vm_compute|]); done.
  - unfold controller_mappedPluginName. rewrite Ename, Hf. by destruct (performMapping _).
Qed.
