(* ===== verification/CryptoProps.v ===== *)
(** Properties of the crypto side: values, serialization, and the keys that
    plugins store. *)
From S2P Require Import Prelude Result Sqlite Transactions MetadataDb PluginApi.
From S2P Require Import CryptoManager PluginWrapper WrapperSpec SqlitePlugin SqlCipherPlugin CipherSpec.
From S2P Require Import PluginFunctionWrappers FunctionSpec VaultSpec CipherSafety CryptoKey.
From S2P Require Import KeySerialization CryptoPluginWrapper CryptoFunctionWrappers.
From S2P Require Import CryptoWrapperSpec SqlCipherCrypto SqlCipherCryptoSpec CryptoKeysSpec Examples.

(** * Concrete keys and plugins *)

#[export] Instance example_params : CryptoParams := {|
  Custom := unit; KeyPairGenerationParameters := unit; DerivationParameters := unit; noCustom := tt;
|}.

Definition no_pair : KeyPairGenerationParameters := tt.
Definition no_derivation : DerivationParameters := tt.

Definition done_ : CResult := cresult_of_code Succeeded.
Definition unsupported : CResult := cresult_error C_OperationNotSupportedError "not supported".

(** A crypto plugin that counts the operations it does; it signs by appending
    the key. *)
#[export] Instance toy_base : PluginBase nat := {|
  pb_name := "toy";
  pb_supportsLocking := λ _, false;
  pb_isLocked := λ _, false;
  pb_lock := ret false;
  pb_unlock := λ _, ret false;
  pb_setLockCode := λ _ _, ret false;
|}.

Definition count {A} (a : A) : M nat A := λ n, (a, S n).

#[export] Instance toy_plugin : CryptoPlugin nat := {|
  cp_canStoreKeys := false;
  cp_generateRandomData := λ _ _ _ _, count (done_, Some "random");
  cp_seedRandomDataGenerator := λ _ _ _ _ _, count done_;
  cp_generateInitializationVector := λ _ _ _ _, count (done_, Some "iv");
  cp_generateKey := λ k _ _ _, count (done_, Some (set_private "" "secret" k));
  cp_generateAndStoreKey := λ _ _ _ _, ret (unsupported, None);
  cp_importKey := λ data _ _ k, count (done_, set_private data "" k);
  cp_importAndStoreKey := λ _ _ _ _, ret (unsupported, None);
  cp_storedKey := λ _ _ _, ret (unsupported, None);
  cp_storedKeyIdentifiers := λ _ _, ret (unsupported, []);
  cp_calculateDigest := λ x _ _, count (done_, Some x);
  cp_sign := λ x k _ _, count (done_, Some (x +:+ k_privateKey k +:+ k_secretKey k));
  cp_verify := λ s x k _ _, count (done_,
    Some (if bool_decide (s = x +:+ k_privateKey k +:+ k_secretKey k)
          then VerificationSucceeded else VerificationFailed));
  cp_encrypt := λ x iv k _ _ _, count (done_, (Some (iv +:+ x +:+ k_secretKey k), None));
  cp_decrypt := λ x _ _ _ _ _ _, count (done_, (Some x, None));
  cp_initializeCipherSession := λ _ _ _ _ _, count (done_, Some 1%Z);
  cp_updateCipherSessionAuthentication := λ _ _ _ _, count done_;
  cp_updateCipherSession := λ _ x _ _, count (done_, Some x);
  cp_finalizeCipherSession := λ _ _ _ _, count (done_, (None, None));
|}.

(** A template for a key in the collection "vault". *)
Definition template : CKey :=
  mkKey (mkIdentifier "signer" "vault" cipher_name) OriginUnknown AlgorithmUnknown 2
    (Z.lor MetaData PublicKeyData) 256 "" "" "" [] (typed_filterData ∅).

Definition generated : CKey := set_private "" "secret" template.

Lemma generated_wf : key_wf generated.
Proof.
  split; [by vm_compute|]. split; [by vm_compute|]. split; [by vm_compute|].
  split; [split; [by vm_compute|constructor]|]. split; [split; [by vm_compute|]|done].
  intros k v Hkv. change (k_filterData generated) with (<["Type" := "CryptoKey"]> (∅ : FilterData)) in Hkv.
  rewrite insert_empty in Hkv. apply lookup_singleton_Some in Hkv as [<- <-]. by vm_compute.
Qed.

(** The SQLCipher plugin with the locked collection, and its wrapper. *)
Definition key_plugin : Storing SqlCipher nat := mkStoring (locked_cipher []) 0.
Definition key_wrapper : Wrapper (Storing SqlCipher nat) := mkWrapper vault_meta false key_plugin.

Lemma key_plugin_view : view 0 (cipher_vault (locked_cipher [])) key_plugin.
Proof. split; [|done]. split; [apply locked_cipher_ready|done]. Qed.

(** The same with the generated key stored in the collection. *)
Definition keyed_tables : CipherTables :=
  mkCipherTables {["signer" := serialize generated LossySerializationMode]}
    {[("signer", "Type") := "CryptoKey"]}.

Definition keyed_cipher : SqlCipher :=
  mkSqlCipher {["vault" := mkDatabase false "" (Some (DbFile keyed_tables (Some (hexKey "k1")) 1))
                             None "C" [] 0 []]} ∅.

Lemma keyed_cipher_ready : cipher_ready keyed_cipher.
Proof.
  intros c. change (opened c keyed_cipher) with (bool_decide (c ∈ (∅ : gset string))).
  rewrite bool_decide_false by set_solver. unfold database. simpl.
  destruct (decide (c = "vault")) as [->|Hc].
  - rewrite lookup_singleton_eq. split; [constructor|]. intros fl [= <-].
    eexists _, _. split; [reflexivity|]. intros s f [v Hv]. simpl in *.
    apply lookup_singleton_Some in Hv as [[= <- <-] _]. rewrite lookup_singleton_eq. by eexists.
  - rewrite lookup_singleton_ne by done. split; [constructor|done].
Qed.

Definition keyed_wrapper : Wrapper (Storing SqlCipher nat) :=
  mkWrapper vault_meta false (mkStoring keyed_cipher 0).

Lemma keyed_view : view 0 (cipher_vault keyed_cipher) (m_plugin keyed_wrapper).
Proof. split; [|done]. split; [apply keyed_cipher_ready|done]. Qed.

Lemma keyed_meta_ok : meta_ok keyed_wrapper.
Proof. split; [apply vault_meta_good|]. exists vault_rows. repeat split. Qed.

(** * Serialization *)

(** C15: A key that was serialized is read back as it was in lossless mode; in
    lossy mode exactly its identifier and its filter data are lost.  Data with
    another magic number or another version are refused.  This holds for every
    data stream that reads back what it wrote. *)
Theorem key_serialization_roundtrip {Q : QDataStream} `{!QDataStreamLaws Q} mode key m v data :
  key_wf key → uint32 m → int32 v → m ≠ magic ∨ v ≠ version →
  deserialize (serialize key mode) = (kept mode key, true)
  ∧ kept LosslessSerializationMode key = key
  ∧ deserialize (put_quint32 m +:+ put_qint32 v +:+ data) = (noCKey, false).
Proof.
  intros Hwf Hm Hv Hne. split; [by apply deserialize_serialize|]. split; [done|].
  by apply deserialize_other.
Qed.

Lemma key_serialization_roundtrip_witness :
  deserialize (serialize generated LosslessSerializationMode) = (generated, true).
Proof.
  apply (key_serialization_roundtrip LosslessSerializationMode generated magic 99 "");
    [apply generated_wf|done|done|by right].
Defined.

(** Data that end after the header count as a key without any of its parts. *)
Theorem truncated_key_is_accepted :
  (deserialize (put_quint32 magic +:+ put_qint32 version)).2 = true.
Proof. vm_compute. reflexivity. Qed.

(** * Storing keys *)

(** The two ways to a stored key. *)
Inductive key_request `{!CryptoParams} :=
  | GenerateKey (keyTemplate : CKey) (kpgParams : KeyPairGenerationParameters)
      (skdfParams : DerivationParameters)
  | ImportKey (data : bytes) (keyTemplate : CKey) (passphrase : bytes).

Definition run_key_request `{!CryptoParams} {P} `{EncryptedStoragePlugin P, !CryptoPlugin P}
  (md : SecretMetadata) (ck : bytes) (custom : Custom) (ref : CKey) (req : key_request)
  : M (Wrapper P) (CResult * CKey) :=
  match req with
  | GenerateKey k g d => cw_generateAndStoreKey md k g d custom ck ref
  | ImportKey x k p => cw_importAndStoreKey md x k p custom ck ref
  end.

(** C13: Whatever the plugin answers and whatever the engine does, storing a key in
    a plugin changes the metadata as it should if it succeeds, unless the commit
    itself fails, which is not reported; and leaves them as before if it fails, but
    for the counter of a transaction that could not be begun, and then the error
    says so. If the collection was locked, the plugin has forgotten its key
    afterwards, whether storing succeeded or not, if the metadata database works,
    the plugin itself is not locked and it can store keys. *)
Theorem stored_key_atomic `{!CryptoParams} {P} `{EncryptedStoragePlugin P, !CryptoPlugin P, HR : !RelockSpec (P := P)}
  md ck custom ref req t (w : Wrapper P) :
  settled t w →
  wp (run_key_request md ck custom ref req) (λ '(r, _) w',
    key_outcome (sql_insert_secret md) t r (m_metadataDb w')
    ∧ (healthy w → pb_isLocked (m_plugin w) = false → cp_canStoreKeys = true →
       reported_locked (sm_collectionName md) (m_plugin w) = true →
       shut (sm_collectionName md) (m_plugin w'))) w.
Proof.
  intros Hs.
  assert (∀ op, wp (store_key md ck op ref) (λ '(r, _) w',
    key_outcome (sql_insert_secret md) t r (m_metadataDb w')
    ∧ (healthy w → pb_isLocked (m_plugin w) = false → cp_canStoreKeys = true →
       reported_locked (sm_collectionName md) (m_plugin w) = true →
       shut (sm_collectionName md) (m_plugin w'))) w) as Hop; [|by destruct req; apply Hop].
  intros op. pose proof (store_key_outcome md ck op ref t w Hs) as Ho.
  pose proof (store_key_shuts md ck op ref t w Hs) as Hshut. unfold wp in *.
  destruct (store_key md ck op ref w) as [[r key] w']. split; [exact Ho|]. intros. by apply Hshut.
Qed.

Lemma stored_key_atomic_witness :
  wp (run_key_request (key_metadata template vault_metadata "sqlcipher") "wrong" noCustom template
        (GenerateKey template no_pair no_derivation)) (λ '(r, _) w',
    key_outcome (sql_insert_secret (key_metadata template vault_metadata "sqlcipher")) vault_rows r
      (m_metadataDb w')
    ∧ opened "vault" (m_storage (m_plugin w')) = false) key_wrapper.
Proof.
  eapply wp_mono.
  - apply (stored_key_atomic (key_metadata template vault_metadata "sqlcipher") "wrong" noCustom template
             (GenerateKey template no_pair no_derivation) vault_rows key_wrapper). repeat split.
  - intros [r key] w' [Ho Hs]. split; [exact Ho|]. apply Hs; [apply vault_meta_good|reflexivity..|].
    vm_compute. reflexivity.
Defined.

(** A stored key can be used as soon as it was generated: if the OpenSSL
    plugin makes a key, the collection exists and is unlocked or unlocked by the
    given key, and the name is free, then the key is stored with the metadata of
    its collection, the answer is the key without its private parts, and signing
    with that answer is signing with the whole key; in between and afterwards
    the collection is locked if it was. *)
Theorem generated_key_signs cfg `{!CryptoParams} {Stream : QDataStream} `{!QDataStreamLaws Stream}
  {P O Q} `{EncryptedStoragePluginSpec P, !Definite P, HO : PluginBase O, !CryptoPlugin O}
  `{HQ : PluginBase Q, !CryptoPlugin Q}
  custom plugin keyTemplate g d ck data options V t row (o : O) r0 full o' (w : Wrapper (Storing P O)) :
  let id := k_identifier keyTemplate in
  settled t w → healthy w → view o V (m_plugin w) →
  collections t !! ident_collectionName id = Some row →
  secrets t !! (ident_collectionName id, ident_name id) = None →
  is_Some (accessible (P := Storing P O) (ident_collectionName id) ck V) →
  cp_generateKey keyTemplate g d custom o = (r0, Some full, o') → c_code r0 = Succeeded →
  k_identifier full = id → key_wf full → own_identifier (P := P) id →
  wp (let* '(r, key) := cf_generateAndStoreKey custom plugin keyTemplate g d ck in
      let* '(r', signature) :=
        cf_sign cfg (the_wrapper (P := P) (O := O) (Q := Q) custom) data key ck options in
      ret (r, key, r', signature))
    (λ '(r, key, r', signature) w', c_ok r = true ∧ key = set_private "" "" full
      ∧ ∃ a o2, (r', a, o2) = cp_sign data full options custom o' ∧ signature = default "" a
         ∧ both (view o2 (vault_with_key full V)) w') w.
Proof.
  intros id Hs Hh Hv Hrow Hfree [e Ha] Hgen Hr0 Hid Hwf Hown. apply wp_bind.
  pose proof (cf_generateAndStoreKey_kept (P := P) custom plugin keyTemplate g d ck V o t row w) as Hk.
  rewrite Hgen in Hk. simpl in Hk. eapply wp_mono.
  { apply Hk; try done; [apply Hown|by rewrite Hr0]. }
  intros [r key] w1 Hkept. assert (c_ok r = true) as Hr.
  { destruct Hkept as [_ Hkept]. destruct (c_ok r); [done|]. destruct Hkept as (_&_&[?|[Hx|Hx]]).
    - congruence.
    - simpl in Hx. fold id in Hx. congruence.
    - unfold sql_insert_secret in Hx. simpl in Hx. fold id in Hx. by rewrite Hrow, Hfree in Hx. }
  pose proof Hkept as [_ Hkept']. rewrite Hr in Hkept'. destruct Hkept' as (_&->&_).
  apply wp_bind. eapply wp_mono.
  { eapply (key_kept_signs cfg (P := P) (Q := Q)); [exact Hkept|done|done|by rewrite Hid|].
    simpl. fold id. by rewrite Hid. }
  intros [r' sig] w2 Hx. apply wp_ret. by split_and!.
Qed.

Definition sign_options : SignatureOptions := mkSignatureOptions 0 0.
Definition key_config : MetadataConfig := mkMetadataConfig "enc" "auth" "sqlcipher" true.

Lemma generated_key_signs_witness :
  wp (let* '(r, key) := cf_generateAndStoreKey noCustom "sqlcipher" template no_pair no_derivation "k1" in
      let* '(r', signature) := cf_sign key_config
        (the_wrapper (P := SqlCipher) (O := nat) (Q := nat) noCustom) "data" key "k1" sign_options in
      ret (r, key, r', signature))
    (λ '(r, key, r', signature) w', c_ok r = true ∧ k_secretKey key = "" ∧ signature = "datasecret")
    key_wrapper.
Proof.
  eapply wp_mono.
  - apply (generated_key_signs key_config noCustom "sqlcipher" template no_pair no_derivation "k1"
      "data" sign_options (cipher_vault (locked_cipher [])) vault_rows
      (collection_values vault_metadata) 0 done_ generated 1 key_wrapper).
    + repeat split.
    + apply vault_meta_good.
    + apply key_plugin_view.
    + reflexivity.
    + reflexivity.
    + vm_compute. by eexists.
    + reflexivity.
    + reflexivity.
    + reflexivity.
    + apply generated_wf.
    + by split.
  - intros [[[r key] r'] sig] w' (Hr&->&a&o2&[= -> -> ->]&->&_). by split_and!.
Defined.

Lemma wp_bind_ext {S A B} (k' : A → M S B) (k : A → M S B) m Q s :
  (∀ a, k' a = k a) → wp (bind m k') Q s → wp (bind m k) Q s.
Proof. intros Hk. unfold wp, bind. destruct (m s) as [a s']. by rewrite Hk. Qed.

(** C12: With a mere reference to a stored key, each of the five functions that
    use a key does what the OpenSSL plugin does with the key stored under the
    reference, exactly if the collection is unlocked or unlocked by the given
    collection key and holds such a key.  Otherwise it fails and the OpenSSL
    plugin has no part in it.  Nothing stored is changed, and the collection is
    locked afterwards if it was before. *)
Theorem reference_acts_for_stored_key cfg `{!CryptoParams} {Stream : QDataStream} `{!QDataStreamLaws Stream}
  {P O Q} `{EncryptedStoragePluginSpec P, !Definite P, HO : PluginBase O, !CryptoPlugin O}
  `{HQ : PluginBase Q, !CryptoPlugin Q} {S} (pcp : PluginPointers (P := Storing P O) (Q := Q) (S := S)) pl
  key ck V (o : O) (s : S) :
  pw_wrapper pcp = Some pl → meta_ok (at_get pl s) → view o V (m_plugin (at_get pl s)) →
  lacks_all key = true →
  let acts {A B} (operation : CKey → M O (CResult * A)) untouched (out : A → B) :=
    λ '(r, b) s', ∃ w', s' = at_put pl w' s ∧ acts_for (P := P) V key ck o operation untouched out r b w' in
  (∀ data options, wp (cf_sign cfg pcp data key ck options)
     (acts (λ k, cp_sign data k options (pw_custom pcp)) None (default "")) s)
  ∧ (∀ signature data options, wp (cf_verify cfg pcp signature data key ck options)
     (acts (λ k, cp_verify signature data k options (pw_custom pcp)) None
        (default VerificationStatusUnknown)) s)
  ∧ (∀ data iv options auth, wp (cf_encrypt cfg pcp data iv key ck options auth)
     (acts (λ k, cp_encrypt data iv k options auth (pw_custom pcp)) (None, None)
        (λ '(x, tag), (default "" x, default "" tag))) s)
  ∧ (∀ data iv options auth tag, wp (cf_decrypt cfg pcp data iv key ck options auth tag)
     (acts (λ k, cp_decrypt data iv k options auth tag (pw_custom pcp)) (None, None)
        (λ '(x, status), (default "" x, default VerificationStatusUnknown status))) s)
  ∧ (∀ client iv options, cso_operation options ∈ [OperationSign; OperationVerify; OperationEncrypt; OperationDecrypt] →
     wp (cf_initializeCipherSession cfg pcp client iv key ck options)
     (acts (λ k, cp_initializeCipherSession client iv k options (pw_custom pcp)) None (default 0%Z)) s).
Proof.
  intros Hpl Hm Hv Hkey acts. pose proof (lacks_all_private _ Hkey) as Hpriv.
  split_and!; intros; unfold cf_sign, cf_verify, cf_encrypt, cf_decrypt, cf_initializeCipherSession.
  - rewrite Hpriv. by apply use_key_acts.
  - rewrite Hkey. by apply use_key_acts.
  - rewrite Hkey. apply (wp_bind_ext (λ '(r, x), ret (r, let '(c, t) := x in (default "" c, default "" t))));
      [by intros [? []]|]. by apply use_key_acts.
  - rewrite Hpriv. apply (wp_bind_ext (λ '(r, x), ret (r, let '(c, v) := x in
      (default "" c, default VerificationStatusUnknown v)))); [by intros [? []]|]. by apply use_key_acts.
  - replace (session_reference (cso_operation options) key) with true; [by apply use_key_acts|].
    unfold session_reference. rewrite Hkey, Hpriv.
    match goal with Hop : _ ∈ _ |- _ => set_unfold in Hop; by destruct_or? Hop; rewrite Hop end.
Qed.

Lemma keyed_referenced : referenced (P := SqlCipher) (cipher_vault keyed_cipher) template = Some generated.
Proof. vm_compute. reflexivity. Qed.

Lemma keyed_locked :
  accessible (P := Storing SqlCipher nat) "vault" "k2" (cipher_vault keyed_cipher) = None.
Proof. vm_compute. reflexivity. Qed.

Definition sign_pointers := the_wrapper (P := SqlCipher) (O := nat) (Q := nat) noCustom.

Lemma reference_acts_for_stored_key_witness :
  wp (cf_sign key_config sign_pointers "data" template "k1" sign_options)
    (λ '(r, signature) w', c_ok r = true ∧ signature = "datasecret") keyed_wrapper
  ∧ wp (cf_sign key_config sign_pointers "data" template "k2" sign_options)
    (λ '(r, signature) w', c_ok r = false ∧ signature = "" ∧ m_opensslCryptoPlugin (m_plugin w') = 0)
    keyed_wrapper.
Proof.
  split.
  - destruct (reference_acts_for_stored_key key_config sign_pointers (mkPlace id (λ w _, w)) template "k1"
      (cipher_vault keyed_cipher) 0 keyed_wrapper eq_refl keyed_meta_ok keyed_view eq_refl) as [Hsign _].
    eapply wp_mono; [apply Hsign|]. intros [r sig] s' (w'&->&Hx). unfold acts_for in Hx.
    rewrite keyed_referenced in Hx.
    destruct (accessible _ "k1" _) eqn:Ha; [|vm_compute in Ha; discriminate].
    destruct Hx as (a&o'&[= -> -> ->]&->&_). split; reflexivity.
  - destruct (reference_acts_for_stored_key key_config sign_pointers (mkPlace id (λ w _, w)) template "k2"
      (cipher_vault keyed_cipher) 0 keyed_wrapper eq_refl keyed_meta_ok keyed_view eq_refl) as [Hsign _].
    eapply wp_mono; [apply Hsign|]. intros [r sig] s' (w'&->&Hx). unfold acts_for in Hx.
    change (ident_collectionName (k_identifier template)) with "vault" in Hx.
    rewrite keyed_locked in Hx.
    destruct Hx as (Hr&->&_&_&Ho). split; [exact Hr|]. split; [reflexivity|exact Ho].
Defined.

(** * What leaves the plugin *)

(** What [nullifyKeyFields] leaves of a key. *)
Lemma nullify_private keep full :
  let kept_ := has_flag keep PrivateKeyData && has_flag (k_componentConstraints full) PrivateKeyData in
  k_privateKey (nullifyKeyFields keep full) = (if kept_ then k_privateKey full else "")
  ∧ k_secretKey (nullifyKeyFields keep full) = (if kept_ then k_secretKey full else "").
Proof.
  unfold nullifyKeyFields. destruct (has_flag keep PrivateKeyData), (has_flag _ PrivateKeyData);
    cbn [negb andb orb]; repeat case_match; done.
Qed.

Lemma nullify_public keep full :
  let kept_ := has_flag keep PublicKeyData && has_flag (k_componentConstraints full) PublicKeyData in
  k_publicKey (nullifyKeyFields keep full) = if kept_ then k_publicKey full else "".
Proof.
  unfold nullifyKeyFields. destruct (has_flag keep PublicKeyData), (has_flag _ PublicKeyData);
    cbn [negb andb orb]; repeat case_match; done.
Qed.

(** A key without its private parts. *)
Definition harmless (k : option CKey) : Prop :=
  ∀ key, k = Some key → k_privateKey key = "" ∧ k_secretKey key = "".

Lemma store_as_secret_harmless `{!QDataStream} {P O} `{EncryptedStoragePlugin P} retn full (s : Storing P O) :
  wp (store_as_secret retn full) (λ '(_, k) _, harmless k) s.
Proof.
  unfold store_as_secret. apply wp_bind. unfold wp at 1. case_match; apply wp_ret; [done|].
  by intros key [= <-].
Qed.

(** C14: Whatever the storage holds and does, what the three operations on stored
    keys of the SQLCipher plugin return has private parts only if they are asked for
    and the constraints of the key allow it: storedKey returns exactly the
    components that were asked for and are allowed, generateAndStoreKey and
    importAndStoreKey never return private parts. This is about these operations of
    the crypto plugin only: the same plugin is a storage, and its getSecret returns
    the serialized key to the daemon without regard to the constraints. *)
Theorem key_operations_withhold_private_parts `{!CryptoParams, !QDataStream} {P O}
  `{EncryptedStoragePlugin P, HO : PluginBase O, !CryptoPlugin O} (s : Storing P O) :
  (∀ id components custom, wp (sc_storedKey id components custom) (λ '(_, k) _,
     let full := default noCKey (storedKey_internal id s).1.2 in
     k = Some (nullifyKeyFields components full)
     ∧ (has_flag components PrivateKeyData && has_flag (k_componentConstraints full) PrivateKeyData = false →
        harmless k)) s)
  ∧ (∀ k g d custom, wp (sc_generateAndStoreKey k g d custom) (λ '(_, k) _, harmless k) s)
  ∧ (∀ x k p custom, wp (sc_importAndStoreKey x k p custom) (λ '(_, k) _, harmless k) s).
Proof.
  split_and!.
  - intros id comps custom. unfold sc_storedKey. apply wp_bind. unfold wp at 1.
    destruct (storedKey_internal id s) as [[r k] s']. apply wp_ret. split; [done|].
    intros Hf key [= <-]. destruct (nullify_private comps (default noCKey k)) as [-> ->].
    simpl in *. by rewrite Hf.
  - intros k g d custom. unfold sc_generateAndStoreKey. case_match; [by apply wp_ret|].
    apply wp_bind. unfold wp at 1. destruct (on_openssl _ s) as [[r k'] s']. cbn [fst snd].
    case_match; [by apply wp_ret|]. apply store_as_secret_harmless.
  - intros x k p custom. unfold sc_importAndStoreKey. case_match; [by apply wp_ret|].
    apply wp_bind. unfold wp at 1. destruct (on_openssl _ s) as [[r k'] s']. cbn [fst snd].
    case_match; [by apply wp_ret|]. apply store_as_secret_harmless.
Qed.

(** A key that names a stored key is never used itself, even if it brings
    its own private part: the stored key is used in its place, without the
    collection key, or the operation fails because the collection is locked. *)
Theorem own_key_material_is_ignored cfg `{!CryptoParams} {Stream : QDataStream} `{!QDataStreamLaws Stream}
  {P O Q} `{EncryptedStoragePluginSpec P, !Definite P, HO : PluginBase O, !CryptoPlugin O}
  `{HQ : PluginBase Q, !CryptoPlugin Q} custom data key ck options V (o : O) (w : Wrapper (Storing P O)) :
  view o V (m_plugin w) → own_identifier (P := P) (k_identifier key) → lacks_private key = false →
  wp (cf_sign cfg (the_wrapper (P := P) (O := O) (Q := Q) custom) data key ck options) (λ '(r, signature) w',
    match stored_key (P := P) V (k_identifier key) with
    | Some full => ∃ a, (r, a, m_opensslCryptoPlugin (m_plugin w')) = cp_sign data full options custom o
        ∧ signature = default "" a
    | None => c_ok r = false ∧ signature = "" ∧ m_opensslCryptoPlugin (m_plugin w') = o
    end) w.
Proof.
  intros [Hv Ho] [Hid Hname] Hp. unfold cf_sign. rewrite Hp. apply wp_bind. unfold use_key.
  cbn [pw_wrapper the_wrapper]. eapply wp_mono.
  { apply (wp_at _ _ (λ '(r, a) w', match full_key (P := P) V key with
      | Some full => (r, a, m_opensslCryptoPlugin (m_plugin w')) = cp_sign data full options custom o
      | None => c_ok r = false ∧ a = None ∧ m_opensslCryptoPlugin (m_plugin w') = o
      end)). unfold use_stored_key. apply wp_bind, wp_ret, wp_bind, wp_zoom.
    eapply wp_mono; [by apply (with_full_key_vault key)|]. intros [r a] p' [_ Hx].
    apply wp_bind, wp_ret, wp_ret. simpl in *. by rewrite Ho in Hx. }
  pose proof (key_identifier_names _ Hid) as [Hn _]. intros [r a] w' (w''&->&Hx). apply wp_ret. simpl.
  revert Hx. unfold full_key, isEmpty. rewrite (bool_decide_false _ Hn), bool_decide_true by done.
  cbn [negb andb]. destruct (stored_key V _); [by exists a|].
  by intros (?&->&?).
Qed.

(** Someone unlocked the collection; a stranger knows the name of the key and
    brings a private part of no worth. *)
Definition unlocked_keys : Wrapper (Storing SqlCipher nat) :=
  mkWrapper vault_meta false (ep_setEncryptionKey "vault" "k1" (m_plugin keyed_wrapper)).2.

Definition forged : CKey := set_private "nonsense" "" template.

Lemma unlocked_view :
  view 0 (vault_key (key_of (P := Storing SqlCipher nat)) "vault" "k1" (cipher_vault keyed_cipher)) (m_plugin unlocked_keys).
Proof. exact (proj1 (view_setEncryptionKey _ "vault" "k1" _ keyed_view)). Qed.

Lemma unlocked_stored_key :
  stored_key (P := SqlCipher) (vault_key (key_of (P := Storing SqlCipher nat)) "vault" "k1" (cipher_vault keyed_cipher))
    (k_identifier forged) = Some generated.
Proof. vm_compute. reflexivity. Qed.

Lemma own_key_material_is_ignored_witness :
  wp (cf_sign key_config sign_pointers "data" forged "" sign_options)
    (λ '(r, signature) w', signature = "datasecret") unlocked_keys.
Proof.
  eapply wp_mono; [apply (own_key_material_is_ignored (Q := nat) key_config noCustom "data" forged ""
    sign_options _ 0 unlocked_keys unlocked_view); [by split|reflexivity]|].
  intros [r sig] w' Hx. rewrite unlocked_stored_key in Hx. destruct Hx as (a&[= -> -> _]&->). reflexivity.
Defined.

(** * Comparing keys *)

Definition sized_key (name : string) (size : Z) : CKey :=
  mkKey (mkIdentifier name "vault" "sqlcipher") OriginUnknown AlgorithmUnknown OperationUnknown
    MetaData size "" "" "" [] (typed_filterData ∅).

(** The order of keys has a cycle: sizes are compared only if neither is
    zero, names otherwise.  Keys that differ in what may be read back of them
    are equal. *)
Theorem key_order_has_cycle :
  ∃ a b c, key_ltb a b = true ∧ key_ltb b c = true ∧ key_ltb c a = true
  ∧ ∀ key constraints,
      key_eqb key (mkKey (k_identifier key) (k_origin key) (k_algorithm key) (k_operations key) constraints
                     (k_size key) (k_publicKey key) (k_privateKey key) (k_secretKey key)
                     (k_customParameters key) (k_filterData key)) = true.
Proof.
  exists (sized_key "3" 128), (sized_key "1" 256), (sized_key "2" 0). repeat split.
  intros key constraints. unfold key_eqb. simpl. by rewrite !bool_decide_true.
Qed.
