(* ===== verification/OpenSslProps.v ===== *)
(** The theorems about the OpenSSL crypto plugin. *)
From S2P Require Import Prelude Result PluginApi CryptoManager CryptoKey CryptoPluginWrapper.
From S2P Require Import OpenSslApi OpenSslEvp OpenSslCrypto OpenSslSessions OpenSslSpec.
From S2P Require Import OpenSslSessionsSpec OpenSslSessionsInv.

(** * A concrete library *)

Definition yes {A} (x : A) : M unit (Z * A) := ret (1%Z, x).
Definition toy_init (cipher : option Cipher) (c : nat * nat) : M unit (Z * (nat * nat)) :=
  yes (match cipher with Some ci => (cipher_key_bytes ci, cipher_iv_bytes ci) | None => c end).
Definition toy_update (input : UpdateInput) (c : nat * nat) : M unit (Z * bytes * (nat * nat)) :=
  ret (1%Z, match input with InData b => b | _ => "" end, c).

Definition toy_ssl (works : bool) : OpenSsl unit := {|
  CipherCtx := nat * nat;
  MdCtx := bytes;
  PKey := unit;
  cipher_ctx_new := (0, 0)%nat;
  md_ctx_new := "";
  lib_memory := ret true;
  key_bytes := fst;
  iv_bytes := snd;
  lib_EncryptInit := λ ci _ _, toy_init ci;
  lib_DecryptInit := λ ci _ _, toy_init ci;
  lib_EncryptUpdate := toy_update;
  lib_DecryptUpdate := toy_update;
  lib_EncryptFinal := λ c, ret (1%Z, "", c);
  lib_DecryptFinal := λ c, ret (1%Z, "", c);
  lib_control := λ x c, yes (match x with SetIvLength n => (c.1, Z.to_nat n) | _ => c end);
  lib_get_tag := λ n c, ret (1%Z, zeros n, c);
  lib_DigestInit := λ _ _, yes "";
  lib_DigestUpdate := λ _, yes;
  lib_DigestFinal := λ c, ret (1%Z, "", c);
  digest_size := λ _, 0%nat;
  lib_DigestSignInit := λ _ _ _, yes "";
  lib_DigestSignUpdate := λ data c, ret (if works then 1%Z else 0%Z, c +:+ data);
  lib_DigestSignFinal_size := λ c, ret (1%Z, String.length c, c);
  lib_DigestSignFinal := λ c, ret (1%Z, c, c);
  lib_DigestVerifyInit := λ _ _ _, yes "";
  lib_DigestVerifyUpdate := λ data c, ret (if works then 1%Z else 0%Z, c +:+ data);
  lib_DigestVerifyFinal := λ signature c, ret (if bool_decide (signature = c) then 1%Z else 0%Z, c);
  lib_pkey_encrypt_init := λ _, ret 1%Z;
  lib_pkey_decrypt_init := λ _, ret 1%Z;
  lib_set_padding := λ _ _, ret 1%Z;
  lib_pkey_encrypt_size := λ _ _ data, yes (String.length data);
  lib_pkey_encrypt := λ _ _, yes;
  lib_pkey_decrypt_size := λ _ _ data, yes (String.length data);
  lib_pkey_decrypt := λ _ _, yes;
  pkey_kind := λ _, EVP_PKEY_RSA;
  pkey_bits := λ _, 1024%Z;
  lib_read_private := λ _ _, ret (Some tt, false);
  lib_read_public := λ _ _, ret (Some tt, false);
  lib_write_private := λ _, yes "private";
  lib_write_public := λ _, yes "public";
  lib_generate_rsa := λ _ _, ret (Some tt);
  lib_paramgen_init := ret 1%Z;
  lib_set_curve := λ _, ret 1%Z;
  lib_paramgen := λ _, ret 1%Z;
  lib_keygen_init := λ _, ret 1%Z;
  lib_keygen := λ _, yes tt;
  lib_pbkdf2 := λ _ _ _ _ n, yes (zeros n);
  lib_RAND_bytes := λ n, yes (zeros n);
  lib_RAND_add := λ _ _, ret tt;
  lib_urandom := λ n, ret (zeros n);
|}.

#[export] Instance toy_docs works : OpenSslDocs unit (SSL := toy_ssl works).
Proof.
  refine {| pending := λ _, 0%nat |}.
  - lia.
  - intros [] [ci|] key iv c l r c' l' [= <- <- <-] _; done.
  - intros [n|n|tag] c l r c' l' [= <- <- <-] _; done.
  - intros [] [n|b|b] c l r out c' l' [= <- <- <- <-]; simpl; lia.
  - intros [] c l r out c' l' [= <- <- <- <-]; simpl; lia.
  - intros n c l r out c' l' [= <- <- <- <-]. by rewrite zeros_length.
  - intros d c l r out c' l' [= <- <- <- <-]. done.
  - intros c l r n c' l' l2 r2 out c2 l3 [= <- <- <- <-] [= <- <- <- <-]. done.
  - intros k p x l r n l' l2 r2 out l3 [= <- <- <-] [= <- <- <-]. done.
  - intros k p x l r n l' l2 r2 out l3 [= <- <- <-] [= <- <- <-]. done.
Defined.

#[export] Instance toy_accumulates : SignaturesAccumulate (SSL := toy_ssl true).
Proof.
  split; [done|]. intros a b c l c' l' [= <- <-]. simpl. by rewrite string_app_assoc'.
Defined.

#[export] Instance toy_laws : CipherLaws (SSL := toy_ssl true).
Proof.
  split.
  - intros ci key iv input _ _ _ [(l0&c0&l0'&[=])|(l0&r0&c0&l0'&l1&r1&out1&c1&l1'&E0&_&E1&[->|[_ (l2&out2&c2&l2'&[=])]])].
    by injection E1.
  - intros ci key iv input a b (l0&r0&c0&l0'&l1&r1&c1&l1'&l2&r2&c2&l2'&E0&_&E1&_&E2&_) Hin.
    injection E1 as _ <- _ _. injection E2 as _ <- _ _. by rewrite app_empty_r.
  - intros ci key iv input a b _ _ [(l0&c0&l0'&[=])|(l0&r0&c0&l0'&l1&r1&out1&c1&l1'&E0&_&E1&[->|[_ (l2&out2&c2&l2'&[=])]])].
    by injection E1.
  - intros ci key iv input a b c d (l0&r0&c0&l0'&l1&r1&c1&l1'&l2&r2&c2&l2'&E0&_&E1&_&E2&_)
      (?&?&?&?&?&?&?&?&?&?&?&?&_&_&E3&_&E4&_).
    injection E1 as _ <- _ _. injection E2 as _ <- _ _. injection E3 as _ <- _ _. injection E4 as _ <- _ _.
    by rewrite !app_empty_r.
Defined.

(** * A key and options of each kind *)
Definition rsa_key : CKey :=
  mkKey (mkIdentifier "rsa" "" "") OriginUnknown AlgorithmRsa OperationUnknown NoData 1024 "public" "private" "" [] ∅.

Definition aes_key : CKey :=
  mkKey (mkIdentifier "aes" "" "") OriginUnknown AlgorithmAes OperationUnknown NoData 128 "" "" (zeros 16) [] ∅.
Definition signing : CipherSessionOptions :=
  mkCipherSessionOptions OperationSign BlockModeUnknown EncryptionPaddingNone SignaturePaddingNone DigestSha256.
Definition cbc_session : CipherSessionOptions :=
  mkCipherSessionOptions OperationEncrypt BlockModeCbc EncryptionPaddingNone SignaturePaddingNone DigestSha256.

#[local] Instance toy : OpenSsl unit := toy_ssl true.

(** The state after two clients have each begun a session and one of them has signed
    the first piece of its data. *)
Definition two_begun : OpenSslPlugin unit :=
  (ossl_initializeCipherSession 8 (zeros 16) aes_key cbc_session
    (ossl_initializeCipherSession 7 "" rsa_key signing (started tt)).2).2.
Definition two_sessions : OpenSslPlugin unit := (ossl_updateCipherSession 7 "piece" 1 two_begun).2.

Lemma signature_ok (r : CResult) : c_code r = Succeeded → ¬ signature_failed r.
Proof. intros Hr [->|[->| ->]]; done. Qed.

Lemma two_sessions_reachable : rtc session_step (started tt) two_sessions.
Proof.
  eapply rtc_l; [by apply (step_initialize _ 7 "" rsa_key signing)|].
  eapply rtc_l; [apply (step_initialize _ 8 (zeros 16) aes_key cbc_session); by intros _|].
  apply rtc_once, (step_update two_begun 7 "piece" 1). apply signature_ok. by vm_compute.
Qed.





(** A client has no more sessions than there are tokens. *)
Lemma few_sessions {L} `{SSL : OpenSsl L} base (s : OpenSslPlugin L) clientId :
  Inv base s → size (of_client clientId s) ≤ 4.
Proof.
  intros Hi. rewrite <-size_dom.
  trans (size (list_to_set (seqZ 1 4) : gset Z)); [|by rewrite size_list_to_set; [done|apply NoDup_seqZ]].
  apply subseteq_size. intros t Ht%elem_of_dom. destruct Ht as [csd Ht]. rewrite of_client_lookup in Ht.
  destruct (inv_entry _ _ Hi _ _ _ Ht) as (Hr&_). apply elem_of_list_to_set, elem_of_seqZ.
  unfold MAX_CIPHER_SESSIONS_PER_CLIENT in Hr. lia.
Qed.

(** A client never has more than four sessions (one less than
    MAX_CIPHER_SESSIONS_PER_CLIENT).  A further request is refused and changes
    nothing; a token that is given out was not in use and is not zero.  When a
    session is finished its token is free again, even if finishing it failed. *)
Theorem sessions_limited {L} `{SSL : OpenSsl L, !OpenSslDocs L} l (s : OpenSslPlugin L)
    clientId iv key options :
  rtc session_step (started l) s → sound_session iv key options →
  size (of_client clientId s) ≤ 4
  ∧ (size (of_client clientId s) = 4 → session_error key options = None →
     ossl_initializeCipherSession clientId iv key options s
     = (session_failure "Too many concurrent cipher sessions initiated by client", None, s))
  ∧ (∀ r t s', ossl_initializeCipherSession clientId iv key options s = (r, Some t, s') →
     session_at s clientId t = None ∧ (1 ≤ t ≤ 4)%Z ∧ is_Some (session_at s' clientId t))
  ∧ (∀ t data, session_at (ossl_finalizeCipherSession clientId data t s).2 clientId t = None).
Proof.
  intros Hi%session_reachable_inv Hs. split_and!.
  - by eapply few_sessions.
  - intros Hsize He. unfold ossl_initializeCipherSession. rewrite He. unfold bind at 1, gets.
    destruct (decide (getNextCipherSessionToken (m_cipherSessions s) clientId = 0%Z)) as [->|Hn]; [done|].
    destruct (next_token_free _ _ _ eq_refl Hn) as [Hr Hfree].
    set (t := getNextCipherSessionToken _ _) in *. exfalso.
    assert (size (dom (of_client clientId s)) ≤ size (list_to_set (seqZ 1 4) ∖ {[t]} : gset Z)) as Hle.
    { apply subseteq_size. intros t' Ht'%elem_of_dom. destruct Ht' as [csd Ht']. rewrite of_client_lookup in Ht'.
      destruct (inv_entry _ _ Hi _ _ _ Ht') as (Hr'&_). unfold MAX_CIPHER_SESSIONS_PER_CLIENT in Hr'.
      apply elem_of_difference. split; [apply elem_of_list_to_set, elem_of_seqZ; lia|].
      apply not_elem_of_singleton. intros ->. congruence. }
    rewrite size_dom, Hsize, size_difference, size_singleton, size_list_to_set in Hle by
      (apply NoDup_seqZ || (apply singleton_subseteq_l, elem_of_list_to_set, elem_of_seqZ;
        unfold MAX_CIPHER_SESSIONS_PER_CLIENT in Hr; lia)).
    rewrite length_seqZ in Hle. simpl in Hle. lia.
  - intros r t s' E. pose proof (initialize_effect _ clientId _ _ _ _ Hi Hs) as Hw. unfold wp in Hw.
    rewrite E in Hw. destruct Hw as (He&_&Hfree&Hat). split_and!; [done| | |done].
    + destruct Hat as [csd Hat]. pose proof (effect_inv _ _ _ _ Hi He) as Hi'.
      destruct (inv_entry _ _ Hi' _ _ _ Hat) as [Hr _]. lia.
    + destruct Hat as [csd Hat]. pose proof (effect_inv _ _ _ _ Hi He) as Hi'.
      destruct (inv_entry _ _ Hi' _ _ _ Hat) as [Hr _]. unfold MAX_CIPHER_SESSIONS_PER_CLIENT in Hr. lia.
  - intros t data. apply (finalize_frees _ _ _ _ _ Hi).
Qed.

Lemma sessions_limited_witness :
  session_at (ossl_finalizeCipherSession 7 "" 1 two_sessions).2 7 1 = None ∧ is_Some (session_at two_sessions 7 1).
Proof.
  destruct (sessions_limited tt two_sessions 7 "" rsa_key signing two_sessions_reachable ltac:(done))
    as (_&_&_&H). split; [exact (H 1%Z "")|by eexists].
Defined.

(** C18: Signing in a session, piece by piece, gives the signature that [sign]
    gives for all of the data at once, and leaves the same memory.  This needs a
    library that accumulates the pieces, which is documented. *)
Theorem session_signature {L} `{SSL : OpenSsl L, !SignaturesAccumulate} clientId key options chunks sig
    (s : OpenSslPlugin L) m' :
  session_error key options = None → cso_operation options = OperationSign →
  getNextCipherSessionToken (m_cipherSessions s) clientId ≠ 0%Z →
  Forall (λ d, d ≠ "") chunks → chunks ≠ [] →
  ossl_sign (all_of chunks) key (sign_options options) (memory s) = (c_succeeded, Some sig, m') →
  ∃ s', sign_session clientId key options chunks s = (c_succeeded, Some sig, s') ∧ memory s' = m'.
Proof. apply sign_session_agrees. Qed.

Lemma session_signature_witness :
  ∃ s', sign_session 7 rsa_key signing ["some "; "data"] (started tt) = (c_succeeded, Some "some data", s').
Proof.
  edestruct (session_signature 7 rsa_key signing ["some "; "data"] "some data" (started tt)) as [s' [H _]];
    [done|done|done|by repeat constructor|done|by vm_compute|by exists s'].
Defined.






(** A failed update frees the context. *)
Lemma failed_sign_update {L} `{SSL : OpenSsl L} a data c (m : Memory L) :
  a ≠ 0%Z → heap m !! a = Some (OMd c) → (lib_DigestSignUpdate data c (library m)).1.1 ≠ 1%Z →
  ∃ l', sign_session_update a data m
    = ((-1)%Z, mkMemory l' (delete a (heap m)) (next_address m) (faults m)).
Proof.
  intros Ha Hc Hfail. destruct (lib_DigestSignUpdate data c (library m)) as [[r c'] l'] eqn:E. exists l'.
  unfold sign_session_update, session_update. rewrite (bool_decide_false (a = 0%Z)) by done.
  unfold on_md, bind, gets, on_library, zoom, modify, set_heap. rewrite Hc, E. simpl in *.
  rewrite (bool_decide_false (r = 1%Z)) by done. simpl. unfold free, bind, gets.
  rewrite (bool_decide_false (a = 0%Z)) by done. simpl. by rewrite lookup_insert_eq, delete_insert_eq.
Qed.

(** Finishing a session whose context is gone *)
Lemma stale_sign_finalize {L} `{SSL : OpenSsl L} a (m : Memory L) :
  a ≠ 0%Z → heap m !! a = None →
  sign_session_finalize a m
  = ((-1)%Z, 0%Z, 0, mkMemory (library m) (heap m) (next_address m) (DoubleFree :: UseAfterFree :: faults m)).
Proof.
  intros Ha Hc. unfold sign_session_finalize. rewrite (bool_decide_false (a = 0%Z)) by done.
  unfold on_md, bind, gets. rewrite Hc. simpl. unfold free, bind, gets, stale, fault.
  rewrite (bool_decide_false (a = 0%Z)) by done. simpl. by rewrite Hc.
Qed.

Lemma stale_finalize {L} `{SSL : OpenSsl L} clientId token a input (s : OpenSslPlugin L) :
  signing_session s clientId token a → heap (memory s) !! a = None →
  UseAfterFree ∈ faults (memory (ossl_finalizeCipherSession clientId input token s).2).
Proof.
  intros (csd&d&Hat&Hd&Hop&Hci&Hmd&Ha) Hc. unfold ossl_finalizeCipherSession, find_session.
  unfold session_at in Hat. unfold bind at 1, gets. simpl. rewrite Hat, Hd, Hci, Hmd.
  rewrite (bool_decide_false (a = 0%Z)) by done. simpl. unfold finalize_session. rewrite Hci, Hop. simpl.
  unfold finalize_signature. rewrite Hmd. unfold bind, remove_token, modify, on_memory, zoom. simpl.
  rewrite stale_sign_finalize by done. unfold forget_md, modify. simpl. rewrite Hd. unfold cleanup, bind, gets.
  simpl. rewrite lookup_insert_eq. simpl. rewrite Hci. simpl. set_solver.
Qed.

(** A signing session outlives a failed update, but its context does not: the
    update fails with an error, the session is still found under its token, and
    the next use of it, here finishing it, uses the freed context. *)
Theorem failed_update_dangles {L} `{SSL : OpenSsl L} clientId token a data input c (s : OpenSslPlugin L) :
  signing_session s clientId token a → heap (memory s) !! a = Some (OMd c) → data ≠ "" →
  (lib_DigestSignUpdate data c (library (memory s))).1.1 ≠ 1%Z →
  let '(r, out, s1) := ossl_updateCipherSession clientId data token s in
  r = session_failure "Failed to update sign cipher data" ∧ faults (memory s1) = faults (memory s)
  ∧ session_at s1 clientId token = session_at s clientId token
  ∧ UseAfterFree ∈ faults (memory (ossl_finalizeCipherSession clientId input token s1).2).
Proof.
  intros Hs Hc Hdata Hfail. pose proof Hs as (csd&d&Hat&Hd&Hop&Hci&Hmd&Ha).
  destruct (failed_sign_update a data c (memory s) Ha Hc Hfail) as [l' E].
  unfold ossl_updateCipherSession, find_session. unfold session_at in Hat. unfold bind at 1, gets. simpl.
  rewrite Hat, Hd, Hci, Hmd, Hop. rewrite (bool_decide_false (a = 0%Z)) by done.
  rewrite (proj2 (isEmpty_false data)) by done. simpl. unfold on_memory, zoom, bind at 1. rewrite E. simpl.
  split_and!; [done..|]. eapply (stale_finalize _ _ a); [exact Hs|]. simpl. by rewrite lookup_delete_eq.
Qed.

Lemma failed_update_dangles_witness :
  let s0 := (ossl_initializeCipherSession (SSL := toy_ssl false) 7 "" rsa_key signing (started tt)).2 in
  let s1 := (ossl_updateCipherSession (SSL := toy_ssl false) 7 "data" 1 s0).2 in
  UseAfterFree ∈ faults (memory (ossl_finalizeCipherSession (SSL := toy_ssl false) 7 "" 1 s1).2).
Proof.
  intros s0 s1.
  pose proof (failed_update_dangles (SSL := toy_ssl false) 7 1 1 "data" "" "" s0) as H. cbv zeta in H.
  apply H; [|done..]. exists 1%Z. eexists. by vm_compute.
Defined.

(** A request for authenticated encryption with a key of a size that AES does not
    have dereferences a null pointer: the cipher is asked for its mode before it
    is tested. *)
Theorem unsupported_key_size_crashes {L} `{SSL : OpenSsl L} data iv key options auth (s : Memory L) :
  encryptAes_error iv key options auth = None → auth ≠ "" →
  getEvpCipher (eo_blockMode options) (Z.of_nat (String.length (k_secretKey key))) = None →
  NullPointer ∈ faults (ossl_encrypt data iv key options auth s).2.
Proof.
  intros He Ha Hc. pose proof (encryptAes_error_none _ _ _ _ He) as (Halg&_).
  unfold ossl_encrypt. rewrite (bool_decide_true (k_algorithm key = AlgorithmAes)) by done.
  unfold encryptAes. rewrite He, (proj2 (isEmpty_false auth)) by done. simpl. unfold bind at 1.
  unfold plugin_aes_auth_encrypt. rewrite Hc. unfold bind, aes_auth_encrypt_plaintext, EVP_CIPHER_mode, bind. simpl.
  set_solver.
Qed.
