(* ===== verification/CryptoServiceProps.v ===== *)
(** Properties of the crypto service: how requests reach the processor, what is
    checked before a key is used, and how requests end. *)
From S2P Require Import Prelude Result MetadataDb PluginApi PluginWrapper PluginFunctionWrappers Processor SecretsService ProcessorAnswers.
From S2P Require Import CryptoManager CryptoKey KeySerialization CryptoPluginWrapper CryptoFunctionWrappers CryptoProcessor CryptoService CryptoSystem CryptoPromises.

(** * An example: two crypto plugins, of which one stores keys *)

Definition crypto_env : Environment :=
  mkEnvironment false ∅ {["sqlite"]} {["cipher"]} {["cipher"]} ∅ (λ n, n) (λ _, false) "platform"
    (λ _, "app") (λ b, b).
Definition crypto_plugins : gmap string bool := {["cipher" := true; "openssl" := false]}.

Definition c_done : CResult := cresult_of_code Succeeded.
Definition wrong_passphrase : CResult :=
  cresult_error CryptoPluginIncorrectPassphrase "Incorrect passphrase".

(** A plugin that signs by appending the secret key, and that imports keys with a
    passphrase only. *)
Definition toy_perform {A} (op : CryptoOp A) : A :=
  match op in CryptoOp B return B with
  | K_generateRandomData _ _ _ _ _ => (c_done, "random")
  | K_seedRandomDataGenerator _ _ _ _ _ _ => c_done
  | K_generateInitializationVector _ _ _ _ _ => (c_done, "iv")
  | K_generateKey _ _ t _ _ | K_generateAndStoreKey _ _ t _ _ _ => (c_done, set_private "" "secret" t)
  | K_importKey _ _ data pass | K_importAndStoreKey _ _ data _ pass _ =>
      if isEmpty pass then (wrong_passphrase, noCKey) else (c_done, set_private "" data noCKey)
  | K_storedKey _ i _ _ => (c_done, set_identifier i noCKey)
  | K_calculateDigest _ _ data _ => (c_done, data)
  | K_sign _ _ data key _ _ => (c_done, data +:+ k_secretKey key)
  | K_verify _ _ _ _ _ _ _ => (c_done, VerificationSucceeded)
  | K_encrypt _ _ data _ _ _ _ _ => (c_done, (data, ""))
  | K_decrypt _ _ data _ _ _ _ _ _ => (c_done, (data, VerificationSucceeded))
  | K_initializeCipherSession _ _ _ _ _ _ _ => (c_done, 1%Z)
  | K_updateCipherSessionAuthentication _ _ _ _ _ => c_done
  | K_updateCipherSession _ _ _ data _ => (c_done, data)
  | K_finalizeCipherSession _ _ _ data _ => (c_done, (data, VerificationSucceeded))
  end.

Definition example_perform (A : Type) (op : CryptoOp A) : M unit A := ret (toy_perform op).
Definition example_enqueue (pid id : Z) (c : CryptoHelperCall) : M unit Result :=
  ret (result_of_code Succeeded).

(** Operations of plugins are synchronous. *)
Definition synchronous_plugins {W} (perform : ∀ A, CryptoOp A → M W A) : Prop :=
  ∀ A (op : CryptoOp A) w, c_code (op_result op (perform A op w).1) ≠ Pending.

(** Crypto plugins that can store keys are encrypted storage plugins, as the
    interface demands. *)
Definition storing_plugins (env : Environment) (plugins : gmap string bool) : Prop :=
  ∀ p, plugins !! p = Some true → rp_isStorage env p = true → rp_hasWrapper env p = true.

Lemma example_synchronous : synchronous_plugins example_perform.
Proof. intros A op w. destruct op; try done; simpl; by destruct (isEmpty _). Qed.

Lemma example_storing : storing_plugins crypto_env crypto_plugins.
Proof.
  intros p Hp _. unfold crypto_plugins in Hp. destruct (decide (p = "cipher")) as [->|Hne]; [done|].
  rewrite lookup_insert_ne in Hp by done.
  destruct (decide (p = "openssl")) as [->|Hne']; [done|]. by rewrite lookup_singleton_ne in Hp.
Qed.

Abbreviation example_advance := (c_advance example_enqueue crypto_env).
Abbreviation example_reachable :=
  (c_reachable example_perform example_enqueue crypto_env crypto_plugins tt).

(** A run: an application with the process identifier 7 signs with a key that the
    plugin "cipher" stores. *)
Definition key_reference : CKey := set_identifier (mkIdentifier "k" "keys" "cipher") noCKey.
Definition sign_call : CryptoCall := XSign "data" key_reference 0 0 ∅ "cipher".
Definition sign_requested : CSystem unit :=
  example_advance false (mkContext 7 1 sign_call []) (cq_direct crypto_env crypto_plugins 7 1 sign_call)
    (cs_accept 1 (c_initial tt)).
Definition check_passed : CryptoSignal :=
  useKeyPreCheckCompleted (result_of_code Succeeded) (Copy "collection key").
Definition sign_context : CContext := default (mkContext 0 0 sign_call []) (cs_waiting sign_requested !! 1%Z).
Definition sign_checked : CSystem unit :=
  example_advance true (noted (CEvSignal check_passed) sign_context)
    (rp_slot crypto_env crypto_plugins 1 check_passed) (cs_with_helpers ∅ sign_requested).
Definition no_task : CTask := mkCTask sign_context false CCrash.
Definition sign_task : CTask := default no_task (head (cs_tasks sign_checked)).
Definition sign_signed : CSystem unit :=
  let '(t, s) := c_work example_perform sign_task sign_checked in cs_with_tasks [t] s.
Definition signed_task : CTask := default no_task (head (cs_tasks sign_signed)).
Definition sign_answered : CSystem unit :=
  example_advance true (ct_context signed_task) (ct_handler signed_task) (cs_with_tasks [] sign_signed).

Lemma sign_answered_reachable : example_reachable sign_answered.
Proof.
  apply (rtc_l _ _ sign_requested).
  { apply (c_step_request _ _ _ _ _ 7 1 sign_call RSign (CryptoDBusObject crypto_env sign_call).2);
      [done..|]. intros [Ha|[? Ha]]; [by apply elem_of_nil in Ha|done]. }
  apply (rtc_l _ _ sign_checked).
  { apply (c_step_signal _ _ _ _ _ 1 (result_of_code Succeeded) [VKey (Copy "collection key")]);
      [done|vm_compute; reflexivity..]. }
  apply (rtc_l _ _ sign_signed).
  { apply (c_step_work _ _ _ _ _ [] sign_task [] signed_task
             (c_work example_perform sign_task sign_checked).2); [vm_compute; reflexivity..|].
    vm_compute. reflexivity. }
  apply rtc_once. apply (c_step_callback _ _ _ _ _ [] signed_task []); vm_compute; reflexivity.
Qed.

(** * The properties *)

(** C9: Whatever requests arrive, operations finish and answers of the secrets
    service come in, in any order, the crypto service starts an operation of a
    plugin only for the request that asks for it, with the arguments of that request
    (and what the user entered for it) and in the name of its caller. A key that the
    caller only names, with no private or secret part of its own (for verification
    and encryption: no part at all), is used after the secrets service has allowed
    this operation with this key, and with the key of the collection that it gave,
    if the plugin stores the key; if another plugin stores it, the key that is used
    is the one the secrets service handed out. Keys are generated or imported into a
    plugin, or given to the secrets service, only after it has allowed to store one
    under the name the caller gave. Two things are not checked: a key that brings
    such a part of its own is passed on as it is, also if it names a stored key; and
    storedKey asks the crypto plugin that stores a key without any check.
    (Operations of plugins answer at once, and a crypto plugin that can store keys has a
    wrapper; so below.) *)
Theorem crypto_operations_checked {W} (perform : ∀ A, CryptoOp A → M W A)
  (enqueue : Z → Z → CryptoHelperCall → M W Result) `{!QDataStream} env plugins w s x :
  synchronous_plugins perform → storing_plugins env plugins →
  c_reachable perform enqueue env plugins w s →
  (∀ A (op : CryptoOp A) a, (x, CEvRun op a) ∈ cs_performed s → op_allowed env x op)
  ∧ (∀ c, (x, CEvCall c) ∈ cs_performed s → call_allowed x c).
Proof.
  intros Hp Hs Hr. assert (Hi := c_reachable_inv _ _ _ _ Hp Hs w s Hr).
  assert (Hall := ro_performed _ _ (ci_records _ _ Hi)). rewrite Forall_forall in Hall.
  split; [intros A op a Hin|intros c Hin]; by apply Hall in Hin.
Qed.

Lemma crypto_operations_checked_witness :
  (∃ x, (x, CEvRun (K_sign "cipher" ∅ "data" key_reference (Copy "collection key")
                      (mkSignatureOptions 0 0)) (c_done, "data")) ∈ cs_performed sign_answered
        ∧ op_allowed crypto_env x
            (K_sign "cipher" ∅ "data" key_reference (Copy "collection key") (mkSignatureOptions 0 0))).
Proof.
  exists (noted (CEvSignal check_passed) sign_context).
  assert (Hin : (noted (CEvSignal check_passed) sign_context,
    CEvRun (K_sign "cipher" ∅ "data" key_reference (Copy "collection key")
              (mkSignatureOptions 0 0)) (c_done, "data")) ∈ cs_performed sign_answered)
    by (vm_compute; left).
  split; [exact Hin|].
  eapply (crypto_operations_checked example_perform example_enqueue crypto_env crypto_plugins tt
           sign_answered); [apply example_synchronous|apply example_storing|apply sign_answered_reachable|].
  exact Hin.
Defined.

(** C10: In every state that is reached the crypto service has not crashed and has
    not misread a parameter of a pending request.  Each request that was accepted
    has been answered once, or is in exactly one place: an operation of a plugin
    is under way or done, or the request is pending, and then the secrets service
    owes it an answer - but for one case, an import that lacks a passphrase and is
    stored in another plugin than the one which imports.  Every answer leads to a
    reply. *)
Theorem crypto_answered_once {W} (perform : ∀ A, CryptoOp A → M W A)
  (enqueue : Z → Z → CryptoHelperCall → M W Result) `{!QDataStream} env plugins w s id :
  synchronous_plugins perform → storing_plugins env plugins →
  c_reachable perform enqueue env plugins w s →
  cs_stuck s = None
  ∧ accepted_times id s
    = answered_times id s + length (tasks_of id s) + from_option (λ _, 1) 0 (cs_pending s !! id)
  ∧ length (tasks_of id s) + from_option (λ _, 1) 0 (cs_pending s !! id) ≤ 1
  ∧ (∀ p, cs_pending s !! id = Some p →
       is_Some (cs_helpers s !! id)
       ∨ ∃ x data t ip custom q h pass r k,
           cs_waiting s !! id = Some x ∧ cx_call x = XImportStoredKey data t ip custom q
           ∧ mappedPluginName env q ≠ ident_storagePluginName (k_identifier (map_key env t))
           ∧ cx_history x = h ++ [CEvRun (K_importKey (mappedPluginName env q) custom data pass) (r, k)]
           ∧ rp_needsPassphrase r (map_interaction env ip) = true)
  ∧ Forall (λ r, is_Some (crep_reply r)) (cs_reports s).
Proof.
  intros Hp Hs Hr. destruct (c_reachable_inv _ _ _ _ Hp Hs w s Hr) as [Hst [Hrep _ Hstuck]].
  split; [done|]. split_and!.
  1-2: destruct (Hst id) as [Ht _ Hpe|t Ht _ Hpe|x p Ht _ Hpe]; rewrite Ht, Hpe; simpl; lia.
  - intros p Hpe. destruct (Hst id) as [|t|x p' Ht Hw Hpe' Hid Ha Hh Hc]; [congruence..|].
    rewrite Hh. destruct (outstanding (cx_history x)) eqn:Hout; [left; by eexists|right].
    destruct (awaits_abandoned _ _ _ _ _ _ Ha Hout)
      as (data & t & ip & custom & q & h & pass & r & k & Hcall & Hq & Hhist & Hn).
    exists x, data, t, ip, custom, q, h, pass, r, k. by split_and!.
  - eapply Forall_impl; [exact Hrep|]. by intros r [_ Hreply].
Qed.

Lemma crypto_answered_once_witness :
  accepted_times 1 sign_answered = 1 ∧ answered_times 1 sign_answered = 1
  ∧ accepted_times 1 sign_answered
    = answered_times 1 sign_answered + length (tasks_of 1 sign_answered)
      + from_option (λ _, 1) 0 (cs_pending sign_answered !! 1%Z).
Proof.
  split; [vm_compute; reflexivity|]. split; [vm_compute; reflexivity|].
  eapply (crypto_answered_once example_perform example_enqueue crypto_env crypto_plugins tt
            sign_answered 1);
    [apply example_synchronous|apply example_storing|apply sign_answered_reachable].
Defined.

(** C11: A request that succeeds is answered with what was asked for: with the
    values that the plugin gave in the operation of this request, as the last thing
    that happened, with the arguments of the request, the passphrase or input that
    the user entered for it, and the key that was obtained for it (the caller's own,
    the stored one with the collection key that the check gave, or the one the
    secrets service handed out); or with what the secrets service answered to the
    request that was made of it. The answer to a request to generate a stored key is
    the key without its private parts; a key from another storage comes without what
    the caller did not ask for or its constraints forbid. There is one exception: a
    key that is imported with one plugin and stored in another is answered with the
    template that the caller gave, not with the key. *)
Theorem crypto_answers_right {W} (perform : ∀ A, CryptoOp A → M W A)
  (enqueue : Z → Z → CryptoHelperCall → M W Result) `{!QDataStream} env plugins w s rep :
  synchronous_plugins perform → storing_plugins env plugins →
  c_reachable perform enqueue env plugins w s →
  rep ∈ cs_reports s → c_ok (crep_result rep) = true →
  answer_of env (crep_context rep) (crep_result rep) (crep_out rep).
Proof.
  intros Hp Hs Hr Hin. assert (Hi := c_reachable_inv _ _ _ _ Hp Hs w s Hr).
  assert (Hall := ro_reports _ _ (ci_records _ _ Hi)). rewrite Forall_forall in Hall.
  by apply Hall.
Qed.

Lemma crypto_answers_right_witness :
  ∃ rep, rep ∈ cs_reports sign_answered ∧ crep_out rep = [CVBytes "data"]
    ∧ answer_of crypto_env (crep_context rep) (crep_result rep) (crep_out rep).
Proof.
  exists (default (mkCReport sign_context c_done [] None) (head (cs_reports sign_answered))).
  assert (Hin : default (mkCReport sign_context c_done [] None) (head (cs_reports sign_answered))
    ∈ cs_reports sign_answered) by (vm_compute; left).
  split; [exact Hin|]. split; [vm_compute; reflexivity|].
  eapply (crypto_answers_right example_perform example_enqueue crypto_env crypto_plugins tt
            sign_answered);
    [apply example_synchronous|apply example_storing|apply sign_answered_reachable|exact Hin|].
  vm_compute. reflexivity.
Defined.

(** Each method of the D-Bus object of the crypto service calls the function
    of the processor that it means, with its own arguments: packing them into the
    parameters of a request and taking them apart again are inverse, whatever the
    method. *)
Theorem crypto_dispatch_roundtrip `{!QDataStream} env plugins pid id c :
  cq_handlePendingRequest env plugins (CryptoDBusObject env c).1 pid id (CryptoDBusObject env c).2
  = Some (cq_direct env plugins pid id c).
Proof. apply cq_dispatch_direct. Qed.

(** A run: a key is imported with "openssl" to be stored in "sqlite", but the
    data are protected by a passphrase. *)
Definition prompt_allowed : InteractionParameters := mkInteraction "" "" "" "" UnknownOperation "" 8.
Definition import_call : CryptoCall :=
  XImportStoredKey "blob" (set_identifier (mkIdentifier "k" "keys" "sqlite") noCKey) prompt_allowed ∅
    "openssl".
Definition import_requested : CSystem unit :=
  example_advance false (mkContext 7 1 import_call [])
    (cq_direct crypto_env crypto_plugins 7 1 import_call) (cs_accept 1 (c_initial tt)).
Definition store_allowed : CryptoSignal := storeKeyPreCheckCompleted (result_of_code Succeeded) noKey.
Definition import_context : CContext :=
  default (mkContext 0 0 import_call []) (cs_waiting import_requested !! 1%Z).
Definition import_checked : CSystem unit :=
  example_advance true (noted (CEvSignal store_allowed) import_context)
    (rp_slot crypto_env crypto_plugins 1 store_allowed) (cs_with_helpers ∅ import_requested).
Definition import_task : CTask := default no_task (head (cs_tasks import_checked)).
Definition import_tried : CSystem unit :=
  let '(t, s) := c_work example_perform import_task import_checked in cs_with_tasks [t] s.
Definition tried_task : CTask := default no_task (head (cs_tasks import_tried)).
Definition import_parked : CSystem unit :=
  example_advance true (ct_context tried_task) (ct_handler tried_task) (cs_with_tasks [] import_tried).

Lemma import_parked_reachable : example_reachable import_parked.
Proof.
  apply (rtc_l _ _ import_requested).
  { apply (c_step_request _ _ _ _ _ 7 1 import_call RImportStoredKey
             (CryptoDBusObject crypto_env import_call).2);
      [done..|]. intros [Ha|[? Ha]]; [by apply elem_of_nil in Ha|done]. }
  apply (rtc_l _ _ import_checked).
  { apply (c_step_signal _ _ _ _ _ 1 (result_of_code Succeeded) [VKey noKey]);
      [done|vm_compute; reflexivity..]. }
  apply (rtc_l _ _ import_tried).
  { apply (c_step_work _ _ _ _ _ [] import_task [] tried_task
             (c_work example_perform import_task import_checked).2); reflexivity. }
  apply rtc_once. apply (c_step_callback _ _ _ _ _ [] tried_task []); reflexivity.
Qed.

(** A request that is registered as pending although the last thing that
    happened was an operation of a plugin - that is an import into another plugin
    than the one that imports, whose data need a passphrase: it waits for the
    user's input, but nobody has asked the user - stays registered and is never
    answered, whatever happens afterwards. *)
Theorem import_without_prompt_is_never_answered {W} (perform : ∀ A, CryptoOp A → M W A)
  (enqueue : Z → Z → CryptoHelperCall → M W Result) `{!QDataStream} env plugins w s s' id x h A
  (op : CryptoOp A) a :
  synchronous_plugins perform → storing_plugins env plugins →
  c_reachable perform enqueue env plugins w s →
  cs_waiting s !! id = Some x → cx_history x = h ++ [CEvRun op a] →
  rtc (c_step perform enqueue env plugins) s s' →
  cs_waiting s' !! id = Some x ∧ answered_times id s' = answered_times id s
  ∧ accepted_times id s' = S (answered_times id s').
Proof.
  intros Hp Hs Hr Hx Hh Hsteps. assert (Hi := c_reachable_inv _ _ _ _ Hp Hs w s Hr).
  destruct (abandoned_forever perform enqueue env plugins Hp Hs id s s' Hi) as [Ht Hw Hpe _ Ha Hb]; [|done|].
  { exists x. split; [done|]. rewrite Hh. by apply outstanding_last. }
  split_and!; [congruence|done|]. rewrite Ha, Hb.
  destruct (ci_status _ _ Hi id) as [| |? ? ? ? ? ? ? ? Hc]; [congruence..|done].
Qed.

Lemma import_without_prompt_is_never_answered_witness :
  ∃ x h A (op : CryptoOp A) a, cs_waiting import_parked !! 1%Z = Some x ∧ cx_history x = h ++ [CEvRun op a]
    ∧ answered_times 1 import_parked = 0
    ∧ ∀ s', rtc (c_step example_perform example_enqueue crypto_env crypto_plugins) import_parked s' →
        cs_waiting s' !! 1%Z = Some x ∧ answered_times 1 s' = answered_times 1 import_parked
        ∧ accepted_times 1 s' = S (answered_times 1 s').
Proof.
  exists (default import_context (cs_waiting import_parked !! 1%Z)).
  exists (store_checked (mkIdentifier "k" "keys" "sqlite") (result_of_code Succeeded) noKey).
  exists (CResult * CKey)%type, (K_importKey "openssl" ∅ "blob" ""), (wrong_passphrase, noCKey).
  assert (Hw : cs_waiting import_parked !! 1%Z = Some (default import_context (cs_waiting import_parked !! 1%Z)))
    by (vm_compute; reflexivity).
  assert (Hh : cx_history (default import_context (cs_waiting import_parked !! 1%Z))
    = store_checked (mkIdentifier "k" "keys" "sqlite") (result_of_code Succeeded) noKey
      ++ [CEvRun (K_importKey "openssl" ∅ "blob" "") (wrong_passphrase, noCKey)])
    by (vm_compute; reflexivity).
  split; [exact Hw|]. split; [exact Hh|]. split; [vm_compute; reflexivity|]. intros s' Hs'.
  exact (import_without_prompt_is_never_answered example_perform example_enqueue crypto_env
    crypto_plugins tt import_parked s' 1 _ _ _ _ _ example_synchronous example_storing
    import_parked_reachable Hw Hh Hs').
Defined.

(** A key that was generated for another storage plugin and is asked for
    later comes back without its identifier: what the secrets service stores is
    the key in lossy form, and the answer to a request for a stored key is made of
    that alone, with the filter data from the storage and without what was not
    asked for. *)
Theorem stored_key_loses_identifier `{!QDataStream, !QDataStreamLaws _} env plugins pid id i
  components key result filterData :
  key_wf key →
  ∃ k,
    rp_slot env plugins id
      (storedKeyCompleted result (serialize key LossySerializationMode) filterData) = CTake k
    ∧ k (Some (mkCryptoPending pid id RStoredKey [CVIdentifier i; CVComponents components]))
      = CFinish (transformSecretsResult result)
          [CVKey (nullifyKeyFields components
                    (set_filterData filterData (kept LossySerializationMode key)))]
    ∧ k_identifier (nullifyKeyFields components
                      (set_filterData filterData (kept LossySerializationMode key)))
      = mkIdentifier "" "" "".
Proof.
  intros Hwf. eexists. split; [reflexivity|]. split.
  - simpl. unfold rp_storedKey2. by rewrite deserialize_serialize.
  - unfold nullifyKeyFields. by repeat case_match.
Qed.

Lemma example_key_wf : key_wf (set_private "" "secret" key_reference).
Proof.
  split; [by vm_compute|]. split; [by vm_compute|]. split; [by vm_compute|].
  split; [split; [by vm_compute|constructor]|]. split; [split; [by vm_compute|]|done].
  intros k v Hkv.
  change (k_filterData (set_private "" "secret" key_reference))
    with (<["Type" := "CryptoKey"]> (∅ : FilterData)) in Hkv.
  rewrite insert_empty in Hkv. apply lookup_singleton_Some in Hkv as [<- <-]. by vm_compute.
Qed.

Lemma stored_key_loses_identifier_witness :
  key_wf (set_private "" "secret" key_reference)
  ∧ k_identifier (set_private "" "secret" key_reference) = mkIdentifier "k" "keys" "cipher"
  ∧ ∃ k, rp_slot crypto_env crypto_plugins 1
      (storedKeyCompleted (result_of_code Succeeded)
         (serialize (set_private "" "secret" key_reference) LossySerializationMode) ∅) = CTake k.
Proof.
  assert (Hwf : key_wf (set_private "" "secret" key_reference)) by apply example_key_wf.
  split; [exact Hwf|]. split; [reflexivity|].
  destruct (stored_key_loses_identifier crypto_env crypto_plugins 7 1 (mkIdentifier "k" "keys" "cipher")
    7 (set_private "" "secret" key_reference) (result_of_code Succeeded) ∅ Hwf) as (k & Hk & _).
  by exists k.
Defined.
