(* ===== verification/ClientProps.v ===== *)
(** Properties of the client libraries, alone and together with the daemon. *)
From S2P Require Import Prelude Result PluginApi PluginFunctionWrappers Processor.
From S2P Require Import SecretsService CryptoManager CryptoKey KeySerialization CryptoProcessor.
From S2P Require Import CryptoService CryptoSystem CryptoPromises ClientRequest SecretsClient.
From S2P Require Import CryptoClient CipherRequest Marshalling Messages CryptoServiceProps.

(** The setters that do more than set a parameter are setters, too. *)
Lemma verify_forget_fields q :
  cr_result (verify_forget q) = cr_result q ∧ cr_watcher (verify_forget q) = cr_watcher q
  ∧ cr_manager (verify_forget q) = cr_manager q ∧ cr_status (verify_forget q) = cr_status q.
Proof. unfold verify_forget. by repeat case_match. Qed.

Lemma verify_setParameter_setter {T} guarded (eqb : T → T → bool) get set signal v :
  is_setter (verify_setParameter guarded eqb get set signal v).
Proof.
  split; intros q; unfold verify_setParameter; case_match; try done; simpl;
    destruct (verify_forget_fields (with_parameters (set v (cr_parameters q)) q))
      as (Fr & Fw & Fm & Fs);
    destruct (inactivate_fields (verify_forget (with_parameters (set v (cr_parameters q)) q)))
      as (Hr & Hw & Hm & _ & Hs); simpl in *; rewrite ?Fs in Hs; auto; congruence.
Qed.

Lemma lock_forget_fields q :
  cr_result (lock_forget q) = cr_result q ∧ cr_watcher (lock_forget q) = cr_watcher q
  ∧ cr_manager (lock_forget q) = cr_manager q ∧ cr_status (lock_forget q) = cr_status q.
Proof. unfold lock_forget. by repeat case_match. Qed.

Lemma lock_setRequestType_setter guarded eqb get set signal v :
  is_setter (lock_setRequestType guarded eqb get set signal v).
Proof.
  split; intros q; unfold lock_setRequestType; case_match; try done; simpl;
    destruct (inactivate_fields (with_parameters (set v (cr_parameters q)) q))
      as (Hr & Hw & Hm & _ & Hs);
    destruct (lock_forget_fields (inactivate (with_parameters (set v (cr_parameters q)) q)))
      as (Fr & Fw & Fm & Fs); simpl in *; rewrite ?Fs; auto; congruence.
Qed.

(** C26: In every state that an application and the bus bring a request into - any
    request of the two libraries but the cipher session - the request is active
    exactly while a reply is awaited, and its result is then Pending; any reply,
    also an error, finishes it; and a request that is not active and has a manager
    can be started and then awaits a reply or is finished at once. *)
Theorem requests_never_stuck {P V R Call} `{!RequestResult R, !RequestResultLaws R}
  (cls : P → RequestClass P V R Call) p values q :
  rtc (client_step cls) (newRequest p values) q →
  (cr_status q = Active →
     is_Some (cr_watcher q) ∧ rr_is_pending (cr_result q) = true
     ∧ ∀ reply, cr_status (watcherFinished reply q) = Finished
                ∧ cr_watcher (watcherFinished reply q) = None)
  ∧ (cr_status q ≠ Active →
     cr_watcher q = None
     ∧ ∀ m bus, cr_manager q = Some m →
         let q' := startRequest (cls (cr_parameters q)) bus q in
         (cr_status q' = Active ∧ is_Some (cr_watcher q')) ∨ cr_status q' = Finished).
Proof.
  intros Hq. apply client_reachable_ok in Hq. split; intros Hs.
  - assert (Hw := proj1 (ro_active _ Hq) Hs). split_and!; [done|by apply Hq|].
    intros reply. by apply reply_finishes.
  - split; [by apply not_Active_no_watcher|]. intros m bus Hm.
    destruct (start_progress (cls (cr_parameters q)) bus m q Hq Hs Hm) as [(? & ? & _)|[? _]]; auto.
Qed.

(** A run: a decryption is set up and started, and the reply arrives. *)
Definition online (m : nat) : bool := true.
Definition silent {C R V} (c : C) : option (Reply R V) := None.
Definition decryption : CryptoRequest DecryptParameters :=
  setManager (Some 0) (DecryptRequest_setData "secret" (newDecryptRequest BlockModeCbc EncryptionPaddingNone)).
Definition decryption_started : CryptoRequest DecryptParameters :=
  DecryptRequest_startRequest online silent decryption.

Lemma decryption_reachable :
  rtc (client_step (λ _, DecryptRequest_class online))
    (newDecryptRequest BlockModeCbc EncryptionPaddingNone) decryption_started.
Proof.
  eapply rtc_l; [apply (client_set _ (DecryptRequest_setData "secret")), setParameter_setter|].
  eapply rtc_l; [apply (client_manager _ (Some 0))|]. apply rtc_once. apply client_start.
Qed.

Lemma requests_never_stuck_witness :
  cr_status decryption_started = Active
  ∧ cr_status (watcherFinished (BusError "gone") decryption_started) = Finished.
Proof.
  split; [vm_compute; reflexivity|].
  destruct (requests_never_stuck (λ _, DecryptRequest_class online) _ _ decryption_started
              decryption_reachable) as [Ha _].
  destruct (Ha ltac:(vm_compute; reflexivity)) as (_ & _ & Hf). apply Hf.
Defined.

(** * Types of replies *)

(** The types after [Result] that the client expects in the reply to a call. *)
Definition expected_types (c : CryptoCall) : list (CVariant → bool) :=
  match c with
  | XGenerateRandomData _ _ _ _ => rc_types (GenerateRandomDataRequest_class online)
  | XSeedRandomDataGenerator _ _ _ _ _ => rc_types (SeedRandomDataGeneratorRequest_class online)
  | XGenerateInitializationVector _ _ _ _ _ =>
      rc_types (GenerateInitializationVectorRequest_class online)
  | XGenerateKey _ _ _ _ _ => rc_types (GenerateKeyRequest_class online)
  | XGenerateStoredKey _ _ _ _ _ _ => rc_types (GenerateStoredKeyRequest_class online)
  | XImportKey _ _ _ _ => rc_types (ImportKeyRequest_class online)
  | XImportStoredKey _ _ _ _ _ => rc_types (ImportStoredKeyRequest_class online)
  | XStoredKey _ _ _ => rc_types (StoredKeyRequest_class online)
  | XDeleteStoredKey _ => rc_types (DeleteStoredKeyRequest_class online)
  | XStoredKeyIdentifiers _ _ _ => rc_types (StoredKeyIdentifiersRequest_class online)
  | XCalculateDigest _ _ _ _ _ => rc_types (CalculateDigestRequest_class online)
  | XSign _ _ _ _ _ _ => rc_types (SignRequest_class online)
  | XVerify _ _ _ _ _ _ _ => rc_types (VerifyRequest_class online)
  | XEncrypt _ _ _ _ _ _ _ _ => rc_types (EncryptRequest_class online)
  | XDecrypt _ _ _ _ _ _ _ _ _ => rc_types (DecryptRequest_class online)
  | XInitializeCipherSession _ _ _ _ _ _ _ _ _ => cipher_types InitializeCipher
  | XUpdateCipherSessionAuthentication _ _ _ _ => cipher_types UpdateCipherAuthentication
  | XUpdateCipherSession _ _ _ _ => cipher_types UpdateCipher
  | XFinalizeCipherSession _ _ _ _ => cipher_types FinalizeCipher
  | XQueryLockStatus _ _ => rc_types (QueryLockRequest_class online)
  | XModifyLockCode _ _ _ | XProvideLockCode _ _ _ | XForgetLockCode _ _ _ =>
      rc_types (CodeRequest_class online)
  end.

(** As far as there are values, they have these types. *)
Fixpoint values_fit (types : list (CVariant → bool)) (values : list CVariant) : bool :=
  match types, values with
  | t :: types, v :: values => t v && values_fit types values
  | _, _ => true
  end.

Definition sends_status (c : CryptoCall) : bool :=
  match c with
  | XVerify _ _ _ _ _ _ _ | XDecrypt _ _ _ _ _ _ _ _ _ | XFinalizeCipherSession _ _ _ _ => true
  | _ => false
  end.

Definition accepted_reply (c : CryptoCall) (reply : option (CResult * list CVariant)) : Prop :=
  match reply with
  | Some (r, out) => received (expected_types c) (Answer r out) = Answer r out
  | None => False
  end.

Lemma finished_accepted c name defaults r out :
  types_match (expected_types c) defaults = true → c_is_pending r = false →
  length (expected_types c) ≤ length defaults → values_fit (expected_types c) out = true →
  accepted_reply c (cq_finished name defaults (Some (r, out))).1.
Proof.
  intros Ht Hr Hl Hf. unfold cq_finished. simpl. rewrite Hr. simpl.
  cut (types_match (expected_types c) (take (length defaults) out ++ drop (length out) defaults) = true);
    [by intros ->|].
  clear Hr. revert defaults out Ht Hl Hf.
  induction (expected_types c) as [|t ts IH]; intros [|d ds] [|v vs] Ht Hl Hf; simpl in *; try first [done|lia].
  apply andb_prop in Ht as [Hd Ht]. apply andb_prop in Hf as [Hv Hf]. rewrite Hv. simpl.
  apply IH; [done|lia|done].
Qed.

(** Client and daemon agree on the types of replies.  For every call of the
    crypto service, the reply that the daemon sends when the request is finished
    has the types that the client expects, provided that the values which the
    processor reported have them as far as there are any; the reply that the
    daemon sends when it refuses a request at once has them, too, except exactly
    for verifying, decrypting and finalizing a session, where the status is sent as
    another type than the one expected, so that the client sees an error of the bus
    in place of the result. *)
Theorem reply_types_agree `{!QDataStream} env c r :
  c_is_pending r = false →
  (∀ out, values_fit (expected_types c) out = true →
     accepted_reply c (cq_handleFinishedRequest (CryptoDBusObject env c).1 (Some (r, out))).1)
  ∧ (accepted_reply c (cq_pendingReply (CryptoDBusObject env c).1 r []).1 ↔ sends_status c = false).
Proof.
  intros Hr. split.
  - intros out Hf. destruct c; simpl; apply finished_accepted; (done || simpl; lia).
  - unfold cq_pendingReply. rewrite Hr. by destruct c.
Qed.

Lemma reply_types_agree_witness :
  accepted_reply (XSign "data" key_reference 0 0 ∅ "openssl")
    (cq_handleFinishedRequest RSign (Some (c_done, [CVBytes "signature"]))).1.
Proof.
  apply (reply_types_agree crypto_env (XSign "data" key_reference 0 0 ∅ "openssl") c_done);
    vm_compute; reflexivity.
Defined.

(** * Replies that are lost *)

(** A request that was started and awaits its reply. *)
Lemma start_remote {P V R Call} `{!RequestResult R, !RequestResultLaws R}
  (cls : RequestClass P V R Call) m c (q : ClientRequest P V R Call) :
  cr_manager q = Some m → cr_status q ≠ Active → rc_issue cls m (cr_parameters q) = Remote c →
  startRequest cls silent q
  = with_watcher (Some (cls, None)) (issue silent (rc_types cls) (Remote c) (activate q)).2.
Proof.
  intros Hm Hs Hi. unfold startRequest. rewrite Hm, Hi. by rewrite bool_decide_eq_false_2.
Qed.

Lemma finish_result {P V R Call} (r : R) (v : list V) l (q : ClientRequest P V R Call) :
  cr_status (finish r v l q) = Finished ∧ cr_result (finish r v l q) = r
  ∧ cr_values (finish r v l q) = v.
Proof. by destruct (finish_fields r v l q) as (-> & -> & _ & -> & _). Qed.

(** The health check of a service that does not answer reports good health: if
    the call fails on the bus, because the daemon has died or the time is over, the
    request finishes with success and both values say that all is well. *)
Theorem lost_health_check_is_healthy connected message (q : SecretsRequest unit) m :
  cr_manager q = Some m → connected m = true → cr_status q ≠ Active →
  let q' := watcherFinished (BusError message)
              (HealthCheckRequest_startRequest connected silent q) in
  cr_status q' = Finished ∧ ok (cr_result q') = true ∧ isHealthy q' = true.
Proof.
  intros Hm Hc Hs. unfold HealthCheckRequest_startRequest.
  rewrite (start_remote _ m DGetHealthInfo); [done..|]. simpl.
  unfold sm_getHealthInfo, sm_call. by rewrite Hc.
Qed.

Lemma lost_health_check_is_healthy_witness :
  isHealthy (watcherFinished (BusError "no reply")
    (HealthCheckRequest_startRequest online silent (setManager (Some 0) newHealthCheckRequest))) = true.
Proof.
  eapply (lost_health_check_is_healthy online "no reply"
            (setManager (Some 0) newHealthCheckRequest) 0); done.
Defined.

(** A decryption with a plugin that the daemon does not have is reported to the
    application as a success with no plain text: the daemon refuses the request
    with an error, but sends the verification status as a number; the reply is
    then not of the types that the client expects, and the error that Qt makes of
    it is read as a successful result with default values. *)
Theorem refused_decryption_succeeds `{!QDataStream} env plugins pid id connected m q :
  cr_manager q = Some m → connected m = true → cr_status q ≠ Active →
  plugins !! mappedPluginName env (decrypt_cryptoPluginName (cr_parameters q)) = None →
  ∃ c r out,
    let q1 := DecryptRequest_startRequest connected silent q in
    let q2 := watcherFinished (Answer r out) q1 in
    last (cr_trace q1) = Some (Called c)
    ∧ cq_handlePendingRequest env plugins (CryptoDBusObject env c).1 pid id
        (CryptoDBusObject env c).2 = Some (CReturn r [])
    ∧ c_ok r = false
    ∧ (cq_pendingReply (CryptoDBusObject env c).1 r []).1 = Some (r, out)
    ∧ cr_status q2 = Finished ∧ c_ok (cr_result q2) = true
    ∧ cr_values q2 = [CVBytes ""; CVVerificationStatus 0].
Proof.
  intros Hm Hc Hs Hp. set (p := cr_parameters q) in *.
  exists (XDecrypt (decrypt_data p) (decrypt_initializationVector p) (decrypt_key p)
            (decrypt_blockMode p) (decrypt_padding p) (decrypt_authenticationData p)
            (decrypt_authenticationTag p) (decrypt_customParameters p) (decrypt_cryptoPluginName p)),
    (cresult_error InvalidCryptographicServiceProvider
       "No such cryptographic service provider plugin exists"),
    [CVBytes ""; CVNumber VerificationStatusUnknown].
  unfold DecryptRequest_startRequest.
  erewrite (start_remote _ m); [|done..|]; swap 1 2.
  { simpl. unfold cm_decrypt, cm_call. rewrite Hc. done. }
  split_and!; try done.
  - simpl. by rewrite last_snoc.
  - rewrite cq_dispatch_direct. f_equal. simpl. unfold rp_decrypt, rp_with_key, rp_with_plugin.
    by rewrite (bool_decide_eq_true_2 _ Hp).
Qed.

Lemma refused_decryption_succeeds_witness :
  ∃ c r out,
    cq_handlePendingRequest crypto_env ∅ (CryptoDBusObject crypto_env c).1 7 1
        (CryptoDBusObject crypto_env c).2 = Some (CReturn r []) ∧ c_ok r = false
    ∧ c_ok (cr_result (watcherFinished (Answer r out) decryption_started)) = true.
Proof.
  destruct (refused_decryption_succeeds crypto_env ∅ 7 1 online 0 decryption eq_refl eq_refl)
    as (c & r & out & _ & H1 & H2 & _ & _ & H3 & _); [done|apply lookup_empty|].
  exists c, r, out. done.
Defined.

(** An identifier that differs from the one set before only in the storage
    plugin is not taken over by a request: the comparison leaves the plugin out.
    A deletion is then asked for in the plugin that was set before. *)
Theorem other_storage_is_ignored connected ui m i i' (q : SecretsRequest DeleteSecretParameters) :
  deleteSecret_identifier (cr_parameters q) = i →
  ident_name i' = ident_name i → ident_collectionName i' = ident_collectionName i →
  identifier_isValid i = true →
  deleteSecret_userInteractionMode (cr_parameters q) ≠ ApplicationInteraction →
  cr_manager q = Some m → connected m = true → cr_status q ≠ Active →
  let q' := DeleteSecretRequest_setIdentifier i' q in
  q' = q
  ∧ last (cr_trace (DeleteSecretRequest_startRequest connected ui silent q'))
    = Some (Called (DDeleteSecret i (deleteSecret_userInteractionMode (cr_parameters q)) "")).
Proof.
  intros Hi Hn Hcol Hv Hmode Hm Hc Hs q'. subst i.
  assert (Hq : q' = q).
  { assert (He : identifier_eqb (deleteSecret_identifier (cr_parameters q)) i' = true).
    { unfold identifier_eqb. by rewrite Hn, Hcol, !bool_decide_eq_true_2. }
    unfold q', DeleteSecretRequest_setIdentifier, setParameter. by rewrite He, andb_false_r. }
  split; [done|]. rewrite Hq. unfold DeleteSecretRequest_startRequest.
  erewrite (start_remote _ m); [simpl; by rewrite last_snoc|done..|]. simpl.
  unfold sm_deleteSecret, sm_call, sm_for_valid, sm_with_address, registerInteractionService.
  rewrite Hc, Hv, (bool_decide_eq_false_2 _ Hmode). done.
Qed.

Definition deletion : SecretsRequest DeleteSecretParameters :=
  setManager (Some 0)
    (DeleteSecretRequest_setIdentifier (mkIdentifier "pin" "bank" "sqlite") newDeleteSecretRequest).

Lemma other_storage_is_ignored_witness :
  DeleteSecretRequest_setIdentifier (mkIdentifier "pin" "bank" "cipher") deletion = deletion
  ∧ last (cr_trace (DeleteSecretRequest_startRequest online (λ _, None) silent
       (DeleteSecretRequest_setIdentifier (mkIdentifier "pin" "bank" "cipher") deletion)))
    = Some (Called (DDeleteSecret (mkIdentifier "pin" "bank" "sqlite") PreventInteraction "")).
Proof.
  apply (other_storage_is_ignored online (λ _, None) 0 (mkIdentifier "pin" "bank" "sqlite")
           (mkIdentifier "pin" "bank" "cipher") deletion); done.
Defined.

Definition calls {P V R Call} (q : ClientRequest P V R Call) : list Call :=
  omap (λ e, match e with Called c => Some c | Emitted _ => None end) (cr_trace q).

Lemma calls_emit_all {P V R Call} signals (q : ClientRequest P V R Call) :
  calls (emit_all signals q) = calls q.
Proof.
  revert q. induction signals as [|s l IH]; intros q; [done|].
  change (emit_all (s :: l) q) with (emit_all l (emit s q)). rewrite IH.
  unfold calls. simpl. rewrite omap_app. simpl. by rewrite app_nil_r.
Qed.

Lemma calls_activate {P V R Call} `{!RequestResult R} (q : ClientRequest P V R Call) :
  calls (activate q) = calls q.
Proof.
  unfold activate. case_match; [exact (calls_emit_all ["statusChanged"] (with_status Active q))|].
  etransitivity; [exact (calls_emit_all ["resultChanged"] (with_result _ _))|].
  exact (calls_emit_all ["statusChanged"] (with_status Active q)).
Qed.

(** The deletion of a secret by an application that is not connected to the
    daemon is reported as a success: the daemon is not called, and the request
    finishes with the result Succeeded. *)
Theorem unconnected_deletion_succeeds connected ui m reply
  (q : SecretsRequest DeleteSecretParameters) :
  cr_manager q = Some m → connected m = false → cr_status q ≠ Active →
  let q' := watcherFinished reply (DeleteSecretRequest_startRequest connected ui silent q) in
  cr_status q' = Finished ∧ ok (cr_result q') = true ∧ calls q' = calls q.
Proof.
  intros Hm Hc Hs q'. unfold q', DeleteSecretRequest_startRequest, startRequest.
  rewrite Hm, (bool_decide_eq_false_2 _ Hs). simpl. unfold sm_deleteSecret, sm_call. rewrite Hc.
  simpl. unfold watcherFinished. simpl. split_and!; [done..|].
  unfold finish. rewrite calls_emit_all. exact (calls_activate q).
Qed.

Lemma unconnected_deletion_succeeds_witness :
  ok (cr_result (watcherFinished (BusError "")
    (DeleteSecretRequest_startRequest (λ _, false) (λ _, None) silent deletion))) = true
  ∧ calls (watcherFinished (BusError "")
    (DeleteSecretRequest_startRequest (λ _, false) (λ _, None) silent deletion)) = [].
Proof.
  apply (unconnected_deletion_succeeds (λ _, false) (λ _, None) 0 (BusError "") deletion); done.
Defined.

(** * On the bus *)

(** What the C++ types of the arguments guarantee. *)
Definition secrets_call_wf (c : DBusCall) : Prop :=
  match c with
  | DUserInput ip | DSetSecret _ ip _ _ | DSetDeviceLockSecret _ _ ip _ _ _ _
  | DSetCustomLockSecret _ _ _ ip _ _ _ _ | DModifyLockCode _ _ ip _ _ | DProvideLockCode _ _ ip _ _
  | DForgetLockCode _ _ ip _ _ => canonical (ip_operation ip)
  | _ => True
  end.

Definition crypto_call_wf (c : CryptoCall) : Prop :=
  match c with
  | XGenerateKey k _ _ _ _ | XSign _ k _ _ _ _ | XVerify _ _ k _ _ _ _ | XEncrypt _ _ k _ _ _ _ _
  | XDecrypt _ _ k _ _ _ _ _ _ | XInitializeCipherSession _ k _ _ _ _ _ _ _ => key_wf k
  | XGenerateStoredKey k _ _ ip _ _ | XImportStoredKey _ k ip _ _ =>
      key_wf k ∧ canonical (ip_operation ip)
  | XImportKey _ ip _ _ | XModifyLockCode _ _ ip | XProvideLockCode _ _ ip | XForgetLockCode _ _ ip =>
      canonical (ip_operation ip)
  | _ => True
  end.

(** What QtDBus tells slots apart by. *)
Definition slot_key {A} (s : Slot A) : string * string := (slot_name A s, signatures (slot_types A s)).

(** Finds the slot and gives it the values. *)
Ltac arrives :=
  match goal with
  | |- receive ?slots (?f ?x ?c) = Some ?c =>
      let m := eval cbv delta [crypto_message secrets_message] beta iota in (f x c) in
      change (f x c) with m;
      lazymatch m with
      | call ?name ?args =>
          let r := eval vm_compute in
            (find_slot name (signatures ((λ a, projT1 a) <$> args)) slots) in
          lazymatch r with
          | Some ?s =>
              apply (receive_call slots s args c); [vm_compute; reflexivity|];
              repeat (first [apply fits_nil | apply fits_cons; [by simpl; intuition|]])
          end
      end
  end.

(** C28: Every call of the client libraries but getPluginInfo, which has no
    arguments, arrives at the daemon as it was made: for each function of the two
    managers there is exactly one slot of the daemon's object that has the name and
    the types of its message - also where several slots have one name - and the
    values that the slot is called with are those that the client gave, whatever
    they are (enumerations have values of their types, custom parameters are maps of
    strings). *)
Theorem messages_arrive `{!QDataStream, !QDataStreamLaws _} x :
  (∀ c, secrets_call_wf c → receive secrets_slots (secrets_message x c) = Some c)
  ∧ (∀ c, crypto_call_wf c → receive crypto_slots (crypto_message x c) = Some c)
  ∧ NoDup (slot_key <$> secrets_slots) ∧ NoDup (slot_key <$> crypto_slots).
Proof.
  split_and!; [intros c Hc; destruct c; simpl in Hc; arrives; by destruct op; apply fits_nil
              |intros c Hc; destruct c; simpl in Hc; arrives
              |apply (bool_decide_unpack _); vm_compute; exact I..].
Qed.

Definition no_texts : LeftOut := mkLeftOut ∅ 0 0 0 0 ∅.

Lemma messages_arrive_witness :
  receive crypto_slots
    (crypto_message no_texts (XSign "data" (set_private "" "secret" key_reference) 0 0 ∅ "openssl"))
  = Some (XSign "data" (set_private "" "secret" key_reference) 0 0 ∅ "openssl").
Proof.
  apply (proj1 (proj2 (messages_arrive no_texts))). exact example_key_wf.
Defined.

(** The information about plugins that the secrets service sends cannot be read:
    the name is written where the version is expected, so that a text is read as a
    number, although signature and type of the reply agree.  That of the crypto
    service is read as it was written. *)
Theorem plugin_info_unreadable i j rest :
  read_PluginInfo (write_PluginInfo i ++ rest) = None
  ∧ signature_of 0 (write_PluginInfo i) = signature_of 0 (write_PluginInfo j)
  ∧ read_CryptoPluginInfo (write_CryptoPluginInfo i ++ rest) = Some (i, rest).
Proof. by destruct i. Qed.

(** * From the application to the processor *)

(** A request with the parameters [p] that can be started. *)
Record ready {P V R Call} (m : nat) (p : P) (q : ClientRequest P V R Call) : Prop := mk_ready {
  rd_manager : cr_manager q = Some m;
  rd_status : cr_status q ≠ Active;
  rd_parameters : cr_parameters q = p;
}.

(** A setter of such a request sets the parameter. *)
Lemma ready_set {P V R Call T} m p p' guarded (eqb : T → T → bool) get set signal v
  (q : ClientRequest P V R Call) :
  ready m p q → (eqb (get p) v = true → get p = v) → (∀ p, set (get p) p = p) →
  set v p = p' → ready m p' (setParameter guarded eqb get set signal v q).
Proof.
  intros [Hm Hs <-] He Hset <-.
  assert (Hf : is_setter (setParameter (V:=V) (R:=R) (Call:=Call) guarded eqb get set signal v))
    by apply setParameter_setter.
  split.
  - by rewrite (set_manager _ Hf).
  - by destruct (set_status _ Hf q) as [H|[_ H]]; rewrite H.
  - unfold setParameter. rewrite (bool_decide_eq_false_2 _ Hs), orb_true_r. simpl.
    destruct (eqb (get (cr_parameters q)) v) eqn:E; simpl.
    + rewrite <- (He eq_refl). by rewrite Hset.
    + by destruct (inactivate_fields (with_parameters (set v (cr_parameters q)) q))
        as (_ & _ & _ & -> & _).
Qed.

Lemma same_true {T} `{!EqDecision T} (x y : T) : same x y = true → x = y.
Proof. unfold same. by intros ?%bool_decide_eq_true. Qed.

(** A chain of setters; [equal]: a value that compares equal to the one before
    is equal to it. *)
Ltac all_set equal :=
  lazymatch goal with
  | |- ready _ _ (setParameter _ _ _ _ _ _ _) =>
      eapply ready_set;
        [all_set equal
        |lazymatch goal with |- same _ _ = true → _ => apply same_true | |- _ => exact equal end
        |by intros []
        |simpl; reflexivity]
  | |- _ => split; [eassumption..|eassumption]
  end.

Lemma ready_decryption `{!QDataStream, !QDataStreamLaws _} env plugins pid id x connected m p q :
  connected m = true → key_wf (decrypt_key p) → ready m p q →
  ∃ c,
    last (cr_trace (DecryptRequest_startRequest connected silent q)) = Some (Called c)
    ∧ cr_status (DecryptRequest_startRequest connected silent q) = Active
    ∧ receive crypto_slots (crypto_message x c) = Some c
    ∧ cq_handlePendingRequest env plugins (CryptoDBusObject env c).1 pid id
        (CryptoDBusObject env c).2
      = Some (rp_decrypt env plugins pid id (decrypt_data p) (decrypt_initializationVector p)
                (map_key env (decrypt_key p)) (decrypt_blockMode p) (decrypt_padding p)
                (decrypt_authenticationData p) (decrypt_authenticationTag p)
                (decrypt_customParameters p)
                (mappedPluginName env (decrypt_cryptoPluginName p))).
Proof.
  intros Hc Hk [Hm Hs <-]. unfold DecryptRequest_startRequest. erewrite (start_remote _ m); [|done..|].
  2:{ simpl. unfold cm_decrypt, cm_call. by rewrite Hc. }
  eexists. split_and!; [simpl; by rewrite last_snoc|simpl; apply activate_fields|arrives|].
  by rewrite cq_dispatch_direct.
Qed.

(** C29: A decryption from the application to the processor: the values that were
    set on a request object, in the order in which its class names them, travel over
    the bus unchanged and are those with which the daemon's processor is called, up
    to the mapping of the names of plugins; a key only if it does not compare equal
    to another one that was set before. *)
Theorem decryption_end_to_end `{!QDataStream, !QDataStreamLaws _} env plugins pid id x connected m q
  data iv key blockMode padding authenticationData authenticationTag custom plugin :
  cr_manager q = Some m → connected m = true → cr_status q ≠ Active →
  (key_eqb (decrypt_key (cr_parameters q)) key = true → decrypt_key (cr_parameters q) = key) →
  key_wf key →
  let q' :=
    DecryptRequest_startRequest connected silent
      (DecryptRequest_setCryptoPluginName plugin
      (DecryptRequest_setCustomParameters custom
      (DecryptRequest_setAuthenticationTag authenticationTag
      (DecryptRequest_setAuthenticationData authenticationData
      (DecryptRequest_setPadding padding
      (DecryptRequest_setBlockMode blockMode
      (DecryptRequest_setKey key
      (DecryptRequest_setInitializationVector iv
      (DecryptRequest_setData data q))))))))) in
  ∃ c,
    last (cr_trace q') = Some (Called c) ∧ cr_status q' = Active
    ∧ receive crypto_slots (crypto_message x c) = Some c
    ∧ cq_handlePendingRequest env plugins (CryptoDBusObject env c).1 pid id
        (CryptoDBusObject env c).2
      = Some (rp_decrypt env plugins pid id data iv (map_key env key) blockMode padding
                authenticationData authenticationTag custom (mappedPluginName env plugin)).
Proof.
  intros Hm Hc Hs Hk Hwf q'.
  destruct (cr_parameters q) as [d0 i0 k0 b0 p0 ad0 t0 c0 n0] eqn:Hp0. simpl in Hk.
  assert (Hq : ready m (mkDecryptParameters data iv key blockMode padding authenticationData
                          authenticationTag custom plugin)
      (DecryptRequest_setCryptoPluginName plugin
      (DecryptRequest_setCustomParameters custom
      (DecryptRequest_setAuthenticationTag authenticationTag
      (DecryptRequest_setAuthenticationData authenticationData
      (DecryptRequest_setPadding padding
      (DecryptRequest_setBlockMode blockMode
      (DecryptRequest_setKey key
      (DecryptRequest_setInitializationVector iv
      (DecryptRequest_setData data q)))))))))).
  { unfold DecryptRequest_setCryptoPluginName, DecryptRequest_setCustomParameters,
      DecryptRequest_setAuthenticationTag, DecryptRequest_setAuthenticationData,
      DecryptRequest_setPadding, DecryptRequest_setBlockMode, DecryptRequest_setKey,
      DecryptRequest_setInitializationVector, DecryptRequest_setData.
    all_set Hk. }
  unfold q'. refine (ready_decryption env plugins pid id x connected m _ _ Hc _ Hq). exact Hwf.
Qed.

Definition whole_key : CKey := set_private "" "secret" key_reference.

Lemma decryption_end_to_end_witness :
  ∃ c,
    last (cr_trace (DecryptRequest_startRequest online silent
      (DecryptRequest_setCryptoPluginName "openssl"
      (DecryptRequest_setCustomParameters ∅
      (DecryptRequest_setAuthenticationTag "tag"
      (DecryptRequest_setAuthenticationData "ad"
      (DecryptRequest_setPadding 0
      (DecryptRequest_setBlockMode 2
      (DecryptRequest_setKey whole_key
      (DecryptRequest_setInitializationVector "iv"
      (DecryptRequest_setData "data" decryption))))))))))) = Some (Called c)
    ∧ cq_handlePendingRequest crypto_env crypto_plugins (CryptoDBusObject crypto_env c).1 7 1
        (CryptoDBusObject crypto_env c).2
      = Some (rp_decrypt crypto_env crypto_plugins 7 1 "data" "iv" whole_key 2 0 "ad" "tag" ∅
                "openssl").
Proof.
  destruct (decryption_end_to_end crypto_env crypto_plugins 7 1 no_texts online 0 decryption "data" "iv"
    whole_key 2 0 "ad" "tag" ∅ "openssl" eq_refl eq_refl ltac:(done) ltac:(done) example_key_wf)
    as (c & H1 & _ & _ & H2).
  exists c. split; [exact H1|exact H2].
Defined.

(** * Cipher sessions *)

Lemma updated_manager r data q : ci_manager (cipher_updated r data q) = ci_manager q.
Proof. unfold cipher_updated, cipher_settle. repeat case_match; simplify_eq; done. Qed.

Lemma drain_manager replies queue : ∀ q,
  ci_manager (cipher_drain replies queue q) = ci_manager q.
Proof.
  induction queue as [|[w mode] rest IH]; intros q; simpl; [done|]. case_bool_decide; [|done].
  case_match. destruct p as [[? ?] ?]. by rewrite IH, updated_manager.
Qed.

(** C27: A session that is fed while replies are awaited.  Whatever the order in
    which the replies to the updates arrive, the results and data are announced to
    the application in the order of the calls, each once: what was announced,
    followed by the replies of the watchers in the queue, are the replies to the
    calls.  Nothing that could be announced is held back: the first watcher of the
    queue is always one whose reply has not arrived; and when all replies have
    arrived, all are announced and the request is no longer active. *)
Theorem updates_in_order connected replies m q0 q :
  ci_manager q0 = Some m → connected m = true → ci_cipherSessionToken q0 ≠ 0%Z →
  ci_watcherQueue q0 = [] → ci_completedHash q0 = ∅ →
  rtc (update_step connected replies) q0 q →
  ∃ ws ds,
    called q = called q0 ++ ws ∧ delivered q = delivered q0 ++ ds
    ∧ ds ++ (update_reply replies <$> (ci_watcherQueue q).*1) = update_reply replies <$> ws
    ∧ (∀ w, head (ci_watcherQueue q).*1 = Some w → w ∉ ci_completedHash q)
    ∧ ((∀ w, w ∈ (ci_watcherQueue q).*1 → w ∈ ci_completedHash q) → ws ≠ [] →
       ds = update_reply replies <$> ws ∧ ci_status q ≠ Active).
Proof.
  intros Hm Hc Ht Hq Hh Hsteps.
  assert (Hinv : ∃ ws ds, updating replies (called q0) (delivered q0) ws ds q ∧ settled ws q
                          ∧ ci_manager q = Some m).
  { revert Hsteps. apply (rtc_ind_r (λ q, ∃ ws ds, updating replies (called q0) (delivered q0) ws ds q
                          ∧ settled ws q ∧ ci_manager q = Some m)).
    { exists [], []. split_and!; [|split; by rewrite Hq|done].
      split; rewrite ?Hq, ?Hh, ?app_nil_r; try done; constructor. }
    intros q1 q2 _ Hstep (ws & ds & Hup & Hset & Hm1). destruct Hstep as [v q1|q1 Hmode|w q1 q2 Hin _ Hf].
    - destruct (setData_spec replies _ _ _ _ v q1 Hup Hset) as (? & ? & Hm2).
      exists ws, ds. by rewrite Hm2.
    - destruct (start_spec connected replies _ _ _ _ m q1 Hm1 Hc Hmode Hup Hset) as (? & ? & Hm2).
      exists (ws ++ [ci_created q1]), ds. by rewrite Hm2.
    - destruct (finish_spec replies _ _ _ _ w q1 q2 Hin Hup Hset Hf) as [[ds' ?] ?].
      exists ws, ds'. split_and!; [done..|]. injection Hf as <-. by rewrite drain_manager. }
  destruct Hinv as (ws & ds & [Uc Ud Uo Um Uf Un Uh Ut Ua] & [Hhead Hend] & _).
  exists ws, ds. split_and!; [done..|]. intros Hall Hws.
  assert (Hnil : ci_watcherQueue q = []).
  { destruct (ci_watcherQueue q) as [|w l]; [done|].
    destruct (Hhead w.1); [done|]. apply Hall. simpl. by left. }
  rewrite Hnil in Uo. simpl in Uo. rewrite app_nil_r in Uo. split; [done|]. by apply Hend.
Qed.

(** A run: two updates, of which the second is answered first. *)
Definition session_replies (w : nat) : CryptoReply :=
  Answer c_done [if bool_decide (w = 0) then CVBytes "first" else CVBytes "second"].
Definition open_session : CipherRequest :=
  ci_with_token 5
    (CipherRequest_setCipherMode UpdateCipher (CipherRequest_setManager (Some 0) (newCipherRequest 1))).
Definition session_started : CipherRequest :=
  CipherRequest_startRequest online session_replies false
    (CipherRequest_setData "b"
       (CipherRequest_startRequest online session_replies false
          (CipherRequest_setData "a" open_session))).
Definition session_second : CipherRequest :=
  default session_started (CipherRequest_finished session_replies 1 UpdateCipher session_started).
Definition session_first : CipherRequest :=
  default session_second (CipherRequest_finished session_replies 0 UpdateCipher session_second).

Lemma session_reachable : rtc (update_step online session_replies) open_session session_first.
Proof.
  transitivity session_started.
  { unfold session_started. eapply rtc_l; [apply (update_data _ _ "a")|].
    eapply rtc_l; [apply update_start; vm_compute; reflexivity|].
    eapply rtc_l; [apply (update_data _ _ "b")|].
    apply rtc_once, update_start. vm_compute. reflexivity. }
  transitivity session_second; apply rtc_once.
  - apply (update_finish _ _ 1).
    + apply list_elem_of_In. vm_compute. auto.
    + apply (bool_decide_unpack _). vm_compute. exact I.
    + vm_compute. reflexivity.
  - apply (update_finish _ _ 0).
    + apply list_elem_of_In. vm_compute. auto.
    + apply (bool_decide_unpack _). vm_compute. exact I.
    + vm_compute. reflexivity.
Qed.

Lemma updates_in_order_witness :
  called session_first = [0; 1]
  ∧ delivered session_second = [] ∧ delivered session_first = [(c_done, "first"); (c_done, "second")]
  ∧ ∃ ws ds, called session_first = called open_session ++ ws
             ∧ delivered session_first = delivered open_session ++ ds
             ∧ ds ++ (update_reply session_replies <$> (ci_watcherQueue session_first).*1)
               = update_reply session_replies <$> ws.
Proof.
  split; [vm_compute; reflexivity|]. split; [vm_compute; reflexivity|].
  split; [vm_compute; reflexivity|].
  destruct (updates_in_order online session_replies 0 open_session session_first eq_refl eq_refl
    ltac:(done) eq_refl eq_refl session_reachable) as (ws & ds & H1 & H2 & H3 & _).
  exists ws, ds. done.
Defined.

(** A step of a session that was not initialized is never answered: updating
    or finalizing while there is no session makes the request active and calls
    nothing, and then no setter, no further start and no reply makes it inactive
    or finished, or leads to a call of the daemon. *)
Theorem uninitialized_session_is_stuck connected replies now q m q' :
  ci_manager q = Some m → cipher_cipherMode (ci_parameters q) ≠ InitializeCipher →
  ci_cipherSessionToken q = 0%Z → ci_watcherQueue q = [] →
  rtc (cipher_step connected replies) (CipherRequest_startRequest connected replies now q) q' →
  ci_status q' = Active ∧ called q' = called q.
Proof.
  intros Hm Hmode Ht Hq Hsteps.
  destruct (activate_spec q) as (Hc & _ & Hqu & _ & _ & Hto & Hp & _ & Hs).
  assert (Hst : CipherRequest_startRequest connected replies now q = cipher_activate q).
  { unfold CipherRequest_startRequest. rewrite Hm, Hp, bool_decide_eq_true_2 by congruence.
    by destruct (cipher_cipherMode (ci_parameters q)). }
  rewrite Hst in Hsteps.
  assert (Hinv : abandoned q' ∧ called q' = called q).
  { revert Hsteps. apply (rtc_ind_r (λ q', abandoned q' ∧ called q' = called q)).
    - split; [|done]. split; congruence.
    - intros q1 q2 _ Hstep [Hab Hca]. destruct (step_abandoned _ _ _ _ Hstep Hab). split; congruence. }
  split; [apply Hinv|apply Hinv].
Qed.

Definition unopened_session : CipherRequest :=
  CipherRequest_setCipherMode UpdateCipher (CipherRequest_setManager (Some 0) (newCipherRequest 1)).

Lemma uninitialized_session_is_stuck_witness :
  ci_status (CipherRequest_setCipherMode InitializeCipher
    (CipherRequest_startRequest online session_replies false unopened_session)) = Active
  ∧ called (CipherRequest_setCipherMode InitializeCipher
    (CipherRequest_startRequest online session_replies false unopened_session)) = [].
Proof.
  apply (uninitialized_session_is_stuck online session_replies false unopened_session 0);
    [reflexivity|discriminate|reflexivity|reflexivity|].
  apply rtc_once. apply cipher_set, setter_cipherMode.
Defined.
